(* ===== verification/_CoqProject ===== *)
-Q . S2P
Prelude.v
Errors.v
Rent.v
Account.v
Pubkey.v
TransactionContext.v
RuntimeRules.v
CallStack.v
Sysvars.v
EpochSchedule.v
SysvarCache.v
FeatureSet.v
Nonce.v
SystemProgram.v
Effects.v
SystemRules.v
NonceRules.v
SystemDemo.v
InvokeContext.v
InvokeRules.v
ProcessRules.v
SystemContract.v
BTreeMap.v
VoteState.v
Votes.v
VoteRules.v
TowerRules.v
VoterRules.v
Message.v
SystemInstructions.v
MessageRules.v
MessageProcessor.v
VoteProgram.v
VoteAuthority.v
StakeState.v
StakeBorsh.v
ConfigProgram.v
StakeActivation.v
StakeProgram.v
StakeContract.v
ConfigRules.v
StakeMachine.v
StakeSteps.v
StakeTransfers.v
StakeCodec.v
StakeRefinement.v
StakeCustody.v
StakeRewards.v
SystemCalls.v
LookupTable.v
TableContract.v
TableMachine.v
TableRules.v
OwnerRules.v
Builtins.v
BankPrograms.v
TableCustody.v
AccountLocks.v
LockRules.v
RollingBits.v
StatusCache.v
BankForks.v
OnceRules.v
ProcessedOnce.v
Client.v
ClientCpi.v
ClientRules.v
ClientAccounts.v
TransferRules.v
Kit.v
JsClient.v
JsRules.v
ClientDemo.v
JsDemo.v
InvokeDemo.v
VoteDemo.v
StakeDemo.v
ConfigDemo.v
TableDemo.v
LockDemo.v
