(* ===== verification/Prelude.v ===== *)
(** * The Solana system program, its clients and the runtime around it

    ** The program

    The repository holds the clients of the system program
    ([src/clients/rust], [src/clients/js]), its interface
    ([src/program/idl.json]), and the sources of the runtime that executes it
    ([src/solana]).  An instruction takes this path:

    - a client or the SDK makes an instruction from accounts and arguments, or
      a program invokes one (files [Client], [ClientCpi], [JsClient],
      [SystemInstructions]);
    - instructions are compiled into a message, and a message is sanitized
      ([Message]);
    - the message processor runs the instructions one after the other through
      the invoke context, which checks privileges, call depth and reentrancy
      and the balance of lamports around every call ([MessageProcessor],
      [InvokeContext], [TransactionContext]);
    - a builtin program decodes the instruction and changes accounts through
      [BorrowedAccount], which enforces the rules on who may change what:
      here the system program with its durable nonces ([SystemProgram],
      [Nonce]), the vote program ([VoteProgram], [Votes], [VoteState]), the
      stake program with its rewards ([StakeProgram], [StakeState],
      [StakeRewards]), the config program ([ConfigProgram]), the address lookup
      table program ([LookupTable]) and the compute budget program
      ([Builtins]);
    - the bank registers these programs ([BankPrograms]), and locks the
      accounts of the transactions it runs at the same time ([AccountLocks]);
      it admits a transaction whose blockhash is recent, or that uses a nonce,
      and that the status cache does not know on its fork ([BankForks],
      [StatusCache], [RollingBits]);
    - programs read the chain through sysvars ([Sysvars], [EpochSchedule],
      [Rent], [SysvarCache]).

    ** Conventions

    A Rust integer is a [Z] with a range; checked, saturating and wrapping
    arithmetic are written out.  A function that may fail or panic returns an
    [Outcome] ([Ok], [Err], [Panic]).  Code that changes shared state is in the
    monad [M S E A] of functions from a state to an outcome and a state: an
    error keeps the changes made before it, as in the source.  The accounts of
    a transaction are cells with a borrow flag, so a second borrow fails
    where the code makes it fail, and a borrow is released at the end of
    its scope ([borrowing], [finally]).  A struct is a record, an enum an
    inductive type; names are those of the source, with the type or file as a
    module or prefix where Rust has a method or a path.

    Code that is not in the repository is a class with its documented
    behaviour as laws: hashing and the curve ([Hashing], [Curve]), bincode and
    borsh ([Bincode], [BincodeLimited], [Borsh], [BorshRead]), the codecs of
    the package @solana/kit ([Kit], [KitOk]), identifiers that
    are base 58 constants ([ProgramIds], [MessageIds], [FeatureIds],
    [LookupTableIds], [BuiltinIds]), the cast of bytes to addresses
    ([CastSlice]), the entrypoints of the loaders ([Loaders]), the lookup of
    builtin programs.  The files named [...Demo] give instances and
    use every theorem with hypotheses on a concrete input.

    ** Files

    - [Prelude]: integers, outcomes, the monad with its rules [wp*], relations
      kept by a computation ([keeps], hint database [keeps]).
    - [Errors]: [sdk/program/src/instruction.rs],
      [sdk/program/src/program_error.rs]: errors and their codes.
    - [Rent]: [sdk/program/src/rent.rs], with double precision arithmetic.
    - [Account], [Pubkey]: [sdk/src/account.rs], [sdk/program/src/pubkey.rs].
    - [TransactionContext]: [sdk/src/transaction_context.rs]: accounts, the
      stack of instructions, [BorrowedAccount].  [RuntimeRules]: the rules a
      sequence of its methods obeys.  [CallStack]: [push] and [pop] as a step
      relation.
    - [Sysvars], [EpochSchedule], [SysvarCache], [FeatureSet]: the data the
      runtime provides to programs.
    - [Nonce], [SystemProgram]: [sdk/program/src/nonce],
      [programs/system/src].  [Effects], [SystemRules], [NonceRules],
      [SystemContract]: what the system program does.  [SystemDemo]: its
      witnesses.
    - [InvokeContext]: [program-runtime/src/invoke_context.rs].
      [InvokeRules], [ProcessRules]: what it guarantees, for all programs that
      satisfy the interface [ProgramOk].
    - [BTreeMap], [VoteState], [Votes], [VoteProgram]:
      [sdk/program/src/vote], [programs/vote/src].  [VoteRules],
      [TowerRules], [VoterRules], [VoteAuthority]: their
      properties.  [VoteDemo]: their witnesses.
    - [Message]: [sdk/program/src/message].  [MessageRules]: compilation and
      sanitization.  [MessageProcessor]:
      [program-runtime/src/message_processor.rs] with its theorems.
      [InvokeDemo]: the witnesses on calls, messages and transfers.
      [TransferRules]: a transfer from end to end.
    - [StakeState], [StakeBorsh]: [sdk/program/src/stake]: states, delegations
      and their layout.  [StakeProgram]: [programs/stake/src].
      [StakeActivation]: warmup and cooldown.  [StakeContract], [StakeMachine],
      [StakeSteps], [StakeTransfers], [StakeCodec], [StakeRefinement],
      [StakeCustody]: the rules the program obeys, the abstract machine and the
      refinement.  [StakeRewards]: [points.rs], [rewards.rs] and the history of
      the cluster.  [StakeDemo]: the witnesses.
    - [ConfigProgram], [ConfigRules], [ConfigDemo]: [programs/config/src].
    - [SystemCalls]: what a builtin program may assume of its calls of the
      system program, and that the runtime satisfies it.
    - [LookupTable]: [sdk/program/src/address_lookup_table],
      [programs/address-lookup-table/src], and how the bank resolves the tables
      of a message.  [TableContract], [TableMachine], [TableRules]: the rules
      it obeys, the abstract machine and the refinement.  [TableDemo]: the
      witnesses, and those of the bank's programs.
    - [OwnerRules]: the interface [ProgramWithin], under which a message changes
      the accounts of an owner only by steps of a relation.  [Builtins]: the
      builtin programs satisfy it.  [TableCustody]: its use for lookup tables.
    - [BankPrograms]: [runtime/src/builtins.rs],
      [sdk/src/precompiles.rs] and the registration in [runtime/src/bank.rs].
    - [AccountLocks], [LockRules], [LockDemo]: the lock table of
      [accounts-db/src/accounts.rs], [runtime/src/transaction_batch.rs] and the
      batches of [runtime/src/bank.rs] and
      [ledger/src/blockstore_processor.rs].
    - [RollingBits]: [accounts-db/src/rolling_bit_field.rs] and
      [ancestors.rs].  [StatusCache]: [accounts-db/src/blockhash_queue.rs] and
      [runtime/src/status_cache.rs].  [BankForks]: the checks, ticks and forks
      of [runtime/src/bank.rs] and [runtime/src/bank_forks.rs], and the tree of
      banks.  [OnceRules]: the machine of all banks and batches, its invariant
      and the steps inside a bank.  [ProcessedOnce]: the steps between banks
      and the theorem.  Their witnesses are in [LockDemo].
    - [SystemInstructions]: [sdk/program/src/system_instruction.rs] (the
      constructors), [program.rs], [account_info.rs].
    - [Client], [ClientCpi], [ClientAccounts]: [src/clients/rust]: for each of
      the thirteen instructions the module [X] is the struct of accounts with
      its [instruction], [XBuilder], [XCpi] and [XCpiBuilder] are the builder,
      the call and the builder of the call.  [ClientRules]: their theorems.
      [ClientDemo]: their witnesses.
    - [Kit], [JsClient]: [src/clients/js]: for each instruction the module
      [JsX] has its codecs, [getXInstruction] and [parseXInstruction]; then
      [identifySystemInstruction], nonce accounts and errors.  [JsRules]:
      their theorems.  [JsDemo]: an implementation of the codecs, with
      addresses in base 58, and the witnesses.

    ** What is proved

    - Rules of the runtime, for every sequence of calls a program can make:
      only the owner takes lamports or writes data, growth is accounted
      ([RuntimeRules]); a call stack stays consistent and a call that returns
      without an error conserves lamports ([CallStack]).
    - Calls: no privilege is gained by calling, no program is entered again
      except by itself, heap blocks are disjoint ([InvokeRules]); an
      instruction with all its nested calls conserves lamports and its
      recursion is bounded by the room on the stack ([ProcessRules]).
      These are proved against [ProgramOk], which [SystemContract],
      [VoteAuthority], [StakeContract], [ConfigRules], [TableContract] and
      [Builtins] show of the builtin programs.
    - Messages: messages of at most 255 keys compile, keep the privileges and
      accounts asked for and pass [sanitize], which an example of 257 keys does
      not ([InvokeDemo]); a processed message conserves lamports and its error
      is that of the first instruction that fails ([MessageRules],
      [MessageProcessor]).  [TransferRules] puts the parts together: a
      transfer from the client's instruction to the balances.
    - System program: lamports are conserved, a debit has its signature, account
      creation is exact, all runs obey the rules of the runtime; nonce accounts
      refine an abstract nonce machine and a nonce is used once.
    - Vote program: votes keep the tower well formed and on the fork, are
      accepted when they are on it, and do not panic; an update of the tower
      takes nothing back and ends; authorized voters refine a function from
      epochs; credits are exact; only the withdrawer takes lamports or changes
      identity, commission and withdrawer; it signs itself, or its address is
      derived from a base that signs.
    - Stake program: it refines a machine of single-account and two-account
      steps; nobody loses lamports they may withdraw or that are locked for
      them; authorities change only by themselves; delegations stay backed by
      lamports; effective stake is bounded and cools down; stored states are
      read back; a round of rewards pays at most its pool, as long as products of
      points and rewards fit 128 bits, and a reward is paid once;
      merging creates no claims.
    - Config program: who signs an update, and that it touches only its
      account.
    - Lookup tables: the program refines a machine of tables; whatever a
      message runs, a table makes only steps of the machine, signed by its
      authority, and the lookups of a slot agree; an address is not used
      again for another table.
    - Bank: the programs without a feature or with an active one are
      registered; registration ends without a panic and keeps
      the capitalization equal to the total of lamports.
    - Locks: over all interleavings of batches no two transactions that hold
      locks conflict and no lock is left behind; a transaction is locked
      exactly if it conflicts with none that is.
    - Forks: over all interleavings of batches on all banks, of blocks that are
      completed, forked, rooted and dumped, a transaction that was admitted by
      its blockhash was not committed on its fork before ([ProcessedOnce]).
      The hypotheses are that the hash of a message stands for the message,
      that a transaction writes its fee payer, that hashes and signatures have
      their widths, and that the hash of a block was not named by a transaction
      before.  The ancestors of a bank are a finite set, except for what
      [get_prior] does at the slot 0, and the queue tells the age of every hash.
    - Clients: both clients make the instructions of the SDK, which the
      program decodes to what was asked for; the calls of the Rust client
      invoke the instruction that its builders make, up to the flags of
      additional accounts; the JavaScript client
      parses what it makes and reads nonce accounts as they were stored.  Two
      theorems state what the Rust client does otherwise: additional accounts
      of a call change their flags, and nonce accounts are read with tags
      of the wrong width.
    - Data: derived addresses, epochs of slots, histories as finite maps, rent
      in floating point, codes of errors.

    ** Bounds and fuel

    [process_instruction] has fuel for nested calls, as a program may call; the
    theorem on fuel shows that the outcome is the same for any fuel above the
    room on the instruction stack, whose capacity the code checks.  Loops over
    two sequences (the check of votes and towers against slot hashes) have the
    sum of the lengths as fuel, and the totality theorems show that it is
    enough.  [find_program_address] runs through the 255 bumps.  The loops over
    the stake history have one more than its length as fuel; each round moves
    to a later entry, and [stake_status_bounded] shows that more fuel gives the
    same.  The loop that makes room in a bit field moves one item per round and
    has their number as fuel, the parents of a bank have the number of banks,
    and the search for a prior slot the slot; that no fuel runs out is part of
    [rolling_field_refines] and of the lemma [chain_spec].
    Lists of machine-sized collections are bounded by hypotheses where the
    code indexes with [u8].

    ** Not modelled

    The Anchor demo: one call of an external crate.
    Logs, timings, tracing and metrics have no effect on results.  The cache
    of loaded programs, the virtual machine and its loaders: builtin programs
    are found by a function that is a parameter.  The proof program needs
    cryptography that is not in the repository.  The compact serialization of
    vote states and the constructors of vote and stake instructions.  The rest
    of the bank (execution of batches, stakes cache, fees, rent collection,
    hashing, snapshots), the
    accounts database, the ledger, consensus, networking, RPC and command
    lines: storage and services around the processing of messages. *)

From Stdlib Require Export ZArith Lia.
From stdpp Require Export base list gmap strings option.

#[global] Open Scope Z_scope.

(** ** Machine integers

    Every Rust integer is a [Z]; its type is a range.  [checked], [saturating]
    and [wrapping] are the three ways the source treats a result that leaves
    the range: [checked_*] returns [None], [saturating_*] clamps, and plain
    arithmetic (release profile) and [as] casts wrap around. *)

Record IntTy := mkIntTy { int_min : Z; int_max : Z }.

Definition U8 := mkIntTy 0 255.
Definition U16 := mkIntTy 0 65535.
Definition U32 := mkIntTy 0 4294967295.
Definition U64 := mkIntTy 0 18446744073709551615.
Definition USIZE := U64.
Definition U128 := mkIntTy 0 340282366920938463463374607431768211455.
Definition I64 := mkIntTy (-9223372036854775808) 9223372036854775807.

Definition in_range (t : IntTy) (z : Z) : Prop := int_min t <= z <= int_max t.

#[global] Instance in_range_dec t z : Decision (in_range t z).
Proof. unfold in_range. apply _. Defined.

Definition checked (t : IntTy) (z : Z) : option Z :=
  if decide (in_range t z) then Some z else None.
Definition saturating (t : IntTy) (z : Z) : Z :=
  Z.max (int_min t) (Z.min (int_max t) z).
Definition wrapping (t : IntTy) (z : Z) : Z :=
  int_min t + (z - int_min t) mod (int_max t - int_min t + 1).

Definition checked_add t (a b : Z) := checked t (a + b).
Definition checked_sub t (a b : Z) := checked t (a - b).
Definition checked_mul t (a b : Z) := checked t (a * b).
Definition saturating_add t (a b : Z) := saturating t (a + b).
Definition saturating_sub t (a b : Z) := saturating t (a - b).
Definition saturating_mul t (a b : Z) := saturating t (a * b).

(** Length of a [Vec] or slice as a [usize]. *)
Definition vec_len {A} (l : list A) : Z := Z.of_nat (length l).

(** [v.get(i)]. *)
Definition vec_get {A} (l : list A) (i : Z) : option A :=
  if decide (0 <= i) then l !! Z.to_nat i else None.

(** [v[i] = x] for an index that is in range; out of range nothing happens, so
    each use guards the index first. *)
Definition vec_set {A} (i : Z) (x : A) (l : list A) : list A :=
  <[Z.to_nat i := x]> l.

(** [iter().position(p)] and [iter().rposition(p)]. *)
Fixpoint position {A} (p : A -> bool) (l : list A) : option Z :=
  match l with
  | [] => None
  | x :: l => if p x then Some 0 else Z.succ <$> position p l
  end.

Definition rposition {A} (p : A -> bool) (l : list A) : option Z :=
  (fun i => vec_len l - 1 - i) <$> position p (reverse l).

(** ** Outcomes

    A Rust call returns, fails with an error of its [Result] type, or
    panics. *)

Inductive Outcome (E A : Type) : Type :=
| Ok (a : A)
| Err (e : E)
| Panic.
Arguments Ok {E A} a.
Arguments Err {E A} e.
Arguments Panic {E A}.

Definition ok_or {E A} (e : E) (o : option A) : Outcome E A :=
  match o with Some a => Ok a | None => Err e end.

Definition unwrap {E A} (o : option A) : Outcome E A :=
  match o with Some a => Ok a | None => Panic end.

Definition outcome_bind {E A B} (m : Outcome E A) (f : A -> Outcome E B) : Outcome E B :=
  match m with Ok a => f a | Err e => Err e | Panic => Panic end.

Definition map_err {E F A} (f : E -> F) (m : Outcome E A) : Outcome F A :=
  match m with Ok a => Ok a | Err e => Err (f e) | Panic => Panic end.

(** [r.unwrap_or(d)], used only on calls that never panic. *)
Definition unwrap_or {E A} (d : A) (m : Outcome E A) : A :=
  match m with Ok a => a | _ => d end.

Definition is_ok {E A} (m : Outcome E A) : bool :=
  match m with Ok _ => true | _ => false end.

(** ** State and errors

    A method on shared state takes the state and gives back an outcome and the
    state it leaves behind, also when it fails: Rust does not roll back. *)

Definition M (S E A : Type) : Type := S -> Outcome E A * S.

Definition ret {S E A} (a : A) : M S E A := fun s => (Ok a, s).
Definition fail {S E A} (e : E) : M S E A := fun s => (Err e, s).
Definition panic {S E A} : M S E A := fun s => (Panic, s).
Definition bind {S E A B} (m : M S E A) (f : A -> M S E B) : M S E B := fun s =>
  match m s with
  | (Ok a, s') => f a s'
  | (Err e, s') => (Err e, s')
  | (Panic, s') => (Panic, s')
  end.

(** A call that does not touch the state. *)
Definition lift {S E A} (o : Outcome E A) : M S E A := fun s => (o, s).
(** A [&self] method: reads the state and leaves it as it is. *)
Definition query {S E A} (q : S -> Outcome E A) : M S E A := fun s => (q s, s).
Definition gets {S E A} (q : S -> A) : M S E A := fun s => (Ok (q s), s).
Definition modify {S E} (f : S -> S) : M S E unit := fun s => (Ok tt, f s).
(** Runs [d] when [m] ends, whatever its outcome: a destructor at the end of
    a scope. *)
Definition finally {S E A} (m : M S E A) (d : S -> S) : M S E A := fun s =>
  let (o, s') := m s in (o, d s').

Declare Scope rust_scope.
Delimit Scope rust_scope with rust.
#[global] Open Scope rust_scope.

Notation "'let?' x ':=' m 'in' k" := (bind m (fun x => k))
  (at level 10, x name, m at level 100, k at level 200,
   format "'[v' 'let?'  x  ':='  m  'in' '/' k ']'") : rust_scope.
Notation "m ;? k" := (bind m (fun _ => k))
  (at level 100, k at level 200, right associativity,
   format "'[v' m  ';?' '/' k ']'") : rust_scope.
Notation "'let!' x ':=' m 'in' k" := (outcome_bind m (fun x => k))
  (at level 10, x name, m at level 100, k at level 200,
   format "'[v' 'let!'  x  ':='  m  'in' '/' k ']'") : rust_scope.

(** The value a run returns and the state it leaves. *)
Definition outcome_of {S E A} (m : M S E A) (s : S) : Outcome E A := fst (m s).
Definition final {S E A} (m : M S E A) (s : S) : S := snd (m s).

(** Runs a method of one part of a larger state. *)
Definition zoom {S T E A} (get : S -> T) (set : T -> S -> S) (m : M T E A) : M S E A :=
  fun s => let (o, t) := m (get s) in (o, set t s).

(** ** Inversion of runs that return *)

Section inversion.
Context {S E : Type}.
Implicit Types s : S.

Lemma bind_ok_inv {A B} (m : M S E A) (f : A -> M S E B) s b s' :
  bind m f s = (Ok b, s') ->
  exists a s1, m s = (Ok a, s1) /\ f a s1 = (Ok b, s').
Proof.
  unfold bind. destruct (m s) as [[a|e|] s1]; intros H; [eauto|congruence..].
Qed.

Lemma ret_ok_inv {A} (a b : A) s s' :
  @ret S E A a s = (Ok b, s') -> b = a /\ s' = s.
Proof. unfold ret. intros [=]. auto. Qed.

Lemma fail_ok_inv {A} (e : E) s (b : A) s' : fail e s = (Ok b, s') -> False.
Proof. discriminate. Qed.

Lemma panic_ok_inv {A} s (b : A) s' : @panic S E A s = (Ok b, s') -> False.
Proof. discriminate. Qed.

Lemma lift_ok_inv {A} (o : Outcome E A) s b s' :
  lift o s = (Ok b, s') -> o = Ok b /\ s' = s.
Proof. unfold lift. intros [=]. auto. Qed.

Lemma query_ok_inv {A} (q : S -> Outcome E A) s b s' :
  query q s = (Ok b, s') -> q s = Ok b /\ s' = s.
Proof. unfold query. intros [=]. auto. Qed.

Lemma gets_ok_inv {A} (q : S -> A) s b s' :
  @gets S E A q s = (Ok b, s') -> b = q s /\ s' = s.
Proof. unfold gets. intros [=]. auto. Qed.

Lemma modify_ok_inv (f : S -> S) s b s' :
  @modify S E f s = (Ok b, s') -> s' = f s.
Proof. unfold modify. intros [=]. auto. Qed.

Lemma finally_inv {A} (m : M S E A) d s o s' :
  finally m d s = (o, s') -> exists s1, m s = (o, s1) /\ s' = d s1.
Proof. unfold finally. destruct (m s) as [o1 s1]. intros [= <- <-]. eauto. Qed.

Lemma zoom_inv {T A} (get : S -> T) set (m : M T E A) s o s' :
  zoom get set m s = (o, s') -> exists t, m (get s) = (o, t) /\ s' = set t s.
Proof. unfold zoom. destruct (m (get s)) as [o1 t]. intros [= <- <-]. eauto. Qed.

End inversion.

Lemma ok_or_ok {E A} (e : E) (o : option A) a : ok_or e o = Ok a -> o = Some a.
Proof. destruct o; simpl; congruence. Qed.

Lemma unwrap_ok {E A} (o : option A) a : unwrap (E:=E) o = Ok a -> o = Some a.
Proof. destruct o; simpl; congruence. Qed.

Lemma outcome_bind_ok {E A B} (m : Outcome E A) (f : A -> Outcome E B) b :
  outcome_bind m f = Ok b -> exists a, m = Ok a /\ f a = Ok b.
Proof. destruct m; simpl; [eauto|congruence..]. Qed.

Lemma map_err_ok {E F A} (f : E -> F) (m : Outcome E A) a :
  map_err f m = Ok a -> m = Ok a.
Proof. destruct m; simpl; congruence. Qed.

(** Takes a run that returned apart: every step is named, every guard that
    was passed becomes a hypothesis. *)
Ltac inv_ok_step H :=
  lazymatch type of H with
  | bind _ _ _ = (Ok _, _) =>
      let a := fresh "a" in let s := fresh "s" in
      let H1 := fresh "Hrun" in let H2 := fresh "Hrun" in
      apply bind_ok_inv in H; destruct H as (a & s & H1 & H2);
      cbv beta in H2; inv_ok_step H1; inv_ok_step H2
  | ret _ _ = (Ok _, _) =>
      apply ret_ok_inv in H;
      let H1 := fresh "Hret" in destruct H as [H1 ->]; try subst
  | fail _ _ = (Ok _, _) => destruct (fail_ok_inv _ _ _ _ H)
  | panic _ = (Ok _, _) => destruct (panic_ok_inv _ _ _ H)
  | lift _ _ = (Ok _, _) =>
      apply lift_ok_inv in H; let H1 := fresh "Hok" in
      destruct H as [H1 ->]; inv_outcome H1
  | query _ _ = (Ok _, _) =>
      apply query_ok_inv in H; let H1 := fresh "Hok" in
      destruct H as [H1 ->]; inv_outcome H1
  | gets _ _ = (Ok _, _) =>
      apply gets_ok_inv in H; destruct H as [-> ->]
  | modify _ _ = (Ok _, _) => apply modify_ok_inv in H; subst
  | (if ?b then _ else _) _ = (Ok _, _) =>
      let Hb := fresh "Hguard" in destruct b eqn:Hb; inv_ok_step H
  | (Ok _, _) = (Ok _, _) => let H1 := fresh in let H2 := fresh in injection H as H1 H2; try subst
  | _ => idtac
  end
with inv_outcome H :=
  lazymatch type of H with
  | ok_or _ _ = Ok _ => apply ok_or_ok in H
  | unwrap _ = Ok _ => apply unwrap_ok in H
  | outcome_bind _ _ = Ok _ =>
      let a := fresh "a" in let H1 := fresh "Hok" in let H2 := fresh "Hok" in
      apply outcome_bind_ok in H; destruct H as (a & H1 & H2);
      cbv beta in H2; inv_outcome H1; inv_outcome H2
  | map_err _ _ = Ok _ => apply map_err_ok in H; inv_outcome H
  | Ok _ = Ok _ => first [injection H as H; try subst | clear H]
  | Err _ = Ok _ => discriminate H
  | Panic = Ok _ => discriminate H
  | (if ?b then _ else _) = Ok _ =>
      let Hb := fresh "Hguard" in destruct b eqn:Hb; inv_outcome H
  | _ => idtac
  end.
Tactic Notation "inv_ok" hyp(H) := inv_ok_step H.

(** ** Weakest preconditions

    [wp m Q s] : running [m] from [s] ends in an outcome and a state that
    satisfy [Q].  [wp_run] executes a method symbolically: every branch the code
    takes becomes a goal, with the tests that lead to it as hypotheses. *)

Definition wp {S E A} (m : M S E A) (Q : Outcome E A -> S -> Prop) (s : S) : Prop :=
  Q (fst (m s)) (snd (m s)).

Section wp.
Context {S E : Type}.

Lemma wp_intro {A} (m : M S E A) Q s o s' : wp m Q s -> m s = (o, s') -> Q o s'.
Proof. unfold wp. intros H Hm. by rewrite Hm in H. Qed.

Lemma wp_elim {A} (m : M S E A) Q s : (forall o s', m s = (o, s') -> Q o s') -> wp m Q s.
Proof. unfold wp. intros H. apply H. by destruct (m s). Qed.

Lemma wp_bind {A B} (m : M S E A) (f : A -> M S E B) Q s :
  wp m (fun o s' => match o with
                    | Ok a => wp (f a) Q s'
                    | Err e => Q (Err e) s'
                    | Panic => Q Panic s'
                    end) s ->
  wp (bind m f) Q s.
Proof. unfold wp, bind. by destruct (m s) as [[]]. Qed.

Lemma wp_finally {A} (m : M S E A) d Q s :
  wp m (fun o s' => Q o (d s')) s -> wp (finally m d) Q s.
Proof. unfold wp, finally. by destruct (m s). Qed.

Lemma wp_zoom {T A} (get : S -> T) set (m : M T E A) Q s :
  wp m (fun o t => Q o (set t s)) (get s) -> wp (zoom get set m) Q s.
Proof. unfold wp, zoom. by destruct (m (get s)). Qed.

Lemma wp_mono {A} (m : M S E A) (P Q : Outcome E A -> S -> Prop) s :
  wp m P s -> (forall o s', P o s' -> Q o s') -> wp m Q s.
Proof. unfold wp. auto. Qed.

End wp.

Ltac wp_step :=
  lazymatch goal with
  | |- wp (bind _ _) _ _ => apply wp_bind
  | |- wp (finally _ _) _ _ => apply wp_finally
  | |- wp (zoom _ _ _) _ _ => apply wp_zoom
  | |- wp (ret ?a) ?Q ?s => change (Q (Ok a) s); cbv beta iota
  | |- wp (fail ?e) ?Q ?s => change (Q (Err e) s); cbv beta iota
  | |- wp panic ?Q ?s => change (Q Panic s); cbv beta iota
  | |- wp (lift ?o) ?Q ?s => change (Q o s); cbv beta iota
  | |- wp (query ?q) ?Q ?s => change (Q (q s) s); cbv beta iota
  | |- wp (gets ?q) ?Q ?s => change (Q (Ok (q s)) s); cbv beta iota
  | |- wp (modify ?f) ?Q ?s => change (Q (Ok tt) (f s)); cbv beta iota
  | |- wp (if ?b then _ else _) _ _ => destruct b eqn:?
  | |- wp (match ?x with _ => _ end) _ _ => destruct x eqn:?
  | |- wp (let _ := _ in _) _ _ => cbv zeta
  | |- match ?o with Ok _ => _ | Err _ => _ | Panic => _ end => destruct o eqn:?
  end.
Ltac wp_run := repeat wp_step.

(** ** Relations kept by every run

    [keeps R m] : whatever [m] returns, the state it leaves is related to the
    one it started from. *)

Definition keeps {S E A} (R : S -> S -> Prop) (m : M S E A) : Prop :=
  forall s, R s (final m s).

Section keeps.
Context {S E : Type} (R : S -> S -> Prop) `{!PreOrder R}.

Lemma keeps_pure {A} (m : M S E A) : (forall s, final m s = s) -> keeps R m.
Proof. intros H s. rewrite H. reflexivity. Qed.

Lemma keeps_ret {A} (a : A) : keeps R (@ret S E A a).
Proof. by apply keeps_pure. Qed.
Lemma keeps_fail {A} (e : E) : keeps R (@fail S E A e).
Proof. by apply keeps_pure. Qed.
Lemma keeps_panic {A} : keeps R (@panic S E A).
Proof. by apply keeps_pure. Qed.
Lemma keeps_lift {A} (o : Outcome E A) : keeps R (@lift S E A o).
Proof. by apply keeps_pure. Qed.
Lemma keeps_query {A} (q : S -> Outcome E A) : keeps R (query q).
Proof. by apply keeps_pure. Qed.
Lemma keeps_gets {A} (q : S -> A) : keeps R (@gets S E A q).
Proof. by apply keeps_pure. Qed.
Lemma keeps_modify f : (forall s, R s (f s)) -> keeps R (@modify S E f).
Proof. intros H s. apply H. Qed.

Lemma keeps_bind {A B} (m : M S E A) (f : A -> M S E B) :
  keeps R m -> (forall a, keeps R (f a)) -> keeps R (bind m f).
Proof.
  intros Hm Hf s. specialize (Hm s). unfold final, bind in *.
  destruct (m s) as [[a|e|] s1]; simpl in *; [|done..].
  etransitivity; [exact Hm|apply Hf].
Qed.

Lemma keeps_finally {A} (m : M S E A) d :
  keeps R m -> (forall s, R s (d s)) -> keeps R (finally m d).
Proof.
  intros Hm Hd s. specialize (Hm s). unfold final, finally in *.
  destruct (m s) as [o s1]; simpl in *. etransitivity; [exact Hm|apply Hd].
Qed.

Lemma keeps_if {A} (b : bool) (m1 m2 : M S E A) :
  keeps R m1 -> keeps R m2 -> keeps R (if b then m1 else m2).
Proof. by destruct b. Qed.

Lemma keeps_dec {A P} (b : Decision P) (m1 m2 : M S E A) :
  keeps R m1 -> keeps R m2 -> keeps R (if b then m1 else m2).
Proof. by destruct b. Qed.

Lemma keeps_ok {A} (m : M S E A) s o s' : keeps R m -> m s = (o, s') -> R s s'.
Proof. intros H Hm. specialize (H s). unfold final in H. by rewrite Hm in H. Qed.

End keeps.

Create HintDb keeps discriminated.
#[export] Hint Resolve keeps_ret keeps_fail keeps_panic keeps_lift keeps_query
  keeps_gets keeps_if keeps_dec : keeps.
#[export] Hint Extern 2 (keeps _ (bind _ _)) => apply keeps_bind; [..|intros ?] : keeps.
#[export] Hint Extern 2 (keeps _ (finally _ _)) => apply keeps_finally : keeps.
#[export] Hint Extern 3 (keeps _ (match ?x with _ => _ end)) => destruct x : keeps.
#[export] Hint Extern 0 (PreOrder _) => typeclasses eauto : keeps.

Ltac keeps := eauto 40 with keeps.

(** ** Facts about integers and lists *)

Lemma checked_Some t z x : checked t z = Some x <-> x = z /\ in_range t z.
Proof. unfold checked. case_decide; naive_solver. Qed.

Lemma checked_None t z : checked t z = None <-> ~ in_range t z.
Proof. unfold checked. case_decide; naive_solver. Qed.

Lemma wrapping_small t z : in_range t z -> wrapping t z = z.
Proof. unfold in_range, wrapping. intros ?. rewrite Z.mod_small; lia. Qed.

Lemma wrapping_range t z : int_min t <= int_max t -> in_range t (wrapping t z).
Proof.
  unfold in_range, wrapping. intros ?.
  pose proof (Z.mod_pos_bound (z - int_min t) (int_max t - int_min t + 1)). lia.
Qed.

Lemma saturating_range t z : int_min t <= int_max t -> in_range t (saturating t z).
Proof. unfold in_range, saturating. lia. Qed.

Lemma saturating_small t z : in_range t z -> saturating t z = z.
Proof. unfold in_range, saturating. lia. Qed.

Lemma vec_get_Some {A} (l : list A) i x :
  vec_get l i = Some x <-> 0 <= i /\ l !! Z.to_nat i = Some x.
Proof. unfold vec_get. case_decide; naive_solver. Qed.

Lemma vec_get_lt {A} (l : list A) i x : vec_get l i = Some x -> 0 <= i < vec_len l.
Proof.
  rewrite vec_get_Some. intros [? H%lookup_lt_Some]. unfold vec_len. lia.
Qed.

Lemma vec_get_is_Some {A} (l : list A) i :
  is_Some (vec_get l i) <-> 0 <= i < vec_len l.
Proof.
  split.
  - intros [x Hx]. by eapply vec_get_lt.
  - unfold vec_get, vec_len. intros [? ?]. rewrite decide_True by done.
    apply lookup_lt_is_Some. lia.
Qed.

Lemma vec_get_set_eq {A} (l : list A) i x :
  0 <= i < vec_len l -> vec_get (vec_set i x l) i = Some x.
Proof.
  unfold vec_get, vec_set, vec_len. intros [? ?]. rewrite decide_True by done.
  apply list_lookup_insert_eq. lia.
Qed.

Lemma vec_get_set_ne {A} (l : list A) i j x :
  0 <= i -> i <> j -> vec_get (vec_set i x l) j = vec_get l j.
Proof.
  unfold vec_get, vec_set. intros ? ?. case_decide; [|done].
  apply list_lookup_insert_ne. lia.
Qed.

Lemma vec_len_set {A} (l : list A) i x : vec_len (vec_set i x l) = vec_len l.
Proof. unfold vec_len, vec_set. by rewrite length_insert. Qed.

Lemma vec_len_app {A} (l1 l2 : list A) : vec_len (l1 ++ l2) = vec_len l1 + vec_len l2.
Proof. unfold vec_len. rewrite length_app. lia. Qed.

Lemma vec_len_cons {A} (x : A) l : vec_len (x :: l) = 1 + vec_len l.
Proof. unfold vec_len. simpl length. lia. Qed.

Lemma length_vec_set {A} (l : list A) i x : length (vec_set i x l) = length l.
Proof. apply length_insert. Qed.

Definition sum_Z (l : list Z) : Z := foldr Z.add 0 l.

Lemma sum_Z_cons x l : sum_Z (x :: l) = x + sum_Z l.
Proof. done. Qed.

Lemma sum_Z_insert l (i : nat) x y :
  l !! i = Some x -> sum_Z (<[i := y]> l) = sum_Z l - x + y.
Proof.
  revert i. induction l as [|z l IH]; intros [|i] H; simplify_eq/=; [lia|].
  rewrite (IH i) by done. lia.
Qed.

Lemma sum_Z_nonneg l : Forall (Z.le 0) l -> 0 <= sum_Z l.
Proof. induction 1; cbn [sum_Z foldr] in *; [done|]. fold (sum_Z l) in *. lia. Qed.

Lemma sum_Z_lookup_le l (n : nat) x :
  Forall (Z.le 0) l -> l !! n = Some x -> x <= sum_Z l.
Proof.
  intros Hl. revert n. induction Hl as [|y l Hy Hl IH]; intros [|n] Hx; simplify_eq/=.
  - pose proof (sum_Z_nonneg l Hl). lia.
  - apply IH in Hx. lia.
Qed.
