(* ===== verification/Errors.v ===== *)
(** * Errors of the runtime and of the programs

    [InstructionError] is what every handler of the runtime and of the native
    programs returns (sdk/program/src/instruction.rs); [ProgramError] is what an
    on-chain program returns, with its encoding into the [u64] a program hands
    back to the loader (sdk/program/src/program_error.rs).  [SystemError] and
    [PubkeyError] reach [InstructionError] through the blanket conversion of
    types with a [ToPrimitive] instance. *)

From S2P Require Import Prelude.

Inductive InstructionError : Type :=
| GenericError
| InvalidArgument
| InvalidInstructionData
| InvalidAccountData
| AccountDataTooSmall
| InsufficientFunds
| IncorrectProgramId
| MissingRequiredSignature
| AccountAlreadyInitialized
| UninitializedAccount
| UnbalancedInstruction
| ModifiedProgramId
| ExternalAccountLamportSpend
| ExternalAccountDataModified
| ReadonlyLamportChange
| ReadonlyDataModified
| DuplicateAccountIndex
| ExecutableModified
| RentEpochModified
| NotEnoughAccountKeys
| AccountDataSizeChanged
| AccountNotExecutable
| AccountBorrowFailed
| AccountBorrowOutstanding
| DuplicateAccountOutOfSync
| Custom (code : Z)
| InvalidError
| ExecutableDataModified
| ExecutableLamportChange
| ExecutableAccountNotRentExempt
| UnsupportedProgramId
| CallDepth
| MissingAccount
| ReentrancyNotAllowed
| MaxSeedLengthExceeded
| InvalidSeeds
| InvalidRealloc
| ComputationalBudgetExceeded
| PrivilegeEscalation
| ProgramEnvironmentSetupFailure
| ProgramFailedToComplete
| ProgramFailedToCompile
| Immutable
| IncorrectAuthority
| BorshIoError (message : string)
| AccountNotRentExempt
| InvalidAccountOwner
| ArithmeticOverflow
| UnsupportedSysvar
| IllegalOwner
| MaxAccountsDataAllocationsExceeded
| MaxAccountsExceeded
| MaxInstructionTraceLengthExceeded
| BuiltinProgramsMustConsumeComputeUnits.

(** ** ProgramError *)

Module ProgramError.

Inductive ProgramError : Type :=
| Custom (code : Z)
| InvalidArgument
| InvalidInstructionData
| InvalidAccountData
| AccountDataTooSmall
| InsufficientFunds
| IncorrectProgramId
| MissingRequiredSignature
| AccountAlreadyInitialized
| UninitializedAccount
| NotEnoughAccountKeys
| AccountBorrowFailed
| MaxSeedLengthExceeded
| InvalidSeeds
| BorshIoError (message : string)
| AccountNotRentExempt
| UnsupportedSysvar
| IllegalOwner
| MaxAccountsDataAllocationsExceeded
| InvalidRealloc
| MaxInstructionTraceLengthExceeded
| BuiltinProgramsMustConsumeComputeUnits
| InvalidAccountOwner
| ArithmeticOverflow
| Immutable
| IncorrectAuthority.

End ProgramError.

(** Builtin return values occupy the upper 32 bits. *)
Definition BUILTIN_BIT_SHIFT : Z := 32.
Definition to_builtin (error : Z) : Z := Z.shiftl error BUILTIN_BIT_SHIFT.

Definition CUSTOM_ZERO : Z := to_builtin 1.
Definition INVALID_ARGUMENT : Z := to_builtin 2.
Definition INVALID_INSTRUCTION_DATA : Z := to_builtin 3.
Definition INVALID_ACCOUNT_DATA : Z := to_builtin 4.
Definition ACCOUNT_DATA_TOO_SMALL : Z := to_builtin 5.
Definition INSUFFICIENT_FUNDS : Z := to_builtin 6.
Definition INCORRECT_PROGRAM_ID : Z := to_builtin 7.
Definition MISSING_REQUIRED_SIGNATURES : Z := to_builtin 8.
Definition ACCOUNT_ALREADY_INITIALIZED : Z := to_builtin 9.
Definition UNINITIALIZED_ACCOUNT : Z := to_builtin 10.
Definition NOT_ENOUGH_ACCOUNT_KEYS : Z := to_builtin 11.
Definition ACCOUNT_BORROW_FAILED : Z := to_builtin 12.
Definition MAX_SEED_LENGTH_EXCEEDED : Z := to_builtin 13.
Definition INVALID_SEEDS : Z := to_builtin 14.
Definition BORSH_IO_ERROR : Z := to_builtin 15.
Definition ACCOUNT_NOT_RENT_EXEMPT : Z := to_builtin 16.
Definition UNSUPPORTED_SYSVAR : Z := to_builtin 17.
Definition ILLEGAL_OWNER : Z := to_builtin 18.
Definition MAX_ACCOUNTS_DATA_ALLOCATIONS_EXCEEDED : Z := to_builtin 19.
Definition INVALID_ACCOUNT_DATA_REALLOC : Z := to_builtin 20.
Definition MAX_INSTRUCTION_TRACE_LENGTH_EXCEEDED : Z := to_builtin 21.
Definition BUILTIN_PROGRAMS_MUST_CONSUME_COMPUTE_UNITS : Z := to_builtin 22.
Definition INVALID_ACCOUNT_OWNER : Z := to_builtin 23.
Definition ARITHMETIC_OVERFLOW : Z := to_builtin 24.
Definition IMMUTABLE : Z := to_builtin 25.
Definition INCORRECT_AUTHORITY : Z := to_builtin 26.

(** [impl From<ProgramError> for u64] *)
Definition u64_of_ProgramError (error : ProgramError.ProgramError) : Z :=
  match error with
  | ProgramError.InvalidArgument => INVALID_ARGUMENT
  | ProgramError.InvalidInstructionData => INVALID_INSTRUCTION_DATA
  | ProgramError.InvalidAccountData => INVALID_ACCOUNT_DATA
  | ProgramError.AccountDataTooSmall => ACCOUNT_DATA_TOO_SMALL
  | ProgramError.InsufficientFunds => INSUFFICIENT_FUNDS
  | ProgramError.IncorrectProgramId => INCORRECT_PROGRAM_ID
  | ProgramError.MissingRequiredSignature => MISSING_REQUIRED_SIGNATURES
  | ProgramError.AccountAlreadyInitialized => ACCOUNT_ALREADY_INITIALIZED
  | ProgramError.UninitializedAccount => UNINITIALIZED_ACCOUNT
  | ProgramError.NotEnoughAccountKeys => NOT_ENOUGH_ACCOUNT_KEYS
  | ProgramError.AccountBorrowFailed => ACCOUNT_BORROW_FAILED
  | ProgramError.MaxSeedLengthExceeded => MAX_SEED_LENGTH_EXCEEDED
  | ProgramError.InvalidSeeds => INVALID_SEEDS
  | ProgramError.BorshIoError _ => BORSH_IO_ERROR
  | ProgramError.AccountNotRentExempt => ACCOUNT_NOT_RENT_EXEMPT
  | ProgramError.UnsupportedSysvar => UNSUPPORTED_SYSVAR
  | ProgramError.IllegalOwner => ILLEGAL_OWNER
  | ProgramError.MaxAccountsDataAllocationsExceeded => MAX_ACCOUNTS_DATA_ALLOCATIONS_EXCEEDED
  | ProgramError.InvalidRealloc => INVALID_ACCOUNT_DATA_REALLOC
  | ProgramError.MaxInstructionTraceLengthExceeded => MAX_INSTRUCTION_TRACE_LENGTH_EXCEEDED
  | ProgramError.BuiltinProgramsMustConsumeComputeUnits => BUILTIN_PROGRAMS_MUST_CONSUME_COMPUTE_UNITS
  | ProgramError.InvalidAccountOwner => INVALID_ACCOUNT_OWNER
  | ProgramError.ArithmeticOverflow => ARITHMETIC_OVERFLOW
  | ProgramError.Immutable => IMMUTABLE
  | ProgramError.IncorrectAuthority => INCORRECT_AUTHORITY
  | ProgramError.Custom error => if error =? 0 then CUSTOM_ZERO else error
  end.

(** [impl From<u64> for ProgramError] *)
Definition ProgramError_of_u64 (error : Z) : ProgramError.ProgramError :=
  if error =? CUSTOM_ZERO then ProgramError.Custom 0 else
  if error =? INVALID_ARGUMENT then ProgramError.InvalidArgument else
  if error =? INVALID_INSTRUCTION_DATA then ProgramError.InvalidInstructionData else
  if error =? INVALID_ACCOUNT_DATA then ProgramError.InvalidAccountData else
  if error =? ACCOUNT_DATA_TOO_SMALL then ProgramError.AccountDataTooSmall else
  if error =? INSUFFICIENT_FUNDS then ProgramError.InsufficientFunds else
  if error =? INCORRECT_PROGRAM_ID then ProgramError.IncorrectProgramId else
  if error =? MISSING_REQUIRED_SIGNATURES then ProgramError.MissingRequiredSignature else
  if error =? ACCOUNT_ALREADY_INITIALIZED then ProgramError.AccountAlreadyInitialized else
  if error =? UNINITIALIZED_ACCOUNT then ProgramError.UninitializedAccount else
  if error =? NOT_ENOUGH_ACCOUNT_KEYS then ProgramError.NotEnoughAccountKeys else
  if error =? ACCOUNT_BORROW_FAILED then ProgramError.AccountBorrowFailed else
  if error =? MAX_SEED_LENGTH_EXCEEDED then ProgramError.MaxSeedLengthExceeded else
  if error =? INVALID_SEEDS then ProgramError.InvalidSeeds else
  if error =? BORSH_IO_ERROR then ProgramError.BorshIoError "Unknown" else
  if error =? ACCOUNT_NOT_RENT_EXEMPT then ProgramError.AccountNotRentExempt else
  if error =? UNSUPPORTED_SYSVAR then ProgramError.UnsupportedSysvar else
  if error =? ILLEGAL_OWNER then ProgramError.IllegalOwner else
  if error =? MAX_ACCOUNTS_DATA_ALLOCATIONS_EXCEEDED then ProgramError.MaxAccountsDataAllocationsExceeded else
  if error =? INVALID_ACCOUNT_DATA_REALLOC then ProgramError.InvalidRealloc else
  if error =? MAX_INSTRUCTION_TRACE_LENGTH_EXCEEDED then ProgramError.MaxInstructionTraceLengthExceeded else
  if error =? BUILTIN_PROGRAMS_MUST_CONSUME_COMPUTE_UNITS then ProgramError.BuiltinProgramsMustConsumeComputeUnits else
  if error =? INVALID_ACCOUNT_OWNER then ProgramError.InvalidAccountOwner else
  if error =? ARITHMETIC_OVERFLOW then ProgramError.ArithmeticOverflow else
  if error =? IMMUTABLE then ProgramError.Immutable else
  if error =? INCORRECT_AUTHORITY then ProgramError.IncorrectAuthority else
  ProgramError.Custom (wrapping U32 error).

(** [impl TryFrom<InstructionError> for ProgramError] *)
Definition ProgramError_try_from (error : InstructionError)
  : Outcome InstructionError ProgramError.ProgramError :=
  match error with
  | Custom err => Ok (ProgramError.Custom err)
  | InvalidArgument => Ok ProgramError.InvalidArgument
  | InvalidInstructionData => Ok ProgramError.InvalidInstructionData
  | InvalidAccountData => Ok ProgramError.InvalidAccountData
  | AccountDataTooSmall => Ok ProgramError.AccountDataTooSmall
  | InsufficientFunds => Ok ProgramError.InsufficientFunds
  | IncorrectProgramId => Ok ProgramError.IncorrectProgramId
  | MissingRequiredSignature => Ok ProgramError.MissingRequiredSignature
  | AccountAlreadyInitialized => Ok ProgramError.AccountAlreadyInitialized
  | UninitializedAccount => Ok ProgramError.UninitializedAccount
  | NotEnoughAccountKeys => Ok ProgramError.NotEnoughAccountKeys
  | AccountBorrowFailed => Ok ProgramError.AccountBorrowFailed
  | MaxSeedLengthExceeded => Ok ProgramError.MaxSeedLengthExceeded
  | InvalidSeeds => Ok ProgramError.InvalidSeeds
  | BorshIoError err => Ok (ProgramError.BorshIoError err)
  | AccountNotRentExempt => Ok ProgramError.AccountNotRentExempt
  | UnsupportedSysvar => Ok ProgramError.UnsupportedSysvar
  | IllegalOwner => Ok ProgramError.IllegalOwner
  | MaxAccountsDataAllocationsExceeded => Ok ProgramError.MaxAccountsDataAllocationsExceeded
  | InvalidRealloc => Ok ProgramError.InvalidRealloc
  | MaxInstructionTraceLengthExceeded => Ok ProgramError.MaxInstructionTraceLengthExceeded
  | BuiltinProgramsMustConsumeComputeUnits => Ok ProgramError.BuiltinProgramsMustConsumeComputeUnits
  | InvalidAccountOwner => Ok ProgramError.InvalidAccountOwner
  | ArithmeticOverflow => Ok ProgramError.ArithmeticOverflow
  | Immutable => Ok ProgramError.Immutable
  | IncorrectAuthority => Ok ProgramError.IncorrectAuthority
  | _ => Err error
  end.

(** [impl<T: ToPrimitive> From<T> for InstructionError], applied to
    [error.to_u64()] *)
Definition InstructionError_from (to_u64 : option Z) : InstructionError :=
  let error := default 195936478 (* 0xbad_c0de *) to_u64 in
  if error =? CUSTOM_ZERO then Custom 0 else
  if error =? INVALID_ARGUMENT then InvalidArgument else
  if error =? INVALID_INSTRUCTION_DATA then InvalidInstructionData else
  if error =? INVALID_ACCOUNT_DATA then InvalidAccountData else
  if error =? ACCOUNT_DATA_TOO_SMALL then AccountDataTooSmall else
  if error =? INSUFFICIENT_FUNDS then InsufficientFunds else
  if error =? INCORRECT_PROGRAM_ID then IncorrectProgramId else
  if error =? MISSING_REQUIRED_SIGNATURES then MissingRequiredSignature else
  if error =? ACCOUNT_ALREADY_INITIALIZED then AccountAlreadyInitialized else
  if error =? UNINITIALIZED_ACCOUNT then UninitializedAccount else
  if error =? NOT_ENOUGH_ACCOUNT_KEYS then NotEnoughAccountKeys else
  if error =? ACCOUNT_BORROW_FAILED then AccountBorrowFailed else
  if error =? MAX_SEED_LENGTH_EXCEEDED then MaxSeedLengthExceeded else
  if error =? INVALID_SEEDS then InvalidSeeds else
  if error =? BORSH_IO_ERROR then BorshIoError "Unknown" else
  if error =? ACCOUNT_NOT_RENT_EXEMPT then AccountNotRentExempt else
  if error =? UNSUPPORTED_SYSVAR then UnsupportedSysvar else
  if error =? ILLEGAL_OWNER then IllegalOwner else
  if error =? MAX_ACCOUNTS_DATA_ALLOCATIONS_EXCEEDED then MaxAccountsDataAllocationsExceeded else
  if error =? INVALID_ACCOUNT_DATA_REALLOC then InvalidRealloc else
  if error =? MAX_INSTRUCTION_TRACE_LENGTH_EXCEEDED then MaxInstructionTraceLengthExceeded else
  if error =? BUILTIN_PROGRAMS_MUST_CONSUME_COMPUTE_UNITS then BuiltinProgramsMustConsumeComputeUnits else
  if error =? INVALID_ACCOUNT_OWNER then InvalidAccountOwner else
  if error =? ARITHMETIC_OVERFLOW then ArithmeticOverflow else
  if error =? IMMUTABLE then Immutable else
  if error =? INCORRECT_AUTHORITY then IncorrectAuthority else
  (* A valid custom error has no bits set in the upper 32 *)
  if Z.shiftr error BUILTIN_BIT_SHIFT =? 0 then Custom (wrapping U32 error)
  else InvalidError.

(** ** SystemError and PubkeyError *)

Module SystemError.

Inductive SystemError : Type :=
| AccountAlreadyInUse
| ResultWithNegativeLamports
| InvalidProgramId
| InvalidAccountDataLength
| MaxSeedLengthExceeded
| AddressWithSeedMismatch
| NonceNoRecentBlockhashes
| NonceBlockhashNotExpired
| NonceUnexpectedBlockhashValue.

(** The derived [ToPrimitive]: the discriminant. *)
Definition to_u64 (e : SystemError) : Z :=
  match e with
  | AccountAlreadyInUse => 0
  | ResultWithNegativeLamports => 1
  | InvalidProgramId => 2
  | InvalidAccountDataLength => 3
  | MaxSeedLengthExceeded => 4
  | AddressWithSeedMismatch => 5
  | NonceNoRecentBlockhashes => 6
  | NonceBlockhashNotExpired => 7
  | NonceUnexpectedBlockhashValue => 8
  end.

Definition into (e : SystemError) : InstructionError := InstructionError_from (Some (to_u64 e)).

End SystemError.

Module PubkeyError.

Inductive PubkeyError : Type :=
| MaxSeedLengthExceeded
| InvalidSeeds
| IllegalOwner.

Definition to_u64 (e : PubkeyError) : Z :=
  match e with MaxSeedLengthExceeded => 0 | InvalidSeeds => 1 | IllegalOwner => 2 end.

Definition into (e : PubkeyError) : InstructionError := InstructionError_from (Some (to_u64 e)).

(** [impl From<u64> for PubkeyError]: the codes a syscall hands back. *)
Definition of_u64 (error : Z) : Outcome InstructionError PubkeyError :=
  if error =? 0 then Ok MaxSeedLengthExceeded
  else if error =? 1 then Ok InvalidSeeds
  else Panic.

(** [impl From<PubkeyError> for ProgramError] *)
Definition into_ProgramError (e : PubkeyError) : ProgramError.ProgramError :=
  match e with
  | MaxSeedLengthExceeded => ProgramError.MaxSeedLengthExceeded
  | InvalidSeeds => ProgramError.InvalidSeeds
  | IllegalOwner => ProgramError.IllegalOwner
  end.

End PubkeyError.

(** ** Properties of the conversions *)

Section conversions.
Import ProgramError.

(** Custom codes are [u32]s. *)
Definition ProgramError_wf (e : ProgramError.ProgramError) : Prop :=
  match e with Custom code => in_range U32 code | _ => True end.

(** What a program error is after a trip through its [u64] code. *)
Definition recode (e : ProgramError.ProgramError) : ProgramError.ProgramError :=
  match e with BorshIoError _ => BorshIoError "Unknown" | _ => e end.

(** Every code of a builtin error is out of reach of a custom [u32] code. *)
Lemma custom_not_builtin code n : in_range U32 code -> 1 <= n -> (code =? to_builtin n) = false.
Proof.
  unfold in_range, to_builtin, BUILTIN_BIT_SHIFT. simpl. intros ? ?.
  rewrite Z.shiftl_mul_pow2 by lia. lia.
Qed.

Lemma of_u64_custom code :
  in_range U32 code -> code <> 0 -> ProgramError_of_u64 code = Custom code.
Proof.
  intros Hr H0. unfold ProgramError_of_u64.
  repeat match goal with |- context [code =? ?k] =>
    unfold k; rewrite (custom_not_builtin code _ Hr) by lia end.
  by rewrite wrapping_small.
Qed.

Lemma from_custom code :
  in_range U32 code -> code <> 0 -> InstructionError_from (Some code) = Errors.Custom code.
Proof.
  intros Hr H0. unfold InstructionError_from.
  cbv beta zeta delta [from_option id] iota.
  repeat match goal with |- context [code =? ?k] =>
    unfold k; rewrite (custom_not_builtin code _ Hr) by lia end.
  unfold in_range in Hr. simpl in Hr.
  rewrite Z.shiftr_div_pow2, Z.div_small by (unfold BUILTIN_BIT_SHIFT; lia).
  by rewrite wrapping_small.
Qed.

(** A program error survives its encoding as a [u64], the number a program
    returns to the runtime; only the text of a Borsh error is lost. *)
Theorem program_error_u64_roundtrip (e : ProgramError.ProgramError) :
  ProgramError_wf e -> ProgramError_of_u64 (u64_of_ProgramError e) = recode e.
Proof.
  destruct e as [code| | | | | | | | | | | | | | | | | | | | | | | | |];
    intros Hwf; try reflexivity.
  simpl. destruct (Z.eqb_spec code 0) as [->|Hne]; [reflexivity|].
  by apply of_u64_custom.
Qed.

(** The largest custom code. *)
Lemma program_error_u64_roundtrip_witness :
  ProgramError_wf (Custom 4294967295) /\
  ProgramError_of_u64 (u64_of_ProgramError (Custom 4294967295)) = Custom 4294967295.
Proof.
  split; [by cbv|]. by apply (program_error_u64_roundtrip (Custom 4294967295)).
Defined.

(** The runtime reads the [u64] a program returns as an [InstructionError]
    that converts back to the error the program raised, up to the text of a Borsh
    error. *)
Theorem program_error_runtime_view (e : ProgramError.ProgramError) :
  ProgramError_wf e ->
  ProgramError_try_from (InstructionError_from (Some (u64_of_ProgramError e))) = Ok (recode e).
Proof.
  destruct e as [code| | | | | | | | | | | | | | | | | | | | | | | | |];
    intros Hwf; try reflexivity.
  simpl. destruct (Z.eqb_spec code 0) as [->|Hne]; [reflexivity|].
  by rewrite from_custom.
Qed.

Lemma program_error_runtime_view_witness :
  ProgramError_wf (Custom 0) /\
  ProgramError_try_from (InstructionError_from (Some (u64_of_ProgramError (Custom 0)))) =
  Ok (Custom 0).
Proof. split; [by cbv|]. by apply (program_error_runtime_view (Custom 0)). Defined.

End conversions.
