(* ===== verification/Rent.v ===== *)
(** * Rent (sdk/program/src/rent.rs)

    The rent parameters, the minimum balance that makes an account exempt, and
    what a non-exempt account owes.  The source computes with [f64]: the model
    uses the executable IEEE-754 binary64 of the standard library's [SpecFloat],
    with Rust's conversions ([u64 as f64] rounds to nearest even, [f64 as u64]
    truncates and saturates).  The theorems show that for the exemption
    threshold of two years the floating-point result is exact. *)

From S2P Require Import Prelude.
From Stdlib Require Import SpecFloat.

(** ** binary64 *)

Module F64.

Definition prec : Z := 53.
Definition emax : Z := 1024.
Definition f64 := spec_float.

(** [z as f64] for an unsigned [z]. *)
Definition of_u64 (z : Z) : f64 := binary_normalize prec emax z 0 false.
Definition mul (x y : f64) : f64 := SFmul prec emax x y.
Definition div (x y : f64) : f64 := SFdiv prec emax x y.

(** Truncation toward zero of a finite positive float. *)
Definition trunc (m : positive) (e : Z) : Z := Z.shiftl (Zpos m) e.

(** [x as u64]: NaN and negative numbers give 0, too large ones [u64::MAX]. *)
Definition to_u64 (x : f64) : Z :=
  match x with
  | S754_finite false m e => saturating U64 (trunc m e)
  | S754_infinity false => int_max U64
  | _ => 0
  end.

Definition two : f64 := of_u64 2.

End F64.

(** ** The rent parameters *)

Record Rent := mkRent {
  lamports_per_byte_year : Z;
  exemption_threshold : F64.f64;
  burn_percent : Z;
}.

Definition DEFAULT_LAMPORTS_PER_BYTE_YEAR : Z := 1000000000 / 100 * 365 / (1024 * 1024).
Definition DEFAULT_EXEMPTION_THRESHOLD : F64.f64 := F64.two.
Definition DEFAULT_BURN_PERCENT : Z := 50.
Definition ACCOUNT_STORAGE_OVERHEAD : Z := 128.

(** clock.rs *)
Definition DEFAULT_TICKS_PER_SECOND : Z := 160.
Definition DEFAULT_TICKS_PER_SLOT : Z := 64.
Definition SECONDS_PER_DAY : Z := 24 * 60 * 60.
Definition TICKS_PER_DAY : Z := DEFAULT_TICKS_PER_SECOND * SECONDS_PER_DAY.
Definition DEFAULT_SLOTS_PER_EPOCH : Z := 2 * TICKS_PER_DAY / DEFAULT_TICKS_PER_SLOT.

Definition Rent_default : Rent :=
  mkRent DEFAULT_LAMPORTS_PER_BYTE_YEAR DEFAULT_EXEMPTION_THRESHOLD DEFAULT_BURN_PERCENT.

(** How much of the collected rent is burned, and how much goes to validators. *)
Definition calculate_burn (self : Rent) (rent_collected : Z) : Z * Z :=
  let burned_portion := wrapping U64 (rent_collected * burn_percent self) / 100 in
  (burned_portion, wrapping U64 (rent_collected - burned_portion)).

Definition minimum_balance (self : Rent) (data_len : Z) : Z :=
  let bytes := data_len in
  F64.to_u64
    (F64.mul
       (F64.of_u64
          (wrapping U64 (wrapping U64 (ACCOUNT_STORAGE_OVERHEAD + bytes)
                         * lamports_per_byte_year self)))
       (exemption_threshold self)).

Definition is_exempt (self : Rent) (balance data_len : Z) : bool :=
  minimum_balance self data_len <=? balance.

Inductive RentDue : Type :=
| Exempt
| Paying (lamports : Z).

Definition due_amount (self : Rent) (data_len : Z) (years_elapsed : F64.f64) : Z :=
  let actual_data_len := wrapping U64 (data_len + ACCOUNT_STORAGE_OVERHEAD) in
  let lamports_per_year := wrapping U64 (lamports_per_byte_year self * actual_data_len) in
  F64.to_u64 (F64.mul (F64.of_u64 lamports_per_year) years_elapsed).

Definition due (self : Rent) (balance data_len : Z) (years_elapsed : F64.f64) : RentDue :=
  if is_exempt self balance data_len then Exempt
  else Paying (due_amount self data_len years_elapsed).

Definition Rent_free : Rent :=
  mkRent 0 DEFAULT_EXEMPTION_THRESHOLD DEFAULT_BURN_PERCENT.

Definition with_slots_per_epoch (slots_per_epoch : Z) : Rent :=
  let ratio := F64.div (F64.of_u64 slots_per_epoch) (F64.of_u64 DEFAULT_SLOTS_PER_EPOCH) in
  mkRent (F64.to_u64 (F64.div (F64.of_u64 DEFAULT_LAMPORTS_PER_BYTE_YEAR) ratio))
         (F64.mul DEFAULT_EXEMPTION_THRESHOLD ratio)
         DEFAULT_BURN_PERCENT.

Definition RentDue_lamports (self : RentDue) : Z :=
  match self with Exempt => 0 | Paying x => x end.

Definition RentDue_is_exempt (self : RentDue) : bool :=
  match self with Exempt => true | Paying _ => false end.

Example minimum_balance_empty : minimum_balance Rent_default 0 = 890880.
Proof. vm_compute. reflexivity. Qed.

Example minimum_balance_nonce : minimum_balance Rent_default 80 = 1447680.
Proof. vm_compute. reflexivity. Qed.

(** ** Exactness of the floating-point arithmetic *)

Section exactness.
Import F64.

Lemma digits2_pos_size p : digits2_pos p = Pos.size p.
Proof. induction p; simpl; congruence. Qed.

Lemma digits2_pos_shl p k : digits2_pos (Pos.iter xO p k) = (digits2_pos p + k)%positive.
Proof.
  induction k using Pos.peano_ind; [simpl; lia|].
  rewrite Pos.iter_succ. simpl. rewrite IHk. lia.
Qed.

Lemma Zpos_shl p k : Zpos (Pos.iter xO p k) = Zpos p * 2 ^ Zpos k.
Proof.
  induction k using Pos.peano_ind; [simpl; lia|].
  rewrite Pos.iter_succ, Pos2Z.inj_succ, Z.pow_succ_r by lia. lia.
Qed.

Lemma digits2_pos_le p : Zpos p < 2 ^ prec -> Zpos (digits2_pos p) <= prec.
Proof.
  intros H. rewrite digits2_pos_size. pose proof (Pos.size_le p) as Hs.
  assert (2 ^ Zpos (Pos.size p) <= Zpos p * 2) as Hs'.
  { rewrite <- Pos2Z.inj_pow. lia. }
  destruct (Z.le_gt_cases (Zpos (Pos.size p)) prec) as [|Hgt]; [done|].
  assert (2 ^ (prec + 1) <= 2 ^ Zpos (Pos.size p)) by (apply Z.pow_le_mono_r; lia).
  assert (2 ^ (prec + 1) = 2 * 2 ^ prec) by reflexivity. lia.
Qed.

(** A significand of 53 digits is rounded to itself. *)
Lemma round_canonical s m e :
  Zpos (digits2_pos m) = prec -> -1074 <= e <= 971 ->
  binary_round_aux prec emax s (Zpos m) e loc_Exact = S754_finite s m e.
Proof.
  intros Hd He. unfold binary_round_aux, shr_fexp.
  assert (fexp prec emax (Zdigits2 (Zpos m) + e) - e = 0) as ->.
  { unfold fexp, SpecFloat.emin, prec, emax in *. simpl. lia. }
  simpl. unfold shr_fexp.
  assert (fexp prec emax (Zpos (digits2_pos m) + e) - e = 0) as ->.
  { unfold fexp, SpecFloat.emin, prec, emax in *. lia. }
  simpl. rewrite (proj2 (Z.leb_le _ _)); [done|]. unfold emax, prec in *. lia.
Qed.

(** Integers below [2^53] are represented exactly. *)
Lemma of_u64_exact p :
  Zpos p < 2 ^ prec ->
  exists m e, of_u64 (Zpos p) = S754_finite false m e /\
    Zpos (digits2_pos m) = prec /\ -53 <= e <= 0 /\ Zpos m = Zpos p * 2 ^ (- e).
Proof.
  intros Hp. pose proof (digits2_pos_le p Hp) as Hd.
  unfold of_u64, binary_normalize, binary_round, shl_align.
  set (e := fexp prec emax (Zpos (digits2_pos p) + 0)).
  assert (He : e = Zpos (digits2_pos p) - prec).
  { unfold e, fexp, SpecFloat.emin, prec, emax. lia. }
  destruct (e - 0) as [|k|k] eqn:Hk; [|lia|].
  - exists p, 0. rewrite round_canonical by lia. repeat split; [lia..|]. simpl. lia.
  - assert (Zpos (digits2_pos (Pos.iter xO p k)) = prec)
      by (rewrite digits2_pos_shl; lia).
    exists (Pos.iter xO p k), e. rewrite round_canonical by (unfold prec in *; lia).
    repeat split; [done|unfold prec in *; lia..|].
    rewrite Zpos_shl. do 2 f_equal. lia.
Qed.

Lemma mul_two m e :
  Zpos (digits2_pos m) = prec -> -1000 <= e <= 900 ->
  mul (S754_finite false m e) two = S754_finite false m (e + 1).
Proof.
  intros Hd He. unfold mul. change two with (S754_finite false 4503599627370496 (-51)).
  unfold SFmul, binary_round_aux, shr_fexp. rewrite Pos.mul_comm.
  change (4503599627370496 * m)%positive with (Pos.iter xO m 52).
  assert (fexp prec emax (Zdigits2 (Zpos (Pos.iter xO m 52)) + (e + -51)) - (e + -51) = 52)
    as ->.
  { unfold Zdigits2. rewrite digits2_pos_shl, Pos2Z.inj_add, Hd.
    unfold fexp, SpecFloat.emin, prec, emax. lia. }
  pose proof (round_canonical false m (e + 1) Hd ltac:(lia)) as Hr.
  unfold binary_round_aux, shr_fexp in Hr. simpl in Hr |- *.
  replace (e + -51 + 52) with (e + 1) by lia.
  assert (fexp prec emax (Zpos (digits2_pos m) + (e + 1)) - (e + 1) = 0) as Hz
    by (unfold fexp, SpecFloat.emin, prec, emax in *; lia).
  rewrite Hz in *. simpl in Hr |- *. by rewrite Hz in Hr.
Qed.

(** Doubling an integer below [2^53] in floating point is exact. *)
Lemma double_exact z :
  0 <= z < 2 ^ prec -> to_u64 (mul (of_u64 z) two) = 2 * z.
Proof.
  intros [H0 Hlt]. destruct z as [|p|p]; [reflexivity| |lia].
  destruct (of_u64_exact p Hlt) as (m & e & -> & Hd & He & Hm).
  rewrite mul_two by lia. unfold to_u64, trunc.
  assert (Z.shiftl (Zpos m) (e + 1) = 2 * Zpos p) as ->.
  { rewrite Hm. destruct (decide (e = 0)) as [->|Hne].
    - rewrite Z.shiftl_mul_pow2 by lia. simpl. lia.
    - replace (e + 1) with (- (- e - 1)) by lia.
      rewrite Z.shiftl_opp_r, Z.shiftr_div_pow2 by lia.
      replace (- e) with (Z.succ (- e - 1)) by lia.
      rewrite Z.pow_succ_r by lia.
      replace (Z.succ (- e - 1) - 1) with (- e - 1) by lia.
      rewrite Z.mul_assoc, Z.div_mul by (apply Z.pow_nonzero; lia). lia. }
  unfold saturating, prec in *. simpl in *. lia.
Qed.

End exactness.

Lemma minimum_balance_two_years r data_len :
  exemption_threshold r = F64.two -> 0 <= lamports_per_byte_year r -> 0 <= data_len ->
  (ACCOUNT_STORAGE_OVERHEAD + data_len) * lamports_per_byte_year r < 2 ^ F64.prec ->
  ACCOUNT_STORAGE_OVERHEAD + data_len < 2 ^ F64.prec ->
  minimum_balance r data_len
  = 2 * ((ACCOUNT_STORAGE_OVERHEAD + data_len) * lamports_per_byte_year r).
Proof.
  intros Ht H0 Hl Hlt Hlt'. unfold minimum_balance. rewrite Ht.
  unfold ACCOUNT_STORAGE_OVERHEAD, F64.prec in *.
  rewrite (wrapping_small U64 (128 + data_len)) by (unfold in_range; simpl in *; lia).
  assert (0 <= (128 + data_len) * lamports_per_byte_year r) by nia.
  rewrite wrapping_small by (unfold in_range; simpl in *; lia).
  apply double_exact. unfold F64.prec. lia.
Qed.

(** With an exemption threshold of two years, as on every cluster, the
    floating-point minimum balance is exactly [2 * rate * (128 + data_len)]:
    no rounding, no overflow, for every data length whose yearly rent stays
    below [2^53] lamports. *)
Theorem minimum_balance_exact (r : Rent) (data_len : Z) :
  exemption_threshold r = F64.two -> 0 < lamports_per_byte_year r -> 0 <= data_len ->
  (ACCOUNT_STORAGE_OVERHEAD + data_len) * lamports_per_byte_year r < 2 ^ F64.prec ->
  minimum_balance r data_len
  = 2 * ((ACCOUNT_STORAGE_OVERHEAD + data_len) * lamports_per_byte_year r).
Proof.
  intros Ht H0 Hl Hlt. apply minimum_balance_two_years; [done|lia|done|done|nia].
Qed.

(** The default rent and a 10 MiB account. *)
Lemma minimum_balance_exact_witness :
  minimum_balance Rent_default 10485760 = 2 * ((128 + 10485760) * 3480).
Proof.
  apply (minimum_balance_exact Rent_default 10485760);
    [reflexivity|vm_compute; reflexivity|lia|vm_compute; reflexivity].
Defined.

(** Burned and distributed rent always add up to the rent collected, also
    when the product [rent_collected * burn_percent] wraps around. *)
Theorem calculate_burn_conserves (r : Rent) (rent_collected : Z) :
  in_range U64 rent_collected -> 0 <= burn_percent r <= 100 ->
  let (burned, distributed) := calculate_burn r rent_collected in
  burned + distributed = rent_collected /\ 0 <= burned <= rent_collected.
Proof.
  unfold in_range, calculate_burn. simpl. intros Hr Hb.
  set (b := wrapping U64 (rent_collected * burn_percent r)).
  assert (0 <= b / 100 <= rent_collected) as Hle.
  { assert (0 <= b <= 18446744073709551615).
    { by apply (wrapping_range U64). }
    split; [apply Z.div_pos; lia|].
    assert (0 <= rent_collected * burn_percent r <= rent_collected * 100) by nia.
    destruct (decide (in_range U64 (rent_collected * burn_percent r))) as [Hin|Hout].
    - unfold b. rewrite wrapping_small by done.
      apply Z.div_le_upper_bound; lia.
    - unfold in_range in Hout. simpl in Hout. apply Z.div_le_upper_bound; lia. }
  rewrite (wrapping_small U64 (_ - _)) by (unfold in_range; cbn [int_min int_max U64]; lia).
  lia.
Qed.

Lemma calculate_burn_conserves_witness :
  fst (calculate_burn Rent_default 1001) + snd (calculate_burn Rent_default 1001) = 1001.
Proof.
  pose proof (calculate_burn_conserves Rent_default 1001
    ltac:(unfold in_range; simpl; lia) ltac:(split; vm_compute; discriminate)) as H.
  destruct (calculate_burn Rent_default 1001) as [b d]. exact (proj1 H).
Defined.
