(* ===== verification/Account.v ===== *)
(** * Accounts (sdk/src/account.rs) and what they are made of

    Addresses and hashes are the 32-byte arrays of the source, as lists of
    bytes.  [AccountSharedData] keeps the data behind an [Arc]; sharing and
    spare capacity are allocation details with no effect on any value the code
    computes, so the model keeps the bytes.

    Code that is not part of the repository enters as type classes: the SHA-256
    implementation behind [Hasher] ([Hashing]), the bincode encoding of a type
    ([Bincode]) and the addresses that the [declare_id!] macro decodes from
    base58 at build time ([ProgramIds]).  [BincodeOk] states the one law of
    bincode the code relies on: a value that was written reads back, whatever
    bytes follow it. *)

From S2P Require Import Prelude Errors.

Abbreviation Bytes := (list Z).
Abbreviation Pubkey := (list Z).
Abbreviation Hash := (list Z).
Abbreviation Epoch := Z.
Abbreviation Slot := Z.

Definition PUBKEY_BYTES : Z := 32.

(** A well-formed byte, and a well-formed address. *)
Definition is_byte (b : Z) : Prop := 0 <= b < 256.
Definition pubkey_wf (k : Pubkey) : Prop := vec_len k = PUBKEY_BYTES /\ Forall is_byte k.

(** ** What is outside the repository *)

(** The SHA-256 digest of a byte string. *)
Class Hashing := { sha256 : Bytes -> Hash }.

Class ProgramIds := {
  system_program_id : Pubkey;
  native_loader_id : Pubkey;
  sysvar_rent_id : Pubkey;
  sysvar_recent_blockhashes_id : Pubkey;
  sysvar_clock_id : Pubkey;
  sysvar_slot_hashes_id : Pubkey;
  sysvar_stake_history_id : Pubkey;
  sysvar_last_restart_slot_id : Pubkey;
  sysvar_instructions_id : Pubkey;
  sysvar_epoch_schedule_id : Pubkey;
  sysvar_epoch_rewards_id : Pubkey;
  sysvar_fees_id : Pubkey;
}.

(** [bincode::serialize], whose length is [bincode::serialized_size], and
    [bincode::deserialize], which ignores trailing bytes. *)
Class Bincode (T : Type) := {
  bincode_serialize : T -> option Bytes;
  bincode_deserialize : Bytes -> option T;
}.

Class BincodeOk (T : Type) `{!Bincode T} : Prop :=
  bincode_roundtrip : forall (x : T) bs rest,
    bincode_serialize x = Some bs -> bincode_deserialize (bs ++ rest) = Some x.

(** A decoder returns values of its type, which [wf] states for [T]. *)
Class BincodeWf (T : Type) `{!Bincode T} (wf : T -> Prop) : Prop :=
  bincode_deserialize_wf : forall bs (x : T), bincode_deserialize bs = Some x -> wf x.

Definition bincode_serialized_size {T} `{!Bincode T} (x : T) : option Z :=
  vec_len <$> bincode_serialize x.

(** [deserialize_from] with a byte limit, fixed-width integers and trailing
    bytes allowed. *)
Class BincodeLimited (T : Type) := {
  deserialize_with_limit : Z -> Bytes -> option T;
}.

(** A decoder returns values of its type: integers within their width and keys
    of their length, which [wf] states for [T]. *)
Class BincodeLimitedOk (T : Type) `{!BincodeLimited T} (wf : T -> Prop) : Prop :=
  deserialize_with_limit_wf : forall limit bs x, deserialize_with_limit limit bs = Some x -> wf x.

(** [limited_deserialize] (program_utils.rs of sdk/program and of sdk, which sets
    the limit to the size of a packet). *)
Definition program_limited_deserialize {T} `{!BincodeLimited T} (instruction_data : Bytes)
    (limit : Z) : Outcome InstructionError T :=
  ok_or InvalidInstructionData (deserialize_with_limit limit instruction_data).

Definition PACKET_DATA_SIZE : Z := 1280 - 40 - 8.

Definition limited_deserialize {T} `{!BincodeLimited T} (instruction_data : Bytes)
  : Outcome InstructionError T :=
  program_limited_deserialize instruction_data PACKET_DATA_SIZE.

(** ** Accounts *)

Record AccountSharedData := mkAccount {
  acc_lamports : Z;
  acc_data : Bytes;
  acc_owner : Pubkey;
  acc_executable : bool;
  acc_rent_epoch : Epoch;
}.

Definition account_set_lamports (lamports : Z) (self : AccountSharedData) : AccountSharedData :=
  mkAccount lamports (acc_data self) (acc_owner self) (acc_executable self) (acc_rent_epoch self).
Definition account_set_data (data : Bytes) (self : AccountSharedData) : AccountSharedData :=
  mkAccount (acc_lamports self) data (acc_owner self) (acc_executable self) (acc_rent_epoch self).
Definition account_set_owner (owner : Pubkey) (self : AccountSharedData) : AccountSharedData :=
  mkAccount (acc_lamports self) (acc_data self) owner (acc_executable self) (acc_rent_epoch self).
Definition account_set_executable (e : bool) (self : AccountSharedData) : AccountSharedData :=
  mkAccount (acc_lamports self) (acc_data self) (acc_owner self) e (acc_rent_epoch self).

(** [copy_from_slice] panics unless the lengths agree. *)
Definition copy_into_owner_from_slice (source : Bytes) (self : AccountSharedData)
  : option AccountSharedData :=
  if vec_len source =? vec_len (acc_owner self) then Some (account_set_owner source self)
  else None.

(** [Vec::resize] *)
Definition account_resize (new_len value : Z) (self : AccountSharedData) : AccountSharedData :=
  account_set_data (resize (Z.to_nat new_len) value (acc_data self)) self.

Definition account_extend_from_slice (data : Bytes) (self : AccountSharedData) : AccountSharedData :=
  account_set_data (acc_data self ++ data) self.

(** [shared_new]: [Account::new] and [AccountSharedData::new] *)
Definition shared_new (lamports space : Z) (owner : Pubkey) : AccountSharedData :=
  mkAccount lamports (replicate (Z.to_nat space) 0) owner false 0.

(** [serialize_into] a slice: the bytes at its front are replaced.  [None] when
    the value does not fit or cannot be encoded. *)
Definition bincode_serialize_into {T} `{!Bincode T} (data : Bytes) (x : T) : option Bytes :=
  bs ← bincode_serialize x;
  if vec_len bs <=? vec_len data then Some (bs ++ drop (length bs) data) else None.

Definition shared_serialize_data {T} `{!Bincode T} (account : AccountSharedData) (state : T)
  : option AccountSharedData :=
  size ← bincode_serialized_size state;
  if vec_len (acc_data account) <? size then None
  else (fun d => account_set_data d account) <$> bincode_serialize_into (acc_data account) state.

Definition shared_deserialize_data {T} `{!Bincode T} (account : AccountSharedData) : option T :=
  bincode_deserialize (acc_data account).

Definition shared_new_data_with_space {T} `{!Bincode T} (lamports : Z) (state : T)
    (space : Z) (owner : Pubkey) : option AccountSharedData :=
  shared_serialize_data (shared_new lamports space owner) state.

(** The sum of two [u64] balances and the conversions of [LamportsError]
    ([WritableAccount], account.rs; lamports.rs). *)
Inductive LamportsError : Type := ArithmeticUnderflow | LamportsArithmeticOverflow.

Definition LamportsError_into (e : LamportsError) : InstructionError :=
  match e with
  | LamportsArithmeticOverflow => ArithmeticOverflow
  | ArithmeticUnderflow => ArithmeticOverflow
  end.

Definition account_checked_add_lamports (lamports : Z) (self : AccountSharedData)
  : Outcome LamportsError AccountSharedData :=
  let! l := ok_or LamportsArithmeticOverflow (checked_add U64 (acc_lamports self) lamports) in
  Ok (account_set_lamports l self).

Definition account_checked_sub_lamports (lamports : Z) (self : AccountSharedData)
  : Outcome LamportsError AccountSharedData :=
  let! l := ok_or ArithmeticUnderflow (checked_sub U64 (acc_lamports self) lamports) in
  Ok (account_set_lamports l self).

Definition account_saturating_add_lamports (lamports : Z) (self : AccountSharedData) :=
  account_set_lamports (saturating_add U64 (acc_lamports self) lamports) self.
Definition account_saturating_sub_lamports (lamports : Z) (self : AccountSharedData) :=
  account_set_lamports (saturating_sub U64 (acc_lamports self) lamports) self.

(** ** Writing and reading a state *)

Section codec.
Context {T : Type} `{!Bincode T, !BincodeOk T}.

Lemma serialize_into_length data (x : T) data' :
  bincode_serialize_into data x = Some data' -> length data' = length data.
Proof.
  unfold bincode_serialize_into. destruct (bincode_serialize x) as [bs|]; simpl; [|done].
  destruct (Z.leb_spec (vec_len bs) (vec_len data)); [|done].
  intros [= <-]. unfold vec_len in *. rewrite length_app, length_drop. lia.
Qed.

Lemma serialize_into_roundtrip data (x : T) data' :
  bincode_serialize_into data x = Some data' -> bincode_deserialize data' = Some x.
Proof.
  unfold bincode_serialize_into. destruct (bincode_serialize x) as [bs|] eqn:E; simpl; [|done].
  destruct (Z.leb_spec (vec_len bs) (vec_len data)); [|done].
  intros [= <-]. by apply bincode_roundtrip.
Qed.

End codec.

(** ** An executable codec

    A concrete instance of [Bincode], used to evaluate the definitions on
    inputs: fixed-width little-endian integers. *)

Fixpoint le_bytes (n : nat) (z : Z) : Bytes :=
  match n with O => [] | S n => z mod 256 :: le_bytes n (z / 256) end.

Fixpoint of_le_bytes (bs : Bytes) : Z :=
  match bs with [] => 0 | b :: bs => b + 256 * of_le_bytes bs end.

Lemma length_le_bytes n z : length (le_bytes n z) = n.
Proof. revert z. induction n; simpl; auto. Qed.

Lemma of_le_bytes_le_bytes n z : 0 <= z < 256 ^ Z.of_nat n -> of_le_bytes (le_bytes n z) = z.
Proof.
  revert z. induction n as [|n IH]; intros z Hz; cbn [le_bytes of_le_bytes].
  - simpl in Hz. lia.
  - rewrite Nat2Z.inj_succ, Z.pow_succ_r in Hz by lia. rewrite IH.
    + pose proof (Z.div_mod z 256). lia.
    + split; [apply Z.div_pos; lia|]. apply Z.div_lt_upper_bound; lia.
Qed.

Lemma of_le_bytes_bound bs : Forall is_byte bs -> 0 <= of_le_bytes bs < 256 ^ vec_len bs.
Proof.
  unfold is_byte, vec_len. induction 1 as [|b bs Hb _ IH]; cbn [of_le_bytes length]; [done|].
  rewrite Nat2Z.inj_succ, Z.pow_succ_r by lia. lia.
Qed.

Lemma le_bytes_of_le_bytes bs : Forall is_byte bs -> le_bytes (length bs) (of_le_bytes bs) = bs.
Proof.
  unfold is_byte. induction 1 as [|b bs Hb _ IH]; cbn [of_le_bytes le_bytes length]; [done|].
  replace (b + 256 * of_le_bytes bs) with (of_le_bytes bs * 256 + b) by lia.
  rewrite Z.div_add_l, Z.div_small, Z.add_0_r, IH by lia. f_equal.
  rewrite Z.add_comm, Z.mod_add, Z.mod_small; lia.
Qed.
