(* ===== verification/Pubkey.v ===== *)
(** * Hashes and derived addresses (sdk/program/src/hash.rs, pubkey.rs)

    Addresses derived from a base address and a seed, and program derived
    addresses, which are not on the ed25519 curve and so have no private key.
    The curve test of curve25519-dalek is a parameter ([Curve]). *)

From S2P Require Import Prelude Errors Account.

Class Curve := { bytes_are_curve_point : Bytes -> bool }.

(** ** Hasher

    [Sha256::update] appends to the input and [finalize] hashes all of it. *)

Section hash.
Context `{!Hashing}.

Definition Hasher := Bytes.
Definition Hasher_default : Hasher := [].
Definition Hasher_hash (val : Bytes) (self : Hasher) : Hasher := self ++ val.
Definition Hasher_hashv (vals : list Bytes) (self : Hasher) : Hasher :=
  foldl (fun self val => Hasher_hash val self) self vals.
Definition Hasher_result (self : Hasher) : Hash := sha256 self.

Definition hashv (vals : list Bytes) : Hash := Hasher_result (Hasher_hashv vals Hasher_default).
Definition hash (val : Bytes) : Hash := hashv [val].
Definition extend_and_hash (id : Hash) (val : Bytes) : Hash := hash (id ++ val).

End hash.

(** ** Derived addresses *)

Definition MAX_SEED_LEN : Z := 32.
Definition MAX_SEEDS : Z := 16.

(** "ProgramDerivedAddress" *)
Definition PDA_MARKER : Bytes :=
  [80; 114; 111; 103; 114; 97; 109; 68; 101; 114; 105; 118; 101; 100; 65; 100; 100; 114; 101; 115; 115].

Section derive.
Context `{!Hashing, !Curve}.

Definition create_with_seed (base : Pubkey) (seed : Bytes) (owner : Pubkey)
  : Outcome PubkeyError.PubkeyError Pubkey :=
  if MAX_SEED_LEN <? vec_len seed then Err PubkeyError.MaxSeedLengthExceeded
  else if (vec_len PDA_MARKER <=? vec_len owner)
          && bool_decide (drop (length owner - length PDA_MARKER) owner = PDA_MARKER)
  then Err PubkeyError.IllegalOwner
  else Ok (hashv [base; seed; owner]).

Definition create_program_address (seeds : list Bytes) (program_id : Pubkey)
  : Outcome PubkeyError.PubkeyError Pubkey :=
  if MAX_SEEDS <? vec_len seeds then Err PubkeyError.MaxSeedLengthExceeded
  else if existsb (fun seed => MAX_SEED_LEN <? vec_len seed) seeds
  then Err PubkeyError.MaxSeedLengthExceeded
  else
    let hasher := foldl (fun hasher seed => Hasher_hash seed hasher) Hasher_default seeds in
    let hash := Hasher_result (Hasher_hashv [program_id; PDA_MARKER] hasher) in
    if bytes_are_curve_point hash then Err PubkeyError.InvalidSeeds else Ok hash.

Definition is_on_curve (self : Pubkey) : bool := bytes_are_curve_point self.

(** The loop over bump seeds: [tries] iterations are left. *)
Fixpoint find_loop (seeds : list Bytes) (program_id : Pubkey) (tries : nat) (bump_seed : Z)
  : option (Pubkey * Z) :=
  match tries with
  | O => None
  | S tries =>
      match create_program_address (seeds ++ [[bump_seed]]) program_id with
      | Ok address => Some (address, bump_seed)
      | Err PubkeyError.InvalidSeeds =>
          find_loop seeds program_id tries (wrapping U8 (bump_seed - 1))
      | _ => None
      end
  end.

Definition try_find_program_address (seeds : list Bytes) (program_id : Pubkey)
  : option (Pubkey * Z) := find_loop seeds program_id (Z.to_nat (int_max U8)) (int_max U8).

Definition find_program_address (seeds : list Bytes) (program_id : Pubkey)
  : Outcome Empty_set (Pubkey * Z) := unwrap (try_find_program_address seeds program_id).

(** ** What they derive *)

Lemma hasher_concat vals h : foldl (fun hasher seed => Hasher_hash seed hasher) h vals = h ++ concat vals.
Proof.
  revert h. induction vals as [|v vals IH]; intros h; simpl; [by rewrite app_nil_r|].
  rewrite IH. unfold Hasher_hash. by rewrite <- app_assoc.
Qed.

Lemma hashv_concat vals : hashv vals = sha256 (concat vals).
Proof. unfold hashv, Hasher_result, Hasher_hashv. by rewrite hasher_concat. Qed.

(** The input hashed for an address derived from a seed, and for a program
    derived address. *)
Definition seed_input (base : Pubkey) (seed : Bytes) (owner : Pubkey) : Bytes := base ++ seed ++ owner.
Definition pda_input (seeds : list Bytes) (program_id : Pubkey) : Bytes :=
  concat seeds ++ program_id ++ PDA_MARKER.

Lemma create_with_seed_Ok base seed owner a :
  create_with_seed base seed owner = Ok a <->
  a = sha256 (seed_input base seed owner) /\ vec_len seed <= MAX_SEED_LEN /\
  ~ (exists front, owner = front ++ PDA_MARKER).
Proof.
  unfold create_with_seed, seed_input. rewrite hashv_concat. simpl concat. rewrite app_nil_r.
  destruct (Z.ltb_spec MAX_SEED_LEN (vec_len seed)).
  { split; [done|]. intros (_ & ? & _). lia. }
  destruct (_ && _) eqn:Hm.
  - apply andb_true_iff in Hm as [_ Hm%bool_decide_eq_true]. split; [done|]. intros (_ & _ & Hn).
    destruct Hn. exists (take (length owner - length PDA_MARKER) owner).
    rewrite <- Hm at 2. by rewrite take_drop.
  - split; [|by intros (-> & _)]. intros [= <-]. split_and!; [done|lia|]. intros [front ->].
    rewrite length_app, Nat.add_sub, drop_app_length in Hm.
    rewrite bool_decide_eq_true_2 in Hm by done. rewrite andb_true_r in Hm.
    apply Z.leb_gt in Hm. unfold vec_len in Hm. rewrite length_app in Hm. lia.
Qed.

Lemma create_program_address_Ok seeds id a :
  create_program_address seeds id = Ok a ->
  a = sha256 (pda_input seeds id) /\ bytes_are_curve_point a = false /\
  vec_len seeds <= MAX_SEEDS /\ Forall (fun seed => vec_len seed <= MAX_SEED_LEN) seeds.
Proof.
  unfold create_program_address, pda_input, Hasher_result, Hasher_hashv.
  destruct (Z.ltb_spec MAX_SEEDS (vec_len seeds)); [done|].
  destruct (existsb _ seeds) eqn:He; [done|]. rewrite !hasher_concat.
  cbn [concat]. rewrite app_nil_r. change (Hasher_default ++ concat seeds) with (concat seeds).
  destruct (bytes_are_curve_point _) eqn:Hc; [done|]. intros [= <-]. split_and!; try done.
  apply list.Forall_forall. intros seed Hin.
  destruct (Z.leb_spec (vec_len seed) MAX_SEED_LEN) as [|Hlt]; [done|].
  apply not_true_iff_false in He. destruct He. apply existsb_exists.
  exists seed. split; [by apply list_elem_of_In|]. by apply Z.ltb_lt.
Qed.

(** The tries of the loop: bump seeds [bump], [bump - 1], ... *)
Lemma find_loop_spec seeds id tries bump :
  Z.of_nat tries <= bump <= 255 ->
  match find_loop seeds id tries bump with
  | Some (a, b) =>
      bump - Z.of_nat tries < b <= bump /\ create_program_address (seeds ++ [[b]]) id = Ok a /\
      forall b', b < b' <= bump ->
        create_program_address (seeds ++ [[b']]) id = Err PubkeyError.InvalidSeeds
  | None => forall b, bump - Z.of_nat tries < b <= bump ->
      forall a, create_program_address (seeds ++ [[b]]) id <> Ok a
  end.
Proof.
  revert bump. induction tries as [|tries IH]; intros bump Hb; cbn [find_loop]; [lia|].
  assert (forall b, create_program_address (seeds ++ [[b]]) id = Err PubkeyError.MaxSeedLengthExceeded ->
    forall b' a, create_program_address (seeds ++ [[b']]) id <> Ok a) as Hlen.
  { intros b Hbe b' a. revert Hbe. unfold create_program_address. rewrite !existsb_app.
    change (existsb _ [[b]]) with false. change (existsb _ [[b']]) with false.
    replace (vec_len (seeds ++ [[b]])) with (vec_len (seeds ++ [[b']]))
      by (unfold vec_len; by rewrite !length_app).
    destruct (_ <? _); [done|]. destruct (_ || _); [done|]. by destruct (bytes_are_curve_point _). }
  destruct (create_program_address (seeds ++ [[bump]]) id) as [a|[]|] eqn:Hc.
  - split_and!; [lia|lia|done|lia].
  - intros b _ a. by eapply Hlen.
  - rewrite wrapping_small by (unfold in_range; simpl; lia).
    specialize (IH (bump - 1) ltac:(lia)). destruct (find_loop _ _ _ _) as [[a b]|].
    + destruct IH as (Hr & Ha & Hl). split_and!; [lia|lia|done|]. intros b' Hb'.
      destruct (decide (b' = bump)) as [->|]; [done|]. apply Hl. lia.
    + intros b Hr a. destruct (decide (b = bump)) as [->|]; [by rewrite Hc|]. apply IH. lia.
  - exfalso. revert Hc. unfold create_program_address. repeat case_match; done.
  - exfalso. revert Hc. unfold create_program_address. repeat case_match; done.
Qed.

(** The bump seed that is found is the largest that works.  A result is an
    address off the curve, derived with a bump seed from 255 down to 1 for which
    all larger ones land on the curve; without a result none of them derives an
    address. *)
Theorem find_program_address_largest (seeds : list Bytes) (program_id : Pubkey) :
  match try_find_program_address seeds program_id with
  | Some (address, bump) =>
      1 <= bump <= 255 /\ is_on_curve address = false /\
      create_program_address (seeds ++ [[bump]]) program_id = Ok address /\
      forall larger, bump < larger <= 255 ->
        create_program_address (seeds ++ [[larger]]) program_id = Err PubkeyError.InvalidSeeds
  | None => forall bump, 1 <= bump <= 255 -> forall address,
      create_program_address (seeds ++ [[bump]]) program_id <> Ok address
  end.
Proof.
  unfold try_find_program_address. change (int_max U8) with 255.
  pose proof (find_loop_spec seeds program_id (Z.to_nat 255) 255 ltac:(lia)) as Hf.
  destruct (find_loop _ _ _ _) as [[a b]|].
  - destruct Hf as (Hr & Ha & Hl). split_and!; [lia|lia| |done|done].
    by apply create_program_address_Ok in Ha as (_ & Hc & _).
  - intros b Hb. apply Hf. lia.
Qed.

(** The two ways to derive an address never hash the same input.  What is
    hashed for a program derived address ends in the marker; an owner that ends
    in it is refused, so what is hashed for an address derived from a seed and a
    32-byte owner does not. *)
Theorem derivations_are_separate (base : Pubkey) (seed : Bytes) (owner : Pubkey)
    (seeds : list Bytes) (program_id : Pubkey) (a a' : Pubkey) :
  vec_len owner = PUBKEY_BYTES ->
  create_with_seed base seed owner = Ok a ->
  create_program_address seeds program_id = Ok a' ->
  a = sha256 (seed_input base seed owner) /\ a' = sha256 (pda_input seeds program_id) /\
  seed_input base seed owner <> pda_input seeds program_id.
Proof.
  intros Ho (-> & _ & Hn)%create_with_seed_Ok (-> & _)%create_program_address_Ok.
  split_and!; [done|done|]. intros Heq. apply Hn. unfold seed_input, pda_input in Heq.
  assert (length owner = 32%nat) as Hl by (unfold vec_len, PUBKEY_BYTES in Ho; lia).
  exists (take 11 owner). rewrite <- (take_drop 11 owner) at 1. f_equal.
  rewrite !app_assoc in Heq.
  apply (f_equal (fun l => drop (length l - 21) l)) in Heq.
  rewrite !length_app, !drop_app_ge in Heq by (rewrite ?length_app; simpl; lia).
  rewrite length_app in Heq.
  replace (_ - _ - _)%nat with 11%nat in Heq by lia. rewrite Heq.
  rewrite !length_app. simpl length. by replace (_ - _ - _)%nat with 0%nat by lia.
Qed.

End derive.

(** Instances that evaluate. *)
Module PubkeyDemo.

Definition demo_hashing : Hashing := {| sha256 := fun bs => take 32 (bs ++ replicate 32 0) |}.
Definition demo_curve : Curve := {| bytes_are_curve_point := fun bs => match bs with 255 :: _ => true | _ => false end |}.

Lemma derivations_are_separate_witness :
  seed_input (replicate 32 1) [7] (replicate 32 2) <> pda_input [[3]] (replicate 32 2).
Proof.
  refine (proj2 (proj2 (@derivations_are_separate demo_hashing demo_curve (replicate 32 1) [7]
    (replicate 32 2) [[3]] (replicate 32 2) (replicate 32 1) (3 :: replicate 31 2) _ _ _)));
    vm_compute; reflexivity.
Defined.

End PubkeyDemo.
