(* ===== verification/TransactionContext.v ===== *)
(** * The transaction context (sdk/src/transaction_context.rs)

    The accounts of a transaction, the stack of nested instructions and the
    trace of all of them, and the [BorrowedAccount] through which a program
    reads and writes an account under the runtime's rules.

    Accounts live in [RefCell]s: the model keeps the borrow flag, so that a
    second borrow of an account that is still borrowed fails as in the code,
    and a [BorrowedAccount] is a handle on the shared store, not a copy.  The
    state of every method is the whole [TransactionContext]. *)

From S2P Require Import Prelude Errors Rent Account.

(** ** RefCell

    As in [std::cell]: 0 is unused, a positive flag counts readers, -1 is a
    writer. *)

Record RefCell (A : Type) := mkRefCell { cell_value : A; cell_flag : Z }.
Arguments mkRefCell {A} _ _.
Arguments cell_value {A} _.
Arguments cell_flag {A} _.

Definition RefCell_new {A} (a : A) : RefCell A := mkRefCell a 0.

(** [try_borrow] and [try_borrow_mut] whose guard is dropped at the end of the
    expression. *)
Definition peek {A} (c : RefCell A) : option A :=
  if 0 <=? cell_flag c then Some (cell_value c) else None.
Definition peek_mut {A} (c : RefCell A) : option A :=
  if cell_flag c =? 0 then Some (cell_value c) else None.

(** ** Data *)

Abbreviation IndexOfAccount := Z.
Definition as_index (z : Z) : IndexOfAccount := wrapping U16 z.

Record InstructionAccount := mkInstructionAccount {
  index_in_transaction : IndexOfAccount;
  index_in_caller : IndexOfAccount;
  index_in_callee : IndexOfAccount;
  ia_is_signer : bool;
  ia_is_writable : bool;
}.

Record TransactionAccounts := mkTransactionAccounts {
  ta_accounts : list (RefCell AccountSharedData);
  touched_flags : list bool;
}.

Record TransactionReturnData := mkReturnData {
  rd_program_id : Pubkey;
  rd_data : Bytes;
}.

Record InstructionContext := mkInstructionContext {
  nesting_level : Z;
  ic_lamport_sum : Z;
  program_accounts : list IndexOfAccount;
  instruction_accounts : list InstructionAccount;
  instruction_data : Bytes;
}.

Definition InstructionContext_default : InstructionContext :=
  mkInstructionContext 0 0 [] [] [].

Record TransactionContext := mkTransactionContext {
  account_keys : list Pubkey;
  accounts : TransactionAccounts;
  instruction_stack_capacity : Z;
  instruction_trace_capacity : Z;
  instruction_stack : list Z;
  instruction_trace : list InstructionContext;
  return_data : TransactionReturnData;
  resize_delta : RefCell Z;
  rent : Rent;
}.

Definition with_accounts (x : TransactionAccounts) (tc : TransactionContext) :=
  mkTransactionContext (account_keys tc) x (instruction_stack_capacity tc)
    (instruction_trace_capacity tc) (instruction_stack tc) (instruction_trace tc)
    (return_data tc) (resize_delta tc) (rent tc).
Definition with_stack (x : list Z) (tc : TransactionContext) :=
  mkTransactionContext (account_keys tc) (accounts tc) (instruction_stack_capacity tc)
    (instruction_trace_capacity tc) x (instruction_trace tc)
    (return_data tc) (resize_delta tc) (rent tc).
Definition with_trace (x : list InstructionContext) (tc : TransactionContext) :=
  mkTransactionContext (account_keys tc) (accounts tc) (instruction_stack_capacity tc)
    (instruction_trace_capacity tc) (instruction_stack tc) x
    (return_data tc) (resize_delta tc) (rent tc).
Definition with_return_data (x : TransactionReturnData) (tc : TransactionContext) :=
  mkTransactionContext (account_keys tc) (accounts tc) (instruction_stack_capacity tc)
    (instruction_trace_capacity tc) (instruction_stack tc) (instruction_trace tc)
    x (resize_delta tc) (rent tc).
Definition with_resize_delta (x : RefCell Z) (tc : TransactionContext) :=
  mkTransactionContext (account_keys tc) (accounts tc) (instruction_stack_capacity tc)
    (instruction_trace_capacity tc) (instruction_stack tc) (instruction_trace tc)
    (return_data tc) x (rent tc).

Abbreviation TxM := (M TransactionContext InstructionError).
Abbreviation Res := (Outcome InstructionError).

(** ** TransactionAccounts *)

Definition TransactionAccounts_new (accs : list (RefCell AccountSharedData)) : TransactionAccounts :=
  mkTransactionAccounts accs (replicate (length accs) false).

Definition ta_len (self : TransactionAccounts) : Z := vec_len (ta_accounts self).

Definition ta_get (index : IndexOfAccount) (self : TransactionAccounts)
  : option (RefCell AccountSharedData) := vec_get (ta_accounts self) index.

Definition ta_touch (index : IndexOfAccount) : M TransactionAccounts InstructionError unit :=
  fun self =>
  match vec_get (touched_flags self) index with
  | None => (Err NotEnoughAccountKeys, self)
  | Some _ => (Ok tt, mkTransactionAccounts (ta_accounts self)
                        (vec_set index true (touched_flags self)))
  end.

Definition touched_count (self : TransactionAccounts) : Z :=
  foldl (fun accumulator (was_touched : bool) =>
           saturating_add USIZE accumulator (if was_touched then 1 else 0))
        0 (touched_flags self).

Definition ta_try_borrow (index : IndexOfAccount) (self : TransactionAccounts)
  : Res AccountSharedData :=
  let! cell := ok_or MissingAccount (vec_get (ta_accounts self) index) in
  ok_or AccountBorrowFailed (peek cell).

Definition into_accounts (self : TransactionAccounts) : list AccountSharedData :=
  cell_value <$> ta_accounts self.

(** ** TransactionContext *)

Definition TransactionContext_new (transaction_accounts : list (Pubkey * AccountSharedData))
    (r : Rent) (stack_capacity trace_capacity : Z) : TransactionContext :=
  mkTransactionContext (fst <$> transaction_accounts)
    (TransactionAccounts_new ((fun ka => RefCell_new (snd ka)) <$> transaction_accounts))
    stack_capacity trace_capacity [] [InstructionContext_default]
    (mkReturnData (replicate 32 0) []) (RefCell_new 0) r.

Definition deconstruct_without_keys (self : TransactionContext) : Res (list AccountSharedData) :=
  match instruction_stack self with
  | [] => Ok (into_accounts (accounts self))
  | _ => Err CallDepth
  end.

Definition get_number_of_accounts (self : TransactionContext) : IndexOfAccount :=
  as_index (ta_len (accounts self)).

Definition get_key_of_account_at_index (index : IndexOfAccount) (self : TransactionContext)
  : Res Pubkey := ok_or NotEnoughAccountKeys (vec_get (account_keys self) index).

Definition get_account_at_index (index : IndexOfAccount) (self : TransactionContext)
  : Res (RefCell AccountSharedData) :=
  ok_or NotEnoughAccountKeys (ta_get index (accounts self)).

Definition find_index_of_account (pubkey : Pubkey) (self : TransactionContext)
  : option IndexOfAccount :=
  as_index <$> position (fun key => bool_decide (key = pubkey)) (account_keys self).

Definition find_index_of_program_account (pubkey : Pubkey) (self : TransactionContext)
  : option IndexOfAccount :=
  as_index <$> rposition (fun key => bool_decide (key = pubkey)) (account_keys self).

Definition get_instruction_trace_length (self : TransactionContext) : Z :=
  saturating_sub USIZE (vec_len (instruction_trace self)) 1.

Definition get_instruction_context_at_index_in_trace (index_in_trace : Z)
    (self : TransactionContext) : Res InstructionContext :=
  ok_or CallDepth (vec_get (instruction_trace self) index_in_trace).

Definition get_instruction_context_at_nesting_level (level : Z) (self : TransactionContext)
  : Res InstructionContext :=
  let! index_in_trace := ok_or CallDepth (vec_get (instruction_stack self) level) in
  get_instruction_context_at_index_in_trace index_in_trace self.

Definition get_instruction_context_stack_height (self : TransactionContext) : Z :=
  vec_len (instruction_stack self).

Definition get_current_instruction_context (self : TransactionContext) : Res InstructionContext :=
  let! level := ok_or CallDepth
                  (checked_sub USIZE (get_instruction_context_stack_height self) 1) in
  get_instruction_context_at_nesting_level level self.

(** [get_next_instruction_context()?] followed by an update of the context it
    points to: the last one of the trace. *)
Definition update_next_instruction_context (f : InstructionContext -> InstructionContext)
  : TxM unit := fun self =>
  match list.last (instruction_trace self) with
  | None => (Err CallDepth, self)
  | Some ic => (Ok tt, with_trace (removelast (instruction_trace self) ++ [f ic]) self)
  end.

(** ** InstructionContext *)

Definition configure (programs : list IndexOfAccount) (accs : list InstructionAccount)
    (data : Bytes) (self : InstructionContext) : InstructionContext :=
  mkInstructionContext (nesting_level self) (ic_lamport_sum self) programs accs data.

Definition get_stack_height (self : InstructionContext) : Z :=
  saturating_add USIZE (nesting_level self) 1.

Definition get_number_of_program_accounts (self : InstructionContext) : IndexOfAccount :=
  as_index (vec_len (program_accounts self)).

Definition get_number_of_instruction_accounts (self : InstructionContext) : IndexOfAccount :=
  as_index (vec_len (instruction_accounts self)).

Definition check_number_of_instruction_accounts (self : InstructionContext)
    (expected_at_least : IndexOfAccount) : Res unit :=
  if get_number_of_instruction_accounts self <? expected_at_least
  then Err NotEnoughAccountKeys else Ok tt.

Definition ic_find_index_of_program_account (self : InstructionContext) (pubkey : Pubkey)
    (tc : TransactionContext) : option IndexOfAccount :=
  as_index <$> position (fun i => bool_decide (vec_get (account_keys tc) i = Some pubkey))
                 (program_accounts self).

Definition find_index_of_instruction_account (self : InstructionContext) (pubkey : Pubkey)
    (tc : TransactionContext) : option IndexOfAccount :=
  as_index <$> position (fun ia => bool_decide
                           (vec_get (account_keys tc) (index_in_transaction ia) = Some pubkey))
                 (instruction_accounts self).

Definition get_index_of_program_account_in_transaction (self : InstructionContext)
    (i : IndexOfAccount) : Res IndexOfAccount :=
  ok_or NotEnoughAccountKeys (vec_get (program_accounts self) i).

Definition get_index_of_instruction_account_in_transaction (self : InstructionContext)
    (i : IndexOfAccount) : Res IndexOfAccount :=
  let! ia := ok_or NotEnoughAccountKeys (vec_get (instruction_accounts self) i) in
  Ok (index_in_transaction ia).

(** [None] if it is the first account with its key, else the index of that one. *)
Definition is_instruction_account_duplicate (self : InstructionContext) (i : IndexOfAccount)
  : Res (option IndexOfAccount) :=
  let! ia := ok_or NotEnoughAccountKeys (vec_get (instruction_accounts self) i) in
  Ok (if index_in_callee ia =? i then None else Some (index_in_callee ia)).

Definition get_last_program_key (self : InstructionContext) (tc : TransactionContext)
  : Res Pubkey :=
  let! i := get_index_of_program_account_in_transaction self
              (saturating_sub U16 (get_number_of_program_accounts self) 1) in
  get_key_of_account_at_index i tc.

Definition is_instruction_account_signer (self : InstructionContext) (i : IndexOfAccount)
  : Res bool :=
  let! ia := ok_or MissingAccount (vec_get (instruction_accounts self) i) in
  Ok (ia_is_signer ia).

Definition is_instruction_account_writable (self : InstructionContext) (i : IndexOfAccount)
  : Res bool :=
  let! ia := ok_or MissingAccount (vec_get (instruction_accounts self) i) in
  Ok (ia_is_writable ia).

(** The loop of [get_signers]. *)
Fixpoint get_signers_loop (tc : TransactionContext) (ias : list InstructionAccount)
    (result : gset Pubkey) : Res (gset Pubkey) :=
  match ias with
  | [] => Ok result
  | ia :: ias =>
      if ia_is_signer ia then
        let! key := get_key_of_account_at_index (index_in_transaction ia) tc in
        get_signers_loop tc ias ({[key]} ∪ result)
      else get_signers_loop tc ias result
  end.

Definition get_signers (self : InstructionContext) (tc : TransactionContext) : Res (gset Pubkey) :=
  get_signers_loop tc (instruction_accounts self) ∅.

(** ** Lamport sums, push and pop *)

Fixpoint lamport_sum_loop (tc : TransactionContext) (ic : InstructionContext)
    (indices : list IndexOfAccount) (sum : Z) : Res Z :=
  match indices with
  | [] => Ok sum
  | i :: indices =>
      let! duplicate := is_instruction_account_duplicate ic i in
      match duplicate with
      | Some _ => lamport_sum_loop tc ic indices sum (* Skip duplicate account *)
      | None =>
          let! index := get_index_of_instruction_account_in_transaction ic i in
          let! cell := get_account_at_index index tc in
          let! account := ok_or AccountBorrowOutstanding (peek cell) in
          let! sum' := ok_or ArithmeticOverflow (checked_add U128 (acc_lamports account) sum) in
          lamport_sum_loop tc ic indices sum'
      end
  end.

(** [instruction_accounts_lamport_sum] *)
Definition instruction_accounts_lamport_sum (ic : InstructionContext) (tc : TransactionContext)
  : Res Z :=
  lamport_sum_loop tc ic (seqZ 0 (get_number_of_instruction_accounts ic)) 0.

Definition check_caller_balanced (tc : TransactionContext) : Res unit :=
  match instruction_stack tc with
  | [] => Ok tt
  | _ =>
      let! caller := get_current_instruction_context tc in
      let! current := instruction_accounts_lamport_sum caller tc in
      if ic_lamport_sum caller =? current then Ok tt else Err UnbalancedInstruction
  end.

Definition push : TxM unit :=
  let? level := gets get_instruction_context_stack_height in
  let? callee := query (fun tc => ok_or CallDepth (list.last (instruction_trace tc))) in
  let? sum := query (instruction_accounts_lamport_sum callee) in
  query check_caller_balanced ;?
  update_next_instruction_context (fun ic =>
    mkInstructionContext level sum (program_accounts ic) (instruction_accounts ic)
      (instruction_data ic)) ;?
  let? index_in_trace := gets get_instruction_trace_length in
  let? tc := gets id in
  if instruction_trace_capacity tc <=? index_in_trace then fail MaxInstructionTraceLengthExceeded
  else
  modify (fun tc => with_trace (instruction_trace tc ++ [InstructionContext_default]) tc) ;?
  if instruction_stack_capacity tc <=? level then fail CallDepth
  else modify (fun tc => with_stack (instruction_stack tc ++ [index_in_trace]) tc).

(** All program accounts can be borrowed mutably: no outstanding references. *)
Fixpoint check_programs_unborrowed (indices : list IndexOfAccount) (tc : TransactionContext)
  : Res unit :=
  match indices with
  | [] => Ok tt
  | i :: indices =>
      let! cell := get_account_at_index i tc in
      let! _unused := ok_or AccountBorrowOutstanding (peek_mut cell) in
      check_programs_unborrowed indices tc
  end.

Definition detect_unbalanced_instruction (tc : TransactionContext) : Res bool :=
  let! ic := get_current_instruction_context tc in
  let! _unused := check_programs_unborrowed (program_accounts ic) tc in
  let! sum := instruction_accounts_lamport_sum ic tc in
  Ok (negb (ic_lamport_sum ic =? sum)).

Definition pop : TxM unit :=
  let? tc := gets id in
  match instruction_stack tc with
  | [] => fail CallDepth
  | _ =>
      (* Always pop, even if an unbalanced instruction was detected *)
      modify (fun tc => with_stack (removelast (instruction_stack tc)) tc) ;?
      let? unbalanced := lift (detect_unbalanced_instruction tc) in
      if unbalanced then fail UnbalancedInstruction else ret tt
  end.

Definition get_return_data (self : TransactionContext) : Pubkey * Bytes :=
  (rd_program_id (return_data self), rd_data (return_data self)).

Definition set_return_data (program_id : Pubkey) (data : Bytes) : TxM unit :=
  modify (with_return_data (mkReturnData program_id data)).

Definition accounts_resize_delta (self : TransactionContext) : Res Z :=
  ok_or GenericError (peek (resize_delta self)).

(** ** BorrowedAccount

    [transaction_context] is the state of the monad and [account], the [RefMut]
    guard, is the cell at [ba_index_in_transaction], flagged as written for as
    long as the handle lives. *)

Record BorrowedAccount := mkBorrowedAccount {
  ba_instruction_context : InstructionContext;
  ba_index_in_transaction : IndexOfAccount;
  ba_index_in_instruction : IndexOfAccount;
}.

Definition set_cell (index : IndexOfAccount) (c : RefCell AccountSharedData)
    (tc : TransactionContext) : TransactionContext :=
  with_accounts (mkTransactionAccounts (vec_set index c (ta_accounts (accounts tc)))
                   (touched_flags (accounts tc))) tc.

Definition try_borrow_account (ic : InstructionContext)
    (in_transaction in_instruction : IndexOfAccount) : TxM BorrowedAccount := fun tc =>
  match ta_get in_transaction (accounts tc) with
  | None => (Err MissingAccount, tc)
  | Some cell =>
      match peek_mut cell with
      | None => (Err AccountBorrowFailed, tc)
      | Some account =>
          (Ok (mkBorrowedAccount ic in_transaction in_instruction),
           set_cell in_transaction (mkRefCell account (-1)) tc)
      end
  end.

(** Dropping the [RefMut]. *)
Definition drop_account (self : BorrowedAccount) (tc : TransactionContext) : TransactionContext :=
  match ta_get (ba_index_in_transaction self) (accounts tc) with
  | None => tc
  | Some cell => set_cell (ba_index_in_transaction self) (mkRefCell (cell_value cell) 0) tc
  end.

Definition try_borrow_program_account (ic : InstructionContext) (i : IndexOfAccount)
  : TxM BorrowedAccount :=
  let? index := lift (get_index_of_program_account_in_transaction ic i) in
  try_borrow_account ic index i.

Definition try_borrow_last_program_account (ic : InstructionContext) : TxM BorrowedAccount :=
  try_borrow_program_account ic (saturating_sub U16 (get_number_of_program_accounts ic) 1).

Definition try_borrow_instruction_account (ic : InstructionContext) (i : IndexOfAccount)
  : TxM BorrowedAccount :=
  let? index := lift (get_index_of_instruction_account_in_transaction ic i) in
  try_borrow_account ic index (saturating_add U16 (get_number_of_program_accounts ic) i).

(** A borrow and the scope it lives in: the account is released when the scope
    ends, on an early return too. *)
Definition borrowing {A} (borrow : TxM BorrowedAccount) (scope : BorrowedAccount -> TxM A)
  : TxM A :=
  let? account := borrow in
  finally (scope account) (drop_account account).

(** The account behind the guard.  A live handle always points at a cell. *)
Definition borrowed (self : BorrowedAccount) (tc : TransactionContext) : Res AccountSharedData :=
  unwrap (cell_value <$> ta_get (ba_index_in_transaction self) (accounts tc)).

Definition update_borrowed (self : BorrowedAccount) (f : AccountSharedData -> AccountSharedData)
  : TxM unit := fun tc =>
  match ta_get (ba_index_in_transaction self) (accounts tc) with
  | None => (Panic, tc)
  | Some cell =>
      (Ok tt, set_cell (ba_index_in_transaction self)
                (mkRefCell (f (cell_value cell)) (cell_flag cell)) tc)
  end.

Definition get_key (self : BorrowedAccount) (tc : TransactionContext) : Res Pubkey :=
  match get_key_of_account_at_index (ba_index_in_transaction self) tc with
  | Ok key => Ok key
  | _ => Panic
  end.

(** Program accounts come before the instruction accounts and are never
    signers nor writable. *)
Definition is_signer (self : BorrowedAccount) : bool :=
  let programs := get_number_of_program_accounts (ba_instruction_context self) in
  if ba_index_in_instruction self <? programs then false
  else unwrap_or false
         (is_instruction_account_signer (ba_instruction_context self)
            (saturating_sub U16 (ba_index_in_instruction self) programs)).

Definition is_writable (self : BorrowedAccount) : bool :=
  let programs := get_number_of_program_accounts (ba_instruction_context self) in
  if ba_index_in_instruction self <? programs then false
  else unwrap_or false
         (is_instruction_account_writable (ba_instruction_context self)
            (saturating_sub U16 (ba_index_in_instruction self) programs)).

(** The owner of [account] is the program of the current instruction. *)
Definition is_owned_by_current_program (self : BorrowedAccount) (account : AccountSharedData)
    (tc : TransactionContext) : bool :=
  match get_last_program_key (ba_instruction_context self) tc with
  | Ok key => bool_decide (key = acc_owner account)
  | _ => false
  end.

Definition touch (self : BorrowedAccount) : TxM unit :=
  zoom accounts with_accounts (ta_touch (ba_index_in_transaction self)).

(** [buf.chunks_exact(n)]: the full chunks and the remainder. *)
Fixpoint chunks_exact_loop (fuel n : nat) (buf : Bytes) : list Bytes * Bytes :=
  match fuel with
  | O => ([], buf)
  | S fuel =>
      if (length buf <? n)%nat then ([], buf)
      else let (chunks, remainder) := chunks_exact_loop fuel n (drop n buf) in
           (take n buf :: chunks, remainder)
  end.
Definition chunks_exact (n : nat) (buf : Bytes) := chunks_exact_loop (length buf) n buf.

Definition ZEROS_LEN : nat := 1024.

Definition is_zeroed (buf : Bytes) : bool :=
  let ZEROS := replicate ZEROS_LEN 0 in
  let (chunks, remainder) := chunks_exact ZEROS_LEN buf in
  forallb (fun chunk => bool_decide (chunk = ZEROS)) chunks
  && bool_decide (remainder = take (length remainder) ZEROS).

Definition set_owner (self : BorrowedAccount) (pubkey : Bytes) : TxM unit :=
  let? account := query (borrowed self) in
  let? owned := gets (is_owned_by_current_program self account) in
  (* Only the owner can assign a new owner *)
  if negb owned then fail ModifiedProgramId else
  (* and only if the account is writable *)
  if negb (is_writable self) then fail ModifiedProgramId else
  (* and only if the account is not executable *)
  if acc_executable account then fail ModifiedProgramId else
  (* and only if the data is zero-initialized or empty *)
  if negb (is_zeroed (acc_data account)) then fail ModifiedProgramId else
  (* don't touch the account if the owner does not change *)
  if bool_decide (acc_owner account = pubkey) then ret tt else
  touch self ;?
  let? account' := lift (unwrap (copy_into_owner_from_slice pubkey account)) in
  update_borrowed self (fun _ => account').

Definition set_lamports (self : BorrowedAccount) (lamports : Z) : TxM unit :=
  let? account := query (borrowed self) in
  let? owned := gets (is_owned_by_current_program self account) in
  (* An account not owned by the program cannot have its balance decrease *)
  if negb owned && (lamports <? acc_lamports account) then fail ExternalAccountLamportSpend else
  (* The balance of read-only may not change *)
  if negb (is_writable self) then fail ReadonlyLamportChange else
  (* The balance of executable accounts may not change *)
  if acc_executable account then fail ExecutableLamportChange else
  (* don't touch the account if the lamports do not change *)
  if acc_lamports account =? lamports then ret tt else
  touch self ;?
  update_borrowed self (account_set_lamports lamports).

Definition checked_add_lamports (self : BorrowedAccount) (lamports : Z) : TxM unit :=
  let? account := query (borrowed self) in
  let? l := lift (ok_or ArithmeticOverflow (checked_add U64 (acc_lamports account) lamports)) in
  set_lamports self l.

Definition checked_sub_lamports (self : BorrowedAccount) (lamports : Z) : TxM unit :=
  let? account := query (borrowed self) in
  let? l := lift (ok_or ArithmeticOverflow (checked_sub U64 (acc_lamports account) lamports)) in
  set_lamports self l.

(** system_instruction.rs: the limits of account data *)
Definition MAX_PERMITTED_DATA_LENGTH : Z := 10 * 1024 * 1024.
Definition MAX_PERMITTED_ACCOUNTS_DATA_ALLOCATIONS_PER_TRANSACTION : Z :=
  MAX_PERMITTED_DATA_LENGTH * 2.

Definition can_data_be_changed (self : BorrowedAccount) : TxM unit :=
  let? account := query (borrowed self) in
  (* Only non-executable accounts data can be changed *)
  if acc_executable account then fail ExecutableDataModified else
  (* and only if the account is writable *)
  if negb (is_writable self) then fail ReadonlyDataModified else
  (* and only if we are the owner *)
  let? owned := gets (is_owned_by_current_program self account) in
  if negb owned then fail ExternalAccountDataModified else ret tt.

Definition can_data_be_resized (self : BorrowedAccount) (new_length : Z) : TxM unit :=
  let? account := query (borrowed self) in
  let? owned := gets (is_owned_by_current_program self account) in
  let old_length := vec_len (acc_data account) in
  (* Only the owner can change the length of the data *)
  if negb (new_length =? old_length) && negb owned then fail AccountDataSizeChanged else
  (* The new length can not exceed the maximum permitted length *)
  if MAX_PERMITTED_DATA_LENGTH <? new_length then fail InvalidRealloc else
  (* The resize can not exceed the per-transaction maximum *)
  let length_delta := saturating_sub I64 (wrapping I64 new_length) (wrapping I64 old_length) in
  let? delta := query accounts_resize_delta in
  if MAX_PERMITTED_ACCOUNTS_DATA_ALLOCATIONS_PER_TRANSACTION <? saturating_add I64 delta length_delta
  then fail MaxAccountsDataAllocationsExceeded else ret tt.

Definition update_accounts_resize_delta (self : BorrowedAccount) (new_len : Z) : TxM unit :=
  let? account := query (borrowed self) in
  let? delta := query (fun tc => ok_or GenericError (peek_mut (resize_delta tc))) in
  let change := saturating_sub I64 (wrapping I64 new_len)
                  (wrapping I64 (vec_len (acc_data account))) in
  modify (fun tc => with_resize_delta
    (mkRefCell (saturating_add I64 delta change) (cell_flag (resize_delta tc))) tc).

(** Returns the data the slice shows; a write through the slice is
    [update_borrowed]. *)
Definition get_data_mut (self : BorrowedAccount) : TxM Bytes :=
  can_data_be_changed self ;?
  touch self ;?
  let? account := query (borrowed self) in
  ret (acc_data account).

Definition set_data (self : BorrowedAccount) (data : Bytes) : TxM unit :=
  can_data_be_resized self (vec_len data) ;?
  can_data_be_changed self ;?
  touch self ;?
  update_accounts_resize_delta self (vec_len data) ;?
  update_borrowed self (account_set_data data).

Definition set_data_from_slice (self : BorrowedAccount) (data : Bytes) : TxM unit :=
  can_data_be_resized self (vec_len data) ;?
  can_data_be_changed self ;?
  touch self ;?
  update_accounts_resize_delta self (vec_len data) ;?
  update_borrowed self (account_set_data data).

Definition set_data_length (self : BorrowedAccount) (new_length : Z) : TxM unit :=
  can_data_be_resized self new_length ;?
  can_data_be_changed self ;?
  let? account := query (borrowed self) in
  (* don't touch the account if the length does not change *)
  if vec_len (acc_data account) =? new_length then ret tt else
  touch self ;?
  update_accounts_resize_delta self new_length ;?
  update_borrowed self (account_resize new_length 0).

Definition extend_from_slice (self : BorrowedAccount) (data : Bytes) : TxM unit :=
  let? account := query (borrowed self) in
  let new_len := saturating_add USIZE (vec_len (acc_data account)) (vec_len data) in
  can_data_be_resized self new_len ;?
  can_data_be_changed self ;?
  match data with
  | [] => ret tt
  | _ =>
      touch self ;?
      update_accounts_resize_delta self new_len ;?
      update_borrowed self (account_extend_from_slice data)
  end.

Definition get_state {T} `{!Bincode T} (self : BorrowedAccount) : TxM T :=
  let? account := query (borrowed self) in
  lift (ok_or InvalidAccountData (shared_deserialize_data account)).

Definition set_state {T} `{!Bincode T} (self : BorrowedAccount) (state : T) : TxM unit :=
  let? data := get_data_mut self in
  let? serialized_size := lift (ok_or GenericError (bincode_serialized_size state)) in
  if vec_len data <? serialized_size then fail AccountDataTooSmall else
  let? data' := lift (ok_or GenericError (bincode_serialize_into data state)) in
  update_borrowed self (account_set_data data').

Definition is_rent_exempt_at_data_length (self : BorrowedAccount) (data_length : Z) : TxM bool :=
  let? account := query (borrowed self) in
  gets (fun tc => is_exempt (rent tc) (acc_lamports account) data_length).

Definition set_executable (self : BorrowedAccount) (executable : bool) : TxM unit :=
  let? account := query (borrowed self) in
  let? exempt := gets (fun tc => is_exempt (rent tc) (acc_lamports account)
                                   (vec_len (acc_data account))) in
  (* To become executable an account must be rent exempt *)
  if negb exempt then fail ExecutableAccountNotRentExempt else
  (* Only the owner can set the executable flag *)
  let? owned := gets (is_owned_by_current_program self account) in
  if negb owned then fail ExecutableModified else
  (* and only if the account is writable *)
  if negb (is_writable self) then fail ExecutableModified else
  (* one can not clear the executable flag *)
  if acc_executable account && negb executable then fail ExecutableModified else
  (* don't touch the account if the executable flag does not change *)
  if Bool.eqb (acc_executable account) executable then ret tt else
  touch self ;?
  update_borrowed self (account_set_executable executable).

(** ** ExecutionRecord *)

Record ExecutionRecord := mkExecutionRecord {
  er_accounts : list (Pubkey * AccountSharedData);
  er_return_data : TransactionReturnData;
  er_touched_account_count : Z;
  er_accounts_resize_delta : Z;
}.

Definition ExecutionRecord_from (context : TransactionContext) : ExecutionRecord :=
  mkExecutionRecord (zip (account_keys context) (into_accounts (accounts context)))
    (return_data context) (touched_count (accounts context)) (cell_value (resize_delta context)).
