(* ===== verification/RuntimeRules.v ===== *)
(** * The runtime's rules for account changes

    The lemma library of [BorrowedAccount] (sdk/src/transaction_context.rs),
    and the theorem that whatever sequence of [BorrowedAccount] methods a
    program calls in an instruction, and whichever of them fail, the changes it
    makes obey the rules a program is held to: read-only accounts and
    executable accounts do not change, an account of another program keeps its
    data and owner and can only gain lamports, ownership only moves with zeroed
    data, and data stays within its limits. *)

From S2P Require Import Prelude Errors Rent Account TransactionContext.

#[global] Arguments set_cell : simpl never.
#[global] Arguments ta_get : simpl never.
#[global] Arguments vec_get : simpl never.

(** ** Views of the store *)

Definition account_at (tc : TransactionContext) (i : IndexOfAccount) : option AccountSharedData :=
  cell_value <$> ta_get i (accounts tc).

Definition flag_at (tc : TransactionContext) (i : IndexOfAccount) : option Z :=
  cell_flag <$> ta_get i (accounts tc).

(** What no [BorrowedAccount] method changes. *)
Record same_frame (tc tc' : TransactionContext) : Prop := {
  sf_keys : account_keys tc' = account_keys tc;
  sf_stack_capacity : instruction_stack_capacity tc' = instruction_stack_capacity tc;
  sf_trace_capacity : instruction_trace_capacity tc' = instruction_trace_capacity tc;
  sf_stack : instruction_stack tc' = instruction_stack tc;
  sf_trace : instruction_trace tc' = instruction_trace tc;
  sf_return : return_data tc' = return_data tc;
  sf_rent : rent tc' = rent tc;
  sf_delta_flag : cell_flag (resize_delta tc') = cell_flag (resize_delta tc);
  sf_len : length (ta_accounts (accounts tc')) = length (ta_accounts (accounts tc));
  sf_touched : length (touched_flags (accounts tc')) = length (touched_flags (accounts tc));
}.

#[global] Instance same_frame_preorder : PreOrder same_frame.
Proof.
  split; [by split|]. intros x y z [] []. split; congruence.
Qed.

(** A change that only concerns account [i]. *)
Record local_to (i : IndexOfAccount) (tc tc' : TransactionContext) : Prop := {
  lt_frame : same_frame tc tc';
  lt_flags : forall j, flag_at tc' j = flag_at tc j;
  lt_values : forall j, j <> i -> account_at tc' j = account_at tc j;
}.

#[global] Instance local_to_preorder i : PreOrder (local_to i).
Proof.
  split.
  - intros tc. split; [reflexivity|done..].
  - intros x y z [] []. split; [by etransitivity|congruence|].
    intros j Hj. by rewrite lt_values1, lt_values0.
Qed.

(** ** Cells *)

Lemma ta_get_set_cell tc i c j :
  0 <= i < ta_len (accounts tc) ->
  ta_get j (accounts (set_cell i c tc)) = if decide (j = i) then Some c else ta_get j (accounts tc).
Proof.
  intros Hi. unfold ta_get, set_cell. simpl. case_decide as Hj.
  - subst. by apply vec_get_set_eq.
  - apply vec_get_set_ne; lia.
Qed.

Lemma account_at_valid tc i a : account_at tc i = Some a -> 0 <= i < ta_len (accounts tc).
Proof. unfold account_at. intros (c & Hc & _)%fmap_Some. by eapply vec_get_lt. Qed.

Lemma set_cell_frame tc i c : same_frame tc (set_cell i c tc).
Proof. unfold set_cell. split; simpl; auto using length_vec_set. Qed.

Lemma account_at_set_cell tc i c j :
  0 <= i < ta_len (accounts tc) ->
  account_at (set_cell i c tc) j = if decide (j = i) then Some (cell_value c) else account_at tc j.
Proof. intros Hi. unfold account_at. rewrite ta_get_set_cell by done. by case_decide. Qed.

Lemma flag_at_set_cell tc i c j :
  0 <= i < ta_len (accounts tc) ->
  flag_at (set_cell i c tc) j = if decide (j = i) then Some (cell_flag c) else flag_at tc j.
Proof. intros Hi. unfold flag_at. rewrite ta_get_set_cell by done. by case_decide. Qed.

(** Replacing the value of a cell, as every write does. *)
Lemma set_cell_local tc i c a :
  ta_get i (accounts tc) = Some c ->
  local_to i tc (set_cell i (mkRefCell a (cell_flag c)) tc).
Proof.
  intros Hc. assert (0 <= i < ta_len (accounts tc)) by by eapply vec_get_lt.
  split; [apply set_cell_frame| |].
  - intros j. rewrite flag_at_set_cell by done. case_decide; [|done]. subst.
    unfold flag_at. by rewrite Hc.
  - intros j Hj. rewrite account_at_set_cell by done. by case_decide.
Qed.

(** ** The primitives *)

Lemma touch_wp ba tc :
  wp (touch ba) (fun _ tc' => local_to (ba_index_in_transaction ba) tc tc' /\
                   (forall j, account_at tc' j = account_at tc j) /\
                   resize_delta tc' = resize_delta tc) tc.
Proof.
  unfold touch. wp_step. unfold wp, ta_touch. destruct (vec_get _ _); simpl.
  - split; [|done]. split; [|done..]. split; simpl; auto using length_vec_set.
  - split; [|done]. split; [|done..]. by split.
Qed.

Lemma update_borrowed_wp ba f tc :
  wp (update_borrowed ba f) (fun o tc' => local_to (ba_index_in_transaction ba) tc tc' /\
        resize_delta tc' = resize_delta tc /\
        match account_at tc (ba_index_in_transaction ba) with
        | Some a => o = Ok tt /\ account_at tc' (ba_index_in_transaction ba) = Some (f a)
        | None => o = Panic /\ tc' = tc
        end) tc.
Proof.
  unfold wp, update_borrowed, account_at. set (i := ba_index_in_transaction ba).
  destruct (ta_get i (accounts tc)) as [c|] eqn:Hc; cbn [fst snd fmap option_fmap option_map].
  - split; [by apply set_cell_local|]. split; [done|]. split; [done|].
    rewrite ta_get_set_cell by by eapply vec_get_lt. by rewrite decide_True.
  - split; [reflexivity|]. done.
Qed.

Lemma keeps_wp {S E A} (R : S -> S -> Prop) (m : M S E A) :
  (forall s, wp m (fun _ s' => R s s') s) -> keeps R m.
Proof. intros H s. apply H. Qed.

Lemma touch_local ba : keeps (local_to (ba_index_in_transaction ba)) (touch ba).
Proof. apply keeps_wp. intros tc. eapply wp_mono; [apply touch_wp|cbv beta; tauto]. Qed.

Lemma update_borrowed_local ba f :
  keeps (local_to (ba_index_in_transaction ba)) (update_borrowed ba f).
Proof. apply keeps_wp. intros tc. eapply wp_mono; [apply update_borrowed_wp|cbv beta; tauto]. Qed.

#[export] Hint Resolve touch_local update_borrowed_local : keeps.

Lemma with_resize_delta_local i d tc :
  cell_flag d = cell_flag (resize_delta tc) -> local_to i tc (with_resize_delta d tc).
Proof. intros Hd. split; [|done..]. by split. Qed.
#[export] Hint Extern 1 (keeps (local_to _) (modify _)) =>
  apply keeps_modify; intros ?; apply with_resize_delta_local; reflexivity : keeps.

Section local.
Context (ba : BorrowedAccount).
Abbreviation L := (local_to (ba_index_in_transaction ba)).

Lemma set_owner_local k : keeps L (set_owner ba k).
Proof. unfold set_owner. keeps. Qed.
Lemma set_lamports_local l : keeps L (set_lamports ba l).
Proof. unfold set_lamports. keeps. Qed.
Lemma checked_add_lamports_local l : keeps L (checked_add_lamports ba l).
Proof. unfold checked_add_lamports. pose proof set_lamports_local. keeps. Qed.
Lemma checked_sub_lamports_local l : keeps L (checked_sub_lamports ba l).
Proof. unfold checked_sub_lamports. pose proof set_lamports_local. keeps. Qed.
Lemma can_data_be_changed_local : keeps L (can_data_be_changed ba).
Proof. unfold can_data_be_changed. keeps. Qed.
Lemma can_data_be_resized_local n : keeps L (can_data_be_resized ba n).
Proof. unfold can_data_be_resized. keeps. Qed.
Lemma update_accounts_resize_delta_local n : keeps L (update_accounts_resize_delta ba n).
Proof. unfold update_accounts_resize_delta. keeps. Qed.
#[local] Hint Resolve set_owner_local set_lamports_local can_data_be_changed_local
  can_data_be_resized_local update_accounts_resize_delta_local : keeps.
Lemma get_data_mut_local : keeps L (get_data_mut ba).
Proof. unfold get_data_mut. keeps. Qed.
#[local] Hint Resolve get_data_mut_local : keeps.
Lemma set_data_local d : keeps L (set_data ba d).
Proof. unfold set_data. keeps. Qed.
Lemma set_data_from_slice_local d : keeps L (set_data_from_slice ba d).
Proof. unfold set_data_from_slice. keeps. Qed.
Lemma set_data_length_local n : keeps L (set_data_length ba n).
Proof. unfold set_data_length. keeps. Qed.
Lemma extend_from_slice_local d : keeps L (extend_from_slice ba d).
Proof. unfold extend_from_slice. keeps. Qed.
Lemma get_state_local {T} `{!Bincode T} : keeps L (get_state (T:=T) ba).
Proof. unfold get_state. keeps. Qed.
Lemma set_state_local {T} `{!Bincode T} (x : T) : keeps L (set_state ba x).
Proof. unfold set_state. keeps. Qed.
Lemma set_executable_local e : keeps L (set_executable ba e).
Proof. unfold set_executable. keeps. Qed.
End local.
#[export] Hint Resolve set_owner_local set_lamports_local checked_add_lamports_local
  checked_sub_lamports_local can_data_be_changed_local can_data_be_resized_local
  update_accounts_resize_delta_local get_data_mut_local set_data_local
  set_data_from_slice_local set_data_length_local extend_from_slice_local
  get_state_local set_state_local set_executable_local : keeps.

(** ** Steps that change no account *)

Record quiet (tc tc' : TransactionContext) : Prop := {
  q_frame : same_frame tc tc';
  q_flags : forall j, flag_at tc' j = flag_at tc j;
  q_values : forall j, account_at tc' j = account_at tc j;
}.

#[global] Instance quiet_preorder : PreOrder quiet.
Proof.
  split.
  - intros tc. split; [reflexivity|done..].
  - intros x y z [] []. split; [by etransitivity|congruence..].
Qed.

Lemma touch_quiet ba : keeps quiet (touch ba).
Proof.
  apply keeps_wp. intros tc. eapply wp_mono; [apply touch_wp|].
  intros ? ? ([] & Hv & _). by split.
Qed.

#[export] Hint Resolve touch_quiet : keeps.
#[export] Hint Extern 1 (keeps quiet (modify _)) =>
  apply keeps_modify; intros ?; (split; [by split|done..]) : keeps.

Lemma update_accounts_resize_delta_quiet ba n : keeps quiet (update_accounts_resize_delta ba n).
Proof. unfold update_accounts_resize_delta. keeps. Qed.
#[export] Hint Resolve update_accounts_resize_delta_quiet : keeps.

Lemma wp_keeps {S E A} (R : S -> S -> Prop) (m : M S E A) Q s :
  keeps R m -> (forall o s', R s s' -> Q o s') -> wp m Q s.
Proof. intros Hk HQ. apply HQ, Hk. Qed.

(** ** Zeroed data *)

Lemma chunks_exact_loop_concat fuel n buf :
  let (chunks, remainder) := chunks_exact_loop fuel n buf in
  concat chunks ++ remainder = buf.
Proof.
  revert buf. induction fuel as [|fuel IH]; intros buf; simpl; [done|].
  destruct (Nat.ltb_spec (length buf) n); [done|].
  specialize (IH (drop n buf)).
  destruct (chunks_exact_loop fuel n (drop n buf)) as [chunks remainder]. simpl.
  by rewrite <- app_assoc, IH, take_drop.
Qed.

Lemma chunks_exact_loop_sizes fuel n buf :
  (0 < n)%nat -> (length buf <= fuel)%nat ->
  let (chunks, remainder) := chunks_exact_loop fuel n buf in
  Forall (fun c => length c = n) chunks /\ (length remainder < n)%nat.
Proof.
  intros Hn. revert buf. induction fuel as [|fuel IH]; intros buf Hf; simpl.
  - split; [done|]. lia.
  - destruct (Nat.ltb_spec (length buf) n) as [|Hge]; [done|].
    specialize (IH (drop n buf)). rewrite length_drop in IH. specialize (IH ltac:(lia)).
    destruct (chunks_exact_loop fuel n (drop n buf)) as [chunks remainder].
    destruct IH. split; [|done]. constructor; [|done]. rewrite length_take. lia.
Qed.

Lemma zeros_iff (l : Bytes) : l = replicate (length l) 0 <-> Forall (eq 0) l.
Proof.
  split.
  - intros ->. by apply Forall_replicate.
  - induction 1 as [|x l -> _ IH]; simpl; congruence.
Qed.

Lemma is_zeroed_Forall buf : is_zeroed buf = true <-> Forall (eq 0) buf.
Proof.
  unfold is_zeroed, chunks_exact. set (n := ZEROS_LEN). assert (0 < n)%nat by (unfold n, ZEROS_LEN; lia).
  pose proof (chunks_exact_loop_concat (length buf) n buf) as Hc.
  pose proof (chunks_exact_loop_sizes (length buf) n buf ltac:(done) ltac:(done)) as Hs.
  destruct (chunks_exact_loop (length buf) n buf) as [chunks remainder].
  destruct Hs as [Hsz Hrem]. rewrite andb_true_iff, <- Hc, Forall_app.
  rewrite bool_decide_eq_true, take_replicate, Nat.min_l, zeros_iff by lia.
  f_equiv. rewrite forallb_forall, Forall_concat. rewrite List.Forall_forall.
  rewrite List.Forall_forall in Hsz. split; intros Hall c Hin; specialize (Hall c Hin).
  - apply bool_decide_eq_true in Hall. apply zeros_iff. by rewrite Hall, length_replicate.
  - apply bool_decide_eq_true. apply zeros_iff in Hall. by rewrite Hall, (Hsz c Hin).
Qed.

(** ** What an instruction may do to an account *)

Record allowed (program : option Pubkey) (writable : bool) (a a' : AccountSharedData) : Prop := {
  al_rent_epoch : acc_rent_epoch a' = acc_rent_epoch a;
  al_readonly : writable = false -> a' = a;
  al_executable : acc_executable a = true -> a' = a;
  al_external : program <> Some (acc_owner a) ->
    acc_data a' = acc_data a /\ acc_owner a' = acc_owner a /\
    acc_executable a' = acc_executable a /\ acc_lamports a <= acc_lamports a';
  al_owner : acc_owner a' <> acc_owner a -> Forall (eq 0) (acc_data a');
  al_length : vec_len (acc_data a') <= Z.max (vec_len (acc_data a)) MAX_PERMITTED_DATA_LENGTH;
}.

#[global] Instance allowed_preorder program writable : PreOrder (allowed program writable).
Proof.
  split.
  - intros a. split; try done; lia.
  - intros a b c [] []. split.
    + congruence.
    + intros H. rewrite al_readonly1, al_readonly0; done.
    + intros H. specialize (al_executable0 H). subst. auto.
    + intros H. destruct al_external0 as (? & Hob & ? & ?); [done|].
      destruct al_external1 as (? & ? & ? & ?); [by rewrite Hob|].
      repeat split; [congruence..|lia].
    + intros H. destruct (decide (acc_owner b = acc_owner a)) as [Hb|Hb].
      * apply al_owner1. congruence.
      * destruct (decide (program = Some (acc_owner a))) as [->|Hp].
        -- destruct al_external1 as (-> & _); [congruence|]. auto.
        -- destruct al_external0 as (_ & ? & _); done.
    + lia.
Qed.

(** The program an instruction runs, and whether it may write account [j]. *)
Definition program_key (ic : InstructionContext) (tc : TransactionContext) : option Pubkey :=
  match get_last_program_key ic tc with Ok key => Some key | _ => None end.

Definition writable_at (ic : InstructionContext) (j : IndexOfAccount) : bool :=
  existsb (fun ia => (index_in_transaction ia =? j) && ia_is_writable ia)
    (instruction_accounts ic).

(** Every account changed, if at all, in an allowed way. *)
Record rules (ic : InstructionContext) (tc tc' : TransactionContext) : Prop := {
  r_frame : same_frame tc tc';
  r_flags : forall j, flag_at tc' j = flag_at tc j;
  r_allowed : forall j a, account_at tc j = Some a ->
    exists a', account_at tc' j = Some a' /\ allowed (program_key ic tc) (writable_at ic j) a a';
}.

Lemma program_key_frame ic tc tc' : same_frame tc tc' -> program_key ic tc' = program_key ic tc.
Proof.
  intros Hf. unfold program_key, get_last_program_key, get_key_of_account_at_index.
  by rewrite (sf_keys _ _ Hf).
Qed.

#[global] Instance rules_preorder ic : PreOrder (rules ic).
Proof.
  split.
  - intros tc. split; [reflexivity|done|]. intros j a Ha. by exists a.
  - intros x y z [] []. split; [by etransitivity|congruence|].
    intros j a (b & Hb & Hab)%r_allowed0. apply r_allowed1 in Hb as (c & Hc & Hbc).
    rewrite (program_key_frame ic x y) in Hbc by done.
    exists c. split; [done|]. by etransitivity.
Qed.

Lemma quiet_rules ic tc tc' : quiet tc tc' -> rules ic tc tc'.
Proof.
  intros []. split; [done..|]. intros j a Ha. exists a. by rewrite q_values0.
Qed.

(** A handle that the instruction [ic] may hold. *)
Record handle (ic : InstructionContext) (ba : BorrowedAccount) : Prop := {
  h_context : ba_instruction_context ba = ic;
  h_writable : is_writable ba = true -> writable_at ic (ba_index_in_transaction ba) = true;
}.

Lemma is_owned_by_current_program_key ic ba a tc :
  handle ic ba -> is_owned_by_current_program ba a tc = true <-> program_key ic tc = Some (acc_owner a).
Proof.
  intros [<- _]. unfold is_owned_by_current_program, program_key.
  destruct (get_last_program_key _ tc); rewrite ?bool_decide_eq_true; split; congruence.
Qed.

(** The write at the end of a method: if what it writes is allowed, the rules
    are kept. *)
Lemma update_borrowed_rules ic ba f a tc tc1 :
  account_at tc (ba_index_in_transaction ba) = Some a -> quiet tc tc1 ->
  allowed (program_key ic tc) (writable_at ic (ba_index_in_transaction ba)) a (f a) ->
  wp (update_borrowed ba f) (fun _ tc' => rules ic tc tc') tc1.
Proof.
  intros Ha [Hf Hfl Hv] Hall. eapply wp_mono; [apply update_borrowed_wp|].
  intros o tc' ([Hf' Hfl' Hv'] & _ & Hu). rewrite Hv, Ha in Hu. destruct Hu as [_ Hu].
  split; [by etransitivity|congruence|].
  intros j b Hb. destruct (decide (j = ba_index_in_transaction ba)) as [->|Hne].
  - exists (f a). split; [done|]. congruence.
  - exists b. rewrite Hv', Hv by done. done.
Qed.

Lemma borrowed_account_at ba tc a :
  borrowed ba tc = Ok a -> account_at tc (ba_index_in_transaction ba) = Some a.
Proof. unfold borrowed, account_at. intros H%unwrap_ok. done. Qed.

(** Execution of one method: guards become hypotheses, quiet steps are skipped. *)
Ltac rules_step :=
  first
    [ progress wp_run
    | match goal with
      | |- wp (touch _) _ _ => eapply wp_keeps; [apply touch_quiet|intros ? ? ?; cbv beta]
      | |- wp (update_accounts_resize_delta _ _) _ _ =>
          eapply wp_keeps; [apply update_accounts_resize_delta_quiet|intros ? ? ?; cbv beta]
      end ].
Ltac rules_run :=
  repeat rules_step;
  repeat match goal with H : borrowed _ _ = Ok _ |- _ => apply borrowed_account_at in H end.

Ltac bool_facts :=
  repeat match goal with
  | H : negb _ = false |- _ => apply negb_false_iff in H
  | H : negb _ = true |- _ => apply negb_true_iff in H
  | H : (_ || _) = false |- _ => apply orb_false_iff in H as [? ?]
  | H : (_ && _) = true |- _ => apply andb_true_iff in H as [? ?]
  | H : (_ =? _) = true |- _ => apply Z.eqb_eq in H
  | H : (_ =? _) = false |- _ => apply Z.eqb_neq in H
  | H : (_ <? _) = true |- _ => apply Z.ltb_lt in H
  | H : (_ <? _) = false |- _ => apply Z.ltb_ge in H
  | H : (_ <=? _) = true |- _ => apply Z.leb_le in H
  | H : (_ <=? _) = false |- _ => apply Z.leb_gt in H
  | H : bool_decide _ = true |- _ => apply bool_decide_eq_true in H
  | H : bool_decide _ = false |- _ => apply bool_decide_eq_false in H
  end.

Section methods.
Context (ic : InstructionContext) (ba : BorrowedAccount) (Hh : handle ic ba).

(** Ends a branch that wrote nothing. *)
Ltac unwritten :=
  solve [ reflexivity | apply quiet_rules; first [done | etransitivity; done] ].

Lemma set_lamports_rules l : keeps (rules ic) (set_lamports ba l).
Proof.
  apply keeps_wp. intros tc. unfold set_lamports. rules_run; try unwritten.
  eapply update_borrowed_rules; [done..|]. bool_facts.
  split; simpl; try done; try lia.
  - intros Hw. rewrite (h_writable _ _ Hh) in Hw; done.
  - congruence.
  - intros Hp. repeat split. rewrite <- (is_owned_by_current_program_key ic ba) in Hp by done.
    apply not_true_iff_false in Hp. apply andb_false_iff in Heqb. rewrite Hp in Heqb.
    destruct Heqb as [[=]|?]. bool_facts. lia.
Qed.

(** The owner of a writable account that is not executable may change it. *)
Lemma allowed_owned tc a a' :
  is_owned_by_current_program ba a tc = true -> is_writable ba = true ->
  acc_executable a = false -> acc_rent_epoch a' = acc_rent_epoch a ->
  (acc_owner a' <> acc_owner a -> Forall (eq 0) (acc_data a')) ->
  vec_len (acc_data a') <= Z.max (vec_len (acc_data a)) MAX_PERMITTED_DATA_LENGTH ->
  allowed (program_key ic tc) (writable_at ic (ba_index_in_transaction ba)) a a'.
Proof.
  intros Ho%(is_owned_by_current_program_key ic) Hw He Hr Hz Hl; [|done].
  apply (h_writable _ _ Hh) in Hw. split; try done; congruence.
Qed.

Ltac owned_write :=
  eapply update_borrowed_rules; [done|first [done|etransitivity; done]|];
  bool_facts; apply allowed_owned; simpl; try done; try lia; try congruence.

Lemma set_owner_rules k : keeps (rules ic) (set_owner ba k).
Proof.
  apply keeps_wp. intros tc. unfold set_owner. rules_run; try unwritten.
  owned_write; unfold copy_into_owner_from_slice, unwrap in *;
    repeat case_match; simplify_eq/=; [done|..|lia].
  intros _. by apply is_zeroed_Forall.
Qed.

Lemma checked_add_lamports_rules l : keeps (rules ic) (checked_add_lamports ba l).
Proof.
  pose proof set_lamports_rules. unfold checked_add_lamports. keeps.
Qed.

Lemma checked_sub_lamports_rules l : keeps (rules ic) (checked_sub_lamports ba l).
Proof.
  pose proof set_lamports_rules. unfold checked_sub_lamports. keeps.
Qed.

Lemma get_data_mut_rules : keeps (rules ic) (get_data_mut ba).
Proof.
  apply keeps_wp. intros tc. unfold get_data_mut, can_data_be_changed.
  rules_run; try unwritten.
Qed.

Lemma set_data_from_slice_rules d : keeps (rules ic) (set_data_from_slice ba d).
Proof.
  apply keeps_wp. intros tc.
  unfold set_data_from_slice, can_data_be_resized, can_data_be_changed.
  rules_run; simplify_eq; try unwritten. owned_write.
Qed.

Lemma set_data_rules d : keeps (rules ic) (set_data ba d).
Proof. exact (set_data_from_slice_rules d). Qed.

Lemma vec_len_resize (n x : Z) (l : Bytes) : 0 <= n -> vec_len (resize (Z.to_nat n) x l) = n.
Proof. intros. unfold vec_len. rewrite length_resize. lia. Qed.

Lemma set_data_length_rules n : 0 <= n -> keeps (rules ic) (set_data_length ba n).
Proof.
  intros Hn. apply keeps_wp. intros tc.
  unfold set_data_length, can_data_be_resized, can_data_be_changed.
  rules_run; simplify_eq; try unwritten. owned_write. rewrite vec_len_resize by done. lia.
Qed.

Lemma extend_from_slice_rules d : keeps (rules ic) (extend_from_slice ba d).
Proof.
  apply keeps_wp. intros tc.
  unfold extend_from_slice, can_data_be_resized, can_data_be_changed.
  rules_run; simplify_eq; try unwritten. owned_write.
  unfold vec_len, saturating_add, saturating, MAX_PERMITTED_DATA_LENGTH in *.
  rewrite length_app. simpl in *. lia.
Qed.

Lemma get_state_rules {T} `{!Bincode T} : keeps (rules ic) (get_state (T:=T) ba).
Proof. unfold get_state. keeps. Qed.

Lemma set_state_rules {T} `{!Bincode T} (x : T) : keeps (rules ic) (set_state ba x).
Proof.
  apply keeps_wp. intros tc. unfold set_state, get_data_mut, can_data_be_changed.
  rules_run; simplify_eq; try unwritten.
  match goal with Hq : quiet ?x ?y, H : account_at ?y _ = Some _ |- _ =>
    rewrite (q_values _ _ Hq) in H end. simplify_eq.
  owned_write. unfold ok_or in *. case_match; simplify_eq/=.
  unfold vec_len. erewrite serialize_into_length by done. lia.
Qed.

Lemma set_executable_rules e : keeps (rules ic) (set_executable ba e).
Proof.
  apply keeps_wp. intros tc. unfold set_executable. rules_run; try unwritten.
  owned_write. destruct (acc_executable _), e; done.
Qed.

End methods.

(** ** A program at work

    What a program can do with the accounts of its instruction: borrow them, in
    any order and several at a time, call any method on a live handle, write
    through the slice of [get_data_mut], drop handles.  A failed call leaves
    the program running. *)

Definition overwrite (old new : Bytes) : Bytes :=
  take (length old) new ++ drop (length new) old.

Lemma length_overwrite old new : length (overwrite old new) = length old.
Proof. unfold overwrite. rewrite length_app, length_take, length_drop. lia. Qed.

Inductive method : Type :=
| MSetOwner (pubkey : Bytes)
| MSetLamports (lamports : Z)
| MCheckedAddLamports (lamports : Z)
| MCheckedSubLamports (lamports : Z)
| MWriteData (new : Bytes)
| MSetData (data : Bytes)
| MSetDataFromSlice (data : Bytes)
| MSetDataLength (new_length : Z)
| MExtendFromSlice (data : Bytes)
| MSetExecutable (executable : bool).

Definition write_data (ba : BorrowedAccount) (new : Bytes) : TxM unit :=
  let? data := get_data_mut ba in
  update_borrowed ba (account_set_data (overwrite data new)).

Definition run_method (m : method) (ba : BorrowedAccount) : TxM unit :=
  match m with
  | MSetOwner k => set_owner ba k
  | MSetLamports l => set_lamports ba l
  | MCheckedAddLamports l => checked_add_lamports ba l
  | MCheckedSubLamports l => checked_sub_lamports ba l
  | MWriteData new => write_data ba new
  | MSetData d => set_data ba d
  | MSetDataFromSlice d => set_data_from_slice ba d
  | MSetDataLength n => set_data_length ba (Z.abs n)
  | MExtendFromSlice d => extend_from_slice ba d
  | MSetExecutable e => set_executable ba e
  end.

Lemma run_method_local m ba : keeps (local_to (ba_index_in_transaction ba)) (run_method m ba).
Proof. unfold run_method, write_data. destruct m; keeps. Qed.

Inductive program_step (ic : InstructionContext)
  : list BorrowedAccount * TransactionContext -> list BorrowedAccount * TransactionContext -> Prop :=
| step_borrow_instruction i live ba tc tc' :
    try_borrow_instruction_account ic i tc = (Ok ba, tc') ->
    program_step ic (live, tc) (ba :: live, tc')
| step_borrow_program i live ba tc tc' :
    try_borrow_program_account ic i tc = (Ok ba, tc') ->
    program_step ic (live, tc) (ba :: live, tc')
| step_call live ba m o tc tc' :
    ba ∈ live -> run_method m ba tc = (o, tc') ->
    program_step ic (live, tc) (live, tc')
| step_drop l1 l2 ba tc :
    program_step ic (l1 ++ ba :: l2, tc) (l1 ++ l2, drop_account ba tc).

(** Every account changed, if at all, in an allowed way (borrows aside). *)
Definition obeys (ic : InstructionContext) (tc tc' : TransactionContext) : Prop :=
  same_frame tc tc' /\
  forall j a, account_at tc j = Some a ->
    exists a', account_at tc' j = Some a' /\ allowed (program_key ic tc) (writable_at ic j) a a'.

#[global] Instance obeys_preorder ic : PreOrder (obeys ic).
Proof.
  split.
  - intros tc. split; [reflexivity|]. intros j a Ha. by exists a.
  - intros x y z [Hf Ha] [Hf' Ha']. split; [by etransitivity|].
    intros j a (b & Hb & Hab)%Ha. apply Ha' in Hb as (c & Hc & Hbc).
    rewrite (program_key_frame ic x y) in Hbc by done.
    exists c. split; [done|]. by etransitivity.
Qed.

Lemma rules_obeys ic tc tc' : rules ic tc tc' -> obeys ic tc tc'.
Proof. intros []. by split. Qed.

Lemma same_values_obeys ic tc tc' :
  same_frame tc tc' -> (forall j, account_at tc' j = account_at tc j) -> obeys ic tc tc'.
Proof. intros Hf Hv. split; [done|]. intros j a Ha. exists a. by rewrite Hv. Qed.

Lemma try_borrow_account_inv ic i k tc ba tc' :
  try_borrow_account ic i k tc = (Ok ba, tc') ->
  exists a, ta_get i (accounts tc) = Some (mkRefCell a 0) /\
    ba = mkBorrowedAccount ic i k /\ tc' = set_cell i (mkRefCell a (-1)) tc.
Proof.
  unfold try_borrow_account. destruct (ta_get i (accounts tc)) as [[a fl]|] eqn:Hc; [|done].
  unfold peek_mut. simpl. destruct (Z.eqb_spec fl 0) as [->|]; [|done].
  intros [= <- <-]. by exists a.
Qed.

Lemma try_borrow_account_values ic i k tc ba tc' :
  try_borrow_account ic i k tc = (Ok ba, tc') ->
  same_frame tc tc' /\ (forall j, account_at tc' j = account_at tc j).
Proof.
  intros (a & Hc & -> & ->)%try_borrow_account_inv. split; [apply set_cell_frame|].
  intros j. rewrite account_at_set_cell by by eapply vec_get_lt.
  case_decide; [|done]. subst. unfold account_at. by rewrite Hc.
Qed.

Lemma drop_account_values ba tc :
  same_frame tc (drop_account ba tc) /\
  (forall j, account_at (drop_account ba tc) j = account_at tc j).
Proof.
  unfold drop_account. destruct (ta_get _ _) as [c|] eqn:Hc; [|by split].
  split; [apply set_cell_frame|]. intros j.
  rewrite account_at_set_cell by by eapply vec_get_lt.
  case_decide; [|done]. subst. unfold account_at. by rewrite Hc.
Qed.

(** The number of accounts of an instruction fits the [u16] that indexes them. *)
Definition ic_small (ic : InstructionContext) : Prop :=
  vec_len (program_accounts ic) + vec_len (instruction_accounts ic) <= int_max U16.

Lemma number_of_program_accounts_small ic :
  ic_small ic -> get_number_of_program_accounts ic = vec_len (program_accounts ic).
Proof.
  unfold ic_small, get_number_of_program_accounts, as_index. intros H.
  apply wrapping_small. unfold in_range, vec_len in *. simpl in *. lia.
Qed.

Lemma number_of_instruction_accounts_small ic :
  ic_small ic -> get_number_of_instruction_accounts ic = vec_len (instruction_accounts ic).
Proof.
  unfold ic_small, get_number_of_instruction_accounts, as_index. intros H.
  apply wrapping_small. unfold in_range, vec_len in *. simpl in *. lia.
Qed.

(** The flags a handle shows are those of the instruction account it came from. *)
Lemma instruction_handle_flags ic i ia ba :
  ic_small ic -> vec_get (instruction_accounts ic) i = Some ia ->
  ba_instruction_context ba = ic ->
  ba_index_in_instruction ba = saturating_add U16 (get_number_of_program_accounts ic) i ->
  is_writable ba = ia_is_writable ia /\ is_signer ba = ia_is_signer ia.
Proof.
  intros Hs Hi <- Hk. unfold is_writable, is_signer. rewrite Hk.
  rewrite number_of_program_accounts_small by done.
  pose proof (vec_get_lt _ _ _ Hi). unfold ic_small in Hs.
  unfold saturating_add, saturating_sub. rewrite !saturating_small
    by (unfold in_range, saturating, vec_len in *; simpl in *; lia).
  destruct (Z.ltb_spec (vec_len (program_accounts (ba_instruction_context ba)) + i)
    (vec_len (program_accounts (ba_instruction_context ba)))); [lia|].
  replace (_ + i - _) with i by lia.
  unfold is_instruction_account_writable, is_instruction_account_signer. by rewrite Hi.
Qed.

Lemma instruction_handle ic i tc ba tc' :
  ic_small ic -> try_borrow_instruction_account ic i tc = (Ok ba, tc') -> handle ic ba.
Proof.
  intros Hs H. unfold try_borrow_instruction_account in H. inv_ok H.
  unfold get_index_of_instruction_account_in_transaction in *. inv_outcome Hok.
  match goal with H : try_borrow_account _ _ _ _ = _ |- _ =>
    apply try_borrow_account_inv in H as (acc & Hc & -> & ->) end.
  split; [done|]. intros Hw.
  match type of Hw with is_writable ?b = _ =>
    destruct (instruction_handle_flags ic i a0 b Hs Hok0 eq_refl eq_refl) as [Hfl _] end.
  rewrite Hfl in Hw.
  unfold writable_at. apply existsb_exists. eexists. split.
  - apply vec_get_Some in Hok0 as [_ Hok0]. apply list_elem_of_In. by eapply list_elem_of_lookup_2.
  - simpl. rewrite Hw. by rewrite Z.eqb_refl.
Qed.

Lemma program_handle ic i tc ba tc' :
  ic_small ic -> try_borrow_program_account ic i tc = (Ok ba, tc') -> handle ic ba.
Proof.
  intros Hs H. unfold try_borrow_program_account in H. inv_ok H.
  unfold get_index_of_program_account_in_transaction in *. inv_outcome Hok.
  match goal with H : try_borrow_account _ _ _ _ = _ |- _ =>
    apply try_borrow_account_inv in H as (acc & Hc & -> & ->) end.
  split; [done|]. unfold is_writable. simpl.
  rewrite number_of_program_accounts_small by done. apply vec_get_lt in Hok.
  destruct (Z.ltb_spec i (vec_len (program_accounts ic))); [done|lia].
Qed.

Lemma run_method_rules ic m ba : handle ic ba -> keeps (rules ic) (run_method m ba).
Proof.
  intros Hh. destruct m; simpl;
    auto using set_owner_rules, set_lamports_rules, checked_add_lamports_rules,
      checked_sub_lamports_rules, set_data_rules, set_data_from_slice_rules,
      set_data_length_rules, extend_from_slice_rules, set_executable_rules, Z.abs_nonneg.
  apply keeps_wp. intros tc. unfold write_data, get_data_mut, can_data_be_changed.
  rules_run; simplify_eq; try (by apply quiet_rules); try reflexivity.
  match goal with Hq : quiet ?x ?y, H : account_at ?y _ = Some _ |- _ =>
    rewrite (q_values _ _ Hq) in H end. simplify_eq.
  eapply update_borrowed_rules; [done..|]. bool_facts.
  apply allowed_owned; simpl; try done. unfold vec_len. rewrite length_overwrite. lia.
Qed.

(** Borrowing and dropping change borrow flags only. *)
Definition borrows_only (tc tc' : TransactionContext) : Prop :=
  same_frame tc tc' /\ (forall j, account_at tc' j = account_at tc j) /\
  resize_delta tc' = resize_delta tc.

Lemma set_cell_delta i c tc : resize_delta (set_cell i c tc) = resize_delta tc.
Proof. done. Qed.

Lemma try_borrow_account_only ic i k tc ba tc' :
  try_borrow_account ic i k tc = (Ok ba, tc') -> borrows_only tc tc'.
Proof.
  intros H. pose proof (try_borrow_account_values _ _ _ _ _ _ H) as [Hf Hv].
  apply try_borrow_account_inv in H as (a & Hc & -> & ->). by split.
Qed.

Lemma drop_account_only ba tc : borrows_only tc (drop_account ba tc).
Proof.
  destruct (drop_account_values ba tc) as [Hf Hv]. split; [done|]. split; [done|].
  unfold drop_account. by destruct (ta_get _ _).
Qed.

(** A step borrows or drops, or calls a method of a handle. *)
Lemma program_step_inv ic c c' :
  program_step ic c c' -> ic_small ic -> Forall (handle ic) c.1 ->
  Forall (handle ic) c'.1 /\
  (borrows_only c.2 c'.2 \/ exists m ba, handle ic ba /\ c'.2 = final (run_method m ba) c.2).
Proof.
  intros Hstep Hs Hl.
  destruct Hstep as [i live0 ba t t' Hr|i live0 ba t t' Hr|live0 ba m o t t' Hin Hr|l1 l2 ba t];
    simpl in *.
  - split; [constructor; [by eapply instruction_handle|done]|left].
    unfold try_borrow_instruction_account in Hr. inv_ok Hr. by eapply try_borrow_account_only.
  - split; [constructor; [by eapply program_handle|done]|left].
    unfold try_borrow_program_account in Hr. inv_ok Hr. by eapply try_borrow_account_only.
  - split; [done|right]. exists m, ba. rewrite list.Forall_forall in Hl.
    split; [by apply Hl|]. unfold final. by rewrite Hr.
  - split; [|left; apply drop_account_only].
    apply list.Forall_app in Hl as [Hl1 [_ Hl2]%list.Forall_cons]. by apply list.Forall_app.
Qed.

(** What borrowing, dropping and every method keep holds of every state the
    program reaches. *)
Lemma program_invariant ic (I : TransactionContext -> Prop) tc live tc' :
  ic_small ic ->
  (forall t t', borrows_only t t' -> I t -> I t') ->
  (forall m ba t, handle ic ba -> I t -> I (final (run_method m ba) t)) ->
  rtc (program_step ic) ([], tc) (live, tc') -> I tc -> I tc'.
Proof.
  intros Hs Hb Hm Hrtc Hi.
  enough (forall c c', rtc (program_step ic) c c' -> I c.2 -> Forall (handle ic) c.1 -> I c'.2)
    as Hgen by by eapply (Hgen ([], tc) (live, tc')).
  clear Hrtc Hi. intros c c'. induction 1 as [c|c c1 c2 Hstep _ IH]; intros Hi Hl; [done|].
  destruct (program_step_inv ic c c1 Hstep Hs Hl) as [Hl1 [Ho|(m & ba & Hh & Heq)]];
    apply IH; eauto. rewrite Heq. by apply Hm.
Qed.

Lemma program_step_obeys ic c c' :
  program_step ic c c' -> ic_small ic -> Forall (handle ic) c.1 -> obeys ic c.2 c'.2.
Proof.
  intros Hstep Hs Hl.
  destruct (program_step_inv ic c c' Hstep Hs Hl) as [_ [(Hf & Hv & _)|(m & ba & Hh & ->)]].
  - by apply same_values_obeys.
  - apply rules_obeys. by apply run_method_rules.
Qed.

(** C8: the runtime's rules.  Start an instruction with no account borrowed and
    let the program do anything it can through [BorrowedAccount]: in every state
    it reaches, each account is unchanged or changed in an allowed way. *)
Theorem program_obeys_rules (ic : InstructionContext) (tc tc' : TransactionContext)
    (live : list BorrowedAccount) :
  ic_small ic ->
  rtc (program_step ic) ([], tc) (live, tc') ->
  obeys ic tc tc'.
Proof.
  intros Hs Hrtc. eapply (program_invariant ic (obeys ic tc)); [done| | |done|reflexivity].
  - intros t t' (Hf & Hv & _) Ho. etransitivity; [done|]. by apply same_values_obeys.
  - intros m ba t Hh Ho. etransitivity; [done|]. apply rules_obeys. by apply run_method_rules.
Qed.

(** ** Sums over the accounts *)

Definition values (tc : TransactionContext) : list AccountSharedData :=
  cell_value <$> ta_accounts (accounts tc).

Definition account_sum (g : AccountSharedData -> Z) (tc : TransactionContext) : Z :=
  sum_Z (g <$> values tc).

Definition total_lamports : TransactionContext -> Z := account_sum acc_lamports.
Definition total_data : TransactionContext -> Z := account_sum (fun a => vec_len (acc_data a)).

Lemma account_at_values tc i : account_at tc i = vec_get (values tc) i.
Proof.
  unfold account_at, ta_get, vec_get, values. case_decide; [|done]. by rewrite list_lookup_fmap.
Qed.

Lemma lookup_values tc (n : nat) : values tc !! n = account_at tc (Z.of_nat n).
Proof.
  rewrite account_at_values. unfold vec_get. rewrite decide_True by lia. by rewrite Nat2Z.id.
Qed.

Lemma values_eq tc tc' :
  (forall j, account_at tc' j = account_at tc j) -> values tc' = values tc.
Proof. intros H. apply list_eq. intros n. by rewrite !lookup_values, H. Qed.

Lemma account_sum_eq g tc tc' :
  (forall j, account_at tc' j = account_at tc j) -> account_sum g tc' = account_sum g tc.
Proof. intros H. unfold account_sum. by rewrite (values_eq _ _ H). Qed.

Lemma account_sum_update g i tc tc' a a' :
  (forall j, j <> i -> account_at tc' j = account_at tc j) -> account_at tc i = Some a -> account_at tc' i = Some a' ->
  account_sum g tc' = account_sum g tc - g a + g a'.
Proof.
  intros Hl Ha Ha'. pose proof (account_at_valid _ _ _ Ha) as [H0 _].
  unfold account_sum.
  assert (values tc' = <[Z.to_nat i := a']> (values tc)) as ->.
  { apply list_eq. intros n. rewrite lookup_values.
    destruct (decide (n = Z.to_nat i)) as [->|Hne].
    - rewrite Z2Nat.id by done. rewrite list_lookup_insert_eq; [done|].
      apply (lookup_lt_Some _ _ a). by rewrite lookup_values, Z2Nat.id.
    - rewrite list_lookup_insert_ne by done.
      rewrite lookup_values, Hl; [done|lia]. }
  rewrite list_fmap_insert. apply sum_Z_insert.
  by rewrite list_lookup_fmap, lookup_values, Z2Nat.id, Ha.
Qed.

Lemma local_account_sum g i tc tc' a a' :
  local_to i tc tc' -> account_at tc i = Some a -> account_at tc' i = Some a' ->
  account_sum g tc' = account_sum g tc - g a + g a'.
Proof. intros []. by apply account_sum_update. Qed.

Lemma data_lens_nonneg tc : Forall (Z.le 0) ((fun a => vec_len (acc_data a)) <$> values tc).
Proof. apply Forall_fmap, Forall_true. intros x. unfold vec_len. simpl. lia. Qed.

Lemma total_data_nonneg tc : 0 <= total_data tc.
Proof. apply sum_Z_nonneg, data_lens_nonneg. Qed.

Lemma data_len_le_total tc i a : account_at tc i = Some a -> vec_len (acc_data a) <= total_data tc.
Proof.
  intros Ha. pose proof (account_at_valid _ _ _ Ha) as [H0 _].
  apply (sum_Z_lookup_le _ (Z.to_nat i)); [apply data_lens_nonneg|].
  by rewrite list_lookup_fmap, lookup_values, Z2Nat.id, Ha.
Qed.

(** ** The accounting of data growth *)

(** The resize delta is the growth of the data since it was [start], and stays
    within the transaction's limit. *)
Definition delta_ok (start : Z) (tc : TransactionContext) : Prop :=
  cell_value (resize_delta tc) = total_data tc - start /\
  cell_value (resize_delta tc) <= MAX_PERMITTED_ACCOUNTS_DATA_ALLOCATIONS_PER_TRANSACTION.

Section resize.
Context (start : Z) (Hstart : 0 <= start <= 4611686018427387904).

Lemma same_data_delta_ok ba tc tc' a a' :
  local_to (ba_index_in_transaction ba) tc tc' -> resize_delta tc' = resize_delta tc ->
  account_at tc (ba_index_in_transaction ba) = Some a ->
  account_at tc' (ba_index_in_transaction ba) = Some a' ->
  vec_len (acc_data a') = vec_len (acc_data a) -> delta_ok start tc -> delta_ok start tc'.
Proof.
  unfold delta_ok, total_data. intros Hl -> Ha Ha' Hd Hok.
  erewrite local_account_sum by done. lia.
Qed.

Lemma touch_delta ba tc Q :
  (forall o tc', quiet tc tc' -> resize_delta tc' = resize_delta tc -> Q o tc') ->
  wp (touch ba) Q tc.
Proof.
  intros HQ. eapply wp_mono; [apply touch_wp|]. intros o tc' (Hl & Hv & Hd).
  apply HQ; [|done]. by destruct Hl; split.
Qed.

Lemma quiet_delta_ok tc tc' :
  quiet tc tc' -> resize_delta tc' = resize_delta tc -> delta_ok start tc -> delta_ok start tc'.
Proof. unfold delta_ok, total_data. intros Hq -> Hok. by rewrite (account_sum_eq _ tc) by apply Hq. Qed.

(** A write that keeps the length of the data. *)
Lemma update_same_length ba f a tc tc1 :
  account_at tc (ba_index_in_transaction ba) = Some a -> quiet tc tc1 ->
  resize_delta tc1 = resize_delta tc -> vec_len (acc_data (f a)) = vec_len (acc_data a) ->
  delta_ok start tc -> wp (update_borrowed ba f) (fun _ tc' => delta_ok start tc') tc1.
Proof.
  intros Ha Hq Hd Hf Hok. eapply wp_mono; [apply update_borrowed_wp|].
  intros o tc' (Hl & Hd' & Hu). rewrite (q_values _ _ Hq), Ha in Hu. destruct Hu as [_ Hu].
  eapply (same_data_delta_ok ba tc1); [done..|by rewrite (q_values _ _ Hq)|done|done|].
  by eapply quiet_delta_ok.
Qed.

(** The checked resize: the limit was tested, the delta is updated, and the data
    takes its new length. *)
Lemma resize_delta_ok ba f a n d tc tc1 :
  account_at tc (ba_index_in_transaction ba) = Some a -> quiet tc tc1 ->
  resize_delta tc1 = resize_delta tc ->
  0 <= n <= MAX_PERMITTED_DATA_LENGTH -> vec_len (acc_data (f a)) = n ->
  accounts_resize_delta tc = Ok d ->
  saturating_add I64 d (saturating_sub I64 (wrapping I64 n) (wrapping I64 (vec_len (acc_data a))))
    <= MAX_PERMITTED_ACCOUNTS_DATA_ALLOCATIONS_PER_TRANSACTION ->
  delta_ok start tc ->
  wp (update_accounts_resize_delta ba n ;? update_borrowed ba f)
     (fun _ tc' => delta_ok start tc') tc1.
Proof.
  intros Ha Hq Hd Hn Hf Hres Hle Hok. unfold update_accounts_resize_delta.
  wp_run; try (by eapply quiet_delta_ok).
  apply borrowed_account_at in Heqo. rewrite (q_values _ _ Hq), Ha in Heqo. injection Heqo as <-.
  assert (a1 = d) as ->.
  { rewrite Hd in Heqo0. unfold accounts_resize_delta, peek, peek_mut, ok_or in *.
    repeat case_match; simplify_eq/=; done. }
  assert (d = cell_value (resize_delta tc)) as Hdv.
  { unfold accounts_resize_delta, peek, ok_or in Hres. by repeat case_match; simplify_eq/=. }
  eapply wp_mono; [apply update_borrowed_wp|]. intros o tc' (Hl & Hd' & Hu).
  set (tc2 := with_resize_delta _ tc1) in *.
  assert (forall j, account_at tc2 j = account_at tc j) as Hv2 by apply (q_values _ _ Hq).
  rewrite Hv2, Ha in Hu. destruct Hu as [_ Hu].
  unfold delta_ok in Hok. pose proof (total_data_nonneg tc). pose proof (data_len_le_total tc _ _ Ha).
  assert (total_data tc' = total_data tc - vec_len (acc_data a) + n) as Ht.
  { unfold total_data. erewrite (local_account_sum _ _ tc2) by (rewrite ?Hv2; done).
    rewrite (account_sum_eq _ tc) by done. by rewrite Hf. }
  unfold delta_ok. rewrite Ht, Hd'. unfold tc2. cbn [resize_delta with_resize_delta cell_value].
  unfold MAX_PERMITTED_ACCOUNTS_DATA_ALLOCATIONS_PER_TRANSACTION, MAX_PERMITTED_DATA_LENGTH in *.
  unfold vec_len, saturating_add, saturating_sub in *.
  rewrite !(wrapping_small I64) in * by (unfold in_range; cbn [int_min int_max I64]; lia).
  rewrite !(saturating_small I64) in *
    by (unfold in_range, saturating; cbn [int_min int_max I64]; lia).
  lia.
Qed.

(** Runs a method up to its write; quiet steps keep the delta. *)
Ltac delta_run :=
  repeat lazymatch goal with
    | |- wp (bind (update_accounts_resize_delta _ _) _) _ _ => fail
    | |- wp (touch _) _ _ => apply touch_delta; intros ? ? ? ?; cbv beta
    | _ => wp_step
    end;
  repeat match goal with H : borrowed _ _ = Ok _ |- _ => apply borrowed_account_at in H end;
  try done; try (by eapply quiet_delta_ok).

(** A method keeps the accounting. *)
Definition accounted {A} (m : TxM A) : Prop :=
  forall tc, delta_ok start tc -> wp m (fun _ tc' => delta_ok start tc') tc.

Lemma set_lamports_accounted ba l : accounted (set_lamports ba l).
Proof. intros tc Hok. unfold set_lamports. delta_run. by eapply update_same_length. Qed.

Lemma checked_add_lamports_accounted ba l : accounted (checked_add_lamports ba l).
Proof. intros tc Hok. unfold checked_add_lamports. delta_run. by apply set_lamports_accounted. Qed.

Lemma checked_sub_lamports_accounted ba l : accounted (checked_sub_lamports ba l).
Proof. intros tc Hok. unfold checked_sub_lamports. delta_run. by apply set_lamports_accounted. Qed.

Lemma set_owner_accounted ba k : accounted (set_owner ba k).
Proof.
  intros tc Hok. unfold set_owner. delta_run. eapply update_same_length; [done..| |done].
  unfold copy_into_owner_from_slice, unwrap in *. by repeat case_match; simplify_eq/=.
Qed.

Lemma write_data_accounted ba d : accounted (write_data ba d).
Proof.
  intros tc Hok. unfold write_data, get_data_mut, can_data_be_changed. delta_run. simplify_eq.
  match goal with Hq : quiet ?x ?y, H : account_at ?y _ = Some _ |- _ =>
    rewrite (q_values _ _ Hq) in H end. simplify_eq.
  eapply update_same_length; [done..| |done].
  simpl. unfold vec_len. by rewrite length_overwrite.
Qed.

Lemma set_executable_accounted ba e : accounted (set_executable ba e).
Proof. intros tc Hok. unfold set_executable. delta_run. by eapply update_same_length. Qed.

Lemma set_data_from_slice_accounted ba d : accounted (set_data_from_slice ba d).
Proof.
  intros tc Hok. unfold set_data_from_slice, can_data_be_resized, can_data_be_changed.
  delta_run. bool_facts. simplify_eq.
  eapply resize_delta_ok; try done. split; [|done]. unfold vec_len. lia.
Qed.

Lemma set_data_length_accounted ba n : 0 <= n -> accounted (set_data_length ba n).
Proof.
  intros Hn tc Hok. unfold set_data_length, can_data_be_resized, can_data_be_changed.
  delta_run. bool_facts. simplify_eq.
  eapply resize_delta_ok; try done. by apply vec_len_resize.
Qed.

Lemma extend_from_slice_accounted ba d : accounted (extend_from_slice ba d).
Proof.
  intros tc Hok. unfold extend_from_slice, can_data_be_resized, can_data_be_changed.
  delta_run. bool_facts. simplify_eq.
  eapply resize_delta_ok; try done.
  all: unfold vec_len, saturating_add, saturating, MAX_PERMITTED_DATA_LENGTH in *;
    simpl in *; rewrite ?length_app; simpl; lia.
Qed.

Lemma run_method_accounted m ba : accounted (run_method m ba).
Proof.
  destruct m; simpl;
    auto using set_owner_accounted, set_lamports_accounted, checked_add_lamports_accounted,
      checked_sub_lamports_accounted, write_data_accounted, set_data_from_slice_accounted,
      set_data_length_accounted, extend_from_slice_accounted, set_executable_accounted, Z.abs_nonneg.
Qed.

End resize.

(** Data growth is accounted.  Start with the resize delta at the growth so
    far and within the limit; whatever the program does through [BorrowedAccount],
    whether its calls succeed or fail, the delta is exactly the growth of the
    accounts' data, and no more than the transaction's limit. *)
Theorem program_growth_accounted (ic : InstructionContext) (start : Z)
    (tc tc' : TransactionContext) (live : list BorrowedAccount) :
  ic_small ic ->
  0 <= start <= 4611686018427387904 ->
  delta_ok start tc ->
  rtc (program_step ic) ([], tc) (live, tc') ->
  delta_ok start tc'.
Proof.
  intros Hs Hst Hok Hrtc. eapply (program_invariant ic (delta_ok start)); [done| | |done|done].
  - intros t t' (_ & Hv & Hd). unfold delta_ok, total_data.
    by rewrite Hd, (account_sum_eq _ t t' Hv).
  - intros m ba t _ Ht. exact (run_method_accounted start Hst m ba t Ht).
Qed.

(** ** A run

    The program at key 2 owns the account at key 1, and grows its data. *)
Module Demo.

Definition owned : AccountSharedData := mkAccount 100 [7; 7] (replicate 32 2) false 0.
Definition program : AccountSharedData := mkAccount 1 [] (replicate 32 9) true 0.
Definition demo_ic : InstructionContext :=
  mkInstructionContext 0 100 [1] [mkInstructionAccount 0 0 0 false true] [].
Definition start_tc : TransactionContext :=
  with_stack [0] (with_trace [demo_ic; InstructionContext_default]
    (TransactionContext_new [(replicate 32 1, owned); (replicate 32 2, program)] Rent_default 5 64)).

Definition handle0 : BorrowedAccount := mkBorrowedAccount demo_ic 0 1.
Definition borrowed_tc : TransactionContext :=
  final (try_borrow_instruction_account demo_ic 0) start_tc.
Definition grown_tc : TransactionContext := final (set_data_length handle0 6) borrowed_tc.

Lemma grown_run : rtc (program_step demo_ic) ([], start_tc) ([handle0], grown_tc).
Proof.
  eapply rtc_l; [apply (step_borrow_instruction _ 0 [] handle0 start_tc borrowed_tc); reflexivity|].
  eapply rtc_l; [|apply rtc_refl].
  apply (step_call _ _ handle0 (MSetDataLength 6) (Ok tt)); [constructor|vm_compute; reflexivity].
Qed.

Lemma program_obeys_rules_witness :
  ic_small demo_ic /\ obeys demo_ic start_tc grown_tc /\
  acc_data <$> account_at grown_tc 0 = Some [7; 7; 0; 0; 0; 0].
Proof.
  assert (ic_small demo_ic) as Hs by (vm_compute; discriminate).
  split; [exact Hs|]. split; [|reflexivity].
  exact (program_obeys_rules demo_ic start_tc grown_tc [handle0] Hs grown_run).
Defined.

Lemma program_growth_accounted_witness :
  delta_ok 2 start_tc /\ delta_ok 2 grown_tc /\ cell_value (resize_delta grown_tc) = 4.
Proof.
  assert (ic_small demo_ic) as Hs by (vm_compute; discriminate).
  assert (delta_ok 2 start_tc) as Hd by (vm_compute; split; [reflexivity|discriminate]).
  split; [exact Hd|]. split; [|reflexivity].
  apply (program_growth_accounted demo_ic 2 start_tc grown_tc [handle0] Hs); [lia|exact Hd|].
  exact grown_run.
Defined.

End Demo.
