(* ===== verification/CallStack.v ===== *)
(** * Nested instructions (the call stack of sdk/src/transaction_context.rs)

    [push] and [pop] keep a stack of running instructions and a trace of all
    of them, and compare the lamports an instruction was given with those it
    leaves.  The theorems: the stack and the trace stay consistent and within
    their capacities whatever sequence of calls is made, [pop] always pops, and
    an instruction that is popped without an error has neither made nor
    destroyed lamports, whatever it and the instructions it called did. *)

From S2P Require Import Prelude Errors Rent Account TransactionContext RuntimeRules.

(** ** The lamport sum

    [instruction_accounts_lamport_sum] adds up each account once. *)

(** The account of the [i]-th instruction account, if it is the first one with
    its key. *)
Definition first_at (ic : InstructionContext) (i : IndexOfAccount) : option IndexOfAccount :=
  match vec_get (instruction_accounts ic) i with
  | Some ia => if index_in_callee ia =? i then Some (index_in_transaction ia) else None
  | None => None
  end.

Definition distinct_accounts (ic : InstructionContext) : list IndexOfAccount :=
  omap (first_at ic) (seqZ 0 (vec_len (instruction_accounts ic))).

(** [index_in_callee] is the first position at which the account occurs. *)
Definition dedup_ok (ic : InstructionContext) : Prop :=
  forall i ia, vec_get (instruction_accounts ic) i = Some ia ->
    position (fun ib => index_in_transaction ib =? index_in_transaction ia)
      (instruction_accounts ic) = Some (index_in_callee ia).

Definition lamports_at (tc : TransactionContext) (j : IndexOfAccount) : Z :=
  from_option acc_lamports 0 (account_at tc j).

Lemma lamport_sum_loop_spec tc ic l s r :
  lamport_sum_loop tc ic l s = Ok r ->
  r = s + sum_Z (lamports_at tc <$> omap (first_at ic) l) /\
  Forall (fun j => is_Some (account_at tc j)) (omap (first_at ic) l).
Proof.
  revert s. induction l as [|i l IH]; intros s H; simpl in H.
  { simplify_eq/=. split; [lia|constructor]. }
  unfold is_instruction_account_duplicate, get_index_of_instruction_account_in_transaction in H.
  destruct (first_at ic i) as [j|] eqn:Hf; cbn [omap list_omap]; rewrite Hf; unfold first_at in Hf;
    destruct (vec_get _ i) as [ia|]; simpl in H; try done;
    destruct (Z.eqb_spec (index_in_callee ia) i); try done; [|by apply IH].
  simplify_eq. unfold get_account_at_index, peek in H. simpl in H. inv_outcome H.
  repeat case_match; simplify_eq/=. apply checked_Some in Hok0 as [-> _].
  apply IH in Hok3 as [-> Hall].
  assert (account_at tc (index_in_transaction ia) = Some (cell_value a)) as Hat
    by (unfold account_at; by rewrite Hok).
  simpl. unfold lamports_at at 2. rewrite Hat. simpl. split; [lia|].
  by constructor; [rewrite Hat|].
Qed.

Lemma first_at_inj ic i1 i2 j :
  dedup_ok ic -> first_at ic i1 = Some j -> first_at ic i2 = Some j -> i1 = i2.
Proof.
  intros Hd. unfold first_at. intros H1 H2.
  destruct (vec_get _ i1) as [ia1|] eqn:E1; [|done]. destruct (vec_get _ i2) as [ia2|] eqn:E2; [|done].
  apply Hd in E1, E2. repeat case_match; try done. injection H1 as H1. injection H2 as H2.
  rewrite H1 in E1. rewrite H2 in E2.
  repeat match goal with H : (_ =? _) = true |- _ => apply Z.eqb_eq in H end. congruence.
Qed.

Lemma NoDup_distinct_accounts ic : dedup_ok ic -> NoDup (distinct_accounts ic).
Proof.
  intros Hd. unfold distinct_accounts. pose proof (NoDup_seqZ 0 (vec_len (instruction_accounts ic))) as Hn.
  induction Hn as [|i l Hi Hl IH]; [constructor|]. simpl.
  destruct (first_at ic i) as [j|] eqn:Hj; [|done]. constructor; [|done].
  rewrite list_elem_of_omap. intros (i' & Hin & Hi'). by rewrite (first_at_inj ic i i' j Hd Hj Hi') in Hi.
Qed.

Lemma position_Some {A} (p : A -> bool) l i :
  position p l = Some i -> 0 <= i /\ exists x, vec_get l i = Some x /\ p x = true.
Proof.
  revert i. induction l as [|y l IH]; intros i H; simpl in H; [done|].
  destruct (p y) eqn:Hp; simplify_eq/=; [by split; [|exists y]|].
  apply fmap_Some in H as (k & Hk & ->). apply IH in Hk as (H0 & x & Hx & Hpx).
  split; [lia|]. exists x. split; [|done]. apply vec_get_Some in Hx as [_ Hx].
  apply vec_get_Some. split; [lia|]. by rewrite Z2Nat.inj_succ.
Qed.

(** They are the accounts of the instruction, each once. *)
Lemma distinct_accounts_spec ic j :
  dedup_ok ic ->
  j ∈ distinct_accounts ic <-> j ∈ index_in_transaction <$> instruction_accounts ic.
Proof.
  intros Hd. unfold distinct_accounts. rewrite list_elem_of_omap, list_elem_of_fmap. split.
  - intros (i & _ & Hi). unfold first_at in Hi. repeat case_match; simplify_eq.
    eexists. split; [done|]. apply vec_get_Some in H as [_ H]. by eapply list_elem_of_lookup_2.
  - intros (ia & -> & [n Hn]%list_elem_of_lookup_1).
    assert (vec_get (instruction_accounts ic) (Z.of_nat n) = Some ia) as Hg
      by (apply vec_get_Some; by rewrite Nat2Z.id; split; [lia|]).
    apply Hd in Hg as Hp. apply position_Some in Hp as Hq. destruct Hq as (H0 & ib & Hib & Heq).
    apply Z.eqb_eq in Heq. exists (index_in_callee ia). split.
    + apply elem_of_seqZ. pose proof (vec_get_lt _ _ _ Hib). lia.
    + unfold first_at. rewrite Hib. apply Hd in Hib. rewrite Heq, Hp in Hib.
      injection Hib as ->. by rewrite Z.eqb_refl, Heq.
Qed.

(** ** The stack and the trace *)

Record stack_ok (tc : TransactionContext) : Prop := {
  so_capacity : 0 <= instruction_stack_capacity tc <= int_max USIZE /\
    0 <= instruction_trace_capacity tc < int_max USIZE;
  so_trace : 1 <= vec_len (instruction_trace tc) <= instruction_trace_capacity tc + 1;
  so_stack : vec_len (instruction_stack tc) <= instruction_stack_capacity tc;
  so_frames : forall k i, vec_get (instruction_stack tc) k = Some i ->
    0 <= i < vec_len (instruction_trace tc) - 1 /\
    exists ic, vec_get (instruction_trace tc) i = Some ic /\ nesting_level ic = k;
  so_order : forall k1 k2 i1 i2, k1 < k2 -> vec_get (instruction_stack tc) k1 = Some i1 ->
    vec_get (instruction_stack tc) k2 = Some i2 -> i1 < i2;
}.

Lemma vec_get_app {A} (l1 l2 : list A) i :
  vec_get (l1 ++ l2) i = if decide (i < vec_len l1) then vec_get l1 i else vec_get l2 (i - vec_len l1).
Proof.
  unfold vec_get, vec_len. repeat case_decide; try lia; try done.
  - by rewrite lookup_app_l by lia.
  - rewrite lookup_app_r by lia. f_equal. lia.
Qed.

Lemma vec_get_single {A} (x y : A) i : vec_get [x] i = Some y <-> i = 0 /\ y = x.
Proof.
  rewrite vec_get_Some. split.
  - intros [? H]. destruct (Z.to_nat i) eqn:Hi; simplify_eq/=. split; [lia|done].
  - intros [-> ->]. done.
Qed.

Lemma trace_length_ok tc :
  stack_ok tc -> get_instruction_trace_length tc = vec_len (instruction_trace tc) - 1.
Proof.
  intros []. unfold get_instruction_trace_length, saturating_sub.
  apply saturating_small. unfold in_range. simpl in *. lia.
Qed.

Lemma TransactionContext_new_stack_ok accs r sc tcap :
  0 <= sc <= int_max USIZE -> 0 <= tcap < int_max USIZE -> stack_ok (TransactionContext_new accs r sc tcap).
Proof.
  intros ? ?. split; cbn [instruction_stack instruction_trace instruction_stack_capacity
    instruction_trace_capacity TransactionContext_new]; rewrite ?vec_len_cons; unfold vec_len;
    simpl length; try lia; unfold vec_get; intros; case_decide; done.
Qed.

Lemma same_frame_stack_ok tc tc' : same_frame tc tc' -> stack_ok tc -> stack_ok tc'.
Proof.
  intros Hf []. split; rewrite ?(sf_stack _ _ Hf), ?(sf_trace _ _ Hf), ?(sf_stack_capacity _ _ Hf),
    ?(sf_trace_capacity _ _ Hf); auto.
Qed.

(** What is done to the next context, the last one of the trace, which no
    running instruction is. *)
Definition with_next (f : InstructionContext -> InstructionContext) (tc : TransactionContext) :=
  with_trace (match list.last (instruction_trace tc) with
              | Some ic => removelast (instruction_trace tc) ++ [f ic]
              | None => []
              end) tc.

Lemma with_next_stack_ok f tc : stack_ok tc -> stack_ok (with_next f tc).
Proof.
  intros [Hc Ht Hs Hf Ho]. destruct (list.last (instruction_trace tc)) as [ic|] eqn:Hl.
  - apply last_Some in Hl as [l Hl]. unfold with_next.
    split; cbn [instruction_stack instruction_trace instruction_stack_capacity
      instruction_trace_capacity with_trace]; rewrite Hl in *; rewrite ?last_snoc, ?removelast_last;
      rewrite ?vec_len_app, ?vec_len_cons in *; auto.
    intros k i Hk. apply Hf in Hk as (Hi & ic' & Hic & Hn). unfold vec_len in Hi at 2. simpl in Hi.
    split; [unfold vec_len at 2; simpl; lia|]. exists ic'. split; [|done].
    rewrite vec_get_app in *. rewrite decide_True in * by lia. done.
  - apply last_None in Hl. rewrite Hl in Ht. unfold vec_len in Ht. simpl in Ht. lia.
Qed.

Lemma update_next_with_next f tc :
  stack_ok tc -> update_next_instruction_context f tc = (Ok tt, with_next f tc).
Proof.
  intros H. unfold update_next_instruction_context, with_next.
  destruct (list.last _) eqn:Hl; [done|]. apply last_None in Hl.
  destruct H. rewrite Hl in so_trace0. unfold vec_len in so_trace0. simpl in so_trace0. lia.
Qed.

Lemma removelast_prefix {A} (l : list A) k x :
  vec_get (removelast l) k = Some x -> vec_get l k = Some x.
Proof.
  destruct l as [|y l] using rev_ind; [done|]. rewrite removelast_last, vec_get_app.
  intros H. pose proof (vec_get_lt _ _ _ H). by rewrite decide_True by lia.
Qed.

Lemma vec_len_removelast {A} (l : list A) : vec_len (removelast l) <= vec_len l.
Proof.
  destruct l as [|y l] using rev_ind; [done|]. rewrite removelast_last, vec_len_app.
  unfold vec_len. lia.
Qed.

(** What [push] records in the context of the instruction. *)
Definition entered (level sum : Z) (ic : InstructionContext) : InstructionContext :=
  mkInstructionContext level sum (program_accounts ic) (instruction_accounts ic)
    (instruction_data ic).

(** The states [push] can leave. *)
Definition push_recorded (level sum : Z) (tc : TransactionContext) :=
  with_next (entered level sum) tc.
Definition push_traced (level sum : Z) (tc : TransactionContext) :=
  let tc1 := push_recorded level sum tc in
  with_trace (instruction_trace tc1 ++ [InstructionContext_default]) tc1.
Definition push_stacked (level sum : Z) (tc : TransactionContext) :=
  with_stack (instruction_stack tc ++ [get_instruction_trace_length tc]) (push_traced level sum tc).

Lemma with_next_trace_length f tc :
  stack_ok tc -> get_instruction_trace_length (with_next f tc) = get_instruction_trace_length tc.
Proof.
  intros H. rewrite !trace_length_ok by auto using with_next_stack_ok.
  destruct (list.last (instruction_trace tc)) as [ic|] eqn:Hl.
  - apply last_Some in Hl as [l Hl]. unfold with_next. simpl. rewrite Hl, last_snoc, removelast_last.
    by rewrite !vec_len_app.
  - apply last_None in Hl. destruct H. rewrite Hl in so_trace0. by destruct so_trace0 as [[] _].
Qed.

(** The next context, which [push] is about to enter. *)
Definition next_context (tc : TransactionContext) : Res InstructionContext :=
  ok_or CallDepth (list.last (instruction_trace tc)).

(** [push], as one case distinction: the checks in the order of the code, and
    what has been done by then. *)
Lemma push_spec tc :
  stack_ok tc ->
  let level := get_instruction_context_stack_height tc in
  push tc =
  match (let! callee := next_context tc in
         let! sum := instruction_accounts_lamport_sum callee tc in
         let! _unused := check_caller_balanced tc in
         Ok sum) with
  | Ok sum =>
      if instruction_trace_capacity tc <=? get_instruction_trace_length tc
      then (Err MaxInstructionTraceLengthExceeded, push_recorded level sum tc)
      else if instruction_stack_capacity tc <=? level
      then (Err CallDepth, push_traced level sum tc)
      else (Ok tt, push_stacked level sum tc)
  | Err e => (Err e, tc)
  | Panic => (Panic, tc)
  end.
Proof.
  intros Hok level. unfold push, next_context, bind, gets, query. cbn [fst snd].
  destruct (list.last (instruction_trace tc)) as [callee|] eqn:Hl; simpl; [|done].
  destruct (instruction_accounts_lamport_sum callee tc) as [sum|e|] eqn:Hsum; simpl; [|done..].
  destruct (check_caller_balanced tc) as [u|e|]; simpl; [|done..].
  rewrite update_next_with_next by done. simpl.
  fold (entered (get_instruction_context_stack_height tc) sum).
  rewrite with_next_trace_length by done. fold level.
  change (instruction_trace_capacity (with_next (entered level sum) tc))
    with (instruction_trace_capacity tc).
  destruct (_ <=? _); [done|]. simpl.
  change (instruction_stack_capacity (with_next (entered level sum) tc))
    with (instruction_stack_capacity tc).
  by destruct (instruction_stack_capacity tc <=? level).
Qed.

Lemma push_traced_stack_ok level sum tc :
  stack_ok tc -> get_instruction_trace_length tc < instruction_trace_capacity tc ->
  stack_ok (push_traced level sum tc).
Proof.
  intros Hok Hlt. pose proof (with_next_stack_ok (entered level sum) tc Hok) as Hok'.
  pose proof (with_next_trace_length (entered level sum) tc Hok) as Hlen.
  rewrite trace_length_ok in Hlen by done. destruct Hok' as [Hc Ht Hs Hf Ho].
  split; cbn [push_traced instruction_stack instruction_trace instruction_stack_capacity
    instruction_trace_capacity with_trace]; fold (push_recorded level sum tc); auto;
    unfold push_recorded in *; rewrite ?vec_len_app;
    change (vec_len [InstructionContext_default]) with 1.
  - change (instruction_trace_capacity (with_next (entered level sum) tc))
      with (instruction_trace_capacity tc) in *.
    rewrite trace_length_ok in Hlen, Hlt by auto using with_next_stack_ok. lia.
  - intros k i Hk. apply Hf in Hk as (Hi & ic & Hic & Hn). split; [lia|].
    exists ic. split; [|done]. rewrite vec_get_app, decide_True by lia. done.
Qed.

Lemma traced_frame level sum tc callee :
  stack_ok tc -> next_context tc = Ok callee ->
  vec_get (instruction_trace (push_traced level sum tc)) (get_instruction_trace_length tc) =
    Some (entered level sum callee).
Proof.
  intros Hok Hn. rewrite trace_length_ok by done. apply ok_or_ok in Hn.
  apply last_Some in Hn as [l Hl]. unfold push_traced, push_recorded, with_next. simpl.
  rewrite Hl, last_snoc, removelast_last.
  rewrite vec_len_app, !vec_get_app, vec_len_app. change (vec_len [callee]) with 1.
  change (vec_len [entered level sum callee]) with 1.
  rewrite decide_True, decide_False by lia. by replace (_ + 1 - 1 - _) with 0 by lia.
Qed.

Lemma push_stacked_stack_ok sum tc callee :
  stack_ok tc -> next_context tc = Ok callee ->
  get_instruction_trace_length tc < instruction_trace_capacity tc ->
  get_instruction_context_stack_height tc < instruction_stack_capacity tc ->
  stack_ok (push_stacked (get_instruction_context_stack_height tc) sum tc).
Proof.
  intros Hok Hn Hlt Hst. set (level := get_instruction_context_stack_height tc) in *.
  pose proof (traced_frame level sum tc callee Hok Hn) as Hfr.
  pose proof (push_traced_stack_ok level sum tc Hok Hlt) as [Hc Ht Hs Hf Ho].
  pose proof (trace_length_ok tc Hok) as Hlen. pose proof (so_frames _ Hok) as Hf0.
  assert (vec_len (instruction_trace (push_traced level sum tc)) =
          vec_len (instruction_trace tc) + 1) as Hl'.
  { apply ok_or_ok, last_Some in Hn as [l Hl]. simpl. rewrite Hl, last_snoc, removelast_last.
    by rewrite !vec_len_app. }
  pose proof (so_trace _ Hok).
  assert (instruction_stack (push_traced level sum tc) = instruction_stack tc) as Hss by done.
  split; unfold push_stacked; cbn [instruction_stack instruction_trace instruction_stack_capacity
    instruction_trace_capacity with_stack]; auto.
  - rewrite vec_len_app. change (vec_len [get_instruction_trace_length tc]) with 1.
    unfold level, get_instruction_context_stack_height in Hst. simpl. lia.
  - intros k i. rewrite vec_get_app. case_decide.
    + rewrite <- Hss. apply Hf.
    + intros [Hk ->]%vec_get_single. split; [lia|].
      eexists. split; [done|]. simpl. unfold level, get_instruction_context_stack_height. lia.
  - intros k1 k2 i1 i2 Hk. rewrite !vec_get_app. repeat case_decide.
    + rewrite <- Hss. by apply Ho.
    + intros Hi1 [_ ->]%vec_get_single. apply Hf0 in Hi1 as [Hi1 _]. lia.
    + lia.
    + intros [? ->]%vec_get_single [? ->]%vec_get_single. lia.
Qed.

Lemma push_stack_ok tc : stack_ok tc -> stack_ok (final push tc).
Proof.
  intros Hok. unfold final. rewrite push_spec by done.
  destruct (next_context tc) as [callee|e|] eqn:Hn; simpl; [|done..].
  destruct (instruction_accounts_lamport_sum callee tc) as [sum|e|]; simpl; [|done..].
  destruct (check_caller_balanced tc); simpl; [|done..].
  destruct (Z.leb_spec (instruction_trace_capacity tc) (get_instruction_trace_length tc)); simpl.
  { by apply with_next_stack_ok. }
  destruct (Z.leb_spec (instruction_stack_capacity tc) (get_instruction_context_stack_height tc)).
  - by apply push_traced_stack_ok.
  - by eapply push_stacked_stack_ok.
Qed.

Lemma popped_stack_ok tc :
  stack_ok tc -> stack_ok (with_stack (removelast (instruction_stack tc)) tc).
Proof.
  intros [Hc Ht Hs Hf Ho]. split; cbn [instruction_stack instruction_trace
    instruction_stack_capacity instruction_trace_capacity with_stack]; auto.
  - pose proof (vec_len_removelast (instruction_stack tc)). lia.
  - intros k i Hk%removelast_prefix. by apply Hf.
  - intros k1 k2 i1 i2 Hk H1%removelast_prefix H2%removelast_prefix. by eapply Ho.
Qed.

(** [pop], as one case distinction: the stack loses its top whatever the check
    of the instruction says. *)
Lemma pop_spec tc :
  pop tc =
  match instruction_stack tc with
  | [] => (Err CallDepth, tc)
  | _ => ((let! unbalanced := detect_unbalanced_instruction tc in
           if unbalanced then Err UnbalancedInstruction else Ok tt),
          with_stack (removelast (instruction_stack tc)) tc)
  end.
Proof.
  unfold pop, bind, gets, modify, lift, fail, ret, id.
  destruct (instruction_stack tc) eqn:Hs; [done|]. rewrite <- Hs.
  by destruct (detect_unbalanced_instruction tc) as [[]| |].
Qed.

Lemma pop_stack_ok tc : stack_ok tc -> stack_ok (final pop tc).
Proof.
  intros Hok. unfold final. rewrite pop_spec. pose proof (popped_stack_ok tc Hok) as Hp.
  by destruct (instruction_stack tc).
Qed.

(** ** Everything that is done to a transaction context

    Instructions are configured, entered and left, programs work on accounts
    and set return data, in any order and with any outcome. *)
Inductive tx_step : TransactionContext -> TransactionContext -> Prop :=
| tx_configure programs accs data o tc tc' :
    update_next_instruction_context (configure programs accs data) tc = (o, tc') -> tx_step tc tc'
| tx_push o tc tc' : push tc = (o, tc') -> tx_step tc tc'
| tx_pop o tc tc' : pop tc = (o, tc') -> tx_step tc tc'
| tx_return_data key data o tc tc' : set_return_data key data tc = (o, tc') -> tx_step tc tc'
| tx_program ic live live' tc tc' : program_step ic (live, tc) (live', tc') -> tx_step tc tc'.

Lemma program_step_frame ic c c' : program_step ic c c' -> same_frame c.2 c'.2.
Proof.
  destruct 1 as [i live0 ba t t' Hr|i live0 ba t t' Hr|live0 ba m o t t' Hin Hr|l1 l2 ba t];
    simpl.
  - unfold try_borrow_instruction_account in Hr. inv_ok Hr. by eapply try_borrow_account_only.
  - unfold try_borrow_program_account in Hr. inv_ok Hr. by eapply try_borrow_account_only.
  - assert (t' = final (run_method m ba) t) as -> by (unfold final; by rewrite Hr).
    eapply lt_frame, run_method_local.
  - apply drop_account_only.
Qed.

Lemma tx_step_stack_ok tc tc' : tx_step tc tc' -> stack_ok tc -> stack_ok tc'.
Proof.
  intros Hstep Hok.
  destruct Hstep as [programs accs data o tc tc' H|o tc tc' H|o tc tc' H|key data o tc tc' H|
    ic live live' tc tc' H].
  - rewrite update_next_with_next in H by done. simplify_eq. by apply with_next_stack_ok.
  - pose proof (push_stack_ok tc Hok) as Hp. unfold final in Hp. by rewrite H in Hp.
  - pose proof (pop_stack_ok tc Hok) as Hp. unfold final in Hp. by rewrite H in Hp.
  - unfold set_return_data, modify in H. simplify_eq. by destruct Hok.
  - eapply same_frame_stack_ok; [|done]. by apply program_step_frame in H.
Qed.

(** ** Conservation of lamports *)

Definition accounts_of (ic : InstructionContext) : list IndexOfAccount :=
  index_in_transaction <$> instruction_accounts ic.

Definition lookup_or_0 (l : list Z) (j : Z) : Z := default 0 (vec_get l j).

Lemma lookup_or_0_lookup l j :
  0 <= j < vec_len l -> l !! Z.to_nat j = Some (lookup_or_0 l j).
Proof.
  intros Hj. unfold lookup_or_0, vec_get. rewrite decide_True by lia.
  destruct (l !! Z.to_nat j) eqn:H; [done|]. apply lookup_ge_None in H. unfold vec_len in Hj. lia.
Qed.

Lemma lookup_or_0_insert_ne l j k x :
  0 <= j -> j <> k -> lookup_or_0 (<[Z.to_nat j := x]> l) k = lookup_or_0 l k.
Proof. intros ? ?. unfold lookup_or_0. f_equal. by apply (vec_get_set_ne l j k x). Qed.

(** Two lists that agree outside [js] differ in sum by what they differ on [js]. *)
Lemma sum_Z_outside (js l l' : list Z) :
  NoDup js -> Forall (fun j => 0 <= j < vec_len l) js -> length l = length l' ->
  (forall n : nat, Z.of_nat n ∉ js -> l !! n = l' !! n) ->
  sum_Z l' - sum_Z (lookup_or_0 l' <$> js) = sum_Z l - sum_Z (lookup_or_0 l <$> js).
Proof.
  intros Hnd. revert l. induction Hnd as [|j js Hj Hnd IH]; intros l Hall Hlen Hag.
  { replace l' with l; [done|]. apply list_eq. intros n. apply Hag. set_solver. }
  apply list.Forall_cons in Hall as [Hj0 Hall].
  assert (l !! Z.to_nat j = Some (lookup_or_0 l j)) as Hx by by apply lookup_or_0_lookup.
  assert (l' !! Z.to_nat j = Some (lookup_or_0 l' j)) as Hx'
    by (apply lookup_or_0_lookup; unfold vec_len in *; lia).
  specialize (IH (<[Z.to_nat j := lookup_or_0 l' j]> l)).
  unfold vec_len in IH. rewrite length_insert in IH. specialize (IH Hall Hlen).
  rewrite (sum_Z_insert _ _ _ _ Hx) in IH.
  replace (lookup_or_0 (<[_ := _]> l) <$> js) with (lookup_or_0 l <$> js) in IH.
  2:{ apply list_fmap_ext. intros n k Hk. rewrite lookup_or_0_insert_ne; [done|lia|].
      intros ->. apply Hj. by eapply list_elem_of_lookup_2. }
  rewrite !fmap_cons, !sum_Z_cons.
  cut (forall n : nat, Z.of_nat n ∉ js -> <[Z.to_nat j := lookup_or_0 l' j]> l !! n = l' !! n).
  { intros Hag'. specialize (IH Hag'). lia. }
  intros n Hn. destruct (decide (n = Z.to_nat j)) as [->|Hne].
  - rewrite list_lookup_insert_eq; [by rewrite Hx'|]. by eapply lookup_lt_Some.
  - rewrite list_lookup_insert_ne by done. apply Hag. rewrite elem_of_cons. intros [|]; [lia|done].
Qed.

(** The work of an instruction: what its program does to accounts, and the
    instructions it calls on accounts it was given itself.  A call may fail when
    it is entered or when it is left. *)
Inductive body (ic : InstructionContext)
  : list BorrowedAccount * TransactionContext -> list BorrowedAccount * TransactionContext -> Prop :=
| body_done c : body ic c c
| body_step c c1 c2 : program_step ic c c1 -> body ic c1 c2 -> body ic c c2
| body_call programs accs data callee live live' o tc tc1 tc2 tc3 tc4 c :
    update_next_instruction_context (configure programs accs data) tc = (Ok tt, tc1) ->
    push tc1 = (Ok tt, tc2) ->
    get_current_instruction_context tc2 = Ok callee ->
    ic_small callee -> accounts_of callee ⊆ accounts_of ic ->
    body callee ([], tc2) (live', tc3) ->
    pop tc3 = (o, tc4) ->
    body ic (live, tc4) c -> body ic (live, tc) c
| body_call_refused programs accs data live e tc tc1 tc2 c :
    update_next_instruction_context (configure programs accs data) tc = (Ok tt, tc1) ->
    push tc1 = (Err e, tc2) ->
    body ic (live, tc2) c -> body ic (live, tc) c.

(** What the work of an instruction with the accounts [js] keeps. *)
Record under (js : list IndexOfAccount) (tc tc' : TransactionContext) : Prop := {
  u_ok : stack_ok tc';
  u_stack : instruction_stack tc' = instruction_stack tc;
  u_trace : vec_len (instruction_trace tc) <= vec_len (instruction_trace tc');
  u_frames : forall i, i < vec_len (instruction_trace tc) - 1 ->
    vec_get (instruction_trace tc') i = vec_get (instruction_trace tc) i;
  u_count : length (ta_accounts (accounts tc')) = length (ta_accounts (accounts tc));
  u_lamports : forall j, j ∉ js -> lamports_at tc' j = lamports_at tc j;
}.

Lemma under_refl js tc : stack_ok tc -> under js tc tc.
Proof. by split. Qed.

Lemma under_trans js x y z : under js x y -> under js y z -> under js x z.
Proof.
  intros [] []. split; [done|congruence|lia| |congruence|].
  - intros i Hi. rewrite u_frames1 by lia. auto.
  - intros j Hj. rewrite u_lamports1 by done. auto.
Qed.

Lemma under_weaken js js' tc tc' : js ⊆ js' -> under js tc tc' -> under js' tc tc'.
Proof. intros Hs []. split; auto. Qed.

Lemma obeys_under ic tc tc' : stack_ok tc -> obeys ic tc tc' -> under (accounts_of ic) tc tc'.
Proof.
  intros Hok [Hf Hv]. split; rewrite ?(sf_stack _ _ Hf), ?(sf_trace _ _ Hf), ?(sf_len _ _ Hf); try done.
  - by eapply same_frame_stack_ok.
  - intros j Hj. unfold lamports_at. destruct (account_at tc j) as [a|] eqn:Ha.
    + apply Hv in Ha as (a' & -> & Hal). rewrite (al_readonly _ _ _ _ Hal); [done|].
      apply not_true_is_false. unfold writable_at. rewrite existsb_exists. intros (ia & Hin & Hw).
      apply andb_true_iff in Hw as [Hw%Z.eqb_eq _]. apply Hj. subst.
      apply list_elem_of_fmap_2, list_elem_of_In. done.
    + destruct (account_at tc' j) as [a'|] eqn:Ha'; [|done].
      apply account_at_valid in Ha' as Hlt. unfold ta_len, vec_len in Hlt. rewrite (sf_len _ _ Hf) in Hlt.
      apply vec_get_is_Some in Hlt as [c Hc]. unfold account_at, ta_get in Ha. by rewrite Hc in Ha.
Qed.

(** Configuring and entering an instruction touch no account and no running
    context. *)
Lemma next_under js tc tc' :
  stack_ok tc -> stack_ok tc' -> instruction_stack tc' = instruction_stack tc ->
  accounts tc' = accounts tc ->
  removelast (instruction_trace tc) `prefix_of` instruction_trace tc' ->
  vec_len (instruction_trace tc) <= vec_len (instruction_trace tc') -> under js tc tc'.
Proof.
  intros Hok Hok' Hs Ha [t Ht] Hlen. split; try done; [|by rewrite Ha|].
  - intros i Hi. pose proof (so_trace _ Hok) as Htr.
    destruct (instruction_trace tc) as [|x l _] using rev_ind; [unfold vec_len in Htr; simpl in Htr; lia|].
    rewrite removelast_last in Ht. rewrite Ht, vec_len_app in *. change (vec_len [x]) with 1 in *.
    by rewrite !vec_get_app, !decide_True by lia.
  - intros j _. unfold lamports_at, account_at. by rewrite Ha.
Qed.

Lemma removelast_prefix_of {A} (l : list A) : removelast l `prefix_of` l.
Proof. destruct l as [|x l _] using rev_ind; [done|]. rewrite removelast_last. by apply prefix_app_r. Qed.

Lemma with_next_under js f tc : stack_ok tc -> under js tc (with_next f tc).
Proof.
  intros Hok. pose proof (with_next_stack_ok f tc Hok) as Hok'.
  pose proof (with_next_trace_length f tc Hok) as Hl. rewrite !trace_length_ok in Hl by done.
  apply next_under; try done; [|lia]. unfold with_next. simpl.
  destruct (list.last (instruction_trace tc)) eqn:Hx; [by apply prefix_app_r|].
  apply last_None in Hx. by rewrite Hx.
Qed.

Lemma push_traced_under js level sum tc :
  stack_ok tc -> stack_ok (push_traced level sum tc) -> under js tc (push_traced level sum tc).
Proof.
  intros Hok Hok'. pose proof (with_next_under js (entered level sum) tc Hok) as Hn.
  eapply under_trans; [exact Hn|]. apply next_under; try done; [by apply Hn|..].
  - apply prefix_app_r, removelast_prefix_of.
  - unfold push_traced. cbn [instruction_trace with_trace]. rewrite vec_len_app.
    unfold push_recorded, vec_len. lia.
Qed.

(** A [push] that is refused leaves the running instructions as they were. *)
Lemma push_err_under js tc e tc' : stack_ok tc -> push tc = (Err e, tc') -> under js tc tc'.
Proof.
  intros Hok Hp. pose proof (push_stack_ok tc Hok) as Hok'. unfold final in Hok'. rewrite Hp in Hok'.
  rewrite push_spec in Hp by done. simpl in Hok'.
  repeat case_match; simplify_eq; unfold push_recorded;
    auto using under_refl, with_next_under, push_traced_under.
Qed.

(** A [push] that succeeds has recorded the lamports of the instruction's
    accounts, and made it the current one. *)
Lemma push_ok_inv tc tc' :
  stack_ok tc -> push tc = (Ok tt, tc') ->
  exists callee sum, let level := get_instruction_context_stack_height tc in
    next_context tc = Ok callee /\ instruction_accounts_lamport_sum callee tc = Ok sum /\
    check_caller_balanced tc = Ok tt /\
    instruction_stack tc' = instruction_stack tc ++ [get_instruction_trace_length tc] /\
    level < instruction_stack_capacity tc /\
    stack_ok tc' /\ accounts tc' = accounts tc /\
    vec_get (instruction_trace tc') (get_instruction_trace_length tc) = Some (entered level sum callee) /\
    tc' = push_stacked level sum tc.
Proof.
  intros Hok Hp. pose proof (push_stack_ok tc Hok) as Hok'. unfold final in Hok'. rewrite Hp in Hok'.
  rewrite push_spec in Hp by done.
  destruct (next_context tc) as [callee|e|] eqn:Hn; cbn [outcome_bind] in Hp; [|done..].
  destruct (instruction_accounts_lamport_sum callee tc) as [sum|e|] eqn:Hsum; cbn [outcome_bind] in Hp; [|done..].
  destruct (check_caller_balanced tc) as [[]|e|] eqn:Hb; cbn [outcome_bind] in Hp; [|done..].
  destruct (_ <=? _); [done|]. destruct (Z.leb_spec (instruction_stack_capacity tc)
    (get_instruction_context_stack_height tc)); [done|].
  simplify_eq. exists callee, sum. simpl in *. split_and!; try done.
  by apply traced_frame.
Qed.

Lemma current_context_top tc l i ic :
  instruction_stack tc = l ++ [i] -> vec_get (instruction_trace tc) i = Some ic ->
  vec_len (instruction_stack tc) <= int_max USIZE ->
  get_current_instruction_context tc = Ok ic.
Proof.
  intros Hs Hi Hlen. unfold get_current_instruction_context, get_instruction_context_stack_height.
  rewrite Hs in *. rewrite vec_len_app in *. change (vec_len [i]) with 1 in *.
  unfold checked_sub, checked. assert (0 <= vec_len l) by (unfold vec_len; lia).
  rewrite decide_True by (unfold in_range; simpl in *; lia). simpl.
  unfold get_instruction_context_at_nesting_level. rewrite Hs, vec_get_app, decide_False by lia.
  replace (_ + 1 - 1 - _) with 0 by lia. simpl.
  unfold get_instruction_context_at_index_in_trace. by rewrite Hi.
Qed.

Lemma call_under js tc tc2 tc3 o tc4 :
  stack_ok tc -> push tc = (Ok tt, tc2) -> under js tc2 tc3 -> pop tc3 = (o, tc4) -> under js tc tc4.
Proof.
  intros Hok Hp Hb Hpop.
  destruct (push_ok_inv _ _ Hok Hp) as (callee & sum & Hn & Hsum & _ & Hs & Hlv & Hok2 & Ha & Hfr & ->).
  set (level := get_instruction_context_stack_height tc) in *.
  assert (under js tc (push_traced level sum tc)) as Ht.
  { apply push_traced_under; [done|]. apply push_traced_stack_ok; [done|].
    rewrite push_spec in Hp by done. repeat case_match; simplify_eq/=.
    by apply Z.leb_gt. }
  pose proof (popped_stack_ok tc3 (u_ok _ _ _ Hb)) as Hok4.
  rewrite pop_spec, (u_stack _ _ _ Hb), Hs in Hpop.
  destruct (instruction_stack tc ++ [get_instruction_trace_length tc]) as [|x l] eqn:Hl.
  { by apply app_nil in Hl as [_ ?]. }
  rewrite <- Hl, removelast_last in Hpop.
  rewrite (u_stack _ _ _ Hb), Hs, <- Hl, removelast_last in Hok4.
  assert (tc4 = with_stack (instruction_stack tc) tc3) as -> by congruence.
  destruct Hb, Ht. split; try done; simpl in *.
  - lia.
  - intros i Hi. rewrite u_frames0 by lia. by apply u_frames1.
Qed.

Lemma body_under ic c c' :
  body ic c c' -> ic_small ic -> Forall (handle ic) c.1 -> stack_ok c.2 ->
  under (accounts_of ic) c.2 c'.2.
Proof.
  induction 1 as [ic c|ic c c1 c2 Hstep _ IH
    |ic programs accs data callee live live' o tc tc1 tc2 tc3 tc4 c Hc Hp Hcur Hcs Hsub _ IHb Hpop _ IH
    |ic programs accs data live e tc tc1 tc2 c Hc Hp _ IH]; intros Hs Hl Hok; simpl in *.
  - by apply under_refl.
  - destruct (program_step_inv _ _ _ Hstep Hs Hl) as [Hl1 _].
    pose proof (obeys_under _ _ _ Hok (program_step_obeys _ _ _ Hstep Hs Hl)) as Hu.
    eapply under_trans; [done|]. apply IH; [done..|apply Hu].
  - rewrite update_next_with_next in Hc by done. injection Hc as <-.
    pose proof (with_next_under (accounts_of ic) (configure programs accs data) tc Hok) as Hu1.
    pose proof (push_stack_ok _ (u_ok _ _ _ Hu1)) as Hok2. unfold final in Hok2. rewrite Hp in Hok2.
    assert (under (accounts_of ic) (with_next (configure programs accs data) tc) tc4) as Hu2.
    { eapply call_under; [apply Hu1|done| |done]. eapply under_weaken; [done|]. by apply IHb. }
    eapply under_trans; [done|]. eapply under_trans; [done|]. apply IH; [done..|apply Hu2].
  - rewrite update_next_with_next in Hc by done. injection Hc as <-.
    pose proof (with_next_under (accounts_of ic) (configure programs accs data) tc Hok) as Hu1.
    pose proof (push_err_under (accounts_of ic) _ _ _ (u_ok _ _ _ Hu1) Hp) as Hu2.
    eapply under_trans; [done|]. eapply under_trans; [done|]. apply IH; [done..|apply Hu2].
Qed.

Lemma lookup_lamports tc j : lookup_or_0 (acc_lamports <$> values tc) j = lamports_at tc j.
Proof.
  unfold lookup_or_0, lamports_at. rewrite account_at_values. unfold vec_get.
  case_decide; [|done]. rewrite list_lookup_fmap. by destruct (values tc !! _).
Qed.

(** Accounts outside an instruction being kept, the total changes as the
    instruction's own sum does. *)
Lemma under_total js tc tc' :
  under js tc tc' -> NoDup js -> Forall (fun j => is_Some (account_at tc j)) js ->
  total_lamports tc' - sum_Z (lamports_at tc' <$> js) = total_lamports tc - sum_Z (lamports_at tc <$> js).
Proof.
  intros Hu Hnd Hall. unfold total_lamports, account_sum.
  rewrite <- !(list_fmap_ext _ _ js (fun _ j _ => lookup_lamports _ j)).
  assert (length (values tc) = length (values tc')) as Hlen
    by (unfold values; rewrite !length_fmap; symmetry; apply Hu).
  apply sum_Z_outside; [done| |by rewrite !length_fmap|].
  - eapply list.Forall_impl; [done|]. intros j [a Ha]. rewrite account_at_values in Ha.
    apply vec_get_lt in Ha. unfold vec_len in *. by rewrite length_fmap.
  - intros n Hn. apply (u_lamports _ _ _ Hu) in Hn. unfold lamports_at in Hn.
    rewrite !account_at_values in Hn. unfold vec_get in Hn. rewrite !decide_True, !Nat2Z.id in Hn by lia.
    rewrite !list_lookup_fmap.
    destruct (values tc !! n) eqn:H1, (values tc' !! n) eqn:H2; simpl in *; try done; [congruence|..].
    + apply lookup_lt_Some in H1. apply lookup_ge_None in H2. lia.
    + apply lookup_lt_Some in H2. apply lookup_ge_None in H1. lia.
Qed.

Lemma lamport_sum_spec ic tc sum :
  ic_small ic -> instruction_accounts_lamport_sum ic tc = Ok sum ->
  sum = sum_Z (lamports_at tc <$> distinct_accounts ic) /\
  Forall (fun j => is_Some (account_at tc j)) (distinct_accounts ic).
Proof.
  intros Hs. unfold instruction_accounts_lamport_sum.
  rewrite number_of_instruction_accounts_small by done. by intros H%lamport_sum_loop_spec.
Qed.

(** From [push] to [pop], with work in between that keeps the accounts the
    instruction was not given. *)
Lemma balanced_call_total ic tc tc2 tc3 tc4 :
  stack_ok tc -> push tc = (Ok tt, tc2) -> get_current_instruction_context tc2 = Ok ic ->
  ic_small ic -> dedup_ok ic -> under (accounts_of ic) tc2 tc3 -> pop tc3 = (Ok tt, tc4) ->
  total_lamports tc4 = total_lamports tc.
Proof.
  intros Hok Hp Hcur Hsm Hdd Hu Hpop.
  destruct (push_ok_inv _ _ Hok Hp) as (callee & sum & Hn & Hsum & _ & Hs & Hlv & Hok2 & Ha & Hfr & _).
  set (level := get_instruction_context_stack_height tc) in *.
  assert (Hcap : vec_len (instruction_stack tc2) <= int_max USIZE).
  { destruct Hok2. lia. }
  rewrite (current_context_top tc2 _ _ _ Hs Hfr Hcap) in Hcur. injection Hcur as <-.
  assert (get_current_instruction_context tc3 = Ok (entered level sum callee)) as Hcur3.
  { eapply current_context_top; [by rewrite (u_stack _ _ _ Hu), Hs| |].
    - rewrite (u_frames _ _ _ Hu); [done|]. destruct (so_frames _ Hok2 (vec_len (instruction_stack tc))
        (get_instruction_trace_length tc)) as [? _]; [|lia].
      rewrite Hs, vec_get_app, decide_False, Z.sub_diag by lia. done.
    - rewrite (u_stack _ _ _ Hu). done. }
  rewrite pop_spec in Hpop. destruct (instruction_stack tc3); [done|]. injection Hpop as Hdet <-.
  unfold detect_unbalanced_instruction in Hdet. rewrite Hcur3 in Hdet. simpl in Hdet.
  inv_outcome Hdet. bool_facts. subst a1.
  apply lamport_sum_spec in Hok0 as [Hsum3 _]; [|done].
  apply lamport_sum_spec in Hsum as [Hsum1 Hall]; [|done].
  assert (forall j, account_at tc2 j = account_at tc j) as Hv
    by (intros j; unfold account_at; by rewrite Ha).
  change (total_lamports tc3 = total_lamports tc).
  rewrite <- (account_sum_eq acc_lamports tc tc2 Hv : total_lamports tc2 = total_lamports tc).
  assert (under (distinct_accounts (entered level sum callee)) tc2 tc3) as Hu'.
  { eapply under_weaken; [|done]. intros j. by apply distinct_accounts_spec. }
  apply under_total in Hu'; [|by apply NoDup_distinct_accounts|].
  - rewrite <- Hsum3 in Hu'.
    rewrite (list_fmap_ext (lamports_at tc2) (lamports_at tc)) in Hu'
      by (intros n j _; unfold lamports_at; by rewrite Hv).
    rewrite Hsum1 in Hu' at 1. change (distinct_accounts (entered level sum callee)) with
      (distinct_accounts callee) in Hu'. lia.
  - eapply list.Forall_impl; [exact Hall|]. intros j. by rewrite Hv.
Qed.

(** An instruction that ends without an error conserves lamports.  From [push]
    to [pop], whatever its program does to accounts and whatever instructions it
    calls on the accounts it was given, nested to any depth and successful or
    not, the total of all accounts of the transaction is the same. *)
Theorem instruction_conserves_lamports (ic : InstructionContext)
    (tc tc2 tc3 tc4 : TransactionContext) (live : list BorrowedAccount) :
  stack_ok tc ->
  push tc = (Ok tt, tc2) ->
  get_current_instruction_context tc2 = Ok ic ->
  ic_small ic -> dedup_ok ic ->
  body ic ([], tc2) (live, tc3) ->
  pop tc3 = (Ok tt, tc4) ->
  total_lamports tc4 = total_lamports tc.
Proof.
  intros Hok Hp Hcur Hsm Hdd Hb Hpop. eapply balanced_call_total; [done..| |done].
  destruct (push_ok_inv _ _ Hok Hp) as (callee & sum & _ & _ & _ & _ & _ & Hok2 & _).
  by apply (body_under _ _ _ Hb Hsm (Forall_nil_2 _) Hok2).
Qed.

(** The current context is the one on top of the stack, at the recorded height. *)
Lemma current_context_ok tc :
  stack_ok tc ->
  match instruction_stack tc with
  | [] => get_current_instruction_context tc = Err CallDepth
  | _ => exists ic, get_current_instruction_context tc = Ok ic /\
           get_stack_height ic = get_instruction_context_stack_height tc
  end.
Proof.
  intros Hok. pose proof (so_capacity _ Hok). pose proof (so_stack _ Hok).
  destruct (instruction_stack tc) as [|i l _] eqn:Hs using rev_ind.
  { unfold get_current_instruction_context, get_instruction_context_stack_height. by rewrite Hs. }
  destruct (so_frames _ Hok (vec_len l) i) as (Hi & ic & Hic & Hn).
  { by rewrite Hs, vec_get_app, decide_False, Z.sub_diag by lia. }
  assert (exists ic, get_current_instruction_context tc = Ok ic /\
           get_stack_height ic = get_instruction_context_stack_height tc) as Hex.
  { exists ic. split; [eapply current_context_top; [done..|]; rewrite Hs; lia|].
    unfold get_stack_height, get_instruction_context_stack_height. rewrite Hs, Hn, vec_len_app in *.
    change (vec_len [i]) with 1 in *. apply saturating_small. unfold in_range, vec_len in *. simpl in *. lia. }
  destruct (l ++ [i]) eqn:E; [|done]. by apply app_nil in E as [_ ?].
Qed.

(** The call stack is consistent.  Whatever is configured, pushed, popped and
    done to accounts after a transaction context was made, the stack and the
    trace keep to their capacities, every running instruction is recorded in the
    trace at its nesting level, and the current one is found exactly when one is
    running. *)
Theorem call_stack_consistent (accs : list (Pubkey * AccountSharedData)) (r : Rent)
    (stack_capacity trace_capacity : Z) (tc : TransactionContext) :
  0 <= stack_capacity <= int_max USIZE ->
  0 <= trace_capacity < int_max USIZE ->
  rtc tx_step (TransactionContext_new accs r stack_capacity trace_capacity) tc ->
  stack_ok tc /\
  match instruction_stack tc with
  | [] => get_current_instruction_context tc = Err CallDepth
  | _ => exists ic, get_current_instruction_context tc = Ok ic /\
           get_stack_height ic = get_instruction_context_stack_height tc
  end.
Proof.
  intros Hs Ht Hrtc.
  assert (stack_ok tc) as Hok; [|by split; [|apply current_context_ok]].
  pose proof (TransactionContext_new_stack_ok accs r _ _ Hs Ht) as H0.
  induction Hrtc; eauto using tx_step_stack_ok.
Qed.

(** ** A transfer with a call in between *)
Module CallDemo.

Definition payer : AccountSharedData := mkAccount 100 [] (replicate 32 2) false 0.
Definition payee : AccountSharedData := mkAccount 5 [] (replicate 32 3) false 0.
Definition program : AccountSharedData := mkAccount 1 [] (replicate 32 9) true 0.
Definition new_tc : TransactionContext :=
  TransactionContext_new [(replicate 32 1, payer); (replicate 32 4, payee); (replicate 32 2, program)]
    Rent_default 5 64.
Definition ias : list InstructionAccount :=
  [mkInstructionAccount 0 0 0 false true; mkInstructionAccount 1 1 1 false true].

Definition configured_tc := final (update_next_instruction_context (configure [2] ias [])) new_tc.
Definition pushed_tc := final push configured_tc.
Definition running_ic : InstructionContext := mkInstructionContext 0 105 [2] ias [].
Definition from := mkBorrowedAccount running_ic 0 1.
Definition to := mkBorrowedAccount running_ic 1 2.
Definition tc_a := final (try_borrow_instruction_account running_ic 0) pushed_tc.
Definition tc_b := final (checked_sub_lamports from 30) tc_a.
Definition tc_c := drop_account from tc_b.
Definition tc_d := final (try_borrow_instruction_account running_ic 1) tc_c.
Definition tc_e := final (checked_add_lamports to 30) tc_d.
Definition moved_tc := drop_account to tc_e.
Definition popped_tc := final pop moved_tc.

Lemma moved_body : body running_ic ([], pushed_tc) ([], moved_tc).
Proof.
  eapply body_step; [apply (step_borrow_instruction _ 0 [] from pushed_tc tc_a); reflexivity|].
  eapply body_step; [apply (step_call _ _ from (MCheckedSubLamports 30) (Ok tt) tc_a tc_b);
    [constructor|vm_compute; reflexivity]|].
  eapply body_step; [apply (step_drop _ [] [] from tc_b)|].
  eapply body_step; [apply (step_borrow_instruction _ 1 [] to tc_c tc_d); vm_compute; reflexivity|].
  eapply body_step; [apply (step_call _ _ to (MCheckedAddLamports 30) (Ok tt) tc_d tc_e);
    [constructor|vm_compute; reflexivity]|].
  eapply body_step; [apply (step_drop _ [] [] to tc_e)|]. apply body_done.
Qed.

Lemma running_dedup : dedup_ok running_ic.
Proof.
  intros i ia H. apply vec_get_lt in H as Hlt. change (0 <= i < 2) in Hlt.
  assert (i = 0 \/ i = 1) as [-> | ->] by lia; vm_compute in H; simplify_eq; reflexivity.
Qed.

Lemma instruction_conserves_lamports_witness :
  acc_lamports <$> values popped_tc = [70; 35; 1] /\
  total_lamports popped_tc = total_lamports configured_tc.
Proof.
  split; [vm_compute; reflexivity|].
  apply (instruction_conserves_lamports running_ic configured_tc pushed_tc moved_tc popped_tc []).
  - apply (with_next_stack_ok (configure [2] ias [])), TransactionContext_new_stack_ok;
      vm_compute; split; discriminate || reflexivity.
  - vm_compute. reflexivity.
  - vm_compute. reflexivity.
  - vm_compute. discriminate.
  - exact running_dedup.
  - exact moved_body.
  - vm_compute. reflexivity.
Defined.

Lemma call_stack_consistent_witness :
  stack_ok pushed_tc /\ instruction_stack pushed_tc = [0] /\
  exists ic, get_current_instruction_context pushed_tc = Ok ic /\
    get_stack_height ic = get_instruction_context_stack_height pushed_tc.
Proof.
  assert (rtc tx_step new_tc pushed_tc) as Hr.
  { eapply rtc_l; [apply (tx_configure [2] ias [] (Ok tt) _ configured_tc); reflexivity|].
    eapply rtc_l; [apply (tx_push (Ok tt) _ pushed_tc); vm_compute; reflexivity|apply rtc_refl]. }
  destruct (call_stack_consistent [(replicate 32 1, payer); (replicate 32 4, payee);
    (replicate 32 2, program)] Rent_default 5 64 pushed_tc) as [Hok Hc].
  - vm_compute. split; discriminate.
  - vm_compute. split; [discriminate|reflexivity].
  - exact Hr.
  - split; [exact Hok|]. split; [reflexivity|]. exact Hc.
Defined.

End CallDemo.
