(* ===== verification/Sysvars.v ===== *)
(** * Data of the sysvars (sdk/program/src)

    The records behind the sysvars, and the two that are ordered histories:
    [SlotHashes] (slot_hashes.rs) and [StakeHistory] (stake_history.rs) keep
    their entries in a vector, newest first, find them by binary search and drop
    the oldest when there are too many.  The theorems relate both to finite
    maps: [get] is the map's lookup, and [add] is its insertion, less the oldest
    entry when the history is full. *)

From S2P Require Import Prelude Errors Rent Account.

(** ** Records *)

Record FeeCalculator := mkFeeCalculator { lamports_per_signature : Z }.

Definition FeeCalculator_new (lamports_per_signature : Z) : FeeCalculator :=
  mkFeeCalculator lamports_per_signature.

Record Clock := mkClock {
  clock_slot : Slot;
  epoch_start_timestamp : Z;
  clock_epoch : Epoch;
  leader_schedule_epoch : Epoch;
  unix_timestamp : Z;
}.

Record EpochRewards := mkEpochRewards {
  total_rewards : Z;
  distributed_rewards : Z;
  distribution_complete_block_height : Z;
}.

(** [EpochRewards::distribute] ; the [assert!] panics. *)
Definition distribute (amount : Z) (self : EpochRewards) : Outcome Empty_set EpochRewards :=
  if saturating_add U64 (distributed_rewards self) amount <=? total_rewards self
  then Ok (mkEpochRewards (total_rewards self)
             (wrapping U64 (distributed_rewards self + amount))
             (distribution_complete_block_height self))
  else Panic.

Record Fees := mkFees { fees_fee_calculator : FeeCalculator }.

Module RecentBlockhashes.

Record Entry := mkEntry { blockhash : Hash; fee_calculator : FeeCalculator }.

Definition Entry_new (blockhash : Hash) (lamports_per_signature : Z) : Entry :=
  mkEntry blockhash (FeeCalculator_new lamports_per_signature).

Definition RecentBlockhashes := list Entry.

(** [from_iter] over [IterItem(_, hash, lamports_per_signature)]. *)
Definition from_iter (iter : list (Z * Hash * Z)) : RecentBlockhashes :=
  foldl (fun new i => new ++ [Entry_new (snd (fst i)) (snd i)]) [] iter.

End RecentBlockhashes.

Record StakeHistoryEntry := mkStakeHistoryEntry {
  effective : Z;
  activating : Z;
  deactivating : Z;
}.

Record LastRestartSlot := mkLastRestartSlot { last_restart_slot : Slot }.

(** ** Binary search

    [slice::binary_search_by] of the standard library: the element or the place
    where one could be inserted. *)

Inductive Search := Found (index : nat) | Missing (index : nat).

Fixpoint binary_search_loop {A} (f : A -> comparison) (l : list A) (fuel left right : nat) : Search :=
  match fuel with
  | O => Missing left
  | S fuel =>
      if (left <? right)%nat then
        let mid := (left + (right - left) / 2)%nat in
        match l !! mid with
        | None => Missing left
        | Some x =>
            match f x with
            | Eq => Found mid
            | Lt => binary_search_loop f l fuel (mid + 1) right
            | Gt => binary_search_loop f l fuel left mid
            end
        end
      else Missing left
  end.

Definition binary_search_by {A} (f : A -> comparison) (l : list A) : Search :=
  binary_search_loop f l (S (length l)) 0 (length l).

(** ** Histories, newest first *)

Section history.
Context {V : Type}.
Abbreviation History := (list (Z * V)).

(** [self.binary_search_by(|(probe, _)| key.cmp(probe))] *)
Definition history_search (key : Z) (self : History) : Search :=
  binary_search_by (fun probe => Z.compare key (fst probe)) self.

Definition history_add (entries : nat) (key : Z) (value : V) (self : History) : History :=
  take entries
    match history_search key self with
    | Found index => <[index := (key, value)]> self
    | Missing index => take index self ++ (key, value) :: drop index self
    end.

Definition history_position (key : Z) (self : History) : option nat :=
  match history_search key self with Found index => Some index | Missing _ => None end.

Definition history_get (key : Z) (self : History) : option V :=
  match history_search key self with
  | Found index => snd <$> self !! index
  | Missing _ => None
  end.

End history.

Module SlotHashes.

Definition SlotHashes := list (Slot * Hash).
Definition MAX_ENTRIES : nat := 512.
Definition get_entries : nat := MAX_ENTRIES.

Definition add (slot : Slot) (hash : Hash) (self : SlotHashes) : SlotHashes :=
  history_add get_entries slot hash self.
Definition position (slot : Slot) (self : SlotHashes) : option nat := history_position slot self.
Definition get (slot : Slot) (self : SlotHashes) : option Hash := history_get slot self.

(** [sort_by(|(a, _), (b, _)| b.cmp(a))], which is stable. *)
Fixpoint insert_sorted (x : Slot * Hash) (l : SlotHashes) : SlotHashes :=
  match l with
  | [] => [x]
  | y :: l' => if fst x <? fst y then y :: insert_sorted x l' else x :: l
  end.
Definition new (slot_hashes : list (Slot * Hash)) : SlotHashes := foldr insert_sorted [] slot_hashes.

End SlotHashes.

Module StakeHistory.

Definition StakeHistory := list (Epoch * StakeHistoryEntry).
Definition MAX_ENTRIES : nat := 512.

Definition get (epoch : Epoch) (self : StakeHistory) : option StakeHistoryEntry :=
  history_get epoch self.
Definition add (epoch : Epoch) (entry : StakeHistoryEntry) (self : StakeHistory) : StakeHistory :=
  history_add MAX_ENTRIES epoch entry self.

End StakeHistory.

(** ** Binary search is correct *)

(** [f] tells apart a prefix ([Lt]), at most one run of matches, and a suffix. *)
Definition searchable {A} (f : A -> comparison) (l : list A) : Prop :=
  forall i j x y, (i < j)%nat -> l !! i = Some x -> l !! j = Some y ->
    (f y = Lt -> f x = Lt) /\ (f x = Gt -> f y = Gt).

Definition search_result {A} (f : A -> comparison) (l : list A) (r : Search) : Prop :=
  match r with
  | Found i => exists x, l !! i = Some x /\ f x = Eq
  | Missing i => (i <= length l)%nat /\
      forall j x, l !! j = Some x -> ((j < i)%nat -> f x = Lt) /\ ((i <= j)%nat -> f x = Gt)
  end.

Lemma binary_search_loop_spec {A} (f : A -> comparison) l fuel left right :
  searchable f l -> (right - left < fuel)%nat -> (left <= right <= length l)%nat ->
  (forall j x, l !! j = Some x -> (j < left)%nat -> f x = Lt) ->
  (forall j x, l !! j = Some x -> (right <= j)%nat -> f x = Gt) ->
  search_result f l (binary_search_loop f l fuel left right).
Proof.
  intros Hs. revert left right. induction fuel as [|fuel IH]; intros left right Hf Hle Hlo Hhi; [lia|].
  cbn [binary_search_loop]. cbv zeta. destruct (Nat.ltb_spec left right).
  2:{ simpl. assert (left = right) by lia. subst. split; [lia|]. eauto. }
  pose proof (Nat.div_lt (right - left) 2). set (mid := (left + (right - left) / 2)%nat).
  assert (left <= mid < right)%nat as Hmid by (unfold mid; lia).
  destruct (l !! mid) as [x|] eqn:Hx; [|apply lookup_ge_None in Hx; lia].
  destruct (f x) eqn:Hfx.
  - by exists x.
  - apply IH; [lia|lia| |done]. intros j y Hy Hj.
    destruct (decide (j = mid)) as [->|]; [congruence|]. by apply (Hs j mid y x ltac:(lia) Hy Hx).
  - apply IH; [lia|lia|done|]. intros j y Hy Hj.
    destruct (decide (j = mid)) as [->|]; [congruence|]. by apply (Hs mid j x y ltac:(lia) Hx Hy).
Qed.

Lemma binary_search_by_spec {A} (f : A -> comparison) l :
  searchable f l -> search_result f l (binary_search_by f l).
Proof.
  intros Hs. apply binary_search_loop_spec; [done|lia|lia|lia|].
  intros j x Hx%lookup_lt_Some. lia.
Qed.

(** ** Histories are maps *)

Section history_map.
Context {V : Type}.
Implicit Types l : list (Z * V).

Definition newest_first l : Prop :=
  forall i j x y, (i < j)%nat -> l !! i = Some x -> l !! j = Some y -> fst y < fst x.

Definition to_map l : gmap Z V := list_to_map l.

Lemma newest_first_searchable key l :
  newest_first l -> searchable (fun probe => Z.compare key (fst probe)) l.
Proof.
  intros Hl i j x y Hij Hx Hy. specialize (Hl i j x y Hij Hx Hy). split; intros H.
  - rewrite Z.compare_lt_iff in *. lia.
  - rewrite Z.compare_gt_iff in *. lia.
Qed.

Lemma history_search_spec key l :
  newest_first l ->
  match history_search key l with
  | Found i => exists v, l !! i = Some (key, v)
  | Missing i => (i <= length l)%nat /\
      forall j x, l !! j = Some x -> ((j < i)%nat -> key < fst x) /\ ((i <= j)%nat -> fst x < key)
  end.
Proof.
  intros Hl. pose proof (binary_search_by_spec _ _ (newest_first_searchable key l Hl)) as H.
  unfold history_search. destruct (binary_search_by _ l) as [i|i]; simpl in *.
  - destruct H as ([k v] & Hx & Heq%Z.compare_eq). simpl in *. subst. eauto.
  - destruct H as [Hi H]. split; [done|]. intros j x [H1 H2]%H. split; intros Hj.
    + by apply Z.compare_lt_iff, H1.
    + by apply Z.compare_gt_iff, H2.
Qed.

Lemma newest_first_NoDup l : newest_first l -> NoDup l.*1.
Proof.
  intros Hl. apply NoDup_alt. intros i j k Hi Hj.
  rewrite list_lookup_fmap in Hi, Hj.
  destruct (l !! i) as [x|] eqn:Hx, (l !! j) as [y|] eqn:Hy; simplify_eq/=.
  destruct (lt_eq_lt_dec i j) as [[Hij|]|Hij]; [|done|]; [pose proof (Hl _ _ _ _ Hij Hx Hy)|
    pose proof (Hl _ _ _ _ Hij Hy Hx)]; lia.
Qed.

Lemma to_map_Some l k v : newest_first l -> to_map l !! k = Some v <-> (k, v) ∈ l.
Proof.
  intros Hl. split; [apply elem_of_list_to_map_2|].
  apply elem_of_list_to_map_1. by apply newest_first_NoDup.
Qed.

Lemma history_get_spec key l : newest_first l -> history_get key l = to_map l !! key.
Proof.
  intros Hl. pose proof (history_search_spec key l Hl) as H. unfold history_get.
  destruct (history_search key l) as [i|i].
  - destruct H as [v Hv]. rewrite Hv. symmetry. apply to_map_Some; [done|].
    by eapply list_elem_of_lookup_2.
  - symmetry. destruct (to_map l !! key) as [v|] eqn:Hv; [|done].
    apply to_map_Some in Hv; [|done]. apply list_elem_of_lookup_1 in Hv as [j Hj].
    destruct H as [_ H]. apply H in Hj as [H1 H2]. simpl in *.
    destruct (decide (j < i)%nat); [specialize (H1 ltac:(lia))|specialize (H2 ltac:(lia))]; lia.
Qed.

(** The whole list [add] makes before it truncates. *)
Definition inserted (key : Z) (value : V) l : list (Z * V) :=
  match history_search key l with
  | Found index => <[index := (key, value)]> l
  | Missing index => take index l ++ (key, value) :: drop index l
  end.

Lemma newest_first_keys l l' : l'.*1 = l.*1 -> newest_first l -> newest_first l'.
Proof.
  intros Hk Hl i j x y Hij Hx Hy.
  assert (forall n z, l' !! n = Some z -> exists z', l !! n = Some z' /\ fst z' = fst z) as Hsame.
  { intros n z Hz. assert (l.*1 !! n = Some (fst z)) as Hn by (by rewrite <- Hk, list_lookup_fmap, Hz).
    rewrite list_lookup_fmap in Hn. destruct (l !! n) as [z'|]; simplify_eq/=. by exists z'. }
  apply Hsame in Hx as (x' & Hx & <-). apply Hsame in Hy as (y' & Hy & <-). by eapply Hl.
Qed.

Lemma newest_first_app l1 l2 :
  newest_first (l1 ++ l2) <->
  newest_first l1 /\ newest_first l2 /\ (forall x y, x ∈ l1 -> y ∈ l2 -> fst y < fst x).
Proof.
  split.
  - intros H. split_and!.
    + intros i j x y Hij Hx Hy. by apply (H i j x y Hij); apply lookup_app_l_Some.
    + intros i j x y Hij Hx Hy. apply (H (length l1 + i)%nat (length l1 + j)%nat x y); [lia|..];
        rewrite lookup_app_r by lia; by rewrite Nat.add_comm, Nat.add_sub.
    + intros x y [i Hx]%list_elem_of_lookup_1 [j Hy]%list_elem_of_lookup_1.
      apply (H i (length l1 + j)%nat); [apply lookup_lt_Some in Hx; lia|by apply lookup_app_l_Some|].
      rewrite lookup_app_r by lia. by rewrite Nat.add_comm, Nat.add_sub.
  - intros (H1 & H2 & H12) i j x y Hij Hx Hy.
    apply lookup_app_Some in Hx as [Hx|[Hi Hx]]; apply lookup_app_Some in Hy as [Hy|[Hj Hy]].
    + by eapply H1.
    + apply H12; by eapply list_elem_of_lookup_2.
    + apply lookup_lt_Some in Hy. lia.
    + eapply (H2 (i - length l1)%nat (j - length l1)%nat); [lia|done|done].
Qed.

Lemma newest_first_single x : newest_first [x].
Proof. intros i j y z Hij Hy Hz. apply lookup_lt_Some in Hz. simpl in Hz. lia. Qed.

(** The place of a missing key is between the newer and the older entries. *)
Lemma missing_place key l i :
  newest_first l -> history_search key l = Missing i ->
  (forall x, x ∈ take i l -> key < fst x) /\ (forall x, x ∈ drop i l -> fst x < key).
Proof.
  intros Hl Hs. pose proof (history_search_spec key l Hl) as H. rewrite Hs in H.
  destruct H as [_ H]. split; intros x [n Hn]%list_elem_of_lookup_1.
  - apply lookup_take_Some in Hn as [Hn Hlt]. apply H in Hn as [Hn _]. auto.
  - rewrite lookup_drop in Hn. apply H in Hn as [_ Hn]. apply Hn. lia.
Qed.

Lemma inserted_newest_first key v l : newest_first l -> newest_first (inserted key v l).
Proof.
  intros Hl. unfold inserted. destruct (history_search key l) as [i|i] eqn:Hs.
  - pose proof (history_search_spec key l Hl) as H. rewrite Hs in H. destruct H as [v0 H].
    apply (newest_first_keys l); [|done]. rewrite list_fmap_insert. apply list_insert_id.
    by rewrite list_lookup_fmap, H.
  - apply (missing_place key l i Hl) in Hs as [Hnew Hold].
    rewrite <- (take_drop i l) in Hl. apply newest_first_app in Hl as (H1 & H2 & H12).
    apply newest_first_app. split; [done|]. split.
    + apply (newest_first_app [_]). split; [apply newest_first_single|]. split; [done|].
      intros x y ->%list_elem_of_singleton. apply Hold.
    + intros x y Hx [->|Hy]%elem_of_cons; [by apply Hnew|by apply H12].
Qed.

Lemma to_map_inserted key v l : newest_first l -> to_map (inserted key v l) = <[key := v]> (to_map l).
Proof.
  intros Hl. unfold inserted. destruct (history_search key l) as [i|i] eqn:Hs.
  - pose proof (history_search_spec key l Hl) as H. rewrite Hs in H. destruct H as [v0 H].
    pose proof (lookup_lt_Some _ _ _ H) as Hlt.
    rewrite <- (take_drop_middle l i (key, v0)) at 2 by done.
    rewrite insert_take_drop by done. pose proof (newest_first_NoDup l Hl) as Hnd.
    rewrite <- (take_drop_middle l i (key, v0)) in Hnd by done.
    rewrite fmap_app, fmap_cons in Hnd. apply list.NoDup_app in Hnd as (_ & Hni & _).
    assert (list_to_map (M:=gmap Z V) (take i l) !! key = None) as Hnone.
    { apply not_elem_of_list_to_map_1. intros Hin. apply (Hni _ Hin). simpl. apply elem_of_cons. by left. }
    unfold to_map. rewrite !list_to_map_app. simpl.
    rewrite <- !insert_union_r by done. by rewrite insert_insert_eq.
  - apply (missing_place key l i Hl) in Hs as [Hnew _].
    assert (list_to_map (M:=gmap Z V) (take i l) !! key = None) as Hnone.
    { apply not_elem_of_list_to_map_1. intros (x & -> & Hin)%list_elem_of_fmap.
      apply Hnew in Hin. lia. }
    unfold to_map. rewrite list_to_map_app. simpl. rewrite <- insert_union_r by done.
    rewrite <- list_to_map_app. by rewrite take_drop.
Qed.

(** What [add] keeps is the map with the key inserted, less entries older than
    all that are kept, which are dropped only when the history is full. *)
Lemma history_add_spec entries key v l :
  newest_first l ->
  let l' := history_add entries key v l in
  newest_first l' /\ (length l' <= entries)%nat /\
  exists dropped, <[key := v]> (to_map l) = to_map l' ∪ to_map dropped /\
    (forall x y, x ∈ l' -> y ∈ dropped -> fst y < fst x) /\
    (dropped <> [] -> length l' = entries).
Proof.
  intros Hl l'. pose proof (inserted_newest_first key v l Hl) as Hi.
  assert (l' = take entries (inserted key v l)) as Hl' by done. rewrite Hl'.
  rewrite <- (take_drop entries (inserted key v l)) in Hi.
  apply newest_first_app in Hi as (H1 & H2 & H12). split; [done|].
  rewrite length_take. split; [lia|].
  exists (drop entries (inserted key v l)). split_and!.
  - rewrite <- to_map_inserted by done. unfold to_map. by rewrite <- list_to_map_app, take_drop.
  - done.
  - intros Hd. enough (entries < length (inserted key v l))%nat by lia.
    destruct (decide (entries < length (inserted key v l))%nat); [done|].
    by rewrite drop_ge in Hd by lia.
Qed.

End history_map.

(** [SlotHashes::new] sorts. *)
Lemma insert_sorted_perm x l : SlotHashes.insert_sorted x l ≡ₚ x :: l.
Proof.
  induction l as [|y l IH]; simpl; [done|]. destruct (_ <? _); [|done].
  rewrite IH. by constructor.
Qed.

Lemma new_perm l : SlotHashes.new l ≡ₚ l.
Proof.
  unfold SlotHashes.new. induction l as [|x l IH]; simpl; [done|]. by rewrite insert_sorted_perm, IH.
Qed.

Lemma insert_sorted_newest_first x l :
  newest_first l -> fst x ∉ l.*1 -> newest_first (SlotHashes.insert_sorted x l).
Proof.
  induction l as [|y l IH]; intros Hl Hx; simpl; [apply newest_first_single|].
  apply (newest_first_app [y]) in Hl as (Hy & Hl & Hyl). rewrite fmap_cons, not_elem_of_cons in Hx.
  destruct Hx as [Hxy Hx]. destruct (Z.ltb_spec (fst x) (fst y)).
  - apply (newest_first_app [y]). split; [done|]. split; [by apply IH|].
    intros a b ->%list_elem_of_singleton Hb. rewrite insert_sorted_perm in Hb.
    apply elem_of_cons in Hb as [->|Hb]; [done|]. apply Hyl; [set_solver|done].
  - apply (newest_first_app [x]). split; [apply newest_first_single|].
    split; [by apply (newest_first_app [y])|].
    intros a b ->%list_elem_of_singleton [->|Hb]%elem_of_cons; [lia|].
    specialize (Hyl y b ltac:(set_solver) Hb). lia.
Qed.

Lemma new_newest_first l : NoDup l.*1 -> newest_first (SlotHashes.new l).
Proof.
  induction l as [|x l IH]; intros Hnd; [by intros ? ? ? ? ? ?|].
  apply list.NoDup_cons in Hnd as [Hx Hnd]. apply insert_sorted_newest_first; [by apply IH|].
  intros Hin. apply Hx. by rewrite (new_perm l) in Hin.
Qed.

(** Slot hashes are a finite map of bounded size.  A lookup is the lookup of
    the map, and [add] inserts; it drops entries only when there are 512, and
    only such as are older than all it keeps. *)
Theorem slot_hashes_refine_map (self : SlotHashes.SlotHashes) (slot : Slot) (hash : Hash) :
  newest_first self ->
  (forall k, SlotHashes.get k self = to_map self !! k) /\
  let self' := SlotHashes.add slot hash self in
  newest_first self' /\ (length self' <= 512)%nat /\
  exists dropped, <[slot := hash]> (to_map self) = to_map self' ∪ to_map dropped /\
    (forall x y, x ∈ self' -> y ∈ dropped -> fst y < fst x) /\
    (dropped <> [] -> length self' = 512%nat).
Proof.
  intros Hl. split; [intros k; by apply history_get_spec|]. by apply history_add_spec.
Qed.

(** The stake history is a finite map of bounded size, in the same way. *)
Theorem stake_history_refines_map (self : StakeHistory.StakeHistory) (epoch : Epoch)
    (entry : StakeHistoryEntry) :
  newest_first self ->
  (forall k, StakeHistory.get k self = to_map self !! k) /\
  let self' := StakeHistory.add epoch entry self in
  newest_first self' /\ (length self' <= 512)%nat /\
  exists dropped, <[epoch := entry]> (to_map self) = to_map self' ∪ to_map dropped /\
    (forall x y, x ∈ self' -> y ∈ dropped -> fst y < fst x) /\
    (dropped <> [] -> length self' = 512%nat).
Proof.
  intros Hl. split; [intros k; by apply history_get_spec|]. by apply history_add_spec.
Qed.

Lemma slot_hashes_refine_map_witness :
  SlotHashes.new [(3, [3]); (9, [9]); (5, [5])] = [(9, [9]); (5, [5]); (3, [3])] /\
  SlotHashes.add 7 [7] [(9, [9]); (5, [5]); (3, [3])] = [(9, [9]); (7, [7]); (5, [5]); (3, [3])] /\
  SlotHashes.get 5 [(9, [9]); (5, [5]); (3, [3])] =
    (to_map [(9, [9]); (5, [5]); (3, [3])] : gmap Z Hash) !! 5.
Proof.
  split; [reflexivity|]. split; [vm_compute; reflexivity|].
  refine (proj1 (slot_hashes_refine_map (SlotHashes.new [(3, [3]); (9, [9]); (5, [5])]) 7 [7] _) 5).
  apply new_newest_first. cbn [fmap list_fmap fst]. apply (bool_decide_unpack _). vm_compute. exact I.
Defined.

Lemma stake_history_refines_map_witness :
  newest_first [(2, mkStakeHistoryEntry 10 1 0)] /\
  StakeHistory.get 2 [(2, mkStakeHistoryEntry 10 1 0)] =
    (to_map [(2, mkStakeHistoryEntry 10 1 0)] : gmap Z StakeHistoryEntry) !! 2.
Proof.
  split; [apply newest_first_single|].
  exact (proj1 (stake_history_refines_map [(2, mkStakeHistoryEntry 10 1 0)] 3
    (mkStakeHistoryEntry 11 0 1) (newest_first_single _)) 2).
Defined.
