(* ===== verification/EpochSchedule.v ===== *)
(** * Epochs and slots (sdk/program/src/epoch_schedule.rs)

    Epochs start at 32 slots and double until they reach the normal length.  The
    theorems show that the schedule cuts the slots into consecutive epochs: the
    epoch and index the code computes for a slot are the only ones whose first
    slot and length fit it, through the warm-up and after it. *)

From S2P Require Import Prelude Errors Rent Account.

(** ** Operations of the integer types *)

(** [u64::next_power_of_two]: wraps to 0 if there is none. *)
Definition next_power_of_two (x : Z) : Z := wrapping U64 (2 ^ Z.log2_up x).

Fixpoint trailing_zeros_pos (p : positive) : Z :=
  match p with xO p => 1 + trailing_zeros_pos p | _ => 0 end.

(** [u64::trailing_zeros] *)
Definition trailing_zeros (x : Z) : Z :=
  match x with Zpos p => trailing_zeros_pos p | _ => 64 end.

(** [u64::saturating_pow] *)
Definition saturating_pow (x y : Z) : Z := saturating U64 (x ^ y).

(** [u64::checked_div(b).unwrap_or(0)] and [checked_rem] *)
Definition div_or_0 (a b : Z) : Z := if b =? 0 then 0 else a / b.
Definition rem_or_0 (a b : Z) : Z := if b =? 0 then 0 else a mod b.

(** ** The schedule *)

Definition DEFAULT_LEADER_SCHEDULE_SLOT_OFFSET : Z := DEFAULT_SLOTS_PER_EPOCH.
Definition MINIMUM_SLOTS_PER_EPOCH : Z := 32.

Record EpochSchedule := mkEpochSchedule {
  slots_per_epoch : Z;
  leader_schedule_slot_offset : Z;
  warmup : bool;
  first_normal_epoch : Epoch;
  first_normal_slot : Slot;
}.

Definition custom (slots_per_epoch leader_schedule_slot_offset : Z) (warmup : bool)
  : Outcome Empty_set EpochSchedule :=
  if MINIMUM_SLOTS_PER_EPOCH <=? slots_per_epoch then
    let '(first_normal_epoch, first_normal_slot) :=
      if warmup then
        let pow := next_power_of_two slots_per_epoch in
        let log2_slots_per_epoch :=
          saturating_sub U32 (trailing_zeros pow) (trailing_zeros MINIMUM_SLOTS_PER_EPOCH) in
        (log2_slots_per_epoch, saturating_sub U64 pow MINIMUM_SLOTS_PER_EPOCH)
      else (0, 0) in
    Ok (mkEpochSchedule slots_per_epoch leader_schedule_slot_offset warmup
          first_normal_epoch first_normal_slot)
  else Panic.

Definition EpochSchedule_default : Outcome Empty_set EpochSchedule :=
  custom DEFAULT_SLOTS_PER_EPOCH DEFAULT_LEADER_SCHEDULE_SLOT_OFFSET true.
Definition EpochSchedule_new (slots_per_epoch : Z) : Outcome Empty_set EpochSchedule :=
  custom slots_per_epoch slots_per_epoch true.
Definition without_warmup : Outcome Empty_set EpochSchedule :=
  custom DEFAULT_SLOTS_PER_EPOCH DEFAULT_LEADER_SCHEDULE_SLOT_OFFSET false.

Definition get_slots_in_epoch (self : EpochSchedule) (epoch : Epoch) : Z :=
  if epoch <? first_normal_epoch self then
    saturating_pow 2 (saturating_add U32 (wrapping U32 epoch)
                        (trailing_zeros MINIMUM_SLOTS_PER_EPOCH))
  else slots_per_epoch self.

Definition get_epoch_and_slot_index (self : EpochSchedule) (slot : Slot) : Epoch * Z :=
  if slot <? first_normal_slot self then
    let epoch :=
      saturating_sub U32
        (saturating_sub U32
           (trailing_zeros
              (next_power_of_two
                 (saturating_add U64 (saturating_add U64 slot MINIMUM_SLOTS_PER_EPOCH) 1)))
           (trailing_zeros MINIMUM_SLOTS_PER_EPOCH)) 1 in
    let epoch_len :=
      saturating_pow 2 (saturating_add U32 epoch (trailing_zeros MINIMUM_SLOTS_PER_EPOCH)) in
    (epoch, saturating_sub U64 slot (saturating_sub U64 epoch_len MINIMUM_SLOTS_PER_EPOCH))
  else
    let normal_slot_index := saturating_sub U64 slot (first_normal_slot self) in
    let normal_epoch_index := div_or_0 normal_slot_index (slots_per_epoch self) in
    let epoch := saturating_add U64 (first_normal_epoch self) normal_epoch_index in
    let slot_index := rem_or_0 normal_slot_index (slots_per_epoch self) in
    (epoch, slot_index).

Definition get_epoch (self : EpochSchedule) (slot : Slot) : Epoch :=
  fst (get_epoch_and_slot_index self slot).

Definition get_leader_schedule_epoch (self : EpochSchedule) (slot : Slot) : Epoch :=
  if slot <? first_normal_slot self then
    saturating_add U64 (fst (get_epoch_and_slot_index self slot)) 1
  else
    let new_slots_since_first_normal_slot := saturating_sub U64 slot (first_normal_slot self) in
    let new_first_normal_leader_schedule_slot :=
      saturating_add U64 new_slots_since_first_normal_slot (leader_schedule_slot_offset self) in
    let new_epochs_since_first_normal_leader_schedule :=
      div_or_0 new_first_normal_leader_schedule_slot (slots_per_epoch self) in
    saturating_add U64 (first_normal_epoch self) new_epochs_since_first_normal_leader_schedule.

Definition get_first_slot_in_epoch (self : EpochSchedule) (epoch : Epoch) : Slot :=
  if epoch <=? first_normal_epoch self then
    saturating_mul U64 (saturating_sub U64 (saturating_pow 2 (wrapping U32 epoch)) 1)
      MINIMUM_SLOTS_PER_EPOCH
  else
    saturating_add U64
      (saturating_mul U64 (saturating_sub U64 epoch (first_normal_epoch self))
         (slots_per_epoch self))
      (first_normal_slot self).

Definition get_last_slot_in_epoch (self : EpochSchedule) (epoch : Epoch) : Slot :=
  saturating_sub U64
    (saturating_add U64 (get_first_slot_in_epoch self epoch) (get_slots_in_epoch self epoch)) 1.

(** ** Powers of two *)

Lemma trailing_zeros_pow2 n : 0 <= n -> trailing_zeros (2 ^ n) = n.
Proof.
  intros Hn. pattern n. apply natlike_ind; [done| |done]. intros m Hm IH.
  rewrite Z.pow_succ_r by done. pose proof (Z.pow_pos_nonneg 2 m).
  destruct (2 ^ m) as [|p|p] eqn:E; [lia| |lia].
  change (1 + trailing_zeros (Zpos p) = Z.succ m). lia.
Qed.

Lemma next_power_of_two_small x :
  x <= 2 ^ 63 -> next_power_of_two x = 2 ^ Z.log2_up x.
Proof.
  intros Hx. unfold next_power_of_two. apply wrapping_small. unfold in_range. simpl.
  assert (Z.log2_up x <= 63)
    by (rewrite <- (Z.log2_up_pow2 63) by lia; by apply Z.log2_up_le_mono).
  pose proof (Z.log2_up_nonneg x).
  pose proof (Z.pow_le_mono_r 2 (Z.log2_up x) 63 ltac:(lia) ltac:(lia)).
  pose proof (Z.pow_pos_nonneg 2 (Z.log2_up x)). lia.
Qed.

Lemma trailing_zeros_next x :
  x <= 2 ^ 63 -> trailing_zeros (next_power_of_two x) = Z.log2_up x.
Proof.
  intros Hx. rewrite next_power_of_two_small by done.
  apply trailing_zeros_pow2, Z.log2_up_nonneg.
Qed.

(** ** A schedule made by [custom] *)

(** What [custom] establishes: the normal epochs start where the doubling ends. *)
Record schedule_ok (s : EpochSchedule) : Prop := {
  sc_slots : 32 <= slots_per_epoch s <= 2 ^ 63;
  sc_epoch : 0 <= first_normal_epoch s <= 58;
  sc_slot : first_normal_slot s = 2 ^ (first_normal_epoch s + 5) - 32;
}.

Lemma custom_ok spe offset w s :
  spe <= 2 ^ 63 -> custom spe offset w = Ok s ->
  schedule_ok s /\ slots_per_epoch s = spe /\ 32 <= spe.
Proof.
  unfold custom, MINIMUM_SLOTS_PER_EPOCH. intros Hspe H.
  destruct (Z.leb_spec 32 spe) as [Hge|]; [|done].
  destruct w; injection H as <-; [|split; [split; simpl in *; lia|done]].
  rewrite trailing_zeros_next, next_power_of_two_small by done. change (trailing_zeros 32) with 5.
  set (k := Z.log2_up spe).
  assert (5 <= k) by (unfold k; rewrite <- (Z.log2_up_pow2 5) by lia; by apply Z.log2_up_le_mono).
  assert (k <= 63) by (unfold k; rewrite <- (Z.log2_up_pow2 63) by lia; by apply Z.log2_up_le_mono).
  pose proof (Z.pow_le_mono_r 2 k 63 ltac:(lia) ltac:(lia)).
  pose proof (Z.pow_le_mono_r 2 5 k ltac:(lia) ltac:(lia)).
  unfold saturating_sub. rewrite !saturating_small by (unfold in_range; simpl in *; lia).
  split; [|done]. split; cbn [slots_per_epoch first_normal_epoch first_normal_slot]; [lia..|].
  by replace (k - _ + 5) with k by lia.
Qed.

(** The warm-up: epoch [e] has [2 ^ (e + 5)] slots and starts at [2 ^ (e + 5) - 32]. *)
Section partition.
Context (s : EpochSchedule) (Hs : schedule_ok s).

Lemma first_slot_warmup e :
  0 <= e <= first_normal_epoch s -> get_first_slot_in_epoch s e = 2 ^ (e + 5) - 32.
Proof.
  intros He. destruct Hs. unfold get_first_slot_in_epoch.
  destruct (Z.leb_spec e (first_normal_epoch s)); [|lia].
  rewrite wrapping_small by (unfold in_range; simpl; lia).
  pose proof (Z.pow_le_mono_r 2 e 58 ltac:(lia) ltac:(lia)). pose proof (Z.pow_pos_nonneg 2 e).
  unfold saturating_pow, saturating_mul, saturating_sub, MINIMUM_SLOTS_PER_EPOCH.
  rewrite (saturating_small U64 (2 ^ e)) by (unfold in_range; simpl in *; lia).
  rewrite (saturating_small U64 (2 ^ e - 1)) by (unfold in_range; simpl in *; lia).
  rewrite saturating_small by (unfold in_range; simpl in *; lia).
  rewrite Z.pow_add_r by lia. change (2 ^ 5) with 32. lia.
Qed.

Lemma slots_in_epoch_warmup e :
  0 <= e < first_normal_epoch s -> get_slots_in_epoch s e = 2 ^ (e + 5).
Proof.
  intros He. destruct Hs. unfold get_slots_in_epoch.
  destruct (Z.ltb_spec e (first_normal_epoch s)); [|lia].
  rewrite wrapping_small by (unfold in_range; simpl; lia).
  change (trailing_zeros MINIMUM_SLOTS_PER_EPOCH) with 5. unfold saturating_add, saturating_pow.
  rewrite (saturating_small U32) by (unfold in_range; simpl; lia).
  pose proof (Z.pow_le_mono_r 2 (e + 5) 63 ltac:(lia) ltac:(lia)).
  apply saturating_small. unfold in_range. pose proof (Z.pow_pos_nonneg 2 (e + 5)). simpl in *. lia.
Qed.

Lemma epoch_warmup slot :
  0 <= slot < first_normal_slot s ->
  let e := Z.log2 (slot + 32) - 5 in
  get_epoch_and_slot_index s slot = (e, slot - (2 ^ (e + 5) - 32)) /\
  0 <= e < first_normal_epoch s /\ 2 ^ (e + 5) <= slot + 32 < 2 ^ (e + 6).
Proof.
  intros Hslot e. destruct Hs. pose proof (Z.log2_spec (slot + 32) ltac:(lia)) as Hlog.
  assert (5 <= Z.log2 (slot + 32)) as H5
    by (rewrite <- (Z.log2_pow2 5) by lia; apply Z.log2_le_mono; lia).
  assert (Z.log2 (slot + 32) < first_normal_epoch s + 5) as Hlt.
  { apply Z.log2_lt_pow2; lia. }
  pose proof (Z.pow_le_mono_r 2 (first_normal_epoch s + 5) 63 ltac:(lia) ltac:(lia)).
  assert (e + 5 = Z.log2 (slot + 32)) as He by lia.
  replace (e + 6) with (Z.succ (Z.log2 (slot + 32))) by lia. rewrite He in *.
  split; [|lia]. unfold get_epoch_and_slot_index.
  destruct (Z.ltb_spec slot (first_normal_slot s)); [|lia].
  unfold MINIMUM_SLOTS_PER_EPOCH. change (trailing_zeros 32) with 5. unfold saturating_add.
  rewrite (saturating_small U64 (slot + 32)) by (unfold in_range; simpl in *; lia).
  rewrite (saturating_small U64) by (unfold in_range; simpl in *; lia).
  rewrite trailing_zeros_next by (simpl in *; lia).
  replace (Z.log2_up (slot + 32 + 1)) with (Z.succ (Z.log2 (slot + 32)))
    by (rewrite Z.log2_up_eqn by lia; f_equal; f_equal; lia).
  unfold saturating_sub.
  rewrite (saturating_small U32 (_ - 5)), (saturating_small U32 (_ - 1))
    by (unfold in_range; simpl; lia).
  replace (Z.succ (Z.log2 (slot + 32)) - 5 - 1) with e by lia.
  rewrite (saturating_small U32) by (unfold in_range; simpl; lia). rewrite He.
  unfold saturating_pow. pose proof (Z.pow_le_mono_r 2 5 (Z.log2 (slot + 32)) ltac:(lia) ltac:(lia)).
  rewrite (saturating_small U64 (2 ^ _)) by (unfold in_range; simpl in *; lia).
  rewrite (saturating_small U64 (2 ^ _ - 32)), saturating_small by (unfold in_range; simpl in *; lia).
  done.
Qed.

Lemma first_normal_slot_range : 0 <= first_normal_slot s <= 2 ^ 63.
Proof.
  destruct Hs. pose proof (Z.pow_le_mono_r 2 (first_normal_epoch s + 5) 63 ltac:(lia) ltac:(lia)).
  pose proof (Z.pow_le_mono_r 2 5 (first_normal_epoch s + 5) ltac:(lia) ltac:(lia)). lia.
Qed.

Lemma epoch_normal slot :
  first_normal_slot s <= slot <= int_max U64 ->
  get_epoch_and_slot_index s slot =
    (first_normal_epoch s + (slot - first_normal_slot s) / slots_per_epoch s,
     (slot - first_normal_slot s) mod slots_per_epoch s).
Proof.
  intros Hslot. pose proof first_normal_slot_range. destruct Hs. unfold get_epoch_and_slot_index.
  destruct (Z.ltb_spec slot (first_normal_slot s)); [lia|].
  unfold saturating_sub. rewrite (saturating_small U64 (slot - _)) by (unfold in_range; simpl in *; lia).
  unfold div_or_0, rem_or_0. destruct (Z.eqb_spec (slots_per_epoch s) 0); [lia|].
  pose proof (Z.div_pos (slot - first_normal_slot s) (slots_per_epoch s) ltac:(lia) ltac:(lia)).
  pose proof (Z.div_le_upper_bound (slot - first_normal_slot s) (slots_per_epoch s) (2 ^ 59)
    ltac:(lia) ltac:(simpl in *; lia)).
  unfold saturating_add. rewrite saturating_small by (unfold in_range; simpl in *; lia). done.
Qed.

Lemma first_slot_normal e :
  first_normal_epoch s <= e -> e <= int_max U64 ->
  (e - first_normal_epoch s) * slots_per_epoch s + first_normal_slot s <= int_max U64 ->
  get_first_slot_in_epoch s e =
    (e - first_normal_epoch s) * slots_per_epoch s + first_normal_slot s.
Proof.
  intros He Hmax Hfit. pose proof first_normal_slot_range as Hr.
  destruct (decide (e = first_normal_epoch s)) as [->|Hne].
  { rewrite first_slot_warmup by (destruct Hs; lia). rewrite Z.sub_diag. destruct Hs. lia. }
  destruct Hs. unfold get_first_slot_in_epoch.
  destruct (Z.leb_spec e (first_normal_epoch s)); [lia|].
  assert (0 <= (e - first_normal_epoch s) * slots_per_epoch s) by nia.
  unfold saturating_sub, saturating_mul, saturating_add.
  rewrite (saturating_small U64 (e - _)) by (unfold in_range; simpl in *; lia).
  rewrite (saturating_small U64 (_ * _)) by (unfold in_range; simpl in *; lia).
  apply saturating_small. unfold in_range. simpl in *. lia.
Qed.

Lemma slots_in_epoch_normal e : first_normal_epoch s <= e -> get_slots_in_epoch s e = slots_per_epoch s.
Proof. intros He. unfold get_slots_in_epoch. destruct (Z.ltb_spec e (first_normal_epoch s)); [lia|done]. Qed.

End partition.

(** Every slot lies in the epoch the schedule says it does.  For a schedule
    made by [custom], the index is within the epoch's length and counts from the
    epoch's first slot. *)
Theorem slot_in_its_epoch (spe offset : Z) (w : bool) (s : EpochSchedule) (slot : Slot) :
  spe <= 2 ^ 63 -> custom spe offset w = Ok s -> 0 <= slot <= int_max U64 ->
  let '(epoch, index) := get_epoch_and_slot_index s slot in
  get_first_slot_in_epoch s epoch + index = slot /\
  0 <= index < get_slots_in_epoch s epoch /\ epoch = get_epoch s slot.
Proof.
  intros Hspe Hc Hslot. apply custom_ok in Hc as (Hs & _); [|done]. unfold get_epoch.
  destruct (decide (slot < first_normal_slot s)).
  - destruct (epoch_warmup s Hs slot ltac:(lia)) as (-> & He & Hp). cbn [fst].
    set (e := Z.log2 (slot + 32) - 5) in *.
    rewrite first_slot_warmup, slots_in_epoch_warmup by (done || lia).
    replace (e + 6) with (Z.succ (e + 5)) in Hp by lia. rewrite Z.pow_succ_r in Hp by lia. lia.
  - rewrite epoch_normal by (done || lia). cbn [fst].
    pose proof (first_normal_slot_range s Hs). pose proof (sc_slots s Hs). pose proof (sc_epoch s Hs).
    set (q := (slot - first_normal_slot s) / slots_per_epoch s).
    pose proof (Z.div_mod (slot - first_normal_slot s) (slots_per_epoch s) ltac:(lia)) as Hdm.
    pose proof (Z.mod_pos_bound (slot - first_normal_slot s) (slots_per_epoch s) ltac:(lia)).
    fold q in Hdm. assert (0 <= q <= 2 ^ 59).
    { split; [apply Z.div_pos; lia|]. apply Z.div_le_upper_bound; simpl in *; lia. }
    rewrite first_slot_normal, slots_in_epoch_normal by (done || simpl in *; nia). nia.
Qed.

(** Epochs do not overlap.  A slot counted from the first slot of an epoch,
    within the epoch's length, is in that epoch and at that index. *)
Theorem epoch_of_its_slot (spe offset : Z) (w : bool) (s : EpochSchedule) (epoch index : Z) :
  spe <= 2 ^ 63 -> custom spe offset w = Ok s ->
  0 <= epoch -> 0 <= index < get_slots_in_epoch s epoch ->
  (epoch - first_normal_epoch s + 1) * slots_per_epoch s + first_normal_slot s <= int_max U64 ->
  get_epoch_and_slot_index s (get_first_slot_in_epoch s epoch + index) = (epoch, index).
Proof.
  intros Hspe Hc He Hi Hfit. apply custom_ok in Hc as (Hs & _); [|done].
  pose proof (first_normal_slot_range s Hs). pose proof (sc_slots s Hs). pose proof (sc_epoch s Hs).
  pose proof (sc_slot s Hs) as Hfs.
  destruct (decide (epoch < first_normal_epoch s)).
  - rewrite slots_in_epoch_warmup in Hi by (done || lia). rewrite first_slot_warmup by (done || lia).
    pose proof (Z.pow_le_mono_r 2 (Z.succ (epoch + 5)) (first_normal_epoch s + 5) ltac:(lia) ltac:(lia)) as Hm.
    rewrite Z.pow_succ_r in Hm by lia.
    pose proof (Z.pow_le_mono_r 2 5 (epoch + 5) ltac:(lia) ltac:(lia)) as H5. change (2 ^ 5) with 32 in H5.
    destruct (epoch_warmup s Hs (2 ^ (epoch + 5) - 32 + index) ltac:(lia)) as (-> & _ & _).
    assert (Z.log2 (2 ^ (epoch + 5) - 32 + index + 32) = epoch + 5) as ->.
    { apply Z.log2_unique; [lia|]. rewrite Z.pow_succ_r by lia. lia. }
    f_equal; [lia|]. replace (epoch + 5 - 5 + 5) with (epoch + 5) by lia. lia.
  - rewrite slots_in_epoch_normal in Hi by (done || lia).
    rewrite first_slot_normal, epoch_normal by (done || simpl in *; nia).
    replace (_ + _ + index - first_normal_slot s)
      with (index + (epoch - first_normal_epoch s) * slots_per_epoch s) by lia.
    rewrite Z.div_add, Z.mod_add by lia. rewrite Z.div_small, Z.mod_small by lia. f_equal; lia.
Qed.

Lemma slot_in_its_epoch_witness :
  custom 432000 432000 true = Ok (mkEpochSchedule 432000 432000 true 14 524256) /\
  get_epoch_and_slot_index (mkEpochSchedule 432000 432000 true 14 524256) 1000000 = (15, 43744) /\
  get_first_slot_in_epoch (mkEpochSchedule 432000 432000 true 14 524256) 15 + 43744 = 1000000.
Proof.
  split; [vm_compute; reflexivity|]. split; [vm_compute; reflexivity|].
  refine (proj1 (slot_in_its_epoch 432000 432000 true
    (mkEpochSchedule 432000 432000 true 14 524256) 1000000 _ _ _)); [|vm_compute; reflexivity|].
  - vm_compute. discriminate.
  - split; vm_compute; discriminate.
Defined.

Lemma epoch_of_its_slot_witness :
  get_epoch_and_slot_index (mkEpochSchedule 432000 432000 true 14 524256) (32 + 3) = (1, 3).
Proof.
  refine (epoch_of_its_slot 432000 432000 true (mkEpochSchedule 432000 432000 true 14 524256) 1 3
    _ _ _ _ _); vm_compute; try reflexivity; try (split; discriminate || reflexivity); discriminate.
Defined.
