(* ===== verification/SysvarCache.v ===== *)
(** * The sysvar cache (program-runtime/src/sysvar_cache.rs)

    The sysvars a program can read, as the runtime keeps them, and the accessors
    that still ask for the sysvar's account to be passed.  [get_account_data] of
    [fill_missing_entries] is a callback of the caller: it is modelled by the
    list of byte strings it hands to the closure it is given for a key. *)

From S2P Require Import Prelude Errors Rent Account Sysvars EpochSchedule TransactionContext.

Record SysvarCache := mkSysvarCache {
  cache_clock : option Clock;
  cache_epoch_schedule : option EpochSchedule;
  cache_epoch_rewards : option EpochRewards;
  cache_fees : option Fees;
  cache_rent : option Rent;
  cache_slot_hashes : option SlotHashes.SlotHashes;
  cache_recent_blockhashes : option RecentBlockhashes.RecentBlockhashes;
  cache_stake_history : option StakeHistory.StakeHistory;
  cache_last_restart_slot : option LastRestartSlot;
}.

Definition SysvarCache_default : SysvarCache :=
  mkSysvarCache None None None None None None None None None.

(** ** Getters and setters *)

Definition get_clock (self : SysvarCache) : Res Clock :=
  ok_or UnsupportedSysvar (cache_clock self).

Definition get_epoch_schedule (self : SysvarCache) : Res EpochSchedule :=
  ok_or UnsupportedSysvar (cache_epoch_schedule self).

Definition get_epoch_rewards (self : SysvarCache) : Res EpochRewards :=
  ok_or UnsupportedSysvar (cache_epoch_rewards self).

Definition get_fees (self : SysvarCache) : Res Fees :=
  ok_or UnsupportedSysvar (cache_fees self).

Definition get_rent (self : SysvarCache) : Res Rent :=
  ok_or UnsupportedSysvar (cache_rent self).

Definition get_slot_hashes (self : SysvarCache) : Res SlotHashes.SlotHashes :=
  ok_or UnsupportedSysvar (cache_slot_hashes self).

Definition get_recent_blockhashes (self : SysvarCache) : Res RecentBlockhashes.RecentBlockhashes :=
  ok_or UnsupportedSysvar (cache_recent_blockhashes self).

Definition get_stake_history (self : SysvarCache) : Res StakeHistory.StakeHistory :=
  ok_or UnsupportedSysvar (cache_stake_history self).

Definition get_last_restart_slot (self : SysvarCache) : Res LastRestartSlot :=
  ok_or UnsupportedSysvar (cache_last_restart_slot self).

Definition set_clock (clock : Clock) (self : SysvarCache) : SysvarCache :=
  mkSysvarCache
    (Some clock) (cache_epoch_schedule self) (cache_epoch_rewards self) (cache_fees
    self) (cache_rent self) (cache_slot_hashes self) (cache_recent_blockhashes self)
    (cache_stake_history self) (cache_last_restart_slot self).

Definition set_epoch_schedule (epoch_schedule : EpochSchedule) (self : SysvarCache) : SysvarCache :=
  mkSysvarCache
    (cache_clock self) (Some epoch_schedule) (cache_epoch_rewards self) (cache_fees
    self) (cache_rent self) (cache_slot_hashes self) (cache_recent_blockhashes self)
    (cache_stake_history self) (cache_last_restart_slot self).

Definition set_epoch_rewards (epoch_rewards : EpochRewards) (self : SysvarCache) : SysvarCache :=
  mkSysvarCache
    (cache_clock self) (cache_epoch_schedule self) (Some epoch_rewards) (cache_fees
    self) (cache_rent self) (cache_slot_hashes self) (cache_recent_blockhashes self)
    (cache_stake_history self) (cache_last_restart_slot self).

Definition set_fees (fees : Fees) (self : SysvarCache) : SysvarCache :=
  mkSysvarCache
    (cache_clock self) (cache_epoch_schedule self) (cache_epoch_rewards self) (Some
    fees) (cache_rent self) (cache_slot_hashes self) (cache_recent_blockhashes self)
    (cache_stake_history self) (cache_last_restart_slot self).

Definition set_rent (rent : Rent) (self : SysvarCache) : SysvarCache :=
  mkSysvarCache
    (cache_clock self) (cache_epoch_schedule self) (cache_epoch_rewards self)
    (cache_fees self) (Some rent) (cache_slot_hashes self) (cache_recent_blockhashes
    self) (cache_stake_history self) (cache_last_restart_slot self).

Definition set_slot_hashes (slot_hashes : SlotHashes.SlotHashes) (self : SysvarCache) : SysvarCache :=
  mkSysvarCache
    (cache_clock self) (cache_epoch_schedule self) (cache_epoch_rewards self)
    (cache_fees self) (cache_rent self) (Some slot_hashes) (cache_recent_blockhashes
    self) (cache_stake_history self) (cache_last_restart_slot self).

Definition set_recent_blockhashes (recent_blockhashes : RecentBlockhashes.RecentBlockhashes) (self : SysvarCache) : SysvarCache :=
  mkSysvarCache
    (cache_clock self) (cache_epoch_schedule self) (cache_epoch_rewards self)
    (cache_fees self) (cache_rent self) (cache_slot_hashes self) (Some
    recent_blockhashes) (cache_stake_history self) (cache_last_restart_slot self).

Definition set_stake_history (stake_history : StakeHistory.StakeHistory) (self : SysvarCache) : SysvarCache :=
  mkSysvarCache
    (cache_clock self) (cache_epoch_schedule self) (cache_epoch_rewards self)
    (cache_fees self) (cache_rent self) (cache_slot_hashes self)
    (cache_recent_blockhashes self) (Some stake_history) (cache_last_restart_slot self).

Definition set_last_restart_slot (last_restart_slot : LastRestartSlot) (self : SysvarCache) : SysvarCache :=
  mkSysvarCache
    (cache_clock self) (cache_epoch_schedule self) (cache_epoch_rewards self)
    (cache_fees self) (cache_rent self) (cache_slot_hashes self)
    (cache_recent_blockhashes self) (cache_stake_history self) (Some last_restart_slot).

Definition reset (self : SysvarCache) : SysvarCache := SysvarCache_default.

(** ** Filling the cache *)

(** The closure handed to [get_account_data]: it stores what it can decode. *)
Definition store {T} `{!Bincode T} (set : T -> SysvarCache -> SysvarCache)
    (self : SysvarCache) (data : Bytes) : SysvarCache :=
  match bincode_deserialize data with
  | Some x => set x self
  | None => self
  end.

Definition fill {T} `{!Bincode T} (get : SysvarCache -> option T)
    (set : T -> SysvarCache -> SysvarCache) (datas : list Bytes) (self : SysvarCache)
  : SysvarCache :=
  match get self with
  | Some _ => self
  | None => foldl (store set) self datas
  end.

Section fill.
Context `{!ProgramIds}.
Context `{!Bincode Clock} `{!Bincode EpochSchedule} `{!Bincode EpochRewards} `{!Bincode Fees} `{!Bincode Rent}
  `{!Bincode SlotHashes.SlotHashes} `{!Bincode RecentBlockhashes.RecentBlockhashes}
  `{!Bincode StakeHistory.StakeHistory} `{!Bincode LastRestartSlot}.
Context (get_account_data : Pubkey -> list Bytes).

Definition fill_missing_entries (self : SysvarCache) : SysvarCache :=
  let self := fill cache_clock set_clock (get_account_data sysvar_clock_id) self in
  let self := fill cache_epoch_schedule set_epoch_schedule (get_account_data sysvar_epoch_schedule_id) self in
  let self := fill cache_epoch_rewards set_epoch_rewards (get_account_data sysvar_epoch_rewards_id) self in
  let self := fill cache_fees set_fees (get_account_data sysvar_fees_id) self in
  let self := fill cache_rent set_rent (get_account_data sysvar_rent_id) self in
  let self := fill cache_slot_hashes set_slot_hashes (get_account_data sysvar_slot_hashes_id) self in
  let self := fill cache_recent_blockhashes set_recent_blockhashes (get_account_data sysvar_recent_blockhashes_id) self in
  let self := fill cache_stake_history set_stake_history (get_account_data sysvar_stake_history_id) self in
  let self := fill cache_last_restart_slot set_last_restart_slot (get_account_data sysvar_last_restart_slot_id) self in
  self.

End fill.

(** ** Access with an account check *)

Module get_sysvar_with_account_check.

(** [check_sysvar_account::<S>], with [S::id()] as an argument. *)
Definition check_sysvar_account (id : Pubkey) (ic : InstructionContext)
    (instruction_account_index : IndexOfAccount) (tc : TransactionContext) : Res unit :=
  let! index := get_index_of_instruction_account_in_transaction ic instruction_account_index in
  let! key := get_key_of_account_at_index index tc in
  if bool_decide (key = id) then Ok tt else Err InvalidArgument.

Section accessors.
Context `{!ProgramIds}.
Context (cache : SysvarCache) (ic : InstructionContext) (i : IndexOfAccount)
  (tc : TransactionContext).

Definition clock : Res Clock :=
  let! _unused := check_sysvar_account sysvar_clock_id ic i tc in
  get_clock cache.

Definition rent : Res Rent :=
  let! _unused := check_sysvar_account sysvar_rent_id ic i tc in
  get_rent cache.

Definition slot_hashes : Res SlotHashes.SlotHashes :=
  let! _unused := check_sysvar_account sysvar_slot_hashes_id ic i tc in
  get_slot_hashes cache.

Definition recent_blockhashes : Res RecentBlockhashes.RecentBlockhashes :=
  let! _unused := check_sysvar_account sysvar_recent_blockhashes_id ic i tc in
  get_recent_blockhashes cache.

Definition stake_history : Res StakeHistory.StakeHistory :=
  let! _unused := check_sysvar_account sysvar_stake_history_id ic i tc in
  get_stake_history cache.

Definition last_restart_slot : Res LastRestartSlot :=
  let! _unused := check_sysvar_account sysvar_last_restart_slot_id ic i tc in
  get_last_restart_slot cache.

End accessors.
End get_sysvar_with_account_check.

(** ** What filling does *)

(** The last byte string that decodes. *)
Definition last_decoded {T} `{!Bincode T} (datas : list Bytes) : option T :=
  list.last (omap bincode_deserialize datas).

(** An entry that is present stays; a missing one is what was last decoded. *)
Definition fill_entry {T} `{!Bincode T} (entry : option T) (datas : list Bytes) : option T :=
  match entry with Some x => Some x | None => last_decoded datas end.

Lemma foldl_store {T} `{!Bincode T} (set : T -> SysvarCache -> SysvarCache)
    (K : option T -> SysvarCache) (o : option T) datas :
  (forall x o', set x (K o') = K (Some x)) ->
  foldl (store set) (K o) datas =
    K (match last_decoded datas with Some x => Some x | None => o end).
Proof.
  intros HK. revert o. unfold last_decoded. induction datas as [|d datas IH]; intros o; simpl; [done|].
  unfold store at 2. destruct (bincode_deserialize d) as [x|]; [|apply IH].
  rewrite HK, IH. rewrite last_cons. by destruct (list.last _).
Qed.

Lemma fill_spec {T} `{!Bincode T} (get : SysvarCache -> option T)
    (set : T -> SysvarCache -> SysvarCache) (K : option T -> SysvarCache) (o : option T) datas :
  (forall o', get (K o') = o') -> (forall x o', set x (K o') = K (Some x)) ->
  fill get set datas (K o) = K (fill_entry o datas).
Proof.
  intros Hg HK. unfold fill, fill_entry. rewrite Hg. destruct o; [done|].
  rewrite foldl_store by done. by destruct (last_decoded datas).
Qed.

(** Filling the cache keeps every entry that is there and takes for each
    missing one the account data that was last decoded, if any; the order in which
    the sysvars are filled does not matter to the result. *)
Theorem fill_missing_entries_spec `{!ProgramIds} `{!Bincode Clock} `{!Bincode EpochSchedule} `{!Bincode EpochRewards} `{!Bincode Fees}
    `{!Bincode Rent} `{!Bincode SlotHashes.SlotHashes}
    `{!Bincode RecentBlockhashes.RecentBlockhashes} `{!Bincode StakeHistory.StakeHistory}
    `{!Bincode LastRestartSlot}
    (get_account_data : Pubkey -> list Bytes) (self : SysvarCache) :
  fill_missing_entries get_account_data self =
  mkSysvarCache
    (fill_entry (cache_clock self) (get_account_data sysvar_clock_id))
    (fill_entry (cache_epoch_schedule self) (get_account_data sysvar_epoch_schedule_id))
    (fill_entry (cache_epoch_rewards self) (get_account_data sysvar_epoch_rewards_id))
    (fill_entry (cache_fees self) (get_account_data sysvar_fees_id))
    (fill_entry (cache_rent self) (get_account_data sysvar_rent_id))
    (fill_entry (cache_slot_hashes self) (get_account_data sysvar_slot_hashes_id))
    (fill_entry (cache_recent_blockhashes self) (get_account_data sysvar_recent_blockhashes_id))
    (fill_entry (cache_stake_history self) (get_account_data sysvar_stake_history_id))
    (fill_entry (cache_last_restart_slot self) (get_account_data sysvar_last_restart_slot_id)).
Proof.
  destruct self as [a b c d e f g h i]. unfold fill_missing_entries. cbv zeta.
  rewrite (fill_spec cache_clock set_clock (fun x => mkSysvarCache x _ _ _ _ _ _ _ _)) by done.
  rewrite (fill_spec cache_epoch_schedule set_epoch_schedule (fun x => mkSysvarCache _ x _ _ _ _ _ _ _)) by done.
  rewrite (fill_spec cache_epoch_rewards set_epoch_rewards (fun x => mkSysvarCache _ _ x _ _ _ _ _ _)) by done.
  rewrite (fill_spec cache_fees set_fees (fun x => mkSysvarCache _ _ _ x _ _ _ _ _)) by done.
  rewrite (fill_spec cache_rent set_rent (fun x => mkSysvarCache _ _ _ _ x _ _ _ _)) by done.
  rewrite (fill_spec cache_slot_hashes set_slot_hashes (fun x => mkSysvarCache _ _ _ _ _ x _ _ _)) by done.
  rewrite (fill_spec cache_recent_blockhashes set_recent_blockhashes (fun x => mkSysvarCache _ _ _ _ _ _ x _ _)) by done.
  rewrite (fill_spec cache_stake_history set_stake_history (fun x => mkSysvarCache _ _ _ _ _ _ _ x _)) by done.
  rewrite (fill_spec cache_last_restart_slot set_last_restart_slot (fun x => mkSysvarCache _ _ _ _ _ _ _ _ x)) by done.
  done.
Qed.
