(* ===== verification/FeatureSet.v ===== *)
(** * Runtime features (sdk/src/feature_set.rs)

    The set of active features.  A feature is known by its address, which is a
    constant the source parses from base58: the addresses the modelled programs
    ask for are a type class, as those of [ProgramIds] are. *)

From S2P Require Import Prelude Errors Rent Account EpochSchedule.

Record FeatureSet := mkFeatureSet {
  active : gmap Pubkey Slot;
  inactive : gset Pubkey;
}.

Definition is_active (self : FeatureSet) (feature_id : Pubkey) : bool :=
  bool_decide (is_Some (active self !! feature_id)).

Definition activated_slot (self : FeatureSet) (feature_id : Pubkey) : option Slot :=
  active self !! feature_id.

Definition activate (feature_id : Pubkey) (slot : Slot) (self : FeatureSet) : FeatureSet :=
  mkFeatureSet (<[feature_id := slot]> (active self)) (inactive self ∖ {[feature_id]}).

Definition deactivate (feature_id : Pubkey) (self : FeatureSet) : FeatureSet :=
  mkFeatureSet (delete feature_id (active self)) ({[feature_id]} ∪ inactive self).

Class FeatureIds := {
  vote_state_add_vote_latency : Pubkey;
  timely_vote_credits_id : Pubkey;
  deprecate_unused_legacy_vote_plumbing_id : Pubkey;
  allow_commission_decrease_at_any_time : Pubkey;
  commission_updates_only_allowed_in_first_half_of_epoch : Pubkey;
  stake_redelegate_instruction : Pubkey;
  reduce_stake_warmup_cooldown : Pubkey;
  stake_raise_minimum_delegation_to_1_sol : Pubkey;
  relax_authority_signer_check_for_lookup_table_creation : Pubkey;
}.

Definition new_warmup_cooldown_rate_epoch `{!FeatureIds} (self : FeatureSet)
    (epoch_schedule : EpochSchedule) : option Epoch :=
  get_epoch epoch_schedule <$> activated_slot self reduce_stake_warmup_cooldown.
