(* ===== verification/Nonce.v ===== *)
(** * Durable nonces (sdk/program/src/nonce/state, sdk/src/nonce_account.rs)

    The state of a nonce account and what can be done to it outside an
    instruction: verifying the blockhash of a transaction against it, moving a
    legacy nonce to its own hash domain, and handing it to a new authority. *)

From S2P Require Import Prelude Errors Rent Account Pubkey Sysvars.

(** ** State (current.rs) *)

Abbreviation DurableNonce := Hash.

(** "DURABLE_NONCE" *)
Definition DURABLE_NONCE_HASH_PREFIX : Bytes := [68; 85; 82; 65; 66; 76; 69; 95; 78; 79; 78; 67; 69].

Record Data := mkData {
  authority : Pubkey;
  durable_nonce : DurableNonce;
  fee_calculator : FeeCalculator;
}.

Definition Data_new (authority : Pubkey) (durable_nonce : DurableNonce)
    (lamports_per_signature : Z) : Data :=
  mkData authority durable_nonce (FeeCalculator_new lamports_per_signature).

Definition blockhash (self : Data) : Hash := durable_nonce self.
Definition get_lamports_per_signature (self : Data) : Z :=
  lamports_per_signature (fee_calculator self).

Definition from_blockhash `{!Hashing} (blockhash : Hash) : DurableNonce :=
  hashv [DURABLE_NONCE_HASH_PREFIX; blockhash].

Inductive State : Type :=
| Uninitialized
| Initialized (data : Data).

Definition new_initialized (authority : Pubkey) (durable_nonce : DurableNonce)
    (lamports_per_signature : Z) : State :=
  Initialized (Data_new authority durable_nonce lamports_per_signature).

Definition State_size : Z := 80.

(** ** Versions (mod.rs) *)

Inductive Versions : Type :=
| Legacy (s : State)
| Current (s : State).

Inductive AuthorizeNonceError : Type :=
| NonceMissingRequiredSignature (account_authority : Pubkey)
| NonceUninitialized.

Definition Versions_new (state : State) : Versions := Current state.

Definition state (self : Versions) : State :=
  match self with Legacy s => s | Current s => s end.

Definition verify_recent_blockhash (self : Versions) (recent_blockhash : Hash) : option Data :=
  match self with
  | Legacy _ => None
  | Current s =>
      match s with
      | Uninitialized => None
      | Initialized data =>
          if bool_decide (recent_blockhash = blockhash data) then Some data else None
      end
  end.

Definition upgrade `{!Hashing} (self : Versions) : option Versions :=
  match self with
  | Legacy s =>
      match s with
      | Uninitialized => None
      | Initialized data =>
          Some (Current (Initialized
            (mkData (authority data) (from_blockhash (blockhash data)) (fee_calculator data))))
      end
  | Current _ => None
  end.

Definition authorize (self : Versions) (signers : gset Pubkey) (new_authority : Pubkey)
  : Outcome AuthorizeNonceError Versions :=
  match state self with
  | Uninitialized => Err NonceUninitialized
  | Initialized data =>
      if decide (authority data ∈ signers) then
        let data := Data_new new_authority (durable_nonce data) (get_lamports_per_signature data) in
        let state := Initialized data in
        Ok (match self with Legacy _ => Legacy state | Current _ => Current state end)
      else Err (NonceMissingRequiredSignature (authority data))
  end.

Definition State_from (versions : Versions) : State :=
  match versions with Legacy s => s | Current s => s end.

(** ** Nonce accounts (nonce_account.rs) *)

Section nonce_account.
Context `{!ProgramIds, !Bincode Versions}.

(** [create_account]; [expect] panics if the state cannot be written. *)
Definition create_nonce_account (lamports : Z) : Outcome Empty_set AccountSharedData :=
  unwrap (shared_new_data_with_space lamports (Versions_new Uninitialized) State_size
            system_program_id).

Definition verify_nonce_account (account : AccountSharedData) (recent_blockhash : Hash)
  : option Data :=
  if bool_decide (acc_owner account = system_program_id) then
    versions ← shared_deserialize_data account;
    verify_recent_blockhash versions recent_blockhash
  else None.

Definition lamports_per_signature_of (account : AccountSharedData) : option Z :=
  versions ← shared_deserialize_data account;
  match state versions with
  | Initialized data => Some (get_lamports_per_signature data)
  | Uninitialized => None
  end.

End nonce_account.

(** ** bincode's layout of [Versions]

    The instance used to evaluate the definitions: [u32] variant tags and the
    fields in order. *)

Definition wf_key (k : Bytes) : bool := (length k =? 32)%nat.
Definition wf_u64 (z : Z) : bool := bool_decide (in_range U64 z).

Definition encode_State (s : State) : option Bytes :=
  match s with
  | Uninitialized => Some (le_bytes 4 0)
  | Initialized d =>
      if wf_key (authority d) && wf_key (durable_nonce d) && wf_u64 (get_lamports_per_signature d)
      then Some (le_bytes 4 1 ++ authority d ++ durable_nonce d
                   ++ le_bytes 8 (get_lamports_per_signature d))
      else None
  end.

Definition encode_Versions (v : Versions) : option Bytes :=
  match v with
  | Legacy s => (fun bs => le_bytes 4 0 ++ bs) <$> encode_State s
  | Current s => (fun bs => le_bytes 4 1 ++ bs) <$> encode_State s
  end.

(** Reads [n] bytes. *)
Definition split_bytes (n : nat) (bs : Bytes) : option (Bytes * Bytes) :=
  if (n <=? length bs)%nat then Some (take n bs, drop n bs) else None.

Definition decode_State (bs : Bytes) : option State :=
  '(tag, bs) ← split_bytes 4 bs;
  if of_le_bytes tag =? 0 then Some Uninitialized
  else if of_le_bytes tag =? 1 then
    '(auth, bs) ← split_bytes 32 bs;
    '(nonce, bs) ← split_bytes 32 bs;
    '(fee, _) ← split_bytes 8 bs;
    Some (Initialized (Data_new auth nonce (of_le_bytes fee)))
  else None.

Definition decode_Versions (bs : Bytes) : option Versions :=
  '(tag, bs) ← split_bytes 4 bs;
  if of_le_bytes tag =? 0 then Legacy <$> decode_State bs
  else if of_le_bytes tag =? 1 then Current <$> decode_State bs
  else None.

Definition Versions_bincode : Bincode Versions :=
  {| bincode_serialize := encode_Versions; bincode_deserialize := decode_Versions |}.

Lemma split_bytes_app n bs rest : length bs = n -> split_bytes n (bs ++ rest) = Some (bs, rest).
Proof.
  intros <-. unfold split_bytes. rewrite length_app.
  destruct (Nat.leb_spec (length bs) (length bs + length rest)); [|lia].
  by rewrite take_app_length, drop_app_length.
Qed.

#[local] Arguments le_bytes : simpl never.
#[local] Arguments of_le_bytes : simpl never.
#[local] Arguments split_bytes : simpl never.

Lemma decode_encode_State s bs rest : encode_State s = Some bs -> decode_State (bs ++ rest) = Some s.
Proof.
  destruct s as [|[auth nonce [fee]]]; intros H; unfold encode_State in H; [by simplify_eq|].
  cbn [authority durable_nonce] in H.
  destruct (wf_key auth) eqn:Ha; [|done]. destruct (wf_key nonce) eqn:Hn; [|done].
  destruct (wf_u64 _) eqn:Hf; [|done]. apply (inj Some) in H. subst bs.
  apply Nat.eqb_eq in Ha, Hn. apply bool_decide_eq_true in Hf. unfold in_range in Hf. simpl in Hf.
  unfold decode_State. rewrite <- !app_assoc, (split_bytes_app 4 (le_bytes 4 1)) by done. cbn [mbind option_bind].
  change (of_le_bytes (le_bytes 4 1)) with 1. cbn [Z.eqb Pos.eqb].
  rewrite (split_bytes_app 32 auth) by done. cbn [mbind option_bind].
  rewrite (split_bytes_app 32 nonce) by done. cbn [mbind option_bind].
  rewrite (split_bytes_app 8) by apply length_le_bytes. cbn [mbind option_bind].
  rewrite of_le_bytes_le_bytes by (unfold get_lamports_per_signature in *; simpl in *; lia). done.
Qed.

Lemma Versions_bincode_ok : @BincodeOk Versions Versions_bincode.
Proof.
  intros v bs rest H. change (encode_Versions v = Some bs) in H.
  change (decode_Versions (bs ++ rest) = Some v).
  destruct v as [s|s]; unfold encode_Versions in H;
    apply fmap_Some in H as (bs' & Hbs & ->); unfold decode_Versions;
    rewrite <- app_assoc, (split_bytes_app 4) by done; cbn [mbind option_bind].
  - change (of_le_bytes (le_bytes 4 0)) with 0. simpl. by rewrite (decode_encode_State s).
  - change (of_le_bytes (le_bytes 4 1)) with 1. simpl. by rewrite (decode_encode_State s).
Qed.

(** [State::size] is the length of an initialized state (the code's golden value). *)
Lemma encoded_size s v bs : v = Legacy s \/ v = Current s -> encode_Versions v = Some bs ->
  s <> Uninitialized -> vec_len bs = State_size.
Proof.
  intros Hv H Hs. destruct s as [|d]; [done|].
  assert (exists tag bs', length tag = 4%nat /\ bs = tag ++ bs' /\ encode_State (Initialized d) = Some bs')
    as (tag & bs' & Ht & -> & Hb).
  { destruct Hv as [-> | ->]; unfold encode_Versions in H; apply fmap_Some in H as (bs' & Hbs & ->);
      by eexists _, bs'; split; [|split; [reflexivity|]]. }
  unfold encode_State in Hb. destruct (_ && _) eqn:Hw; [|done]. apply (inj Some) in Hb. subst bs'.
  apply andb_true_iff in Hw as [[Ha%Nat.eqb_eq Hn%Nat.eqb_eq]%andb_true_iff _].
  unfold vec_len. rewrite !length_app, !length_le_bytes, Ha, Hn, Ht. done.
Qed.
