(* ===== verification/SystemProgram.v ===== *)
(** * The system program (programs/system/src)

    Creates accounts, gives them space and an owner, moves lamports and manages
    durable nonces.  Each handler of system_processor.rs and
    system_instruction.rs is a method on the transaction context; the entrypoint
    decodes the instruction and dispatches. *)

From S2P Require Import Prelude Errors Rent Account Pubkey Sysvars EpochSchedule Nonce TransactionContext SysvarCache FeatureSet.

(** ** Instructions (sdk/program/src/system_instruction.rs) *)

Inductive SystemInstruction : Type :=
| CreateAccount (lamports space : Z) (owner : Pubkey)
| Assign (owner : Pubkey)
| Transfer (lamports : Z)
| CreateAccountWithSeed (base : Pubkey) (seed : Bytes) (lamports space : Z) (owner : Pubkey)
| AdvanceNonceAccount
| WithdrawNonceAccount (lamports : Z)
| InitializeNonceAccount (authorized : Pubkey)
| AuthorizeNonceAccount (nonce_authority : Pubkey)
| Allocate (space : Z)
| AllocateWithSeed (base : Pubkey) (seed : Bytes) (space : Z) (owner : Pubkey)
| AssignWithSeed (base : Pubkey) (seed : Bytes) (owner : Pubkey)
| TransferWithSeed (lamports : Z) (from_seed : Bytes) (from_owner : Pubkey)
| UpgradeNonceAccount.

(** The values of the type: [u64] amounts and 32-byte keys. *)
Definition system_instruction_wf (instruction : SystemInstruction) : Prop :=
  match instruction with
  | CreateAccount lamports space owner =>
      in_range U64 lamports /\ in_range U64 space /\ pubkey_wf owner
  | Assign owner => pubkey_wf owner
  | Transfer lamports => in_range U64 lamports
  | CreateAccountWithSeed base _ lamports space owner =>
      pubkey_wf base /\ in_range U64 lamports /\ in_range U64 space /\ pubkey_wf owner
  | AdvanceNonceAccount | UpgradeNonceAccount => True
  | WithdrawNonceAccount lamports => in_range U64 lamports
  | InitializeNonceAccount key | AuthorizeNonceAccount key => pubkey_wf key
  | Allocate space => in_range U64 space
  | AllocateWithSeed base _ space owner => pubkey_wf base /\ in_range U64 space /\ pubkey_wf owner
  | AssignWithSeed base _ owner => pubkey_wf base /\ pubkey_wf owner
  | TransferWithSeed lamports _ owner => in_range U64 lamports /\ pubkey_wf owner
  end.

(** ** What the program reads of the invoke context *)

Record Environment := mkEnvironment {
  env_blockhash : Hash;
  env_lamports_per_signature : Z;
  env_sysvar_cache : SysvarCache;
  env_feature_set : FeatureSet;
  env_logging : bool;
}.

(** [ic_msg!]: the arguments are evaluated when the message is formatted, for
    the debug log or for a log collector; [env_logging] says whether it is. *)
Definition ic_msg {A} (env : Environment) (args : TxM A) : TxM unit :=
  if env_logging env then args ;? ret tt else ret tt.

(** [return Err(..)] after logging a message that mentions the account's key. *)
Definition fail_with_key {A} (env : Environment) (account : BorrowedAccount)
    (e : InstructionError) : TxM A :=
  ic_msg env (query (get_key account)) ;? fail e.

(** [checked_add] of sdk/program/src/instruction.rs *)
Definition instruction_checked_add (a b : Z) : Res Z :=
  ok_or InsufficientFunds (checked_add U64 a b).

Section system.
Context `{!Hashing, !ProgramIds}.
Context `{!Bincode Versions, !BincodeLimited SystemInstruction}.

(** ** Addresses *)

Record Address := mkAddress { address : Pubkey; base : option Pubkey }.

Definition Address_is_signer (self : Address) (signers : gset Pubkey) : bool :=
  match base self with
  | Some base => bool_decide (base ∈ signers)
  | None => bool_decide (address self ∈ signers)
  end.

Definition Address_create (address : Pubkey) (with_seed : option (Pubkey * Bytes * Pubkey))
  : Res Address :=
  let! base :=
    match with_seed with
    | Some (base, seed, owner) =>
        let! address_with_seed := map_err PubkeyError.into (create_with_seed base seed owner) in
        if bool_decide (address = address_with_seed) then Ok (Some base)
        else Err (SystemError.into SystemError.AddressWithSeedMismatch)
    | None => Ok None
    end in
  Ok (mkAddress address base).

(** ** Allocation and assignment *)

Definition allocate (account : BorrowedAccount) (address : Address) (space : Z)
    (signers : gset Pubkey) : TxM unit :=
  if Address_is_signer address signers then
    let? acc := query (borrowed account) in
    if negb (vec_len (acc_data acc) =? 0) || negb (bool_decide (acc_owner acc = system_program_id))
    then fail (SystemError.into SystemError.AccountAlreadyInUse)
    else if MAX_PERMITTED_DATA_LENGTH <? space
    then fail (SystemError.into SystemError.InvalidAccountDataLength)
    else set_data_length account space
  else fail MissingRequiredSignature.

Definition assign (account : BorrowedAccount) (address : Address) (owner : Pubkey)
    (signers : gset Pubkey) : TxM unit :=
  let? acc := query (borrowed account) in
  if bool_decide (acc_owner acc = owner) then ret tt
  else if Address_is_signer address signers then set_owner account owner
  else fail MissingRequiredSignature.

Definition allocate_and_assign (to : BorrowedAccount) (to_address : Address) (space : Z)
    (owner : Pubkey) (signers : gset Pubkey) : TxM unit :=
  allocate to to_address space signers ;?
  assign to to_address owner signers.

(** ** Transfers *)

Definition transfer_verified (ic : InstructionContext) (from_account_index to_account_index : Z)
    (lamports : Z) : TxM unit :=
  borrowing (try_borrow_instruction_account ic from_account_index) (fun from =>
    let? acc := query (borrowed from) in
    if negb (vec_len (acc_data acc) =? 0) then fail InvalidArgument
    else if acc_lamports acc <? lamports
    then fail (SystemError.into SystemError.ResultWithNegativeLamports)
    else checked_sub_lamports from lamports) ;?
  borrowing (try_borrow_instruction_account ic to_account_index) (fun to =>
    checked_add_lamports to lamports).

(** [transaction_context.get_key_of_account_at_index(
       instruction_context.get_index_of_instruction_account_in_transaction(i)?)?] *)
Definition key_of_instruction_account (ic : InstructionContext) (i : IndexOfAccount)
    (tc : TransactionContext) : Res Pubkey :=
  let! index := get_index_of_instruction_account_in_transaction ic i in
  get_key_of_account_at_index index tc.

Definition transfer (env : Environment) (ic : InstructionContext)
    (from_account_index to_account_index : Z) (lamports : Z) : TxM unit :=
  let? signed := lift (is_instruction_account_signer ic from_account_index) in
  if signed then transfer_verified ic from_account_index to_account_index lamports
  else
    ic_msg env (query (key_of_instruction_account ic from_account_index)) ;?
    fail MissingRequiredSignature.

Definition transfer_with_seed (env : Environment) (ic : InstructionContext)
    (from_account_index from_base_account_index : Z) (from_seed : Bytes) (from_owner : Pubkey)
    (to_account_index : Z) (lamports : Z) : TxM unit :=
  let? signed := lift (is_instruction_account_signer ic from_base_account_index) in
  if signed then
    let? base_key := query (key_of_instruction_account ic from_base_account_index) in
    let? address_from_seed :=
      lift (map_err PubkeyError.into (create_with_seed base_key from_seed from_owner)) in
    let? from_key := query (key_of_instruction_account ic from_account_index) in
    if bool_decide (from_key = address_from_seed)
    then transfer_verified ic from_account_index to_account_index lamports
    else fail (SystemError.into SystemError.AddressWithSeedMismatch)
  else
    ic_msg env (query (key_of_instruction_account ic from_base_account_index)) ;?
    fail MissingRequiredSignature.

Definition create_account (env : Environment) (ic : InstructionContext)
    (from_account_index to_account_index : Z) (to_address : Address) (lamports space : Z)
    (owner : Pubkey) (signers : gset Pubkey) : TxM unit :=
  borrowing (try_borrow_instruction_account ic to_account_index) (fun to =>
    let? acc := query (borrowed to) in
    if 0 <? acc_lamports acc then fail (SystemError.into SystemError.AccountAlreadyInUse)
    else allocate_and_assign to to_address space owner signers) ;?
  transfer env ic from_account_index to_account_index lamports.

(** ** Nonce accounts (system_instruction.rs) *)

Definition advance_nonce_account (env : Environment) (account : BorrowedAccount)
    (signers : gset Pubkey) : TxM unit :=
  if is_writable account then
    let? versions := get_state account in
    match state versions with
    | Initialized data =>
        if decide (authority data ∈ signers) then
          let next_durable_nonce := from_blockhash (env_blockhash env) in
          if bool_decide (durable_nonce data = next_durable_nonce)
          then fail (SystemError.into SystemError.NonceBlockhashNotExpired)
          else
            let new_data := Data_new (authority data) next_durable_nonce
                              (env_lamports_per_signature env) in
            set_state account (Versions_new (Initialized new_data))
        else fail MissingRequiredSignature
    | Uninitialized => fail_with_key env account InvalidAccountData
    end
  else fail_with_key env account InvalidArgument.

(** The account that must sign a withdrawal; a withdrawal of everything closes
    the nonce. *)
Definition withdraw_signer (env : Environment) (from : BorrowedAccount) (lamports : Z)
    (rent : Rent) : TxM Pubkey :=
  let? versions := get_state from in
  let? acc := query (borrowed from) in
  match state versions with
  | Uninitialized =>
      if acc_lamports acc <? lamports then fail InsufficientFunds else query (get_key from)
  | Initialized data =>
      (if lamports =? acc_lamports acc then
         if bool_decide (durable_nonce data = from_blockhash (env_blockhash env))
         then fail (SystemError.into SystemError.NonceBlockhashNotExpired)
         else set_state from (Versions_new Uninitialized)
       else
         let min_balance := minimum_balance rent (vec_len (acc_data acc)) in
         let? amount := lift (instruction_checked_add lamports min_balance) in
         if acc_lamports acc <? amount then fail InsufficientFunds else ret tt) ;?
      ret (authority data)
  end.

Definition withdraw_nonce_account (env : Environment) (ic : InstructionContext)
    (from_account_index : Z) (lamports : Z) (to_account_index : Z) (rent : Rent)
    (signers : gset Pubkey) : TxM unit :=
  borrowing (try_borrow_instruction_account ic from_account_index) (fun from =>
    if is_writable from then
      let? signer := withdraw_signer env from lamports rent in
      if decide (signer ∈ signers) then checked_sub_lamports from lamports
      else fail MissingRequiredSignature
    else fail_with_key env from InvalidArgument) ;?
  borrowing (try_borrow_instruction_account ic to_account_index) (fun to =>
    checked_add_lamports to lamports).

Definition initialize_nonce_account (env : Environment) (account : BorrowedAccount)
    (nonce_authority : Pubkey) (rent : Rent) : TxM unit :=
  if is_writable account then
    let? versions := get_state account in
    match state versions with
    | Uninitialized =>
        let? acc := query (borrowed account) in
        let min_balance := minimum_balance rent (vec_len (acc_data acc)) in
        if acc_lamports acc <? min_balance then fail InsufficientFunds
        else
          let durable_nonce := from_blockhash (env_blockhash env) in
          let data := Data_new nonce_authority durable_nonce (env_lamports_per_signature env) in
          set_state account (Versions_new (Initialized data))
    | Initialized _ => fail_with_key env account InvalidAccountData
    end
  else fail_with_key env account InvalidArgument.

Definition authorize_nonce_account (env : Environment) (account : BorrowedAccount)
    (nonce_authority : Pubkey) (signers : gset Pubkey) : TxM unit :=
  if is_writable account then
    let? versions := get_state account in
    match authorize versions signers nonce_authority with
    | Ok versions => set_state account versions
    | Err NonceUninitialized => fail_with_key env account InvalidAccountData
    | Err (NonceMissingRequiredSignature _) => fail MissingRequiredSignature
    | Panic => panic
    end
  else fail_with_key env account InvalidArgument.

(** ** The entrypoint *)

Definition DEFAULT_COMPUTE_UNITS : Z := 150.

(** The address of the [i]-th instruction account, checked against a seed. *)
Definition instruction_address (ic : InstructionContext) (i : IndexOfAccount)
    (with_seed : option (Pubkey * Bytes * Pubkey)) : TxM Address :=
  let? key := query (key_of_instruction_account ic i) in
  lift (Address_create key with_seed).

(** [recent_blockhashes] of the sysvar cache, which must not be empty. *)
Definition check_recent_blockhashes (env : Environment) (ic : InstructionContext)
    (i : IndexOfAccount) : TxM unit :=
  let? recent_blockhashes :=
    query (get_sysvar_with_account_check.recent_blockhashes (env_sysvar_cache env) ic i) in
  match recent_blockhashes with
  | [] => fail (SystemError.into SystemError.NonceNoRecentBlockhashes)
  | _ => ret tt
  end.

Definition upgrade_nonce_account (nonce_account : BorrowedAccount) : TxM unit :=
  let? acc := query (borrowed nonce_account) in
  if bool_decide (acc_owner acc = system_program_id) then
    if is_writable nonce_account then
      let? nonce_versions := get_state nonce_account in
      match upgrade nonce_versions with
      | None => fail InvalidArgument
      | Some nonce_versions => set_state nonce_account nonce_versions
      end
    else fail InvalidArgument
  else fail InvalidAccountOwner.

(** The body of the [match] on the instruction. *)
Definition dispatch (env : Environment) (ic : InstructionContext) (signers : gset Pubkey)
    (instruction : SystemInstruction) : TxM unit :=
  match instruction with
  | CreateAccount lamports space owner =>
      lift (check_number_of_instruction_accounts ic 2) ;?
      let? to_address := instruction_address ic 1 None in
      create_account env ic 0 1 to_address lamports space owner signers
  | CreateAccountWithSeed base seed lamports space owner =>
      lift (check_number_of_instruction_accounts ic 2) ;?
      let? to_address := instruction_address ic 1 (Some (base, seed, owner)) in
      create_account env ic 0 1 to_address lamports space owner signers
  | Assign owner =>
      lift (check_number_of_instruction_accounts ic 1) ;?
      borrowing (try_borrow_instruction_account ic 0) (fun account =>
        let? address := instruction_address ic 0 None in
        assign account address owner signers)
  | Transfer lamports =>
      lift (check_number_of_instruction_accounts ic 2) ;?
      transfer env ic 0 1 lamports
  | TransferWithSeed lamports from_seed from_owner =>
      lift (check_number_of_instruction_accounts ic 3) ;?
      transfer_with_seed env ic 0 1 from_seed from_owner 2 lamports
  | AdvanceNonceAccount =>
      lift (check_number_of_instruction_accounts ic 1) ;?
      borrowing (try_borrow_instruction_account ic 0) (fun me =>
        check_recent_blockhashes env ic 1 ;?
        advance_nonce_account env me signers)
  | WithdrawNonceAccount lamports =>
      lift (check_number_of_instruction_accounts ic 2) ;?
      let? _recent_blockhashes :=
        query (get_sysvar_with_account_check.recent_blockhashes (env_sysvar_cache env) ic 2) in
      let? rent := query (get_sysvar_with_account_check.rent (env_sysvar_cache env) ic 3) in
      withdraw_nonce_account env ic 0 lamports 1 rent signers
  | InitializeNonceAccount authorized =>
      lift (check_number_of_instruction_accounts ic 1) ;?
      borrowing (try_borrow_instruction_account ic 0) (fun me =>
        check_recent_blockhashes env ic 1 ;?
        let? rent := query (get_sysvar_with_account_check.rent (env_sysvar_cache env) ic 2) in
        initialize_nonce_account env me authorized rent)
  | AuthorizeNonceAccount nonce_authority =>
      lift (check_number_of_instruction_accounts ic 1) ;?
      borrowing (try_borrow_instruction_account ic 0) (fun me =>
        authorize_nonce_account env me nonce_authority signers)
  | UpgradeNonceAccount =>
      lift (check_number_of_instruction_accounts ic 1) ;?
      borrowing (try_borrow_instruction_account ic 0) upgrade_nonce_account
  | Allocate space =>
      lift (check_number_of_instruction_accounts ic 1) ;?
      borrowing (try_borrow_instruction_account ic 0) (fun account =>
        let? address := instruction_address ic 0 None in
        allocate account address space signers)
  | AllocateWithSeed base seed space owner =>
      lift (check_number_of_instruction_accounts ic 1) ;?
      borrowing (try_borrow_instruction_account ic 0) (fun account =>
        let? address := instruction_address ic 0 (Some (base, seed, owner)) in
        allocate_and_assign account address space owner signers)
  | AssignWithSeed base seed owner =>
      lift (check_number_of_instruction_accounts ic 1) ;?
      borrowing (try_borrow_instruction_account ic 0) (fun account =>
        let? address := instruction_address ic 0 (Some (base, seed, owner)) in
        assign account address owner signers)
  end.

Definition Entrypoint (env : Environment) : TxM unit :=
  let? ic := query get_current_instruction_context in
  let? instruction := lift (limited_deserialize (instruction_data ic)) in
  let? signers := query (get_signers ic) in
  dispatch env ic signers instruction.

(** ** Kinds of system accounts (lib.rs) *)

Inductive SystemAccountKind : Type := System | NonceKind.

Definition get_system_account_kind (account : AccountSharedData) : option SystemAccountKind :=
  if bool_decide (acc_owner account = system_program_id) then
    if vec_len (acc_data account) =? 0 then Some System
    else if vec_len (acc_data account) =? State_size then
      versions ← shared_deserialize_data account;
      match state versions with
      | Uninitialized => None
      | Initialized _ => Some NonceKind
      end
    else None
  else None.

End system.
