(* ===== verification/Effects.v ===== *)
(** * What account methods do

    Shared by the programs: which methods of [BorrowedAccount] keep the total of
    lamports, and, for a method that returned, exactly what it changed. *)

From S2P Require Import Prelude Errors Rent Account TransactionContext RuntimeRules.

(** ** Methods that change no balance *)

Definition same_lamports (tc tc' : TransactionContext) : Prop :=
  forall j, acc_lamports <$> account_at tc' j = acc_lamports <$> account_at tc j.

#[global] Instance same_lamports_preorder : PreOrder same_lamports.
Proof. split; [done|]. unfold same_lamports. intros x y z H1 H2 j. by rewrite H2. Qed.

Lemma same_lamports_total tc tc' : same_lamports tc tc' -> total_lamports tc' = total_lamports tc.
Proof.
  intros H. unfold total_lamports, account_sum. f_equal. apply list_eq. intros n.
  rewrite !list_lookup_fmap, !lookup_values. apply H.
Qed.

Lemma values_same_lamports tc tc' :
  (forall j, account_at tc' j = account_at tc j) -> same_lamports tc tc'.
Proof. intros H j. by rewrite H. Qed.

Lemma quiet_same_lamports tc tc' : quiet tc tc' -> same_lamports tc tc'.
Proof. intros []. by apply values_same_lamports. Qed.

Lemma keeps_quiet_lamports {A} (m : TxM A) : keeps quiet m -> keeps same_lamports m.
Proof. intros H tc. apply quiet_same_lamports, H. Qed.

Lemma update_borrowed_lamports ba f tc :
  (forall a, account_at tc (ba_index_in_transaction ba) = Some a -> acc_lamports (f a) = acc_lamports a) ->
  same_lamports tc (final (update_borrowed ba f) tc).
Proof.
  intros Hf. pose proof (update_borrowed_wp ba f tc) as (Hl & _ & Hu). unfold final. intros j.
  destruct (decide (j = ba_index_in_transaction ba)) as [->|Hj]; [|by rewrite (lt_values _ _ _ Hl)].
  destruct (account_at tc (ba_index_in_transaction ba)) as [a|] eqn:Ha.
  - destruct Hu as [_ ->]. simpl. by rewrite Hf.
  - destruct Hu as [_ ->]. by rewrite Ha.
Qed.

Lemma update_borrowed_same_lamports ba f :
  (forall a, acc_lamports (f a) = acc_lamports a) -> keeps same_lamports (update_borrowed ba f).
Proof. intros Hf tc. by apply update_borrowed_lamports. Qed.

Lemma touch_same_lamports ba : keeps same_lamports (touch ba).
Proof. apply keeps_quiet_lamports, touch_quiet. Qed.
Lemma update_delta_same_lamports ba n : keeps same_lamports (update_accounts_resize_delta ba n).
Proof. apply keeps_quiet_lamports, update_accounts_resize_delta_quiet. Qed.

#[export] Hint Resolve touch_same_lamports update_delta_same_lamports : keeps.
#[export] Hint Extern 1 (keeps same_lamports (update_borrowed _ _)) =>
  apply update_borrowed_same_lamports; intros ?; reflexivity : keeps.

Lemma set_owner_same_lamports ba k : keeps same_lamports (set_owner ba k).
Proof.
  apply keeps_wp. intros tc. unfold set_owner. wp_run; try reflexivity.
  eapply wp_mono; [apply touch_wp|]. intros o tc1 (Hl & Hv & _).
  assert (same_lamports tc tc1) as Hs by by apply values_same_lamports.
  destruct o; [|done..]. wp_run; [|done..].
  unfold wp. cbv beta. etransitivity; [exact Hs|]. apply (update_borrowed_lamports ba (fun _ => a1)). intros a2 Ha2.
  rewrite Hv in Ha2. apply borrowed_account_at in Heqo. rewrite Heqo in Ha2. injection Ha2 as <-.
  unfold copy_into_owner_from_slice, unwrap in *. by repeat case_match; simplify_eq/=.
Qed.

Lemma can_data_be_changed_same_lamports ba : keeps same_lamports (can_data_be_changed ba).
Proof. unfold can_data_be_changed. keeps. Qed.
Lemma can_data_be_resized_same_lamports ba n : keeps same_lamports (can_data_be_resized ba n).
Proof. unfold can_data_be_resized. keeps. Qed.
#[export] Hint Resolve set_owner_same_lamports can_data_be_changed_same_lamports
  can_data_be_resized_same_lamports : keeps.

Lemma get_data_mut_same_lamports ba : keeps same_lamports (get_data_mut ba).
Proof. unfold get_data_mut. keeps. Qed.
#[export] Hint Resolve get_data_mut_same_lamports : keeps.

Lemma set_data_length_same_lamports ba n : keeps same_lamports (set_data_length ba n).
Proof. unfold set_data_length. keeps. Qed.
Lemma get_state_same_lamports {T} `{!Bincode T} ba : keeps same_lamports (get_state (T:=T) ba).
Proof. unfold get_state. keeps. Qed.
Lemma set_state_same_lamports {T} `{!Bincode T} ba (x : T) : keeps same_lamports (set_state ba x).
Proof. unfold set_state. keeps. Qed.
#[export] Hint Resolve set_data_length_same_lamports get_state_same_lamports set_state_same_lamports : keeps.

(** Borrowing and releasing change no account. *)
Lemma borrowing_same_lamports {A} ic i (scope : BorrowedAccount -> TxM A) :
  (forall ba, keeps same_lamports (scope ba)) ->
  keeps same_lamports (borrowing (try_borrow_instruction_account ic i) scope).
Proof.
  intros Hs. apply keeps_wp. intros tc. unfold borrowing, try_borrow_instruction_account. wp_run; try done.
  apply wp_elim. intros o tc1 H. destruct o as [ba|e|]; cbv iota.
  - apply try_borrow_account_only in H as (_ & Hv & _). wp_run.
    apply wp_elim. intros o tc2 Hsc. pose proof (Hs ba tc1) as Hk. unfold final in Hk. rewrite Hsc in Hk.
    etransitivity; [by apply values_same_lamports|]. etransitivity; [exact Hk|].
    apply values_same_lamports. apply (drop_account_only ba tc2).
  - unfold try_borrow_account in H. by repeat case_match; simplify_eq.
  - unfold try_borrow_account in H. by repeat case_match; simplify_eq.
Qed.
#[export] Hint Resolve borrowing_same_lamports : keeps.
#[export] Hint Extern 1 (keeps same_lamports (borrowing _ _)) =>
  apply borrowing_same_lamports; intros ? : keeps.

(** ** Successful runs, exactly

    What a method that returned did: [changed i a a'] says that account [i] was
    [a] and is now [a'], and nothing else changed but the touched flags. *)

Record changed (i : IndexOfAccount) (a a' : AccountSharedData) (tc tc' : TransactionContext)
  : Prop := {
  ch_local : local_to i tc tc';
  ch_before : account_at tc i = Some a;
  ch_after : account_at tc' i = Some a';
}.

Lemma changed_total i a a' tc tc' :
  changed i a a' tc tc' -> total_lamports tc' = total_lamports tc - acc_lamports a + acc_lamports a'.
Proof. intros []. by eapply local_account_sum. Qed.

Lemma update_borrowed_changed ba f a tc tc1 tc' :
  account_at tc (ba_index_in_transaction ba) = Some a ->
  local_to (ba_index_in_transaction ba) tc tc1 ->
  account_at tc1 (ba_index_in_transaction ba) = Some a ->
  update_borrowed ba f tc1 = (Ok tt, tc') ->
  changed (ba_index_in_transaction ba) a (f a) tc tc'.
Proof.
  intros Ha Hl Ha1 Hr. pose proof (update_borrowed_wp ba f tc1) as Hu. eapply wp_intro in Hu; [|done].
  destruct Hu as (Hl' & _ & Hu). rewrite Ha1 in Hu. destruct Hu as [_ Hu].
  split; [by etransitivity|done|done].
Qed.

Lemma touch_ok ba tc u tc1 :
  touch ba tc = (Ok u, tc1) ->
  local_to (ba_index_in_transaction ba) tc tc1 /\ (forall j, account_at tc1 j = account_at tc j).
Proof. intros Hr. eapply wp_intro in Hr; [|apply touch_wp]. cbv beta in Hr. tauto. Qed.

Lemma changed_refl i a tc : account_at tc i = Some a -> changed i a a tc tc.
Proof. by split. Qed.

(** The rest of a method after its checks: touch, and write [f a]. *)
Lemma touch_update_changed ba f a tc tc' :
  account_at tc (ba_index_in_transaction ba) = Some a ->
  (touch ba ;? update_borrowed ba f) tc = (Ok tt, tc') ->
  changed (ba_index_in_transaction ba) a (f a) tc tc'.
Proof.
  intros Ha Hr. apply bind_ok_inv in Hr as (u & tc1 & Ht & Hr). apply touch_ok in Ht as [Hl Hv].
  eapply update_borrowed_changed; [done..| |done]. by rewrite Hv.
Qed.

Lemma account_set_lamports_same a : account_set_lamports (acc_lamports a) a = a.
Proof. by destruct a. Qed.

Lemma set_lamports_changed ba l tc tc' :
  set_lamports ba l tc = (Ok tt, tc') ->
  exists a, changed (ba_index_in_transaction ba) a (account_set_lamports l a) tc tc' /\
    is_writable ba = true /\ acc_executable a = false /\
    (l < acc_lamports a -> is_owned_by_current_program ba a tc = true).
Proof.
  unfold set_lamports. intros Hr. apply bind_ok_inv in Hr as (a & s & Hq & Hr).
  apply query_ok_inv in Hq as [Hb%borrowed_account_at ->]. exists a.
  apply bind_ok_inv in Hr as (owned & s & Hq & Hr). apply gets_ok_inv in Hq as [-> ->].
  destruct (negb _ && _) eqn:G1; [done|]. destruct (negb (is_writable ba)) eqn:G2; [done|].
  destruct (acc_executable a) eqn:G3; [done|]. apply negb_false_iff in G2.
  split_and!; try done.
  - destruct (Z.eqb_spec (acc_lamports a) l) as [<-|].
    + inv_ok Hr. rewrite account_set_lamports_same. by apply changed_refl.
    + by apply touch_update_changed.
  - intros Hlt. destruct (is_owned_by_current_program ba a tc); [done|]. simpl in G1.
    apply Z.ltb_ge in G1. lia.
Qed.

Lemma checked_add_lamports_changed ba l tc tc' :
  checked_add_lamports ba l tc = (Ok tt, tc') ->
  exists a, changed (ba_index_in_transaction ba) a
              (account_set_lamports (acc_lamports a + l) a) tc tc' /\
    in_range U64 (acc_lamports a + l) /\ is_writable ba = true /\ acc_executable a = false.
Proof.
  unfold checked_add_lamports. intros Hr. inv_ok Hr.
  apply borrowed_account_at in Hok. apply checked_Some in Hok0 as [-> Hrange].
  match goal with H : set_lamports _ _ _ = _ |- _ =>
    apply set_lamports_changed in H as (a' & Hch & Hw & He & _) end.
  rewrite (ch_before _ _ _ _ _ Hch) in Hok. injection Hok as <-. eauto.
Qed.

Lemma checked_sub_lamports_changed ba l tc tc' :
  checked_sub_lamports ba l tc = (Ok tt, tc') ->
  exists a, changed (ba_index_in_transaction ba) a
              (account_set_lamports (acc_lamports a - l) a) tc tc' /\
    in_range U64 (acc_lamports a - l) /\ is_writable ba = true /\ acc_executable a = false /\
    (0 < l -> is_owned_by_current_program ba a tc = true).
Proof.
  unfold checked_sub_lamports. intros Hr. inv_ok Hr.
  apply borrowed_account_at in Hok. apply checked_Some in Hok0 as [-> Hrange].
  match goal with H : set_lamports _ _ _ = _ |- _ =>
    apply set_lamports_changed in H as (a' & Hch & Hw & He & Ho) end.
  rewrite (ch_before _ _ _ _ _ Hch) in Hok. injection Hok as <-.
  exists a'. split_and!; try done. intros Hl. apply Ho. lia.
Qed.

Lemma borrowing_ok_inv {A} ic i (scope : BorrowedAccount -> TxM A) tc a tc' :
  borrowing (try_borrow_instruction_account ic i) scope tc = (Ok a, tc') ->
  exists ia tc1 tc2, vec_get (instruction_accounts ic) i = Some ia /\
    let ba := mkBorrowedAccount ic (index_in_transaction ia)
                (saturating_add U16 (get_number_of_program_accounts ic) i) in
    flag_at tc (index_in_transaction ia) = Some 0 /\
    borrows_only tc tc1 /\ scope ba tc1 = (Ok a, tc2) /\ tc' = drop_account ba tc2.
Proof.
  unfold borrowing, try_borrow_instruction_account. intros Hr. inv_ok Hr.
  unfold get_index_of_instruction_account_in_transaction in *. inv_outcome Hok.
  match goal with H : finally _ _ _ = _ |- _ => apply finally_inv in H as (tc2 & Hsc & ->) end.
  match goal with H : try_borrow_account _ _ _ _ = _ |- _ =>
    pose proof (try_borrow_account_only _ _ _ _ _ _ H);
    apply try_borrow_account_inv in H as (acc & Hc & -> & ->) end.
  eexists _, _, tc2. split; [done|]. split_and!; try done.
  unfold flag_at. by rewrite Hc.
Qed.


(** What a scope does to the total is what it does with its borrow. *)
Lemma borrowing_total {A} ic i (scope : BorrowedAccount -> TxM A) tc a tc' d :
  borrowing (try_borrow_instruction_account ic i) scope tc = (Ok a, tc') ->
  (forall ba tc1 tc2, scope ba tc1 = (Ok a, tc2) -> total_lamports tc2 = total_lamports tc1 + d) ->
  total_lamports tc' = total_lamports tc + d.
Proof.
  intros (ia & tc1 & tc2 & _ & _ & (_ & Hv & _) & Hsc & ->)%borrowing_ok_inv Hd.
  apply Hd in Hsc. apply values_same_lamports, same_lamports_total in Hv.
  etransitivity; [apply same_lamports_total, values_same_lamports, drop_account_only|]. lia.
Qed.

Lemma checked_add_lamports_total ba l tc u tc' :
  checked_add_lamports ba l tc = (Ok u, tc') -> total_lamports tc' = total_lamports tc + l.
Proof.
  destruct u. intros (a & Hch & _)%checked_add_lamports_changed.
  apply changed_total in Hch. simpl in Hch. lia.
Qed.

Lemma checked_sub_lamports_total ba l tc u tc' :
  checked_sub_lamports ba l tc = (Ok u, tc') -> total_lamports tc' = total_lamports tc - l.
Proof.
  destruct u. intros (a & Hch & _)%checked_sub_lamports_changed.
  apply changed_total in Hch. simpl in Hch. lia.
Qed.

(** A run that returned, of a method that keeps the total. *)
Lemma keeps_run_total {A} (m : TxM A) tc o tc' :
  keeps same_lamports m -> m tc = (o, tc') -> total_lamports tc' = total_lamports tc.
Proof. intros Hk H. apply same_lamports_total. by apply (keeps_ok _ _ _ _ _ Hk H). Qed.

(** ** Effects on values

    [becomes i a a' tc tc'] is [changed] up to borrow flags. *)

Record becomes (i : IndexOfAccount) (a a' : AccountSharedData) (tc tc' : TransactionContext)
  : Prop := {
  be_frame : same_frame tc tc';
  be_before : account_at tc i = Some a;
  be_after : account_at tc' i = Some a';
  be_other : forall j, j <> i -> account_at tc' j = account_at tc j;
}.

Lemma changed_becomes i a a' tc tc' : changed i a a' tc tc' -> becomes i a a' tc tc'.
Proof. intros [[] ? ?]. by split. Qed.

Lemma becomes_values i a a' t tc tc' t' :
  same_frame t tc -> (forall j, account_at tc j = account_at t j) ->
  same_frame tc' t' -> (forall j, account_at t' j = account_at tc' j) ->
  becomes i a a' tc tc' -> becomes i a a' t t'.
Proof.
  intros Hf1 Hv1 Hf2 Hv2 []. split.
  - by do 2 (etransitivity; [|done]).
  - by rewrite <- Hv1.
  - by rewrite Hv2.
  - intros j Hj. rewrite Hv2, be_other0 by done. apply Hv1.
Qed.

Lemma becomes_trans i a b c x y z : becomes i a b x y -> becomes i b c y z -> becomes i a c x z.
Proof.
  intros [] []. split; [by etransitivity|done|done|].
  intros j Hj. rewrite be_other1 by done. by apply be_other0.
Qed.

Lemma becomes_total i a a' tc tc' :
  becomes i a a' tc tc' -> total_lamports tc' = total_lamports tc - acc_lamports a + acc_lamports a'.
Proof. intros []. by eapply account_sum_update. Qed.

(** The handle a scope works with. *)
Definition instruction_handle_of (ic : InstructionContext) (i : IndexOfAccount)
    (ia : InstructionAccount) : BorrowedAccount :=
  mkBorrowedAccount ic (index_in_transaction ia)
    (saturating_add U16 (get_number_of_program_accounts ic) i).

Lemma borrowing_becomes ic i (scope : BorrowedAccount -> TxM unit) tc tc'
    (P : AccountSharedData -> AccountSharedData -> Prop) :
  borrowing (try_borrow_instruction_account ic i) scope tc = (Ok tt, tc') ->
  (forall ia tc1 tc2, vec_get (instruction_accounts ic) i = Some ia ->
    same_frame tc tc1 -> (forall j, account_at tc1 j = account_at tc j) ->
    scope (instruction_handle_of ic i ia) tc1 = (Ok tt, tc2) ->
    exists a a', becomes (index_in_transaction ia) a a' tc1 tc2 /\ P a a') ->
  exists ia a a', vec_get (instruction_accounts ic) i = Some ia /\
    becomes (index_in_transaction ia) a a' tc tc' /\ P a a'.
Proof.
  intros (ia & tc1 & tc2 & Hi & _ & (Hf & Hv & _) & Hsc & ->)%borrowing_ok_inv Hd.
  destruct (Hd ia tc1 tc2 Hi Hf Hv Hsc) as (a & a' & Hb & HP).
  exists ia, a, a'. split_and!; try done.
  destruct (drop_account_only (instruction_handle_of ic i ia) tc2) as (Hf' & Hv' & _).
  by eapply becomes_values.
Qed.

Lemma handle_writable ic i ia :
  ic_small ic -> vec_get (instruction_accounts ic) i = Some ia ->
  is_writable (instruction_handle_of ic i ia) = ia_is_writable ia.
Proof. intros Hs Hi. by apply (instruction_handle_flags ic i ia). Qed.

(** The program of the instruction owns the account. *)
Definition program_owns (ic : InstructionContext) (tc : TransactionContext) (a : AccountSharedData)
  : Prop := program_key ic tc = Some (acc_owner a).

Lemma owned_program_owns ic ba a tc :
  ba_instruction_context ba = ic -> is_owned_by_current_program ba a tc = true ->
  program_owns ic tc a.
Proof.
  intros <-. unfold is_owned_by_current_program, program_owns, program_key.
  destruct (get_last_program_key _ _); try done. intros ->%bool_decide_eq_true. done.
Qed.

(** ** The other methods, exactly *)

(** The checks before a change of data. *)
Lemma can_data_be_changed_ok ba tc u tc' :
  can_data_be_changed ba tc = (Ok u, tc') ->
  tc' = tc /\ exists a, account_at tc (ba_index_in_transaction ba) = Some a /\
    acc_executable a = false /\ is_writable ba = true /\ is_owned_by_current_program ba a tc = true.
Proof.
  unfold can_data_be_changed. intros Hr. inv_ok Hr. split; [done|].
  apply borrowed_account_at in Hok. bool_facts. eauto.
Qed.

Lemma can_data_be_resized_ok ba n tc u tc' :
  can_data_be_resized ba n tc = (Ok u, tc') -> tc' = tc.
Proof. unfold can_data_be_resized. intros Hr. by inv_ok Hr. Qed.

Lemma update_delta_local ba n tc u tc' :
  update_accounts_resize_delta ba n tc = (Ok u, tc') -> quiet tc tc'.
Proof. intros Hr. eapply keeps_ok; [|done]. apply update_accounts_resize_delta_quiet. Qed.

Lemma set_data_length_changed ba n tc tc' :
  0 <= n -> set_data_length ba n tc = (Ok tt, tc') ->
  exists a, changed (ba_index_in_transaction ba) a (account_resize n 0 a) tc tc' /\
    acc_executable a = false /\ is_writable ba = true /\ is_owned_by_current_program ba a tc = true.
Proof.
  intros Hn. unfold set_data_length. intros Hr.
  apply bind_ok_inv in Hr as (u & s & Hc & Hr). apply can_data_be_resized_ok in Hc as ->.
  apply bind_ok_inv in Hr as (u' & s & Hc & Hr).
  apply can_data_be_changed_ok in Hc as (-> & a & Ha & He & Hw & Ho). exists a. split; [|done].
  apply bind_ok_inv in Hr as (a' & s & Hc & Hr). apply query_ok_inv in Hc as [Hb%borrowed_account_at ->].
  rewrite Ha in Hb. injection Hb as <-. destruct (Z.eqb_spec (vec_len (acc_data a)) n) as [<-|].
  - inv_ok Hr. replace (account_resize _ _ a) with a; [by apply changed_refl|].
    unfold account_resize, account_set_data, vec_len. rewrite Nat2Z.id, resize_all_alt by done. by destruct a.
  - apply bind_ok_inv in Hr as (u2 & s & Ht & Hr). apply touch_ok in Ht as [Hl Hv].
    apply bind_ok_inv in Hr as (u3 & s2 & Hd & Hr). apply update_delta_local in Hd as Hq.
    eapply update_borrowed_changed; [done| | |done].
    + etransitivity; [done|]. destruct Hq. by split.
    + by rewrite (q_values _ _ Hq), Hv.
Qed.

Lemma set_owner_changed ba k tc tc' :
  set_owner ba k tc = (Ok tt, tc') ->
  exists a, changed (ba_index_in_transaction ba) a (account_set_owner k a) tc tc' /\
    acc_executable a = false /\ is_writable ba = true /\ is_owned_by_current_program ba a tc = true /\
    Forall (eq 0) (acc_data a).
Proof.
  unfold set_owner. intros Hr. apply bind_ok_inv in Hr as (a & s & Hc & Hr).
  apply query_ok_inv in Hc as [Hb%borrowed_account_at ->].
  apply bind_ok_inv in Hr as (o & s & Hc & Hr). apply gets_ok_inv in Hc as [-> ->].
  destruct (negb _) eqn:G1; [done|]. destruct (negb _) eqn:G2 in Hr; [done|].
  destruct (acc_executable a) eqn:G3; [done|]. destruct (negb _) eqn:G4 in Hr; [done|].
  bool_facts. exists a. split; [|split_and!; try done; by apply is_zeroed_Forall].
  case_bool_decide as Hk.
  - inv_ok Hr. replace (account_set_owner _ a) with a by (by destruct a). by apply changed_refl.
  - apply bind_ok_inv in Hr as (u2 & s & Ht & Hr). apply touch_ok in Ht as [Hl Hv].
    apply bind_ok_inv in Hr as (a' & s2 & Hd & Hr). apply lift_ok_inv in Hd as [Hd%unwrap_ok ->].
    unfold copy_into_owner_from_slice in Hd. case_match; [|done]. simplify_eq.
    eapply (update_borrowed_changed ba (fun _ => account_set_owner k a)); [done|done| |done]. by rewrite Hv.
Qed.

Lemma get_data_mut_ok ba tc d tc' :
  get_data_mut ba tc = (Ok d, tc') ->
  local_to (ba_index_in_transaction ba) tc tc' /\ (forall j, account_at tc' j = account_at tc j) /\
  exists a, account_at tc (ba_index_in_transaction ba) = Some a /\ d = acc_data a /\
    acc_executable a = false /\ is_writable ba = true /\ is_owned_by_current_program ba a tc = true.
Proof.
  unfold get_data_mut. intros Hr.
  apply bind_ok_inv in Hr as (u & s & Hc & Hr). apply can_data_be_changed_ok in Hc as (-> & a & Ha & Hg).
  apply bind_ok_inv in Hr as (u2 & s & Ht & Hr). apply touch_ok in Ht as [Hl Hv].
  inv_ok Hr. split; [done|]. split; [done|]. exists a. split; [done|]. split; [|done].
  match goal with H : borrowed _ _ = Ok _ |- _ => apply borrowed_account_at in H as Hb end.
  rewrite Hv, Ha in Hb. by injection Hb as <-.
Qed.

Lemma get_state_ok {T} `{!Bincode T} ba tc (x : T) tc' :
  get_state ba tc = (Ok x, tc') ->
  tc' = tc /\ exists a, account_at tc (ba_index_in_transaction ba) = Some a /\
    shared_deserialize_data a = Some x.
Proof.
  unfold get_state. intros Hr. inv_ok Hr. split; [done|]. apply borrowed_account_at in Hok. eauto.
Qed.

Lemma set_state_changed {T} `{!Bincode T} ba (x : T) tc tc' :
  set_state ba x tc = (Ok tt, tc') ->
  exists a d, changed (ba_index_in_transaction ba) a (account_set_data d a) tc tc' /\
    bincode_serialize_into (acc_data a) x = Some d /\
    acc_executable a = false /\ is_writable ba = true /\ is_owned_by_current_program ba a tc = true.
Proof.
  unfold set_state. intros Hr. apply bind_ok_inv in Hr as (d0 & s & Hg & Hr).
  apply get_data_mut_ok in Hg as (Hl & Hv & a & Ha & -> & Hg).
  inv_ok Hr. exists a. eexists. split_and!; try done; [|by apply Hg..].
  eapply update_borrowed_changed; [done|done|by rewrite Hv|done].
Qed.

(** A scope that works on its own account changes no other. *)
Lemma borrowing_other {A} ic i (scope : BorrowedAccount -> TxM A) tc a tc' :
  (forall ba, keeps (local_to (ba_index_in_transaction ba)) (scope ba)) ->
  borrowing (try_borrow_instruction_account ic i) scope tc = (Ok a, tc') ->
  same_frame tc tc' /\ exists ia, vec_get (instruction_accounts ic) i = Some ia /\
    forall j, j <> index_in_transaction ia -> account_at tc' j = account_at tc j.
Proof.
  intros Hk (ia & tc1 & tc2 & Hi & _ & (Hf & Hv & _) & Hsc & ->)%borrowing_ok_inv.
  apply (keeps_ok _ _ _ _ _ (Hk _)) in Hsc as [Hf2 _ Hv2]. simpl in Hv2.
  destruct (drop_account_only (instruction_handle_of ic i ia) tc2) as (Hf' & Hv' & _).
  split; [by do 2 (etransitivity; [done|])|]. exists ia. split; [done|].
  intros j Hj. etransitivity; [apply Hv'|]. by rewrite Hv2, Hv.
Qed.

(** ** States with the same accounts *)

Definition same_values (tc tc' : TransactionContext) : Prop :=
  same_frame tc tc' /\ forall j, account_at tc' j = account_at tc j.

#[global] Instance same_values_preorder : PreOrder same_values.
Proof.
  split; [by split|]. intros x y z [? Hv] [? Hv']. split; [by etransitivity|].
  intros j. by rewrite Hv', Hv.
Qed.

Lemma borrows_same_values tc tc' : borrows_only tc tc' -> same_values tc tc'.
Proof. by intros (? & ? & _). Qed.

(** A scope runs on the accounts as they were, and leaves them as it did. *)
Lemma scope_inv {A} ic i (scope : BorrowedAccount -> TxM A) tc a tc' :
  borrowing (try_borrow_instruction_account ic i) scope tc = (Ok a, tc') ->
  exists ia tc1 tc2, vec_get (instruction_accounts ic) i = Some ia /\ same_values tc tc1 /\
    scope (instruction_handle_of ic i ia) tc1 = (Ok a, tc2) /\ same_values tc2 tc'.
Proof.
  intros (ia & tc1 & tc2 & Hi & _ & Hb & Hs & ->)%borrowing_ok_inv. exists ia, tc1, tc2.
  split_and!; [done|by apply borrows_same_values|done|apply borrows_same_values, drop_account_only].
Qed.

Lemma becomes_same_values i a a' t tc tc' t' :
  same_values t tc -> becomes i a a' tc tc' -> same_values tc' t' -> becomes i a a' t t'.
Proof. intros [Hf Hv] Hb [Hf' Hv']. by eapply becomes_values. Qed.

Lemma becomes_refl i a tc : account_at tc i = Some a -> becomes i a a tc tc.
Proof. by split. Qed.

(** Every account's lamports are a [u64]. *)
Definition balances_wf (tc : TransactionContext) : Prop :=
  forall k b, account_at tc k = Some b -> in_range U64 (acc_lamports b).

(** The next step of a run that returned. *)
Ltac next H :=
  let Hq := fresh "Hq" in
  apply bind_ok_inv in H as (? & ? & Hq & H); cbv beta in H;
  first [ apply query_ok_inv in Hq as [Hq ->] | apply lift_ok_inv in Hq as [Hq ->]
        | apply ret_ok_inv in Hq as [-> ->] | idtac ].

(** ** Signers *)

(** An instruction account with this key signed. *)
Definition signed (ic : InstructionContext) (tc : TransactionContext) (key : Pubkey) : Prop :=
  exists ia, ia ∈ instruction_accounts ic /\ ia_is_signer ia = true /\
    get_key_of_account_at_index (index_in_transaction ia) tc = Ok key.

Lemma get_signers_loop_spec tc ias result signers key :
  get_signers_loop tc ias result = Ok signers ->
  key ∈ signers <->
  key ∈ result \/ exists ia, ia ∈ ias /\ ia_is_signer ia = true /\
    get_key_of_account_at_index (index_in_transaction ia) tc = Ok key.
Proof.
  revert result. induction ias as [|ia ias IH]; intros result H; simpl in H.
  { simplify_eq. split; [by left|]. intros [|(? & ?%elem_of_nil & _)]; done. }
  destruct (ia_is_signer ia) eqn:Hs.
  - destruct (get_key_of_account_at_index _ tc) as [k| |] eqn:Hk; simpl in H; try done.
    apply IH in H. rewrite H, elem_of_union, elem_of_singleton. split.
    + intros [[->|]|(ia' & Hin & Hia)]; [right; exists ia; split; [set_solver|done]|by left|].
      right. exists ia'. split; [set_solver|done].
    + intros [|(ia' & [->|Hin]%elem_of_cons & Hia & Hk')]; [by left; right|left; left; congruence|].
      right. eauto.
  - apply IH in H. rewrite H. split.
    + intros [|(ia' & Hin & Hia)]; [by left|]. right. exists ia'. split; [set_solver|done].
    + intros [|(ia' & [->|Hin]%elem_of_cons & Hia & Hk')]; [by left|congruence|]. right. eauto.
Qed.

Lemma get_signers_spec ic tc signers key :
  get_signers ic tc = Ok signers -> key ∈ signers <-> signed ic tc key.
Proof.
  intros H. rewrite (get_signers_loop_spec _ _ _ _ key H). unfold signed.
  split; [intros [?%elem_of_empty|]; done|by right].
Qed.

(** Every signer among the instruction accounts has a key, if the set was made. *)
Lemma get_signers_key ic tc signers ia :
  get_signers ic tc = Ok signers -> ia ∈ instruction_accounts ic -> ia_is_signer ia = true ->
  exists key, get_key_of_account_at_index (index_in_transaction ia) tc = Ok key.
Proof.
  unfold get_signers. generalize (∅ : gset Pubkey). induction (instruction_accounts ic) as [|x l IH];
    intros result H Hin Hs; [by apply elem_of_nil in Hin|]. simpl in H.
  apply elem_of_cons in Hin as [<-|Hin].
  - rewrite Hs in H. destruct (get_key_of_account_at_index _ tc); simpl in H; try done. eauto.
  - destruct (ia_is_signer x); [|exact (IH _ H Hin Hs)].
    destruct (get_key_of_account_at_index (index_in_transaction x) tc); simpl in H; try done. exact (IH _ H Hin Hs).
Qed.

Lemma get_signers_frame ic tc tc' : same_frame tc tc' -> get_signers ic tc' = get_signers ic tc.
Proof.
  intros Hf. unfold get_signers. generalize (∅ : gset Pubkey).
  induction (instruction_accounts ic) as [|ia l IH]; intros g; simpl; [done|].
  unfold get_key_of_account_at_index. rewrite (sf_keys _ _ Hf).
  destruct (ia_is_signer ia); [|apply IH]. destruct (vec_get _ _); simpl; [apply IH|done].
Qed.
