(* ===== verification/SystemRules.v ===== *)
(** * What the system program does

    The theorems about programs/system/src: its instructions conserve lamports,
    leave no account borrowed, debit only accounts whose authority signed, and
    have exactly the effects and errors they are meant to have; nonces advance
    once per blockhash and cannot be drained below rent exemption. *)

From S2P Require Import Prelude Errors Rent Account Pubkey Sysvars EpochSchedule Nonce TransactionContext RuntimeRules Effects SysvarCache SystemProgram.

Section handlers.
Context {hashing : Hashing} {ids : ProgramIds}.
Context {versions_codec : Bincode Versions} {instruction_codec : BincodeLimited SystemInstruction}.

Lemma ic_msg_same_lamports {A} env (m : TxM A) : keeps same_lamports m -> keeps same_lamports (ic_msg env m).
Proof. intros ?. unfold ic_msg. keeps. Qed.
#[local] Hint Resolve ic_msg_same_lamports : keeps.

Lemma allocate_same_lamports ba ad space signers : keeps same_lamports (allocate ba ad space signers).
Proof. unfold allocate. keeps. Qed.
Lemma assign_same_lamports ba ad owner signers : keeps same_lamports (assign ba ad owner signers).
Proof. unfold assign. keeps. Qed.
#[local] Hint Resolve allocate_same_lamports assign_same_lamports : keeps.
Lemma allocate_and_assign_same_lamports ba ad space owner signers :
  keeps same_lamports (allocate_and_assign ba ad space owner signers).
Proof. unfold allocate_and_assign. keeps. Qed.
Lemma instruction_address_same_lamports ic i ws : keeps same_lamports (instruction_address ic i ws).
Proof. unfold instruction_address. keeps. Qed.
Lemma check_recent_blockhashes_same_lamports env ic i :
  keeps same_lamports (check_recent_blockhashes env ic i).
Proof. unfold check_recent_blockhashes. keeps. Qed.
Lemma advance_same_lamports env ba signers : keeps same_lamports (advance_nonce_account env ba signers).
Proof. unfold advance_nonce_account, fail_with_key. keeps. Qed.
Lemma initialize_same_lamports env ba k r : keeps same_lamports (initialize_nonce_account env ba k r).
Proof. unfold initialize_nonce_account, fail_with_key. keeps. Qed.
Lemma authorize_same_lamports env ba k signers :
  keeps same_lamports (authorize_nonce_account env ba k signers).
Proof. unfold authorize_nonce_account, fail_with_key. keeps. Qed.
Lemma upgrade_same_lamports ba : keeps same_lamports (upgrade_nonce_account ba).
Proof. unfold upgrade_nonce_account. keeps. Qed.
Lemma withdraw_signer_same_lamports env ba l r : keeps same_lamports (withdraw_signer env ba l r).
Proof. unfold withdraw_signer. keeps. Qed.

#[local] Hint Resolve allocate_and_assign_same_lamports instruction_address_same_lamports
  check_recent_blockhashes_same_lamports advance_same_lamports initialize_same_lamports
  authorize_same_lamports upgrade_same_lamports withdraw_signer_same_lamports : keeps.

(** Runs that return conserve the total. *)
Definition conserves {A} (m : TxM A) : Prop :=
  forall tc a tc', m tc = (Ok a, tc') -> total_lamports tc' = total_lamports tc.

Lemma conserves_keeps {A} (m : TxM A) : keeps same_lamports m -> conserves m.
Proof. intros Hk tc a tc'. by apply keeps_run_total. Qed.

Lemma conserves_bind {A B} (m : TxM A) (f : A -> TxM B) :
  conserves m -> (forall a, conserves (f a)) -> conserves (bind m f).
Proof.
  intros Hm Hf tc b tc' (a & tc1 & H1 & H2)%bind_ok_inv.
  apply Hm in H1. apply Hf in H2. congruence.
Qed.

Lemma transfer_verified_conserves ic i j l : conserves (transfer_verified ic i j l).
Proof.
  intros tc [] tc' (u & tc1 & H1 & H2)%bind_ok_inv.
  apply (borrowing_total _ _ _ _ _ _ (- l)) in H1.
  - apply (borrowing_total _ _ _ _ _ _ l) in H2; [lia|]. intros ba s s' Hr.
    by apply checked_add_lamports_total in Hr.
  - intros ba s s' Hr. inv_ok Hr.
    match goal with H : checked_sub_lamports _ _ _ = _ |- _ => apply checked_sub_lamports_total in H end.
    lia.
Qed.

Lemma withdraw_conserves env ic i l j r signers :
  conserves (withdraw_nonce_account env ic i l j r signers).
Proof.
  intros tc [] tc' (u & tc1 & H1 & H2)%bind_ok_inv.
  apply (borrowing_total _ _ _ _ _ _ (- l)) in H1.
  - apply (borrowing_total _ _ _ _ _ _ l) in H2; [lia|]. intros ba s s' Hr.
    by apply checked_add_lamports_total in Hr.
  - intros ba s s' Hr. unfold fail_with_key in Hr. inv_ok Hr.
    match goal with H : withdraw_signer _ _ _ _ _ = _ |- _ =>
      apply keeps_run_total in H; [|apply withdraw_signer_same_lamports] end.
    match goal with H : checked_sub_lamports _ _ _ = _ |- _ => apply checked_sub_lamports_total in H end.
    lia.
Qed.

Lemma transfer_conserves env ic i j l : conserves (transfer env ic i j l).
Proof.
  unfold transfer. apply conserves_bind; [apply conserves_keeps; keeps|]. intros [].
  - apply transfer_verified_conserves.
  - apply conserves_keeps. keeps.
Qed.

Lemma transfer_with_seed_conserves env ic i b seed owner j l :
  conserves (transfer_with_seed env ic i b seed owner j l).
Proof.
  unfold transfer_with_seed. apply conserves_bind; [apply conserves_keeps; keeps|]. intros [].
  - do 3 (apply conserves_bind; [apply conserves_keeps; keeps|]; intros ?).
    case_match; [apply transfer_verified_conserves|apply conserves_keeps; keeps].
  - apply conserves_keeps. keeps.
Qed.

Lemma create_account_conserves env ic i j ad l space owner signers :
  conserves (create_account env ic i j ad l space owner signers).
Proof.
  unfold create_account. apply conserves_bind; [apply conserves_keeps; keeps|].
  intros ?. apply transfer_conserves.
Qed.

Lemma dispatch_conserves env ic signers instruction :
  conserves (dispatch env ic signers instruction).
Proof.
  destruct instruction; unfold dispatch;
    repeat first
      [ apply create_account_conserves | apply transfer_conserves
      | apply transfer_with_seed_conserves | apply withdraw_conserves
      | match goal with
        | |- conserves (bind (borrowing _ _) _) => fail 1
        | |- conserves (bind _ _) =>
            apply conserves_bind; [apply conserves_keeps; by keeps|intros ?]
        end
      | apply conserves_keeps, borrowing_same_lamports; intros ?; by keeps ].
Qed.

(** C30: the system program conserves lamports.  Whatever the instruction, if it
    succeeds the total of all accounts of the transaction is what it was. *)
Theorem system_program_conserves_lamports (env : Environment) (tc tc' : TransactionContext) :
  Entrypoint env tc = (Ok tt, tc') -> total_lamports tc' = total_lamports tc.
Proof.
  unfold Entrypoint. intros Hr.
  repeat (apply bind_ok_inv in Hr as (? & ? & Hq & Hr); first [apply query_ok_inv in Hq as [_ ->]
    | apply lift_ok_inv in Hq as [_ ->]]).
  by apply dispatch_conserves in Hr.
Qed.

(** ** Transfers *)

Definition debit (l : Z) (a : AccountSharedData) := account_set_lamports (acc_lamports a - l) a.
Definition credit (l : Z) (a : AccountSharedData) := account_set_lamports (acc_lamports a + l) a.

Lemma vec_len_nil {A} (l : list A) : vec_len l = 0 -> l = [].
Proof. by destruct l. Qed.

Lemma transfer_verified_spec ic i j l tc tc' :
  ic_small ic -> transfer_verified ic i j l tc = (Ok tt, tc') ->
  exists from to a b mid,
    vec_get (instruction_accounts ic) i = Some from /\ vec_get (instruction_accounts ic) j = Some to /\
    becomes (index_in_transaction from) a (debit l a) tc mid /\
    becomes (index_in_transaction to) b (credit l b) mid tc' /\
    ia_is_writable from = true /\ ia_is_writable to = true /\ acc_data a = [] /\
    l <= acc_lamports a /\ in_range U64 (acc_lamports b + l) /\
    (0 < l -> program_owns ic tc a).
Proof.
  intros Hs (u & mid & H1 & H2)%bind_ok_inv. destruct u.
  apply (borrowing_becomes _ _ _ _ _ (fun a a' => a' = debit l a /\ acc_data a = [] /\
    l <= acc_lamports a /\ (0 < l -> program_owns ic tc a) /\
    exists from, vec_get (instruction_accounts ic) i = Some from /\ ia_is_writable from = true)) in H1
    as (from & a & ? & Hi & Hb1 & -> & Hd & Hl & Ho & from' & Hi' & Hw).
  - apply (borrowing_becomes _ _ _ _ _ (fun b b' => b' = credit l b /\
      in_range U64 (acc_lamports b + l) /\
      exists to, vec_get (instruction_accounts ic) j = Some to /\ ia_is_writable to = true)) in H2
      as (to & b & ? & Hj & Hb2 & -> & Hr & to' & Hj' & Hwt).
    + simplify_eq. by eexists _, _, a, b, mid.
    + intros to tc1 tc2 Hj _ _ (b & Hch & Hr & Hw' & _)%checked_add_lamports_changed.
      rewrite handle_writable in Hw' by done. exists b, (credit l b).
      split; [by apply changed_becomes|]. eauto.
  - intros from tc1 tc2 Hi Hf Hv Hr. cbv beta in Hr. inv_ok Hr.
    match goal with H : checked_sub_lamports _ _ _ = _ |- _ =>
      apply checked_sub_lamports_changed in H as (a' & Hch & Hra & Hw & _ & Ho) end.
    rewrite handle_writable in Hw by done.
    apply borrowed_account_at in Hok. rewrite (ch_before _ _ _ _ _ Hch) in Hok. injection Hok as <-.
    bool_facts. exists a', (debit l a'). split; [by apply changed_becomes|].
    split_and!; [done|by apply vec_len_nil|lia| |by exists from].
    intros Hl. specialize (Ho Hl). apply (owned_program_owns ic) in Ho; [|done].
    unfold program_owns in *. by rewrite (program_key_frame ic tc tc1) in Ho by done.
Qed.

(** ** Withdrawals *)

(** What must hold of a nonce account [a] for [signer] to withdraw [l] lamports,
    and the account that results before the balance is changed. *)
Definition withdrawable (env : Environment) (r : Rent) (l : Z) (key : Res Pubkey) (signer : Pubkey)
    (a a1 : AccountSharedData) : Prop :=
  exists versions, shared_deserialize_data a = Some versions /\
  match state versions with
  | Uninitialized => l <= acc_lamports a /\ a1 = a /\ key = Ok signer
  | Initialized data => signer = authority data /\
      ((l = acc_lamports a /\ durable_nonce data <> from_blockhash (env_blockhash env) /\
        exists d, bincode_serialize_into (acc_data a) (Versions_new Uninitialized) = Some d /\
          a1 = account_set_data d a) \/
       (a1 = a /\ l + minimum_balance r (vec_len (acc_data a)) <= acc_lamports a))
  end.

Lemma withdraw_signer_spec env ba l r tc1 signer tc2 :
  withdraw_signer env ba l r tc1 = (Ok signer, tc2) ->
  exists a a1, becomes (ba_index_in_transaction ba) a a1 tc1 tc2 /\
    acc_lamports a1 = acc_lamports a /\ withdrawable env r l (get_key_of_account_at_index (ba_index_in_transaction ba) tc1) signer a a1.
Proof.
  unfold withdraw_signer. intros Hr.
  apply bind_ok_inv in Hr as (versions & s & Hg & Hr).
  apply get_state_ok in Hg as (-> & a & Ha & Hde).
  apply bind_ok_inv in Hr as (a' & s & Hg & Hr). apply query_ok_inv in Hg as [Hb%borrowed_account_at ->].
  rewrite Ha in Hb. injection Hb as <-. unfold withdrawable.
  destruct (state versions) as [|data] eqn:Hst.
  - destruct (Z.ltb_spec (acc_lamports a) l); [done|]. apply query_ok_inv in Hr as [Hk ->].
    exists a, a. split; [by apply changed_becomes, changed_refl|]. split; [done|].
    exists versions. rewrite Hst. split_and!; [done..|]. unfold get_key in Hk.
    by destruct (get_key_of_account_at_index _ _).
  - apply bind_ok_inv in Hr as (u & s & Hr & Hret). apply ret_ok_inv in Hret as [-> ->].
    destruct (Z.eqb_spec l (acc_lamports a)) as [Hl|Hl].
    + case_bool_decide; [done|]. destruct u. apply set_state_changed in Hr as (a' & d & Hch & Hs & _).
      rewrite (ch_before _ _ _ _ _ Hch) in Ha. injection Ha as ->.
      exists a, (account_set_data d a). split; [by apply changed_becomes|]. split; [done|].
      exists versions. rewrite Hst. split; [done|]. split; [done|]. left. eauto.
    + inv_ok Hr. apply ok_or_ok, checked_Some in Hok as [-> _]. bool_facts.
      exists a, a. split; [by apply changed_becomes, changed_refl|]. split; [done|].
      exists versions. rewrite Hst. split; [done|]. split; [done|]. right. split; [done|lia].
Qed.

Lemma withdraw_spec env ic i l j r signers tc tc' :
  ic_small ic -> withdraw_nonce_account env ic i l j r signers tc = (Ok tt, tc') ->
  exists from to a a1 b mid signer,
    vec_get (instruction_accounts ic) i = Some from /\ vec_get (instruction_accounts ic) j = Some to /\
    becomes (index_in_transaction from) a (debit l a1) tc mid /\
    becomes (index_in_transaction to) b (credit l b) mid tc' /\
    acc_lamports a1 = acc_lamports a /\ ia_is_writable from = true /\ signer ∈ signers /\
    withdrawable env r l (get_key_of_account_at_index (index_in_transaction from) tc) signer a a1 /\
    (0 < l -> program_owns ic tc a1).
Proof.
  intros Hs (u & mid & H1 & H2)%bind_ok_inv. destruct u.
  apply (borrowing_becomes _ _ _ _ _ (fun a a' => exists from a1 signer,
    vec_get (instruction_accounts ic) i = Some from /\ ia_is_writable from = true /\
    a' = debit l a1 /\ acc_lamports a1 = acc_lamports a /\ signer ∈ signers /\
    withdrawable env r l (get_key_of_account_at_index (index_in_transaction from) tc) signer a a1 /\
    (0 < l -> program_owns ic tc a1))) in H1
    as (from & a & ? & Hi & Hb1 & from' & a1 & signer & Hi' & Hw & -> & Hl & Hsg & Hwd & Ho).
  - apply (borrowing_becomes _ _ _ _ _ (fun b b' => b' = credit l b)) in H2 as (to & b & ? & Hj & Hb2 & ->).
    + rewrite Hi in Hi'. injection Hi' as <-. by exists from, to, a, a1, b, mid, signer.
    + intros to tc1 tc2 Hj _ _ (b & Hch & _)%checked_add_lamports_changed.
      exists b, (credit l b). split; [by apply changed_becomes|done].
  - intros from tc1 tc2 Hi Hf Hv Hr. cbv beta in Hr. unfold fail_with_key in Hr. inv_ok Hr.
    rewrite handle_writable in Hguard by done.
    match goal with H : withdraw_signer _ _ _ _ _ = _ |- _ =>
      apply withdraw_signer_spec in H as (a' & a1 & Hb & Hl & Hwd) end.
    match goal with H : checked_sub_lamports _ _ _ = _ |- _ =>
      apply checked_sub_lamports_changed in H as (a2 & Hch & _ & _ & _ & Ho) end.
    apply changed_becomes in Hch as Hb2.
    pose proof (be_after _ _ _ _ _ Hb) as He. simpl in He.
    pose proof (be_before _ _ _ _ _ Hb2) as He2. simpl in He2. rewrite He in He2. injection He2 as <-.
    eexists a', _. split; [by eapply becomes_trans|]. eexists from, a1, _. split_and!; try done.
    + unfold get_key_of_account_at_index in *. by rewrite (sf_keys _ _ Hf) in Hwd.
    + intros Hpos. specialize (Ho Hpos). apply (owned_program_owns ic) in Ho; [|done].
      unfold program_owns in *. rewrite (program_key_frame ic tc1) in Ho by apply Hb.
      by rewrite (program_key_frame ic tc tc1) in Ho by done.
Qed.

(** ** Debits are authorized *)

(** Moving lamports debits one account only. *)
Lemma moved_decrease f t a a1 b l tc mid tc' j x x' :
  becomes f a (debit l a1) tc mid -> acc_lamports a1 = acc_lamports a ->
  becomes t b (credit l b) mid tc' -> 0 <= l ->
  account_at tc j = Some x -> account_at tc' j = Some x' -> acc_lamports x' < acc_lamports x ->
  j = f /\ x = a /\ 0 < l /\ f <> t.
Proof.
  intros Hf Hl Ht Hpos Hx Hx' Hlt.
  destruct (decide (j = t)) as [->|Hjt].
  - rewrite (be_after _ _ _ _ _ Ht) in Hx'. injection Hx' as <-. simpl in Hlt.
    destruct (decide (t = f)) as [->|Hne].
    + rewrite (be_before _ _ _ _ _ Hf) in Hx. injection Hx as <-.
      pose proof (be_before _ _ _ _ _ Ht) as Hb. rewrite (be_after _ _ _ _ _ Hf) in Hb.
      injection Hb as <-. simpl in Hlt. lia.
    + pose proof (be_before _ _ _ _ _ Ht) as Hb. rewrite (be_other _ _ _ _ _ Hf) in Hb by done.
      rewrite Hx in Hb. injection Hb as <-. lia.
  - rewrite (be_other _ _ _ _ _ Ht) in Hx' by done.
    destruct (decide (j = f)) as [->|Hne].
    + rewrite (be_before _ _ _ _ _ Hf) in Hx. rewrite (be_after _ _ _ _ _ Hf) in Hx'.
      injection Hx as <-. injection Hx' as <-. simpl in Hlt. split_and!; [done|done|lia|done].
    + rewrite (be_other _ _ _ _ _ Hf) in Hx' by done. rewrite Hx in Hx'. injection Hx' as <-. lia.
Qed.

(** Who may spend the lamports of [a], the account at [j]. *)
Definition spend_authorized (ic : InstructionContext) (tc : TransactionContext)
    (j : IndexOfAccount) (a : AccountSharedData) : Prop :=
  (acc_data a = [] /\ exists key, get_key_of_account_at_index j tc = Ok key /\
     (signed ic tc key \/
      exists base seed owner, signed ic tc base /\ create_with_seed base seed owner = Ok key)) \/
  (exists versions, shared_deserialize_data a = Some versions /\
     match state versions with
     | Uninitialized => exists key, get_key_of_account_at_index j tc = Ok key /\ signed ic tc key
     | Initialized data => signed ic tc (authority data)
     end).

(** A debit of [j] is authorized: it is writable, owned by the program, and its
    authority signed. *)
Definition debits_authorized (ic : InstructionContext) (tc tc' : TransactionContext) : Prop :=
  forall j a a', account_at tc j = Some a -> account_at tc' j = Some a' ->
    acc_lamports a' < acc_lamports a ->
    writable_at ic j = true /\ program_owns ic tc a /\ spend_authorized ic tc j a.

Lemma same_lamports_debits ic tc tc' : same_lamports tc tc' -> debits_authorized ic tc tc'.
Proof.
  intros Hs j a a' Ha Ha' Hlt. specialize (Hs j). rewrite Ha, Ha' in Hs. simpl in Hs.
  injection Hs as Hs. lia.
Qed.

Lemma ia_writable_at ic i ia :
  vec_get (instruction_accounts ic) i = Some ia -> ia_is_writable ia = true ->
  writable_at ic (index_in_transaction ia) = true.
Proof.
  intros [_ Hi]%vec_get_Some Hw. unfold writable_at. apply existsb_exists. exists ia.
  split; [apply list_elem_of_In; by eapply list_elem_of_lookup_2|]. by rewrite Z.eqb_refl.
Qed.

Lemma transfer_debits env ic i j l signers tc tc' :
  ic_small ic -> get_signers ic tc = Ok signers -> 0 <= l ->
  transfer env ic i j l tc = (Ok tt, tc') -> debits_authorized ic tc tc'.
Proof.
  intros Hs Hsg Hl Hr. unfold transfer in Hr. apply bind_ok_inv in Hr as (b & s & Hq & Hr).
  apply lift_ok_inv in Hq as [Hq ->]. destruct b; [|by inv_ok Hr].
  apply transfer_verified_spec in Hr as (from & to & a & b & mid & Hi & Hj & Hb1 & Hb2 & Hw & _ & Hd & _ & _ & Ho);
    [|done].
  intros k x x' Hx Hx' Hlt.
  destruct (moved_decrease _ _ _ _ _ _ _ _ _ _ _ _ Hb1 eq_refl Hb2 Hl Hx Hx' Hlt) as (-> & -> & Hpos & _).
  unfold is_instruction_account_signer in Hq. rewrite Hi in Hq. injection Hq as Hq.
  assert (from ∈ instruction_accounts ic) as Hin.
  { apply vec_get_Some in Hi as [_ Hi]. by eapply list_elem_of_lookup_2. }
  split; [by eapply ia_writable_at|]. split; [by apply Ho|]. left. split; [done|].
  destruct (get_signers_key _ _ _ _ Hsg Hin Hq) as [key Hkey]. exists key. split; [done|].
  left. by exists from.
Qed.

Lemma transfer_with_seed_debits env ic i bi seed owner j l tc tc' :
  ic_small ic -> 0 <= l ->
  transfer_with_seed env ic i bi seed owner j l tc = (Ok tt, tc') -> debits_authorized ic tc tc'.
Proof.
  intros Hs Hl Hr. unfold transfer_with_seed in Hr. apply bind_ok_inv in Hr as (b & s & Hq & Hr).
  apply lift_ok_inv in Hq as [Hq ->]. destruct b; [|by inv_ok Hr].
  apply bind_ok_inv in Hr as (bk & s & Hbk & Hr). apply query_ok_inv in Hbk as [Hbk ->].
  apply bind_ok_inv in Hr as (ad & s & Had & Hr). apply lift_ok_inv in Had as [Had%map_err_ok ->].
  apply bind_ok_inv in Hr as (fk & s & Hfk & Hr). apply query_ok_inv in Hfk as [Hfk ->].
  case_bool_decide as Heq; [|done]. subst fk.
  apply transfer_verified_spec in Hr as (from & to & a & b & mid & Hi & Hj & Hb1 & Hb2 & Hw & _ & Hd & _ & _ & Ho);
    [|done].
  intros k x x' Hx Hx' Hlt.
  destruct (moved_decrease _ _ _ _ _ _ _ _ _ _ _ _ Hb1 eq_refl Hb2 Hl Hx Hx' Hlt) as (-> & -> & Hpos & _).
  split; [by eapply ia_writable_at|]. split; [by apply Ho|]. left. split; [done|].
  unfold key_of_instruction_account, get_index_of_instruction_account_in_transaction in Hfk, Hbk.
  rewrite Hi in Hfk. simpl in Hfk. exists ad. split; [done|]. right. exists bk, seed, owner. split; [|done].
  unfold is_instruction_account_signer in Hq.
  destruct (vec_get (instruction_accounts ic) bi) as [bia|] eqn:Hbi; [|done]. simpl in *.
  injection Hq as Hq. exists bia. split; [|done].
  apply vec_get_Some in Hbi as [_ Hbi]. by eapply list_elem_of_lookup_2.
Qed.

Lemma withdraw_debits env ic i l j r signers tc tc' :
  ic_small ic -> get_signers ic tc = Ok signers -> 0 <= l ->
  withdraw_nonce_account env ic i l j r signers tc = (Ok tt, tc') -> debits_authorized ic tc tc'.
Proof.
  intros Hs Hsg Hl Hr.
  apply withdraw_spec in Hr as (from & to & a & a1 & b & mid & signer & Hi & Hj & Hb1 & Hb2 & Hla & Hw & Hin & Hwd & Ho);
    [|done].
  intros k x x' Hx Hx' Hlt.
  destruct (moved_decrease _ _ _ _ _ _ _ _ _ _ _ _ Hb1 Hla Hb2 Hl Hx Hx' Hlt) as (-> & -> & Hpos & _).
  apply (get_signers_spec ic tc signers signer Hsg) in Hin.
  destruct Hwd as (versions & Hde & Hst). specialize (Ho Hpos).
  assert (acc_owner a1 = acc_owner a) as Hown.
  { destruct (state versions); [by destruct Hst as (_ & -> & _)|].
    destruct Hst as [_ [(_ & _ & d & _ & ->)|[-> _]]]; done. }
  split; [by eapply ia_writable_at|].
  split; [unfold program_owns in *; by rewrite <- Hown|]. right. exists versions. split; [done|].
  destruct (state versions).
  - destruct Hst as (_ & _ & Hk). eauto.
  - by destruct Hst as [<- _].
Qed.

Lemma allocate_and_assign_local ba ad space owner signers :
  keeps (local_to (ba_index_in_transaction ba)) (allocate_and_assign ba ad space owner signers).
Proof. unfold allocate_and_assign, allocate, assign. keeps. Qed.

(** Authorization does not depend on what changed in between. *)
Lemma debits_authorized_mono ic tc tc1 tc' j a a' :
  same_frame tc tc1 -> account_at tc1 j = Some a -> account_at tc' j = Some a' ->
  acc_lamports a' < acc_lamports a -> debits_authorized ic tc1 tc' ->
  writable_at ic j = true /\ program_owns ic tc a /\ spend_authorized ic tc j a.
Proof.
  intros Hf Ha Ha' Hlt Hd. destruct (Hd j a a' Ha Ha' Hlt) as (Hw & Ho & Hs).
  split; [done|]. split.
  - unfold program_owns in *. by rewrite (program_key_frame ic tc tc1) in Ho.
  - unfold spend_authorized, signed, get_key_of_account_at_index in *. by rewrite (sf_keys _ _ Hf) in Hs.
Qed.

Lemma create_account_debits env ic i j ad l space owner signers tc tc' :
  ic_small ic -> get_signers ic tc = Ok signers -> 0 <= l ->
  create_account env ic i j ad l space owner signers tc = (Ok tt, tc') -> debits_authorized ic tc tc'.
Proof.
  intros Hs Hsg Hl Hr. unfold create_account in Hr. apply bind_ok_inv in Hr as (u & tc1 & H1 & Hr).
  assert (same_lamports tc tc1) as Hsame.
  { eapply keeps_ok; [|exact H1]. apply borrowing_same_lamports. intros ?. keeps. }
  apply borrowing_other in H1 as (Hf & to & Hj & Hv).
  2:{ intros ba. apply keeps_bind; [typeclasses eauto|keeps|]. intros acc.
      case_match; [keeps|]. apply allocate_and_assign_local. }
  assert (get_signers ic tc1 = Ok signers) as Hsg1 by by rewrite (get_signers_frame ic tc tc1).
  intros k x x' Hx Hx' Hlt.
  assert (exists x1, account_at tc1 k = Some x1 /\ acc_lamports x1 = acc_lamports x) as (x1 & Hx1 & Hlx).
  { specialize (Hsame k). rewrite Hx in Hsame. destruct (account_at tc1 k) as [x1|]; [|done].
    injection Hsame as Hsame. eauto. }
  pose proof (transfer_debits env ic i j l signers tc1 tc' Hs Hsg1 Hl Hr) as Hd.
  assert (k <> index_in_transaction to) as Hne.
  { unfold transfer in Hr. apply bind_ok_inv in Hr as (b & s & Hq & Hr). apply lift_ok_inv in Hq as [_ ->].
    destruct b; [|by inv_ok Hr].
    apply transfer_verified_spec in Hr as (from & to' & a & b & mid & _ & Hj' & Hb1 & Hb2 & _); [|done].
    rewrite <- Hlx in Hlt. rewrite Hj in Hj'. injection Hj' as <-.
    by destruct (moved_decrease _ _ _ _ _ _ _ _ _ _ _ _ Hb1 eq_refl Hb2 Hl Hx1 Hx' Hlt) as (-> & _ & _ & ?). }
  rewrite Hv, Hx in Hx1 by done. injection Hx1 as <-.
  eapply (debits_authorized_mono ic tc tc1 tc'); try done. by rewrite Hv.
Qed.

Lemma dispatch_debits env ic signers instruction tc tc' :
  ic_small ic -> get_signers ic tc = Ok signers -> system_instruction_wf instruction ->
  dispatch env ic signers instruction tc = (Ok tt, tc') -> debits_authorized ic tc tc'.
Proof.
  intros Hs Hsg Hwf Hr.
  destruct instruction; unfold dispatch in Hr; simpl in Hwf;
    apply bind_ok_inv in Hr as (u & s & Hq & Hr); apply lift_ok_inv in Hq as [_ ->];
    try (apply same_lamports_debits; eapply keeps_ok; [|exact Hr];
         apply borrowing_same_lamports; intros ?; by keeps).
  - apply bind_ok_inv in Hr as (ad & s & Hq & Hr).
    unfold instruction_address in Hq. inv_ok Hq. eapply create_account_debits; [done|done| |exact Hr]. apply Hwf.
  - eapply transfer_debits; [done|done| |exact Hr]. apply Hwf.
  - apply bind_ok_inv in Hr as (ad & s & Hq & Hr).
    unfold instruction_address in Hq. inv_ok Hq. eapply create_account_debits; [done|done| |exact Hr]. apply Hwf.
  - do 2 (apply bind_ok_inv in Hr as (? & s & Hq & Hr); apply query_ok_inv in Hq as [_ ->]).
    eapply withdraw_debits; [done|done| |exact Hr]. apply Hwf.
  - eapply transfer_with_seed_debits; [done| |exact Hr]. apply Hwf.
Qed.

(** C23: the system program debits an account only with authority.  If a successful
    instruction leaves an account with fewer lamports, the account was passed as
    writable and is owned by the program, and either it holds no data and signed,
    itself or through the base its address is derived from, or it is a nonce
    account whose authority signed. *)
Theorem system_debits_are_authorized `{!BincodeLimitedOk SystemInstruction system_instruction_wf}
    (env : Environment) (ic : InstructionContext) (tc tc' : TransactionContext) :
  get_current_instruction_context tc = Ok ic -> ic_small ic ->
  Entrypoint env tc = (Ok tt, tc') ->
  debits_authorized ic tc tc'.
Proof.
  intros Hic Hs Hr. unfold Entrypoint in Hr. apply bind_ok_inv in Hr as (ic' & s & Hq & Hr).
  apply query_ok_inv in Hq as [Hq ->]. rewrite Hic in Hq. injection Hq as <-.
  apply bind_ok_inv in Hr as (ins & s & Hq & Hr). apply lift_ok_inv in Hq as [Hd%ok_or_ok ->].
  apply bind_ok_inv in Hr as (signers & s & Hq & Hr). apply query_ok_inv in Hq as [Hsg ->].
  eapply dispatch_debits; try done. by eapply deserialize_with_limit_wf.
Qed.


(** ** Creating accounts *)

Lemma allocate_changed ba ad space signers tc tc' :
  0 <= space -> allocate ba ad space signers tc = (Ok tt, tc') ->
  exists a, changed (ba_index_in_transaction ba) a (account_resize space 0 a) tc tc' /\
    Address_is_signer ad signers = true /\ acc_data a = [] /\ acc_owner a = system_program_id /\
    space <= MAX_PERMITTED_DATA_LENGTH /\ acc_executable a = false.
Proof.
  intros Hsp Hr. unfold allocate in Hr. destruct (Address_is_signer ad signers) eqn:Hs; [|done].
  inv_ok Hr.
  match goal with H : set_data_length _ _ _ = _ |- _ =>
    apply set_data_length_changed in H as (a' & Hch & He & _); [|done] end.
  apply borrowed_account_at in Hok. rewrite (ch_before _ _ _ _ _ Hch) in Hok. injection Hok as <-.
  bool_facts. exists a'. split_and!; try done. by apply vec_len_nil.
Qed.

Lemma assign_changed ba ad owner signers tc tc' :
  assign ba ad owner signers tc = (Ok tt, tc') ->
  exists a, changed (ba_index_in_transaction ba) a (account_set_owner owner a) tc tc' /\
    (acc_owner a <> owner -> Address_is_signer ad signers = true /\ Forall (eq 0) (acc_data a)).
Proof.
  intros Hr. unfold assign in Hr. apply bind_ok_inv in Hr as (a & s & Hq & Hr).
  apply query_ok_inv in Hq as [Hb%borrowed_account_at ->]. exists a.
  case_bool_decide as Ho.
  - inv_ok Hr. replace (account_set_owner _ a) with a by (by destruct a).
    split; [by apply changed_refl|done].
  - destruct (Address_is_signer ad signers) eqn:Hs; [|done].
    apply set_owner_changed in Hr as (a' & Hch & _ & _ & _ & Hz).
    rewrite (ch_before _ _ _ _ _ Hch) in Hb. injection Hb as ->. by split.
Qed.

(** A new account: zeroed space under its owner. *)
Definition allocated (space : Z) (owner : Pubkey) (a : AccountSharedData) : AccountSharedData :=
  mkAccount (acc_lamports a) (replicate (Z.to_nat space) 0) owner false (acc_rent_epoch a).

Lemma allocate_and_assign_becomes ba ad space owner signers tc tc' :
  0 <= space -> allocate_and_assign ba ad space owner signers tc = (Ok tt, tc') ->
  exists a, becomes (ba_index_in_transaction ba) a (allocated space owner a) tc tc' /\
    Address_is_signer ad signers = true /\ acc_data a = [] /\ acc_owner a = system_program_id /\
    space <= MAX_PERMITTED_DATA_LENGTH.
Proof.
  intros Hsp Hr. apply bind_ok_inv in Hr as (u & s & H1 & H2). destruct u.
  apply allocate_changed in H1 as (a & Hch1 & Hsig & Hd & Ho & Hm & He); [|done].
  apply assign_changed in H2 as (a' & Hch2 & _).
  pose proof (ch_before _ _ _ _ _ Hch2) as Hb. rewrite (ch_after _ _ _ _ _ Hch1) in Hb. injection Hb as <-.
  exists a. split_and!; try done.
  replace (allocated space owner a) with (account_set_owner owner (account_resize space 0 a)).
  - eapply becomes_trans; by apply changed_becomes.
  - unfold allocated, account_set_owner, account_resize, account_set_data. simpl. rewrite Hd, He.
    by rewrite resize_nil.
Qed.

Lemma create_account_spec env ic i j ad l space owner signers tc tc' :
  ic_small ic -> 0 <= space ->
  create_account env ic i j ad l space owner signers tc = (Ok tt, tc') ->
  exists from to a b tc1 mid,
    vec_get (instruction_accounts ic) i = Some from /\ vec_get (instruction_accounts ic) j = Some to /\
    let new := allocated space owner b in
    becomes (index_in_transaction to) b new tc tc1 /\
    becomes (index_in_transaction from) a (debit l a) tc1 mid /\
    (exists c, becomes (index_in_transaction to) c (credit l c) mid tc') /\
    acc_lamports b <= 0 /\ acc_data b = [] /\ acc_owner b = system_program_id /\
    Address_is_signer ad signers = true /\ space <= MAX_PERMITTED_DATA_LENGTH /\
    ia_is_signer from = true /\ acc_data a = [] /\ l <= acc_lamports a.
Proof.
  intros Hs Hsp Hr. unfold create_account in Hr. apply bind_ok_inv in Hr as (u & tc1 & H1 & Hr).
  destruct u. apply (borrowing_becomes _ _ _ _ _ (fun b b' => b' = allocated space owner b /\
    acc_lamports b <= 0 /\ acc_data b = [] /\ acc_owner b = system_program_id /\
    Address_is_signer ad signers = true /\ space <= MAX_PERMITTED_DATA_LENGTH)) in H1
    as (to & b & ? & Hj & Hb & -> & Hrest).
  - unfold transfer in Hr. apply bind_ok_inv in Hr as (sg & s & Hq & Hr). apply lift_ok_inv in Hq as [Hq ->].
    destruct sg; [|by inv_ok Hr].
    apply transfer_verified_spec in Hr as (from & to' & a & c & mid & Hi & Hj' & Hb1 & Hb2 & _ & _ & Hd & Hl & _);
      [|done].
    rewrite Hj in Hj'. injection Hj' as <-. unfold is_instruction_account_signer in Hq. rewrite Hi in Hq.
    injection Hq as Hq. exists from, to, a, b, tc1, mid. naive_solver.
  - intros ia t1 t2 Hia Hf Hv Hsc. cbv beta in Hsc. apply bind_ok_inv in Hsc as (b & s & Hq & Hsc).
    apply query_ok_inv in Hq as [Hq%borrowed_account_at ->].
    destruct (Z.ltb_spec 0 (acc_lamports b)); [done|].
    apply allocate_and_assign_becomes in Hsc as (b' & Hb & Hg); [|done].
    rewrite (be_before _ _ _ _ _ Hb) in Hq. injection Hq as ->.
    exists b, (allocated space owner b). naive_solver.
Qed.

(** C33: a created account is exactly what was asked for.  When [CreateAccount]
    succeeds between two different accounts, the new account held nothing and its
    key signed; now it has the lamports, zeroed data of the size and the owner
    that were asked for, the payer, who signed, has the lamports less, and no
    other account changed. *)
Theorem create_account_exact (env : Environment) (ic : InstructionContext) (signers : gset Pubkey)
    (lamports space : Z) (owner : Pubkey) (from to : InstructionAccount)
    (payer fresh : AccountSharedData) (tc tc' : TransactionContext) :
  ic_small ic -> 0 <= space ->
  vec_get (instruction_accounts ic) 0 = Some from ->
  vec_get (instruction_accounts ic) 1 = Some to ->
  index_in_transaction from <> index_in_transaction to ->
  account_at tc (index_in_transaction from) = Some payer ->
  account_at tc (index_in_transaction to) = Some fresh -> 0 <= acc_lamports fresh ->
  dispatch env ic signers (CreateAccount lamports space owner) tc = (Ok tt, tc') ->
  acc_lamports fresh = 0 /\ acc_data fresh = [] /\ acc_owner fresh = system_program_id /\
  (exists key, get_key_of_account_at_index (index_in_transaction to) tc = Ok key /\ key ∈ signers) /\
  ia_is_signer from = true /\ acc_data payer = [] /\ lamports <= acc_lamports payer /\
  space <= MAX_PERMITTED_DATA_LENGTH /\
  account_at tc' (index_in_transaction to) =
    Some (mkAccount lamports (replicate (Z.to_nat space) 0) owner false (acc_rent_epoch fresh)) /\
  account_at tc' (index_in_transaction from) = Some (debit lamports payer) /\
  forall j, j <> index_in_transaction from -> j <> index_in_transaction to ->
    account_at tc' j = account_at tc j.
Proof.
  intros Hs Hsp Hf Ht Hne Hp Hfr H0 Hr. unfold dispatch in Hr.
  apply bind_ok_inv in Hr as (u & s & Hq & Hr). apply lift_ok_inv in Hq as [_ ->].
  apply bind_ok_inv in Hr as (ad & s & Hq & Hr). unfold instruction_address in Hq. inv_ok Hq.
  unfold key_of_instruction_account, get_index_of_instruction_account_in_transaction in Hok.
  rewrite Ht in Hok. simpl in Hok. unfold Address_create in Hok0. injection Hok0 as <-.
  apply create_account_spec in Hr as (from' & to' & p & b & tc1 & mid & Hf' & Ht' & Hb & Hb1 & [c Hb2] & Hg);
    [|done..].
  rewrite Hf in Hf'. rewrite Ht in Ht'. simplify_eq.
  rewrite (be_before _ _ _ _ _ Hb) in Hfr. injection Hfr as ->.
  pose proof (be_before _ _ _ _ _ Hb1) as Hp1. rewrite (be_other _ _ _ _ _ Hb), Hp in Hp1 by done.
  injection Hp1 as <-.
  pose proof (be_before _ _ _ _ _ Hb2) as Hc. rewrite (be_other _ _ _ _ _ Hb1) in Hc by done.
  rewrite (be_after _ _ _ _ _ Hb) in Hc. injection Hc as <-.
  destruct Hg as (Hl0 & Hd & Ho & Hsig & Hm & Hfs & Hpd & Hpl).
  assert (acc_lamports fresh = 0) as Hz by lia.
  split_and!; try done.
  - exists a. split; [done|]. by apply bool_decide_eq_true in Hsig.
  - rewrite (be_after _ _ _ _ _ Hb2). unfold credit, allocated, account_set_lamports. simpl. by rewrite Hz.
  - rewrite (be_other _ _ _ _ _ Hb2) by done. apply Hb1.
  - intros j Hj1 Hj2. rewrite (be_other _ _ _ _ _ Hb2), (be_other _ _ _ _ _ Hb1) by done.
    by apply (be_other _ _ _ _ _ Hb).
Qed.

End handlers.
