(* ===== verification/NonceRules.v ===== *)
(** * Nonce accounts under the system program

    An abstract machine of nonce states, and the theorem that the system program
    implements it: whatever instruction succeeds, the data of an account changes
    only by allocation or by one step of the machine.  The machine in turn lets a
    nonce be used once: after a step the old nonce no longer verifies. *)

From S2P Require Import Prelude Errors Rent Account Pubkey Sysvars EpochSchedule Nonce TransactionContext RuntimeRules Effects SysvarCache SystemProgram SystemRules.

Section nonce.
Context {hashing : Hashing} {ids : ProgramIds}.
Context {versions_codec : Bincode Versions} {instruction_codec : BincodeLimited SystemInstruction}.
Context {versions_ok : BincodeOk Versions}.
Context (env : Environment).

Abbreviation current_nonce := (from_blockhash (env_blockhash env)).

(** ** The machine *)

Inductive nonce_step (signers : gset Pubkey) : Versions -> Versions -> Prop :=
| ns_initialize v key :
    state v = Uninitialized ->
    nonce_step signers v
      (Current (Initialized (Data_new key current_nonce (env_lamports_per_signature env))))
| ns_advance v data :
    state v = Initialized data -> authority data ∈ signers ->
    durable_nonce data <> current_nonce ->
    nonce_step signers v
      (Current (Initialized (Data_new (authority data) current_nonce (env_lamports_per_signature env))))
| ns_authorize v data key :
    state v = Initialized data -> authority data ∈ signers ->
    nonce_step signers v
      (let s := Initialized (Data_new key (durable_nonce data) (get_lamports_per_signature data)) in
       match v with Legacy _ => Legacy s | Current _ => Current s end)
| ns_upgrade v v' : upgrade v = Some v' -> nonce_step signers v v'
| ns_close v data :
    state v = Initialized data -> authority data ∈ signers ->
    durable_nonce data <> current_nonce ->
    nonce_step signers v (Current Uninitialized).

(** ** The handlers make steps of the machine *)

(** How the data of one account may change. *)
Definition data_step (signers : gset Pubkey) (a a' : AccountSharedData) : Prop :=
  acc_data a' = acc_data a \/
  (acc_data a = [] /\ Forall (eq 0) (acc_data a')) \/
  exists v v', shared_deserialize_data a = Some v /\ shared_deserialize_data a' = Some v' /\
    nonce_step signers v v'.

Lemma written_state (a : AccountSharedData) (v : Versions) d :
  bincode_serialize_into (acc_data a) v = Some d ->
  shared_deserialize_data (account_set_data d a) = Some v.
Proof. intros H. by apply serialize_into_roundtrip in H. Qed.

(** A state is read, and one of its successors is written. *)
Lemma read_write_step signers ba tc v v' tc' :
  get_state ba tc = (Ok v, tc) -> set_state ba v' tc = (Ok tt, tc') -> nonce_step signers v v' ->
  exists a a', becomes (ba_index_in_transaction ba) a a' tc tc' /\ data_step signers a a'.
Proof.
  intros (_ & a & Ha & Hde)%get_state_ok (a' & d & Hch & Hd & _)%set_state_changed Hstep.
  rewrite (ch_before _ _ _ _ _ Hch) in Ha. injection Ha as ->.
  exists a, (account_set_data d a). split; [by apply changed_becomes|].
  right; right. exists v, v'. split_and!; [done|by apply written_state|done].
Qed.

(** Takes apart a run of a handler up to the write. *)
Ltac nonce_run Hr :=
  let v := fresh "v" in let Hg := fresh "Hg" in
  apply bind_ok_inv in Hr as (v & ? & Hg & Hr); apply get_state_ok in Hg as Hg';
  destruct Hg' as (-> & _).

Lemma advance_step signers ba tc tc' :
  advance_nonce_account env ba signers tc = (Ok tt, tc') ->
  exists a a', becomes (ba_index_in_transaction ba) a a' tc tc' /\ data_step signers a a'.
Proof.
  unfold advance_nonce_account, fail_with_key. intros Hr. destruct (is_writable ba); [|by inv_ok Hr].
  nonce_run Hr. destruct (state v) as [|data] eqn:Hst; [by inv_ok Hr|].
  destruct (decide _); [|done]. case_bool_decide; [done|].
  eapply read_write_step; [done..|]. by apply ns_advance.
Qed.

Lemma initialize_step signers ba key r tc tc' :
  initialize_nonce_account env ba key r tc = (Ok tt, tc') ->
  exists a a', becomes (ba_index_in_transaction ba) a a' tc tc' /\ data_step signers a a'.
Proof.
  unfold initialize_nonce_account, fail_with_key. intros Hr. destruct (is_writable ba); [|by inv_ok Hr].
  nonce_run Hr. destruct (state v) as [|data] eqn:Hst; [|by inv_ok Hr].
  apply bind_ok_inv in Hr as (acc & s & Hq & Hr). apply query_ok_inv in Hq as [_ ->].
  destruct (_ <? _); [done|]. eapply read_write_step; [done..|]. by apply ns_initialize.
Qed.

Lemma authorize_step signers ba key tc tc' :
  authorize_nonce_account env ba key signers tc = (Ok tt, tc') ->
  exists a a', becomes (ba_index_in_transaction ba) a a' tc tc' /\ data_step signers a a'.
Proof.
  unfold authorize_nonce_account, fail_with_key. intros Hr. destruct (is_writable ba); [|by inv_ok Hr].
  nonce_run Hr. destruct (authorize v signers key) as [v'|[]|] eqn:Hau; [|by inv_ok Hr..].
  eapply read_write_step; [done..|]. unfold authorize in Hau.
  destruct (state v) as [|data] eqn:Hst; [done|]. destruct (decide _); [|done].
  injection Hau as <-. by apply ns_authorize.
Qed.

Lemma upgrade_step signers ba tc tc' :
  upgrade_nonce_account ba tc = (Ok tt, tc') ->
  exists a a', becomes (ba_index_in_transaction ba) a a' tc tc' /\ data_step signers a a'.
Proof.
  unfold upgrade_nonce_account. intros Hr. apply bind_ok_inv in Hr as (acc & s & Hq & Hr).
  apply query_ok_inv in Hq as [_ ->]. case_bool_decide; [|done]. destruct (is_writable ba); [|done].
  nonce_run Hr. destruct (upgrade v) as [v'|] eqn:Hup; [|done].
  eapply read_write_step; [done..|]. by apply ns_upgrade.
Qed.

Lemma withdrawable_step signers r l key signer a a1 :
  withdrawable env r l key signer a a1 -> signer ∈ signers -> data_step signers a a1.
Proof.
  intros (v & Hde & Hst) Hin. destruct (state v) as [|data] eqn:Hv.
  - destruct Hst as (_ & -> & _). by left.
  - destruct Hst as [-> [(_ & Hne & d & Hd & ->)|[-> _]]]; [|by left].
    right; right. exists v, (Current Uninitialized). split_and!; [done|by apply written_state|].
    by eapply ns_close.
Qed.

(** ** Every instruction *)

Definition data_steps (signers : gset Pubkey) (tc tc' : TransactionContext) : Prop :=
  forall j a a', account_at tc j = Some a -> account_at tc' j = Some a' -> data_step signers a a'.

Definition same_data (tc tc' : TransactionContext) : Prop :=
  forall j, acc_data <$> account_at tc' j = acc_data <$> account_at tc j.

Lemma same_data_account tc tc' j a' :
  same_data tc tc' -> account_at tc' j = Some a' ->
  exists a, account_at tc j = Some a /\ acc_data a' = acc_data a.
Proof.
  intros Hs Ha'. specialize (Hs j). rewrite Ha' in Hs.
  destruct (account_at tc j) as [a|]; [|done]. injection Hs as Hs. eauto.
Qed.

Lemma data_step_data signers a a' b b' :
  acc_data b = acc_data a -> acc_data b' = acc_data a' -> data_step signers b b' -> data_step signers a a'.
Proof.
  unfold data_step, shared_deserialize_data. intros -> ->. done.
Qed.

Lemma becomes_data_steps signers i a a' tc tc' :
  becomes i a a' tc tc' -> data_step signers a a' -> data_steps signers tc tc'.
Proof.
  intros [] Hs j x x' Hx Hx'. destruct (decide (j = i)) as [->|Hj].
  - by simplify_eq.
  - rewrite be_other in Hx' by done. simplify_eq. by left.
Qed.

Lemma becomes_same_data i a a' tc tc' :
  becomes i a a' tc tc' -> acc_data a' = acc_data a -> same_data tc tc'.
Proof.
  intros [] Hd j. destruct (decide (j = i)) as [->|Hj]; [|by rewrite be_other].
  rewrite be_before, be_after. simpl. by rewrite Hd.
Qed.

Lemma data_steps_trans_same signers x y z :
  data_steps signers x y -> same_data y z -> data_steps signers x z.
Proof.
  intros Hxy Hyz j a a' Ha Ha'. apply (same_data_account y z) in Ha' as (b & Hb & Hd); [|done].
  eapply data_step_data; [reflexivity|symmetry; exact Hd|]. by eapply Hxy.
Qed.

Lemma same_data_steps signers tc tc' : same_data tc tc' -> data_steps signers tc tc'.
Proof.
  intros Hs j a a' Ha Ha'. left. specialize (Hs j). rewrite Ha, Ha' in Hs. by injection Hs.
Qed.

Lemma same_data_trans x y z : same_data x y -> same_data y z -> same_data x z.
Proof. intros H1 H2 j. by rewrite H2, H1. Qed.

Lemma borrowing_data_steps signers ic i scope tc tc' :
  (forall ba tc1 tc2, scope ba tc1 = (Ok tt, tc2) ->
    exists a a', becomes (ba_index_in_transaction ba) a a' tc1 tc2 /\ data_step signers a a') ->
  borrowing (try_borrow_instruction_account ic i) scope tc = (Ok tt, tc') -> data_steps signers tc tc'.
Proof.
  intros Hsc Hr. apply (borrowing_becomes _ _ _ _ _ (data_step signers)) in Hr as (ia & a & a' & _ & Hb & Hd).
  - by eapply becomes_data_steps.
  - intros ia tc1 tc2 _ _ _ Hs. by apply (Hsc (instruction_handle_of ic i ia)).
Qed.

Lemma transfer_verified_same_data ic i j l tc tc' :
  ic_small ic -> transfer_verified ic i j l tc = (Ok tt, tc') -> same_data tc tc'.
Proof.
  intros Hs (from & to & a & b & mid & _ & _ & H1 & H2 & _)%transfer_verified_spec; [|done].
  eapply same_data_trans; [by eapply becomes_same_data|by eapply becomes_same_data].
Qed.

Lemma transfer_same_data ic i j l tc tc' :
  ic_small ic -> transfer env ic i j l tc = (Ok tt, tc') -> same_data tc tc'.
Proof.
  intros Hs Hr. unfold transfer in Hr. apply bind_ok_inv in Hr as (sg & s & Hq & Hr).
  apply lift_ok_inv in Hq as [_ ->]. destruct sg; [|by inv_ok Hr].
  by eapply transfer_verified_same_data.
Qed.

Lemma allocated_step signers space owner a :
  acc_data a = [] -> data_step signers a (allocated space owner a).
Proof. intros Hd. right; left. split; [done|]. simpl. by apply Forall_replicate. Qed.

Lemma create_account_steps ic i j ad l space owner signers tc tc' :
  ic_small ic -> 0 <= space ->
  create_account env ic i j ad l space owner signers tc = (Ok tt, tc') -> data_steps signers tc tc'.
Proof.
  intros Hs Hsp (from & to & a & b & tc1 & mid & _ & _ & Hb & H1 & [c H2] & _ & Hd & _)%create_account_spec;
    [|done..].
  eapply data_steps_trans_same; [eapply becomes_data_steps; [done|by apply allocated_step]|].
  eapply same_data_trans; [by eapply becomes_same_data|by eapply becomes_same_data].
Qed.

Lemma withdraw_steps ic i l j r signers tc tc' :
  ic_small ic -> withdraw_nonce_account env ic i l j r signers tc = (Ok tt, tc') ->
  data_steps signers tc tc'.
Proof.
  intros Hs (from & to & a & a1 & b & mid & signer & _ & _ & H1 & H2 & _ & _ & Hin & Hwd & _)%withdraw_spec;
    [|done].
  apply withdrawable_step with (signers := signers) in Hwd; [|done].
  eapply data_steps_trans_same; [|by eapply becomes_same_data].
  eapply becomes_data_steps; [done|]. by eapply data_step_data; [| |exact Hwd].
Qed.

Lemma assign_step signers ba ad owner sg tc tc' :
  assign ba ad owner sg tc = (Ok tt, tc') ->
  exists a a', becomes (ba_index_in_transaction ba) a a' tc tc' /\ data_step signers a a'.
Proof.
  intros (a & Hch & _)%assign_changed. eexists a, _. split; [by apply changed_becomes|]. by left.
Qed.

Lemma allocate_step signers ba ad space sg tc tc' :
  0 <= space -> allocate ba ad space sg tc = (Ok tt, tc') ->
  exists a a', becomes (ba_index_in_transaction ba) a a' tc tc' /\ data_step signers a a'.
Proof.
  intros Hsp (a & Hch & _ & Hd & _)%allocate_changed; [|done].
  eexists a, _. split; [by apply changed_becomes|]. right; left. split; [done|].
  simpl. rewrite Hd, resize_nil. by apply Forall_replicate.
Qed.

Lemma allocate_and_assign_step signers ba ad space owner sg tc tc' :
  0 <= space -> allocate_and_assign ba ad space owner sg tc = (Ok tt, tc') ->
  exists a a', becomes (ba_index_in_transaction ba) a a' tc tc' /\ data_step signers a a'.
Proof.
  intros Hsp (a & Hb & _ & Hd & _)%allocate_and_assign_becomes; [|done].
  eexists a, _. split; [done|]. by apply allocated_step.
Qed.

(** The reads at the front of a scope. *)
Definition reads {A} (m : TxM A) : Prop := forall tc a tc', m tc = (Ok a, tc') -> tc' = tc.

Lemma reads_bind {A B} (m : TxM A) (f : A -> TxM B) tc b tc' :
  reads m -> bind m f tc = (Ok b, tc') -> exists a, f a tc = (Ok b, tc').
Proof. intros Hm (a & s & H1 & H2)%bind_ok_inv. apply Hm in H1 as ->. eauto. Qed.

Lemma check_recent_blockhashes_reads ic i : reads (check_recent_blockhashes env ic i).
Proof.
  intros tc a tc' Hr. unfold check_recent_blockhashes in Hr.
  apply bind_ok_inv in Hr as (hashes & s & Hq & Hr). apply query_ok_inv in Hq as [_ ->].
  destruct hashes; by inv_ok Hr.
Qed.

Lemma instruction_address_reads ic i ws : reads (instruction_address ic i ws).
Proof. intros tc a tc' Hr. unfold instruction_address in Hr. by inv_ok Hr. Qed.

Lemma query_reads {A} (q : TransactionContext -> Res A) : reads (query q).
Proof. intros tc a tc' Hr. by inv_ok Hr. Qed.

(** Skips the reads; what is left of the run is the work. *)
Ltac skip_reads H :=
  repeat match type of H with
    | bind (check_recent_blockhashes _ _ _) _ _ = _ =>
        apply reads_bind in H as [? H]; [|apply check_recent_blockhashes_reads]
    | bind (instruction_address _ _ _) _ _ = _ =>
        apply reads_bind in H as [? H]; [|apply instruction_address_reads]
    | bind (query _) _ _ = _ => apply reads_bind in H as [? H]; [|apply query_reads]
    end.
Ltac scope_steps Hr :=
  eapply borrowing_data_steps; [|exact Hr]; intros ba tc1 tc2 Hsc; cbv beta in Hsc; skip_reads Hsc.

Lemma dispatch_data_steps ic signers instruction tc tc' :
  ic_small ic -> system_instruction_wf instruction ->
  dispatch env ic signers instruction tc = (Ok tt, tc') -> data_steps signers tc tc'.
Proof.
  intros Hs Hwf Hr.
  destruct instruction; unfold dispatch in Hr; simpl in Hwf; unfold in_range in Hwf; simpl in Hwf;
    apply bind_ok_inv in Hr as (u & s & Hq & Hr); apply lift_ok_inv in Hq as [_ ->]; skip_reads Hr.
  - eapply create_account_steps; [done| |exact Hr]. lia.
  - scope_steps Hr. by eapply assign_step.
  - by eapply same_data_steps, transfer_same_data.
  - eapply create_account_steps; [done| |exact Hr]. lia.
  - scope_steps Hr. by apply advance_step.
  - by eapply withdraw_steps.
  - scope_steps Hr. by eapply initialize_step.
  - scope_steps Hr. by eapply authorize_step.
  - scope_steps Hr. eapply allocate_step; [|done]. lia.
  - scope_steps Hr. eapply allocate_and_assign_step; [|done]. lia.
  - scope_steps Hr. by eapply assign_step.
  - unfold transfer_with_seed in Hr. apply bind_ok_inv in Hr as (sg & s & Hq & Hr).
    apply lift_ok_inv in Hq as [_ ->]. destruct sg; [|by inv_ok Hr]. skip_reads Hr.
    apply bind_ok_inv in Hr as (ad & s & Hq & Hr). apply lift_ok_inv in Hq as [_ ->]. skip_reads Hr.
    case_bool_decide; [|done]. by eapply same_data_steps, transfer_verified_same_data.
  - scope_steps Hr. by eapply upgrade_step.
Qed.

(** C17: the system program implements the nonce machine.  Whatever instruction
    succeeds, each account's data is as before, or was empty and is zeroed space,
    or held a nonce state and now holds one that is a step of the machine away. *)
Theorem system_program_refines_nonce_machine
    `{!BincodeLimitedOk SystemInstruction system_instruction_wf}
    (ic : InstructionContext) (signers : gset Pubkey) (tc tc' : TransactionContext) :
  get_current_instruction_context tc = Ok ic -> ic_small ic -> get_signers ic tc = Ok signers ->
  Entrypoint env tc = (Ok tt, tc') ->
  data_steps signers tc tc'.
Proof.
  intros Hic Hs Hsg Hr. unfold Entrypoint in Hr. apply bind_ok_inv in Hr as (ic' & s & Hq & Hr).
  apply query_ok_inv in Hq as [Hq ->]. rewrite Hic in Hq. injection Hq as <-.
  apply bind_ok_inv in Hr as (ins & s & Hq & Hr). apply lift_ok_inv in Hq as [Hd%ok_or_ok ->].
  apply bind_ok_inv in Hr as (signers' & s & Hq & Hr). apply query_ok_inv in Hq as [Hsg' ->].
  rewrite Hsg in Hsg'. injection Hsg' as <-.
  eapply dispatch_data_steps; try done. by eapply deserialize_with_limit_wf.
Qed.

(** A durable nonce is used once.  An advance or a withdrawal of everything
    needs a blockhash whose nonce is not the stored one; afterwards the old nonce
    verifies no transaction, and no step that advances or closes can follow under
    the same blockhash. *)
Theorem nonce_used_once (signers signers' : gset Pubkey) (v v' : Versions) (old : Data) :
  verify_recent_blockhash v (durable_nonce old) = Some old ->
  nonce_step signers v v' ->
  (* the step advanced or closed the nonce *)
  (forall data, state v' = Initialized data -> durable_nonce data <> durable_nonce old) ->
  verify_recent_blockhash v' (durable_nonce old) = None /\
  (forall v'', nonce_step signers' v' v'' ->
     match state v', state v'' with
     | Initialized data, Initialized data' => durable_nonce data' = durable_nonce data
     | Initialized _, Uninitialized => False
     | Uninitialized, _ => True
     end).
Proof.
  intros Hv Hstep Hadv. unfold verify_recent_blockhash in Hv.
  destruct v as [|[|d]]; try done. case_bool_decide; [|done]. injection Hv as ->.
  split.
  - destruct v' as [|[|d']]; try done. simpl. rewrite bool_decide_eq_false_2; [done|].
    intros Heq. by apply (Hadv d').
  - inversion Hstep; subst; simpl in *; simplify_eq; try by destruct (Hadv _ eq_refl).
    + intros v'' Hs. by inversion Hs; subst; simpl in *; simplify_eq.
    + intros v'' Hs. done.
Qed.

End nonce.
