(* ===== verification/SystemDemo.v ===== *)
(** * Runs of the system program

    Concrete instances of what is outside the repository, and runs of a
    transfer, the creation of an account and the advance of a nonce.  They
    instantiate the theorems of [SystemRules] and [NonceRules]. *)

From S2P Require Import Prelude Errors Rent Account Pubkey Sysvars EpochSchedule Nonce TransactionContext RuntimeRules Effects SysvarCache FeatureSet SystemProgram SystemRules NonceRules.

Definition key (n : Z) : Pubkey := replicate 32 n.

#[global] Instance demo_hashing : Hashing := {| sha256 := fun bs => take 32 (bs ++ replicate 32 0) |}.

#[global] Instance demo_ids : ProgramIds := {|
  system_program_id := key 0; native_loader_id := key 101; sysvar_rent_id := key 102;
  sysvar_recent_blockhashes_id := key 103; sysvar_clock_id := key 104;
  sysvar_slot_hashes_id := key 105; sysvar_stake_history_id := key 106;
  sysvar_last_restart_slot_id := key 107; sysvar_instructions_id := key 108;
  sysvar_epoch_schedule_id := key 109; sysvar_epoch_rewards_id := key 110; sysvar_fees_id := key 111;
|}.

#[global] Instance demo_versions : Bincode Versions := Versions_bincode.
#[global] Instance demo_versions_ok : BincodeOk Versions := Versions_bincode_ok.

(** A decoder of three instructions. *)
Definition decode_demo (bs : Bytes) : option SystemInstruction :=
  match bs with
  | [0; lamports; space] =>
      if bool_decide (in_range U8 lamports /\ in_range U8 space)
      then Some (CreateAccount lamports space (key 7)) else None
  | [2; lamports] => if bool_decide (in_range U8 lamports) then Some (Transfer lamports) else None
  | [4] => Some AdvanceNonceAccount
  | _ => None
  end.

#[global] Instance demo_instructions : BincodeLimited SystemInstruction := {|
  deserialize_with_limit := fun _ bs => decode_demo bs
|}.

#[global] Instance demo_instructions_ok : BincodeLimitedOk SystemInstruction system_instruction_wf.
Proof.
  intros limit bs x H. change (decode_demo bs = Some x) in H. unfold decode_demo in H.
  repeat (case_match; try done); simplify_eq; simpl; try done.
  - repeat match goal with H : bool_decide _ = true |- _ => apply bool_decide_eq_true in H end.
    unfold in_range in *. simpl in *. split_and!; try lia; try done.
    split; [done|]. apply Forall_replicate. unfold is_byte. lia.
  - repeat match goal with H : bool_decide _ = true |- _ => apply bool_decide_eq_true in H end.
    unfold in_range in *. simpl in *. lia.
Qed.

Definition demo_env : Environment :=
  mkEnvironment (key 9) 5000
    (set_recent_blockhashes [RecentBlockhashes.Entry_new (key 9) 5000] SysvarCache_default)
    (mkFeatureSet ∅ ∅) true.

Definition program : AccountSharedData := mkAccount 1 [] (key 101) true 0.
Definition wallet (lamports : Z) : AccountSharedData := mkAccount lamports [] (key 0) false 0.

(** An instruction with accounts 0 and 1, both signers and writable, run by the
    system program at account 2; account 3 is the recent-blockhashes sysvar. *)
Definition demo_ias (second : IndexOfAccount) : list InstructionAccount :=
  [mkInstructionAccount 0 0 0 true true; mkInstructionAccount second 1 1 true true].
Definition demo_ic (second : IndexOfAccount) (data : Bytes) : InstructionContext :=
  mkInstructionContext 0 0 [2] (demo_ias second) data.
Definition demo_tc (first : AccountSharedData) (second : IndexOfAccount) (data : Bytes)
  : TransactionContext :=
  with_stack [0] (with_trace [demo_ic second data; InstructionContext_default]
    (TransactionContext_new [(key 1, first); (key 2, wallet 0); (key 0, program);
       (key 103, wallet 1)] Rent_default 5 64)).

Definition after (tc : TransactionContext) : TransactionContext := final (Entrypoint demo_env) tc.

(** ** A transfer *)

Definition transfer_tc : TransactionContext := demo_tc (wallet 100) 1 [2; 30].

Lemma transfer_run : Entrypoint demo_env transfer_tc = (Ok tt, after transfer_tc).
Proof. vm_compute. reflexivity. Qed.

Lemma system_program_conserves_lamports_witness :
  acc_lamports <$> values (after transfer_tc) = [70; 30; 1; 1] /\
  total_lamports (after transfer_tc) = total_lamports transfer_tc.
Proof.
  split; [vm_compute; reflexivity|].
  exact (system_program_conserves_lamports demo_env transfer_tc (after transfer_tc) transfer_run).
Defined.

Lemma demo_small second data : ic_small (demo_ic second data).
Proof. vm_compute. discriminate. Qed.

Lemma system_debits_are_authorized_witness :
  writable_at (demo_ic 1 [2; 30]) 0 = true /\ program_owns (demo_ic 1 [2; 30]) transfer_tc (wallet 100) /\
  spend_authorized (demo_ic 1 [2; 30]) transfer_tc 0 (wallet 100).
Proof.
  refine (system_debits_are_authorized demo_env (demo_ic 1 [2; 30]) transfer_tc (after transfer_tc)
    _ _ transfer_run 0 (wallet 100) (wallet 70) _ _ _).
  - reflexivity.
  - apply demo_small.
  - reflexivity.
  - vm_compute. reflexivity.
  - vm_compute. reflexivity.
Defined.

(** ** Creation of an account *)

Definition create_tc : TransactionContext := demo_tc (wallet 100) 1 [0; 40; 3].

Lemma create_run :
  dispatch demo_env (demo_ic 1 [0; 40; 3]) {[key 1; key 2]} (CreateAccount 40 3 (key 7)) create_tc =
    (Ok tt, after create_tc).
Proof. vm_compute. reflexivity. Qed.

Lemma create_account_exact_witness :
  account_at (after create_tc) 1 = Some (mkAccount 40 [0; 0; 0] (key 7) false 0) /\
  account_at (after create_tc) 0 = Some (wallet 60).
Proof.
  assert (account_at (after create_tc) 1 =
            Some (mkAccount 40 (replicate (Z.to_nat 3) 0) (key 7) false 0) /\
          account_at (after create_tc) 0 = Some (debit 40 (wallet 100)) /\
          forall j, j <> 0 -> j <> 1 -> account_at (after create_tc) j = account_at create_tc j)
    as (H1 & H2 & _).
  { refine (proj2 (proj2 (proj2 (proj2 (proj2 (proj2 (proj2 (proj2
      (create_account_exact demo_env (demo_ic 1 [0; 40; 3]) {[key 1; key 2]} 40 3 (key 7)
         (mkInstructionAccount 0 0 0 true true) (mkInstructionAccount 1 1 1 true true)
         (wallet 100) (wallet 0) create_tc (after create_tc) _ _ _ _ _ _ _ _ create_run)))))))));
      try reflexivity; try discriminate; apply demo_small. }
  split; [exact H1|exact H2].
Defined.

(** ** Advance of a nonce *)

Definition stored : Data := Data_new (key 1) (key 5) 5000.
Definition nonce_account : AccountSharedData :=
  mkAccount 2000000
    (default [] (bincode_serialize (Current (Initialized stored)))) (key 0) false 0.
Definition advance_tc : TransactionContext := demo_tc nonce_account 3 [4].

Lemma advance_run : Entrypoint demo_env advance_tc = (Ok tt, after advance_tc).
Proof. vm_compute. reflexivity. Qed.

Lemma system_program_refines_nonce_machine_witness :
  data_steps demo_env {[key 1; key 103]} advance_tc (after advance_tc) /\
  (account_at (after advance_tc) 0 ≫= shared_deserialize_data) =
    Some (Current (Initialized (Data_new (key 1) (from_blockhash (key 9)) 5000))).
Proof.
  split; [|vm_compute; reflexivity].
  apply (system_program_refines_nonce_machine demo_env (demo_ic 3 [4]) {[key 1; key 103]} advance_tc
    (after advance_tc)).
  - reflexivity.
  - apply demo_small.
  - vm_compute. reflexivity.
  - exact advance_run.
Defined.

Lemma nonce_used_once_witness :
  verify_recent_blockhash
    (Current (Initialized (Data_new (key 1) (from_blockhash (key 9)) 5000))) (key 5) = None.
Proof.
  refine (proj1 (nonce_used_once demo_env {[key 1]} {[key 1]} (Current (Initialized stored))
    (Current (Initialized (Data_new (key 1) (from_blockhash (key 9)) 5000))) stored _ _ _)).
  - reflexivity.
  - apply (ns_advance demo_env _ _ stored); [reflexivity|apply elem_of_singleton; reflexivity|].
    vm_compute. discriminate.
  - intros data [= <-]. vm_compute. discriminate.
Defined.
