(* ===== verification/InvokeContext.v ===== *)
(** * Invoking programs (program-runtime/src/invoke_context.rs)

    The call stack of programs over the transaction context: compute units,
    the reentrancy rule, and the preparation and processing of instructions,
    from the top level and from builtin programs ([native_invoke]).

    A builtin program is a function of the runtime's own [native_invoke], so
    that programs and runtime call each other.  The recursion runs on fuel; the
    stack of the transaction context bounds its depth, and [ProcessRules] shows
    that more fuel than the stack has room changes nothing.

    The program cache is a parameter: [find_builtin id] is [None] if the cache
    has no entry for [id] and [Some None] if the entry is not a builtin with an
    entrypoint.  Of the compute budget only the compute unit limit is kept
    ([push] copies the budget for programs that read it).  Timings and log
    messages are not modelled, except that a log message evaluates its arguments. *)

From S2P Require Import Prelude Errors Rent Account Pubkey Sysvars EpochSchedule Nonce TransactionContext SysvarCache SystemProgram.

(** ** State *)

Record BpfAllocator := mkBpfAllocator { alloc_len : Z; alloc_pos : Z }.

(** [SerializedAccountMetadata] and trace entries are only stored here. *)
Record SerializedAccountMetadata := mkSerializedAccountMetadata {
  original_data_len : Z;
  vm_data_addr : Z;
  vm_key_addr : Z;
  vm_lamports_addr : Z;
  vm_owner_addr : Z;
}.

Record SyscallContext := mkSyscallContext {
  allocator : BpfAllocator;
  accounts_metadata : list SerializedAccountMetadata;
  trace_log : list (list Z);
}.

Record InvokeContext := mkInvokeContext {
  transaction_context : TransactionContext;
  environment : Environment;
  compute_unit_limit : Z;
  compute_meter : Z;
  syscall_context : list (option SyscallContext);
  traces : list (list (list Z));
  (* the variable behind [compute_units_consumed: &mut u64] *)
  compute_units_consumed : Z;
}.

Definition with_transaction_context x (s : InvokeContext) :=
  mkInvokeContext x (environment s) (compute_unit_limit s) (compute_meter s) (syscall_context s)
    (traces s) (compute_units_consumed s).
Definition with_compute_meter x (s : InvokeContext) :=
  mkInvokeContext (transaction_context s) (environment s) (compute_unit_limit s) x
    (syscall_context s) (traces s) (compute_units_consumed s).
Definition with_syscall_context x (s : InvokeContext) :=
  mkInvokeContext (transaction_context s) (environment s) (compute_unit_limit s) (compute_meter s)
    x (traces s) (compute_units_consumed s).
Definition with_traces x (s : InvokeContext) :=
  mkInvokeContext (transaction_context s) (environment s) (compute_unit_limit s) (compute_meter s)
    (syscall_context s) x (compute_units_consumed s).
Definition with_consumed x (s : InvokeContext) :=
  mkInvokeContext (transaction_context s) (environment s) (compute_unit_limit s) (compute_meter s)
    (syscall_context s) (traces s) x.

Definition InvokeContext_new (tc : TransactionContext) (env : Environment) (limit : Z)
  : InvokeContext := mkInvokeContext tc env limit limit [] [] 0.

Abbreviation InvM := (M InvokeContext InstructionError).

(** Work on the transaction context. *)
Definition on_tc {A} (m : TxM A) : InvM A := zoom transaction_context with_transaction_context m.

(** ** The allocator of a program's heap *)

(** [MM_HEAP_START] of solana_rbpf. *)
Definition MM_HEAP_START : Z := 12884901888.

(** [align_offset]: the bytes up to the next multiple of [align]. *)
Definition align_offset (pos align : Z) : Z := (- pos) mod align.

Definition BpfAllocator_new (len : Z) : BpfAllocator := mkBpfAllocator len 0.

Definition alloc (size align : Z) (self : BpfAllocator) : option Z * BpfAllocator :=
  let bytes_to_align := align_offset (alloc_pos self) align in
  if saturating_add U64 (saturating_add U64 (alloc_pos self) bytes_to_align) size <=? alloc_len self
  then
    let pos := saturating_add U64 (alloc_pos self) bytes_to_align in
    let addr := saturating_add U64 MM_HEAP_START pos in
    (Some addr, mkBpfAllocator (alloc_len self) (saturating_add U64 pos size))
  else (None, self).

(** ** Compute units *)

Definition consume (amount : Z) : InvM unit :=
  modify (fun s => with_compute_meter (saturating_sub U64 (compute_meter s) amount) s).

Definition get_remaining (s : InvokeContext) : Z := compute_meter s.

(** What a program ends with: an [InstructionError] in a [SyscallError], or any
    other error of the virtual machine. *)
Inductive ProgramErr : Type :=
| PInstruction (e : InstructionError)
| POther.

Abbreviation ProgM := (M InvokeContext ProgramErr).

Definition consume_checked (amount : Z) : ProgM unit :=
  let? exceeded := gets (fun s => compute_meter s <? amount) in
  modify (fun s => with_compute_meter (saturating_sub U64 (compute_meter s) amount) s) ;?
  if exceeded then fail (PInstruction ComputationalBudgetExceeded) else ret tt.

(** The errors of an instruction handler, as a program's errors. *)
Definition as_program {A} (m : InvM A) : ProgM A := fun s =>
  let (o, s') := m s in (map_err PInstruction o, s').

(** [declare_process_instruction!] *)
Definition declare_process_instruction (cu_to_consume : Z) (inner : InvM unit) : ProgM unit :=
  (if 0 <? cu_to_consume then consume_checked cu_to_consume else ret tt) ;?
  as_program inner.

(** ** The stack *)

(** [try_borrow_last_program_account(..).map(|account| account.get_key() ==
    program_id).unwrap_or(false)]; the borrow ends with the expression. *)
Definition last_program_is (program_id : Pubkey) (ic : Res InstructionContext)
    (tc : TransactionContext) : Res bool :=
  match ic with
  | Ok ic =>
      match fst (try_borrow_last_program_account ic tc) with
      | Ok account =>
          let! key := get_key account tc in
          Ok (bool_decide (key = program_id))
      | _ => Ok false
      end
  | _ => Ok false
  end.

Fixpoint any_level (program_id : Pubkey) (levels : list Z) (tc : TransactionContext) : Res bool :=
  match levels with
  | [] => Ok false
  | level :: levels =>
      let! found := last_program_is program_id (get_instruction_context_at_nesting_level level tc) tc in
      if found then Ok true else any_level program_id levels tc
  end.

Definition check_reentrancy (tc : TransactionContext) : Res unit :=
  let! ic := get_instruction_context_at_index_in_trace (get_instruction_trace_length tc) tc in
  let! program_id := map_err (fun _ => UnsupportedProgramId) (get_last_program_key ic tc) in
  if get_instruction_context_stack_height tc =? 0 then Ok tt
  else
    let! contains := any_level program_id (seqZ 0 (get_instruction_context_stack_height tc)) tc in
    let! is_last := last_program_is program_id (get_current_instruction_context tc) tc in
    if contains && negb is_last then Err ReentrancyNotAllowed else Ok tt.

Definition invoke_push : InvM unit :=
  on_tc (query check_reentrancy) ;?
  modify (fun s => with_syscall_context (syscall_context s ++ [None]) s) ;?
  on_tc push.

Definition invoke_pop : InvM unit :=
  modify (fun s =>
    let s' := with_syscall_context (removelast (syscall_context s)) s in
    match list.last (syscall_context s) with
    | Some (Some sc) => with_traces (traces s ++ [trace_log sc]) s'
    | _ => s'
    end) ;?
  on_tc pop.

(** ** Preparing an instruction called by a program *)

Record AccountMeta := mkAccountMeta {
  meta_pubkey : Pubkey;
  meta_is_signer : bool;
  meta_is_writable : bool;
}.

Record StableInstruction := mkStableInstruction {
  si_accounts : list AccountMeta;
  si_data : Bytes;
  si_program_id : Pubkey;
}.

(** [is_signer |= ..; is_writable |= ..] *)
Definition unify_privileges (meta : AccountMeta) (ia : InstructionAccount) : InstructionAccount :=
  mkInstructionAccount (index_in_transaction ia) (index_in_caller ia) (index_in_callee ia)
    (ia_is_signer ia || meta_is_signer meta) (ia_is_writable ia || meta_is_writable meta).

(** One iteration of the first loop: the deduplicated accounts and, for each
    account so far, the place of its entry among them. *)
Definition deduplicate_one (ic : InstructionContext) (tc : TransactionContext)
    (instruction_account_index : Z) (meta : AccountMeta)
    (acc : list InstructionAccount * list Z) : Res (list InstructionAccount * list Z) :=
  let '(deduplicated, duplicate_indicies) := acc in
  let! in_transaction := ok_or MissingAccount (find_index_of_account (meta_pubkey meta) tc) in
  match position (fun ia => index_in_transaction ia =? in_transaction) deduplicated with
  | Some duplicate_index =>
      let! ia := ok_or NotEnoughAccountKeys (vec_get deduplicated duplicate_index) in
      Ok (vec_set duplicate_index (unify_privileges meta ia) deduplicated,
          duplicate_indicies ++ [duplicate_index])
  | None =>
      let! in_caller := ok_or MissingAccount
                          (find_index_of_instruction_account ic (meta_pubkey meta) tc) in
      Ok (deduplicated ++ [mkInstructionAccount in_transaction in_caller
                             (as_index instruction_account_index)
                             (meta_is_signer meta) (meta_is_writable meta)],
          duplicate_indicies ++ [vec_len deduplicated])
  end.

Fixpoint deduplicate (ic : InstructionContext) (tc : TransactionContext) (index : Z)
    (metas : list AccountMeta) (acc : list InstructionAccount * list Z)
  : Res (list InstructionAccount * list Z) :=
  match metas with
  | [] => Ok acc
  | meta :: metas =>
      let! acc := deduplicate_one ic tc index meta acc in
      deduplicate ic tc (index + 1) metas acc
  end.

(** One iteration of the second loop: no privilege is gained. *)
Definition check_privileges (env : Environment) (ic : InstructionContext) (signers : list Pubkey)
    (ia : InstructionAccount) : TxM unit :=
  borrowing (try_borrow_instruction_account ic (index_in_caller ia)) (fun account =>
    if ia_is_writable ia && negb (is_writable account)
    then fail_with_key env account PrivilegeEscalation
    else if ia_is_signer ia && negb (is_signer account) then
      let? key := query (get_key account) in
      if bool_decide (key ∈ signers) then ret tt
      else fail_with_key env account PrivilegeEscalation
    else ret tt).

Fixpoint check_all_privileges (env : Environment) (ic : InstructionContext)
    (signers : list Pubkey) (ias : list InstructionAccount) : TxM unit :=
  match ias with
  | [] => ret tt
  | ia :: ias => check_privileges env ic signers ia ;? check_all_privileges env ic signers ias
  end.

(** [duplicate_indicies.into_iter().map(..).collect()] *)
Fixpoint collect_accounts (deduplicated : list InstructionAccount) (indices : list Z)
  : Res (list InstructionAccount) :=
  match indices with
  | [] => Ok []
  | i :: indices =>
      let! ia := ok_or NotEnoughAccountKeys (vec_get deduplicated i) in
      let! ias := collect_accounts deduplicated indices in
      Ok (ia :: ias)
  end.

Definition prepare_instruction_tc (env : Environment) (instruction : StableInstruction)
    (signers : list Pubkey) : TxM (list InstructionAccount * list IndexOfAccount) :=
  let? ic := query get_current_instruction_context in
  let? dedup := query (fun tc => deduplicate ic tc 0 (si_accounts instruction) ([], [])) in
  check_all_privileges env ic signers (fst dedup) ;?
  let? instruction_accounts := lift (collect_accounts (fst dedup) (snd dedup)) in
  let? program_account_index := query (fun tc => ok_or MissingAccount
         (find_index_of_instruction_account ic (si_program_id instruction) tc)) in
  borrowing (try_borrow_instruction_account ic program_account_index) (fun account =>
    let? acc := query (borrowed account) in
    if acc_executable acc then ret (instruction_accounts, [ba_index_in_transaction account])
    else fail AccountNotExecutable).

Definition prepare_instruction (instruction : StableInstruction) (signers : list Pubkey)
  : InvM (list InstructionAccount * list IndexOfAccount) :=
  let? env := gets environment in
  on_tc (prepare_instruction_tc env instruction signers).

(** ** Processing an instruction *)

Abbreviation Invoke := (StableInstruction -> list Pubkey -> InvM unit).
Abbreviation Builtin := (Invoke -> ProgM unit).

(** The system program, as the runtime registers it: [Entrypoint] behind its
    charge of compute units. *)
Definition system_builtin `{!Hashing} `{!ProgramIds} `{!Bincode Versions}
    `{!BincodeLimited SystemInstruction} : Builtin := fun _ =>
  declare_process_instruction DEFAULT_COMPUTE_UNITS
    (let? env := gets environment in on_tc (Entrypoint env)).

Section process.
Context `{!ProgramIds}.
Context (find_builtin : Pubkey -> option (option Builtin)).

(** The owner of the root program account, or its key if the native loader owns
    it. *)
Definition builtin_id_of (ic : InstructionContext) : TxM Pubkey := fun tc =>
  match try_borrow_program_account ic 0 tc with
  | (Ok root, tc1) =>
      finally
        (let? acc := query (borrowed root) in
         if bool_decide (acc_owner acc = native_loader_id) then query (get_key root)
         else ret (acc_owner acc)) (drop_account root) tc1
  | (Err _, tc1) => (Err UnsupportedProgramId, tc1)
  | (Panic, tc1) => (Panic, tc1)
  end.

(** Runs the program, and turns its result into the instruction's. *)
Definition run_program (function : Builtin) (invoke : Invoke) (builtin_id program_id : Pubkey)
  : InvM unit := fun s =>
  let pre_remaining_units := get_remaining s in
  let (o, s1) := function invoke s in
  let result := map_err (fun e => match e with
                                  | PInstruction e => e
                                  | POther => ProgramFailedToComplete
                                  end) o in
  let consumed := saturating_sub U64 pre_remaining_units (get_remaining s1) in
  let s2 := with_consumed consumed s1 in
  if bool_decide (builtin_id = program_id) && is_ok result && (consumed =? 0)
  then (Err BuiltinProgramsMustConsumeComputeUnits, s2)
  else (result, s2).

Definition process_executable_chain (invoke : Invoke) : InvM unit :=
  let? ic := on_tc (query get_current_instruction_context) in
  let? builtin_id := on_tc (builtin_id_of ic) in
  let? entry := lift (ok_or UnsupportedProgramId (find_builtin builtin_id)) in
  let? function := lift (ok_or UnsupportedProgramId entry) in
  let? program_id := on_tc (query (get_last_program_key ic)) in
  on_tc (set_return_data program_id []) ;?
  run_program function invoke builtin_id program_id.

(** [a.and(b)]: [b] is evaluated also if [a] is an error, which comes first. *)
Definition and_always {A} (m : InvM A) (m' : InvM unit) : InvM unit := fun s =>
  match m s with
  | (Ok _, s1) => m' s1
  | (Err e, s1) => let (o', s2) := m' s1 in
                   (match o' with Panic => Panic | _ => Err e end, s2)
  | (Panic, s1) => (Panic, s1)
  end.

Definition process_instruction_with (invoke : Invoke) (data : Bytes)
    (accounts : list InstructionAccount) (program_indices : list IndexOfAccount) : InvM unit :=
  modify (with_consumed 0) ;?
  on_tc (update_next_instruction_context (configure program_indices accounts data)) ;?
  invoke_push ;?
  and_always (process_executable_chain invoke) invoke_pop.

(** The caller's own variable [compute_units_consumed]. *)
Definition native_invoke_with (process : Bytes -> list InstructionAccount -> list IndexOfAccount -> InvM unit)
    : Invoke := fun instruction signers =>
  let? prepared := prepare_instruction instruction signers in
  let? outer := gets compute_units_consumed in
  finally (process (si_data instruction) (fst prepared) (snd prepared)) (with_consumed outer).

(** The knot: [fuel] bounds the depth of nested calls. *)
Fixpoint process_instruction (fuel : nat) (data : Bytes) (accounts : list InstructionAccount)
    (program_indices : list IndexOfAccount) : InvM unit :=
  match fuel with
  | O => panic
  | S fuel =>
      process_instruction_with (native_invoke_with (process_instruction fuel))
        data accounts program_indices
  end.

Definition native_invoke (fuel : nat) : Invoke := native_invoke_with (process_instruction fuel).

End process.
