(* ===== verification/InvokeRules.v ===== *)
(** * The rules of cross-program invocation (program-runtime/src/invoke_context.rs)

    [prepare_instruction] gives a callee no privilege its caller does not have:
    every account it passes on is one of the caller's, writable only if it is
    writable in the caller, and a signer only if it signed the caller's
    instruction or is among the addresses the caller may sign for.  Accounts
    named more than once get the union of what was requested of them, in one
    entry that all of them share. *)

From S2P Require Import Prelude Errors Rent Account Pubkey Sysvars EpochSchedule Nonce TransactionContext RuntimeRules CallStack SysvarCache SystemProgram Effects InvokeContext.

(** ** The first loop: deduplication *)

(** The account a meta names is the [j]-th of the transaction. *)
Definition names_account (tc : TransactionContext) (j : IndexOfAccount) (meta : AccountMeta) : bool :=
  bool_decide (find_index_of_account (meta_pubkey meta) tc = Some j).

(** The union of the privileges requested for the [j]-th account. *)
Definition requested (privilege : AccountMeta -> bool) (tc : TransactionContext)
    (metas : list AccountMeta) (j : IndexOfAccount) : bool :=
  existsb (fun meta => privilege meta && names_account tc j meta) metas.

(** What holds between the metas read so far and the entries made of them. *)
Record dedup_inv (ic : InstructionContext) (tc : TransactionContext) (metas : list AccountMeta)
    (deduplicated : list InstructionAccount) (duplicate_indicies : list Z) : Prop := {
  di_entries : Forall2 (fun meta d => exists ia, vec_get deduplicated d = Some ia /\
    names_account tc (index_in_transaction ia) meta = true) metas duplicate_indicies;
  di_distinct : NoDup (index_in_transaction <$> deduplicated);
  di_exact : Forall (fun ia =>
    (exists pubkey, find_index_of_account pubkey tc = Some (index_in_transaction ia) /\
       find_index_of_instruction_account ic pubkey tc = Some (index_in_caller ia)) /\
    position (names_account tc (index_in_transaction ia)) metas = Some (index_in_callee ia) /\
    ia_is_signer ia = requested meta_is_signer tc metas (index_in_transaction ia) /\
    ia_is_writable ia = requested meta_is_writable tc metas (index_in_transaction ia)) deduplicated;
}.

Lemma position_app {A} (p : A -> bool) (l1 l2 : list A) :
  position p (l1 ++ l2) =
  match position p l1 with Some i => Some i | None => Z.add (vec_len l1) <$> position p l2 end.
Proof.
  induction l1 as [|x l1 IH]; simpl.
  - by destruct (position p l2).
  - destruct (p x); [done|]. rewrite IH. destruct (position p l1); [done|].
    rewrite vec_len_cons. destruct (position p l2); simpl; [f_equal; lia|done].
Qed.

Lemma position_None {A} (p : A -> bool) (l : list A) :
  position p l = None <-> Forall (fun x => p x = false) l.
Proof.
  induction l as [|x l IH]; simpl; [done|]. rewrite list.Forall_cons.
  destruct (p x); [naive_solver|]. rewrite fmap_None, IH. naive_solver.
Qed.

Lemma requested_app privilege tc metas meta j :
  requested privilege tc (metas ++ [meta]) j =
  requested privilege tc metas j || privilege meta && names_account tc j meta.
Proof. unfold requested. rewrite existsb_app. simpl. by rewrite orb_false_r. Qed.

Lemma names_account_true tc j meta :
  names_account tc j meta = true <-> find_index_of_account (meta_pubkey meta) tc = Some j.
Proof. unfold names_account. apply bool_decide_eq_true. Qed.

Lemma names_account_other tc i j meta :
  find_index_of_account (meta_pubkey meta) tc = Some i -> i <> j -> names_account tc j meta = false.
Proof. intros Hi Hne. unfold names_account. apply bool_decide_eq_false. congruence. Qed.

(** Another meta for an account that has an entry. *)
Lemma dedup_inv_again ic tc metas deduplicated indices meta i d ia :
  dedup_inv ic tc metas deduplicated indices ->
  find_index_of_account (meta_pubkey meta) tc = Some i ->
  vec_get deduplicated d = Some ia -> index_in_transaction ia = i ->
  dedup_inv ic tc (metas ++ [meta]) (vec_set d (unify_privileges meta ia) deduplicated) (indices ++ [d]).
Proof.
  intros [He Hd Hx] Hi Hia <-. apply vec_get_Some in Hia as Hia'. destruct Hia' as [Hd0 Hl].
  assert (names_account tc (index_in_transaction ia) meta = true) as Hm by by apply names_account_true.
  pose proof (vec_get_lt _ _ _ Hia) as Hlt.
  split.
  - apply Forall2_app.
    + eapply list.Forall2_impl; [done|]. intros m d' (ib & Hib & Hn).
      destruct (decide (d = d')) as [<-|Hne]; [|rewrite vec_get_set_ne by done; eauto].
      rewrite vec_get_set_eq by done. assert (ib = ia) as -> by congruence. by eexists.
    + constructor; [|done]. rewrite vec_get_set_eq by done. by eexists.
  - unfold vec_set. rewrite list_fmap_insert, list_insert_id; [done|].
    by rewrite list_lookup_fmap, Hl.
  - rewrite list.Forall_forall in Hx. apply list.Forall_forall. intros ib Hib.
    apply list_elem_of_lookup_1 in Hib as [n Hn]. unfold vec_set in Hn.
    rewrite list_lookup_insert in Hn. case_decide as Hc.
    + injection Hn as <-. destruct (Hx ia) as (Hk & Hp & Hs & Hw); [by eapply list_elem_of_lookup_2|].
      simpl. rewrite position_app, Hp, !requested_app, Hm, Hs, Hw, !andb_true_r. done.
    + destruct (Hx ib) as (Hk & Hp & Hs & Hw); [by eapply list_elem_of_lookup_2|].
      assert (index_in_transaction ia <> index_in_transaction ib) as Hne.
      { intros Heq. apply Hc. split; [|unfold vec_len in Hlt; lia].
        eapply (NoDup_lookup _ _ _ (index_in_transaction ia) Hd);
          rewrite list_lookup_fmap; [by rewrite Hl|by rewrite Hn, Heq]. }
      pose proof (names_account_other _ _ _ _ Hi Hne) as Hf.
      rewrite position_app, Hp, !requested_app, Hf, Hs, Hw, !andb_false_r, !orb_false_r. done.
Qed.

(** The first meta for an account. *)
Lemma dedup_inv_new ic tc metas deduplicated indices meta i c :
  dedup_inv ic tc metas deduplicated indices ->
  find_index_of_account (meta_pubkey meta) tc = Some i ->
  i ∉ index_in_transaction <$> deduplicated ->
  find_index_of_instruction_account ic (meta_pubkey meta) tc = Some c ->
  dedup_inv ic tc (metas ++ [meta])
    (deduplicated ++ [mkInstructionAccount i c (vec_len metas) (meta_is_signer meta) (meta_is_writable meta)])
    (indices ++ [vec_len deduplicated]).
Proof.
  intros [He Hd Hx] Hi Hnew Hc.
  assert (names_account tc i meta = true) as Hm by by apply names_account_true.
  assert (Forall (fun m => names_account tc i m = false) metas) as Hnone.
  { apply list.Forall_forall. intros m Hin. apply list_elem_of_lookup_1 in Hin as [n Hn].
    destruct (Forall2_lookup_l _ _ _ _ _ He Hn) as (d & _ & ia & Hia & Hna).
    apply names_account_true in Hna. eapply names_account_other; [done|]. intros <-.
    apply Hnew, list_elem_of_fmap_2. apply vec_get_Some in Hia as [_ Hia].
    by eapply list_elem_of_lookup_2. }
  assert (forall privilege, requested privilege tc metas i = false) as Hreq.
  { intros privilege. unfold requested. apply not_true_is_false. rewrite existsb_exists.
    intros (m & Hin & Hb). apply andb_true_iff in Hb as [_ Hb].
    rewrite list.Forall_forall in Hnone. rewrite Hnone in Hb; [done|]. by apply list_elem_of_In. }
  split.
  - apply Forall2_app.
    + eapply list.Forall2_impl; [done|]. intros m d (ia & Hia & Hn). exists ia. split; [|done].
      rewrite vec_get_app, decide_True; [done|]. apply vec_get_lt in Hia. lia.
    + constructor; [|done]. eexists. rewrite vec_get_app, decide_False, Z.sub_diag by lia. done.
  - rewrite fmap_app. apply list.NoDup_app. split; [done|]. split; [|apply NoDup_singleton].
    intros j Hj Hj'. apply list_elem_of_singleton in Hj' as ->. done.
  - apply list.Forall_app. split.
    + rewrite list.Forall_forall in Hx |- *. intros ia Hia.
      destruct (Hx ia Hia) as (Hk & Hp & Hs & Hw).
      assert (i <> index_in_transaction ia) as Hne by (intros ->; by apply Hnew, list_elem_of_fmap_2).
      pose proof (names_account_other _ _ _ _ Hi Hne) as Hf.
      rewrite position_app, Hp, !requested_app, Hf, Hs, Hw, !andb_false_r, !orb_false_r. done.
    + constructor; [|done]. simpl. split; [by eexists|].
      apply position_None in Hnone. rewrite position_app, Hnone, !requested_app, !Hreq, Hm, !andb_true_r.
      simpl. rewrite Hm. simpl. split; [f_equal; lia|done].
Qed.

(** The loop, from entries made of the metas before. *)
Lemma deduplicate_spec ic tc metas before deduplicated indices dedup :
  vec_len before + vec_len metas <= int_max U16 ->
  dedup_inv ic tc before deduplicated indices ->
  deduplicate ic tc (vec_len before) metas (deduplicated, indices) = Ok dedup ->
  dedup_inv ic tc (before ++ metas) (fst dedup) (snd dedup).
Proof.
  revert before deduplicated indices. induction metas as [|meta metas IH]; intros before ded ind Hlen Hinv H.
  { simpl in H. injection H as <-. by rewrite app_nil_r. }
  cbn [deduplicate] in H. apply outcome_bind_ok in H as ([ded1 ind1] & H1 & H).
  rewrite cons_middle, app_assoc. rewrite vec_len_cons in Hlen.
  replace (vec_len before + 1) with (vec_len (before ++ [meta])) in H by by rewrite vec_len_app.
  eapply IH; [rewrite vec_len_app; change (vec_len [meta]) with 1; lia| |exact H].
  unfold deduplicate_one in H1. apply outcome_bind_ok in H1 as (i & Hi & H1). apply ok_or_ok in Hi.
  destruct (position _ ded) as [d|] eqn:Hp.
  - apply position_Some in Hp as (_ & ia & Hia & Heq). apply Z.eqb_eq in Heq.
    rewrite Hia in H1. simpl in H1. injection H1 as <- <-. by eapply dedup_inv_again.
  - apply outcome_bind_ok in H1 as (c & Hc & H1). apply ok_or_ok in Hc. injection H1 as <- <-.
    unfold as_index. rewrite wrapping_small
      by (unfold in_range, vec_len in *; simpl in *; lia).
    apply dedup_inv_new; try done. intros (ia & -> & Hin)%list_elem_of_fmap.
    apply position_None in Hp. rewrite list.Forall_forall in Hp.
    specialize (Hp ia Hin). by rewrite Z.eqb_refl in Hp.
Qed.

Lemma dedup_inv_nil ic tc : dedup_inv ic tc [] [] [].
Proof. split; constructor. Qed.

(** ** The last loop: one entry per meta *)

Lemma collect_accounts_spec deduplicated indices ias :
  collect_accounts deduplicated indices = Ok ias ->
  Forall2 (fun d ia => vec_get deduplicated d = Some ia) indices ias.
Proof.
  revert ias. induction indices as [|d indices IH]; intros ias H; simpl in H.
  { injection H as <-. constructor. }
  apply outcome_bind_ok in H as (ia & Hia & H). apply ok_or_ok in Hia.
  apply outcome_bind_ok in H as (rest & Hr & H). injection H as <-. constructor; auto.
Qed.

(** [ia] is the entry of [meta]. *)
Definition entry_of (tc : TransactionContext) (deduplicated : list InstructionAccount)
    (meta : AccountMeta) (ia : InstructionAccount) : Prop :=
  ia ∈ deduplicated /\ names_account tc (index_in_transaction ia) meta = true.

Lemma collected ic tc metas deduplicated indices ias :
  dedup_inv ic tc metas deduplicated indices ->
  collect_accounts deduplicated indices = Ok ias ->
  Forall2 (entry_of tc deduplicated) metas ias.
Proof.
  intros [He _ _] Hc%collect_accounts_spec.
  revert ias Hc. induction He as [|meta d metas indices (ib & Hib & Hn) _ IH]; intros ias Hc;
    inversion Hc as [|? ia ? rest Hia Hrest]; subst; constructor; [|by apply IH].
  assert (ib = ia) as -> by congruence.
  split; [|done]. apply vec_get_Some in Hia as [_ Hia]. by eapply list_elem_of_lookup_2.
Qed.

Lemma position_Forall2 {A B} (p : A -> bool) (q : B -> bool) l k :
  Forall2 (fun x y => p x = q y) l k -> position p l = position q k.
Proof. induction 1 as [|x y l k Hxy _ IH]; simpl; [done|]. by rewrite Hxy, IH. Qed.

(** The entries share what [index_in_callee] says they share. *)
Lemma collected_dedup_ok ic tc metas deduplicated indices ias callee :
  dedup_inv ic tc metas deduplicated indices ->
  Forall2 (entry_of tc deduplicated) metas ias ->
  instruction_accounts callee = ias -> dedup_ok callee.
Proof.
  intros [_ _ Hx] Hf Hias k ia Hia. rewrite Hias in *.
  apply vec_get_Some in Hia as [_ Hia].
  destruct (Forall2_lookup_r _ _ _ _ _ Hf Hia) as (meta & _ & Hin & _).
  rewrite list.Forall_forall in Hx. destruct (Hx ia Hin) as (_ & Hp & _).
  rewrite <- Hp. symmetry. apply position_Forall2. eapply list.Forall2_impl; [done|].
  intros m ib [_ Hib%names_account_true]. unfold names_account. rewrite Hib.
  destruct (Z.eqb_spec (index_in_transaction ib) (index_in_transaction ia)) as [->|Hne].
  - by apply bool_decide_eq_true.
  - apply bool_decide_eq_false. congruence.
Qed.

(** ** The second loop: no privilege is gained *)

Lemma borrows_only_refl tc : borrows_only tc tc.
Proof. by split. Qed.

#[global] Instance borrows_only_preorder : PreOrder borrows_only.
Proof.
  split; [intros tc; apply borrows_only_refl|].
  intros x y z (Hf & Hv & Hd) (Hf' & Hv' & Hd'). split; [by etransitivity|].
  split; [intros j; by rewrite Hv', Hv|congruence].
Qed.

Lemma try_borrow_instruction_account_only ic i :
  keeps borrows_only (try_borrow_instruction_account ic i).
Proof.
  apply keeps_bind; [apply _|apply keeps_lift, _|intros j tc].
  unfold final, try_borrow_account. destruct (ta_get j _) as [[a fl]|] eqn:Hc; [|reflexivity].
  unfold peek_mut. simpl. destruct (Z.eqb_spec fl 0) as [->|]; [|reflexivity]. simpl.
  eapply (try_borrow_account_only ic j 0 tc). unfold try_borrow_account. rewrite Hc. reflexivity.
Qed.

Lemma borrowing_only {A} ic i (scope : BorrowedAccount -> TxM A) :
  (forall account, keeps borrows_only (scope account)) ->
  keeps borrows_only (borrowing (try_borrow_instruction_account ic i) scope).
Proof.
  intros Hs. apply keeps_bind; [apply _|apply try_borrow_instruction_account_only|intros account].
  apply keeps_finally; [apply _|done|apply drop_account_only].
Qed.

#[export] Hint Resolve borrowing_only : keeps.

Lemma ic_msg_only {A} env (args : TxM A) :
  keeps borrows_only args -> keeps borrows_only (ic_msg env args).
Proof. unfold ic_msg. by keeps. Qed.
#[export] Hint Resolve ic_msg_only : keeps.

Lemma check_privileges_only env ic signers ia :
  keeps borrows_only (check_privileges env ic signers ia).
Proof. apply borrowing_only. intros account. unfold fail_with_key. by keeps. Qed.

Lemma check_all_privileges_only env ic signers ias :
  keeps borrows_only (check_all_privileges env ic signers ias).
Proof.
  induction ias; simpl; [by keeps|].
  apply keeps_bind; [apply _|apply check_privileges_only|by intros _].
Qed.

(** The caller has an account for [ia], with the privileges [ia] has. *)
Definition granted (ic : InstructionContext) (tc : TransactionContext) (signers : list Pubkey)
    (ia : InstructionAccount) : Prop :=
  exists caller, vec_get (instruction_accounts ic) (index_in_caller ia) = Some caller /\
    (ia_is_writable ia = true -> ia_is_writable caller = true) /\
    (ia_is_signer ia = true -> ia_is_signer caller = true \/
       exists key, vec_get (account_keys tc) (index_in_transaction caller) = Some key /\ key ∈ signers).

Lemma check_privileges_granted env ic signers ia tc tc' :
  ic_small ic -> check_privileges env ic signers ia tc = (Ok tt, tc') -> granted ic tc signers ia.
Proof.
  intros Hs H. unfold check_privileges, borrowing in H.
  apply bind_ok_inv in H as (account & tc1 & Hb & H). apply finally_inv in H as (tc2 & H & _).
  unfold try_borrow_instruction_account in Hb. apply bind_ok_inv in Hb as (j & t & Hj & Hb).
  apply lift_ok_inv in Hj as [Hj ->]. unfold get_index_of_instruction_account_in_transaction in Hj.
  apply outcome_bind_ok in Hj as (caller & Hc & Hj). apply ok_or_ok in Hc. injection Hj as <-.
  apply try_borrow_account_inv in Hb as (a & _ & -> & ->).
  destruct (instruction_handle_flags ic _ caller (mkBorrowedAccount ic (index_in_transaction caller)
    (saturating_add U16 (get_number_of_program_accounts ic) (index_in_caller ia))) Hs Hc eq_refl eq_refl)
    as [Hw Hg].
  rewrite Hw, Hg in H. exists caller. split; [done|].
  destruct (ia_is_writable ia && negb (ia_is_writable caller)) eqn:E1.
  { unfold fail_with_key in H. inv_ok H. }
  split; [by destruct (ia_is_writable ia), (ia_is_writable caller)|]. intros Hsig. rewrite Hsig in H.
  destruct (ia_is_signer caller); [by left|right]. simpl in H.
  apply bind_ok_inv in H as (key & t & Hq & H). apply query_ok_inv in Hq as [Hk ->].
  unfold get_key, get_key_of_account_at_index in Hk. simpl in Hk.
  destruct (vec_get (account_keys tc) _) as [key'|] eqn:Hkey; simpl in Hk; [|done]. injection Hk as ->.
  exists key. split; [done|]. case_bool_decide; [done|]. unfold fail_with_key in H. inv_ok H.
Qed.

Lemma check_all_privileges_granted env ic signers ias tc tc' :
  ic_small ic -> check_all_privileges env ic signers ias tc = (Ok tt, tc') ->
  Forall (granted ic tc signers) ias.
Proof.
  intros Hs. revert tc. induction ias as [|ia ias IH]; intros tc H; [constructor|].
  simpl in H. apply bind_ok_inv in H as ([] & t & H1 & H2).
  pose proof (keeps_ok _ _ _ _ _ (check_privileges_only env ic signers ia) H1) as (Hf & _).
  constructor; [by eapply check_privileges_granted|].
  apply IH in H2. eapply list.Forall_impl; [done|]. intros ib. unfold granted.
  by rewrite (sf_keys _ _ Hf).
Qed.

(** ** What the callee is given *)

(** The keys of a transaction are distinct and indexed by a [u16]. *)
Definition keys_ok (tc : TransactionContext) : Prop :=
  NoDup (account_keys tc) /\ vec_len (account_keys tc) <= int_max U16.

Lemma position_as_index {A} (p : A -> bool) (l : list A) i :
  vec_len l <= int_max U16 -> as_index <$> position p l = Some i ->
  exists x, vec_get l i = Some x /\ p x = true.
Proof.
  intros Hlen (k & Hk & ->)%fmap_Some. apply position_Some in Hk as (H0 & x & Hx & Hp).
  exists x. split; [|done]. apply vec_get_lt in Hx as Hlt. unfold as_index.
  rewrite wrapping_small; [done|]. unfold in_range in *. simpl in *. lia.
Qed.

Lemma find_index_of_account_key tc key i :
  keys_ok tc -> find_index_of_account key tc = Some i -> vec_get (account_keys tc) i = Some key.
Proof.
  intros [_ Hs] H. apply position_as_index in H as (k & Hk & Hp); [|done].
  by apply bool_decide_eq_true in Hp as ->.
Qed.

Lemma find_index_of_instruction_account_key ic tc key i :
  ic_small ic -> find_index_of_instruction_account ic key tc = Some i ->
  exists ia, vec_get (instruction_accounts ic) i = Some ia /\
    vec_get (account_keys tc) (index_in_transaction ia) = Some key.
Proof.
  intros Hs H. apply position_as_index in H as (ia & Hia & Hp).
  - exists ia. by apply bool_decide_eq_true in Hp.
  - unfold ic_small, vec_len in *. simpl in *. lia.
Qed.

Lemma keys_inj tc i j key :
  keys_ok tc -> vec_get (account_keys tc) i = Some key -> vec_get (account_keys tc) j = Some key -> i = j.
Proof.
  intros [Hn _] [Hi Hki]%vec_get_Some [Hj Hkj]%vec_get_Some.
  pose proof (NoDup_lookup _ _ _ _ Hn Hki Hkj). lia.
Qed.

(** [ia] is the account [meta] names, with the union of the privileges requested
    for it, all of which the caller has. *)
Record prepared (ic : InstructionContext) (tc : TransactionContext) (signers : list Pubkey)
    (metas : list AccountMeta) (meta : AccountMeta) (ia : InstructionAccount) : Prop := {
  pr_account : vec_get (account_keys tc) (index_in_transaction ia) = Some (meta_pubkey meta);
  pr_writable : ia_is_writable ia = requested meta_is_writable tc metas (index_in_transaction ia);
  pr_signer : ia_is_signer ia = requested meta_is_signer tc metas (index_in_transaction ia);
  pr_caller : exists caller, vec_get (instruction_accounts ic) (index_in_caller ia) = Some caller /\
    index_in_transaction caller = index_in_transaction ia /\
    (ia_is_writable ia = true -> ia_is_writable caller = true) /\
    (ia_is_signer ia = true -> ia_is_signer caller = true \/ meta_pubkey meta ∈ signers);
}.

Lemma entry_prepared ic tc signers metas deduplicated indices meta ia :
  keys_ok tc -> ic_small ic ->
  dedup_inv ic tc metas deduplicated indices -> Forall (granted ic tc signers) deduplicated ->
  entry_of tc deduplicated meta ia -> prepared ic tc signers metas meta ia.
Proof.
  intros Hk Hs [_ _ Hx] Hg [Hin Hn%names_account_true].
  apply find_index_of_account_key in Hn as Hkey; [|done].
  rewrite list.Forall_forall in Hx, Hg.
  destruct (Hx ia Hin) as ((key & Hf & Hc) & _ & Hsig & Hw).
  apply find_index_of_account_key in Hf; [|done].
  assert (key = meta_pubkey meta) as -> by congruence.
  destruct (Hg ia Hin) as (caller & Hcaller & Hgw & Hgs).
  apply find_index_of_instruction_account_key in Hc as (ib & Hib & Hkb); [|done].
  assert (ib = caller) as -> by congruence.
  split; [done..|]. exists caller. split; [done|].
  split; [by eapply keys_inj|]. split; [done|]. intros [|(k & Hk1 & Hk2)]%Hgs; [by left|right].
  congruence.
Qed.

(** The last part: the program is an executable account of the caller. *)
Definition callable (ic : InstructionContext) (tc : TransactionContext) (program_id : Pubkey)
    (programs : list IndexOfAccount) : Prop :=
  exists j acc, programs = [j] /\ j ∈ accounts_of ic /\ account_at tc j = Some acc /\
    acc_executable acc = true /\ vec_get (account_keys tc) j = Some program_id.

Definition prepare_result (ic : InstructionContext) (tc : TransactionContext)
    (instruction : StableInstruction) (signers : list Pubkey)
    (result : list InstructionAccount * list IndexOfAccount) : Prop :=
  Forall2 (prepared ic tc signers (si_accounts instruction)) (si_accounts instruction) (fst result) /\
  (forall callee, instruction_accounts callee = fst result -> dedup_ok callee) /\
  callable ic tc (si_program_id instruction) (snd result).

Lemma borrow_program_callable ic (ias : list InstructionAccount) tc tc' program_id i result :
  ic_small ic -> find_index_of_instruction_account ic program_id tc = Some i ->
  borrowing (try_borrow_instruction_account ic i) (fun account =>
    let? acc := query (borrowed account) in
    if acc_executable acc then ret (ias, [ba_index_in_transaction account])
    else fail AccountNotExecutable) tc = (Ok result, tc') ->
  fst result = ias /\ callable ic tc program_id (snd result).
Proof.
  intros Hs Hi H. apply find_index_of_instruction_account_key in Hi as (ia & Hia & Hkey); [|done].
  apply bind_ok_inv in H as (account & tc1 & Hb & H). apply finally_inv in H as (tc2 & H & _).
  unfold try_borrow_instruction_account in Hb. apply bind_ok_inv in Hb as (j & t & Hj & Hb).
  apply lift_ok_inv in Hj as [Hj ->]. unfold get_index_of_instruction_account_in_transaction in Hj.
  rewrite Hia in Hj. simpl in Hj. injection Hj as <-.
  pose proof (try_borrow_account_values _ _ _ _ _ _ Hb) as [_ Hv].
  apply try_borrow_account_inv in Hb as (a & _ & -> & ->).
  apply bind_ok_inv in H as (acc & t & Hq & H). apply query_ok_inv in Hq as [Hq ->].
  apply unwrap_ok in Hq. change (account_at (set_cell (index_in_transaction ia)
    (mkRefCell a (-1)) tc) (index_in_transaction ia) = Some acc) in Hq. rewrite Hv in Hq.
  destruct (acc_executable acc) eqn:He; inv_ok H. simpl. split; [done|].
  exists (index_in_transaction ia), acc. split_and!; try done.
  apply list_elem_of_fmap_2. apply vec_get_Some in Hia as [_ Hia]. by eapply list_elem_of_lookup_2.
Qed.

Lemma borrows_only_callable ic tc tc' program_id programs :
  borrows_only tc tc' -> callable ic tc' program_id programs -> callable ic tc program_id programs.
Proof.
  intros (Hf & Hv & _) (j & acc & -> & Hj & Ha & He & Hk). exists j, acc.
  rewrite <- Hv, <- (sf_keys _ _ Hf). done.
Qed.

Lemma prepare_instruction_spec env instruction signers tc ic result tc' :
  keys_ok tc -> ic_small ic -> vec_len (si_accounts instruction) <= int_max U16 ->
  get_current_instruction_context tc = Ok ic ->
  prepare_instruction_tc env instruction signers tc = (Ok result, tc') ->
  prepare_result ic tc instruction signers result.
Proof.
  intros Hk Hs Hlen Hcur H. unfold prepare_instruction_tc in H.
  apply bind_ok_inv in H as (ic' & t & Hq & H). apply query_ok_inv in Hq as [Hq ->].
  rewrite Hcur in Hq. injection Hq as <-.
  apply bind_ok_inv in H as (dedup & t & Hq & H). apply query_ok_inv in Hq as [Hd ->].
  apply (deduplicate_spec ic tc _ []) in Hd as Hinv; [|done|apply dedup_inv_nil]. simpl in Hinv.
  apply bind_ok_inv in H as ([] & tc1 & Hp & H).
  pose proof (keeps_ok _ _ _ _ _ (check_all_privileges_only env ic signers _) Hp) as Hbo.
  apply check_all_privileges_granted in Hp; [|done].
  apply bind_ok_inv in H as (ias & t & Hq & H). apply lift_ok_inv in Hq as [Hc ->].
  apply (collected ic tc (si_accounts instruction)) in Hc; [|done].
  apply bind_ok_inv in H as (i & t & Hq & H). apply query_ok_inv in Hq as [Hi ->].
  apply ok_or_ok in Hi. destruct (borrow_program_callable _ _ _ _ _ _ _ Hs Hi H) as [Hias Hcall].
  rewrite <- Hias in Hc. split_and!.
  - eapply list.Forall2_impl; [done|]. intros. by eapply entry_prepared.
  - intros callee Hcallee. by eapply collected_dedup_ok.
  - by eapply borrows_only_callable.
Qed.

Lemma prepare_instruction_only env instruction signers :
  keeps borrows_only (prepare_instruction_tc env instruction signers).
Proof.
  unfold prepare_instruction_tc. apply keeps_bind; [apply _|apply keeps_query, _|intros ic].
  apply keeps_bind; [apply _|apply keeps_query, _|intros dedup].
  apply keeps_bind; [apply _|apply check_all_privileges_only|intros []]. by keeps.
Qed.

(** C12: a call gives no privilege the caller does not have.  Of the accounts
    [prepare_instruction] returns, the one for each meta is the account with its
    key; it is writable or a signer exactly if one of the metas naming that
    account asks for it; the caller's own instruction has the account, writable
    if the callee's is, and it signed that instruction, or its key is among those
    the program may sign for, if it signs the callee's.  Metas that name the same
    account share the entry, the program is an executable account of the
    caller, and no account is changed. *)
Theorem calls_gain_no_privileges (env : Environment) (instruction : StableInstruction)
    (signers : list Pubkey) (tc tc' : TransactionContext) (ic : InstructionContext)
    (result : list InstructionAccount * list IndexOfAccount) :
  keys_ok tc -> ic_small ic -> vec_len (si_accounts instruction) <= int_max U16 ->
  get_current_instruction_context tc = Ok ic ->
  prepare_instruction_tc env instruction signers tc = (Ok result, tc') ->
  prepare_result ic tc instruction signers result /\ borrows_only tc tc'.
Proof.
  intros Hk Hs Hlen Hcur H. split; [by eapply prepare_instruction_spec|].
  by eapply (keeps_ok _ _ _ _ _ (prepare_instruction_only env instruction signers)).
Qed.

(** ** Reentrancy *)

(** The account of the instruction's own program, and that it is not borrowed. *)
Definition program_unborrowed (ic : InstructionContext) (tc : TransactionContext) : Prop :=
  exists j, get_index_of_program_account_in_transaction ic
      (saturating_sub U16 (get_number_of_program_accounts ic) 1) = Ok j /\ flag_at tc j = Some 0.

Lemma last_program_is_true program_id ic tc :
  last_program_is program_id (Ok ic) tc = Ok true -> get_last_program_key ic tc = Ok program_id.
Proof.
  unfold last_program_is, get_last_program_key, try_borrow_last_program_account, try_borrow_program_account.
  unfold bind, lift. destruct (get_index_of_program_account_in_transaction _ _) as [j|e|]; [|done..].
  destruct (try_borrow_account _ j _ tc) as [[ba|e|] tc1] eqn:Hb; [|done..].
  apply try_borrow_account_inv in Hb as (a & _ & -> & _). simpl. unfold get_key. simpl.
  destruct (get_key_of_account_at_index j tc) as [key|e|]; [|done..]. simpl.
  intros [= H]. by apply bool_decide_eq_true in H as ->.
Qed.

Lemma last_program_is_complete program_id ic tc :
  program_unborrowed ic tc -> get_last_program_key ic tc = Ok program_id ->
  last_program_is program_id (Ok ic) tc = Ok true.
Proof.
  intros (j & Hj & Hfl) Hk. unfold get_last_program_key in Hk.
  unfold last_program_is, try_borrow_last_program_account, try_borrow_program_account, bind, lift.
  rewrite Hj in *. cbn [outcome_bind] in Hk. unfold flag_at in Hfl. unfold try_borrow_account.
  destruct (ta_get j (accounts tc)) as [[a fl]|]; [|done]. cbn in Hfl. injection Hfl as ->.
  cbn. unfold get_key. cbn. rewrite Hk. cbn. by rewrite bool_decide_eq_true_2.
Qed.

Lemma any_level_false program_id levels tc level :
  any_level program_id levels tc = Ok false -> level ∈ levels ->
  last_program_is program_id (get_instruction_context_at_nesting_level level tc) tc = Ok false.
Proof.
  induction levels as [|l levels IH]; intros H Hin; [by apply elem_of_nil in Hin|].
  cbn [any_level] in H. apply outcome_bind_ok in H as ([] & Hl & H); [done|].
  apply elem_of_cons in Hin as [->|Hin]; [done|auto].
Qed.

(** C28: a program is not reentered.  If [push] admits an instruction whose program
    is the program of a running instruction, then it is the program of the
    instruction that makes the call: programs may call themselves, but not be
    called back through others.  (A program whose account is borrowed is not
    found; the runtime holds no such borrow while a program runs.) *)
Theorem no_reentrancy (s s' : InvokeContext) (callee ic : InstructionContext) (level : Z)
    (program_id : Pubkey) :
  let tc := transaction_context s in
  invoke_push s = (Ok tt, s') ->
  get_instruction_context_at_index_in_trace (get_instruction_trace_length tc) tc = Ok callee ->
  get_last_program_key callee tc = Ok program_id ->
  get_instruction_context_at_nesting_level level tc = Ok ic ->
  program_unborrowed ic tc -> get_last_program_key ic tc = Ok program_id ->
  exists caller, get_current_instruction_context tc = Ok caller /\
    get_last_program_key caller tc = Ok program_id.
Proof.
  intros tc Hp Hcallee Hkey Hlevel Hun Hic.
  apply bind_ok_inv in Hp as ([] & s1 & Hq & _). apply zoom_inv in Hq as (t & Hq & _).
  apply query_ok_inv in Hq as [Hq _]. fold tc in Hq. unfold check_reentrancy in Hq.
  rewrite Hcallee in Hq. cbn [outcome_bind] in Hq. rewrite Hkey in Hq. cbn [outcome_bind map_err] in Hq.
  assert (0 <= level < get_instruction_context_stack_height tc) as Hlv.
  { unfold get_instruction_context_at_nesting_level in Hlevel.
    apply outcome_bind_ok in Hlevel as (i & Hi%ok_or_ok & _). by apply vec_get_lt in Hi. }
  destruct (Z.eqb_spec (get_instruction_context_stack_height tc) 0); [lia|].
  apply outcome_bind_ok in Hq as (contains & Hc & Hq). apply outcome_bind_ok in Hq as (is_last & Hl & Hq).
  destruct contains.
  - destruct is_last; [|done]. destruct (get_current_instruction_context tc) as [caller|e|]; [|done..].
    exists caller. split; [done|]. by apply last_program_is_true.
  - apply (any_level_false _ _ _ level) in Hc; [|apply elem_of_seqZ; lia].
    rewrite Hlevel in Hc. by rewrite last_program_is_complete in Hc.
Qed.

(** ** The heap of a program *)

(** The blocks a sequence of requests is given: their addresses, with the size
    and the alignment requested. *)
Fixpoint alloc_all (requests : list (Z * Z)) (self : BpfAllocator) : list (Z * (Z * Z)) :=
  match requests with
  | [] => []
  | (size, align) :: requests =>
      match alloc size align self with
      | (Some addr, self') => (addr, (size, align)) :: alloc_all requests self'
      | (None, self') => alloc_all requests self'
      end
  end.

(** A [Layout]: a size and a power of two to align to. *)
Definition layout_ok (request : Z * Z) : Prop :=
  0 <= fst request /\ exists k, 0 <= k <= 32 /\ snd request = 2 ^ k.

Definition heap_ok (self : BpfAllocator) : Prop :=
  0 <= alloc_pos self <= alloc_len self /\ alloc_len self + MM_HEAP_START <= int_max U64.

Lemma alloc_spec size align self addr self' :
  heap_ok self -> layout_ok (size, align) -> alloc size align self = (Some addr, self') ->
  heap_ok self' /\ alloc_len self' = alloc_len self /\ addr mod align = 0 /\
  MM_HEAP_START + alloc_pos self <= addr /\ addr + size = MM_HEAP_START + alloc_pos self'.
Proof.
  unfold heap_ok, layout_ok, alloc, align_offset, saturating_add, saturating. cbn [fst snd int_min int_max U64].
  change MM_HEAP_START with (3 * 2 ^ 32).
  intros [Hpos Hlen] [Hsize (k & Hk & ->)] H. case_match eqn:Hle; [|done]. injection H as <- <-.
  apply Z.leb_le in Hle. cbn [alloc_len alloc_pos].
  assert (0 < 2 ^ k) as Hk0 by (apply Z.pow_pos_nonneg; lia).
  pose proof (Z.mod_pos_bound (- alloc_pos self) (2 ^ k) Hk0) as Hb.
  split_and!; try lia.
  rewrite (Z.max_r 0), (Z.min_r _ (3 * 2 ^ 32 + _)) by lia.
  rewrite (Z.max_r 0), (Z.min_r _ (alloc_pos self + _)) by lia.
  replace (3 * 2 ^ 32) with (3 * 2 ^ (32 - k) * 2 ^ k)
    by (rewrite <- Z.mul_assoc, <- Z.pow_add_r by lia; do 2 f_equal; lia).
  rewrite Z.add_comm, Z.mod_add by lia. rewrite Z.add_mod_idemp_r by lia.
  by rewrite Z.add_opp_diag_r, Z.mod_0_l by lia.
Qed.

(** The blocks of a program's heap are apart.  Each block is aligned as
    requested and inside the heap, and begins where the blocks before it have
    ended. *)
Theorem heap_blocks_disjoint (requests : list (Z * Z)) (self : BpfAllocator) :
  heap_ok self -> Forall layout_ok requests ->
  Forall (fun '(addr, (size, align)) => addr mod align = 0 /\
    MM_HEAP_START + alloc_pos self <= addr /\
    addr + size <= MM_HEAP_START + alloc_len self) (alloc_all requests self) /\
  (forall i j addr size align addr' request', (i < j)%nat ->
     alloc_all requests self !! i = Some (addr, (size, align)) ->
     alloc_all requests self !! j = Some (addr', request') -> addr + size <= addr').
Proof.
  revert self. induction requests as [|[size align] requests IH]; intros self Hh Hl; cbn [alloc_all];
    [split; [constructor|done]|]. apply list.Forall_cons in Hl as [Hl1 Hl].
  destruct (alloc size align self) as [[addr|] self'] eqn:Ha.
  - apply alloc_spec in Ha as (Hh' & Hlen & Hal & Hge & Hend); [|done..].
    destruct (IH self' Hh' Hl) as [Hin Hd]. split.
    + constructor; [cbn; split; [done|]; destruct Hh'; lia|]. eapply list.Forall_impl; [exact Hin|].
      intros [a [z al]]. destruct Hl1. cbn in *. lia.
    + intros [|i] [|j] a z al a' r' Hij H1 H2; cbn in *; simplify_eq; [lia| |lia|eapply (Hd i j); by try lia].
      rewrite list.Forall_forall in Hin. apply list_elem_of_lookup_2 in H2. apply Hin in H2.
      destruct r'. lia.
  - assert (self' = self) as -> by (unfold alloc in Ha; by case_match; simplify_eq). auto.
Qed.

Lemma heap_blocks_disjoint_witness :
  let heap := BpfAllocator_new 64 in
  let requests := [(5, 1); (16, 8); (100, 1); (8, 8)] in
  alloc_all requests heap =
    [(MM_HEAP_START, (5, 1)); (MM_HEAP_START + 8, (16, 8)); (MM_HEAP_START + 24, (8, 8))] /\
  MM_HEAP_START + 8 + 16 <= MM_HEAP_START + 24.
Proof.
  intros heap requests. split; [by vm_compute|].
  destruct (heap_blocks_disjoint requests heap) as [_ Hd].
  - by vm_compute.
  - unfold requests. rewrite !list.Forall_cons. unfold layout_ok. cbn.
    split_and!; try done; first [exists 0; split; [lia|done] | exists 3; split; [lia|done]].
  - apply (Hd 1%nat 2%nat _ _ 8 _ (8, 8)); [lia|by vm_compute..].
Defined.
