(* ===== verification/ProcessRules.v ===== *)
(** * Processing instructions (program-runtime/src/invoke_context.rs)

    What the runtime promises to programs and programs to the runtime, as a
    class: a builtin program that is run in an instruction changes the lamports
    of the accounts it was given only, and leaves the call stack as it found it,
    provided that the instructions it invokes do.  Against this interface:
    processing an instruction, with the calls it makes, conserves lamports and
    is independent of the fuel that bounds the recursion; the system program is
    an implementation. *)

From S2P Require Import Prelude Errors Rent Account Pubkey Sysvars EpochSchedule Nonce TransactionContext RuntimeRules CallStack SysvarCache SystemProgram Effects InvokeContext InvokeRules.

(** ** The interface *)

(** Between two states of an instruction with the accounts [js]. *)
Record contained_in (js : list IndexOfAccount) (tc tc' : TransactionContext) : Prop := {
  ci_under : under js tc tc';
  ci_keys : account_keys tc' = account_keys tc;
  ci_capacity : instruction_stack_capacity tc' = instruction_stack_capacity tc;
}.

Lemma contained_in_refl js tc : stack_ok tc -> contained_in js tc tc.
Proof. intros. split; [by apply under_refl|done..]. Qed.

Lemma contained_in_trans js x y z : contained_in js x y -> contained_in js y z -> contained_in js x z.
Proof. intros [] []. split; [by eapply under_trans|congruence..]. Qed.

Lemma contained_in_weaken js js' tc tc' : js ⊆ js' -> contained_in js tc tc' -> contained_in js' tc tc'.
Proof. intros Hs []. split; [by eapply under_weaken|done..]. Qed.

(** The instruction [ic] is running. *)
Record running (ic : InstructionContext) (tc : TransactionContext) : Prop := {
  ru_stack : stack_ok tc;
  ru_keys : keys_ok tc;
  ru_small : ic_small ic;
  ru_current : get_current_instruction_context tc = Ok ic;
}.

(** Work of a running instruction, whatever it returns. *)
Definition contained {E A} (m : M InvokeContext E A) : Prop :=
  forall ic s o s', running ic (transaction_context s) -> m s = (o, s') -> o <> Panic ->
    contained_in (accounts_of ic) (transaction_context s) (transaction_context s').

(** What programs may rely on when they invoke others. *)
Definition invoke_contained (invoke : Invoke) : Prop :=
  forall instruction signers, vec_len (si_accounts instruction) < int_max U16 ->
    contained (invoke instruction signers).

(** How many more instructions fit on the stack. *)
Definition room (tc : TransactionContext) : Z :=
  instruction_stack_capacity tc - get_instruction_context_stack_height tc.

(** Two ways to invoke do the same in an instruction with this room above it. *)
Definition invoke_agree (r : Z) (invoke invoke' : Invoke) : Prop :=
  forall instruction signers ic s, running ic (transaction_context s) ->
    room (transaction_context s) = r ->
    vec_len (si_accounts instruction) < int_max U16 ->
    invoke instruction signers s = invoke' instruction signers s.

(** What the runtime relies on: a program stays within its accounts, and what it
    does depends on [invoke] only through the invocations it makes while it is
    the current instruction. *)
Class ProgramOk (f : Builtin) : Prop := {
  program_contained invoke : invoke_contained invoke -> contained (f invoke);
  program_extensional invoke invoke' ic s :
    invoke_contained invoke -> invoke_agree (room (transaction_context s)) invoke invoke' ->
    running ic (transaction_context s) -> f invoke s = f invoke' s;
}.

Class ProgramsOk (find_builtin : Pubkey -> option (option Builtin)) : Prop :=
  programs_ok id f : find_builtin id = Some (Some f) -> ProgramOk f.

(** ** Sequences of work *)

Lemma contained_in_current js tc tc' :
  stack_ok tc -> contained_in js tc tc' ->
  get_current_instruction_context tc' = get_current_instruction_context tc.
Proof.
  intros Hok [[] _ _]. unfold get_current_instruction_context, get_instruction_context_stack_height.
  rewrite u_stack. destruct (checked_sub _ _ _) as [k|]; [|done]. cbn [ok_or outcome_bind].
  unfold get_instruction_context_at_nesting_level. rewrite u_stack.
  destruct (vec_get (instruction_stack tc) k) as [i|] eqn:Hi; [|done]. cbn [ok_or outcome_bind].
  unfold get_instruction_context_at_index_in_trace.
  destruct (so_frames _ Hok _ _ Hi) as [? _]. by rewrite u_frames by lia.
Qed.

Lemma contained_in_running js ic tc tc' :
  running ic tc -> contained_in js tc tc' -> running ic tc'.
Proof.
  intros [Hs Hk Hm Hc] Hci. split; [apply Hci| |done|].
  - unfold keys_ok. by rewrite (ci_keys _ _ _ Hci).
  - by rewrite (contained_in_current js tc).
Qed.

Lemma contained_bind {E A B} (m : M InvokeContext E A) (f : A -> M InvokeContext E B) :
  contained m -> (forall a, contained (f a)) -> contained (bind m f).
Proof.
  intros Hm Hf ic s o s' Hr H Ho. unfold bind in H. destruct (m s) as [[a|e|] s1] eqn:E1.
  - pose proof (Hm _ _ _ _ Hr E1 ltac:(done)) as H1. eapply contained_in_trans; [done|].
    eapply Hf; [|done..]. by eapply contained_in_running.
  - injection H as <- <-. by eapply Hm.
  - congruence.
Qed.

(** Work that leaves the transaction context as it is. *)
Lemma contained_other {E A} (m : M InvokeContext E A) :
  (forall s, transaction_context (final m s) = transaction_context s) -> contained m.
Proof.
  intros Hm ic s o s' Hr H _. specialize (Hm s). unfold final in Hm. rewrite H in Hm. simpl in Hm.
  rewrite Hm. apply contained_in_refl, Hr.
Qed.

Lemma contained_in_obeys ic tc tc' : stack_ok tc -> obeys ic tc tc' -> contained_in (accounts_of ic) tc tc'.
Proof. intros Hok Ho. split; [by apply obeys_under|apply Ho..]. Qed.

Lemma contained_in_borrows js tc tc' : stack_ok tc -> borrows_only tc tc' -> contained_in js tc tc'.
Proof.
  intros Hok (Hf & Hv & _). split; [|apply Hf..].
  split; rewrite ?(sf_stack _ _ Hf), ?(sf_trace _ _ Hf), ?(sf_len _ _ Hf); try done.
  - by eapply same_frame_stack_ok.
  - intros j _. unfold lamports_at. by rewrite Hv.
Qed.

(** Return data does not belong to any account. *)
Lemma contained_in_return_data js r tc : stack_ok tc -> contained_in js tc (with_return_data r tc).
Proof. intros Hok. split; [|done..]. split; [by destruct Hok; split|done..]. Qed.

(** Work on the transaction context that obeys the runtime's rules. *)
Lemma contained_on_tc {A} (m : TxM A) :
  (forall ic tc o tc', ic_small ic -> get_current_instruction_context tc = Ok ic ->
     m tc = (o, tc') -> obeys ic tc tc') -> contained (on_tc m).
Proof.
  intros Hm ic s o s' [] H _. apply zoom_inv in H as (tc' & H & ->). simpl.
  apply contained_in_obeys; [done|]. by eapply Hm.
Qed.

Lemma contained_on_tc_borrows {A} (m : TxM A) : keeps borrows_only m -> contained (on_tc m).
Proof.
  intros Hm ic s o s' [] H _. apply zoom_inv in H as (tc' & H & ->). simpl.
  apply contained_in_borrows; [done|]. by eapply keeps_ok.
Qed.

(** ** The runtime's side *)

Section process.
Context {Hids : ProgramIds}.
Context (find_builtin : Pubkey -> option (option Builtin)) {Hprograms : ProgramsOk find_builtin}.

Lemma builtin_id_of_only ic : keeps borrows_only (builtin_id_of ic).
Proof.
  intros tc. unfold final, builtin_id_of.
  assert (borrows_only tc (snd (try_borrow_program_account ic 0 tc))) as Hb.
  { apply (keeps_bind borrows_only); [apply keeps_lift, _|intros j t].
    unfold final. destruct (try_borrow_account ic j 0 t) as [[root|e|] t1] eqn:Hb;
      [by eapply try_borrow_account_only|..];
      unfold try_borrow_account in Hb; repeat case_match; simplify_eq; reflexivity. }
  destruct (try_borrow_program_account ic 0 tc) as [[root|e|] tc1]; [|done..].
  transitivity tc1; [done|]. apply (keeps_finally borrows_only); [|apply drop_account_only].
  apply keeps_bind; [apply _|apply keeps_query, _|intros acc]. by keeps.
Qed.

Lemma run_program_contained id f invoke program_id :
  find_builtin id = Some (Some f) -> invoke_contained invoke ->
  contained (run_program f invoke id program_id).
Proof.
  intros Hf Hi ic s o s' Hr H Ho. unfold run_program in H.
  destruct (f invoke s) as [o1 s1] eqn:E.
  assert (o1 <> Panic) as Ho1.
  { intros ->. simpl in H. rewrite andb_false_r in H. by injection H as <- _. }
  pose proof (programs_ok id f Hf) as Hprogram.
  pose proof (program_contained invoke Hi ic s o1 s1 Hr E Ho1) as Hc.
  by case_match; injection H as <- <-.
Qed.

Lemma process_executable_chain_contained invoke :
  invoke_contained invoke -> contained (process_executable_chain find_builtin invoke).
Proof.
  intros Hi. unfold process_executable_chain.
  apply contained_bind; [by apply contained_other|intros ic].
  apply contained_bind; [apply contained_on_tc_borrows, builtin_id_of_only|intros id].
  intros ic' s o s' Hr H Ho.
  destruct (find_builtin id) as [[f|]|] eqn:Hf;
    [|injection H as <- <-; apply contained_in_refl, Hr..].
  revert Hr H Ho. revert ic' s o s'. change (contained (
    let? program_id := on_tc (query (get_last_program_key ic)) in
    on_tc (set_return_data program_id []) ;? run_program f invoke id program_id)).
  apply contained_bind; [by apply contained_other|intros program_id].
  apply contained_bind; [|intros _; by apply run_program_contained].
  intros ic' s o s' [Hok _ _ _] H _. injection H as <- <-. by apply contained_in_return_data.
Qed.

(** ** Processing an instruction *)

Lemma with_next_contained_in js f tc : stack_ok tc -> contained_in js tc (with_next f tc).
Proof.
  intros Hok. split; [by apply with_next_under|..]; unfold with_next; by destruct (list.last _).
Qed.

(** What [push] makes the current instruction. *)
Lemma pushed_running ias programs data tc tc2 :
  stack_ok tc -> keys_ok tc -> vec_len programs + vec_len ias <= int_max U16 ->
  push (with_next (configure programs ias data) tc) = (Ok tt, tc2) ->
  exists ic, running ic tc2 /\ instruction_accounts ic = ias /\
    get_instruction_context_stack_height tc2 = get_instruction_context_stack_height tc + 1 /\
    get_instruction_context_stack_height tc < instruction_stack_capacity tc /\
    instruction_stack_capacity tc2 = instruction_stack_capacity tc /\
    account_keys tc2 = account_keys tc /\
    program_accounts ic = programs /\ instruction_data ic = data /\ accounts tc2 = accounts tc.
Proof.
  intros Hok Hk Hsm Hp. pose proof (with_next_stack_ok (configure programs ias data) tc Hok) as Hok1.
  destruct (push_ok_inv _ _ Hok1 Hp) as (callee & sum & Hn & _ & _ & Hs & Hlv & Hok2 & _ & Hfr & Htc2).
  assert (instruction_accounts callee = ias /\ program_accounts callee = programs /\
    instruction_data callee = data) as (Hias & Hpr & Hda).
  { unfold next_context, with_next in Hn. simpl in Hn.
    destruct (list.last (instruction_trace tc)) eqn:Hl; [|done].
    rewrite last_snoc in Hn. by injection Hn as <-. }
  eexists. split; [split; [done|by rewrite Htc2| |]|].
  2:{ eapply current_context_top; [done..|]. destruct Hok2. lia. }
  - unfold ic_small. simpl. by rewrite Hias, Hpr.
  - rewrite Htc2 at 2 3. split_and!; try done; [|by rewrite Htc2].
    unfold get_instruction_context_stack_height. by rewrite Hs, vec_len_app.
Qed.

Lemma prepared_subset ic tc signers metas metas' ias :
  Forall2 (prepared ic tc signers metas) metas' ias -> (index_in_transaction <$> ias) ⊆ accounts_of ic.
Proof.
  intros Hf j (ia & -> & Hin)%list_elem_of_fmap. apply list_elem_of_lookup_1 in Hin as [n Hn].
  destruct (Forall2_lookup_r _ _ _ _ _ Hf Hn) as (meta & _ & [_ _ _ (caller & Hc & <- & _)]).
  apply list_elem_of_fmap_2. apply vec_get_Some in Hc as [_ Hc]. by eapply list_elem_of_lookup_2.
Qed.

Lemma prepare_instruction_run instruction signers s o s' :
  prepare_instruction instruction signers s = (o, s') ->
  exists tc', prepare_instruction_tc (environment s) instruction signers (transaction_context s) = (o, tc')
    /\ s' = with_transaction_context tc' s.
Proof. intros H. by apply zoom_inv in H. Qed.

(** Processing an instruction with accounts among [js] is work on [js]. *)
Definition processes_in (process : Bytes -> list InstructionAccount -> list IndexOfAccount -> InvM unit) :=
  forall data ias programs js s o s',
  stack_ok (transaction_context s) -> keys_ok (transaction_context s) ->
  vec_len programs + vec_len ias <= int_max U16 -> (index_in_transaction <$> ias) ⊆ js ->
  process data ias programs s = (o, s') -> o <> Panic ->
  contained_in js (transaction_context s) (transaction_context s').

Lemma native_invoke_contained process : processes_in process -> invoke_contained (native_invoke_with process).
Proof.
  intros Hprocess instruction signers Hlen ic s o s' Hr H Ho. unfold native_invoke_with, bind at 1 in H.
  destruct (prepare_instruction instruction signers s) as [o1 s1] eqn:Hp.
  apply prepare_instruction_run in Hp as (tc1 & Hp & ->).
  pose proof (keeps_ok _ _ _ _ _ (prepare_instruction_only _ _ _) Hp) as Hbo.
  apply (contained_in_borrows (accounts_of ic)) in Hbo; [|apply Hr].
  destruct o1 as [[ias programs]|e|]; [|by injection H as _ <-|congruence].
  apply (prepare_instruction_spec _ _ _ _ ic) in Hp as (Hf & _ & (j & acc & Hj & _));
    [|apply Hr|apply Hr|lia|apply Hr].
  eapply contained_in_trans; [done|].
  change (finally (process (si_data instruction) ias programs) (with_consumed (compute_units_consumed s))
    (with_transaction_context tc1 s) = (o, s')) in H.
  apply finally_inv in H as (s2 & H & ->).
  change (transaction_context (with_consumed (compute_units_consumed s) s2)) with (transaction_context s2).
  apply (Hprocess _ _ _ (accounts_of ic) _ _ _) in H; [done|apply Hbo| | |by eapply prepared_subset|done].
  - simpl. unfold keys_ok. rewrite (ci_keys _ _ _ Hbo). apply Hr.
  - simpl in Hj. subst programs. apply Forall2_length in Hf. simpl in Hf. unfold vec_len in *.
    rewrite <- Hf. simpl in *. lia.
Qed.

(** The state in which the program is started, and the one it ends in. *)
Definition pushed_state (tc : TransactionContext) (s : InvokeContext) : InvokeContext :=
  with_transaction_context tc (with_syscall_context (syscall_context s ++ [None]) (with_consumed 0 s)).

Lemma process_instruction_with_run invoke data ias programs s :
  stack_ok (transaction_context s) ->
  let tc1 := with_next (configure programs ias data) (transaction_context s) in
  process_instruction_with find_builtin invoke data ias programs s =
  match check_reentrancy tc1 with
  | Err e => (Err e, with_transaction_context tc1 (with_consumed 0 s))
  | Panic => (Panic, with_transaction_context tc1 (with_consumed 0 s))
  | Ok _ =>
      match push tc1 with
      | (Ok _, tc2) => and_always (process_executable_chain find_builtin invoke) invoke_pop (pushed_state tc2 s)
      | (Err e, tc2) => (Err e, pushed_state tc2 s)
      | (Panic, tc2) => (Panic, pushed_state tc2 s)
      end
  end.
Proof.
  intros Hok tc1. unfold process_instruction_with, invoke_push, on_tc.
  unfold bind at 1 2, modify at 1, zoom at 1. cbv beta iota.
  change (transaction_context (with_consumed 0 s)) with (transaction_context s).
  rewrite update_next_with_next by done. fold tc1.
  unfold bind at 1 2, query at 1, zoom at 1. cbv beta iota.
  change (transaction_context (with_transaction_context tc1 (with_consumed 0 s))) with tc1.
  destruct (check_reentrancy tc1); [|done..].
  unfold bind at 1, modify, zoom at 1. cbv beta iota.
  change (transaction_context (with_syscall_context _ _)) with tc1.
  by destruct (push tc1) as [[] tc2].
Qed.

Lemma invoke_pop_run s :
  exists s1, transaction_context s1 = transaction_context s /\
    invoke_pop s = let (o, tc) := pop (transaction_context s) in (o, with_transaction_context tc s1).
Proof.
  unfold invoke_pop, bind, modify.
  destruct (list.last (syscall_context s)) as [[]|]; by eexists; split; [|reflexivity].
Qed.

Lemma and_always_inv {A} (m : InvM A) m' s o s' :
  and_always m m' s = (o, s') -> o <> Panic ->
  exists o1 s1 o2, m s = (o1, s1) /\ o1 <> Panic /\ m' s1 = (o2, s') /\
    (o = Ok tt -> (exists a, o1 = Ok a) /\ o2 = Ok tt).
Proof.
  unfold and_always. intros H Ho. destruct (m s) as [[a|e|] s1]; [..|congruence].
  - exists (Ok a), s1, o. split_and!; [done..|]. eauto.
  - destruct (m' s1) as [o2 s2] eqn:E. injection H as <- <-. exists (Err e), s1, o2.
    split_and!; [done..|]. by destruct o2.
Qed.

Lemma pop_capacity tc o tc' :
  pop tc = (o, tc') -> account_keys tc' = account_keys tc /\
    instruction_stack_capacity tc' = instruction_stack_capacity tc.
Proof.
  rewrite pop_spec. destruct (instruction_stack tc); intros [= <- <-]; done.
Qed.

Lemma push_capacity tc o tc' :
  stack_ok tc -> push tc = (o, tc') -> account_keys tc' = account_keys tc /\
    instruction_stack_capacity tc' = instruction_stack_capacity tc.
Proof.
  intros Hok. rewrite push_spec by done. intros H. by repeat case_match; simplify_eq.
Qed.

(** The program's part: from [push] to [pop]. *)
Lemma pushed_contained_in invoke programs ias data s tc2 o s' :
  let tc1 := with_next (configure programs ias data) (transaction_context s) in
  invoke_contained invoke -> stack_ok (transaction_context s) -> keys_ok (transaction_context s) ->
  vec_len programs + vec_len ias <= int_max U16 ->
  push tc1 = (Ok tt, tc2) ->
  and_always (process_executable_chain find_builtin invoke) invoke_pop (pushed_state tc2 s) = (o, s') ->
  o <> Panic ->
  exists ic tc3 o3, running ic tc2 /\ instruction_accounts ic = ias /\
    contained_in (accounts_of ic) tc2 tc3 /\ pop tc3 = (o3, transaction_context s') /\
    (o = Ok tt -> o3 = Ok tt).
Proof.
  intros tc1 Hi Hok Hk Hsm Hp H Ho.
  destruct (pushed_running _ _ _ _ _ Hok Hk Hsm Hp) as (ic & Hr & Hias & _).
  destruct (and_always_inv _ _ _ _ _ H Ho) as (o1 & s1 & o2 & H1 & Ho1 & H2 & Hoo).
  apply (process_executable_chain_contained _ Hi ic (pushed_state tc2 s)) in H1; [|done..].
  destruct (invoke_pop_run s1) as (s2 & Hs2 & Hpop). rewrite Hpop in H2.
  destruct (pop (transaction_context s1)) as [o3 tc4] eqn:Hp4. injection H2 as <- <-.
  exists ic, (transaction_context s1), o3. split_and!; [done..|]. naive_solver.
Qed.

(** Whatever the outcome, [pop] is done if and only if [push] was. *)
Lemma process_instruction_with_contained_in invoke :
  invoke_contained invoke -> processes_in (process_instruction_with find_builtin invoke).
Proof.
  intros Hi data ias programs js s o s' Hok Hk Hsm Hsub H Ho.
  rewrite process_instruction_with_run in H by done. cbv zeta in H.
  set (tc1 := with_next (configure programs ias data) (transaction_context s)) in *.
  assert (contained_in js (transaction_context s) tc1) as Hc1 by by apply with_next_contained_in.
  assert (Hok1 : stack_ok tc1) by apply Hc1.
  destruct (check_reentrancy tc1); [|by injection H as _ <-|congruence].
  destruct (push tc1) as [[[]|e|] tc2] eqn:Hp; [| |congruence];
    pose proof (push_capacity _ _ _ Hok1 Hp) as [Hkeys Hcap]; eapply contained_in_trans; try exact Hc1.
  - destruct (pushed_contained_in invoke programs ias data s tc2 o s') as
      (ic & tc3 & o3 & Hr & Hias & Hc3 & Hpop & _); try done.
    pose proof (pop_capacity _ _ _ Hpop) as [Hkeys4 Hcap4].
    split; [|rewrite Hkeys4, (ci_keys _ _ _ Hc3); done|rewrite Hcap4, (ci_capacity _ _ _ Hc3); done].
    eapply call_under; [done..| |done]. eapply under_weaken; [|apply Hc3].
    unfold accounts_of. by rewrite Hias.
  - injection H as _ <-. split; [by eapply push_err_under|done..].
Qed.

Lemma process_instruction_contained_in fuel : processes_in (process_instruction find_builtin fuel).
Proof.
  induction fuel as [|fuel IH].
  - intros data ias programs js s o s' _ _ _ _ [= <- <-] Ho. done.
  - by apply process_instruction_with_contained_in, native_invoke_contained.
Qed.

Lemma process_instruction_total (fuel : nat) (data : Bytes)
    (ias : list InstructionAccount) (programs : list IndexOfAccount) (s s' : InvokeContext) :
  stack_ok (transaction_context s) -> keys_ok (transaction_context s) ->
  vec_len programs + vec_len ias <= int_max U16 ->
  dedup_ok (mkInstructionContext 0 0 programs ias data) ->
  process_instruction find_builtin fuel data ias programs s = (Ok tt, s') ->
  total_lamports (transaction_context s') = total_lamports (transaction_context s).
Proof.
  intros Hok Hk Hsm Hdd H. destruct fuel as [|fuel]; [done|]. cbn [process_instruction] in H.
  rewrite process_instruction_with_run in H by done. cbv zeta in H.
  set (tc1 := with_next (configure programs ias data) (transaction_context s)) in *.
  destruct (check_reentrancy tc1); [|done..].
  destruct (push tc1) as [[[]|e|] tc2] eqn:Hp; [|done..].
  pose proof (native_invoke_contained _ (process_instruction_contained_in fuel)) as Hi.
  destruct (pushed_contained_in _ programs ias data s tc2 (Ok tt) s' Hi) as
    (ic & tc3 & o3 & [] & Hias & Hc3 & Hpop & Ho3); try done. rewrite Ho3 in Hpop by done.
  change (total_lamports (transaction_context s)) with (total_lamports tc1).
  eapply (balanced_call_total ic tc1 tc2 tc3); [by apply with_next_stack_ok|done..| |apply Hc3|done].
  intros i ia. rewrite Hias. apply Hdd.
Qed.

(** Processing an instruction conserves lamports.  With programs that
    stay within the accounts they are given, whatever programs it runs and
    whatever they invoke, an instruction that is processed without an error leaves
    the total of all accounts of the transaction as it was. *)
Theorem process_instruction_conserves_lamports (fuel : nat) (data : Bytes)
    (ias : list InstructionAccount) (programs : list IndexOfAccount) (s s' : InvokeContext) :
  stack_ok (transaction_context s) -> keys_ok (transaction_context s) ->
  vec_len programs + vec_len ias <= int_max U16 ->
  dedup_ok (mkInstructionContext 0 0 programs ias data) ->
  process_instruction find_builtin fuel data ias programs s = (Ok tt, s') ->
  total_lamports (transaction_context s') = total_lamports (transaction_context s).
Proof. apply process_instruction_total. Qed.

(** ** Fuel *)

Lemma bind_ext {S E A B} (m : M S E A) (f g : A -> M S E B) s :
  (forall a s1, m s = (Ok a, s1) -> f a s1 = g a s1) -> bind m f s = bind m g s.
Proof. unfold bind. destruct (m s) as [[a|e|] s1]; auto. Qed.

Lemma contained_in_room js tc tc' : contained_in js tc tc' -> room tc' = room tc.
Proof.
  intros [Hu _ Hc]. unfold room, get_instruction_context_stack_height.
  by rewrite Hc, (u_stack _ _ _ Hu).
Qed.

Lemma process_executable_chain_ext invoke invoke' ic s :
  invoke_contained invoke -> invoke_agree (room (transaction_context s)) invoke invoke' ->
  running ic (transaction_context s) ->
  process_executable_chain find_builtin invoke s = process_executable_chain find_builtin invoke' s.
Proof.
  intros Hi Ha Hr. unfold process_executable_chain.
  apply bind_ext. intros ic1 s1 H1. injection H1 as _ <-.
  apply bind_ext. intros id s2 H2.
  apply (contained_on_tc_borrows _ (builtin_id_of_only ic1) ic) in H2 as Hc2; [|done..].
  apply bind_ext. intros entry s3 H3. apply lift_ok_inv in H3 as [H3 ->].
  apply bind_ext. intros f s3 H4. apply lift_ok_inv in H4 as [H4 ->].
  apply ok_or_ok in H3 as Hf. apply ok_or_ok in H4. subst entry.
  apply bind_ext. intros program_id s3 H5. apply zoom_inv in H5 as (t & H5 & ->).
  apply query_ok_inv in H5 as [_ ->].
  apply bind_ext. intros [] s4 H6. apply zoom_inv in H6 as (t & H6 & ->).
  apply modify_ok_inv in H6 as ->. unfold run_program.
  pose proof (contained_in_running _ _ _ _ Hr Hc2) as [Hok Hk Hsm Hcur].
  pose proof (programs_ok id f Hf) as Hprogram.
  rewrite (program_extensional invoke invoke' ic _ Hi); [done|..].
  - change (invoke_agree (room (transaction_context s2)) invoke invoke').
    by rewrite (contained_in_room _ _ _ Hc2).
  - split; try done. by destruct Hok; split.
Qed.

(** C25: the recursion ends.  The depth of calls is bounded by the room on the
    stack, so that with more fuel than room the outcome and the state do not
    depend on the fuel. *)
Theorem process_instruction_fuel (fuel fuel' : nat) (data : Bytes) (ias : list InstructionAccount)
    (programs : list IndexOfAccount) (s : InvokeContext) :
  stack_ok (transaction_context s) -> keys_ok (transaction_context s) ->
  vec_len programs + vec_len ias <= int_max U16 ->
  room (transaction_context s) < Z.of_nat fuel -> room (transaction_context s) < Z.of_nat fuel' ->
  process_instruction find_builtin fuel data ias programs s =
  process_instruction find_builtin fuel' data ias programs s.
Proof.
  revert fuel' data ias programs s. induction fuel as [|fuel IH]; intros [|fuel'] data ias programs s
    Hok Hk Hsm Hf Hf'; unfold room in Hf, Hf';
    pose proof (so_stack _ Hok) as Hst; fold (get_instruction_context_stack_height (transaction_context s)) in Hst;
    try lia.
  cbn [process_instruction]. rewrite !process_instruction_with_run by done. cbv zeta.
  set (tc1 := with_next (configure programs ias data) (transaction_context s)).
  destruct (check_reentrancy tc1); [|done..].
  destruct (push tc1) as [[[]|e|] tc2] eqn:Hp; [|done..].
  destruct (pushed_running _ _ _ _ _ Hok Hk Hsm Hp) as (ic & Hr & _ & Hh & _ & Hcap & _).
  unfold and_always. rewrite (process_executable_chain_ext (native_invoke_with (process_instruction
    find_builtin fuel)) (native_invoke_with (process_instruction find_builtin fuel')) ic); [done| | |done].
  - apply native_invoke_contained, process_instruction_contained_in.
  - intros instruction signers ic' s1 Hr1 Hroom Hlen.
    apply bind_ext. intros [ias1 programs1] s2 Hprep.
    apply prepare_instruction_run in Hprep as (tc3 & Hprep & ->).
    pose proof (keeps_ok _ _ _ _ _ (prepare_instruction_only _ _ _) Hprep) as Hbo.
    apply (contained_in_borrows (accounts_of ic')) in Hbo; [|apply Hr1].
    apply (prepare_instruction_spec _ _ _ _ ic') in Hprep as (Hf2 & _ & (j & acc & Hj & _));
      [|apply Hr1|apply Hr1|lia|apply Hr1].
    pose proof (contained_in_room _ _ _ Hbo) as Hroom3.
    pose proof (contained_in_running _ _ _ _ Hr1 Hbo) as [Hok3 Hk3 _ _].
    apply bind_ext. intros outer s3 Hg. apply gets_ok_inv in Hg as [-> ->]. unfold finally.
    rewrite (IH fuel'); [done|done|done| | |].
    + simpl in *. subst programs1. apply Forall2_length in Hf2. unfold vec_len in *. simpl in *. lia.
    + cbn. rewrite Hroom3, Hroom. cbn. unfold room. lia.
    + cbn. rewrite Hroom3, Hroom. cbn. unfold room. lia.
Qed.

End process.
