(* ===== verification/SystemContract.v ===== *)
(** * The system program as a program of the runtime

    The system program keeps the runtime's rules in every run, failing ones
    included, because each handler only goes through [BorrowedAccount]; it is
    therefore an implementation of the interface [ProgramsOk] that the runtime
    expects of its builtin programs. *)

From S2P Require Import Prelude Errors Rent Account Pubkey Sysvars EpochSchedule Nonce TransactionContext RuntimeRules CallStack SysvarCache SystemProgram Effects InvokeContext InvokeRules ProcessRules.

(** ** Methods and borrows *)

Section obeys.
Context (ic : InstructionContext) (Hsmall : ic_small ic).

Lemma rules_keeps_obeys {A} (m : TxM A) : keeps (rules ic) m -> keeps (obeys ic) m.
Proof. intros Hm tc. by apply rules_obeys. Qed.

Lemma borrowing_obeys {A} i (scope : BorrowedAccount -> TxM A) :
  (forall account, handle ic account -> keeps (obeys ic) (scope account)) ->
  keeps (obeys ic) (borrowing (try_borrow_instruction_account ic i) scope).
Proof.
  intros Hs tc. unfold final, borrowing, bind.
  assert (obeys ic tc (snd (try_borrow_instruction_account ic i tc))) as Hb.
  { destruct (try_borrow_instruction_account_only ic i tc) as (Hf & Hv & _).
    by apply same_values_obeys. }
  destruct (try_borrow_instruction_account ic i tc) as [[account|e|] tc1] eqn:E; [|done..].
  etransitivity; [exact Hb|]. apply (keeps_finally (obeys ic)).
  - apply Hs. by eapply instruction_handle.
  - intros t. destruct (drop_account_values account t) as [Hf Hv]. by apply same_values_obeys.
Qed.

Context (ba : BorrowedAccount) (Hh : handle ic ba).

Lemma set_owner_obeys k : keeps (obeys ic) (set_owner ba k).
Proof. by apply rules_keeps_obeys, set_owner_rules. Qed.
Lemma set_data_length_obeys n : 0 <= n -> keeps (obeys ic) (set_data_length ba n).
Proof. intros. by apply rules_keeps_obeys, set_data_length_rules. Qed.
Lemma checked_add_lamports_obeys l : keeps (obeys ic) (checked_add_lamports ba l).
Proof. by apply rules_keeps_obeys, checked_add_lamports_rules. Qed.
Lemma checked_sub_lamports_obeys l : keeps (obeys ic) (checked_sub_lamports ba l).
Proof. by apply rules_keeps_obeys, checked_sub_lamports_rules. Qed.
Lemma get_state_obeys {T} `{!Bincode T} : keeps (obeys ic) (get_state (T:=T) ba).
Proof. by apply rules_keeps_obeys, get_state_rules. Qed.
Lemma set_state_obeys {T} `{!Bincode T} (x : T) : keeps (obeys ic) (set_state ba x).
Proof. by apply rules_keeps_obeys, set_state_rules. Qed.

End obeys.

#[export] Hint Resolve set_owner_obeys set_data_length_obeys checked_add_lamports_obeys
  checked_sub_lamports_obeys get_state_obeys set_state_obeys : keeps.
#[export] Hint Extern 2 (keeps (obeys _) (borrowing _ _)) => apply borrowing_obeys; [assumption|intros ??] : keeps.

(** ** The handlers *)

Section handlers.
Context {hashing : Hashing} {ids : ProgramIds}.
Context {versions_codec : Bincode Versions} {instruction_codec : BincodeLimited SystemInstruction}.
Context (ic : InstructionContext) (Hsmall : ic_small ic).

Lemma ic_msg_obeys {A} env (m : TxM A) : keeps (obeys ic) m -> keeps (obeys ic) (ic_msg env m).
Proof. intros ?. unfold ic_msg. keeps. Qed.
#[local] Hint Resolve ic_msg_obeys : keeps.

Section account.
Context (ba : BorrowedAccount) (Hh : handle ic ba).

Lemma allocate_obeys ad space signers : 0 <= space -> keeps (obeys ic) (allocate ba ad space signers).
Proof. intros ?. unfold allocate. keeps. Qed.
Lemma assign_obeys ad owner signers : keeps (obeys ic) (assign ba ad owner signers).
Proof. unfold assign. keeps. Qed.
#[local] Hint Resolve allocate_obeys assign_obeys : keeps.
Lemma allocate_and_assign_obeys ad space owner signers :
  0 <= space -> keeps (obeys ic) (allocate_and_assign ba ad space owner signers).
Proof. intros ?. unfold allocate_and_assign. keeps. Qed.
Lemma advance_obeys env signers : keeps (obeys ic) (advance_nonce_account env ba signers).
Proof. unfold advance_nonce_account, fail_with_key. keeps. Qed.
Lemma initialize_obeys env k r : keeps (obeys ic) (initialize_nonce_account env ba k r).
Proof. unfold initialize_nonce_account, fail_with_key. keeps. Qed.
Lemma authorize_obeys env k signers : keeps (obeys ic) (authorize_nonce_account env ba k signers).
Proof. unfold authorize_nonce_account, fail_with_key. keeps. Qed.
Lemma upgrade_obeys : keeps (obeys ic) (upgrade_nonce_account ba).
Proof. unfold upgrade_nonce_account. keeps. Qed.
Lemma withdraw_signer_obeys env l r : keeps (obeys ic) (withdraw_signer env ba l r).
Proof. unfold withdraw_signer. keeps. Qed.

End account.

#[local] Hint Resolve allocate_obeys assign_obeys allocate_and_assign_obeys advance_obeys
  initialize_obeys authorize_obeys upgrade_obeys withdraw_signer_obeys : keeps.

Lemma instruction_address_obeys i ws : keeps (obeys ic) (instruction_address ic i ws).
Proof. unfold instruction_address. keeps. Qed.
Lemma check_recent_blockhashes_obeys env i : keeps (obeys ic) (check_recent_blockhashes env ic i).
Proof. unfold check_recent_blockhashes. keeps. Qed.
Lemma transfer_verified_obeys i j l : keeps (obeys ic) (transfer_verified ic i j l).
Proof. unfold transfer_verified. keeps. Qed.
#[local] Hint Resolve instruction_address_obeys check_recent_blockhashes_obeys transfer_verified_obeys : keeps.
Lemma transfer_obeys env i j l : keeps (obeys ic) (transfer env ic i j l).
Proof. unfold transfer. keeps. Qed.
Lemma transfer_with_seed_obeys env i b seed owner j l :
  keeps (obeys ic) (transfer_with_seed env ic i b seed owner j l).
Proof. unfold transfer_with_seed. keeps. Qed.
Lemma withdraw_obeys env i l j r signers :
  keeps (obeys ic) (withdraw_nonce_account env ic i l j r signers).
Proof. unfold withdraw_nonce_account, fail_with_key. keeps. Qed.
#[local] Hint Resolve transfer_obeys transfer_with_seed_obeys withdraw_obeys : keeps.
Lemma create_account_obeys env i j ad l space owner signers :
  0 <= space -> keeps (obeys ic) (create_account env ic i j ad l space owner signers).
Proof. intros ?. unfold create_account. keeps. Qed.
#[local] Hint Resolve create_account_obeys : keeps.

Lemma dispatch_obeys env signers instruction :
  system_instruction_wf instruction -> keeps (obeys ic) (dispatch env ic signers instruction).
Proof.
  intros Hwf. destruct instruction; simpl in Hwf; unfold dispatch; unfold in_range in Hwf; simpl in Hwf;
    destruct_and?; keeps.
Qed.

Context {instruction_codec_ok : BincodeLimitedOk SystemInstruction system_instruction_wf}.

Lemma Entrypoint_obeys env tc o tc' :
  get_current_instruction_context tc = Ok ic -> Entrypoint env tc = (o, tc') -> obeys ic tc tc'.
Proof.
  intros Hic Hr. unfold Entrypoint, bind at 1, query at 1 in Hr. rewrite Hic in Hr.
  unfold bind at 1, lift at 1 in Hr.
  destruct (limited_deserialize (instruction_data ic)) as [instruction|e|] eqn:Hd;
    [|by injection Hr as _ <-..].
  eapply (keeps_ok (obeys ic)); [|exact Hr].
  apply keeps_bind; [apply _|apply keeps_query, _|intros signers]. apply dispatch_obeys.
  apply ok_or_ok in Hd. by eapply deserialize_with_limit_wf.
Qed.

End handlers.

(** ** The contract *)

Lemma contained_lift {A} (m : InvM A) : contained m -> contained (as_program m).
Proof.
  intros Hm ic s o s' Hr H Ho. unfold as_program in H. destruct (m s) as [o1 s1] eqn:E.
  injection H as <- <-. eapply Hm; [done..|]. by destruct o1.
Qed.

Lemma declare_contained units inner : contained inner -> contained (declare_process_instruction units inner).
Proof.
  intros Hi. apply contained_bind; [|intros _; by apply contained_lift].
  apply contained_other. intros s. destruct (0 <? units); [|done].
  unfold final, consume_checked, bind, gets, modify. by destruct (compute_meter s <? units).
Qed.

Section contract.
Context {hashing : Hashing} {ids : ProgramIds}.
Context {versions_codec : Bincode Versions} {instruction_codec : BincodeLimited SystemInstruction}.
Context {instruction_codec_ok : BincodeLimitedOk SystemInstruction system_instruction_wf}.

#[global] Instance system_builtin_ok : ProgramOk system_builtin.
Proof.
  split; [|done]. intros invoke _. apply declare_contained.
  apply contained_bind; [by apply contained_other|intros env].
  apply contained_on_tc. intros ic tc o tc' Hs Hic Hr. by eapply Entrypoint_obeys.
Qed.

(** The system program obeys the runtime's rules.  However a run of it
    ends, each account of the transaction is unchanged or changed in a way the
    rules allow the system program in this instruction. *)
Theorem system_program_obeys_rules (env : Environment) (ic : InstructionContext)
    (tc tc' : TransactionContext) (o : Outcome InstructionError unit) :
  ic_small ic -> get_current_instruction_context tc = Ok ic ->
  Entrypoint env tc = (o, tc') ->
  obeys ic tc tc'.
Proof. intros Hs Hic Hr. by eapply Entrypoint_obeys. Qed.

End contract.
