(* ===== verification/BTreeMap.v ===== *)
(** * Ordered maps ([std::collections::BTreeMap])

    The source iterates over maps keyed by addresses and asks maps keyed by
    epochs for their last entry before an epoch, so that the order of the keys
    matters: a map is the list of its entries in ascending order of the keys.
    The order is a type class ([Ord]); addresses are compared byte by byte, as
    arrays are, and epochs as integers. *)

From S2P Require Import Prelude Account.
From Stdlib Require Import Sorting.Sorted.

(** ** The order of byte arrays *)

Fixpoint bytes_compare (a b : Bytes) : comparison :=
  match a, b with
  | [], [] => Eq
  | [], _ => Lt
  | _, [] => Gt
  | x :: a, y :: b => match (x ?= y) with Eq => bytes_compare a b | c => c end
  end.

Definition bytes_lt (a b : Bytes) : Prop := bytes_compare a b = Lt.

Lemma bytes_compare_eq a b : bytes_compare a b = Eq <-> a = b.
Proof.
  revert b. induction a as [|x a IH]; intros [|y b]; simpl; try done.
  destruct (Z.compare_spec x y); [rewrite IH|..]; naive_solver lia.
Qed.

Lemma bytes_compare_gt a b : bytes_compare a b = Gt -> bytes_lt b a.
Proof.
  unfold bytes_lt. revert b. induction a as [|x a IH]; intros [|y b]; simpl; try done.
  rewrite (Z.compare_antisym y x). destruct (y ?= x); simpl; auto; done.
Qed.

#[global] Instance bytes_lt_trans : Transitive bytes_lt.
Proof.
  unfold bytes_lt. intros a. induction a as [|x a IH]; intros [|y b] [|z c]; simpl; try done.
  destruct (Z.compare_spec x y), (Z.compare_spec y z); try done; subst.
  - by rewrite Z.compare_refl; apply IH.
  - by destruct (Z.compare_spec y z); try lia.
  - by destruct (Z.compare_spec x z); try lia.
  - intros _ _. by destruct (Z.compare_spec x z); try lia.
Qed.

(** ** Ordered keys ([Ord]) *)

Class KeyOrder (K : Type) := {
  key_compare : K -> K -> comparison;
  key_compare_eq a b : key_compare a b = Eq <-> a = b;
  key_compare_gt a b : key_compare a b = Gt -> key_compare b a = Lt;
  key_compare_trans a b c : key_compare a b = Lt -> key_compare b c = Lt -> key_compare a c = Lt;
}.

#[global] Instance bytes_order : KeyOrder Bytes := {
  key_compare := bytes_compare;
  key_compare_eq := bytes_compare_eq;
  key_compare_gt := bytes_compare_gt;
  key_compare_trans := bytes_lt_trans;
}.

#[global, refine] Instance Z_order : KeyOrder Z := { key_compare := Z.compare }.
Proof.
  - apply Z.compare_eq_iff.
  - intros a b. rewrite (Z.compare_antisym b a). by destruct (b ?= a).
  - intros a b c. rewrite !Z.compare_lt_iff. lia.
Defined.

(** ** Maps *)

Section map.
Context {K V : Type} `{!EqDecision K} `{!KeyOrder K}.

Definition key_lt (a b : K) : Prop := key_compare a b = Lt.

#[export] Instance key_lt_trans : Transitive key_lt.
Proof. intros a b c. apply key_compare_trans. Qed.

Lemma key_lt_irrefl a : ~ key_lt a a.
Proof. unfold key_lt. by rewrite (proj2 (key_compare_eq a a) eq_refl). Qed.

Definition BTreeMap : Type := list (K * V).

Fixpoint btree_get (key : K) (m : BTreeMap) : option V :=
  match m with
  | [] => None
  | (k, v) :: m => if bool_decide (key = k) then Some v else btree_get key m
  end.

(** [m.entry(key).or_default()], updated through the reference it returns. *)
Fixpoint btree_update (d : V) (key : K) (f : V -> V) (m : BTreeMap) : BTreeMap :=
  match m with
  | [] => [(key, f d)]
  | (k, v) :: m' =>
      match key_compare key k with
      | Lt => (key, f d) :: m
      | Eq => (k, f v) :: m'
      | Gt => (k, v) :: btree_update d key f m'
      end
  end.

(** [m.insert(key, value)] *)
Definition btree_insert (key : K) (value : V) (m : BTreeMap) : BTreeMap :=
  btree_update value key (fun _ => value) m.

(** [m.remove_entry(key)] *)
Definition btree_remove (key : K) (m : BTreeMap) : BTreeMap :=
  filter (fun kv => kv.1 <> key) (m : list (K * V)).

(** Keys in ascending order. *)
Definition btree_ok (m : BTreeMap) : Prop := StronglySorted key_lt m.*1.

Lemma btree_ok_NoDup m : btree_ok m -> NoDup m.*1.
Proof.
  unfold btree_ok. induction 1 as [|k l _ IH Hf]; constructor; [|done].
  intros Hin. rewrite list.Forall_forall in Hf. by apply (key_lt_irrefl k), Hf.
Qed.

Lemma btree_get_elem m key v : btree_ok m -> btree_get key m = Some v <-> (key, v) ∈ m.
Proof.
  intros Hok%btree_ok_NoDup. induction m as [|[k w] m IH]; simpl in *; [set_solver|].
  apply list.NoDup_cons in Hok as [Hk Hok]. rewrite elem_of_cons. case_bool_decide as Hkey.
  - subst. split; [naive_solver|]. intros [[=]|Hin]; [by subst|].
    destruct Hk. by apply (list_elem_of_fmap_2 fst) in Hin.
  - rewrite IH by done. naive_solver.
Qed.

Lemma btree_update_keys d key f m k : k ∈ (btree_update d key f m).*1 <-> k = key \/ k ∈ m.*1.
Proof.
  induction m as [|[k' v] m IH]; simpl; [set_solver|].
  destruct (key_compare key k') eqn:Hc; simpl; rewrite ?elem_of_cons; [|done|rewrite IH; naive_solver].
  apply key_compare_eq in Hc. naive_solver.
Qed.

Lemma btree_update_ok d key f m : btree_ok m -> btree_ok (btree_update d key f m).
Proof.
  unfold btree_ok. induction m as [|[k v] m IH]; simpl; intros Hok; [by repeat constructor|].
  inversion Hok as [|? ? Hs Hf]; subst.
  destruct (key_compare key k) eqn:Hc; simpl; [done| |].
  - constructor; [done|]. constructor; [done|]. eapply list.Forall_impl; [done|].
    intros k'. by apply key_lt_trans.
  - constructor; [by apply IH|]. apply list.Forall_forall. intros k' [->|Hk']%btree_update_keys.
    + by apply key_compare_gt.
    + rewrite list.Forall_forall in Hf. by apply Hf.
Qed.

Lemma btree_get_update d key f m k :
  btree_ok m -> btree_get k (btree_update d key f m) =
  if bool_decide (k = key) then Some (f (default d (btree_get key m))) else btree_get k m.
Proof.
  unfold btree_ok. induction m as [|[k' v] m IH]; simpl; intros Hok; [by case_bool_decide|].
  inversion Hok as [|? ? Hs Hf]; subst. rewrite list.Forall_forall in Hf.
  destruct (key_compare key k') eqn:Hc; simpl.
  - apply key_compare_eq in Hc as ->. rewrite (bool_decide_eq_true_2 (k' = k')) by done.
    by repeat case_bool_decide.
  - rewrite (bool_decide_eq_false_2 (key = k')) by (intros ->; by apply (key_lt_irrefl k')).
    assert (btree_get key m = None) as ->; [|done].
    destruct (btree_get key m) eqn:Hg; [|done]. apply btree_get_elem in Hg; [|done].
    apply (list_elem_of_fmap_2 fst) in Hg. destruct (key_lt_irrefl key).
    by transitivity k'; [|apply Hf].
  - rewrite IH by done. rewrite (bool_decide_eq_false_2 (key = k')).
    + repeat case_bool_decide; subst; try done. apply key_compare_gt in Hc.
      by destruct (key_lt_irrefl k').
    + intros ->. apply key_compare_gt in Hc. by destruct (key_lt_irrefl k').
Qed.

End map.
Arguments BTreeMap K V : clear implicits.
