(* ===== verification/VoteState.v ===== *)
(** * The state of a vote account (sdk/program/src/vote)

    A validator's tower of votes with their lockouts, its root, the voters it
    authorizes for the epochs to come, and the credits it has earned; the
    methods of [VoteState] (state/mod.rs), [AuthorizedVoters]
    (authorized_voters.rs) and the older layouts of the state
    (state/vote_state_versions.rs).  Methods that take [&mut self] and may fail
    or panic are actions on the state. *)

From S2P Require Import Prelude Errors Rent Account BTreeMap Sysvars.

(** ** Errors (error.rs) *)

Module VoteError.

Inductive VoteError : Type :=
| VoteTooOld
| SlotsMismatch
| SlotHashMismatch
| EmptySlots
| TimestampTooOld
| TooSoonToReauthorize
| LockoutConflict
| NewVoteStateLockoutMismatch
| SlotsNotOrdered
| ConfirmationsNotOrdered
| ZeroConfirmations
| ConfirmationTooLarge
| RootRollBack
| ConfirmationRollBack
| SlotSmallerThanRoot
| TooManyVotes
| VotesTooOldAllFiltered
| RootOnDifferentFork
| ActiveVoteAccountClose
| CommissionUpdateTooLate.

(** The derived [ToPrimitive]: the discriminant. *)
Definition to_u64 (e : VoteError) : Z :=
  match e with
  | VoteTooOld => 0
  | SlotsMismatch => 1
  | SlotHashMismatch => 2
  | EmptySlots => 3
  | TimestampTooOld => 4
  | TooSoonToReauthorize => 5
  | LockoutConflict => 6
  | NewVoteStateLockoutMismatch => 7
  | SlotsNotOrdered => 8
  | ConfirmationsNotOrdered => 9
  | ZeroConfirmations => 10
  | ConfirmationTooLarge => 11
  | RootRollBack => 12
  | ConfirmationRollBack => 13
  | SlotSmallerThanRoot => 14
  | TooManyVotes => 15
  | VotesTooOldAllFiltered => 16
  | RootOnDifferentFork => 17
  | ActiveVoteAccountClose => 18
  | CommissionUpdateTooLate => 19
  end.

Definition into (e : VoteError) : InstructionError := InstructionError_from (Some (to_u64 e)).

End VoteError.
Abbreviation VoteErr := VoteError.VoteError.

Definition MAX_LOCKOUT_HISTORY : Z := 31.
Definition INITIAL_LOCKOUT : Z := 2.
Definition MAX_EPOCH_CREDITS_HISTORY : Z := 64.
Definition VOTE_CREDITS_GRACE_SLOTS : Z := 2.
Definition VOTE_CREDITS_MAXIMUM_PER_SLOT : Z := 16.
Definition VOTE_CREDITS_MAXIMUM_PER_SLOT_OLD : Z := 8.

(** ** Lockouts *)

Record Lockout := mkLockout {
  lockout_slot : Slot;
  confirmation_count : Z;
}.

Definition Lockout_new (slot : Slot) : Lockout := mkLockout slot 1.

(** [(INITIAL_LOCKOUT as u64).pow(..)], which wraps around. *)
Definition lockout (self : Lockout) : Z :=
  wrapping U64 (INITIAL_LOCKOUT ^ confirmation_count self).

Definition last_locked_out_slot (self : Lockout) : Slot :=
  saturating_add U64 (lockout_slot self) (lockout self).

Definition is_locked_out_at_slot (self : Lockout) (slot : Slot) : bool :=
  slot <=? last_locked_out_slot self.

Definition increase_confirmation_count (by_ : Z) (self : Lockout) : Lockout :=
  mkLockout (lockout_slot self) (saturating_add U32 (confirmation_count self) by_).

Record LandedVote := mkLandedVote {
  latency : Z;
  landed_lockout : Lockout;
}.

Definition landed_slot (self : LandedVote) : Slot := lockout_slot (landed_lockout self).
Definition landed_confirmation_count (self : LandedVote) : Z :=
  confirmation_count (landed_lockout self).

(** [impl From<Lockout> for LandedVote] *)
Definition LandedVote_from (lockout : Lockout) : LandedVote := mkLandedVote 0 lockout.

Definition set_latency (l : Z) (self : LandedVote) : LandedVote :=
  mkLandedVote l (landed_lockout self).

(** ** What validators send *)

Record Vote := mkVote {
  vote_slots : list Slot;
  vote_hash : Hash;
  vote_timestamp : option Z;
}.

Definition Vote_new (slots : list Slot) (hash : Hash) : Vote := mkVote slots hash None.
Definition Vote_last_voted_slot (self : Vote) : option Slot := list.last (vote_slots self).

Record VoteStateUpdate := mkVoteStateUpdate {
  vsu_lockouts : list Lockout;
  vsu_root : option Slot;
  vsu_hash : Hash;
  vsu_timestamp : option Z;
}.

(** [impl From<Vec<(Slot, u32)>> for VoteStateUpdate] *)
Definition VoteStateUpdate_from (recent_slots : list (Slot * Z)) : VoteStateUpdate :=
  mkVoteStateUpdate ((fun '(slot, count) => mkLockout slot count) <$> recent_slots)
    None (replicate 32 0) None.

Definition VoteStateUpdate_new (lockouts : list Lockout) (root : option Slot) (hash : Hash)
  : VoteStateUpdate := mkVoteStateUpdate lockouts root hash None.

Definition VoteStateUpdate_slots (self : VoteStateUpdate) : list Slot :=
  lockout_slot <$> vsu_lockouts self.

Definition VoteStateUpdate_last_voted_slot (self : VoteStateUpdate) : option Slot :=
  lockout_slot <$> list.last (vsu_lockouts self).

Record VoteInit := mkVoteInit {
  init_node_pubkey : Pubkey;
  init_authorized_voter : Pubkey;
  init_authorized_withdrawer : Pubkey;
  init_commission : Z;
}.

Inductive VoteAuthorize : Type := Voter | Withdrawer.

Record BlockTimestamp := mkBlockTimestamp { bt_slot : Slot; bt_timestamp : Z }.

#[global] Instance BlockTimestamp_eq_dec : EqDecision BlockTimestamp.
Proof. solve_decision. Defined.

(** ** Circular buffers

    A state read from an account may hold any [idx]: the indexing panics if it is
    out of range. *)

Section circ_buf.
Context {I : Type}.

Definition MAX_ITEMS : Z := 32.

Record CircBuf := mkCircBuf {
  buf : list I;
  idx : Z;
  is_empty : bool;
}.

Definition CircBuf_default (d : I) : CircBuf :=
  mkCircBuf (replicate (Z.to_nat MAX_ITEMS) d) (MAX_ITEMS - 1) true.

Definition CircBuf_append (item : I) (self : CircBuf) : option CircBuf :=
  i ← checked_add USIZE (idx self) 1;
  let i := i mod MAX_ITEMS in
  _ ← vec_get (buf self) i;
  Some (mkCircBuf (vec_set i item (buf self)) i false).

Definition CircBuf_last {E} (self : CircBuf) : Outcome E (option I) :=
  if is_empty self then Ok None
  else let! item := unwrap (vec_get (buf self) (idx self)) in Ok (Some item).

End circ_buf.
Arguments CircBuf : clear implicits.

(** ** Authorized voters (authorized_voters.rs) *)

Definition AuthorizedVoters := BTreeMap Epoch Pubkey.

Definition AuthorizedVoters_new (epoch : Epoch) (pubkey : Pubkey) : AuthorizedVoters :=
  btree_insert epoch pubkey [].

(** [self.authorized_voters.range(0..epoch)] *)
Definition voters_before (epoch : Epoch) (self : list (Epoch * Pubkey)) : AuthorizedVoters :=
  filter (fun kv => 0 <= kv.1 < epoch) self.

Definition get_or_calculate_authorized_voter_for_epoch (epoch : Epoch) (self : AuthorizedVoters)
  : option (Pubkey * bool) :=
  match btree_get epoch self with
  | None => (fun kv => (snd kv, false)) <$> list.last (voters_before epoch self)
  | Some pubkey => Some (pubkey, true)
  end.

Definition AuthorizedVoters_get_authorized_voter (epoch : Epoch) (self : AuthorizedVoters)
  : option Pubkey :=
  fst <$> get_or_calculate_authorized_voter_for_epoch epoch self.

(** Returns the voter and the map in which it is cached. *)
Definition get_and_cache_authorized_voter_for_epoch (epoch : Epoch) (self : AuthorizedVoters)
  : option Pubkey * AuthorizedVoters :=
  match get_or_calculate_authorized_voter_for_epoch epoch self with
  | None => (None, self)
  | Some (pubkey, existed) =>
      (Some pubkey, if existed : bool then self else btree_insert epoch pubkey self)
  end.

(** The [assert!] panics if no entry is left. *)
Definition purge_authorized_voters (current_epoch : Epoch) (self : AuthorizedVoters)
  : option AuthorizedVoters :=
  let expired_keys := (voters_before current_epoch self).*1 in
  match foldl (fun m key => btree_remove key m) self expired_keys with
  | [] => None
  | m => Some m
  end.

Definition AuthorizedVoters_last (self : AuthorizedVoters) : option (Epoch * Pubkey) :=
  list.last self.

Definition AuthorizedVoters_contains (epoch : Epoch) (self : AuthorizedVoters) : bool :=
  bool_decide (is_Some (btree_get epoch self)).

(** ** VoteState *)

Record VoteState := mkVoteState {
  node_pubkey : Pubkey;
  authorized_withdrawer : Pubkey;
  commission : Z;
  votes : list LandedVote;
  root_slot : option Slot;
  authorized_voters : AuthorizedVoters;
  prior_voters : CircBuf (Pubkey * Epoch * Epoch);
  epoch_credits : list (Epoch * Z * Z);
  last_timestamp : BlockTimestamp;
}.

Definition DEFAULT_PUBKEY : Pubkey := replicate 32 0.

Definition VoteState_default : VoteState :=
  mkVoteState DEFAULT_PUBKEY DEFAULT_PUBKEY 0 [] None [] (CircBuf_default (DEFAULT_PUBKEY, 0, 0)) []
    (mkBlockTimestamp 0 0).

Definition VoteState_new (vote_init : VoteInit) (clock : Clock) : VoteState :=
  mkVoteState (init_node_pubkey vote_init) (init_authorized_withdrawer vote_init)
    (init_commission vote_init) [] None
    (AuthorizedVoters_new (clock_epoch clock) (init_authorized_voter vote_init))
    (CircBuf_default (DEFAULT_PUBKEY, 0, 0)) [] (mkBlockTimestamp 0 0).

Definition with_node_pubkey (x : Pubkey) (s : VoteState) : VoteState :=
  mkVoteState x (authorized_withdrawer s) (commission s) (votes s) (root_slot s)
    (authorized_voters s) (prior_voters s) (epoch_credits s) (last_timestamp s).
Definition with_authorized_withdrawer (x : Pubkey) (s : VoteState) : VoteState :=
  mkVoteState (node_pubkey s) x (commission s) (votes s) (root_slot s)
    (authorized_voters s) (prior_voters s) (epoch_credits s) (last_timestamp s).
Definition with_commission (x : Z) (s : VoteState) : VoteState :=
  mkVoteState (node_pubkey s) (authorized_withdrawer s) x (votes s) (root_slot s)
    (authorized_voters s) (prior_voters s) (epoch_credits s) (last_timestamp s).
Definition with_votes (x : list LandedVote) (s : VoteState) : VoteState :=
  mkVoteState (node_pubkey s) (authorized_withdrawer s) (commission s) x (root_slot s)
    (authorized_voters s) (prior_voters s) (epoch_credits s) (last_timestamp s).
Definition with_root_slot (x : option Slot) (s : VoteState) : VoteState :=
  mkVoteState (node_pubkey s) (authorized_withdrawer s) (commission s) (votes s) x
    (authorized_voters s) (prior_voters s) (epoch_credits s) (last_timestamp s).
Definition with_authorized_voters (x : AuthorizedVoters) (s : VoteState) : VoteState :=
  mkVoteState (node_pubkey s) (authorized_withdrawer s) (commission s) (votes s) (root_slot s)
    x (prior_voters s) (epoch_credits s) (last_timestamp s).
Definition with_prior_voters (x : CircBuf (Pubkey * Epoch * Epoch)) (s : VoteState) : VoteState :=
  mkVoteState (node_pubkey s) (authorized_withdrawer s) (commission s) (votes s) (root_slot s)
    (authorized_voters s) x (epoch_credits s) (last_timestamp s).
Definition with_epoch_credits (x : list (Epoch * Z * Z)) (s : VoteState) : VoteState :=
  mkVoteState (node_pubkey s) (authorized_withdrawer s) (commission s) (votes s) (root_slot s)
    (authorized_voters s) (prior_voters s) x (last_timestamp s).
Definition with_last_timestamp (x : BlockTimestamp) (s : VoteState) : VoteState :=
  mkVoteState (node_pubkey s) (authorized_withdrawer s) (commission s) (votes s) (root_slot s)
    (authorized_voters s) (prior_voters s) (epoch_credits s) x.

Definition get_authorized_voter (self : VoteState) (epoch : Epoch) : option Pubkey :=
  AuthorizedVoters_get_authorized_voter epoch (authorized_voters self).

Definition VoteState_size_of : Z := 3762.

Definition VoteState_get_rent_exempt_reserve (rent : Rent) : Z :=
  minimum_balance rent VoteState_size_of.

(** Returns (voter_portion, staker_portion, was_split). *)
Definition commission_split {E} (self : VoteState) (on : Z) : Outcome E (Z * Z * bool) :=
  let split := Z.min (commission self) 100 in
  if split =? 0 then Ok (0, on, false)
  else if split =? 100 then Ok (on, 0, false)
  else
    let! product := unwrap (checked_mul U128 on split) in
    let mine := product / 100 in
    let! rest := unwrap (checked_sub U8 100 split) in
    let! product := unwrap (checked_mul U128 on rest) in
    let theirs := product / 100 in
    Ok (wrapping U64 mine, wrapping U64 theirs, true).

(** [self.votes.binary_search_by(|vote| vote.slot().cmp(&candidate_slot)).is_ok()] *)
Definition contains_slot (self : VoteState) (candidate_slot : Slot) : bool :=
  match binary_search_by (fun vote => Z.compare (landed_slot vote) candidate_slot) (votes self) with
  | Found _ => true
  | Missing _ => false
  end.

(** ** Votes *)

Definition last_lockout (self : VoteState) : option Lockout :=
  landed_lockout <$> list.last (votes self).

Definition last_voted_slot (self : VoteState) : option Slot := lockout_slot <$> last_lockout self.

Definition nth_recent_lockout (self : VoteState) (position : Z) : option Lockout :=
  if position <? vec_len (votes self) then
    pos ← checked_sub USIZE (vec_len (votes self)) position;
    pos ← checked_sub USIZE pos 1;
    landed_lockout <$> vec_get (votes self) pos
  else None.

Definition tower (self : VoteState) : list Slot := landed_slot <$> votes self.

(** The loop of [pop_expired_votes], over the votes from the newest. *)
Fixpoint pop_expired_loop (next_vote_slot : Slot) (newest : list LandedVote) : list LandedVote :=
  match newest with
  | [] => []
  | vote :: older =>
      if negb (is_locked_out_at_slot (landed_lockout vote) next_vote_slot)
      then pop_expired_loop next_vote_slot older else newest
  end.

Definition pop_expired_votes (next_vote_slot : Slot) (self : VoteState) : VoteState :=
  with_votes (rev (pop_expired_loop next_vote_slot (rev (votes self)))) self.

(** The loop of [double_lockouts], from the [i]-th vote. *)
Fixpoint double_lockouts_loop {E} (stack_depth i : Z) (vs : list LandedVote)
  : Outcome E (list LandedVote) :=
  match vs with
  | [] => Ok []
  | v :: vs =>
      let! seen := unwrap (checked_add USIZE i (landed_confirmation_count v)) in
      let! vs' := double_lockouts_loop stack_depth (i + 1) vs in
      Ok ((if seen <? stack_depth
           then mkLandedVote (latency v) (increase_confirmation_count 1 (landed_lockout v))
           else v) :: vs')
  end.

Definition double_lockouts {E} : M VoteState E unit :=
  let? self := gets id in
  let? vs := lift (double_lockouts_loop (vec_len (votes self)) 0 (votes self)) in
  modify (with_votes vs).

(** ** Credits *)

Definition current_epoch (self : VoteState) : Epoch :=
  match list.last (epoch_credits self) with None => 0 | Some (epoch, _, _) => epoch end.

Definition credits (self : VoteState) : Z :=
  match list.last (epoch_credits self) with None => 0 | Some (_, credits, _) => credits end.

(** Replaces the last element: [*v.last_mut().unwrap() = ..]. *)
Definition set_last {A} (x : A) (l : list A) : list A := removelast l ++ [x].

(** The entry for [epoch] is made the last one. *)
Definition enter_epoch (epoch : Epoch) (history : list (Epoch * Z * Z)) : list (Epoch * Z * Z) :=
  match list.last history with
  | None => [(epoch, 0, 0)]
  | Some (e, credits, prev_credits) =>
      if epoch =? e then history
      else
        let history' :=
          if negb (credits =? prev_credits) then history ++ [(epoch, credits, credits)]
          else set_last (epoch, credits, prev_credits) history in
        if MAX_EPOCH_CREDITS_HISTORY <? vec_len history' then drop 1 history' else history'
  end.

Definition increment_credits (epoch : Epoch) (credits : Z) (self : VoteState) : VoteState :=
  let history := enter_epoch epoch (epoch_credits self) in
  match list.last history with
  | None => self
  | Some (e, c, p) => with_epoch_credits (set_last (e, saturating_add U64 c credits, p) history) self
  end.

Definition compute_vote_latency (voted_for_slot current_slot : Slot) : Z :=
  wrapping U8 (Z.min (saturating_sub U64 current_slot voted_for_slot) (int_max U8)).

Definition credits_for_vote_at_index (self : VoteState) (index : Z)
    (timely_vote_credits deprecate_unused_legacy_vote_plumbing : bool) : Z :=
  let latency := default 0 (latency <$> vec_get (votes self) index) in
  let max_credits := if deprecate_unused_legacy_vote_plumbing then VOTE_CREDITS_MAXIMUM_PER_SLOT
                     else VOTE_CREDITS_MAXIMUM_PER_SLOT_OLD in
  if (latency =? 0) || (deprecate_unused_legacy_vote_plumbing && negb timely_vote_credits) then 1
  else
    match checked_sub U8 latency VOTE_CREDITS_GRACE_SLOTS with
    | None | Some 0 => max_credits
    | Some diff =>
        match checked_sub U8 max_credits diff with
        | None | Some 0 => 1
        | Some credits => credits
        end
    end.

(** ** A vote for one slot *)

Definition process_next_vote_slot {E} (next_vote_slot : Slot) (epoch : Epoch) (current_slot : Slot)
    (timely_vote_credits deprecate_unused_legacy_vote_plumbing : bool) : M VoteState E unit :=
  let? self := gets id in
  if match last_voted_slot self with
     | Some last_voted_slot => next_vote_slot <=? last_voted_slot
     | None => false
     end
  then ret tt (* Ignore votes for slots earlier than we already have votes for *)
  else
    modify (pop_expired_votes next_vote_slot) ;?
    let landed_vote :=
      mkLandedVote
        (if timely_vote_credits || negb deprecate_unused_legacy_vote_plumbing
         then compute_vote_latency next_vote_slot current_slot else 0)
        (Lockout_new next_vote_slot) in
    let? self := gets id in
    (* Once the stack is full, pop the oldest lockout and distribute rewards *)
    (if vec_len (votes self) =? MAX_LOCKOUT_HISTORY then
       let credits := credits_for_vote_at_index self 0 timely_vote_credits
                        deprecate_unused_legacy_vote_plumbing in
       match votes self with
       | [] => panic
       | oldest :: rest =>
           modify (with_votes rest) ;?
           modify (with_root_slot (Some (landed_slot oldest))) ;?
           modify (increment_credits epoch credits)
       end
     else ret tt) ;?
    modify (fun self => with_votes (votes self ++ [landed_vote]) self) ;?
    double_lockouts.

(** ** Changing the authorized voter *)

Definition get_and_update_authorized_voter (current_epoch : Epoch)
  : M VoteState InstructionError Pubkey :=
  let? self := gets id in
  let (pubkey, voters) :=
    get_and_cache_authorized_voter_for_epoch current_epoch (authorized_voters self) in
  modify (with_authorized_voters voters) ;?
  let? pubkey := lift (ok_or InvalidAccountData pubkey) in
  let? voters := lift (unwrap (purge_authorized_voters current_epoch voters)) in
  modify (with_authorized_voters voters) ;?
  ret pubkey.

Definition set_new_authorized_voter (authorized_pubkey : Pubkey)
    (current_epoch target_epoch : Epoch) (verify : Pubkey -> Outcome InstructionError unit)
  : M VoteState InstructionError unit :=
  let? epoch_authorized_voter := get_and_update_authorized_voter current_epoch in
  lift (verify epoch_authorized_voter) ;?
  let? self := gets id in
  if AuthorizedVoters_contains target_epoch (authorized_voters self)
  then fail (VoteError.into VoteError.TooSoonToReauthorize)
  else
    let? latest := lift (ok_or InvalidAccountData (AuthorizedVoters_last (authorized_voters self))) in
    let (latest_epoch, latest_authorized_pubkey) := latest : Epoch * Pubkey in
    (if bool_decide (latest_authorized_pubkey <> authorized_pubkey) then
       let? range := lift (CircBuf_last (prior_voters self)) in
       let epoch_of_last_authorized_switch := default 0 (snd <$> range) in
       if target_epoch <=? latest_epoch then panic (* the [assert!] *)
       else
         let? prior := lift (unwrap (CircBuf_append
           (latest_authorized_pubkey, epoch_of_last_authorized_switch, target_epoch)
           (prior_voters self))) in
         modify (with_prior_voters prior)
     else ret tt) ;?
    modify (fun self => with_authorized_voters
      (btree_insert target_epoch authorized_pubkey (authorized_voters self)) self).

Definition process_timestamp (slot : Slot) (timestamp : Z) : M VoteState VoteErr unit :=
  let? self := gets id in
  let last := last_timestamp self in
  if ((slot <? bt_slot last) || (timestamp <? bt_timestamp last))
     || ((slot =? bt_slot last) && bool_decide (mkBlockTimestamp slot timestamp <> last)
         && negb (bt_slot last =? 0))
  then fail VoteError.TimestampTooOld
  else modify (with_last_timestamp (mkBlockTimestamp slot timestamp)).

(** ** Versions (vote_state_versions.rs, vote_state_1_14_11.rs, vote_state_0_23_5.rs) *)

Record VoteState1_14_11 := mkVoteState1_14_11 {
  v1_node_pubkey : Pubkey;
  v1_authorized_withdrawer : Pubkey;
  v1_commission : Z;
  v1_votes : list Lockout;
  v1_root_slot : option Slot;
  v1_authorized_voters : AuthorizedVoters;
  v1_prior_voters : CircBuf (Pubkey * Epoch * Epoch);
  v1_epoch_credits : list (Epoch * Z * Z);
  v1_last_timestamp : BlockTimestamp;
}.

Definition VoteState1_14_11_size_of : Z := 3731.

(** [impl From<VoteState> for VoteState1_14_11] *)
Definition VoteState1_14_11_from (s : VoteState) : VoteState1_14_11 :=
  mkVoteState1_14_11 (node_pubkey s) (authorized_withdrawer s) (commission s)
    (landed_lockout <$> votes s) (root_slot s) (authorized_voters s) (prior_voters s)
    (epoch_credits s) (last_timestamp s).

Record CircBuf0_23_5 (I : Type) := mkCircBuf0_23_5 { v0_buf : list I; v0_idx : Z }.

Record VoteState0_23_5 := mkVoteState0_23_5 {
  v0_node_pubkey : Pubkey;
  v0_authorized_voter : Pubkey;
  v0_authorized_voter_epoch : Epoch;
  v0_prior_voters : CircBuf0_23_5 (Pubkey * Epoch * Epoch * Slot);
  v0_authorized_withdrawer : Pubkey;
  v0_commission : Z;
  v0_votes : list Lockout;
  v0_root_slot : option Slot;
  v0_epoch_credits : list (Epoch * Z * Z);
  v0_last_timestamp : BlockTimestamp;
}.

Inductive VoteStateVersions : Type :=
| V0_23_5 (state : VoteState0_23_5)
| V1_14_11 (state : VoteState1_14_11)
| CurrentVoteState (state : VoteState).

Definition landed_votes_from_lockouts (lockouts : list Lockout) : list LandedVote :=
  LandedVote_from <$> lockouts.

Definition convert_to_current (self : VoteStateVersions) : VoteState :=
  match self with
  | V0_23_5 s =>
      mkVoteState (v0_node_pubkey s) (v0_authorized_withdrawer s) (v0_commission s)
        (landed_votes_from_lockouts (v0_votes s)) (v0_root_slot s)
        (AuthorizedVoters_new (v0_authorized_voter_epoch s) (v0_authorized_voter s))
        (CircBuf_default (DEFAULT_PUBKEY, 0, 0)) (v0_epoch_credits s) (v0_last_timestamp s)
  | V1_14_11 s =>
      mkVoteState (v1_node_pubkey s) (v1_authorized_withdrawer s) (v1_commission s)
        (landed_votes_from_lockouts (v1_votes s)) (v1_root_slot s) (v1_authorized_voters s)
        (v1_prior_voters s) (v1_epoch_credits s) (v1_last_timestamp s)
  | CurrentVoteState s => s
  end.

Definition is_uninitialized (self : VoteStateVersions) : bool :=
  match self with
  | V0_23_5 s => bool_decide (v0_authorized_voter s = DEFAULT_PUBKEY)
  | V1_14_11 s => bool_decide (v1_authorized_voters s = [])
  | CurrentVoteState s => bool_decide (authorized_voters s = [])
  end.

Definition vote_state_size_of (is_current : bool) : Z :=
  if is_current then VoteState_size_of else VoteState1_14_11_size_of.

(** [data[VERSION_OFFSET..end] != [0; offset]] of a buffer of the right length. *)
Definition initialized_at (size offset : Z) (data : Bytes) : bool :=
  (vec_len data =? size)
  && bool_decide (take (Z.to_nat offset) (drop 4 data) <> replicate (Z.to_nat offset) 0).

Definition VoteState_is_correct_size_and_initialized (data : Bytes) : bool :=
  initialized_at VoteState_size_of 114 data.
Definition VoteState1_14_11_is_correct_size_and_initialized (data : Bytes) : bool :=
  initialized_at VoteState1_14_11_size_of 82 data.
Definition is_correct_size_and_initialized (data : Bytes) : bool :=
  VoteState_is_correct_size_and_initialized data
  || VoteState1_14_11_is_correct_size_and_initialized data.
