(* ===== verification/Votes.v ===== *)
(** * Processing votes (programs/vote/src/vote_state/mod.rs)

    What a validator sends is checked against the slot hashes of the fork that is
    being built, and then merged into the state of its vote account: the single
    votes of [process_vote] one by one, the tower of
    [do_process_vote_state_update] as a whole.

    The loops that move through two sequences at once take fuel: the number of
    steps they can make at most, the lengths of both together.  VoteRules.v
    proves that it does not run out. *)

From S2P Require Import Prelude Errors Rent Account BTreeMap Sysvars FeatureSet VoteState.

Abbreviation SlotHash := (Slot * Hash)%type.

(** ** Vote transactions *)

Inductive VoteTransaction : Type :=
| VoteTx (vote : Vote)
| VoteStateUpdateTx (update : VoteStateUpdate)
| CompactVoteStateUpdateTx (update : VoteStateUpdate).

Module VoteTransaction.

Definition slots (self : VoteTransaction) : list Slot :=
  match self with
  | VoteTx vote => vote_slots vote
  | VoteStateUpdateTx u => VoteStateUpdate_slots u
  | CompactVoteStateUpdateTx u => VoteStateUpdate_slots u
  end.

(** The indexing panics. *)
Definition slot (self : VoteTransaction) (i : Z) : option Slot :=
  match self with
  | VoteTx vote => vec_get (vote_slots vote) i
  | VoteStateUpdateTx u | CompactVoteStateUpdateTx u => lockout_slot <$> vec_get (vsu_lockouts u) i
  end.

Definition len (self : VoteTransaction) : Z :=
  match self with
  | VoteTx vote => vec_len (vote_slots vote)
  | VoteStateUpdateTx u | CompactVoteStateUpdateTx u => vec_len (vsu_lockouts u)
  end.

Definition hash (self : VoteTransaction) : Hash :=
  match self with
  | VoteTx vote => vote_hash vote
  | VoteStateUpdateTx u => vsu_hash u
  | CompactVoteStateUpdateTx u => vsu_hash u
  end.

Definition timestamp (self : VoteTransaction) : option Z :=
  match self with
  | VoteTx vote => vote_timestamp vote
  | VoteStateUpdateTx u | CompactVoteStateUpdateTx u => vsu_timestamp u
  end.

Definition set_timestamp (ts : option Z) (self : VoteTransaction) : VoteTransaction :=
  let update u := mkVoteStateUpdate (vsu_lockouts u) (vsu_root u) (vsu_hash u) ts in
  match self with
  | VoteTx vote => VoteTx (mkVote (vote_slots vote) (vote_hash vote) ts)
  | VoteStateUpdateTx u => VoteStateUpdateTx (update u)
  | CompactVoteStateUpdateTx u => CompactVoteStateUpdateTx (update u)
  end.

Definition last_voted_slot (self : VoteTransaction) : option Slot :=
  match self with
  | VoteTx vote => Vote_last_voted_slot vote
  | VoteStateUpdateTx u | CompactVoteStateUpdateTx u => VoteStateUpdate_last_voted_slot u
  end.

Definition last_voted_slot_hash (self : VoteTransaction) : option (Slot * Hash) :=
  s ← last_voted_slot self; Some (s, hash self).

End VoteTransaction.

(** ** Checking a tower against the slot hashes *)

Definition with_root (x : option Slot) (u : VoteStateUpdate) : VoteStateUpdate :=
  mkVoteStateUpdate (vsu_lockouts u) x (vsu_hash u) (vsu_timestamp u).
Definition with_lockouts (x : list Lockout) (u : VoteStateUpdate) : VoteStateUpdate :=
  mkVoteStateUpdate x (vsu_root u) (vsu_hash u) (vsu_timestamp u).

(** A proposed root that is older than the slot hashes is replaced by the latest
    vote of the state that is not newer, or by the state's root. *)
Definition overwrite_root (vote_state : VoteState) (earliest_slot_hash_in_history : Slot)
    (u : VoteStateUpdate) : VoteStateUpdate :=
  match vsu_root u with
  | Some proposed_root =>
      if proposed_root <? earliest_slot_hash_in_history then
        with_root
          match list_find (fun vote => landed_slot vote <= proposed_root) (rev (votes vote_state)) with
          | Some (_, vote) => Some (landed_slot vote)
          | None => root_slot vote_state
          end u
      else u
  | None => u
  end.

(** The [while] loop: walks through the lockouts from the oldest, the root
    before them, and through the slot hashes from the oldest; returns both
    indices and those of the lockouts to filter out. *)
Fixpoint check_update_loop (fuel : nat) (vote_state : VoteState) (lockouts : list Lockout)
    (slot_hashes : list SlotHash) (earliest_slot_hash_in_history : Slot)
    (root_to_check : option Slot) (vote_state_update_index slot_hashes_index : Z)
    (indexes_to_filter : list Z) : Outcome VoteErr (Z * Z * list Z) :=
  match fuel with
  | O => Panic
  | S fuel =>
      let continue := check_update_loop fuel vote_state lockouts slot_hashes
                        earliest_slot_hash_in_history in
      if (vote_state_update_index <? vec_len lockouts) && (0 <? slot_hashes_index) then
        let! proposed_vote_slot :=
          match root_to_check with
          | Some root => Ok root
          | None =>
              let! lockout := unwrap (vec_get lockouts vote_state_update_index) in
              Ok (lockout_slot lockout)
          end in
        let! unordered :=
          if bool_decide (root_to_check = None) && (0 <? vote_state_update_index) then
            let! previous := unwrap (vec_get lockouts (vote_state_update_index - 1)) in
            Ok (proposed_vote_slot <=? lockout_slot previous)
          else Ok false in
        if unordered : bool then Err VoteError.SlotsNotOrdered else
        let! ancestor := unwrap (vec_get slot_hashes (slot_hashes_index - 1)) in
        match proposed_vote_slot ?= fst ancestor with
        | Lt =>
            if slot_hashes_index =? vec_len slot_hashes then
              (* too old to be in the history *)
              if earliest_slot_hash_in_history <=? proposed_vote_slot then Panic else
              let indexes_to_filter :=
                if negb (contains_slot vote_state proposed_vote_slot)
                   && bool_decide (root_to_check = None)
                then indexes_to_filter ++ [vote_state_update_index] else indexes_to_filter in
              match root_to_check with
              | Some new_proposed_root =>
                  if (new_proposed_root =? proposed_vote_slot)
                     && (new_proposed_root <? earliest_slot_hash_in_history)
                  then continue None vote_state_update_index slot_hashes_index indexes_to_filter
                  else Panic
              | None =>
                  continue None (vote_state_update_index + 1) slot_hashes_index indexes_to_filter
              end
            else
              match root_to_check with
              | Some _ => Err VoteError.RootOnDifferentFork
              | None => Err VoteError.SlotsMismatch
              end
        | Gt =>
            continue root_to_check vote_state_update_index (slot_hashes_index - 1) indexes_to_filter
        | Eq =>
            match root_to_check with
            | Some _ => continue None vote_state_update_index slot_hashes_index indexes_to_filter
            | None =>
                continue None (vote_state_update_index + 1) (slot_hashes_index - 1) indexes_to_filter
            end
        end
      else Ok (vote_state_update_index, slot_hashes_index, indexes_to_filter)
  end.

(** [lockouts.retain(..)] from the [index]-th; [indexes_to_filter] are those that
    are still to come. *)
Fixpoint retain_lockouts (index : Z) (indexes_to_filter : list Z) (lockouts : list Lockout)
  : list Lockout :=
  match lockouts with
  | [] => []
  | lockout :: lockouts =>
      match indexes_to_filter with
      | [] => lockout :: retain_lockouts (index + 1) [] lockouts
      | i :: rest =>
          if index =? i then retain_lockouts (index + 1) rest lockouts
          else lockout :: retain_lockouts (index + 1) indexes_to_filter lockouts
      end
  end.

Definition check_update_fuel (u : VoteStateUpdate) (slot_hashes : list SlotHash) : nat :=
  S (S (length (vsu_lockouts u) + length slot_hashes)).

Definition check_update_vote_state_slots_are_valid (vote_state : VoteState)
    (slot_hashes : list SlotHash) : M VoteStateUpdate VoteErr unit :=
  let? u := gets id in
  match list.last (vsu_lockouts u) with
  | None => fail VoteError.EmptySlots
  | Some last =>
      let last_vote_state_update_slot := lockout_slot last in
      if match list.last (votes vote_state) with
         | Some vote => last_vote_state_update_slot <=? landed_slot vote
         | None => false
         end
      then fail VoteError.VoteTooOld else
      match list.last slot_hashes with
      | None => fail VoteError.SlotsMismatch
      | Some (earliest_slot_hash_in_history, _) =>
          if last_vote_state_update_slot <? earliest_slot_hash_in_history
          then fail VoteError.VoteTooOld else
          modify (overwrite_root vote_state earliest_slot_hash_in_history) ;?
          let? u := gets id in
          let? walked := lift (check_update_loop (check_update_fuel u slot_hashes) vote_state
            (vsu_lockouts u) slot_hashes earliest_slot_hash_in_history (vsu_root u) 0
            (vec_len slot_hashes) []) in
          let '(vote_state_update_index, slot_hashes_index, indexes_to_filter) :=
            walked : Z * Z * list Z in
          if negb (vote_state_update_index =? vec_len (vsu_lockouts u))
          then fail VoteError.SlotsMismatch else
          let? ancestor := lift (unwrap (vec_get slot_hashes slot_hashes_index)) in
          let (slot, hash) := ancestor : SlotHash in
          if negb (last_vote_state_update_slot =? slot) then panic (* the [assert_eq!] *)
          else if bool_decide (hash <> vsu_hash u) then fail VoteError.SlotHashMismatch
          else modify (fun u => with_lockouts (retain_lockouts 0 indexes_to_filter (vsu_lockouts u)) u)
      end
  end.

(** ** Checking single votes against the slot hashes *)

Fixpoint check_slots_loop (fuel : nat) (vote_state : VoteState) (vote_slots : list Slot)
    (slot_hashes : list SlotHash) (i j : Z) : Outcome VoteErr (Z * Z) :=
  match fuel with
  | O => Panic
  | S fuel =>
      if (i <? vec_len vote_slots) && (0 <? j) then
        let! slot := unwrap (vec_get vote_slots i) in
        (* 1) skip the slots that have been voted for *)
        if match last_voted_slot vote_state with
           | Some last_voted_slot => slot <=? last_voted_slot
           | None => false
           end
        then check_slots_loop fuel vote_state vote_slots slot_hashes (i + 1) j
        else
          (* 2) find the hash for this slot *)
          let! ancestor := unwrap (vec_get slot_hashes (j - 1)) in
          if negb (slot =? fst ancestor)
          then check_slots_loop fuel vote_state vote_slots slot_hashes i (j - 1)
          (* 3) once it is found, go on to the next slot *)
          else check_slots_loop fuel vote_state vote_slots slot_hashes (i + 1) (j - 1)
      else Ok (i, j)
  end.

Definition check_slots_are_valid (vote_state : VoteState) (vote_slots : list Slot)
    (vote_hash : Hash) (slot_hashes : list SlotHash) : Outcome VoteErr unit :=
  let! walked := check_slots_loop (S (length vote_slots + length slot_hashes)) vote_state
                   vote_slots slot_hashes 0 (vec_len slot_hashes) in
  let (i, j) := walked : Z * Z in
  if j =? vec_len slot_hashes then Err VoteError.VoteTooOld
  else if negb (i =? vec_len vote_slots) then Err VoteError.SlotsMismatch
  else
    let! ancestor := unwrap (vec_get slot_hashes j) in
    if bool_decide (snd ancestor <> vote_hash) then Err VoteError.SlotHashMismatch else Ok tt.

(** ** A new tower *)

(** The checks on the proposed votes alone. *)
Fixpoint check_new_votes (new_root : option Slot) (previous_vote : option LandedVote)
    (new_state : list LandedVote) : Outcome VoteErr unit :=
  match new_state with
  | [] => Ok tt
  | vote :: rest =>
      if landed_confirmation_count vote =? 0 then Err VoteError.ZeroConfirmations
      else if MAX_LOCKOUT_HISTORY <? landed_confirmation_count vote
      then Err VoteError.ConfirmationTooLarge
      else if match new_root with
              | Some new_root => (landed_slot vote <=? new_root) && negb (new_root =? 0)
              | None => false
              end
      then Err VoteError.SlotSmallerThanRoot
      else
        let! _unused :=
          match previous_vote with
          | Some previous_vote =>
              if landed_slot vote <=? landed_slot previous_vote then Err VoteError.SlotsNotOrdered
              else if landed_confirmation_count previous_vote <=? landed_confirmation_count vote
              then Err VoteError.ConfirmationsNotOrdered
              else if last_locked_out_slot (landed_lockout previous_vote) <? landed_slot vote
              then Err VoteError.NewVoteStateLockoutMismatch
              else Ok tt
          | None => Ok tt
          end in
        check_new_votes new_root (Some vote) rest
  end.

(** The votes of the state that the new root finalizes: their number, and the
    credits earned. *)
Fixpoint root_votes (vote_state : VoteState) (new_root : Slot)
    (timely_vote_credits deprecate_unused_legacy_vote_plumbing : bool)
    (current : list LandedVote) (current_vote_state_index earned_credits : Z)
  : Outcome VoteErr (Z * Z) :=
  match current with
  | [] => Ok (current_vote_state_index, earned_credits)
  | current_vote :: rest =>
      if landed_slot current_vote <=? new_root then
        let! earned_credits :=
          if timely_vote_credits || negb (landed_slot current_vote =? new_root) then
            unwrap (checked_add U64 earned_credits
              (credits_for_vote_at_index vote_state current_vote_state_index timely_vote_credits
                 deprecate_unused_legacy_vote_plumbing))
          else Ok earned_credits in
        root_votes vote_state new_root timely_vote_credits deprecate_unused_legacy_vote_plumbing
          rest (current_vote_state_index + 1) earned_credits
      else Ok (current_vote_state_index, earned_credits)
  end.

(** The [while] loop over both towers, from the votes at the two indices; the
    new votes with the latencies that are copied into them. *)
Fixpoint merge_votes (current : list LandedVote) : list LandedVote -> Outcome VoteErr (list LandedVote) :=
  fix merge_new (new_state : list LandedVote) : Outcome VoteErr (list LandedVote) :=
  match current, new_state with
  | [], _ | _, [] => Ok new_state
  | current_vote :: current', new_vote :: new_state' =>
      match landed_slot current_vote ?= landed_slot new_vote with
      | Lt =>
          (* the new slot must have popped off the old slot *)
          if landed_slot new_vote <=? last_locked_out_slot (landed_lockout current_vote)
          then Err VoteError.LockoutConflict
          else merge_votes current' new_state
      | Eq =>
          if landed_confirmation_count new_vote <? landed_confirmation_count current_vote
          then Err VoteError.ConfirmationRollBack
          else
            let! rest := merge_votes current' new_state' in
            Ok (set_latency (latency current_vote) new_vote :: rest)
      | Gt => let! rest := merge_new new_state' in Ok (new_vote :: rest)
      end
  end.

Section features.
Context {Hfeatures : FeatureIds}.

Definition feature (feature_set : option FeatureSet) (id : Pubkey) : bool :=
  match feature_set with Some f => is_active f id | None => false end.

Definition process_new_vote_state (new_state : list LandedVote) (new_root : option Slot)
    (timestamp : option Z) (epoch : Epoch) (current_slot : Slot) (feature_set : option FeatureSet)
  : M VoteState VoteErr unit :=
  let? vote_state := gets id in
  match new_state with [] => panic | _ => ret tt end ;?
  if MAX_LOCKOUT_HISTORY <? vec_len new_state then fail VoteError.TooManyVotes else
  match new_root, root_slot vote_state with
  | Some new_root, Some current_root =>
      if new_root <? current_root then fail VoteError.RootRollBack else ret tt
  | None, Some _ => fail VoteError.RootRollBack
  | _, _ => ret tt
  end ;?
  lift (check_new_votes new_root None new_state) ;?
  let timely_vote_credits := feature feature_set timely_vote_credits_id in
  let deprecate_unused_legacy_vote_plumbing :=
    feature feature_set deprecate_unused_legacy_vote_plumbing_id in
  let earned_credits := if timely_vote_credits then 0 else 1 in
  let? rooted :=
    match new_root with
    | Some new_root =>
        lift (root_votes vote_state new_root timely_vote_credits
                deprecate_unused_legacy_vote_plumbing (votes vote_state) 0 earned_credits)
    | None => ret (0, earned_credits)
    end in
  let (current_vote_state_index, earned_credits) := rooted : Z * Z in
  let? new_state :=
    lift (merge_votes (drop (Z.to_nat current_vote_state_index) (votes vote_state)) new_state) in
  let new_state :=
    if timely_vote_credits then
      (fun new_vote => if latency new_vote =? 0
         then set_latency (compute_vote_latency (landed_slot new_vote) current_slot) new_vote
         else new_vote) <$> new_state
    else new_state in
  (if bool_decide (root_slot vote_state <> new_root)
   then modify (increment_credits epoch earned_credits) else ret tt) ;?
  match timestamp with
  | Some timestamp =>
      let? last := lift (unwrap (list.last new_state)) in
      process_timestamp (landed_slot last) timestamp
  | None => ret tt
  end ;?
  modify (with_root_slot new_root) ;?
  modify (with_votes new_state).

Definition do_process_vote_state_update (slot_hashes : list SlotHash) (epoch slot : Z)
    (vote_state_update : VoteStateUpdate) (feature_set : option FeatureSet)
  : M VoteState VoteErr unit :=
  let? vote_state := gets id in
  let (checked, u) :=
    check_update_vote_state_slots_are_valid vote_state slot_hashes vote_state_update in
  lift checked ;?
  process_new_vote_state (LandedVote_from <$> vsu_lockouts u) (vsu_root u) (vsu_timestamp u)
    epoch slot feature_set.

End features.

(** ** Single votes *)

Fixpoint process_vote_slots {E} (slots : list Slot) (epoch : Epoch) (current_slot : Slot)
    (timely_vote_credits deprecate_unused_legacy_vote_plumbing : bool) : M VoteState E unit :=
  match slots with
  | [] => ret tt
  | s :: slots =>
      process_next_vote_slot s epoch current_slot timely_vote_credits
        deprecate_unused_legacy_vote_plumbing ;?
      process_vote_slots slots epoch current_slot timely_vote_credits
        deprecate_unused_legacy_vote_plumbing
  end.

Definition process_vote_unfiltered (slots : list Slot) (vote : Vote) (slot_hashes : list SlotHash)
    (epoch : Epoch) (current_slot : Slot)
    (timely_vote_credits deprecate_unused_legacy_vote_plumbing : bool) : M VoteState VoteErr unit :=
  query (fun vote_state => check_slots_are_valid vote_state slots (vote_hash vote) slot_hashes) ;?
  process_vote_slots slots epoch current_slot timely_vote_credits
    deprecate_unused_legacy_vote_plumbing.

Definition process_vote (vote : Vote) (slot_hashes : list SlotHash) (epoch : Epoch)
    (current_slot : Slot) (timely_vote_credits deprecate_unused_legacy_vote_plumbing : bool)
  : M VoteState VoteErr unit :=
  match vote_slots vote with
  | [] => fail VoteError.EmptySlots
  | _ =>
      let earliest_slot_in_history := default 0 (fst <$> list.last slot_hashes) in
      match filter (fun slot => earliest_slot_in_history <= slot) (vote_slots vote) with
      | [] => fail VoteError.VotesTooOldAllFiltered
      | slots =>
          process_vote_unfiltered slots vote slot_hashes epoch current_slot timely_vote_credits
            deprecate_unused_legacy_vote_plumbing
      end
  end.

Definition process_vote_unchecked (vote : Vote) : M VoteState VoteErr unit :=
  match vote_slots vote with
  | [] => fail VoteError.EmptySlots
  | _ =>
      let slot_hashes := (fun x => (x, vote_hash vote)) <$> rev (vote_slots vote) in
      let? epoch := gets current_epoch in
      process_vote_unfiltered (vote_slots vote) vote slot_hashes epoch 0 true true
  end.

Definition process_slot_vote_unchecked (slot : Slot) (self : VoteState) : VoteState :=
  final (process_vote_unchecked (Vote_new [slot] (replicate 32 0))) self.
