(* ===== verification/VoteRules.v ===== *)
(** * Towers of votes: what voting guarantees

    A tower is well formed if its slots increase, its confirmation counts
    decrease from at most 31 to at least 1, and no vote has outlived the lockout
    of the one below it.  Voting keeps the tower of an account well formed, never
    panics, never moves the root back, and never drops a vote that is still locked
    out; what it records belongs to the fork of the slot hashes. *)

From S2P Require Import Prelude Errors Rent Account BTreeMap Sysvars FeatureSet VoteState Votes.
From Stdlib Require Import Sorting.Sorted.

(** ** Lockouts *)

Definition count_ok (l : Lockout) : Prop :=
  in_range U64 (lockout_slot l) /\ 1 <= confirmation_count l <= MAX_LOCKOUT_HISTORY.

Lemma lockout_exact l : count_ok l -> lockout l = 2 ^ confirmation_count l.
Proof.
  intros [_ Hc]. unfold lockout, MAX_LOCKOUT_HISTORY, INITIAL_LOCKOUT in *. apply wrapping_small.
  pose proof (Z.pow_nonneg 2 (confirmation_count l)).
  pose proof (Z.pow_le_mono_r 2 (confirmation_count l) 31). unfold in_range. simpl in *. lia.
Qed.

Lemma last_locked_out_slot_exact l :
  count_ok l ->
  last_locked_out_slot l = Z.min (lockout_slot l + 2 ^ confirmation_count l) (int_max U64).
Proof.
  intros Hl. unfold last_locked_out_slot, saturating_add, saturating. rewrite lockout_exact by done.
  destruct Hl as [[Hs _] _]. pose proof (Z.pow_nonneg 2 (confirmation_count l)). simpl in *. lia.
Qed.

Lemma last_locked_out_slot_mono l l' :
  count_ok l -> count_ok l' -> lockout_slot l = lockout_slot l' ->
  confirmation_count l <= confirmation_count l' ->
  last_locked_out_slot l <= last_locked_out_slot l'.
Proof.
  intros Hl Hl' Hs Hc. rewrite !last_locked_out_slot_exact by done.
  pose proof (Z.pow_le_mono_r 2 _ _ ltac:(lia) Hc). lia.
Qed.

(** ** Well-formed towers *)

(** A vote and the next one on top of it. *)
Definition locks (v w : LandedVote) : Prop :=
  landed_slot v < landed_slot w /\
  landed_confirmation_count w < landed_confirmation_count v /\
  landed_slot w <= last_locked_out_slot (landed_lockout v).

Definition linked (vs : list LandedVote) : Prop :=
  forall i v w, vs !! i = Some v -> vs !! S i = Some w -> locks v w.

Definition landed_ok (v : LandedVote) : Prop := count_ok (landed_lockout v) /\ in_range U8 (latency v).

Record tower_ok (vs : list LandedVote) : Prop := {
  tower_length : vec_len vs <= MAX_LOCKOUT_HISTORY;
  tower_landed : Forall landed_ok vs;
  tower_linked : linked vs;
}.

Definition above_root (root : option Slot) (v : LandedVote) : Prop :=
  match root with Some root => root < landed_slot v \/ root = 0 | None => True end.

(** What every vote account satisfies. *)
Record vote_state_ok (s : VoteState) : Prop := {
  state_tower : tower_ok (votes s);
  state_root : Forall (above_root (root_slot s)) (votes s);
  state_rooted : votes s = [] -> root_slot s = None;
}.

Lemma linked_prefix vs ws : linked (vs ++ ws) -> linked vs.
Proof.
  intros H i v w Hv Hw. apply (H i); by apply lookup_app_l_Some.
Qed.

Lemma linked_tail v vs : linked (v :: vs) -> linked vs.
Proof. intros H i x y Hx Hy. by apply (H (S i)). Qed.

Lemma linked_snoc vs w :
  linked vs -> (forall v, list.last vs = Some v -> locks v w) -> linked (vs ++ [w]).
Proof.
  intros H Hlast i x y Hx Hy. destruct (decide (S i < length vs)%nat) as [Hi|Hi].
  - rewrite lookup_app_l in Hx, Hy by lia. by apply (H i).
  - apply lookup_lt_Some in Hy as Hlt. rewrite length_app in Hlt. simpl in Hlt.
    assert (S i = length vs) as Hn by lia. rewrite Hn, list_lookup_middle in Hy by done.
    simplify_eq. apply Hlast. rewrite last_lookup, <-Hn. simpl.
    by rewrite lookup_app_l in Hx by lia.
Qed.

(** Slots and counts of votes that are apart. *)
Lemma linked_lt vs (i j : nat) v w :
  linked vs -> vs !! i = Some v -> vs !! j = Some w -> (i < j)%nat ->
  landed_slot v < landed_slot w /\
  landed_confirmation_count w + Z.of_nat (j - i) <= landed_confirmation_count v.
Proof.
  intros H Hv. revert w. induction j as [|j IH]; intros w Hw Hij; [lia|].
  destruct (decide (i = j)) as [->|Hne].
  - destruct (H j v w) as (? & ? & _); [done..|]. split; [done|]. lia.
  - destruct (lookup_lt_is_Some_2 vs j) as [x Hx]; [apply lookup_lt_Some in Hw; lia|].
    destruct (H j x w) as (? & ? & _); [done..|]. destruct (IH x) as [??]; [done|lia|].
    split; [lia|]. replace (Z.of_nat (S j - i)) with (Z.of_nat (j - i) + 1) by lia. lia.
Qed.

Lemma linked_last vs v w :
  linked vs -> v ∈ vs -> list.last vs = Some w -> landed_slot v <= landed_slot w.
Proof.
  intros H [i Hi]%list_elem_of_lookup Hw. rewrite last_lookup in Hw.
  destruct (decide (i = pred (length vs))) as [->|Hne]; [by simplify_eq|].
  assert (i < pred (length vs))%nat by (apply lookup_lt_Some in Hi; lia).
  destruct (linked_lt vs i (pred (length vs)) v w); [done..|]. lia.
Qed.

(** A vote has at least as many confirmations as there are votes from it on. *)
Lemma linked_count vs (i : nat) v :
  Forall landed_ok vs -> linked vs -> vs !! i = Some v ->
  vec_len vs <= Z.of_nat i + landed_confirmation_count v.
Proof.
  intros Hok H Hv. pose proof (lookup_lt_Some _ _ _ Hv) as Hi. unfold vec_len.
  destruct (lookup_lt_is_Some_2 vs (pred (length vs))) as [w Hw]; [lia|].
  assert (1 <= landed_confirmation_count w) as Hpos.
  { rewrite list.Forall_lookup in Hok. destruct (Hok _ _ Hw) as [[_ ?] _].
    unfold landed_confirmation_count. lia. }
  destruct (decide (i = pred (length vs))) as [->|Hne]; [simplify_eq; lia|].
  destruct (linked_lt vs i (pred (length vs)) v w); [done..|lia|]. lia.
Qed.

(** ** Voting for one slot *)

Lemma pop_expired_loop_suffix next newest :
  exists popped, newest = popped ++ pop_expired_loop next newest /\
  Forall (fun v => last_locked_out_slot (landed_lockout v) < next) popped.
Proof.
  induction newest as [|v vs (popped & IH & Hf)]; simpl; [by exists []|].
  unfold is_locked_out_at_slot. destruct (Z.leb_spec next (last_locked_out_slot (landed_lockout v))); simpl.
  - by exists [].
  - exists (v :: popped). split; [simpl; congruence|]. by constructor.
Qed.

(** The votes that are left are the oldest ones, and the newest of them is
    locked out at the slot. *)
Lemma pop_expired_votes_spec next s :
  exists popped, votes s = votes (pop_expired_votes next s) ++ popped /\
  Forall (fun v => last_locked_out_slot (landed_lockout v) < next) popped /\
  forall v, list.last (votes (pop_expired_votes next s)) = Some v ->
    next <= last_locked_out_slot (landed_lockout v).
Proof.
  destruct (pop_expired_loop_suffix next (rev (votes s))) as (popped & Heq & Hf).
  exists (rev popped). simpl. split; [|split].
  - rewrite <-rev_app_distr, <-Heq. by rewrite rev_involutive.
  - apply list.Forall_forall. intros v Hv. rewrite list.Forall_forall in Hf. apply Hf.
    by apply list_elem_of_In, in_rev, list_elem_of_In.
  - intros v. clear. generalize (rev (votes s)) as newest. intros newest.
    induction newest as [|w vs IH]; simpl; [done|]. unfold is_locked_out_at_slot at 1.
    destruct (Z.leb_spec next (last_locked_out_slot (landed_lockout w))); simpl; [|done].
    rewrite last_snoc. naive_solver.
Qed.

(** [double_lockouts] raises the confirmations of a vote to the number of votes
    from it on. *)
Definition raise (depth i : Z) (v : LandedVote) : LandedVote :=
  mkLandedVote (latency v)
    (mkLockout (landed_slot v) (Z.max (landed_confirmation_count v) (depth - i))).

Lemma double_lockouts_loop_spec {E} depth i vs :
  0 <= i -> depth <= MAX_LOCKOUT_HISTORY -> i + vec_len vs <= MAX_LOCKOUT_HISTORY ->
  Forall landed_ok vs ->
  (forall k v, vs !! k = Some v -> depth - 1 <= i + Z.of_nat k + landed_confirmation_count v) ->
  double_lockouts_loop (E:=E) depth i vs = Ok (imap (fun k => raise depth (i + Z.of_nat k)) vs).
Proof.
  unfold vec_len, MAX_LOCKOUT_HISTORY. revert i.
  induction vs as [|v vs IH]; intros i Hi Hd Hn Hok Hc; simpl in *; [done|].
  apply list.Forall_cons in Hok as [[Hv Hl] Hok]. destruct Hv as [Hs Hcv].
  unfold landed_confirmation_count, MAX_LOCKOUT_HISTORY in *.
  unfold checked_add, checked. destruct (decide _) as [_|Hn']; [|unfold in_range in Hn'; simpl in Hn'; lia].
  simpl. rewrite IH; [|lia..|done|intros k w Hw; specialize (Hc (S k) w Hw); simpl in *; lia].
  simpl. specialize (Hc O v eq_refl). f_equal. f_equal.
  - unfold raise, landed_slot, landed_confirmation_count. rewrite Z.add_0_r.
    destruct v as [l [s c]]; simpl in *. unfold increase_confirmation_count; simpl.
    destruct (Z.ltb_spec (i + c) depth).
    + unfold saturating_add. rewrite saturating_small by (unfold in_range; simpl; lia).
      do 2 f_equal. lia.
    + do 2 f_equal. lia.
  - apply imap_ext. intros k w _. simpl. f_equal. lia.
Qed.

Lemma raise_ok depth i v :
  0 <= i -> depth <= MAX_LOCKOUT_HISTORY -> landed_ok v -> landed_ok (raise depth i v).
Proof.
  intros Hi Hd [[Hs Hc] Hl]. unfold raise, landed_ok, count_ok, landed_slot, landed_confirmation_count.
  simpl. repeat split; simpl; try done; unfold landed_slot, in_range in *; simpl in *; lia.
Qed.

Lemma raise_locks depth i v w :
  0 <= i -> depth <= MAX_LOCKOUT_HISTORY -> landed_ok v ->
  landed_slot v < landed_slot w -> landed_slot w <= last_locked_out_slot (landed_lockout v) ->
  landed_confirmation_count w < Z.max (landed_confirmation_count v) (depth - i) ->
  locks (raise depth i v) (raise depth (i + 1) w).
Proof.
  intros Hi Hd Hv Hs Hl Hc. unfold locks. change (landed_slot (raise depth i v)) with (landed_slot v).
  change (landed_slot (raise depth (i + 1) w)) with (landed_slot w).
  unfold raise at 1 2, landed_confirmation_count at 1 3. simpl. repeat split; [done|lia|].
  etrans; [done|]. apply last_locked_out_slot_mono; [apply Hv|by apply (raise_ok depth i v)|done|].
  simpl. unfold landed_confirmation_count. lia.
Qed.

(** A new vote on a well-formed tower, before its lockouts are doubled. *)
Lemma push_double vs new :
  tower_ok vs -> vec_len vs < MAX_LOCKOUT_HISTORY -> landed_ok new ->
  landed_confirmation_count new = 1 ->
  (forall v, list.last vs = Some v ->
     landed_slot v < landed_slot new <= last_locked_out_slot (landed_lockout v)) ->
  let depth := vec_len (vs ++ [new]) in
  tower_ok (imap (fun k => raise depth (Z.of_nat k)) (vs ++ [new])).
Proof.
  intros [Hlen Hok Hl] Hlt Hnew Hone Hlast depth.
  assert (depth <= MAX_LOCKOUT_HISTORY) as Hd.
  { unfold depth, vec_len in *. rewrite length_app. simpl. lia. }
  split.
  - unfold vec_len in *. rewrite length_imap. done.
  - rewrite list.Forall_lookup. intros i v Hv. rewrite list_lookup_imap in Hv.
    apply fmap_Some in Hv as (w & Hw & ->). apply raise_ok; [lia|done|].
    apply list_elem_of_lookup_2 in Hw. rewrite list.Forall_forall in Hok.
    apply elem_of_app in Hw as [?|?%list_elem_of_singleton]; [by apply Hok|by subst].
  - intros i v w Hv Hw. rewrite list_lookup_imap in Hv, Hw.
    apply fmap_Some in Hv as (v0 & Hv & ->). apply fmap_Some in Hw as (w0 & Hw & ->).
    rewrite Nat2Z.inj_succ. rewrite <-Z.add_1_r.
    assert (i < length vs)%nat as Hi.
    { apply lookup_lt_Some in Hw. rewrite length_app in Hw. simpl in Hw. lia. }
    rewrite lookup_app_l in Hv by done.
    assert (landed_ok v0) as Hv0 by (rewrite list.Forall_lookup in Hok; eauto).
    destruct (decide (S i < length vs)%nat) as [Hi'|Hi'].
    + rewrite lookup_app_l in Hw by done. destruct (Hl i v0 w0) as (? & ? & ?); [done..|].
      apply raise_locks; try done; lia.
    + assert (S i = length vs) as Hn by lia. rewrite Hn, list_lookup_middle in Hw by done. simplify_eq.
      destruct (Hlast v0) as [??]; [by rewrite last_lookup, <-Hn|].
      apply raise_locks; try done; [lia|]. rewrite Hone. unfold depth, vec_len.
      rewrite length_app. simpl. lia.
Qed.

Lemma tower_prefix vs ws : tower_ok (vs ++ ws) -> tower_ok vs.
Proof.
  intros [Hlen Hok Hl]. split.
  - unfold vec_len in *. rewrite length_app in Hlen. lia.
  - by apply list.Forall_app in Hok as [? _].
  - by apply linked_prefix in Hl.
Qed.

Lemma tower_tail v vs : tower_ok (v :: vs) -> tower_ok vs.
Proof.
  intros [Hlen Hok Hl]. split.
  - unfold vec_len in *. simpl in Hlen. lia.
  - by apply list.Forall_cons in Hok as [_ ?].
  - by apply linked_tail in Hl.
Qed.

Definition root_le (r r' : option Slot) : Prop :=
  match r, r' with
  | None, _ => True
  | Some r, Some r' => r <= r'
  | Some _, None => False
  end.

#[global] Instance root_le_preorder : PreOrder root_le.
Proof.
  split; [intros [?|]; simpl; lia|].
  intros [a|] [b|] [c|]; simpl; try done; lia.
Qed.

Lemma compute_vote_latency_range a b : in_range U8 (compute_vote_latency a b).
Proof. by apply wrapping_range. Qed.

(** The state into which the new vote is pushed: the expired votes are gone, and
    the oldest vote has become the root if the tower was full. *)
Definition make_room (epoch : Epoch) (timely deprecate : bool) (s : VoteState) : VoteState :=
  if vec_len (votes s) =? MAX_LOCKOUT_HISTORY then
    match votes s with
    | [] => s
    | oldest :: rest =>
        increment_credits epoch (credits_for_vote_at_index s 0 timely deprecate)
          (with_root_slot (Some (landed_slot oldest)) (with_votes rest s))
    end
  else s.

Lemma increment_credits_frame epoch c s :
  votes (increment_credits epoch c s) = votes s /\
  root_slot (increment_credits epoch c s) = root_slot s /\
  authorized_voters (increment_credits epoch c s) = authorized_voters s /\
  last_timestamp (increment_credits epoch c s) = last_timestamp s.
Proof. unfold increment_credits. by destruct (list.last _) as [[[? ?] ?]|]. Qed.

Lemma make_room_ok epoch timely deprecate s :
  tower_ok (votes s) -> Forall (above_root (root_slot s)) (votes s) ->
  let s' := make_room epoch timely deprecate s in
  tower_ok (votes s') /\ Forall (above_root (root_slot s')) (votes s') /\ vec_len (votes s') < MAX_LOCKOUT_HISTORY /\
  root_le (root_slot s) (root_slot s') /\
  votes s' `suffix_of` votes s /\
  (forall v, list.last (votes s') = Some v -> list.last (votes s) = Some v) /\
  (root_slot s' = root_slot s \/
   exists oldest, votes s = oldest :: votes s' /\ root_slot s' = Some (landed_slot oldest)).
Proof.
  intros Ht Hr s'. unfold s', make_room.
  destruct (Z.eqb_spec (vec_len (votes s)) MAX_LOCKOUT_HISTORY) as [Hfull|Hfull].
  2: { destruct Ht as [Hlen Hok Hl]. split_and!; [done..|lia|done|by exists []|naive_solver|by left]. }
  destruct (votes s) as [|oldest rest] eqn:Hvs; [done|].
  set (s1 := with_root_slot (Some (landed_slot oldest)) (with_votes rest s)).
  destruct (increment_credits_frame epoch (credits_for_vote_at_index s 0 timely deprecate) s1)
    as (Ev & Er & _). rewrite Er. cbn [root_slot with_root_slot s1].
  assert (forall v, v ∈ rest -> landed_slot oldest < landed_slot v) as Hold.
  { intros v [i Hi]%list_elem_of_lookup. destruct Ht as [_ _ Hl].
    by destruct (linked_lt _ 0 (S i) oldest v Hl eq_refl Hi); [lia|]. }
  split_and!.
  - rewrite Ev. by apply tower_tail in Ht.
  - rewrite Ev. simpl. apply list.Forall_forall. intros v Hv. left. by apply Hold.
  - rewrite Ev. unfold vec_len in *. simpl in *. lia.
  - destruct (root_slot s) as [r|]; simpl; [|done].
    apply list.Forall_cons in Hr as [Hr _]. destruct Ht as [_ Hok _].
    apply list.Forall_cons in Hok as [[[Hs _] _] _]. unfold above_root, landed_slot, in_range in *.
    simpl in *. lia.
  - rewrite Ev. by exists [oldest].
  - rewrite Ev. intros v Hv. simpl in *. by rewrite last_cons, Hv.
  - right. rewrite Ev. by exists oldest.
Qed.

Definition already_voted (s : VoteState) (slot : Slot) : Prop :=
  match last_voted_slot s with Some last => slot <= last | None => False end.

#[global] Instance already_voted_dec s slot : Decision (already_voted s slot).
Proof. unfold already_voted. destruct (last_voted_slot s); apply _. Defined.

Definition new_vote (timely deprecate : bool) (next current_slot : Slot) : LandedVote :=
  mkLandedVote (if timely || negb deprecate then compute_vote_latency next current_slot else 0)
    (Lockout_new next).

Lemma already_voted_spec s next :
  match last_voted_slot s with Some last => next <=? last | None => false end =
  bool_decide (already_voted s next).
Proof.
  case_bool_decide as H; unfold already_voted in H; destruct (last_voted_slot s); try done;
    [apply Z.leb_le|apply Z.leb_gt]; lia.
Qed.

Lemma process_next_vote_slot_eq {E} next epoch current_slot timely deprecate s :
  process_next_vote_slot (E:=E) next epoch current_slot timely deprecate s =
  if bool_decide (already_voted s next) then (Ok tt, s) else
  let s1 := make_room epoch timely deprecate (pop_expired_votes next s) in
  let s2 := with_votes (votes s1 ++ [new_vote timely deprecate next current_slot]) s1 in
  double_lockouts s2.
Proof.
  unfold process_next_vote_slot, bind, modify, gets, id, ret. rewrite already_voted_spec.
  case_bool_decide; [done|]. unfold make_room. set (s0 := pop_expired_votes next s).
  destruct (vec_len (votes s0) =? MAX_LOCKOUT_HISTORY) eqn:Hf; [|done].
  destruct (votes s0) eqn:Hv; [by apply Z.eqb_eq in Hf|done].
Qed.

Lemma not_voted_above s next v :
  vote_state_ok s -> ~ already_voted s next -> v ∈ votes s -> landed_slot v < next.
Proof.
  intros [[_ _ Hl] _ _] Ha Hv. unfold already_voted, last_voted_slot, last_lockout in Ha.
  destruct (list.last (votes s)) as [w|] eqn:Hw; simpl in Ha.
  - pose proof (linked_last _ v w Hl Hv Hw). unfold landed_slot in *. lia.
  - apply last_None in Hw. rewrite Hw in Hv. by apply elem_of_nil in Hv.
Qed.

Lemma push_double_state {E} s new :
  tower_ok (votes s) -> Forall (above_root (root_slot s)) (votes s) ->
  vec_len (votes s) < MAX_LOCKOUT_HISTORY -> landed_ok new -> landed_confirmation_count new = 1 ->
  above_root (root_slot s) new ->
  (forall v, list.last (votes s) = Some v ->
     landed_slot v < landed_slot new <= last_locked_out_slot (landed_lockout v)) ->
  exists s', double_lockouts (E:=E) (with_votes (votes s ++ [new]) s) = (Ok tt, s') /\
  vote_state_ok s' /\ root_slot s' = root_slot s /\ last_voted_slot s' = Some (landed_slot new).
Proof.
  intros Ht Hr Hlen Hnew Hone Habove Htop.
  pose proof (push_double (votes s) new Ht Hlen Hnew Hone Htop) as Ht'. cbv zeta in Ht'.
  set (vs := votes s ++ [new]) in *. set (vs' := imap _ vs) in Ht'.
  exists (with_votes vs' s). unfold double_lockouts, bind, gets, id, lift, modify. simpl.
  fold vs. rewrite double_lockouts_loop_spec; [|lia|..].
  - split_and!; [done|split; simpl|done|].
    + done.
    + apply list.Forall_forall. intros v [i Hv]%list_elem_of_lookup. unfold vs' in Hv.
      rewrite list_lookup_imap in Hv. apply fmap_Some in Hv as (w & Hw & ->).
      change (above_root (root_slot s) w). apply list_elem_of_lookup_2 in Hw.
      rewrite list.Forall_forall in Hr.
      apply elem_of_app in Hw as [?|?%list_elem_of_singleton]; [by apply Hr|by subst].
    + intros Hnil. apply (f_equal length) in Hnil. unfold vs', vs in Hnil.
      rewrite length_imap, length_app in Hnil. simpl in Hnil. lia.
    + unfold last_voted_slot, last_lockout. simpl. unfold vs', vs. rewrite last_lookup.
      rewrite length_imap, length_app, Nat.add_1_r. simpl. rewrite list_lookup_imap.
      by rewrite list_lookup_middle.
  - unfold vec_len, vs in *. rewrite length_app. simpl. lia.
  - unfold vec_len, vs in *. rewrite length_app. simpl. lia.
  - apply list.Forall_app. split; [by apply Ht|by constructor].
  - intros k v Hv. destruct (decide (k < length (votes s))%nat) as [Hk|Hk].
    + unfold vs in Hv. rewrite lookup_app_l in Hv by done.
      pose proof (linked_count (votes s) k v (tower_landed _ Ht) (tower_linked _ Ht) Hv).
      unfold vec_len, vs in *. rewrite length_app. simpl. lia.
    + apply lookup_lt_Some in Hv as Hlt. unfold vs in *. rewrite length_app in Hlt. simpl in Hlt.
      rewrite list_lookup_middle in Hv by lia. simplify_eq. unfold vec_len in *.
      rewrite length_app. simpl. lia.
Qed.

Lemma process_next_vote_slot_spec {E} next epoch current_slot timely deprecate s :
  vote_state_ok s -> in_range U64 next ->
  exists s', process_next_vote_slot (E:=E) next epoch current_slot timely deprecate s = (Ok tt, s') /\
  vote_state_ok s' /\ root_le (root_slot s) (root_slot s') /\
  (already_voted s next -> s' = s) /\ (~ already_voted s next -> last_voted_slot s' = Some next).
Proof.
  intros Hs Hn. rewrite process_next_vote_slot_eq. case_bool_decide as Ha.
  { exists s. split_and!; done. }
  destruct (pop_expired_votes_spec next s) as (popped & Heq & _ & Hlocked).
  set (s0 := pop_expired_votes next s) in *. pose proof Hs as [Ht Hr Hrooted].
  assert (tower_ok (votes s0)) as Ht0 by (rewrite Heq in Ht; by apply tower_prefix in Ht).
  assert (Forall (above_root (root_slot s0)) (votes s0)) as Hr0.
  { rewrite Heq in Hr. by apply list.Forall_app in Hr as [? _]. }
  assert (forall v, v ∈ votes s0 -> landed_slot v < next) as Hbelow.
  { intros v Hv. apply (not_voted_above s); [done..|]. rewrite Heq. apply elem_of_app. by left. }
  destruct (make_room_ok epoch timely deprecate s0 Ht0 Hr0)
    as (Ht1 & Hr1 & Hlen & Hroot & _ & Hlast & Hwhich).
  set (s1 := make_room epoch timely deprecate s0) in *.
  destruct (push_double_state (E:=E) s1 (new_vote timely deprecate next current_slot))
    as (s' & Hrun & Hok & Hroot' & Hvoted); try done.
  - split; [split; [done|split; done]|]. simpl.
    destruct (_ || _); [apply compute_vote_latency_range|done].
  - change (above_root (root_slot s1) (new_vote timely deprecate next current_slot)) with
      (match root_slot s1 with Some r => r < next \/ r = 0 | None => True end).
    destruct Hwhich as [->|(oldest & Hold & ->)].
    + change (root_slot s0) with (root_slot s). destruct (root_slot s) as [r|] eqn:Er; [|done].
      destruct (votes s) as [|v vs] eqn:Ev; [by specialize (Hrooted eq_refl)|].
      apply list.Forall_cons in Hr as [[?|?] _]; [left|by right].
      etrans; [done|]. apply (not_voted_above s); [done..|]. rewrite Ev. apply elem_of_cons. by left.
    + left. apply Hbelow. rewrite Hold. apply elem_of_cons. by left.
  - intros v Hv%Hlast. split; [|by apply Hlocked]. apply Hbelow. by apply last_Some_elem_of.
  - exists s'. rewrite Hroot'. split_and!; done.
Qed.

(** ** Single votes and the slot hashes *)

Definition is_new (s : VoteState) (slot : Slot) : Prop := ~ already_voted s slot.
#[global] Instance is_new_dec s slot : Decision (is_new s slot) := _.

(** The slots of the fork, from the oldest. *)
Abbreviation fork hashes := (rev (hashes : list SlotHash).*1).

Lemma take_S_filter (P : Slot -> Prop) `{!forall x, Decision (P x)} slots (i : nat) x :
  slots !! i = Some x ->
  filter P (take (S i) slots) = filter P (take i slots) ++ (if decide (P x) then [x] else []).
Proof. intros Hx. rewrite (take_S_r _ _ x Hx), list.filter_app, list.filter_cons. by case_decide. Qed.

Lemma filter_everything (P : Slot -> Prop) `{!forall x, Decision (P x)} slots :
  Forall P slots -> filter P slots = slots.
Proof. induction 1; [done|]. rewrite list.filter_cons, decide_True by done. congruence. Qed.

Lemma rev_drop_pred {A} (l : list A) (j : nat) x :
  l !! j = Some x -> rev (drop j l) = rev (drop (S j) l) ++ [x].
Proof. intros Hx. by rewrite (drop_S _ _ _ Hx). Qed.

Section check_slots.
Context (s : VoteState) (slots : list Slot) (hashes : list SlotHash).

(** The new slots before the [i]-th are on the fork, before its [j]-th entry,
    which is the one of the newest of them unless a slot is being looked for. *)
Record walked (i j : nat) : Prop := {
  walked_i : (i <= length slots)%nat;
  walked_j : (j <= length hashes)%nat;
  walked_fork : filter (is_new s) (take i slots) `sublist_of` rev (drop j hashes.*1);
  walked_last :
    (filter (is_new s) (take i slots) = [] /\ j = length hashes) \/
    (exists l, list.last (filter (is_new s) (take i slots)) = Some l /\ hashes.*1 !! j = Some l) \/
    (exists x, slots !! i = Some x /\ is_new s x);
}.

Lemma walked_start : walked 0 (length hashes).
Proof. split; [lia|done| |by left]. rewrite drop_ge; [done|]. by rewrite length_fmap. Qed.

Lemma walked_skip i j x : walked i j -> slots !! i = Some x -> ~ is_new s x -> walked (S i) j.
Proof.
  intros [Hi Hj Hf Hl] Hx Hn. pose proof (lookup_lt_Some _ _ _ Hx).
  split; [lia|done|..]; rewrite (take_S_filter _ _ _ x Hx); rewrite decide_False, app_nil_r by done.
  - done.
  - destruct Hl as [?|[?|(y & Hy & ?)]]; [by left|by right; left|]. by simplify_eq.
Qed.

Lemma walked_scan i j x y :
  walked i (S j) -> slots !! i = Some x -> is_new s x -> hashes.*1 !! j = Some y -> walked i j.
Proof.
  intros [Hi Hj Hf Hl] Hx Hn Hy. split; [done|lia|..].
  - rewrite (rev_drop_pred _ _ y Hy). by apply sublist_inserts_r.
  - right. right. by exists x.
Qed.

Lemma walked_match i j x :
  walked i (S j) -> slots !! i = Some x -> is_new s x -> hashes.*1 !! j = Some x -> walked (S i) j.
Proof.
  intros [Hi Hj Hf Hl] Hx Hn Hy. pose proof (lookup_lt_Some _ _ _ Hx).
  split; [lia|lia|..]; rewrite (take_S_filter _ _ _ x Hx); rewrite decide_True by done.
  - rewrite (rev_drop_pred _ _ x Hy). by apply sublist_app.
  - right. left. exists x. by rewrite last_snoc.
Qed.

Lemma check_slots_loop_spec fuel (i j : nat) :
  walked i j -> (length slots - i + j < fuel)%nat ->
  exists i' j' : nat, check_slots_loop fuel s slots hashes (Z.of_nat i) (Z.of_nat j) =
    Ok (Z.of_nat i', Z.of_nat j') /\ walked i' j' /\ (i' = length slots \/ j' = O).
Proof.
  revert i j. induction fuel as [|fuel IH]; intros i j Hw Hfuel; [lia|]. simpl.
  destruct (Z.ltb_spec (Z.of_nat i) (vec_len slots)) as [Hi|Hi]; simpl; cycle 1.
  { exists i, j. split_and!; [done..|]. left. unfold vec_len in Hi. destruct Hw. lia. }
  destruct (Z.ltb_spec 0 (Z.of_nat j)) as [Hj|Hj]; simpl; cycle 1.
  { exists i, j. split_and!; [done..|]. right. lia. }
  destruct j as [|j]; [lia|]. unfold vec_len in Hi.
  destruct (lookup_lt_is_Some_2 slots i) as [x Hx]; [lia|].
  rewrite (proj2 (vec_get_Some slots (Z.of_nat i) x)) by (split; [lia|by rewrite Nat2Z.id]).
  simpl. rewrite already_voted_spec. replace (Z.of_nat i + 1) with (Z.of_nat (S i)) by lia.
  case_bool_decide as Ha.
  { apply IH; [apply (walked_skip i (S j) x); [done..|]; unfold is_new; tauto|lia]. }
  destruct (lookup_lt_is_Some_2 hashes j) as [[y h] Hy]; [destruct Hw; lia|].
  rewrite (proj2 (vec_get_Some hashes (Z.of_nat (S j) - 1) (y, h)))
    by (split; [lia|by replace (Z.to_nat (Z.of_nat (S j) - 1)) with j by lia]).
  simpl. replace (Z.of_nat (S j) - 1) with (Z.of_nat j) by lia.
  assert (hashes.*1 !! j = Some y) as Hy' by by rewrite list_lookup_fmap, Hy.
  destruct (Z.eqb_spec x y) as [->|Hne]; simpl.
  - apply IH; [by apply (walked_match i j y)|lia].
  - apply IH; [by apply (walked_scan i j x y)|lia].
Qed.

(** Votes are accepted only for slots of the fork, with the hash of the newest. *)
Lemma check_slots_are_valid_spec hash :
  let new := filter (is_new s) slots in
  check_slots_are_valid s slots hash hashes <> Panic /\
  (check_slots_are_valid s slots hash hashes = Ok tt ->
   new `sublist_of` fork hashes /\ exists l, list.last new = Some l /\ (l, hash) ∈ hashes).
Proof.
  intros new. unfold check_slots_are_valid.
  destruct (check_slots_loop_spec (S (length slots + length hashes)) 0 (length hashes))
    as (i & j & Hrun & Hw & _); [apply walked_start|lia|].
  change (Z.of_nat (length hashes)) with (vec_len hashes) in Hrun. change (Z.of_nat 0) with 0 in Hrun.
  rewrite Hrun. simpl. destruct (Z.eqb_spec (Z.of_nat j) (vec_len hashes)) as [Hj|Hj]; [by split|].
  destruct (Z.eqb_spec (Z.of_nat i) (vec_len slots)) as [Hi|Hi]; simpl; [|by split].
  destruct Hw as [_ Hjl Hf Hl]. unfold vec_len in *. assert (i = length slots) as -> by lia.
  rewrite firstn_all in Hf, Hl. fold new in Hf, Hl.
  destruct (lookup_lt_is_Some_2 hashes j) as [[y h] Hy]; [lia|].
  rewrite (proj2 (vec_get_Some hashes (Z.of_nat j) (y, h))) by (split; [lia|by rewrite Nat2Z.id]).
  simpl. case_bool_decide as Hh; [by split|]. split; [done|]. intros _.
  assert (h = hash) as -> by (destruct (decide (h = hash)); tauto). split.
  - etrans; [done|]. rewrite <-(take_drop j hashes.*1) at 2. rewrite rev_app_distr.
    by apply sublist_inserts_r.
  - destruct Hl as [[_ ?]|[(l & Hl & Hlj)|(x & Hx & _)]]; [lia| |].
    + exists l. split; [done|]. rewrite list_lookup_fmap, Hy in Hlj. simplify_eq/=.
      by apply list_elem_of_lookup_2 in Hy.
    + apply lookup_lt_Some in Hx. lia.
Qed.

(** Votes for new slots of the fork are found on it. *)
Lemma check_slots_loop_complete fuel (i j : nat) :
  Forall (is_new s) slots -> walked i j -> (length slots - i + j < fuel)%nat ->
  drop i slots `sublist_of` rev (take j hashes.*1) ->
  exists j' : nat, check_slots_loop fuel s slots hashes (Z.of_nat i) (Z.of_nat j) =
    Ok (vec_len slots, Z.of_nat j') /\ walked (length slots) j'.
Proof.
  intros Hnew. revert i j. induction fuel as [|fuel IH]; intros i j Hw Hfuel Hsub; [lia|]. simpl.
  destruct (Z.ltb_spec (Z.of_nat i) (vec_len slots)) as [Hi|Hi]; simpl; unfold vec_len in *; cycle 1.
  { assert (i = length slots) as -> by (destruct Hw; lia). by exists j. }
  destruct (lookup_lt_is_Some_2 slots i) as [x Hx]; [lia|]. rewrite (drop_S _ _ _ Hx) in Hsub.
  destruct j as [|j]; [by apply sublist_nil_r in Hsub|].
  destruct (lookup_lt_is_Some_2 hashes j) as [[y h] Hy]; [destruct Hw; lia|].
  assert (hashes.*1 !! j = Some y) as Hy' by by rewrite list_lookup_fmap, Hy.
  rewrite (take_S_r _ _ _ Hy'), rev_app_distr in Hsub. simpl in Hsub.
  assert (is_new s x) as Hx' by (rewrite list.Forall_lookup in Hnew; eauto).
  rewrite (proj2 (Z.ltb_lt _ _)) by lia.
  rewrite (proj2 (vec_get_Some slots (Z.of_nat i) x)) by (split; [lia|by rewrite Nat2Z.id]).
  simpl. rewrite already_voted_spec, bool_decide_eq_false_2 by done.
  rewrite (proj2 (vec_get_Some hashes (Z.of_nat (S j) - 1) (y, h)))
    by (split; [lia|by replace (Z.to_nat (Z.of_nat (S j) - 1)) with j by lia]).
  simpl. replace (Z.of_nat (S j) - 1) with (Z.of_nat j) by lia.
  replace (Z.of_nat i + 1) with (Z.of_nat (S i)) by lia.
  destruct (Z.eqb_spec x y) as [->|Hne]; simpl.
  - apply IH; [by apply (walked_match i j y)|lia|].
    inversion Hsub as [|? ? ? ? Heq|? ? ? Hc]; subst; [done|].
    etrans; [|exact Hc]. by apply sublist_cons.
  - apply IH; [by apply (walked_scan i j x y)|lia|]. rewrite (drop_S _ _ _ Hx). by inversion Hsub.
Qed.

Lemma check_slots_are_valid_complete hash l :
  Forall (is_new s) slots -> slots `sublist_of` fork hashes -> NoDup hashes.*1 ->
  list.last slots = Some l -> (l, hash) ∈ hashes ->
  check_slots_are_valid s slots hash hashes = Ok tt.
Proof.
  intros Hnew Hsub Hnd Hlast Hl. unfold check_slots_are_valid.
  destruct (check_slots_loop_complete (S (length slots + length hashes)) 0 (length hashes))
    as (j & Hrun & [_ Hjl _ Hw]); [done|apply walked_start|lia| |].
  { rewrite take_ge by by rewrite length_fmap. done. }
  change (Z.of_nat (length hashes)) with (vec_len hashes) in Hrun. change (Z.of_nat 0) with 0 in Hrun.
  rewrite Hrun. simpl. rewrite Z.eqb_refl. simpl. rewrite firstn_all, filter_everything in Hw by done.
  destruct Hw as [[-> _]|[(l' & Hl' & Hj)|(x & Hx & _)]]; [done| |by apply lookup_lt_Some in Hx; lia].
  simplify_eq. pose proof (lookup_lt_Some _ _ _ Hj) as Hlt. rewrite length_fmap in Hlt. unfold vec_len.
  destruct (Z.eqb_spec (Z.of_nat j) (Z.of_nat (length hashes))); [lia|].
  apply list_elem_of_lookup in Hl as [k Hk].
  assert (hashes.*1 !! k = Some l) as Hk' by by rewrite list_lookup_fmap, Hk.
  assert (k = j) as -> by by eapply NoDup_lookup.
  rewrite (proj2 (vec_get_Some hashes (Z.of_nat j) (l, hash))) by (split; [lia|by rewrite Nat2Z.id]).
  simpl. by rewrite bool_decide_eq_false_2 by (by intros H; apply H).
Qed.

End check_slots.

Lemma process_vote_slots_spec {E} slots epoch current_slot timely deprecate s :
  vote_state_ok s -> Forall (in_range U64) slots ->
  exists s', process_vote_slots (E:=E) slots epoch current_slot timely deprecate s = (Ok tt, s') /\
  vote_state_ok s' /\ root_le (root_slot s) (root_slot s') /\
  (forall x, already_voted s x \/ x ∈ slots -> already_voted s' x) /\
  (last_voted_slot s' = last_voted_slot s \/ exists x, x ∈ slots /\ last_voted_slot s' = Some x).
Proof.
  intros Hs Hr. revert s Hs. induction Hr as [|x slots Hx _ IH]; intros s Hs; simpl.
  { exists s. split_and!; [done..|set_solver|by left]. }
  destruct (process_next_vote_slot_spec (E:=E) x epoch current_slot timely deprecate s Hs Hx)
    as (s1 & Hrun & Hs1 & Hroot & Hold & Hnew).
  destruct (IH s1 Hs1) as (s' & Hrun' & Hs' & Hroot' & Hall & Hlast).
  exists s'. split_and!; [by unfold bind; rewrite Hrun|done|by etrans|..].
  - assert (forall y, already_voted s y \/ y = x -> already_voted s1 y) as Hstep.
    { intros y Hy. destruct (decide (already_voted s x)) as [Ha|Ha].
      - rewrite (Hold Ha). destruct Hy as [?| ->]; done.
      - unfold already_voted in *. rewrite (Hnew Ha).
        destruct (last_voted_slot s); destruct Hy as [?| ->]; try done; lia. }
    intros y [Hy|[->|Hy]%elem_of_cons]; apply Hall; [left|left|by right]; apply Hstep; tauto.
  - destruct Hlast as [->|(y & Hy & ->)]; [|right; exists y; set_solver].
    destruct (decide (already_voted s x)) as [Ha|Ha]; [left; by rewrite (Hold Ha)|].
    right. exists x. split; [set_solver|by apply Hnew].
Qed.

(** The slots of a vote that are not older than the slot hashes. *)
Definition recent (hashes : list SlotHash) (slots : list Slot) : list Slot :=
  filter (fun slot => default 0 (fst <$> list.last hashes) <= slot) slots.

Lemma process_vote_eq vote hashes epoch current_slot timely deprecate s :
  process_vote vote hashes epoch current_slot timely deprecate s =
  match vote_slots vote with
  | [] => (Err VoteError.EmptySlots, s)
  | _ =>
      match recent hashes (vote_slots vote) with
      | [] => (Err VoteError.VotesTooOldAllFiltered, s)
      | slots => process_vote_unfiltered slots vote hashes epoch current_slot timely deprecate s
      end
  end.
Proof.
  unfold process_vote. fold (recent hashes (vote_slots vote)).
  destruct (vote_slots vote); [done|]. by destruct (recent _ _).
Qed.

(** C22: votes keep the account of a validator sound.  On a well-formed tower
    [process_vote] never panics, and keeps it well formed: slots increase,
    confirmations decrease between 31 and 1, no vote outlives the lockout below
    it; the root does not move back.  If it fails nothing changes.  If it succeeds,
    the slots not voted for before lie on the fork of the slot hashes in this
    order, the vote's hash is that of the newest, and all of them are recorded. *)
Theorem process_vote_safe (vote : Vote) (hashes : list SlotHash) (epoch : Epoch)
    (current_slot : Slot) (timely deprecate : bool) (s s' : VoteState) (o : Outcome VoteErr unit) :
  vote_state_ok s -> Forall (in_range U64) (vote_slots vote) ->
  process_vote vote hashes epoch current_slot timely deprecate s = (o, s') ->
  let new := filter (is_new s) (recent hashes (vote_slots vote)) in
  o <> Panic /\ vote_state_ok s' /\ root_le (root_slot s) (root_slot s') /\
  (o <> Ok tt -> s' = s) /\
  (o = Ok tt -> new `sublist_of` fork hashes /\
    (exists l, list.last new = Some l /\ (l, vote_hash vote) ∈ hashes) /\
    forall x, x ∈ new -> already_voted s' x).
Proof.
  intros Hs Hr Hrun new. rewrite process_vote_eq in Hrun.
  destruct (vote_slots vote) as [|x0 xs] eqn:Hslots; [by simplify_eq|].
  destruct (recent hashes (x0 :: xs)) as [|y0 ys] eqn:Hrec; [by simplify_eq|].
  assert (Forall (in_range U64) (y0 :: ys)) as Hr'.
  { rewrite <-Hrec. apply list.Forall_forall. intros x Hx. unfold recent in Hx.
    apply list_elem_of_filter in Hx as [_ Hx]. by rewrite list.Forall_forall in Hr; apply Hr. }
  unfold process_vote_unfiltered, bind, query in Hrun.
  destruct (check_slots_are_valid_spec s (y0 :: ys) hashes (vote_hash vote)) as [Hnp Hvalid].
  fold new in Hvalid. destruct (check_slots_are_valid _ _ _ _) as [[]|e|] eqn:Hc; [|by simplify_eq|done].
  destruct (process_vote_slots_spec (E:=VoteErr) (y0 :: ys) epoch current_slot timely deprecate s Hs Hr')
    as (s1 & Hrun1 & Hs1 & Hroot & Hall & _).
  rewrite Hrun1 in Hrun. simplify_eq. destruct (Hvalid eq_refl) as [Hsub Hlast].
  split_and!; [done..|]. intros _. split_and!; [done..|].
  intros x Hx. apply Hall. right. by apply list_elem_of_filter in Hx as [_ ?].
Qed.

Lemma elem_of_sublist {A} (l k : list A) x : l `sublist_of` k -> x ∈ l -> x ∈ k.
Proof. intros Hsub Hx. eapply elem_of_submseteq; [done|]. by apply sublist_submseteq. Qed.

Lemma sorted_sublist {A} (R : A -> A -> Prop) l k :
  l `sublist_of` k -> StronglySorted R k -> StronglySorted R l.
Proof.
  induction 1 as [|x l k Hsub IH|x l k Hsub IH]; intros Hk; [done|..];
    inversion Hk as [|? ? Hs Hf]; subst; [|by apply IH].
  constructor; [by apply IH|]. rewrite list.Forall_forall in *.
  intros y Hy. apply Hf. by eapply elem_of_sublist.
Qed.

Lemma sorted_last l x y : StronglySorted Z.lt l -> list.last l = Some y -> x ∈ l -> x <= y.
Proof.
  induction 1 as [|a l Hs IH Hf]; [done|]. rewrite last_cons. intros Hl Hx.
  rewrite list.Forall_forall in Hf. destruct (list.last l) as [z|] eqn:Hz.
  - simplify_eq. apply elem_of_cons in Hx as [->|Hx]; [|by apply IH].
    apply Z.lt_le_incl, Hf. by apply last_Some_elem_of.
  - apply last_None in Hz. subst. simplify_eq. apply list_elem_of_singleton in Hx. lia.
Qed.

Lemma fork_NoDup hashes : StronglySorted Z.lt (fork hashes) -> NoDup hashes.*1.
Proof.
  intros Hs. rewrite (Permutation_rev hashes.*1). induction Hs as [|x l _ IH Hf]; constructor; [|done].
  intros Hx. rewrite list.Forall_forall in Hf. specialize (Hf x Hx). lia.
Qed.

Lemma recent_fork hashes slots :
  StronglySorted Z.lt (fork hashes) -> slots `sublist_of` fork hashes -> recent hashes slots = slots.
Proof.
  intros Hs Hsub. unfold recent. apply filter_everything.
  assert (forall x, x ∈ fork hashes -> default 0 (fst <$> list.last hashes) <= x) as Hmin.
  { intros x Hx. destruct hashes as [|[e h] hs _] using rev_ind; [by apply elem_of_nil in Hx|].
    rewrite last_snoc. simpl. rewrite fmap_app, rev_app_distr in Hs, Hx. simpl in Hs, Hx.
    inversion Hs as [|? ? _ Hf]; subst. rewrite list.Forall_forall in Hf.
    apply elem_of_cons in Hx as [->|Hx]; [done|]. by apply Z.lt_le_incl, Hf. }
  apply list.Forall_forall. intros x Hx. apply Hmin. by eapply elem_of_sublist.
Qed.

(** A validator can always vote for its fork.  A vote for slots that lie on
    the fork in this order, all newer than the last one voted for, with the hash of
    the newest, is accepted, and its last slot becomes the last voted one. *)
Theorem fork_votes_accepted (vote : Vote) (hashes : list SlotHash) (epoch : Epoch)
    (current_slot : Slot) (timely deprecate : bool) (s : VoteState) (l : Slot) :
  vote_state_ok s -> Forall (in_range U64) (vote_slots vote) ->
  StronglySorted Z.lt (fork hashes) -> vote_slots vote `sublist_of` fork hashes ->
  Forall (is_new s) (vote_slots vote) ->
  list.last (vote_slots vote) = Some l -> (l, vote_hash vote) ∈ hashes ->
  exists s', process_vote vote hashes epoch current_slot timely deprecate s = (Ok tt, s') /\
  last_voted_slot s' = Some l.
Proof.
  intros Hs Hr Hsort Hsub Hnew Hlast Hl.
  destruct (process_vote_slots_spec (E:=VoteErr) (vote_slots vote) epoch current_slot timely deprecate s Hs Hr)
    as (s' & Hrun & _ & _ & Hall & Hwhich).
  assert (l ∈ vote_slots vote) as Hin by by apply last_Some_elem_of.
  exists s'. split.
  - rewrite process_vote_eq, (recent_fork hashes) by done.
    destruct (vote_slots vote) as [|x0 xs] eqn:Hslots; [done|]. rewrite <-Hslots in *.
    unfold process_vote_unfiltered, bind, query.
    assert (check_slots_are_valid s (vote_slots vote) (vote_hash vote) hashes = Ok tt) as ->; [|done].
    apply check_slots_are_valid_complete with l; try done. by apply fork_NoDup.
  - specialize (Hall l (or_intror Hin)). unfold already_voted in Hall. rewrite list.Forall_forall in Hnew.
    specialize (Hnew l Hin). unfold is_new, already_voted in Hnew.
    destruct Hwhich as [Heq|(x & Hx & Heq)]; rewrite Heq in *; [done|]. f_equal.
    assert (x <= l) by (eapply sorted_last; [by eapply sorted_sublist|done|done]). lia.
Qed.
