(* ===== verification/TowerRules.v ===== *)
(** * Towers sent as a whole: no vote is taken back

    [do_process_vote_state_update] replaces the tower of an account by the one
    the validator proposes.  The theorems say that what is accepted is well
    formed, lies on the fork of the slot hashes, and goes on from the tower it
    replaces: no rollback of the root, of a lockout or of confirmations; and that
    the loops end and none of the assertions can fail. *)

From S2P Require Import Prelude Errors Rent Account BTreeMap Sysvars FeatureSet VoteState Votes VoteRules.
From Stdlib Require Import Sorting.Sorted.

(** ** The proposed votes alone *)

Lemma check_new_votes_spec root prev vs :
  Forall (fun v => 0 <= landed_confirmation_count v) vs ->
  check_new_votes root prev vs <> Panic /\
  (check_new_votes root prev vs = Ok tt ->
   Forall (fun v => 1 <= landed_confirmation_count v <= MAX_LOCKOUT_HISTORY /\ above_root root v) vs /\
   linked (match prev with Some v => v :: vs | None => vs end)).
Proof.
  revert prev. induction vs as [|v vs IH]; intros prev Hc; simpl.
  { split; [done|]. intros _. split; [done|]. intros i a b Ha Hb. destruct prev, i; done. }
  apply list.Forall_cons in Hc as [Hv Hc]. specialize (IH (Some v) Hc).
  destruct (Z.eqb_spec (landed_confirmation_count v) 0); [by split|].
  destruct (Z.ltb_spec MAX_LOCKOUT_HISTORY (landed_confirmation_count v)); [by split|].
  destruct (match root with Some r => (landed_slot v <=? r) && negb (r =? 0) | None => false end) eqn:Hr;
    [by split|].
  assert (above_root root v) as Ha.
  { destruct root as [r|]; simpl in *; [|done]. apply andb_false_iff in Hr as [Hr|Hr].
    - apply Z.leb_gt in Hr. lia.
    - apply negb_false_iff, Z.eqb_eq in Hr. lia. }
  destruct prev as [p|]; simpl.
  - destruct (Z.leb_spec (landed_slot v) (landed_slot p)); [by split|].
    destruct (Z.leb_spec (landed_confirmation_count p) (landed_confirmation_count v)); [by split|].
    destruct (Z.ltb_spec (last_locked_out_slot (landed_lockout p)) (landed_slot v)); [by split|].
    simpl. destruct IH as [Hp IH]. split; [done|]. intros Hok. destruct (IH Hok) as [Hf Hl].
    split; [constructor; [split; [lia|done]|done]|].
    intros [|i] a b Ha' Hb'; simpl in *; [simplify_eq; unfold locks; lia|]. by apply (Hl i).
  - destruct IH as [Hp IH]. split; [done|]. intros Hok. destruct (IH Hok) as [Hf Hl].
    split; [constructor; [split; [lia|done]|done]|done].
Qed.

(** ** Credits *)

Lemma credits_for_vote_bounds s index timely deprecate :
  1 <= credits_for_vote_at_index s index timely deprecate <= VOTE_CREDITS_MAXIMUM_PER_SLOT.
Proof.
  unfold credits_for_vote_at_index. set (l := default 0 _). set (m := if deprecate then _ else _).
  assert (8 <= m <= 16) as Hm by (unfold m; destruct deprecate; compute; intuition discriminate).
  unfold VOTE_CREDITS_MAXIMUM_PER_SLOT. destruct (_ || _); [lia|].
  destruct (checked_sub U8 l _) as [d|] eqn:Hd; [|lia]. apply checked_Some in Hd as [-> Hd].
  unfold in_range in Hd. simpl in Hd.
  set (d := l - _) in *. destruct d as [|d|d]; [lia| |lia].
  destruct (checked_sub U8 m (Z.pos d)) as [c|] eqn:Hc; [|lia].
  apply checked_Some in Hc as [-> Hc]. unfold in_range in Hc. simpl in Hc.
  destruct (m - Z.pos d) eqn:E; lia.
Qed.

(** The votes that a new root finalizes are those up to the root. *)
Lemma root_votes_spec s root timely deprecate current (index earned : Z) :
  0 <= earned -> earned + VOTE_CREDITS_MAXIMUM_PER_SLOT * vec_len current <= int_max U64 ->
  exists (k : nat) earned', root_votes s root timely deprecate current index earned =
    Ok (index + Z.of_nat k, earned') /\
  Forall (fun v => landed_slot v <= root) (take k current) /\
  (forall v, head (drop k current) = Some v -> root < landed_slot v).
Proof.
  unfold vec_len. revert index earned. induction current as [|v vs IH]; intros index earned He Hb.
  { exists O, earned. by rewrite Z.add_0_r. }
  cbn [root_votes length] in *. destruct (Z.leb_spec (landed_slot v) root) as [Hv|Hv]; cycle 1.
  { exists O, earned. rewrite Z.add_0_r. split_and!; [done..|]. intros w [= <-]. done. }
  pose proof (credits_for_vote_bounds s index timely deprecate) as Hc.
  unfold VOTE_CREDITS_MAXIMUM_PER_SLOT in *.
  set (c := credits_for_vote_at_index s index timely deprecate) in *.
  assert (exists earned', earned <= earned' <= earned + 16 /\
    (if timely || negb (landed_slot v =? root) then unwrap (checked_add U64 earned c)
     else Ok earned : Outcome VoteErr Z) = Ok earned') as (e' & He' & ->).
  { destruct (_ || _); [|exists earned; split; [lia|done]]. exists (earned + c). split; [lia|].
    unfold checked_add, checked. rewrite decide_True; [done|]. unfold in_range. change (int_min U64) with 0. lia. }
  simpl. destruct (IH (index + 1) e') as (k & e2 & -> & Hf & Hh); [lia..|].
  exists (S k), e2. split_and!; [do 2 f_equal; lia|by constructor|done].
Qed.

(** ** Merging two towers *)

Definition by_slot (v w : LandedVote) : Prop := landed_slot v < landed_slot w.

Lemma linked_sorted vs : linked vs -> StronglySorted by_slot vs.
Proof.
  induction vs as [|v vs IH]; intros H; constructor.
  - apply IH. by apply linked_tail in H.
  - apply list.Forall_lookup. intros i w Hw.
    by destruct (linked_lt (v :: vs) 0 (S i) v w H eq_refl Hw); [lia|].
Qed.

(** The vote is still there, with at least its confirmations. *)
Definition kept (vs : list LandedVote) (c : LandedVote) : Prop :=
  exists v, v ∈ vs /\ landed_slot v = landed_slot c /\
  landed_confirmation_count c <= landed_confirmation_count v /\
  (latency c <> 0 -> latency v = latency c).

(** The lockout of the vote had ended at the first newer vote. *)
Definition expired (vs : list LandedVote) (c : LandedVote) : Prop :=
  exists t, t ∈ vs /\ last_locked_out_slot (landed_lockout c) < landed_slot t /\
  landed_slot c < landed_slot t /\
  forall v, v ∈ vs -> landed_slot c < landed_slot v -> landed_slot t <= landed_slot v.

Definition same_lockout (v w : LandedVote) : Prop := landed_lockout v = landed_lockout w.

Lemma kept_cons n vs c : kept vs c -> kept (n :: vs) c.
Proof. intros (v & Hv & H). exists v. set_solver. Qed.

Lemma expired_cons n vs c : landed_slot n <= landed_slot c -> expired vs c -> expired (n :: vs) c.
Proof.
  intros Hn (t & Ht & Hl & Hc & Hmin). exists t. split_and!; [set_solver|done..|].
  intros v [->|Hv]%elem_of_cons Hcv; [lia|by apply Hmin].
Qed.

Lemma merge_votes_cons c cs n ns :
  merge_votes (c :: cs) (n :: ns) =
  match landed_slot c ?= landed_slot n with
  | Lt => if landed_slot n <=? last_locked_out_slot (landed_lockout c)
          then Err VoteError.LockoutConflict else merge_votes cs (n :: ns)
  | Eq => if landed_confirmation_count n <? landed_confirmation_count c
          then Err VoteError.ConfirmationRollBack
          else let! rest := merge_votes cs ns in Ok (set_latency (latency c) n :: rest)
  | Gt => let! rest := merge_votes (c :: cs) ns in Ok (n :: rest)
  end.
Proof. done. Qed.

Lemma merge_votes_total current new : merge_votes current new <> Panic.
Proof.
  revert new. induction current as [|c cs IHc]; intros new; [by destruct new|].
  induction new as [|n ns IHn]; [done|]. rewrite merge_votes_cons.
  destruct (_ ?= _).
  - destruct (_ <? _); [done|]. specialize (IHc ns). by destruct (merge_votes cs ns).
  - destruct (_ <=? _); [done|]. apply IHc.
  - by destruct (merge_votes (c :: cs) ns).
Qed.

(** Induction along the run of the loop. *)
Lemma merge_votes_ind (P : list LandedVote -> list LandedVote -> list LandedVote -> Prop) :
  (forall new, P [] new new) -> (forall current, P current [] []) ->
  (forall c cs n ns merged, landed_slot c < landed_slot n ->
     last_locked_out_slot (landed_lockout c) < landed_slot n ->
     P cs (n :: ns) merged -> P (c :: cs) (n :: ns) merged) ->
  (forall c cs n ns merged, landed_slot c = landed_slot n ->
     landed_confirmation_count c <= landed_confirmation_count n ->
     P cs ns merged -> P (c :: cs) (n :: ns) (set_latency (latency c) n :: merged)) ->
  (forall c cs n ns merged, landed_slot n < landed_slot c ->
     P (c :: cs) ns merged -> P (c :: cs) (n :: ns) (n :: merged)) ->
  forall current new merged, merge_votes current new = Ok merged -> P current new merged.
Proof.
  intros Hnil Hnil' Hlt Heq Hgt current. induction current as [|c cs IHc].
  { intros [|n ns] merged [= <-]; apply Hnil. }
  induction new as [|n ns IHn]; intros merged; [intros [= <-]; apply Hnil'|].
  rewrite merge_votes_cons. destruct (Z.compare_spec (landed_slot c) (landed_slot n)).
  - destruct (Z.ltb_spec (landed_confirmation_count n) (landed_confirmation_count c)); [done|].
    intros (rest & Hrest & [= <-])%outcome_bind_ok. by apply Heq; [..|apply IHc].
  - destruct (Z.leb_spec (landed_slot n) (last_locked_out_slot (landed_lockout c))); [done|].
    intros Hm. by apply Hlt; [..|apply IHc].
  - intros (rest & Hrest & [= <-])%outcome_bind_ok. by apply Hgt; [|apply IHn].
Qed.

Lemma merge_votes_lockouts current new merged :
  merge_votes current new = Ok merged -> Forall2 same_lockout new merged.
Proof.
  intros H. pattern current, new, merged. revert current new merged H.
  apply merge_votes_ind; intros; try done; try by constructor.
  induction new; by constructor.
Qed.

Lemma merge_votes_latency current new merged :
  merge_votes current new = Ok merged ->
  Forall (fun v => in_range U8 (latency v)) current -> Forall (fun v => in_range U8 (latency v)) new ->
  Forall (fun v => in_range U8 (latency v)) merged.
Proof.
  intros H. pattern current, new, merged. revert current new merged H.
  apply merge_votes_ind; intros; try done; decompose_Forall; eauto.
Qed.

(** Each current vote is kept, has expired, or is newer than all new ones. *)
Lemma merge_votes_fate current new merged :
  merge_votes current new = Ok merged ->
  StronglySorted by_slot current -> StronglySorted by_slot new ->
  forall c, c ∈ current ->
  kept merged c \/ expired new c \/ Forall (fun v => landed_slot v < landed_slot c) new.
Proof.
  intros H. pattern current, new, merged. revert current new merged H.
  apply merge_votes_ind.
  - set_solver.
  - intros current _ _ c _. by right; right.
  - intros c cs n ns merged Hlt Hl IH Hc Hn x [->|Hx]%elem_of_cons.
    + right. left. exists n. split_and!; [set_solver|done..|].
      inversion Hn as [|? ? _ Hf]; subst. rewrite list.Forall_forall in Hf.
      intros v [->|Hv]%elem_of_cons _; [done|]. by apply Z.lt_le_incl, Hf.
    + inversion Hc; subst. by apply IH.
  - intros c cs n ns merged Heq Hcount IH Hc Hn x [->|Hx]%elem_of_cons.
    + left. exists (set_latency (latency c) n). split_and!; [set_solver|done..].
    + inversion Hc as [|? ? Hc' Hf]; inversion Hn as [|? ? Hn' _]; subst.
      rewrite list.Forall_forall in Hf. assert (landed_slot n <= landed_slot x).
      { specialize (Hf x Hx). unfold by_slot in Hf. lia. }
      destruct (IH Hc' Hn' x Hx) as [?|[?|?]];
        [left; by apply kept_cons|right; left; by apply expired_cons|].
      right; right. constructor; [specialize (Hf x Hx); unfold by_slot in Hf; lia|done].
  - intros c cs n ns merged Hgt IH Hc Hn x Hx.
    inversion Hc as [|? ? Hc' Hf]; inversion Hn as [|? ? Hn' _]; subst.
    rewrite list.Forall_forall in Hf. assert (landed_slot n < landed_slot x).
    { apply elem_of_cons in Hx as [->|Hx]; [done|]. specialize (Hf x Hx). unfold by_slot in Hf. lia. }
    destruct (IH Hc Hn' x Hx) as [?|[?|?]];
      [left; by apply kept_cons|right; left; apply expired_cons; [lia|done]|].
    right; right. by constructor.
Qed.

(** ** Replacing the tower *)

Lemma same_lockout_slot v w : same_lockout v w -> landed_slot v = landed_slot w.
Proof. unfold same_lockout, landed_slot. congruence. Qed.

Lemma same_lockout_linked vs ws : Forall2 same_lockout vs ws -> linked vs -> linked ws.
Proof.
  intros H Hl i v w Hv Hw. eapply Forall2_lookup_r in Hv as (v0 & Hv & Ev); [|done].
  eapply Forall2_lookup_r in Hw as (w0 & Hw & Ew); [|done].
  specialize (Hl i v0 w0 Hv Hw).
  unfold locks, same_lockout, landed_slot, landed_confirmation_count in *. congruence.
Qed.

Lemma same_lockout_elem vs ws w :
  Forall2 same_lockout vs ws -> w ∈ ws -> exists v, v ∈ vs /\ same_lockout v w.
Proof.
  intros H [i Hi]%list_elem_of_lookup. eapply Forall2_lookup_r in Hi as (v & Hv & E); [|done].
  exists v. split; [by apply list_elem_of_lookup_2 in Hv|done].
Qed.

Lemma same_lockout_sym vs ws : Forall2 same_lockout vs ws -> Forall2 same_lockout ws vs.
Proof. induction 1; constructor; done. Qed.

Lemma same_lockout_expired vs ws c : Forall2 same_lockout vs ws -> expired vs c -> expired ws c.
Proof.
  intros H (t & Ht & Hl & Hc & Hmin).
  destruct (same_lockout_elem ws vs t (same_lockout_sym _ _ H) Ht) as (t' & Ht' & E).
  apply same_lockout_slot in E. exists t'. rewrite E. split_and!; [done..|].
  intros v Hv Hcv. destruct (same_lockout_elem vs ws v H Hv) as (v0 & Hv0 & E0).
  apply same_lockout_slot in E0. rewrite <-E0. apply Hmin; [done|lia].
Qed.

(** Filling in the latencies that are not known yet. *)
Definition fill_latency (timely : bool) (current_slot : Slot) (vs : list LandedVote) : list LandedVote :=
  if timely then
    (fun v => if latency v =? 0
       then set_latency (compute_vote_latency (landed_slot v) current_slot) v else v) <$> vs
  else vs.

Lemma fill_latency_same timely slot vs : Forall2 same_lockout vs (fill_latency timely slot vs).
Proof.
  unfold fill_latency. induction vs as [|v vs IH]; [by destruct timely|].
  destruct timely; constructor; try done. by destruct (latency v =? 0).
Qed.

Lemma fill_latency_range timely slot vs :
  Forall (fun v => in_range U8 (latency v)) vs ->
  Forall (fun v => in_range U8 (latency v)) (fill_latency timely slot vs).
Proof.
  unfold fill_latency. destruct timely; [|done]. intros H. apply Forall_fmap.
  eapply list.Forall_impl; [done|]. intros v Hv. simpl.
  destruct (latency v =? 0); [apply compute_vote_latency_range|done].
Qed.

Lemma fill_latency_kept timely slot vs c : kept vs c -> kept (fill_latency timely slot vs) c.
Proof.
  intros (v & Hv & Hs & Hc & Hl). unfold fill_latency. destruct timely; [|by exists v].
  exists (if latency v =? 0 then set_latency (compute_vote_latency (landed_slot v) slot) v else v).
  split; [apply list_elem_of_fmap; by exists v|].
  destruct (Z.eqb_spec (latency v) 0); [|done]. split_and!; [done..|]. intros Hn. lia.
Qed.

Definition proposed_ok (v : LandedVote) : Prop :=
  in_range U64 (landed_slot v) /\ 0 <= landed_confirmation_count v /\ in_range U8 (latency v).

(** What the current votes may be in the new tower. *)
Definition fate (vs : list LandedVote) (c : LandedVote) : Prop :=
  kept vs c \/ expired vs c \/ Forall (fun v => landed_slot v < landed_slot c) vs.

Definition newer_than_root (root : option Slot) (c : LandedVote) : Prop :=
  match root with Some root => root < landed_slot c | None => True end.

Record replaced (s : VoteState) (new : list LandedVote) (root : option Slot) (s' : VoteState) : Prop := {
  replaced_root : root_slot s' = root;
  replaced_root_le : root_le (root_slot s) root;
  replaced_ok : vote_state_ok s';
  replaced_votes : Forall2 same_lockout new (votes s');
  replaced_fate : forall c, c ∈ votes s -> newer_than_root root c -> fate (votes s') c;
}.

Lemma same_lockout_trans us vs ws :
  Forall2 same_lockout us vs -> Forall2 same_lockout vs ws -> Forall2 same_lockout us ws.
Proof.
  unfold same_lockout. intros H. revert ws.
  induction H; intros ws H'; inversion H'; subst; constructor; [congruence|auto].
Qed.

(** A proposed tower that passes the checks is well formed, with any latencies. *)
Lemma checked_tower_ok s' new root :
  new <> [] -> vec_len new <= MAX_LOCKOUT_HISTORY -> Forall proposed_ok new ->
  check_new_votes root None new = Ok tt -> Forall2 same_lockout new (votes s') ->
  Forall (fun v => in_range U8 (latency v)) (votes s') -> root_slot s' = root -> vote_state_ok s'.
Proof.
  intros Hne Hlen Hprop Hcheck Hsame Hlat Hr.
  destruct (check_new_votes_spec root None new) as [_ Hnew].
  { eapply list.Forall_impl; [done|]. by intros v (_ & ? & _). }
  destruct (Hnew Hcheck) as [Hcount Hl]. rewrite list.Forall_forall in Hlat, Hcount, Hprop.
  split; [split|..].
  - unfold vec_len in *. by rewrite <-(Forall2_length Hsame).
  - apply list.Forall_forall. intros v Hv.
    destruct (same_lockout_elem _ _ _ Hsame Hv) as (w & Hw & E).
    destruct (Hprop w Hw) as (Hs & _). destruct (Hcount w Hw) as [Hc _].
    split; [|by apply Hlat]. unfold count_ok, landed_slot, landed_confirmation_count in *.
    rewrite <-E. done.
  - by eapply same_lockout_linked.
  - rewrite Hr. apply list.Forall_forall. intros v Hv.
    destruct (same_lockout_elem _ _ _ Hsame Hv) as (w & Hw & E). apply same_lockout_slot in E.
    destruct (Hcount w Hw) as [_ Ha]. unfold above_root in *. by rewrite <-E.
  - intros Hnil. rewrite Hnil in Hsame. by apply Forall2_nil_inv_r in Hsame.
Qed.

(** The pure part: the checks passed and the towers were merged. *)
Lemma replaced_intro s s' new root (k : nat) merged timely slot :
  vote_state_ok s -> new <> [] -> vec_len new <= MAX_LOCKOUT_HISTORY -> Forall proposed_ok new ->
  root_le (root_slot s) root -> check_new_votes root None new = Ok tt ->
  (forall v, v ∈ take k (votes s) -> newer_than_root root v -> False) ->
  merge_votes (drop k (votes s)) new = Ok merged ->
  votes s' = fill_latency timely slot merged -> root_slot s' = root ->
  replaced s new root s'.
Proof.
  intros [[_ Hland Hlink] _ _] Hne Hlen Hprop Hroot Hcheck Hold Hmerge Hvotes Hr.
  assert (Forall2 same_lockout new (votes s')) as Hsame.
  { rewrite Hvotes. eapply same_lockout_trans; [by eapply merge_votes_lockouts|].
    apply fill_latency_same. }
  split; [done..| |done|].
  - apply (checked_tower_ok s' new root); try done.
    rewrite Hvotes. apply fill_latency_range. eapply merge_votes_latency; [done|..].
    + apply Forall_drop. eapply list.Forall_impl; [exact Hland|]. by intros v [_ ?].
    + eapply list.Forall_impl; [exact Hprop|]. by intros v (_ & _ & ?).
  - intros c Hc Hcr. rewrite <-(take_drop k (votes s)) in Hc. apply elem_of_app in Hc as [Hc|Hc].
    { by destruct (Hold c Hc Hcr). }
    assert (StronglySorted by_slot (drop k (votes s))) as Hsd.
    { apply linked_sorted. intros i v w Hv Hw. rewrite lookup_drop in Hv, Hw.
      apply (Hlink (k + i)%nat); [done|]. by rewrite Nat.add_succ_r in Hw. }
    assert (StronglySorted by_slot new) as Hsn.
    { apply linked_sorted. destruct (check_new_votes_spec root None new) as [_ Hnew].
      - eapply list.Forall_impl; [exact Hprop|]. by intros v (_ & ? & _).
      - by apply Hnew. }
    destruct (merge_votes_fate _ _ _ Hmerge Hsd Hsn c Hc) as [Hk|[He|Hf]].
    + left. rewrite Hvotes. by apply fill_latency_kept.
    + right. left. by eapply same_lockout_expired.
    + right. right. apply list.Forall_forall. intros v Hv.
      destruct (same_lockout_elem _ _ _ Hsame Hv) as (w & Hw & E). apply same_lockout_slot in E.
      rewrite list.Forall_forall in Hf. rewrite <-E. by apply Hf.
Qed.

Lemma process_timestamp_spec slot timestamp s :
  exists o s', process_timestamp slot timestamp s = (o, s') /\ o <> Panic /\
  votes s' = votes s /\ root_slot s' = root_slot s.
Proof.
  unfold process_timestamp, bind, gets. simpl.
  destruct (_ || _); [by eexists _, s|]. by eexists _, _.
Qed.

Section features.
Context {Hfeatures : FeatureIds}.

(** The end of [process_new_vote_state], after the towers are merged. *)
Lemma replace_end s new_state root timestamp epoch earned :
  new_state <> [] ->
  wp ((if bool_decide (root_slot s <> root) then modify (increment_credits epoch earned) else ret tt) ;?
      match timestamp with
      | Some timestamp =>
          let? last := lift (unwrap (list.last new_state)) in
          process_timestamp (landed_slot last) timestamp
      | None => ret tt
      end ;?
      modify (with_root_slot root) ;? modify (with_votes new_state))
    (fun o s' => o <> Panic /\ (o = Ok tt -> votes s' = new_state /\ root_slot s' = root)) s.
Proof.
  intros Hne. assert (forall s0, wp (match timestamp with
      | Some timestamp =>
          let? last := lift (unwrap (list.last new_state)) in
          process_timestamp (landed_slot last) timestamp
      | None => ret tt
      end ;? modify (with_root_slot root) ;? modify (with_votes new_state))
    (fun o s' => o <> Panic /\ (o = Ok tt -> votes s' = new_state /\ root_slot s' = root)) s0) as H.
  { intros s0. apply wp_bind. destruct timestamp as [ts|]; [|by wp_run].
    destruct (list.last new_state) as [l|] eqn:El; [|by apply last_None in El].
    apply wp_bind. unfold wp at 1. simpl.
    destruct (process_timestamp_spec (landed_slot l) ts s0) as (o & s1 & Hrun & Hp & _).
    unfold wp at 1. rewrite Hrun. simpl. destruct o; [by wp_run|done|done]. }
  apply wp_bind. destruct (bool_decide _); wp_step; apply H.
Qed.

(** The votes up to the new root are left out of the comparison. *)
Lemma rooted_wp s root timely deprecate :
  vote_state_ok s ->
  wp (match root with
      | Some root => lift (root_votes s root timely deprecate (votes s) 0 (if timely then 0 else 1))
      | None => ret (0, if timely then 0 else 1)
      end)
    (fun o s' => s' = s /\ exists (k : nat) e, o = Ok (Z.of_nat k, e) /\
       forall v, v ∈ take k (votes s) -> newer_than_root root v -> False) s.
Proof.
  intros [[Hlen _ _] _ _]. destruct root as [r|]; wp_step.
  - split; [done|]. destruct (root_votes_spec s r timely deprecate (votes s) 0 (if timely then 0 else 1))
      as (k & e & Hrun & Hf & _).
    { by destruct timely. }
    { unfold MAX_LOCKOUT_HISTORY, VOTE_CREDITS_MAXIMUM_PER_SLOT in *. simpl. destruct timely; lia. }
    exists k, e. split; [done|]. intros v Hv Hr. rewrite list.Forall_forall in Hf.
    specialize (Hf v Hv). simpl in Hr. lia.
  - split; [done|]. exists O. eexists. split; [done|]. set_solver.
Qed.

Lemma process_new_vote_state_wp new root timestamp epoch slot feature_set s :
  vote_state_ok s -> new <> [] -> Forall proposed_ok new ->
  wp (process_new_vote_state new root timestamp epoch slot feature_set)
    (fun o s' => o <> Panic /\ (o = Ok tt -> replaced s new root s')) s.
Proof.
  intros Hs Hne Hprop. unfold process_new_vote_state. wp_step. wp_step. wp_step.
  destruct new as [|n0 ns] eqn:Hnew; [done|]. rewrite <-Hnew in *. wp_step.
  destruct (Z.ltb_spec MAX_LOCKOUT_HISTORY (vec_len new)) as [|Hlen]; [by wp_step|].
  unfold id. wp_step. apply wp_mono with (fun o s' => s' = s /\ o <> Panic /\
    (o = Ok tt -> root_le (root_slot s) root)).
  { destruct root as [r|], (root_slot s) as [r0|]; simpl; try (by wp_step).
    destruct (Z.ltb_spec r r0); by wp_step. }
  intros o s' (-> & Hp & Hroot). destruct o as [[]|e|]; [|done|done]. specialize (Hroot eq_refl).
  destruct (check_new_votes_spec root None new) as [Hcp _].
  { eapply list.Forall_impl; [done|]. by intros v (_ & ? & _). }
  wp_step. wp_step. destruct (check_new_votes root None new) as [[]|e|] eqn:Hcheck; [|done|done].
  set (timely := feature feature_set timely_vote_credits_id).
  set (deprecate := feature feature_set deprecate_unused_legacy_vote_plumbing_id).
  wp_step. eapply wp_mono; [by apply (rooted_wp s root timely deprecate)|].
  intros o s' [-> (k & e & -> & Hold)]. cbv beta iota. wp_step. wp_step. rewrite Nat2Z.id.
  destruct (merge_votes (drop k (votes s)) new) as [merged|err|] eqn:Hm;
    [|done|by destruct (merge_votes_total (drop k (votes s)) new)].
  fold (fill_latency timely slot merged).
  eapply wp_mono; [apply replace_end|].
  - intros Hnil. pose proof (Forall2_length (merge_votes_lockouts _ _ _ Hm)) as H1.
    pose proof (Forall2_length (fill_latency_same timely slot merged)) as H2.
    rewrite Hnil, <-H1, Hnew in H2. done.
  - intros o s' [Hp' Hok]. split; [done|]. intros ->. destruct (Hok eq_refl) as [Hv Hr].
    by eapply replaced_intro.
Qed.
End features.

(** ** The tower and the slot hashes *)

Lemma sorted_snoc l x :
  StronglySorted Z.lt l -> Forall (fun y => y < x) l -> StronglySorted Z.lt (l ++ [x]).
Proof.
  induction 1 as [|y l Hs IH Hf]; intros Hx; simpl; [by repeat constructor|].
  apply list.Forall_cons in Hx as [Hy Hx]. constructor; [by apply IH|].
  apply list.Forall_app. split; [done|by constructor].
Qed.

Lemma vec_get_nat {A} (l : list A) (i : nat) x : l !! i = Some x -> vec_get l (Z.of_nat i) = Some x.
Proof. intros Hx. apply vec_get_Some. split; [lia|by rewrite Nat2Z.id]. Qed.

Lemma vec_get_pred {A} (l : list A) (i : nat) x : l !! i = Some x -> vec_get l (Z.of_nat (S i) - 1) = Some x.
Proof. intros Hx. replace (Z.of_nat (S i) - 1) with (Z.of_nat i) by lia. by apply vec_get_nat. Qed.

Section check_update.
Context (s : VoteState) (lockouts : list Lockout) (hashes : list SlotHash) (earliest : Slot).
Context (Hearliest : fst <$> list.last hashes = Some earliest).

(** A slot of the fork, or one older than its history that was voted for. *)
Definition on_fork (slot : Slot) : Prop :=
  slot ∈ hashes.*1 \/ (slot < earliest /\ contains_slot s slot = true).

(** The lockouts before the [index]-th are on the fork or to be filtered out,
    which only old ones are; behind the last one the hash of its slot is at hand. *)
Record checked (index hidx : nat) (to_filter : list Z) : Prop := {
  checked_index : (index <= length lockouts)%nat;
  checked_hidx : (hidx <= length hashes)%nat;
  checked_sorted : StronglySorted Z.lt to_filter;
  checked_filter : Forall (fun i => 0 <= i < Z.of_nat index /\
    forall l, lockouts !! Z.to_nat i = Some l -> lockout_slot l < earliest) to_filter;
  checked_fork : forall (i : nat) l, (i < index)%nat -> lockouts !! i = Some l ->
    Z.of_nat i ∈ to_filter \/ on_fork (lockout_slot l);
  checked_last : index = length lockouts -> forall l, list.last lockouts = Some l ->
    lockout_slot l < earliest \/ exists h, hashes !! hidx = Some (lockout_slot l, h);
}.

Lemma checked_start : lockouts <> [] -> checked 0 (length hashes) [].
Proof.
  intros Hne. split; [lia|lia|constructor|constructor|intros; lia|].
  by intros Hz%eq_sym%length_zero_iff_nil.
Qed.

Lemma checked_newer index hidx to_filter :
  checked index (S hidx) to_filter -> (index < length lockouts)%nat -> checked index hidx to_filter.
Proof. intros [] Hi. split; try done; lia. Qed.

Lemma last_next (index : nat) l l' :
  lockouts !! index = Some l -> S index = length lockouts -> list.last lockouts = Some l' -> l' = l.
Proof. intros Hl Hn Hl'. rewrite last_lookup, <-Hn in Hl'. simpl in Hl'. congruence. Qed.

Lemma checked_found index hidx to_filter l h :
  checked index (S hidx) to_filter -> lockouts !! index = Some l ->
  hashes !! hidx = Some (lockout_slot l, h) -> checked (S index) hidx to_filter.
Proof.
  intros [Hi Hh Hs Hf Hfork Hlast] Hl Hsh. pose proof (lookup_lt_Some _ _ _ Hl). split; try done; [lia..| | |].
  - eapply list.Forall_impl; [done|]. intros i [? ?]. split; [lia|done].
  - intros i l' Hil Hl'. destruct (decide (i = index)) as [->|Hne]; [|by apply (Hfork i); [lia|]].
    assert (l' = l) as -> by congruence.
    right. left. apply (list_elem_of_fmap_2 fst hashes (lockout_slot l, h)).
    by apply list_elem_of_lookup_2 in Hsh.
  - intros Hn l' Hl'. rewrite (last_next index l l') by done. right. by exists h.
Qed.

Lemma checked_old index hidx to_filter l :
  checked index hidx to_filter -> lockouts !! index = Some l -> lockout_slot l < earliest ->
  checked (S index) hidx
    (if negb (contains_slot s (lockout_slot l)) then to_filter ++ [Z.of_nat index] else to_filter).
Proof.
  intros [Hi Hh Hs Hf Hfork Hlast] Hl Hold. pose proof (lookup_lt_Some _ _ _ Hl).
  assert (Forall (fun i => 0 <= i < Z.of_nat (S index) /\
    forall l, lockouts !! Z.to_nat i = Some l -> lockout_slot l < earliest) to_filter) as Hf'.
  { eapply list.Forall_impl; [done|]. intros i [? ?]. split; [lia|done]. }
  split; [lia|done|..].
  - destruct (contains_slot _ _); simpl; [done|]. apply sorted_snoc; [done|].
    eapply list.Forall_impl; [exact Hf|]. intros i [? _]. lia.
  - destruct (contains_slot _ _); simpl; [done|]. apply list.Forall_app. split; [done|].
    constructor; [|done]. split; [lia|]. rewrite Nat2Z.id. intros l' Hl'. by simplify_eq.
  - intros i l' Hil Hl'. destruct (decide (i = index)) as [->|Hne].
    + assert (l' = l) as -> by congruence.
      destruct (contains_slot s (lockout_slot l)) eqn:Hc; simpl; [by right; right|].
      left. set_solver.
    + destruct (Hfork i l') as [?|?]; [lia|done| |by right]. left. destruct (contains_slot _ _); set_solver.
  - intros Hn l' Hl'. rewrite (last_next index l l') by done. by left.
Qed.

Lemma previous_total (index : nat) slot :
  (index < length lockouts)%nat ->
  exists b, (if 0 <? Z.of_nat index then
               let! previous := unwrap (vec_get lockouts (Z.of_nat index - 1)) in
               Ok (slot <=? lockout_slot previous)
             else Ok false : Outcome VoteErr bool) = Ok b.
Proof.
  intros Hi. destruct (Z.ltb_spec 0 (Z.of_nat index)); [|by eexists]. destruct index as [|index]; [lia|].
  destruct (lookup_lt_is_Some_2 lockouts index) as [l Hl]; [lia|].
  rewrite (vec_get_pred _ _ _ Hl). by eexists.
Qed.

Lemma check_update_loop_spec fuel root (index hidx : nat) to_filter :
  checked index hidx to_filter ->
  (match root with Some _ => 1 | None => 0 end + (length lockouts - index) + hidx < fuel)%nat ->
  match check_update_loop fuel s lockouts hashes earliest root (Z.of_nat index) (Z.of_nat hidx) to_filter with
  | Ok (i, h, f) => exists i' h' : nat, i = Z.of_nat i' /\ h = Z.of_nat h' /\ checked i' h' f
  | Err _ => True
  | Panic => False
  end.
Proof.
  revert root index hidx to_filter. induction fuel as [|fuel IH]; intros root index hidx to_filter Hck Hfuel; [lia|].
  cbn [check_update_loop]. cbv zeta. pose proof Hck as [Hi Hh _ _ _ _]. unfold vec_len.
  destruct (Z.ltb_spec (Z.of_nat index) (Z.of_nat (length lockouts))) as [Hlt|Hge]; [|by eexists _, _].
  destruct (Z.ltb_spec 0 (Z.of_nat hidx)) as [Hpos|Hzero]; [|by eexists _, _]. cbn [andb].
  destruct hidx as [|hidx]; [lia|].
  destruct (lookup_lt_is_Some_2 lockouts index) as [l Hl]; [lia|].
  destruct (lookup_lt_is_Some_2 hashes hidx) as [[a h] Ha]; [lia|].
  rewrite (vec_get_nat lockouts index l Hl), (vec_get_pred hashes hidx _ Ha).
  assert (S hidx = length hashes -> a = earliest) as Hlast.
  { intros Hn. rewrite last_lookup, <-Hn in Hearliest. simpl in Hearliest. rewrite Ha in Hearliest.
    by simplify_eq/=. }
  replace (Z.of_nat (S hidx) - 1) with (Z.of_nat hidx) by lia.
  replace (Z.of_nat index + 1) with (Z.of_nat (S index)) by lia.
  destruct root as [r|].
  - rewrite bool_decide_eq_false_2 by done. cbn [outcome_bind unwrap andb fst].
    destruct (Z.compare_spec r a) as [Hr|Hr|Hr].
    + apply IH; [done|lia].
    + destruct (Z.eqb_spec (Z.of_nat (S hidx)) (Z.of_nat (length hashes))); [|done].
      rewrite Hlast in Hr by lia. rewrite (proj2 (Z.leb_gt _ _)), Z.eqb_refl, (proj2 (Z.ltb_lt _ _)) by lia.
      rewrite andb_false_r. apply IH; [done|lia].
    + apply IH; [apply checked_newer; [done|lia]|lia].
  - rewrite bool_decide_eq_true_2 by done. cbn [outcome_bind unwrap andb fst].
    destruct (previous_total index (lockout_slot l)) as [b Hb]; [lia|]. rewrite Hb.
    cbn [outcome_bind]. destruct b; [done|].
    destruct (Z.compare_spec (lockout_slot l) a) as [Hr|Hr|Hr].
    + apply IH; [|lia]. apply (checked_found index hidx to_filter l h); [done..|by rewrite Hr].
    + destruct (Z.eqb_spec (Z.of_nat (S hidx)) (Z.of_nat (length hashes))); [|done].
      rewrite Hlast in Hr by lia. rewrite (proj2 (Z.leb_gt _ _)) by lia. rewrite andb_true_r.
      apply IH; [by apply checked_old|lia].
    + apply IH; [apply checked_newer; [done|lia]|lia].
Qed.

End check_update.

(** The lockouts whose index is not marked. *)
Fixpoint unmarked (index : Z) (marks : list Z) (lockouts : list Lockout) : list Lockout :=
  match lockouts with
  | [] => []
  | l :: ls => (if decide (index ∈ marks) then [] else [l]) ++ unmarked (index + 1) marks ls
  end.

Lemma unmarked_ext index f g ls :
  (forall i, index <= i -> i ∈ f <-> i ∈ g) -> unmarked index f ls = unmarked index g ls.
Proof.
  revert index. induction ls as [|l ls IH]; intros index H; simpl; [done|]. f_equal.
  - pose proof (H index (Z.le_refl _)). repeat case_decide; tauto.
  - apply IH. intros i Hi. apply H. lia.
Qed.

Lemma retain_unmarked index f ls :
  StronglySorted Z.lt f -> Forall (fun i => index <= i) f ->
  retain_lockouts index f ls = unmarked index f ls.
Proof.
  revert index f. induction ls as [|l ls IH]; intros index f Hs Hf; simpl; [done|].
  destruct f as [|i rest].
  - rewrite decide_False by set_solver. simpl. by rewrite IH.
  - inversion Hs as [|? ? Hs' Hlt]; subst. apply list.Forall_cons in Hf as [Hi Hf].
    rewrite list.Forall_forall in Hlt. destruct (Z.eqb_spec index i) as [->|Hne].
    + rewrite decide_True by set_solver. simpl. rewrite IH; [|done|].
      * apply unmarked_ext. intros k Hk. rewrite elem_of_cons. naive_solver lia.
      * apply list.Forall_forall. intros k Hk. specialize (Hlt k Hk). lia.
    + rewrite decide_False; [|intros [?|Hin]%elem_of_cons; [done|specialize (Hlt _ Hin); lia]].
      simpl. f_equal. apply IH; [done|]. apply list.Forall_cons. split; [lia|].
      apply list.Forall_forall. intros k Hk. specialize (Hlt k Hk). lia.
Qed.

Lemma unmarked_sublist index f ls : unmarked index f ls `sublist_of` ls.
Proof.
  revert index. induction ls as [|l ls IH]; intros index; simpl; [done|].
  case_decide; simpl; [by apply sublist_cons|by apply sublist_skip].
Qed.

Lemma unmarked_elem index f ls l :
  l ∈ unmarked index f ls -> exists k : nat, ls !! k = Some l /\ index + Z.of_nat k ∉ f.
Proof.
  revert index. induction ls as [|x ls IH]; intros index; simpl; [set_solver|].
  intros [Hl|Hl]%elem_of_app.
  - case_decide; [by apply elem_of_nil in Hl|]. apply list_elem_of_singleton in Hl as ->.
    exists O. split; [done|]. by rewrite Z.add_0_r.
  - destruct (IH _ Hl) as (k & Hk & Hn). exists (S k). split; [done|].
    by replace (index + Z.of_nat (S k)) with (index + 1 + Z.of_nat k) by lia.
Qed.

Lemma unmarked_last index f ls l :
  list.last ls = Some l -> index + (Z.of_nat (length ls) - 1) ∉ f ->
  list.last (unmarked index f ls) = Some l.
Proof.
  revert index. induction ls as [|x ls IH]; intros index Hl Hn; [done|].
  cbn [unmarked length] in *. rewrite last_cons in Hl. destruct (list.last ls) as [y|] eqn:Hy.
  - simplify_eq. rewrite last_app, IH; [done..|].
    by replace (index + 1 + (Z.of_nat (length ls) - 1)) with (index + (Z.of_nat (S (length ls)) - 1)) by lia.
  - apply last_None in Hy. subst. simplify_eq. simpl in *. rewrite app_nil_r.
    rewrite Z.add_0_r in Hn. by rewrite decide_False.
Qed.

(** ** Accepted updates *)

Record valid_update (s : VoteState) (hashes : list SlotHash) (u u' : VoteStateUpdate) : Prop := {
  valid_sublist : vsu_lockouts u' `sublist_of` vsu_lockouts u;
  valid_last : exists l, list.last (vsu_lockouts u) = Some l /\ list.last (vsu_lockouts u') = Some l /\
    (lockout_slot l, vsu_hash u) ∈ hashes /\
    forall v, list.last (votes s) = Some v -> landed_slot v < lockout_slot l;
  valid_fork : forall l, l ∈ vsu_lockouts u' -> exists earliest,
    fst <$> list.last hashes = Some earliest /\ on_fork s hashes earliest (lockout_slot l);
}.

Lemma overwrite_root_frame s earliest u :
  vsu_lockouts (overwrite_root s earliest u) = vsu_lockouts u /\
  vsu_hash (overwrite_root s earliest u) = vsu_hash u.
Proof.
  unfold overwrite_root. destruct (vsu_root u); [|done]. by destruct (_ <? _).
Qed.

Lemma valid_update_intro s hashes u u1 earliest l h0 (index hidx : nat) to_filter h :
  vsu_lockouts u1 = vsu_lockouts u -> list.last (vsu_lockouts u) = Some l ->
  match list.last (votes s) with Some v => lockout_slot l <=? landed_slot v | None => false end = false ->
  list.last hashes = Some (earliest, h0) -> earliest <= lockout_slot l ->
  checked s (vsu_lockouts u) hashes earliest index hidx to_filter ->
  index = length (vsu_lockouts u) -> hashes !! hidx = Some (lockout_slot l, h) -> h = vsu_hash u ->
  valid_update s hashes u (with_lockouts (retain_lockouts 0 to_filter (vsu_lockouts u1)) u1).
Proof.
  intros Elo Hl Hold Hlast Hrecent [_ _ Hsort Hf Hfork _] Hi Hh Hhash. subst h.
  assert (retain_lockouts 0 to_filter (vsu_lockouts u1) = unmarked 0 to_filter (vsu_lockouts u)) as Hret.
  { rewrite Elo. apply retain_unmarked; [done|]. eapply list.Forall_impl; [exact Hf|].
    intros i [? _]. lia. }
  split; simpl; rewrite Hret.
  - apply unmarked_sublist.
  - exists l. split_and!; [done| |by apply list_elem_of_lookup_2 in Hh|].
    + apply unmarked_last; [done|]. intros Hin. rewrite list.Forall_forall in Hf.
      destruct (Hf _ Hin) as [_ Hlt]. specialize (Hlt l). apply Z.lt_nge in Hlt; [done|].
      rewrite last_lookup in Hl. rewrite <-Hl. f_equal. lia.
    + intros v Hv. rewrite Hv in Hold. by apply Z.leb_gt in Hold.
  - intros x Hx. exists earliest. split; [by rewrite Hlast|].
    apply unmarked_elem in Hx as (k & Hk & Hn).
    destruct (Hfork k x) as [?|?]; [rewrite Hi; by apply lookup_lt_Some in Hk|done|done|done].
Qed.

Lemma check_update_wp s hashes u :
  wp (check_update_vote_state_slots_are_valid s hashes)
    (fun o u' => o <> Panic /\ (o = Ok tt -> valid_update s hashes u u')) u.
Proof.
  unfold check_update_vote_state_slots_are_valid. wp_step. wp_step. unfold id.
  destruct (list.last (vsu_lockouts u)) as [l|] eqn:Hl; [|by wp_step].
  destruct (match list.last (votes s) with Some v => lockout_slot l <=? landed_slot v | None => false end)
    eqn:Hold; [by wp_step|].
  destruct (list.last hashes) as [[earliest h0]|] eqn:Hlast; [|by wp_step].
  destruct (Z.ltb_spec (lockout_slot l) earliest) as [|Hrecent]; [by wp_step|].
  do 4 wp_step. unfold id. destruct (overwrite_root_frame s earliest u) as [Elo Eh].
  set (u1 := overwrite_root s earliest u) in *.
  assert (checked s (vsu_lockouts u1) hashes earliest 0 (length hashes) []) as Hstart.
  { apply checked_start. rewrite Elo. by intros Hnil; rewrite Hnil in Hl. }
  pose proof (check_update_loop_spec s (vsu_lockouts u1) hashes earliest ltac:(by rewrite Hlast)
    (check_update_fuel u1 hashes) (vsu_root u1) 0 (length hashes) [] Hstart) as Hloop.
  wp_step. wp_step. unfold vec_len at 1. change 0 with (Z.of_nat 0) at 1.
  assert (match vsu_root u1 with Some _ => 1 | None => 0 end + (length (vsu_lockouts u1) - 0) +
    length hashes < check_update_fuel u1 hashes)%nat as Hfuel
    by (unfold check_update_fuel; destruct (vsu_root u1); lia).
  specialize (Hloop Hfuel).
  destruct (check_update_loop _ _ _ _ _ _ _ _ _) as [[[i h] f]|e|] eqn:Hrun; [|done|done].
  destruct Hloop as (i' & h' & -> & -> & Hck). rewrite Elo in *. unfold vec_len.
  destruct (Z.eqb_spec (Z.of_nat i') (Z.of_nat (length (vsu_lockouts u)))) as [Hi|]; [|by wp_step].
  apply Nat2Z.inj in Hi. destruct (checked_last _ _ _ _ _ _ _ Hck Hi l Hl) as [?|[h Hh]]; [lia|].
  cbn [negb]. wp_step. wp_step. rewrite (vec_get_nat _ _ _ Hh). cbn [unwrap].
  rewrite Z.eqb_refl. cbn [negb]. case_bool_decide as Hhash; [by wp_step|].
  wp_step. split; [done|]. intros _. apply (valid_update_intro s hashes u u1 earliest l h0 i' h' f h); try done.
  rewrite <-Eh. by destruct (decide (h = vsu_hash u1)).
Qed.

(** The binary search of a tower finds exactly its slots. *)
Lemma contains_slot_spec s slot :
  linked (votes s) -> contains_slot s slot = true <-> slot ∈ tower s.
Proof.
  intros Hl. unfold contains_slot, tower.
  assert (searchable (fun vote => Z.compare (landed_slot vote) slot) (votes s)) as Hs.
  { intros i j x y Hij Hx Hy. destruct (linked_lt _ i j x y Hl Hx Hy Hij) as [Hlt _].
    rewrite !Z.compare_lt_iff, !Z.compare_gt_iff. lia. }
  pose proof (binary_search_by_spec _ _ Hs) as H.
  destruct (binary_search_by _ _) as [i|i]; simpl in H.
  - destruct H as (x & Hx & <-%Z.compare_eq). split; [|done]. intros _.
    apply list_elem_of_fmap_2. by apply list_elem_of_lookup_2 in Hx.
  - split; [done|]. intros (v & -> & [j Hj]%list_elem_of_lookup)%list_elem_of_fmap.
    destruct H as [_ H]. destruct (H j v Hj) as [Hlt Hgt]. rewrite Z.compare_refl in *.
    destruct (decide (j < i)%nat) as [Hji|Hji]; [by apply Hlt in Hji|].
    by assert (i <= j)%nat as Hij%Hgt by lia.
Qed.

(** ** Theorems *)

(** The types of a proposed tower. *)
Definition update_wf (u : VoteStateUpdate) : Prop :=
  Forall (fun l => in_range U64 (lockout_slot l) /\ in_range U32 (confirmation_count l)) (vsu_lockouts u).

Section update.
Context {Hfeatures : FeatureIds}.

Lemma update_wp hashes epoch slot u feature_set s :
  vote_state_ok s -> update_wf u ->
  wp (do_process_vote_state_update hashes epoch slot u feature_set)
    (fun o s' => o <> Panic /\ (o = Ok tt -> exists u', valid_update s hashes u u' /\
       replaced s (LandedVote_from <$> vsu_lockouts u') (vsu_root u') s')) s.
Proof.
  intros Hs Hwf. unfold do_process_vote_state_update. wp_step. wp_step. unfold id.
  pose proof (check_update_wp s hashes u) as Hc. unfold wp at 1 in Hc.
  destruct (check_update_vote_state_slots_are_valid s hashes u) as [checked u'].
  simpl in Hc. destruct Hc as [Hp Hv]. wp_step. wp_step. destruct checked as [[]|e|]; [|done|done].
  specialize (Hv eq_refl). pose proof Hv as [Hsub (l & _ & Hl & _) _].
  eapply wp_mono; [apply process_new_vote_state_wp; [done|..]|].
  - intros Hnil%fmap_nil_inv. by rewrite Hnil in Hl.
  - apply Forall_fmap, list.Forall_forall. intros x Hx. unfold update_wf in Hwf.
    rewrite list.Forall_forall in Hwf. destruct (Hwf x) as [Hslot [Hcount _]].
    + by eapply elem_of_sublist.
    + split_and!; [done|done|by split].
  - intros o s' [Hp' Hok]. split; [done|]. intros ->. exists u'. split; [done|]. by apply Hok.
Qed.

(** C13: a tower that is accepted takes nothing back.  The new state is well
    formed; its root is not older; its last slot is newer than every vote before
    and has the hash that was sent; its votes are among those proposed, on the fork
    of the slot hashes or voted for before; and each earlier vote that is newer than
    the root is still there, with at least as many confirmations and its latency,
    or its lockout had ended before the first newer vote. *)
Theorem tower_update_safe (hashes : list SlotHash) (epoch slot : Z) (u : VoteStateUpdate)
    (feature_set : option FeatureSet) (s s' : VoteState) :
  vote_state_ok s -> update_wf u ->
  do_process_vote_state_update hashes epoch slot u feature_set s = (Ok tt, s') ->
  vote_state_ok s' /\ root_le (root_slot s) (root_slot s') /\
  (exists l, last_voted_slot s' = Some l /\ (l, vsu_hash u) ∈ hashes /\ forall x, x ∈ tower s -> x < l) /\
  (forall v, v ∈ votes s' -> landed_lockout v ∈ vsu_lockouts u /\
     (landed_slot v ∈ hashes.*1 \/ landed_slot v ∈ tower s)) /\
  (forall c, c ∈ votes s -> newer_than_root (root_slot s') c ->
     kept (votes s') c \/ expired (votes s') c).
Proof.
  intros Hs Hwf Hrun. pose proof (update_wp hashes epoch slot u feature_set s Hs Hwf) as H.
  eapply wp_intro in H; [|done]. destruct H as [_ H]. destruct (H eq_refl) as (u' & Hv & Hrep).
  destruct Hv as [Hsub (l & _ & Hl & Hh & Hnew) Hfork]. destruct Hrep as [Hr Hrle Hok Hsame Hfate].
  destruct Hs as [[_ _ Hlink] _ _].
  assert (exists v, list.last (votes s') = Some v /\ landed_slot v = lockout_slot l) as (lv & Hlv & Hls).
  { pose proof (Forall2_length Hsame) as Hlen. rewrite length_fmap in Hlen.
    rewrite last_lookup in Hl. rewrite last_lookup, <-Hlen.
    eapply Forall2_lookup_l in Hsame as (w & Hw & E); [|by rewrite list_lookup_fmap, Hl].
    exists w. split; [done|]. by apply same_lockout_slot in E. }
  assert (forall x, x ∈ tower s -> x < lockout_slot l) as Hlast.
  { intros x (c & -> & Hc)%list_elem_of_fmap. destruct (list.last (votes s)) as [w|] eqn:Hw.
    - pose proof (linked_last _ c w Hlink Hc Hw). specialize (Hnew w eq_refl). lia.
    - apply last_None in Hw. rewrite Hw in Hc. by apply elem_of_nil in Hc. }
  rewrite Hr. split_and!; [done|done|..].
  - exists (lockout_slot l). split_and!; [|done..].
    unfold last_voted_slot, last_lockout. rewrite Hlv. simpl. by f_equal.
  - intros v Hvv. destruct (same_lockout_elem _ _ _ Hsame Hvv) as (w & Hw & E).
    apply list_elem_of_fmap in Hw as (x & -> & Hx). unfold same_lockout in E. simpl in E. subst x.
    split; [by eapply elem_of_sublist|]. destruct (Hfork _ Hx) as (e & _ & [?|[_ Hc]]); [by left|].
    right. by apply contains_slot_spec in Hc.
  - intros c Hc Hcr. destruct (Hfate c Hc Hcr) as [?|[?|Hf]]; [by left|by right|].
    rewrite list.Forall_forall in Hf. assert (lv ∈ votes s') as Hin by by apply last_Some_elem_of.
    specialize (Hf lv Hin). specialize (Hlast (landed_slot c) (list_elem_of_fmap_2 landed_slot _ _ Hc)). lia.
Qed.

(** C26: processing a tower ends, and in no panic: the loops run out of votes or
    slot hashes before they run out of steps, and none of the assertions and
    [expect]s can fail. *)
Theorem tower_update_total (hashes : list SlotHash) (epoch slot : Z) (u : VoteStateUpdate)
    (feature_set : option FeatureSet) (s : VoteState) :
  vote_state_ok s -> update_wf u ->
  outcome_of (do_process_vote_state_update hashes epoch slot u feature_set) s <> Panic.
Proof. intros Hs Hwf. apply (update_wp hashes epoch slot u feature_set s Hs Hwf). Qed.

End update.
