(* ===== verification/VoterRules.v ===== *)
(** * Authorized voters and credits

    The voters of a vote account are a function of the epoch, stored as the
    epochs in which it changes: caching an epoch's voter and purging old entries
    do not change it, and authorizing a new voter changes it from the target
    epoch on.  The history of credits is a running total, of which each entry
    keeps the total at the beginning and at the end of its epoch. *)

From S2P Require Import Prelude Errors Rent Account BTreeMap Sysvars FeatureSet VoteState.
From Stdlib Require Import Sorting.Sorted.

(** ** The voter of an epoch *)

(** The last entry up to the epoch. *)
Definition voter_at (m : list (Epoch * Pubkey)) (epoch : Epoch) : option Pubkey :=
  snd <$> list.last (filter (fun kv => kv.1 <= epoch) m).

Definition voters_ok (m : AuthorizedVoters) : Prop := btree_ok m /\ Forall (fun kv => 0 <= kv.1) m.

Lemma voters_sorted m : voters_ok m -> StronglySorted (fun a b : Epoch * Pubkey => a.1 < b.1) m.
Proof.
  intros [Hok _]. unfold btree_ok in Hok. induction m as [|kv m IH]; [constructor|].
  inversion Hok as [|? ? Hs Hf]; subst. constructor; [by apply IH|].
  apply list.Forall_forall. intros kv' Hin. rewrite list.Forall_forall in Hf.
  apply Z.compare_lt_iff, Hf. by apply (list_elem_of_fmap_2 fst m kv').
Qed.

Lemma voters_ok_cons kv m : voters_ok (kv :: m) -> voters_ok m /\ Forall (fun kv' => kv.1 < kv'.1) m.
Proof.
  intros Hok. pose proof (voters_sorted _ Hok) as Hs. inversion Hs; subst.
  destruct Hok as [Hb Hp]. inversion Hb; inversion Hp; subst. by split.
Qed.

Lemma filter_none {A} (P : A -> Prop) `{!forall x, Decision (P x)} (l : list A) :
  Forall (fun x => ~ P x) l -> filter P l = [].
Proof. induction 1; [done|]. by rewrite list.filter_cons, decide_False. Qed.

Lemma filter_ext_elem {A} (P Q : A -> Prop) `{!forall x, Decision (P x), !forall x, Decision (Q x)} (l : list A) :
  (forall x, x ∈ l -> P x <-> Q x) -> filter P l = filter Q l.
Proof.
  induction l as [|x l IH]; intros Hpq; [done|]. rewrite !list.filter_cons, IH by set_solver.
  pose proof (Hpq x ltac:(set_solver)). repeat case_decide; tauto.
Qed.

(** The entry of the epoch itself, or the last one before it. *)
Lemma voter_at_spec m epoch :
  voters_ok m ->
  voter_at m epoch =
  match btree_get epoch m with
  | Some voter => Some voter
  | None => snd <$> list.last (voters_before epoch m)
  end.
Proof.
  unfold voter_at, voters_before. induction m as [|[k v] m IH]; intros Hok; [done|].
  apply voters_ok_cons in Hok as Htail. destruct Htail as [Hm Hlt]. specialize (IH Hm).
  destruct Hok as [_ Hpos]. apply list.Forall_cons in Hpos as [Hk Hpos]. simpl in Hk.
  cbn [btree_get]. rewrite !list.filter_cons. simpl. case_bool_decide as He.
  - subst k. rewrite decide_True by lia. rewrite filter_none; [done|].
    eapply list.Forall_impl; [done|]. intros kv H. simpl in *. lia.
  - destruct (decide (k <= epoch)) as [Hle|Hle].
    + rewrite decide_True by lia. rewrite !last_cons.
      destruct (btree_get epoch m) as [w|].
      * destruct (list.last (filter _ m)) as [[? ?]|]; [done|discriminate IH].
      * destruct (list.last (filter (fun kv => kv.1 <= epoch) m)),
          (list.last (filter (fun kv => 0 <= kv.1 < epoch) m)); naive_solver.
    + rewrite decide_False by lia. done.
Qed.

Lemma get_authorized_voter_eq m epoch :
  voters_ok m -> AuthorizedVoters_get_authorized_voter epoch m = voter_at m epoch.
Proof.
  intros Hok. rewrite voter_at_spec by done.
  unfold AuthorizedVoters_get_authorized_voter, get_or_calculate_authorized_voter_for_epoch.
  destruct (btree_get epoch m); [done|]. by destruct (list.last _).
Qed.

Lemma filter_voters_ok (P : Epoch * Pubkey -> Prop) `{!forall x, Decision (P x)} m :
  voters_ok m -> voters_ok (filter P (m : list (Epoch * Pubkey))).
Proof.
  intros [Hb Hp]. split.
  2: { apply list.Forall_forall. intros kv [_ Hin]%list_elem_of_filter.
       rewrite list.Forall_forall in Hp. by apply Hp. }
  unfold btree_ok in *. induction m as [|kv m IH]; [constructor|].
  inversion Hb as [|? ? Hs Hf]; inversion Hp; subst. rewrite list.filter_cons.
  case_decide; [|by apply IH]. simpl. constructor; [by apply IH|].
  apply list.Forall_forall. intros k (kv' & -> & [_ Hin]%list_elem_of_filter)%list_elem_of_fmap.
  rewrite list.Forall_forall in Hf. apply Hf. by apply (list_elem_of_fmap_2 fst).
Qed.

(** The last entry is the one with the greatest epoch. *)
Lemma last_greatest (m : list (Epoch * Pubkey)) kv :
  voters_ok m -> list.last m = Some kv <-> kv ∈ m /\ forall kv', kv' ∈ m -> kv'.1 <= kv.1.
Proof.
  induction m as [|x m IH]; intros Hok; [set_solver|].
  apply voters_ok_cons in Hok as [Hm Hlt]. specialize (IH Hm). rewrite list.Forall_forall in Hlt.
  rewrite last_cons. destruct (list.last m) as [y|] eqn:Hy.
  - assert (y ∈ m) as Hin by by apply last_Some_elem_of.
    split.
    + intros [= ->]. destruct (proj1 IH eq_refl) as [_ Hmax]. split; [set_solver|].
      intros kv' [->|Hkv']%elem_of_cons; [|by apply Hmax]. specialize (Hlt _ Hin). lia.
    + intros [[->|Hkv]%elem_of_cons Hmax].
      * specialize (Hlt y Hin). specialize (Hmax y). destruct (Z.lt_irrefl y.1). eapply Z.le_lt_trans; [apply Hmax; set_solver|done].
      * apply IH. split; [done|]. set_solver.
  - apply last_None in Hy. subst. split.
    + intros [= ->]. split; [set_solver|]. intros kv' ->%list_elem_of_singleton. done.
    + intros [->%list_elem_of_singleton _]. done.
Qed.

Lemma voter_at_Some m epoch voter :
  voters_ok m ->
  voter_at m epoch = Some voter <->
  exists k, btree_get k m = Some voter /\ k <= epoch /\
    forall k', is_Some (btree_get k' m) -> k' <= epoch -> k' <= k.
Proof.
  intros Hok. unfold voter_at. rewrite fmap_Some. pose proof Hok as [Hb _].
  split.
  - intros ([k v] & Hl & ->). apply last_greatest in Hl as [[Hk Hin]%list_elem_of_filter Hmax];
      [|by apply filter_voters_ok].
    exists k. split_and!; [by apply btree_get_elem|done|].
    intros k' [w Hw%btree_get_elem] Hk'; [|done]. apply (Hmax (k', w)). by apply list_elem_of_filter.
  - intros (k & Hg%btree_get_elem & Hk & Hmax); [|done]. exists (k, voter). split; [|done].
    apply last_greatest; [by apply filter_voters_ok|]. split; [by apply list_elem_of_filter|].
    intros [k' w] [Hk' Hin]%list_elem_of_filter. simpl. apply Hmax; [|done].
    exists w. by apply btree_get_elem.
Qed.

(** ** Caching and purging *)

Lemma insert_voters_ok k v m : 0 <= k -> voters_ok m -> voters_ok (btree_insert k v m).
Proof.
  intros Hk [Hb Hp]. split; [by apply btree_update_ok|].
  apply list.Forall_forall. intros [k' v'] Hin. rewrite list.Forall_forall in Hp. simpl.
  assert (k' ∈ (btree_insert k v m).*1) as Hk' by by apply (list_elem_of_fmap_2 fst _ (k', v')).
  apply btree_update_keys in Hk' as [->|([k0 v0] & -> & Hin')%list_elem_of_fmap]; [done|].
  by apply (Hp (k0, v0)).
Qed.

Lemma insert_get k v m k' :
  voters_ok m -> btree_get k' (btree_insert k v m) = if bool_decide (k' = k) then Some v else btree_get k' m.
Proof. intros [Hb _]. by apply btree_get_update. Qed.

Lemma foldl_remove (m : list (Epoch * Pubkey)) ks :
  foldl (fun m key => btree_remove key m) m ks = filter (fun kv => kv.1 ∉ ks) m.
Proof.
  revert m. induction ks as [|k ks IH]; intros m; simpl.
  - symmetry. induction m; [done|]. rewrite list.filter_cons, decide_True by set_solver. congruence.
  - rewrite IH. unfold btree_remove. rewrite list_filter_filter. apply list_filter_iff. set_solver.
Qed.


Lemma filter_get (P : Epoch -> Prop) `{!forall x, Decision (P x)} (m : list (Epoch * Pubkey)) k :
  voters_ok m ->
  btree_get k (filter (fun kv => P kv.1) m) = if decide (P k) then btree_get k m else None.
Proof.
  intros Hok. apply option_eq. intros v. pose proof (filter_voters_ok (fun kv => P kv.1) m Hok) as [Hf _].
  pose proof Hok as [Hb _]. rewrite btree_get_elem by done. rewrite list_elem_of_filter. simpl.
  case_decide; [rewrite btree_get_elem by done|]; naive_solver.
Qed.

(** Entries before an epoch that has one of its own do not matter from then on. *)
Lemma voter_at_from current m m' :
  voters_ok m -> voters_ok m' -> is_Some (btree_get current m) ->
  (forall k, btree_get k m' = if decide (current <= k) then btree_get k m else None) ->
  forall epoch, current <= epoch -> voter_at m' epoch = voter_at m epoch.
Proof.
  intros Hok Hok' Hcur Hget epoch He. apply option_eq. intros v. rewrite !voter_at_Some by done.
  split; intros (k & Hg & Hk & Hmax); exists k.
  - rewrite Hget in Hg. case_decide; [|done]. split_and!; [done..|]. intros k' Hk' Hle.
    destruct (decide (current <= k')); [|lia]. apply Hmax; [|done]. by rewrite Hget, decide_True.
  - assert (current <= k) by by apply Hmax. rewrite Hget, decide_True by done. split_and!; [done..|].
    intros k'. rewrite Hget. case_decide; [apply Hmax|by intros []].
Qed.

Lemma purge_spec current m :
  voters_ok m -> is_Some (btree_get current m) ->
  exists m', purge_authorized_voters current m = Some m' /\ voters_ok m' /\
  forall k, btree_get k m' = if decide (current <= k) then btree_get k m else None.
Proof.
  intros Hok Hcur. unfold purge_authorized_voters. rewrite foldl_remove.
  assert (filter (fun kv => kv.1 ∉ (voters_before current m).*1) (m : list (Epoch * Pubkey)) =
          filter (fun kv => current <= kv.1) (m : list (Epoch * Pubkey))) as ->.
  { apply filter_ext_elem. intros [k v] Hin. simpl. unfold voters_before.
    destruct Hok as [_ Hp]. rewrite list.Forall_forall in Hp. specialize (Hp _ Hin). simpl in Hp.
    split.
    - intros Hk. apply Z.nlt_ge. intros Hlt. apply Hk. apply list_elem_of_fmap. exists (k, v).
      split; [done|]. by apply list_elem_of_filter.
    - intros Hle ([k' v'] & -> & [Hk' _]%list_elem_of_filter)%list_elem_of_fmap. simpl in *. lia. }
  pose proof (filter_get (fun k => current <= k) m) as Hget.
  assert (voters_ok (filter (fun kv => current <= kv.1) (m : list (Epoch * Pubkey)))) as Hf
    by by apply filter_voters_ok.
  destruct (filter (fun kv => current <= kv.1) (m : list (Epoch * Pubkey))) as [|x m'] eqn:Hm.
  - destruct Hcur as [v Hv]. specialize (Hget current Hok). rewrite decide_True, Hv in Hget by lia. done.
  - exists (x :: m'). split_and!; [done..|]. intros k. by apply Hget.
Qed.

Lemma cached_voter_at k voter m :
  voters_ok m -> 0 <= k -> voter_at m k = Some voter -> btree_get k m = None ->
  forall epoch, voter_at (btree_insert k voter m) epoch = voter_at m epoch.
Proof.
  intros Hok Hk Hv Hnone epoch. apply option_eq. intros v.
  pose proof (insert_voters_ok k voter m Hk Hok) as Hok'.
  apply voter_at_Some in Hv as (k0 & Hg0 & Hk0 & Hmax0); [|done].
  rewrite !voter_at_Some by done. setoid_rewrite (fun k' => insert_get k voter m k' Hok).
  assert (k0 < k) as Hlt.
  { destruct (decide (k0 = k)) as [->|]; [by rewrite Hnone in Hg0|lia]. }
  split; intros (k1 & Hg & Hk1 & Hmax).
  - case_bool_decide as Hkk.
    + subst k1. simplify_eq. exists k0. split_and!; [done|lia|]. intros k' Hk' Hle.
      destruct (decide (k' = k)) as [->|Hne]; [by rewrite Hnone in Hk'; destruct Hk'|].
      apply Hmax0; [done|]. apply Hmax; [|done]. by rewrite bool_decide_eq_false_2.
    + exists k1. split_and!; [done..|]. intros k' Hk'. apply Hmax.
      case_bool_decide; [by eexists|done].
  - destruct (decide (k <= epoch /\ k1 < k)) as [[He Hk1k]|Hn].
    + exists k. rewrite bool_decide_eq_true_2 by done.
      assert (k1 = k0) as -> by (apply Z.le_antisymm; [apply Hmax0; [by eexists|lia]|apply Hmax; [by eexists|lia]]).
      simplify_eq. split_and!; [done..|]. intros k'. case_bool_decide; [lia|]. intros Hk' Hle.
      etrans; [by apply Hmax|lia].
    + exists k1. assert (k1 <> k) by (intros ->; by rewrite Hnone in Hg).
      rewrite bool_decide_eq_false_2 by done. split_and!; [done..|]. intros k'.
      case_bool_decide; [lia|]. apply Hmax.
Qed.

Lemma new_voter_at k voter m :
  voters_ok m -> 0 <= k -> (forall k', is_Some (btree_get k' m) -> k' < k) ->
  forall epoch, voter_at (btree_insert k voter m) epoch = if decide (k <= epoch) then Some voter else voter_at m epoch.
Proof.
  intros Hok Hk Hlt epoch. pose proof (insert_voters_ok k voter m Hk Hok) as Hok'.
  case_decide as He.
  - apply voter_at_Some; [done|]. exists k. rewrite insert_get, bool_decide_eq_true_2 by done.
    split_and!; [done..|]. intros k'. rewrite insert_get by done. case_bool_decide; [lia|].
    intros Hk' _. specialize (Hlt k' Hk'). lia.
  - apply option_eq. intros v. rewrite !voter_at_Some by done. setoid_rewrite (fun k' => insert_get k voter m k' Hok).
    split; intros (k1 & Hg & Hk1 & Hmax); exists k1.
    + rewrite bool_decide_eq_false_2 in Hg by lia. split_and!; [done..|]. intros k' Hk'. apply Hmax.
      case_bool_decide; [by eexists|done].
    + rewrite bool_decide_eq_false_2 by lia. split_and!; [done..|]. intros k'.
      case_bool_decide; [lia|]. apply Hmax.
Qed.

(** ** The authorized voter of the current epoch *)

Lemma get_and_update_spec current s :
  voters_ok (authorized_voters s) -> 0 <= current ->
  match voter_at (authorized_voters s) current with
  | None => get_and_update_authorized_voter current s = (Err InvalidAccountData, s)
  | Some voter => exists m,
      get_and_update_authorized_voter current s = (Ok voter, with_authorized_voters m s) /\
      voters_ok m /\
      (forall epoch, current <= epoch -> voter_at m epoch = voter_at (authorized_voters s) epoch) /\
      (forall k, is_Some (btree_get k m) -> k = current \/ is_Some (btree_get k (authorized_voters s))) /\
      (forall k, current <= k -> btree_get k m = None -> btree_get k (authorized_voters s) = None)
  end.
Proof.
  intros Hok Hc. set (m := authorized_voters s) in *.
  unfold get_and_update_authorized_voter, bind, gets, id, lift, modify, ret. fold m.
  unfold get_and_cache_authorized_voter_for_epoch, get_or_calculate_authorized_voter_for_epoch.
  pose proof (voter_at_spec m current Hok) as Hspec.
  destruct (btree_get current m) as [voter|] eqn:Hg.
  - rewrite Hspec. destruct (purge_spec current m Hok ltac:(by eexists)) as (m' & Hp & Hok' & Hget).
    simpl. rewrite Hp. simpl. exists m'. split_and!; [done|done|..].
    + by apply (voter_at_from current m m'); [..|by eexists|].
    + intros k. rewrite Hget. case_decide; [by right|by intros []].
    + intros k Hk. by rewrite Hget, decide_True.
  - destruct (list.last (voters_before current m)) as [[k0 voter]|] eqn:Hl; simpl in *.
    2: { rewrite Hspec. f_equal. unfold m. by destruct s. }
    rewrite Hspec. set (m1 := btree_insert current voter m).
    pose proof (insert_voters_ok current voter m Hc Hok) as Hok1. fold m1 in Hok1.
    assert (is_Some (btree_get current m1)) as Hcur.
    { unfold m1. rewrite insert_get, bool_decide_eq_true_2 by done. by eexists. }
    destruct (purge_spec current m1 Hok1 Hcur) as (m' & Hp & Hok' & Hget). rewrite Hp. simpl.
    exists m'. split_and!; [done|done|..].
    + intros epoch He. rewrite (voter_at_from current m1 m') by done. by apply cached_voter_at.
    + intros k. rewrite Hget. case_decide; [|by intros []]. unfold m1. rewrite insert_get by done.
      case_bool_decide; [by left|by right].
    + intros k Hk. rewrite Hget, decide_True by done. unfold m1. rewrite insert_get by done.
      by case_bool_decide.
Qed.

(** ** Authorizing a new voter *)

Definition circ_ok {I} (c : CircBuf I) : Prop := vec_len (buf c) = MAX_ITEMS /\ 0 <= idx c < MAX_ITEMS.

Lemma circ_append_ok {I} (c : CircBuf I) item :
  circ_ok c -> exists c', CircBuf_append item c = Some c' /\ circ_ok c'.
Proof.
  intros [Hl Hi]. unfold CircBuf_append, checked_add, checked, MAX_ITEMS in *.
  rewrite decide_True by (unfold in_range; simpl; lia). simpl.
  destruct (proj2 (vec_get_is_Some (buf c) ((idx c + 1) mod 32))) as [x Hx].
  { rewrite Hl. apply Z.mod_pos_bound. lia. }
  rewrite Hx. eexists. split; [done|]. split; simpl; [by rewrite vec_len_set|].
  unfold MAX_ITEMS. apply Z.mod_pos_bound. lia.
Qed.

Lemma circ_last_ok {I E} (c : CircBuf I) : circ_ok c -> exists o, CircBuf_last (E:=E) c = Ok o.
Proof.
  intros [Hl Hi]. unfold CircBuf_last. destruct (is_empty c); [by eexists|].
  destruct (proj2 (vec_get_is_Some (buf c) (idx c))) as [x Hx]; [by rewrite Hl|].
  rewrite Hx. by eexists.
Qed.

Record voter_state_ok (s : VoteState) : Prop := {
  state_voters : voters_ok (authorized_voters s);
  state_prior : circ_ok (prior_voters s);
}.

Definition not_after (target : Epoch) (s : VoteState) : Prop :=
  Forall (fun kv => kv.1 <= target) (authorized_voters s).

Lemma not_after_get target s k :
  voter_state_ok s -> not_after target s -> is_Some (btree_get k (authorized_voters s)) -> k <= target.
Proof.
  intros [[Hb _] _] Hn [v Hv%btree_get_elem]; [|done]. unfold not_after in Hn.
  rewrite list.Forall_forall in Hn. by apply (Hn (k, v)).
Qed.

(** The part after the current voter was found and [verify] agreed. *)
Definition commit_voter (pubkey : Pubkey) (target : Epoch) : M VoteState InstructionError unit :=
  let? self := gets id in
  if AuthorizedVoters_contains target (authorized_voters self)
  then fail (VoteError.into VoteError.TooSoonToReauthorize)
  else
    let? latest := lift (ok_or InvalidAccountData (AuthorizedVoters_last (authorized_voters self))) in
    let (latest_epoch, latest_authorized_pubkey) := latest : Epoch * Pubkey in
    (if bool_decide (latest_authorized_pubkey <> pubkey) then
       let? range := lift (CircBuf_last (prior_voters self)) in
       let epoch_of_last_authorized_switch := default 0 (snd <$> range) in
       if target <=? latest_epoch then panic
       else
         let? prior := lift (unwrap (CircBuf_append
           (latest_authorized_pubkey, epoch_of_last_authorized_switch, target)
           (prior_voters self))) in
         modify (with_prior_voters prior)
     else ret tt) ;?
    modify (fun self => with_authorized_voters
      (btree_insert target pubkey (authorized_voters self)) self).

Lemma set_new_authorized_voter_eq pubkey current target verify :
  set_new_authorized_voter pubkey current target verify =
  (let? voter := get_and_update_authorized_voter current in
   lift (verify voter) ;? commit_voter pubkey target).
Proof. done. Qed.

Lemma commit_voter_wp pubkey target s :
  voter_state_ok s -> 0 <= target ->
  (forall k, is_Some (btree_get k (authorized_voters s)) -> k <= target) ->
  wp (commit_voter pubkey target) (fun o s' => o <> Panic /\ voter_state_ok s' /\
    (o <> Ok tt -> s' = s) /\
    (o = Ok tt -> btree_get target (authorized_voters s) = None /\
       authorized_voters s' = btree_insert target pubkey (authorized_voters s))) s.
Proof.
  intros Hs Ht Hle. pose proof Hs as [Hok Hc]. unfold commit_voter, AuthorizedVoters_contains.
  wp_step. wp_step. change (id s) with s. case_bool_decide as Hcont; [by wp_step|].
  assert (btree_get target (authorized_voters s) = None) as Hnone by by apply eq_None_not_Some.
  wp_step. wp_step. unfold AuthorizedVoters_last.
  destruct (list.last (authorized_voters s)) as [[latest_epoch latest]|] eqn:Hlast; [|done]. simpl.
  assert (latest_epoch < target) as Hlt.
  { apply last_greatest in Hlast as [Hin _]; [|done]. apply btree_get_elem in Hin; [|apply Hok].
    destruct (decide (latest_epoch = target)) as [->|]; [by rewrite Hnone in Hin|].
    assert (latest_epoch <= target); [|lia]. apply Hle. by eexists. }
  wp_step. case_bool_decide as Hsame; [|wp_step; wp_step; split_and!; try done; split; simpl; [|done];
    by apply insert_voters_ok].
  destruct (circ_last_ok (E:=InstructionError) (prior_voters s) Hc) as [range Hrange].
  wp_step. wp_step. rewrite Hrange. rewrite (proj2 (Z.leb_gt _ _)) by done. cbv iota.
  destruct (circ_append_ok (prior_voters s) (latest, default 0 (snd <$> range), target) Hc)
    as (c' & Hc' & Hok'). wp_step. wp_step. rewrite Hc'. cbn [unwrap]. wp_step. wp_step.
  split_and!; try done. split; simpl; [by apply insert_voters_ok|done].
Qed.

(** Authorizing a voter is an update of the function from epochs to voters.
    From the current epoch on, a call that succeeds leaves the voters before the
    target epoch as they were and makes the new key the voter from then on; the
    current voter was the one [verify] was asked about, and no voter had been set
    for the target epoch.  A call that fails changes no voter, and none panics: the
    [assert!]s on the entries and on the order of the epochs hold. *)
Theorem authorize_voter_refines (pubkey : Pubkey) (current target : Epoch)
    (verify : Pubkey -> Outcome InstructionError unit) (s s' : VoteState)
    (o : Outcome InstructionError unit) :
  voter_state_ok s -> 0 <= current <= target -> not_after target s ->
  (forall voter, verify voter <> Panic) ->
  set_new_authorized_voter pubkey current target verify s = (o, s') ->
  o <> Panic /\ voter_state_ok s' /\
  (o = Ok tt -> (exists voter, get_authorized_voter s current = Some voter /\ verify voter = Ok tt) /\
     btree_get target (authorized_voters s) = None) /\
  (forall epoch, current <= epoch -> get_authorized_voter s' epoch =
     if is_ok o && (target <=? epoch) then Some pubkey else get_authorized_voter s epoch).
Proof.
  intros Hs [Hc Ht] Hn Hv Hrun. pose proof Hs as [Hok Hprior]. unfold get_authorized_voter.
  setoid_rewrite (fun e => get_authorized_voter_eq (authorized_voters s) e Hok).
  rewrite set_new_authorized_voter_eq in Hrun. unfold bind at 1 in Hrun.
  pose proof (get_and_update_spec current s Hok Hc) as Hget.
  destruct (voter_at (authorized_voters s) current) as [voter|] eqn:Hvoter.
  2: { rewrite Hget in Hrun. simplify_eq. split_and!; [done..|]. intros e He.
       by rewrite get_authorized_voter_eq. }
  destruct Hget as (m & Hget & Hokm & Hfun & Hkeys & Hfree). rewrite Hget in Hrun.
  set (s1 := with_authorized_voters m s) in *.
  assert (voter_state_ok s1) as Hs1 by by split.
  unfold bind, lift in Hrun. destruct (verify voter) as [[]|e|] eqn:Hver; cycle 1; [|by destruct (Hv voter)|].
  { simplify_eq. split_and!; [done..|]. intros e0 He.
    rewrite get_authorized_voter_eq by done. by apply Hfun. }
  assert (forall k, is_Some (btree_get k m) -> k <= target) as Hle.
  { intros k [->|Hk]%Hkeys; [done|]. by apply (not_after_get target s). }
  pose proof (commit_voter_wp pubkey target s1 Hs1 ltac:(lia) Hle) as Hwp.
  eapply wp_intro in Hwp; [|done]. destruct Hwp as (Hp & Hs' & Herr & Hsucc).
  pose proof Hs' as [Hok' _]. setoid_rewrite (fun e => get_authorized_voter_eq _ e Hok').
  destruct o as [[]|err|]; [|rewrite (Herr ltac:(done)) in *|done].
  - destruct (Hsucc eq_refl) as [Hnone Heq]. simpl in Hnone, Heq. split_and!; [done|done| |].
    + intros _. split; [by exists voter|]. by apply Hfree.
    + intros e He. rewrite Heq, new_voter_at; [|done|lia|].
      * rewrite Hfun by done. simpl. destruct (Z.leb_spec target e); case_decide; done || lia.
      * intros k Hk. specialize (Hle k Hk). destruct (decide (k = target)) as [->|]; [|lia].
        rewrite Hnone in Hk. by destruct Hk.
  - split_and!; [done|done|done|]. intros e He. by apply Hfun.
Qed.

(** ** Credits *)

Abbreviation CreditEntry := (Epoch * Z * Z)%type.

(** An entry begins with the total at which the one before it ends. *)
Record credits_ok (history : list CreditEntry) : Prop := {
  credits_length : vec_len history <= MAX_EPOCH_CREDITS_HISTORY;
  credits_range : Forall (fun '(_, c, p) => 0 <= p <= c /\ c <= int_max U64) history;
  credits_chain : forall i e c p e' c' p', history !! i = Some (e, c, p) ->
    history !! S i = Some (e', c', p') -> p' = c;
}.

(** The credits of the last epoch. *)
Definition epoch_earned (history : list CreditEntry) : Z :=
  match list.last history with Some (_, c, p) => c - p | None => 0 end.

(** Without the bound on the length, which dropping the oldest entry restores. *)
Record credits_chained (history : list CreditEntry) : Prop := {
  chained_range : Forall (fun '(_, c, p) => 0 <= p <= c /\ c <= int_max U64) history;
  chained_chain : forall i e c p e' c' p', history !! i = Some (e, c, p) ->
    history !! S i = Some (e', c', p') -> p' = c;
}.

Lemma chained_snoc history e c p :
  credits_chained history -> 0 <= p <= c -> c <= int_max U64 ->
  (forall e0 c0 p0, list.last history = Some (e0, c0, p0) -> p = c0) ->
  credits_chained (history ++ [(e, c, p)]).
Proof.
  intros [Hr Hc] Hp Hm Hlast. split; [apply list.Forall_app; by split; [|constructor]|].
  intros i e1 c1 p1 e2 c2 p2 H1 H2. destruct (decide (S i < length history)%nat) as [Hi|Hi].
  - rewrite lookup_app_l in H1, H2 by lia. by eapply Hc.
  - apply lookup_lt_Some in H2 as Hlt. rewrite length_app in Hlt. simpl in Hlt.
    assert (S i = length history) as Hn by lia. rewrite Hn, list_lookup_middle in H2 by done. simplify_eq.
    apply (Hlast e1 c1 p1). rewrite last_lookup, <-Hn. simpl. by rewrite lookup_app_l in H1 by lia.
Qed.

Lemma chained_prefix history x : credits_chained (history ++ [x]) -> credits_chained history.
Proof.
  intros [Hr Hc]. split; [by apply list.Forall_app in Hr as [? _]|].
  intros i e c p e' c' p' H1 H2. apply (Hc i e c p e' c' p'); by apply lookup_app_l_Some.
Qed.

Lemma chained_tail x history : credits_chained (x :: history) -> credits_chained history.
Proof.
  intros [Hr Hc]. split; [by apply list.Forall_cons in Hr as [_ ?]|]. intros i. apply (Hc (S i)).
Qed.

(** Replacing the last entry by one that begins at the same total. *)
Lemma chained_set_last history e c p e' c' :
  credits_chained (history ++ [(e, c, p)]) -> c <= c' <= int_max U64 ->
  credits_chained (history ++ [(e', c', p)]).
Proof.
  intros H Hc. apply chained_snoc; [by apply chained_prefix in H|..]; destruct H as [Hr Hch].
  - apply list.Forall_app in Hr as [_ Hr]. apply list.Forall_cons in Hr as [[? ?] _]. lia.
  - lia.
  - intros e0 c0 p0 Hlast. rewrite last_lookup in Hlast. destruct (length history) as [|n] eqn:Hn.
    { by apply length_zero_iff_nil in Hn as ->. }
    simpl in Hlast. eapply (Hch n e0 c0 p0 e c p).
    + rewrite lookup_app_l by lia. done.
    + by rewrite list_lookup_middle.
Qed.

Lemma set_last_snoc {A} (l : list A) x y : set_last y (l ++ [x]) = l ++ [y].
Proof. unfold set_last. by rewrite removelast_last. Qed.

(** Entering an epoch: its entry is the last, and the total is the same. *)
Lemma enter_epoch_spec epoch history :
  credits_ok history ->
  exists history' c p, enter_epoch epoch history = history' ++ [(epoch, c, p)] /\
  credits_chained (history' ++ [(epoch, c, p)]) /\
  vec_len (history' ++ [(epoch, c, p)]) <= MAX_EPOCH_CREDITS_HISTORY /\
  c = match list.last history with Some (_, c, _) => c | None => 0 end /\
  c - p = match list.last history with
          | Some (e, _, _) => if epoch =? e then epoch_earned history else 0
          | None => 0
          end.
Proof.
  intros [Hlen Hr Hc]. assert (credits_chained history) as Hch by by split.
  unfold enter_epoch, epoch_earned. destruct history as [|[[e c] p] h _] using rev_ind.
  { exists [], 0, 0. split_and!; try done. split; [by repeat constructor|]. by intros [|i] ????????. }
  rewrite last_snoc. unfold vec_len in Hlen. rewrite length_app in Hlen. simpl in Hlen.
  destruct (Z.eqb_spec epoch e) as [->|He].
  { exists h, c, p. split_and!; try done. unfold vec_len. rewrite length_app. simpl. lia. }
  apply list.Forall_app in Hr as [_ Hr]. apply list.Forall_cons in Hr as [[Hp Hm] _].
  destruct (Z.eqb_spec c p) as [->|Hne]; simpl.
  - rewrite set_last_snoc. unfold vec_len. rewrite length_app. simpl.
    rewrite (proj2 (Z.ltb_ge _ _)) by lia. exists h, p, p.
    split_and!; [done|by eapply chained_set_last|rewrite length_app; simpl; lia|done|lia].
  - assert (credits_chained ((h ++ [(e, c, p)]) ++ [(epoch, c, c)])) as Hsnoc.
    { apply chained_snoc; [done|lia|done|]. intros ???. rewrite last_snoc. naive_solver. }
    unfold vec_len. rewrite length_app. destruct (Z.ltb_spec MAX_EPOCH_CREDITS_HISTORY
      (Z.of_nat (length (h ++ [(e, c, p)]) + length [(epoch, c, c)]))) as [Hfull|Hfull];
      rewrite length_app in Hfull; simpl in Hfull.
    + destruct h as [|x h]; [unfold MAX_EPOCH_CREDITS_HISTORY in *; simpl in Hfull; lia|].
      exists (h ++ [(e, c, p)]), c, c. split_and!; [done|by apply chained_tail in Hsnoc| |done|lia].
      rewrite !length_app. simpl in *. lia.
    + exists (h ++ [(e, c, p)]), c, c. split_and!; [done|done| |done|lia].
      rewrite !length_app. simpl in *. lia.
Qed.

(** Credits are counted exactly.  Unless the total would pass the range of
    [u64], [increment_credits] adds the credits to the total and to those of the
    epoch, which starts from none if it is a new one; the history stays a chain
    of totals, of at most 64 epochs, whose last is the epoch given. *)
Theorem credits_exact (epoch : Epoch) (earned : Z) (s : VoteState) :
  credits_ok (epoch_credits s) -> 0 <= earned -> credits s + earned <= int_max U64 ->
  let s' := increment_credits epoch earned s in
  credits_ok (epoch_credits s') /\ credits s' = credits s + earned /\ current_epoch s' = epoch /\
  epoch_earned (epoch_credits s') =
    (if epoch =? current_epoch s then epoch_earned (epoch_credits s) else 0) + earned.
Proof.
  intros Hok He Hmax s'. unfold s', increment_credits.
  destruct (enter_epoch_spec epoch (epoch_credits s) Hok) as (h & c & p & -> & Hch & Hlen & Hc & Hd).
  rewrite last_snoc, set_last_snoc. unfold credits, current_epoch, epoch_earned in *. simpl.
  rewrite last_snoc. rewrite <-Hc in Hmax |- *.
  assert (0 <= c) as Hpos.
  { destruct Hch as [Hr _]. apply list.Forall_app in Hr as [_ Hr].
    apply list.Forall_cons in Hr as [[? ?] _]. lia. }
  unfold saturating_add. rewrite saturating_small by (unfold in_range; simpl in *; lia).
  split_and!; [|done|done|].
  - destruct (chained_set_last h epoch c p epoch (c + earned) Hch) as [Hr Hc']; [lia|].
    split; [|done..]. unfold vec_len in *. rewrite length_app in *. done.
  - destruct (list.last (epoch_credits s)) as [[[e c0] p0]|]; [lia|].
    destruct (epoch =? 0); lia.
Qed.
