(* ===== verification/Message.v ===== *)
(** * Messages (sdk/program/src/message)

    The two formats of a transaction's message, the list of account keys they
    are about, how a message is compiled from instructions, and what it says of
    each account: whether it signs and whether it may be written.

    The addresses that the source parses from base58 at run time are a type
    class, as those of [ProgramIds] are. *)

From S2P Require Import Prelude Errors Rent Account BTreeMap Pubkey Sysvars EpochSchedule Nonce TransactionContext SysvarCache SystemProgram InvokeContext.

Class MessageIds := {
  config_program_id : Pubkey;
  feature_id : Pubkey;
  stake_program_id : Pubkey;
  stake_config_id : Pubkey;
  vote_program_id : Pubkey;
  bpf_loader_id : Pubkey;
  bpf_loader_deprecated_id : Pubkey;
  bpf_loader_upgradeable_id : Pubkey;
  sysvar_rewards_id : Pubkey;
  sysvar_slot_history_id : Pubkey;
}.

Inductive SanitizeError : Type := IndexOutOfBounds | ValueOutOfBounds | InvalidValue.

Record MessageHeader := mkMessageHeader {
  num_required_signatures : Z;
  num_readonly_signed_accounts : Z;
  num_readonly_unsigned_accounts : Z;
}.

Record CompiledInstruction := mkCompiledInstruction {
  program_id_index : Z;
  ci_accounts : list Z;
  ci_data : Bytes;
}.

Record Instruction := mkInstruction {
  ix_program_id : Pubkey;
  ix_accounts : list AccountMeta;
  ix_data : Bytes;
}.

(** [u8::try_from(i)] *)
Definition try_u8 (i : Z) : option Z := checked U8 i.

(** ** Keys that are never write-locked *)

Section reserved.
Context `{!ProgramIds, !MessageIds}.

Definition BUILTIN_PROGRAMS_KEYS : list Pubkey :=
  [config_program_id; feature_id; native_loader_id; stake_program_id; stake_config_id;
   vote_program_id; system_program_id; bpf_loader_id; bpf_loader_deprecated_id;
   bpf_loader_upgradeable_id].

Definition ALL_IDS : list Pubkey :=
  [sysvar_clock_id; sysvar_epoch_schedule_id; sysvar_fees_id; sysvar_recent_blockhashes_id;
   sysvar_rent_id; sysvar_rewards_id; sysvar_slot_hashes_id; sysvar_slot_history_id;
   sysvar_stake_history_id; sysvar_instructions_id].

Definition is_sysvar_id (id : Pubkey) : bool := existsb (fun key => bool_decide (key = id)) ALL_IDS.

(** The first byte of an address, which the table is indexed with. *)
Definition first_byte (key : Pubkey) : Z := default 0 (head key).

Definition MAYBE_BUILTIN_KEY_OR_SYSVAR : list bool :=
  let temp_table := replicate 256 false in
  let temp_table := foldl (fun table key => vec_set (first_byte key) true table)
                      temp_table BUILTIN_PROGRAMS_KEYS in
  foldl (fun table key => vec_set (first_byte key) true table) temp_table ALL_IDS.

(** An address has 32 bytes, so that the look-up in the table is in range. *)
Definition is_builtin_key_or_sysvar (key : Pubkey) : bool :=
  if default false (vec_get MAYBE_BUILTIN_KEY_OR_SYSVAR (first_byte key)) then
    is_sysvar_id key || existsb (fun k => bool_decide (k = key)) BUILTIN_PROGRAMS_KEYS
  else false.

End reserved.

(** ** Compiling keys (compiled_keys.rs) *)

Inductive CompileError : Type :=
| AccountIndexOverflow
| AddressTableLookupIndexOverflow
| UnknownInstructionKey (key : Pubkey).

Record CompiledKeyMeta := mkCompiledKeyMeta {
  cm_is_signer : bool;
  cm_is_writable : bool;
  cm_is_invoked : bool;
}.

Definition CompiledKeyMeta_default : CompiledKeyMeta := mkCompiledKeyMeta false false false.

Record CompiledKeys := mkCompiledKeys {
  ck_payer : option Pubkey;
  key_meta_map : BTreeMap Pubkey CompiledKeyMeta;
}.

(** [key_meta_map.entry(key).or_default()] and what is done to it. *)
Definition update_meta (key : Pubkey) (f : CompiledKeyMeta -> CompiledKeyMeta)
  : BTreeMap Pubkey CompiledKeyMeta -> BTreeMap Pubkey CompiledKeyMeta :=
  btree_update CompiledKeyMeta_default key f.

Definition set_invoked (meta : CompiledKeyMeta) : CompiledKeyMeta :=
  mkCompiledKeyMeta (cm_is_signer meta) (cm_is_writable meta) true.
Definition add_meta (account_meta : AccountMeta) (meta : CompiledKeyMeta) : CompiledKeyMeta :=
  mkCompiledKeyMeta (cm_is_signer meta || meta_is_signer account_meta)
    (cm_is_writable meta || meta_is_writable account_meta) (cm_is_invoked meta).
Definition set_payer (meta : CompiledKeyMeta) : CompiledKeyMeta :=
  mkCompiledKeyMeta true true (cm_is_invoked meta).

Definition compile_one (map : BTreeMap Pubkey CompiledKeyMeta) (ix : Instruction) : BTreeMap Pubkey CompiledKeyMeta :=
  foldl (fun map account_meta => update_meta (meta_pubkey account_meta) (add_meta account_meta) map)
    (update_meta (ix_program_id ix) set_invoked map) (ix_accounts ix).

Definition compile (instructions : list Instruction) (payer : option Pubkey) : CompiledKeys :=
  let map := foldl compile_one [] instructions in
  mkCompiledKeys payer
    match payer with
    | Some payer => update_meta payer set_payer map
    | None => map
    end.

(** The keys whose metas pass a test, in the order of the map. *)
Definition filter_keys (p : CompiledKeyMeta -> bool) (map : BTreeMap Pubkey CompiledKeyMeta) : list Pubkey :=
  omap (fun '(key, meta) => if p meta then Some key else None) map.

Definition try_into_message_components (self : CompiledKeys)
  : Outcome CompileError (MessageHeader * list Pubkey) :=
  let map := match ck_payer self with
             | Some payer => btree_remove payer (key_meta_map self)
             | None => key_meta_map self
             end in
  let writable_signer_keys := option_list (ck_payer self) ++
    filter_keys (fun meta => cm_is_signer meta && cm_is_writable meta) map in
  let readonly_signer_keys :=
    filter_keys (fun meta => cm_is_signer meta && negb (cm_is_writable meta)) map in
  let writable_non_signer_keys :=
    filter_keys (fun meta => negb (cm_is_signer meta) && cm_is_writable meta) map in
  let readonly_non_signer_keys :=
    filter_keys (fun meta => negb (cm_is_signer meta) && negb (cm_is_writable meta)) map in
  let signers_len := saturating_add USIZE (vec_len writable_signer_keys) (vec_len readonly_signer_keys) in
  let! signers := ok_or AccountIndexOverflow (try_u8 signers_len) in
  let! readonly_signed := ok_or AccountIndexOverflow (try_u8 (vec_len readonly_signer_keys)) in
  let! readonly_unsigned := ok_or AccountIndexOverflow (try_u8 (vec_len readonly_non_signer_keys)) in
  Ok (mkMessageHeader signers readonly_signed readonly_unsigned,
      writable_signer_keys ++ readonly_signer_keys ++ writable_non_signer_keys ++
      readonly_non_signer_keys).

(** ** The account keys of a message (account_keys.rs) *)

Record LoadedAddresses := mkLoadedAddresses {
  la_writable : list Pubkey;
  la_readonly : list Pubkey;
}.

Definition LoadedAddresses_from_iter (iter : list LoadedAddresses) : LoadedAddresses :=
  mkLoadedAddresses (mjoin (la_writable <$> iter)) (mjoin (la_readonly <$> iter)).

Record AccountKeys := mkAccountKeys {
  static_keys : list Pubkey;
  dynamic_keys : option LoadedAddresses;
}.

Definition key_segment_iter (self : AccountKeys) : list (list Pubkey) :=
  match dynamic_keys self with
  | Some dynamic_keys => [static_keys self; la_writable dynamic_keys; la_readonly dynamic_keys]
  | None => [static_keys self; []; []]
  end.

Fixpoint get_loop (segments : list (list Pubkey)) (index : Z) : option Pubkey :=
  match segments with
  | [] => None
  | key_segment :: segments =>
      if index <? vec_len key_segment then vec_get key_segment index
      else get_loop segments (saturating_sub USIZE index (vec_len key_segment))
  end.

Definition AccountKeys_get (self : AccountKeys) (index : Z) : option Pubkey :=
  get_loop (key_segment_iter self) index.

Definition AccountKeys_len (self : AccountKeys) : Z :=
  foldl (fun len key_segment => saturating_add USIZE len (vec_len key_segment)) 0
    (key_segment_iter self).

Definition AccountKeys_iter (self : AccountKeys) : list Pubkey := mjoin (key_segment_iter self).

(** The map from keys to their indices: a key that occurs again gets its last
    index. *)
Fixpoint account_index_map (index : Z) (keys : list Pubkey) (map : gmap Pubkey Z)
  : Outcome CompileError (gmap Pubkey Z) :=
  match keys with
  | [] => Ok map
  | key :: keys =>
      let! i := ok_or AccountIndexOverflow (try_u8 index) in
      account_index_map (index + 1) keys (<[key := i]> map)
  end.

Definition get_account_index (map : gmap Pubkey Z) (key : Pubkey) : Outcome CompileError Z :=
  ok_or (UnknownInstructionKey key) (map !! key).

(** [iter.map(f).collect::<Result<Vec<_>, _>>()] *)
Fixpoint try_collect {E A B} (f : A -> Outcome E B) (l : list A) : Outcome E (list B) :=
  match l with
  | [] => Ok []
  | x :: l => let! y := f x in let! ys := try_collect f l in Ok (y :: ys)
  end.

Definition try_compile_instruction (map : gmap Pubkey Z) (ix : Instruction)
  : Outcome CompileError CompiledInstruction :=
  let! accounts := try_collect (fun meta => get_account_index map (meta_pubkey meta)) (ix_accounts ix) in
  let! program_id_index := get_account_index map (ix_program_id ix) in
  Ok (mkCompiledInstruction program_id_index accounts (ix_data ix)).

Definition try_compile_instructions (self : AccountKeys) (instructions : list Instruction)
  : Outcome CompileError (list CompiledInstruction) :=
  let! map := account_index_map 0 (AccountKeys_iter self) ∅ in
  try_collect (try_compile_instruction map) instructions.

(** ** What both formats ask of the instructions *)

Definition called_as_program (instructions : list CompiledInstruction) (key_index : Z) : bool :=
  match try_u8 key_index with
  | Some key_index => existsb (fun ix => program_id_index ix =? key_index) instructions
  | None => false
  end.

Definition passed_to_program (instructions : list CompiledInstruction) (key_index : Z) : bool :=
  match try_u8 key_index with
  | Some key_index => existsb (fun ix => existsb (Z.eqb key_index) (ci_accounts ix)) instructions
  | None => false
  end.

(** ** Legacy messages (legacy.rs) *)

Module Legacy.

Record Message := mkMessage {
  header : MessageHeader;
  account_keys : list Pubkey;
  recent_blockhash : Hash;
  instructions : list CompiledInstruction;
}.

(** The checks on one instruction; [len] is the number of account keys. *)
Definition sanitize_instruction (len : Z) (ci : CompiledInstruction) : Outcome SanitizeError unit :=
  if len <=? program_id_index ci then Err IndexOutOfBounds
  else if program_id_index ci =? 0 then Err IndexOutOfBounds
  else if existsb (fun ai => len <=? ai) (ci_accounts ci) then Err IndexOutOfBounds
  else Ok tt.

Fixpoint sanitize_instructions (len : Z) (cis : list CompiledInstruction) : Outcome SanitizeError unit :=
  match cis with
  | [] => Ok tt
  | ci :: cis => let! _unused := sanitize_instruction len ci in sanitize_instructions len cis
  end.

Definition sanitize (self : Message) : Outcome SanitizeError unit :=
  if vec_len (account_keys self) <?
       num_required_signatures (header self) + num_readonly_unsigned_accounts (header self)
  then Err IndexOutOfBounds
  else if num_required_signatures (header self) <=? num_readonly_signed_accounts (header self)
  then Err IndexOutOfBounds
  else sanitize_instructions (vec_len (account_keys self)) (instructions self).

(** [keys.iter().position(|k| k == key).unwrap() as u8] *)
Definition key_position (keys : list Pubkey) (key : Pubkey) : Outcome CompileError Z :=
  let! i := unwrap (position (fun k => bool_decide (k = key)) keys) in
  Ok (wrapping U8 i).

Definition compile_instruction (ix : Instruction) (keys : list Pubkey)
  : Outcome CompileError CompiledInstruction :=
  let! accounts := try_collect (fun meta => key_position keys (meta_pubkey meta)) (ix_accounts ix) in
  let! program_id_index := key_position keys (ix_program_id ix) in
  Ok (mkCompiledInstruction program_id_index accounts (ix_data ix)).

Definition compile_instructions (ixs : list Instruction) (keys : list Pubkey)
  : Outcome CompileError (list CompiledInstruction) :=
  try_collect (fun ix => compile_instruction ix keys) ixs.

(** [r.expect(..)] *)
Definition expect {E F A} (o : Outcome E A) : Outcome F A :=
  match o with Ok a => Ok a | _ => Panic end.

Definition new_with_blockhash (instructions : list Instruction) (payer : option Pubkey)
    (blockhash : Hash) : Outcome CompileError Message :=
  let compiled_keys := compile instructions payer in
  let! components := expect (try_into_message_components compiled_keys) in
  let! instructions := compile_instructions instructions (snd components) in
  Ok (mkMessage (fst components) (snd components) blockhash instructions).

Definition new (instructions : list Instruction) (payer : option Pubkey) : Outcome CompileError Message :=
  new_with_blockhash instructions payer (replicate 32 0).

Definition is_key_called_as_program (self : Message) (key_index : Z) : bool :=
  called_as_program (instructions self) key_index.

Definition is_key_passed_to_program (self : Message) (key_index : Z) : bool :=
  passed_to_program (instructions self) key_index.

Definition is_non_loader_key (self : Message) (key_index : Z) : bool :=
  negb (is_key_called_as_program self key_index) || is_key_passed_to_program self key_index.

(** The subtractions wrap around on a message that was not sanitized. *)
Definition is_writable_index (self : Message) (i : Z) : bool :=
  (i <? wrapping U8 (num_required_signatures (header self) -
                     num_readonly_signed_accounts (header self))) ||
  ((num_required_signatures (header self) <=? i) &&
   (i <? wrapping USIZE (vec_len (account_keys self) -
                         num_readonly_unsigned_accounts (header self)))).

Definition is_signer (self : Message) (i : Z) : bool := i <? num_required_signatures (header self).

Definition signer_keys (self : Message) : list Pubkey :=
  let last_key := Z.min (vec_len (account_keys self)) (num_required_signatures (header self)) in
  take (Z.to_nat last_key) (account_keys self).

(** [for i in 1..len { if account_keys[i..].contains(&account_keys[i - 1]) .. }] *)
Fixpoint has_duplicates_loop (keys : list Pubkey) : bool :=
  match keys with
  | [] => false
  | key :: keys => existsb (fun k => bool_decide (k = key)) keys || has_duplicates_loop keys
  end.

Definition has_duplicates (self : Message) : bool := has_duplicates_loop (account_keys self).

Section writable.
Context `{!ProgramIds, !MessageIds}.

Definition is_upgradeable_loader_present (self : Message) : bool :=
  existsb (fun key => bool_decide (key = bpf_loader_upgradeable_id)) (account_keys self).

Definition demote_program_id (self : Message) (i : Z) : bool :=
  is_key_called_as_program self i && negb (is_upgradeable_loader_present self).

(** [self.account_keys[i]] panics out of range, and is reached only if the index
    is a writable one. *)
Definition is_writable (self : Message) (i : Z) : Outcome SanitizeError bool :=
  if is_writable_index self i then
    let! key := unwrap (vec_get (account_keys self) i) in
    Ok (negb (is_builtin_key_or_sysvar key) && negb (demote_program_id self i))
  else Ok false.

End writable.
End Legacy.

(** ** Version 0 messages (versions/v0) *)

Module V0.

Record MessageAddressTableLookup := mkLookup {
  account_key : Pubkey;
  writable_indexes : list Z;
  readonly_indexes : list Z;
}.

Record Message := mkMessage {
  header : MessageHeader;
  account_keys : list Pubkey;
  recent_blockhash : Hash;
  instructions : list CompiledInstruction;
  address_table_lookups : list MessageAddressTableLookup;
}.

Fixpoint total_lookup_keys (lookups : list MessageAddressTableLookup) (total : Z)
  : Outcome SanitizeError Z :=
  match lookups with
  | [] => Ok total
  | lookup :: lookups =>
      let num_lookup_indexes := saturating_add USIZE (vec_len (writable_indexes lookup))
                                  (vec_len (readonly_indexes lookup)) in
      if num_lookup_indexes =? 0 then Err InvalidValue
      else total_lookup_keys lookups (saturating_add USIZE total num_lookup_indexes)
  end.

Definition sanitize_instruction (max_program_id_ix max_account_ix : Z) (ci : CompiledInstruction)
  : Outcome SanitizeError unit :=
  if max_program_id_ix <? program_id_index ci then Err IndexOutOfBounds
  else if program_id_index ci =? 0 then Err IndexOutOfBounds
  else if existsb (fun ai => max_account_ix <? ai) (ci_accounts ci) then Err IndexOutOfBounds
  else Ok tt.

Fixpoint sanitize_instructions (max_program_id_ix max_account_ix : Z) (cis : list CompiledInstruction)
  : Outcome SanitizeError unit :=
  match cis with
  | [] => Ok tt
  | ci :: cis =>
      let! _unused := sanitize_instruction max_program_id_ix max_account_ix ci in
      sanitize_instructions max_program_id_ix max_account_ix cis
  end.

Definition sanitize (self : Message) : Outcome SanitizeError unit :=
  let num_static_account_keys := vec_len (account_keys self) in
  if num_static_account_keys <?
       saturating_add USIZE (num_required_signatures (header self))
         (num_readonly_unsigned_accounts (header self))
  then Err IndexOutOfBounds
  else if num_required_signatures (header self) <=? num_readonly_signed_accounts (header self)
  then Err InvalidValue
  else
  let! num_dynamic_account_keys := total_lookup_keys (address_table_lookups self) 0 in
  if num_static_account_keys =? 0 then Err InvalidValue
  else
  let total_account_keys := saturating_add USIZE num_static_account_keys num_dynamic_account_keys in
  if 256 <? total_account_keys then Err IndexOutOfBounds
  else
  let! max_account_ix := unwrap (checked_sub USIZE total_account_keys 1) in
  let! max_program_id_ix := unwrap (checked_sub USIZE num_static_account_keys 1) in
  sanitize_instructions max_program_id_ix max_account_ix (instructions self).

(** *** Extracting keys that lookup tables have (compiled_keys.rs) *)

Record AddressLookupTableAccount := mkTable {
  table_key : Pubkey;
  addresses : list Pubkey;
}.

(** The search for the keys that pass the filter: the indices of those found in
    the table, and the keys themselves. *)
Fixpoint find_in_table (table : list Pubkey) (search_keys : list Pubkey)
  : Outcome CompileError (list Z * list Pubkey) :=
  match search_keys with
  | [] => Ok ([], [])
  | search_key :: search_keys =>
      match position (fun key => bool_decide (key = search_key)) table with
      | None => find_in_table table search_keys
      | Some key_index =>
          let! lookup_table_index := ok_or AddressTableLookupIndexOverflow (try_u8 key_index) in
          let! found := find_in_table table search_keys in
          Ok (lookup_table_index :: fst found, search_key :: snd found)
      end
  end.

Definition try_drain_keys_found_in_lookup_table (table : list Pubkey) (p : CompiledKeyMeta -> bool)
    (self : CompiledKeys) : Outcome CompileError (list Z * list Pubkey * CompiledKeys) :=
  let! found := find_in_table table (filter_keys p (key_meta_map self)) in
  Ok (fst found, snd found,
      mkCompiledKeys (ck_payer self)
        (foldl (fun map key => btree_remove key map) (key_meta_map self) (snd found))).

Definition try_extract_table_lookup (table : AddressLookupTableAccount) (self : CompiledKeys)
  : Outcome CompileError (option (MessageAddressTableLookup * LoadedAddresses) * CompiledKeys) :=
  let! w := try_drain_keys_found_in_lookup_table (addresses table)
    (fun meta => negb (cm_is_signer meta) && negb (cm_is_invoked meta) && cm_is_writable meta) self in
  let '(writable_indexes, drained_writable_keys, self) := w in
  let! r := try_drain_keys_found_in_lookup_table (addresses table)
    (fun meta => negb (cm_is_signer meta) && negb (cm_is_invoked meta) && negb (cm_is_writable meta)) self in
  let '(readonly_indexes, drained_readonly_keys, self) := r in
  match writable_indexes, readonly_indexes with
  | [], [] => Ok (None, self)
  | _, _ => Ok (Some (mkLookup (table_key table) writable_indexes readonly_indexes,
                      mkLoadedAddresses drained_writable_keys drained_readonly_keys), self)
  end.

Fixpoint extract_lookups (tables : list AddressLookupTableAccount) (self : CompiledKeys)
  : Outcome CompileError (list (MessageAddressTableLookup * LoadedAddresses) * CompiledKeys) :=
  match tables with
  | [] => Ok ([], self)
  | table :: tables =>
      let! extracted := try_extract_table_lookup table self in
      let! rest := extract_lookups tables (snd extracted) in
      Ok (option_list (fst extracted) ++ fst rest, snd rest)
  end.

Definition try_compile (payer : Pubkey) (instructions : list Instruction)
    (tables : list AddressLookupTableAccount) (blockhash : Hash) : Outcome CompileError Message :=
  let compiled_keys := compile instructions (Some payer) in
  let! extracted := extract_lookups tables compiled_keys in
  let! components := try_into_message_components (snd extracted) in
  let dynamic_keys := LoadedAddresses_from_iter (snd <$> fst extracted) in
  let account_keys := mkAccountKeys (snd components) (Some dynamic_keys) in
  let! instructions := try_compile_instructions account_keys instructions in
  Ok (mkMessage (fst components) (snd components) blockhash instructions (fst <$> fst extracted)).

(** *** A message and the addresses it loaded (loaded.rs) *)

Record LoadedMessage := mkLoadedMessage {
  message : Message;
  loaded_addresses : LoadedAddresses;
  is_writable_account_cache : list bool;
}.

Definition LoadedMessage_account_keys (self : LoadedMessage) : AccountKeys :=
  mkAccountKeys (account_keys (message self)) (Some (loaded_addresses self)).

(** [any(|x| !uniq.insert(x))] *)
Fixpoint any_repeated (keys : list Pubkey) (uniq : gset Pubkey) : bool :=
  match keys with
  | [] => false
  | key :: keys => if decide (key ∈ uniq) then true else any_repeated keys ({[key]} ∪ uniq)
  end.

Definition has_duplicates (self : LoadedMessage) : bool :=
  any_repeated (AccountKeys_iter (LoadedMessage_account_keys self)) ∅.

Definition is_writable_index (self : LoadedMessage) (key_index : Z) : bool :=
  let header := header (message self) in
  let num_account_keys := vec_len (account_keys (message self)) in
  let num_signed_accounts := num_required_signatures header in
  if num_account_keys <=? key_index then
    let loaded_addresses_index := saturating_sub USIZE key_index num_account_keys in
    loaded_addresses_index <? vec_len (la_writable (loaded_addresses self))
  else if num_signed_accounts <=? key_index then
    let num_unsigned_accounts := saturating_sub USIZE num_account_keys num_signed_accounts in
    let num_writable_unsigned_accounts :=
      saturating_sub USIZE num_unsigned_accounts (num_readonly_unsigned_accounts header) in
    let unsigned_account_index := saturating_sub USIZE key_index num_signed_accounts in
    unsigned_account_index <? num_writable_unsigned_accounts
  else
    let num_writable_signed_accounts :=
      saturating_sub USIZE num_signed_accounts (num_readonly_signed_accounts header) in
    key_index <? num_writable_signed_accounts.

Definition is_key_called_as_program (self : LoadedMessage) (key_index : Z) : bool :=
  called_as_program (instructions (message self)) key_index.

Definition is_signer (self : LoadedMessage) (i : Z) : bool :=
  i <? num_required_signatures (header (message self)).

Section writable.
Context `{!ProgramIds, !MessageIds}.

Definition is_upgradeable_loader_present (self : LoadedMessage) : bool :=
  existsb (fun key => bool_decide (key = bpf_loader_upgradeable_id))
    (AccountKeys_iter (LoadedMessage_account_keys self)).

Definition demote_program_id (self : LoadedMessage) (i : Z) : bool :=
  is_key_called_as_program self i && negb (is_upgradeable_loader_present self).

Definition is_writable_internal (self : LoadedMessage) (key_index : Z) : bool :=
  if is_writable_index self key_index then
    match AccountKeys_get (LoadedMessage_account_keys self) key_index with
    | Some key => negb (is_builtin_key_or_sysvar key || demote_program_id self key_index)
    | None => false
    end
  else false.

Definition LoadedMessage_new (message : Message) (loaded_addresses : LoadedAddresses) : LoadedMessage :=
  let loaded_message := mkLoadedMessage message loaded_addresses [] in
  mkLoadedMessage message loaded_addresses
    (is_writable_internal loaded_message <$>
       seqZ 0 (vec_len (AccountKeys_iter (LoadedMessage_account_keys loaded_message)))).

End writable.

Definition is_writable (self : LoadedMessage) (key_index : Z) : bool :=
  default false (vec_get (is_writable_account_cache self) key_index).

End V0.

(** ** Sanitized messages (sanitized.rs) *)

Record LegacyMessage := mkLegacyMessage {
  lm_message : Legacy.Message;
  lm_is_writable_account_cache : list bool;
}.

Inductive SanitizedMessage : Type :=
| SanitizedLegacy (message : LegacyMessage)
| SanitizedV0 (message : V0.LoadedMessage).

Definition LegacyMessage_account_keys (self : LegacyMessage) : AccountKeys :=
  mkAccountKeys (Legacy.account_keys (lm_message self)) None.

Definition LegacyMessage_is_writable (self : LegacyMessage) (index : Z) : bool :=
  default false (vec_get (lm_is_writable_account_cache self) index).

Module Sanitized.

Definition header (self : SanitizedMessage) : MessageHeader :=
  match self with
  | SanitizedLegacy legacy_message => Legacy.header (lm_message legacy_message)
  | SanitizedV0 loaded_msg => V0.header (V0.message loaded_msg)
  end.

Definition instructions (self : SanitizedMessage) : list CompiledInstruction :=
  match self with
  | SanitizedLegacy legacy_message => Legacy.instructions (lm_message legacy_message)
  | SanitizedV0 loaded_msg => V0.instructions (V0.message loaded_msg)
  end.

Definition recent_blockhash (self : SanitizedMessage) : Hash :=
  match self with
  | SanitizedLegacy legacy_message => Legacy.recent_blockhash (lm_message legacy_message)
  | SanitizedV0 loaded_msg => V0.recent_blockhash (V0.message loaded_msg)
  end.

Definition account_keys (self : SanitizedMessage) : AccountKeys :=
  match self with
  | SanitizedLegacy message => LegacyMessage_account_keys message
  | SanitizedV0 message => V0.LoadedMessage_account_keys message
  end.

Definition has_duplicates (self : SanitizedMessage) : bool :=
  match self with
  | SanitizedLegacy message => Legacy.has_duplicates (lm_message message)
  | SanitizedV0 message => V0.has_duplicates message
  end.

(** [get(0).expect(..)] *)
Definition fee_payer (self : SanitizedMessage) : Outcome SanitizeError Pubkey :=
  unwrap (AccountKeys_get (account_keys self) 0).

(** Each item panics if the program id index is out of range. *)
Definition program_instructions_iter (self : SanitizedMessage)
  : list (option Pubkey * CompiledInstruction) :=
  (fun ix => (AccountKeys_get (account_keys self) (program_id_index ix), ix)) <$> instructions self.

Definition is_key_passed_to_program (self : SanitizedMessage) (key_index : Z) : bool :=
  passed_to_program (instructions self) key_index.

Definition is_invoked (self : SanitizedMessage) (key_index : Z) : bool :=
  match self with
  | SanitizedLegacy message => Legacy.is_key_called_as_program (lm_message message) key_index
  | SanitizedV0 message => V0.is_key_called_as_program message key_index
  end.

Definition is_non_loader_key (self : SanitizedMessage) (key_index : Z) : bool :=
  negb (is_invoked self key_index) || is_key_passed_to_program self key_index.

Definition is_writable (self : SanitizedMessage) (index : Z) : bool :=
  match self with
  | SanitizedLegacy message => LegacyMessage_is_writable message index
  | SanitizedV0 message => V0.is_writable message index
  end.

Definition is_signer (self : SanitizedMessage) (index : Z) : bool :=
  index <? num_required_signatures (header self).

Definition loaded_lookup_table_addresses (self : SanitizedMessage) : option LoadedAddresses :=
  match self with
  | SanitizedV0 message => Some (V0.loaded_addresses message)
  | _ => None
  end.

Definition num_readonly_accounts (self : SanitizedMessage) : Z :=
  let loaded_readonly_addresses :=
    default 0 ((fun keys => vec_len (la_readonly keys)) <$> loaded_lookup_table_addresses self) in
  saturating_add USIZE
    (saturating_add USIZE loaded_readonly_addresses (num_readonly_signed_accounts (header self)))
    (num_readonly_unsigned_accounts (header self)).

Definition num_write_locks (self : SanitizedMessage) : Z :=
  saturating_sub USIZE (AccountKeys_len (account_keys self)) (num_readonly_accounts self).

(** The keys of the signers among the accounts of an instruction. *)
Definition get_ix_signers (self : SanitizedMessage) (ix_index : Z) : list Pubkey :=
  match vec_get (instructions self) ix_index with
  | None => []
  | Some ix => omap (fun index => if is_signer self index then AccountKeys_get (account_keys self) index
                                  else None) (ci_accounts ix)
  end.

Section make.
Context `{!ProgramIds, !MessageIds}.

(** The cache is filled for indices in range, so that [is_writable] does not
    panic. *)
Definition LegacyMessage_new (message : Legacy.Message) : Outcome SanitizeError LegacyMessage :=
  let! cache := try_collect (Legacy.is_writable message)
                  (seqZ 0 (vec_len (Legacy.account_keys message))) in
  Ok (mkLegacyMessage message cache).

Definition try_from_legacy_message (message : Legacy.Message) : Outcome SanitizeError SanitizedMessage :=
  let! _unused := Legacy.sanitize message in
  let! legacy := LegacyMessage_new message in
  Ok (SanitizedLegacy legacy).

(** [try_new] on a version 0 message, given the addresses that were loaded. *)
Definition new_v0 (message : V0.Message) (loaded_addresses : LoadedAddresses) : SanitizedMessage :=
  SanitizedV0 (V0.LoadedMessage_new message loaded_addresses).

(** If the message uses a durable nonce, the key of the nonce account. *)
Definition get_durable_nonce `{!BincodeLimited SystemInstruction} (self : SanitizedMessage)
  : option Pubkey :=
  match vec_get (instructions self) 0 with
  | None => None
  | Some ix =>
      if bool_decide (AccountKeys_get (account_keys self) (program_id_index ix) = Some system_program_id)
      then
        match program_limited_deserialize (ci_data ix) 4 with
        | Ok AdvanceNonceAccount =>
            match head (ci_accounts ix) with
            | Some idx => if is_writable self idx then AccountKeys_get (account_keys self) idx else None
            | None => None
            end
        | _ => None
        end
      else None
  end.

End make.
End Sanitized.
