(* ===== verification/SystemInstructions.v ===== *)
(** * Instructions of the system program and calls to it (sdk/program/src)

    How a client of the SDK makes an instruction for the system program
    (system_instruction.rs, instruction.rs) and how a program calls another with
    it (program.rs, account_info.rs).  The system call itself is a parameter: an
    action on whatever state the runtime keeps. *)

From S2P Require Import Prelude Errors Rent Account Pubkey Sysvars Nonce TransactionContext SysvarCache FeatureSet SystemProgram InvokeContext Message.

(** ** Account metas and instructions (instruction.rs) *)

Definition AccountMeta_new (pubkey : Pubkey) (is_signer : bool) : AccountMeta :=
  mkAccountMeta pubkey is_signer true.

Definition AccountMeta_new_readonly (pubkey : Pubkey) (is_signer : bool) : AccountMeta :=
  mkAccountMeta pubkey is_signer false.

(** [bincode::serialize(data).unwrap()] *)
Definition new_with_bincode {T} `{!Bincode T} (program_id : Pubkey) (data : T)
    (accounts : list AccountMeta) : Outcome Empty_set Instruction :=
  let! data := unwrap (bincode_serialize data) in
  Ok (mkInstruction program_id accounts data).

(** ** The constructors (system_instruction.rs) *)

Module Sdk.
Section constructors.
Context {Hids : ProgramIds} {Hbincode : Bincode SystemInstruction}.
Abbreviation Result := (Outcome Empty_set Instruction).

Definition create_account (from_pubkey to_pubkey : Pubkey) (lamports space : Z) (owner : Pubkey) : Result :=
  new_with_bincode system_program_id (CreateAccount lamports space owner)
    [AccountMeta_new from_pubkey true; AccountMeta_new to_pubkey true].

Definition create_account_with_seed (from_pubkey to_pubkey base : Pubkey) (seed : Bytes)
    (lamports space : Z) (owner : Pubkey) : Result :=
  new_with_bincode system_program_id (CreateAccountWithSeed base seed lamports space owner)
    [AccountMeta_new from_pubkey true; AccountMeta_new to_pubkey false;
     AccountMeta_new_readonly base true].

Definition assign (pubkey owner : Pubkey) : Result :=
  new_with_bincode system_program_id (Assign owner) [AccountMeta_new pubkey true].

Definition assign_with_seed (address base : Pubkey) (seed : Bytes) (owner : Pubkey) : Result :=
  new_with_bincode system_program_id (AssignWithSeed base seed owner)
    [AccountMeta_new address false; AccountMeta_new_readonly base true].

Definition transfer (from_pubkey to_pubkey : Pubkey) (lamports : Z) : Result :=
  new_with_bincode system_program_id (Transfer lamports)
    [AccountMeta_new from_pubkey true; AccountMeta_new to_pubkey false].

Definition transfer_with_seed (from_pubkey from_base : Pubkey) (from_seed : Bytes)
    (from_owner to_pubkey : Pubkey) (lamports : Z) : Result :=
  new_with_bincode system_program_id (TransferWithSeed lamports from_seed from_owner)
    [AccountMeta_new from_pubkey false; AccountMeta_new_readonly from_base true;
     AccountMeta_new to_pubkey false].

Definition allocate (pubkey : Pubkey) (space : Z) : Result :=
  new_with_bincode system_program_id (Allocate space) [AccountMeta_new pubkey true].

Definition allocate_with_seed (address base : Pubkey) (seed : Bytes) (space : Z) (owner : Pubkey) : Result :=
  new_with_bincode system_program_id (AllocateWithSeed base seed space owner)
    [AccountMeta_new address false; AccountMeta_new_readonly base true].

Fixpoint transfer_many (from_pubkey : Pubkey) (to_lamports : list (Pubkey * Z))
  : Outcome Empty_set (list Instruction) :=
  match to_lamports with
  | [] => Ok []
  | (to_pubkey, lamports) :: rest =>
      let! i := transfer from_pubkey to_pubkey lamports in
      let! others := transfer_many from_pubkey rest in Ok (i :: others)
  end.

Definition initialize_nonce (nonce_pubkey authority : Pubkey) : Result :=
  new_with_bincode system_program_id (InitializeNonceAccount authority)
    [AccountMeta_new nonce_pubkey false; AccountMeta_new_readonly sysvar_recent_blockhashes_id false;
     AccountMeta_new_readonly sysvar_rent_id false].

Definition create_nonce_account_with_seed (from_pubkey nonce_pubkey base : Pubkey) (seed : Bytes)
    (authority : Pubkey) (lamports : Z) : Outcome Empty_set (list Instruction) :=
  let! create := create_account_with_seed from_pubkey nonce_pubkey base seed lamports State_size
                   system_program_id in
  let! initialize := initialize_nonce nonce_pubkey authority in
  Ok [create; initialize].

Definition create_nonce_account (from_pubkey nonce_pubkey authority : Pubkey) (lamports : Z)
  : Outcome Empty_set (list Instruction) :=
  let! create := create_account from_pubkey nonce_pubkey lamports State_size system_program_id in
  let! initialize := initialize_nonce nonce_pubkey authority in
  Ok [create; initialize].

Definition advance_nonce_account (nonce_pubkey authorized_pubkey : Pubkey) : Result :=
  new_with_bincode system_program_id AdvanceNonceAccount
    [AccountMeta_new nonce_pubkey false; AccountMeta_new_readonly sysvar_recent_blockhashes_id false;
     AccountMeta_new_readonly authorized_pubkey true].

Definition withdraw_nonce_account (nonce_pubkey authorized_pubkey to_pubkey : Pubkey) (lamports : Z) : Result :=
  new_with_bincode system_program_id (WithdrawNonceAccount lamports)
    [AccountMeta_new nonce_pubkey false; AccountMeta_new to_pubkey false;
     AccountMeta_new_readonly sysvar_recent_blockhashes_id false;
     AccountMeta_new_readonly sysvar_rent_id false; AccountMeta_new_readonly authorized_pubkey true].

Definition authorize_nonce_account (nonce_pubkey authorized_pubkey new_authority : Pubkey) : Result :=
  new_with_bincode system_program_id (AuthorizeNonceAccount new_authority)
    [AccountMeta_new nonce_pubkey false; AccountMeta_new_readonly authorized_pubkey true].

Definition upgrade_nonce_account (nonce_pubkey : Pubkey) : Result :=
  new_with_bincode system_program_id UpgradeNonceAccount [AccountMeta_new nonce_pubkey false].

End constructors.
End Sdk.

(** ** Accounts as a program sees them (account_info.rs) *)

Record AccountInfo := mkAccountInfo {
  info_key : Pubkey;
  info_lamports : RefCell Z;
  info_data : RefCell Bytes;
  info_owner : Pubkey;
  info_rent_epoch : Epoch;
  info_is_signer : bool;
  info_is_writable : bool;
  info_executable : bool;
}.

Abbreviation ProgramRes := (Outcome ProgramError.ProgramError).

Definition try_borrow_lamports (self : AccountInfo) : ProgramRes Z :=
  ok_or ProgramError.AccountBorrowFailed (peek (info_lamports self)).
Definition try_borrow_mut_lamports (self : AccountInfo) : ProgramRes Z :=
  ok_or ProgramError.AccountBorrowFailed (peek_mut (info_lamports self)).
Definition try_borrow_data (self : AccountInfo) : ProgramRes Bytes :=
  ok_or ProgramError.AccountBorrowFailed (peek (info_data self)).
Definition try_borrow_mut_data (self : AccountInfo) : ProgramRes Bytes :=
  ok_or ProgramError.AccountBorrowFailed (peek_mut (info_data self)).

(** ** Calls (program.rs, and [SUCCESS] of entrypoint.rs) *)

Definition SUCCESS : Z := 0.

(** The inner loop: the first account with the key of the meta, then [break]. *)
Fixpoint check_account_infos (account_meta : AccountMeta) (account_infos : list AccountInfo)
  : ProgramRes unit :=
  match account_infos with
  | [] => Ok tt
  | account_info :: rest =>
      if bool_decide (meta_pubkey account_meta = info_key account_info) then
        if meta_is_writable account_meta then
          let! _unused := try_borrow_mut_lamports account_info in
          let! _unused := try_borrow_mut_data account_info in Ok tt
        else
          let! _unused := try_borrow_lamports account_info in
          let! _unused := try_borrow_data account_info in Ok tt
      else check_account_infos account_meta rest
  end.

Fixpoint check_account_metas (account_metas : list AccountMeta) (account_infos : list AccountInfo)
  : ProgramRes unit :=
  match account_metas with
  | [] => Ok tt
  | account_meta :: rest =>
      let! _unused := check_account_infos account_meta account_infos in
      check_account_metas rest account_infos
  end.

Section calls.
(** The state of the runtime, and the system call on it: what it returns is the
    code of the callee. *)
Context {W : Type}.
Context (sol_invoke_signed_rust : StableInstruction -> list AccountInfo -> list (list Bytes) ->
                                  M W ProgramError.ProgramError Z).

(** [StableInstruction::from(instruction.clone())] *)
Definition StableInstruction_from (instruction : Instruction) : StableInstruction :=
  mkStableInstruction (ix_accounts instruction) (ix_data instruction) (ix_program_id instruction).

Definition invoke_signed_unchecked (instruction : Instruction) (account_infos : list AccountInfo)
    (signers_seeds : list (list Bytes)) : M W ProgramError.ProgramError unit :=
  let? result := sol_invoke_signed_rust (StableInstruction_from instruction) account_infos signers_seeds in
  if result =? SUCCESS then ret tt else fail (ProgramError_of_u64 result).

Definition invoke_signed (instruction : Instruction) (account_infos : list AccountInfo)
    (signers_seeds : list (list Bytes)) : M W ProgramError.ProgramError unit :=
  lift (check_account_metas (ix_accounts instruction) account_infos) ;?
  invoke_signed_unchecked instruction account_infos signers_seeds.

Definition invoke (instruction : Instruction) (account_infos : list AccountInfo)
  : M W ProgramError.ProgramError unit := invoke_signed instruction account_infos [].

End calls.
