(* ===== verification/MessageRules.v ===== *)
(** * What a message says of its accounts (sdk/program/src/message)

    A message compiled from instructions names every account once, gives each
    exactly the privileges some instruction asks for, and refers to the right
    accounts from its instructions; a compiled message passes [sanitize].  The
    table that speeds up the test for reserved keys changes nothing, duplicates
    are found in both formats, and the segments of loaded keys read as one list. *)

From S2P Require Import Prelude Errors Rent Account BTreeMap Pubkey Sysvars EpochSchedule Nonce TransactionContext CallStack SysvarCache SystemProgram InvokeContext InvokeRules Message.

(** ** Reserved keys *)

Section reserved.
Context {Hids : ProgramIds} {Hmids : MessageIds}.

Lemma foldl_set_length (keys : list Pubkey) table :
  vec_len (foldl (fun table key => vec_set (first_byte key) true table) table keys) = vec_len table.
Proof.
  revert table. induction keys as [|key keys IH]; intros table; simpl; [done|].
  by rewrite IH, vec_len_set.
Qed.

Lemma foldl_set_table (keys : list Pubkey) table i :
  Forall (fun key => 0 <= first_byte key < vec_len table) keys ->
  vec_get table i = Some true \/ i ∈ first_byte <$> keys ->
  vec_get (foldl (fun table key => vec_set (first_byte key) true table) table keys) i = Some true.
Proof.
  revert table. induction keys as [|key keys IH]; intros table Hall H; simpl in *; [set_solver|].
  apply list.Forall_cons in Hall as [Hk Hall].
  apply IH; [eapply list.Forall_impl; [done|]; intros ?; by rewrite vec_len_set|].
  destruct (decide (i = first_byte key)) as [->|Hne]; [left; by apply vec_get_set_eq|].
  rewrite vec_get_set_ne by (lia || congruence). set_solver.
Qed.

(** The look-up table of first bytes only saves time: a key is found to be
    reserved exactly if it is a sysvar or a builtin program. *)
Theorem builtin_table_exact (key : Pubkey) :
  Forall (fun id => 0 <= first_byte id < 256) (BUILTIN_PROGRAMS_KEYS ++ ALL_IDS) ->
  is_builtin_key_or_sysvar key = true <-> key ∈ ALL_IDS \/ key ∈ BUILTIN_PROGRAMS_KEYS.
Proof.
  intros [Hb Ha]%list.Forall_app. unfold is_builtin_key_or_sysvar, is_sysvar_id.
  assert (forall keys, existsb (fun k => bool_decide (k = key)) keys = true <-> key ∈ keys) as Hex.
  { intros keys. rewrite existsb_exists. setoid_rewrite bool_decide_eq_true.
    split; [intros (k & Hin & ->); by apply list_elem_of_In|].
    intros Hin. exists key. split; [by apply list_elem_of_In|done]. }
  rewrite <- !Hex, <- orb_true_iff. split; [by destruct (default _ _)|]. intros H. rewrite H.
  assert (vec_get MAYBE_BUILTIN_KEY_OR_SYSVAR (first_byte key) = Some true) as ->; [|done].
  rewrite orb_true_iff, !Hex in H.
  assert (forall table : list bool, vec_len table = 256 -> Forall (fun k => 0 <= first_byte k < vec_len table) ALL_IDS)
    as Hlen by (intros table ->; done).
  unfold MAYBE_BUILTIN_KEY_OR_SYSVAR. apply foldl_set_table; [apply Hlen; by rewrite foldl_set_length|].
  destruct H as [H|H]; [right; by apply list_elem_of_fmap_2|left].
  apply foldl_set_table; [done|right; by apply list_elem_of_fmap_2].
Qed.

End reserved.

(** ** Keys in segments *)

Lemma get_loop_concat segments i :
  0 <= i <= int_max USIZE -> get_loop segments i = vec_get (mjoin segments) i.
Proof.
  revert i. induction segments as [|segment segments IH]; intros i Hi; simpl.
  { unfold vec_get. by case_decide. }
  rewrite vec_get_app. destruct (Z.ltb_spec i (vec_len segment)).
  - by rewrite decide_True.
  - rewrite decide_False by lia. unfold saturating_sub.
    rewrite saturating_small by (unfold in_range, vec_len in *; simpl in *; lia).
    apply IH. unfold vec_len in *. lia.
Qed.

(** Reading a key of a message is reading the list of all of them. *)
Lemma AccountKeys_get_iter keys i :
  0 <= i <= int_max USIZE -> AccountKeys_get keys i = vec_get (AccountKeys_iter keys) i.
Proof. apply get_loop_concat. Qed.

(** ** Duplicates *)

Lemma has_duplicates_loop_spec keys : Legacy.has_duplicates_loop keys = false <-> NoDup keys.
Proof.
  induction keys as [|key keys IH]; simpl; [split; [constructor|done]|].
  rewrite orb_false_iff, IH, list.NoDup_cons. f_equiv. split.
  - intros Hex Hin. apply not_true_iff_false in Hex. apply Hex, existsb_exists. exists key.
    split; [by apply list_elem_of_In|by apply bool_decide_eq_true].
  - intros Hin. apply not_true_iff_false. rewrite existsb_exists. intros (k & Hk & Heq).
    apply bool_decide_eq_true in Heq as ->. by apply Hin, list_elem_of_In.
Qed.

Lemma any_repeated_spec keys uniq :
  V0.any_repeated keys uniq = false <-> NoDup keys /\ Forall (fun key => key ∉ uniq) keys.
Proof.
  revert uniq. induction keys as [|key keys IH]; intros uniq; simpl.
  { split; [by repeat constructor|done]. }
  rewrite list.NoDup_cons, list.Forall_cons. case_decide as Hin; [naive_solver|].
  rewrite IH, !list.Forall_forall. set_solver.
Qed.

(** Both formats find duplicate account keys: there are none exactly if all
    keys of the message, static and loaded, are distinct. *)
Theorem duplicates_are_found (message : SanitizedMessage) :
  Sanitized.has_duplicates message = false <-> NoDup (AccountKeys_iter (Sanitized.account_keys message)).
Proof.
  destruct message as [message|message]; simpl.
  - unfold Legacy.has_duplicates, AccountKeys_iter. simpl. rewrite !app_nil_r.
    apply has_duplicates_loop_spec.
  - unfold V0.has_duplicates. rewrite any_repeated_spec, list.Forall_forall. set_solver.
Qed.

(** ** What instructions ask of keys *)

(** The mentions of keys in instructions and payer, in the order [compile] meets
    them. *)
Inductive mention : Type :=
| Invoked (program_id : Pubkey)
| Passed (meta : AccountMeta)
| Payer (payer : Pubkey).

Definition mention_key (x : mention) : Pubkey :=
  match x with Invoked key => key | Passed meta => meta_pubkey meta | Payer key => key end.
Definition mention_update (x : mention) : CompiledKeyMeta -> CompiledKeyMeta :=
  match x with Invoked _ => set_invoked | Passed meta => add_meta meta | Payer _ => set_payer end.
Definition mention_signer (x : mention) : bool :=
  match x with Invoked _ => false | Passed meta => meta_is_signer meta | Payer _ => true end.
Definition mention_writable (x : mention) : bool :=
  match x with Invoked _ => false | Passed meta => meta_is_writable meta | Payer _ => true end.

Definition instruction_mentions (ix : Instruction) : list mention :=
  Invoked (ix_program_id ix) :: (Passed <$> ix_accounts ix).
Definition mentions (instructions : list Instruction) (payer : option Pubkey) : list mention :=
  mjoin (instruction_mentions <$> instructions) ++ (Payer <$> option_list payer).

Definition asks (privilege : mention -> bool) (xs : list mention) (key : Pubkey) : bool :=
  existsb (fun x => bool_decide (mention_key x = key) && privilege x) xs.

Definition note (map : BTreeMap Pubkey CompiledKeyMeta) (x : mention) : BTreeMap Pubkey CompiledKeyMeta :=
  update_meta (mention_key x) (mention_update x) map.

Lemma compile_one_mentions map ix : compile_one map ix = foldl note map (instruction_mentions ix).
Proof.
  unfold compile_one, instruction_mentions. simpl. unfold note at 2. simpl.
  generalize (update_meta (ix_program_id ix) set_invoked map). clear map.
  induction (ix_accounts ix) as [|meta metas IH]; intros map; simpl; [done|]. apply IH.
Qed.

Lemma compile_mentions instructions payer :
  key_meta_map (compile instructions payer) = foldl note [] (mentions instructions payer).
Proof.
  unfold compile, mentions. simpl. rewrite foldl_app.
  assert (forall map, foldl compile_one map instructions =
    foldl note map (mjoin (instruction_mentions <$> instructions))) as ->; [|by destruct payer].
  induction instructions as [|ix ixs IH]; intros map; [done|].
  rewrite fmap_cons. cbn [foldl mjoin list_join].
  by rewrite foldl_app, <- compile_one_mentions.
Qed.

(** What the map has for a key once the mentions are noted. *)
Definition noted (key : Pubkey) (o : option CompiledKeyMeta) (x : mention) : option CompiledKeyMeta :=
  if bool_decide (mention_key x = key) then Some (mention_update x (default CompiledKeyMeta_default o))
  else o.

Lemma note_ok xs map : btree_ok map -> btree_ok (foldl note map xs).
Proof.
  revert map. induction xs as [|x xs IH]; intros map Hok; simpl; [done|].
  by apply IH, btree_update_ok.
Qed.

Lemma note_get xs map key :
  btree_ok map -> btree_get key (foldl note map xs) = foldl (noted key) (btree_get key map) xs.
Proof.
  revert map. induction xs as [|x xs IH]; intros map Hok; simpl; [done|].
  rewrite IH by by apply btree_update_ok. f_equal. unfold note, update_meta, noted.
  rewrite btree_get_update by done. repeat case_bool_decide; congruence.
Qed.

Lemma noted_flags xs o key :
  let meta := default CompiledKeyMeta_default in
  cm_is_signer (meta (foldl (noted key) o xs)) = cm_is_signer (meta o) || asks mention_signer xs key /\
  cm_is_writable (meta (foldl (noted key) o xs)) = cm_is_writable (meta o) || asks mention_writable xs key.
Proof.
  revert o. induction xs as [|x xs IH]; intros o; simpl; [by rewrite !orb_false_r|].
  destruct (IH (noted key o x)) as [-> ->]. unfold noted. case_bool_decide; simpl; [|done].
  destruct x, (default CompiledKeyMeta_default o) as [s w i]; simpl; rewrite ?orb_false_r, ?orb_assoc;
    try done; by rewrite ?orb_true_r.
Qed.

Lemma noted_is_Some xs o key :
  is_Some (foldl (noted key) o xs) <-> is_Some o \/ key ∈ mention_key <$> xs.
Proof.
  revert o. induction xs as [|x xs IH]; intros o; simpl; [set_solver|].
  rewrite IH, elem_of_cons. unfold noted. case_bool_decide; naive_solver.
Qed.

(** The map of [compile]: the keys mentioned, with what is asked of them. *)
Lemma compile_get instructions payer key :
  let xs := mentions instructions payer in
  let o := btree_get key (key_meta_map (compile instructions payer)) in
  (is_Some o <-> key ∈ mention_key <$> xs) /\
  (forall meta, o = Some meta -> cm_is_signer meta = asks mention_signer xs key /\
     cm_is_writable meta = asks mention_writable xs key).
Proof.
  intros xs o. subst o. rewrite compile_mentions. fold xs.
  rewrite note_get by constructor. simpl. split.
  - rewrite noted_is_Some. split; [intros [[? [=]]|]; done|auto].
  - intros meta Hm. destruct (noted_flags xs None key) as [Hs Hw]. rewrite Hm in *. done.
Qed.

(** ** The order of the keys *)

Lemma elem_of_filter_keys p map key :
  key ∈ filter_keys p map <-> exists meta, (key, meta) ∈ map /\ p meta = true.
Proof.
  unfold filter_keys. rewrite list_elem_of_omap. split.
  - intros ([k meta] & Hin & Hp). destruct (p meta) eqn:E; simplify_eq. eauto.
  - intros (meta & Hin & Hp). exists (key, meta). by rewrite Hp.
Qed.

Lemma NoDup_filter_keys p (map : BTreeMap Pubkey CompiledKeyMeta) : NoDup map.*1 -> NoDup (filter_keys p map).
Proof.
  induction map as [|[k meta] map IH]; intros Hn; simpl in *; [constructor|].
  apply list.NoDup_cons in Hn as [Hk Hn]. unfold filter_keys. simpl.
  destruct (p meta); [|by apply IH]. constructor; [|by apply IH].
  intros (m & Hin & _)%elem_of_filter_keys. by apply (list_elem_of_fmap_2 fst) in Hin.
Qed.

Lemma lookup_segments {A} (l1 l2 l3 l4 : list A) i x :
  (l1 ++ l2 ++ l3 ++ l4) !! i = Some x ->
  (i < length l1 /\ x ∈ l1 \/
   length l1 <= i < length l1 + length l2 /\ x ∈ l2 \/
   length l1 + length l2 <= i < length l1 + length l2 + length l3 /\ x ∈ l3 \/
   length l1 + length l2 + length l3 <= i < length l1 + length l2 + length l3 + length l4 /\ x ∈ l4)%nat.
Proof.
  intros H. rewrite !lookup_app_Some in H.
  repeat match goal with H : _ \/ _ |- _ => destruct H | H : _ /\ _ |- _ => destruct H end;
    match goal with H : _ !! _ = Some x |- _ =>
      pose proof (lookup_lt_Some _ _ _ H); apply list_elem_of_lookup_2 in H end;
    naive_solver lia.
Qed.

(** The four kinds of keys, by what the map has for them. *)
Definition has_flags (map : BTreeMap Pubkey CompiledKeyMeta) (signer writable : bool) (key : Pubkey) : Prop :=
  exists meta, btree_get key map = Some meta /\ cm_is_signer meta = signer /\ cm_is_writable meta = writable.

Section components.
Context (map : BTreeMap Pubkey CompiledKeyMeta) (payer : option Pubkey).
Context (Hok : btree_ok map) (Hpayer : forall key, payer = Some key -> has_flags map true true key).

Definition without_payer : BTreeMap Pubkey CompiledKeyMeta :=
  match payer with Some payer => btree_remove payer map | None => map end.

Definition kind (signer writable : bool) : list Pubkey :=
  filter_keys (fun meta => eqb (cm_is_signer meta) signer && eqb (cm_is_writable meta) writable)
    without_payer.

Lemma without_payer_elem key meta :
  (key, meta) ∈ without_payer <-> btree_get key map = Some meta /\ payer <> Some key.
Proof.
  unfold without_payer, btree_remove. rewrite (btree_get_elem map key meta Hok).
  destruct payer as [p|]; [|naive_solver]. rewrite list_elem_of_filter. simpl. naive_solver.
Qed.

Lemma without_payer_NoDup : NoDup without_payer.*1.
Proof.
  unfold without_payer, btree_remove. pose proof (btree_ok_NoDup map Hok) as Hn.
  destruct payer as [p|]; [|done]. eapply sublist_NoDup; [done|]. apply fmap_sublist, sublist_filter.
Qed.

Lemma kind_spec s w key : key ∈ kind s w <-> has_flags map s w key /\ payer <> Some key.
Proof.
  unfold kind, has_flags. rewrite elem_of_filter_keys. split.
  - intros (meta & [Hg Hp]%without_payer_elem & Hf). apply andb_true_iff in Hf as [Hs Hw].
    split; [|done]. exists meta. by apply eqb_prop in Hs, Hw.
  - intros [(meta & Hg & <- & <-) Hp]. exists meta. rewrite without_payer_elem, !eqb_reflx. done.
Qed.

Lemma has_flags_functional s w s' w' key : has_flags map s w key -> has_flags map s' w' key -> s = s' /\ w = w'.
Proof. intros (m & Hm & <- & <-) (m' & Hm' & <- & <-). by simplify_eq. Qed.

Definition ordered_keys : list Pubkey :=
  (option_list payer ++ kind true true) ++ kind true false ++ kind false true ++ kind false false.

Lemma elem_of_writable_signers key : key ∈ option_list payer ++ kind true true -> has_flags map true true key.
Proof.
  rewrite elem_of_app, kind_spec. intros [H|H]; [|naive_solver]. apply Hpayer.
  destruct payer; simpl in H; set_solver.
Qed.

Lemma ordered_keys_elem key : key ∈ ordered_keys <-> is_Some (btree_get key map).
Proof.
  unfold ordered_keys. split.
  - rewrite !elem_of_app. intros Hin.
    assert (exists s w, has_flags map s w key) as (s & w & meta & -> & _); [|done].
    destruct Hin as [Hin|[Hin|[Hin|Hin]]];
      [|apply kind_spec in Hin as [Hin _]; eauto..].
    rewrite <- elem_of_app in Hin. apply elem_of_writable_signers in Hin. eauto.
  - intros [meta Hm]. destruct (decide (payer = Some key)) as [->|Hne]; [simpl; set_solver|].
    assert (key ∈ kind (cm_is_signer meta) (cm_is_writable meta)) as Hk.
    { apply kind_spec. split; [by exists meta|done]. }
    destruct (cm_is_signer meta), (cm_is_writable meta); set_solver.
Qed.

Lemma ordered_keys_NoDup : NoDup ordered_keys.
Proof.
  pose proof without_payer_NoDup as Hn.
  assert (forall s w, NoDup (kind s w)) as Hk by (intros; by apply NoDup_filter_keys).
  assert (forall s w s' w' key, key ∈ kind s w -> key ∈ kind s' w' -> s = s' /\ w = w') as Hd.
  { intros s w s' w' key [H _]%kind_spec [H' _]%kind_spec. by eapply has_flags_functional. }
  unfold ordered_keys. rewrite !list.NoDup_app. split_and!; auto.
  - destruct payer; [apply NoDup_singleton|constructor].
  - intros key Hin [_ Hne]%kind_spec. destruct payer; set_solver.
  - intros key Hin%elem_of_writable_signers. rewrite !elem_of_app, !kind_spec.
    intros [[H _]|[[H _]|[H _]]]; destruct (has_flags_functional _ _ _ _ _ Hin H); done.
  - intros key Hin. rewrite elem_of_app. intros [H|H]; by destruct (Hd _ _ _ _ _ Hin H).
  - intros key Hin H. by destruct (Hd _ _ _ _ _ Hin H).
Qed.

(** A key is found where its privileges put it. *)
Lemma ordered_keys_lookup i key :
  ordered_keys !! i = Some key ->
  let ws := (length (option_list payer ++ kind true true)) in
  let rs := length (kind true false) in
  let rn := length (kind false false) in
  exists s w, has_flags map s w key /\
    (s = true <-> (i < ws + rs)%nat) /\
    (w = true <-> (i < ws)%nat \/ (ws + rs <= i)%nat /\ (i + rn < length ordered_keys)%nat).
Proof.
  intros H. apply lookup_segments in H. cbv zeta. unfold ordered_keys. rewrite !length_app in *.
  destruct H as [[Hi Hin]|[[Hi Hin]|[[Hi Hin]|[Hi Hin]]]].
  - exists true, true. split; [by apply elem_of_writable_signers|]. lia.
  - exists true, false. apply kind_spec in Hin as [Hin _]. split; [done|]. lia.
  - exists false, true. apply kind_spec in Hin as [Hin _]. split; [done|]. lia.
  - exists false, false. apply kind_spec in Hin as [Hin _]. split; [done|]. lia.
Qed.

End components.

Lemma filter_keys_ext p q map : (forall meta, p meta = q meta) -> filter_keys p map = filter_keys q map.
Proof.
  intros Hpq. induction map as [|[k meta] map IH]; [done|].
  unfold filter_keys in *. simpl. rewrite Hpq. destruct (q meta); [by f_equal|done].
Qed.

(** The components in one piece. *)
Definition components_header (map : BTreeMap Pubkey CompiledKeyMeta) (payer : option Pubkey) : MessageHeader :=
  mkMessageHeader (vec_len (option_list payer ++ kind map payer true true) + vec_len (kind map payer true false))
    (vec_len (kind map payer true false)) (vec_len (kind map payer false false)).

Lemma try_u8_small i : 0 <= i <= int_max U8 -> try_u8 i = Some i.
Proof. intros. unfold try_u8. by apply checked_Some. Qed.

Lemma components_run map payer :
  let header := components_header map payer in
  let o := try_into_message_components (mkCompiledKeys payer map) in
  (o = Ok (header, ordered_keys map payer) /\ num_required_signatures header <= int_max U8 /\
     num_readonly_unsigned_accounts header <= int_max U8 \/
   o = Err AccountIndexOverflow /\ (int_max U8 < num_required_signatures header \/
     int_max U8 < num_readonly_unsigned_accounts header)).
Proof.
  unfold try_into_message_components. cbn [ck_payer key_meta_map]. fold (without_payer map payer).
  rewrite (filter_keys_ext (fun meta => cm_is_signer meta && cm_is_writable meta)
    (fun meta => eqb (cm_is_signer meta) true && eqb (cm_is_writable meta) true)) by by intros [[] []].
  rewrite (filter_keys_ext (fun meta => cm_is_signer meta && negb (cm_is_writable meta))
    (fun meta => eqb (cm_is_signer meta) true && eqb (cm_is_writable meta) false)) by by intros [[] []].
  rewrite (filter_keys_ext (fun meta => negb (cm_is_signer meta) && cm_is_writable meta)
    (fun meta => eqb (cm_is_signer meta) false && eqb (cm_is_writable meta) true)) by by intros [[] []].
  rewrite (filter_keys_ext (fun meta => negb (cm_is_signer meta) && negb (cm_is_writable meta))
    (fun meta => eqb (cm_is_signer meta) false && eqb (cm_is_writable meta) false)) by by intros [[] []].
  fold (kind map payer true true) (kind map payer true false) (kind map payer false true)
    (kind map payer false false).
  unfold components_header, ordered_keys. cbn [num_required_signatures num_readonly_unsigned_accounts].
  assert (forall l : list Pubkey, 0 <= vec_len l) as H0 by (intros; unfold vec_len; lia).
  pose proof (H0 (option_list payer ++ kind map payer true true)). pose proof (H0 (kind map payer true false)).
  pose proof (H0 (kind map payer false false)).
  set (ws := option_list payer ++ kind map payer true true) in *. simpl int_max.
  destruct (decide (vec_len ws + vec_len (kind map payer true false) <= 255)) as [Hs|Hs].
  - unfold saturating_add. rewrite (saturating_small USIZE) by (unfold in_range; simpl; lia).
    rewrite !(try_u8_small (_ + _)), (try_u8_small (vec_len (kind map payer true false))) by (simpl; lia).
    cbn [ok_or outcome_bind].
    destruct (decide (vec_len (kind map payer false false) <= 255)) as [Hn|Hn].
    + rewrite try_u8_small by (simpl; lia). left. by split_and!; [|lia..].
    + right. assert (try_u8 (vec_len (kind map payer false false)) = None) as ->; [|split; [done|lia]].
      apply checked_None. unfold in_range. simpl. lia.
  - right. assert (try_u8 (saturating_add USIZE (vec_len ws) (vec_len (kind map payer true false))) = None)
      as ->; [|split; [done|lia]].
    apply checked_None. unfold in_range, saturating_add, saturating. simpl. lia.
Qed.

(** ** Compiled messages *)

Lemma try_collect_Forall2 {E A B} (f : A -> Outcome E B) (R : A -> B -> Prop) l :
  Forall (fun x => exists y, f x = Ok y /\ R x y) l ->
  exists ys, try_collect f l = Ok ys /\ Forall2 R l ys.
Proof.
  induction 1 as [|x l (y & Hy & HR) _ (ys & Hys & HF)]; simpl; [by exists []|].
  rewrite Hy, Hys. simpl. exists (y :: ys). by split; [|constructor].
Qed.

Lemma key_position_ok keys key :
  vec_len keys <= 256 -> key ∈ keys ->
  exists i, Legacy.key_position keys key = Ok i /\ vec_get keys i = Some key.
Proof.
  intros Hlen Hin. unfold Legacy.key_position.
  destruct (position _ keys) as [i|] eqn:Hp.
  - apply position_Some in Hp as (H0 & k & Hk & Heq). apply bool_decide_eq_true in Heq as ->.
    exists i. apply vec_get_lt in Hk as Hlt. simpl. rewrite wrapping_small; [done|].
    unfold in_range. simpl. lia.
  - apply position_None in Hp. rewrite list.Forall_forall in Hp. apply Hp in Hin.
    by apply bool_decide_eq_false in Hin.
Qed.

(** [ci] is [ix] with keys replaced by indices. *)
Record compiled_as (keys : list Pubkey) (ix : Instruction) (ci : CompiledInstruction) : Prop := {
  ca_program : vec_get keys (program_id_index ci) = Some (ix_program_id ix);
  ca_accounts : Forall2 (fun meta i => vec_get keys i = Some (meta_pubkey meta)) (ix_accounts ix) (ci_accounts ci);
  ca_data : ci_data ci = ix_data ix;
}.

Lemma compile_instruction_ok keys ix :
  vec_len keys <= 256 -> mention_key <$> instruction_mentions ix ⊆ keys ->
  exists ci, Legacy.compile_instruction ix keys = Ok ci /\ compiled_as keys ix ci.
Proof.
  intros Hlen Hin. unfold Legacy.compile_instruction.
  destruct (try_collect_Forall2 (fun meta => Legacy.key_position keys (meta_pubkey meta))
    (fun meta i => vec_get keys i = Some (meta_pubkey meta)) (ix_accounts ix)) as (ais & -> & Hais).
  { apply list.Forall_forall. intros meta Hmeta. apply key_position_ok; [done|]. apply Hin.
    simpl. apply list_elem_of_further, list_elem_of_fmap. exists (Passed meta).
    split; [done|]. by apply list_elem_of_fmap_2. }
  destruct (key_position_ok keys (ix_program_id ix) Hlen) as (i & -> & Hi).
  { apply Hin. simpl. apply list_elem_of_here. }
  by eexists.
Qed.

(** The number of distinct keys mentioned. *)
Definition distinct_keys (instructions : list Instruction) (payer : option Pubkey) : Z :=
  Z.of_nat (size (list_to_set (mention_key <$> mentions instructions payer) : gset Pubkey)).

(** What a message compiled from instructions is. *)
Record compiled_message (instructions : list Instruction) (payer : option Pubkey) (m : Legacy.Message)
  : Prop := {
  cp_keys : NoDup (Legacy.account_keys m);
  cp_mentioned key : key ∈ Legacy.account_keys m <-> key ∈ mention_key <$> mentions instructions payer;
  cp_privileges i key : vec_get (Legacy.account_keys m) i = Some key ->
    Legacy.is_signer m i = asks mention_signer (mentions instructions payer) key /\
    Legacy.is_writable_index m i = asks mention_writable (mentions instructions payer) key;
  cp_instructions : Forall2 (compiled_as (Legacy.account_keys m)) instructions (Legacy.instructions m);
  cp_payer key : payer = Some key -> head (Legacy.account_keys m) = Some key;
}.

Section compiled.
Context (instructions : list Instruction) (payer : option Pubkey).
Let map := key_meta_map (compile instructions payer).

Lemma compile_ok : btree_ok map.
Proof. unfold map. rewrite compile_mentions. apply note_ok. constructor. Qed.

Lemma compile_payer key : payer = Some key -> has_flags map true true key.
Proof.
  intros Hp. destruct (compile_get instructions payer key) as [Hs Hf]. fold map in Hs, Hf.
  assert (Payer key ∈ mentions instructions payer) as Hin
    by (rewrite Hp; apply elem_of_app; right; simpl; apply list_elem_of_here).
  destruct Hs as [_ [meta Hm]]; [by apply (list_elem_of_fmap_2 mention_key) in Hin|].
  destruct (Hf meta Hm) as [Hsig Hw]. exists meta. rewrite Hsig, Hw. split; [done|].
  split; apply existsb_exists; exists (Payer key); (split; [by apply list_elem_of_In|]); simpl;
    by rewrite bool_decide_eq_true_2.
Qed.

Lemma ordered_keys_size : vec_len (ordered_keys map payer) = distinct_keys instructions payer.
Proof.
  unfold distinct_keys, vec_len. f_equal.
  rewrite <- (size_list_to_set (C := gset Pubkey)) by (apply ordered_keys_NoDup; [apply compile_ok|apply compile_payer]).
  apply set_size_proper. intros key. rewrite !elem_of_list_to_set.
  rewrite ordered_keys_elem by (apply compile_ok || apply compile_payer).
  destruct (compile_get instructions payer key) as [Hs _]. apply Hs.
Qed.

Lemma compiled_privileges i key blockhash cis :
  vec_len (ordered_keys map payer) <= int_max U8 ->
  let m := Legacy.mkMessage (components_header map payer) (ordered_keys map payer) blockhash cis in
  vec_get (ordered_keys map payer) i = Some key ->
  Legacy.is_signer m i = asks mention_signer (mentions instructions payer) key /\
  Legacy.is_writable_index m i = asks mention_writable (mentions instructions payer) key.
Proof.
  intros Hlen m [H0 Hi]%vec_get_Some.
  destruct (ordered_keys_lookup map payer compile_ok compile_payer _ _ Hi) as (s & w & (meta & Hm & <- & <-) & Hs & Hw).
  destruct (compile_get instructions payer key) as [_ Hf]. fold map in Hf. destruct (Hf meta Hm) as [<- <-].
  assert (length (ordered_keys map payer) = length (option_list payer ++ kind map payer true true) +
    length (kind map payer true false) + length (kind map payer false true) + length (kind map payer false false))%nat
    as Hlen4 by (unfold ordered_keys; rewrite !length_app; lia).
  unfold Legacy.is_signer, Legacy.is_writable_index, m, components_header. simpl.
  unfold vec_len in *. simpl in Hlen.
  rewrite (wrapping_small U8), (wrapping_small USIZE) by (unfold in_range; simpl; lia).
  split.
  - destruct (cm_is_signer meta), (Z.ltb_spec i (Z.of_nat (length (option_list payer ++ kind map payer true true)) +
      Z.of_nat (length (kind map payer true false)))); try done; destruct Hs; lia.
  - apply eq_true_iff_eq. rewrite Hw, orb_true_iff, andb_true_iff, !Z.ltb_lt, Z.leb_le. lia.
Qed.

End compiled.

(** A message of at most 255 keys compiles. *)
Lemma new_with_blockhash_ok instructions payer blockhash :
  distinct_keys instructions payer <= int_max U8 ->
  exists m, Legacy.new_with_blockhash instructions payer blockhash = Ok m /\
    compiled_message instructions payer m /\ vec_len (Legacy.account_keys m) <= int_max U8 /\
    Legacy.header m = components_header (key_meta_map (compile instructions payer)) payer /\
    Legacy.account_keys m = ordered_keys (key_meta_map (compile instructions payer)) payer.
Proof.
  intros Hlen. rewrite <- ordered_keys_size in Hlen. unfold Legacy.new_with_blockhash.
  set (map := key_meta_map (compile instructions payer)) in *.
  assert (compile instructions payer = mkCompiledKeys payer map) as -> by done.
  assert (Hkeys : forall key, key ∈ ordered_keys map payer <-> key ∈ mention_key <$> mentions instructions payer).
  { intros key. rewrite ordered_keys_elem by (apply compile_ok || apply compile_payer).
    apply (compile_get instructions payer key). }
  destruct (components_run map payer) as [(-> & _)|[_ Hover]]; cbn [Legacy.expect outcome_bind snd fst].
  2:{ exfalso. unfold ordered_keys, vec_len in Hlen. rewrite !length_app in Hlen.
      unfold components_header, vec_len in Hover. simpl in *. rewrite length_app in Hover. lia. }
  destruct (try_collect_Forall2 (fun ix => Legacy.compile_instruction ix (ordered_keys map payer))
    (compiled_as (ordered_keys map payer)) instructions) as (cis & Hcis & HF).
  { apply list.Forall_forall. intros ix Hix. apply compile_instruction_ok; [simpl in Hlen; lia|].
    intros key Hkey. apply Hkeys. apply list_elem_of_fmap in Hkey as (x & -> & Hx).
    apply list_elem_of_fmap_2, elem_of_app. left. apply list_elem_of_join.
    exists (instruction_mentions ix). split; [done|]. by apply list_elem_of_fmap_2. }
  unfold Legacy.compile_instructions. rewrite Hcis. eexists. split; [done|].
  split; [|done]. split; cbn [Legacy.account_keys Legacy.instructions].
  - apply ordered_keys_NoDup; [apply compile_ok|apply compile_payer].
  - apply Hkeys.
  - intros i key. by apply compiled_privileges.
  - done.
  - by intros key ->.
Qed.

(** C29: a message says what its instructions ask for.  Compiling instructions
    that mention at most 255 distinct keys succeeds; the message has each
    mentioned key once, the payer first; the account of a key signs, and is
    requested writable, exactly if the payer or some instruction asks for it; and
    every compiled instruction refers to the program and the accounts of the
    instruction it was compiled from. *)
Theorem message_compiles (instructions : list Instruction) (payer : option Pubkey) (blockhash : Hash) :
  distinct_keys instructions payer <= int_max U8 ->
  exists m, Legacy.new_with_blockhash instructions payer blockhash = Ok m /\
    compiled_message instructions payer m.
Proof.
  intros Hlen. destruct (new_with_blockhash_ok instructions payer blockhash Hlen) as (m & Hm & Hc & _).
  by exists m.
Qed.

Lemma sanitize_instructions_ok len cis :
  Forall (fun ci => 0 < program_id_index ci < len /\ Forall (fun i => i < len) (ci_accounts ci)) cis ->
  Legacy.sanitize_instructions len cis = Ok tt.
Proof.
  induction 1 as [|ci cis [Hp Ha] _ IH]; simpl; [done|]. unfold Legacy.sanitize_instruction.
  destruct (Z.leb_spec len (program_id_index ci)); [lia|].
  destruct (Z.eqb_spec (program_id_index ci) 0); [lia|].
  assert (existsb (fun ai => len <=? ai) (ci_accounts ci) = false) as ->; [|done].
  apply not_true_iff_false. rewrite existsb_exists. intros (i & Hin & Hi). apply Z.leb_le in Hi.
  rewrite list.Forall_forall in Ha. apply list_elem_of_In, Ha in Hin. lia.
Qed.

Lemma compiled_as_sane keys ix ci payer :
  compiled_as keys ix ci -> head keys = Some payer -> ix_program_id ix <> payer ->
  0 < program_id_index ci < vec_len keys /\ Forall (fun i => i < vec_len keys) (ci_accounts ci).
Proof.
  intros [Hp Ha _] Hhead Hne. split.
  - apply vec_get_lt in Hp as Hlt. destruct (decide (program_id_index ci = 0)) as [H0|]; [|lia].
    rewrite H0 in Hp. destruct keys; simpl in *; [done|]. apply vec_get_Some in Hp as [_ Hp]. simpl in Hp. by simplify_eq.
  - apply list.Forall_forall. intros i [n Hn]%list_elem_of_lookup_1.
    destruct (Forall2_lookup_r _ _ _ _ _ Ha Hn) as (meta & _ & Hm). apply vec_get_lt in Hm. lia.
Qed.

(** C36: instructions with at most 255 different keys, the payer's included, of
    which no program is the payer, compile, and the message passes [sanitize].
    With more keys an index may not fit in a byte and wraps around, and
    [sanitize] may refuse what was compiled. *)
Theorem compiled_message_sanitizes (instructions : list Instruction) (payer : Pubkey) (blockhash : Hash) :
  distinct_keys instructions (Some payer) <= int_max U8 ->
  Forall (fun ix => ix_program_id ix <> payer) instructions ->
  exists m, Legacy.new_with_blockhash instructions (Some payer) blockhash = Ok m /\ Legacy.sanitize m = Ok tt.
Proof.
  intros Hlen Hne. destruct (new_with_blockhash_ok instructions (Some payer) blockhash Hlen)
    as (m & Hm & Hc & Hlen8 & Hh & Hk). exists m. split; [done|].
  unfold Legacy.sanitize. rewrite Hh.
  assert (vec_len (Legacy.account_keys m) = vec_len (ordered_keys (key_meta_map (compile instructions (Some payer)))
    (Some payer))) as Hl by by rewrite Hk.
  unfold ordered_keys in Hl. rewrite !vec_len_app in Hl.
  unfold components_header. cbn [num_required_signatures num_readonly_signed_accounts num_readonly_unsigned_accounts].
  rewrite vec_len_app. change (vec_len (option_list (Some payer))) with 1 in *.
  assert (forall l : list Pubkey, 0 <= vec_len l) as H0 by (intros; unfold vec_len; lia).
  set (map := key_meta_map _) in *.
  pose proof (H0 (kind map (Some payer) true true)). pose proof (H0 (kind map (Some payer) false true)).
  destruct (Z.ltb_spec (vec_len (Legacy.account_keys m)) (1 + vec_len (kind map (Some payer) true true) +
    vec_len (kind map (Some payer) true false) + vec_len (kind map (Some payer) false false))); [lia|].
  destruct (Z.leb_spec (1 + vec_len (kind map (Some payer) true true) + vec_len (kind map (Some payer) true false))
    (vec_len (kind map (Some payer) true false))); [lia|].
  apply sanitize_instructions_ok, list.Forall_forall. intros ci [n Hn]%list_elem_of_lookup_1.
  destruct (Forall2_lookup_r _ _ _ _ _ (cp_instructions _ _ _ Hc) Hn) as (ix & Hix & Hca).
  eapply compiled_as_sane; [done|by apply (cp_payer _ _ _ Hc)|].
  rewrite list.Forall_forall in Hne. apply Hne. by eapply list_elem_of_lookup_2.
Qed.
