(* ===== verification/MessageProcessor.v ===== *)
(** * Processing a message (program-runtime/src/message_processor.rs)

    [process_message] runs the instructions of a message one after the other on
    the accounts that were loaded for it.  The programs the runtime has
    ([find_builtin]) and the test for precompiled programs, which the feature
    set of the cluster decides, are parameters; timings are not modelled.

    The theorems: the accounts of each instruction are the message's, with its
    privileges and with duplicates marked; a message that is processed without
    an error conserves the lamports of its accounts, and when it fails, the
    error names the instruction that failed. *)

From S2P Require Import Prelude Errors Rent Account BTreeMap Pubkey Sysvars EpochSchedule Nonce TransactionContext RuntimeRules CallStack SysvarCache SystemProgram Effects InvokeContext InvokeRules ProcessRules Message MessageRules.

(** ** TransactionError (sdk/src/transaction/error.rs) *)

Module TransactionError.

Inductive TransactionError : Type :=
| AccountInUse
| AccountLoadedTwice
| AccountNotFound
| ProgramAccountNotFound
| InsufficientFundsForFee
| InvalidAccountForFee
| AlreadyProcessed
| BlockhashNotFound
| InstructionError (index : Z) (e : InstructionError)
| CallChainTooDeep
| MissingSignatureForFee
| InvalidAccountIndex
| SignatureFailure
| InvalidProgramForExecution
| SanitizeFailure
| ClusterMaintenance
| AccountBorrowOutstanding
| WouldExceedMaxBlockCostLimit
| UnsupportedVersion
| InvalidWritableAccount
| WouldExceedMaxAccountCostLimit
| WouldExceedAccountDataBlockLimit
| TooManyAccountLocks
| AddressLookupTableNotFound
| InvalidAddressLookupTableOwner
| InvalidAddressLookupTableData
| InvalidAddressLookupTableIndex
| InvalidRentPayingAccount
| WouldExceedMaxVoteCostLimit
| WouldExceedAccountDataTotalLimit
| DuplicateInstruction (index : Z)
| InsufficientFundsForRent (account_index : Z)
| MaxLoadedAccountsDataSizeExceeded
| InvalidLoadedAccountsDataSizeLimit
| ResanitizationNeeded
| ProgramExecutionTemporarilyRestricted (account_index : Z)
| UnbalancedTransaction.

End TransactionError.
Abbreviation TxError := TransactionError.TransactionError.

(** ** The instructions sysvar (sdk/program/src/sysvar/instructions.rs) *)

(** Overwrites the last two bytes; data that is shorter makes the index of the
    slice wrap around, which panics. *)
Definition store_current_index (data : Bytes) (instruction_index : Z) : option Bytes :=
  if vec_len data <? 2 then None
  else Some (take (length data - 2) data ++ le_bytes 2 instruction_index).

(** ** The loop *)

(** The invoke context and [accumulated_consumed_units]. *)
Abbreviation MessageM := (M (InvokeContext * Z) TxError).

Definition on_invoke {A} (index : Z) (m : InvM A) : MessageM A := fun '(s, units) =>
  let (o, s') := m s in
  (map_err (TransactionError.InstructionError (wrapping U8 index)) o, (s', units)).

(** [if let Some(account_index) = find_index_of_account(&instructions::id()) ..];
    [borrow_mut] panics if the account is borrowed. *)
Definition fixup_instructions_sysvar `{!ProgramIds} (instruction_index : Z)
  : M TransactionContext TxError unit := fun tc =>
  match find_index_of_account sysvar_instructions_id tc with
  | None => (Ok tt, tc)
  | Some account_index =>
      match get_account_at_index account_index tc with
      | Ok cell =>
          match peek_mut cell with
          | None => (Panic, tc)
          | Some account =>
              match store_current_index (acc_data account) (wrapping U16 instruction_index) with
              | None => (Panic, tc)
              | Some data =>
                  (Ok tt, set_cell account_index (mkRefCell (account_set_data data account) 0) tc)
              end
          end
      | Err _ => (Err TransactionError.InvalidAccountIndex, tc)
      | Panic => (Panic, tc)
      end
  end.

(** One account of the instruction, the [k]-th. *)
Definition message_account (message : SanitizedMessage) (accounts : list Z) (k : nat)
    (index_in_transaction : Z) : InstructionAccount :=
  let index_in_callee :=
    default (Z.of_nat k) (position (fun account_index => account_index =? index_in_transaction)
                            (take k accounts)) in
  mkInstructionAccount (as_index index_in_transaction) (as_index index_in_transaction)
    (as_index index_in_callee)
    (Sanitized.is_signer message index_in_transaction)
    (Sanitized.is_writable message index_in_transaction).

Definition message_accounts (message : SanitizedMessage) (accounts : list Z) : list InstructionAccount :=
  imap (message_account message accounts) accounts.

Section process.
Context `{!ProgramIds}.
Context (find_builtin : Pubkey -> option (option Builtin)) (is_precompile : Pubkey -> bool).

(** A precompiled program was verified before: its instruction is only entered
    and left. *)
Definition process_precompile (programs : list IndexOfAccount) (accounts : list InstructionAccount)
    (data : Bytes) : InvM unit :=
  on_tc (update_next_instruction_context (configure programs accounts data) ;? push ;? pop).

Definition process_one (fuel : nat) (message : SanitizedMessage) (instruction_index : Z)
    (program_id : option Pubkey) (instruction : CompiledInstruction) (programs : list IndexOfAccount)
  : MessageM unit :=
  let? program_id := lift (unwrap program_id) in
  (fun '(s, units) =>
     let (o, tc) := fixup_instructions_sysvar instruction_index (transaction_context s) in
     (o, (with_transaction_context tc s, units))) ;?
  let accounts := message_accounts message (ci_accounts instruction) in
  if is_precompile program_id then
    on_invoke instruction_index (process_precompile programs accounts (ci_data instruction))
  else (fun '(s, units) =>
     let (o, s') := process_instruction find_builtin fuel (ci_data instruction) accounts programs s in
     (map_err (TransactionError.InstructionError (wrapping U8 instruction_index)) o,
      (s', saturating_add U64 units (compute_units_consumed s')))).

Fixpoint process_instructions (fuel : nat) (message : SanitizedMessage) (instruction_index : Z)
    (items : list (option Pubkey * CompiledInstruction * list IndexOfAccount)) : MessageM unit :=
  match items with
  | [] => ret tt
  | (program_id, instruction, programs) :: items =>
      process_one fuel message instruction_index program_id instruction programs ;?
      process_instructions fuel message (instruction_index + 1) items
  end.

Definition process_message (fuel : nat) (message : SanitizedMessage)
    (program_indices : list (list IndexOfAccount)) (tc : TransactionContext) (env : Environment)
    (compute_unit_limit : Z) (accumulated_consumed_units : Z)
  : Outcome TxError unit * (InvokeContext * Z) :=
  process_instructions fuel message 0
    (zip (Sanitized.program_instructions_iter message) program_indices)
    (InvokeContext_new tc env compute_unit_limit, accumulated_consumed_units).

End process.

(** ** The accounts of an instruction *)

Lemma imap_Forall2 {A B} (f : nat -> A -> B) (R : A -> B -> Prop) l :
  (forall k x, l !! k = Some x -> R x (f k x)) -> Forall2 R l (imap f l).
Proof.
  revert f. induction l as [|x l IH]; intros f H; simpl; constructor; [by apply (H O)|].
  apply IH. intros k y Hk. by apply (H (S k)).
Qed.

(** Every account is an index into the keys, a byte. *)
Definition indices_ok (accounts : list Z) : Prop :=
  Forall (in_range U8) accounts /\ vec_len accounts <= int_max U16.

Lemma as_index_byte i : in_range U8 i -> as_index i = i.
Proof. intros H. apply wrapping_small. unfold in_range in *. simpl in *. lia. Qed.

(** [index_in_callee] is where the account occurs first. *)
Lemma message_accounts_dedup message accounts programs data :
  indices_ok accounts ->
  dedup_ok (mkInstructionContext 0 0 programs (message_accounts message accounts) data).
Proof.
  intros [Hb Hlen] i ia Hia. simpl in *. apply vec_get_Some in Hia as [Hi Hia].
  unfold message_accounts in Hia. rewrite list_lookup_imap in Hia.
  destruct (accounts !! Z.to_nat i) as [a|] eqn:Ha; [|done]. simpl in Hia. injection Hia as <-.
  rewrite list.Forall_forall in Hb.
  assert (Hbyte : forall k x, accounts !! k = Some x -> as_index x = x)
    by (intros k x Hk; apply as_index_byte, Hb; by eapply list_elem_of_lookup_2).
  set (k := Z.to_nat i) in *. apply lookup_lt_Some in Ha as Hlt. unfold vec_len in Hlen. simpl in Hlen.
  transitivity (position (fun x => x =? a) accounts).
  { symmetry. apply position_Forall2, imap_Forall2. intros k' x Hx. simpl.
    by rewrite (Hbyte _ _ Hx), (Hbyte _ _ Ha). }
  rewrite <- (take_drop_middle _ _ _ Ha) at 1. rewrite position_app. simpl. rewrite Z.eqb_refl. simpl.
  destruct (position _ (take k accounts)) as [p|] eqn:Hp; simpl.
  - apply position_Some in Hp as (H0 & x & Hx & _). apply vec_get_lt in Hx. unfold vec_len in Hx.
    rewrite length_take in Hx. unfold as_index. rewrite wrapping_small; [done|].
    unfold in_range. simpl. lia.
  - unfold as_index, vec_len. rewrite length_take, wrapping_small by (unfold in_range; simpl; lia).
    f_equal. lia.
Qed.

Lemma length_message_accounts message accounts :
  vec_len (message_accounts message accounts) = vec_len accounts.
Proof. unfold vec_len, message_accounts. by rewrite length_imap. Qed.

(** ** Conservation *)

(** Only the data of the instructions sysvar changes. *)
Lemma fixup_frame `{!ProgramIds} index tc o tc' :
  fixup_instructions_sysvar index tc = (o, tc') ->
  same_frame tc tc' /\ (forall j, lamports_at tc' j = lamports_at tc j).
Proof.
  unfold fixup_instructions_sysvar, get_account_at_index. intros Hr.
  destruct (find_index_of_account _ tc) as [i|]; [|by injection Hr as _ <-].
  destruct (ta_get i (accounts tc)) as [cell|] eqn:Hc; simpl in Hr; [|by injection Hr as _ <-].
  destruct (peek_mut cell) as [account|] eqn:Hp; [|by injection Hr as _ <-].
  destruct (store_current_index _ _) as [data|]; [|by injection Hr as _ <-].
  injection Hr as _ <-. split; [apply set_cell_frame|]. intros j. unfold lamports_at.
  rewrite account_at_set_cell by by eapply vec_get_lt. case_decide as Hj; [|done]. subst.
  unfold peek_mut in Hp. case_match; [|done]. injection Hp as <-. unfold account_at. by rewrite Hc.
Qed.

Lemma lamports_total tc tc' :
  length (ta_accounts (accounts tc')) = length (ta_accounts (accounts tc)) ->
  (forall j, lamports_at tc' j = lamports_at tc j) -> total_lamports tc' = total_lamports tc.
Proof.
  intros Hlen Hl. unfold total_lamports, account_sum. f_equal. apply list_eq. intros n.
  specialize (Hl (Z.of_nat n)). unfold lamports_at in Hl. rewrite <- !lookup_values in Hl.
  rewrite !list_lookup_fmap. destruct (values tc !! n) eqn:E1, (values tc' !! n) eqn:E2; simpl in *; try done.
  - by rewrite Hl.
  - apply lookup_lt_Some in E1. apply lookup_ge_None in E2. unfold values in *. rewrite length_fmap in *. lia.
  - apply lookup_lt_Some in E2. apply lookup_ge_None in E1. unfold values in *. rewrite length_fmap in *. lia.
Qed.

Section conserves.
Context {Hids : ProgramIds}.
Context (find_builtin : Pubkey -> option (option Builtin)) {Hprograms : ProgramsOk find_builtin}.
Context (is_precompile : Pubkey -> bool).

(** What holds between instructions. *)
Record between (start tc : TransactionContext) : Prop := {
  bt_stack : stack_ok tc;
  bt_keys : keys_ok tc;
  bt_total : total_lamports tc = total_lamports start;
}.

Lemma precompile_between start tc tc' programs ias data o :
  between start tc -> vec_len programs + vec_len ias <= int_max U16 ->
  dedup_ok (mkInstructionContext 0 0 programs ias data) ->
  (update_next_instruction_context (configure programs ias data) ;? push ;? pop) tc = (o, tc') ->
  o = Ok tt -> between start tc'.
Proof.
  intros [Hok Hk Ht] Hsm Hdd Hr ->. apply bind_ok_inv in Hr as ([] & tc1 & H1 & Hr).
  rewrite update_next_with_next in H1 by done. injection H1 as <-.
  apply bind_ok_inv in Hr as ([] & tc2 & Hp & Hpop).
  pose proof (with_next_stack_ok (configure programs ias data) tc Hok) as Hok1.
  destruct (pushed_running _ _ _ _ _ Hok Hk Hsm Hp) as (ic & [Hok2 Hk2 Hs2 Hc2] & Hias & _).
  assert (dedup_ok ic) as Hdd2 by (intros i ia; rewrite Hias; apply Hdd).
  pose proof (balanced_call_total ic _ _ _ _ Hok1 Hp Hc2 Hs2 Hdd2 (under_refl _ _ Hok2) Hpop) as Htot.
  pose proof (call_under [] _ _ _ _ _ Hok1 Hp (under_refl _ _ Hok2) Hpop) as Hu.
  pose proof (pop_capacity _ _ _ Hpop) as [Hkeys _].
  pose proof (push_capacity _ _ _ Hok1 Hp) as [Hkeys1 _].
  split; [apply Hu| |].
  - unfold keys_ok. rewrite Hkeys, Hkeys1. apply Hk.
  - rewrite Htot. by rewrite <- Ht.
Qed.

(** The accounts and programs of an instruction fit their index types. *)
Definition item_ok (item : option Pubkey * CompiledInstruction * list IndexOfAccount) : Prop :=
  let '(_, instruction, programs) := item in
  indices_ok (ci_accounts instruction) /\
  vec_len programs + vec_len (ci_accounts instruction) <= int_max U16.

Lemma process_one_between fuel message index program_id instruction programs start s units s' units' :
  item_ok (program_id, instruction, programs) ->
  between start (transaction_context s) ->
  process_one find_builtin is_precompile fuel message index program_id instruction programs (s, units) =
    (Ok tt, (s', units')) ->
  between start (transaction_context s').
Proof.
  intros [Hidx Hsm] [Hok Hk Ht] Hr. unfold process_one in Hr.
  apply bind_ok_inv in Hr as (id & st & H1 & Hr). apply lift_ok_inv in H1 as [_ ->].
  apply bind_ok_inv in Hr as ([] & [s1 u1] & H1 & Hr).
  destruct (fixup_instructions_sysvar index (transaction_context s)) as [o1 tc1] eqn:Hfix.
  injection H1 as -> <- <-. apply fixup_frame in Hfix as [Hf Hl].
  assert (between start tc1) as Hb1.
  { split; [by eapply same_frame_stack_ok| |].
    - unfold keys_ok. by rewrite (sf_keys _ _ Hf).
    - rewrite <- Ht. apply lamports_total; [apply Hf|done]. }
  rewrite <- (length_message_accounts message (ci_accounts instruction)) in Hsm.
  pose proof (message_accounts_dedup message _ programs (ci_data instruction) Hidx) as Hdd.
  destruct (is_precompile id).
  - unfold on_invoke, process_precompile in Hr.
    destruct (on_tc _ _) as [o2 s2] eqn:H2. injection Hr as Ho <- <-.
    apply zoom_inv in H2 as (tc2 & H2 & ->). destruct o2 as [[]|e|]; [|done..].
    eapply (precompile_between start tc1); [exact Hb1|exact Hsm|exact Hdd|exact H2|done].
  - destruct (process_instruction _ _ _ _ _ _) as [o2 s2] eqn:H2. injection Hr as Ho Hs2 _.
    destruct o2 as [[]|e|]; [|done..]. destruct Hb1 as [Hok1 Hk1 Ht1].
    set (s1 := with_transaction_context tc1 s) in *.
    change (stack_ok (transaction_context s1)) in Hok1. change (keys_ok (transaction_context s1)) in Hk1.
    assert (s2 = s') as -> by congruence.
    pose proof (process_instruction_contained_in find_builtin fuel _ _ _ _ s1 _ _ Hok1 Hk1 Hsm
      (reflexivity _) H2 ltac:(done)) as Hc.
    pose proof (process_instruction_total find_builtin fuel (ci_data instruction) _ programs s1 s'
      Hok1 Hk1 Hsm Hdd H2) as Htot.
    split; [apply Hc| |by rewrite Htot].
    unfold keys_ok. rewrite (ci_keys _ _ _ Hc). apply Hk1.
Qed.

Lemma process_instructions_between fuel message index items start s units s' units' :
  Forall item_ok items -> between start (transaction_context s) ->
  process_instructions find_builtin is_precompile fuel message index items (s, units) = (Ok tt, (s', units')) ->
  between start (transaction_context s').
Proof.
  intros Hall. revert index s units. induction Hall as [|[[id ix] programs] items Hitem _ IH];
    intros index s units Hb Hr; simpl in Hr.
  - by injection Hr as <- <-.
  - apply bind_ok_inv in Hr as ([] & [s1 u1] & H1 & Hr). eapply IH; [|exact Hr].
    by eapply process_one_between.
Qed.

(** C1: a message that is processed without an error conserves lamports.  With
    programs that stay within the accounts they are given, whatever its
    instructions run and invoke, the total of the accounts that were loaded for
    the message is the same at the end, precompiled programs and the fix-up of the
    instructions sysvar included. *)
Theorem message_conserves_lamports (fuel : nat) (message : SanitizedMessage)
    (program_indices : list (list IndexOfAccount)) (tc : TransactionContext) (env : Environment)
    (limit units units' : Z) (s' : InvokeContext) :
  stack_ok tc -> keys_ok tc ->
  Forall item_ok (zip (Sanitized.program_instructions_iter message) program_indices) ->
  process_message find_builtin is_precompile fuel message program_indices tc env limit units =
    (Ok tt, (s', units')) ->
  total_lamports (transaction_context s') = total_lamports tc.
Proof.
  intros Hok Hk Hall Hr. by apply (process_instructions_between _ _ _ _ tc) in Hr as [_ _ <-].
Qed.

Lemma process_one_error fuel message index id instruction programs st e st' :
  process_one find_builtin is_precompile fuel message index id instruction programs st = (Err e, st') ->
  e = TransactionError.InvalidAccountIndex \/
  exists err, e = TransactionError.InstructionError (wrapping U8 index) err.
Proof.
  destruct st as [s units]. unfold process_one, bind, lift. destruct id as [id|]; simpl; [|done].
  destruct (fixup_instructions_sysvar index (transaction_context s)) as [o1 tc1] eqn:Hfix.
  destruct o1 as [[]|e1|]; [|intros [= -> _]; left|done].
  - intros Hr. right. destruct (is_precompile id).
    + unfold on_invoke in Hr. destruct (process_precompile _ _ _ _) as [[]]; simpl in Hr; simplify_eq; eauto.
    + destruct (process_instruction _ _ _ _ _ _) as [[]]; simpl in Hr; simplify_eq; eauto.
  - unfold fixup_instructions_sysvar in Hfix. by repeat case_match; simplify_eq.
Qed.

(** An error names the instruction.  If a message fails, the instructions
    before some instruction succeeded and that one failed; the error carries its
    index and its error, unless the instructions sysvar could not be loaded. *)
Theorem message_error_located (fuel : nat) (message : SanitizedMessage)
    (program_indices : list (list IndexOfAccount)) (tc : TransactionContext) (env : Environment)
    (limit units : Z) (e : TxError) (st : InvokeContext * Z) :
  let items := zip (Sanitized.program_instructions_iter message) program_indices in
  process_message find_builtin is_precompile fuel message program_indices tc env limit units = (Err e, st) ->
  exists (i : nat) id instruction programs st_i,
    items !! i = Some (id, instruction, programs) /\
    process_instructions find_builtin is_precompile fuel message 0 (take i items)
      (InvokeContext_new tc env limit, units) = (Ok tt, st_i) /\
    process_one find_builtin is_precompile fuel message (Z.of_nat i) id instruction programs st_i = (Err e, st) /\
    (e = TransactionError.InvalidAccountIndex \/
     exists err, e = TransactionError.InstructionError (wrapping U8 (Z.of_nat i)) err).
Proof.
  intros items. unfold process_message. fold items.
  set (st0 := (InvokeContext_new tc env limit, units)). clearbody st0 items. intros Hr.
  enough (exists (i : nat) id instruction programs st_i,
    items !! i = Some (id, instruction, programs) /\
    process_instructions find_builtin is_precompile fuel message 0 (take i items) st0 = (Ok tt, st_i) /\
    process_one find_builtin is_precompile fuel message (0 + Z.of_nat i) id instruction programs st_i = (Err e, st))
    as (i & id & ix & programs & st_i & Hi & Hpre & Hone).
  { exists i, id, ix, programs, st_i. split_and!; [done..|].
    by apply process_one_error in Hone. }
  revert st0 Hr. generalize 0. induction items as [|[[id ix] programs] items IH]; intros index st0 Hr;
    simpl in Hr; [done|]. unfold bind in Hr.
  destruct (process_one _ _ _ _ _ _ _ _ st0) as [[[]|e1|] st1] eqn:H1; [| |done].
  - destruct (IH _ _ Hr) as (i & id' & ix' & programs' & st_i & Hi & Hpre & Hone).
    exists (S i), id', ix', programs', st_i. split; [done|]. split.
    + simpl. unfold bind. by rewrite H1.
    + by replace (index + Z.of_nat (S i)) with (index + 1 + Z.of_nat i) by lia.
  - injection Hr as -> ->. exists O, id, ix, programs, st0. rewrite Z.add_0_r. done.
Qed.

End conserves.
