(* ===== verification/VoteProgram.v ===== *)
(** * The vote program (programs/vote/src)

    The handlers that read the state of a vote account, change it and write it
    back (vote_state/mod.rs), the instructions (sdk/program/src/vote/instruction.rs)
    and the entrypoint (vote_processor.rs).  The state that a handler holds in a
    local variable is the state of an action run on it with [on_vote_state]. *)

From S2P Require Import Prelude Errors Rent Account BTreeMap Pubkey Sysvars EpochSchedule Nonce TransactionContext SysvarCache FeatureSet SystemProgram InvokeContext Message VoteState Votes.

(** ** Instructions *)

Record VoteAuthorizeWithSeedArgs := mkVoteAuthorizeWithSeedArgs {
  authorization_type : VoteAuthorize;
  current_authority_derived_key_owner : Pubkey;
  current_authority_derived_key_seed : Bytes;
  new_authority : Pubkey;
}.

Record VoteAuthorizeCheckedWithSeedArgs := mkVoteAuthorizeCheckedWithSeedArgs {
  checked_authorization_type : VoteAuthorize;
  checked_current_authority_derived_key_owner : Pubkey;
  checked_current_authority_derived_key_seed : Bytes;
}.

Inductive VoteInstruction : Type :=
| InitializeAccount (vote_init : VoteInit)
| Authorize (voter_pubkey : Pubkey) (vote_authorize : VoteAuthorize)
| VoteIx (vote : Vote)
| Withdraw (lamports : Z)
| UpdateValidatorIdentity
| UpdateCommission (commission : Z)
| VoteSwitch (vote : Vote) (proof : Hash)
| AuthorizeChecked (vote_authorize : VoteAuthorize)
| UpdateVoteState (update : VoteStateUpdate)
| UpdateVoteStateSwitch (update : VoteStateUpdate) (proof : Hash)
| AuthorizeWithSeed (args : VoteAuthorizeWithSeedArgs)
| AuthorizeCheckedWithSeed (args : VoteAuthorizeCheckedWithSeedArgs)
| CompactUpdateVoteState (update : VoteStateUpdate)
| CompactUpdateVoteStateSwitch (update : VoteStateUpdate) (proof : Hash).

Definition is_simple_vote (self : VoteInstruction) : bool :=
  match self with
  | VoteIx _ | VoteSwitch _ _ | UpdateVoteState _ | UpdateVoteStateSwitch _ _
  | CompactUpdateVoteState _ | CompactUpdateVoteStateSwitch _ _ => true
  | _ => false
  end.

Definition is_single_vote_state_update (self : VoteInstruction) : bool :=
  match self with
  | UpdateVoteState _ | UpdateVoteStateSwitch _ _
  | CompactUpdateVoteState _ | CompactUpdateVoteStateSwitch _ _ => true
  | _ => false
  end.

(** [Panic] if it is not a simple vote. *)
Definition VoteInstruction_last_voted_slot {E} (self : VoteInstruction) : Outcome E (option Slot) :=
  match self with
  | VoteIx v | VoteSwitch v _ => Ok (Vote_last_voted_slot v)
  | UpdateVoteState u | UpdateVoteStateSwitch u _
  | CompactUpdateVoteState u | CompactUpdateVoteStateSwitch u _ =>
      Ok (VoteStateUpdate_last_voted_slot u)
  | _ => Panic
  end.

Definition VoteInstruction_timestamp {E} (self : VoteInstruction) : Outcome E (option Z) :=
  match self with
  | VoteIx v | VoteSwitch v _ => Ok (vote_timestamp v)
  | UpdateVoteState u | UpdateVoteStateSwitch u _
  | CompactUpdateVoteState u | CompactUpdateVoteStateSwitch u _ => Ok (vsu_timestamp u)
  | _ => Panic
  end.

(** ** Actions on a local state *)

(** [vote_state.method(..)?] on a [let mut vote_state]. *)
Definition on_vote_state {A} (vote_state : VoteState) (m : M VoteState InstructionError A)
  : TxM (A * VoteState) :=
  let (o, vote_state') := m vote_state in
  lift (let! a := o in Ok (a, vote_state')).

(** [?] on a [VoteError] in a function that returns an [InstructionError]. *)
Definition vote_err {A} (m : M VoteState VoteErr A) : M VoteState InstructionError A := fun s =>
  let (o, s') := m s in (map_err VoteError.into o, s').

(** [result.is_err()], with the effects of the call. *)
Definition is_err {A} (m : TxM A) : TxM bool := fun tc =>
  match m tc with
  | (Ok _, tc') => (Ok false, tc')
  | (Err _, tc') => (Ok true, tc')
  | (Panic, tc') => (Panic, tc')
  end.

Module VoteProcessor.
Section vote_program.
Context `{!Hashing} {Hids : ProgramIds} {Hmids : MessageIds} {Hfids : FeatureIds}.
Context `{!Bincode VoteStateVersions, !BincodeLimited VoteInstruction}.

Definition DEFAULT_COMPUTE_UNITS : Z := 2100.

Definition set_vote_account_state (vote_account : BorrowedAccount) (vote_state : VoteState)
    (feature_set : FeatureSet) : TxM unit :=
  let current_size := vote_state_size_of true in
  if is_active feature_set vote_state_add_vote_latency then
    let? acc := query (borrowed vote_account) in
    let? cannot_grow :=
      if vec_len (acc_data acc) <? current_size then
        let? exempt := is_rent_exempt_at_data_length vote_account current_size in
        if negb exempt then ret true else is_err (set_data_length vote_account current_size)
      else ret false in
    if cannot_grow : bool
    then set_state vote_account (V1_14_11 (VoteState1_14_11_from vote_state))
    else set_state vote_account (CurrentVoteState vote_state)
  else set_state vote_account (V1_14_11 (VoteState1_14_11_from vote_state)).

Definition verify_authorized_signer (authorized : Pubkey) (signers : gset Pubkey)
  : Outcome InstructionError unit :=
  if decide (authorized ∈ signers) then Ok tt else Err MissingRequiredSignature.

(** [vote_account.get_state::<VoteStateVersions>()?.convert_to_current()] *)
Definition get_current_state (vote_account : BorrowedAccount) : TxM VoteState :=
  let? versions := get_state vote_account in
  ret (convert_to_current versions).

Definition authorize (vote_account : BorrowedAccount) (authorized : Pubkey)
    (vote_authorize : VoteAuthorize) (signers : gset Pubkey) (clock : Clock)
    (feature_set : FeatureSet) : TxM unit :=
  let? vote_state := get_current_state vote_account in
  let? vote_state :=
    match vote_authorize with
    | Voter =>
        let authorized_withdrawer_signer :=
          is_ok (verify_authorized_signer (authorized_withdrawer vote_state) signers) in
        let? target_epoch := lift (unwrap (checked_add U64 (leader_schedule_epoch clock) 1)) in
        let? result := on_vote_state vote_state
          (set_new_authorized_voter authorized (clock_epoch clock) target_epoch
             (fun epoch_authorized_voter =>
                if authorized_withdrawer_signer then Ok tt
                else verify_authorized_signer epoch_authorized_voter signers)) in
        ret (snd result)
    | Withdrawer =>
        lift (verify_authorized_signer (authorized_withdrawer vote_state) signers) ;?
        ret (with_authorized_withdrawer authorized vote_state)
    end in
  set_vote_account_state vote_account vote_state feature_set.

Definition update_validator_identity (vote_account : BorrowedAccount) (node_pubkey : Pubkey)
    (signers : gset Pubkey) (feature_set : FeatureSet) : TxM unit :=
  let? vote_state := get_current_state vote_account in
  lift (verify_authorized_signer (authorized_withdrawer vote_state) signers) ;?
  lift (verify_authorized_signer node_pubkey signers) ;?
  set_vote_account_state vote_account (with_node_pubkey node_pubkey vote_state) feature_set.

Definition is_commission_increase (vote_state : VoteState) (commission : Z) : bool :=
  VoteState.commission vote_state <? commission.

(** [checked_rem] is [None] for a divisor of zero. *)
Definition is_commission_update_allowed (slot : Slot) (epoch_schedule : EpochSchedule) : bool :=
  if slots_per_epoch epoch_schedule =? 0 then true
  else
    let relative_slot :=
      saturating_sub U64 slot (first_normal_slot epoch_schedule) mod slots_per_epoch epoch_schedule in
    saturating_mul U64 relative_slot 2 <=? slots_per_epoch epoch_schedule.

(** [if let Ok(..) = vote_account.get_state()] : [None] if it fails. *)
Definition try_get_state (vote_account : BorrowedAccount) : TxM (option VoteStateVersions) := fun tc =>
  match get_state vote_account tc with
  | (Ok versions, tc') => (Ok (Some versions), tc')
  | (Err _, tc') => (Ok None, tc')
  | (Panic, tc') => (Panic, tc')
  end.

Definition update_commission (vote_account : BorrowedAccount) (commission : Z)
    (signers : gset Pubkey) (epoch_schedule : EpochSchedule) (clock : Clock)
    (feature_set : FeatureSet) : TxM unit :=
  let? decoded :=
    if is_active feature_set allow_commission_decrease_at_any_time then
      let? versions := try_get_state vote_account in
      ret (convert_to_current <$> versions)
    else ret None in
  let enforce_commission_update_rule :=
    match decoded with
    | Some vote_state => is_commission_increase vote_state commission
    | None => true
    end in
  (if enforce_commission_update_rule
      && is_active feature_set commission_updates_only_allowed_in_first_half_of_epoch
      && negb (is_commission_update_allowed (clock_slot clock) epoch_schedule)
   then fail (VoteError.into VoteError.CommissionUpdateTooLate) else ret tt) ;?
  let? vote_state :=
    match decoded with
    | Some vote_state => ret vote_state
    | None => get_current_state vote_account
    end in
  lift (verify_authorized_signer (authorized_withdrawer vote_state) signers) ;?
  set_vote_account_state vote_account (with_commission commission vote_state) feature_set.

(** A close is refused if credits were earned in this epoch or the one before. *)
Definition reject_active_vote_account_close (vote_state : VoteState) (clock : Clock) : bool :=
  match list.last (epoch_credits vote_state) with
  | Some (last_epoch_with_credits, _, _) =>
      saturating_sub U64 (clock_epoch clock) last_epoch_with_credits <? 2
  | None => false
  end.

Definition withdraw (ic : InstructionContext) (vote_account_index : IndexOfAccount) (lamports : Z)
    (to_account_index : IndexOfAccount) (signers : gset Pubkey) (rent_sysvar : Rent) (clock : Clock)
    (feature_set : FeatureSet) : TxM unit :=
  borrowing (try_borrow_instruction_account ic vote_account_index) (fun vote_account =>
    let? vote_state := get_current_state vote_account in
    lift (verify_authorized_signer (authorized_withdrawer vote_state) signers) ;?
    let? acc := query (borrowed vote_account) in
    let? remaining_balance :=
      lift (ok_or InsufficientFunds (checked_sub U64 (acc_lamports acc) lamports)) in
    (if remaining_balance =? 0 then
       if reject_active_vote_account_close vote_state clock
       then fail (VoteError.into VoteError.ActiveVoteAccountClose)
       else set_vote_account_state vote_account VoteState_default feature_set
     else if remaining_balance <? minimum_balance rent_sysvar (vec_len (acc_data acc))
     then fail InsufficientFunds else ret tt) ;?
    checked_sub_lamports vote_account lamports) ;?
  borrowing (try_borrow_instruction_account ic to_account_index) (fun to_account =>
    checked_add_lamports to_account lamports).

Definition initialize_account (vote_account : BorrowedAccount) (vote_init : VoteInit)
    (signers : gset Pubkey) (clock : Clock) (feature_set : FeatureSet) : TxM unit :=
  let? acc := query (borrowed vote_account) in
  if negb (vec_len (acc_data acc) =?
           vote_state_size_of (is_active feature_set vote_state_add_vote_latency))
  then fail InvalidAccountData
  else
    let? versioned := get_state vote_account in
    if negb (is_uninitialized versioned) then fail AccountAlreadyInitialized
    else
      lift (verify_authorized_signer (init_node_pubkey vote_init) signers) ;?
      set_vote_account_state vote_account (VoteState_new vote_init clock) feature_set.

Definition verify_and_get_vote_state (vote_account : BorrowedAccount) (clock : Clock)
    (signers : gset Pubkey) : TxM VoteState :=
  let? versioned := get_state vote_account in
  if is_uninitialized versioned then fail UninitializedAccount
  else
    let? result := on_vote_state (convert_to_current versioned)
                     (get_and_update_authorized_voter (clock_epoch clock)) in
    let (authorized_voter, vote_state) := result : Pubkey * VoteState in
    lift (verify_authorized_signer authorized_voter signers) ;?
    ret vote_state.

(** [vote.slots.iter().max()] *)
Definition max_slot (slots : list Slot) : option Slot :=
  foldl (fun acc slot => Some (match acc with Some m => Z.max m slot | None => slot end)) None slots.

Definition process_vote_with_account (vote_account : BorrowedAccount) (slot_hashes : list SlotHash)
    (clock : Clock) (vote : Vote) (signers : gset Pubkey) (feature_set : FeatureSet) : TxM unit :=
  let? vote_state := verify_and_get_vote_state vote_account clock signers in
  let timely_vote_credits := is_active feature_set timely_vote_credits_id in
  let deprecate_unused_legacy_vote_plumbing :=
    is_active feature_set deprecate_unused_legacy_vote_plumbing_id in
  let? result := on_vote_state vote_state
    (vote_err (process_vote vote slot_hashes (clock_epoch clock) (clock_slot clock)
                 timely_vote_credits deprecate_unused_legacy_vote_plumbing) ;?
     match vote_timestamp vote with
     | Some timestamp =>
         let? slot := lift (ok_or (VoteError.into VoteError.EmptySlots) (max_slot (vote_slots vote))) in
         vote_err (process_timestamp slot timestamp)
     | None => ret tt
     end) in
  set_vote_account_state vote_account (snd result) feature_set.

Definition process_vote_state_update (vote_account : BorrowedAccount) (slot_hashes : list SlotHash)
    (clock : Clock) (vote_state_update : VoteStateUpdate) (signers : gset Pubkey)
    (feature_set : FeatureSet) : TxM unit :=
  let? vote_state := verify_and_get_vote_state vote_account clock signers in
  let? result := on_vote_state vote_state
    (vote_err (do_process_vote_state_update slot_hashes (clock_epoch clock) (clock_slot clock)
                 vote_state_update (Some feature_set))) in
  set_vote_account_state vote_account (snd result) feature_set.

(** ** The entrypoint (vote_processor.rs) *)

Definition process_authorize_with_seed_instruction (env : Environment) (ic : InstructionContext)
    (vote_account : BorrowedAccount) (new_authority : Pubkey) (authorization_type : VoteAuthorize)
    (current_authority_derived_key_owner : Pubkey) (current_authority_derived_key_seed : Bytes)
  : TxM unit :=
  let? clock := query (get_sysvar_with_account_check.clock (env_sysvar_cache env) ic 1) in
  let? signed := lift (is_instruction_account_signer ic 2) in
  let? expected_authority_keys :=
    if signed : bool then
      let? base_pubkey := query (key_of_instruction_account ic 2) in
      let? key := lift (map_err PubkeyError.into
        (create_with_seed base_pubkey current_authority_derived_key_seed
           current_authority_derived_key_owner)) in
      ret ({[key]} : gset Pubkey)
    else ret ∅ in
  authorize vote_account new_authority authorization_type expected_authority_keys clock
    (env_feature_set env).

(** What is left to do after [drop(me)]. *)
Record Withdrawal := mkWithdrawal { wd_lamports : Z; wd_rent : Rent; wd_clock : Clock }.

(** The body of the [match] on the instruction, up to the [drop(me)] of a
    withdrawal. *)
Definition dispatch (env : Environment) (ic : InstructionContext) (signers : gset Pubkey)
    (me : BorrowedAccount) (instruction : VoteInstruction) : TxM (option Withdrawal) :=
  let cache := env_sysvar_cache env in
  let feature_set := env_feature_set env in
  match instruction with
  | InitializeAccount vote_init =>
      let? rent := query (get_sysvar_with_account_check.rent cache ic 1) in
      let? acc := query (borrowed me) in
      if negb (is_exempt rent (acc_lamports acc) (vec_len (acc_data acc))) then fail InsufficientFunds
      else
        let? clock := query (get_sysvar_with_account_check.clock cache ic 2) in
        initialize_account me vote_init signers clock feature_set ;? ret None
  | Authorize voter_pubkey vote_authorize =>
      let? clock := query (get_sysvar_with_account_check.clock cache ic 1) in
      authorize me voter_pubkey vote_authorize signers clock feature_set ;? ret None
  | AuthorizeWithSeed args =>
      lift (check_number_of_instruction_accounts ic 3) ;?
      process_authorize_with_seed_instruction env ic me (new_authority args)
        (authorization_type args) (current_authority_derived_key_owner args)
        (current_authority_derived_key_seed args) ;? ret None
  | AuthorizeCheckedWithSeed args =>
      lift (check_number_of_instruction_accounts ic 4) ;?
      let? new_authority := query (key_of_instruction_account ic 3) in
      let? signed := lift (is_instruction_account_signer ic 3) in
      if negb signed then fail MissingRequiredSignature
      else
        process_authorize_with_seed_instruction env ic me new_authority
          (checked_authorization_type args) (checked_current_authority_derived_key_owner args)
          (checked_current_authority_derived_key_seed args) ;? ret None
  | UpdateValidatorIdentity =>
      lift (check_number_of_instruction_accounts ic 2) ;?
      let? node_pubkey := query (key_of_instruction_account ic 1) in
      update_validator_identity me node_pubkey signers feature_set ;? ret None
  | UpdateCommission commission =>
      let? epoch_schedule := lift (get_epoch_schedule cache) in
      let? clock := lift (get_clock cache) in
      update_commission me commission signers epoch_schedule clock feature_set ;? ret None
  | VoteIx vote | VoteSwitch vote _ =>
      let? slot_hashes := query (get_sysvar_with_account_check.slot_hashes cache ic 1) in
      let? clock := query (get_sysvar_with_account_check.clock cache ic 2) in
      process_vote_with_account me slot_hashes clock vote signers feature_set ;? ret None
  | UpdateVoteState update | UpdateVoteStateSwitch update _
  | CompactUpdateVoteState update | CompactUpdateVoteStateSwitch update _ =>
      let? slot_hashes := lift (get_slot_hashes cache) in
      let? clock := lift (get_clock cache) in
      process_vote_state_update me slot_hashes clock update signers feature_set ;? ret None
  | Withdraw lamports =>
      lift (check_number_of_instruction_accounts ic 2) ;?
      let? rent_sysvar := lift (get_rent cache) in
      let? clock_sysvar := lift (get_clock cache) in
      ret (Some (mkWithdrawal lamports rent_sysvar clock_sysvar))
  | AuthorizeChecked vote_authorize =>
      lift (check_number_of_instruction_accounts ic 4) ;?
      let? voter_pubkey := query (key_of_instruction_account ic 3) in
      let? signed := lift (is_instruction_account_signer ic 3) in
      if negb signed then fail MissingRequiredSignature
      else
        let? clock := query (get_sysvar_with_account_check.clock cache ic 1) in
        authorize me voter_pubkey vote_authorize signers clock feature_set ;? ret None
  end.

Definition Entrypoint (env : Environment) : TxM unit :=
  let? ic := query get_current_instruction_context in
  let? left :=
    borrowing (try_borrow_instruction_account ic 0) (fun me =>
      let? acc := query (borrowed me) in
      if bool_decide (acc_owner acc <> vote_program_id) then fail InvalidAccountOwner
      else
        let? signers := query (get_signers ic) in
        let? instruction := lift (limited_deserialize (instruction_data ic)) in
        let? withdrawal := dispatch env ic signers me instruction in
        ret ((fun w => (signers, w)) <$> withdrawal)) in
  match left with
  | None => ret tt
  | Some (signers, w) =>
      withdraw ic 0 (wd_lamports w) 1 signers (wd_rent w) (wd_clock w) (env_feature_set env)
  end.

(** The vote program as the runtime registers it. *)
Definition vote_builtin : Builtin := fun _ =>
  declare_process_instruction DEFAULT_COMPUTE_UNITS
    (let? env := gets environment in on_tc (Entrypoint env)).

End vote_program.
End VoteProcessor.
