(* ===== verification/VoteAuthority.v ===== *)
(** * The vote program as a program of the runtime

    The vote program keeps the runtime's rules in every run, so that it is an
    implementation of the interface [ProgramOk]; it conserves lamports; and what
    belongs to the withdrawer of a vote account (its lamports, its identity, its
    commission and the withdrawer itself) changes only when the withdrawer
    signed. *)

From S2P Require Import Prelude Errors Rent Account BTreeMap Pubkey Sysvars EpochSchedule Nonce TransactionContext RuntimeRules CallStack SysvarCache FeatureSet SystemProgram Effects SystemRules InvokeContext InvokeRules ProcessRules SystemContract Message VoteState Votes VoteProgram.
Import VoteProcessor.

(** ** Actions that only look at the result of another *)

Section shape.
Context (R : TransactionContext -> TransactionContext -> Prop) {HR : PreOrder R}.

Lemma on_vote_state_keeps {A} s (m : M VoteState InstructionError A) : keeps R (on_vote_state s m).
Proof. unfold on_vote_state. destruct (m s). by apply keeps_lift. Qed.

Lemma is_err_keeps {A} (m : TxM A) : keeps R m -> keeps R (is_err m).
Proof. intros Hm tc. specialize (Hm tc). unfold final, is_err in *. by destruct (m tc) as [[] ?]. Qed.

Lemma try_get_state_keeps `{!Bincode VoteStateVersions} ba :
  keeps R (get_state (T:=VoteStateVersions) ba) -> keeps R (try_get_state ba).
Proof. intros Hm tc. specialize (Hm tc). unfold final, try_get_state in *. by destruct (get_state ba tc) as [[] ?]. Qed.

End shape.

#[export] Hint Resolve on_vote_state_keeps is_err_keeps try_get_state_keeps : keeps.

(** ** The runtime's rules *)

Section obeys.
Context {hashing : Hashing} {ids : ProgramIds} {mids : MessageIds} {fids : FeatureIds}.
Context {versions_codec : Bincode VoteStateVersions} {instruction_codec : BincodeLimited VoteInstruction}.
Context (ic : InstructionContext) (Hsmall : ic_small ic).

Section account.
Context (ba : BorrowedAccount) (Hh : handle ic ba).

Lemma set_vote_account_state_obeys s fs : keeps (obeys ic) (set_vote_account_state ba s fs).
Proof.
  assert (keeps (obeys ic) (set_data_length ba (vote_state_size_of true))).
  { apply set_data_length_obeys; done. }
  unfold set_vote_account_state, is_rent_exempt_at_data_length. keeps.
Qed.
#[local] Hint Resolve set_vote_account_state_obeys : keeps.

Lemma get_current_state_obeys : keeps (obeys ic) (get_current_state ba).
Proof. unfold get_current_state. keeps. Qed.
#[local] Hint Resolve get_current_state_obeys : keeps.

Lemma vote_authorize_obeys k va signers clock fs : keeps (obeys ic) (authorize ba k va signers clock fs).
Proof. unfold authorize. keeps. Qed.
#[local] Hint Resolve vote_authorize_obeys : keeps.

Lemma verify_and_get_vote_state_obeys clock signers : keeps (obeys ic) (verify_and_get_vote_state ba clock signers).
Proof. unfold verify_and_get_vote_state. keeps. Qed.
#[local] Hint Resolve verify_and_get_vote_state_obeys : keeps.

Lemma vote_dispatch_obeys env signers instruction : keeps (obeys ic) (dispatch env ic signers ba instruction).
Proof.
  destruct instruction; unfold dispatch, initialize_account, update_validator_identity, update_commission,
    process_vote_with_account, process_vote_state_update, process_authorize_with_seed_instruction; keeps.
Qed.

End account.

Lemma vote_withdraw_obeys i l j signers r clock fs : keeps (obeys ic) (withdraw ic i l j signers r clock fs).
Proof.
  unfold withdraw.
  eauto 40 using set_vote_account_state_obeys, get_current_state_obeys with keeps.
Qed.

Lemma vote_entrypoint_obeys env tc o tc' :
  get_current_instruction_context tc = Ok ic -> Entrypoint env tc = (o, tc') -> obeys ic tc tc'.
Proof.
  intros Hic Hr. unfold Entrypoint, bind at 1, query at 1 in Hr. rewrite Hic in Hr.
  eapply (keeps_ok (obeys ic)); [|exact Hr].
  eauto 40 using vote_dispatch_obeys, vote_withdraw_obeys with keeps.
Qed.

End obeys.

Section contract.
Context {hashing : Hashing} {ids : ProgramIds} {mids : MessageIds} {fids : FeatureIds}.
Context {versions_codec : Bincode VoteStateVersions} {instruction_codec : BincodeLimited VoteInstruction}.

#[global] Instance vote_builtin_ok : ProgramOk vote_builtin.
Proof.
  split; [|done]. intros invoke _. apply declare_contained.
  apply contained_bind; [by apply contained_other|intros env].
  apply contained_on_tc. intros ic tc o tc' Hs Hic Hr. by eapply vote_entrypoint_obeys.
Qed.

End contract.

(** ** Who controls a vote account

    What belongs to the withdrawer of a vote account (its lamports, its identity,
    its commission and the choice of the withdrawer) changes only when the
    withdrawer signed, whatever the instruction. *)

From S2P Require Import NonceRules.
Import VoteProcessor.

(** ** Voting leaves the withdrawer's fields alone *)

Record same_fields (s s' : VoteState) : Prop := {
  same_withdrawer : authorized_withdrawer s' = authorized_withdrawer s;
  same_node : node_pubkey s' = node_pubkey s;
  same_commission : VoteState.commission s' = VoteState.commission s;
}.

#[global] Instance same_fields_preorder : PreOrder same_fields.
Proof. split; [by intros ?|]. intros x y z [] []. split; congruence. Qed.

Lemma increment_credits_fields epoch n s : same_fields s (increment_credits epoch n s).
Proof. unfold increment_credits. by repeat case_match. Qed.

Lemma pop_expired_fields n s : same_fields s (pop_expired_votes n s).
Proof. done. Qed.

#[local] Hint Extern 1 (keeps same_fields (modify _)) =>
  apply keeps_modify; first [exact (increment_credits_fields _ _)|done] : keeps.

Lemma double_lockouts_fields {E} : keeps same_fields (@double_lockouts E).
Proof. unfold double_lockouts. keeps. Qed.
#[local] Hint Resolve double_lockouts_fields : keeps.

Lemma next_vote_fields {E} n e c t d : keeps same_fields (@process_next_vote_slot E n e c t d).
Proof. unfold process_next_vote_slot. keeps. Qed.

Lemma vote_slots_fields {E} l e c t d : keeps same_fields (@process_vote_slots E l e c t d).
Proof.
  induction l; simpl; [keeps|]. apply keeps_bind; [apply _|apply next_vote_fields|done].
Qed.
#[local] Hint Resolve vote_slots_fields : keeps.

Lemma process_vote_fields v h e c t d : keeps same_fields (process_vote v h e c t d).
Proof. unfold process_vote, process_vote_unfiltered. keeps. Qed.

Lemma process_timestamp_fields n t : keeps same_fields (process_timestamp n t).
Proof. unfold process_timestamp. keeps. Qed.
#[local] Hint Resolve process_vote_fields process_timestamp_fields : keeps.

Lemma vote_err_keeps {A} R (m : M VoteState VoteErr A) : keeps R m -> keeps R (vote_err m).
Proof. intros Hm s. specialize (Hm s). unfold final, vote_err in *. by destruct (m s). Qed.
#[local] Hint Resolve vote_err_keeps : keeps.

Lemma vote_state_update_fields {fids : FeatureIds} h e n u fs :
  keeps same_fields (do_process_vote_state_update h e n u fs).
Proof.
  unfold do_process_vote_state_update, process_new_vote_state.
  apply keeps_bind; [apply _|keeps|intros s]. destruct (check_update_vote_state_slots_are_valid _ _ _). keeps.
Qed.

Lemma authorized_voter_fields e : keeps same_fields (get_and_update_authorized_voter e).
Proof.
  unfold get_and_update_authorized_voter.
  apply keeps_bind; [apply _|keeps|intros s]. destruct (get_and_cache_authorized_voter_for_epoch _ _). keeps.
Qed.
#[local] Hint Resolve vote_state_update_fields authorized_voter_fields : keeps.

Lemma new_authorized_voter_fields k c t v : keeps same_fields (set_new_authorized_voter k c t v).
Proof. unfold set_new_authorized_voter. keeps. Qed.
#[local] Hint Resolve new_authorized_voter_fields : keeps.

Lemma on_vote_state_ok {A} (R : VoteState -> VoteState -> Prop) s (m : M VoteState InstructionError A) tc r tc' :
  keeps R m -> on_vote_state s m tc = (Ok r, tc') -> tc' = tc /\ R s (snd r).
Proof.
  intros Hk Hr. unfold on_vote_state in Hr. specialize (Hk s). unfold final in Hk.
  destruct (m s) as [o s']. apply lift_ok_inv in Hr as [Hr ->]. split; [done|].
  by destruct o; simplify_eq/=.
Qed.

(** ** The state of an account *)

Section authority.
Context {hashing : Hashing} {ids : ProgramIds} {mids : MessageIds} {fids : FeatureIds}.
Context {versions_codec : Bincode VoteStateVersions} {versions_codec_ok : BincodeOk VoteStateVersions}.
Context {instruction_codec : BincodeLimited VoteInstruction}.

(** Account [i] holds an encoded vote state [v]. *)
Definition holds (i : IndexOfAccount) (v : VoteStateVersions) (tc : TransactionContext) : Prop :=
  exists a, account_at tc i = Some a /\ shared_deserialize_data a = Some v.

Lemma holds_inj i v v' tc : holds i v tc -> holds i v' tc -> v = v'.
Proof. intros (a & Ha & Hv) (a' & Ha' & Hv'). congruence. Qed.

Lemma get_state_holds ba tc v tc' :
  get_state ba tc = (Ok v, tc') -> tc' = tc /\ holds (ba_index_in_transaction ba) v tc.
Proof. by intros [-> (a & Ha & Hv)]%get_state_ok; split; [|exists a]. Qed.

Lemma set_state_holds ba v tc tc' :
  set_state ba v tc = (Ok tt, tc') -> holds (ba_index_in_transaction ba) v tc'.
Proof.
  intros (a & d & Hch & Hs & _)%set_state_changed. eexists. split; [apply Hch|]. by eapply serialize_into_roundtrip.
Qed.

Lemma set_vote_account_state_holds ba s fs tc tc' :
  set_vote_account_state ba s fs tc = (Ok tt, tc') ->
  exists v, holds (ba_index_in_transaction ba) v tc' /\ same_fields s (convert_to_current v).
Proof.
  intros Hr. unfold set_vote_account_state, is_rent_exempt_at_data_length in Hr.
  repeat match type of Hr with
  | bind _ _ _ = _ => apply bind_ok_inv in Hr as (? & ? & _ & Hr)
  | (if ?b then _ else _) _ = _ => destruct b
  | set_state _ _ _ = _ => apply set_state_holds in Hr; eexists; by split; [exact Hr|]
  end.
Qed.

(** One step on account [i]: if it held an initialized state, it holds one whose
    withdrawer's fields are the same unless [auth] holds of the withdrawer. *)
Definition guarded (auth : Pubkey -> Prop) (i : IndexOfAccount) (tc tc' : TransactionContext) : Prop :=
  forall v, holds i v tc -> is_uninitialized v = false ->
  exists v', holds i v' tc' /\
    (same_fields (convert_to_current v) (convert_to_current v') \/
     auth (authorized_withdrawer (convert_to_current v))).

Lemma guarded_mono (P Q : Pubkey -> Prop) i tc tc' :
  (forall k, P k -> Q k) -> guarded P i tc tc' -> guarded Q i tc tc'.
Proof. intros HPQ Hg v Hv Hi. destruct (Hg v Hv Hi) as (v' & ? & [?|?]); eauto. Qed.

(** Reading the state and writing one back that [step] relates to it. *)
Lemma write_guarded (auth : gset Pubkey) ba s s' fs v0 tc tc' :
  holds (ba_index_in_transaction ba) v0 tc -> s = convert_to_current v0 ->
  (same_fields s s' \/ authorized_withdrawer s ∈ auth) ->
  set_vote_account_state ba s' fs tc = (Ok tt, tc') ->
  guarded (.∈ auth) (ba_index_in_transaction ba) tc tc'.
Proof.
  intros Hh -> Hs (v' & Hv' & Hf)%set_vote_account_state_holds v Hv _.
  rewrite (holds_inj _ _ _ _ Hv Hh). exists v'. split; [done|].
  destruct Hs as [Hs|Hs]; [left; by etransitivity|by right].
Qed.

Lemma verify_authorized_signer_ok k auth u : verify_authorized_signer k auth = Ok u -> k ∈ auth.
Proof. unfold verify_authorized_signer. by case_decide. Qed.

Lemma get_current_state_ok ba tc s tc' :
  get_current_state ba tc = (Ok s, tc') ->
  tc' = tc /\ exists v, holds (ba_index_in_transaction ba) v tc /\ s = convert_to_current v.
Proof.
  unfold get_current_state. intros (v & s1 & [-> Hv]%get_state_holds & Hr)%bind_ok_inv.
  apply ret_ok_inv in Hr as [-> ->]. eauto.
Qed.

(** ** The handlers *)

Ltac step_ok Hr :=
  let Hq := fresh "Hq" in
  apply bind_ok_inv in Hr as (? & ? & Hq & Hr);
  first [ apply query_ok_inv in Hq as [Hq ->] | apply lift_ok_inv in Hq as [Hq ->]
        | apply get_current_state_ok in Hq as (-> & ? & ? & ->) | idtac ].

Lemma authorize_guarded ba k va auth clock fs tc tc' :
  authorize ba k va auth clock fs tc = (Ok tt, tc') -> guarded (.∈ auth) (ba_index_in_transaction ba) tc tc'.
Proof.
  unfold authorize. intros Hr. step_ok Hr. step_ok Hr. destruct va.
  - step_ok Hq. step_ok Hq. apply ret_ok_inv in Hq as [-> ->].
    apply (on_vote_state_ok same_fields) in Hq1 as [-> Hf]; [|keeps].
    eapply write_guarded; [done|done|by left|done].
  - step_ok Hq. apply ret_ok_inv in Hq as [-> ->].
    apply verify_authorized_signer_ok in Hq0. eapply write_guarded; [done|done|by right|done].
Qed.

Lemma update_validator_identity_guarded ba k auth fs tc tc' :
  update_validator_identity ba k auth fs tc = (Ok tt, tc') ->
  guarded (.∈ auth) (ba_index_in_transaction ba) tc tc'.
Proof.
  unfold update_validator_identity. intros Hr. do 3 step_ok Hr.
  apply verify_authorized_signer_ok in Hq. eapply write_guarded; [done|done|by right|done].
Qed.

Lemma update_commission_guarded ba c auth es clock fs tc tc' :
  update_commission ba c auth es clock fs tc = (Ok tt, tc') ->
  guarded (.∈ auth) (ba_index_in_transaction ba) tc tc'.
Proof.
  unfold update_commission. intros (decoded & tc1 & Hd & Hr)%bind_ok_inv.
  assert (tc1 = tc /\ forall s, decoded = Some s ->
    exists v, holds (ba_index_in_transaction ba) v tc /\ s = convert_to_current v) as [-> Hdec].
  { destruct (is_active _ _); [|by apply ret_ok_inv in Hd as [-> ->]].
    apply bind_ok_inv in Hd as (o & t & Ht & Hd). apply ret_ok_inv in Hd as [-> ->].
    unfold try_get_state in Ht. destruct (get_state ba tc) as [[v|e|] t1] eqn:Hg; simplify_eq.
    - apply get_state_holds in Hg as [-> Hv]. split; [done|]. intros s [= <-]. eauto.
    - split; [|done]. revert Hg. unfold get_state, bind, query, lift. by repeat case_match; intros; simplify_eq. }
  apply bind_ok_inv in Hr as (u & t & Hg & Hr).
  assert (t = tc) as -> by (destruct (_ && _); by inv_ok Hg).
  apply bind_ok_inv in Hr as (s & t & Hs & Hr).
  assert (t = tc /\ exists v, holds (ba_index_in_transaction ba) v tc /\ s = convert_to_current v)
    as (-> & v & Hv & ->).
  { destruct decoded as [s0|]; [apply ret_ok_inv in Hs as [-> ->]; by eauto|by apply get_current_state_ok in Hs]. }
  step_ok Hr. apply verify_authorized_signer_ok in Hq.
  eapply write_guarded; [done|done|by right|done].
Qed.

Lemma initialize_account_guarded ba i auth clock fs tc tc' :
  initialize_account ba i auth clock fs tc = (Ok tt, tc') -> guarded (.∈ auth) (ba_index_in_transaction ba) tc tc'.
Proof.
  unfold initialize_account. intros Hr. step_ok Hr. destruct (negb _); [done|].
  apply bind_ok_inv in Hr as (v0 & t & [-> Hv0]%get_state_holds & Hr).
  destruct (is_uninitialized v0) eqn:Hu; [|done].
  intros v Hv Hi. rewrite (holds_inj _ _ _ _ Hv Hv0) in Hi. congruence.
Qed.

(** A vote reads the state, checks the voter and writes the state back. *)
Lemma voting_guarded ba clock auth (m : M VoteState InstructionError unit) fs tc tc' :
  keeps same_fields m ->
  (let? vote_state := verify_and_get_vote_state ba clock auth in
   let? result := on_vote_state vote_state m in
   set_vote_account_state ba (snd result) fs) tc = (Ok tt, tc') ->
  guarded (.∈ auth) (ba_index_in_transaction ba) tc tc'.
Proof.
  intros Hm Hr. apply bind_ok_inv in Hr as (s & t & Hs & Hr). unfold verify_and_get_vote_state in Hs.
  apply bind_ok_inv in Hs as (v & t1 & [-> Hv]%get_state_holds & Hs).
  destruct (is_uninitialized v); [done|].
  apply bind_ok_inv in Hs as ([k s1] & t1 & Hs1 & Hs).
  apply (on_vote_state_ok same_fields) in Hs1 as [-> Hf1]; [|keeps]. step_ok Hs. apply ret_ok_inv in Hs as [-> ->].
  apply bind_ok_inv in Hr as (r & t1 & Hr1 & Hr). apply (on_vote_state_ok same_fields) in Hr1 as [-> Hf2]; [|done].
  eapply write_guarded; [done|done| |done]. left. by etransitivity.
Qed.

Lemma process_vote_guarded ba h clock v auth fs tc tc' :
  process_vote_with_account ba h clock v auth fs tc = (Ok tt, tc') ->
  guarded (.∈ auth) (ba_index_in_transaction ba) tc tc'.
Proof. apply voting_guarded. keeps. Qed.

Lemma process_update_guarded ba h clock u auth fs tc tc' :
  process_vote_state_update ba h clock u auth fs tc = (Ok tt, tc') ->
  guarded (.∈ auth) (ba_index_in_transaction ba) tc tc'.
Proof. apply voting_guarded. keeps. Qed.

(** ** Who signed *)

(** [key] signed, or is derived from a base that did. *)
Definition controls (ic : InstructionContext) (tc : TransactionContext) (key : Pubkey) : Prop :=
  signed ic tc key \/
  exists base seed owner, signed ic tc base /\ create_with_seed base seed owner = Ok key.

Lemma signed_frame ic tc tc' key : same_frame tc tc' -> signed ic tc' key -> signed ic tc key.
Proof.
  intros Hf (ia & Hin & Hs & Hk). exists ia. split_and!; try done.
  unfold get_key_of_account_at_index in *. by rewrite (sf_keys _ _ Hf) in Hk.
Qed.

Lemma instruction_account_signed ic i tc key :
  is_instruction_account_signer ic i = Ok true -> key_of_instruction_account ic i tc = Ok key ->
  signed ic tc key.
Proof.
  unfold is_instruction_account_signer, key_of_instruction_account, get_index_of_instruction_account_in_transaction.
  destruct (vec_get (instruction_accounts ic) i) as [ia|] eqn:Hi; [|done]. simpl. intros [= Hs] Hk.
  exists ia. split; [|done]. apply vec_get_Some in Hi as [_ Hi]. by eapply list_elem_of_lookup_2.
Qed.

Lemma authorize_with_seed_guarded env ic ba k va owner seed tc tc' :
  process_authorize_with_seed_instruction env ic ba k va owner seed tc = (Ok tt, tc') ->
  guarded (controls ic tc) (ba_index_in_transaction ba) tc tc'.
Proof.
  unfold process_authorize_with_seed_instruction. intros Hr. step_ok Hr. step_ok Hr.
  apply bind_ok_inv in Hr as (keys & t & Hk & Hr). destruct x0.
  - step_ok Hk. step_ok Hk. apply ret_ok_inv in Hk as [-> ->]. apply map_err_ok in Hq2.
    eapply guarded_mono; [|by eapply authorize_guarded]. intros k' ->%elem_of_singleton.
    right. eexists _, seed, owner. split; [|done]. by eapply instruction_account_signed.
  - apply ret_ok_inv in Hk as [-> ->]. eapply guarded_mono; [|by eapply authorize_guarded].
    intros k' ?%elem_of_empty. done.
Qed.

(** An instruction but a withdrawal changes the account, a withdrawal only
    reads its arguments before it begins. *)
Lemma dispatch_guarded env ic signers ba instruction tc w tc' :
  get_signers ic tc = Ok signers -> dispatch env ic signers ba instruction tc = (Ok w, tc') ->
  match w with
  | None => guarded (controls ic tc) (ba_index_in_transaction ba) tc tc'
  | Some w => tc' = tc /\ instruction = Withdraw (wd_lamports w)
  end.
Proof.
  intros Hs Hr.
  assert (forall k, k ∈ signers -> controls ic tc k) as Hc.
  { intros k Hk. left. by eapply get_signers_spec. }
  destruct instruction; unfold dispatch in Hr;
    repeat match type of Hr with
    | (if ?b then _ else _) _ = _ => destruct b; [done|]
    | bind (query _) _ _ = _ => step_ok Hr
    | bind (lift _) _ _ = _ => step_ok Hr
    | bind _ _ _ = _ => apply bind_ok_inv in Hr as ([] & ? & Hdo & Hr)
    | ret _ _ = _ => apply ret_ok_inv in Hr as [-> ->]
    end; try done;
    first [ by eapply authorize_with_seed_guarded
          | eapply guarded_mono; [exact Hc|];
            first [ by eapply authorize_guarded | by eapply initialize_account_guarded
                  | by eapply update_validator_identity_guarded | by eapply update_commission_guarded
                  | by eapply process_vote_guarded | by eapply process_update_guarded ] ].
Qed.

(** ** Lamports *)

Lemma set_vote_account_state_local ba s fs :
  keeps (local_to (ba_index_in_transaction ba)) (set_vote_account_state ba s fs).
Proof.
  unfold set_vote_account_state, is_rent_exempt_at_data_length. keeps.
Qed.

Lemma set_vote_account_state_same_lamports ba s fs : keeps same_lamports (set_vote_account_state ba s fs).
Proof. unfold set_vote_account_state, is_rent_exempt_at_data_length. keeps. Qed.
#[local] Hint Resolve set_vote_account_state_same_lamports : keeps.

Lemma get_current_state_same_lamports ba : keeps same_lamports (get_current_state ba).
Proof. unfold get_current_state. keeps. Qed.
#[local] Hint Resolve get_current_state_same_lamports : keeps.

Lemma vote_authorize_same_lamports ba k va signers clock fs :
  keeps same_lamports (authorize ba k va signers clock fs).
Proof. unfold authorize. keeps. Qed.

Lemma verify_and_get_same_lamports ba clock signers :
  keeps same_lamports (verify_and_get_vote_state ba clock signers).
Proof. unfold verify_and_get_vote_state. keeps. Qed.
#[local] Hint Resolve vote_authorize_same_lamports verify_and_get_same_lamports : keeps.

Lemma update_commission_same_lamports ba c signers es clock fs :
  keeps same_lamports (update_commission ba c signers es clock fs).
Proof. unfold update_commission. keeps. Qed.
Lemma update_identity_same_lamports ba k signers fs :
  keeps same_lamports (update_validator_identity ba k signers fs).
Proof. unfold update_validator_identity. keeps. Qed.
Lemma initialize_account_same_lamports ba i signers clock fs :
  keeps same_lamports (initialize_account ba i signers clock fs).
Proof. unfold initialize_account. keeps. Qed.
Lemma authorize_with_seed_same_lamports env ic ba k va owner seed :
  keeps same_lamports (process_authorize_with_seed_instruction env ic ba k va owner seed).
Proof. unfold process_authorize_with_seed_instruction. keeps. Qed.
#[local] Hint Resolve update_commission_same_lamports update_identity_same_lamports
  initialize_account_same_lamports authorize_with_seed_same_lamports : keeps.

Lemma vote_dispatch_same_lamports env ic signers ba instruction :
  keeps same_lamports (dispatch env ic signers ba instruction).
Proof.
  destruct instruction; unfold dispatch, process_vote_with_account, process_vote_state_update; keeps.
Qed.

(** What a withdrawal takes from the vote account. *)
Definition withdrawn (r : Rent) (clock : Clock) (l : Z) (signers : gset Pubkey)
    (a a' : AccountSharedData) : Prop :=
  exists v v' a1, shared_deserialize_data a = Some v /\
    authorized_withdrawer (convert_to_current v) ∈ signers /\
    shared_deserialize_data a1 = Some v' /\ a' = debit l a1 /\ acc_lamports a1 = acc_lamports a /\
    (acc_lamports a' = 0 /\ reject_active_vote_account_close (convert_to_current v) clock = false \/
     minimum_balance r (vec_len (acc_data a)) <= acc_lamports a').

Lemma close_or_keep ba v l r clock fs a tc tc' :
  account_at tc (ba_index_in_transaction ba) = Some a -> shared_deserialize_data a = Some v ->
  (if acc_lamports a - l =? 0 then
     if reject_active_vote_account_close (convert_to_current v) clock
     then fail (VoteError.into VoteError.ActiveVoteAccountClose)
     else set_vote_account_state ba VoteState_default fs
   else if acc_lamports a - l <? minimum_balance r (vec_len (acc_data a))
   then fail InsufficientFunds else ret tt) tc = (Ok tt, tc') ->
  exists a1 v', becomes (ba_index_in_transaction ba) a a1 tc tc' /\ shared_deserialize_data a1 = Some v' /\
    acc_lamports a1 = acc_lamports a /\
    (acc_lamports a - l = 0 /\ reject_active_vote_account_close (convert_to_current v) clock = false \/
     minimum_balance r (vec_len (acc_data a)) <= acc_lamports a - l).
Proof.
  intros Ha Hv. destruct (Z.eqb_spec (acc_lamports a - l) 0) as [H0|H0].
  - destruct (reject_active_vote_account_close _ _) eqn:Hc; [done|]. intros Hr.
    destruct (set_vote_account_state_holds _ _ _ _ _ Hr) as (v' & (a1 & Ha1 & Hv1) & _).
    pose proof (keeps_ok _ _ _ _ _ (set_vote_account_state_same_lamports ba _ fs) Hr) as Hl.
    pose proof (keeps_ok _ _ _ _ _ (set_vote_account_state_local ba _ fs) Hr) as [Hf _ Ho].
    exists a1, v'. split_and!; [done|done| |by left].
    specialize (Hl (ba_index_in_transaction ba)). rewrite Ha, Ha1 in Hl. by injection Hl.
  - destruct (Z.ltb_spec (acc_lamports a - l) (minimum_balance r (vec_len (acc_data a)))); [done|].
    intros Hr. apply ret_ok_inv in Hr as [_ ->]. exists a, v.
    split_and!; [by apply changed_becomes, changed_refl|done|done|by right].
Qed.

Lemma withdraw_withdrawn ic i l j signers r clock fs tc tc' :
  withdraw ic i l j signers r clock fs tc = (Ok tt, tc') ->
  exists from to a a' b mid,
    vec_get (instruction_accounts ic) i = Some from /\ vec_get (instruction_accounts ic) j = Some to /\
    becomes (index_in_transaction from) a a' tc mid /\ withdrawn r clock l signers a a' /\
    becomes (index_in_transaction to) b (credit l b) mid tc'.
Proof.
  intros (u & mid & H1 & H2)%bind_ok_inv. destruct u.
  apply (borrowing_becomes _ _ _ _ _ (withdrawn r clock l signers)) in H1 as (from & a & a' & Hi & Hb1 & Hw).
  - apply (borrowing_becomes _ _ _ _ _ (fun b b' => b' = credit l b)) in H2 as (to & b & ? & Hj & Hb2 & ->).
    + by exists from, to, a, a', b, mid.
    + intros to tc1 tc2 Hj _ _ (b & Hch & _)%checked_add_lamports_changed.
      exists b, (credit l b). split; [by apply changed_becomes|done].
  - intros from tc1 tc2 _ _ _ Hr. cbv beta in Hr. step_ok Hr. destruct H as (a & Ha & Hv).
    step_ok Hr. apply verify_authorized_signer_ok in Hq. step_ok Hr.
    apply borrowed_account_at in Hq0. rewrite Ha in Hq0. injection Hq0 as <-.
    step_ok Hr. apply ok_or_ok, checked_Some in Hq0 as [-> _].
    apply bind_ok_inv in Hr as ([] & t & Hc & Hr). eapply close_or_keep in Hc as (a1 & v' & Hb & Hv' & Hl & Hrule); [|done..].
    apply checked_sub_lamports_changed in Hr as (a2 & Hch & _). apply changed_becomes in Hch.
    pose proof (be_after _ _ _ _ _ Hb) as He. rewrite (be_before _ _ _ _ _ Hch) in He. injection He as ->.
    exists a, (debit l a1). split; [by eapply becomes_trans|]. eexists _, v', a1. split_and!; try done.
    simpl. by rewrite Hl.
Qed.

(** ** The program *)

(** A decoded instruction is within its types. *)
Definition vote_instruction_wf (instruction : VoteInstruction) : Prop :=
  match instruction with
  | Withdraw lamports => in_range U64 lamports
  | UpdateCommission commission => in_range U8 commission
  | _ => True
  end.

Context {instruction_codec_ok : BincodeLimitedOk VoteInstruction vote_instruction_wf}.

(** What the first part of a run did, and whether a withdrawal is left to do. *)
Lemma entrypoint_ok env ic tc tc' :
  get_current_instruction_context tc = Ok ic -> Entrypoint env tc = (Ok tt, tc') ->
  exists ia signers, vec_get (instruction_accounts ic) 0 = Some ia /\ get_signers ic tc = Ok signers /\
  ((same_lamports tc tc' /\ guarded (controls ic tc) (index_in_transaction ia) tc tc') \/
   exists w tc1, 0 <= wd_lamports w /\ same_frame tc tc1 /\ (forall j, account_at tc1 j = account_at tc j) /\
     withdraw ic 0 (wd_lamports w) 1 signers (wd_rent w) (wd_clock w) (env_feature_set env) tc1 = (Ok tt, tc')).
Proof.
  intros Hic Hr. unfold Entrypoint in Hr. step_ok Hr. rewrite Hic in Hq. injection Hq as <-.
  apply bind_ok_inv in Hr as (rest & tc3 & Hb & Hr).
  apply borrowing_ok_inv in Hb as (ia & tc1 & tc2 & Hi & _ & (Hf & Hv & _) & Hsc & ->).
  exists ia. cbv beta in Hsc. step_ok Hsc. case_bool_decide; [done|].
  apply bind_ok_inv in Hsc as (signers & t & [Hsg ->]%query_ok_inv & Hsc). step_ok Hsc.
  apply ok_or_ok, deserialize_with_limit_wf in Hq0. exists signers. split; [done|].
  split; [by rewrite (get_signers_frame ic tc tc1) in Hsg|].
  apply bind_ok_inv in Hsc as (w & t & Hd & Hsc). apply ret_ok_inv in Hsc as [-> ->].
  pose proof (dispatch_guarded _ _ _ _ _ _ _ _ Hsg Hd) as Hg.
  pose proof (keeps_ok _ _ _ _ _ (vote_dispatch_same_lamports _ _ _ _ _) Hd) as Hl.
  destruct (drop_account_only (instruction_handle_of ic 0 ia) t) as (Hf' & Hv' & _).
  destruct w as [w|]; simpl in Hr.
  - right. destruct Hg as [-> ->]. exists w. eexists. split; [apply Hq0|].
    split; [by etransitivity|]. split; [|exact Hr]. intros j. etransitivity; [apply Hv'|apply Hv].
  - left. apply ret_ok_inv in Hr as [_ ->]. simpl in Hg. split.
    + etransitivity; [by apply values_same_lamports|]. etransitivity; [exact Hl|]. by apply values_same_lamports.
    + intros v (a & Ha & Hva) Hini. destruct (Hg v) as (v' & (a' & Ha' & Hva') & Hc); [|done|].
      { exists a. by rewrite Hv. }
      exists v'. split; [exists a'; split; [etransitivity; [apply Hv'|exact Ha']|done]|].
      destruct Hc as [Hc|Hc]; [by left|right]. destruct Hc as [Hc|(b & sd & o & Hb & Hk)].
      * left. by eapply signed_frame.
      * right. exists b, sd, o. split; [by eapply signed_frame|done].
Qed.

(** A withdrawal moves lamports from the vote account to another. *)
Lemma withdrawn_moves r clock l signers from to a a' b tc mid tc' :
  becomes from a a' tc mid -> withdrawn r clock l signers a a' -> becomes to b (credit l b) mid tc' -> 0 <= l ->
  total_lamports tc' = total_lamports tc /\
  (forall j x x', j <> from -> account_at tc j = Some x -> account_at tc' j = Some x' ->
     acc_lamports x <= acc_lamports x') /\
  exists v', holds from v' tc'.
Proof.
  intros Hb1 (v & v' & a1 & _ & _ & Hv' & -> & Hl & _) Hb2 Hpos. split_and!.
  - apply becomes_total in Hb1, Hb2. simpl in *. lia.
  - intros j x x' Hj Hx Hx'. destruct (Z.le_gt_cases (acc_lamports x) (acc_lamports x')) as [|Hlt]; [done|].
    by destruct (moved_decrease _ _ _ _ _ _ _ _ _ _ _ _ Hb1 Hl Hb2 Hpos Hx Hx' ltac:(lia)) as (-> & _).
  - exists v'. destruct (decide (from = to)) as [<-|Hne].
    + pose proof (be_before _ _ _ _ _ Hb2) as Hb. rewrite (be_after _ _ _ _ _ Hb1) in Hb. injection Hb as <-.
      eexists. by split; [apply Hb2|].
    + exists (debit l a1). split; [|done]. rewrite (be_other _ _ _ _ _ Hb2) by done. apply Hb1.
Qed.

(** C14: the withdrawer controls a vote account.  Whatever the vote program is
    asked to do, if it succeeds the total of lamports is what it was, no account
    but the vote account has fewer, and the vote account still holds a vote
    state; if it has fewer lamports than before, or another withdrawer, identity
    or commission, then its withdrawer signed, or the withdrawer's address is
    derived from a base that signed. *)
Theorem vote_withdrawer_in_control (env : Environment) (ic : InstructionContext)
    (tc tc' : TransactionContext) (ia : InstructionAccount) (a : AccountSharedData) (v : VoteStateVersions) :
  get_current_instruction_context tc = Ok ic ->
  vec_get (instruction_accounts ic) 0 = Some ia ->
  account_at tc (index_in_transaction ia) = Some a ->
  shared_deserialize_data a = Some v -> is_uninitialized v = false ->
  Entrypoint env tc = (Ok tt, tc') ->
  total_lamports tc' = total_lamports tc /\
  (forall j x x', j <> index_in_transaction ia -> account_at tc j = Some x -> account_at tc' j = Some x' ->
     acc_lamports x <= acc_lamports x') /\
  exists a' v', account_at tc' (index_in_transaction ia) = Some a' /\ shared_deserialize_data a' = Some v' /\
    (acc_lamports a' < acc_lamports a \/ ~ same_fields (convert_to_current v) (convert_to_current v') ->
     controls ic tc (authorized_withdrawer (convert_to_current v))).
Proof.
  intros Hic Hi Ha Hv Hini Hr.
  destruct (entrypoint_ok _ _ _ _ Hic Hr) as (ia' & signers & Hi' & Hsg & Hcase).
  rewrite Hi in Hi'. injection Hi' as <-.
  destruct Hcase as [[Hl Hg]|(w & tc1 & Hpos & Hf & Hv1 & Hw)].
  - split; [by apply same_lamports_total|]. split.
    { intros j x x' _ Hx Hx'. specialize (Hl j). rewrite Hx, Hx' in Hl. injection Hl as ->. done. }
    destruct (Hg v) as (v' & (a' & Ha' & Hva') & Hc); [by exists a|done|].
    exists a', v'. split_and!; [done..|]. specialize (Hl (index_in_transaction ia)).
    rewrite Ha, Ha' in Hl. injection Hl as Hl. intros [|Hn]; [lia|]. by destruct Hc.
  - apply withdraw_withdrawn in Hw as (from & to & b & b' & c & mid & Hfrom & _ & Hb1 & Hw & Hb2).
    rewrite Hi in Hfrom. injection Hfrom as <-. destruct (withdrawn_moves _ _ _ _ _ _ _ _ _ _ _ _ Hb1 Hw Hb2 Hpos) as (Ht & Hd & v' & a' & Ha' & Hva').
    pose proof (be_before _ _ _ _ _ Hb1) as Hb. rewrite Hv1, Ha in Hb. injection Hb as <-.
    split; [rewrite Ht; by apply same_lamports_total, values_same_lamports|].
    split; [intros j x x' Hj Hx; apply Hd; [done|by rewrite Hv1]|].
    exists a', v'. split_and!; [done..|]. intros _. destruct Hw as (v0 & _ & _ & Hv0 & Hin & _).
    rewrite Hv in Hv0. injection Hv0 as <-. left. by eapply get_signers_spec.
Qed.

End authority.
