(* ===== verification/StakeState.v ===== *)
(** * The state of a stake account (sdk/program/src/stake)

    The authorities, the lockup and the delegation of a stake account
    (state.rs), its flags (stake_flags.rs), the errors and the instructions of
    the stake program (instruction.rs) and the rules for delinquent validators
    (tools.rs).  A delegation warms up and cools down along the history of the
    cluster's stake: the two loops of [stake_activating_and_deactivating] have
    the length of the history as fuel, which [StakeRules] shows to be enough. *)

From S2P Require Import Prelude Errors Rent Account Sysvars VoteState.

(** ** Errors (instruction.rs) *)

Module StakeError.

Inductive StakeError : Type :=
| NoCreditsToRedeem
| LockupInForce
| AlreadyDeactivated
| TooSoonToRedelegate
| InsufficientStake
| MergeTransientStake
| MergeMismatch
| CustodianMissing
| CustodianSignatureMissing
| InsufficientReferenceVotes
| VoteAddressMismatch
| MinimumDelinquentEpochsForDeactivationNotMet
| InsufficientDelegation
| RedelegateTransientOrInactiveStake
| RedelegateToSameVoteAccount
| RedelegatedStakeMustFullyActivateBeforeDeactivationIsPermitted.

(** The derived [ToPrimitive]: the discriminant. *)
Definition to_u64 (e : StakeError) : Z :=
  match e with
  | NoCreditsToRedeem => 0
  | LockupInForce => 1
  | AlreadyDeactivated => 2
  | TooSoonToRedelegate => 3
  | InsufficientStake => 4
  | MergeTransientStake => 5
  | MergeMismatch => 6
  | CustodianMissing => 7
  | CustodianSignatureMissing => 8
  | InsufficientReferenceVotes => 9
  | VoteAddressMismatch => 10
  | MinimumDelinquentEpochsForDeactivationNotMet => 11
  | InsufficientDelegation => 12
  | RedelegateTransientOrInactiveStake => 13
  | RedelegateToSameVoteAccount => 14
  | RedelegatedStakeMustFullyActivateBeforeDeactivationIsPermitted => 15
  end.

Definition into (e : StakeError) : InstructionError := InstructionError_from (Some (to_u64 e)).

End StakeError.
Abbreviation StakeErr := StakeError.StakeError.

(** ** Flags (stake_flags.rs) *)

Module StakeFlags.

Record StakeFlags := mkStakeFlags { bits : Z }.

Definition MUST_FULLY_ACTIVATE_BEFORE_DEACTIVATION_IS_PERMITTED : StakeFlags := mkStakeFlags 1.

Definition empty : StakeFlags := mkStakeFlags 0.

Definition contains (self other : StakeFlags) : bool :=
  Z.land (bits self) (bits other) =? bits other.

(** [!other.bits] of a [u8]. *)
Definition remove (other self : StakeFlags) : StakeFlags :=
  mkStakeFlags (Z.land (bits self) (wrapping U8 (Z.lnot (bits other)))).

Definition set (other self : StakeFlags) : StakeFlags :=
  mkStakeFlags (Z.lor (bits self) (bits other)).

Definition union (self other : StakeFlags) : StakeFlags :=
  mkStakeFlags (Z.lor (bits self) (bits other)).

Definition StakeFlags_default : StakeFlags := empty.

End StakeFlags.

(** ** Instruction arguments (instruction.rs) *)

Module StakeAuthorize.
Inductive StakeAuthorize : Type := Staker | Withdrawer.
End StakeAuthorize.
Abbreviation StakeAuth := StakeAuthorize.StakeAuthorize.

Record LockupArgs := mkLockupArgs {
  arg_unix_timestamp : option Z;
  arg_epoch : option Epoch;
  arg_custodian : option Pubkey;
}.

Record LockupCheckedArgs := mkLockupCheckedArgs {
  checked_unix_timestamp : option Z;
  checked_epoch : option Epoch;
}.

Record AuthorizeWithSeedArgs := mkAuthorizeWithSeedArgs {
  new_authorized_pubkey : Pubkey;
  args_stake_authorize : StakeAuth;
  authority_seed : Bytes;
  authority_owner : Pubkey;
}.

Record AuthorizeCheckedWithSeedArgs := mkAuthorizeCheckedWithSeedArgs {
  checked_stake_authorize : StakeAuth;
  checked_authority_seed : Bytes;
  checked_authority_owner : Pubkey;
}.

(** ** Lockup *)

Record Lockup := mkLockup {
  lockup_unix_timestamp : Z;
  lockup_epoch : Epoch;
  custodian : Pubkey;
}.

#[global] Instance Lockup_eq_dec : EqDecision Lockup.
Proof. solve_decision. Defined.

Definition Lockup_default : Lockup := mkLockup 0 0 DEFAULT_PUBKEY.

(** Both the time and the epoch must have passed, unless the custodian agrees. *)
Definition is_in_force (self : Lockup) (clock : Clock) (custodian_ : option Pubkey) : bool :=
  if bool_decide (custodian_ = Some (custodian self)) then false
  else (unix_timestamp clock <? lockup_unix_timestamp self) || (clock_epoch clock <? lockup_epoch self).

(** ** Authorized *)

Record Authorized := mkAuthorized { staker : Pubkey; withdrawer : Pubkey }.

#[global] Instance Authorized_eq_dec : EqDecision Authorized.
Proof. solve_decision. Defined.

Definition Authorized_auto (authorized : Pubkey) : Authorized := mkAuthorized authorized authorized.

Definition Authorized_check (self : Authorized) (signers : gset Pubkey) (stake_authorize : StakeAuth)
  : Outcome InstructionError unit :=
  match stake_authorize with
  | StakeAuthorize.Staker =>
      if bool_decide (staker self ∈ signers) then Ok tt else Err MissingRequiredSignature
  | StakeAuthorize.Withdrawer =>
      if bool_decide (withdrawer self ∈ signers) then Ok tt else Err MissingRequiredSignature
  end.

(** The lockup, the clock and the custodian that was named. *)
Definition check_custodian (signers : gset Pubkey) (lockup : Lockup) (clock : Clock)
    (custodian_ : option Pubkey) : Outcome InstructionError unit :=
  if is_in_force lockup clock None then
    match custodian_ with
    | None => Err (StakeError.into StakeError.CustodianMissing)
    | Some c =>
        if bool_decide (c ∉ signers) then Err (StakeError.into StakeError.CustodianSignatureMissing)
        else if is_in_force lockup clock (Some c) then Err (StakeError.into StakeError.LockupInForce)
        else Ok tt
    end
  else Ok tt.

Definition Authorized_authorize (self : Authorized) (signers : gset Pubkey) (new_authorized : Pubkey)
    (stake_authorize : StakeAuth) (lockup_custodian_args : option (Lockup * Clock * option Pubkey))
  : Outcome InstructionError Authorized :=
  match stake_authorize with
  | StakeAuthorize.Staker =>
      if bool_decide (staker self ∉ signers) && bool_decide (withdrawer self ∉ signers)
      then Err MissingRequiredSignature
      else Ok (mkAuthorized new_authorized (withdrawer self))
  | StakeAuthorize.Withdrawer =>
      let! _u := match lockup_custodian_args with
                 | Some (lockup, clock, custodian_) => check_custodian signers lockup clock custodian_
                 | None => Ok tt
                 end in
      let! _u := Authorized_check self signers stake_authorize in
      Ok (mkAuthorized (staker self) new_authorized)
  end.

(** ** Meta *)

Record Meta := mkMeta {
  rent_exempt_reserve : Z;
  authorized : Authorized;
  lockup : Lockup;
}.

Definition Meta_default : Meta :=
  mkMeta 0 (mkAuthorized DEFAULT_PUBKEY DEFAULT_PUBKEY) Lockup_default.

Definition with_reserve (x : Z) (self : Meta) : Meta := mkMeta x (authorized self) (lockup self).
Definition with_authorized (x : Authorized) (self : Meta) : Meta :=
  mkMeta (rent_exempt_reserve self) x (lockup self).
Definition with_lockup (x : Lockup) (self : Meta) : Meta :=
  mkMeta (rent_exempt_reserve self) (authorized self) x.

(** The custodian updates a lockup in force; the withdrawer sets a new one. *)
Definition Meta_set_lockup (self : Meta) (args : LockupArgs) (signers : gset Pubkey) (clock : Clock)
  : Outcome InstructionError Meta :=
  let! _u := if is_in_force (lockup self) clock None then
               if bool_decide (custodian (lockup self) ∉ signers)
               then Err MissingRequiredSignature else Ok tt
             else if bool_decide (withdrawer (authorized self) ∉ signers)
             then Err MissingRequiredSignature else Ok tt in
  Ok (with_lockup
        (mkLockup (default (lockup_unix_timestamp (lockup self)) (arg_unix_timestamp args))
           (default (lockup_epoch (lockup self)) (arg_epoch args))
           (default (custodian (lockup self)) (arg_custodian args))) self).

Definition Meta_auto (authorized : Pubkey) : Meta :=
  with_authorized (Authorized_auto authorized) Meta_default.

(** ** Warmup and cooldown *)

(** The literals 0.25 and 0.09, rounded to nearest. *)
Definition DEFAULT_WARMUP_COOLDOWN_RATE : F64.f64 := F64.div (F64.of_u64 25) (F64.of_u64 100).
Definition NEW_WARMUP_COOLDOWN_RATE : F64.f64 := F64.div (F64.of_u64 9) (F64.of_u64 100).
Definition DEFAULT_SLASH_PENALTY : Z := 5 * 255 / 100.

Definition warmup_cooldown_rate (current_epoch : Epoch) (new_rate_activation_epoch : option Epoch)
  : F64.f64 :=
  if current_epoch <? default (int_max U64) new_rate_activation_epoch
  then DEFAULT_WARMUP_COOLDOWN_RATE else NEW_WARMUP_COOLDOWN_RATE.

(** [StakeActivationStatus] is a [StakeHistoryEntry] (stake_history.rs). *)
Abbreviation StakeActivationStatus := StakeHistoryEntry.

Definition StakeHistoryEntry_default : StakeHistoryEntry := mkStakeHistoryEntry 0 0 0.
Definition with_effective (effective : Z) : StakeHistoryEntry := mkStakeHistoryEntry effective 0 0.
Definition with_effective_and_activating (effective activating : Z) : StakeHistoryEntry :=
  mkStakeHistoryEntry effective activating 0.
Definition with_deactivating (deactivating : Z) : StakeHistoryEntry :=
  mkStakeHistoryEntry deactivating 0 deactivating.

(** [impl Add for StakeHistoryEntry] *)
Definition StakeHistoryEntry_add (self rhs : StakeHistoryEntry) : StakeHistoryEntry :=
  mkStakeHistoryEntry (saturating_add U64 (effective self) (effective rhs))
    (saturating_add U64 (activating self) (activating rhs))
    (saturating_add U64 (deactivating self) (deactivating rhs)).

(** ** Delegation *)

Record Delegation := mkDelegation {
  voter_pubkey : Pubkey;
  delegation_stake : Z;
  activation_epoch : Epoch;
  deactivation_epoch : Epoch;
  (* deprecated: kept in the layout, read by nothing *)
  delegation_rate : F64.f64;
}.

Definition Delegation_default : Delegation :=
  mkDelegation DEFAULT_PUBKEY 0 0 (int_max U64) DEFAULT_WARMUP_COOLDOWN_RATE.

Definition Delegation_new (voter_pubkey : Pubkey) (stake : Z) (activation_epoch : Epoch) : Delegation :=
  mkDelegation voter_pubkey stake activation_epoch (deactivation_epoch Delegation_default)
    (delegation_rate Delegation_default).

Definition with_delegation_stake (x : Z) (d : Delegation) : Delegation :=
  mkDelegation (voter_pubkey d) x (activation_epoch d) (deactivation_epoch d) (delegation_rate d).
Definition with_deactivation_epoch (x : Epoch) (d : Delegation) : Delegation :=
  mkDelegation (voter_pubkey d) (delegation_stake d) (activation_epoch d) x (delegation_rate d).

Definition is_bootstrap (self : Delegation) : bool := activation_epoch self =? int_max U64.

(** [((part as f64 / whole as f64) * (cluster as f64 * rate)) as u64).max(1)] *)
Definition entitlement (part whole cluster : Z) (rate : F64.f64) : Z :=
  let weight := F64.div (F64.of_u64 part) (F64.of_u64 whole) in
  let newly_cluster_stake := F64.mul (F64.of_u64 cluster) rate in
  Z.max (F64.to_u64 (F64.mul weight newly_cluster_stake)) 1.

Section activation.
Context (history : StakeHistory.StakeHistory) (new_rate_activation_epoch : option Epoch).

(** The loop of [stake_and_activating]: the effective stake at the end. *)
Fixpoint warmup_loop (fuel : nat) (self : Delegation) (target_epoch prev_epoch : Epoch)
    (prev_cluster_stake : StakeHistoryEntry) (current_effective_stake : Z) : Z :=
  match fuel with
  | O => current_effective_stake
  | S fuel =>
      let delegated_stake := delegation_stake self in
      let current_epoch := wrapping U64 (prev_epoch + 1) in
      (* if there is no activating stake at prev epoch, we should have been
         fully effective at this moment *)
      if activating prev_cluster_stake =? 0 then current_effective_stake else
      let remaining_activating_stake := wrapping U64 (delegated_stake - current_effective_stake) in
      let newly_effective_stake :=
        entitlement remaining_activating_stake (activating prev_cluster_stake)
          (effective prev_cluster_stake) (warmup_cooldown_rate current_epoch new_rate_activation_epoch) in
      let current_effective_stake := wrapping U64 (current_effective_stake + newly_effective_stake) in
      if delegated_stake <=? current_effective_stake then delegated_stake else
      if (target_epoch <=? current_epoch) || (deactivation_epoch self <=? current_epoch)
      then current_effective_stake else
      match StakeHistory.get current_epoch history with
      | Some current_cluster_stake =>
          warmup_loop fuel self target_epoch current_epoch current_cluster_stake current_effective_stake
      | None => current_effective_stake
      end
  end.

(** (effective, activating) *)
Definition stake_and_activating (self : Delegation) (target_epoch : Epoch) : Z * Z :=
  let delegated_stake := delegation_stake self in
  if is_bootstrap self then (delegated_stake, 0)
  else if activation_epoch self =? deactivation_epoch self then (0, 0)
  else if target_epoch =? activation_epoch self then (0, delegated_stake)
  else if target_epoch <? activation_epoch self then (0, 0)
  else match StakeHistory.get (activation_epoch self) history with
  | Some prev_cluster_stake =>
      let current_effective_stake :=
        warmup_loop (S (length history)) self target_epoch (activation_epoch self) prev_cluster_stake 0 in
      (current_effective_stake, wrapping U64 (delegated_stake - current_effective_stake))
  | None => (delegated_stake, 0)
  end.

(** The loop of [stake_activating_and_deactivating]: the stake that is left. *)
Fixpoint cooldown_loop (fuel : nat) (target_epoch prev_epoch : Epoch)
    (prev_cluster_stake : StakeHistoryEntry) (current_effective_stake : Z) : Z :=
  match fuel with
  | O => current_effective_stake
  | S fuel =>
      let current_epoch := wrapping U64 (prev_epoch + 1) in
      (* if there is no deactivating stake at prev epoch, we should have been
         fully undelegated at this moment *)
      if deactivating prev_cluster_stake =? 0 then current_effective_stake else
      let newly_not_effective_stake :=
        entitlement current_effective_stake (deactivating prev_cluster_stake)
          (effective prev_cluster_stake) (warmup_cooldown_rate current_epoch new_rate_activation_epoch) in
      let current_effective_stake :=
        saturating_sub U64 current_effective_stake newly_not_effective_stake in
      if current_effective_stake =? 0 then current_effective_stake else
      if target_epoch <=? current_epoch then current_effective_stake else
      match StakeHistory.get current_epoch history with
      | Some current_cluster_stake =>
          cooldown_loop fuel target_epoch current_epoch current_cluster_stake current_effective_stake
      | None => current_effective_stake
      end
  end.

Definition stake_activating_and_deactivating (self : Delegation) (target_epoch : Epoch)
  : StakeActivationStatus :=
  (* first, calculate an effective and activating stake *)
  let '(effective_stake, activating_stake) := stake_and_activating self target_epoch in
  (* then de-activate some portion if necessary *)
  if target_epoch <? deactivation_epoch self then
    if activating_stake =? 0 then with_effective effective_stake
    else with_effective_and_activating effective_stake activating_stake
  else if target_epoch =? deactivation_epoch self then with_deactivating effective_stake
  else match StakeHistory.get (deactivation_epoch self) history with
  | Some prev_cluster_stake =>
      with_deactivating
        (cooldown_loop (S (length history)) target_epoch (deactivation_epoch self)
           prev_cluster_stake effective_stake)
  | None => StakeHistoryEntry_default
  end.

(** [Delegation::stake] *)
Definition effective_stake (self : Delegation) (epoch : Epoch) : Z :=
  effective (stake_activating_and_deactivating self epoch).

End activation.

(** ** Stake *)

Record Stake := mkStake { delegation : Delegation; credits_observed : Z }.

Definition with_delegation (x : Delegation) (self : Stake) : Stake := mkStake x (credits_observed self).

(** [Stake::stake] *)
Definition stake_at (self : Stake) (epoch : Epoch) (history : StakeHistory.StakeHistory)
    (new_rate_activation_epoch : option Epoch) : Z :=
  effective_stake history new_rate_activation_epoch (delegation self) epoch.

(** What is left of [self], and the new stake. *)
Definition Stake_split (self : Stake) (remaining_stake_delta split_stake_amount : Z)
  : Outcome StakeErr (Stake * Stake) :=
  if delegation_stake (delegation self) <? remaining_stake_delta then Err StakeError.InsufficientStake
  else
    let self := with_delegation
      (with_delegation_stake (wrapping U64 (delegation_stake (delegation self) - remaining_stake_delta))
         (delegation self)) self in
    let new := mkStake (with_delegation_stake split_stake_amount (delegation self))
                 (credits_observed self) in
    Ok (self, new).

Definition Stake_deactivate (self : Stake) (epoch : Epoch) : Outcome StakeErr Stake :=
  if negb (deactivation_epoch (delegation self) =? int_max U64) then Err StakeError.AlreadyDeactivated
  else Ok (with_delegation (with_deactivation_epoch epoch (delegation self)) self).

(** ** The states *)

Module StakeStateV2.

Inductive StakeStateV2 : Type :=
| Uninitialized
| Initialized (meta : Meta)
| Stake (meta : Meta) (stake : StakeState.Stake) (stake_flags : StakeFlags.StakeFlags)
| RewardsPool.

(** The fixed number of bytes used to serialize each stake account. *)
Definition size_of : Z := 200.

Definition stake (self : StakeStateV2) : option StakeState.Stake :=
  match self with Stake _ stake _ => Some stake | _ => None end.

Definition delegation (self : StakeStateV2) : option Delegation :=
  match self with Stake _ stake _ => Some (StakeState.delegation stake) | _ => None end.

Definition authorized (self : StakeStateV2) : option Authorized :=
  match self with
  | Stake meta _ _ => Some (StakeState.authorized meta)
  | Initialized meta => Some (StakeState.authorized meta)
  | _ => None
  end.

Definition meta (self : StakeStateV2) : option Meta :=
  match self with
  | Stake meta _ _ => Some meta
  | Initialized meta => Some meta
  | _ => None
  end.

Definition lockup (self : StakeStateV2) : option Lockup := StakeState.lockup <$> meta self.

End StakeStateV2.

(** ** Delinquent validators (tools.rs, mod.rs) *)

Definition MINIMUM_DELINQUENT_EPOCHS_FOR_DEACTIVATION : Z := 5.

(** The loop over the reversed slice. *)
Fixpoint votes_every_epoch (epoch_credits : list (Epoch * Z * Z)) (epoch : Epoch) : bool :=
  match epoch_credits with
  | [] => true
  | (vote_epoch, _, _) :: rest =>
      if negb (vote_epoch =? epoch) then false
      else votes_every_epoch rest (saturating_sub U64 epoch 1)
  end.

Definition acceptable_reference_epoch_credits (epoch_credits : list (Epoch * Z * Z))
    (current_epoch : Epoch) : bool :=
  match checked_sub USIZE (vec_len epoch_credits) MINIMUM_DELINQUENT_EPOCHS_FOR_DEACTIVATION with
  | Some epoch_index =>
      votes_every_epoch (reverse (drop (Z.to_nat epoch_index) epoch_credits)) current_epoch
  | None => false
  end.

Definition eligible_for_deactivate_delinquent (epoch_credits : list (Epoch * Z * Z))
    (current_epoch : Epoch) : bool :=
  match list.last epoch_credits with
  | None => true
  | Some (epoch, _, _) =>
      match checked_sub U64 current_epoch MINIMUM_DELINQUENT_EPOCHS_FOR_DEACTIVATION with
      | Some minimum_epoch => epoch <=? minimum_epoch
      | None => false
      end
  end.

(** ** Instructions (instruction.rs) *)

Module StakeInstruction.

Inductive StakeInstruction : Type :=
| Initialize (authorized : Authorized) (lockup : Lockup)
| Authorize (pubkey : Pubkey) (stake_authorize : StakeAuth)
| DelegateStake
| Split (lamports : Z)
| Withdraw (lamports : Z)
| Deactivate
| SetLockup (args : LockupArgs)
| Merge
| AuthorizeWithSeed (args : AuthorizeWithSeedArgs)
| InitializeChecked
| AuthorizeChecked (stake_authorize : StakeAuth)
| AuthorizeCheckedWithSeed (args : AuthorizeCheckedWithSeedArgs)
| SetLockupChecked (args : LockupCheckedArgs)
| GetMinimumDelegation
| DeactivateDelinquent
| Redelegate.

End StakeInstruction.
