(* ===== verification/StakeBorsh.v ===== *)
(** * The layout of stake accounts

    The Borsh encoding of sdk/program/src/stake/state.rs and stake_flags.rs,
    which its tests compare with the bincode encoding: every struct field by
    field, and the enums [StakeStateV2] and, before it, [StakeState], with the tag
    of four bytes.  The encodings of integers, floats and addresses are the
    library's, given by their documented laws. *)

From S2P Require Import Prelude Errors Rent Account Pubkey Sysvars StakeState.

(** ** Codecs *)

(** [BorshSerialize::serialize] into a writer that does not fail, and
    [BorshDeserialize::deserialize_reader], which leaves the reader at what
    follows. *)
Record Codec (T : Type) := mkCodec {
  write : T -> option Bytes;
  read : Bytes -> option (T * Bytes);
}.
Arguments mkCodec {T} _ _.
Arguments write {T} _ _.
Arguments read {T} _ _.

(** A codec of a type: its values are written, read back, and nothing else is
    read; [size] bounds what is written. *)
Class CodecOk {T} (c : Codec T) (wf : T -> Prop) (size : Z) : Prop := {
  write_total x : wf x -> is_Some (write c x);
  write_bytes x bs : write c x = Some bs -> Forall is_byte bs /\ vec_len bs <= size;
  read_write x bs rest : wf x -> write c x = Some bs -> read c (bs ++ rest) = Some (x, rest);
  read_canonical bs x rest :
    read c bs = Some (x, rest) -> wf x /\ exists pre, write c x = Some pre /\ bs = pre ++ rest;
}.

(** Floats that have a number. *)
Definition f64_number (x : F64.f64) : Prop := x <> SpecFloat.S754_nan.

Class BorshPrimitives := {
  borsh_int : IntTy -> Codec Z;
  borsh_f64 : Codec F64.f64;
  borsh_key : Codec Pubkey;
}.

(** Integers have the bytes of their width; a NaN is rejected both ways; an
    address is its 32 bytes.  [f64_wf] are the values of the type. *)
Class BorshPrimitivesOk `{!BorshPrimitives} (f64_wf : F64.f64 -> Prop) : Prop := {
  #[global] borsh_u8_ok :: CodecOk (borsh_int U8) (in_range U8) 1;
  #[global] borsh_u32_ok :: CodecOk (borsh_int U32) (in_range U32) 4;
  #[global] borsh_u64_ok :: CodecOk (borsh_int U64) (in_range U64) 8;
  #[global] borsh_i64_ok :: CodecOk (borsh_int I64) (in_range I64) 8;
  #[global] borsh_f64_ok :: CodecOk borsh_f64 (fun x => f64_wf x /\ f64_number x) 8;
  #[global] borsh_key_ok :: CodecOk borsh_key pubkey_wf 32;
  borsh_u8_le n : in_range U8 n -> write (borsh_int U8) n = Some (le_bytes 1 n);
  borsh_u32_le n : in_range U32 n -> write (borsh_int U32) n = Some (le_bytes 4 n);
}.

Section layout.
Context {primitives : BorshPrimitives}.

(** ** Structs *)

Definition Lockup_deserialize_reader (reader : Bytes) : option (Lockup * Bytes) :=
  '(unix_timestamp, reader) ← read (borsh_int I64) reader;
  '(epoch, reader) ← read (borsh_int U64) reader;
  '(custodian, reader) ← read borsh_key reader;
  Some (mkLockup unix_timestamp epoch custodian, reader).

Definition Lockup_serialize (self : Lockup) : option Bytes :=
  b1 ← write (borsh_int I64) (lockup_unix_timestamp self);
  b2 ← write (borsh_int U64) (lockup_epoch self);
  b3 ← write borsh_key (custodian self);
  Some (b1 ++ b2 ++ b3).

Definition Lockup_codec := mkCodec Lockup_serialize Lockup_deserialize_reader.

Definition Authorized_deserialize_reader (reader : Bytes) : option (Authorized * Bytes) :=
  '(staker, reader) ← read borsh_key reader;
  '(withdrawer, reader) ← read borsh_key reader;
  Some (mkAuthorized staker withdrawer, reader).

Definition Authorized_serialize (self : Authorized) : option Bytes :=
  b1 ← write borsh_key (staker self);
  b2 ← write borsh_key (withdrawer self);
  Some (b1 ++ b2).

Definition Authorized_codec := mkCodec Authorized_serialize Authorized_deserialize_reader.

Definition Meta_deserialize_reader (reader : Bytes) : option (Meta * Bytes) :=
  '(rent_exempt_reserve, reader) ← read (borsh_int U64) reader;
  '(authorized, reader) ← read Authorized_codec reader;
  '(lockup, reader) ← read Lockup_codec reader;
  Some (mkMeta rent_exempt_reserve authorized lockup, reader).

Definition Meta_serialize (self : Meta) : option Bytes :=
  b1 ← write (borsh_int U64) (rent_exempt_reserve self);
  b2 ← write Authorized_codec (authorized self);
  b3 ← write Lockup_codec (lockup self);
  Some (b1 ++ b2 ++ b3).

Definition Meta_codec := mkCodec Meta_serialize Meta_deserialize_reader.

Definition Delegation_deserialize_reader (reader : Bytes) : option (Delegation * Bytes) :=
  '(voter_pubkey, reader) ← read borsh_key reader;
  '(stake, reader) ← read (borsh_int U64) reader;
  '(activation_epoch, reader) ← read (borsh_int U64) reader;
  '(deactivation_epoch, reader) ← read (borsh_int U64) reader;
  '(warmup_cooldown_rate, reader) ← read borsh_f64 reader;
  Some (mkDelegation voter_pubkey stake activation_epoch deactivation_epoch warmup_cooldown_rate, reader).

Definition Delegation_serialize (self : Delegation) : option Bytes :=
  b1 ← write borsh_key (voter_pubkey self);
  b2 ← write (borsh_int U64) (delegation_stake self);
  b3 ← write (borsh_int U64) (activation_epoch self);
  b4 ← write (borsh_int U64) (deactivation_epoch self);
  b5 ← write borsh_f64 (delegation_rate self);
  Some (b1 ++ b2 ++ b3 ++ b4 ++ b5).

Definition Delegation_codec := mkCodec Delegation_serialize Delegation_deserialize_reader.

Definition Stake_deserialize_reader (reader : Bytes) : option (Stake * Bytes) :=
  '(delegation, reader) ← read Delegation_codec reader;
  '(credits_observed, reader) ← read (borsh_int U64) reader;
  Some (mkStake delegation credits_observed, reader).

Definition Stake_serialize (self : Stake) : option Bytes :=
  b1 ← write Delegation_codec (delegation self);
  b2 ← write (borsh_int U64) (credits_observed self);
  Some (b1 ++ b2).

Definition Stake_codec := mkCodec Stake_serialize Stake_deserialize_reader.

Definition StakeFlags_deserialize_reader (reader : Bytes) : option (StakeFlags.StakeFlags * Bytes) :=
  '(bits, reader) ← read (borsh_int U8) reader;
  Some (StakeFlags.mkStakeFlags bits, reader).

Definition StakeFlags_serialize (self : StakeFlags.StakeFlags) : option Bytes :=
  write (borsh_int U8) (StakeFlags.bits self).

Definition StakeFlags_codec := mkCodec StakeFlags_serialize StakeFlags_deserialize_reader.

(** ** Enums *)

Definition StakeStateV2_deserialize_reader (reader : Bytes) : option (StakeStateV2.StakeStateV2 * Bytes) :=
  '(enum_value, reader) ← read (borsh_int U32) reader;
  match enum_value with
  | 0 => Some (StakeStateV2.Uninitialized, reader)
  | 1 => '(meta, reader) ← read Meta_codec reader; Some (StakeStateV2.Initialized meta, reader)
  | 2 =>
      '(meta, reader) ← read Meta_codec reader;
      '(stake, reader) ← read Stake_codec reader;
      '(stake_flags, reader) ← read StakeFlags_codec reader;
      Some (StakeStateV2.Stake meta stake stake_flags, reader)
  | 3 => Some (StakeStateV2.RewardsPool, reader)
  | _ => None (* "Invalid enum value" *)
  end.

Definition StakeStateV2_serialize (self : StakeStateV2.StakeStateV2) : option Bytes :=
  match self with
  | StakeStateV2.Uninitialized => Some (le_bytes 4 0)
  | StakeStateV2.Initialized meta => b ← write Meta_codec meta; Some (le_bytes 4 1 ++ b)
  | StakeStateV2.Stake meta stake stake_flags =>
      b1 ← write Meta_codec meta;
      b2 ← write Stake_codec stake;
      b3 ← write StakeFlags_codec stake_flags;
      Some (le_bytes 4 2 ++ b1 ++ b2 ++ b3)
  | StakeStateV2.RewardsPool => Some (le_bytes 4 3)
  end.

Definition StakeStateV2_codec := mkCodec StakeStateV2_serialize StakeStateV2_deserialize_reader.

(** The state before its flags were added. *)
Inductive StakeStateV1 : Type :=
| V1Uninitialized
| V1Initialized (meta : Meta)
| V1Stake (meta : Meta) (stake : Stake)
| V1RewardsPool.

Definition StakeState_deserialize_reader (reader : Bytes) : option (StakeStateV1 * Bytes) :=
  '(enum_value, reader) ← read (borsh_int U32) reader;
  match enum_value with
  | 0 => Some (V1Uninitialized, reader)
  | 1 => '(meta, reader) ← read Meta_codec reader; Some (V1Initialized meta, reader)
  | 2 =>
      '(meta, reader) ← read Meta_codec reader;
      '(stake, reader) ← read Stake_codec reader;
      Some (V1Stake meta stake, reader)
  | 3 => Some (V1RewardsPool, reader)
  | _ => None (* "Invalid enum value" *)
  end.

Definition StakeState_serialize (self : StakeStateV1) : option Bytes :=
  match self with
  | V1Uninitialized => Some (le_bytes 4 0)
  | V1Initialized meta => b ← write Meta_codec meta; Some (le_bytes 4 1 ++ b)
  | V1Stake meta stake =>
      b1 ← write Meta_codec meta;
      b2 ← write Stake_codec stake;
      Some (le_bytes 4 2 ++ b1 ++ b2)
  | V1RewardsPool => Some (le_bytes 4 3)
  end.

End layout.

(** ** Codecs that are built from others *)

Section combinators.

Definition pair_codec {A B} (a : Codec A) (b : Codec B) : Codec (A * B) := {|
  write := fun x => b1 ← write a (fst x); b2 ← write b (snd x); Some (b1 ++ b2);
  read := fun reader => '(x, reader) ← read a reader; '(y, reader) ← read b reader; Some ((x, y), reader);
|}.

#[export] Instance pair_codec_ok {A B} (a : Codec A) (b : Codec B) wa wb n m :
  CodecOk a wa n -> CodecOk b wb m -> CodecOk (pair_codec a b) (fun x => wa (fst x) /\ wb (snd x)) (n + m).
Proof.
  intros Ha Hb. split; simpl.
  - intros [x y] [[b1 H1]%write_total [b2 H2]%write_total]. simpl in *. rewrite H1, H2. by eexists.
  - intros [x y] bs (b1 & H1 & (b2 & H2 & [= <-])%bind_Some)%bind_Some.
    apply write_bytes in H1 as [? ?], H2 as [? ?]. split; [by apply Forall_app|]. rewrite vec_len_app. lia.
  - intros [x y] bs rest [Hx Hy] (b1 & H1 & (b2 & H2 & [= <-])%bind_Some)%bind_Some. simpl in *.
    rewrite <- app_assoc, (read_write _ _ _ Hx H1). simpl. by rewrite (read_write _ _ _ Hy H2).
  - intros bs [x y] rest ([x' r] & H1 & ([y' r'] & H2 & [= <- <- <-])%bind_Some)%bind_Some. simpl.
    apply read_canonical in H1 as (Hx & b1 & H1 & ->). apply read_canonical in H2 as (Hy & b2 & H2 & ->). split; [done|].
    exists (b1 ++ b2). rewrite H1. simpl. by rewrite H2, app_assoc.
Qed.

(** The same bytes for another type. *)
Lemma codec_map {A B} (a : Codec A) (b : Codec B) wa n (f : A -> B) (g : B -> A) :
  CodecOk a wa n -> (forall x, g (f x) = x) -> (forall y, f (g y) = y) ->
  (forall y, write b y = write a (g y)) ->
  (forall bs, read b bs = (fun '(x, rest) => (f x, rest)) <$> read a bs) ->
  CodecOk b (fun y => wa (g y)) n.
Proof.
  intros Ha Hgf Hfg Hw Hr. split.
  - intros y Hy. rewrite Hw. by apply write_total.
  - intros y bs. rewrite Hw. apply write_bytes.
  - intros y bs rest Hy. rewrite Hw, Hr. intros H. rewrite (read_write _ _ _ Hy H). simpl. by rewrite Hfg.
  - intros bs y rest. rewrite Hr. intros ([x r] & Hx & [= -> ->])%fmap_Some.
    apply read_canonical in Hx as (Hx & pre & Hp & ->). rewrite Hgf. split; [done|].
    exists pre. by rewrite Hw, Hgf.
Qed.


(** An encoding can be given other names for what it says. *)
Lemma codec_iff {A} (a : Codec A) (wf wf' : A -> Prop) n m :
  CodecOk a wf n -> (forall x, wf x <-> wf' x) -> n <= m -> CodecOk a wf' m.
Proof.
  intros Ha Hiff Hn. split; intros *; rewrite <- ?Hiff.
  - apply write_total.
  - intros [? ?]%write_bytes. split; [done|lia].
  - apply read_write.
  - apply read_canonical.
Qed.

End combinators.

(** ** The laws of the layout *)

Definition lockup_wf (l : Lockup) : Prop :=
  in_range I64 (lockup_unix_timestamp l) /\ in_range U64 (lockup_epoch l) /\ pubkey_wf (custodian l).
Definition authorized_wf (a : Authorized) : Prop := pubkey_wf (staker a) /\ pubkey_wf (withdrawer a).
Definition meta_values (m : Meta) : Prop :=
  in_range U64 (rent_exempt_reserve m) /\ authorized_wf (authorized m) /\ lockup_wf (lockup m).

Section laws.
Context {primitives : BorshPrimitives} {f64_wf : F64.f64 -> Prop} {primitives_ok : BorshPrimitivesOk f64_wf}.

Definition delegation_values (d : Delegation) : Prop :=
  pubkey_wf (voter_pubkey d) /\ in_range U64 (delegation_stake d) /\ in_range U64 (activation_epoch d) /\
  in_range U64 (deactivation_epoch d) /\ f64_wf (delegation_rate d) /\ f64_number (delegation_rate d).
Definition stake_values (s : Stake) : Prop := delegation_values (delegation s) /\ in_range U64 (credits_observed s).
Definition flags_values (f : StakeFlags.StakeFlags) : Prop := in_range U8 (StakeFlags.bits f).
Definition state_values (s : StakeStateV2.StakeStateV2) : Prop :=
  match s with
  | StakeStateV2.Initialized m => meta_values m
  | StakeStateV2.Stake m st f => meta_values m /\ stake_values st /\ flags_values f
  | _ => True
  end.

(** A struct is a nest of pairs: [c] is the nest, [f] and [g] the bijection. *)
Ltac by_cases :=
  cbn [write read pair_codec fst snd];
  repeat match goal with
  | |- context [write ?c ?x] => destruct (write c x); cbn [mbind option_bind]; [|done]
  | |- context [read ?c ?x] => destruct (read c x) as [[? ?]|]; cbn [mbind option_bind]; [|done]
  end; done.

Ltac struct c f g :=
  eapply codec_iff;
  [ eapply (codec_map c _ _ _ f g); [typeclasses eauto|by intros; repeat case_match|by intros []| |]
  | intros []; exact (iff_refl _)
  | done ].

#[global] Instance Lockup_codec_ok : CodecOk Lockup_codec lockup_wf 48.
Proof.
  struct (pair_codec (borsh_int I64) (pair_codec (borsh_int U64) borsh_key))
    (fun '(a, (b, c)) => mkLockup a b c) (fun l => (lockup_unix_timestamp l, (lockup_epoch l, custodian l))).
  - intros l. cbn [Lockup_codec write]. unfold Lockup_serialize. by_cases.
  - intros bs. cbn [Lockup_codec read]. unfold Lockup_deserialize_reader. by_cases.
Qed.

#[global] Instance Authorized_codec_ok : CodecOk Authorized_codec authorized_wf 64.
Proof.
  struct (pair_codec borsh_key borsh_key) (fun '(a, b) => mkAuthorized a b) (fun x => (staker x, withdrawer x)).
  - intros x. cbn [Authorized_codec write]. unfold Authorized_serialize. by_cases.
  - intros bs. cbn [Authorized_codec read]. unfold Authorized_deserialize_reader. by_cases.
Qed.

#[global] Instance Meta_codec_ok : CodecOk Meta_codec meta_values 120.
Proof.
  struct (pair_codec (borsh_int U64) (pair_codec Authorized_codec Lockup_codec))
    (fun '(a, (b, c)) => mkMeta a b c) (fun m => (rent_exempt_reserve m, (authorized m, lockup m))).
  - intros m. cbn [Meta_codec write]. unfold Meta_serialize. by_cases.
  - intros bs. cbn [Meta_codec read]. unfold Meta_deserialize_reader. by_cases.
Qed.

#[global] Instance Delegation_codec_ok : CodecOk Delegation_codec delegation_values 64.
Proof.
  struct (pair_codec borsh_key (pair_codec (borsh_int U64) (pair_codec (borsh_int U64) (pair_codec (borsh_int U64) borsh_f64))))
    (fun '(a, (b, (c, (d, e)))) => mkDelegation a b c d e)
    (fun x => (voter_pubkey x, (delegation_stake x, (activation_epoch x, (deactivation_epoch x, delegation_rate x))))).
  - intros x. cbn [Delegation_codec write]. unfold Delegation_serialize. by_cases.
  - intros bs. cbn [Delegation_codec read]. unfold Delegation_deserialize_reader. by_cases.
Qed.

#[global] Instance Stake_codec_ok : CodecOk Stake_codec stake_values 72.
Proof.
  struct (pair_codec Delegation_codec (borsh_int U64)) (fun '(a, b) => mkStake a b) (fun s => (delegation s, credits_observed s)).
  - intros x. cbn [Stake_codec write]. unfold Stake_serialize. by_cases.
  - intros bs. cbn [Stake_codec read]. unfold Stake_deserialize_reader. by_cases.
Qed.

#[global] Instance StakeFlags_codec_ok : CodecOk StakeFlags_codec flags_values 1.
Proof.
  struct (borsh_int U8) StakeFlags.mkStakeFlags StakeFlags.bits.
  - done.
  - intros bs. cbn [StakeFlags_codec read]. unfold StakeFlags_deserialize_reader. by_cases.
Qed.

(** ** The tag *)

Lemma le_bytes_bytes n z : Forall is_byte (le_bytes n z).
Proof.
  revert z. induction n as [|n IH]; intros z; cbn [le_bytes]; [done|]. constructor; [|done].
  apply Z.mod_pos_bound. lia.
Qed.

Lemma read_tag n rest : in_range U32 n -> read (borsh_int U32) (le_bytes 4 n ++ rest) = Some (n, rest).
Proof. intros Hn. apply read_write; [done|by apply borsh_u32_le]. Qed.

Lemma read_tag_inv bs n rest :
  read (borsh_int U32) bs = Some (n, rest) -> bs = le_bytes 4 n ++ rest.
Proof.
  intros (Hn & pre & Hw & ->)%read_canonical. rewrite borsh_u32_le in Hw by done. by apply (inj Some) in Hw as <-.
Qed.

Lemma tagged_bytes n bs m : Forall is_byte bs /\ vec_len bs <= m -> Forall is_byte (le_bytes 4 n ++ bs) /\ vec_len (le_bytes 4 n ++ bs) <= 4 + m.
Proof.
  intros [Hb Hl]. split; [apply Forall_app; split; [apply le_bytes_bytes|done]|].
  rewrite vec_len_app. unfold vec_len at 1. rewrite length_le_bytes. lia.
Qed.

Definition unit_codec : Codec unit := {| write := fun _ => Some []; read := fun bs => Some (tt, bs) |}.

#[global] Instance unit_codec_ok : CodecOk unit_codec (fun _ => True) 0.
Proof. split; cbn; [by eexists|by intros _ bs [= <-]|by intros [] bs rest _ [= <-]|]. intros bs [] rest [= <-]. by split; [|exists []]. Qed.

(** A constructor of an enum: its tag [n], and the codec of its arguments. *)
Record variant {P T} (e : Codec T) (c : Codec P) (n : Z) (inj : P -> T) : Prop := {
  va_tag : in_range U32 n;
  va_write p : write e (inj p) = (fun b => le_bytes 4 n ++ b) <$> write c p;
  va_read bs rest :
    read (borsh_int U32) bs = Some (n, rest) -> read e bs = (fun '(p, r) => (inj p, r)) <$> read c rest;
}.

Section variants.
Context {P T : Type} (e : Codec T) (c : Codec P) (wf : P -> Prop) (m : Z) {Hc : CodecOk c wf m}.
Context (n : Z) (inj : P -> T) (Hv : variant e c n inj).

Lemma variant_total p : wf p -> is_Some (write e (inj p)).
Proof. intros [b Hb]%write_total. rewrite (va_write _ _ _ _ Hv), Hb. by eexists. Qed.

Lemma variant_bytes p bs : write e (inj p) = Some bs -> Forall is_byte bs /\ vec_len bs <= 4 + m.
Proof.
  rewrite (va_write _ _ _ _ Hv). intros (b & Hb%write_bytes & ->)%fmap_Some. by apply tagged_bytes.
Qed.

Lemma variant_read p bs rest : wf p -> write e (inj p) = Some bs -> read e (bs ++ rest) = Some (inj p, rest).
Proof.
  intros Hp. rewrite (va_write _ _ _ _ Hv). intros (b & Hb & ->)%fmap_Some. rewrite <- app_assoc.
  rewrite (va_read _ _ _ _ Hv _ (b ++ rest)) by apply read_tag, Hv. by rewrite (read_write _ _ _ Hp Hb).
Qed.

Lemma variant_canonical bs x rest :
  forall r, read (borsh_int U32) bs = Some (n, r) -> read e bs = Some (x, rest) ->
  exists p, x = inj p /\ wf p /\ exists pre, write e x = Some pre /\ bs = pre ++ rest.
Proof.
  intros r Ht. rewrite (va_read _ _ _ _ Hv _ _ Ht). intros ([p r'] & Hp & [= -> ->])%fmap_Some.
  apply read_tag_inv in Ht as ->. apply read_canonical in Hp as (Hp & pre & Hw & ->).
  exists p. split_and!; [done..|]. exists (le_bytes 4 n ++ pre). by rewrite (va_write _ _ _ _ Hv), Hw, app_assoc.
Qed.

End variants.

Abbreviation stake_codec := (pair_codec Meta_codec (pair_codec Stake_codec StakeFlags_codec)).

Ltac variant intros_write :=
  split; [done|intros_write; cbn [StakeStateV2_codec write StakeStateV2_serialize pair_codec unit_codec]; try by_cases
  |intros bs rest H; cbn [StakeStateV2_codec read unit_codec]; unfold StakeStateV2_deserialize_reader; rewrite H;
   cbn [mbind option_bind]; try by_cases].

Lemma uninitialized_variant : variant StakeStateV2_codec unit_codec 0 (fun _ => StakeStateV2.Uninitialized).
Proof. variant ltac:(intros p); done. Qed.
Lemma initialized_variant : variant StakeStateV2_codec Meta_codec 1 StakeStateV2.Initialized.
Proof. variant ltac:(intros p). Qed.
Lemma stake_variant :
  variant StakeStateV2_codec stake_codec 2 (fun '(m, (st, f)) => StakeStateV2.Stake m st f).
Proof. variant ltac:(intros [m [st f]]). Qed.
Lemma rewards_pool_variant : variant StakeStateV2_codec unit_codec 3 (fun _ => StakeStateV2.RewardsPool).
Proof. variant ltac:(intros p); done. Qed.

#[global] Instance StakeStateV2_codec_ok : CodecOk StakeStateV2_codec state_values 197.
Proof.
  split.
  - intros [|m|m st f|] Hs; [exact (variant_total _ _ _ _ _ _ uninitialized_variant tt I)|exact (variant_total _ _ _ _ _ _ initialized_variant m Hs)
      |exact (variant_total _ _ _ _ _ _ stake_variant (m, (st, f)) Hs)|exact (variant_total _ _ _ _ _ _ rewards_pool_variant tt I)].
  - intros [|m|m st f|] bs Hw;
      [apply (variant_bytes _ _ _ _ _ _ uninitialized_variant tt) in Hw|apply (variant_bytes _ _ _ _ _ _ initialized_variant m) in Hw
      |apply (variant_bytes _ _ _ _ _ _ stake_variant (m, (st, f))) in Hw|apply (variant_bytes _ _ _ _ _ _ rewards_pool_variant tt) in Hw];
      (split; [apply Hw|destruct Hw; lia]).
  - intros [|m|m st f|] bs rest Hs Hw;
      [exact (variant_read _ _ _ _ _ _ uninitialized_variant tt bs rest I Hw)|exact (variant_read _ _ _ _ _ _ initialized_variant m bs rest Hs Hw)
      |exact (variant_read _ _ _ _ _ _ stake_variant (m, (st, f)) bs rest Hs Hw)|exact (variant_read _ _ _ _ _ _ rewards_pool_variant tt bs rest I Hw)].
  - intros bs x rest Hr. destruct (read (borsh_int U32) bs) as [[n r]|] eqn:Ht;
      [|cbn [StakeStateV2_codec read] in Hr; unfold StakeStateV2_deserialize_reader in Hr; by rewrite Ht in Hr].
    assert (n = 0 \/ n = 1 \/ n = 2 \/ n = 3) as Hn.
    { cbn [StakeStateV2_codec read] in Hr. unfold StakeStateV2_deserialize_reader in Hr. rewrite Ht in Hr.
      cbn [mbind option_bind] in Hr. repeat case_match; subst; auto; done. }
    destruct Hn as [->|[->|[->| ->]]].
    + by destruct (variant_canonical _ _ _ _ _ _ uninitialized_variant _ _ _ _ Ht Hr) as ([] & -> & _ & ?).
    + by destruct (variant_canonical _ _ _ _ _ _ initialized_variant _ _ _ _ Ht Hr) as (m & -> & ? & ?).
    + by destruct (variant_canonical _ _ _ _ _ _ stake_variant _ _ _ _ Ht Hr) as ([m [st f]] & -> & ? & ?).
    + by destruct (variant_canonical _ _ _ _ _ _ rewards_pool_variant _ _ _ _ Ht Hr) as ([] & -> & _ & ?).
Qed.

(** A state of the version without flags, as it is read now. *)
Definition upgraded (s : StakeStateV1) : StakeStateV2.StakeStateV2 :=
  match s with
  | V1Uninitialized => StakeStateV2.Uninitialized
  | V1Initialized m => StakeStateV2.Initialized m
  | V1Stake m st => StakeStateV2.Stake m st StakeFlags.empty
  | V1RewardsPool => StakeStateV2.RewardsPool
  end.

Lemma upgraded_write s bs :
  StakeState_serialize s = Some bs ->
  write StakeStateV2_codec (upgraded s) = Some (match s with V1Stake _ _ => bs ++ [0] | _ => bs end).
Proof.
  destruct s as [|m|m st|]; cbn [StakeState_serialize upgraded StakeStateV2_codec write StakeStateV2_serialize]; try done.
  intros (b1 & -> & (b2 & -> & <-%(inj Some))%bind_Some)%bind_Some. cbn [mbind option_bind].
  cbn [StakeFlags_codec write]. unfold StakeFlags_serialize. rewrite borsh_u8_le by done. cbn [mbind option_bind].
  by rewrite !app_assoc.
Qed.

(** C35: the layout of stake accounts.  Every state is written in at most the 200
    bytes of an account and read back, whatever follows; only what is written so
    is read; and an account written before the flags existed, padded with zeros,
    is read as the same state without flags. *)
Theorem stake_layout :
  CodecOk StakeStateV2_codec state_values StakeStateV2.size_of /\
  forall s bs rest, state_values (upgraded s) -> StakeState_serialize s = Some bs ->
    exists rest', StakeStateV2_deserialize_reader (bs ++ 0 :: rest) = Some (upgraded s, rest').
Proof.
  split; [eapply codec_iff; [apply StakeStateV2_codec_ok|done|done]|].
  intros s bs rest Hs Hw. pose proof (upgraded_write _ _ Hw) as Hu.
  destruct s; [exists (0 :: rest)|exists (0 :: rest)|exists rest|exists (0 :: rest)];
    change (StakeStateV2_deserialize_reader ?b) with (read StakeStateV2_codec b).
  - by apply read_write.
  - by apply read_write.
  - change (0 :: rest) with ([0] ++ rest). rewrite app_assoc. by apply read_write.
  - by apply read_write.
Qed.

End laws.
