(* ===== verification/ConfigProgram.v ===== *)
(** * The config program (programs/config/src)

    Stores a list of keys, some of them signers, with configuration data behind
    it.  The keys are encoded with a compact length, which is part of the
    encoding of [ConfigKeys] and a parameter as bincode is. *)

From S2P Require Import Prelude Errors Rent Account Pubkey Sysvars EpochSchedule Nonce TransactionContext SysvarCache FeatureSet SystemProgram InvokeContext Message SystemInstructions.

(** ** Keys and data (lib.rs) *)

Record ConfigKeys := mkConfigKeys { keys : list (Pubkey * bool) }.

Module ConfigProcessor.
Section config_program.
Context {Hmids : MessageIds}.
Context `{!Bincode ConfigKeys, !BincodeLimited ConfigKeys}.

Definition ConfigKeys_serialized_size {Er} (keys : list (Pubkey * bool)) : Outcome Er Z :=
  unwrap (bincode_serialized_size (mkConfigKeys keys)).

(** The bytes after the keys; the slice panics if it starts after the end. *)
Definition get_config_data (bytes : Bytes) : Outcome unit Bytes :=
  let! keys := ok_or tt (bincode_deserialize bytes) in
  let! offset := ok_or tt (bincode_serialized_size (T:=ConfigKeys) keys) in
  if offset <=? vec_len bytes then Ok (drop (Z.to_nat offset) bytes) else Panic.

Definition create_config_account {T Er} `{!Bincode T} (keys : list (Pubkey * bool)) (config_data : T)
    (lamports : Z) : Outcome Er AccountSharedData :=
  let! data := unwrap (bincode_serialize (mkConfigKeys keys)) in
  let! rest := unwrap (bincode_serialize config_data) in
  Ok (mkAccount lamports (data ++ rest) config_program_id false 0).

(** ** The entrypoint (config_processor.rs) *)

Definition DEFAULT_COMPUTE_UNITS : Z := 450.

Definition signer_keys (keys : list (Pubkey * bool)) : list Pubkey :=
  fst <$> filter (fun k => snd k = true) keys.

(** [try_borrow_instruction_account(..).map_err(|_| MissingRequiredSignature)] *)
Definition try_borrow_signer (ic : InstructionContext) (i : IndexOfAccount) : TxM BorrowedAccount := fun tc =>
  let (o, tc') := try_borrow_instruction_account ic i tc in
  (map_err (fun _ => MissingRequiredSignature) o, tc').

(** The loop over the signers of the new list, which counts them. *)
Fixpoint check_new_signers (ic : InstructionContext) (config_account_key : Pubkey)
    (is_config_account_signer : bool) (current_data : ConfigKeys) (new_signers : list Pubkey)
    (counter : Z) : TxM Z :=
  match new_signers with
  | [] => ret counter
  | signer :: new_signers =>
      let counter := counter + 1 in
      (if bool_decide (signer <> config_account_key) then
         borrowing (try_borrow_signer ic (as_index counter)) (fun signer_account =>
           if negb (is_signer signer_account) then fail MissingRequiredSignature else
           let? key := query (get_key signer_account) in
           if bool_decide (key <> signer) then fail MissingRequiredSignature else
           (* If Config account is already initialized, update signatures must match Config data *)
           if negb (bool_decide (keys current_data = []))
              && negb (bool_decide (signer ∈ signer_keys (keys current_data)))
           then fail MissingRequiredSignature else ret tt)
       else if negb is_config_account_signer then fail MissingRequiredSignature else ret tt) ;?
      check_new_signers ic config_account_key is_config_account_signer current_data new_signers counter
  end.

Definition Entrypoint : TxM unit :=
  let? ic := query get_current_instruction_context in
  let data := instruction_data ic in
  let? key_list := lift (limited_deserialize (T:=ConfigKeys) data) in
  let? config_account_key := query (key_of_instruction_account ic 0) in
  let? read :=
    borrowing (try_borrow_instruction_account ic 0) (fun config_account =>
      let is_config_account_signer := is_signer config_account in
      let? acc := query (borrowed config_account) in
      if bool_decide (acc_owner acc <> config_program_id) then fail InvalidAccountOwner else
      let? current_data := lift (ok_or InvalidAccountData (bincode_deserialize (T:=ConfigKeys) (acc_data acc))) in
      ret (is_config_account_signer, current_data)) in
  let (is_config_account_signer, current_data) := read : bool * ConfigKeys in
  let current_signer_keys := signer_keys (keys current_data) in
  (* Config account keypair must be a signer on account initialization, or when
     no signers specified in Config data *)
  if bool_decide (current_signer_keys = []) && negb is_config_account_signer
  then fail MissingRequiredSignature else
  let? counter := check_new_signers ic config_account_key is_config_account_signer current_data
                    (signer_keys (keys key_list)) 0 in
  (* dedupe signers *)
  let total_new_keys := vec_len (keys key_list) in
  let unique_new_keys : gset (Pubkey * bool) := list_to_set (keys key_list) in
  if negb (Z.of_nat (size unique_new_keys) =? total_new_keys) then fail InvalidArgument else
  (* Check for Config data signers not present in incoming account update *)
  if counter <? vec_len current_signer_keys then fail MissingRequiredSignature else
  borrowing (try_borrow_instruction_account ic 0) (fun config_account =>
    let? acc := query (borrowed config_account) in
    if vec_len (acc_data acc) <? vec_len data then fail InvalidInstructionData else
    let? old := get_data_mut config_account in
    update_borrowed config_account (account_set_data (data ++ drop (length data) old))).

(** The config program as the runtime registers it. *)
Definition config_builtin : Builtin := fun _ =>
  declare_process_instruction DEFAULT_COMPUTE_UNITS (on_tc Entrypoint).

End config_program.
End ConfigProcessor.

(** ** Instructions (config_instruction.rs) *)

Module ConfigInstruction.
Section config_instruction.
Context {Hids : ProgramIds} {Hmids : MessageIds}.
Context {system_codec : Bincode SystemInstruction} {keys_codec : Bincode ConfigKeys}.
(** [T: ConfigState], with its [Default] and [max_space]. *)
Context {T : Type} {data_codec : Bincode T} (default_data : T) (max_space : Z).

(** A tuple is encoded as its parts, one after the other. *)
#[local] Instance tuple_codec : Bincode (ConfigKeys * T) := {|
  bincode_serialize := fun p =>
    keys ← bincode_serialize (fst p); data ← bincode_serialize (snd p); Some (keys ++ data);
  bincode_deserialize := fun bs =>
    keys ← bincode_deserialize (T:=ConfigKeys) bs; n ← bincode_serialize keys;
    data ← bincode_deserialize (T:=T) (drop (length n) bs); Some (keys, data);
|}.

Definition initialize_account (config_pubkey : Pubkey) : Outcome Empty_set Instruction :=
  let account_metas := [AccountMeta_new config_pubkey true] in
  new_with_bincode config_program_id (mkConfigKeys [], default_data) account_metas.

Definition create_account (from_account_pubkey config_account_pubkey : Pubkey) (lamports : Z)
    (keys : list (Pubkey * bool)) : Outcome Empty_set (list Instruction) :=
  let! size := ConfigProcessor.ConfigKeys_serialized_size keys in
  let space := wrapping U64 (max_space + size) in
  let! create := Sdk.create_account from_account_pubkey config_account_pubkey lamports space config_program_id in
  let! initialize := initialize_account config_account_pubkey in
  Ok [create; initialize].

(** The signers but the config account, which comes first in any case. *)
Definition store_metas (config_account_pubkey : Pubkey) (is_config_signer : bool)
    (keys : list (Pubkey * bool)) : list AccountMeta :=
  AccountMeta_new config_account_pubkey is_config_signer ::
  ((fun signer_pubkey => AccountMeta_new signer_pubkey true) <$>
     filter (fun signer_pubkey => signer_pubkey <> config_account_pubkey) (ConfigProcessor.signer_keys keys)).

Definition store (config_account_pubkey : Pubkey) (is_config_signer : bool) (keys : list (Pubkey * bool))
    (data : T) : Outcome Empty_set Instruction :=
  new_with_bincode config_program_id (mkConfigKeys keys, data)
    (store_metas config_account_pubkey is_config_signer keys).

End config_instruction.
End ConfigInstruction.
