(* ===== verification/StakeActivation.v ===== *)
(** * Warmup and cooldown of a delegation

    The two loops over the stake history end within the entries of the history,
    the status they give is within the delegated stake, and a delegation that
    cools down loses at least a lamport in every epoch. *)

From S2P Require Import Prelude Errors Rent Account Sysvars VoteState StakeState.

(** ** Entries of the history *)

Lemma binary_search_loop_found {A} (f : A -> comparison) l fuel left right i :
  binary_search_loop f l fuel left right = Found i -> exists x, l !! i = Some x /\ f x = Eq.
Proof.
  revert left right. induction fuel as [|fuel IH]; intros left right H; cbn [binary_search_loop] in H; [done|]. cbv zeta in H.
  destruct (left <? right)%nat; [|done].
  destruct (l !! (left + (right - left) / 2)%nat) as [x|] eqn:Hx; [|done].
  destruct (f x) eqn:Hf; [|by eapply IH..]. injection H as <-. eauto.
Qed.

Lemma history_get_elem key (h : StakeHistory.StakeHistory) e :
  StakeHistory.get key h = Some e -> (key, e) ∈ h.
Proof.
  unfold StakeHistory.get, history_get, history_search, binary_search_by. intros H.
  destruct (binary_search_loop _ _ _ _ _) as [i|i] eqn:Hs; [|done].
  apply binary_search_loop_found in Hs as ([k x] & Hi & Hk%Z.compare_eq). simpl in Hk. subst k.
  rewrite Hi in H. injection H as <-. by eapply list_elem_of_lookup_2.
Qed.

(** The entries of an epoch or a later one. *)
Definition entries_from (epoch : Epoch) (h : list (Epoch * StakeHistoryEntry))
  : list (Epoch * StakeHistoryEntry) :=
  filter (fun x => epoch <= fst x) h.

Lemma entries_from_le epoch h : (length (entries_from epoch h) <= length h)%nat.
Proof. apply length_filter. Qed.

Lemma entries_from_step epoch h e :
  (epoch, e) ∈ h -> (S (length (entries_from (epoch + 1) h)) <= length (entries_from epoch h))%nat.
Proof.
  assert (forall h, length (entries_from (epoch + 1) h) <= length (entries_from epoch h))%nat as Hmono.
  { clear. unfold entries_from. induction h as [|[k x] h IH]; [done|]. rewrite !filter_cons.
    repeat case_decide; simpl in *; lia. }
  induction h as [|[k x] h IH]; [by intros ?%elem_of_nil|]. specialize (Hmono h).
  intros [[= <- <-]|Hin]%elem_of_cons; unfold entries_from in *; rewrite !filter_cons.
  - rewrite decide_False by (simpl; lia). rewrite decide_True by (simpl; lia). simpl. lia.
  - apply IH in Hin. repeat case_decide; simpl in *; lia.
Qed.

Lemma next_epoch prev target : 0 <= prev -> prev < target -> target <= int_max U64 -> wrapping U64 (prev + 1) = prev + 1.
Proof. intros. apply wrapping_small. unfold in_range. simpl in *. lia. Qed.

(** ** The loops end within the history *)

Section loops.
Context (h : StakeHistory.StakeHistory) (rate : option Epoch) (target : Epoch).
Context (Htarget : target <= int_max U64).

Lemma warmup_loop_fuel d fuel fuel' prev e cur :
  0 <= prev < target -> (prev, e) ∈ h ->
  (length (entries_from prev h) <= fuel)%nat -> (length (entries_from prev h) <= fuel')%nat ->
  warmup_loop h rate fuel d target prev e cur = warmup_loop h rate fuel' d target prev e cur.
Proof.
  revert fuel' prev e cur. induction fuel as [|fuel IH]; intros fuel' prev e cur Hp Hin Hf Hf';
    pose proof (entries_from_step _ _ _ Hin); [lia|].
  destruct fuel' as [|fuel']; [lia|]. simpl. rewrite (next_epoch prev target) by lia.
  destruct (activating e =? 0); [done|]. destruct (_ <=? _); [done|].
  destruct (_ || _) eqn:Ho; [done|]. apply orb_false_iff in Ho as [?%Z.leb_gt _].
  destruct (StakeHistory.get _ _) eqn:Hg; [|done]. apply IH; [lia|by apply history_get_elem|lia..].
Qed.

Lemma cooldown_loop_fuel fuel fuel' prev e cur :
  0 <= prev < target -> (prev, e) ∈ h ->
  (length (entries_from prev h) <= fuel)%nat -> (length (entries_from prev h) <= fuel')%nat ->
  cooldown_loop h rate fuel target prev e cur = cooldown_loop h rate fuel' target prev e cur.
Proof.
  revert fuel' prev e cur. induction fuel as [|fuel IH]; intros fuel' prev e cur Hp Hin Hf Hf';
    pose proof (entries_from_step _ _ _ Hin); [lia|].
  destruct fuel' as [|fuel']; [lia|]. simpl. rewrite (next_epoch prev target) by lia.
  destruct (deactivating e =? 0); [done|]. destruct (_ =? 0); [done|].
  destruct (Z.leb_spec target (prev + 1)); [done|].
  destruct (StakeHistory.get _ _) eqn:Hg; [|done]. apply IH; [lia|by apply history_get_elem|lia..].
Qed.

End loops.

(** ** The status is within the delegated stake *)

Lemma entitlement_range part whole cluster rate : 1 <= entitlement part whole cluster rate <= int_max U64.
Proof.
  unfold entitlement. assert (forall x, F64.to_u64 x <= int_max U64) as H; [|specialize (H (F64.mul (F64.div (F64.of_u64 part) (F64.of_u64 whole)) (F64.mul (F64.of_u64 cluster) rate))); simpl in *; lia].
  intros []; simpl; try lia; [destruct s; simpl; lia|]. destruct s; [lia|].
  pose proof (saturating_range U64 (F64.trunc m e) ltac:(simpl; lia)) as []. simpl in *. lia.
Qed.

Section bounds.
Context (h : StakeHistory.StakeHistory) (rate : option Epoch).

Lemma warmup_loop_bounds fuel d target prev e cur :
  0 <= delegation_stake d -> 0 <= cur <= delegation_stake d ->
  0 <= warmup_loop h rate fuel d target prev e cur <= delegation_stake d.
Proof.
  intros Hd. revert prev e cur. induction fuel as [|fuel IH]; intros prev e cur Hc; simpl; [lia|].
  destruct (activating e =? 0); [lia|]. set (x := entitlement _ _ _ _).
  pose proof (wrapping_range U64 (cur + x) ltac:(simpl; lia)) as [Hr _]. simpl in Hr.
  destruct (Z.leb_spec (delegation_stake d) (wrapping U64 (cur + x))); [lia|].
  destruct (_ || _); [lia|]. destruct (StakeHistory.get _ _); [|lia]. apply IH. lia.
Qed.

Lemma cooldown_loop_bounds fuel target prev e cur :
  0 <= cur -> 0 <= cooldown_loop h rate fuel target prev e cur <= cur.
Proof.
  revert prev e cur. induction fuel as [|fuel IH]; intros prev e cur Hc; simpl; [lia|].
  destruct (deactivating e =? 0); [lia|]. set (x := entitlement _ _ _ _).
  assert (1 <= x) as Hx by apply entitlement_range.
  assert (0 <= saturating_sub U64 cur x <= cur) as Hs.
  { unfold saturating_sub, saturating. simpl. lia. }
  destruct (_ =? 0); [lia|]. destruct (_ <=? _); [lia|]. destruct (StakeHistory.get _ _); [|lia].
  specialize (IH (wrapping U64 (prev + 1)) s (saturating_sub U64 cur x)). lia.
Qed.

Lemma stake_and_activating_bounds d target :
  in_range U64 (delegation_stake d) ->
  let '(eff, act) := stake_and_activating h rate d target in
  0 <= eff /\ 0 <= act /\ eff + act <= delegation_stake d.
Proof.
  intros Hd. assert (0 <= delegation_stake d) as Hd0 by (unfold in_range in Hd; simpl in Hd; lia). unfold stake_and_activating.
  destruct (is_bootstrap d); [lia|]. do 2 (destruct (_ =? _); [lia|]). destruct (_ <? _); [lia|].
  destruct (StakeHistory.get _ _) as [s|]; [|lia].
  pose proof (warmup_loop_bounds (S (length h)) d target (activation_epoch d) s 0 Hd0 ltac:(lia)) as Hw.
  cbv zeta. set (w := warmup_loop _ _ _ _ _ _ _ _) in *. clearbody w.
  rewrite wrapping_small; [lia|]. unfold in_range in *. simpl in *. lia.
Qed.

End bounds.

Lemma status_bounds (h : StakeHistory.StakeHistory) (rate : option Epoch) (d : Delegation) (target : Epoch) :
  in_range U64 (delegation_stake d) ->
  let status := stake_activating_and_deactivating h rate d target in
  0 <= effective status /\ 0 <= activating status /\
  effective status + activating status <= delegation_stake d /\
  (deactivating status = 0 \/ deactivating status = effective status /\ activating status = 0) /\
  (target <= activation_epoch d -> activation_epoch d < int_max U64 -> effective status = 0).
Proof.
  intros Hd. pose proof (stake_and_activating_bounds h rate d target Hd) as Hb.
  cbv zeta. unfold stake_activating_and_deactivating.
  destruct (stake_and_activating h rate d target) as [eff act] eqn:Hs.
  assert (target <= activation_epoch d -> activation_epoch d < int_max U64 -> eff = 0) as H0.
  { intros H1 H2. revert Hs. unfold stake_and_activating, is_bootstrap.
    destruct (Z.eqb_spec (activation_epoch d) (int_max U64)); [lia|].
    destruct (_ =? _); [by intros [= <- _]|]. destruct (Z.eqb_spec target (activation_epoch d)); [by intros [= <- _]|].
    destruct (Z.ltb_spec target (activation_epoch d)); [by intros [= <- _]|lia]. }
  destruct (target <? deactivation_epoch d); [destruct (Z.eqb_spec act 0); simpl; split_and!; try lia; done|].
  destruct (target =? deactivation_epoch d); [simpl; split_and!; try lia; done|].
  destruct (StakeHistory.get _ _); [|simpl; split_and!; try lia; done].
  pose proof (cooldown_loop_bounds h rate (S (length h)) target (deactivation_epoch d) s eff ltac:(lia)).
  set (c := cooldown_loop _ _ _ _ _ _ _) in *. clearbody c. simpl. split_and!; try lia.
  intros H1 H2. specialize (H0 H1 H2). lia.
Qed.

(** C31: a delegation is never more effective than it is large.  At every epoch
    and for every history of the cluster, the effective and the activating stake
    are not negative and together at most the delegated stake; what deactivates
    is all of the effective stake or nothing, and nothing activates while it
    does; a delegation has no effect in the epoch that activates it nor before,
    unless it is a bootstrap stake.  The loops over the history give the same
    for any fuel that is larger than the history. *)
Theorem stake_status_bounded (h : StakeHistory.StakeHistory) (rate : option Epoch) (d : Delegation)
    (target : Epoch) :
  in_range U64 (delegation_stake d) -> in_range U64 target -> in_range U64 (activation_epoch d) ->
  in_range U64 (deactivation_epoch d) ->
  let status := stake_activating_and_deactivating h rate d target in
  0 <= effective status /\ 0 <= activating status /\
  effective status + activating status <= delegation_stake d /\
  (deactivating status = 0 \/ deactivating status = effective status /\ activating status = 0) /\
  (target <= activation_epoch d -> activation_epoch d < int_max U64 -> effective status = 0) /\
  (forall e, activation_epoch d < target -> StakeHistory.get (activation_epoch d) h = Some e ->
     forall fuel, (length h <= fuel)%nat ->
     warmup_loop h rate fuel d target (activation_epoch d) e 0 =
     warmup_loop h rate (S (length h)) d target (activation_epoch d) e 0) /\
  (forall e cur, deactivation_epoch d < target -> StakeHistory.get (deactivation_epoch d) h = Some e ->
     forall fuel, (length h <= fuel)%nat ->
     cooldown_loop h rate fuel target (deactivation_epoch d) e cur =
     cooldown_loop h rate (S (length h)) target (deactivation_epoch d) e cur).
Proof.
  intros Hd Ht Ha Hde. destruct (status_bounds h rate d target Hd) as (? & ? & ? & ? & ?).
  unfold in_range in Ht, Ha, Hde. cbn [int_min int_max U64] in *. split_and!; try done.
  - intros e Hlt Hg fuel Hf. apply history_get_elem in Hg.
    apply warmup_loop_fuel; try done; [simpl; lia|lia|..]; pose proof (entries_from_le (activation_epoch d) h); lia.
  - intros e cur Hlt Hg fuel Hf. apply history_get_elem in Hg.
    apply cooldown_loop_fuel; try done; [simpl; lia|lia|..]; pose proof (entries_from_le (deactivation_epoch d) h); lia.
Qed.

(** ** Cooldown makes progress *)

Section cooldown.
Context (h : StakeHistory.StakeHistory) (rate : option Epoch) (target : Epoch).
Context (Htarget : target <= int_max U64).

(** The cluster deactivates in every epoch from [from] until before [target]. *)
Definition deactivates_from (from : Epoch) : Prop :=
  forall epoch, from <= epoch < target ->
    exists e, StakeHistory.get epoch h = Some e /\ deactivating e <> 0.

Lemma cooldown_loop_progress fuel prev e cur :
  0 <= prev < target -> StakeHistory.get prev h = Some e -> deactivates_from prev ->
  (length (entries_from prev h) <= fuel)%nat -> 0 <= cur ->
  cooldown_loop h rate fuel target prev e cur <= Z.max 0 (cur - (target - prev)).
Proof.
  revert prev e cur. induction fuel as [|fuel IH]; intros prev e cur Hp Hg Hd Hf Hc;
    pose proof (entries_from_step _ _ _ (history_get_elem _ _ _ Hg)) as Hstep; [lia|].
  cbn [cooldown_loop]. rewrite (next_epoch prev target) by lia.
  destruct (Hd prev ltac:(lia)) as (e' & He' & Hnz). rewrite Hg in He'. injection He' as <-.
  destruct (Z.eqb_spec (deactivating e) 0); [done|]. set (x := entitlement _ _ _ _).
  assert (1 <= x) as Hx by apply entitlement_range.
  assert (0 <= saturating_sub U64 cur x <= Z.max 0 (cur - 1)) as Hs by (unfold saturating_sub, saturating; simpl; lia).
  cbv zeta. set (cur' := saturating_sub U64 cur x) in *. clearbody cur'.
  destruct (Z.eqb_spec cur' 0); [lia|]. destruct (Z.leb_spec target (prev + 1)); [lia|].
  destruct (Hd (prev + 1) ltac:(lia)) as (e1 & He1 & _). rewrite He1.
  assert (deactivates_from (prev + 1)) as Hd' by (intros epoch ?; apply Hd; lia).
  specialize (IH (prev + 1) e1 cur' ltac:(lia) He1 Hd' ltac:(lia) ltac:(lia)). lia.
Qed.

End cooldown.

(** C32: stake cools down.  While the cluster has stake to deactivate in every
    epoch, a deactivated delegation loses at least one lamport of its effective
    stake per epoch, so that it is free after as many epochs as it has lamports;
    and nothing of it is effective, from the epoch after the deactivation on, when
    the history has no entry for the epoch of the deactivation. *)
Theorem stake_cools_down (h : StakeHistory.StakeHistory) (rate : option Epoch) (d : Delegation)
    (target : Epoch) :
  in_range U64 (delegation_stake d) -> in_range U64 target -> 0 <= deactivation_epoch d < target ->
  (deactivates_from h target (deactivation_epoch d) ->
     0 <= effective_stake h rate d target <= Z.max 0 (delegation_stake d - (target - deactivation_epoch d))) /\
  (StakeHistory.get (deactivation_epoch d) h = None -> effective_stake h rate d target = 0).
Proof.
  intros Hd Ht Hlt. unfold effective_stake, stake_activating_and_deactivating.
  pose proof (stake_and_activating_bounds h rate d target Hd) as Hb.
  destruct (stake_and_activating h rate d target) as [eff act].
  destruct (Z.ltb_spec target (deactivation_epoch d)); [lia|].
  destruct (Z.eqb_spec target (deactivation_epoch d)); [lia|].
  split; [intros Hcase|by intros ->].
  destruct (Hcase (deactivation_epoch d) ltac:(lia)) as (e & He & _). rewrite He.
  unfold in_range in Ht. cbn [int_min int_max U64] in Ht.
  pose proof (cooldown_loop_bounds h rate (S (length h)) target (deactivation_epoch d) e eff ltac:(lia)).
  pose proof (entries_from_le (deactivation_epoch d) h).
  pose proof (cooldown_loop_progress h rate target ltac:(simpl; lia) (S (length h)) (deactivation_epoch d) e eff
    Hlt He Hcase ltac:(lia) ltac:(lia)).
  unfold with_deactivating. cbn [effective]. lia.
Qed.
