(* ===== verification/StakeProgram.v ===== *)
(** * The stake program (programs/stake/src)

    The handlers that read the state of a stake account, change it and write it
    back (stake_state.rs) and the entrypoint (stake_instruction.rs).  A handler
    that takes a [BorrowedAccount] works in the caller's scope, one that takes
    indices borrows for itself, as in the source; a [Result] that is kept for
    later is a value of type [Outcome]. *)

From S2P Require Import Prelude Errors Rent Account BTreeMap Pubkey Sysvars EpochSchedule Nonce TransactionContext SysvarCache FeatureSet SystemProgram InvokeContext Message VoteState StakeState ConfigProgram.

(** [m] without the [?]: its result is kept, a panic is not. *)
Definition capture {A} (m : TxM A) : TxM (Res A) := fun tc =>
  match m tc with
  | (Panic, tc') => (Panic, tc')
  | (o, tc') => (Ok o, tc')
  end.

(** [?] on a [StakeError] in a function that returns an [InstructionError]. *)
Definition stake_err {A} (o : Outcome StakeErr A) : Outcome InstructionError A :=
  map_err StakeError.into o.

(** The stake config account (sdk/program/src/stake/config.rs). *)
Record StakeConfig := mkStakeConfig {
  config_warmup_cooldown_rate : F64.f64;
  config_slash_penalty : Z;
}.

Definition StakeConfig_default : StakeConfig :=
  mkStakeConfig DEFAULT_WARMUP_COOLDOWN_RATE DEFAULT_SLASH_PENALTY.

(** lib.rs, sdk/program/src/stake/deprecated.rs, native_token.rs *)
Definition LAMPORTS_PER_SOL : Z := 1000000000.
Definition MINIMUM_STAKE_DELEGATION : Z := 1.

Module StakeProcessor.
Section stake_program.
Context `{!Hashing} {Hids : ProgramIds} {Hmids : MessageIds} {Hfids : FeatureIds}.
Context `{!Bincode StakeStateV2.StakeStateV2, !BincodeLimited StakeInstruction.StakeInstruction}.
Context `{!Bincode VoteStateVersions, !Bincode ConfigKeys, !Bincode StakeConfig}.

Definition get_minimum_delegation (feature_set : FeatureSet) : Z :=
  if is_active feature_set stake_raise_minimum_delegation_to_1_sol then 1 * LAMPORTS_PER_SOL
  else MINIMUM_STAKE_DELEGATION.

(** The [unwrap] of the epoch schedule panics. *)
Definition new_warmup_cooldown_rate_epoch {E} (env : Environment) : Outcome E (option Epoch) :=
  match get_epoch_schedule (env_sysvar_cache env) with
  | Ok epoch_schedule =>
      Ok (FeatureSet.new_warmup_cooldown_rate_epoch (env_feature_set env) epoch_schedule)
  | _ => Panic
  end.

Definition get_stake_status (env : Environment) (stake : Stake) (clock : Clock)
  : Res StakeActivationStatus :=
  let! stake_history := get_stake_history (env_sysvar_cache env) in
  let! rate_epoch := new_warmup_cooldown_rate_epoch env in
  Ok (stake_activating_and_deactivating stake_history rate_epoch (delegation stake) (clock_epoch clock)).

Definition redelegate_stake (env : Environment) (stake : Stake) (stake_lamports : Z)
    (voter : Pubkey) (vote_state : VoteState) (clock : Clock)
    (stake_history : StakeHistory.StakeHistory) : Outcome StakeErr Stake :=
  let! new_rate_activation_epoch := new_warmup_cooldown_rate_epoch env in
  (* If stake is currently active: *)
  if negb (stake_at stake (clock_epoch clock) stake_history new_rate_activation_epoch =? 0) then
    let stake_lamports_ok :=
      if is_active (env_feature_set env) stake_redelegate_instruction
      then delegation_stake (delegation stake) <=? stake_lamports else true in
    (* If pubkey of new voter is the same as current, and we are scheduled to
       start deactivating this epoch, we rescind deactivation *)
    if bool_decide (voter_pubkey (delegation stake) = voter)
       && (clock_epoch clock =? deactivation_epoch (delegation stake)) && stake_lamports_ok
    then Ok (with_delegation (with_deactivation_epoch (int_max U64) (delegation stake)) stake)
    else Err StakeError.TooSoonToRedelegate
  else
    Ok (mkStake (mkDelegation voter stake_lamports (clock_epoch clock) (int_max U64)
                   (delegation_rate (delegation stake))) (credits vote_state)).

Definition new_stake (stake : Z) (voter : Pubkey) (vote_state : VoteState)
    (activation_epoch : Epoch) : Stake :=
  mkStake (Delegation_new voter stake activation_epoch) (credits vote_state).

Definition initialize (stake_account : BorrowedAccount) (authorized : Authorized) (lockup : Lockup)
    (rent : Rent) : TxM unit :=
  let? acc := query (borrowed stake_account) in
  if negb (vec_len (acc_data acc) =? StakeStateV2.size_of) then fail InvalidAccountData else
  let? state := get_state stake_account in
  match state with
  | StakeStateV2.Uninitialized =>
      let rent_exempt_reserve := minimum_balance rent (vec_len (acc_data acc)) in
      if rent_exempt_reserve <=? acc_lamports acc
      then set_state stake_account
             (StakeStateV2.Initialized (mkMeta rent_exempt_reserve authorized lockup))
      else fail InsufficientFunds
  | _ => fail InvalidAccountData
  end.

Definition authorize (stake_account : BorrowedAccount) (signers : gset Pubkey)
    (new_authority : Pubkey) (stake_authorize : StakeAuth) (clock : Clock)
    (custodian : option Pubkey) : TxM unit :=
  let? state := get_state stake_account in
  match state with
  | StakeStateV2.Stake meta stake stake_flags =>
      let? a := lift (Authorized_authorize (authorized meta) signers new_authority stake_authorize
                        (Some (lockup meta, clock, custodian))) in
      set_state stake_account (StakeStateV2.Stake (with_authorized a meta) stake stake_flags)
  | StakeStateV2.Initialized meta =>
      let? a := lift (Authorized_authorize (authorized meta) signers new_authority stake_authorize
                        (Some (lockup meta, clock, custodian))) in
      set_state stake_account (StakeStateV2.Initialized (with_authorized a meta))
  | _ => fail InvalidAccountData
  end.

Definition authorize_with_seed (ic : InstructionContext) (stake_account : BorrowedAccount)
    (authority_base_index : IndexOfAccount) (authority_seed : Bytes) (authority_owner : Pubkey)
    (new_authority : Pubkey) (stake_authorize : StakeAuth) (clock : Clock)
    (custodian : option Pubkey) : TxM unit :=
  let? signed := lift (is_instruction_account_signer ic authority_base_index) in
  let? signers :=
    if signed : bool then
      let? base_pubkey := query (key_of_instruction_account ic authority_base_index) in
      let? key := lift (map_err PubkeyError.into
                          (create_with_seed base_pubkey authority_seed authority_owner)) in
      ret ({[key]} : gset Pubkey)
    else ret ∅ in
  authorize stake_account signers new_authority stake_authorize clock custodian.

(** [ValidatedDelegatedInfo { stake_amount }] *)
Definition validate_delegated_amount (account : AccountSharedData) (meta : Meta)
    (feature_set : FeatureSet) : Res Z :=
  let stake_amount := saturating_sub U64 (acc_lamports account) (rent_exempt_reserve meta) in
  if stake_amount <? get_minimum_delegation feature_set
  then Err (StakeError.into StakeError.InsufficientDelegation) else Ok stake_amount.

Definition delegate (env : Environment) (ic : InstructionContext)
    (stake_account_index vote_account_index : IndexOfAccount) (clock : Clock)
    (stake_history : StakeHistory.StakeHistory) (signers : gset Pubkey) (feature_set : FeatureSet)
  : TxM unit :=
  let? vote :=
    borrowing (try_borrow_instruction_account ic vote_account_index) (fun vote_account =>
      let? acc := query (borrowed vote_account) in
      if bool_decide (acc_owner acc <> vote_program_id) then fail IncorrectProgramId else
      let? vote_pubkey := query (get_key vote_account) in
      let? vote_state := capture (get_state (T:=VoteStateVersions) vote_account) in
      ret (vote_pubkey, vote_state)) in
  let (vote_pubkey, vote_state) := vote : Pubkey * Res VoteStateVersions in
  borrowing (try_borrow_instruction_account ic stake_account_index) (fun stake_account =>
    let? state := get_state stake_account in
    match state with
    | StakeStateV2.Initialized meta =>
        lift (Authorized_check (authorized meta) signers StakeAuthorize.Staker) ;?
        let? acc := query (borrowed stake_account) in
        let? stake_amount := lift (validate_delegated_amount acc meta feature_set) in
        let? versions := lift vote_state in
        let stake := new_stake stake_amount vote_pubkey (convert_to_current versions) (clock_epoch clock) in
        set_state stake_account (StakeStateV2.Stake meta stake StakeFlags.empty)
    | StakeStateV2.Stake meta stake stake_flags =>
        lift (Authorized_check (authorized meta) signers StakeAuthorize.Staker) ;?
        let? acc := query (borrowed stake_account) in
        let? stake_amount := lift (validate_delegated_amount acc meta feature_set) in
        let? versions := lift vote_state in
        let? stake := lift (stake_err (redelegate_stake env stake stake_amount vote_pubkey
                                         (convert_to_current versions) clock stake_history)) in
        set_state stake_account (StakeStateV2.Stake meta stake stake_flags)
    | _ => fail InvalidAccountData
    end).

Definition deactivate_stake (env : Environment) (stake : Stake) (stake_flags : StakeFlags.StakeFlags)
    (epoch : Epoch) : Res (Stake * StakeFlags.StakeFlags) :=
  let flag := StakeFlags.MUST_FULLY_ACTIVATE_BEFORE_DEACTIVATION_IS_PERMITTED in
  if is_active (env_feature_set env) stake_redelegate_instruction then
    if StakeFlags.contains stake_flags flag then
      let! stake_history := get_stake_history (env_sysvar_cache env) in
      (* deactivation is only permitted when the activating amount is zero *)
      let! rate_epoch := new_warmup_cooldown_rate_epoch env in
      let status := stake_activating_and_deactivating stake_history rate_epoch (delegation stake) epoch in
      if negb (activating status =? 0)
      then Err (StakeError.into
             StakeError.RedelegatedStakeMustFullyActivateBeforeDeactivationIsPermitted)
      else
        let! stake := stake_err (Stake_deactivate stake epoch) in
        Ok (stake, StakeFlags.remove flag stake_flags)
    else
      let! stake := stake_err (Stake_deactivate stake epoch) in Ok (stake, stake_flags)
  else
    let! stake := stake_err (Stake_deactivate stake epoch) in Ok (stake, stake_flags).

Definition deactivate (env : Environment) (stake_account : BorrowedAccount) (clock : Clock)
    (signers : gset Pubkey) : TxM unit :=
  let? state := get_state stake_account in
  match state with
  | StakeStateV2.Stake meta stake stake_flags =>
      lift (Authorized_check (authorized meta) signers StakeAuthorize.Staker) ;?
      let? result := lift (deactivate_stake env stake stake_flags (clock_epoch clock)) in
      set_state stake_account (StakeStateV2.Stake meta (fst result) (snd result))
  | _ => fail InvalidAccountData
  end.

Definition set_lockup (stake_account : BorrowedAccount) (args : LockupArgs) (signers : gset Pubkey)
    (clock : Clock) : TxM unit :=
  let? state := get_state stake_account in
  match state with
  | StakeStateV2.Initialized meta =>
      let? meta := lift (Meta_set_lockup meta args signers clock) in
      set_state stake_account (StakeStateV2.Initialized meta)
  | StakeStateV2.Stake meta stake stake_flags =>
      let? meta := lift (Meta_set_lockup meta args signers clock) in
      set_state stake_account (StakeStateV2.Stake meta stake stake_flags)
  | _ => fail InvalidAccountData
  end.

(** ** Splitting *)

Record ValidatedSplitInfo := mkValidatedSplitInfo {
  source_remaining_balance : Z;
  destination_rent_exempt_reserve : Z;
}.

(** [try_borrow_instruction_account(i)?], a look at the account, and [drop]. *)
Definition peek_account (ic : InstructionContext) (i : IndexOfAccount) : TxM AccountSharedData :=
  borrowing (try_borrow_instruction_account ic i) (fun account => query (borrowed account)).

Definition validate_split_amount (env : Environment) (ic : InstructionContext)
    (source_account_index destination_account_index : IndexOfAccount) (lamports : Z)
    (source_meta : Meta) (additional_required_lamports : Z) (source_is_active : bool)
  : TxM ValidatedSplitInfo :=
  let? source := peek_account ic source_account_index in
  let source_lamports := acc_lamports source in
  let? destination := peek_account ic destination_account_index in
  let destination_lamports := acc_lamports destination in
  let destination_data_len := vec_len (acc_data destination) in
  (* Split amount has to be something *)
  if lamports =? 0 then fail InsufficientFunds else
  (* Obviously cannot split more than what the source account has *)
  if source_lamports <? lamports then fail InsufficientFunds else
  let source_minimum_balance :=
    saturating_add U64 (rent_exempt_reserve source_meta) additional_required_lamports in
  let source_remaining_balance := saturating_sub U64 source_lamports lamports in
  if negb (source_remaining_balance =? 0) && (source_remaining_balance <? source_minimum_balance)
  then fail InsufficientFunds else
  let? rent := lift (get_rent (env_sysvar_cache env)) in
  let destination_rent_exempt_reserve := minimum_balance rent destination_data_len in
  (* If the source is active stake, the destination must be prefunded with the
     rent-exempt reserve, or the split must consume all of the source *)
  if source_is_active && negb (source_remaining_balance =? 0)
     && (destination_lamports <? destination_rent_exempt_reserve)
  then fail InsufficientFunds else
  (* Verify the destination account meets the minimum balance requirements *)
  let destination_minimum_balance :=
    saturating_add U64 destination_rent_exempt_reserve additional_required_lamports in
  let destination_balance_deficit :=
    saturating_sub U64 destination_minimum_balance destination_lamports in
  if lamports <? destination_balance_deficit then fail InsufficientFunds else
  ret (mkValidatedSplitInfo source_remaining_balance destination_rent_exempt_reserve).

(** How much the source loses, and how much the new stake has. *)
Definition split_amounts (lamports split_lamport_balance minimum_delegation : Z) (meta : Meta)
    (stake : Stake) (info : ValidatedSplitInfo) : Res (Z * Z) :=
  let! amounts :=
    if source_remaining_balance info =? 0 then
      let remaining_stake_delta := saturating_sub U64 lamports (rent_exempt_reserve meta) in
      Ok (remaining_stake_delta, remaining_stake_delta)
    else if saturating_sub U64 (delegation_stake (delegation stake)) lamports <? minimum_delegation
    then Err (StakeError.into StakeError.InsufficientDelegation)
    else Ok (lamports, saturating_sub U64 lamports
               (saturating_sub U64 (destination_rent_exempt_reserve info) split_lamport_balance)) in
  if snd amounts <? minimum_delegation
  then Err (StakeError.into StakeError.InsufficientDelegation) else Ok amounts.

(** The arm of the [match] for a delegated stake. *)
Definition split_stake (env : Environment) (ic : InstructionContext)
    (stake_account_index split_index : IndexOfAccount) (lamports split_lamport_balance : Z)
    (signers : gset Pubkey) (meta : Meta) (stake : Stake) (stake_flags : StakeFlags.StakeFlags)
  : TxM unit :=
  lift (Authorized_check (authorized meta) signers StakeAuthorize.Staker) ;?
  let minimum_delegation := get_minimum_delegation (env_feature_set env) in
  let? clock := lift (get_clock (env_sysvar_cache env)) in
  let? status := lift (get_stake_status env stake clock) in
  let is_active := 0 <? effective status in
  let? info := validate_split_amount env ic stake_account_index split_index lamports meta
                 minimum_delegation is_active in
  let? amounts := lift (split_amounts lamports split_lamport_balance minimum_delegation meta stake info) in
  let? stakes := lift (stake_err (Stake_split stake (fst amounts) (snd amounts))) in
  let split_meta := with_reserve (destination_rent_exempt_reserve info) meta in
  borrowing (try_borrow_instruction_account ic stake_account_index) (fun stake_account =>
    set_state stake_account (StakeStateV2.Stake meta (fst stakes) stake_flags)) ;?
  borrowing (try_borrow_instruction_account ic split_index) (fun split =>
    set_state split (StakeStateV2.Stake split_meta (snd stakes) stake_flags)).

Definition split (env : Environment) (ic : InstructionContext) (stake_account_index : IndexOfAccount)
    (lamports : Z) (split_index : IndexOfAccount) (signers : gset Pubkey) : TxM unit :=
  let? split_lamport_balance :=
    borrowing (try_borrow_instruction_account ic split_index) (fun split =>
      let? acc := query (borrowed split) in
      if bool_decide (acc_owner acc <> stake_program_id) then fail IncorrectProgramId else
      if negb (vec_len (acc_data acc) =? StakeStateV2.size_of) then fail InvalidAccountData else
      let? state := get_state split in
      match state with
      | StakeStateV2.Uninitialized => ret (acc_lamports acc)
      | _ => fail InvalidAccountData
      end) in
  let? stake_state :=
    borrowing (try_borrow_instruction_account ic stake_account_index) (fun stake_account =>
      let? acc := query (borrowed stake_account) in
      if acc_lamports acc <? lamports then fail InsufficientFunds else
      get_state stake_account) in
  match stake_state with
  | StakeStateV2.Stake meta stake stake_flags =>
      split_stake env ic stake_account_index split_index lamports split_lamport_balance signers
        meta stake stake_flags
  | StakeStateV2.Initialized meta =>
      lift (Authorized_check (authorized meta) signers StakeAuthorize.Staker) ;?
      let? info := validate_split_amount env ic stake_account_index split_index lamports meta 0 false in
      borrowing (try_borrow_instruction_account ic split_index) (fun split =>
        set_state split (StakeStateV2.Initialized
          (with_reserve (destination_rent_exempt_reserve info) meta)))
  | StakeStateV2.Uninitialized =>
      let? stake_pubkey := query (key_of_instruction_account ic stake_account_index) in
      if bool_decide (stake_pubkey ∉ signers) then fail MissingRequiredSignature else ret tt
  | StakeStateV2.RewardsPool => fail InvalidAccountData
  end ;?
  (* Deinitialize state upon zero balance *)
  borrowing (try_borrow_instruction_account ic stake_account_index) (fun stake_account =>
    let? acc := query (borrowed stake_account) in
    if lamports =? acc_lamports acc then set_state stake_account StakeStateV2.Uninitialized
    else ret tt) ;?
  borrowing (try_borrow_instruction_account ic split_index) (fun split =>
    checked_add_lamports split lamports) ;?
  borrowing (try_borrow_instruction_account ic stake_account_index) (fun stake_account =>
    checked_sub_lamports stake_account lamports).

(** ** Merging *)

Inductive MergeKind : Type :=
| Inactive (meta : Meta) (lamports : Z) (stake_flags : StakeFlags.StakeFlags)
| ActivationEpoch (meta : Meta) (stake : Stake) (stake_flags : StakeFlags.StakeFlags)
| FullyActive (meta : Meta) (stake : Stake).

Definition MergeKind_meta (self : MergeKind) : Meta :=
  match self with
  | Inactive meta _ _ => meta
  | ActivationEpoch meta _ _ => meta
  | FullyActive meta _ => meta
  end.

Definition active_stake (self : MergeKind) : option Stake :=
  match self with
  | Inactive _ _ _ => None
  | ActivationEpoch _ stake _ => Some stake
  | FullyActive _ stake => Some stake
  end.

Definition get_if_mergeable (env : Environment) (stake_state : StakeStateV2.StakeStateV2)
    (stake_lamports : Z) (clock : Clock) (stake_history : StakeHistory.StakeHistory) : Res MergeKind :=
  match stake_state with
  | StakeStateV2.Stake meta stake stake_flags =>
      (* stake must not be in a transient state *)
      let! rate_epoch := new_warmup_cooldown_rate_epoch env in
      let status := stake_activating_and_deactivating stake_history rate_epoch (delegation stake)
                      (clock_epoch clock) in
      if effective status =? 0 then
        if (activating status =? 0) && (deactivating status =? 0)
        then Ok (Inactive meta stake_lamports stake_flags)
        else Ok (ActivationEpoch meta stake stake_flags)
      else if (activating status =? 0) && (deactivating status =? 0) then Ok (FullyActive meta stake)
      else Err (StakeError.into StakeError.MergeTransientStake)
  | StakeStateV2.Initialized meta => Ok (Inactive meta stake_lamports StakeFlags.empty)
  | _ => Err InvalidAccountData
  end.

Definition metas_can_merge (stake source : Meta) (clock : Clock) : Res unit :=
  (* lockups may mismatch so long as both have expired *)
  let can_merge_lockups :=
    bool_decide (lockup stake = lockup source)
    || (negb (is_in_force (lockup stake) clock None) && negb (is_in_force (lockup source) clock None)) in
  if bool_decide (authorized stake = authorized source) && can_merge_lockups then Ok tt
  else Err (StakeError.into StakeError.MergeMismatch).

Definition active_delegations_can_merge (stake source : Delegation) : Res unit :=
  if bool_decide (voter_pubkey stake <> voter_pubkey source)
  then Err (StakeError.into StakeError.MergeMismatch)
  else if (deactivation_epoch stake =? int_max U64) && (deactivation_epoch source =? int_max U64)
  then Ok tt
  else Err (StakeError.into StakeError.MergeMismatch).

Definition stake_weighted_credits_observed (stake : Stake) (absorbed_lamports absorbed_credits_observed : Z)
  : option Z :=
  if credits_observed stake =? absorbed_credits_observed then Some (credits_observed stake)
  else
    total_stake ← checked_add U64 (delegation_stake (delegation stake)) absorbed_lamports;
    stake_weighted_credits ← checked_mul U128 (credits_observed stake) (delegation_stake (delegation stake));
    absorbed_weighted_credits ← checked_mul U128 absorbed_credits_observed absorbed_lamports;
    (* Discard fractional credits as a merge side-effect friction by taking the
       ceiling, done by adding [denominator - 1] to the numerator. *)
    x ← checked_add U128 stake_weighted_credits absorbed_weighted_credits;
    x ← checked_add U128 x total_stake;
    total_weighted_credits ← checked_sub U128 x 1;
    if total_stake =? 0 then None else checked U64 (total_weighted_credits / total_stake).

Definition merge_delegation_stake_and_credits_observed (stake : Stake)
    (absorbed_lamports absorbed_credits_observed : Z) : Res Stake :=
  let! credits := ok_or ArithmeticOverflow
    (stake_weighted_credits_observed stake absorbed_lamports absorbed_credits_observed) in
  let! total := instruction_checked_add (delegation_stake (delegation stake)) absorbed_lamports in
  Ok (mkStake (with_delegation_stake total (delegation stake)) credits).

Definition MergeKind_merge (self source : MergeKind) (clock : Clock)
  : Res (option StakeStateV2.StakeStateV2) :=
  let! _u := metas_can_merge (MergeKind_meta self) (MergeKind_meta source) clock in
  let! _u := match active_stake self, active_stake source with
             | Some stake, Some source =>
                 active_delegations_can_merge (delegation stake) (delegation source)
             | _, _ => Ok tt
             end in
  match self, source with
  | Inactive _ _ _, Inactive _ _ _ => Ok None
  | Inactive _ _ _, ActivationEpoch _ _ _ => Ok None
  | ActivationEpoch meta stake stake_flags, Inactive _ source_lamports source_stake_flags =>
      let! total := instruction_checked_add (delegation_stake (delegation stake)) source_lamports in
      Ok (Some (StakeStateV2.Stake meta
                  (with_delegation (with_delegation_stake total (delegation stake)) stake)
                  (StakeFlags.union stake_flags source_stake_flags)))
  | ActivationEpoch meta stake stake_flags, ActivationEpoch source_meta source_stake source_stake_flags =>
      let! source_lamports := instruction_checked_add (rent_exempt_reserve source_meta)
                                (delegation_stake (delegation source_stake)) in
      let! stake := merge_delegation_stake_and_credits_observed stake source_lamports
                      (credits_observed source_stake) in
      Ok (Some (StakeStateV2.Stake meta stake (StakeFlags.union stake_flags source_stake_flags)))
  | FullyActive meta stake, FullyActive _ source_stake =>
      (* Don't stake the source account's [rent_exempt_reserve] *)
      let! stake := merge_delegation_stake_and_credits_observed stake
                      (delegation_stake (delegation source_stake)) (credits_observed source_stake) in
      Ok (Some (StakeStateV2.Stake meta stake StakeFlags.empty))
  | _, _ => Err (StakeError.into StakeError.MergeMismatch)
  end.

Definition merge (env : Environment) (ic : InstructionContext)
    (stake_account_index source_account_index : IndexOfAccount) (clock : Clock)
    (stake_history : StakeHistory.StakeHistory) (signers : gset Pubkey) : TxM unit :=
  borrowing (try_borrow_instruction_account ic source_account_index) (fun source_account =>
    let? source := query (borrowed source_account) in
    (* Ensure source isn't spoofed *)
    if bool_decide (acc_owner source <> stake_program_id) then fail IncorrectProgramId else
    (* Close the stake_account-reference loophole *)
    let? stake_index := lift (get_index_of_instruction_account_in_transaction ic stake_account_index) in
    let? source_index := lift (get_index_of_instruction_account_in_transaction ic source_account_index) in
    if stake_index =? source_index then fail InvalidArgument else
    borrowing (try_borrow_instruction_account ic stake_account_index) (fun stake_account =>
      let? state := get_state stake_account in
      let? acc := query (borrowed stake_account) in
      let? stake_merge_kind := lift (get_if_mergeable env state (acc_lamports acc) clock stake_history) in
      (* Authorized staker is allowed to split/merge accounts *)
      lift (Authorized_check (authorized (MergeKind_meta stake_merge_kind)) signers StakeAuthorize.Staker) ;?
      let? source_state := get_state source_account in
      let? source_merge_kind :=
        lift (get_if_mergeable env source_state (acc_lamports source) clock stake_history) in
      let? merged := lift (MergeKind_merge stake_merge_kind source_merge_kind clock) in
      match merged with
      | Some merged_state => set_state stake_account merged_state
      | None => ret tt
      end ;?
      (* Source is about to be drained, deinitialize its state *)
      set_state source_account StakeStateV2.Uninitialized ;?
      (* Drain the source stake account *)
      let? source := query (borrowed source_account) in
      let lamports := acc_lamports source in
      checked_sub_lamports source_account lamports ;?
      checked_add_lamports stake_account lamports)).

(** ** Moving an active delegation to another validator *)

(** The checks on the stake that is moved: its meta and its effective stake. *)
Definition redelegated_stake (env : Environment) (stake_account : BorrowedAccount) (clock : Clock)
    (vote_pubkey : Pubkey) : TxM (Meta * Z) :=
  let? state := get_state stake_account in
  match state with
  | StakeStateV2.Stake meta stake _ =>
      let? status := lift (get_stake_status env stake clock) in
      if (effective status =? 0) || negb (activating status =? 0) || negb (deactivating status =? 0)
      then fail (StakeError.into StakeError.RedelegateTransientOrInactiveStake) else
      (* Deny redelegating to the same vote account. *)
      if bool_decide (voter_pubkey (delegation stake) = vote_pubkey)
      then fail (StakeError.into StakeError.RedelegateToSameVoteAccount) else
      ret (meta, effective status)
  | _ => fail InvalidAccountData
  end.

Definition redelegate (env : Environment) (ic : InstructionContext) (stake_account : BorrowedAccount)
    (uninitialized_stake_account_index vote_account_index : IndexOfAccount) (signers : gset Pubkey)
  : TxM unit :=
  let? clock := lift (get_clock (env_sysvar_cache env)) in
  borrowing (try_borrow_instruction_account ic uninitialized_stake_account_index) (fun uninitialized =>
    let? acc := query (borrowed uninitialized) in
    if bool_decide (acc_owner acc <> stake_program_id) then fail IncorrectProgramId else
    if negb (vec_len (acc_data acc) =? StakeStateV2.size_of) then fail InvalidAccountData else
    let? state := get_state uninitialized in
    match state with
    | StakeStateV2.Uninitialized => ret tt
    | _ => fail AccountAlreadyInitialized
    end ;?
    (* validate the provided vote account *)
    borrowing (try_borrow_instruction_account ic vote_account_index) (fun vote_account =>
      let? vote_acc := query (borrowed vote_account) in
      if bool_decide (acc_owner vote_acc <> vote_program_id) then fail IncorrectProgramId else
      let? vote_pubkey := query (get_key vote_account) in
      let? vote_state := get_state (T:=VoteStateVersions) vote_account in
      let? moved := redelegated_stake env stake_account clock vote_pubkey in
      let (stake_meta, effective_stake) := moved : Meta * Z in
      (* deactivate the stake account; this also ensures that the staker signed *)
      deactivate env stake_account clock signers ;?
      (* transfer the effective stake to the uninitialized stake account *)
      checked_sub_lamports stake_account effective_stake ;?
      checked_add_lamports uninitialized effective_stake ;?
      (* initialize and schedule it for activation *)
      let? rent := lift (get_rent (env_sysvar_cache env)) in
      let? acc := query (borrowed uninitialized) in
      let uninitialized_stake_meta :=
        with_reserve (minimum_balance rent (vec_len (acc_data acc))) stake_meta in
      let? stake_amount := lift (validate_delegated_amount acc uninitialized_stake_meta (env_feature_set env)) in
      set_state uninitialized
        (StakeStateV2.Stake uninitialized_stake_meta
           (new_stake stake_amount vote_pubkey (convert_to_current vote_state) (clock_epoch clock))
           StakeFlags.MUST_FULLY_ACTIVATE_BEFORE_DEACTIVATION_IS_PERMITTED))).

(** ** Withdrawing *)

(** (lockup, reserve, is_staked): what may not be taken. *)
Definition withdraw_reserve (stake_account : BorrowedAccount) (signers : gset Pubkey) (clock : Clock)
    (stake_history : StakeHistory.StakeHistory) (new_rate_activation_epoch : option Epoch)
  : TxM (Lockup * Z * bool) :=
  let? state := get_state stake_account in
  match state with
  | StakeStateV2.Stake meta stake _ =>
      lift (Authorized_check (authorized meta) signers StakeAuthorize.Withdrawer) ;?
      (* if we have a deactivation epoch and we're in cooldown; otherwise assume
         full stake *)
      let staked := if deactivation_epoch (delegation stake) <=? clock_epoch clock
                    then effective_stake stake_history new_rate_activation_epoch (delegation stake)
                           (clock_epoch clock)
                    else delegation_stake (delegation stake) in
      let? staked_and_reserve := lift (instruction_checked_add staked (rent_exempt_reserve meta)) in
      ret (lockup meta, staked_and_reserve, negb (staked =? 0))
  | StakeStateV2.Initialized meta =>
      lift (Authorized_check (authorized meta) signers StakeAuthorize.Withdrawer) ;?
      (* stake accounts must have a balance >= rent_exempt_reserve *)
      ret (lockup meta, rent_exempt_reserve meta, false)
  | StakeStateV2.Uninitialized =>
      let? key := query (get_key stake_account) in
      if bool_decide (key ∉ signers) then fail MissingRequiredSignature
      else ret (Lockup_default, 0, false)
  | StakeStateV2.RewardsPool => fail InvalidAccountData
  end.

(** The key of the custodian account, if one was passed and signed. *)
Definition custodian_key (ic : InstructionContext) (custodian_index : option IndexOfAccount)
  : TxM (option Pubkey) :=
  match custodian_index with
  | Some custodian_index =>
      let? signed := lift (is_instruction_account_signer ic custodian_index) in
      if signed : bool then
        let? key := query (key_of_instruction_account ic custodian_index) in ret (Some key)
      else ret None
  | None => ret None
  end.

Definition withdraw (ic : InstructionContext) (stake_account_index : IndexOfAccount) (lamports : Z)
    (to_index : IndexOfAccount) (clock : Clock) (stake_history : StakeHistory.StakeHistory)
    (withdraw_authority_index : IndexOfAccount) (custodian_index : option IndexOfAccount)
    (new_rate_activation_epoch : option Epoch) : TxM unit :=
  let? withdraw_authority_pubkey := query (key_of_instruction_account ic withdraw_authority_index) in
  let? signed := lift (is_instruction_account_signer ic withdraw_authority_index) in
  if negb signed then fail MissingRequiredSignature else
  let signers : gset Pubkey := {[withdraw_authority_pubkey]} in
  borrowing (try_borrow_instruction_account ic stake_account_index) (fun stake_account =>
    let? reserved := withdraw_reserve stake_account signers clock stake_history new_rate_activation_epoch in
    let '(lockup, reserve, is_staked) := reserved : Lockup * Z * bool in
    (* verify that lockup has expired or that the withdrawal is signed by the
       custodian *)
    let? custodian_pubkey := custodian_key ic custodian_index in
    if is_in_force lockup clock custodian_pubkey
    then fail (StakeError.into StakeError.LockupInForce) else
    let? lamports_and_reserve := lift (instruction_checked_add lamports reserve) in
    let? acc := query (borrowed stake_account) in
    (* if the stake is active, we mustn't allow the account to go away *)
    if is_staked && (acc_lamports acc <? lamports_and_reserve) then fail InsufficientFunds else
    (if negb (lamports =? acc_lamports acc) (* not a full withdrawal *)
        && (acc_lamports acc <? lamports_and_reserve)
     then if is_staked : bool then panic else fail InsufficientFunds
     else ret tt) ;?
    (* Deinitialize state upon zero balance *)
    (if lamports =? acc_lamports acc then set_state stake_account StakeStateV2.Uninitialized
     else ret tt) ;?
    checked_sub_lamports stake_account lamports) ;?
  borrowing (try_borrow_instruction_account ic to_index) (fun to => checked_add_lamports to lamports).

(** ** Delinquent validators *)

(** The state of a vote account that is borrowed. *)
Definition vote_state_of (vote_account : BorrowedAccount) : TxM VoteState :=
  let? acc := query (borrowed vote_account) in
  if bool_decide (acc_owner acc <> vote_program_id) then fail IncorrectProgramId else
  let? versions := get_state (T:=VoteStateVersions) vote_account in
  ret (convert_to_current versions).

Definition deactivate_delinquent (env : Environment) (ic : InstructionContext)
    (stake_account : BorrowedAccount)
    (delinquent_vote_account_index reference_vote_account_index : IndexOfAccount)
    (current_epoch : Epoch) : TxM unit :=
  let? delinquent_vote_account_pubkey :=
    query (key_of_instruction_account ic delinquent_vote_account_index) in
  borrowing (try_borrow_instruction_account ic delinquent_vote_account_index) (fun delinquent =>
    let? delinquent_vote_state := vote_state_of delinquent in
    borrowing (try_borrow_instruction_account ic reference_vote_account_index) (fun reference =>
      let? reference_vote_state := vote_state_of reference in
      if negb (acceptable_reference_epoch_credits (epoch_credits reference_vote_state) current_epoch)
      then fail (StakeError.into StakeError.InsufficientReferenceVotes) else
      let? state := get_state stake_account in
      match state with
      | StakeStateV2.Stake meta stake stake_flags =>
          if bool_decide (voter_pubkey (delegation stake) <> delinquent_vote_account_pubkey)
          then fail (StakeError.into StakeError.VoteAddressMismatch) else
          (* Deactivate the stake account if its delegated vote account has never
             voted or has not voted in the last epochs *)
          if eligible_for_deactivate_delinquent (epoch_credits delinquent_vote_state) current_epoch then
            let? result := lift (deactivate_stake env stake stake_flags current_epoch) in
            set_state stake_account (StakeStateV2.Stake meta (fst result) (snd result))
          else fail (StakeError.into StakeError.MinimumDelinquentEpochsForDeactivationNotMet)
      | _ => fail InvalidAccountData
      end)).

(** ** The entrypoint (stake_instruction.rs) *)

Definition get_optional_pubkey (ic : InstructionContext) (instruction_account_index : IndexOfAccount)
    (should_be_signer : bool) (tc : TransactionContext) : Res (option Pubkey) :=
  if instruction_account_index <? get_number_of_instruction_accounts ic then
    let! missing := if should_be_signer
                    then let! signed := is_instruction_account_signer ic instruction_account_index in
                         Ok (negb signed)
                    else Ok false in
    if missing : bool then Err MissingRequiredSignature else
    let! key := key_of_instruction_account ic instruction_account_index tc in
    Ok (Some key)
  else Ok None.

Definition DEFAULT_COMPUTE_UNITS : Z := 750.

(** [get_stake_account()?] and the scope of [me]. *)
Definition with_stake_account {A} (ic : InstructionContext) (scope : BorrowedAccount -> TxM A) : TxM A :=
  borrowing (try_borrow_instruction_account ic 0) (fun me =>
    let? acc := query (borrowed me) in
    if bool_decide (acc_owner acc <> stake_program_id) then fail InvalidAccountOwner else scope me).

(** [config::from]: the config data behind the keys decodes. *)
Definition config_from (account : AccountSharedData) : Res (option StakeConfig) :=
  match ConfigProcessor.get_config_data (acc_data account) with
  | Ok data => Ok (bincode_deserialize data)
  | Err _ => Ok None
  | Panic => Panic
  end.

(** The check of the stake config account before its feature made it obsolete. *)
Definition check_stake_config (env : Environment) (ic : InstructionContext) (i : IndexOfAccount)
  : TxM unit :=
  if is_active (env_feature_set env) reduce_stake_warmup_cooldown then ret tt
  else
    borrowing (try_borrow_instruction_account ic i) (fun config_account =>
      let? key := query (get_key config_account) in
      if bool_decide (key <> stake_config_id) then fail InvalidArgument else
      let? acc := query (borrowed config_account) in
      let? config := lift (config_from acc) in
      lift (ok_or InvalidArgument config) ;? ret tt).

(** A key among the accounts that has to have signed. *)
Definition signing_key (ic : InstructionContext) (i : IndexOfAccount) : TxM Pubkey :=
  let? key := query (key_of_instruction_account ic i) in
  let? signed := lift (is_instruction_account_signer ic i) in
  if negb signed then fail MissingRequiredSignature else ret key.

(** The arms of the [match]. *)
Definition dispatch (env : Environment) (ic : InstructionContext) (signers : gset Pubkey)
    (instruction : StakeInstruction.StakeInstruction) : TxM unit :=
  let cache := env_sysvar_cache env in
  let feature_set := env_feature_set env in
  match instruction with
  | StakeInstruction.Initialize authorized lockup =>
      with_stake_account ic (fun me =>
        let? rent := query (get_sysvar_with_account_check.rent cache ic 1) in
        initialize me authorized lockup rent)
  | StakeInstruction.Authorize authorized_pubkey stake_authorize =>
      with_stake_account ic (fun me =>
        let? clock := query (get_sysvar_with_account_check.clock cache ic 1) in
        lift (check_number_of_instruction_accounts ic 3) ;?
        let? custodian_pubkey := query (get_optional_pubkey ic 3 false) in
        authorize me signers authorized_pubkey stake_authorize clock custodian_pubkey)
  | StakeInstruction.AuthorizeWithSeed args =>
      with_stake_account ic (fun me =>
        lift (check_number_of_instruction_accounts ic 2) ;?
        let? clock := query (get_sysvar_with_account_check.clock cache ic 2) in
        let? custodian_pubkey := query (get_optional_pubkey ic 3 false) in
        authorize_with_seed ic me 1 (authority_seed args) (authority_owner args)
          (new_authorized_pubkey args) (args_stake_authorize args) clock custodian_pubkey)
  | StakeInstruction.DelegateStake =>
      let? sysvars := with_stake_account ic (fun _me =>
        lift (check_number_of_instruction_accounts ic 2) ;?
        let? clock := query (get_sysvar_with_account_check.clock cache ic 2) in
        let? stake_history := query (get_sysvar_with_account_check.stake_history cache ic 3) in
        lift (check_number_of_instruction_accounts ic 5) ;?
        ret (clock, stake_history)) in
      check_stake_config env ic 4 ;?
      delegate env ic 0 1 (fst sysvars) (snd sysvars) signers feature_set
  | StakeInstruction.Split lamports =>
      with_stake_account ic (fun _me => lift (check_number_of_instruction_accounts ic 2)) ;?
      split env ic 0 lamports 1 signers
  | StakeInstruction.Merge =>
      let? sysvars := with_stake_account ic (fun _me =>
        lift (check_number_of_instruction_accounts ic 2) ;?
        let? clock := query (get_sysvar_with_account_check.clock cache ic 2) in
        let? stake_history := query (get_sysvar_with_account_check.stake_history cache ic 3) in
        ret (clock, stake_history)) in
      merge env ic 0 1 (fst sysvars) (snd sysvars) signers
  | StakeInstruction.Withdraw lamports =>
      let? sysvars := with_stake_account ic (fun _me =>
        lift (check_number_of_instruction_accounts ic 2) ;?
        let? clock := query (get_sysvar_with_account_check.clock cache ic 2) in
        let? stake_history := query (get_sysvar_with_account_check.stake_history cache ic 3) in
        lift (check_number_of_instruction_accounts ic 5) ;?
        ret (clock, stake_history)) in
      let? rate_epoch := lift (new_warmup_cooldown_rate_epoch env) in
      withdraw ic 0 lamports 1 (fst sysvars) (snd sysvars) 4
        (if 6 <=? get_number_of_instruction_accounts ic then Some 5 else None) rate_epoch
  | StakeInstruction.Deactivate =>
      with_stake_account ic (fun me =>
        let? clock := query (get_sysvar_with_account_check.clock cache ic 1) in
        deactivate env me clock signers)
  | StakeInstruction.SetLockup args =>
      with_stake_account ic (fun me =>
        let? clock := lift (get_clock cache) in
        set_lockup me args signers clock)
  | StakeInstruction.InitializeChecked =>
      with_stake_account ic (fun me =>
        lift (check_number_of_instruction_accounts ic 4) ;?
        let? staker_pubkey := query (key_of_instruction_account ic 2) in
        let? withdrawer_pubkey := signing_key ic 3 in
        let? rent := query (get_sysvar_with_account_check.rent cache ic 1) in
        initialize me (mkAuthorized staker_pubkey withdrawer_pubkey) Lockup_default rent)
  | StakeInstruction.AuthorizeChecked stake_authorize =>
      with_stake_account ic (fun me =>
        let? clock := query (get_sysvar_with_account_check.clock cache ic 1) in
        lift (check_number_of_instruction_accounts ic 4) ;?
        let? authorized_pubkey := signing_key ic 3 in
        let? custodian_pubkey := query (get_optional_pubkey ic 4 false) in
        authorize me signers authorized_pubkey stake_authorize clock custodian_pubkey)
  | StakeInstruction.AuthorizeCheckedWithSeed args =>
      with_stake_account ic (fun me =>
        lift (check_number_of_instruction_accounts ic 2) ;?
        let? clock := query (get_sysvar_with_account_check.clock cache ic 2) in
        lift (check_number_of_instruction_accounts ic 4) ;?
        let? authorized_pubkey := signing_key ic 3 in
        let? custodian_pubkey := query (get_optional_pubkey ic 4 false) in
        authorize_with_seed ic me 1 (checked_authority_seed args) (checked_authority_owner args)
          authorized_pubkey (checked_stake_authorize args) clock custodian_pubkey)
  | StakeInstruction.SetLockupChecked lockup_checked =>
      with_stake_account ic (fun me =>
        let? custodian_pubkey := query (get_optional_pubkey ic 2 true) in
        let args := mkLockupArgs (checked_unix_timestamp lockup_checked) (checked_epoch lockup_checked)
                      custodian_pubkey in
        let? clock := lift (get_clock cache) in
        set_lockup me args signers clock)
  | StakeInstruction.GetMinimumDelegation =>
      set_return_data stake_program_id (le_bytes 8 (get_minimum_delegation feature_set))
  | StakeInstruction.DeactivateDelinquent =>
      with_stake_account ic (fun me =>
        lift (check_number_of_instruction_accounts ic 3) ;?
        let? clock := lift (get_clock cache) in
        deactivate_delinquent env ic me 1 2 (clock_epoch clock))
  | StakeInstruction.Redelegate =>
      with_stake_account ic (fun me =>
        if is_active feature_set stake_redelegate_instruction then
          lift (check_number_of_instruction_accounts ic 3) ;?
          check_stake_config env ic 3 ;?
          redelegate env ic me 1 2 signers
        else fail InvalidInstructionData)
  end.

Definition Entrypoint (env : Environment) : TxM unit :=
  let? ic := query get_current_instruction_context in
  let? signers := query (get_signers ic) in
  let? instruction := lift (limited_deserialize (instruction_data ic)) in
  dispatch env ic signers instruction.

(** The stake program as the runtime registers it. *)
Definition stake_builtin : Builtin := fun _ =>
  declare_process_instruction DEFAULT_COMPUTE_UNITS
    (let? env := gets environment in on_tc (Entrypoint env)).

End stake_program.
End StakeProcessor.
