(* ===== verification/StakeContract.v ===== *)
(** * The stake program as a program of the runtime

    The stake program keeps the runtime's rules in every run, whatever it
    returns, so that it is an implementation of the interface [ProgramOk]. *)

From S2P Require Import Prelude Errors Rent Account BTreeMap Pubkey Sysvars EpochSchedule Nonce TransactionContext RuntimeRules CallStack SysvarCache FeatureSet SystemProgram Effects SystemRules InvokeContext InvokeRules ProcessRules SystemContract Message VoteState Votes VoteProgram VoteAuthority StakeState ConfigProgram StakeProgram.
Import StakeProcessor.

Lemma capture_keeps R {HR : PreOrder R} {A} (m : TxM A) : keeps R m -> keeps R (capture m).
Proof. intros Hm tc. specialize (Hm tc). unfold final, capture in *. by destruct (m tc) as [[] ?]. Qed.
#[export] Hint Resolve capture_keeps : keeps.

Section obeys.
Context {hashing : Hashing} {ids : ProgramIds} {mids : MessageIds} {fids : FeatureIds}.
Context {codec : Bincode StakeStateV2.StakeStateV2} {vote_codec : Bincode VoteStateVersions}
  {keys_codec : Bincode ConfigKeys} {config_codec : Bincode StakeConfig}.
Context (ic : InstructionContext) (Hsmall : ic_small ic).

Lemma peek_account_obeys i : keeps (obeys ic) (peek_account ic i).
Proof. unfold peek_account. keeps. Qed.
Lemma custodian_key_obeys i : keeps (obeys ic) (custodian_key ic i).
Proof. unfold custodian_key. keeps. Qed.
Lemma signing_key_obeys i : keeps (obeys ic) (signing_key ic i).
Proof. unfold signing_key. keeps. Qed.
Lemma check_stake_config_obeys env i : keeps (obeys ic) (check_stake_config env ic i).
Proof. unfold check_stake_config. keeps. Qed.
#[local] Hint Resolve peek_account_obeys custodian_key_obeys signing_key_obeys check_stake_config_obeys : keeps.

Lemma with_stake_account_obeys {A} (scope : BorrowedAccount -> TxM A) :
  (forall ba, handle ic ba -> keeps (obeys ic) (scope ba)) -> keeps (obeys ic) (with_stake_account ic scope).
Proof. intros Hs. unfold with_stake_account. keeps. Qed.

Section account.
Context (ba : BorrowedAccount) (Hh : handle ic ba).

Lemma stake_initialize_obeys a l r : keeps (obeys ic) (initialize ba a l r).
Proof. unfold initialize. keeps. Qed.
Lemma stake_authorize_obeys signers k sa clock c : keeps (obeys ic) (authorize ba signers k sa clock c).
Proof. unfold authorize. keeps. Qed.
#[local] Hint Resolve stake_authorize_obeys : keeps.
Lemma stake_authorize_with_seed_obeys i seed owner k sa clock c :
  keeps (obeys ic) (authorize_with_seed ic ba i seed owner k sa clock c).
Proof. unfold authorize_with_seed. keeps. Qed.
Lemma deactivate_obeys env clock signers : keeps (obeys ic) (deactivate env ba clock signers).
Proof. unfold deactivate. keeps. Qed.
Lemma set_lockup_obeys args signers clock : keeps (obeys ic) (set_lockup ba args signers clock).
Proof. unfold set_lockup. keeps. Qed.
Lemma vote_state_of_obeys : keeps (obeys ic) (vote_state_of ba).
Proof. unfold vote_state_of. keeps. Qed.
Lemma withdraw_reserve_obeys signers clock h r : keeps (obeys ic) (withdraw_reserve ba signers clock h r).
Proof. unfold withdraw_reserve. keeps. Qed.
Lemma redelegated_stake_obeys env clock k : keeps (obeys ic) (redelegated_stake env ba clock k).
Proof. unfold redelegated_stake. keeps. Qed.

End account.

#[local] Hint Resolve stake_initialize_obeys stake_authorize_obeys stake_authorize_with_seed_obeys deactivate_obeys
  set_lockup_obeys vote_state_of_obeys withdraw_reserve_obeys redelegated_stake_obeys : keeps.

Lemma deactivate_delinquent_obeys env ba i j e :
  handle ic ba -> keeps (obeys ic) (deactivate_delinquent env ic ba i j e).
Proof. intros Hh. unfold deactivate_delinquent. keeps. Qed.
Lemma redelegate_obeys env ba i j signers : handle ic ba -> keeps (obeys ic) (redelegate env ic ba i j signers).
Proof. intros Hh. unfold redelegate. keeps. Qed.
Lemma delegate_obeys env i j clock h signers fs : keeps (obeys ic) (delegate env ic i j clock h signers fs).
Proof. unfold delegate. keeps. Qed.
Lemma validate_split_amount_obeys env i j l m x b : keeps (obeys ic) (validate_split_amount env ic i j l m x b).
Proof. unfold validate_split_amount. keeps. Qed.
#[local] Hint Resolve validate_split_amount_obeys : keeps.
Lemma split_stake_obeys env i j l b signers m s f : keeps (obeys ic) (split_stake env ic i j l b signers m s f).
Proof. unfold split_stake. keeps. Qed.
#[local] Hint Resolve split_stake_obeys : keeps.
Lemma split_obeys env i l j signers : keeps (obeys ic) (split env ic i l j signers).
Proof.
  unfold split. apply keeps_bind; [apply _|keeps|intros b]. apply keeps_bind; [apply _|keeps|intros s].
  apply keeps_bind; [apply _|destruct s; keeps|intros _]. keeps.
Qed.
Lemma merge_obeys env i j clock h signers : keeps (obeys ic) (merge env ic i j clock h signers).
Proof. unfold merge. keeps. Qed.
Lemma stake_withdraw_obeys i l j clock h w c r : keeps (obeys ic) (withdraw ic i l j clock h w c r).
Proof. unfold withdraw. keeps. Qed.

#[local] Hint Resolve deactivate_delinquent_obeys redelegate_obeys delegate_obeys split_obeys merge_obeys
  stake_withdraw_obeys : keeps.
#[local] Hint Extern 2 (keeps (obeys _) (with_stake_account _ _)) =>
  apply with_stake_account_obeys; intros ??; cbv beta : keeps.

Lemma stake_dispatch_obeys env signers instruction :
  instruction <> StakeInstruction.GetMinimumDelegation -> keeps (obeys ic) (dispatch env ic signers instruction).
Proof. intros Hne. destruct instruction; try done; unfold dispatch; keeps. Qed.

Context {instruction_codec : BincodeLimited StakeInstruction.StakeInstruction}.

(** A run obeys the rules, or only returns data. *)
Lemma stake_entrypoint_obeys env tc o tc' :
  get_current_instruction_context tc = Ok ic -> Entrypoint env tc = (o, tc') ->
  obeys ic tc tc' \/ exists r, tc' = with_return_data r tc.
Proof.
  intros Hic Hr. unfold Entrypoint, bind, query, lift in Hr. rewrite Hic in Hr.
  destruct (get_signers ic tc) as [signers|e|]; [|left; by injection Hr as _ <-..].
  destruct (limited_deserialize (instruction_data ic)) as [instruction|e|]; [|left; by injection Hr as _ <-..].
  assert (instruction = StakeInstruction.GetMinimumDelegation \/ instruction <> StakeInstruction.GetMinimumDelegation)
    as [->|Hne] by (destruct instruction; [by right..|by left|by right|by right]).
  - right. injection Hr as _ <-. by eexists.
  - left. eapply (keeps_ok (obeys ic)); [by apply stake_dispatch_obeys|exact Hr].
Qed.

End obeys.

Section contract.
Context {hashing : Hashing} {ids : ProgramIds} {mids : MessageIds} {fids : FeatureIds}.
Context {codec : Bincode StakeStateV2.StakeStateV2} {vote_codec : Bincode VoteStateVersions}
  {keys_codec : Bincode ConfigKeys} {config_codec : Bincode StakeConfig}.
Context {instruction_codec : BincodeLimited StakeInstruction.StakeInstruction}.

#[global] Instance stake_builtin_ok : ProgramOk stake_builtin.
Proof.
  split; [|done]. intros invoke _. apply declare_contained.
  apply contained_bind; [by apply contained_other|intros env].
  intros ic s o s' [Hok Hk Hs Hic] H _. apply zoom_inv in H as (tc' & H & ->). simpl.
  apply (stake_entrypoint_obeys ic Hs) in H as [H|[r ->]]; [|by apply contained_in_return_data|done].
  by apply contained_in_obeys.
Qed.

End contract.
