(* ===== verification/ConfigRules.v ===== *)
(** * What the config program checks

    The config program keeps the runtime's rules ([ProgramOk]); an update needs
    the signatures of the stored signers, of which the code lets one be replaced
    by the config account itself. *)

From S2P Require Import Prelude Errors Rent Account Pubkey Sysvars EpochSchedule Nonce TransactionContext RuntimeRules CallStack SysvarCache FeatureSet SystemProgram Effects SystemRules InvokeContext InvokeRules ProcessRules SystemContract Message ConfigProgram.
Import ConfigProcessor.

(** ** The runtime's rules *)

Lemma try_borrow_signer_only ic i : keeps borrows_only (try_borrow_signer ic i).
Proof.
  intros tc. pose proof (try_borrow_instruction_account_only ic i tc) as H. unfold final, try_borrow_signer in *.
  by destruct (try_borrow_instruction_account ic i tc).
Qed.

Lemma try_borrow_signer_ok ic i tc ba tc' :
  try_borrow_signer ic i tc = (Ok ba, tc') -> try_borrow_instruction_account ic i tc = (Ok ba, tc').
Proof.
  unfold try_borrow_signer. destruct (try_borrow_instruction_account ic i tc) as [[b|e|] t]; simpl; try done.
Qed.

Section obeys.
Context {mids : MessageIds} {keys_codec : Bincode ConfigKeys} {instruction_codec : BincodeLimited ConfigKeys}.
Context (ic : InstructionContext) (Hsmall : ic_small ic).

Lemma borrowing_signer_obeys {A} i (scope : BorrowedAccount -> TxM A) :
  (forall account, handle ic account -> keeps (obeys ic) (scope account)) ->
  keeps (obeys ic) (borrowing (try_borrow_signer ic i) scope).
Proof.
  intros Hs tc. unfold final, borrowing, bind.
  destruct (try_borrow_signer_only ic i tc) as (Hf & Hv & _). unfold final in *.
  destruct (try_borrow_signer ic i tc) as [[account|e|] tc1] eqn:E; simpl in *; [|by apply same_values_obeys..].
  etransitivity; [by apply same_values_obeys|]. apply (keeps_finally (obeys ic)).
  - apply Hs. apply try_borrow_signer_ok in E. by eapply instruction_handle.
  - intros t. destruct (drop_account_values account t) as [Hf' Hv']. by apply same_values_obeys.
Qed.
#[local] Hint Extern 2 (keeps (obeys _) (borrowing (try_borrow_signer _ _) _)) =>
  apply borrowing_signer_obeys; intros ?? : keeps.

Lemma check_new_signers_obeys k b cur signers n : keeps (obeys ic) (check_new_signers ic k b cur signers n).
Proof. revert n. induction signers as [|s signers IH]; intros n; cbn [check_new_signers]; keeps. Qed.

(** Writing the front of the data. *)
Definition write_front (ba : BorrowedAccount) (data : Bytes) : TxM unit :=
  let? acc := query (borrowed ba) in
  if vec_len (acc_data acc) <? vec_len data then fail InvalidInstructionData else
  let? old := get_data_mut ba in
  update_borrowed ba (account_set_data (data ++ drop (length data) old)).

Lemma write_front_obeys ba data : handle ic ba -> keeps (obeys ic) (write_front ba data).
Proof.
  intros Hh tc. unfold write_front, final, bind at 1, query at 1.
  destruct (borrowed ba tc) as [acc|e|] eqn:Hb; [|reflexivity..]. apply borrowed_account_at in Hb.
  destruct (Z.ltb_spec (vec_len (acc_data acc)) (vec_len data)) as [|Hlen]; [reflexivity|].
  assert (forall f : Bytes -> TxM unit, (let? old := get_data_mut ba in f old) tc =
    match get_data_mut ba tc with (Ok d, t) => f d t | (Err e, t) => (Err e, t) | (Panic, t) => (Panic, t) end) as Hbind
    by (intros f; unfold bind; by destruct (get_data_mut ba tc) as [[] ?]).
  pose proof (rules_obeys _ _ _ (run_method_rules ic (MWriteData data) ba Hh tc)) as Hw.
  unfold final in Hw. cbn [run_method] in Hw. unfold write_data in Hw. rewrite Hbind in Hw |- *.
  destruct (get_data_mut ba tc) as [[d|e|] t] eqn:Hg; [|exact Hw..].
  apply get_data_mut_ok in Hg as (_ & _ & a & Ha & -> & _). rewrite Hb in Ha. injection Ha as <-.
  unfold overwrite in Hw. rewrite take_ge in Hw by (unfold vec_len in Hlen; lia). exact Hw.
Qed.

Lemma config_entrypoint_obeys tc o tc' :
  get_current_instruction_context tc = Ok ic -> Entrypoint tc = (o, tc') -> obeys ic tc tc'.
Proof.
  intros Hic Hr. unfold Entrypoint, bind at 1, query at 1 in Hr. rewrite Hic in Hr.
  eapply (keeps_ok (obeys ic)); [|exact Hr].
  eauto 40 using check_new_signers_obeys, write_front_obeys with keeps.
Qed.

End obeys.

#[global] Instance config_builtin_ok `{!MessageIds, !Bincode ConfigKeys, !BincodeLimited ConfigKeys} :
  ProgramOk config_builtin.
Proof.
  split; [|done]. intros invoke _. apply declare_contained, contained_on_tc.
  intros ic tc o tc' Hs Hic Hr. by eapply config_entrypoint_obeys.
Qed.

(** ** Signatures *)

Section signatures.
Context {mids : MessageIds} {keys_codec : Bincode ConfigKeys} {instruction_codec : BincodeLimited ConfigKeys}.

Lemma signer_scope_inv {A} ic i (scope : BorrowedAccount -> TxM A) tc a tc' :
  borrowing (try_borrow_signer ic i) scope tc = (Ok a, tc') ->
  borrowing (try_borrow_instruction_account ic i) scope tc = (Ok a, tc').
Proof.
  unfold borrowing, bind, try_borrow_signer. by destruct (try_borrow_instruction_account ic i tc) as [[b|e|] t].
Qed.

Context (ic : InstructionContext) (Hsmall : ic_small ic).

Lemma handle_signed i ia tc key :
  vec_get (instruction_accounts ic) i = Some ia -> is_signer (instruction_handle_of ic i ia) = true ->
  get_key_of_account_at_index (index_in_transaction ia) tc = Ok key -> signed ic tc key.
Proof.
  intros Hi Hs Hk. destruct (instruction_handle_flags ic i ia (instruction_handle_of ic i ia) Hsmall Hi eq_refl eq_refl) as [_ He].
  rewrite He in Hs. exists ia. split_and!; try done. apply vec_get_Some in Hi as [_ Hi]. by eapply list_elem_of_lookup_2.
Qed.

(** A list of signers that was accepted. *)
Lemma check_new_signers_ok key0 signed0 cur new n tc c tc' :
  check_new_signers ic key0 signed0 cur new n tc = (Ok c, tc') ->
  same_values tc tc' /\ c = n + vec_len new /\
  forall s, s ∈ new -> (s = key0 /\ signed0 = true) \/
    (signed ic tc s /\ (keys cur <> [] -> s ∈ signer_keys (keys cur))).
Proof.
  revert n tc. induction new as [|s new IH]; intros n tc Hr; cbn [check_new_signers] in Hr.
  - apply ret_ok_inv in Hr as [-> ->]. split_and!; [done|unfold vec_len; simpl; lia|]. by intros s ?%elem_of_nil.
  - apply bind_ok_inv in Hr as (u & t & H1 & Hr). apply IH in Hr as (Hs2 & -> & Hall).
    assert (same_values tc t /\ ((s = key0 /\ signed0 = true) \/
      (signed ic tc s /\ (keys cur <> [] -> s ∈ signer_keys (keys cur))))) as [Hs1 H].
    { case_bool_decide as Hk.
      - apply signer_scope_inv in H1. apply scope_inv in H1 as (ia & t1 & t2 & Hi & Hs1 & H1 & Hs2').
        destruct (is_signer _) eqn:Hsg; [|done]. cbn [negb] in H1. next H1. case_bool_decide as Hkey; [done|].
        destruct (negb _ && negb _) eqn:Hst; [done|]. apply ret_ok_inv in H1 as [_ ->].
        split; [by etransitivity|]. right. unfold get_key in Hq.
        destruct (get_key_of_account_at_index _ t1) as [k| |] eqn:Hkk; simplify_eq.
        split.
        + eapply handle_signed; [done|done|]. unfold get_key_of_account_at_index in *.
          by rewrite (sf_keys _ _ (proj1 Hs1)) in Hkk.
        + intros Hne. apply andb_false_iff in Hst as [Hst|Hst]; apply negb_false_iff, bool_decide_eq_true in Hst; done.
      - destruct signed0; [|done]. apply ret_ok_inv in H1 as [_ ->]. split; [done|]. left.
        split; [|done]. by destruct (decide (s = key0)). }
    split_and!; [by etransitivity|rewrite vec_len_cons; lia|].
    intros s' [->|Hin]%elem_of_cons; [done|]. destruct (Hall _ Hin) as [?|[Hsg ?]]; [by left|right].
    split; [|done]. destruct Hsg as (ia & ? & ? & Hk). exists ia. split_and!; try done.
    unfold get_key_of_account_at_index in *. by rewrite (sf_keys _ _ (proj1 Hs1)) in Hk.
Qed.

(** Keys without duplicates have signers without duplicates. *)
Lemma signer_keys_NoDup ks : NoDup ks -> NoDup (signer_keys ks).
Proof.
  intros Hd. unfold signer_keys. induction Hd as [|[k b] ks Hk Hd IH]; [constructor|].
  rewrite filter_cons. case_decide as Hb; [|done]. simpl in Hb. subst b. cbn [fmap list_fmap fst].
  constructor; [|done]. intros ([k' b] & -> & [Hb Hin]%list_elem_of_filter)%list_elem_of_fmap. simpl in *. by subst b.
Qed.

Lemma dedupe_size (ks : list (Pubkey * bool)) :
  (size (list_to_set ks : gset (Pubkey * bool)) <= length ks)%nat /\
  (size (list_to_set ks : gset (Pubkey * bool)) = length ks -> NoDup ks).
Proof.
  induction ks as [|k ks [IHle IH]]; [by split; [|intros _; constructor]|]. cbn [list_to_set length].
  destruct (decide (k ∈ ks)) as [Hk|Hk].
  - assert ({[k]} ∪ list_to_set ks =@{gset (Pubkey * bool)} list_to_set ks) as -> by set_solver. lia.
  - rewrite size_union by set_solver. rewrite size_singleton. split; [lia|]. intros He. constructor; [done|apply IH; lia].
Qed.

(** Signers of the new list that are stored leave out at most one that is. *)
Lemma stored_signers (stored listed : list Pubkey) (key0 : Pubkey) :
  NoDup stored -> NoDup listed -> (length stored <= length listed)%nat ->
  (forall s, s ∈ listed -> s = key0 \/ s ∈ stored) ->
  (key0 ∉ listed \/ key0 ∈ stored -> forall s, s ∈ stored -> s ∈ listed) /\
  (forall s t, s ∈ stored -> t ∈ stored -> s ∉ listed -> t ∉ listed -> s = t).
Proof.
  intros Hs Hl Hlen Hin. split.
  - intros Hk s Hst. assert (listed ⊆ stored) as Hsub.
    { intros x Hx. destruct (Hin x Hx) as [->|]; [|done]. by destruct Hk. }
    assert (listed ≡ₚ stored) as ->; [|done].
    apply submseteq_length_Permutation; [by apply NoDup_submseteq|done].
  - intros s t Hs1 Ht Hns Hnt. destruct (decide (s = t)) as [|Hne]; [done|]. exfalso.
    assert (s :: t :: listed ⊆+ key0 :: stored) as Hsub%submseteq_length; [|simpl in Hsub; lia].
    apply NoDup_submseteq.
    + constructor; [by rewrite elem_of_cons; intros [|]|]. by constructor.
    + intros x. rewrite !elem_of_cons. intros [->|[->|Hx]]; [by right..|]. by apply Hin in Hx.
Qed.

Lemma signed_same_values tc t s : same_values tc t -> signed ic t s -> signed ic tc s.
Proof.
  intros [Hf _] (x & ? & ? & Hk). exists x. split_and!; try done. unfold get_key_of_account_at_index in *.
  by rewrite (sf_keys _ _ Hf) in Hk.
Qed.

Lemma front_written ia a data t tc tc' :
  vec_get (instruction_accounts ic) 0 = Some ia -> account_at tc (index_in_transaction ia) = Some a ->
  same_values tc t ->
  borrowing (try_borrow_instruction_account ic 0) (fun ba => write_front ba data) t = (Ok tt, tc') ->
  becomes (index_in_transaction ia) a (account_set_data (data ++ drop (length data) (acc_data a)) a) tc tc'.
Proof.
  intros Hi Ha Hs (ia' & t1 & t2 & Hi' & Hs1 & Hr & Hs2)%scope_inv. rewrite Hi in Hi'. injection Hi' as <-.
  unfold write_front in Hr. next Hr. destruct (_ <? _); [done|].
  apply bind_ok_inv in Hr as (d & t3 & Hg & Hr). apply get_data_mut_ok in Hg as (Hl & Hv & b & Hb & -> & _).
  simpl in Hb. rewrite (proj2 Hs1), (proj2 Hs), Ha in Hb. injection Hb as <-.
  assert (account_at t1 (index_in_transaction ia) = Some a) as Ha1 by by rewrite (proj2 Hs1), (proj2 Hs).
  eapply (update_borrowed_changed _ _ a t1) in Hr; [|done|done|by rewrite Hv].
  apply changed_becomes in Hr. eapply becomes_same_values; [by etransitivity|exact Hr|done].
Qed.

(** C34: a config account is updated by its signers.  If an update succeeds, the
    bytes of the instruction replace the front of the account's data and nothing
    else changes; every signer of the new list signed, and unless the account was
    empty is a stored signer or the config account itself; without stored signers
    the config account signed; with stored signers all of them signed, unless the
    new list names the config account: then at most one of them did not. *)
Theorem config_update_signed (tc tc' : TransactionContext) (ia : InstructionAccount) (a : AccountSharedData)
    (key0 : Pubkey) (cur new : ConfigKeys) :
  get_current_instruction_context tc = Ok ic ->
  vec_get (instruction_accounts ic) 0 = Some ia -> account_at tc (index_in_transaction ia) = Some a ->
  get_key_of_account_at_index (index_in_transaction ia) tc = Ok key0 ->
  bincode_deserialize (acc_data a) = Some cur -> limited_deserialize (instruction_data ic) = Ok new ->
  NoDup (signer_keys (keys cur)) ->
  Entrypoint tc = (Ok tt, tc') ->
  let stored := signer_keys (keys cur) in
  let listed := signer_keys (keys new) in
  acc_owner a = config_program_id /\
  becomes (index_in_transaction ia) a
    (account_set_data (instruction_data ic ++ drop (length (instruction_data ic)) (acc_data a)) a) tc tc' /\
  NoDup listed /\ (forall s, s ∈ listed -> signed ic tc s) /\
  (keys cur <> [] -> forall s, s ∈ listed -> s = key0 \/ s ∈ stored) /\
  (stored = [] -> signed ic tc key0) /\
  (key0 ∉ listed \/ key0 ∈ stored -> forall s, s ∈ stored -> signed ic tc s) /\
  (forall s t, s ∈ stored -> t ∈ stored -> ~ signed ic tc s -> ~ signed ic tc t -> s = t).
Proof.
  intros Hic Hi Ha Hk0 Hcur Hnew Hdup Hr. cbv zeta. unfold Entrypoint in Hr. next Hr. rewrite Hic in Hq. injection Hq as <-.
  next Hr. rewrite Hnew in Hq. injection Hq as <-. next Hr.
  unfold key_of_instruction_account, get_index_of_instruction_account_in_transaction in Hq. rewrite Hi in Hq.
  cbn [ok_or outcome_bind] in Hq. rewrite Hk0 in Hq. injection Hq as <-.
  apply bind_ok_inv in Hr as ([signed0 cur'] & t1 & H1 & Hr).
  apply scope_inv in H1 as (ia' & t2 & t3 & Hi' & Hs1 & H1 & Hs2). rewrite Hi in Hi'. injection Hi' as <-.
  next H1. apply borrowed_account_at in Hq. simpl in Hq. rewrite (proj2 Hs1), Ha in Hq. injection Hq as <-.
  destruct (bool_decide (acc_owner a <> config_program_id)) eqn:Ho; [done|]. apply bool_decide_eq_false in Ho.
  next H1. rewrite Hcur in Hq. injection Hq as <-. apply ret_ok_inv in H1 as [[= -> ->] ->].
  destruct (bool_decide (signer_keys (keys cur) = []) && negb _) eqn:Hempty; [done|].
  apply bind_ok_inv in Hr as (c & t4 & H2 & Hr). apply check_new_signers_ok in H2 as (Hs3 & -> & Hall).
  destruct (Z.eqb_spec (Z.of_nat (size (list_to_set (keys new) : gset (Pubkey * bool)))) (vec_len (keys new))) as [Hsz|]; [|done].
  cbn [negb] in Hr. destruct (Z.ltb_spec (0 + vec_len (signer_keys (keys new))) (vec_len (signer_keys (keys cur)))) as [|Hlen]; [done|].
  assert (same_values tc t1) as Hs by by etransitivity.
  assert (NoDup (signer_keys (keys new))) as Hnd.
  { apply signer_keys_NoDup, dedupe_size. unfold vec_len in Hsz. lia. }
  assert (is_signer (instruction_handle_of ic 0 ia) = true -> signed ic tc key0) as Hsig0 by (intros; by eapply handle_signed).
  assert (forall s, s ∈ signer_keys (keys new) -> signed ic tc s) as Hlisted.
  { intros s Hin. destruct (Hall s Hin) as [[-> ?]|[? _]]; [by apply Hsig0|by eapply signed_same_values]. }
  assert (keys cur <> [] -> forall s, s ∈ signer_keys (keys new) -> s = key0 \/ s ∈ signer_keys (keys cur)) as Hst.
  { intros Hne s Hin. destruct (Hall s Hin) as [[-> _]|[_ ?]]; auto. }
  assert (signer_keys (keys cur) = [] \/ keys cur <> []) as Hcase by (destruct (keys cur); [by left|by right]).
  split_and!; try done.
  - by destruct (decide (acc_owner a = config_program_id)).
  - eapply front_written; [done|done| |exact Hr]. by etransitivity.
  - intros He. apply Hsig0. rewrite bool_decide_true in Hempty by done. by destruct (is_signer _).
  - intros Hk s Hin. destruct Hcase as [He|Hne]; [rewrite He in Hin; by apply elem_of_nil in Hin|]. apply Hlisted.
    eapply (stored_signers (signer_keys (keys cur))); [done|done|unfold vec_len in Hlen; lia|by apply Hst|done|done].
  - intros s t Hs' Ht Hns Hnt. destruct Hcase as [He|Hne]; [rewrite He in Hs'; by apply elem_of_nil in Hs'|].
    eapply (stored_signers (signer_keys (keys cur)) (signer_keys (keys new)) key0);
      [done|done|unfold vec_len in Hlen; lia|by apply Hst|done|done|by auto..].
Qed.

End signatures.
