(* ===== verification/StakeMachine.v ===== *)
(** * An abstract machine of stake accounts

    What the stake program promises, without its code: a stake account is a
    balance and a state, and one instruction updates the state of one account,
    or moves lamports between two.  [StakeSteps] shows that the program
    implements the machine; what the machine guarantees, in [StakeCustody],
    then holds of the program. *)

From S2P Require Import Prelude Errors Rent Account BTreeMap Sysvars EpochSchedule TransactionContext RuntimeRules Effects SysvarCache FeatureSet SystemProgram SystemRules Message VoteState StakeState ConfigProgram StakeProgram.

(** ** What the machine knows of the chain *)

Record Chain := mkChain {
  ch_clock : Clock;
  ch_rent : Rent;
  ch_history : StakeHistory.StakeHistory;
  ch_rate_epoch : option Epoch;
  ch_minimum_delegation : Z;
  (* the feature that guards redelegation *)
  ch_guarded : bool;
}.

Section machine.
Context {mids : MessageIds} {codec : Bincode StakeStateV2.StakeStateV2}.
Context (auth : Pubkey -> Prop) (ch : Chain).

Abbreviation epoch := (clock_epoch (ch_clock ch)).
Abbreviation State := StakeStateV2.StakeStateV2.

(** The reserve of a new stake account, and the stake that counts now. *)
Definition new_reserve : Z := minimum_balance (ch_rent ch) StakeStateV2.size_of.
Definition effective_now (d : Delegation) : Z :=
  effective_stake (ch_history ch) (ch_rate_epoch ch) d epoch.

(** A lockup has passed, or its custodian agrees. *)
Definition unlocked (l : Lockup) : Prop :=
  is_in_force l (ch_clock ch) None = false \/ auth (custodian l).

(** ** Steps of one account *)

Inductive meta_step : Meta -> Meta -> Prop :=
| change_staker m key :
    auth (staker (authorized m)) \/ auth (withdrawer (authorized m)) ->
    meta_step m (with_authorized (mkAuthorized key (withdrawer (authorized m))) m)
| change_withdrawer m key :
    auth (withdrawer (authorized m)) -> unlocked (lockup m) ->
    meta_step m (with_authorized (mkAuthorized (staker (authorized m)) key) m)
| change_lockup m l :
    (if is_in_force (lockup m) (ch_clock ch) None then auth (custodian (lockup m))
     else auth (withdrawer (authorized m))) ->
    meta_step m (with_lockup l m).

(** [delinquent voter]: the validator stopped voting while another one voted. *)
Context (delinquent : Pubkey -> Prop).

Inductive stake_step (m : Meta) (lamports : Z) : Stake -> Stake -> Prop :=
| activate_again s voter credits :
    auth (staker (authorized m)) -> effective_now (delegation s) = 0 ->
    ch_minimum_delegation ch <= lamports - rent_exempt_reserve m ->
    stake_step m lamports s
      (mkStake (mkDelegation voter (lamports - rent_exempt_reserve m) epoch (int_max U64)
                  (delegation_rate (delegation s))) credits)
| rescind s :
    auth (staker (authorized m)) -> deactivation_epoch (delegation s) = epoch ->
    (ch_guarded ch = true -> delegation_stake (delegation s) <= lamports - rent_exempt_reserve m) ->
    stake_step m lamports s
      (with_delegation (with_deactivation_epoch (int_max U64) (delegation s)) s)
| stop s :
    auth (staker (authorized m)) \/ delinquent (voter_pubkey (delegation s)) ->
    deactivation_epoch (delegation s) = int_max U64 ->
    stake_step m lamports s (with_delegation (with_deactivation_epoch epoch (delegation s)) s).

Inductive state_step (lamports : Z) : State -> State -> Prop :=
| initialize_step a l :
    new_reserve <= lamports ->
    state_step lamports StakeStateV2.Uninitialized (StakeStateV2.Initialized (mkMeta new_reserve a l))
| initialized_step m m' :
    meta_step m m' -> state_step lamports (StakeStateV2.Initialized m) (StakeStateV2.Initialized m')
| meta_of_stake_step m m' s f :
    meta_step m m' -> state_step lamports (StakeStateV2.Stake m s f) (StakeStateV2.Stake m' s f)
| delegate_step m voter credits :
    auth (staker (authorized m)) ->
    ch_minimum_delegation ch <= lamports - rent_exempt_reserve m ->
    state_step lamports (StakeStateV2.Initialized m)
      (StakeStateV2.Stake m
         (mkStake (Delegation_new voter (lamports - rent_exempt_reserve m) epoch) credits) StakeFlags.empty)
| delegation_step m s s' f f' :
    stake_step m lamports s s' -> state_step lamports (StakeStateV2.Stake m s f) (StakeStateV2.Stake m s' f').

(** ** Steps between two accounts *)

(** [x] lamports of [s1], which has [l1], go to an account with [l2]. *)
Inductive split_step (x l1 l2 : Z) : State -> State -> State -> Prop :=
| split_initialized m :
    auth (staker (authorized m)) -> 0 < x <= l1 -> new_reserve <= l2 + x ->
    (x < l1 -> rent_exempt_reserve m <= l1 - x) ->
    split_step x l1 l2 (StakeStateV2.Initialized m)
      (if x =? l1 then StakeStateV2.Uninitialized else StakeStateV2.Initialized m)
      (StakeStateV2.Initialized (with_reserve new_reserve m))
| split_all m s f :
    auth (staker (authorized m)) -> 0 < x -> x = l1 ->
    rent_exempt_reserve m + ch_minimum_delegation ch <= x ->
    x - rent_exempt_reserve m <= delegation_stake (delegation s) ->
    split_step x l1 l2 (StakeStateV2.Stake m s f) StakeStateV2.Uninitialized
      (StakeStateV2.Stake (with_reserve new_reserve m)
         (with_delegation (with_delegation_stake (x - rent_exempt_reserve m) (delegation s)) s) f)
| split_part m s f new :
    auth (staker (authorized m)) -> 0 < x < l1 ->
    x + ch_minimum_delegation ch <= delegation_stake (delegation s) ->
    ch_minimum_delegation ch <= new -> new = x - Z.max 0 (new_reserve - l2) ->
    rent_exempt_reserve m <= l1 - x ->
    (0 < effective_now (delegation s) -> new_reserve <= l2) ->
    split_step x l1 l2 (StakeStateV2.Stake m s f)
      (StakeStateV2.Stake m
         (with_delegation (with_delegation_stake (delegation_stake (delegation s) - x) (delegation s)) s) f)
      (StakeStateV2.Stake (with_reserve new_reserve m)
         (with_delegation (with_delegation_stake new (delegation s)) s) f).

(** The credits of a merged stake: the average, rounded up. *)
Definition average_credits (s1 c1 s2 c2 : Z) : Z :=
  if c1 =? c2 then c1 else (c1 * s1 + c2 * s2 + (s1 + s2) - 1) / (s1 + s2).

Definition merged_stake (s : Stake) (absorbed credits : Z) : Stake :=
  mkStake (with_delegation_stake (delegation_stake (delegation s) + absorbed) (delegation s))
    (average_credits (delegation_stake (delegation s)) (credits_observed s) absorbed credits).

(** A stake that is not deactivated, as one that activates or is active is. *)
Definition going (s : Stake) : Prop := deactivation_epoch (delegation s) = int_max U64.

(** The state [s2] of an account with [l2] lamports is merged into [s1]. *)
Inductive merge_step (l1 l2 : Z) (s1 s2 : State) : State -> Prop :=
| merge_inactive :
    effective_now <$> StakeStateV2.delegation s1 ∈ [None; Some 0] ->
    merge_step l1 l2 s1 s2 s1
| merge_funds m s f f' :
    s1 = StakeStateV2.Stake m s f -> effective_now (delegation s) = 0 ->
    effective_now <$> StakeStateV2.delegation s2 ∈ [None; Some 0] ->
    merge_step l1 l2 s1 s2
      (StakeStateV2.Stake m
         (with_delegation (with_delegation_stake (delegation_stake (delegation s) + l2) (delegation s)) s) f')
| merge_activating m s f m2 t f2 f' :
    s1 = StakeStateV2.Stake m s f -> s2 = StakeStateV2.Stake m2 t f2 ->
    voter_pubkey (delegation s) = voter_pubkey (delegation t) -> going s -> going t ->
    effective_now (delegation s) = 0 -> effective_now (delegation t) = 0 ->
    merge_step l1 l2 s1 s2
      (StakeStateV2.Stake m
         (merged_stake s (rent_exempt_reserve m2 + delegation_stake (delegation t)) (credits_observed t)) f')
| merge_active m s f m2 t f2 :
    s1 = StakeStateV2.Stake m s f -> s2 = StakeStateV2.Stake m2 t f2 ->
    voter_pubkey (delegation s) = voter_pubkey (delegation t) -> going s -> going t ->
    effective_now (delegation s) <> 0 -> effective_now (delegation t) <> 0 ->
    merge_step l1 l2 s1 s2
      (StakeStateV2.Stake m (merged_stake s (delegation_stake (delegation t)) (credits_observed t)) StakeFlags.empty).

(** Who may merge what: the same authorities, and lockups that are the same or
    have both passed. *)
Definition mergeable (s1 s2 : State) : Prop :=
  exists m1 m2, StakeStateV2.meta s1 = Some m1 /\ StakeStateV2.meta s2 = Some m2 /\
    auth (staker (authorized m1)) /\ authorized m1 = authorized m2 /\
    (lockup m1 = lockup m2 \/
     is_in_force (lockup m1) (ch_clock ch) None = false /\ is_in_force (lockup m2) (ch_clock ch) None = false).

(** What a withdrawal has to leave behind. *)
Definition staked_now (s : Stake) : Z :=
  if deactivation_epoch (delegation s) <=? epoch then effective_now (delegation s)
  else delegation_stake (delegation s).

(** [x] lamports are withdrawn from an account; [address] is its address. *)
Inductive withdraw_step (address : Pubkey -> Prop) (x l : Z) : State -> Prop :=
| withdraw_uninitialized key :
    address key -> auth key -> withdraw_step address x l StakeStateV2.Uninitialized
| withdraw_initialized m :
    auth (withdrawer (authorized m)) -> unlocked (lockup m) ->
    (x <> l -> rent_exempt_reserve m <= l - x) -> withdraw_step address x l (StakeStateV2.Initialized m)
| withdraw_stake m s f :
    auth (withdrawer (authorized m)) -> unlocked (lockup m) ->
    (x <> l \/ staked_now s <> 0 -> staked_now s + rent_exempt_reserve m <= l - x) ->
    withdraw_step address x l (StakeStateV2.Stake m s f).

(** The effective stake [e] moves to another validator. *)
Inductive redelegate_step (l1 l2 : Z) : Z -> State -> State -> State -> Prop :=
| redelegate_active m s f f' e voter credits :
    auth (staker (authorized m)) -> going s -> e = effective_now (delegation s) -> e <> 0 ->
    voter <> voter_pubkey (delegation s) ->
    ch_minimum_delegation ch <= l2 + e - new_reserve ->
    redelegate_step l1 l2 e (StakeStateV2.Stake m s f)
      (StakeStateV2.Stake m (with_delegation (with_deactivation_epoch epoch (delegation s)) s) f')
      (StakeStateV2.Stake (with_reserve new_reserve m)
         (mkStake (Delegation_new voter (l2 + e - new_reserve) epoch) credits)
         StakeFlags.MUST_FULLY_ACTIVATE_BEFORE_DEACTIVATION_IS_PERMITTED).

(** ** Transactions *)

(** A stake account as the machine sees it. *)
Definition stake_view (a : AccountSharedData) : option (Z * State) :=
  if bool_decide (acc_owner a = stake_program_id)
  then (fun s => (acc_lamports a, s)) <$> shared_deserialize_data a else None.

(** Two accounts change, and nothing else. *)
Record pair_change (i j : IndexOfAccount) (a a' b b' : AccountSharedData)
    (tc tc' : TransactionContext) : Prop := {
  pc_frame : same_frame tc tc';
  pc_ne : i <> j;
  pc_before_i : account_at tc i = Some a;
  pc_before_j : account_at tc j = Some b;
  pc_after_i : account_at tc' i = Some a';
  pc_after_j : account_at tc' j = Some b';
  pc_other : forall k, k <> i -> k <> j -> account_at tc' k = account_at tc k;
  pc_sum : forall g, account_sum g tc' = account_sum g tc - g a + g a' - g b + g b';
}.

Inductive machine_step (tc tc' : TransactionContext) : Prop :=
| no_step :
    (forall k, account_at tc' k = account_at tc k) -> machine_step tc tc'
| update i a a' l s s' :
    becomes i a a' tc tc' -> stake_view a = Some (l, s) -> stake_view a' = Some (l, s') ->
    state_step l s s' -> machine_step tc tc'
| split_stakes i j a a' b b' x l1 l2 s s1 s2 :
    pair_change i j a a' b b' tc tc' ->
    stake_view a = Some (l1, s) -> stake_view b = Some (l2, StakeStateV2.Uninitialized) ->
    stake_view a' = Some (l1 - x, s1) -> stake_view b' = Some (l2 + x, s2) ->
    split_step x l1 l2 s s1 s2 -> machine_step tc tc'
| merge_stakes i j a a' b b' l1 l2 s1 s2 s :
    pair_change i j a a' b b' tc tc' ->
    stake_view a = Some (l1, s1) -> stake_view b = Some (l2, s2) ->
    stake_view a' = Some (l1 + l2, s) -> stake_view b' = Some (0, StakeStateV2.Uninitialized) ->
    mergeable s1 s2 -> merge_step l1 l2 s1 s2 s -> machine_step tc tc'
| redelegate_stakes i j a a' b b' e l1 l2 s s1 s2 :
    pair_change i j a a' b b' tc tc' ->
    stake_view a = Some (l1, s) -> stake_view b = Some (l2, StakeStateV2.Uninitialized) ->
    stake_view a' = Some (l1 - e, s1) -> stake_view b' = Some (l2 + e, s2) ->
    redelegate_step l1 l2 e s s1 s2 -> machine_step tc tc'
| withdraw_lamports i j a a' b x l s mid :
    becomes i a a' tc mid -> becomes j b (credit x b) mid tc' -> 0 <= x <= l ->
    stake_view a = Some (l, s) ->
    withdraw_step (fun key => get_key_of_account_at_index i tc = Ok key) x l s ->
    stake_view a' = Some (l - x, if x =? l then StakeStateV2.Uninitialized else s) ->
    machine_step tc tc'
| pass_lamports i j a a1 b a2 x l l' key t1 t2 :
    becomes i a a1 tc t1 -> becomes j b (credit x b) t1 t2 -> becomes i a2 (debit x a2) t2 tc' ->
    get_key_of_account_at_index i tc = Ok key -> auth key -> 0 <= x ->
    stake_view a = Some (l, StakeStateV2.Uninitialized) ->
    stake_view a1 = Some (l, StakeStateV2.Uninitialized) ->
    stake_view b = Some (acc_lamports b, StakeStateV2.Uninitialized) ->
    stake_view a2 = Some (l', StakeStateV2.Uninitialized) ->
    machine_step tc tc'.

End machine.
