(* ===== verification/StakeSteps.v ===== *)
(** * The stake program implements its machine

    Every run of the stake program that succeeds is a step of the machine of
    [StakeMachine]: for each handler, what it did to the accounts it was given
    and which rule of the machine allows it. *)

From S2P Require Import Prelude Errors Rent Account BTreeMap Pubkey Sysvars EpochSchedule Nonce TransactionContext RuntimeRules CallStack SysvarCache FeatureSet SystemProgram Effects SystemRules InvokeContext InvokeRules Message VoteState Votes VoteProgram VoteAuthority StakeState ConfigProgram StakeActivation StakeProgram StakeMachine.
Import StakeProcessor.

(** ** Changes of two accounts *)

Lemma pair_same_values i j a a' b b' t tc tc' t' :
  same_values t tc -> pair_change i j a a' b b' tc tc' -> same_values tc' t' ->
  pair_change i j a a' b b' t t'.
Proof.
  intros [Hf Hv] [] [Hf' Hv']. split; rewrite <- ?Hv, ?Hv'; try done.
  - by do 2 (etransitivity; [|done]).
  - intros k Hi Hj. rewrite Hv', pc_other by done. apply Hv.
  - intros g. rewrite (account_sum_eq g _ _ Hv'), pc_sum. by rewrite (account_sum_eq g _ _ Hv).
Qed.

Lemma pair_refl i j a b tc :
  i <> j -> account_at tc i = Some a -> account_at tc j = Some b -> pair_change i j a a b b tc tc.
Proof. intros. split; try done. intros g. lia. Qed.

Lemma pair_first i j a a' a'' b b' tc t t' :
  pair_change i j a a' b b' tc t -> becomes i a' a'' t t' -> pair_change i j a a'' b b' tc t'.
Proof.
  intros [] Hb. split; try done; [by etransitivity; [|apply Hb]|apply Hb|..].
  - by rewrite (be_other _ _ _ _ _ Hb).
  - intros k Hi Hj. rewrite (be_other _ _ _ _ _ Hb) by done. by apply pc_other.
  - intros g. destruct Hb. rewrite (account_sum_update g i t t' a' a'') by done. rewrite pc_sum. lia.
Qed.

Lemma pair_second i j a a' b b' b'' tc t t' :
  pair_change i j a a' b b' tc t -> becomes j b' b'' t t' -> pair_change i j a a' b b'' tc t'.
Proof.
  intros [] Hb. split; try done; [by etransitivity; [|apply Hb]| |apply Hb|..].
  - by rewrite (be_other _ _ _ _ _ Hb).
  - intros k Hi Hj. rewrite (be_other _ _ _ _ _ Hb) by done. by apply pc_other.
  - intros g. destruct Hb. rewrite (account_sum_update g j t t' b' b'') by done. rewrite pc_sum. lia.
Qed.

(** ** Reading and writing stake accounts *)

Section views.
Context {mids : MessageIds} {codec : Bincode StakeStateV2.StakeStateV2}
  {codec_ok : BincodeOk StakeStateV2.StakeStateV2}.

Lemma stake_view_Some a l s :
  stake_view a = Some (l, s) <->
  acc_owner a = stake_program_id /\ shared_deserialize_data a = Some s /\ acc_lamports a = l.
Proof.
  unfold stake_view. case_bool_decide; [|naive_solver].
  destruct (shared_deserialize_data a); simpl; naive_solver.
Qed.

Lemma stake_view_lamports a l s : stake_view a = Some (l, s) -> acc_lamports a = l.
Proof. by intros (_ & _ & ?)%stake_view_Some. Qed.

Lemma get_state_view ba a tc (s : StakeStateV2.StakeStateV2) tc' :
  get_state ba tc = (Ok s, tc') -> account_at tc (ba_index_in_transaction ba) = Some a ->
  acc_owner a = stake_program_id -> tc' = tc /\ stake_view a = Some (acc_lamports a, s).
Proof.
  intros (-> & a0 & Ha0 & Hs)%get_state_ok Ha Ho. split; [done|].
  rewrite Ha in Ha0. injection Ha0 as <-. by apply stake_view_Some.
Qed.

Lemma set_state_view ba a l (s s' : StakeStateV2.StakeStateV2) tc tc' :
  account_at tc (ba_index_in_transaction ba) = Some a -> stake_view a = Some (l, s) ->
  set_state ba s' tc = (Ok tt, tc') ->
  exists a', becomes (ba_index_in_transaction ba) a a' tc tc' /\ stake_view a' = Some (l, s') /\
    vec_len (acc_data a') = vec_len (acc_data a).
Proof.
  intros Ha (Ho & _ & Hl)%stake_view_Some (a0 & d & Hch & Hd & _)%set_state_changed.
  pose proof (ch_before _ _ _ _ _ Hch) as Hb. rewrite Ha in Hb. injection Hb as <-.
  exists (account_set_data d a). split_and!; [by apply changed_becomes| |].
  - apply stake_view_Some. split_and!; [done| |done]. by eapply serialize_into_roundtrip.
  - simpl. unfold vec_len. by rewrite (serialize_into_length _ _ _ Hd).
Qed.

Lemma debit_view ba a l s x tc tc' :
  account_at tc (ba_index_in_transaction ba) = Some a -> stake_view a = Some (l, s) ->
  checked_sub_lamports ba x tc = (Ok tt, tc') ->
  becomes (ba_index_in_transaction ba) a (debit x a) tc tc' /\ stake_view (debit x a) = Some (l - x, s) /\
  in_range U64 (l - x).
Proof.
  intros Ha (Ho & Hs & <-)%stake_view_Some (a0 & Hch & Hr & _)%checked_sub_lamports_changed.
  pose proof (ch_before _ _ _ _ _ Hch) as Hb. rewrite Ha in Hb. injection Hb as <-.
  split; [by apply changed_becomes|]. split; [|done]. by apply stake_view_Some.
Qed.

Lemma credit_becomes ba a x tc tc' :
  account_at tc (ba_index_in_transaction ba) = Some a -> checked_add_lamports ba x tc = (Ok tt, tc') ->
  becomes (ba_index_in_transaction ba) a (credit x a) tc tc'.
Proof.
  intros Ha (a0 & Hch & _)%checked_add_lamports_changed.
  pose proof (ch_before _ _ _ _ _ Hch) as Hb. rewrite Ha in Hb. injection Hb as <-.
  by apply changed_becomes.
Qed.

Lemma credit_view a l s x : stake_view a = Some (l, s) -> stake_view (credit x a) = Some (l + x, s).
Proof. intros (Ho & Hs & <-)%stake_view_Some. by apply stake_view_Some. Qed.

End views.

(** ** The pure rules *)

(** The values of the types: what a decoder returns. *)
Definition meta_wf (m : Meta) : Prop := in_range U64 (rent_exempt_reserve m).
Definition delegation_wf (d : Delegation) : Prop :=
  in_range U64 (delegation_stake d) /\ in_range U64 (activation_epoch d) /\ in_range U64 (deactivation_epoch d).
Definition stake_state_wf (s : StakeStateV2.StakeStateV2) : Prop :=
  match s with
  | StakeStateV2.Initialized m => meta_wf m
  | StakeStateV2.Stake m st _ => meta_wf m /\ delegation_wf (delegation st) /\ in_range U64 (credits_observed st)
  | _ => True
  end.

(** The machine's view of the environment. *)
Record chain_of `{!FeatureIds} (env : Environment) (ch : Chain) : Prop := {
  co_clock : get_clock (env_sysvar_cache env) = Ok (ch_clock ch);
  co_rent : get_rent (env_sysvar_cache env) = Ok (ch_rent ch);
  co_history : get_stake_history (env_sysvar_cache env) = Ok (ch_history ch);
  co_rate E : new_warmup_cooldown_rate_epoch (E:=E) env = Ok (ch_rate_epoch ch);
  co_minimum : get_minimum_delegation (env_feature_set env) = ch_minimum_delegation ch;
  co_guarded : is_active (env_feature_set env) stake_redelegate_instruction = ch_guarded ch;
}.

Section rules.
Context {fids : FeatureIds} (env : Environment) (ch : Chain) (Hch : chain_of env ch).
Context (auth : Pubkey -> Prop) (delinquent : Pubkey -> Prop).
Context (signers : gset Pubkey) (Hauth : forall k, k ∈ signers -> auth k).

Lemma minimum_positive : 1 <= ch_minimum_delegation ch.
Proof.
  rewrite <- (co_minimum _ _ Hch). unfold get_minimum_delegation, LAMPORTS_PER_SOL, MINIMUM_STAKE_DELEGATION.
  destruct (is_active _ _); lia.
Qed.

Lemma check_staker m u :
  Authorized_check (authorized m) signers StakeAuthorize.Staker = Ok u -> auth (staker (authorized m)).
Proof. simpl. case_bool_decide; [by auto|done]. Qed.

Lemma check_withdrawer m u :
  Authorized_check (authorized m) signers StakeAuthorize.Withdrawer = Ok u -> auth (withdrawer (authorized m)).
Proof. simpl. case_bool_decide; [by auto|done]. Qed.

Lemma in_force_custodian l c :
  is_in_force l (ch_clock ch) None = true -> is_in_force l (ch_clock ch) (Some c) = false -> c = custodian l.
Proof.
  unfold is_in_force. rewrite bool_decide_false by done. intros ->. by case_bool_decide; [simplify_eq|].
Qed.

Lemma check_custodian_unlocked l c u :
  check_custodian signers l (ch_clock ch) c = Ok u -> unlocked auth ch l.
Proof.
  unfold check_custodian, unlocked. destruct (is_in_force l (ch_clock ch) None) eqn:Hf; [|by left].
  destruct c as [c|]; [|done]. case_bool_decide as Hc; [done|].
  destruct (is_in_force l _ (Some c)) eqn:Hf'; [done|]. intros _. right.
  rewrite <- (in_force_custodian l c Hf Hf'). apply Hauth. by destruct (decide (c ∈ signers)).
Qed.

Lemma authorize_meta m key sa c a :
  Authorized_authorize (authorized m) signers key sa (Some (lockup m, ch_clock ch, c)) = Ok a ->
  meta_step auth ch m (with_authorized a m).
Proof.
  destruct sa; simpl.
  - destruct (_ && _) eqn:Hn; [done|]. intros [= <-]. apply change_staker.
    apply andb_false_iff in Hn as [Hn|Hn]; apply bool_decide_eq_false in Hn.
    + left. apply Hauth. by destruct (decide (staker (authorized m) ∈ signers)).
    + right. apply Hauth. by destruct (decide (withdrawer (authorized m) ∈ signers)).
  - destruct (check_custodian _ _ _ _) as [u| |] eqn:Hc; simpl; [|done..].
    case_bool_decide as Hw; simpl; [|done]. intros [= <-].
    apply change_withdrawer; [by apply Hauth|by eapply check_custodian_unlocked].
Qed.

Lemma set_lockup_meta m args m' :
  Meta_set_lockup m args signers (ch_clock ch) = Ok m' -> meta_step auth ch m m'.
Proof.
  unfold Meta_set_lockup. intros Hr.
  destruct (outcome_bind_ok _ _ _ Hr) as (u & Hu & Hm). injection Hm as <-.
  apply change_lockup. destruct (is_in_force _ _ _); case_bool_decide as Hc; try done; by apply Hauth.
Qed.

Lemma validate_delegated_amount_ok acc m x :
  in_range U64 (acc_lamports acc) -> meta_wf m ->
  validate_delegated_amount acc m (env_feature_set env) = Ok x ->
  x = acc_lamports acc - rent_exempt_reserve m /\ ch_minimum_delegation ch <= x.
Proof.
  unfold validate_delegated_amount, meta_wf, in_range. rewrite (co_minimum _ _ Hch). intros Hl Hm.
  pose proof minimum_positive as Hp.
  destruct (Z.ltb_spec (saturating_sub U64 (acc_lamports acc) (rent_exempt_reserve m)) (ch_minimum_delegation ch)) as [|Hge];
    [done|]. intros [= <-]. unfold saturating_sub, saturating in *. simpl in *. lia.
Qed.

Lemma deactivate_stake_ok s f e r :
  deactivate_stake env s f e = Ok r ->
  going s /\ fst r = with_delegation (with_deactivation_epoch e (delegation s)) s.
Proof.
  assert (forall s', stake_err (Stake_deactivate s e) = Ok s' ->
    going s /\ s' = with_delegation (with_deactivation_epoch e (delegation s)) s) as Hd.
  { unfold Stake_deactivate, going. destruct (Z.eqb_spec (deactivation_epoch (delegation s)) (int_max U64)); simpl; [|done].
    by intros s' [= <-]. }
  unfold deactivate_stake. intros Hr. destruct (is_active _ _); [destruct (StakeFlags.contains _ _)|]; inv_outcome Hr;
    match goal with H : stake_err _ = Ok _ |- _ => by apply Hd in H end.
Qed.

Lemma redelegate_stake_step m s lamports voter v s' :
  auth (staker (authorized m)) -> ch_minimum_delegation ch <= lamports - rent_exempt_reserve m ->
  redelegate_stake env s (lamports - rent_exempt_reserve m) voter v (ch_clock ch) (ch_history ch) = Ok s' ->
  stake_step auth ch delinquent m lamports s s'.
Proof.
  intros Ha Hm. unfold redelegate_stake. rewrite (co_rate _ _ Hch). simpl. unfold stake_at.
  destruct (Z.eqb_spec (effective_stake (ch_history ch) (ch_rate_epoch ch) (delegation s) (clock_epoch (ch_clock ch))) 0) as [He|He]; simpl.
  - intros [= <-]. by apply activate_again.
  - destruct (_ && _) eqn:Hc; [|done]. intros [= <-]. bool_facts.
    apply rescind; [done|done|]. intros Hg. rewrite (co_guarded _ _ Hch), Hg in *. by bool_facts.
Qed.

End rules.

(** ** Stake accounts that the program was given *)

Section reading.
Context {mids : MessageIds} {codec : Bincode StakeStateV2.StakeStateV2}
  {codec_wf : BincodeWf StakeStateV2.StakeStateV2 stake_state_wf}.

Record stake_account (ba : BorrowedAccount) (a : AccountSharedData) (tc : TransactionContext) : Prop := {
  sa_at : account_at tc (ba_index_in_transaction ba) = Some a;
  sa_owner : acc_owner a = stake_program_id;
  sa_lamports : in_range U64 (acc_lamports a);
}.

Lemma read_state {A} ba a (k : StakeStateV2.StakeStateV2 -> TxM A) tc r tc' :
  stake_account ba a tc -> bind (get_state ba) k tc = (Ok r, tc') ->
  exists s, stake_view a = Some (acc_lamports a, s) /\ stake_state_wf s /\ k s tc = (Ok r, tc').
Proof.
  intros [Ha Ho _] (s & t & Hg & Hk)%bind_ok_inv. pose proof Hg as Hw.
  eapply get_state_view in Hg as [-> Hv]; [|done..]. exists s. split_and!; try done.
  apply stake_view_Some in Hv as (_ & Hs & _). by apply bincode_deserialize_wf in Hs.
Qed.

End reading.

(** Reads the state of the account behind [ba] and takes the cases apart. *)
Ltac read H Hsa s :=
  let Hs := fresh "Hview" in let Hwf := fresh "Hwf" in
  eapply read_state in H as (s & Hs & Hwf & H); [|exact Hsa]; destruct s; try done; simpl in Hwf.

Ltac same_account Hsa H :=
  apply borrowed_account_at in H; rewrite (sa_at _ _ _ Hsa) in H; injection H as <-.

(** ** Handlers that update one account *)

Section handlers.
Context {hashing : Hashing} {ids : ProgramIds} {mids : MessageIds} {fids : FeatureIds}.
Context {codec : Bincode StakeStateV2.StakeStateV2} {codec_ok : BincodeOk StakeStateV2.StakeStateV2}
  {codec_wf : BincodeWf StakeStateV2.StakeStateV2 stake_state_wf}.
Context {vote_codec : Bincode VoteStateVersions} {keys_codec : Bincode ConfigKeys}
  {config_codec : Bincode StakeConfig}.
Context (env : Environment) (ch : Chain) (Hch : chain_of env ch).
Context (ic : InstructionContext) (auth : Pubkey -> Prop) (delinquent : Pubkey -> Prop).

Definition updates (i : IndexOfAccount) (tc tc' : TransactionContext) : Prop :=
  exists a a' l s s', becomes i a a' tc tc' /\ stake_view a = Some (l, s) /\ stake_view a' = Some (l, s') /\
    state_step auth ch delinquent l s s'.

Lemma updates_same_values i t tc tc' t' :
  same_values t tc -> updates i tc tc' -> same_values tc' t' -> updates i t t'.
Proof.
  intros H1 (a & a' & l & s & s' & Hb & Hr) H2. exists a, a', l, s, s'.
  split; [by eapply becomes_same_values|done].
Qed.

Lemma write_updates ba a s s' tc tc' :
  stake_account ba a tc -> stake_view a = Some (acc_lamports a, s) ->
  state_step auth ch delinquent (acc_lamports a) s s' ->
  set_state ba s' tc = (Ok tt, tc') -> updates (ba_index_in_transaction ba) tc tc'.
Proof.
  intros [Ha _ _] Hv Hs Hw. eapply set_state_view in Hw as (a' & Hb & Hv' & _); [|done..].
  by exists a, a', (acc_lamports a), s, s'.
Qed.

Lemma initialize_updates ba a authorized lockup tc tc' :
  stake_account ba a tc -> initialize ba authorized lockup (ch_rent ch) tc = (Ok tt, tc') ->
  updates (ba_index_in_transaction ba) tc tc'.
Proof.
  intros Hsa Hr. unfold initialize in Hr. next Hr. same_account Hsa Hq.
  destruct (Z.eqb_spec (vec_len (acc_data a)) StakeStateV2.size_of) as [Hlen|]; [|done]. simpl in Hr.
  read Hr Hsa s. rewrite Hlen in Hr. destruct (Z.leb_spec (minimum_balance (ch_rent ch) StakeStateV2.size_of) (acc_lamports a)); [|done].
  eapply write_updates; [done|done| |done]. by apply initialize_step.
Qed.

Section signed.
Context (signers : gset Pubkey) (Hauth : forall k, k ∈ signers -> auth k).

Lemma authorize_updates ba a key sa c tc tc' :
  stake_account ba a tc -> authorize ba signers key sa (ch_clock ch) c tc = (Ok tt, tc') ->
  updates (ba_index_in_transaction ba) tc tc'.
Proof.
  intros Hsa Hr. unfold authorize in Hr. read Hr Hsa s; next Hr; eapply write_updates; try done.
  - apply initialized_step. by eapply authorize_meta.
  - apply meta_of_stake_step. by eapply authorize_meta.
Qed.

Lemma set_lockup_updates ba a args tc tc' :
  stake_account ba a tc -> set_lockup ba args signers (ch_clock ch) tc = (Ok tt, tc') ->
  updates (ba_index_in_transaction ba) tc tc'.
Proof.
  intros Hsa Hr. unfold set_lockup in Hr. read Hr Hsa s; next Hr; eapply write_updates; try done.
  - apply initialized_step. by eapply set_lockup_meta.
  - apply meta_of_stake_step. by eapply set_lockup_meta.
Qed.

Lemma deactivate_updates ba a tc tc' :
  stake_account ba a tc -> deactivate env ba (ch_clock ch) signers tc = (Ok tt, tc') ->
  updates (ba_index_in_transaction ba) tc tc'.
Proof.
  intros Hsa Hr. unfold deactivate in Hr. read Hr Hsa s. next Hr. next Hr.
  apply deactivate_stake_ok in Hq0 as [Hg He]. eapply write_updates; [done|done| |done].
  apply delegation_step. rewrite He. apply stop; [|done]. left. by eapply check_staker.
Qed.

Lemma delegate_updates i j ia a tc tc' :
  vec_get (instruction_accounts ic) i = Some ia ->
  stake_account (instruction_handle_of ic i ia) a tc ->
  delegate env ic i j (ch_clock ch) (ch_history ch) signers (env_feature_set env) tc = (Ok tt, tc') ->
  updates (index_in_transaction ia) tc tc'.
Proof.
  intros Hi Hsa Hr. unfold delegate in Hr. apply bind_ok_inv in Hr as (vote & tc1 & Hvote & Hr).
  assert (same_values tc tc1) as Hsv.
  { apply scope_inv in Hvote as (ja & t1 & t2 & _ & Hs1 & Hsc & Hs2). next Hsc. case_bool_decide; [done|].
    next Hsc. next Hsc. apply ret_ok_inv in Hsc as [_ ->]. etransitivity; [exact Hs1|]. etransitivity; [|exact Hs2].
    unfold capture, get_state, bind, query, lift in Hq1. by repeat case_match; simplify_eq. }
  destruct vote as [voter versions]. apply scope_inv in Hr as (ia' & t1 & t2 & Hi' & Hs1 & Hr & Hs2).
  rewrite Hi in Hi'. injection Hi' as <-.
  assert (stake_account (instruction_handle_of ic i ia) a t1) as Hsa1.
  { destruct Hsa. split; [|done..]. by rewrite (proj2 Hs1), (proj2 Hsv). }
  eapply updates_same_values; [by etransitivity| |done].
  read Hr Hsa1 s; do 4 next Hr; same_account Hsa1 Hq0;
    (eapply validate_delegated_amount_ok in Hq1 as [-> Hmin]; [|done|apply Hsa|by try apply Hwf]);
    apply (check_staker auth signers Hauth) in Hq.
  - eapply (write_updates (instruction_handle_of ic i ia)); [done|done| |done]. by apply delegate_step.
  - next Hr. match goal with H : stake_err _ = Ok _ |- _ => apply map_err_ok in H end. eapply (write_updates (instruction_handle_of ic i ia)); [done|done| |done].
    apply delegation_step. by eapply redelegate_stake_step.
Qed.

End signed.

Lemma authorize_with_seed_updates ba a i seed owner key sa c tc tc' :
  (forall base k, is_instruction_account_signer ic i = Ok true -> key_of_instruction_account ic i tc = Ok base ->
     create_with_seed base seed owner = Ok k -> auth k) ->
  stake_account ba a tc -> authorize_with_seed ic ba i seed owner key sa (ch_clock ch) c tc = (Ok tt, tc') ->
  updates (ba_index_in_transaction ba) tc tc'.
Proof.
  intros Hseed Hsa Hr. unfold authorize_with_seed in Hr. next Hr. apply bind_ok_inv in Hr as (signers & t & Hk & Hr).
  destruct x.
  - next Hk. next Hk. apply ret_ok_inv in Hk as [-> ->]. apply map_err_ok in Hq1.
    eapply authorize_updates; [|done..]. intros k ->%elem_of_singleton. by eapply Hseed.
  - apply ret_ok_inv in Hk as [-> ->]. eapply authorize_updates; [|done..]. by intros k ?%elem_of_empty.
Qed.

End handlers.
