(* ===== verification/StakeTransfers.v ===== *)
(** * The stake program implements its machine: two accounts

    Splitting, merging, withdrawing and redelegating, and the theorem that every
    instruction of the stake program is a step of the machine. *)

From S2P Require Import Prelude Errors Rent Account BTreeMap Pubkey Sysvars EpochSchedule Nonce TransactionContext RuntimeRules CallStack SysvarCache FeatureSet SystemProgram Effects SystemRules InvokeContext InvokeRules Message VoteState Votes VoteProgram VoteAuthority StakeState ConfigProgram StakeActivation StakeProgram StakeMachine StakeSteps.
Import StakeProcessor.

Lemma minimum_balance_range r n : in_range U64 (minimum_balance r n).
Proof.
  unfold minimum_balance, in_range. set (x := F64.mul _ _). clearbody x.
  destruct x as [|[]| |[] m e]; simpl; try lia.
  pose proof (saturating_range U64 (F64.trunc m e) ltac:(simpl; lia)) as H. unfold in_range in H. simpl in H. lia.
Qed.

(** A validator that stopped voting, and the one that shows that others voted. *)
Definition delinquent_voter `{!MessageIds} `{!Bincode VoteStateVersions} (epoch : Epoch)
    (tc : TransactionContext) (voter : Pubkey) : Prop :=
  exists i j a b v w,
    get_key_of_account_at_index i tc = Ok voter /\
    account_at tc i = Some a /\ acc_owner a = vote_program_id /\ shared_deserialize_data a = Some v /\
    eligible_for_deactivate_delinquent (epoch_credits (convert_to_current v)) epoch = true /\
    account_at tc j = Some b /\ acc_owner b = vote_program_id /\ shared_deserialize_data b = Some w /\
    acceptable_reference_epoch_credits (epoch_credits (convert_to_current w)) epoch = true.

Section transfers.
Context {hashing : Hashing} {ids : ProgramIds} {mids : MessageIds} {fids : FeatureIds}.
Context {codec : Bincode StakeStateV2.StakeStateV2} {codec_ok : BincodeOk StakeStateV2.StakeStateV2}
  {codec_wf : BincodeWf StakeStateV2.StakeStateV2 stake_state_wf}.
Context {vote_codec : Bincode VoteStateVersions} {keys_codec : Bincode ConfigKeys}
  {config_codec : Bincode StakeConfig}.
Context (env : Environment) (ch : Chain) (Hch : chain_of env ch).
Context (ic : InstructionContext) (auth : Pubkey -> Prop).

Abbreviation State := StakeStateV2.StakeStateV2.
Abbreviation index_of ia := (index_in_transaction ia).

Lemma stake_account_same_values ba a tc tc' :
  same_values tc tc' -> stake_account ba a tc -> stake_account ba a tc'.
Proof. intros [_ Hv] []. split; [by rewrite Hv|done..]. Qed.

(** ** Scopes with one effect *)

Section scopes.
Context (i : IndexOfAccount) (ia : InstructionAccount) (Hi : vec_get (instruction_accounts ic) i = Some ia).

Lemma write_scope a l s s' tc tc' :
  account_at tc (index_of ia) = Some a -> stake_view a = Some (l, s) ->
  borrowing (try_borrow_instruction_account ic i) (fun account => set_state account (s' : State)) tc = (Ok tt, tc') ->
  exists a', becomes (index_of ia) a a' tc tc' /\ stake_view a' = Some (l, s').
Proof.
  intros Ha Hv (ia' & t1 & t2 & Hi' & Hs1 & Hr & Hs2)%scope_inv. rewrite Hi in Hi'. injection Hi' as <-.
  eapply set_state_view in Hr as (a' & Hb & Hv' & _); [| |done]; [|simpl; by rewrite (proj2 Hs1)].
  exists a'. split; [by eapply becomes_same_values|done].
Qed.

Lemma credit_scope a x tc tc' :
  account_at tc (index_of ia) = Some a ->
  borrowing (try_borrow_instruction_account ic i) (fun account => checked_add_lamports account x) tc = (Ok tt, tc') ->
  becomes (index_of ia) a (credit x a) tc tc'.
Proof.
  intros Ha (ia' & t1 & t2 & Hi' & Hs1 & Hr & Hs2)%scope_inv. rewrite Hi in Hi'. injection Hi' as <-.
  eapply credit_becomes in Hr; [|simpl; by rewrite (proj2 Hs1)]. by eapply becomes_same_values.
Qed.

Lemma debit_scope a l s x tc tc' :
  account_at tc (index_of ia) = Some a -> stake_view a = Some (l, s) ->
  borrowing (try_borrow_instruction_account ic i) (fun account => checked_sub_lamports account x) tc = (Ok tt, tc') ->
  becomes (index_of ia) a (debit x a) tc tc' /\ stake_view (debit x a) = Some (l - x, s).
Proof.
  intros Ha Hv (ia' & t1 & t2 & Hi' & Hs1 & Hr & Hs2)%scope_inv. rewrite Hi in Hi'. injection Hi' as <-.
  eapply debit_view in Hr as (Hb & Hv' & _); [|simpl; by rewrite (proj2 Hs1)|done].
  split; [by eapply becomes_same_values|done].
Qed.

(** A scope that resets the state of an account whose last lamports leave it. *)
Lemma reset_scope a l (s : State) x tc tc' :
  account_at tc (index_of ia) = Some a -> stake_view a = Some (l, s) ->
  borrowing (try_borrow_instruction_account ic i) (fun account =>
    let? acc := query (borrowed account) in
    if x =? acc_lamports acc then set_state account StakeStateV2.Uninitialized else ret tt) tc = (Ok tt, tc') ->
  exists a', becomes (index_of ia) a a' tc tc' /\
    stake_view a' = Some (l, if x =? l then StakeStateV2.Uninitialized else s).
Proof.
  intros Ha Hv (ia' & t1 & t2 & Hi' & Hs1 & Hr & Hs2)%scope_inv. rewrite Hi in Hi'. injection Hi' as <-.
  assert (account_at t1 (index_of ia) = Some a) as Ha1 by by rewrite (proj2 Hs1).
  next Hr. apply borrowed_account_at in Hq. simpl in Hq. rewrite Ha1 in Hq. injection Hq as <-.
  rewrite (stake_view_lamports _ _ _ Hv) in Hr. destruct (x =? l).
  - eapply set_state_view in Hr as (a' & Hb & Hv' & _); [| |done]; [|done].
    exists a'. split; [by eapply becomes_same_values|done].
  - apply ret_ok_inv in Hr as [_ ->]. exists a. split; [|done].
    eapply becomes_same_values; [done|by apply becomes_refl|done].
Qed.

Lemma peek_account_ok a tc r tc' :
  account_at tc (index_of ia) = Some a -> peek_account ic i tc = (Ok r, tc') -> r = a /\ same_values tc tc'.
Proof.
  intros Ha (ia' & t1 & t2 & Hi' & Hs1 & Hr & Hs2)%scope_inv. rewrite Hi in Hi'. injection Hi' as <-.
  apply query_ok_inv in Hr as [Hb%borrowed_account_at ->]. simpl in Hb. rewrite (proj2 Hs1), Ha in Hb.
  injection Hb as <-. split; [done|by etransitivity].
Qed.

End scopes.

(** ** Delinquent validators *)

Lemma vote_state_of_ok ba tc s tc' :
  vote_state_of ba tc = (Ok s, tc') ->
  tc' = tc /\ exists a v, account_at tc (ba_index_in_transaction ba) = Some a /\ acc_owner a = vote_program_id /\
    shared_deserialize_data a = Some v /\ s = convert_to_current v.
Proof.
  unfold vote_state_of. intros Hr. next Hr. case_bool_decide as Ho; [done|].
  apply borrowed_account_at in Hq. apply bind_ok_inv in Hr as (v & t & Hg & Hr).
  apply get_state_ok in Hg as (-> & a & Ha & Hv). apply ret_ok_inv in Hr as [-> ->].
  rewrite Hq in Ha. injection Ha as ->. split; [done|]. by exists a, v.
Qed.

Lemma key_of_handle i ia tc :
  vec_get (instruction_accounts ic) i = Some ia ->
  key_of_instruction_account ic i tc = get_key_of_account_at_index (index_of ia) tc.
Proof.
  intros Hi. unfold key_of_instruction_account, get_index_of_instruction_account_in_transaction. by rewrite Hi.
Qed.

Lemma deactivate_delinquent_updates ba a i j tc tc' :
  stake_account ba a tc ->
  deactivate_delinquent env ic ba i j (clock_epoch (ch_clock ch)) tc = (Ok tt, tc') ->
  updates ch auth (delinquent_voter (clock_epoch (ch_clock ch)) tc) (ba_index_in_transaction ba) tc tc'.
Proof.
  intros Hsa Hr. unfold deactivate_delinquent in Hr. next Hr.
  apply scope_inv in Hr as (ia & t1 & t2 & Hi & Hs1 & Hr & Hs2). rewrite (key_of_handle i ia) in Hq by done.
  apply bind_ok_inv in Hr as (v & t & Hv & Hr). apply vote_state_of_ok in Hv as (-> & av & v' & Hav & Hov & Hdv & ->).
  apply scope_inv in Hr as (ja & t3 & t4 & Hj & Hs3 & Hr & Hs4).
  apply bind_ok_inv in Hr as (w & t & Hw & Hr). apply vote_state_of_ok in Hw as (-> & aw & w' & Haw & How & Hdw & ->).
  destruct (acceptable_reference_epoch_credits _ _) eqn:Hacc; [|done]. simpl in Hr.
  assert (same_values tc t3) as Hs by by etransitivity.
  assert (stake_account ba a t3) as Hsa3 by by eapply stake_account_same_values.
  eapply updates_same_values; [exact Hs| |etransitivity; [exact Hs4|exact Hs2]].
  read Hr Hsa3 s. case_bool_decide as Hvoter; [done|]. destruct (eligible_for_deactivate_delinquent _ _) eqn:Hel; [|done].
  next Hr. apply deactivate_stake_ok in Hq0 as [Hg He]. eapply write_updates; [done|done| |done].
  apply delegation_step. rewrite He. apply stop; [|done]. right.
  assert (voter_pubkey (delegation stake) = x) as -> by (by destruct (decide (voter_pubkey (delegation stake) = x))).
  exists (index_of ia), (index_of ja), av, aw, v', w'. simpl in Hav, Haw.
  rewrite (proj2 Hs1) in Hav. rewrite (proj2 Hs) in Haw. by split_and!.
Qed.

(** ** Withdrawing *)

Section withdraw.
Context (tc : TransactionContext).
Context (Hkeys : forall i k, is_instruction_account_signer ic i = Ok true ->
  key_of_instruction_account ic i tc = Ok k -> auth k).

Lemma key_of_same_values i t : same_values tc t ->
  key_of_instruction_account ic i t = key_of_instruction_account ic i tc.
Proof.
  intros [Hf _]. unfold key_of_instruction_account, get_key_of_account_at_index. by rewrite (sf_keys _ _ Hf).
Qed.

Lemma custodian_key_ok ci t c t' :
  same_values tc t -> custodian_key ic ci t = (Ok c, t') ->
  t' = t /\ forall k, c = Some k -> auth k.
Proof.
  intros Hs Hr. unfold custodian_key in Hr. destruct ci as [ci|]; [|by apply ret_ok_inv in Hr as [-> ->]].
  next Hr. destruct x; [|by apply ret_ok_inv in Hr as [-> ->]].
  next Hr. apply ret_ok_inv in Hr as [-> ->]. split; [done|]. intros k [= <-].
  rewrite key_of_same_values in Hq0 by done. by eapply Hkeys.
Qed.

Lemma withdrawal_unlocked l c :
  (forall k, c = Some k -> auth k) -> is_in_force l (ch_clock ch) c = false -> unlocked auth ch l.
Proof.
  intros Hc H. destruct (decide (c = Some (custodian l))) as [Heq|Hne].
  - right. by apply Hc.
  - left. unfold is_in_force in *. by rewrite bool_decide_false in H |- *.
Qed.

(** What the state of the account asks of a withdrawal. *)
Lemma withdraw_reserve_ok ba a signers t r t' :
  same_values tc t -> (forall k, k ∈ signers -> auth k) -> stake_account ba a t ->
  withdraw_reserve ba signers (ch_clock ch) (ch_history ch) (ch_rate_epoch ch) t = (Ok r, t') ->
  t' = t /\ exists s, stake_view a = Some (acc_lamports a, s) /\
    forall x, 0 <= x -> (unlocked auth ch (fst (fst r))) ->
      (x <> acc_lamports a \/ snd r = true -> snd (fst r) <= acc_lamports a - x) ->
      withdraw_step auth ch (fun key => get_key_of_account_at_index (ba_index_in_transaction ba) tc = Ok key)
        x (acc_lamports a) s.
Proof.
  intros Hs Hauth Hsa Hr. unfold withdraw_reserve in Hr. read Hr Hsa s.
  - next Hr. case_bool_decide as Hk; [done|]. apply ret_ok_inv in Hr as [-> ->]. split; [done|].
    eexists. split; [done|]. intros y _ _ _. unfold get_key in Hq.
    destruct (get_key_of_account_at_index _ t) as [k| |] eqn:Hkey; simplify_eq.
    apply withdraw_uninitialized with x; [|apply Hauth; by destruct (decide (x ∈ signers))].
    unfold get_key_of_account_at_index in *. by rewrite (sf_keys _ _ (proj1 Hs)) in Hkey.
  - next Hr. apply ret_ok_inv in Hr as [-> ->]. split; [done|]. eexists. split; [done|].
    intros y _ Hu Hres. simpl in *. apply withdraw_initialized; [by eapply check_withdrawer|done|]. naive_solver.
  - next Hr. next Hr. apply ret_ok_inv in Hr as [-> ->]. split; [done|]. eexists. split; [done|].
    apply ok_or_ok, checked_Some in Hq0 as [-> _].
    intros y _ Hu Hres. simpl in *. apply withdraw_stake; [by eapply check_withdrawer|done|].
    unfold staked_now, effective_now in *. intros Hn. apply Hres. destruct Hn as [Hn|Hn]; [by left|right].
    by apply negb_true_iff, Z.eqb_neq.
Qed.

Lemma withdraw_step_of_machine i j ia a x wi ci tc' :
  vec_get (instruction_accounts ic) i = Some ia -> stake_account (instruction_handle_of ic i ia) a tc -> 0 <= x ->
  withdraw ic i x j (ch_clock ch) (ch_history ch) wi ci (ch_rate_epoch ch) tc = (Ok tt, tc') ->
  forall delinquent, machine_step auth ch delinquent tc tc'.
Proof.
  intros Hi Hsa Hx Hr delinquent. unfold withdraw in Hr. next Hr. next Hr. destruct x1; [|done]. simpl in Hr.
  assert (forall k, k ∈ ({[x0]} : gset Pubkey) -> auth k) as Hauth.
  { intros k ->%elem_of_singleton. by eapply Hkeys. }
  apply bind_ok_inv in Hr as ([] & mid & H1 & H2).
  apply scope_inv in H1 as (ia' & t1 & t2 & Hi' & Hs1 & Hr & Hs2). rewrite Hi in Hi'. injection Hi' as <-.
  assert (stake_account (instruction_handle_of ic i ia) a t1) as Hsa1 by by eapply stake_account_same_values.
  apply bind_ok_inv in Hr as ([[lk res] staked] & t & Hw & Hr).
  eapply withdraw_reserve_ok in Hw as (-> & s & Hv & Hstep); [|done..]. simpl in Hstep.
  apply bind_ok_inv in Hr as (c & t & Hc & Hr). eapply custodian_key_ok in Hc as [-> Hc]; [|done].
  destruct (is_in_force lk (ch_clock ch) c) eqn:Hf; [done|]. eapply withdrawal_unlocked in Hf; [|done].
  next Hr. apply ok_or_ok, checked_Some in Hq1 as [-> _]. next Hr. same_account Hsa1 Hq1.
  destruct (staked && _) eqn:Hg1; [done|].
  apply bind_ok_inv in Hr as ([] & t & Hg2 & Hr).
  assert (t = t1 /\ (x <> acc_lamports a -> x + res <= acc_lamports a)) as [-> Hrest].
  { destruct (negb _ && _) eqn:Hg; [by destruct staked|]. apply ret_ok_inv in Hg2 as [_ ->]. split; [done|].
    intros Hne. apply andb_false_iff in Hg as [Hg|Hg]; [|by apply Z.ltb_ge in Hg].
    apply negb_false_iff, Z.eqb_eq in Hg. done. }
  apply bind_ok_inv in Hr as ([] & t & Hset & Hr).
  assert (exists a1, becomes (index_of ia) a a1 t1 t /\
    stake_view a1 = Some (acc_lamports a, if x =? acc_lamports a then StakeStateV2.Uninitialized else s)) as (a1 & Hb1 & Hv1).
  { destruct (x =? acc_lamports a).
    - eapply set_state_view in Hset as (a1 & Hb & Hv1 & _); [by exists a1|apply Hsa1|done].
    - apply ret_ok_inv in Hset as [_ ->]. exists a. split; [apply becomes_refl, Hsa1|done]. }
  eapply debit_view in Hr as (Hb2 & Hv2 & Hrange); [|apply Hb1|done]. unfold in_range in Hrange. simpl in Hrange.
  apply (borrowing_becomes _ _ _ _ _ (fun b b' => b' = credit x b)) in H2 as (ja & b & ? & Hj & Hb3 & ->).
  - eapply (withdraw_lamports _ _ _ _ _ (index_of ia) (index_of ja) a (debit x a1) b x (acc_lamports a) s mid);
      [|done|lia|done| |done].
    + eapply becomes_same_values; [done| |done]. by eapply becomes_trans.
    + apply Hstep; [done|done|]. intros [Hn|Hn]; [specialize (Hrest Hn); lia|].
      rewrite Hn in Hg1. simpl in Hg1. apply Z.ltb_ge in Hg1. lia.
  - intros ja t3 t4 _ _ _ (b & Hch' & _)%checked_add_lamports_changed.
    exists b, (credit x b). split; [by apply changed_becomes|done].
Qed.

End withdraw.

(** ** Splitting *)

Section split.
Context (i j : IndexOfAccount) (ia ja : InstructionAccount).
Context (Hi : vec_get (instruction_accounts ic) i = Some ia) (Hj : vec_get (instruction_accounts ic) j = Some ja).
Context (a b : AccountSharedData) (x : Z) (Hx : 0 <= x).
Context (Hla : in_range U64 (acc_lamports a)) (Hlb : in_range U64 (acc_lamports b)).
Context (Hlen : vec_len (acc_data b) = StakeStateV2.size_of).

Abbreviation l1 := (acc_lamports a).
Abbreviation l2 := (acc_lamports b).

(** What a validated split is known to leave. *)
Record valid_split (m : Meta) (extra : Z) (active : bool) (info : ValidatedSplitInfo) : Prop := {
  vs_amount : 0 < x <= l1;
  vs_remaining : source_remaining_balance info = l1 - x;
  vs_reserve : destination_rent_exempt_reserve info = new_reserve ch;
  vs_source : x < l1 -> saturating_add U64 (rent_exempt_reserve m) extra <= l1 - x;
  vs_active : active = true -> x < l1 -> new_reserve ch <= l2;
  vs_destination : saturating_sub U64 (saturating_add U64 (new_reserve ch) extra) l2 <= x;
}.

Lemma validate_split_ok m extra active info tc tc' :
  account_at tc (index_of ia) = Some a -> account_at tc (index_of ja) = Some b ->
  validate_split_amount env ic i j x m extra active tc = (Ok info, tc') ->
  same_values tc tc' /\ valid_split m extra active info.
Proof.
  intros Ha Hb Hr. unfold validate_split_amount in Hr.
  apply bind_ok_inv in Hr as (a' & t1 & Hp & Hr). apply (peek_account_ok i ia Hi a) in Hp as [-> Hs1]; [|done].
  apply bind_ok_inv in Hr as (b' & t2 & Hp & Hr).
  apply (peek_account_ok j ja Hj b) in Hp as [-> Hs2]; [|by rewrite (proj2 Hs1)]. cbv zeta in Hr.
  destruct (Z.eqb_spec x 0); [done|]. destruct (Z.ltb_spec l1 x); [done|].
  assert (saturating_sub U64 l1 x = l1 - x) as Hrem.
  { apply saturating_small. unfold in_range in *. simpl in *. lia. }
  rewrite Hrem in Hr. destruct (negb _ && _) eqn:G1; [done|].
  next Hr. rewrite (co_rent _ _ Hch) in Hq. injection Hq as <-. rewrite Hlen in Hr. fold (new_reserve ch) in Hr.
  destruct (active && _ && _) eqn:G2; [done|]. destruct (Z.ltb_spec x (saturating_sub U64 (saturating_add U64 (new_reserve ch) extra) l2)); [done|].
  apply ret_ok_inv in Hr as [-> ->]. split; [by etransitivity|]. split; simpl; try done; [lia|..].
  - intros Hlt. apply andb_false_iff in G1 as [G1|G1]; [apply negb_false_iff, Z.eqb_eq in G1; lia|by apply Z.ltb_ge].
  - intros -> Hlt. simpl in G2. apply andb_false_iff in G2 as [G2|G2]; [apply negb_false_iff, Z.eqb_eq in G2; lia|by apply Z.ltb_ge].
Qed.

Lemma new_reserve_range : in_range U64 (new_reserve ch).
Proof. apply minimum_balance_range. Qed.

(** The amounts of a split that is accepted, as the machine has them. *)
Lemma split_amounts_ok m s info amounts active s1 s2 :
  meta_wf m -> delegation_wf (delegation s) ->
  valid_split m (ch_minimum_delegation ch) active info ->
  active = (0 <? effective_now ch (delegation s)) -> auth (staker (authorized m)) ->
  split_amounts x l2 (ch_minimum_delegation ch) m s info = Ok amounts ->
  Stake_split s (fst amounts) (snd amounts) = Ok (s1, s2) ->
  forall f, split_step auth ch x l1 l2 (StakeStateV2.Stake m s f)
    (if x =? l1 then StakeStateV2.Uninitialized else StakeStateV2.Stake m s1 f)
    (StakeStateV2.Stake (with_reserve (new_reserve ch) m) s2 f).
Proof.
  intros Hm [Hd _] [Hamt Hrem Hres Hsrc Hact Hdst] -> Hau Hsa Hsp f.
  pose proof (minimum_positive env ch Hch) as Hmin. pose proof new_reserve_range as Hr.
  unfold meta_wf, in_range in *. cbn [int_min int_max U64] in *.
  unfold split_amounts in Hsa. rewrite Hrem, Hres in Hsa.
  assert (forall p n, Stake_split s p n = Ok (s1, s2) -> p <= delegation_stake (delegation s) /\
    (0 <= p -> s1 = with_delegation (with_delegation_stake (delegation_stake (delegation s) - p) (delegation s)) s) /\
    s2 = with_delegation (with_delegation_stake n (delegation s)) s) as Hsplit.
  { intros p n. unfold Stake_split. destruct (Z.ltb_spec (delegation_stake (delegation s)) p); [done|].
    intros [= <- <-]. split; [done|]. split; [|done]. intros Hp. rewrite wrapping_small; [done|]. unfold in_range. simpl. lia. }
  apply Hsplit in Hsp as (Hp & Hs1 & ->). clear Hsplit.
  destruct (Z.eqb_spec (l1 - x) 0) as [Hz|Hz].
  - cbn [outcome_bind fst snd] in Hsa. destruct (Z.ltb_spec (saturating_sub U64 x (rent_exempt_reserve m)) (ch_minimum_delegation ch)) as [|Hge]; [done|].
    injection Hsa as <-. simpl in Hp, Hs1 |- *. rewrite (proj2 (Z.eqb_eq x l1)) by lia.
    assert (saturating_sub U64 x (rent_exempt_reserve m) = x - rent_exempt_reserve m) as He.
    { unfold saturating_sub, saturating in *. simpl in *. lia. }
    rewrite He in *. apply split_all; [done|lia..].
  - destruct (Z.ltb_spec (saturating_sub U64 (delegation_stake (delegation s)) x) (ch_minimum_delegation ch)) as [|Hge]; [done|].
    cbn [outcome_bind fst snd] in Hsa. match type of Hsa with context [?n <? _] => set (new := n) in * end.
    destruct (Z.ltb_spec new (ch_minimum_delegation ch)) as [|Hnew]; [done|]. injection Hsa as <-.
    simpl in Hp, Hs1 |- *. rewrite (proj2 (Z.eqb_neq x l1)) by lia. rewrite Hs1 by lia.
    apply split_part; try done; try lia.
    + unfold saturating_sub, saturating in Hge. simpl in Hge. lia.
    + unfold new, saturating_sub, saturating in *. simpl in *. lia.
    + specialize (Hsrc ltac:(lia)). unfold saturating_add, saturating in Hsrc. simpl in Hsrc. lia.
Qed.

Context (signers : gset Pubkey) (Hauth : forall k, k ∈ signers -> auth k).
Context (Hvb : stake_view b = Some (l2, StakeStateV2.Uninitialized)).

(** The states are written; the lamports are still to be moved. *)
Definition split_written (s : State) (tc tc' : TransactionContext) : Prop :=
  exists a' b' s1 s2, pair_change (index_of ia) (index_of ja) a a' b b' tc tc' /\
    stake_view a' = Some (l1, s1) /\ stake_view b' = Some (l2, s2) /\
    split_step auth ch x l1 l2 s (if x =? l1 then StakeStateV2.Uninitialized else s1) s2.

Lemma split_written_same_values s t tc tc' :
  same_values t tc -> split_written s tc tc' -> split_written s t tc'.
Proof.
  intros Hs (a' & b' & s1 & s2 & Hp & Hr). exists a', b', s1, s2. split; [|done]. by eapply pair_same_values.
Qed.

Lemma split_stake_written m s f tc tc' :
  index_of ia <> index_of ja ->
  account_at tc (index_of ia) = Some a -> account_at tc (index_of ja) = Some b ->
  stake_view a = Some (l1, StakeStateV2.Stake m s f) -> stake_state_wf (StakeStateV2.Stake m s f) ->
  split_stake env ic i j x l2 signers m s f tc = (Ok tt, tc') ->
  split_written (StakeStateV2.Stake m s f) tc tc'.
Proof.
  intros Hne Ha Hb Hva (Hm & Hd & _) Hr. unfold split_stake in Hr.
  next Hr. apply (check_staker auth signers Hauth) in Hq. next Hr. rewrite (co_clock _ _ Hch) in Hq0. injection Hq0 as <-.
  next Hr. unfold get_stake_status in Hq0. rewrite (co_history _ _ Hch), (co_rate _ _ Hch) in Hq0. injection Hq0 as <-.
  rewrite (co_minimum _ _ Hch) in Hr. apply bind_ok_inv in Hr as (info & t & Hval & Hr).
  apply validate_split_ok in Hval as [Hs Hval]; [|done..]. next Hr. next Hr. apply map_err_ok in Hq1.
  destruct x2 as [s1 s2]. eapply split_amounts_ok in Hq0; [|done..].
  apply bind_ok_inv in Hr as ([] & t' & H1 & H2). simpl in H1, H2. rewrite (vs_reserve _ _ _ _ Hval) in H2.
  eapply (write_scope i ia Hi a) in H1 as (a' & Hb1 & Hva'); [|by rewrite (proj2 Hs)|done].
  assert (pair_change (index_of ia) (index_of ja) a a' b b tc t') as Hp.
  { eapply pair_first; [|by eapply becomes_same_values]. by apply pair_refl. }
  eapply (write_scope j ja Hj b) in H2 as (b' & Hb2 & Hvb'); [|apply Hp|done].
  exists a', b', (StakeStateV2.Stake m s1 f), (StakeStateV2.Stake (with_reserve (new_reserve ch) m) s2 f).
  split_and!; [by eapply pair_second|done..].
Qed.

Lemma split_initialized_written m tc tc' :
  index_of ia <> index_of ja ->
  account_at tc (index_of ia) = Some a -> account_at tc (index_of ja) = Some b ->
  stake_view a = Some (l1, StakeStateV2.Initialized m) -> meta_wf m ->
  (lift (Authorized_check (authorized m) signers StakeAuthorize.Staker) ;?
   let? info := validate_split_amount env ic i j x m 0 false in
   borrowing (try_borrow_instruction_account ic j) (fun split =>
     set_state split (StakeStateV2.Initialized (with_reserve (destination_rent_exempt_reserve info) m)))) tc
  = (Ok tt, tc') ->
  split_written (StakeStateV2.Initialized m) tc tc'.
Proof.
  intros Hne Ha Hb Hva Hm Hr. next Hr. apply (check_staker auth signers Hauth) in Hq.
  apply bind_ok_inv in Hr as (info & t & Hval & Hr).
  apply validate_split_ok in Hval as [Hs [Hamt _ Hres Hsrc _ Hdst]]; [|done..]. rewrite Hres in Hr.
  eapply (write_scope j ja Hj b) in Hr as (b' & Hb2 & Hvb'); [|by rewrite (proj2 Hs)|done].
  exists a, b', (StakeStateV2.Initialized m), (StakeStateV2.Initialized (with_reserve (new_reserve ch) m)).
  split_and!; [|done..|].
  - eapply pair_second; [by apply pair_refl|by eapply becomes_same_values].
  - pose proof new_reserve_range as Hr'. unfold saturating_add, saturating_sub, saturating, meta_wf, in_range in *. simpl in *.
    apply split_initialized; [done|lia..].
Qed.

(** The lamports follow. *)
Abbreviation split_tail :=
  (borrowing (try_borrow_instruction_account ic i) (fun stake_account =>
     let? acc := query (borrowed stake_account) in
     if x =? acc_lamports acc then set_state stake_account StakeStateV2.Uninitialized else ret tt) ;?
   borrowing (try_borrow_instruction_account ic j) (fun split => checked_add_lamports split x) ;?
   borrowing (try_borrow_instruction_account ic i) (fun stake_account => checked_sub_lamports stake_account x)).

Lemma split_moved s t tc tc' delinquent :
  split_written s tc t -> stake_view a = Some (l1, s) ->
  split_tail t = (Ok tt, tc') ->
  machine_step auth ch delinquent tc tc'.
Proof.
  intros (a' & b' & s1 & s2 & Hp & Hva' & Hvb' & Hs) Hva Hr.
  apply bind_ok_inv in Hr as ([] & t1 & H1 & Hr). apply bind_ok_inv in Hr as ([] & t2 & H2 & H3).
  eapply (reset_scope i ia Hi a') in H1 as (a1 & Hb1 & Hv1); [|apply Hp|done].
  eapply pair_first in Hp; [|done].
  eapply (credit_scope j ja Hj b') in H2; [|apply Hp]. eapply pair_second in Hp; [|done].
  eapply (debit_scope i ia Hi a1) in H3 as [Hb3 Hv3]; [|apply Hp|done]. eapply pair_first in Hp; [|done].
  eapply split_stakes; [done|done|done|done| |done]. by apply credit_view.
Qed.

(** An account without a state only passes its lamports on. *)
Lemma split_passed t tc tc' key delinquent :
  same_values t tc -> get_key_of_account_at_index (index_of ia) t = Ok key -> auth key ->
  account_at tc (index_of ia) = Some a -> account_at tc (index_of ja) = Some b ->
  stake_view a = Some (l1, StakeStateV2.Uninitialized) ->
  split_tail tc = (Ok tt, tc') -> machine_step auth ch delinquent t tc'.
Proof.
  intros Hs Hkey Hak Ha Hb Hva Hr.
  apply bind_ok_inv in Hr as ([] & t4 & H1 & Hr). apply bind_ok_inv in Hr as ([] & t5 & H2 & H3).
  eapply (reset_scope i ia Hi a) in H1 as (a1 & Hb1 & Hv1); [|done..].
  assert (stake_view a1 = Some (l1, StakeStateV2.Uninitialized)) as Hva1 by (rewrite Hv1; by case_match).
  assert (exists b1, account_at t4 (index_of ja) = Some b1 /\
    stake_view b1 = Some (acc_lamports b1, StakeStateV2.Uninitialized)) as (b1 & Hb1' & Hvb1).
  { destruct (decide (index_of ja = index_of ia)) as [->|Hn].
    - exists a1. split; [apply Hb1|]. by rewrite (stake_view_lamports _ _ _ Hva1).
    - exists b. by rewrite (be_other _ _ _ _ _ Hb1). }
  eapply (credit_scope j ja Hj b1) in H2; [|done].
  assert (exists l a2, account_at t5 (index_of ia) = Some a2 /\
    stake_view a2 = Some (l, StakeStateV2.Uninitialized)) as (l & a2 & Ha2 & Hva2).
  { destruct (decide (index_of ia = index_of ja)) as [->|Hn].
    - eexists _, _. split; [apply H2|by apply credit_view].
    - exists l1, a1. rewrite (be_other _ _ _ _ _ H2) by done. split; [apply Hb1|done]. }
  eapply (debit_scope i ia Hi a2) in H3 as [Hb3 _]; [|done..].
  eapply (pass_lamports _ _ _ _ _ (index_of ia) (index_of ja) a a1 b1 a2 x l1 l key t4 t5); try done.
  by eapply becomes_same_values.
Qed.

End split.

(** The destination of a split, and the source, as they are read. *)
Lemma split_destination_ok j tc l2 tc' :
  (forall k b, account_at tc k = Some b -> in_range U64 (acc_lamports b)) ->
  borrowing (try_borrow_instruction_account ic j) (fun split =>
    let? acc := query (borrowed split) in
    if bool_decide (acc_owner acc <> stake_program_id) then fail IncorrectProgramId else
    if negb (vec_len (acc_data acc) =? StakeStateV2.size_of) then fail InvalidAccountData else
    let? state := get_state split in
    match state with
    | StakeStateV2.Uninitialized => ret (acc_lamports acc)
    | _ => fail InvalidAccountData
    end) tc = (Ok l2, tc') ->
  same_values tc tc' /\ exists ja b, vec_get (instruction_accounts ic) j = Some ja /\
    account_at tc (index_of ja) = Some b /\ vec_len (acc_data b) = StakeStateV2.size_of /\
    in_range U64 (acc_lamports b) /\ l2 = acc_lamports b /\ stake_view b = Some (l2, StakeStateV2.Uninitialized).
Proof.
  intros Hbal (ja & t1 & t2 & Hj & Hs1 & Hr & Hs2)%scope_inv.
  next Hr. apply borrowed_account_at in Hq. simpl in Hq. case_bool_decide as Ho; [done|].
  destruct (Z.eqb_spec (vec_len (acc_data x)) StakeStateV2.size_of) as [Hlen|]; [|done]. simpl in Hr.
  pose proof Hq as Hb. rewrite (proj2 Hs1) in Hb. pose proof (Hbal _ _ Hb) as Hl.
  assert (stake_account (instruction_handle_of ic j ja) x t1) as Hsb.
  { split; [done| |done]. by destruct (decide (acc_owner x = stake_program_id)). }
  read Hr Hsb sb. apply ret_ok_inv in Hr as [-> ->].
  split; [by etransitivity|]. by exists ja, x.
Qed.

Lemma split_source_ok i ia a x tc s tc' :
  vec_get (instruction_accounts ic) i = Some ia -> stake_account (instruction_handle_of ic i ia) a tc ->
  borrowing (try_borrow_instruction_account ic i) (fun stake_account =>
    let? acc := query (borrowed stake_account) in
    if acc_lamports acc <? x then fail InsufficientFunds else get_state stake_account) tc = (Ok s, tc') ->
  same_values tc tc' /\ x <= acc_lamports a /\ stake_view a = Some (acc_lamports a, s) /\ stake_state_wf s.
Proof.
  intros Hi Hsa (ia' & t1 & t2 & Hi' & Hs1 & Hr & Hs2)%scope_inv. rewrite Hi in Hi'. injection Hi' as <-.
  eapply stake_account_same_values in Hsa; [|done]. next Hr. same_account Hsa Hq.
  destruct (Z.ltb_spec (acc_lamports a) x); [done|].
  eapply get_state_view in Hr as [-> Hv]; [|apply Hsa..]. split_and!; [by etransitivity|done..|].
  apply stake_view_Some in Hv as (_ & Hd & _). by apply bincode_deserialize_wf in Hd.
Qed.

Lemma split_of_machine i j ia a x signers tc tc' delinquent :
  vec_get (instruction_accounts ic) i = Some ia -> stake_account (instruction_handle_of ic i ia) a tc -> 0 <= x ->
  (forall k, k ∈ signers -> auth k) ->
  (forall k b, account_at tc k = Some b -> in_range U64 (acc_lamports b)) ->
  split env ic i x j signers tc = (Ok tt, tc') -> machine_step auth ch delinquent tc tc'.
Proof.
  intros Hi Hsa Hx Hauth Hbal Hr. unfold split in Hr.
  apply bind_ok_inv in Hr as (l2 & t1 & H1 & Hr).
  apply split_destination_ok in H1 as (Hs1 & ja & b & Hj & Hb & Hlen & Hlb & -> & Hvb); [|done].
  apply bind_ok_inv in Hr as (s & t2 & H1 & Hr).
  eapply split_source_ok in H1 as (Hs2 & Hxl & Hva & Hwf); [|done|by eapply stake_account_same_values].
  assert (same_values tc t2) as Hs by by etransitivity.
  pose proof (sa_at _ _ _ Hsa) as Ha. simpl in Ha. pose proof (sa_lamports _ _ _ Hsa) as Hla.
  assert (s <> StakeStateV2.Uninitialized -> index_of ia <> index_of ja) as Hne.
  { intros Hn Heq. rewrite Heq, Hb in Ha. injection Ha as ->. rewrite Hvb in Hva. by injection Hva as <-. }
  rewrite <- (proj2 Hs) in Ha, Hb.
  apply bind_ok_inv in Hr as ([] & t3 & H1 & Hr). destruct s as [|m|m s f|]; [| | |done].
  - next H1. case_bool_decide as Hk; [done|]. apply ret_ok_inv in H1 as [_ ->].
    rewrite (key_of_same_values tc i t2), (key_of_handle i ia) in Hq by done.
    eapply (split_passed i j ia ja Hi Hj a b x); try done. apply Hauth. by destruct (decide (x0 ∈ signers)).
  - eapply (split_moved i j ia ja Hi Hj a b x); [..|exact Hr]; try done.
    eapply split_written_same_values; [done|]. eapply split_initialized_written; try done. by apply Hne.
  - eapply (split_moved i j ia ja Hi Hj a b x); [..|exact Hr]; try done.
    eapply split_written_same_values; [done|]. eapply split_stake_written; try done. by apply Hne.
Qed.

(** ** Merging *)

(** What the kind of an account says of its state. *)
Definition kind_of (s : State) (l : Z) (k : MergeKind) : Prop :=
  match k with
  | Inactive m l' _ => StakeStateV2.meta s = Some m /\ l' = l /\
                       effective_now ch <$> StakeStateV2.delegation s ∈ [None; Some 0]
  | ActivationEpoch m st f => s = StakeStateV2.Stake m st f /\ effective_now ch (delegation st) = 0
  | FullyActive m st => exists f, s = StakeStateV2.Stake m st f /\ effective_now ch (delegation st) <> 0
  end.

Lemma get_if_mergeable_ok s l k :
  get_if_mergeable env s l (ch_clock ch) (ch_history ch) = Ok k -> kind_of s l k.
Proof.
  unfold get_if_mergeable. destruct s as [|m|m st f|]; try done.
  - intros [= <-]. split_and!; [done..|]. set_solver.
  - rewrite (co_rate _ _ Hch). cbn [outcome_bind].
    destruct (Z.eqb_spec (effective (stake_activating_and_deactivating (ch_history ch) (ch_rate_epoch ch) (delegation st)
      (clock_epoch (ch_clock ch)))) 0) as [He|He]; destruct (_ && _); intros [= <-].
    + split_and!; [done..|]. simpl. unfold effective_now, effective_stake. rewrite He. set_solver.
    + done.
    + by exists f.
Qed.

Lemma kind_of_meta s l k : kind_of s l k -> StakeStateV2.meta s = Some (MergeKind_meta k).
Proof. destruct k; simpl; [by intros (? & _)|by intros [-> _]|by intros (f & -> & _)]. Qed.

Lemma metas_can_merge_ok m1 m2 u :
  metas_can_merge m1 m2 (ch_clock ch) = Ok u ->
  authorized m1 = authorized m2 /\
  (lockup m1 = lockup m2 \/
   is_in_force (lockup m1) (ch_clock ch) None = false /\ is_in_force (lockup m2) (ch_clock ch) None = false).
Proof.
  unfold metas_can_merge. destruct (_ && _) eqn:H; [|done]. intros _. apply andb_true_iff in H as [H1 H2].
  apply bool_decide_eq_true in H1. split; [done|]. apply orb_true_iff in H2 as [H2|H2]; [left|right].
  - by apply bool_decide_eq_true in H2.
  - apply andb_true_iff in H2 as [H2 H3]. by apply negb_true_iff in H2, H3.
Qed.

Lemma delegations_can_merge_ok s t u :
  active_delegations_can_merge (delegation s) (delegation t) = Ok u ->
  voter_pubkey (delegation s) = voter_pubkey (delegation t) /\ going s /\ going t.
Proof.
  unfold active_delegations_can_merge, going. case_bool_decide as Hv; [done|]. destruct (_ && _) eqn:H; [|done].
  intros _. apply andb_true_iff in H as [H1 H2]. apply Z.eqb_eq in H1, H2. split; [|done].
  by destruct (decide (voter_pubkey (delegation s) = voter_pubkey (delegation t))).
Qed.

Lemma merge_delegation_ok s absorbed credits s' :
  merge_delegation_stake_and_credits_observed s absorbed credits = Ok s' -> s' = merged_stake s absorbed credits.
Proof.
  unfold merge_delegation_stake_and_credits_observed. intros Hr.
  apply outcome_bind_ok in Hr as (c & Hc & Hr). apply outcome_bind_ok in Hr as (t & Ht & Hr). injection Hr as <-.
  apply ok_or_ok in Hc, Ht. apply checked_Some in Ht as [-> _].
  unfold merged_stake. f_equal. unfold average_credits. unfold stake_weighted_credits_observed in Hc.
  destruct (Z.eqb_spec (credits_observed s) credits); [by injection Hc as <-|].
  repeat match type of Hc with
  | _ ≫= _ = Some _ => let y := fresh "y" in let H := fresh "H" in
      apply bind_Some in Hc as (y & H & Hc); apply checked_Some in H as [-> _]
  end.
  destruct (_ =? 0); [done|]. by apply checked_Some in Hc as [-> _].
Qed.

Lemma MergeKind_merge_ok l1 l2 s1 s2 k1 k2 r :
  kind_of s1 l1 k1 -> kind_of s2 l2 k2 -> auth (staker (authorized (MergeKind_meta k1))) ->
  MergeKind_merge k1 k2 (ch_clock ch) = Ok r ->
  mergeable auth ch s1 s2 /\ merge_step ch l1 l2 s1 s2 (default s1 r).
Proof.
  intros Hk1 Hk2 Hau Hr. unfold MergeKind_merge in Hr.
  apply outcome_bind_ok in Hr as (u & Hm & Hr). apply metas_can_merge_ok in Hm as [Hsame Hlock].
  apply outcome_bind_ok in Hr as (u' & Hact & Hr).
  split; [eexists _, _; split_and!; [by eapply kind_of_meta|by eapply kind_of_meta|done..]|].
  destruct k1 as [m1 la1 f1|m1 st1 f1|m1 st1], k2 as [m2 la2 f2|m2 st2 f2|m2 st2]; simpl in Hact, Hr, Hk1, Hk2; try done.
  - injection Hr as <-. apply merge_inactive, Hk1.
  - injection Hr as <-. apply merge_inactive, Hk1.
  - apply outcome_bind_ok in Hr as (t & Ht & Hr). injection Hr as <-. apply ok_or_ok, checked_Some in Ht as [-> _].
    destruct Hk1 as [-> He], Hk2 as (_ & -> & He2). by eapply merge_funds.
  - apply outcome_bind_ok in Hr as (t & Ht & Hr). apply ok_or_ok, checked_Some in Ht as [-> _].
    apply outcome_bind_ok in Hr as (t & Ht & Hr). injection Hr as <-. apply merge_delegation_ok in Ht as ->.
    apply delegations_can_merge_ok in Hact as (Hv & Hg1 & Hg2).
    destruct Hk1 as [-> He], Hk2 as [-> He2]. by eapply merge_activating.
  - apply outcome_bind_ok in Hr as (t & Ht & Hr). injection Hr as <-. apply merge_delegation_ok in Ht as ->.
    apply delegations_can_merge_ok in Hact as (Hv & Hg1 & Hg2).
    destruct Hk1 as (f1 & -> & He), Hk2 as (f2 & -> & He2). by eapply merge_active.
Qed.

(** The state is written, and the source drained. *)
Lemma merge_drained i j ia ja a b l1 l2 s1 s2 r tc tc' delinquent :
  index_of ia <> index_of ja ->
  account_at tc (index_of ia) = Some a -> account_at tc (index_of ja) = Some b ->
  stake_view a = Some (l1, s1) -> stake_view b = Some (l2, s2) ->
  mergeable auth ch s1 s2 -> merge_step ch l1 l2 s1 s2 (default s1 r) ->
  (match r with
   | Some merged_state => set_state (instruction_handle_of ic i ia) merged_state
   | None => ret tt
   end ;?
   set_state (instruction_handle_of ic j ja) StakeStateV2.Uninitialized ;?
   let? source := query (borrowed (instruction_handle_of ic j ja)) in
   checked_sub_lamports (instruction_handle_of ic j ja) (acc_lamports source) ;?
   checked_add_lamports (instruction_handle_of ic i ia) (acc_lamports source)) tc = (Ok tt, tc') ->
  machine_step auth ch delinquent tc tc'.
Proof.
  intros Hne Ha Hb Hva Hvb Hm Hstep Hr. apply bind_ok_inv in Hr as ([] & t1 & H1 & Hr).
  assert (exists a', becomes (index_of ia) a a' tc t1 /\ stake_view a' = Some (l1, default s1 r)) as (a' & Hb1 & Hva').
  { destruct r as [s|].
    - eapply set_state_view in H1 as (a' & Hb1 & Hv' & _); [by exists a'|done|done].
    - apply ret_ok_inv in H1 as [_ ->]. exists a. split; [by apply becomes_refl|done]. }
  pose proof (pair_first _ _ _ _ _ _ _ _ _ _ (pair_refl _ _ _ _ _ Hne Ha Hb) Hb1) as Hp.
  apply bind_ok_inv in Hr as ([] & t2 & H2 & Hr).
  eapply set_state_view in H2 as (b1 & Hb2 & Hvb1 & _); [|apply Hp|done]. eapply pair_second in Hp; [|done].
  next Hr. apply borrowed_account_at in Hq. rewrite (be_after _ _ _ _ _ Hb2) in Hq. injection Hq as <-.
  apply bind_ok_inv in Hr as ([] & t3 & H3 & Hr). rewrite (stake_view_lamports _ _ _ Hvb1) in *.
  eapply debit_view in H3 as (Hb3 & Hvb3 & _); [|apply Hb2|done]. eapply pair_second in Hp; [|done].
  eapply credit_becomes in Hr; [|apply Hp]. eapply pair_first in Hp; [|done].
  eapply merge_stakes; [done|done|done| |rewrite Hvb3; by rewrite Z.sub_diag|done..]. by apply credit_view.
Qed.

Lemma machine_step_same_values delinquent t tc tc' t' :
  same_values t tc -> machine_step auth ch delinquent tc tc' -> same_values tc' t' -> machine_step auth ch delinquent t t'.
Proof.
  intros H1 Hm H2. assert (forall k, get_key_of_account_at_index k t = get_key_of_account_at_index k tc) as Hkey.
  { intros k. unfold get_key_of_account_at_index. by rewrite (sf_keys _ _ (proj1 H1)). }
  destruct Hm.
  - apply no_step. intros k. by rewrite (proj2 H2), <- (proj2 H1).
  - eapply update; [by eapply becomes_same_values|done..].
  - eapply split_stakes; [by eapply pair_same_values|done..].
  - eapply merge_stakes; [by eapply pair_same_values|done..].
  - eapply redelegate_stakes; [by eapply pair_same_values|done..].
  - eapply withdraw_lamports; [eapply becomes_same_values; [done|done|reflexivity]
      |eapply becomes_same_values; [reflexivity|done..]|done|done| |done].
    match goal with H : withdraw_step _ _ _ _ _ _ |- _ => destruct H end; [|by constructor..]. by eapply withdraw_uninitialized; [rewrite Hkey|].
  - eapply pass_lamports; [eapply becomes_same_values; [done|done|reflexivity]|done
      |eapply becomes_same_values; [reflexivity|done..]|by rewrite Hkey|done..].
Qed.

Lemma merge_of_machine i j ia a signers tc tc' delinquent :
  vec_get (instruction_accounts ic) i = Some ia -> stake_account (instruction_handle_of ic i ia) a tc ->
  (forall k, k ∈ signers -> auth k) ->
  (forall k b, account_at tc k = Some b -> in_range U64 (acc_lamports b)) ->
  merge env ic i j (ch_clock ch) (ch_history ch) signers tc = (Ok tt, tc') -> machine_step auth ch delinquent tc tc'.
Proof.
  intros Hi Hsa Hauth Hbal Hr. unfold merge in Hr.
  apply scope_inv in Hr as (ja & t1 & t2 & Hj & Hs1 & Hr & Hs2). next Hr. rename x into b.
  apply borrowed_account_at in Hq. simpl in Hq. pose proof Hq as Hb. rewrite (proj2 Hs1) in Hb.
  case_bool_decide as Ho; [done|]. next Hr. next Hr.
  unfold get_index_of_instruction_account_in_transaction in Hq0, Hq1. rewrite Hi in Hq0. rewrite Hj in Hq1.
  injection Hq0 as <-. injection Hq1 as <-. destruct (Z.eqb_spec (index_of ia) (index_of ja)) as [|Hne]; [done|].
  apply scope_inv in Hr as (ia' & t3 & t4 & Hi' & Hs3 & Hr & Hs4). rewrite Hi in Hi'. injection Hi' as <-.
  assert (same_values tc t3) as Hs by by etransitivity.
  assert (stake_account (instruction_handle_of ic i ia) a t3) as Hsa3 by by eapply stake_account_same_values.
  assert (stake_account (instruction_handle_of ic j ja) b t3) as Hsb.
  { split; simpl; [by rewrite (proj2 Hs)| |by eapply Hbal]. by destruct (decide (acc_owner b = stake_program_id)). }
  eapply read_state in Hr as (s1 & Hv1 & _ & Hr); [|done]. next Hr. same_account Hsa3 Hq0.
  next Hr. apply get_if_mergeable_ok in Hq0. next Hr. apply (check_staker auth signers Hauth) in Hq1.
  eapply read_state in Hr as (s2 & Hv2 & _ & Hr); [|done]. next Hr. apply get_if_mergeable_ok in Hq2.
  next Hr. eapply MergeKind_merge_ok in Hq3 as [Hm Hstep]; [|done..].
  eapply machine_step_same_values; [exact Hs| |etransitivity; [exact Hs4|exact Hs2]].
  eapply merge_drained; [exact Hne|apply Hsa3|apply Hsb|done..].
Qed.

(** ** Redelegating *)

Lemma redelegated_stake_ok ba a voter tc r tc' :
  stake_account ba a tc -> redelegated_stake env ba (ch_clock ch) voter tc = (Ok r, tc') ->
  tc' = tc /\ exists s f, stake_view a = Some (acc_lamports a, StakeStateV2.Stake (fst r) s f) /\
    meta_wf (fst r) /\ snd r = effective_now ch (delegation s) /\ snd r <> 0 /\ voter <> voter_pubkey (delegation s).
Proof.
  intros Hsa Hr. unfold redelegated_stake in Hr. read Hr Hsa s. next Hr.
  unfold get_stake_status in Hq. rewrite (co_history _ _ Hch), (co_rate _ _ Hch) in Hq. injection Hq as <-.
  destruct (_ || _ || _) eqn:He; [done|]. case_bool_decide as Hv; [done|]. apply ret_ok_inv in Hr as [-> ->].
  split; [done|]. exists stake, stake_flags. simpl. apply orb_false_iff in He as [He _]. apply orb_false_iff in He as [He _].
  apply Z.eqb_neq in He. split_and!; try done; apply Hwf.
Qed.

(** A deactivation by the staker, as the account has it afterwards. *)
Lemma deactivate_view ba a l m s f signers tc tc' :
  (forall k, k ∈ signers -> auth k) -> account_at tc (ba_index_in_transaction ba) = Some a ->
  stake_view a = Some (l, StakeStateV2.Stake m s f) ->
  deactivate env ba (ch_clock ch) signers tc = (Ok tt, tc') ->
  auth (staker (authorized m)) /\ going s /\ exists a' f', becomes (ba_index_in_transaction ba) a a' tc tc' /\
    stake_view a' = Some (l, StakeStateV2.Stake m
      (with_delegation (with_deactivation_epoch (clock_epoch (ch_clock ch)) (delegation s)) s) f').
Proof.
  intros Hauth Ha Hv Hr. unfold deactivate in Hr. apply bind_ok_inv in Hr as (s' & t & Hg & Hr).
  eapply get_state_view in Hg as [-> Hv']; [|done|by apply stake_view_Some in Hv as (? & _)].
  rewrite Hv in Hv'. injection Hv' as _ <-. next Hr. next Hr.
  apply (check_staker auth signers Hauth) in Hq. apply deactivate_stake_ok in Hq0 as [Hg He]. rewrite He in Hr.
  eapply set_state_view in Hr as (a' & Hb & Hva' & _); [|done..]. split_and!; [done..|]. by eexists _, _.
Qed.

Lemma credit_in_range ba a x tc tc' :
  account_at tc (ba_index_in_transaction ba) = Some a -> checked_add_lamports ba x tc = (Ok tt, tc') ->
  becomes (ba_index_in_transaction ba) a (credit x a) tc tc' /\ in_range U64 (acc_lamports (credit x a)).
Proof.
  intros Ha Hr. split; [by apply credit_becomes|]. apply checked_add_lamports_changed in Hr as (b & Hch' & Hl & _).
  pose proof (ch_before _ _ _ _ _ Hch') as Hb. rewrite Ha in Hb. by injection Hb as <-.
Qed.

Section redelegate.
Context (signers : gset Pubkey) (Hauth : forall k, k ∈ signers -> auth k).

(** What is done once the accounts are checked. *)
Lemma redelegate_moved ba bb a b e m s f voter vote tc tc' delinquent :
  account_at tc (ba_index_in_transaction ba) = Some a -> account_at tc (ba_index_in_transaction bb) = Some b ->
  stake_view a = Some (acc_lamports a, StakeStateV2.Stake m s f) ->
  stake_view b = Some (acc_lamports b, StakeStateV2.Uninitialized) ->
  vec_len (acc_data b) = StakeStateV2.size_of -> in_range U64 (acc_lamports b) ->
  meta_wf m -> e = effective_now ch (delegation s) -> e <> 0 -> voter <> voter_pubkey (delegation s) ->
  (deactivate env ba (ch_clock ch) signers ;?
   checked_sub_lamports ba e ;?
   checked_add_lamports bb e ;?
   let? rent := lift (get_rent (env_sysvar_cache env)) in
   let? acc := query (borrowed bb) in
   let uninitialized_stake_meta := with_reserve (minimum_balance rent (vec_len (acc_data acc))) m in
   let? stake_amount := lift (validate_delegated_amount acc uninitialized_stake_meta (env_feature_set env)) in
   set_state bb
     (StakeStateV2.Stake uninitialized_stake_meta
        (new_stake stake_amount voter (convert_to_current vote) (clock_epoch (ch_clock ch)))
        StakeFlags.MUST_FULLY_ACTIVATE_BEFORE_DEACTIVATION_IS_PERMITTED)) tc = (Ok tt, tc') ->
  machine_step auth ch delinquent tc tc'.
Proof.
  intros Ha Hb Hva Hvb Hlen Hlb Hm He Hne Hvoter Hr.
  assert (ba_index_in_transaction ba <> ba_index_in_transaction bb) as Hij.
  { intros Heq. rewrite Heq, Hb in Ha. injection Ha as ->. by rewrite Hvb in Hva. }
  pose proof (pair_refl _ _ _ _ _ Hij Ha Hb) as Hp.
  apply bind_ok_inv in Hr as ([] & t1 & H1 & Hr).
  eapply deactivate_view in H1 as (Hst & Hg & a1 & f1 & Hb1 & Hv1); [|done..]. eapply pair_first in Hp; [|done].
  apply bind_ok_inv in Hr as ([] & t2 & H1 & Hr).
  eapply debit_view in H1 as (Hb2 & Hv2 & _); [|apply Hp|done]. eapply pair_first in Hp; [|done].
  apply bind_ok_inv in Hr as ([] & t3 & H1 & Hr). eapply credit_in_range in H1 as [Hb3 Hrange]; [|apply Hp]. eapply pair_second in Hp; [|done].
  next Hr. rewrite (co_rent _ _ Hch) in Hq. injection Hq as <-. next Hr.
  apply borrowed_account_at in Hq. rewrite (be_after _ _ _ _ _ Hb3) in Hq. injection Hq as <-.
  cbv zeta in Hr. cbn [acc_data credit account_set_lamports] in Hr. rewrite Hlen in Hr.
  next Hr. eapply validate_delegated_amount_ok in Hq as [-> Hmin]; [|done|done|apply minimum_balance_range].
  eapply set_state_view in Hr as (b' & Hb4 & Hv4 & _); [|apply Hb3|by apply credit_view].
  eapply pair_second in Hp; [|done].
  eapply redelegate_stakes; [exact Hp|exact Hva|exact Hvb|exact Hv2|exact Hv4|]. by apply redelegate_active.
Qed.

Lemma redelegate_of_machine ba a j v tc tc' delinquent :
  stake_account ba a tc ->
  (forall k b, account_at tc k = Some b -> in_range U64 (acc_lamports b)) ->
  redelegate env ic ba j v signers tc = (Ok tt, tc') -> machine_step auth ch delinquent tc tc'.
Proof.
  intros Hsa Hbal Hr. unfold redelegate in Hr. next Hr. rewrite (co_clock _ _ Hch) in Hq. injection Hq as <-.
  apply scope_inv in Hr as (ja & t1 & t2 & Hj & Hs1 & Hr & Hs2). next Hr. rename x into b.
  apply borrowed_account_at in Hq. simpl in Hq. pose proof Hq as Hb. rewrite (proj2 Hs1) in Hb.
  case_bool_decide as Ho; [done|].
  destruct (Z.eqb_spec (vec_len (acc_data b)) StakeStateV2.size_of) as [Hlen|]; [|done]. simpl in Hr.
  assert (stake_account (instruction_handle_of ic j ja) b t1) as Hsb.
  { split; [done| |by eapply Hbal]. by destruct (decide (acc_owner b = stake_program_id)). }
  read Hr Hsb sb. next Hr.
  apply scope_inv in Hr as (va & t3 & t4 & _ & Hs3 & Hr & Hs4). assert (same_values tc t3) as Hs by by etransitivity.
  next Hr. case_bool_decide; [done|]. next Hr. apply bind_ok_inv in Hr as (vote & t & Hg & Hr).
  apply get_state_ok in Hg as [-> _]. apply bind_ok_inv in Hr as ([m e] & t & Hrs & Hr).
  eapply redelegated_stake_ok in Hrs as (-> & s & f & Hva & Hm & He & Hne & Hvoter); [|by eapply stake_account_same_values].
  eapply machine_step_same_values; [exact Hs| |etransitivity; [exact Hs4|exact Hs2]].
  eapply (redelegate_moved ba (instruction_handle_of ic j ja)); try done; simpl.
  - rewrite (proj2 Hs). apply Hsa.
  - by rewrite (proj2 Hs).
  - by eapply Hbal.
Qed.

End redelegate.

End transfers.
