(* ===== verification/StakeCodec.v ===== *)
(** * A concrete layout

    The encodings of integers, floats and addresses as they are documented:
    little-endian two's complement, the bits of IEEE 754, the bytes.  With them
    the laws that [StakeBorsh] and the stake program ask of the encoders are
    theorems, and the definitions can be run on bytes. *)

From S2P Require Import Prelude Errors Rent Account Pubkey Sysvars Nonce StakeState StakeBorsh Effects VoteAuthority StakeProgram StakeMachine StakeSteps.

(** ** The bits of a float *)

Definition sign_bit (s : bool) : Z := if s then 2 ^ 63 else 0.

Definition f64_bits (x : F64.f64) : Z :=
  match x with
  | SpecFloat.S754_zero s => sign_bit s
  | SpecFloat.S754_infinity s => sign_bit s + 2047 * 2 ^ 52
  | SpecFloat.S754_nan => 2047 * 2 ^ 52 + 2 ^ 51
  | SpecFloat.S754_finite s m e =>
      sign_bit s + if Zpos m <? 2 ^ 52 then Zpos m else (e + 1075) * 2 ^ 52 + (Zpos m - 2 ^ 52)
  end.

Definition f64_of_bits (z : Z) : F64.f64 :=
  let s := 2 ^ 63 <=? z in
  let exponent := z mod 2 ^ 63 / 2 ^ 52 in
  let mantissa := z mod 2 ^ 52 in
  if exponent =? 0 then
    match mantissa with Zpos m => SpecFloat.S754_finite s m (-1074) | _ => SpecFloat.S754_zero s end
  else if exponent =? 2047 then if mantissa =? 0 then SpecFloat.S754_infinity s else SpecFloat.S754_nan
  else match mantissa + 2 ^ 52 with Zpos m => SpecFloat.S754_finite s m (exponent - 1075) | _ => SpecFloat.S754_nan end.

(** The finite floats: normal, or subnormal with the least exponent. *)
Definition f64_value (x : F64.f64) : Prop :=
  match x with
  | SpecFloat.S754_finite _ m e => 2 ^ 52 <= Zpos m < 2 ^ 53 /\ -1074 <= e <= 971 \/ Zpos m < 2 ^ 52 /\ e = -1074
  | _ => True
  end.

Lemma f64_fields s exponent mantissa :
  0 <= exponent < 2048 -> 0 <= mantissa < 2 ^ 52 ->
  let z := sign_bit s + (exponent * 2 ^ 52 + mantissa) in
  (2 ^ 63 <=? z) = s /\ z mod 2 ^ 63 / 2 ^ 52 = exponent /\ z mod 2 ^ 52 = mantissa.
Proof.
  intros He Hm. cbv zeta. unfold sign_bit.
  assert (z_low : forall k, (k * 2 ^ 52 + mantissa) mod 2 ^ 52 = mantissa).
  { intros k. rewrite Z.add_comm, Z.mod_add, Z.mod_small; lia. }
  split_and!.
  - destruct s; [apply Z.leb_le|apply Z.leb_gt]; lia.
  - assert ((if s then 2 ^ 63 else 0) + (exponent * 2 ^ 52 + mantissa) = exponent * 2 ^ 52 + mantissa + (if s then 1 else 0) * 2 ^ 63) as ->
      by (destruct s; lia).
    rewrite Z.mod_add, Z.mod_small by lia. rewrite Z.div_add_l, Z.div_small; lia.
  - destruct s; [|apply z_low]. rewrite <- (z_low (exponent + 2 ^ 11)) at 2. f_equal. lia.
Qed.

Lemma f64_bits_range x : f64_value x -> in_range U64 (f64_bits x).
Proof.
  unfold in_range. cbn [int_min int_max U64].
  destruct x as [s|s| |s m e]; cbn [f64_bits f64_value]; unfold sign_bit; try (destruct s; lia); [lia|].
  intros Hv. destruct (Z.ltb_spec (Zpos m) (2 ^ 52)); destruct s; lia.
Qed.

Lemma f64_of_bits_bits x : f64_value x -> f64_of_bits (f64_bits x) = x.
Proof.
  assert (forall s exponent mantissa, 0 <= exponent < 2048 -> 0 <= mantissa < 2 ^ 52 ->
    f64_of_bits (sign_bit s + (exponent * 2 ^ 52 + mantissa)) =
    if exponent =? 0 then match mantissa with Zpos m => SpecFloat.S754_finite s m (-1074) | _ => SpecFloat.S754_zero s end
    else if exponent =? 2047 then if mantissa =? 0 then SpecFloat.S754_infinity s else SpecFloat.S754_nan
    else match mantissa + 2 ^ 52 with Zpos m => SpecFloat.S754_finite s m (exponent - 1075) | _ => SpecFloat.S754_nan end) as Hf.
  { intros s ex ma He Hm. destruct (f64_fields s ex ma He Hm) as (H1 & H2 & H3). unfold f64_of_bits. by rewrite H1, H2, H3. }
  destruct x as [s|s| |s m e]; cbn [f64_bits f64_value]; intros Hv.
  - replace (sign_bit s) with (sign_bit s + (0 * 2 ^ 52 + 0)) by lia. by rewrite Hf by lia.
  - replace (2047 * 2 ^ 52) with (2047 * 2 ^ 52 + 0) by lia. by rewrite Hf by lia.
  - done.
  - destruct (Z.ltb_spec (Zpos m) (2 ^ 52)) as [Hlt|Hge].
    + change (Zpos m) with (0 * 2 ^ 52 + Zpos m) at 1. rewrite Hf by lia. cbn [Z.eqb]. f_equal. lia.
    + rewrite Hf by lia.
      destruct (Z.eqb_spec (e + 1075) 0); [lia|]. destruct (Z.eqb_spec (e + 1075) 2047); [lia|].
      rewrite Z.sub_add. f_equal. lia.
Qed.

Lemma f64_of_bits_value z : in_range U64 z -> f64_value (f64_of_bits z).
Proof.
  intros Hz. unfold in_range in Hz. cbn [int_min int_max U64] in Hz. unfold f64_of_bits.
  pose proof (Z.mod_pos_bound z (2 ^ 52) ltac:(lia)). pose proof (Z.mod_pos_bound z (2 ^ 63) ltac:(lia)) as Hp.
  assert (0 <= z mod 2 ^ 63 / 2 ^ 52 < 2048) as He.
  { split; [apply Z.div_pos; lia|]. apply Z.div_lt_upper_bound; lia. }
  destruct (Z.eqb_spec (z mod 2 ^ 63 / 2 ^ 52) 0) as [|H0]; [destruct (z mod 2 ^ 52) eqn:Hm; simpl; try done; lia|].
  destruct (Z.eqb_spec (z mod 2 ^ 63 / 2 ^ 52) 2047) as [|H1]; [by destruct (_ =? 0)|].
  destruct (z mod 2 ^ 52 + 2 ^ 52) eqn:Hm; cbn [f64_value]; try done. left. lia.
Qed.

Lemma f64_bits_of_bits z :
  in_range U64 z -> f64_number (f64_of_bits z) -> f64_bits (f64_of_bits z) = z.
Proof.
  intros Hz. unfold in_range in Hz. cbn [int_min int_max U64] in Hz. unfold f64_of_bits, f64_number.
  pose proof (Z.mod_pos_bound z (2 ^ 52) ltac:(lia)) as Hm. pose proof (Z.mod_pos_bound z (2 ^ 63) ltac:(lia)) as Hp.
  assert (z = sign_bit (2 ^ 63 <=? z) + z mod 2 ^ 63) as Hs.
  { unfold sign_bit. destruct (Z.leb_spec (2 ^ 63) z); [|rewrite Z.mod_small; lia].
    rewrite <- (Z.mod_add z (-1) (2 ^ 63)), Z.mod_small by lia. lia. }
  assert (z mod 2 ^ 63 = z mod 2 ^ 63 / 2 ^ 52 * 2 ^ 52 + z mod 2 ^ 52) as Hr.
  { rewrite (Z.div_mod (z mod 2 ^ 63) (2 ^ 52)) at 1 by lia. f_equal; [lia|].
    rewrite Z.mod_mod_divide; [done|]. by exists (2 ^ 11). }
  assert (0 <= z mod 2 ^ 63 / 2 ^ 52) as He by (apply Z.div_pos; lia).
  set (ex := z mod 2 ^ 63 / 2 ^ 52) in *. set (ma := z mod 2 ^ 52) in *. set (s := 2 ^ 63 <=? z) in *. clearbody ex ma s.
  destruct (Z.eqb_spec ex 0) as [->|H0].
  { destruct ma as [|m|m]; cbn [f64_bits]; [lia| |lia]. intros _. destruct (Z.ltb_spec (Zpos m) (2 ^ 52)); lia. }
  destruct (Z.eqb_spec ex 2047) as [->|H1].
  { destruct (Z.eqb_spec ma 0) as [->|]; [|done]. intros _. cbn [f64_bits]. lia. }
  destruct (ma + 2 ^ 52) as [|m|m] eqn:Hq; [lia| |lia]. intros _. cbn [f64_bits].
  destruct (Z.ltb_spec (Zpos m) (2 ^ 52)); lia.
Qed.

(** ** Fixed numbers of bytes *)

Lemma split_bytes_inv n bs b rest : split_bytes n bs = Some (b, rest) -> bs = b ++ rest /\ length b = n.
Proof.
  unfold split_bytes. destruct (Nat.leb_spec n (length bs)); [|done]. intros [= <- <-]. rewrite take_drop. split; [done|].
  rewrite length_take. lia.
Qed.

Definition read_fixed (n : nat) (bs : Bytes) : option (Bytes * Bytes) :=
  '(b, rest) ← split_bytes n bs; if bool_decide (Forall is_byte b) then Some (b, rest) else None.

Lemma read_fixed_app n b rest : length b = n -> Forall is_byte b -> read_fixed n (b ++ rest) = Some (b, rest).
Proof. intros Hn Hb. unfold read_fixed. rewrite split_bytes_app by done. cbn. by rewrite bool_decide_true. Qed.

Lemma read_fixed_inv n bs b rest :
  read_fixed n bs = Some (b, rest) -> bs = b ++ rest /\ length b = n /\ Forall is_byte b.
Proof.
  intros ([b' rest'] & [-> Hn]%split_bytes_inv & H)%bind_Some. case_bool_decide; [|done].
  by injection H as <- <-.
Qed.

Definition key_codec : Codec Pubkey := {|
  write := fun k => if bool_decide (pubkey_wf k) then Some k else None;
  read := read_fixed 32;
|}.

Lemma key_codec_ok : CodecOk key_codec pubkey_wf 32.
Proof.
  split; cbn [write read key_codec].
  - intros k Hk. rewrite bool_decide_true by done. by eexists.
  - intros k bs. case_bool_decide as Hk; [|done]. intros [= <-]. destruct Hk as [Hl Hb]. split; [done|].
    unfold PUBKEY_BYTES in Hl. lia.
  - intros k bs rest Hk. rewrite bool_decide_true by done. intros [= <-]. destruct Hk as [Hl Hb].
    apply read_fixed_app; [|done]. unfold vec_len, PUBKEY_BYTES in Hl. lia.
  - intros bs k rest (-> & Hl & Hb)%read_fixed_inv.
    assert (pubkey_wf k) as Hk by (split; [unfold vec_len, PUBKEY_BYTES; lia|done]).
    split; [done|]. exists k. by rewrite bool_decide_true.
Qed.

(** ** Integers *)

Lemma of_le_bytes_mod n z : of_le_bytes (le_bytes n z) = z mod 256 ^ Z.of_nat n.
Proof.
  revert z. induction n as [|n IH]; intros z; cbn [le_bytes of_le_bytes]; [by rewrite Z.mod_1_r|].
  rewrite IH, Nat2Z.inj_succ, Z.pow_succ_r by lia. rewrite Z.rem_mul_r by lia. lia.
Qed.

Lemma le_bytes_mod n z : le_bytes n (z mod 256 ^ Z.of_nat n) = le_bytes n z.
Proof.
  rewrite <- of_le_bytes_mod. rewrite <- (length_le_bytes n z) at 1.
  apply le_bytes_of_le_bytes, le_bytes_bytes.
Qed.

Definition int_codec (n : nat) (ty : IntTy) : Codec Z := {|
  write := fun z => Some (le_bytes n z);
  read := fun bs => '(b, rest) ← read_fixed n bs; Some (wrapping ty (of_le_bytes b), rest);
|}.

(** A type of [8 * n] bits. *)
Definition has_width (n : nat) (ty : IntTy) : Prop :=
  int_max ty - int_min ty + 1 = 256 ^ Z.of_nat n /\ int_min ty <= int_max ty.

Lemma wrapping_mod n ty z : has_width n ty -> wrapping ty (z mod 256 ^ Z.of_nat n) = wrapping ty z.
Proof.
  intros [Hw _]. unfold wrapping. rewrite Hw. f_equal. by rewrite Zminus_mod_idemp_l.
Qed.

Lemma mod_wrapping n ty z : has_width n ty -> wrapping ty z mod 256 ^ Z.of_nat n = z mod 256 ^ Z.of_nat n.
Proof.
  intros [Hw _]. unfold wrapping. rewrite Hw, Zplus_mod_idemp_r. f_equal. lia.
Qed.

Lemma int_codec_ok n ty : has_width n ty -> CodecOk (int_codec n ty) (in_range ty) (Z.of_nat n).
Proof.
  intros Hw. split; cbn [write read int_codec].
  - by eexists.
  - intros z bs <-%(inj Some). split; [apply le_bytes_bytes|]. unfold vec_len. by rewrite length_le_bytes.
  - intros z bs rest Hz <-%(inj Some). rewrite read_fixed_app by (apply length_le_bytes || apply le_bytes_bytes).
    cbn [mbind option_bind]. by rewrite of_le_bytes_mod, wrapping_mod, wrapping_small.
  - intros bs z rest ([b r] & (-> & Hl & Hb)%read_fixed_inv & [= <- <-])%bind_Some.
    split; [apply wrapping_range, Hw|]. exists b. split; [|done]. f_equal.
    rewrite <- le_bytes_mod, mod_wrapping, le_bytes_mod by done. rewrite <- Hl. by apply le_bytes_of_le_bytes.
Qed.

Definition f64_codec : Codec F64.f64 := {|
  write := fun x => match x with SpecFloat.S754_nan => None | _ => Some (le_bytes 8 (f64_bits x)) end;
  read := fun bs =>
    '(z, rest) ← read (int_codec 8 U64) bs;
    match f64_of_bits z with SpecFloat.S754_nan => None | x => Some (x, rest) end;
|}.

Lemma f64_codec_ok : CodecOk f64_codec (fun x => f64_value x /\ f64_number x) 8.
Proof.
  assert (CodecOk (int_codec 8 U64) (in_range U64) 8) as H64 by by apply (int_codec_ok 8).
  assert (forall x bs, write f64_codec x = Some bs -> bs = le_bytes 8 (f64_bits x) /\ f64_number x) as Hw.
  { intros x bs. by destruct x; cbn [f64_codec write]; [intros <-%(inj Some)..| |intros <-%(inj Some)]. }
  split.
  - intros x [_ Hn]. destruct x; [by eexists..|by destruct Hn|by eexists].
  - intros x bs [-> _]%Hw. split; [apply le_bytes_bytes|]. unfold vec_len. by rewrite length_le_bytes.
  - intros x bs rest [Hv _] [-> Hn]%Hw. cbn [f64_codec read].
    rewrite (read_write (c:=int_codec 8 U64) (f64_bits x)); [|by apply f64_bits_range|done].
    cbn [mbind option_bind]. rewrite f64_of_bits_bits by done. by destruct x.
  - intros bs x rest ([z r] & (Hz & pre & [= <-] & ->)%read_canonical & H)%bind_Some.
    assert (f64_number (f64_of_bits z) /\ x = f64_of_bits z /\ rest = r) as (Hn & -> & ->).
    { destruct (f64_of_bits z); by simplify_eq. }
    split; [split; [by apply f64_of_bits_value|done]|]. exists (le_bytes 8 z). split; [|done].
    pose proof (f64_bits_of_bits z Hz Hn) as Hb. cbn [f64_codec write].
    destruct (f64_of_bits z); [by rewrite Hb..|done|by rewrite Hb].
Qed.

(** ** The instances *)

Definition int_bytes (ty : IntTy) : nat :=
  let span := int_max ty - int_min ty in
  if span <=? 255 then 1 else if span <=? 65535 then 2 else if span <=? 4294967295 then 4 else 8.

#[global] Instance fixed_primitives : BorshPrimitives := {|
  borsh_int := fun ty => int_codec (int_bytes ty) ty;
  borsh_f64 := f64_codec;
  borsh_key := key_codec;
|}.

#[global] Instance fixed_primitives_ok : BorshPrimitivesOk f64_value.
Proof.
  split; [by apply (int_codec_ok 1)|by apply (int_codec_ok 4)|by apply (int_codec_ok 8)|by apply (int_codec_ok 8)
         |apply f64_codec_ok|apply key_codec_ok|done|done].
Qed.

#[global] Instance f64_value_dec x : Decision (f64_value x).
Proof. destruct x; simpl; apply _. Defined.
#[global] Instance f64_number_dec x : Decision (f64_number x).
Proof. by destruct x; [left..|right; intros []|left]. Defined.
#[global] Instance state_values_dec s : Decision (state_values (f64_wf:=f64_value) s).
Proof.
  destruct s; simpl; unfold meta_values, authorized_wf, lockup_wf, stake_values, delegation_values, flags_values; apply _.
Defined.

(** The encoding of stake accounts, in bincode as in Borsh. *)
#[global] Instance stake_bincode : Bincode StakeStateV2.StakeStateV2 := {|
  bincode_serialize := fun s =>
    if bool_decide (state_values (f64_wf:=f64_value) s) then write StakeStateV2_codec s else None;
  bincode_deserialize := fun bs => fst <$> read StakeStateV2_codec bs;
|}.

#[global] Instance stake_bincode_ok : BincodeOk StakeStateV2.StakeStateV2.
Proof.
  intros s bs rest. cbn [bincode_serialize bincode_deserialize stake_bincode]. case_bool_decide as Hs; [|done].
  intros Hw. by rewrite (read_write (c:=StakeStateV2_codec) _ _ _ Hs Hw).
Qed.

#[global] Instance stake_bincode_wf : BincodeWf StakeStateV2.StakeStateV2 stake_state_wf.
Proof.
  intros bs s. cbn [bincode_deserialize stake_bincode]. intros ([s' r] & [Hs _]%read_canonical & ->)%fmap_Some. simpl.
  destruct s' as [|m|m st f|]; simpl in *; [done|apply Hs| |done].
  destruct Hs as ((Hm & _) & ((_ & Hd & Ha & Hde & _) & Hc) & _). by split_and!.
Qed.
