(* ===== verification/StakeRefinement.v ===== *)
(** * The stake program refines its machine

    Every run of the stake program that succeeds is a step of the machine of
    [StakeMachine], whatever the instruction: the handlers of [StakeSteps] and
    [StakeTransfers] under the dispatch of stake_instruction.rs. *)

From S2P Require Import Prelude Errors Rent Account BTreeMap Pubkey Sysvars EpochSchedule Nonce TransactionContext RuntimeRules CallStack SysvarCache FeatureSet SystemProgram Effects SystemRules InvokeContext InvokeRules Message VoteState Votes VoteProgram VoteAuthority StakeState ConfigProgram StakeActivation StakeProgram StakeMachine StakeSteps StakeTransfers.
Import StakeProcessor.

(** ** Sysvars *)

Lemma checked_clock `{!ProgramIds} cache ic i tc c :
  get_sysvar_with_account_check.clock cache ic i tc = Ok c -> get_clock cache = Ok c.
Proof. unfold get_sysvar_with_account_check.clock. by intros (u & _ & ?)%outcome_bind_ok. Qed.

Lemma checked_rent `{!ProgramIds} cache ic i tc c :
  get_sysvar_with_account_check.rent cache ic i tc = Ok c -> get_rent cache = Ok c.
Proof. unfold get_sysvar_with_account_check.rent. by intros (u & _ & ?)%outcome_bind_ok. Qed.

Lemma checked_history `{!ProgramIds} cache ic i tc c :
  get_sysvar_with_account_check.stake_history cache ic i tc = Ok c -> get_stake_history cache = Ok c.
Proof. unfold get_sysvar_with_account_check.stake_history. by intros (u & _ & ?)%outcome_bind_ok. Qed.

(** ** Instructions *)

(** A decoded instruction is within its types. *)
Definition stake_instruction_wf (instruction : StakeInstruction.StakeInstruction) : Prop :=
  match instruction with
  | StakeInstruction.Split lamports | StakeInstruction.Withdraw lamports => in_range U64 lamports
  | _ => True
  end.

Section refinement.
Context {hashing : Hashing} {ids : ProgramIds} {mids : MessageIds} {fids : FeatureIds}.
Context {codec : Bincode StakeStateV2.StakeStateV2} {codec_ok : BincodeOk StakeStateV2.StakeStateV2}
  {codec_wf : BincodeWf StakeStateV2.StakeStateV2 stake_state_wf}.
Context {vote_codec : Bincode VoteStateVersions} {keys_codec : Bincode ConfigKeys}
  {config_codec : Bincode StakeConfig}.
Context (env : Environment) (ch : Chain) (Hch : chain_of env ch).
Context (ic : InstructionContext) (tc : TransactionContext).
Context (Hbal : forall k b, account_at tc k = Some b -> in_range U64 (acc_lamports b)).

Abbreviation auth := (controls ic tc).
Abbreviation delinquent := (delinquent_voter (clock_epoch (ch_clock ch)) tc).
Abbreviation handle := (instruction_handle_of ic 0).

Lemma with_stake_account_inv {A} (scope : BorrowedAccount -> TxM A) r tc' :
  with_stake_account ic scope tc = (Ok r, tc') ->
  exists ia a t1 t2, vec_get (instruction_accounts ic) 0 = Some ia /\ stake_account (handle ia) a tc /\
    same_values tc t1 /\ stake_account (handle ia) a t1 /\
    scope (handle ia) t1 = (Ok r, t2) /\ same_values t2 tc'.
Proof.
  intros (ia & t1 & t2 & Hi & Hs1 & Hr & Hs2)%scope_inv. next Hr. apply borrowed_account_at in Hq.
  case_bool_decide as Ho; [done|]. exists ia, x, t1, t2.
  assert (stake_account (handle ia) x t1) as Hsa.
  { split; [done|by destruct (decide (acc_owner x = stake_program_id))|].
    eapply Hbal. by rewrite <- (proj2 Hs1). }
  split_and!; try done. destruct Hsa. split; [|done..]. by rewrite <- (proj2 Hs1).
Qed.

Lemma delinquent_same_values t voter :
  same_values tc t -> delinquent_voter (clock_epoch (ch_clock ch)) t voter -> delinquent voter.
Proof.
  intros [Hf Hv] (i & j & a & b & v & w & Hk & Ha & Hr & Hd & He & Hb & Ho & Hw & Hc). exists i, j, a, b, v, w.
  unfold get_key_of_account_at_index in *. rewrite (sf_keys _ _ Hf) in Hk. rewrite Hv in Ha, Hb. by split_and!.
Qed.

Lemma updates_machine t t' i tc' :
  same_values tc t -> updates ch auth (delinquent_voter (clock_epoch (ch_clock ch)) t) i t t' -> same_values t' tc' ->
  machine_step auth ch delinquent tc tc'.
Proof.
  intros H1 (a & a' & l & s & s' & Hb & Hv & Hv' & Hs) H2.
  eapply update; [by eapply becomes_same_values|done..|].
  destruct Hs as [| | | |m s s' f f' Hst]; try by constructor. apply delegation_step.
  destruct Hst as [| |s Hwho]; try by constructor. apply stop; [|done].
  destruct Hwho; [by left|right; by eapply delinquent_same_values].
Qed.

Lemma key_controls t i k :
  same_values tc t -> is_instruction_account_signer ic i = Ok true ->
  key_of_instruction_account ic i t = Ok k -> auth k.
Proof.
  intros Hs Hi Hk. left. rewrite (key_of_same_values ic tc i t Hs) in Hk. by eapply instruction_account_signed.
Qed.

Lemma seed_controls t i seed owner base k :
  same_values tc t -> is_instruction_account_signer ic i = Ok true ->
  key_of_instruction_account ic i t = Ok base -> create_with_seed base seed owner = Ok k -> auth k.
Proof.
  intros Hs Hi Hk Hc. right. exists base, seed, owner. split; [|done].
  rewrite (key_of_same_values ic tc i t Hs) in Hk. by eapply instruction_account_signed.
Qed.

Lemma check_stake_config_reads i t u t' : check_stake_config env ic i t = (Ok u, t') -> same_values t t'.
Proof.
  unfold check_stake_config. destruct (is_active _ _); [by intros [_ ->]%ret_ok_inv|].
  intros (ia & t1 & t2 & _ & Hs1 & Hr & Hs2)%scope_inv. next Hr. case_bool_decide; [done|].
  do 3 next Hr. apply ret_ok_inv in Hr as [_ ->]. by etransitivity.
Qed.

Lemma signing_key_reads i t k t' : signing_key ic i t = (Ok k, t') -> t' = t.
Proof. unfold signing_key. intros Hr. do 2 next Hr. destruct (negb _); [done|]. by apply ret_ok_inv in Hr as [_ ->]. Qed.

Context (signers : gset Pubkey) (Hsigners : get_signers ic tc = Ok signers).

Lemma signers_control k : k ∈ signers -> auth k.
Proof. intros Hk. left. by eapply get_signers_spec. Qed.

(** Everything that was read from the sysvars is what the machine has. *)
Ltac sysvars :=
  repeat match goal with
  | H : get_sysvar_with_account_check.clock _ _ _ _ = Ok _ |- _ => apply checked_clock in H
  | H : get_sysvar_with_account_check.rent _ _ _ _ = Ok _ |- _ => apply checked_rent in H
  | H : get_sysvar_with_account_check.stake_history _ _ _ _ = Ok _ |- _ => apply checked_history in H
  | H : get_clock _ = Ok _ |- _ => rewrite (co_clock _ _ Hch) in H; injection H as <-
  | H : get_rent _ = Ok _ |- _ => rewrite (co_rent _ _ Hch) in H; injection H as <-
  | H : get_stake_history _ = Ok _ |- _ => rewrite (co_history _ _ Hch) in H; injection H as <-
  | H : new_warmup_cooldown_rate_epoch _ = Ok _ |- _ => rewrite (co_rate _ _ Hch) in H; injection H as <-
  | H : signing_key _ _ _ = (Ok _, _) |- _ => apply signing_key_reads in H as ->
  end.

(** A scope of the stake account that only looks, and what follows it. *)
Ltac looks Hr :=
  let r := fresh "r" in let t := fresh "t" in let H := fresh "H" in
  apply bind_ok_inv in Hr as (r & t & H & Hr);
  apply with_stake_account_inv in H as (ia & a & t1 & t2 & Hi & Hsa & Hs1 & Hsa1 & H & Hs2);
  repeat match type of H with bind _ _ _ = _ => next H end;
  first [apply ret_ok_inv in H as [-> ->]|apply lift_ok_inv in H as [H ->]]; sysvars;
  assert (same_values tc t) as Hs by (by etransitivity);
  assert (stake_account (handle ia) a t) by (by eapply stake_account_same_values);
  assert (forall k b, account_at t k = Some b -> in_range U64 (acc_lamports b))
    by (intros ? ? Hb; rewrite (proj2 Hs) in Hb; by eapply Hbal);
  cbn [fst snd] in Hr.

Lemma dispatch_machine instruction tc' :
  stake_instruction_wf instruction -> dispatch env ic signers instruction tc = (Ok tt, tc') ->
  machine_step auth ch delinquent tc tc'.
Proof.
  intros Hwf Hr. pose proof signers_control as Hauth. destruct instruction; unfold dispatch in Hr; simpl in Hwf.
  all: try (apply with_stake_account_inv in Hr as (ia & a & t1 & t2 & Hi & Hsa & Hs1 & Hsa1 & Hr & Hs2);
    repeat match type of Hr with bind _ _ _ = _ => next Hr; sysvars end).
  all: try (eapply updates_machine; [exact Hs1| |exact Hs2];
    first [ by eapply initialize_updates | by eapply authorize_updates | by eapply set_lockup_updates
          | by eapply deactivate_updates | by eapply deactivate_delinquent_updates
          | eapply authorize_with_seed_updates; [|done..]; intros; by eapply seed_controls ]).
  - looks Hr. apply bind_ok_inv in Hr as ([] & t' & Hc%check_stake_config_reads & Hr).
    assert (same_values tc t') as Hs' by (by etransitivity).
    eapply updates_machine; [exact Hs'| |reflexivity].
    eapply delegate_updates; [done|exact Hauth|exact Hi| |exact Hr]. by eapply stake_account_same_values.
  - looks Hr. eapply machine_step_same_values; [exact Hs| |reflexivity].
    eapply split_of_machine; [..|exact Hr]; try done. apply Hwf.
  - looks Hr. next Hr. sysvars. eapply machine_step_same_values; [exact Hs| |reflexivity].
    eapply withdraw_step_of_machine; [..|exact Hr]; try done; [intros; by eapply key_controls|apply Hwf].
  - looks Hr. eapply machine_step_same_values; [exact Hs| |reflexivity].
    by eapply merge_of_machine; [..|exact Hr].
  - apply no_step. intros k. by injection Hr as <-.
  - destruct (is_active _ _); [|done]. next Hr.
    apply bind_ok_inv in Hr as ([] & t' & Hc%check_stake_config_reads & Hr).
    assert (same_values tc t') as Hs by (by etransitivity).
    eapply machine_step_same_values; [exact Hs| |exact Hs2].
    eapply redelegate_of_machine; [done|exact Hauth| | |exact Hr]; [by eapply stake_account_same_values|].
    intros k b Hb. rewrite (proj2 Hs) in Hb. by eapply Hbal.
Qed.

End refinement.

Section entrypoint.
Context {hashing : Hashing} {ids : ProgramIds} {mids : MessageIds} {fids : FeatureIds}.
Context {codec : Bincode StakeStateV2.StakeStateV2} {codec_ok : BincodeOk StakeStateV2.StakeStateV2}
  {codec_wf : BincodeWf StakeStateV2.StakeStateV2 stake_state_wf}.
Context {vote_codec : Bincode VoteStateVersions} {keys_codec : Bincode ConfigKeys}
  {config_codec : Bincode StakeConfig}.
Context {instruction_codec : BincodeLimited StakeInstruction.StakeInstruction}
  {instruction_codec_ok : BincodeLimitedOk StakeInstruction.StakeInstruction stake_instruction_wf}.

Lemma entrypoint_machine env ch ic tc tc' :
  chain_of env ch -> balances_wf tc -> get_current_instruction_context tc = Ok ic ->
  Entrypoint env tc = (Ok tt, tc') ->
  machine_step (controls ic tc) ch (delinquent_voter (clock_epoch (ch_clock ch)) tc) tc tc'.
Proof.
  intros Hch Hbal Hic Hr. unfold Entrypoint in Hr. next Hr. rewrite Hic in Hq. injection Hq as <-.
  next Hr. next Hr. apply ok_or_ok, deserialize_with_limit_wf in Hq0. by eapply dispatch_machine.
Qed.

(** C9: the stake program refines its state machine.  Whatever instruction it is
    given, if it succeeds then the accounts changed by one step of the machine:
    nothing; one account's state, by a rule whose authority signed (or derives
    from a base that did) or because its validator is delinquent; a split, a
    merge or a redelegation of two different accounts, with the amounts, the
    reserves and the authorities the rule fixes; or a withdrawal that left what
    is staked and reserved. *)
Theorem stake_program_refines (env : Environment) (ch : Chain) (ic : InstructionContext)
    (tc tc' : TransactionContext) :
  chain_of env ch -> balances_wf tc -> get_current_instruction_context tc = Ok ic ->
  Entrypoint env tc = (Ok tt, tc') ->
  machine_step (controls ic tc) ch (delinquent_voter (clock_epoch (ch_clock ch)) tc) tc tc'.
Proof. apply entrypoint_machine. Qed.

End entrypoint.
