(* ===== verification/StakeCustody.v ===== *)
(** * Custody of stake accounts

    What the machine of [StakeMachine] guarantees the parties of a stake account:
    lamports are moved and neither made nor lost; what a withdrawer may withdraw,
    and what a custodian has locked, does not shrink unless they agree; the
    authorities and the lockup change only by their rules; a delegation that is
    not deactivated is backed by lamports above the reserve.  [StakeRefinement]
    carries all of it to the program. *)

From S2P Require Import Prelude Errors Rent Account BTreeMap Pubkey Sysvars EpochSchedule Nonce TransactionContext RuntimeRules CallStack SysvarCache FeatureSet SystemProgram Effects SystemRules InvokeContext InvokeRules Message VoteState Votes VoteProgram VoteAuthority StakeState ConfigProgram StakeActivation StakeProgram StakeMachine StakeSteps StakeTransfers StakeRefinement.
Import StakeProcessor.

(** ** Sums over the accounts *)

Lemma becomes_sum g i a a' tc tc' :
  becomes i a a' tc tc' -> account_sum g tc' = account_sum g tc - g a + g a'.
Proof. intros []. by apply account_sum_update with i. Qed.

Section custody.
Context {mids : MessageIds} {codec : Bincode StakeStateV2.StakeStateV2}.
Context (auth : Pubkey -> Prop) (ch : Chain) (delinquent : Pubkey -> Prop).

Abbreviation State := StakeStateV2.StakeStateV2.
Abbreviation step := (machine_step auth ch delinquent).

(** A sum of something that depends on the views only. *)
Lemma pair_sum (g : AccountSharedData -> Z) (G : Z * State -> Z)
    (Hg : forall a l s, stake_view a = Some (l, s) -> g a = G (l, s)) i j a a' b b' va va' vb vb' tc tc' :
  pair_change i j a a' b b' tc tc' ->
  stake_view a = Some va -> stake_view b = Some vb -> stake_view a' = Some va' -> stake_view b' = Some vb' ->
  account_sum g tc' = account_sum g tc - G va + G va' - G vb + G vb'.
Proof.
  intros Hp Ha Hb Ha' Hb'. destruct va, vb, va', vb'.
  by rewrite (pc_sum _ _ _ _ _ _ _ _ Hp), (Hg _ _ _ Ha), (Hg _ _ _ Hb), (Hg _ _ _ Ha'), (Hg _ _ _ Hb').
Qed.

Lemma machine_conserves tc tc' : step tc tc' -> total_lamports tc' = total_lamports tc.
Proof.
  pose proof stake_view_lamports as Hl. unfold total_lamports.
  destruct 1 as [He|i a a' l s s' Hb Hv Hv'|i j a a' b b' x l1 l2 s s1 s2 Hp Hva Hvb Hva' Hvb'
    |i j a a' b b' l1 l2 s1 s2 s Hp Hva Hvb Hva' Hvb'|i j a a' b b' e l1 l2 s s1 s2 Hp Hva Hvb Hva' Hvb'
    |i j a a' b x l s mid Hb1 Hb2 _ Hva _ Hva'|i j a a1 b a2 x l l' key t1 t2 Hb1 Hb2 Hb3 _ _ _ Hva Hva1 _ Hva2].
  - by apply account_sum_eq.
  - rewrite (becomes_sum _ _ _ _ _ _ Hb), (Hl _ _ _ Hv), (Hl _ _ _ Hv'). lia.
  - rewrite (pair_sum acc_lamports fst Hl _ _ _ _ _ _ _ _ _ _ _ _ Hp Hva Hvb Hva' Hvb'). simpl. lia.
  - rewrite (pair_sum acc_lamports fst Hl _ _ _ _ _ _ _ _ _ _ _ _ Hp Hva Hvb Hva' Hvb'). simpl. lia.
  - rewrite (pair_sum acc_lamports fst Hl _ _ _ _ _ _ _ _ _ _ _ _ Hp Hva Hvb Hva' Hvb'). simpl. lia.
  - rewrite (becomes_sum _ _ _ _ _ _ Hb2), (becomes_sum _ _ _ _ _ _ Hb1), (Hl _ _ _ Hva), (Hl _ _ _ Hva'). simpl. lia.
  - rewrite (becomes_sum _ _ _ _ _ _ Hb3), (becomes_sum _ _ _ _ _ _ Hb2), (becomes_sum _ _ _ _ _ _ Hb1),
      (Hl _ _ _ Hva), (Hl _ _ _ Hva1). simpl. lia.
Qed.

(** ** Lamports that somebody protects *)

(** What an account has for those whose claim is [P]. *)
Definition claim (P : Meta -> bool) (ls : Z * State) : Z :=
  match StakeStateV2.meta (snd ls) with
  | Some m => if P m then fst ls else 0
  | None => 0
  end.

Definition held (P : Meta -> bool) (a : AccountSharedData) : Z :=
  match stake_view a with Some ls => claim P ls | None => 0 end.

(** A claim that a step without the consent of its owner does not touch. *)
Record protected (P : Meta -> bool) : Prop := {
  pr_reserve m r : P (with_reserve r m) = P m;
  pr_meta m m' : meta_step auth ch m m' -> P m = true -> P m' = true;
  pr_merge m1 m2 :
    authorized m1 = authorized m2 ->
    lockup m1 = lockup m2 \/
      is_in_force (lockup m1) (ch_clock ch) None = false /\ is_in_force (lockup m2) (ch_clock ch) None = false ->
    P m2 = true -> P m1 = true;
  pr_withdraw m :
    P m = true -> auth (withdrawer (authorized m)) -> unlocked auth ch (lockup m) -> False;
}.

Section protected.
Context (P : Meta -> bool) (HP : protected P).

Lemma held_view a l s : stake_view a = Some (l, s) -> held P a = claim P (l, s).
Proof. unfold held. by intros ->. Qed.

Lemma stake_view_debit a l s x : stake_view a = Some (l, s) -> stake_view (debit x a) = Some (l - x, s : State).
Proof. intros (Ho & Hs & <-)%stake_view_Some. by apply stake_view_Some. Qed.

Lemma held_credit x b : 0 <= x -> held P b <= held P (credit x b).
Proof.
  intros Hx. destruct (stake_view b) as [[l s]|] eqn:Hv.
  - rewrite (held_view _ _ _ Hv), (held_view _ _ _ (credit_view _ _ _ x Hv)). unfold claim. simpl.
    destruct (StakeStateV2.meta s) as [m|]; [destruct (P m)|]; lia.
  - unfold held. rewrite Hv. unfold stake_view in *. simpl. case_bool_decide; [|done].
    change (shared_deserialize_data (credit x b)) with (shared_deserialize_data (T:=State) b).
    by destruct (shared_deserialize_data b).
Qed.

Lemma state_step_claim l s s' :
  0 <= l -> state_step auth ch delinquent l s s' -> claim P (l, s) <= claim P (l, s').
Proof.
  intros Hl Hs. destruct Hs as [a lk|m m' Hm|m m' s f Hm|m voter credits|m s s' f f']; unfold claim; simpl; try lia.
  - destruct (P _); lia.
  - destruct (P m) eqn:H; [rewrite (pr_meta _ HP _ _ Hm H); lia|destruct (P m'); lia].
  - destruct (P m) eqn:H; [rewrite (pr_meta _ HP _ _ Hm H); lia|destruct (P m'); lia].
Qed.

Lemma split_step_claim x l1 l2 s s1 s2 :
  0 <= l2 -> split_step auth ch x l1 l2 s s1 s2 ->
  claim P (l1, s) <= claim P (l1 - x, s1) + claim P (l2 + x, s2).
Proof.
  intros Hl Hs. destruct Hs; unfold claim; simpl; rewrite ?(pr_reserve _ HP).
  - destruct (Z.eqb_spec x l1); simpl; rewrite ?(pr_reserve _ HP); destruct (P m); lia.
  - destruct (P m); lia.
  - destruct (P m); lia.
Qed.

Lemma merge_step_meta l1 l2 s1 s2 s : merge_step ch l1 l2 s1 s2 s -> StakeStateV2.meta s = StakeStateV2.meta s1.
Proof. by destruct 1; subst. Qed.

Lemma merge_step_claim l1 l2 s1 s2 s :
  0 <= l2 -> mergeable auth ch s1 s2 -> merge_step ch l1 l2 s1 s2 s ->
  claim P (l1, s1) + claim P (l2, s2) <= claim P (l1 + l2, s).
Proof.
  intros Hl (m1 & m2 & Hm1 & Hm2 & _ & Hsame & Hlock) Hs%merge_step_meta. unfold claim. simpl.
  rewrite Hs, Hm1, Hm2. destruct (P m2) eqn:H2; [by rewrite (pr_merge _ HP m1 m2); [lia|..]|]. destruct (P m1); lia.
Qed.

Lemma withdraw_step_claim address x l s : withdraw_step auth ch address x l s -> forall l', claim P (l', s) = 0.
Proof.
  intros Hs l'. unfold claim. destruct Hs as [key|m Hw Hu|m s f Hw Hu]; simpl; [done|..];
    (destruct (P m) eqn:Hm; [by destruct (pr_withdraw _ HP m)|done]).
Qed.

Lemma machine_protects tc tc' :
  balances_wf tc -> step tc tc' -> account_sum (held P) tc <= account_sum (held P) tc'.
Proof.
  intros Hbal. assert (forall k a l s, account_at tc k = Some a -> stake_view a = Some (l, s) -> 0 <= l) as Hpos.
  { intros k a l s Ha Hv. rewrite <- (stake_view_lamports _ _ _ Hv). apply (Hbal _ _ Ha). }
  destruct 1 as [He|i a a' l s s' Hb Hv Hv' Hs|i j a a' b b' x l1 l2 s s1 s2 Hp Hva Hvb Hva' Hvb' Hs
    |i j a a' b b' l1 l2 s1 s2 s Hp Hva Hvb Hva' Hvb' Hm Hs|i j a a' b b' e l1 l2 s s1 s2 Hp Hva Hvb Hva' Hvb' Hs
    |i j a a' b x l s mid Hb1 Hb2 Hx Hva Hw Hva'|i j a a1 b a2 x l l' key t1 t2 Hb1 Hb2 Hb3 _ _ Hx Hva Hva1 _ Hva2].
  - by rewrite (account_sum_eq _ tc tc').
  - rewrite (becomes_sum _ _ _ _ _ _ Hb), (held_view _ _ _ Hv), (held_view _ _ _ Hv').
    apply state_step_claim in Hs; [lia|]. eapply Hpos; [apply Hb|done].
  - rewrite (pair_sum (held P) (claim P) held_view _ _ _ _ _ _ _ _ _ _ _ _ Hp Hva Hvb Hva' Hvb').
    apply split_step_claim in Hs; [unfold claim in *; simpl in *; lia|]. eapply Hpos; [apply (pc_before_j _ _ _ _ _ _ _ _ Hp)|done].
  - rewrite (pair_sum (held P) (claim P) held_view _ _ _ _ _ _ _ _ _ _ _ _ Hp Hva Hvb Hva' Hvb').
    apply merge_step_claim in Hs; [unfold claim in *; simpl in *; lia| |done]. eapply Hpos; [apply (pc_before_j _ _ _ _ _ _ _ _ Hp)|done].
  - assert (0 <= l2) as Hl2 by (eapply Hpos; [apply (pc_before_j _ _ _ _ _ _ _ _ Hp)|done]).
    rewrite (pair_sum (held P) (claim P) held_view _ _ _ _ _ _ _ _ _ _ _ _ Hp Hva Hvb Hva' Hvb').
    destruct Hs as [m s f f' e voter credits]. unfold claim. simpl. rewrite (pr_reserve _ HP). destruct (P m); lia.
  - rewrite (becomes_sum _ _ _ _ _ _ Hb2), (becomes_sum _ _ _ _ _ _ Hb1), (held_view _ _ _ Hva), (held_view _ _ _ Hva').
    pose proof (withdraw_step_claim _ _ _ _ Hw) as H0. rewrite H0. pose proof (held_credit x b ltac:(lia)).
    destruct (x =? l); [unfold claim; simpl; lia|]. rewrite H0. lia.
  - rewrite (becomes_sum _ _ _ _ _ _ Hb3), (becomes_sum _ _ _ _ _ _ Hb2), (becomes_sum _ _ _ _ _ _ Hb1).
    rewrite (held_view _ _ _ Hva), (held_view _ _ _ Hva1), (held_view _ _ _ Hva2).
    rewrite (held_view _ _ _ (stake_view_debit _ _ _ x Hva2)). pose proof (held_credit x b Hx).
    unfold claim. simpl. lia.
Qed.

End protected.

(** The claim of a withdrawer. *)
Definition withdrawable_by (w : Pubkey) (m : Meta) : bool := bool_decide (withdrawer (authorized m) = w).

(** The claim of a custodian: lockups in force that are its own. *)
Definition locked_by (c : Pubkey) (m : Meta) : bool :=
  is_in_force (lockup m) (ch_clock ch) None && bool_decide (custodian (lockup m) = c).

Lemma withdrawable_protected w : ~ auth w -> protected (withdrawable_by w).
Proof.
  intros Hw. unfold withdrawable_by. split; simpl; try done.
  - intros m m' Hs Hm%bool_decide_eq_true. apply bool_decide_eq_true. by destruct Hs as [| |]; simplify_eq/=.
  - by intros m1 m2 ->.
  - by intros m <-%bool_decide_eq_true.
Qed.

Lemma locked_protected c : ~ auth c -> protected (locked_by c).
Proof.
  intros Hc. unfold locked_by. split; simpl; try done.
  - intros m m' Hs [Hf Hm%bool_decide_eq_true]%andb_true_iff.
    destruct Hs as [m key Hwho|m key _ Hu|m l Hwho]; simpl; [by rewrite Hf, bool_decide_true..|].
    rewrite Hf, Hm in Hwho. done.
  - intros m1 m2 _ [->|[_ H2]]; [done|]. by rewrite H2.
  - intros m [Hf <-%bool_decide_eq_true]%andb_true_iff _ [Hu|Hu]; congruence.
Qed.

(** ** The state of one account *)

(** What a step may make of a state with a meta: the meta changes by its own
    rules; the stake changes, or the state goes, only with an authority, or if
    the validator is delinquent. *)
Definition follows (s s' : State) : Prop :=
  forall m, StakeStateV2.meta s = Some m ->
  (match StakeStateV2.meta s' with
   | Some m' => m' = m \/ meta_step auth ch m m'
   | None => s' = StakeStateV2.Uninitialized /\ (auth (staker (authorized m)) \/ auth (withdrawer (authorized m)))
   end) /\
  (StakeStateV2.stake s' = StakeStateV2.stake s \/
   auth (staker (authorized m)) \/ auth (withdrawer (authorized m)) \/
   exists st, StakeStateV2.stake s = Some st /\ delinquent (voter_pubkey (delegation st))).

Lemma follows_refl s : follows s s.
Proof. intros m Hm. rewrite Hm. auto. Qed.

Lemma state_step_follows l s s' : state_step auth ch delinquent l s s' -> follows s s'.
Proof.
  destruct 1 as [| | | |m s s' f f' Hs]; intros m0 Hm0; simpl in *; simplify_eq; auto 6.
  split; [by left|]. right. destruct Hs as [| |s [Hw|Hw]]; [by left..|]. right. right. by exists s.
Qed.

Lemma split_step_follows x l1 l2 s s1 s2 : split_step auth ch x l1 l2 s s1 s2 -> follows s s1.
Proof.
  destruct 1 as [m Ha| |]; intros m0 Hm0; simpl in *; simplify_eq; auto 6.
  destruct (x =? l1); simpl; auto 6.
Qed.

Lemma merge_step_follows l1 l2 s1 s2 s :
  mergeable auth ch s1 s2 -> merge_step ch l1 l2 s1 s2 s -> follows s1 s /\ follows s2 StakeStateV2.Uninitialized.
Proof.
  intros (m1 & m2 & Hm1 & Hm2 & Hst & Hsame & _) Hs%merge_step_meta. split; intros m Hm.
  - rewrite Hm1 in Hm. injection Hm as <-. rewrite Hs, Hm1. auto.
  - rewrite Hm2 in Hm. injection Hm as <-. rewrite <- Hsame. simpl. auto 6.
Qed.

Lemma withdraw_step_follows address x l s b :
  withdraw_step auth ch address x l s -> follows s (if b : bool then StakeStateV2.Uninitialized else s).
Proof.
  intros Hs. destruct b; [|apply follows_refl].
  destruct Hs; intros m0 Hm0; simpl in *; simplify_eq; auto 6.
Qed.

Definition account_follows (s : State) (k : IndexOfAccount) (tc' : TransactionContext) : Prop :=
  exists a' l' s', account_at tc' k = Some a' /\ stake_view a' = Some (l', s') /\ follows s s'.

Lemma becomes_follows i b b' l1 l1' s1 s1' tc tc' k a l s :
  becomes i b b' tc tc' -> stake_view b = Some (l1, s1) -> stake_view b' = Some (l1', s1') -> follows s1 s1' ->
  account_at tc k = Some a -> stake_view a = Some (l, s) -> account_follows s k tc'.
Proof.
  intros Hb Hvb Hvb' Hf Ha Hv. destruct (decide (k = i)) as [->|Hn].
  - rewrite (be_before _ _ _ _ _ Hb) in Ha. injection Ha as ->. rewrite Hv in Hvb. injection Hvb as -> ->.
    eexists _, _, _. by split_and!; [apply Hb|..].
  - exists a, l, s. rewrite (be_other _ _ _ _ _ Hb) by done. split_and!; [done..|apply follows_refl].
Qed.

Lemma pair_follows i j b b' c c' vb vb' vc vc' tc tc' k a l s :
  pair_change i j b b' c c' tc tc' ->
  stake_view b = Some vb -> stake_view c = Some vc -> stake_view b' = Some vb' -> stake_view c' = Some vc' ->
  follows vb.2 vb'.2 -> follows vc.2 vc'.2 ->
  account_at tc k = Some a -> stake_view a = Some (l, s) -> account_follows s k tc'.
Proof.
  intros [] Hvb Hvc Hvb' Hvc' Hf1 Hf2 Ha Hv. destruct vb, vb', vc, vc'.
  destruct (decide (k = i)) as [->|Hi]; [|destruct (decide (k = j)) as [->|Hj]].
  - rewrite pc_before_i in Ha. simplify_eq. by eexists _, _, _.
  - rewrite pc_before_j in Ha. simplify_eq. by eexists _, _, _.
  - exists a, l, s. rewrite pc_other by done. split_and!; [done..|apply follows_refl].
Qed.

(** Lamports that come or go leave the state. *)
Lemma lamports_follow i b b' tc tc' k s :
  becomes i b b' tc tc' -> (forall l s, stake_view b = Some (l, s) -> exists l', stake_view b' = Some (l', s)) ->
  account_follows s k tc -> account_follows s k tc'.
Proof.
  intros Hb Hsame (a & l & s' & Ha & Hv & Hf). destruct (decide (k = i)) as [->|Hn].
  - rewrite (be_before _ _ _ _ _ Hb) in Ha. injection Ha as ->. apply Hsame in Hv as [l' Hv].
    exists b', l', s'. by split_and!; [apply Hb|..].
  - exists a, l, s'. by rewrite (be_other _ _ _ _ _ Hb).
Qed.

Lemma machine_follows tc tc' k a l s :
  step tc tc' -> account_at tc k = Some a -> stake_view a = Some (l, s) -> account_follows s k tc'.
Proof.
  intros Hstep Ha Hv. assert (forall s', follows StakeStateV2.Uninitialized s') as Hun by done.
  destruct Hstep as [He|i b b' l1 s1 s1' Hb Hvb Hvb' Hs|i j b b' c c' x l1 l2 s1 s1' s2 Hp Hvb Hvc Hvb' Hvc' Hs
    |i j b b' c c' l1 l2 s1 s2 s1' Hp Hvb Hvc Hvb' Hvc' Hmg Hs|i j b b' c c' e l1 l2 s1 s1' s2 Hp Hvb Hvc Hvb' Hvc' Hs
    |i j b b' c x l1 s1 mid Hb1 Hb2 Hx Hvb Hw Hvb'|i j b b1 c b2 x l1 l1' key t1 t2 Hb1 Hb2 Hb3 _ _ Hx Hvb Hvb1 Hvc Hvb2].
  - exists a, l, s. rewrite He. split_and!; [done..|apply follows_refl].
  - eapply becomes_follows; try done. by eapply state_step_follows.
  - eapply (pair_follows _ _ _ _ _ _ _ _ _ _ _ _ _ _ _ _ Hp Hvb Hvc Hvb' Hvc'); try done. by eapply split_step_follows.
  - destruct (merge_step_follows _ _ _ _ _ Hmg Hs) as [Hf1 Hf2].
    by eapply (pair_follows _ _ _ _ _ _ _ _ _ _ _ _ _ _ _ _ Hp Hvb Hvc Hvb' Hvc').
  - eapply (pair_follows _ _ _ _ _ _ _ _ _ _ _ _ _ _ _ _ Hp Hvb Hvc Hvb' Hvc'); try done.
    destruct Hs. intros m0 Hm0. simpl in *. simplify_eq. auto.
  - eapply lamports_follow; [exact Hb2|intros; eexists; by apply credit_view|].
    eapply becomes_follows; try done. by eapply withdraw_step_follows.
  - eapply lamports_follow; [exact Hb3|intros; eexists; by apply stake_view_debit|].
    eapply lamports_follow; [exact Hb2|intros; eexists; by apply credit_view|]. by eapply becomes_follows.
Qed.

(** ** Delegations are backed by lamports *)

Section backed.
Context {codec_wf : BincodeWf State stake_state_wf}.
Context (Hguarded : ch_guarded ch = true) (Hepoch : clock_epoch (ch_clock ch) < int_max U64).

Abbreviation reserve := (new_reserve ch).

(** An account with a meta has the reserve of its rent, and has it in lamports;
    a delegation that is not deactivated is covered by the rest. *)
Definition backed_state (l : Z) (s : State) : Prop :=
  match s with
  | StakeStateV2.Initialized m => rent_exempt_reserve m = reserve /\ reserve <= l
  | StakeStateV2.Stake m st _ =>
      rent_exempt_reserve m = reserve /\ reserve <= l /\
      (going st -> reserve + delegation_stake (delegation st) <= l)
  | _ => True
  end.

Definition backed (a : AccountSharedData) : Prop :=
  forall l s, stake_view a = Some (l, s) -> backed_state l s.

Definition all_backed (tc : TransactionContext) : Prop := forall k a, account_at tc k = Some a -> backed a.

Lemma backed_more l l' s : l <= l' -> backed_state l s -> backed_state l' s.
Proof. destruct s; simpl; naive_solver lia. Qed.

Lemma meta_step_reserve m m' : meta_step auth ch m m' -> rent_exempt_reserve m' = rent_exempt_reserve m.
Proof. by destruct 1. Qed.

Lemma state_step_backed l s s' :
  backed_state l s -> state_step auth ch delinquent l s s' -> backed_state l s'.
Proof.
  intros Hb Hs. pose proof (meta_step_reserve) as Hm. destruct Hs as [| | | |m s s' f f' Hs]; simpl in *.
  - done.
  - by erewrite Hm.
  - by erewrite Hm.
  - naive_solver lia.
  - destruct Hs as [s voter credits|s _ _ Hg|s]; simpl in *; unfold going in *; simpl in *; [naive_solver lia| |].
    + specialize (Hg Hguarded). naive_solver lia.
    + naive_solver lia.
Qed.

Lemma split_step_backed x l1 l2 s s1 s2 :
  0 <= l2 -> 1 <= ch_minimum_delegation ch -> backed_state l1 s -> split_step auth ch x l1 l2 s s1 s2 ->
  backed_state (l1 - x) s1 /\ backed_state (l2 + x) s2.
Proof.
  intros Hl Hmin Hb Hs. destruct Hs as [m|m s f|m s f new]; simpl in *; unfold going in *; simpl in *.
  - destruct (Z.eqb_spec x l1); simpl; naive_solver lia.
  - naive_solver lia.
  - naive_solver lia.
Qed.

Lemma merge_step_backed l1 l2 s1 s2 s :
  0 <= l2 -> backed_state l1 s1 -> backed_state l2 s2 -> merge_step ch l1 l2 s1 s2 s -> backed_state (l1 + l2) s.
Proof.
  assert (0 <= reserve) by apply minimum_balance_range.
  intros Hl Hb1 Hb2 Hs. destruct Hs as [|m s f f' -> _ _|m s f m2 t f2 f' -> -> _ Hs Ht _ _|m s f m2 t f2 -> -> _ Hs Ht _ _].
  - eapply backed_more; [|done]. lia.
  - simpl in *. unfold going in *. simpl in *. naive_solver lia.
  - simpl in *. destruct Hb1 as (? & ? & Hb1), Hb2 as (? & ? & Hb2). specialize (Hb1 Hs). specialize (Hb2 Ht). split_and!; [lia..|intros _; simpl; lia].
  - simpl in *. destruct Hb1 as (? & ? & Hb1), Hb2 as (? & ? & Hb2). specialize (Hb1 Hs). specialize (Hb2 Ht). split_and!; [lia..|intros _; simpl; lia].
Qed.

(** Only what a decoder returns: a delegated stake is not negative, and no more
    of it is effective than there is. *)
Lemma effective_now_bounds a l m s f :
  stake_view a = Some (l, StakeStateV2.Stake m s f) ->
  0 <= effective_now ch (delegation s) <= delegation_stake (delegation s).
Proof.
  intros (_ & Hd & _)%stake_view_Some. apply bincode_deserialize_wf in Hd as (_ & (Hd & _) & _).
  destruct (status_bounds (ch_history ch) (ch_rate_epoch ch) _ (clock_epoch (ch_clock ch)) Hd) as (? & ? & ? & _).
  unfold effective_now, effective_stake. lia.
Qed.

Lemma withdraw_step_backed a address x l s :
  stake_view a = Some (l, s) -> backed_state l s -> withdraw_step auth ch address x l s ->
  backed_state (l - x) (if x =? l then StakeStateV2.Uninitialized else s).
Proof.
  intros Hv Hb Hs. destruct (Z.eqb_spec x l); [done|]. destruct Hs as [|m|m s f _ _ Hleft]; simpl in *; [done|naive_solver lia|].
  pose proof (effective_now_bounds _ _ _ _ _ Hv). destruct Hb as (Hr & Hl & Hb).
  specialize (Hleft ltac:(by left)). unfold staked_now, going in *.
  destruct (Z.leb_spec (deactivation_epoch (delegation s)) (clock_epoch (ch_clock ch))); cbn [int_max U64] in *; split_and!; lia.
Qed.

Lemma redelegate_step_backed a l1 l2 e s s1 s2 :
  0 <= l2 -> 1 <= ch_minimum_delegation ch ->
  stake_view a = Some (l1, s) -> backed_state l1 s -> redelegate_step auth ch l1 l2 e s s1 s2 ->
  backed_state (l1 - e) s1 /\ backed_state (l2 + e) s2.
Proof.
  intros Hl Hmin Hv Hb Hs. destruct Hs as [m s f f' e voter credits _ Hg -> _ _ Hm].
  pose proof (effective_now_bounds _ _ _ _ _ Hv). simpl in *. destruct Hb as (Hr & Hl1 & Hb). specialize (Hb Hg).
  unfold going. simpl. split; split_and!; lia.
Qed.

Lemma becomes_backed i a a' tc tc' :
  becomes i a a' tc tc' -> (backed a -> backed a') -> all_backed tc -> all_backed tc'.
Proof.
  intros Hb Hs Hall k b Hk. destruct (decide (k = i)) as [->|Hn].
  - rewrite (be_after _ _ _ _ _ Hb) in Hk. injection Hk as <-. apply Hs. eapply Hall, Hb.
  - rewrite (be_other _ _ _ _ _ Hb) in Hk by done. by eapply Hall.
Qed.

Lemma pair_backed i j a a' b b' tc tc' :
  pair_change i j a a' b b' tc tc' -> (backed a -> backed b -> backed a' /\ backed b') ->
  all_backed tc -> all_backed tc'.
Proof.
  intros [] Hs Hall k c Hk. destruct Hs as [Ha Hb]; [by eapply Hall|by eapply Hall|].
  destruct (decide (k = i)) as [->|Hi]; [by simplify_eq|]. destruct (decide (k = j)) as [->|Hj]; [by simplify_eq|].
  rewrite pc_other in Hk by done. by eapply Hall.
Qed.

Lemma backed_view a l s : stake_view a = Some (l, s) -> backed a <-> backed_state l s.
Proof. unfold backed. intros Hv. rewrite Hv. naive_solver. Qed.

Lemma credit_backed x b : 0 <= x -> backed b -> backed (credit x b).
Proof.
  intros Hx Hb l s Hv. apply stake_view_Some in Hv as (Ho & Hd & <-). simpl.
  eapply backed_more; [|apply Hb, stake_view_Some; by split_and!]. lia.
Qed.

Lemma machine_backed tc tc' :
  balances_wf tc -> 1 <= ch_minimum_delegation ch -> step tc tc' -> all_backed tc -> all_backed tc'.
Proof.
  intros Hbal Hmin Hstep.
  assert (forall k a l s, account_at tc k = Some a -> stake_view a = Some (l, s) -> 0 <= l) as Hpos.
  { intros k a l s Ha Hv. rewrite <- (stake_view_lamports _ _ _ Hv). apply (Hbal _ _ Ha). }
  destruct Hstep as [He|i a a' l s s' Hb Hv Hv' Hs|i j a a' b b' x l1 l2 s s1 s2 Hp Hva Hvb Hva' Hvb' Hs
    |i j a a' b b' l1 l2 s1 s2 s Hp Hva Hvb Hva' Hvb' Hm Hs|i j a a' b b' e l1 l2 s s1 s2 Hp Hva Hvb Hva' Hvb' Hs
    |i j a a' b x l s mid Hb1 Hb2 Hx Hva Hw Hva'|i j a a1 b a2 x l l' key t1 t2 Hb1 Hb2 Hb3 _ _ Hx Hva Hva1 _ Hva2].
  - intros Hall k a Ha. rewrite He in Ha. by eapply Hall.
  - apply (becomes_backed _ _ _ _ _ Hb). rewrite (backed_view _ _ _ Hv), (backed_view _ _ _ Hv').
    intros. by eapply state_step_backed.
  - apply (pair_backed _ _ _ _ _ _ _ _ Hp).
    rewrite (backed_view _ _ _ Hva), (backed_view _ _ _ Hva'), (backed_view _ _ _ Hvb').
    intros. eapply split_step_backed; try done. eapply Hpos; [apply (pc_before_j _ _ _ _ _ _ _ _ Hp)|done].
  - apply (pair_backed _ _ _ _ _ _ _ _ Hp).
    rewrite (backed_view _ _ _ Hva), (backed_view _ _ _ Hvb), (backed_view _ _ _ Hva'), (backed_view _ _ _ Hvb').
    intros. split; [|done]. eapply merge_step_backed; try done. eapply Hpos; [apply (pc_before_j _ _ _ _ _ _ _ _ Hp)|done].
  - apply (pair_backed _ _ _ _ _ _ _ _ Hp).
    rewrite (backed_view _ _ _ Hva), (backed_view _ _ _ Hva'), (backed_view _ _ _ Hvb').
    intros. eapply redelegate_step_backed; try done. eapply Hpos; [apply (pc_before_j _ _ _ _ _ _ _ _ Hp)|done].
  - intros Hall. eapply (becomes_backed _ _ _ _ _ Hb2); [apply credit_backed; lia|].
    eapply (becomes_backed _ _ _ _ _ Hb1); [|done]. rewrite (backed_view _ _ _ Hva), (backed_view _ _ _ Hva').
    intros. by eapply withdraw_step_backed.
  - intros Hall. eapply (becomes_backed _ _ _ _ _ Hb3).
    { by rewrite (backed_view _ _ _ (stake_view_debit _ _ _ x Hva2)). }
    eapply (becomes_backed _ _ _ _ _ Hb2); [by apply credit_backed|].
    eapply (becomes_backed _ _ _ _ _ Hb1); [|done]. by rewrite (backed_view _ _ _ Hva1).
Qed.

End backed.

End custody.

(** ** The program *)

Section program.
Context {hashing : Hashing} {ids : ProgramIds} {mids : MessageIds} {fids : FeatureIds}.
Context {codec : Bincode StakeStateV2.StakeStateV2} {codec_ok : BincodeOk StakeStateV2.StakeStateV2}
  {codec_wf : BincodeWf StakeStateV2.StakeStateV2 stake_state_wf}.
Context {vote_codec : Bincode VoteStateVersions} {keys_codec : Bincode ConfigKeys}
  {config_codec : Bincode StakeConfig}.
Context {instruction_codec : BincodeLimited StakeInstruction.StakeInstruction}
  {instruction_codec_ok : BincodeLimitedOk StakeInstruction.StakeInstruction stake_instruction_wf}.

(** C3: nobody takes stake.  Whatever the stake program is asked to do, if it
    succeeds the total of lamports is what it was; for every key that does not
    control the run, the lamports in all stake accounts it may withdraw from are
    at least what they were, however the accounts were split, merged, delegated
    or redelegated; and so are the lamports in accounts whose lockup is in force
    and has that key as its custodian. *)
Theorem stake_custody (env : Environment) (ch : Chain) (ic : InstructionContext)
    (tc tc' : TransactionContext) :
  chain_of env ch -> balances_wf tc -> get_current_instruction_context tc = Ok ic ->
  Entrypoint env tc = (Ok tt, tc') ->
  total_lamports tc' = total_lamports tc /\
  forall key, ~ controls ic tc key ->
    account_sum (held (withdrawable_by key)) tc <= account_sum (held (withdrawable_by key)) tc' /\
    account_sum (held (locked_by ch key)) tc <= account_sum (held (locked_by ch key)) tc'.
Proof.
  intros Hch Hbal Hic Hr. pose proof (entrypoint_machine _ _ _ _ _ Hch Hbal Hic Hr) as Hm.
  split; [by eapply machine_conserves|]. intros key Hkey.
  split; eapply machine_protects; try done; [by apply withdrawable_protected|by apply locked_protected].
Qed.

(** C16: the authorities of a stake account are changed only by themselves.  An
    account with authorities stays a stake account; its meta is what it was or
    changed by the rule for the staker (staker or withdrawer), the withdrawer
    (withdrawer, and the custodian of a lockup in force) or the lockup (its
    custodian while in force, else the withdrawer); it is emptied only with its
    staker or withdrawer; and its delegation changes only with one of them, or
    because its validator is delinquent. *)
Theorem stake_authorities_in_control (env : Environment) (ch : Chain) (ic : InstructionContext)
    (tc tc' : TransactionContext) (k : IndexOfAccount) (a : AccountSharedData) (l : Z)
    (s : StakeStateV2.StakeStateV2) :
  chain_of env ch -> balances_wf tc -> get_current_instruction_context tc = Ok ic ->
  account_at tc k = Some a -> stake_view a = Some (l, s) ->
  Entrypoint env tc = (Ok tt, tc') ->
  exists a' l' s', account_at tc' k = Some a' /\ stake_view a' = Some (l', s') /\
    follows (controls ic tc) ch (delinquent_voter (clock_epoch (ch_clock ch)) tc) s s'.
Proof.
  intros Hch Hbal Hic Ha Hv Hr. pose proof (entrypoint_machine _ _ _ _ _ Hch Hbal Hic Hr) as Hm.
  by eapply machine_follows.
Qed.

(** C18: stake is backed.  While the rent stays what it was, with the
    redelegation feature on and before the last epoch there is, the stake program
    keeps this of all accounts: whoever has a meta has its reserve in lamports,
    and a delegation that is not deactivated has its full amount in lamports
    above the reserve. *)
Theorem stake_stays_backed (env : Environment) (ch : Chain) (ic : InstructionContext)
    (tc tc' : TransactionContext) :
  chain_of env ch -> ch_guarded ch = true -> clock_epoch (ch_clock ch) < int_max U64 ->
  balances_wf tc -> get_current_instruction_context tc = Ok ic ->
  Entrypoint env tc = (Ok tt, tc') -> all_backed ch tc -> all_backed ch tc'.
Proof.
  intros Hch Hg He Hbal Hic Hr. pose proof (entrypoint_machine _ _ _ _ _ Hch Hbal Hic Hr) as Hm.
  eapply machine_backed; try done. by eapply minimum_positive.
Qed.

End program.
