(* ===== verification/StakeRewards.v ===== *)
(** * Points and rewards of stakes

    points.rs and rewards.rs of programs/stake: how many points a stake earned
    with the credits of its validator, what it is paid for them and what is
    written back; and the remaining functions of stake_state.rs, which build the
    stake history and the accounts of genesis.  The tracer, which only reports
    what is computed, is left out. *)

From S2P Require Import Prelude Errors Rent Account BTreeMap Pubkey Sysvars Nonce TransactionContext RuntimeRules Message FeatureSet Effects SystemRules VoteState VoterRules VoteAuthority StakeState ConfigProgram StakeActivation StakeProgram StakeMachine StakeSteps StakeTransfers StakeRefinement StakeCustody.
Import StakeProcessor.

(** ** Points (points.rs) *)

Record PointValue := mkPointValue {
  pv_rewards : Z; (* lamports to split *)
  pv_points : Z;  (* over these points *)
}.

Record CalculatedStakePoints := mkCalculatedStakePoints {
  csp_points : Z;
  csp_new_credits_observed : Z;
  force_credits_update_with_skipped_reward : bool;
}.

Section points.
Context (stake_history : StakeHistory.StakeHistory) (new_rate_activation_epoch : option Epoch).

(** What the stake earned in an epoch of which the vote account has a record. *)
Definition earned_credits (credits_in_stake new_credits_observed final_epoch_credits initial_epoch_credits : Z) : Z :=
  if credits_in_stake <? initial_epoch_credits then
    (* the staker observed the entire epoch *)
    wrapping U64 (final_epoch_credits - initial_epoch_credits)
  else if credits_in_stake <? final_epoch_credits then
    (* the staker registered sometime during the epoch, partial credit *)
    wrapping U64 (final_epoch_credits - new_credits_observed)
  else 0.

(** The body of the loop over [epoch_credits()]. *)
Definition points_step (stake : Stake) (acc : Z * Z) (entry : CreditEntry) : Z * Z :=
  let '(points, new_credits_observed) := acc in
  let '(epoch, final_epoch_credits, initial_epoch_credits) := entry in
  let stake_amount := effective_stake stake_history new_rate_activation_epoch (delegation stake) epoch in
  let earned := earned_credits (credits_observed stake) new_credits_observed final_epoch_credits
                  initial_epoch_credits in
  let earned_points := wrapping U128 (stake_amount * earned) in
  (wrapping U128 (points + earned_points), Z.max new_credits_observed final_epoch_credits).

Definition calculate_stake_points_and_credits (stake : Stake) (new_vote_state : VoteState)
  : CalculatedStakePoints :=
  let credits_in_stake := credits_observed stake in
  let credits_in_vote := credits new_vote_state in
  (* if there is no newer credits since observed, return no point *)
  match credits_in_vote ?= credits_in_stake with
  | Lt => mkCalculatedStakePoints 0 credits_in_vote true
  | Eq => mkCalculatedStakePoints 0 credits_in_stake false
  | Gt =>
      let '(points, new_credits_observed) :=
        foldl (points_step stake) (0, credits_in_stake) (epoch_credits new_vote_state) in
      mkCalculatedStakePoints points new_credits_observed false
  end.

Definition calculate_stake_points (stake : Stake) (vote_state : VoteState) : Z :=
  csp_points (calculate_stake_points_and_credits stake vote_state).

Definition calculate_points (stake_state : StakeStateV2.StakeStateV2) (vote_state : VoteState)
  : Outcome InstructionError Z :=
  match stake_state with
  | StakeStateV2.Stake _ stake _ => Ok (calculate_stake_points stake vote_state)
  | _ => Err InvalidAccountData
  end.

(** ** Rewards (rewards.rs) *)

Record CalculatedStakeRewards := mkCalculatedStakeRewards {
  staker_rewards : Z;
  voter_rewards : Z;
  csr_new_credits_observed : Z;
}.

(** The [unwrap]s panic. *)
Definition calculate_stake_rewards {E} (rewarded_epoch : Epoch) (stake : Stake) (point_value : PointValue)
    (vote_state : VoteState) : Outcome E (option CalculatedStakeRewards) :=
  let calculated := calculate_stake_points_and_credits stake vote_state in
  let points := csp_points calculated in
  let new_credits_observed := csp_new_credits_observed calculated in
  (* Drive credits_observed forward unconditionally when rewards are disabled
     or when this is the stake's activation epoch *)
  let force := force_credits_update_with_skipped_reward calculated || (pv_rewards point_value =? 0)
               || (activation_epoch (delegation stake) =? rewarded_epoch) in
  if force then Ok (Some (mkCalculatedStakeRewards 0 0 new_credits_observed)) else
  if points =? 0 then Ok None else
  if pv_points point_value =? 0 then Ok None else
  let! product := unwrap (checked_mul U128 points (pv_rewards point_value)) in
  let! rewards := unwrap (checked U64 (product / pv_points point_value)) in
  (* don't bother trying to split if fractional lamports got truncated *)
  if rewards =? 0 then Ok None else
  let! split := commission_split vote_state rewards in
  let '(voter_rewards, staker_rewards, is_split) := split in
  if ((voter_rewards =? 0) || (staker_rewards =? 0)) && is_split then
    (* don't collect if we lose a whole lamport somewhere *)
    Ok None
  else Ok (Some (mkCalculatedStakeRewards staker_rewards voter_rewards new_credits_observed)).

(** The new stake, and (stakers_reward, voters_reward). *)
Definition redeem_stake_rewards {E} (rewarded_epoch : Epoch) (stake : Stake) (point_value : PointValue)
    (vote_state : VoteState) : Outcome E (option (Stake * (Z * Z))) :=
  let! calculated := calculate_stake_rewards rewarded_epoch stake point_value vote_state in
  Ok ((fun rewards =>
         (mkStake (with_delegation_stake
                     (wrapping U64 (delegation_stake (delegation stake) + staker_rewards rewards)) (delegation stake))
            (csr_new_credits_observed rewards),
          (staker_rewards rewards, voter_rewards rewards))) <$> calculated).

Context {mids : MessageIds} {codec : Bincode StakeStateV2.StakeStateV2}.

(** [set_state] of an account that is not borrowed (account_utils.rs). *)
Definition shared_set_state (state : StakeStateV2.StakeStateV2) (account : AccountSharedData)
  : Outcome InstructionError AccountSharedData :=
  match bincode_serialized_size state with
  | None => Err GenericError
  | Some size =>
      if vec_len (acc_data account) <? size then Err AccountDataTooSmall
      else ok_or GenericError (shared_serialize_data account state)
  end.

(** The account, and (stakers_reward, voters_reward). *)
Definition redeem_rewards (rewarded_epoch : Epoch) (stake_state : StakeStateV2.StakeStateV2)
    (stake_account : AccountSharedData) (vote_state : VoteState) (point_value : PointValue)
  : Outcome InstructionError (AccountSharedData * (Z * Z)) :=
  match stake_state with
  | StakeStateV2.Stake meta stake stake_flags =>
      let! redeemed := redeem_stake_rewards rewarded_epoch stake point_value vote_state in
      match redeemed with
      | Some (stake, (stakers_reward, voters_reward)) =>
          let! stake_account :=
            map_err LamportsError_into (account_checked_add_lamports stakers_reward stake_account) in
          let! stake_account := shared_set_state (StakeStateV2.Stake meta stake stake_flags) stake_account in
          Ok (stake_account, (stakers_reward, voters_reward))
      | None => Err (StakeError.into StakeError.NoCreditsToRedeem)
      end
  | _ => Err InvalidAccountData
  end.

(** ** The stake history (stake_state.rs) *)

Definition new_stake_history_entry (epoch : Epoch) (stakes : list Delegation) (history : StakeHistory.StakeHistory)
    : StakeHistoryEntry :=
  foldl (fun sum stake => StakeHistoryEntry_add sum
           (stake_activating_and_deactivating history new_rate_activation_epoch stake epoch))
    (mkStakeHistoryEntry 0 0 0) stakes.

Definition create_stake_history_from_delegations (bootstrap : option Z) (epochs : list Epoch)
    (delegations : list Delegation) : StakeHistory.StakeHistory :=
  let bootstrap_delegation :=
    match bootstrap with
    | Some bootstrap =>
        [mkDelegation DEFAULT_PUBKEY bootstrap (int_max U64) (int_max U64) DEFAULT_WARMUP_COOLDOWN_RATE]
    | None => []
    end in
  foldl (fun stake_history epoch =>
           StakeHistory.add epoch
             (new_stake_history_entry epoch (delegations ++ bootstrap_delegation) stake_history) stake_history)
    [] epochs.

End points.

(** ** Reading and creating accounts (stake_state.rs) *)

Section genesis.
Context {mids : MessageIds} {codec : Bincode StakeStateV2.StakeStateV2} {vote_codec : Bincode VoteStateVersions}.

Definition stake_state_from (account : AccountSharedData) : option StakeStateV2.StakeStateV2 :=
  shared_deserialize_data account.
Definition stake_from (account : AccountSharedData) : option Stake :=
  state ← stake_state_from account; StakeStateV2.stake state.
Definition delegation_from (account : AccountSharedData) : option Delegation :=
  state ← stake_state_from account; StakeStateV2.delegation state.
Definition authorized_from (account : AccountSharedData) : option Authorized :=
  state ← stake_state_from account; StakeStateV2.authorized state.
Definition lockup_from (account : AccountSharedData) : option Lockup :=
  state ← stake_state_from account; StakeStateV2.lockup state.
Definition meta_from (account : AccountSharedData) : option Meta :=
  state ← stake_state_from account; StakeStateV2.meta state.

(** [vote_state::from]. *)
Definition vote_state_from (account : AccountSharedData) : option VoteState :=
  convert_to_current <$> bincode_deserialize (acc_data account).

(** A failed [expect] panics. *)
Definition expect_set_state (state : StakeStateV2.StakeStateV2) (account : AccountSharedData)
  : Outcome Empty_set AccountSharedData :=
  match shared_set_state state account with Ok account => Ok account | _ => Panic end.

Definition create_lockup_stake_account (authorized : Authorized) (lockup : Lockup) (rent : Rent) (lamports : Z)
  : Outcome Empty_set AccountSharedData :=
  let stake_account := shared_new lamports StakeStateV2.size_of stake_program_id in
  let rent_exempt_reserve := minimum_balance rent (vec_len (acc_data stake_account)) in
  if lamports <? rent_exempt_reserve then Panic else
  expect_set_state (StakeStateV2.Initialized (mkMeta rent_exempt_reserve authorized lockup)) stake_account.

Definition do_create_account (authorized voter_pubkey : Pubkey) (vote_account : AccountSharedData) (rent : Rent)
    (lamports : Z) (activation_epoch : Epoch) : Outcome Empty_set AccountSharedData :=
  let stake_account := shared_new lamports StakeStateV2.size_of stake_program_id in
  let! vote_state := unwrap (vote_state_from vote_account) in
  let rent_exempt_reserve := minimum_balance rent (vec_len (acc_data stake_account)) in
  expect_set_state
    (StakeStateV2.Stake (mkMeta rent_exempt_reserve (Authorized_auto authorized) Lockup_default)
       (new_stake (wrapping U64 (lamports - rent_exempt_reserve)) voter_pubkey vote_state activation_epoch)
       StakeFlags.empty) stake_account.

Definition create_account (authorized voter_pubkey : Pubkey) (vote_account : AccountSharedData) (rent : Rent)
    (lamports : Z) : Outcome Empty_set AccountSharedData :=
  do_create_account authorized voter_pubkey vote_account rent lamports (int_max U64).

Definition create_account_with_activation_epoch (authorized voter_pubkey : Pubkey)
    (vote_account : AccountSharedData) (rent : Rent) (lamports : Z) (activation_epoch : Epoch)
  : Outcome Empty_set AccountSharedData :=
  do_create_account authorized voter_pubkey vote_account rent lamports activation_epoch.

End genesis.

(** ** Points are bounded *)

Section point_bounds.
Context (h : StakeHistory.StakeHistory) (rate : option Epoch) (stake : Stake).
Context (Hstake : in_range U64 (delegation_stake (delegation stake))) (Hseen : in_range U64 (credits_observed stake)).

Abbreviation amount := (delegation_stake (delegation stake)).
Abbreviation observed := (credits_observed stake).

Lemma effective_stake_bounds epoch : 0 <= effective_stake h rate (delegation stake) epoch <= amount.
Proof. destruct (status_bounds h rate (delegation stake) epoch Hstake) as (? & ? & ? & _). unfold effective_stake. lia. Qed.

(** The loop so far: [last] is the total of the last entry. *)
Record points_inv (last : option Z) (acc : Z * Z) : Prop := {
  pi_points : 0 <= fst acc <= amount * (snd acc - observed);
  pi_observed : snd acc = match last with Some f => Z.max observed f | None => observed end;
  pi_range : snd acc <= int_max U64;
}.

Lemma points_step_inv last acc e f i :
  points_inv last acc -> 0 <= i <= f -> f <= int_max U64 -> (forall l, last = Some l -> i = l) ->
  points_inv (Some f) (points_step h rate stake acc (e, f, i)).
Proof.
  intros [Hp Ho Hr] Hif Hf Hl. pose proof (effective_stake_bounds e) as He. unfold in_range in Hstake, Hseen.
  cbn [int_min int_max U64] in *. destruct acc as [points seen]. cbn [points_step fst snd] in *.
  set (eff := effective_stake h rate (delegation stake) e) in *. clearbody eff.
  assert (observed <= seen) as Hos by (destruct last; lia).
  assert (exists earned, earned_credits observed seen f i = earned /\ 0 <= earned <= Z.max seen f - seen) as (earned & -> & Hb).
  { unfold earned_credits. assert (observed < i -> seen <= i) by (destruct last as [l|]; [rewrite (Hl l eq_refl) in *|]; lia).
    assert (i <= observed -> seen = observed) by (destruct last as [l|]; [rewrite (Hl l eq_refl) in *|]; lia).
    destruct (Z.ltb_spec observed i); [|destruct (Z.ltb_spec observed f)].
    - rewrite wrapping_small by (unfold in_range; cbn; lia). eexists. split; [done|lia].
    - rewrite wrapping_small by (unfold in_range; cbn; lia). eexists. split; [done|lia].
    - eexists. split; [done|lia]. }
  assert (0 <= eff * earned <= amount * (Z.max seen f - seen)) as Hm by nia.
  assert (points + eff * earned <= amount * (Z.max seen f - observed)) as Hs by nia.
  assert (amount * (Z.max seen f - observed) <= 18446744073709551615 * 18446744073709551615) as Hmax by (apply Z.mul_le_mono_nonneg; lia).
  rewrite (wrapping_small U128 (eff * earned)) by (unfold in_range; cbn; nia).
  rewrite wrapping_small by (unfold in_range; cbn; nia). split; cbn [fst snd]; [lia| |cbn; lia].
  rewrite Ho. destruct last as [l|]; [|lia]. rewrite (Hl l eq_refl) in *. lia.
Qed.

Lemma points_loop_inv history last acc :
  points_inv last acc -> credits_chained history ->
  (forall l e f i, last = Some l -> head history = Some (e, f, i) -> i = l) ->
  points_inv (match list.last history with Some (_, f, _) => Some f | None => last end)
    (foldl (points_step h rate stake) acc history).
Proof.
  revert last acc. induction history as [|[[e f] i] history IH]; intros last acc Hinv [Hr Hc] Hhead; [done|].
  apply list.Forall_cons in Hr as [[Hi Hf] Hr].
  eapply points_step_inv in Hinv as Hnext; [|done..|intros l ->; by eapply Hhead].
  eapply IH in Hnext.
  - cbn [foldl]. destruct history as [|y history]; [exact Hnext|]. rewrite last_cons_cons.
    destruct (list.last (y :: history)) eqn:E; [exact Hnext|]. by apply last_None in E.
  - split; [done|]. intros j. apply (Hc (S j)).
  - intros l e' f' i' [= <-] Hh. destruct history as [|y history]; [done|]. injection Hh as ->.
    by apply (Hc 0%nat e f i e' f' i').
Qed.

Lemma points_bounds (v : VoteState) :
  credits_chained (epoch_credits v) ->
  let r := calculate_stake_points_and_credits h rate stake v in
  0 <= csp_points r <= amount * Z.max 0 (credits v - observed) /\ csp_new_credits_observed r = credits v.
Proof.
  intros Hv. cbv zeta. unfold calculate_stake_points_and_credits.
  assert (0 <= amount) as H0 by apply Hstake.
  destruct (Z.compare_spec (credits v) observed) as [He|Hlt|Hgt]; simpl; [nia..|].
  assert (points_inv None (0, observed)) as H.
  { split; cbn; [lia|done|apply Hseen]. }
  eapply points_loop_inv in H; [|done|done]. unfold credits in *.
  destruct (foldl _ _ _) as [points seen]. simpl.
  destruct (list.last (epoch_credits v)) as [[[e f] i]|]; [|unfold in_range in Hseen; simpl in *; lia].
  destruct H as [Hp Ho _]. simpl in *. rewrite !Z.max_r in * by lia. subst seen. lia.
Qed.

End point_bounds.

(** ** Rewards *)

Lemma checked_in_range t z : in_range t z -> checked t z = Some z.
Proof. intros. by apply checked_Some. Qed.

(** Nothing is lost in the split but fractions of two lamports. *)
Lemma commission_split_ok {E} (v : VoteState) (on : Z) :
  in_range U64 on -> 0 <= commission v ->
  exists mine theirs is_split, commission_split (E:=E) v on = Ok (mine, theirs, is_split) /\
    0 <= mine /\ 0 <= theirs /\ mine + theirs <= on <= mine + theirs + 1.
Proof.
  intros Hon Hc. unfold in_range in Hon. cbn [int_min int_max U64] in Hon. unfold commission_split.
  destruct (Z.eqb_spec (Z.min (commission v) 100) 0); [eexists _, _, _; split_and!; [done|lia..]|].
  destruct (Z.eqb_spec (Z.min (commission v) 100) 100); [eexists _, _, _; split_and!; [done|lia..]|].
  set (c := Z.min (commission v) 100) in *. assert (0 < c < 100) as Hc' by lia. clearbody c.
  assert (forall k, 0 < k < 100 -> 0 <= on * k / 100 <= on /\ on * k - 100 < 100 * (on * k / 100) <= on * k) as Hd.
  { intros k Hk. pose proof (Z.div_mod (on * k) 100). pose proof (Z.mod_pos_bound (on * k) 100). nia. }
  destruct (Hd c Hc') as [H1 H2], (Hd (100 - c) ltac:(lia)) as [H3 H4].
  unfold checked_mul, checked_sub. rewrite (checked_in_range U128 (on * c)) by (unfold in_range; cbn; nia).
  rewrite (checked_in_range U8 (100 - c)) by (unfold in_range; cbn; lia). cbn [unwrap outcome_bind].
  rewrite (checked_in_range U128) by (unfold in_range; cbn; nia). cbn [unwrap outcome_bind].
  rewrite !wrapping_small by (unfold in_range; cbn; lia). eexists _, _, _. split_and!; [done|lia..|nia|nia].
Qed.

(** A stake and its validator as the bank has them. *)
Record claim_wf (s : Stake) (v : VoteState) : Prop := {
  cw_stake : in_range U64 (delegation_stake (delegation s));
  cw_observed : in_range U64 (credits_observed s);
  cw_credits : credits_chained (epoch_credits v);
  cw_commission : 0 <= commission v;
}.

Definition payout (r : option CalculatedStakeRewards) : Z :=
  match r with Some c => staker_rewards c + voter_rewards c | None => 0 end.

Section rewards.
Context (h : StakeHistory.StakeHistory) (rate : option Epoch) (epoch : Epoch).

Abbreviation points s v := (calculate_stake_points h rate s v).

Lemma rewards_ok {E} s v pv :
  claim_wf s v -> in_range U64 (pv_rewards pv) -> points s v <= pv_points pv ->
  points s v * pv_rewards pv <= int_max U128 ->
  exists r, calculate_stake_rewards (E:=E) h rate epoch s pv v = Ok r /\
    0 <= payout r /\ payout r * pv_points pv <= points s v * pv_rewards pv /\
    (pv_points pv = 0 -> payout r = 0) /\
    forall c, r = Some c -> 0 <= staker_rewards c /\ 0 <= voter_rewards c /\ csr_new_credits_observed c = credits v.
Proof.
  intros [Hs Ho Hv Hc] HR HP Hmax. destruct (points_bounds h rate s Hs Ho v Hv) as [Hp Hn].
  unfold calculate_stake_rewards. unfold calculate_stake_points in *.
  set (r := calculate_stake_points_and_credits h rate s v) in *. clearbody r. unfold in_range in HR. cbn [int_min int_max U64] in HR.
  destruct (_ || _ || _); [eexists; split_and!; [done|simpl; nia..|done|by intros c [= <-]]|].
  destruct (Z.eqb_spec (csp_points r) 0); [eexists; split_and!; [done|simpl; nia..|done|done]|].
  destruct (Z.eqb_spec (pv_points pv) 0); [eexists; split_and!; [done|simpl; nia..|done|done]|].
  unfold checked_mul. rewrite checked_in_range by (unfold in_range; cbn [int_min int_max U128] in *; nia). cbn [unwrap outcome_bind].
  set (q := csp_points r * pv_rewards pv / pv_points pv).
  assert (0 <= q <= pv_rewards pv /\ q * pv_points pv <= csp_points r * pv_rewards pv) as [Hq1 Hq2].
  { subst q. pose proof (Z.mul_div_le (csp_points r * pv_rewards pv) (pv_points pv) ltac:(lia)).
    split; [|lia]. split; [apply Z.div_pos; nia|]. apply Z.div_le_upper_bound; nia. }
  clearbody q. rewrite checked_in_range by (unfold in_range; cbn; lia). cbn [unwrap outcome_bind].
  destruct (Z.eqb_spec q 0); [eexists; split_and!; [done|simpl; nia..|done|done]|].
  destruct (commission_split_ok (E:=E) v q) as (mine & theirs & b & -> & H1 & H2 & H3); [unfold in_range; cbn; lia|done|].
  cbn [outcome_bind]. destruct (_ && b); [eexists; split_and!; [done|simpl; nia..|done|done]|].
  eexists. split_and!; [done|simpl; lia|simpl; nia|done|]. by intros c [= <-].
Qed.

Definition total_points (claims : list (Stake * VoteState)) : Z :=
  sum_Z ((fun '(s, v) => points s v) <$> claims).

Lemma total_points_cons s v claims : total_points ((s, v) :: claims) = points s v + total_points claims.
Proof. unfold total_points. cbn [fmap list_fmap]. by rewrite sum_Z_cons. Qed.

Lemma points_nonneg s v : claim_wf s v -> 0 <= points s v.
Proof. intros [Hs Ho Hv _]. apply (points_bounds h rate s Hs Ho v Hv). Qed.

Lemma total_points_nonneg claims : Forall (fun '(s, v) => claim_wf s v) claims -> 0 <= total_points claims.
Proof.
  induction 1 as [|[s v] claims Hsv _ IH]; [done|]. rewrite total_points_cons. apply points_nonneg in Hsv. lia.
Qed.

Lemma rewards_of_all {E} pv claims :
  Forall (fun '(s, v) => claim_wf s v) claims -> in_range U64 (pv_rewards pv) ->
  total_points claims <= pv_points pv -> Forall (fun '(s, v) => points s v * pv_rewards pv <= int_max U128) claims ->
  exists paid, Forall2 (fun '(s, v) r => calculate_stake_rewards (E:=E) h rate epoch s pv v = Ok r) claims paid /\
    0 <= sum_Z (payout <$> paid) /\ sum_Z (payout <$> paid) * pv_points pv <= total_points claims * pv_rewards pv /\
    (pv_points pv = 0 -> sum_Z (payout <$> paid) = 0).
Proof.
  intros Hf HR. assert (0 <= pv_rewards pv) as HR0 by apply HR.
  induction Hf as [|[s v] claims Hsv Hf IH]; intros Ht Hmax; [by exists []; split_and!; [apply Forall2_nil|..]|].
  apply list.Forall_cons in Hmax as [Hm Hmax].
  pose proof (points_nonneg _ _ Hsv) as Hp. pose proof (total_points_nonneg _ Hf) as Hn.
  rewrite total_points_cons in Ht |- *. destruct (IH ltac:(lia) Hmax) as (paid & Hpaid & H1 & H2 & H5).
  destruct (rewards_ok (E:=E) s v pv Hsv HR) as (r & Hr & H3 & H4 & H6 & _); [lia|done|].
  exists (r :: paid). cbn [fmap list_fmap]. rewrite sum_Z_cons. split_and!; [by apply Forall2_cons|lia|nia|lia].
Qed.

Lemma points_not_forced s v :
  0 < points s v -> force_credits_update_with_skipped_reward (calculate_stake_points_and_credits h rate s v) = false.
Proof.
  unfold calculate_stake_points, calculate_stake_points_and_credits.
  destruct (credits v ?= credits_observed s); simpl; [lia..|]. by destruct (foldl _ _ _).
Qed.

(** The product of points and rewards is unwrapped. *)
Lemma rewards_overflow {E} s v pv :
  in_range U64 (pv_rewards pv) -> 0 < points s v <= pv_points pv -> int_max U128 < points s v * pv_rewards pv ->
  activation_epoch (delegation s) <> epoch -> calculate_stake_rewards (E:=E) h rate epoch s pv v = Panic.
Proof.
  intros HR Hp Hmax Hne. unfold calculate_stake_rewards. rewrite points_not_forced by lia. unfold calculate_stake_points in *.
  set (r := calculate_stake_points_and_credits h rate s v) in *. clearbody r. cbn [int_max U128] in Hmax.
  destruct (Z.eqb_spec (pv_rewards pv) 0); [nia|]. destruct (Z.eqb_spec (activation_epoch (delegation s)) epoch); [done|]. simpl.
  destruct (Z.eqb_spec (csp_points r) 0); [lia|]. destruct (Z.eqb_spec (pv_points pv) 0); [lia|].
  unfold checked_mul, checked. rewrite decide_False; [done|]. unfold in_range. cbn [int_min int_max U128]. lia.
Qed.

Lemma total_points_elem s v claims :
  Forall (fun '(s, v) => claim_wf s v) claims -> (s, v) ∈ claims -> points s v <= total_points claims.
Proof.
  induction 1 as [|[s' v'] claims Hsv Hf IH]; intros Hin; [by apply elem_of_nil in Hin|]. rewrite total_points_cons.
  pose proof (points_nonneg _ _ Hsv). pose proof (total_points_nonneg _ Hf).
  apply elem_of_cons in Hin as [[= -> ->]|Hin]; [lia|]. specialize (IH Hin). lia.
Qed.

(** C24: a round of rewards never pays more than its pool.  Let the points of all
    the stakes that are rewarded be at most the points the pool is divided by.  If
    for each of them the product of its points and the rewards of the pool is a
    number of 128 bits, then every calculation returns, and what the stakers and
    the voters are paid together is at most the lamports of the pool.  For a
    stake with a greater product, unless it was activated in the rewarded epoch,
    the calculation panics. *)
Theorem rewards_within_pool (pv : PointValue) (claims : list (Stake * VoteState)) :
  Forall (fun '(s, v) => claim_wf s v) claims -> in_range U64 (pv_rewards pv) ->
  total_points claims <= pv_points pv ->
  (Forall (fun '(s, v) => points s v * pv_rewards pv <= int_max U128) claims ->
   exists paid,
     Forall2 (fun '(s, v) r => calculate_stake_rewards (E:=InstructionError) h rate epoch s pv v = Ok r) claims paid /\
     0 <= sum_Z (payout <$> paid) <= pv_rewards pv) /\
  (forall s v, (s, v) ∈ claims -> int_max U128 < points s v * pv_rewards pv -> activation_epoch (delegation s) <> epoch ->
   calculate_stake_rewards (E:=InstructionError) h rate epoch s pv v = Panic).
Proof.
  intros Hf HR Ht. split.
  2:{ intros s v Hin Hmax Hne. pose proof (total_points_elem s v claims Hf Hin).
      assert (0 <= points s v) by (rewrite list.Forall_forall in Hf; by apply points_nonneg, (Hf (s, v))).
      apply rewards_overflow; [done| |done..]. split; [|lia].
      cbn [int_max U128] in Hmax. destruct (Z.eq_dec (points s v) 0) as [Hz|]; [rewrite Hz in Hmax; lia|lia]. }
  intros Hmax. destruct (rewards_of_all (E:=InstructionError) pv claims Hf HR Ht Hmax) as (paid & Hpaid & H1 & H2 & H3).
  exists paid. split; [done|]. split; [done|]. pose proof (total_points_nonneg _ Hf) as Hn.
  assert (0 <= pv_rewards pv) by apply HR.
  destruct (Z.eq_dec (pv_points pv) 0) as [H0|H0]; [specialize (H3 H0); lia|nia].
Qed.

(** Rewards that were redeemed, as the stake has them. *)
Definition rewarded (s : Stake) (x seen : Z) : Stake :=
  mkStake (with_delegation_stake (delegation_stake (delegation s) + x) (delegation s)) seen.

Lemma redeem_stake_ok {E} s v pv s' x y :
  claim_wf s v -> in_range U64 (pv_rewards pv) -> points s v <= pv_points pv ->
  points s v * pv_rewards pv <= int_max U128 ->
  redeem_stake_rewards (E:=E) h rate epoch s pv v = Ok (Some (s', (x, y))) ->
  0 <= x /\ 0 <= y /\ (x + y) * pv_points pv <= points s v * pv_rewards pv /\
  (delegation_stake (delegation s) + x <= int_max U64 -> s' = rewarded s x (credits v)).
Proof.
  intros Hsv HR HP Hmax Hr. destruct (rewards_ok (E:=E) s v pv Hsv HR HP Hmax) as (r & Hc & _ & Hp & _ & Hn).
  unfold redeem_stake_rewards in Hr. rewrite Hc in Hr. destruct r as [c|]; [|done]. simpl in Hr.
  injection Hr as <- <- <-. destruct (Hn c eq_refl) as (H1 & H2 & H3). simpl in Hp.
  split_and!; [done..|]. intros Hx. unfold rewarded. rewrite H3, wrapping_small; [done|].
  pose proof (cw_stake _ _ Hsv) as Hs. unfold in_range in *. cbn [int_min int_max U64] in *. lia.
Qed.

(** With the credits observed there is nothing to redeem. *)
Lemma observed_no_rewards {E} s v pv r :
  credits_observed s = credits v -> calculate_stake_rewards (E:=E) h rate epoch s pv v = Ok r -> payout r = 0.
Proof.
  intros Ho. unfold calculate_stake_rewards, calculate_stake_points_and_credits. rewrite Ho, Z.compare_refl. simpl.
  destruct (_ || _); by intros [= <-].
Qed.

Context {mids : MessageIds} {codec : Bincode StakeStateV2.StakeStateV2} {codec_ok : BincodeOk StakeStateV2.StakeStateV2}.

Lemma shared_set_state_ok st a a' :
  shared_set_state st a = Ok a' -> shared_deserialize_data a' = Some st /\ acc_lamports a' = acc_lamports a /\ acc_owner a' = acc_owner a.
Proof.
  unfold shared_set_state, shared_serialize_data. destruct (bincode_serialized_size st) as [n|]; [|done].
  destruct (_ <? n) eqn:Hn; [done|]. simpl. rewrite Hn.
  destruct (bincode_serialize_into _ _) as [d|] eqn:Hd; [|done]. intros [= <-].
  split; [by eapply serialize_into_roundtrip|done].
Qed.

(** Rewards are paid once and stay with the stake.  What a stake account is
    paid is added to its lamports and to its delegation alike, so that it is
    backed as before; its meta and flags are what they were; its validator's
    credits are observed, so that redeeming again with the same credits pays
    nobody. *)
Theorem rewards_paid_once (ch : Chain) (m : Meta) (s : Stake) (f : StakeFlags.StakeFlags)
    (a a' : AccountSharedData) (v : VoteState) (pv : PointValue) (x y : Z) :
  claim_wf s v -> in_range U64 (pv_rewards pv) -> points s v <= pv_points pv ->
  points s v * pv_rewards pv <= int_max U128 ->
  acc_owner a = stake_program_id -> delegation_stake (delegation s) <= acc_lamports a ->
  redeem_rewards h rate epoch (StakeStateV2.Stake m s f) a v pv = Ok (a', (x, y)) ->
  let s' := rewarded s x (credits v) in
  0 <= x /\ 0 <= y /\ (x + y) * pv_points pv <= points s v * pv_rewards pv /\
  stake_view a' = Some (acc_lamports a + x, StakeStateV2.Stake m s' f) /\
  (backed_state ch (acc_lamports a) (StakeStateV2.Stake m s f) ->
   backed_state ch (acc_lamports a + x) (StakeStateV2.Stake m s' f)) /\
  forall pv' b b' x' y', redeem_rewards h rate epoch (StakeStateV2.Stake m s' f) b v pv' = Ok (b', (x', y')) ->
    x' + y' = 0.
Proof.
  intros Hsv HR HP Hmax Ho Hl Hr. cbv zeta. unfold redeem_rewards in Hr.
  apply outcome_bind_ok in Hr as ([[s1 [x1 y1]]|] & Hred & Hr); [|done].
  apply outcome_bind_ok in Hr as (a1 & Ha1%map_err_ok & Hr). apply outcome_bind_ok in Hr as (a2 & Ha2 & Hr).
  injection Hr as -> -> ->. unfold account_checked_add_lamports in Ha1.
  apply outcome_bind_ok in Ha1 as (l & [-> Hrange]%ok_or_ok%checked_Some & Ha1). injection Ha1 as <-.
  destruct (redeem_stake_ok s v pv s1 x y Hsv HR HP Hmax Hred) as (Hx & Hy & Hxy & Hs1).
  rewrite Hs1 in Ha2 by (unfold in_range in Hrange; cbn [int_max U64] in *; lia).
  apply shared_set_state_ok in Ha2 as (Hd & Hla & Hoa). split_and!; [done..| | |].
  - apply stake_view_Some. split_and!; [by rewrite Hoa|done|by rewrite Hla].
  - unfold backed_state, rewarded, going. simpl. intros (? & ? & Hb). split_and!; [done|lia|]. intros Hg. specialize (Hb Hg). lia.
  - intros pv' b b' x' y' Hr. unfold redeem_rewards in Hr. apply outcome_bind_ok in Hr as (r & Hr & Hr').
    unfold redeem_stake_rewards in Hr. apply outcome_bind_ok in Hr as (c & Hc & Hr). injection Hr as <-.
    apply observed_no_rewards in Hc; [|done]. destruct c as [c|]; [|done]. simpl in Hr', Hc.
    apply outcome_bind_ok in Hr' as (? & _ & Hr'). apply outcome_bind_ok in Hr' as (? & _ & Hr'). injection Hr' as _ <- <-. done.
Qed.

End rewards.

(** ** Merging and credits *)

(** A merge creates no claims.  The credits of a merged stake are between
    those of its parts, and rounded so that for any later total of credits the
    merged stake claims at most the points its parts would have claimed, and less
    than one credit per lamport under them. *)
Theorem merge_credits_fair (s s' : Stake) (absorbed seen : Z) :
  0 <= delegation_stake (delegation s) -> 0 <= absorbed ->
  merge_delegation_stake_and_credits_observed s absorbed seen = Ok s' ->
  let total := delegation_stake (delegation s) + absorbed in
  delegation_stake (delegation s') = total /\
  Z.min (credits_observed s) seen <= credits_observed s' <= Z.max (credits_observed s) seen /\
  forall credits,
    total * (credits - credits_observed s') <=
    delegation_stake (delegation s) * (credits - credits_observed s) + absorbed * (credits - seen) <=
    total * (credits - credits_observed s') + Z.max 0 (total - 1).
Proof.
  intros Hs Ha Hr. assert (credits_observed s = seen \/ 0 < delegation_stake (delegation s) + absorbed) as Hpos.
  { unfold merge_delegation_stake_and_credits_observed in Hr.
    apply outcome_bind_ok in Hr as (c & Hc%ok_or_ok & _). unfold stake_weighted_credits_observed in Hc.
    destruct (Z.eqb_spec (credits_observed s) seen); [by left|right].
    apply bind_Some in Hc as (t & [-> _]%checked_Some & Hc).
    do 5 (apply bind_Some in Hc as (? & _ & Hc)). destruct (Z.eqb_spec (delegation_stake (delegation s) + absorbed) 0); [done|lia]. }
  apply merge_delegation_ok in Hr as ->. cbv zeta. unfold merged_stake, average_credits. cbn [delegation credits_observed delegation_stake with_delegation_stake].
  set (s1 := delegation_stake (delegation s)) in *. set (c1 := credits_observed s) in *. clearbody s1 c1.
  split; [done|]. destruct (Z.eqb_spec c1 seen) as [->|Hne]; [split; [lia|intros; nia]|].
  destruct Hpos as [|Hpos]; [done|]. set (n := c1 * s1 + seen * absorbed + (s1 + absorbed) - 1).
  pose proof (Z.div_mod n (s1 + absorbed) ltac:(lia)) as Hd. pose proof (Z.mod_pos_bound n (s1 + absorbed) Hpos) as Hm.
  set (q := n / (s1 + absorbed)) in *. set (r := n mod (s1 + absorbed)) in *. clearbody q r. subst n.
  split; [|intros C; nia]. split; nia.
Qed.

(** ** Accounts of genesis *)

Section genesis_accounts.
Context {mids : MessageIds} {codec : Bincode StakeStateV2.StakeStateV2} {codec_ok : BincodeOk StakeStateV2.StakeStateV2}
  {vote_codec : Bincode VoteStateVersions}.

Lemma expect_set_state_ok st l n o a :
  expect_set_state st (shared_new l n o) = Ok a -> o = stake_program_id -> stake_view a = Some (l, st).
Proof.
  unfold expect_set_state. destruct (shared_set_state _ _) eqn:Hs; [|done..]. intros [= <-] ->.
  apply shared_set_state_ok in Hs as (Hd & Hl & Ho). by apply stake_view_Some.
Qed.

(** A lockup account has its reserve; a delegated account stakes the rest, and
    if there is no rest the difference wraps around. *)
Lemma genesis_accounts_views authorized voter authorities lockup vote rent lamports epoch a :
  (create_lockup_stake_account authorities lockup rent lamports = Ok a ->
   stake_view a = Some (lamports, StakeStateV2.Initialized
     (mkMeta (minimum_balance rent StakeStateV2.size_of) authorities lockup)) /\
   minimum_balance rent StakeStateV2.size_of <= lamports) /\
  (do_create_account authorized voter vote rent lamports epoch = Ok a ->
   exists v, vote_state_from vote = Some v /\
   stake_view a = Some (lamports, StakeStateV2.Stake
     (mkMeta (minimum_balance rent StakeStateV2.size_of) (Authorized_auto authorized) Lockup_default)
     (mkStake (Delegation_new voter (wrapping U64 (lamports - minimum_balance rent StakeStateV2.size_of)) epoch)
        (credits v)) StakeFlags.empty)).
Proof.
  split.
  - unfold create_lockup_stake_account. change (vec_len _) with StakeStateV2.size_of.
    destruct (Z.ltb_spec lamports (minimum_balance rent StakeStateV2.size_of)); [done|].
    intros Ha. split; [by eapply expect_set_state_ok|done].
  - unfold do_create_account. change (vec_len _) with StakeStateV2.size_of.
    destruct (vote_state_from vote) as [v|]; [|done]. cbn [unwrap outcome_bind]. intros Ha. exists v.
    split; [done|]. by eapply expect_set_state_ok.
Qed.

End genesis_accounts.

(** ** The stake history *)

Section history.
Context (rate : option Epoch) (epoch : Epoch) (h : StakeHistory.StakeHistory).

Abbreviation status d := (stake_activating_and_deactivating h rate d epoch).

Lemma history_loop stakes acc :
  Forall (fun d => in_range U64 (delegation_stake d)) stakes ->
  0 <= effective acc -> 0 <= activating acc -> 0 <= deactivating acc ->
  effective acc + activating acc + sum_Z (delegation_stake <$> stakes) <= int_max U64 ->
  deactivating acc + sum_Z (delegation_stake <$> stakes) <= int_max U64 ->
  let entry := foldl (fun sum d => StakeHistoryEntry_add sum (status d)) acc stakes in
  effective entry = effective acc + sum_Z ((fun d => effective (status d)) <$> stakes) /\
  activating entry = activating acc + sum_Z ((fun d => activating (status d)) <$> stakes) /\
  deactivating entry = deactivating acc + sum_Z ((fun d => deactivating (status d)) <$> stakes) /\
  effective entry + activating entry <= effective acc + activating acc + sum_Z (delegation_stake <$> stakes).
Proof.
  intros Hf. revert acc. induction Hf as [|d stakes Hd Hf IH]; intros acc H1 H2 H3 H4 H5; cbv zeta; cbn [foldl fmap list_fmap] in *.
  { simpl. lia. }
  rewrite !sum_Z_cons in *.
  assert (0 <= sum_Z (delegation_stake <$> stakes)) as Hn.
  { apply sum_Z_nonneg, list.Forall_fmap. eapply list.Forall_impl; [exact Hf|]. intros x Hx. apply Hx. }
  destruct (status_bounds h rate d epoch Hd) as (B1 & B2 & B3 & B4 & _). set (st := status d) in *. clearbody st.
  assert (StakeHistoryEntry_add acc st = mkStakeHistoryEntry (effective acc + effective st) (activating acc + activating st)
    (deactivating acc + deactivating st)) as ->.
  { unfold StakeHistoryEntry_add, saturating_add. rewrite !saturating_small; [done|unfold in_range; cbn [int_min int_max U64] in *; lia..]. }
  destruct (IH (mkStakeHistoryEntry (effective acc + effective st) (activating acc + activating st)
    (deactivating acc + deactivating st))) as (E1 & E2 & E3 & E4); cbn [effective activating deactivating] in *; lia.
Qed.

(** The stake history counts the cluster.  If all delegations together are
    within [u64], the entry of an epoch is the exact sum of what is effective,
    activating and deactivating, and no more is effective or activating than is
    delegated. *)
Theorem stake_history_exact (stakes : list Delegation) :
  Forall (fun d => in_range U64 (delegation_stake d)) stakes ->
  sum_Z (delegation_stake <$> stakes) <= int_max U64 ->
  let entry := new_stake_history_entry rate epoch stakes h in
  effective entry = sum_Z ((fun d => effective (status d)) <$> stakes) /\
  activating entry = sum_Z ((fun d => activating (status d)) <$> stakes) /\
  deactivating entry = sum_Z ((fun d => deactivating (status d)) <$> stakes) /\
  effective entry + activating entry <= sum_Z (delegation_stake <$> stakes).
Proof.
  intros Hf Hs. cbv zeta. unfold new_stake_history_entry.
  destruct (history_loop stakes (mkStakeHistoryEntry 0 0 0) Hf) as (E1 & E2 & E3 & E4); try done.
Qed.

End history.
