(* ===== verification/SystemCalls.v ===== *)
(** * What the system program promises to a program that calls it

    An interface: the effects of a transfer, an allocation and an assignment
    that were invoked and returned, on the values of accounts.  The runtime with
    the system program registered implements it; a program that makes such calls
    is verified against it. *)

From S2P Require Import Prelude Errors Rent Account Pubkey Sysvars EpochSchedule Nonce TransactionContext RuntimeRules CallStack SysvarCache FeatureSet SystemProgram Effects SystemRules InvokeContext InvokeRules ProcessRules Message SystemInstructions.

(** ** Effects on values *)

Abbreviation key_at tc i := (vec_get (account_keys tc) i).
Abbreviation Values := (IndexOfAccount -> option AccountSharedData).

(** Account [i] was [a] and is [a'], and no other account changed. *)
Record replaces (i : IndexOfAccount) (a a' : AccountSharedData) (v v' : Values) : Prop := {
  re_before : v i = Some a;
  re_after : v' i = Some a';
  re_other : forall j, j <> i -> v' j = v j;
}.

Lemma becomes_replaces i a a' tc tc' : becomes i a a' tc tc' -> replaces i a a' (account_at tc) (account_at tc').
Proof. intros []. by split. Qed.

Lemma replaces_trans i a b c x y z : replaces i a b x y -> replaces i b c y z -> replaces i a c x z.
Proof. intros [] []. split; [done..|]. intros j Hj. rewrite re_other1 by done. by apply re_other0. Qed.

Lemma replaces_ext i a a' v w v' w' :
  (forall j, w j = v j) -> (forall j, w' j = v' j) -> replaces i a a' v v' -> replaces i a a' w w'.
Proof. intros Hv Hv' []. split; [by rewrite Hv|by rewrite Hv'|]. intros j Hj. rewrite Hv, Hv'. auto. Qed.

Section interface.
Context {ids : ProgramIds}.

(** The account of the system program is the builtin's. *)
Definition system_loaded (tc : TransactionContext) : Prop :=
  forall j, key_at tc j = Some system_program_id ->
    exists a, account_at tc j = Some a /\ acc_executable a = true /\ acc_owner a = native_loader_id.

(** [l] lamports moved from the account of key [from] to that of key [to]. *)
Definition transferred (from to : Pubkey) (l : Z) (tc tc' : TransactionContext) : Prop :=
  exists i j a b v, key_at tc i = Some from /\ key_at tc j = Some to /\
    replaces i a (debit l a) (account_at tc) v /\ replaces j b (credit l b) v (account_at tc') /\
    acc_data a = [] /\ l <= acc_lamports a /\ in_range U64 (acc_lamports b + l) /\
    (0 < l -> acc_owner a = system_program_id).

(** An account of the system program without data got [space] zeroes. *)
Definition allocated (key : Pubkey) (space : Z) (tc tc' : TransactionContext) : Prop :=
  exists i a, key_at tc i = Some key /\
    replaces i a (account_resize space 0 a) (account_at tc) (account_at tc') /\
    acc_data a = [] /\ acc_owner a = system_program_id.

(** The account belongs to [owner] now, and if it did not, to nobody before. *)
Definition assigned (key owner : Pubkey) (tc tc' : TransactionContext) : Prop :=
  exists i a, key_at tc i = Some key /\
    replaces i a (account_set_owner owner a) (account_at tc) (account_at tc') /\
    (acc_owner a <> owner -> acc_owner a = system_program_id /\ acc_executable a = false).

Context {codec : Bincode SystemInstruction}.

(** What a program relies on when it calls the system program. *)
Class SystemCalls (invoke : Invoke) : Prop := {
  calls_contained : invoke_contained invoke;
  call_transfer from to l ix signers ic s s' :
    running ic (transaction_context s) -> system_loaded (transaction_context s) ->
    Sdk.transfer from to l = Ok ix -> invoke (StableInstruction_from ix) signers s = (Ok tt, s') ->
    transferred from to l (transaction_context s) (transaction_context s');
  call_allocate key space ix signers ic s s' :
    running ic (transaction_context s) -> system_loaded (transaction_context s) -> 0 <= space ->
    Sdk.allocate key space = Ok ix -> invoke (StableInstruction_from ix) signers s = (Ok tt, s') ->
    allocated key space (transaction_context s) (transaction_context s');
  call_assign key owner ix signers ic s s' :
    running ic (transaction_context s) -> system_loaded (transaction_context s) ->
    Sdk.assign key owner = Ok ix -> invoke (StableInstruction_from ix) signers s = (Ok tt, s') ->
    assigned key owner (transaction_context s) (transaction_context s');
}.

(** ** The calls leave the system program loaded *)

Lemma replaces_loaded i a a' (v v' : Values) keys j :
  replaces i a a' v v' -> (acc_executable a = true -> acc_executable a' = true /\ acc_owner a' = acc_owner a) ->
  (exists x, v j = Some x /\ acc_executable x = true /\ acc_owner x = keys) ->
  exists x, v' j = Some x /\ acc_executable x = true /\ acc_owner x = keys.
Proof.
  intros [Hb Ha Ho] Hkeep (x & Hx & He & Hw). destruct (decide (j = i)) as [->|Hne].
  - rewrite Hb in Hx. injection Hx as <-. destruct (Hkeep He) as [He' Hw']. exists a'.
    split_and!; [done..|congruence].
  - exists x. by rewrite Ho.
Qed.

Lemma transferred_loaded from to l tc tc' :
  account_keys tc' = account_keys tc -> transferred from to l tc tc' -> system_loaded tc -> system_loaded tc'.
Proof.
  intros Hk (i & j & a & b & v & _ & _ & H1 & H2 & _) Hl n Hn. rewrite Hk in Hn.
  eapply replaces_loaded; [exact H2|done|]. eapply replaces_loaded; [exact H1|done|]. by apply Hl.
Qed.

Lemma allocated_loaded key space tc tc' :
  account_keys tc' = account_keys tc -> allocated key space tc tc' -> system_loaded tc -> system_loaded tc'.
Proof.
  intros Hk (i & a & _ & H1 & _) Hl n Hn. rewrite Hk in Hn. eapply replaces_loaded; [exact H1|done|]. by apply Hl.
Qed.

Lemma assigned_loaded key owner tc tc' :
  account_keys tc' = account_keys tc -> assigned key owner tc tc' -> system_loaded tc -> system_loaded tc'.
Proof.
  intros Hk (i & a & _ & H1 & Ho) Hl n Hn. rewrite Hk in Hn. eapply replaces_loaded; [exact H1| |by apply Hl].
  intros He. split; [done|]. simpl. destruct (decide (acc_owner a = owner)) as [->|Hne]; [done|].
  apply Ho in Hne as [_ Hne]. congruence.
Qed.

End interface.

(** ** The runtime implements the interface *)

(** What a decoder with a limit returns is what was encoded. *)
Class BincodeAgrees (T : Type) `{!Bincode T, !BincodeLimited T} : Prop :=
  limited_agrees limit (x : T) bs y :
    bincode_serialize x = Some bs -> deserialize_with_limit limit bs = Some y -> y = x.

Section runtime.
Context {hashing : Hashing} {ids : ProgramIds}.
Context {versions_codec : Bincode Versions} {limited_codec : BincodeLimited SystemInstruction}.
Context {codec : Bincode SystemInstruction} {agrees : BincodeAgrees SystemInstruction}.
Context (find_builtin : Pubkey -> option (option Builtin)) {Hprograms : ProgramsOk find_builtin}.
Context (Hsystem : find_builtin system_program_id = Some (Some system_builtin)).

(** The builtin that runs is the one of the only program account. *)
Lemma builtin_id_of_loaded ic j key a tc id tc' :
  program_accounts ic = [j] -> key_at tc j = Some key -> account_at tc j = Some a ->
  acc_owner a = native_loader_id ->
  builtin_id_of ic tc = (Ok id, tc') -> id = key.
Proof.
  intros Hp Hj Ha Ho H. unfold builtin_id_of in H.
  destruct (try_borrow_program_account ic 0 tc) as [[root|e|] tc1] eqn:Hb; [|done..].
  unfold try_borrow_program_account, bind, lift, get_index_of_program_account_in_transaction in Hb.
  rewrite Hp in Hb. change (vec_get [j] 0) with (Some j) in Hb. simpl in Hb.
  pose proof (try_borrow_account_only _ _ _ _ _ _ Hb) as (Hf & Hv & _).
  apply try_borrow_account_inv in Hb as (acc & Hc & -> & ->).
  apply finally_inv in H as (tc2 & H & ->).
  apply bind_ok_inv in H as (a' & s & Hq & H). apply query_ok_inv in Hq as [Hq%borrowed_account_at ->].
  simpl in Hq. rewrite Hv, Ha in Hq. injection Hq as <-.
  rewrite bool_decide_eq_true_2 in H by done. apply query_ok_inv in H as [H _].
  unfold get_key in H. simpl in H. unfold get_key_of_account_at_index in H.
  rewrite (sf_keys _ _ Hf), Hj in H. by injection H as <-.
Qed.

Lemma consume_checked_ok amount s s' :
  consume_checked amount s = (Ok tt, s') ->
  environment s' = environment s /\ transaction_context s' = transaction_context s.
Proof.
  unfold consume_checked. intros H. apply bind_ok_inv in H as (b & t & Hq & H). apply gets_ok_inv in Hq as [-> ->].
  apply bind_ok_inv in H as ([] & t & Hq & H). apply modify_ok_inv in Hq as ->.
  destruct (_ <? _); [done|]. by apply ret_ok_inv in H as [_ ->].
Qed.

(** A run of the system program that returned, inside its builtin. *)
Lemma system_builtin_ok_inv invoke s s' :
  system_builtin invoke s = (Ok tt, s') ->
  Entrypoint (environment s) (transaction_context s) = (Ok tt, transaction_context s').
Proof.
  unfold system_builtin, declare_process_instruction. change (0 <? DEFAULT_COMPUTE_UNITS) with true. cbv iota.
  intros H. apply bind_ok_inv in H as ([] & s1 & H1 & H).
  apply consume_checked_ok in H1 as [He Ht].
  unfold as_program in H. destruct ((let? env := gets environment in on_tc (Entrypoint env)) s1) as [o t] eqn:E.
  destruct o; simplify_eq/=.
  apply bind_ok_inv in E as (env & t & Hq & E). apply gets_ok_inv in Hq as [-> ->].
  apply zoom_inv in E as (tc' & E & ->). by rewrite <- He, <- Ht.
Qed.

(** What is known of the call: the callee runs with the accounts of the
    instruction, on the values of the caller. *)
Record system_run (instruction : StableInstruction) (tc tc' : TransactionContext)
    (env : Environment) (ic : InstructionContext) (tc1 tc2 : TransactionContext) : Prop := {
  sr_small : ic_small ic;
  sr_current : get_current_instruction_context tc1 = Ok ic;
  sr_data : instruction_data ic = si_data instruction;
  sr_accounts : Forall2 (fun meta ia => key_at tc (index_in_transaction ia) = Some (meta_pubkey meta))
    (si_accounts instruction) (instruction_accounts ic);
  sr_program : program_key ic tc1 = Some system_program_id;
  sr_keys : account_keys tc1 = account_keys tc;
  sr_before : forall j, account_at tc1 j = account_at tc j;
  sr_run : Entrypoint env tc1 = (Ok tt, tc2);
  sr_after : forall j, account_at tc' j = account_at tc2 j;
}.

Lemma current_context_stacks tc tc' :
  instruction_stack tc' = instruction_stack tc -> instruction_trace tc' = instruction_trace tc ->
  get_current_instruction_context tc' = get_current_instruction_context tc.
Proof.
  intros Hs Ht. unfold get_current_instruction_context, get_instruction_context_at_nesting_level,
    get_instruction_context_at_index_in_trace, get_instruction_context_stack_height. by rewrite Hs, Ht.
Qed.

(** The chain runs the entrypoint of the system program. *)
Lemma chain_runs_system invoke ic j s s' :
  program_accounts ic = [j] -> key_at (transaction_context s) j = Some system_program_id ->
  system_loaded (transaction_context s) -> get_current_instruction_context (transaction_context s) = Ok ic ->
  process_executable_chain find_builtin invoke s = (Ok tt, s') ->
  exists env tc1, account_keys tc1 = account_keys (transaction_context s) /\
    get_current_instruction_context tc1 = Ok ic /\
    (forall j, account_at tc1 j = account_at (transaction_context s) j) /\
    Entrypoint env tc1 = (Ok tt, transaction_context s').
Proof.
  intros Hp Hj Hl Hc H. unfold process_executable_chain in H.
  apply bind_ok_inv in H as (ic' & s1 & H1 & H). apply zoom_inv in H1 as (t & H1 & ->).
  apply query_ok_inv in H1 as [H1 ->]. rewrite Hc in H1. injection H1 as <-.
  apply bind_ok_inv in H as (id & s1 & H1 & H). apply zoom_inv in H1 as (t & H1 & ->).
  pose proof (keeps_ok _ _ _ _ _ (builtin_id_of_only ic) H1) as (Hf & Hv & _).
  destruct (Hl j Hj) as (a & Ha & _ & Ho). apply (builtin_id_of_loaded ic j system_program_id a) in H1; [subst id|done..].
  apply bind_ok_inv in H as (entry & s1 & H1 & H). apply lift_ok_inv in H1 as [H1 ->].
  rewrite Hsystem in H1. injection H1 as <-.
  apply bind_ok_inv in H as (f & s1 & H1 & H). apply lift_ok_inv in H1 as [H1 ->]. injection H1 as <-.
  apply bind_ok_inv in H as (program_id & s1 & H1 & H). apply zoom_inv in H1 as (t' & H1 & ->).
  apply query_ok_inv in H1 as [_ ->].
  apply bind_ok_inv in H as ([] & s1 & H1 & H). apply zoom_inv in H1 as (t' & H1 & ->).
  apply modify_ok_inv in H1 as ->. unfold run_program in H.
  destruct (system_builtin invoke _) as [o s2] eqn:E.
  assert (o = Ok tt /\ s' = with_consumed (compute_units_consumed s') s2) as [-> Hs'].
  { destruct o as [[]|e|]; simpl in H; repeat case_match; by simplify_eq. }
  apply system_builtin_ok_inv in E. eexists _, _. split; [|split; [|split; [|rewrite Hs'; exact E]]].
  - apply Hf.
  - rewrite <- Hc. by apply current_context_stacks; apply Hf.
  - done.
Qed.

Lemma program_key_single ic j tc key :
  program_accounts ic = [j] -> key_at tc j = Some key -> program_key ic tc = Some key.
Proof.
  intros Hp Hk. unfold program_key, get_last_program_key, get_index_of_program_account_in_transaction,
    get_number_of_program_accounts. rewrite Hp. change (saturating_sub U16 (as_index (vec_len [j])) 1) with 0.
  change (vec_get [j] 0) with (Some j). simpl. unfold get_key_of_account_at_index. by rewrite Hk.
Qed.

Lemma native_call_runs fuel instruction signers ic s s' :
  running ic (transaction_context s) -> system_loaded (transaction_context s) ->
  si_program_id instruction = system_program_id -> vec_len (si_accounts instruction) < int_max U16 ->
  native_invoke_with (process_instruction find_builtin fuel) instruction signers s = (Ok tt, s') ->
  exists env ic2 tc1 tc2,
    system_run instruction (transaction_context s) (transaction_context s') env ic2 tc1 tc2.
Proof.
  intros Hr Hl Hid Hlen H. unfold native_invoke_with in H.
  apply bind_ok_inv in H as ([ias programs] & s1 & Hp & H).
  apply prepare_instruction_run in Hp as (tcp & Hp & ->).
  pose proof (keeps_ok _ _ _ _ _ (prepare_instruction_only _ _ _) Hp) as Hbo.
  destruct Hbo as (Hf & Hv & _).
  apply (prepare_instruction_spec _ _ _ _ ic) in Hp as (Hacc & _ & (j & acc & Hj & _ & _ & _ & Hjk));
    [|apply Hr|apply Hr|lia|apply Hr]. simpl in Hj. subst programs. rewrite Hid in Hjk.
  apply bind_ok_inv in H as (outer & s1 & Hq & H). apply gets_ok_inv in Hq as [-> ->].
  apply finally_inv in H as (s2 & H & ->). cbn [fst snd] in *.
  destruct fuel as [|fuel]; [done|]. cbn [process_instruction] in H.
  assert (stack_ok tcp) as Hok by (eapply same_frame_stack_ok; [exact Hf|apply Hr]).
  assert (keys_ok tcp) as Hk by (unfold keys_ok; rewrite (sf_keys _ _ Hf); apply Hr).
  assert (vec_len [j] + vec_len ias <= int_max U16) as Hsm.
  { apply Forall2_length in Hacc. unfold vec_len in *. simpl in *. lia. }
  rewrite process_instruction_with_run in H by done. cbv zeta in H. cbn [transaction_context with_transaction_context] in H.
  destruct (check_reentrancy _); [|done..].
  destruct (push _) as [[[]|e|] tcc] eqn:Hpush; [|done..].
  destruct (pushed_running _ _ _ _ _ Hok Hk Hsm Hpush) as
    (ic2 & [_ _ Hsm2 Hcur2] & Hias & _ & _ & _ & Hkeys2 & Hpr2 & Hda2 & Hac2).
  destruct (and_always_inv _ _ _ _ _ H ltac:(done)) as (o1 & s3 & o2 & H1 & _ & H2 & Hoo).
  destruct (Hoo eq_refl) as [[[] ->] ->].
  assert (forall k, account_at tcc k = account_at (transaction_context s) k) as Hvc.
  { intros k. rewrite <- Hv. unfold account_at. by rewrite Hac2. }
  assert (account_keys tcc = account_keys (transaction_context s)) as Hkc by (by rewrite Hkeys2, (sf_keys _ _ Hf)).
  apply (chain_runs_system _ ic2 j) in H1 as (env & tc1 & Hk1 & Hc1 & Hv1 & H1); cbn [pushed_state transaction_context
    with_transaction_context with_syscall_context with_consumed] in *;
    [|done|by rewrite Hkc|intros k; rewrite Hkc, Hvc; apply Hl|done].
  exists env, ic2, tc1, (transaction_context s3). split; try done.
  - rewrite Hias. eapply list.Forall2_impl; [exact Hacc|]. by intros ?? [].
  - eapply program_key_single; [done|]. by rewrite Hk1, Hkc.
  - by rewrite Hk1.
  - intros k. by rewrite Hv1.
  - intros k. destruct (invoke_pop_run s3) as (s4 & Hs4 & Hpop). rewrite Hpop in H2.
    rewrite pop_spec in H2. by destruct (instruction_stack (transaction_context s3)); injection H2 as _ <-.
Qed.

(** The entrypoint dispatches the instruction that was encoded. *)
Lemma entrypoint_dispatches (instruction : SystemInstruction) bs env ic tc tc' :
  bincode_serialize instruction = Some bs -> get_current_instruction_context tc = Ok ic ->
  instruction_data ic = bs -> Entrypoint env tc = (Ok tt, tc') ->
  exists signers, dispatch env ic signers instruction tc = (Ok tt, tc').
Proof.
  intros Hbs Hc Hd H. unfold Entrypoint in H.
  apply bind_ok_inv in H as (ic' & t & Hq & H). apply query_ok_inv in Hq as [Hq ->]. rewrite Hc in Hq.
  injection Hq as <-. apply bind_ok_inv in H as (x & t & Hq & H). apply lift_ok_inv in Hq as [Hq ->].
  apply ok_or_ok in Hq. rewrite Hd in Hq. apply (limited_agrees _ _ _ _ Hbs) in Hq as ->.
  apply bind_ok_inv in H as (signers & t & Hq & H). apply query_ok_inv in Hq as [_ ->]. eauto.
Qed.

Lemma new_with_bincode_ok (x : SystemInstruction) program_id metas ix :
  new_with_bincode program_id x metas = Ok ix ->
  exists bs, bincode_serialize x = Some bs /\ ix = mkInstruction program_id metas bs.
Proof.
  unfold new_with_bincode. destruct (bincode_serialize x) as [bs|]; simpl; [|done]. intros [= <-]. eauto.
Qed.

Lemma Forall2_first {A B} (R : A -> B -> Prop) x l l' y :
  Forall2 R (x :: l) l' -> vec_get l' 0 = Some y -> R x y.
Proof. intros H. inversion H; subst. by intros [= <-]. Qed.

Lemma Forall2_second {A B} (R : A -> B -> Prop) x1 x2 l l' y :
  Forall2 R (x1 :: x2 :: l) l' -> vec_get l' 1 = Some y -> R x2 y.
Proof. intros H. inversion H as [|???? _ H2]; subst. inversion H2; subst. by intros [= <-]. Qed.

Lemma native_call_transfer fuel from to l ix signers ic s s' :
  running ic (transaction_context s) -> system_loaded (transaction_context s) ->
  Sdk.transfer from to l = Ok ix ->
  native_invoke_with (process_instruction find_builtin fuel) (StableInstruction_from ix) signers s = (Ok tt, s') ->
  transferred from to l (transaction_context s) (transaction_context s').
Proof.
  intros Hr Hl (bs & Hbs & ->)%new_with_bincode_ok H.
  apply (native_call_runs _ _ _ ic) in H as (env & ic2 & tc1 & tc2 & []); [|done..].
  apply (entrypoint_dispatches _ _ _ _ _ _ Hbs sr_current0 sr_data0) in sr_run0 as (sg & H).
  unfold dispatch in H. apply bind_ok_inv in H as (u & t & Hq & H). apply lift_ok_inv in Hq as [_ ->].
  unfold transfer in H. apply bind_ok_inv in H as (b & t & Hq & H). apply lift_ok_inv in Hq as [_ ->].
  destruct b; [|by inv_ok H].
  apply transfer_verified_spec in H as
    (f & t & a & b & mid & Hf & Ht & Hb1 & Hb2 & _ & _ & Hd & Hle & Hin & Ho); [|done].
  exists (index_in_transaction f), (index_in_transaction t), a, b, (account_at mid).
  split_and!; try done.
  - by apply (Forall2_first _ _ _ _ _ sr_accounts0).
  - by apply (Forall2_second _ _ _ _ _ _ sr_accounts0).
  - eapply replaces_ext; [symmetry; apply sr_before0|done|by apply becomes_replaces].
  - eapply replaces_ext; [done|apply sr_after0|by apply becomes_replaces].
  - intros Hpos. specialize (Ho Hpos). unfold program_owns in Ho. rewrite sr_program0 in Ho. by injection Ho.
Qed.

(** The scope of an instruction on one account. *)
Lemma single_account_replaces ic (scope : BorrowedAccount -> TxM unit) metas tc tc' tc1 tc2
    (P : AccountSharedData -> AccountSharedData -> Prop) key :
  Forall2 (fun meta ia => key_at tc (index_in_transaction ia) = Some (meta_pubkey meta))
    (AccountMeta_new key true :: metas) (instruction_accounts ic) ->
  (forall j, account_at tc1 j = account_at tc j) -> (forall j, account_at tc' j = account_at tc2 j) ->
  borrowing (try_borrow_instruction_account ic 0) scope tc1 = (Ok tt, tc2) ->
  (forall ia t t', vec_get (instruction_accounts ic) 0 = Some ia -> same_frame tc1 t ->
    scope (instruction_handle_of ic 0 ia) t = (Ok tt, t') ->
    exists a a', becomes (index_in_transaction ia) a a' t t' /\ P a a') ->
  exists i a a', key_at tc i = Some key /\ replaces i a a' (account_at tc) (account_at tc') /\ P a a'.
Proof.
  intros Hacc Hb Ha H Hs. apply (borrowing_becomes _ _ _ _ _ P) in H as (ia & a & a' & Hi & Hbe & HP).
  - exists (index_in_transaction ia), a, a'. split_and!; [by apply (Forall2_first _ _ _ _ _ Hacc)| |done].
    eapply replaces_ext; [symmetry; apply Hb|apply Ha|by apply becomes_replaces].
  - intros ia t t' Hi Hf _ Hr. by eapply Hs.
Qed.

Lemma native_call_allocate fuel key space ix signers ic s s' :
  running ic (transaction_context s) -> system_loaded (transaction_context s) -> 0 <= space ->
  Sdk.allocate key space = Ok ix ->
  native_invoke_with (process_instruction find_builtin fuel) (StableInstruction_from ix) signers s = (Ok tt, s') ->
  allocated key space (transaction_context s) (transaction_context s').
Proof.
  intros Hr Hl Hpos (bs & Hbs & ->)%new_with_bincode_ok H.
  apply (native_call_runs _ _ _ ic) in H as (env & ic2 & tc1 & tc2 & []); [|done..].
  apply (entrypoint_dispatches _ _ _ _ _ _ Hbs sr_current0 sr_data0) in sr_run0 as (sg & H).
  unfold dispatch in H. apply bind_ok_inv in H as (u & t & Hq & H). apply lift_ok_inv in Hq as [_ ->].
  apply (single_account_replaces _ _ _ _ _ _ _ (fun a a' => a' = account_resize space 0 a /\
    acc_data a = [] /\ acc_owner a = system_program_id) _ sr_accounts0 sr_before0 sr_after0) in H
    as (i & a & ? & Hk & Hre & -> & Hd & Ho).
  - by exists i, a.
  - intros ia t t' Hi _ Hs. apply bind_ok_inv in Hs as (ad & t1 & Hq & Hs).
    assert (t1 = t) as -> by (unfold instruction_address in Hq; by inv_ok Hq). clear Hq. unfold allocate in Hs. destruct (Address_is_signer _ _); [|done].
    apply bind_ok_inv in Hs as (a & t2 & Hq & Hs). apply query_ok_inv in Hq as [Hb%borrowed_account_at ->].
    destruct (_ || _) eqn:G; [done|]. destruct (_ <? _); [done|].
    apply set_data_length_changed in Hs as (a' & Hch & _); [|done].
    rewrite (ch_before _ _ _ _ _ Hch) in Hb. injection Hb as ->. bool_facts.
    exists a, (account_resize space 0 a). split; [by apply changed_becomes|].
    split_and!; [done|by apply vec_len_nil|done].
Qed.

Lemma native_call_assign fuel key owner ix signers ic s s' :
  running ic (transaction_context s) -> system_loaded (transaction_context s) ->
  Sdk.assign key owner = Ok ix ->
  native_invoke_with (process_instruction find_builtin fuel) (StableInstruction_from ix) signers s = (Ok tt, s') ->
  assigned key owner (transaction_context s) (transaction_context s').
Proof.
  intros Hr Hl (bs & Hbs & ->)%new_with_bincode_ok H.
  apply (native_call_runs _ _ _ ic) in H as (env & ic2 & tc1 & tc2 & []); [|done..].
  apply (entrypoint_dispatches _ _ _ _ _ _ Hbs sr_current0 sr_data0) in sr_run0 as (sg & H).
  unfold dispatch in H. apply bind_ok_inv in H as (u & t & Hq & H). apply lift_ok_inv in Hq as [_ ->].
  apply (single_account_replaces _ _ _ _ _ _ _ (fun a a' => a' = account_set_owner owner a /\
    (acc_owner a <> owner -> acc_owner a = system_program_id /\ acc_executable a = false))
    _ sr_accounts0 sr_before0 sr_after0) in H as (i & a & ? & Hk & Hre & -> & Ho).
  - by exists i, a.
  - intros ia t t' Hi Hf Hs. apply bind_ok_inv in Hs as (ad & t1 & Hq & Hs).
    assert (t1 = t) as -> by (unfold instruction_address in Hq; by inv_ok Hq). clear Hq. unfold assign in Hs.
    apply bind_ok_inv in Hs as (a & t2 & Hq & Hs). apply query_ok_inv in Hq as [Hb%borrowed_account_at ->].
    case_bool_decide as Howner.
    + inv_ok Hs. exists a, a. split; [by apply becomes_refl|]. split; [|done]. by destruct a.
    + destruct (Address_is_signer _ _); [|done].
      apply set_owner_changed in Hs as (a' & Hch & He & _ & Hown & _).
      rewrite (ch_before _ _ _ _ _ Hch) in Hb. injection Hb as ->.
      exists a, (account_set_owner owner a). split; [by apply changed_becomes|]. split; [done|]. intros _.
      apply (owned_program_owns ic2) in Hown; [|done]. unfold program_owns in Hown.
      rewrite (program_key_frame ic2 tc1) in Hown by done. rewrite sr_program0 in Hown. split; [by injection Hown|done].
Qed.

#[global] Instance native_invoke_system_calls fuel :
  SystemCalls (native_invoke_with (process_instruction find_builtin fuel)).
Proof.
  split.
  - by apply native_invoke_contained, process_instruction_contained_in.
  - intros. by eapply native_call_transfer.
  - intros. by eapply native_call_allocate.
  - intros. by eapply native_call_assign.
Qed.

End runtime.
