(* ===== verification/LookupTable.v ===== *)
(** * Address lookup tables (sdk/program/src/address_lookup_table, programs/address-lookup-table/src)

    A table holds addresses that messages name by an index.  The states, the
    lookups, the instructions of the SDK and the program itself, which calls the
    system program to fund and to allocate a table.  The view of bytes as
    addresses ([bytemuck::try_cast_slice]) is a parameter. *)

From S2P Require Import Prelude Errors Rent Account Pubkey Sysvars EpochSchedule Nonce TransactionContext SysvarCache FeatureSet SystemProgram InvokeContext Message SystemInstructions.

(** ** States (state.rs) *)

Class LookupTableIds := { address_lookup_table_program_id : Pubkey }.

Definition LOOKUP_TABLE_MAX_ADDRESSES : Z := 256.
Definition LOOKUP_TABLE_META_SIZE : Z := 56.

Inductive LookupTableStatus : Type :=
  | Activated
  | Deactivating (remaining_blocks : Z)
  | Deactivated.

Record LookupTableMeta := mkLookupTableMeta {
  deactivation_slot : Slot;
  last_extended_slot : Slot;
  last_extended_slot_start_index : Z;
  table_authority : option Pubkey;
  padding : Z;
}.

Definition LookupTableMeta_default : LookupTableMeta := mkLookupTableMeta (int_max U64) 0 0 None 0.

Definition LookupTableMeta_new (authority : Pubkey) : LookupTableMeta :=
  mkLookupTableMeta (int_max U64) 0 0 (Some authority) 0.

Definition set_authority (x : option Pubkey) (m : LookupTableMeta) : LookupTableMeta :=
  mkLookupTableMeta (deactivation_slot m) (last_extended_slot m) (last_extended_slot_start_index m) x (padding m).
Definition set_deactivation_slot (x : Slot) (m : LookupTableMeta) : LookupTableMeta :=
  mkLookupTableMeta x (last_extended_slot m) (last_extended_slot_start_index m) (table_authority m) (padding m).
Definition set_last_extended (slot : Slot) (index : Z) (m : LookupTableMeta) : LookupTableMeta :=
  mkLookupTableMeta (deactivation_slot m) slot index (table_authority m) (padding m).

(** A table that is deactivated cools down until its slot is no longer among
    the slot hashes. *)
Definition status (self : LookupTableMeta) (current_slot : Slot) (slot_hashes : SlotHashes.SlotHashes)
  : LookupTableStatus :=
  if deactivation_slot self =? int_max U64 then Activated
  else if deactivation_slot self =? current_slot then
    Deactivating (saturating_add USIZE (Z.of_nat SlotHashes.MAX_ENTRIES) 1)
  else match SlotHashes.position (deactivation_slot self) slot_hashes with
       | Some slot_hash_position =>
           Deactivating (saturating_sub USIZE (Z.of_nat SlotHashes.MAX_ENTRIES) (Z.of_nat slot_hash_position))
       | None => Deactivated
       end.

Definition table_is_active (self : LookupTableMeta) (current_slot : Slot)
    (slot_hashes : SlotHashes.SlotHashes) : bool :=
  match status self current_slot slot_hashes with
  | Activated => true
  | Deactivating _ => true
  | Deactivated => false
  end.

Module ProgramState.
Inductive ProgramState : Type := Uninitialized | LookupTable (meta : LookupTableMeta).
End ProgramState.
Abbreviation TableState := ProgramState.ProgramState.

Record AddressLookupTable := mkAddressLookupTable {
  table_meta : LookupTableMeta;
  table_addresses : list Pubkey;
}.

Inductive AddressLookupError : Type :=
  | LookupTableAccountNotFound | LookupInvalidAccountOwner | LookupInvalidAccountData | InvalidLookupIndex.

(** [bytemuck::try_cast_slice] to addresses of 32 bytes. *)
Class CastSlice := { try_cast_slice : Bytes -> option (list Pubkey) }.

Class CastSliceOk `{!CastSlice} : Prop :=
  try_cast_slice_spec : forall bs ks,
    try_cast_slice bs = Some ks <-> bs = mjoin ks /\ Forall (fun k => length k = 32%nat) ks.

Section state.
Context {cast : CastSlice} {state_codec : Bincode TableState}.

(** Zeroes the meta data and writes the new; the bytes behind it stay. *)
Definition overwrite_meta_data (data : Bytes) (lookup_table_meta : LookupTableMeta) : Res Bytes :=
  if vec_len data <? LOOKUP_TABLE_META_SIZE then Err InvalidAccountData else
  let meta_data := replicate (Z.to_nat LOOKUP_TABLE_META_SIZE) 0 in
  let! meta_data := ok_or GenericError
         (bincode_serialize_into meta_data (ProgramState.LookupTable lookup_table_meta)) in
  Ok (meta_data ++ drop (Z.to_nat LOOKUP_TABLE_META_SIZE) data).

Definition get_active_addresses_len (self : AddressLookupTable) (current_slot : Slot)
    (slot_hashes : SlotHashes.SlotHashes) : Outcome AddressLookupError Z :=
  if negb (table_is_active (table_meta self) current_slot slot_hashes)
  then Err LookupTableAccountNotFound
  else Ok (if last_extended_slot (table_meta self) <? current_slot
           then vec_len (table_addresses self)
           else last_extended_slot_start_index (table_meta self)).

(** [collect::<Option<_>>] of the addresses at the indexes. *)
Fixpoint get_all (active_addresses : list Pubkey) (indexes : list Z) : option (list Pubkey) :=
  match indexes with
  | [] => Some []
  | idx :: indexes =>
      match vec_get active_addresses idx with
      | Some address => cons address <$> get_all active_addresses indexes
      | None => None
      end
  end.

(** The slice of the active addresses panics if there are fewer. *)
Definition lookup (self : AddressLookupTable) (current_slot : Slot) (indexes : list Z)
    (slot_hashes : SlotHashes.SlotHashes) : Outcome AddressLookupError (list Pubkey) :=
  let! active_addresses_len := get_active_addresses_len self current_slot slot_hashes in
  if vec_len (table_addresses self) <? active_addresses_len then Panic else
  let active_addresses := take (Z.to_nat active_addresses_len) (table_addresses self) in
  ok_or InvalidLookupIndex (get_all active_addresses indexes).

Definition serialize_for_tests (self : AddressLookupTable) : Res Bytes :=
  let! data := overwrite_meta_data (replicate (Z.to_nat LOOKUP_TABLE_META_SIZE) 0) (table_meta self) in
  Ok (data ++ mjoin (table_addresses self)).

Definition AddressLookupTable_deserialize (data : Bytes) : Res AddressLookupTable :=
  let! program_state := ok_or InvalidAccountData (bincode_deserialize data) in
  let! meta := match program_state with
               | ProgramState.LookupTable meta => Ok meta
               | ProgramState.Uninitialized => Err UninitializedAccount
               end in
  let! raw_addresses_data := if vec_len data <? LOOKUP_TABLE_META_SIZE then Err InvalidAccountData
                             else Ok (drop (Z.to_nat LOOKUP_TABLE_META_SIZE) data) in
  let! addresses := ok_or InvalidAccountData (try_cast_slice raw_addresses_data) in
  Ok (mkAddressLookupTable meta addresses).

End state.

(** ** Instructions (instruction.rs) *)

Module ProgramInstruction.
Inductive ProgramInstruction : Type :=
  | CreateLookupTable (recent_slot : Slot) (bump_seed : Z)
  | FreezeLookupTable
  | ExtendLookupTable (new_addresses : list Pubkey)
  | DeactivateLookupTable
  | CloseLookupTable.
End ProgramInstruction.
Abbreviation TableInstruction := ProgramInstruction.ProgramInstruction.

Module TableSdk.
Section constructors.
Context {Hhash : Hashing} {Hcurve : Curve} {Hids : ProgramIds} {Htid : LookupTableIds} {codec : Bincode TableInstruction}.
Abbreviation Result := (Outcome Empty_set Instruction).

Definition derive_lookup_table_address (authority_address : Pubkey) (recent_block_slot : Slot)
  : Outcome Empty_set (Pubkey * Z) :=
  find_program_address [authority_address; le_bytes 8 recent_block_slot] address_lookup_table_program_id.

Definition create_lookup_table_common (authority_address payer_address : Pubkey) (recent_slot : Slot)
    (authority_is_signer : bool) : Outcome Empty_set (Instruction * Pubkey) :=
  let! derived := derive_lookup_table_address authority_address recent_slot in
  let (lookup_table_address, bump_seed) := derived : Pubkey * Z in
  let! instruction := new_with_bincode address_lookup_table_program_id
         (ProgramInstruction.CreateLookupTable recent_slot bump_seed)
         [AccountMeta_new lookup_table_address false;
          AccountMeta_new_readonly authority_address authority_is_signer;
          AccountMeta_new payer_address true;
          AccountMeta_new_readonly system_program_id false] in
  Ok (instruction, lookup_table_address).

Definition create_lookup_table_signed (authority_address payer_address : Pubkey) (recent_slot : Slot) :=
  create_lookup_table_common authority_address payer_address recent_slot true.

Definition create_lookup_table (authority_address payer_address : Pubkey) (recent_slot : Slot) :=
  create_lookup_table_common authority_address payer_address recent_slot false.

Definition freeze_lookup_table (lookup_table_address authority_address : Pubkey) : Result :=
  new_with_bincode address_lookup_table_program_id ProgramInstruction.FreezeLookupTable
    [AccountMeta_new lookup_table_address false; AccountMeta_new_readonly authority_address true].

Definition extend_lookup_table (lookup_table_address authority_address : Pubkey)
    (payer_address : option Pubkey) (new_addresses : list Pubkey) : Result :=
  new_with_bincode address_lookup_table_program_id (ProgramInstruction.ExtendLookupTable new_addresses)
    ([AccountMeta_new lookup_table_address false; AccountMeta_new_readonly authority_address true] ++
     match payer_address with
     | Some payer_address => [AccountMeta_new payer_address true; AccountMeta_new_readonly system_program_id false]
     | None => []
     end).

Definition deactivate_lookup_table (lookup_table_address authority_address : Pubkey) : Result :=
  new_with_bincode address_lookup_table_program_id ProgramInstruction.DeactivateLookupTable
    [AccountMeta_new lookup_table_address false; AccountMeta_new_readonly authority_address true].

Definition close_lookup_table (lookup_table_address authority_address recipient_address : Pubkey) : Result :=
  new_with_bincode address_lookup_table_program_id ProgramInstruction.CloseLookupTable
    [AccountMeta_new lookup_table_address false; AccountMeta_new_readonly authority_address true;
     AccountMeta_new recipient_address false].

End constructors.
End TableSdk.

(** ** The program (processor.rs) *)

Module TableProcessor.
Section processor.
Context {Hhash : Hashing} {Hcurve : Curve} {Hids : ProgramIds} {Htid : LookupTableIds} {Hfeatures : FeatureIds}.
Context {cast : CastSlice} {state_codec : Bincode TableState} {system_codec : Bincode SystemInstruction}.
Context {instruction_codec : BincodeLimited TableInstruction}.

Definition DEFAULT_COMPUTE_UNITS : Z := 750.
Abbreviation id := address_lookup_table_program_id.

Definition usize_checked_add (a b : Z) : Res Z := ok_or ArithmeticOverflow (checked_add USIZE a b).

(** The scope of the first borrow of the table: it has to belong to the program. *)
Definition check_table_owner (ic : InstructionContext) : TxM Pubkey :=
  borrowing (try_borrow_instruction_account ic 0) (fun lookup_table_account =>
    let? acc := query (borrowed lookup_table_account) in
    let? table_key := query (get_key lookup_table_account) in
    if bool_decide (acc_owner acc <> id) then fail InvalidAccountOwner else ret table_key).

(** The key of account [i], which has to have signed. *)
Definition signer_key (ic : InstructionContext) (i : IndexOfAccount) : TxM Pubkey :=
  borrowing (try_borrow_instruction_account ic i) (fun account =>
    let? key := query (get_key account) in
    if negb (is_signer account) then fail MissingRequiredSignature else ret key).

(** The table behind an account, whose authority has to be [authority_key]. *)
Definition authorized_table (account : BorrowedAccount) (authority_key : Pubkey) : TxM AddressLookupTable :=
  let? acc := query (borrowed account) in
  let? lookup_table := lift (AddressLookupTable_deserialize (acc_data acc)) in
  if bool_decide (table_authority (table_meta lookup_table) = None) then fail Immutable else
  if bool_decide (table_authority (table_meta lookup_table) <> Some authority_key)
  then fail IncorrectAuthority else ret lookup_table.

Definition overwrite_account_meta (account : BorrowedAccount) (meta : LookupTableMeta) : TxM unit :=
  let? data := get_data_mut account in
  let? data' := lift (overwrite_meta_data data meta) in
  update_borrowed account (account_set_data data').

(** [invoke_context.native_invoke(instruction.into(), signers)?] *)
Definition call_system (invoke : Invoke) (instruction : Outcome Empty_set Instruction)
    (signers : list Pubkey) : InvM unit :=
  match instruction with
  | Ok instruction => invoke (StableInstruction_from instruction) signers
  | _ => panic
  end.

Definition create_lookup_table (invoke : Invoke) (untrusted_recent_slot : Slot) (bump_seed : Z)
  : InvM unit :=
  let? env := gets environment in
  let cache := env_sysvar_cache env in
  let relaxed := is_active (env_feature_set env) relax_authority_signer_check_for_lookup_table_creation in
  let? ic := on_tc (query get_current_instruction_context) in
  let? table := on_tc (borrowing (try_borrow_instruction_account ic 0) (fun lookup_table_account =>
    let? acc := query (borrowed lookup_table_account) in
    let? table_key := query (get_key lookup_table_account) in
    if negb relaxed && negb (bool_decide (acc_data acc = [])) then fail AccountAlreadyInitialized
    else ret (acc_lamports acc, table_key, acc_owner acc))) in
  let '(lookup_table_lamports, table_key, lookup_table_owner) := table : Z * Pubkey * Pubkey in
  let? authority_key := on_tc (borrowing (try_borrow_instruction_account ic 1) (fun authority_account =>
    let? authority_key := query (get_key authority_account) in
    if negb relaxed && negb (is_signer authority_account) then fail MissingRequiredSignature
    else ret authority_key)) in
  let? payer_key := on_tc (signer_key ic 2) in
  let? slot_hashes := lift (get_slot_hashes cache) in
  let? derivation_slot := match SlotHashes.get untrusted_recent_slot slot_hashes with
                          | Some _ => ret untrusted_recent_slot
                          | None => fail InvalidInstructionData
                          end in
  (* Use a derived address to ensure that an address table can never be
     initialized more than once at the same address. *)
  let? derived_table_key := lift (map_err PubkeyError.into
         (create_program_address [authority_key; le_bytes 8 derivation_slot; [bump_seed]] id)) in
  if bool_decide (table_key <> derived_table_key) then fail InvalidArgument else
  if relaxed && bool_decide (lookup_table_owner = id) then ret tt else
  let table_account_data_len := LOOKUP_TABLE_META_SIZE in
  let? rent := lift (get_rent cache) in
  let required_lamports :=
    saturating_sub U64 (Z.max (minimum_balance rent table_account_data_len) 1) lookup_table_lamports in
  (if 0 <? required_lamports
   then call_system invoke (Sdk.transfer payer_key table_key required_lamports) [payer_key]
   else ret tt) ;?
  call_system invoke (Sdk.allocate table_key table_account_data_len) [table_key] ;?
  call_system invoke (Sdk.assign table_key id) [table_key] ;?
  let? ic := on_tc (query get_current_instruction_context) in
  on_tc (borrowing (try_borrow_instruction_account ic 0) (fun lookup_table_account =>
    set_state lookup_table_account (ProgramState.LookupTable (LookupTableMeta_new authority_key)))).

Definition freeze_lookup_table : TxM unit :=
  let? ic := query get_current_instruction_context in
  check_table_owner ic ;?
  let? authority_key := signer_key ic 1 in
  borrowing (try_borrow_instruction_account ic 0) (fun lookup_table_account =>
    let? lookup_table := authorized_table lookup_table_account authority_key in
    if negb (deactivation_slot (table_meta lookup_table) =? int_max U64) then fail InvalidArgument else
    if bool_decide (table_addresses lookup_table = []) then fail InvalidInstructionData else
    overwrite_account_meta lookup_table_account (set_authority None (table_meta lookup_table))).

(** The meta data after an extension in slot [slot]. *)
Definition extended_meta (slot : Slot) (lookup_table : AddressLookupTable) : Res LookupTableMeta :=
  let meta := table_meta lookup_table in
  if slot =? last_extended_slot meta then Ok meta
  else let! start_index := ok_or InvalidAccountData (checked U8 (vec_len (table_addresses lookup_table))) in
       Ok (set_last_extended slot start_index meta).

(** [for new_address in new_addresses { extend_from_slice(..)? }] *)
Fixpoint append_addresses (account : BorrowedAccount) (new_addresses : list Pubkey) : TxM unit :=
  match new_addresses with
  | [] => ret tt
  | new_address :: new_addresses =>
      extend_from_slice account new_address ;? append_addresses account new_addresses
  end.

(** The scope of the second borrow: the lamports of the table and its new length. *)
Definition extend_table (env : Environment) (account : BorrowedAccount) (authority_key : Pubkey)
    (new_addresses : list Pubkey) : TxM (Z * Z) :=
  let? acc := query (borrowed account) in
  let lookup_table_lamports := acc_lamports acc in
  let? lookup_table := authorized_table account authority_key in
  if negb (deactivation_slot (table_meta lookup_table) =? int_max U64) then fail InvalidArgument else
  if LOOKUP_TABLE_MAX_ADDRESSES <=? vec_len (table_addresses lookup_table) then fail InvalidArgument else
  if bool_decide (new_addresses = []) then fail InvalidInstructionData else
  let new_table_addresses_len :=
    saturating_add USIZE (vec_len (table_addresses lookup_table)) (vec_len new_addresses) in
  if LOOKUP_TABLE_MAX_ADDRESSES <? new_table_addresses_len then fail InvalidInstructionData else
  let? clock := lift (get_clock (env_sysvar_cache env)) in
  let? lookup_table_meta := lift (extended_meta (clock_slot clock) lookup_table) in
  let? new_table_data_len := lift (usize_checked_add LOOKUP_TABLE_META_SIZE
         (saturating_mul USIZE new_table_addresses_len 32)) in
  overwrite_account_meta account lookup_table_meta ;?
  append_addresses account new_addresses ;?
  ret (lookup_table_lamports, new_table_data_len).

Definition extend_lookup_table (invoke : Invoke) (new_addresses : list Pubkey) : InvM unit :=
  let? env := gets environment in
  let? ic := on_tc (query get_current_instruction_context) in
  let? table_key := on_tc (check_table_owner ic) in
  let? authority_key := on_tc (signer_key ic 1) in
  let? extended := on_tc (borrowing (try_borrow_instruction_account ic 0) (fun lookup_table_account =>
    extend_table env lookup_table_account authority_key new_addresses)) in
  let (lookup_table_lamports, new_table_data_len) := extended : Z * Z in
  let? rent := lift (get_rent (env_sysvar_cache env)) in
  let required_lamports :=
    saturating_sub U64 (Z.max (minimum_balance rent new_table_data_len) 1) lookup_table_lamports in
  if 0 <? required_lamports then
    let? payer_key := on_tc (signer_key ic 2) in
    call_system invoke (Sdk.transfer payer_key table_key required_lamports) [payer_key]
  else ret tt.

Definition deactivate_lookup_table (env : Environment) : TxM unit :=
  let? ic := query get_current_instruction_context in
  check_table_owner ic ;?
  let? authority_key := signer_key ic 1 in
  borrowing (try_borrow_instruction_account ic 0) (fun lookup_table_account =>
    let? lookup_table := authorized_table lookup_table_account authority_key in
    if negb (deactivation_slot (table_meta lookup_table) =? int_max U64) then fail InvalidArgument else
    let? clock := lift (get_clock (env_sysvar_cache env)) in
    overwrite_account_meta lookup_table_account
      (set_deactivation_slot (clock_slot clock) (table_meta lookup_table))).

(** The scope of the second borrow: the lamports to withdraw. *)
Definition closable_table (env : Environment) (account : BorrowedAccount) (authority_key : Pubkey) : TxM Z :=
  let? acc := query (borrowed account) in
  let withdrawn_lamports := acc_lamports acc in
  let? lookup_table := authorized_table account authority_key in
  let? clock := lift (get_clock (env_sysvar_cache env)) in
  let? slot_hashes := lift (get_slot_hashes (env_sysvar_cache env)) in
  match status (table_meta lookup_table) (clock_slot clock) slot_hashes with
  | Activated => fail InvalidArgument
  | Deactivating _ => fail InvalidArgument
  | Deactivated => ret withdrawn_lamports
  end.

Definition close_lookup_table (env : Environment) : TxM unit :=
  let? ic := query get_current_instruction_context in
  check_table_owner ic ;?
  let? authority_key := signer_key ic 1 in
  lift (check_number_of_instruction_accounts ic 3) ;?
  let? table_index := lift (get_index_of_instruction_account_in_transaction ic 0) in
  let? recipient_index := lift (get_index_of_instruction_account_in_transaction ic 2) in
  if table_index =? recipient_index then fail InvalidArgument else
  let? withdrawn_lamports := borrowing (try_borrow_instruction_account ic 0) (fun lookup_table_account =>
    closable_table env lookup_table_account authority_key) in
  borrowing (try_borrow_instruction_account ic 2) (fun recipient_account =>
    checked_add_lamports recipient_account withdrawn_lamports) ;?
  borrowing (try_borrow_instruction_account ic 0) (fun lookup_table_account =>
    set_data_length lookup_table_account 0 ;?
    set_lamports lookup_table_account 0).

Definition Entrypoint (invoke : Invoke) : InvM unit :=
  let? env := gets environment in
  let? ic := on_tc (query get_current_instruction_context) in
  let? instruction := lift (limited_deserialize (instruction_data ic)) in
  match instruction with
  | ProgramInstruction.CreateLookupTable recent_slot bump_seed =>
      create_lookup_table invoke recent_slot bump_seed
  | ProgramInstruction.FreezeLookupTable => on_tc freeze_lookup_table
  | ProgramInstruction.ExtendLookupTable new_addresses => extend_lookup_table invoke new_addresses
  | ProgramInstruction.DeactivateLookupTable => on_tc (deactivate_lookup_table env)
  | ProgramInstruction.CloseLookupTable => on_tc (close_lookup_table env)
  end.

(** The lookup table program as the runtime registers it. *)
Definition lookup_table_builtin : Builtin := fun invoke =>
  declare_process_instruction DEFAULT_COMPUTE_UNITS (Entrypoint invoke).

End processor.
End TableProcessor.

(** ** Resolving the lookups of a message

    accounts-db/src/accounts.rs and runtime/src/bank/address_lookup_table.rs;
    the accounts of the bank are a parameter. *)

Inductive AddressLoaderError : Type :=
  | LoaderDisabled | SlotHashesSysvarNotFound | LoaderAccountNotFound | LoaderInvalidAccountOwner
  | LoaderInvalidAccountData | LoaderInvalidLookupIndex.

Definition into_address_loader_error (err : AddressLookupError) : AddressLoaderError :=
  match err with
  | LookupTableAccountNotFound => LoaderAccountNotFound
  | LookupInvalidAccountOwner => LoaderInvalidAccountOwner
  | LookupInvalidAccountData => LoaderInvalidAccountData
  | InvalidLookupIndex => LoaderInvalidLookupIndex
  end.

Section loader.
Context {Htid : LookupTableIds} {cast : CastSlice} {state_codec : Bincode TableState}.
Context (load_with_fixed_root : Pubkey -> option AccountSharedData) (current_slot : Slot).

Definition load_lookup_table_addresses (address_table_lookup : V0.MessageAddressTableLookup)
    (slot_hashes : SlotHashes.SlotHashes) : Outcome AddressLookupError LoadedAddresses :=
  let! table_account := ok_or LookupTableAccountNotFound
         (load_with_fixed_root (V0.account_key address_table_lookup)) in
  if bool_decide (acc_owner table_account = address_lookup_table_program_id) then
    let! lookup_table := map_err (fun _ => LookupInvalidAccountData)
           (AddressLookupTable_deserialize (acc_data table_account)) in
    let! writable := lookup lookup_table current_slot (V0.writable_indexes address_table_lookup) slot_hashes in
    let! readonly := lookup lookup_table current_slot (V0.readonly_indexes address_table_lookup) slot_hashes in
    Ok (mkLoadedAddresses writable readonly)
  else Err LookupInvalidAccountOwner.

Definition load_addresses (cache : SysvarCache) (address_table_lookups : list V0.MessageAddressTableLookup)
  : Outcome AddressLoaderError LoadedAddresses :=
  let! slot_hashes := map_err (fun _ => SlotHashesSysvarNotFound) (get_slot_hashes cache) in
  let! loaded := try_collect (fun address_table_lookup =>
         map_err into_address_loader_error (load_lookup_table_addresses address_table_lookup slot_hashes))
       address_table_lookups in
  Ok (LoadedAddresses_from_iter loaded).

End loader.
