(* ===== verification/TableContract.v ===== *)
(** * The lookup table program as a program of the runtime

    The lookup table program keeps the runtime's rules in every run, and what it
    does depends on the runtime only through the calls it makes: it is an
    implementation of the interface [ProgramOk]. *)

From S2P Require Import Prelude Errors Rent Account Pubkey Sysvars EpochSchedule Nonce TransactionContext RuntimeRules CallStack SysvarCache FeatureSet SystemProgram Effects SystemRules InvokeContext InvokeRules ProcessRules SystemContract Message SystemInstructions LookupTable.
Import TableProcessor.

(** ** Programs that call others *)

(** Work of the instruction [ic]. *)
Definition contained_at {A} (ic : InstructionContext) (m : InvM A) : Prop :=
  forall s o s', running ic (transaction_context s) -> m s = (o, s') -> o <> Panic ->
    contained_in (accounts_of ic) (transaction_context s) (transaction_context s').

Lemma contained_at_bind {A B} ic (m : InvM A) (f : A -> InvM B) :
  contained_at ic m -> (forall a, contained_at ic (f a)) -> contained_at ic (bind m f).
Proof.
  intros Hm Hf s o s' Hr H Ho. unfold bind in H. destruct (m s) as [[a|e|] s1] eqn:E1.
  - pose proof (Hm _ _ _ Hr E1 ltac:(done)) as H1. eapply contained_in_trans; [done|].
    eapply Hf; [|done..]. by eapply contained_in_running.
  - injection H as <- <-. by eapply Hm.
  - congruence.
Qed.

Lemma contained_at_other {A} ic (m : InvM A) :
  (forall s, transaction_context (final m s) = transaction_context s) -> contained_at ic m.
Proof. intros Hm s o s' Hr H Ho. by eapply contained_other. Qed.

Lemma contained_at_on_tc {A} ic (m : TxM A) : (ic_small ic -> keeps (obeys ic) m) -> contained_at ic (on_tc m).
Proof.
  intros Hm s o s' [] H _. apply zoom_inv in H as (tc' & H & ->). simpl.
  apply contained_in_obeys; [done|]. eapply keeps_ok; [by apply Hm|done].
Qed.

Lemma contained_at_on_tc_obeys {A} ic (m : TxM A) :
  (forall tc o tc', running ic tc -> m tc = (o, tc') -> obeys ic tc tc') -> contained_at ic (on_tc m).
Proof.
  intros Hm s o s' Hr H _. apply zoom_inv in H as (tc' & H & ->). simpl.
  apply contained_in_obeys; [apply Hr|]. by eapply Hm.
Qed.

Lemma current_obeys {A} ic (f : InstructionContext -> TxM A) tc o tc' :
  (ic_small ic -> keeps (obeys ic) (f ic)) -> running ic tc ->
  (let? ic := query get_current_instruction_context in f ic) tc = (o, tc') -> obeys ic tc tc'.
Proof.
  intros Hf [Hok Hk Hs Hc] H. unfold bind, query in H. rewrite Hc in H. eapply keeps_ok; [by apply Hf|done].
Qed.

(** The current instruction, asked for again. *)
Lemma contained_at_current {A} ic (f : InstructionContext -> InvM A) :
  contained_at ic (f ic) -> contained_at ic (let? ic := on_tc (query get_current_instruction_context) in f ic).
Proof.
  intros Hf s o s' Hr H Ho. unfold bind, on_tc, zoom, query in H. destruct Hr as [Hok Hk Hs Hc]. rewrite Hc in H.
  cbn in H. apply (Hf s o s'); [by split| |done]. by destruct s.
Qed.

(** Work of an instruction with the room [r] above it, in two ways that agree. *)
Record works {A} (ic : InstructionContext) (r : Z) (m m' : InvM A) : Prop := {
  works_contained : contained_at ic m;
  works_agree : forall s, running ic (transaction_context s) -> room (transaction_context s) = r -> m s = m' s;
}.

Lemma works_refl {A} ic r (m : InvM A) : contained_at ic m -> works ic r m m.
Proof. by split. Qed.

Lemma works_bind {A B} ic r (m m' : InvM A) (f f' : A -> InvM B) :
  works ic r m m' -> (forall a, works ic r (f a) (f' a)) -> works ic r (bind m f) (bind m' f').
Proof.
  intros [Hc Hm] Hf. split; [apply contained_at_bind; [done|apply Hf]|].
  intros s Hr Hroom. unfold bind. rewrite <- (Hm s Hr Hroom).
  destruct (m s) as [[a|e|] s1] eqn:E; [|done..]. apply (Hc _ _ _ Hr) in E; [|done].
  apply Hf; [by eapply contained_in_running|]. by rewrite (contained_in_room _ _ _ E).
Qed.

Lemma works_current {A} ic r (f f' : InstructionContext -> InvM A) :
  works ic r (f ic) (f' ic) ->
  works ic r (let? ic := on_tc (query get_current_instruction_context) in f ic)
    (let? ic := on_tc (query get_current_instruction_context) in f' ic).
Proof.
  intros [Hc Hf]. split; [by apply contained_at_current|].
  intros s Hr Hroom. unfold bind, on_tc, zoom, query. destruct Hr as [Hok Hk Hs Hcur]. rewrite Hcur. cbn.
  replace (with_transaction_context (transaction_context s) s) with s by (by destruct s). by apply Hf.
Qed.

(** Rewriting data in place. *)
Lemma rewrite_data_obeys ic ba (f : Bytes -> Res Bytes) :
  handle ic ba -> (forall d d', f d = Ok d' -> length d' = length d) ->
  keeps (obeys ic) (let? data := get_data_mut ba in let? data' := lift (f data) in
                    update_borrowed ba (account_set_data data')).
Proof.
  intros Hh Hf tc. pose proof (rules_obeys _ _ _ (get_data_mut_rules ic ba tc)) as Hg'. unfold final in *.
  unfold bind at 1. destruct (get_data_mut ba tc) as [[d|e|] t] eqn:Hg; [|done..].
  unfold bind, lift. destruct (f d) as [d'|e|] eqn:Hd'; [|done..].
  pose proof (rules_obeys _ _ _ (run_method_rules ic (MWriteData d') ba Hh tc)) as Hw.
  unfold final in Hw. cbn [run_method] in Hw. unfold write_data, bind in Hw. rewrite Hg in Hw.
  unfold overwrite in Hw. by rewrite (take_ge d'), (drop_ge d), app_nil_r in Hw by (by rewrite (Hf _ _ Hd')).
Qed.

(** ** The handlers *)

Section handlers.
Context {Hhash : Hashing} {Hcurve : Curve} {Hids : ProgramIds} {Htid : LookupTableIds} {Hfeatures : FeatureIds}.
Context {cast : CastSlice} {state_codec : Bincode TableState} {system_codec : Bincode SystemInstruction}.
Context {instruction_codec : BincodeLimited TableInstruction}.

Lemma overwrite_meta_data_length d m d' : overwrite_meta_data d m = Ok d' -> length d' = length d.
Proof.
  unfold overwrite_meta_data. destruct (Z.ltb_spec (vec_len d) LOOKUP_TABLE_META_SIZE) as [|Hlen]; [done|].
  destruct (bincode_serialize_into _ _) as [x|] eqn:E; simpl; [|done]. intros [= <-].
  apply serialize_into_length in E. rewrite length_app, E, length_replicate, length_drop.
  unfold vec_len, LOOKUP_TABLE_META_SIZE in *. lia.
Qed.

Section obeys.
Context (ic : InstructionContext) (Hsmall : ic_small ic).

Lemma check_table_owner_obeys : keeps (obeys ic) (check_table_owner ic).
Proof. unfold check_table_owner. keeps. Qed.
Lemma signer_key_obeys i : keeps (obeys ic) (signer_key ic i).
Proof. unfold signer_key. keeps. Qed.
Lemma authorized_table_obeys ba k : keeps (obeys ic) (authorized_table ba k).
Proof. unfold authorized_table. keeps. Qed.
Lemma overwrite_account_meta_obeys ba m : handle ic ba -> keeps (obeys ic) (overwrite_account_meta ba m).
Proof.
  intros Hh. apply (rewrite_data_obeys ic ba (fun d => overwrite_meta_data d m)); [done|].
  intros d d'. apply overwrite_meta_data_length.
Qed.
Lemma append_addresses_obeys ba l : handle ic ba -> keeps (obeys ic) (append_addresses ba l).
Proof.
  intros Hh. induction l as [|x l IH]; cbn [append_addresses]; [keeps|].
  apply keeps_bind; [apply _|by apply rules_keeps_obeys, extend_from_slice_rules|by intros _].
Qed.
#[local] Hint Resolve check_table_owner_obeys signer_key_obeys authorized_table_obeys
  overwrite_account_meta_obeys append_addresses_obeys : keeps.

Lemma extend_table_obeys env ba k l : handle ic ba -> keeps (obeys ic) (extend_table env ba k l).
Proof. intros. unfold extend_table. keeps. Qed.
Lemma closable_table_obeys env ba k : keeps (obeys ic) (closable_table env ba k).
Proof. unfold closable_table. keeps. Qed.
#[local] Hint Resolve extend_table_obeys closable_table_obeys : keeps.

Lemma set_lamports_obeys ba l : handle ic ba -> keeps (obeys ic) (set_lamports ba l).
Proof. intros. by apply rules_keeps_obeys, set_lamports_rules. Qed.
#[local] Hint Resolve set_lamports_obeys : keeps.

End obeys.

#[local] Hint Resolve check_table_owner_obeys signer_key_obeys authorized_table_obeys set_lamports_obeys
  overwrite_account_meta_obeys append_addresses_obeys extend_table_obeys closable_table_obeys : keeps.

Lemma freeze_obeys ic tc o tc' : running ic tc -> freeze_lookup_table tc = (o, tc') -> obeys ic tc tc'.
Proof. apply current_obeys. intros Hs. keeps. Qed.

Lemma table_deactivate_obeys ic env tc o tc' :
  running ic tc -> deactivate_lookup_table env tc = (o, tc') -> obeys ic tc tc'.
Proof. apply current_obeys. intros Hs. keeps. Qed.

Lemma close_obeys ic env tc o tc' : running ic tc -> close_lookup_table env tc = (o, tc') -> obeys ic tc tc'.
Proof.
  apply current_obeys. intros Hs.
  do 5 (apply keeps_bind; [apply _|keeps|intros ?]). case_match; [keeps|].
  do 2 (apply keeps_bind; [apply _|keeps|intros ?]). apply borrowing_obeys; [done|intros ba Hh].
  apply keeps_bind; [apply _|by apply set_data_length_obeys|intros _; by apply set_lamports_obeys].
Qed.

Section calls.
Context (invoke invoke' : Invoke) (ic : InstructionContext) (r : Z).
Context (Hcontained : invoke_contained invoke) (Hagree : invoke_agree r invoke invoke').

Lemma call_works {T} `{!Bincode T} (x : T) program_id metas signers :
  vec_len metas < int_max U16 ->
  works ic r (call_system invoke (new_with_bincode program_id x metas) signers)
    (call_system invoke' (new_with_bincode program_id x metas) signers).
Proof.
  intros Hlen. unfold new_with_bincode. destruct (bincode_serialize x) as [bs|]; cbn; [|by apply works_refl; intros ????[= <- <-]].
  split; [intros s o s' Hr; by eapply Hcontained|]. intros s Hr Hroom. by eapply Hagree.
Qed.

Ltac work :=
  repeat first
    [ apply works_current | apply works_bind; [|intros ?]
    | apply call_works; done
    | apply works_refl; first [by apply contained_at_other|apply contained_at_on_tc; intros ?; by keeps]
    | case_match ].

Lemma create_works slot bump : works ic r (create_lookup_table invoke slot bump) (create_lookup_table invoke' slot bump).
Proof. unfold create_lookup_table. work. Qed.

Lemma extend_works l : works ic r (extend_lookup_table invoke l) (extend_lookup_table invoke' l).
Proof. unfold extend_lookup_table. work. Qed.

Lemma entrypoint_works : works ic r (Entrypoint invoke) (Entrypoint invoke').
Proof.
  apply works_bind; [by apply works_refl, contained_at_other|intros env]. apply works_current.
  apply works_bind; [by apply works_refl, contained_at_other|intros instruction].
  destruct instruction; [apply create_works| |apply extend_works|..];
    apply works_refl, contained_at_on_tc_obeys; eauto using freeze_obeys, table_deactivate_obeys, close_obeys.
Qed.

End calls.

#[global] Instance lookup_table_builtin_ok : ProgramOk lookup_table_builtin.
Proof.
  split.
  - intros invoke Hi. apply declare_contained. intros ic s o s' Hr.
    destruct (entrypoint_works invoke invoke ic (room (transaction_context s)) Hi) as [Hc _]; [done|by apply Hc].
  - intros invoke invoke' ic s Hi Ha Hr. unfold lookup_table_builtin, declare_process_instruction.
    change (0 <? DEFAULT_COMPUTE_UNITS) with true. cbv iota. unfold bind.
    destruct (consume_checked DEFAULT_COMPUTE_UNITS s) as [[[]|e|] s1] eqn:E; [|done..].
    assert (transaction_context s1 = transaction_context s) as Ht.
    { unfold consume_checked, bind, gets, modify in E. destruct (compute_meter s <? _); [done|]. by injection E as <-. }
    unfold as_program. by rewrite (works_agree _ _ _ _ (entrypoint_works invoke invoke' ic _ Hi Ha)) by (by rewrite Ht).
Qed.

End handlers.

#[export] Hint Resolve check_table_owner_obeys signer_key_obeys authorized_table_obeys set_lamports_obeys
  overwrite_account_meta_obeys append_addresses_obeys extend_table_obeys closable_table_obeys : keeps.
