(* ===== verification/TableMachine.v ===== *)
(** * Lookup tables as an abstract machine

    What may happen to a table, as a relation on its contents.  From the
    relation alone: addresses are only appended, a frozen table never changes, a
    lookup that was answered is answered alike ever after, and all lookups in a
    slot agree whatever is done to the table in that slot. *)

From S2P Require Import Prelude Errors Rent Account Pubkey Sysvars TransactionContext Message LookupTable.

(** ** Steps *)

Abbreviation Table := AddressLookupTable.

(** The contents after an extension in slot [now]. *)
Definition extended (now : Slot) (new : list Pubkey) (t : Table) : Table :=
  mkAddressLookupTable
    (if last_extended_slot (table_meta t) =? now then table_meta t
     else set_last_extended now (vec_len (table_addresses t)) (table_meta t))
    (table_addresses t ++ new).

(** What an instruction in slot [now] may do to a table; [None] is closed. *)
Inductive table_step (signed : Pubkey -> Prop) (now : Slot) (hashes : SlotHashes.SlotHashes) (t : Table)
  : option Table -> Prop :=
  | step_freeze k :
      table_authority (table_meta t) = Some k -> signed k ->
      deactivation_slot (table_meta t) = int_max U64 -> table_addresses t <> [] ->
      table_step signed now hashes t
        (Some (mkAddressLookupTable (set_authority None (table_meta t)) (table_addresses t)))
  | step_extend k new :
      table_authority (table_meta t) = Some k -> signed k ->
      deactivation_slot (table_meta t) = int_max U64 -> new <> [] ->
      vec_len (table_addresses t) + vec_len new <= LOOKUP_TABLE_MAX_ADDRESSES ->
      table_step signed now hashes t (Some (extended now new t))
  | step_deactivate k :
      table_authority (table_meta t) = Some k -> signed k ->
      deactivation_slot (table_meta t) = int_max U64 ->
      table_step signed now hashes t
        (Some (mkAddressLookupTable (set_deactivation_slot now (table_meta t)) (table_addresses t)))
  | step_close k :
      table_authority (table_meta t) = Some k -> signed k ->
      status (table_meta t) now hashes = Deactivated ->
      table_step signed now hashes t None.

(** ** Well-formed tables *)

Record table_wf (now : Slot) (t : Table) : Prop := {
  tw_extended : last_extended_slot (table_meta t) <= now;
  tw_start : 0 <= last_extended_slot_start_index (table_meta t) <= vec_len (table_addresses t);
  tw_len : vec_len (table_addresses t) <= LOOKUP_TABLE_MAX_ADDRESSES;
}.

Lemma new_table_wf now k : 0 <= now -> table_wf now (mkAddressLookupTable (LookupTableMeta_new k) []).
Proof. by split. Qed.

Lemma table_wf_later now now' t : now <= now' -> table_wf now t -> table_wf now' t.
Proof. intros Hle []. split; [lia|done..]. Qed.

Lemma vec_len_nonneg {A} (l : list A) : 0 <= vec_len l.
Proof. unfold vec_len. lia. Qed.

Lemma step_wf signed now hashes t t' :
  table_wf now t -> table_step signed now hashes t (Some t') -> table_wf now t'.
Proof.
  intros [He Hs Hl] H. inversion H; subst; clear H; (split; simpl; [|..]); rewrite ?vec_len_app; try done.
  - destruct (Z.eqb_spec (last_extended_slot (table_meta t)) now); simpl; lia.
  - pose proof (vec_len_nonneg new). pose proof (vec_len_nonneg (table_addresses t)).
    destruct (Z.eqb_spec (last_extended_slot (table_meta t)) now); simpl; lia.
Qed.

(** ** Histories of a table *)

(** Steps in slots that do not go back, each with an authority that [signed]. *)
Inductive evolves (signed : Pubkey -> Prop) : Slot -> Table -> Slot -> Table -> Prop :=
  | evolves_refl now t : evolves signed now t now t
  | evolves_wait now t now' now'' t' : evolves signed now t now' t' -> now' <= now'' -> evolves signed now t now'' t'
  | evolves_step now t now' t' hashes t'' :
      evolves signed now t now' t' -> table_step signed now' hashes t' (Some t'') -> evolves signed now t now' t''.

Lemma evolves_wf signed now t now' t' : evolves signed now t now' t' -> table_wf now t -> table_wf now' t'.
Proof.
  induction 1 as [|????? _ IH Hle|?????? _ IH Hs]; intros Hwf; [done|by eapply table_wf_later, IH|].
  by eapply step_wf; [apply IH|].
Qed.

Lemma step_prefix signed now hashes t t' :
  table_step signed now hashes t (Some t') -> table_addresses t `prefix_of` table_addresses t'.
Proof. intros H. inversion H; subst; simpl; try done. by apply prefix_app_r. Qed.

Lemma evolves_prefix signed now t now' t' :
  evolves signed now t now' t' -> table_addresses t `prefix_of` table_addresses t'.
Proof. induction 1 as [| |?????? _ IH Hs]; [done|done|]. etransitivity; [done|by eapply step_prefix]. Qed.

(** What is to be deactivated, or is, stays as it is. *)
Lemma evolves_deactivated signed now t now' t' :
  evolves signed now t now' t' -> deactivation_slot (table_meta t) <> int_max U64 -> t' = t.
Proof.
  intros He Hd. induction He as [|????? _ IH _|?????? _ IH Hs]; [done|by apply IH|].
  rewrite IH in Hs by done. inversion Hs; congruence.
Qed.

(** A table only grows.  Whatever instructions run, a later state of a table
    has the addresses it had, followed by others, at most 256 in all; a frozen
    table stays as it is and is never closed; a deactivated table can neither be
    extended nor activated again. *)
Theorem table_history (signers : Pubkey -> Prop) (now now' : Slot) (t t' : Table) :
  evolves signers now t now' t' -> table_wf now t ->
  table_addresses t `prefix_of` table_addresses t' /\
  vec_len (table_addresses t') <= LOOKUP_TABLE_MAX_ADDRESSES /\
  (table_authority (table_meta t) = None ->
     t' = t /\ forall signed hashes, ~ table_step signed now' hashes t' None) /\
  (deactivation_slot (table_meta t) <> int_max U64 -> t' = t).
Proof.
  intros He Hwf. split_and!; [by eapply evolves_prefix|by apply (evolves_wf _ _ _ _ _ He Hwf)| |by eapply evolves_deactivated].
  intros Ha. assert (t' = t) as ->; [|split; [done|intros signed hashes H; inversion H; congruence]].
  clear Hwf. induction He as [|????? _ IH _|?????? _ IH Hs]; [done|by apply IH|]. rewrite IH in Hs by done.
  inversion Hs; congruence.
Qed.

(** ** Lookups *)

Lemma get_all_prefix l l' indexes ks :
  l `prefix_of` l' -> get_all l indexes = Some ks -> get_all l' indexes = Some ks.
Proof.
  intros [k ->]. revert ks. induction indexes as [|i indexes IH]; intros ks; simpl; [done|].
  destruct (vec_get l i) as [a|] eqn:Hi; [|done].
  apply vec_get_Some in Hi as [Hpos Hi]. rewrite (proj2 (vec_get_Some (l ++ k) i a)).
  2:{ split; [done|]. by apply lookup_app_l_Some. }
  destruct (get_all l indexes) as [r|] eqn:Hr; simpl; [|done]. by rewrite (IH r).
Qed.

Lemma lookup_ok_inv t now indexes hashes ks :
  lookup t now indexes hashes = Ok ks -> get_all (table_addresses t) indexes = Some ks.
Proof.
  unfold lookup. destruct (get_active_addresses_len t now hashes) as [n|e|]; simpl; [|done..].
  destruct (_ <? _); [done|]. intros H%ok_or_ok. eapply get_all_prefix; [|done]. apply prefix_take.
Qed.

(** An address that was looked up is found again.  If a table answers a
    lookup, then whatever has happened to it by a later slot, it gives the same
    addresses or none; and it never panics. *)
Theorem lookups_stable (signers : Pubkey -> Prop) (now now' : Slot) (t t' : Table) (indexes : list Z)
    (hashes hashes' : SlotHashes.SlotHashes) (ks : list Pubkey) :
  evolves signers now t now' t' -> table_wf now t ->
  lookup t now indexes hashes = Ok ks ->
  lookup t' now' indexes hashes' <> Panic /\
  forall ks', lookup t' now' indexes hashes' = Ok ks' -> ks' = ks.
Proof.
  intros He Hwf Hk. split.
  - destruct (evolves_wf _ _ _ _ _ He Hwf) as [Hx Hs Hl]. unfold lookup, get_active_addresses_len.
    destruct (table_is_active _ _ _); simpl; [|done].
    destruct (last_extended_slot (table_meta t') <? now').
    + rewrite Z.ltb_irrefl. by destruct (get_all _ _).
    + destruct (Z.ltb_spec (vec_len (table_addresses t')) (last_extended_slot_start_index (table_meta t'))); [lia|].
      by destruct (get_all _ _).
  - intros ks' Hk'. apply lookup_ok_inv in Hk, Hk'.
    apply (get_all_prefix _ (table_addresses t')) in Hk; [congruence|by eapply evolves_prefix].
Qed.

Lemma take_app_prefix {A} (l k : list A) n : Z.of_nat n <= vec_len l -> take n (l ++ k) = take n l.
Proof. unfold vec_len. intros H. by rewrite take_app_le by lia. Qed.

(** The addresses that are active in [now]. *)
Definition active_addresses (t : Table) (now : Slot) : list Pubkey :=
  if last_extended_slot (table_meta t) <? now then table_addresses t
  else take (Z.to_nat (last_extended_slot_start_index (table_meta t))) (table_addresses t).

Lemma lookup_active t now indexes hashes :
  table_wf now t ->
  lookup t now indexes hashes =
    if table_is_active (table_meta t) now hashes
    then ok_or InvalidLookupIndex (get_all (active_addresses t now) indexes)
    else Err LookupTableAccountNotFound.
Proof.
  intros [He Hs Hl]. unfold lookup, get_active_addresses_len, active_addresses.
  destruct (table_is_active _ _ _); cbn [negb outcome_bind]; [|done].
  destruct (last_extended_slot (table_meta t) <? now).
  - rewrite Z.ltb_irrefl. unfold vec_len. by rewrite Nat2Z.id, take_ge.
  - destruct (Z.ltb_spec (vec_len (table_addresses t)) (last_extended_slot_start_index (table_meta t))); [lia|done].
Qed.

Lemma extended_active now new t : table_wf now t -> active_addresses (extended now new t) now = active_addresses t now.
Proof.
  intros [He Hs Hl]. unfold active_addresses, extended. simpl.
  destruct (Z.eqb_spec (last_extended_slot (table_meta t)) now) as [Heq|Hne]; simpl.
  - rewrite Heq, Z.ltb_irrefl. apply take_app_prefix. lia.
  - rewrite Z.ltb_irrefl. destruct (Z.ltb_spec (last_extended_slot (table_meta t)) now); [|lia].
    unfold vec_len. by rewrite Nat2Z.id, take_app_length.
Qed.

Lemma step_lookups (signed : Pubkey -> Prop) (now : Slot) (hashes : SlotHashes.SlotHashes)
    (t : Table) (o : option Table) (indexes : list Z) :
  table_wf now t -> table_step signed now hashes t o ->
  match o with
  | Some t' => lookup t' now indexes hashes = lookup t now indexes hashes
  | None => lookup t now indexes hashes = Err LookupTableAccountNotFound
  end.
Proof.
  intros Hwf Hstep. destruct o as [t'|].
  - rewrite !lookup_active by (done || by eapply step_wf). inversion Hstep; subst; clear Hstep.
    + done.
    + rewrite extended_active by done. unfold extended. simpl. by destruct (_ =? _).
    + match goal with H : deactivation_slot _ = _ |- _ => rename H into Hd end.
      unfold table_is_active, status. rewrite Hd, Z.eqb_refl.
      cbn [table_meta set_deactivation_slot deactivation_slot]. rewrite Z.eqb_refl. by destruct (now =? int_max U64).
  - rewrite lookup_active by done. inversion Hstep as [| | |k _ _ Hst]. unfold table_is_active. by rewrite Hst.
Qed.

(** The lookups of a slot agree.  Transactions look addresses up in tables
    that others may be changing: whatever an instruction does to a table in a
    slot, every lookup in that slot has the same answer before and after it, and
    if the table was closed, the answer had been that it is not there. *)
Theorem lookups_consistent (signed : Pubkey -> Prop) (now : Slot) (hashes : SlotHashes.SlotHashes)
    (t : Table) (o : option Table) (indexes : list Z) :
  table_wf now t -> table_step signed now hashes t o ->
  match o with
  | Some t' => lookup t' now indexes hashes = lookup t now indexes hashes
  | None => lookup t now indexes hashes = Err LookupTableAccountNotFound
  end.
Proof. apply step_lookups. Qed.

(** ** Slot hashes along a fork *)

(** [update_slot_hashes] of a bank (runtime/src/bank.rs), from the banks before
    it, newest first: each adds the slot and the hash of its parent. *)
Fixpoint slot_hashes_of (ancestors : list (Slot * Hash)) : SlotHashes.SlotHashes :=
  match ancestors with
  | [] => []
  | (parent_slot, parent_hash) :: older => SlotHashes.add parent_slot parent_hash (slot_hashes_of older)
  end.

Lemma add_newest {V} n k (v : V) l :
  newest_first l -> (forall x, x ∈ l -> fst x < k) -> history_add n k v l = take n ((k, v) :: l).
Proof.
  intros Hl Hk. unfold history_add. pose proof (history_search_spec k l Hl) as H.
  destruct (history_search k l) as [i|i].
  - destruct H as [w Hw]. apply list_elem_of_lookup_2, Hk in Hw. simpl in Hw. lia.
  - destruct i as [|i]; [done|]. destruct H as [Hle H]. destruct l as [|x l]; [simpl in Hle; lia|].
    destruct (H 0%nat x eq_refl) as [H0 _]. specialize (H0 ltac:(lia)). specialize (Hk x ltac:(set_solver)). lia.
Qed.

Lemma newest_first_cons {V} (x : Z * V) l :
  newest_first (x :: l) <-> newest_first l /\ forall y, y ∈ l -> fst y < fst x.
Proof.
  change (x :: l) with ([x] ++ l). rewrite newest_first_app. split.
  - intros (_ & Hl & H). split; [done|]. intros y Hy. apply H; [set_solver|done].
  - intros [Hl H]. split; [apply newest_first_single|]. split; [done|].
    intros x' y ->%list_elem_of_singleton. apply H.
Qed.

Lemma newest_first_take {V} n (l : list (Z * V)) : newest_first l -> newest_first (take n l).
Proof. intros Hl. rewrite <- (take_drop n l) in Hl. by apply newest_first_app in Hl as [? _]. Qed.

(** The slot hashes of a bank are its 512 newest ancestors. *)
Lemma slot_hashes_of_newest ancestors :
  newest_first ancestors -> slot_hashes_of ancestors = take SlotHashes.MAX_ENTRIES ancestors.
Proof.
  induction ancestors as [|[s h] l IH]; intros Hl; [done|]. apply newest_first_cons in Hl as [Hl Hs].
  cbn [slot_hashes_of]. rewrite IH by done. unfold SlotHashes.add. rewrite add_newest.
  - change (SlotHashes.get_entries) with (S 511). change SlotHashes.MAX_ENTRIES with (S 511).
    cbn [take]. f_equal. by rewrite take_take.
  - by apply newest_first_take.
  - intros x Hx. apply Hs. by apply (subseteq_take _ _ _ Hx).
Qed.

Lemma history_position_None {V} k (l : list (Z * V)) :
  newest_first l -> history_position k l = None -> forall x, x ∈ l -> fst x <> k.
Proof.
  intros Hl H x [j Hj]%list_elem_of_lookup_1. unfold history_position in H.
  pose proof (history_search_spec k l Hl) as Hs. destruct (history_search k l) as [i|i]; [done|].
  destruct Hs as [_ Hs]. destruct (Hs _ _ Hj) as [H1 H2].
  destruct (decide (j < i)%nat); [specialize (H1 ltac:(lia))|specialize (H2 ltac:(lia))]; lia.
Qed.

Lemma history_get_key {V} k (l : list (Z * V)) v : newest_first l -> history_get k l = Some v -> (k, v) ∈ l.
Proof. intros Hl H. rewrite history_get_spec in H by done. by apply to_map_Some in H. Qed.

(** Once a slot has left the window, no older slot is in it again. *)
Lemma window_passes d r (l newer : list (Slot * Hash)) :
  newest_first (newer ++ l) -> (exists h, (d, h) ∈ l) ->
  (forall x, x ∈ take SlotHashes.MAX_ENTRIES l -> fst x <> d) -> r < d ->
  forall x, x ∈ take SlotHashes.MAX_ENTRIES (newer ++ l) -> fst x <> r.
Proof.
  intros Hn [h Hd] Hout Hr x (i & Hi & Hlt)%elem_of_take <-.
  apply list_elem_of_lookup_1 in Hd as [j Hj].
  assert (SlotHashes.MAX_ENTRIES <= j)%nat as Hj'.
  { destruct (decide (j < SlotHashes.MAX_ENTRIES)%nat); [|lia]. destruct (Hout (d, h)); [|done].
    apply elem_of_take. eauto. }
  assert ((newer ++ l) !! (length newer + j)%nat = Some (d, h)) as Hj2.
  { rewrite lookup_app_r by lia. by replace (length newer + j - length newer)%nat with j by lia. }
  pose proof (Hn i (length newer + j)%nat _ _ ltac:(lia) Hi Hj2). simpl in *. lia.
Qed.
