(* ===== verification/TableRules.v ===== *)
(** * What the lookup table program does

    Every run of the program that returns creates a table at its derived
    address, or makes one step of the abstract machine on one table whose
    authority signed; it changes the contents of no other account.  The calls to
    the system program enter through the interface [SystemCalls]. *)

From S2P Require Import Prelude Errors Rent Account Pubkey Sysvars EpochSchedule Nonce TransactionContext RuntimeRules CallStack SysvarCache FeatureSet SystemProgram Effects SystemRules InvokeContext InvokeRules ProcessRules Message SystemInstructions SystemCalls LookupTable TableContract TableMachine.
Import TableProcessor.

#[local] Abbreviation table_id := address_lookup_table_program_id.

(** ** Frames *)

Lemma running_frame ic tc tc' : same_frame tc tc' -> running ic tc -> running ic tc'.
Proof.
  intros Hf [Hok Hk Hs Hc]. split; [by eapply same_frame_stack_ok| |done|].
  - unfold keys_ok. by rewrite (sf_keys _ _ Hf).
  - rewrite <- Hc. by apply current_context_stacks; apply Hf.
Qed.

Lemma same_values_loaded `{!ProgramIds} tc tc' : same_values tc tc' -> system_loaded tc -> system_loaded tc'.
Proof. intros [Hf Hv] Hl j. rewrite (sf_keys _ _ Hf), Hv. apply Hl. Qed.

Lemma becomes_loaded `{!ProgramIds} i a a' tc tc' :
  becomes i a a' tc tc' -> acc_executable a = false -> system_loaded tc -> system_loaded tc'.
Proof.
  intros [Hf Hb Ha Ho] He Hl j. rewrite (sf_keys _ _ Hf). intros Hj. destruct (Hl j Hj) as (x & Hx & Hxe & Hxo).
  destruct (decide (j = i)) as [->|Hne]; [congruence|]. exists x. by rewrite Ho.
Qed.

(** ** Contents *)

Section contents.
Context {Htid : LookupTableIds} {cast : CastSlice} {state_codec : Bincode TableState}.

(** The table an account holds. *)
Definition table_of (a : AccountSharedData) : option Table :=
  if bool_decide (acc_owner a = table_id) then
    match AddressLookupTable_deserialize (acc_data a) with Ok t => Some t | _ => None end
  else None.

(** All accounts but those of [P] have the owner and the data they had, and
    tables lost no lamports, provided that balances are numbers of lamports. *)
Definition kept (B : Prop) (P : IndexOfAccount -> Prop) (tc tc' : TransactionContext) : Prop :=
  forall j a, ~ P j -> account_at tc j = Some a ->
    exists a', account_at tc' j = Some a' /\ acc_owner a' = acc_owner a /\ acc_data a' = acc_data a /\
      (B -> acc_owner a = table_id -> acc_lamports a <= acc_lamports a').

Lemma same_values_kept B P tc tc' : same_values tc tc' -> kept B P tc tc'.
Proof. intros [_ Hv] j a _ Ha. exists a. rewrite Hv. split_and!; [done..|lia]. Qed.

Lemma kept_trans B P x y z : kept B P x y -> kept B P y z -> kept B P x z.
Proof.
  intros H1 H2 j a Hj Ha. destruct (H1 j a Hj Ha) as (b & Hb & Ho & Hd & Hl).
  destruct (H2 j b Hj Hb) as (c & Hc & Ho' & Hd' & Hl'). exists c. split_and!; [done|congruence..|].
  intros HB Hown. specialize (Hl HB Hown). rewrite Ho in Hl'. specialize (Hl' HB Hown). lia.
Qed.

Lemma replaces_kept B i a a' tc tc' : replaces i a a' (account_at tc) (account_at tc') -> kept B (eq i) tc tc'.
Proof. intros [_ _ Ho] j b Hj Hb. exists b. rewrite Ho by congruence. split_and!; [done..|lia]. Qed.

Lemma becomes_kept B i a a' tc tc' : becomes i a a' tc tc' -> kept B (eq i) tc tc'.
Proof. intros H. by eapply replaces_kept, becomes_replaces. Qed.

Lemma transferred_kept B `{!ProgramIds} i from to l tc tc' :
  table_id <> system_program_id -> keys_ok tc -> 0 < l -> key_at tc i = Some to ->
  transferred from to l tc tc' -> kept B (eq i) tc tc'.
Proof.
  intros Hne Hk Hl Hi (f & t & a & b & v & Hf & Ht & [Hb1 Ha1 Ho1] & [Hb2 Ha2 Ho2] & Hd & _ & _ & Hown) j x Hj Hx.
  assert (t = i) as -> by (by eapply keys_inj). rewrite Ho2 by congruence.
  destruct (decide (j = f)) as [->|Hjf].
  - exists (debit l a). rewrite Hb1 in Hx. injection Hx as <-. split_and!; [done..|].
    intros _ Hid. rewrite Hown in Hid by done. congruence.
  - exists x. rewrite Ho1 by done. split_and!; [done..|lia].
Qed.

(** What a transfer to account [i] leaves there. *)
Lemma transferred_target `{!ProgramIds} i from to l tc tc' a :
  keys_ok tc -> 0 <= l -> key_at tc i = Some to -> account_at tc i = Some a -> transferred from to l tc tc' ->
  exists a', account_at tc' i = Some a' /\ acc_owner a' = acc_owner a /\ acc_data a' = acc_data a /\
    (acc_owner a <> system_program_id -> acc_lamports a <= acc_lamports a').
Proof.
  intros Hk Hl Hi Ha (f & t & x & b & v & Hf & Ht & [Hb1 Ha1 Ho1] & [Hb2 Ha2 Ho2] & Hd & _ & _ & Hown).
  assert (t = i) as -> by (by eapply keys_inj). exists (credit l b). split; [done|].
  destruct (decide (i = f)) as [->|Hif].
  - rewrite Ha1 in Hb2. injection Hb2 as <-. rewrite Hb1 in Ha. injection Ha as ->. split_and!; [done..|]. simpl. lia.
  - rewrite Ho1, Ha in Hb2 by done. injection Hb2 as <-. split_and!; [done..|]. simpl. lia.
Qed.

End contents.

(** ** Rewriting a table *)

Section layout.
Context {cast : CastSlice} {cast_ok : CastSliceOk} {state_codec : Bincode TableState} {codec_ok : BincodeOk TableState}.

Lemma deserialize_ok_inv d t :
  AddressLookupTable_deserialize d = Ok t ->
  bincode_deserialize d = Some (ProgramState.LookupTable (table_meta t)) /\
  LOOKUP_TABLE_META_SIZE <= vec_len d /\
  drop (Z.to_nat LOOKUP_TABLE_META_SIZE) d = mjoin (table_addresses t) /\
  Forall (fun k => length k = 32%nat) (table_addresses t).
Proof.
  unfold AddressLookupTable_deserialize. destruct (bincode_deserialize d) as [st|]; cbn [ok_or outcome_bind]; [|done].
  destruct st as [|m]; cbn [outcome_bind]; [done|].
  destruct (Z.ltb_spec (vec_len d) LOOKUP_TABLE_META_SIZE); cbn [outcome_bind]; [done|].
  destruct (try_cast_slice _) as [ks|] eqn:Hc; cbn [ok_or outcome_bind]; [|done].
  apply try_cast_slice_spec in Hc as [Hd Hf]. by intros [= <-].
Qed.

Lemma deserialize_intro d m ks :
  bincode_deserialize d = Some (ProgramState.LookupTable m) -> LOOKUP_TABLE_META_SIZE <= vec_len d ->
  drop (Z.to_nat LOOKUP_TABLE_META_SIZE) d = mjoin ks -> Forall (fun k => length k = 32%nat) ks ->
  AddressLookupTable_deserialize d = Ok (mkAddressLookupTable m ks).
Proof.
  intros Hd Hl Hr Hf. unfold AddressLookupTable_deserialize. rewrite Hd. cbn [ok_or outcome_bind].
  destruct (Z.ltb_spec (vec_len d) LOOKUP_TABLE_META_SIZE); [lia|]. cbn [outcome_bind].
  by rewrite (proj2 (try_cast_slice_spec _ ks)).
Qed.

(** New meta data, and addresses appended behind the old ones. *)
Lemma overwrite_then_append d t m d' new :
  AddressLookupTable_deserialize d = Ok t -> overwrite_meta_data d m = Ok d' ->
  Forall (fun k => length k = 32%nat) new ->
  AddressLookupTable_deserialize (d' ++ mjoin new) = Ok (mkAddressLookupTable m (table_addresses t ++ new)).
Proof.
  intros (_ & Hlen & Hraw & Haddr)%deserialize_ok_inv H Hnew. unfold overwrite_meta_data in H.
  destruct (_ <? _); [done|]. destruct (bincode_serialize_into _ _) as [md|] eqn:Hs; cbn [ok_or outcome_bind] in H; [|done].
  injection H as <-. pose proof (serialize_into_length _ _ _ Hs) as Hmd. rewrite length_replicate in Hmd.
  unfold bincode_serialize_into in Hs. destruct (bincode_serialize _) as [bs|] eqn:Hbs; simpl in Hs; [|done].
  destruct (_ <=? _); [|done]. injection Hs as <-. apply deserialize_intro.
  - rewrite <- !app_assoc. by apply bincode_roundtrip.
  - unfold vec_len in *. rewrite !length_app in *. unfold LOOKUP_TABLE_META_SIZE in *. lia.
  - rewrite <- app_assoc, drop_app_length' by done. rewrite Hraw. symmetry. apply join_app.
  - by apply list.Forall_app.
Qed.

Lemma overwrite_table d t m d' :
  AddressLookupTable_deserialize d = Ok t -> overwrite_meta_data d m = Ok d' ->
  AddressLookupTable_deserialize d' = Ok (mkAddressLookupTable m (table_addresses t)).
Proof.
  intros Ht Ho. pose proof (overwrite_then_append d t m d' [] Ht Ho (list.Forall_nil_2 _)) as H.
  by rewrite !app_nil_r in H.
Qed.

(** The data of a new table. *)
Lemma new_table_data d m :
  bincode_serialize_into (replicate (Z.to_nat LOOKUP_TABLE_META_SIZE) 0) (ProgramState.LookupTable m) = Some d ->
  AddressLookupTable_deserialize d = Ok (mkAddressLookupTable m []).
Proof.
  intros Hs. pose proof (serialize_into_length _ _ _ Hs) as Hl. rewrite length_replicate in Hl.
  apply deserialize_intro; [by eapply serialize_into_roundtrip|unfold vec_len; rewrite Hl; done| |done].
  rewrite drop_ge; [done|lia].
Qed.

End layout.

(** ** The steps of the handlers *)

Section steps.
Context {Hhash : Hashing} {Hcurve : Curve} {Hids : ProgramIds} {Htid : LookupTableIds} {Hfeatures : FeatureIds}.
Context {cast : CastSlice} {state_codec : Bincode TableState} {system_codec : Bincode SystemInstruction}.

Lemma check_table_owner_ok ic tc k tc' :
  check_table_owner ic tc = (Ok k, tc') ->
  same_values tc tc' /\ exists ia a, vec_get (instruction_accounts ic) 0 = Some ia /\
    account_at tc (index_in_transaction ia) = Some a /\ acc_owner a = table_id /\
    key_at tc (index_in_transaction ia) = Some k.
Proof.
  intros (ia & t1 & t2 & Hi & Hv1 & Hs & Hv2)%scope_inv. cbv beta in Hs. next Hs. next Hs.
  apply borrowed_account_at in Hq. simpl in Hq. case_bool_decide as Ho; [done|].
  apply ret_ok_inv in Hs as [-> ->]. split; [by etransitivity|]. exists ia, x. destruct Hv1 as [Hf1 Hv1].
  rewrite Hv1 in Hq. split_and!; [done|done|done|].
  unfold get_key, get_key_of_account_at_index in Hq0. simpl in Hq0. rewrite (sf_keys _ _ Hf1) in Hq0.
  by destruct (vec_get (account_keys tc) (index_in_transaction ia)); simplify_eq/=.
Qed.

Lemma signer_key_ok ic i tc k tc' :
  ic_small ic -> signer_key ic i tc = (Ok k, tc') -> same_values tc tc' /\ signed ic tc k.
Proof.
  intros Hsm (ia & t1 & t2 & Hi & Hv1 & Hs & Hv2)%scope_inv. cbv beta in Hs. next Hs.
  destruct (is_signer _) eqn:Hsg; [|done]. apply ret_ok_inv in Hs as [-> ->]. split; [by etransitivity|].
  destruct (instruction_handle_flags ic i ia (instruction_handle_of ic i ia) Hsm Hi eq_refl eq_refl) as [_ He].
  rewrite He in Hsg. exists ia. split_and!; [apply vec_get_Some in Hi as [_ Hi]; by eapply list_elem_of_lookup_2|done|].
  unfold get_key in Hq. simpl in Hq. destruct Hv1 as [Hf1 _].
  unfold get_key_of_account_at_index in *. rewrite (sf_keys _ _ Hf1) in Hq.
  by destruct (vec_get (account_keys tc) (index_in_transaction ia)); simplify_eq/=.
Qed.

Lemma authorized_table_ok ba k tc t tc' :
  authorized_table ba k tc = (Ok t, tc') ->
  tc' = tc /\ exists a, account_at tc (ba_index_in_transaction ba) = Some a /\
    AddressLookupTable_deserialize (acc_data a) = Ok t /\ table_authority (table_meta t) = Some k.
Proof.
  intros H. unfold authorized_table in H. next H. next H. apply borrowed_account_at in Hq.
  case_bool_decide; [done|]. case_bool_decide as Ha; [done|]. apply ret_ok_inv in H as [-> ->].
  split; [done|]. exists x. done.
Qed.

Lemma overwrite_account_meta_changed ba m tc tc' :
  overwrite_account_meta ba m tc = (Ok tt, tc') ->
  exists a d, changed (ba_index_in_transaction ba) a (account_set_data d a) tc tc' /\
    overwrite_meta_data (acc_data a) m = Ok d /\ acc_executable a = false.
Proof.
  intros H. unfold overwrite_account_meta in H. apply bind_ok_inv in H as (d0 & t & Hg & H).
  apply get_data_mut_ok in Hg as (Hl & Hv & a & Ha & -> & He & _). next H.
  exists a, x. split; [|done]. eapply update_borrowed_changed; [done|done|by rewrite Hv|done].
Qed.

Lemma extend_from_slice_changed ba d tc tc' :
  extend_from_slice ba d tc = (Ok tt, tc') ->
  exists a, changed (ba_index_in_transaction ba) a (account_set_data (acc_data a ++ d) a) tc tc' /\
    acc_executable a = false.
Proof.
  intros H. unfold extend_from_slice in H. next H. apply borrowed_account_at in Hq.
  next H. apply can_data_be_resized_ok in Hq0 as ->. next H.
  apply can_data_be_changed_ok in Hq0 as (-> & a & Ha & He & _). rewrite Hq in Ha. injection Ha as ->.
  exists a. split; [|done]. destruct d as [|b d].
  - inv_ok H. rewrite app_nil_r. replace (account_set_data (acc_data a) a) with a by (by destruct a).
    by apply changed_refl.
  - apply bind_ok_inv in H as ([] & t1 & Ht & H). apply touch_ok in Ht as [Hl Hv].
    apply bind_ok_inv in H as ([] & t2 & Hd & H). apply update_delta_local in Hd as Hqt.
    eapply (update_borrowed_changed ba (account_extend_from_slice (b :: d))); [done| |by rewrite (q_values _ _ Hqt), Hv|done].
    etransitivity; [done|]. destruct Hqt. by split.
Qed.

Lemma append_addresses_becomes ba l tc tc' a :
  account_at tc (ba_index_in_transaction ba) = Some a -> append_addresses ba l tc = (Ok tt, tc') ->
  becomes (ba_index_in_transaction ba) a (account_set_data (acc_data a ++ mjoin l) a) tc tc'.
Proof.
  revert tc a. induction l as [|k l IH]; intros tc a Ha H; cbn [append_addresses] in H.
  - inv_ok H. rewrite app_nil_r. replace (account_set_data (acc_data a) a) with a by (by destruct a). by apply becomes_refl.
  - apply bind_ok_inv in H as ([] & t & H1 & H2). apply extend_from_slice_changed in H1 as (a1 & Hch & _).
    rewrite (ch_before _ _ _ _ _ Hch) in Ha. injection Ha as ->.
    apply (IH t (account_set_data (acc_data a ++ k) a)) in H2; [|apply Hch].
    eapply becomes_trans; [by apply changed_becomes|]. simpl in H2. by rewrite <- app_assoc in H2.
Qed.

End steps.

(** ** The checks of [create_lookup_table] *)

Section creation.
Context {Hhash : Hashing} {Hcurve : Curve} {Hids : ProgramIds} {Htid : LookupTableIds} {Hfeatures : FeatureIds}.
Context {state_codec : Bincode TableState} {system_codec : Bincode SystemInstruction}.
Context (invoke : Invoke).

(** The checks before a table is created. *)
Record creatable (ic : InstructionContext) (features : FeatureSet) (hashes : SlotHashes.SlotHashes)
    (slot bump : Z) (tc : TransactionContext) (i : IndexOfAccount) (a : AccountSharedData)
    (key authority : Pubkey) : Prop := {
  cr_index : exists ia, vec_get (instruction_accounts ic) 0 = Some ia /\ index_in_transaction ia = i;
  cr_account : account_at tc i = Some a;
  cr_key : key_at tc i = Some key;
  cr_authority_key : exists j, key_at tc j = Some authority;
  cr_authority : is_active features relax_authority_signer_check_for_lookup_table_creation = false -> signed ic tc authority;
  cr_recent : is_Some (SlotHashes.get slot hashes);
  cr_derived : create_program_address [authority; le_bytes 8 slot; [bump]] table_id = Ok key;
}.

Lemma table_scope_ok ic (guard : AccountSharedData -> bool) e tc r tc' :
  borrowing (try_borrow_instruction_account ic 0) (fun account =>
    let? acc := query (borrowed account) in
    let? table_key := query (get_key account) in
    if guard acc then fail e else ret (acc_lamports acc, table_key, acc_owner acc)) tc = (Ok r, tc') ->
  same_values tc tc' /\ exists ia a key, vec_get (instruction_accounts ic) 0 = Some ia /\
    account_at tc (index_in_transaction ia) = Some a /\ key_at tc (index_in_transaction ia) = Some key /\
    r = (acc_lamports a, key, acc_owner a).
Proof.
  intros (ia & t1 & t2 & Hi & [Hf1 Hv1] & Hs & Hv2)%scope_inv. cbv beta in Hs. next Hs. next Hs.
  apply borrowed_account_at in Hq. simpl in Hq. rewrite Hv1 in Hq. destruct (guard x); [done|].
  apply ret_ok_inv in Hs as [-> ->]. split; [by etransitivity; [split|]|]. exists ia, x, x0. split_and!; try done.
  unfold get_key, get_key_of_account_at_index in Hq0. simpl in Hq0. rewrite (sf_keys _ _ Hf1) in Hq0.
  by destruct (vec_get (account_keys tc) (index_in_transaction ia)); simplify_eq/=.
Qed.

Lemma authority_scope_ok ic relaxed tc k tc' :
  ic_small ic ->
  borrowing (try_borrow_instruction_account ic 1) (fun account =>
    let? key := query (get_key account) in
    if negb relaxed && negb (is_signer account) then fail MissingRequiredSignature else ret key) tc = (Ok k, tc') ->
  same_values tc tc' /\ (exists j, key_at tc j = Some k) /\ (relaxed = false -> signed ic tc k).
Proof.
  intros Hsm H. split_and!; [| |intros ->; by apply signer_key_ok in H as [_ ?]];
    apply scope_inv in H as (ia & t1 & t2 & Hi & Hv1 & Hs & Hv2); cbv beta in Hs; next Hs;
    (destruct (negb relaxed && _); [done|]); apply ret_ok_inv in Hs as [-> ->].
  - by etransitivity.
  - exists (index_in_transaction ia). unfold get_key, get_key_of_account_at_index in Hq. simpl in Hq.
    rewrite (sf_keys _ _ (proj1 Hv1)) in Hq.
    by destruct (vec_get (account_keys tc) (index_in_transaction ia)); simplify_eq/=.
Qed.

(** A run of [create_lookup_table] that returned passed the checks; then either
    the table was there, or it was made by three calls and a write. *)
Lemma create_checks slot bump ic hashes s s' :
  running ic (transaction_context s) ->
  get_slot_hashes (env_sysvar_cache (environment s)) = Ok hashes ->
  create_lookup_table invoke slot bump s = (Ok tt, s') ->
  exists i a key authority,
    creatable ic (env_feature_set (environment s)) hashes slot bump (transaction_context s) i a key authority /\
    (same_values (transaction_context s) (transaction_context s') \/
     exists required payer s3 s4 s5 s6,
       same_values (transaction_context s) (transaction_context s3) /\
       (if 0 <? required then call_system invoke (Sdk.transfer payer key required) [payer] else ret tt) s3
         = (Ok tt, s4) /\
       call_system invoke (Sdk.allocate key LOOKUP_TABLE_META_SIZE) [key] s4 = (Ok tt, s5) /\
       call_system invoke (Sdk.assign key table_id) [key] s5 = (Ok tt, s6) /\
       (let? ic := on_tc (query get_current_instruction_context) in
        on_tc (borrowing (try_borrow_instruction_account ic 0) (fun account =>
          set_state account (ProgramState.LookupTable (LookupTableMeta_new authority))))) s6 = (Ok tt, s')).
Proof.
  intros Hr Hhashes H. unfold create_lookup_table in H.
  apply bind_ok_inv in H as (env & s0 & Hq & H). apply gets_ok_inv in Hq as [-> ->].
  apply bind_ok_inv in H as (ic0 & s0 & Hq & H). apply zoom_inv in Hq as (t0 & Hq & ->).
  apply query_ok_inv in Hq as [Hq ->]. rewrite (ru_current _ _ Hr) in Hq. injection Hq as <-.
  apply bind_ok_inv in H as (r & s1 & Hq & H). apply zoom_inv in Hq as (t1 & H1 & ->).
  apply table_scope_ok in H1 as (Hv1 & ia & a & key & Hi & Ha & Hk & ->).
  apply bind_ok_inv in H as (authority & s2 & Hq & H). apply zoom_inv in Hq as (t2 & H2 & ->).
  apply authority_scope_ok in H2 as (Hv2 & Hak & Hsg); [|apply Hr].
  apply bind_ok_inv in H as (payer & s3 & Hq & H). apply zoom_inv in Hq as (t3 & H3 & ->).
  apply signer_key_ok in H3 as (Hv3 & _); [|apply Hr]. simpl in Hv1, Hv2, Hv3, Ha, Hk, Hak, Hsg.
  assert (same_values (transaction_context s) t3) as Hv by (by do 2 (etransitivity; [done|])).
  apply bind_ok_inv in H as (hs & s4 & Hq & H). apply lift_ok_inv in Hq as [Hq ->].
  rewrite Hhashes in Hq. injection Hq as <-.
  apply bind_ok_inv in H as (derivation_slot & s4 & Hq & H).
  destruct (SlotHashes.get slot hashes) as [h|] eqn:Hget; [|done]. apply ret_ok_inv in Hq as [-> ->].
  apply bind_ok_inv in H as (derived & s4 & Hq & H). apply lift_ok_inv in Hq as [Hder%map_err_ok ->].
  case_bool_decide as Heq; [done|]. subst derived.
  assert (creatable ic (env_feature_set (environment s)) hashes slot bump (transaction_context s)
    (index_in_transaction ia) a key authority) as Hcr.
  { split; try done; [by exists ia|by rewrite (sf_keys _ _ (proj1 Hv1)) in Hak|]. intros Hx. specialize (Hsg Hx).
    unfold signed, get_key_of_account_at_index in *. by rewrite (sf_keys _ _ (proj1 Hv1)) in Hsg. }
  exists (index_in_transaction ia), a, key, authority. split; [done|].
  destruct (_ && _); [apply ret_ok_inv in H as [_ ->]; by left|]. right.
  apply bind_ok_inv in H as (rent & s4 & Hq & H). apply lift_ok_inv in Hq as [_ ->].
  apply bind_ok_inv in H as ([] & s4 & H1 & H). apply bind_ok_inv in H as ([] & s5 & H2 & H).
  apply bind_ok_inv in H as ([] & s6 & H3 & H). eexists _, payer, _, s4, s5, s6.
  split; [|split; [exact H1|split_and!; [exact H2|exact H3|exact H]]]. done.
Qed.

End creation.

(** ** What an instruction does *)

(** Decoded instructions carry addresses of 32 bytes. *)
Definition table_instruction_wf (i : TableInstruction) : Prop :=
  match i with
  | ProgramInstruction.ExtendLookupTable new_addresses => Forall (fun k => length k = 32%nat) new_addresses
  | _ => True
  end.

Section effects.
Context {Hhash : Hashing} {Hcurve : Curve} {Hids : ProgramIds} {Htid : LookupTableIds} {Hfeatures : FeatureIds}.
Context {cast : CastSlice} {cast_ok : CastSliceOk}.
Context {state_codec : Bincode TableState} {codec_ok : BincodeOk TableState}.
Context {system_codec : Bincode SystemInstruction} {instruction_codec : BincodeLimited TableInstruction}.
Context {instruction_ok : BincodeLimitedOk TableInstruction table_instruction_wf}.
Context (Hne : address_lookup_table_program_id <> system_program_id) (B : Prop).

Inductive table_effect (ic : InstructionContext) (features : FeatureSet) (now : Slot)
    (hashes : SlotHashes.SlotHashes) (tc tc' : TransactionContext) : Prop :=
  | effect_none : kept B (fun _ => False) tc tc' -> table_effect ic features now hashes tc tc'
  | effect_create i a a' key authority slot bump :
      kept B (eq i) tc tc' ->
      key_at tc i = Some key ->
      create_program_address [authority; le_bytes 8 slot; [bump]] table_id = Ok key ->
      is_Some (SlotHashes.get slot hashes) ->
      (is_active features relax_authority_signer_check_for_lookup_table_creation = false ->
         signed ic tc authority) ->
      account_at tc i = Some a -> acc_owner a = system_program_id -> acc_data a = [] ->
      account_at tc' i = Some a' ->
      table_of a' = Some (mkAddressLookupTable (LookupTableMeta_new authority) []) ->
      table_effect ic features now hashes tc tc'
  | effect_step i a a' t o :
      kept B (eq i) tc tc' ->
      account_at tc i = Some a -> table_of a = Some t ->
      table_step (signed ic tc) now hashes t o ->
      account_at tc' i = Some a' -> acc_owner a' = table_id ->
      match o with
      | Some t' => table_of a' = Some t' /\ acc_lamports a <= acc_lamports a'
      | None => acc_data a' = [] /\ acc_lamports a' = 0
      end ->
      table_effect ic features now hashes tc tc'.

Lemma table_of_intro a t :
  acc_owner a = table_id -> AddressLookupTable_deserialize (acc_data a) = Ok t -> table_of a = Some t.
Proof. intros Ho Hd. unfold table_of. rewrite bool_decide_eq_true_2 by done. by rewrite Hd. Qed.

(** The beginning of all handlers but [create_lookup_table]. *)
Record opened (ic : InstructionContext) (tc tc' : TransactionContext) (ia : InstructionAccount)
    (a : AccountSharedData) (key authority : Pubkey) : Prop := {
  op_values : same_values tc tc';
  op_account : vec_get (instruction_accounts ic) 0 = Some ia;
  op_before : account_at tc (index_in_transaction ia) = Some a;
  op_owner : acc_owner a = table_id;
  op_key : key_at tc (index_in_transaction ia) = Some key;
  op_signed : signed ic tc authority;
}.

Lemma open_table ic tc k tc1 authority tc2 :
  ic_small ic -> check_table_owner ic tc = (Ok k, tc1) -> signer_key ic 1 tc1 = (Ok authority, tc2) ->
  exists ia a, opened ic tc tc2 ia a k authority.
Proof.
  intros Hs (Hv1 & ia & a & Hi & Ha & Ho & Hk)%check_table_owner_ok (Hv2 & Hsg)%signer_key_ok; [|done].
  exists ia, a. split; try done; [by etransitivity|].
  unfold signed, get_key_of_account_at_index in *. destruct Hv1 as [Hf1 _]. by rewrite (sf_keys _ _ Hf1) in Hsg.
Qed.

(** A scope on the table account that replaces its meta data. *)
Lemma meta_scope_effect ic features now hashes tc tc1 tc2 ia a k authority
    (scope : BorrowedAccount -> TxM unit) :
  opened ic tc tc1 ia a k authority ->
  borrowing (try_borrow_instruction_account ic 0) scope tc1 = (Ok tt, tc2) ->
  (forall t1 t2, account_at t1 (index_in_transaction ia) = Some a ->
    scope (instruction_handle_of ic 0 ia) t1 = (Ok tt, t2) ->
    exists t m d, AddressLookupTable_deserialize (acc_data a) = Ok t /\
      changed (index_in_transaction ia) a (account_set_data d a) t1 t2 /\
      overwrite_meta_data (acc_data a) m = Ok d /\
      table_step (signed ic tc) now hashes t (Some (mkAddressLookupTable m (table_addresses t)))) ->
  table_effect ic features now hashes tc tc2.
Proof.
  intros [Hv Hi Ha Ho _ _] (ia' & t1 & t2 & Hi' & Hv1 & Hs & Hv2)%scope_inv Hscope.
  rewrite Hi in Hi'. injection Hi' as <-.
  apply Hscope in Hs as (t & m & d & Ht & Hch & Hd & Hstep); [|destruct Hv1 as [_ ->], Hv as [_ ->]; done].
  apply changed_becomes in Hch. eapply (becomes_same_values _ _ _ tc t1 t2 tc2) in Hch; [|by etransitivity|done].
  eapply effect_step; [by eapply becomes_kept|done|by apply table_of_intro|exact Hstep|apply Hch|done|].
  split; [|simpl; lia]. apply table_of_intro; [done|]. by eapply overwrite_table.
Qed.

Lemma freeze_effect ic features now hashes tc tc' :
  ic_small ic -> get_current_instruction_context tc = Ok ic -> freeze_lookup_table tc = (Ok tt, tc') ->
  table_effect ic features now hashes tc tc'.
Proof.
  intros Hs Hc H. unfold freeze_lookup_table in H. next H. rewrite Hc in Hq. injection Hq as <-.
  apply bind_ok_inv in H as (k & t1 & H1 & H). apply bind_ok_inv in H as (authority & t2 & H2 & H).
  destruct (open_table _ _ _ _ _ _ Hs H1 H2) as (ia & a & Hop).
  eapply meta_scope_effect; [exact Hop|exact H|]. intros u1 u2 Ha Hsc. cbv beta in Hsc.
  apply bind_ok_inv in Hsc as (t & u & Hat & Hsc). apply authorized_table_ok in Hat as (-> & a' & Ha' & Hd & Hau).
  simpl in Ha'. rewrite Ha in Ha'. injection Ha' as <-. destruct (negb _) eqn:G1; [done|].
  case_bool_decide as G2; [done|]. bool_facts.
  apply overwrite_account_meta_changed in Hsc as (a' & d & Hch & Hw & _).
  pose proof (ch_before _ _ _ _ _ Hch) as Hb. simpl in Hb. rewrite Ha in Hb. injection Hb as <-.
  exists t, (set_authority None (table_meta t)), d. split_and!; [done..|].
  eapply step_freeze; [done|apply Hop|done|done].
Qed.

Lemma deactivate_effect env ic features clock hashes tc tc' :
  ic_small ic -> get_current_instruction_context tc = Ok ic -> get_clock (env_sysvar_cache env) = Ok clock ->
  deactivate_lookup_table env tc = (Ok tt, tc') -> table_effect ic features (clock_slot clock) hashes tc tc'.
Proof.
  intros Hs Hc Hclock H. unfold deactivate_lookup_table in H. next H. rewrite Hc in Hq. injection Hq as <-.
  apply bind_ok_inv in H as (k & t1 & H1 & H). apply bind_ok_inv in H as (authority & t2 & H2 & H).
  destruct (open_table _ _ _ _ _ _ Hs H1 H2) as (ia & a & Hop).
  eapply meta_scope_effect; [exact Hop|exact H|]. intros u1 u2 Ha Hsc. cbv beta in Hsc.
  apply bind_ok_inv in Hsc as (t & u & Hat & Hsc). apply authorized_table_ok in Hat as (-> & a' & Ha' & Hd & Hau).
  simpl in Ha'. rewrite Ha in Ha'. injection Ha' as <-. destruct (negb _) eqn:G1; [done|]. bool_facts.
  next Hsc. rewrite Hclock in Hq. injection Hq as <-.
  apply overwrite_account_meta_changed in Hsc as (a' & d & Hch & Hw & _).
  pose proof (ch_before _ _ _ _ _ Hch) as Hb. simpl in Hb. rewrite Ha in Hb. injection Hb as <-.
  exists t, (set_deactivation_slot (clock_slot clock) (table_meta t)), d. split_and!; [done..|].
  eapply step_deactivate; [done|apply Hop|done].
Qed.

Lemma closable_table_ok env ba k clock hashes tc w tc' :
  get_clock (env_sysvar_cache env) = Ok clock -> get_slot_hashes (env_sysvar_cache env) = Ok hashes ->
  closable_table env ba k tc = (Ok w, tc') ->
  tc' = tc /\ exists a t, account_at tc (ba_index_in_transaction ba) = Some a /\ w = acc_lamports a /\
    AddressLookupTable_deserialize (acc_data a) = Ok t /\ table_authority (table_meta t) = Some k /\
    status (table_meta t) (clock_slot clock) hashes = Deactivated.
Proof.
  intros Hclock Hhashes H. unfold closable_table in H. next H. apply borrowed_account_at in Hq.
  apply bind_ok_inv in H as (t & u & Hat & H). apply authorized_table_ok in Hat as (-> & a & Ha & Hd & Hau).
  rewrite Hq in Ha. injection Ha as ->. next H. next H. rewrite Hclock in Hq0. injection Hq0 as <-.
  rewrite Hhashes in Hq1. injection Hq1 as <-. destruct (status _ _ _) eqn:Hst; [done..|].
  apply ret_ok_inv in H as [-> ->]. split; [done|]. by exists a, t.
Qed.

(** The account of a table that was closed. *)
Lemma empty_account_becomes ba tc tc' :
  (set_data_length ba 0 ;? set_lamports ba 0) tc = (Ok tt, tc') ->
  exists a a', becomes (ba_index_in_transaction ba) a a' tc tc' /\ acc_owner a' = acc_owner a /\
    acc_data a' = [] /\ acc_lamports a' = 0.
Proof.
  intros H. apply bind_ok_inv in H as ([] & t & H1 & H2).
  apply set_data_length_changed in H1 as (a & Hch & _); [|done].
  apply set_lamports_changed in H2 as (a1 & Hch2 & _).
  pose proof (ch_before _ _ _ _ _ Hch2) as Hb. rewrite (ch_after _ _ _ _ _ Hch) in Hb. injection Hb as <-.
  eexists a, _. split; [eapply becomes_trans; by apply changed_becomes|]. simpl.
  split_and!; [done|apply resize_0|done].
Qed.

Lemma close_effect env ic features clock hashes tc tc' :
  ic_small ic -> (B -> balances_wf tc) -> get_current_instruction_context tc = Ok ic ->
  get_clock (env_sysvar_cache env) = Ok clock -> get_slot_hashes (env_sysvar_cache env) = Ok hashes ->
  close_lookup_table env tc = (Ok tt, tc') -> table_effect ic features (clock_slot clock) hashes tc tc'.
Proof.
  intros Hs Hbal Hc Hclock Hhashes H. unfold close_lookup_table in H. next H. rewrite Hc in Hq. injection Hq as <-.
  apply bind_ok_inv in H as (k & t1 & H1 & H). apply bind_ok_inv in H as (authority & t2 & H2 & H).
  destruct (open_table _ _ _ _ _ _ Hs H1 H2) as (ia & a & [Hv Hi Ha Ho _ Hsg]). clear H1 H2.
  next H. next H. next H. destruct (Z.eqb_spec x0 x1) as [|Hdiff]; [done|].
  apply bind_ok_inv in H as (w & t3 & H1 & H). apply bind_ok_inv in H as ([] & t4 & H2 & H3).
  apply scope_inv in H1 as (ia1 & u1 & u2 & Hi1 & Hv1 & H1 & Hv2). rewrite Hi in Hi1. injection Hi1 as <-.
  apply (closable_table_ok _ _ _ clock hashes) in H1 as (-> & a1 & t & Ha1 & -> & Hd & Hau & Hst); [|done..].
  simpl in Ha1. assert (same_values tc t3) as Hv3 by (by do 2 (etransitivity; [done|])).
  destruct Hv1 as [_ Hv1]. destruct Hv as [_ Hv]. rewrite Hv1, Hv, Ha in Ha1. injection Ha1 as <-.
  apply (borrowing_becomes _ _ _ _ _ (fun b b' => b' = credit (acc_lamports a) b)) in H2
    as (ia2 & b & ? & Hi2 & Hb2 & ->).
  2:{ intros ia2 u v _ _ _ (b & Hch & _)%checked_add_lamports_changed. exists b, (credit (acc_lamports a) b).
      split; [by apply changed_becomes|done]. }
  apply (borrowing_becomes _ _ _ _ _ (fun a a' => acc_owner a' = acc_owner a /\ acc_data a' = [] /\ acc_lamports a' = 0))
    in H3 as (ia3 & a3 & a4 & Hi3 & Hb3 & Ho3 & Hd3 & Hl3).
  2:{ intros ia3 u v _ _ _ Hsc. apply empty_account_becomes in Hsc as (c & c' & ? & ?). by exists c, c'. }
  rewrite Hi in Hi3. injection Hi3 as <-.
  unfold get_index_of_instruction_account_in_transaction in Hq0, Hq1. rewrite Hi in Hq0. rewrite Hi2 in Hq1.
  simpl in Hq0, Hq1. injection Hq0 as <-. injection Hq1 as <-.
  eapply (effect_step _ _ _ _ _ _ _ a a4 t None); [|done|by apply table_of_intro| |apply Hb3| |done].
  - eapply kept_trans; [by apply same_values_kept|]. eapply kept_trans; [|by eapply becomes_kept].
    intros j c Hj Hx. destruct (decide (j = index_in_transaction ia2)) as [->|Hne2].
    + rewrite (be_before _ _ _ _ _ Hb2) in Hx. injection Hx as <-. eexists. split; [apply Hb2|].
      split_and!; [done..|]. intros HB _. specialize (Hbal HB _ _ Ha). unfold in_range in Hbal. simpl in *. lia.
    + exists c. rewrite (be_other _ _ _ _ _ Hb2) by done. split_and!; [done..|lia].
  - eapply step_close; [done|done|done].
  - rewrite Ho3. pose proof (be_before _ _ _ _ _ Hb3) as Hb. rewrite (be_other _ _ _ _ _ Hb2) in Hb by done.
    destruct Hv3 as [_ Hv3]. rewrite Hv3, Ha in Hb. by injection Hb as <-.
Qed.

Lemma extended_meta_ok now t m new : extended_meta now t = Ok m -> m = table_meta (extended now new t).
Proof.
  unfold extended_meta, extended. rewrite (Z.eqb_sym now). simpl. destruct (_ =? _); [by intros [= <-]|].
  destruct (checked U8 _) as [n|] eqn:Hn; simpl; [|done]. apply checked_Some in Hn as [-> _]. by intros [= <-].
Qed.

Lemma extend_table_ok env ba k new clock tc r tc' :
  Forall (fun k => length k = 32%nat) new -> get_clock (env_sysvar_cache env) = Ok clock ->
  extend_table env ba k new tc = (Ok r, tc') ->
  exists a t d, becomes (ba_index_in_transaction ba) a (account_set_data d a) tc tc' /\
    AddressLookupTable_deserialize (acc_data a) = Ok t /\
    AddressLookupTable_deserialize d = Ok (extended (clock_slot clock) new t) /\
    acc_executable a = false /\
    forall (signed : Pubkey -> Prop) hashes, signed k ->
      table_step signed (clock_slot clock) hashes t (Some (extended (clock_slot clock) new t)).
Proof.
  intros Hnew Hclock H. unfold extend_table in H. next H. apply borrowed_account_at in Hq.
  apply bind_ok_inv in H as (t & u & Hat & H). apply authorized_table_ok in Hat as (-> & a & Ha & Hd & Hau).
  rewrite Hq in Ha. injection Ha as ->.
  destruct (negb _) eqn:G1; [done|]. destruct (_ <=? _) eqn:G2; [done|]. case_bool_decide as G3; [done|].
  destruct (_ <? _) eqn:G4; [done|]. bool_facts.
  next H. rewrite Hclock in Hq0. injection Hq0 as <-. next H. apply (extended_meta_ok _ _ _ new) in Hq0 as ->.
  next H. apply bind_ok_inv in H as ([] & t1 & Hw & H). apply bind_ok_inv in H as ([] & t2 & Happ & H).
  apply ret_ok_inv in H as [_ ->].
  apply overwrite_account_meta_changed in Hw as (a' & d & Hch & Hw & He).
  rewrite (ch_before _ _ _ _ _ Hch) in Hq. injection Hq as ->.
  apply (append_addresses_becomes _ _ _ _ (account_set_data d a)) in Happ; [|apply Hch].
  exists a, t, (d ++ mjoin new). split_and!; [|done| |done|].
  - eapply becomes_trans; [by apply changed_becomes|exact Happ].
  - by eapply overwrite_then_append.
  - intros signed hashes Hsg. eapply step_extend; try done.
    unfold saturating_add, saturating in G4. unfold LOOKUP_TABLE_MAX_ADDRESSES in *. simpl in G4. lia.
Qed.

(** ** The handlers that call *)

Context (invoke : Invoke) {calls : SystemCalls invoke}.

Lemma call_system_ok ix signers s s' :
  call_system invoke ix signers s = (Ok tt, s') ->
  exists i, ix = Ok i /\ invoke (StableInstruction_from i) signers s = (Ok tt, s').
Proof. destruct ix as [i|e|]; [by exists i|done..]. Qed.

Lemma small_call {T} `{!Bincode T} program_id (x : T) metas i :
  new_with_bincode program_id x metas = Ok i -> vec_len metas < int_max U16 ->
  vec_len (si_accounts (StableInstruction_from i)) < int_max U16.
Proof. unfold new_with_bincode. destruct (bincode_serialize x); simpl; [|done]. by intros [= <-]. Qed.

(** A call that returned: its instruction is still running, on the same keys. *)
Lemma call_running ic instruction signers s s' :
  running ic (transaction_context s) -> vec_len (si_accounts instruction) < int_max U16 ->
  invoke instruction signers s = (Ok tt, s') ->
  running ic (transaction_context s') /\
  account_keys (transaction_context s') = account_keys (transaction_context s).
Proof.
  intros Hr Hlen H. apply (calls_contained _ _ Hlen ic) in H; [|done..].
  split; [by eapply contained_in_running|apply H].
Qed.

(** What a transfer to the account at [i] leaves of the accounts. *)
Lemma fund_table ic i key a payer l signers s s' :
  call_system invoke (Sdk.transfer payer key l) signers s = (Ok tt, s') ->
  running ic (transaction_context s) -> system_loaded (transaction_context s) -> 0 < l ->
  key_at (transaction_context s) i = Some key -> account_at (transaction_context s) i = Some a ->
  running ic (transaction_context s') /\ system_loaded (transaction_context s') /\
  account_keys (transaction_context s') = account_keys (transaction_context s) /\
  kept B (eq i) (transaction_context s) (transaction_context s') /\
  exists a', account_at (transaction_context s') i = Some a' /\ acc_owner a' = acc_owner a /\
    acc_data a' = acc_data a /\ (acc_owner a <> system_program_id -> acc_lamports a <= acc_lamports a').
Proof.
  intros (ix & Hix & H)%call_system_ok Hr Hl Hpos Hi Ha.
  pose proof (call_running ic _ _ _ _ Hr (small_call _ _ _ _ Hix ltac:(done)) H) as [Hr' Hk'].
  apply (call_transfer _ _ _ _ _ ic _ _ Hr Hl Hix) in H.
  split_and!; [done|by eapply transferred_loaded|done|eapply transferred_kept; [done|apply Hr|done..]|].
  apply (transferred_target i payer key l (transaction_context s)); [apply Hr|lia|done..].
Qed.

(** The first half of an extension: the table is extended, the balance is not. *)
Lemma extension_opens new ic clock env tc k tc1 authority tc2 r tc3 :
  Forall (fun k => length k = 32%nat) new -> ic_small ic -> get_clock (env_sysvar_cache env) = Ok clock ->
  check_table_owner ic tc = (Ok k, tc1) -> signer_key ic 1 tc1 = (Ok authority, tc2) ->
  borrowing (try_borrow_instruction_account ic 0) (fun account => extend_table env account authority new) tc2
    = (Ok r, tc3) ->
  exists i a t d, key_at tc i = Some k /\ becomes i a (account_set_data d a) tc tc3 /\
    acc_executable a = false /\ acc_owner a = table_id /\ table_of a = Some t /\
    AddressLookupTable_deserialize d = Ok (extended (clock_slot clock) new t) /\
    forall hashes, table_step (signed ic tc) (clock_slot clock) hashes t (Some (extended (clock_slot clock) new t)).
Proof.
  intros Hnew Hs Hclock H1 H2 H3.
  destruct (open_table _ _ _ _ _ _ Hs H1 H2) as (ia & a & [Hv Hi Ha Ho Hk Hsg]).
  apply scope_inv in H3 as (ia1 & u1 & u2 & Hi1 & Hv1 & Hsc & Hv2). rewrite Hi in Hi1. injection Hi1 as <-.
  apply (extend_table_ok _ _ _ _ clock) in Hsc as (a1 & t & d & Hb & Hd & Hd' & He & Hstep); [|done..].
  eapply (becomes_same_values _ _ _ tc) in Hb; [|by etransitivity|exact Hv2]. simpl in Hb.
  pose proof (be_before _ _ _ _ _ Hb) as Ha1. rewrite Ha in Ha1. injection Ha1 as <-.
  exists (index_in_transaction ia), a, t, d. split_and!; try done; [by apply table_of_intro|].
  intros hashes. by apply Hstep.
Qed.

Lemma extend_effect new ic clock hashes s s' :
  Forall (fun k => length k = 32%nat) new ->
  running ic (transaction_context s) -> system_loaded (transaction_context s) ->
  get_clock (env_sysvar_cache (environment s)) = Ok clock ->
  extend_lookup_table invoke new s = (Ok tt, s') ->
  table_effect ic (env_feature_set (environment s)) (clock_slot clock) hashes
    (transaction_context s) (transaction_context s').
Proof.
  intros Hnew Hr Hld Hclock H. unfold extend_lookup_table in H.
  apply bind_ok_inv in H as (env & s0 & Hq & H). apply gets_ok_inv in Hq as [-> ->].
  apply bind_ok_inv in H as (ic0 & s0 & Hq & H). apply zoom_inv in Hq as (t0 & Hq & ->).
  apply query_ok_inv in Hq as [Hq ->]. rewrite (ru_current _ _ Hr) in Hq. injection Hq as <-.
  apply bind_ok_inv in H as (k & s1 & Hq & H). apply zoom_inv in Hq as (t1 & H1 & ->).
  apply bind_ok_inv in H as (authority & s2 & Hq & H). apply zoom_inv in Hq as (t2 & H2 & ->).
  apply bind_ok_inv in H as ([l n] & s3 & Hq & H). apply zoom_inv in Hq as (t3 & H3 & ->). simpl in H1, H2, H3.
  destruct (extension_opens _ _ _ _ _ _ _ _ _ _ _ Hnew (ru_small _ _ Hr) Hclock H1 H2 H3) as
    (i & a & t & d & Hk & Hb & He & Ho & Ht & Hd & Hstep).
  assert (forall tc', kept B (eq i) (transaction_context s) tc' ->
    (exists a', account_at tc' i = Some a' /\ acc_owner a' = table_id /\ acc_data a' = d /\
      acc_lamports a <= acc_lamports a') ->
    table_effect ic (env_feature_set (environment s)) (clock_slot clock) hashes (transaction_context s) tc') as Hdone.
  { intros tc' Hkept (a' & Ha' & Ho' & Hda & Hl). subst d.
    eapply (effect_step _ _ _ _ _ _ _ a a' t (Some _)); [done|apply Hb|done|by apply Hstep|done|done|].
    split; [by apply table_of_intro|done]. }
  clear H1 H2 H3. apply bind_ok_inv in H as (rent & s4 & Hq & H). apply lift_ok_inv in Hq as [_ ->].
  destruct (Z.ltb_spec 0 (saturating_sub U64 (Z.max (minimum_balance rent n) 1) l)) as [Hpos|_].
  2:{ apply ret_ok_inv in H as [_ ->]. apply Hdone; [by eapply becomes_kept|]. simpl.
      exists (account_set_data d a). split_and!; [apply Hb|done..|simpl; lia]. }
  apply bind_ok_inv in H as (payer & s5 & Hq & H). apply zoom_inv in Hq as (t5 & H5 & ->). simpl in H5.
  apply signer_key_ok in H5 as [Hv _]; [|apply Hr].
  pose proof (running_frame _ _ _ (be_frame _ _ _ _ _ Hb) Hr) as Hr3.
  pose proof (running_frame _ _ _ (proj1 Hv) Hr3) as Hr5.
  pose proof (same_values_loaded _ _ Hv (becomes_loaded _ _ _ _ _ Hb He Hld)) as Hl5.
  assert (key_at t5 i = Some k) as Hk5
    by (by rewrite (sf_keys _ _ (proj1 Hv)), (sf_keys _ _ (be_frame _ _ _ _ _ Hb))).
  assert (account_at t5 i = Some (account_set_data d a)) as Ha5 by (destruct Hv as [_ ->]; apply Hb).
  destruct (fund_table _ _ _ _ _ _ _ _ _ H Hr5 Hl5 Hpos Hk5 Ha5) as (_ & _ & _ & Hkept & a' & Ha' & Ho' & Hd' & Hl').
  apply Hdone; [eapply kept_trans; [by eapply becomes_kept|eapply kept_trans; [by apply same_values_kept|exact Hkept]]|].
  exists a'. simpl in *. split_and!; [done|congruence|done|]. apply Hl'. congruence.
Qed.

(** The account at [i] is allocated. *)
Lemma allocate_table ic i key space a signers s s' :
  call_system invoke (Sdk.allocate key space) signers s = (Ok tt, s') -> 0 <= space ->
  running ic (transaction_context s) -> system_loaded (transaction_context s) ->
  key_at (transaction_context s) i = Some key -> account_at (transaction_context s) i = Some a ->
  running ic (transaction_context s') /\ system_loaded (transaction_context s') /\
  key_at (transaction_context s') i = Some key /\
  kept B (eq i) (transaction_context s) (transaction_context s') /\
  acc_owner a = system_program_id /\ acc_data a = [] /\
  exists a', account_at (transaction_context s') i = Some a' /\ acc_data a' = replicate (Z.to_nat space) 0.
Proof.
  intros (ix & Hix & H)%call_system_ok Hsp Hr Hl Hi Ha.
  pose proof (call_running ic _ _ _ _ Hr (small_call _ _ _ _ Hix ltac:(done)) H) as [Hr' Hk'].
  apply (call_allocate _ _ _ _ ic _ _ Hr Hl Hsp Hix) in H. pose proof (allocated_loaded _ _ _ _ Hk' H Hl) as Hl'.
  destruct H as (i' & x & Hi' & Hre & Hd & Ho).
  assert (i' = i) as -> by (eapply keys_inj; [apply Hr|done..]). rewrite (re_before _ _ _ _ _ Hre) in Ha. injection Ha as ->.
  split_and!; [done|done|by rewrite Hk'|by eapply replaces_kept|done|done|].
  eexists. split; [apply Hre|]. simpl. rewrite Hd. by rewrite resize_nil.
Qed.

(** The account at [i] is assigned to the program. *)
Lemma assign_table ic i key owner a signers s s' :
  call_system invoke (Sdk.assign key owner) signers s = (Ok tt, s') ->
  running ic (transaction_context s) -> system_loaded (transaction_context s) ->
  key_at (transaction_context s) i = Some key -> account_at (transaction_context s) i = Some a ->
  running ic (transaction_context s') /\
  kept B (eq i) (transaction_context s) (transaction_context s') /\
  exists a', account_at (transaction_context s') i = Some a' /\ acc_data a' = acc_data a /\ acc_owner a' = owner.
Proof.
  intros (ix & Hix & H)%call_system_ok Hr Hl Hi Ha.
  pose proof (call_running ic _ _ _ _ Hr (small_call _ _ _ _ Hix ltac:(done)) H) as [Hr' Hk'].
  apply (call_assign _ _ _ _ ic _ _ Hr Hl Hix) in H. destruct H as (i' & x & Hi' & Hre & _).
  assert (i' = i) as -> by (eapply keys_inj; [apply Hr|done..]). rewrite (re_before _ _ _ _ _ Hre) in Ha. injection Ha as ->.
  split_and!; [done|by eapply replaces_kept|]. eexists. split; [apply Hre|done].
Qed.

(** After the checks: the account is funded, allocated and assigned. *)
Lemma create_calls ic i key a required signers1 payer s s1 s2 s3 :
  running ic (transaction_context s) -> system_loaded (transaction_context s) ->
  key_at (transaction_context s) i = Some key -> account_at (transaction_context s) i = Some a ->
  (if 0 <? required then call_system invoke (Sdk.transfer payer key required) signers1 else ret tt) s = (Ok tt, s1) ->
  call_system invoke (Sdk.allocate key LOOKUP_TABLE_META_SIZE) [key] s1 = (Ok tt, s2) ->
  call_system invoke (Sdk.assign key table_id) [key] s2 = (Ok tt, s3) ->
  running ic (transaction_context s3) /\ kept B (eq i) (transaction_context s) (transaction_context s3) /\
  acc_owner a = system_program_id /\ acc_data a = [] /\
  exists a', account_at (transaction_context s3) i = Some a' /\ acc_owner a' = table_id /\
    acc_data a' = replicate (Z.to_nat LOOKUP_TABLE_META_SIZE) 0.
Proof.
  intros Hr Hl Hi Ha H1 H2 H3.
  assert (running ic (transaction_context s1) /\ system_loaded (transaction_context s1) /\
    key_at (transaction_context s1) i = Some key /\
    kept B (eq i) (transaction_context s) (transaction_context s1) /\
    exists a1, account_at (transaction_context s1) i = Some a1 /\
      acc_owner a1 = acc_owner a /\ acc_data a1 = acc_data a) as (Hr1 & Hl1 & Hi1 & Hk1 & a1 & Ha1 & Ho1 & Hd1).
  { destruct (Z.ltb_spec 0 required) as [Hpos|_].
    - destruct (fund_table ic _ _ _ _ _ _ _ _ H1 Hr Hl Hpos Hi Ha) as (Hr1 & Hl1 & Hk & Hk1 & a1 & Ha1 & Ho1 & Hd1 & _).
      split_and!; [done|done|by rewrite Hk|done|]. by exists a1.
    - apply ret_ok_inv in H1 as [_ ->]. split_and!; [done..|by apply same_values_kept|]. by exists a. }
  destruct (allocate_table ic _ _ _ _ _ _ _ H2 ltac:(done) Hr1 Hl1 Hi1 Ha1) as
    (Hr2 & Hl2 & Hi2 & Hk2 & Ho & Hd & a2 & Ha2 & Hd2).
  destruct (assign_table ic _ _ _ _ _ _ _ H3 Hr2 Hl2 Hi2 Ha2) as (Hr3 & Hk3 & a3 & Ha3 & Hd3 & Ho3).
  split_and!; [done| |congruence|congruence|].
  - by do 2 (eapply kept_trans; [done|]).
  - exists a3. split_and!; congruence.
Qed.

(** The new table is written. *)
Lemma write_new_table ic ia a authority tc tc' :
  vec_get (instruction_accounts ic) 0 = Some ia -> account_at tc (index_in_transaction ia) = Some a ->
  acc_owner a = table_id -> acc_data a = replicate (Z.to_nat LOOKUP_TABLE_META_SIZE) 0 ->
  borrowing (try_borrow_instruction_account ic 0) (fun account =>
    set_state account (ProgramState.LookupTable (LookupTableMeta_new authority))) tc = (Ok tt, tc') ->
  kept B (eq (index_in_transaction ia)) tc tc' /\
  exists a', account_at tc' (index_in_transaction ia) = Some a' /\
    table_of a' = Some (mkAddressLookupTable (LookupTableMeta_new authority) []).
Proof.
  intros Hia Ha Ho Hd H.
  apply (borrowing_becomes _ _ _ _ _ (fun a a' => exists d, a' = account_set_data d a /\
    bincode_serialize_into (acc_data a) (ProgramState.LookupTable (LookupTableMeta_new authority)) = Some d)) in H
    as (ia' & a4 & a5 & Hia' & Hb & d & -> & Hd5).
  2:{ intros ia' u v _ _ _ (x & d & Hch & Hs & _)%set_state_changed. exists x, (account_set_data d x).
      split; [by apply changed_becomes|by exists d]. }
  rewrite Hia in Hia'. injection Hia' as <-. pose proof (be_before _ _ _ _ _ Hb) as Hb4. rewrite Ha in Hb4. injection Hb4 as <-.
  rewrite Hd in Hd5. split; [by eapply becomes_kept|]. exists (account_set_data d a). split; [apply Hb|].
  apply table_of_intro; [done|]. by apply new_table_data.
Qed.

Lemma create_effect slot bump ic now hashes s s' :
  running ic (transaction_context s) -> system_loaded (transaction_context s) ->
  get_slot_hashes (env_sysvar_cache (environment s)) = Ok hashes ->
  create_lookup_table invoke slot bump s = (Ok tt, s') ->
  table_effect ic (env_feature_set (environment s)) now hashes (transaction_context s) (transaction_context s').
Proof.
  intros Hr Hld Hhashes H.
  destruct (create_checks _ _ _ _ _ _ _ Hr Hhashes H) as (i & a & key & authority & [] &
    [Hv|(required & payer & s3 & s4 & s5 & s6 & Hv & H1 & H2 & H3 & H4)]); [by apply effect_none, same_values_kept|].
  assert (account_at (transaction_context s3) i = Some a) as Ha3 by (destruct Hv as [_ ->]; done).
  assert (key_at (transaction_context s3) i = Some key) as Hk3 by (by rewrite (sf_keys _ _ (proj1 Hv))).
  destruct (create_calls ic i key a required [payer] payer s3 s4 s5 s6
    (running_frame _ _ _ (proj1 Hv) Hr) (same_values_loaded _ _ Hv Hld) Hk3 Ha3 H1 H2 H3)
    as (Hr6 & Hkept & Ho & Hd & a6 & Ha6 & Ho6 & Hd6).
  apply bind_ok_inv in H4 as (ic6 & s7 & Hq & H4). apply zoom_inv in Hq as (t7 & Hq & ->).
  apply query_ok_inv in Hq as [Hq ->]. rewrite (ru_current _ _ Hr6) in Hq. injection Hq as <-.
  apply zoom_inv in H4 as (t8 & H4 & ->). simpl in H4. destruct cr_index0 as (ia & Hia & <-).
  destruct (write_new_table _ _ _ _ _ _ Hia Ha6 Ho6 Hd6 H4) as (Hkept' & a' & Ha' & Ht').
  eapply effect_create; [|done|done|done|done|done|done|done|exact Ha'|done].
  eapply kept_trans; [apply same_values_kept, Hv|]. by eapply kept_trans.
Qed.

Lemma table_run_effect (ic : InstructionContext) (clock : Clock) (hashes : SlotHashes.SlotHashes)
    (s s' : InvokeContext) :
  running ic (transaction_context s) -> system_loaded (transaction_context s) ->
  (B -> balances_wf (transaction_context s)) ->
  get_clock (env_sysvar_cache (environment s)) = Ok clock ->
  get_slot_hashes (env_sysvar_cache (environment s)) = Ok hashes ->
  Entrypoint invoke s = (Ok tt, s') ->
  table_effect ic (env_feature_set (environment s)) (clock_slot clock) hashes
    (transaction_context s) (transaction_context s').
Proof.
  intros Hr Hl Hbal Hclock Hhashes H. unfold Entrypoint in H.
  apply bind_ok_inv in H as (env & s0 & Hq & H). apply gets_ok_inv in Hq as [-> ->].
  apply bind_ok_inv in H as (ic0 & s0 & Hq & H). apply zoom_inv in Hq as (t0 & Hq & ->).
  apply query_ok_inv in Hq as [Hq ->]. rewrite (ru_current _ _ Hr) in Hq. injection Hq as <-.
  replace (with_transaction_context (transaction_context s) s) with s in H by (by destruct s).
  apply bind_ok_inv in H as (instruction & s0 & Hq & H). apply lift_ok_inv in Hq as [Hq ->].
  apply ok_or_ok, deserialize_with_limit_wf in Hq. destruct instruction.
  - by eapply create_effect.
  - apply zoom_inv in H as (t & H & ->). eapply freeze_effect; [apply Hr|apply Hr|done].
  - by eapply extend_effect.
  - apply zoom_inv in H as (t & H & ->). eapply deactivate_effect; [apply Hr|apply Hr|done|done].
  - apply zoom_inv in H as (t & H & ->). eapply close_effect; [apply Hr|done|apply Hr|done|done|done].
Qed.

End effects.

Section refinement.
Context {Hhash : Hashing} {Hcurve : Curve} {Hids : ProgramIds} {Htid : LookupTableIds} {Hfeatures : FeatureIds}.
Context {cast : CastSlice} {cast_ok : CastSliceOk}.
Context {state_codec : Bincode TableState} {codec_ok : BincodeOk TableState}.
Context {system_codec : Bincode SystemInstruction} {instruction_codec : BincodeLimited TableInstruction}.
Context {instruction_ok : BincodeLimitedOk TableInstruction table_instruction_wf}.
Context (Hne : address_lookup_table_program_id <> system_program_id).
Context (invoke : Invoke) {calls : SystemCalls invoke}.

(** C15: the lookup table program implements the abstract machine.  A run that
    returns creates an empty table at the address derived from its authority and
    a recent slot, in an account of the system program without data; or makes
    one step of the machine on one table, whose authority signed; or changes no
    contents.  All other accounts keep their owner and data, and, balances being
    numbers of lamports, no other table loses lamports. *)
Theorem lookup_table_refines (ic : InstructionContext) (clock : Clock) (hashes : SlotHashes.SlotHashes)
    (s s' : InvokeContext) :
  running ic (transaction_context s) -> system_loaded (transaction_context s) ->
  get_clock (env_sysvar_cache (environment s)) = Ok clock ->
  get_slot_hashes (env_sysvar_cache (environment s)) = Ok hashes ->
  Entrypoint invoke s = (Ok tt, s') ->
  table_effect (balances_wf (transaction_context s)) ic (env_feature_set (environment s)) (clock_slot clock) hashes
    (transaction_context s) (transaction_context s').
Proof. intros. by eapply table_run_effect. Qed.

End refinement.

(** ** A closed table is not made again *)

Lemma seeds_apart authority authority' slot slot' (bump bump' : Z) program_id :
  length authority = length authority' -> in_range U64 slot -> in_range U64 slot' -> slot <> slot' ->
  pda_input [authority; le_bytes 8 slot; [bump]] program_id <> pda_input [authority'; le_bytes 8 slot'; [bump']] program_id.
Proof.
  intros Hl Hs Hs' Hdiff H. unfold pda_input in H. cbn [concat] in H. rewrite <- !app_assoc in H.
  apply app_inj_1 in H as [_ H]; [|done]. apply app_inj_1 in H as [H _]; [|by rewrite !length_le_bytes].
  apply (f_equal of_le_bytes) in H. rewrite !of_le_bytes_le_bytes in H; [done|unfold in_range in *; simpl in *; lia..].
Qed.

Lemma position_None_status meta e hashes :
  status meta e hashes = Deactivated -> SlotHashes.position (deactivation_slot meta) hashes = None.
Proof.
  unfold status. destruct (_ =? int_max U64); [done|]. destruct (_ =? e); [done|].
  by destruct (SlotHashes.position _ _).
Qed.

Section uniqueness.
Context {Hhash : Hashing} {Hcurve : Curve} {Hids : ProgramIds} {Htid : LookupTableIds} {Hfeatures : FeatureIds}.
Context {state_codec : Bincode TableState} {system_codec : Bincode SystemInstruction}.
Context (invoke : Invoke).

(** A closed table is not made again.  Let a table be created with slot
    [slot] in a bank, deactivated in slot [d] of a bank on the same fork, and
    closed in slot [e], when its cool-down is over.  Then no later bank of the
    fork can create a table at the same address, unless the seeds of the two
    tables, which differ, have the same hash. *)
Theorem table_not_recreated (ancestors between1 between2 between3 : list (Slot * Hash)) (d e : Slot) (hd : Hash)
    (meta : LookupTableMeta) (ic ic' : InstructionContext) (ia ia' : InstructionAccount)
    (slot slot' bump bump' : Z) (key : Pubkey) (s1 s1' s2 s2' : InvokeContext) :
  let at_close := between2 ++ (d, hd) :: between1 ++ ancestors in
  let later := between3 ++ at_close in
  newest_first later -> Forall (fun x => in_range U64 (fst x)) later ->
  Forall (fun k => length k = 32%nat) (account_keys (transaction_context s1)) ->
  Forall (fun k => length k = 32%nat) (account_keys (transaction_context s2)) ->
  running ic (transaction_context s1) -> vec_get (instruction_accounts ic) 0 = Some ia ->
  key_at (transaction_context s1) (index_in_transaction ia) = Some key ->
  get_slot_hashes (env_sysvar_cache (environment s1)) = Ok (slot_hashes_of ancestors) ->
  create_lookup_table invoke slot bump s1 = (Ok tt, s1') ->
  deactivation_slot meta = d -> status meta e (slot_hashes_of at_close) = Deactivated ->
  running ic' (transaction_context s2) -> vec_get (instruction_accounts ic') 0 = Some ia' ->
  key_at (transaction_context s2) (index_in_transaction ia') = Some key ->
  get_slot_hashes (env_sysvar_cache (environment s2)) = Ok (slot_hashes_of later) ->
  create_lookup_table invoke slot' bump' s2 = (Ok tt, s2') ->
  exists authority authority',
    authority ∈ account_keys (transaction_context s1) /\ authority' ∈ account_keys (transaction_context s2) /\
    slot < d /\ slot <> slot' /\
    let x := pda_input [authority; le_bytes 8 slot; [bump]] table_id in
    let y := pda_input [authority'; le_bytes 8 slot'; [bump']] table_id in
    x <> y /\ sha256 x = sha256 y.
Proof.
  intros at_close later Hn Hrange Hk1 Hk2 Hr1 Hi1 Hkey1 Hh1 H1 Hd Hst Hr2 Hi2 Hkey2 Hh2 H2.
  destruct (create_checks _ _ _ _ _ _ _ Hr1 Hh1 H1) as (i & a & k & au & [(x & Hx & <-) _ Hk [j Hj] _ [h Hg] Hder] & _).
  destruct (create_checks _ _ _ _ _ _ _ Hr2 Hh2 H2) as (i' & a' & k' & au' & [(x' & Hx' & <-) _ Hk' [j' Hj'] _ [h' Hg'] Hder'] & _).
  simplify_eq. apply create_program_address_Ok in Hder as [-> _]. apply create_program_address_Ok in Hder' as [Heq _].
  assert (au ∈ account_keys (transaction_context s1)) as Hau
    by (eapply list_elem_of_lookup_2; by apply vec_get_Some).
  assert (au' ∈ account_keys (transaction_context s2)) as Hau'
    by (eapply list_elem_of_lookup_2; by apply vec_get_Some).
  assert (newest_first at_close) as Hn2 by (by apply newest_first_app in Hn as (_ & ? & _)).
  assert (newest_first ((deactivation_slot meta, hd) :: between1 ++ ancestors)) as Hn1 by (by apply newest_first_app in Hn2 as (_ & ? & _)).
  assert (newest_first ancestors) as Hn0
    by (apply newest_first_cons in Hn1 as [Hn1 _]; by apply newest_first_app in Hn1 as (_ & ? & _)).
  rewrite slot_hashes_of_newest in Hg, Hg', Hst by done.
  apply history_get_key in Hg; [|by apply newest_first_take]. apply history_get_key in Hg'; [|by apply newest_first_take].
  assert (slot < deactivation_slot meta) as Hlt.
  { apply newest_first_cons in Hn1 as [_ Hold]. apply (Hold (slot, h)). apply elem_of_app. right.
    by apply (subseteq_take _ _ _ Hg). }
  apply position_None_status in Hst.
  assert (slot' <> slot) as Hdiff.
  { apply (window_passes (deactivation_slot meta) slot at_close between3 Hn) in Hg'; [done|exists hd; set_solver| |done].
    intros y. by apply history_position_None; [apply newest_first_take|]. }
  assert (forall sl hh, (sl, hh) ∈ later -> in_range U64 sl) as Hsl
    by (intros sl hh Hin; rewrite list.Forall_forall in Hrange; by apply (Hrange _ Hin)).
  exists au, au'. cbv zeta. split_and!; [done..|by apply not_eq_sym| |exact Heq].
  apply seeds_apart; [| |by eapply Hsl, (subseteq_take _ _ _ Hg')|by apply not_eq_sym].
  - rewrite list.Forall_forall in Hk1, Hk2. by rewrite (Hk1 au), (Hk2 au').
  - apply (Hsl slot h). unfold later, at_close. apply (subseteq_take _ _ _) in Hg. set_solver.
Qed.

End uniqueness.
