(* ===== verification/OwnerRules.v ===== *)
(** * An account is in the hands of its owner

    A program that only works through borrowed accounts and through calls obeys,
    step by step, what the runtime allows the running instruction; [ProgramWithin]
    states so for every relation that admits such steps.  Against this interface:
    if the runs of a program keep a relation on the accounts it owns, then a whole
    message does, whatever other programs it runs and however they call each
    other. *)

From S2P Require Import Prelude Errors Rent Account BTreeMap Pubkey Sysvars EpochSchedule Nonce TransactionContext RuntimeRules CallStack SysvarCache FeatureSet SystemProgram Effects SystemRules InvokeContext InvokeRules ProcessRules SystemContract Message MessageRules MessageProcessor SystemInstructions SystemCalls.

(** ** The interface *)

(** The instructions of the trace that were entered; the last of the trace is the
    next one. *)
Definition traced (tc : TransactionContext) : list InstructionContext := removelast (instruction_trace tc).

(** The values of the accounts changed as the rules allow the instruction [ic]. *)
Definition allows (ic : InstructionContext) (tc tc' : TransactionContext) : Prop :=
  account_keys tc' = account_keys tc /\ instruction_trace tc' = instruction_trace tc /\
  (forall j, account_at tc j = None -> account_at tc' j = None) /\
  forall j a, account_at tc j = Some a ->
    exists a', account_at tc' j = Some a' /\ allowed (program_key ic tc) (writable_at ic j) a a'.

Lemma account_at_frame tc tc' j : same_frame tc tc' -> account_at tc j = None -> account_at tc' j = None.
Proof.
  intros Hf. rewrite !account_at_values. unfold vec_get. case_decide; [|done].
  rewrite !lookup_ge_None. unfold values. rewrite !length_fmap, (sf_len _ _ Hf). done.
Qed.

Lemma obeys_allows ic tc tc' : obeys ic tc tc' -> allows ic tc tc'.
Proof. intros [Hf Ha]. split_and!; [apply Hf..|intros j; by apply account_at_frame|done]. Qed.

Lemma same_values_allows ic tc tc' :
  account_keys tc' = account_keys tc -> instruction_trace tc' = instruction_trace tc ->
  (forall j, account_at tc' j = account_at tc j) -> allows ic tc tc'.
Proof. intros Hk Ht Hv. split_and!; [done..|intros j; by rewrite Hv|]. intros j a Ha. exists a. by rewrite Hv. Qed.

(** A relation that has all that [ic] may do by itself. *)
Record admits (ic : InstructionContext) (R : InvokeContext -> InvokeContext -> Prop) : Prop := {
  ad_preorder :: PreOrder R;
  ad_allows s s' : environment s' = environment s ->
    allows ic (transaction_context s) (transaction_context s') -> R s s';
}.

(** Work of [ic] that returned is in the relation, and [ic] is still running. *)
Definition steps {E A} (ic : InstructionContext) (R : InvokeContext -> InvokeContext -> Prop)
    (m : M InvokeContext E A) : Prop :=
  forall s a s', running ic (transaction_context s) -> m s = (Ok a, s') ->
    R s s' /\ running ic (transaction_context s').

Definition calls_step (ic : InstructionContext) (R : InvokeContext -> InvokeContext -> Prop)
    (invoke : Invoke) : Prop :=
  forall instruction signers, vec_len (si_accounts instruction) < int_max U16 ->
    steps ic R (invoke instruction signers).

(** A program does by itself what its instruction may do, and else it calls. *)
Class ProgramWithin (f : Builtin) : Prop :=
  program_within invoke ic R : admits ic R -> calls_step ic R invoke -> steps ic R (f invoke).

Class ProgramsWithin (find_builtin : Pubkey -> option (option Builtin)) : Prop :=
  programs_within id f : find_builtin id = Some (Some f) -> ProgramWithin f.

(** ** Sequences of work *)

Section sequences.
Context (ic : InstructionContext) (R : InvokeContext -> InvokeContext -> Prop) (HR : admits ic R).

Lemma steps_bind {E A B} (m : M InvokeContext E A) (f : A -> M InvokeContext E B) :
  steps ic R m -> (forall a, steps ic R (f a)) -> steps ic R (bind m f).
Proof.
  intros Hm Hf s b s' Hr (a & s1 & H1 & H2)%bind_ok_inv.
  destruct (Hm _ _ _ Hr H1) as [HR1 Hr1]. destruct (Hf _ _ _ _ Hr1 H2) as [HR2 Hr2].
  destruct HR as [Hpre _]. split; [by etransitivity|done].
Qed.

(** Work that neither changes the environment nor the transaction context. *)
Lemma steps_other {E A} (m : M InvokeContext E A) :
  (forall s, environment (final m s) = environment s /\
     transaction_context (final m s) = transaction_context s) -> steps ic R m.
Proof.
  intros Hm s a s' Hr H. specialize (Hm s) as [He Ht]. unfold final in *. rewrite H in *. simpl in *.
  rewrite Ht. split; [|done]. apply HR; [done|]. rewrite Ht. by apply same_values_allows.
Qed.

Lemma steps_on_tc_obeys {A} (m : TxM A) :
  (forall tc o tc', running ic tc -> m tc = (o, tc') -> obeys ic tc tc') -> steps ic R (on_tc m).
Proof.
  intros Hm s a s' Hr H. apply zoom_inv in H as (tc' & H & ->). simpl. specialize (Hm _ _ _ Hr H).
  split; [apply HR; [done|by apply obeys_allows]|]. eapply contained_in_running; [done|].
  apply contained_in_obeys; [apply Hr|done].
Qed.

Lemma steps_on_tc {A} (m : TxM A) : (ic_small ic -> keeps (obeys ic) m) -> steps ic R (on_tc m).
Proof.
  intros Hm. apply steps_on_tc_obeys. intros tc o tc' Hr H. eapply keeps_ok; [apply Hm, Hr|done].
Qed.

Lemma steps_current {A} (f : InstructionContext -> InvM A) :
  steps ic R (f ic) -> steps ic R (let? ic := on_tc (query get_current_instruction_context) in f ic).
Proof.
  intros Hf s a s' Hr (ic' & s1 & H1 & H2)%bind_ok_inv. apply zoom_inv in H1 as (tc & H1 & ->).
  apply query_ok_inv in H1 as [H1 ->]. rewrite (ru_current _ _ Hr) in H1. injection H1 as <-.
  apply (Hf _ a); [done|]. by destruct s.
Qed.

Lemma steps_panic {E A} : steps ic R (panic : M InvokeContext E A).
Proof. by intros s a s' _ [=]. Qed.

Lemma steps_declare units inner : steps ic R inner -> steps ic R (declare_process_instruction units inner).
Proof.
  intros Hi. apply steps_bind.
  - apply steps_other. intros s. destruct (0 <? units); [|done].
    unfold final, consume_checked, bind, gets, modify. by destruct (compute_meter s <? units).
  - intros _ s a s' Hr H. unfold as_program in H. destruct (inner s) as [o s1] eqn:E.
    destruct o as [x|e|]; [|done..]. injection H as <- <-. by eapply Hi.
Qed.

End sequences.

(** ** The runtime's side *)

(** The accounts of the programs [l] are those of builtins. *)
Definition loaded `{!ProgramIds} (l : list Pubkey) (tc : TransactionContext) : Prop :=
  forall j k, k ∈ l -> key_at tc j = Some k ->
    exists a, account_at tc j = Some a /\ acc_executable a = true /\ acc_owner a = native_loader_id.

(** The instructions sysvar, which the runtime rewrites, belongs to nobody who
    takes part. *)
Definition instructions_apart `{!ProgramIds} (owner : Pubkey) (tc : TransactionContext) : Prop :=
  forall j a, key_at tc j = Some sysvar_instructions_id -> account_at tc j = Some a ->
    acc_owner a <> owner /\ acc_owner a ∉ account_keys tc.

(** A program account list that ends in [owner] has no other. *)
Definition root_only (owner : Pubkey) (keys : list Pubkey) (programs : list IndexOfAccount) : Prop :=
  forall j, list.last programs = Some j -> vec_get keys j = Some owner -> programs = [j].

(** A relation on the accounts of [owner], which may depend on the instructions
    that were entered: it keeps the owner, and lets others add lamports. *)
Class OwnerRelation (owner : Pubkey) (Step : list InstructionContext -> AccountSharedData -> AccountSharedData -> Prop)
  : Prop := {
  or_preorder trace :: PreOrder (Step trace);
  or_later trace trace' a a' : trace `prefix_of` trace' -> Step trace a a' -> Step trace' a a';
  or_owner trace a a' : acc_owner a = owner -> Step trace a a' -> acc_owner a' = owner;
  or_credit trace a a' : acc_owner a = owner -> acc_owner a' = acc_owner a -> acc_data a' = acc_data a ->
    acc_lamports a <= acc_lamports a' -> Step trace a a';
}.

Definition owned_step (owner : Pubkey) (Step : AccountSharedData -> AccountSharedData -> Prop)
    (tc tc' : TransactionContext) : Prop :=
  forall j a, account_at tc j = Some a -> acc_owner a = owner ->
    exists a', account_at tc' j = Some a' /\ Step a a'.

Lemma program_key_keys ic tc tc' : account_keys tc' = account_keys tc -> program_key ic tc' = program_key ic tc.
Proof. intros Hk. unfold program_key, get_last_program_key, get_key_of_account_at_index. by rewrite Hk. Qed.

Lemma current_context_inv tc ic :
  stack_ok tc -> get_current_instruction_context tc = Ok ic ->
  exists i, i < vec_len (instruction_trace tc) - 1 /\ vec_get (instruction_trace tc) i = Some ic.
Proof.
  intros Hok H. unfold get_current_instruction_context in H. apply outcome_bind_ok in H as (level & _ & H).
  unfold get_instruction_context_at_nesting_level in H. apply outcome_bind_ok in H as (i & Hi%ok_or_ok & H).
  unfold get_instruction_context_at_index_in_trace in H. apply ok_or_ok in H.
  destruct (so_frames _ Hok _ _ Hi) as [Hlt _]. exists i. split; [lia|done].
Qed.

(** What runs was entered. *)
Lemma running_traced ic tc : running ic tc -> ic ∈ traced tc.
Proof.
  intros [Hok _ _ Hic]. destruct (current_context_inv tc ic Hok Hic) as (i & Hi & Hget).
  apply vec_get_Some in Hget as [Hpos Hget]. unfold traced. pose proof (so_trace _ Hok) as Htr.
  destruct (instruction_trace tc) as [|x l _] using rev_ind; [unfold vec_len in Htr; simpl in Htr; lia|].
  rewrite removelast_last, vec_len_app in *. change (vec_len [x]) with 1 in Hi. rewrite lookup_app_l in Hget by (unfold vec_len in Hi; lia).
  by eapply list_elem_of_lookup_2.
Qed.

Lemma program_key_elem ic tc k : program_key ic tc = Some k -> k ∈ account_keys tc.
Proof.
  unfold program_key, get_last_program_key, get_key_of_account_at_index.
  destruct (get_index_of_program_account_in_transaction ic _) as [i|e|]; simpl; [|done..].
  destruct (vec_get (account_keys tc) i) as [x|] eqn:Hx; simpl; [|done]. intros [= <-].
  apply vec_get_Some in Hx as [_ Hx]. by eapply list_elem_of_lookup_2.
Qed.

Lemma program_key_last ic tc k :
  ic_small ic -> program_key ic tc = Some k ->
  exists j, list.last (program_accounts ic) = Some j /\ vec_get (account_keys tc) j = Some k.
Proof.
  intros Hs. unfold program_key, get_last_program_key, get_key_of_account_at_index,
    get_index_of_program_account_in_transaction.
  rewrite number_of_program_accounts_small by done.
  destruct (vec_get (program_accounts ic) _) as [j|] eqn:Hj; simpl; [|done].
  destruct (vec_get (account_keys tc) j) as [x|] eqn:Hx; simpl; [|done]. intros [= <-]. exists j. split; [|done].
  pose proof (vec_get_lt _ _ _ Hj) as Hlt. unfold ic_small, saturating_sub in *.
  destruct (Z.le_gt_cases 1 (vec_len (program_accounts ic))).
  2:{ unfold saturating in Hlt. simpl in Hlt. lia. }
  rewrite saturating_small in Hj by (unfold in_range, vec_len in *; simpl in *; lia).
  apply vec_get_Some in Hj as [_ Hj]. rewrite last_lookup, <- Hj. f_equal. unfold vec_len. lia.
Qed.

(** Entering an instruction adds it to those that were entered. *)
Lemma pushed_trace programs ias data tc tc2 :
  stack_ok tc -> push (with_next (configure programs ias data) tc) = (Ok tt, tc2) -> traced tc `prefix_of` traced tc2.
Proof.
  intros Hok Hp. destruct (push_ok_inv _ _ (with_next_stack_ok (configure programs ias data) _ Hok) Hp)
    as (callee & sum & _ & _ & _ & _ & _ & _ & _ & _ & ->).
  unfold traced, push_stacked, push_traced, push_recorded. cbn [instruction_trace with_stack with_trace]. rewrite removelast_last.
  pose proof (so_trace _ Hok) as Htr. unfold with_next. cbn [instruction_trace with_trace].
  destruct (instruction_trace tc) as [|x l _] using rev_ind; [unfold vec_len in Htr; simpl in Htr; lia|].
  repeat first [rewrite last_snoc|rewrite removelast_last|progress cbv beta iota]. by apply prefix_app_r.
Qed.

Section follow.
Context {ids : ProgramIds}.
Context (find_builtin : Pubkey -> option (option Builtin)).
Context {Hprograms : ProgramsOk find_builtin} {Hwithin : ProgramsWithin find_builtin}.
Context (owner : Pubkey) (program : Builtin) (Hfind : find_builtin owner = Some (Some program)).
Context (Step : list InstructionContext -> AccountSharedData -> AccountSharedData -> Prop) {Hstep : OwnerRelation owner Step}.
Context (l : list Pubkey) (Howner : owner ∈ l) (env : Environment) (keys : list Pubkey).

(** What every instruction finds and leaves. *)
Record scene (s : InvokeContext) : Prop := {
  sc_env : environment s = env;
  sc_keys : account_keys (transaction_context s) = keys;
  sc_loaded : loaded l (transaction_context s);
  sc_apart : instructions_apart owner (transaction_context s);
}.

Abbreviation trace_of s := (traced (transaction_context s)).

Definition keeps_scene (s s' : InvokeContext) : Prop := scene s -> scene s' /\ trace_of s `prefix_of` trace_of s'.

Definition follows (s s' : InvokeContext) : Prop :=
  scene s -> scene s' /\ trace_of s `prefix_of` trace_of s' /\
    owned_step owner (Step (trace_of s')) (transaction_context s) (transaction_context s').

#[local] Instance keeps_scene_preorder : PreOrder keeps_scene.
Proof.
  split; [intros s Hs; by split|]. intros x y z Hxy Hyz [Hy Hp]%Hxy. destruct (Hyz Hy) as [Hz Hp']. split; [done|by etransitivity].
Qed.

#[local] Instance follows_preorder : PreOrder follows.
Proof.
  split.
  - intros s Hs. split_and!; [done..|]. intros j a Ha _. exists a. split; [done|reflexivity].
  - intros x y z Hxy Hyz (Hy & Hp & Hxy')%Hxy. destruct (Hyz Hy) as (Hz & Hp' & Hyz'). split_and!; [done|by etransitivity|].
    intros j a Ha Ho. destruct (Hxy' j a Ha Ho) as (b & Hb & Hab).
    destruct (Hyz' j b Hb) as (c & Hc & Hbc); [by eapply or_owner|]. exists c. split; [done|].
    transitivity b; [by eapply or_later|done].
Qed.

(** The same accounts in the same environment. *)
Definition alike (s s' : InvokeContext) : Prop :=
  environment s' = environment s /\
  account_keys (transaction_context s') = account_keys (transaction_context s) /\
  trace_of s `prefix_of` trace_of s' /\
  forall j, account_at (transaction_context s') j = account_at (transaction_context s) j.

Lemma alike_follows s s' : alike s s' -> follows s s'.
Proof.
  intros (He & Hk & Ht & Hv) [Hse Hsk Hl Hi]. split_and!; [split; [congruence..| |]|done|].
  - intros j k. rewrite Hk, Hv. apply Hl.
  - intros j a. rewrite Hk, Hv. apply Hi.
  - intros j a Ha _. exists a. rewrite Hv. split; [done|reflexivity].
Qed.

Lemma allows_scene ic s s' :
  environment s' = environment s -> allows ic (transaction_context s) (transaction_context s') ->
  keeps_scene s s'.
Proof.
  intros He (Hk & Ht & Hn & Ha) [Hse Hsk Hl Hi]. split; [split; [congruence..| |]|unfold traced; by rewrite Ht].
  - intros j k Hin. rewrite Hk. intros Hj. destruct (Hl j k Hin Hj) as (a & Hja & Hx & Ho).
    destruct (Ha j a Hja) as (a' & Hja' & Hal). rewrite (al_executable _ _ _ _ Hal Hx) in Hja'. eauto.
  - intros j a' Hj Hja'. rewrite Hk in Hj |- *.
    destruct (account_at (transaction_context s) j) as [a|] eqn:Hja; [|by rewrite Hn in Hja'].
    destruct (Ha j a Hja) as (b & Hjb & Hal). rewrite Hja' in Hjb. injection Hjb as <-.
    destruct (Hi j a Hj Hja) as [Hne Hnot].
    destruct (al_external _ _ _ _ Hal) as (_ & -> & _); [|done]. by intros ?%program_key_elem.
Qed.

Lemma admits_scene ic : admits ic keeps_scene.
Proof. split; [apply _|apply allows_scene]. Qed.

(** What another program may do to the accounts of [owner]. *)
Lemma admits_follows ic :
  (forall tc, account_keys tc = keys -> program_key ic tc <> Some owner) -> admits ic follows.
Proof.
  intros Hother. split; [apply _|]. intros s s' He Hal Hs. destruct (allows_scene _ _ _ He Hal Hs). split_and!; [done..|].
  destruct Hal as (_ & _ & _ & Ha). intros j a Hja Ho. destruct (Ha j a Hja) as (a' & Hja' & Hal).
  exists a'. split; [done|].
  destruct (al_external _ _ _ _ Hal) as (Hd & Hw & _ & Hle); [rewrite Ho; apply Hother, Hs|]. by apply or_credit.
Qed.

Lemma invoke_pop_alike s o s' : invoke_pop s = (o, s') -> alike s s'.
Proof.
  unfold invoke_pop. intros H.
  assert (exists s1, alike s s1 /\ on_tc pop s1 = (o, s')) as (s1 & Hs1 & Hpop).
  { unfold bind, modify in H. destruct (list.last (syscall_context s)) as [[]|]; by eexists; split; [|exact H]. }
  apply zoom_inv in Hpop as (tc & Hpop & ->). destruct Hs1 as (He & Hk & Ht & Hv).
  rewrite pop_spec in Hpop. by destruct (instruction_stack _); injection Hpop as _ <-.
Qed.

(** Runs of the owner's program, in any instruction and at any depth. *)
Context (Hown : forall fuel ic s s',
  running ic (transaction_context s) -> scene s -> program_key ic (transaction_context s) = Some owner ->
  trace_of s `prefix_of` trace_of s' ->
  program (native_invoke_with (process_instruction find_builtin fuel)) s = (Ok tt, s') ->
  owned_step owner (Step (trace_of s')) (transaction_context s) (transaction_context s')).

Definition processes_follow (fuel : nat) : Prop := forall data ias programs s s',
  stack_ok (transaction_context s) -> keys_ok (transaction_context s) ->
  vec_len programs + vec_len ias <= int_max U16 -> root_only owner keys programs ->
  process_instruction find_builtin fuel data ias programs s = (Ok tt, s') -> follows s s'.

Lemma invoke_follows fuel ic :
  processes_follow fuel -> calls_step ic follows (native_invoke_with (process_instruction find_builtin fuel)).
Proof.
  intros Hfuel instruction signers Hlen s [] s' Hr H.
  pose proof (native_invoke_contained _ (process_instruction_contained_in find_builtin fuel) _ signers Hlen
    _ _ _ _ Hr H ltac:(done)) as Hc.
  split; [|by eapply contained_in_running]. unfold native_invoke_with in H.
  apply bind_ok_inv in H as ([ias programs] & s1 & Hp & H).
  apply prepare_instruction_run in Hp as (tcp & Hp & ->).
  pose proof (keeps_ok _ _ _ _ _ (prepare_instruction_only _ _ _) Hp) as (Hf & Hv & _).
  apply (prepare_instruction_spec _ _ _ _ ic) in Hp as (Hacc & _ & (j & acc & Hj & _));
    [|apply Hr|apply Hr|lia|apply Hr]. simpl in Hj. subst programs.
  apply bind_ok_inv in H as (outer & s1 & Hq & H). apply gets_ok_inv in Hq as [-> ->].
  apply finally_inv in H as (s2 & H & ->). cbn [fst snd] in *.
  transitivity (with_transaction_context tcp s).
  { apply alike_follows; split_and!; [done|apply Hf| |done]. unfold traced. simpl. by rewrite (sf_trace _ _ Hf). }
  transitivity s2; [|by apply alike_follows].
  eapply Hfuel; [..|exact H]; cbn [transaction_context with_transaction_context].
  - eapply same_frame_stack_ok; [exact Hf|apply Hr].
  - unfold keys_ok. rewrite (sf_keys _ _ Hf). apply Hr.
  - apply Forall2_length in Hacc. unfold vec_len in *. simpl in *. lia.
  - by intros j' [= ->].
Qed.

(** A run of a builtin in an instruction. *)
Lemma builtin_follows fuel ic id f s s' :
  processes_follow fuel -> running ic (transaction_context s) ->
  find_builtin id = Some (Some f) ->
  (id <> owner -> forall tc, account_keys tc = keys -> program_key ic tc <> Some owner) ->
  f (native_invoke_with (process_instruction find_builtin fuel)) s = (Ok tt, s') -> follows s s'.
Proof.
  intros Hfuel Hr Hf Hother H Hs. pose proof (programs_within id f Hf) as Hw.
  destruct (decide (id = owner /\ program_key ic (transaction_context s) = Some owner)) as [[-> Hpk]|Hne].
  - rewrite Hfind in Hf. injection Hf as <-.
    assert (calls_step ic keeps_scene (native_invoke_with (process_instruction find_builtin fuel))) as Hcalls.
    { intros ix signers Hlen t a t' Hrt Ht.
      destruct (invoke_follows fuel ic Hfuel ix signers Hlen _ _ _ Hrt Ht) as [Hfo Hrt'].
      split; [|done]. intros Hsc. by destruct (Hfo Hsc) as (? & ? & _). }
    destruct (proj1 (Hw _ ic keeps_scene (admits_scene ic) Hcalls _ _ _ Hr H) Hs) as [Hs' Hp].
    split_and!; [done..|]. by eapply Hown.
  - assert (forall tc, account_keys tc = keys -> program_key ic tc <> Some owner) as Hoth.
    { intros tc Htc Hpk. destruct (decide (id = owner)) as [->|Hio]; [|by eapply Hother].
      apply Hne. split; [done|]. rewrite <- Hpk. apply program_key_keys. by rewrite Htc, (sc_keys _ Hs). }
    by apply (Hw _ ic follows (admits_follows ic Hoth) (invoke_follows fuel ic Hfuel) _ _ _ Hr H).
Qed.

Lemma chain_follows fuel ic s s' :
  processes_follow fuel -> running ic (transaction_context s) ->
  root_only owner keys (program_accounts ic) ->
  process_executable_chain find_builtin (native_invoke_with (process_instruction find_builtin fuel)) s = (Ok tt, s') ->
  follows s s'.
Proof.
  intros Hfuel Hr Hroot H Hs. unfold process_executable_chain in H.
  apply bind_ok_inv in H as (ic' & s1 & H1 & H). apply zoom_inv in H1 as (t & H1 & ->).
  apply query_ok_inv in H1 as [H1 ->]. rewrite (ru_current _ _ Hr) in H1. injection H1 as <-.
  apply bind_ok_inv in H as (id & s1 & H1 & H). apply zoom_inv in H1 as (t & H1 & ->).
  pose proof (keeps_ok _ _ _ _ _ (builtin_id_of_only ic) H1) as Hbo. simpl in Hbo, H1.
  apply bind_ok_inv in H as (entry & s1 & Hq & H). apply lift_ok_inv in Hq as [Hq%ok_or_ok ->].
  apply bind_ok_inv in H as (f & s1 & Hq' & H). apply lift_ok_inv in Hq' as [->%ok_or_ok ->].
  apply bind_ok_inv in H as (program_id & s1 & Hq' & H). apply zoom_inv in Hq' as (t' & Hq' & ->).
  apply query_ok_inv in Hq' as [_ ->].
  apply bind_ok_inv in H as ([] & s1 & Hq' & H). apply zoom_inv in Hq' as (t' & Hq' & ->).
  apply modify_ok_inv in Hq' as ->. unfold run_program in H.
  set (s1 := with_transaction_context _ _) in H. destruct (f _ s1) as [o s2] eqn:E.
  assert (o = Ok tt /\ alike s2 s') as [-> Hlast].
  { destruct o as [[]|e|]; simpl in H; repeat case_match; by simplify_eq. }
  assert (alike s s1) as Hfirst.
  { destruct Hbo as (Hf & Hv & _); split_and!; [done|apply Hf| |apply Hv]. unfold traced. simpl. by rewrite (sf_trace _ _ Hf). }
  assert (running ic (transaction_context s1)) as Hr1.
  { eapply contained_in_running; [exact Hr|]. eapply contained_in_trans; [apply (contained_in_borrows _ _ _ (ru_stack _ _ Hr) Hbo)|].
    apply (contained_in_return_data (accounts_of ic)). eapply same_frame_stack_ok; [apply Hbo|apply Hr]. }
  assert (id <> owner -> forall tc, account_keys tc = keys -> program_key ic tc <> Some owner) as Hother.
  { intros Hne tc Htc Hpk. destruct (program_key_last _ _ _ (ru_small _ _ Hr) Hpk) as (j & Hj & Hk).
    rewrite Htc in Hk. pose proof (Hroot j Hj Hk) as Hp. rewrite <- (sc_keys _ Hs) in Hk.
    destruct (sc_loaded _ Hs j owner Howner Hk) as (a & Ha & _ & Ho).
    by apply Hne, (builtin_id_of_loaded ic j owner a (transaction_context s) id t). }
  revert Hs. change (follows s s'). transitivity s1; [by apply alike_follows|].
  transitivity s2; [|by apply alike_follows]. by eapply builtin_follows.
Qed.

(** An instruction, with all it invokes. *)
Lemma process_instruction_follows fuel : processes_follow fuel.
Proof.
  induction fuel as [|fuel IH]; [done|]. intros data ias programs s s' Hok Hk Hsm Hroot H.
  cbn [process_instruction] in H. rewrite process_instruction_with_run in H by done. cbv zeta in H.
  destruct (check_reentrancy _); [|done..]. destruct (push _) as [[[]|e|] tc2] eqn:Hp; [|done..].
  destruct (pushed_running _ _ _ _ _ Hok Hk Hsm Hp) as (ic & Hr & _ & _ & _ & _ & Hk2 & Hpr & _ & Ha2).
  pose proof (pushed_trace _ _ _ _ _ Hok Hp) as Ht2.
  destruct (and_always_inv _ _ _ _ _ H ltac:(done)) as (o1 & s1 & o2 & H1 & _ & H2 & Hoo).
  destruct (Hoo eq_refl) as [[[] ->] ->].
  transitivity (pushed_state tc2 s).
  { apply alike_follows. split_and!; [done..|]. intros j. unfold account_at. simpl. by rewrite Ha2. }
  transitivity s1; [eapply chain_follows; [exact IH|exact Hr|by rewrite Hpr|exact H1]|].
  apply alike_follows, invoke_pop_alike with (o := Ok tt), H2.
Qed.

(** ** Messages *)

(** Only the instructions sysvar gets other data. *)
Lemma fixup_values index tc o tc' j a' :
  keys_ok tc -> fixup_instructions_sysvar index tc = (o, tc') -> account_at tc' j = Some a' ->
  exists a, account_at tc j = Some a /\ acc_owner a' = acc_owner a /\ acc_executable a' = acc_executable a /\
    (a' = a \/ key_at tc j = Some sysvar_instructions_id).
Proof.
  unfold fixup_instructions_sysvar, get_account_at_index. intros Hk Hr Hj.
  assert (tc' = tc -> exists a, account_at tc j = Some a /\ acc_owner a' = acc_owner a /\
    acc_executable a' = acc_executable a /\ (a' = a \/ key_at tc j = Some sysvar_instructions_id)) as Hsame
    by (intros ->; exists a'; split_and!; [done..|by left]).
  destruct (find_index_of_account _ tc) as [i|] eqn:Hi; [|apply Hsame; congruence].
  destruct (ta_get i (accounts tc)) as [cell|] eqn:Hc; simpl in Hr; [|apply Hsame; congruence].
  destruct (peek_mut cell) as [account|] eqn:Hp; [|apply Hsame; congruence].
  destruct (store_current_index _ _) as [data|]; [|apply Hsame; congruence].
  injection Hr as _ <-. rewrite account_at_set_cell in Hj by by eapply vec_get_lt. case_decide as Hji.
  2:{ exists a'. split_and!; [done..|by left]. }
  subst j. injection Hj as <-. unfold peek_mut in Hp. case_match; [|done]. injection Hp as <-.
  exists (cell_value cell). unfold account_at. rewrite Hc. split_and!; [done..|right].
  by apply find_index_of_account_key.
Qed.

Lemma fixup_follows index s tc' :
  keys_ok (transaction_context s) ->
  fixup_instructions_sysvar index (transaction_context s) = (Ok tt, tc') ->
  follows s (with_transaction_context tc' s).
Proof.
  intros Hk Hf [He Hsk Hl Ha]. pose proof (fixup_frame _ _ _ _ Hf) as [Hfr _].
  assert (forall j a, account_at (transaction_context s) j = Some a -> exists a', account_at tc' j = Some a') as Hex.
  { intros j a Hj. destruct (account_at tc' j) eqn:Hj'; [eauto|].
    rewrite account_at_values in Hj, Hj'. unfold vec_get in *. case_decide; [|done].
    apply lookup_lt_Some in Hj. apply lookup_ge_None in Hj'. unfold values in *.
    rewrite length_fmap, (sf_len _ _ Hfr) in Hj'. rewrite length_fmap in Hj. lia. }
  split_and!; [split; cbn [environment transaction_context with_transaction_context]| |].
  - done.
  - by rewrite (sf_keys _ _ Hfr).
  - intros j k Hin. rewrite (sf_keys _ _ Hfr). intros Hj. destruct (Hl j k Hin Hj) as (a & Hja & Hx & Ho).
    destruct (Hex j a Hja) as [a' Hja']. destruct (fixup_values _ _ _ _ _ _ Hk Hf Hja') as (b & Hb & Hbo & Hbx & _).
    simplify_eq. exists a'. split_and!; [done|congruence..].
  - intros j a' Hj Hja'. rewrite (sf_keys _ _ Hfr) in *.
    destruct (fixup_values _ _ _ _ _ _ Hk Hf Hja') as (b & Hb & -> & _ & _). by apply (Ha j).
  - unfold traced. simpl. by rewrite (sf_trace _ _ Hfr).
  - intros j a Hja Ho. destruct (Hex j a Hja) as [a' Hja'].
    destruct (fixup_values _ _ _ _ _ _ Hk Hf Hja') as (b & Hb & Hbo & _ & [->|Hj]).
    + simplify_eq. exists a. split; [done|reflexivity].
    + by destruct (Ha j a Hj Hja).
Qed.

Context (is_precompile : Pubkey -> bool).

Definition item_roots (item : option Pubkey * CompiledInstruction * list IndexOfAccount) : Prop :=
  item_ok item /\ root_only owner keys item.2.

Lemma precompile_alike programs ias data s s' :
  stack_ok (transaction_context s) -> process_precompile programs ias data s = (Ok tt, s') -> alike s s'.
Proof.
  intros Hok H. apply zoom_inv in H as (tc' & H & ->).
  apply bind_ok_inv in H as ([] & tc1 & H1 & H). rewrite update_next_with_next in H1 by done. injection H1 as <-.
  apply bind_ok_inv in H as ([] & tc2 & Hp & Hpop).
  pose proof (pushed_trace _ _ _ _ _ Hok Hp) as Ht2.
  destruct (push_ok_inv _ _ (with_next_stack_ok (configure programs ias data) _ Hok) Hp)
    as (_ & sum & _ & _ & _ & _ & _ & _ & _ & _ & Htc2).
  rewrite pop_spec in Hpop. destruct (instruction_stack tc2); [done|]. injection Hpop as _ <-.
  split_and!; [done|by rewrite Htc2|exact Ht2|by rewrite Htc2].
Qed.

Lemma process_one_follows fuel message index id instruction programs s units s' units' :
  item_roots (id, instruction, programs) ->
  stack_ok (transaction_context s) -> keys_ok (transaction_context s) ->
  process_one find_builtin is_precompile fuel message index id instruction programs (s, units) =
    (Ok tt, (s', units')) ->
  follows s s'.
Proof.
  intros [[Hidx Hsm] Hroot] Hok Hk Hr. unfold process_one in Hr.
  apply bind_ok_inv in Hr as (pid & st & H1 & Hr). apply lift_ok_inv in H1 as [_ ->].
  apply bind_ok_inv in Hr as ([] & [s1 u1] & H1 & Hr).
  destruct (fixup_instructions_sysvar index (transaction_context s)) as [o1 tc1] eqn:Hfix.
  injection H1 as -> <- <-. pose proof (fixup_frame _ _ _ _ Hfix) as [Hf _].
  transitivity (with_transaction_context tc1 s); [by eapply fixup_follows|].
  assert (stack_ok tc1) as Hok1 by (by eapply same_frame_stack_ok).
  assert (keys_ok tc1) as Hk1 by (unfold keys_ok; by rewrite (sf_keys _ _ Hf)).
  rewrite <- (length_message_accounts message (ci_accounts instruction)) in Hsm.
  destruct (is_precompile pid).
  - unfold on_invoke in Hr. destruct (process_precompile _ _ _ _) as [o2 s2] eqn:H2. injection Hr as Ho <- <-.
    destruct o2 as [[]|e|]; [|done..]. by eapply alike_follows, precompile_alike.
  - destruct (process_instruction _ _ _ _ _ _) as [o2 s2] eqn:H2. injection Hr as Ho -> _.
    destruct o2 as [[]|e|]; [|done..]. by eapply process_instruction_follows.
Qed.

Lemma process_instructions_follow fuel message index items s units s' units' :
  Forall item_roots items -> stack_ok (transaction_context s) -> keys_ok (transaction_context s) ->
  process_instructions find_builtin is_precompile fuel message index items (s, units) = (Ok tt, (s', units')) ->
  follows s s'.
Proof.
  intros Hall. revert index s units. induction Hall as [|[[id ix] programs] items Hitem _ IH];
    intros index s units Hok Hk Hr; simpl in Hr; [injection Hr as <- <-; reflexivity|].
  apply bind_ok_inv in Hr as ([] & [s1 u1] & H1 & Hr). transitivity s1; [by eapply process_one_follows|].
  destruct (process_one_between find_builtin is_precompile fuel message index id ix programs
    (transaction_context s) s units s1 u1 (proj1 Hitem)) as [Hok1 Hk1 _]; [by split|exact H1|].
  by eapply IH.
Qed.

End follow.
