(* ===== verification/Builtins.v ===== *)
(** * The builtin programs of the runtime (runtime/src/builtins.rs)

    The programs a bank registers, by the features that are active.  The loaders
    and the proof program are parameters; the others are the modelled ones.  All
    modelled programs implement the interfaces of the runtime, so what holds for
    programs that do holds for this registry. *)

From S2P Require Import Prelude Errors Rent Account BTreeMap Pubkey Sysvars EpochSchedule Nonce TransactionContext RuntimeRules CallStack SysvarCache FeatureSet SystemProgram Effects SystemRules InvokeContext InvokeRules ProcessRules SystemContract Message MessageRules MessageProcessor VoteState Votes VoteProgram VoteAuthority StakeState ConfigProgram StakeProgram StakeContract ConfigRules SystemInstructions SystemCalls LookupTable TableContract OwnerRules.

(** ** Every program works within its instruction *)

Section within.
Context {hashing : Hashing} {curve : Curve} {ids : ProgramIds} {mids : MessageIds} {fids : FeatureIds} {tids : LookupTableIds}.

#[global] Instance system_within `{!Bincode Versions, !BincodeLimited SystemInstruction,
    !BincodeLimitedOk SystemInstruction system_instruction_wf} : ProgramWithin system_builtin.
Proof.
  intros invoke ic R HR _. apply steps_declare; [done|]. apply steps_bind; [done|by apply steps_other|intros env].
  apply steps_on_tc_obeys; [done|]. intros tc o tc' [] H. by eapply Entrypoint_obeys.
Qed.

#[global] Instance vote_within `{!Bincode VoteStateVersions, !BincodeLimited VoteInstruction} :
  ProgramWithin VoteProcessor.vote_builtin.
Proof.
  intros invoke ic R HR _. apply steps_declare; [done|]. apply steps_bind; [done|by apply steps_other|intros env].
  apply steps_on_tc_obeys; [done|]. intros tc o tc' [] H. by eapply vote_entrypoint_obeys.
Qed.

#[global] Instance stake_within `{!Bincode StakeStateV2.StakeStateV2, !Bincode VoteStateVersions, !Bincode ConfigKeys,
    !Bincode StakeConfig, !BincodeLimited StakeInstruction.StakeInstruction} :
  ProgramWithin StakeProcessor.stake_builtin.
Proof.
  intros invoke ic R HR _. apply steps_declare; [done|]. apply steps_bind; [done|by apply steps_other|intros env].
  intros s a s' Hr H. apply zoom_inv in H as (tc' & H & ->).
  apply (stake_entrypoint_obeys ic (ru_small _ _ Hr)) in H as [H|[r ->]]; [..|apply Hr].
  - split; [apply HR; [done|by apply obeys_allows]|].
    eapply contained_in_running; [done|]. apply contained_in_obeys; [apply Hr|done].
  - split; [apply HR; [done|by apply same_values_allows]|].
    eapply contained_in_running; [done|]. apply (contained_in_return_data (accounts_of ic)), Hr.
Qed.

#[global] Instance config_within `{!Bincode ConfigKeys, !BincodeLimited ConfigKeys} :
  ProgramWithin ConfigProcessor.config_builtin.
Proof.
  intros invoke ic R HR _. apply steps_declare; [done|]. apply steps_on_tc_obeys; [done|].
  intros tc o tc' [] H. by eapply config_entrypoint_obeys.
Qed.

End within.

(** The lookup table program, with the calls it makes. *)
Section tables.
Context {hashing : Hashing} {curve : Curve} {ids : ProgramIds} {fids : FeatureIds} {tids : LookupTableIds}.
Context {cast : CastSlice} {state_codec : Bincode TableState} {system_codec : Bincode SystemInstruction}.
Context {instruction_codec : BincodeLimited TableInstruction}.
Context (invoke : Invoke) (ic : InstructionContext) (R : InvokeContext -> InvokeContext -> Prop).
Context (HR : admits ic R) (Hcalls : calls_step ic R invoke).

Lemma call_steps {T} `{!Bincode T} (x : T) program_id metas signers :
  vec_len metas < int_max U16 ->
  steps ic R (TableProcessor.call_system invoke (new_with_bincode program_id x metas) signers).
Proof.
  intros Hlen. unfold new_with_bincode. destruct (bincode_serialize x) as [bs|]; cbn; [|apply steps_panic].
  by apply Hcalls.
Qed.

Ltac step :=
  repeat first
    [ apply steps_current | apply steps_bind; [done| |intros ?]
    | apply call_steps; done
    | by apply steps_other
    | apply steps_on_tc; [done|intros ?; by keeps]
    | case_match ].

Lemma create_steps slot bump : steps ic R (TableProcessor.create_lookup_table invoke slot bump).
Proof. unfold TableProcessor.create_lookup_table. step. Qed.

Lemma extend_steps new : steps ic R (TableProcessor.extend_lookup_table invoke new).
Proof. unfold TableProcessor.extend_lookup_table. step. Qed.

Lemma table_steps : steps ic R (TableProcessor.Entrypoint invoke).
Proof.
  apply steps_bind; [done|by apply steps_other|intros env]. apply steps_current.
  apply steps_bind; [done|by apply steps_other|intros instruction].
  destruct instruction; [apply create_steps| |apply extend_steps|..];
    apply steps_on_tc_obeys; eauto using freeze_obeys, table_deactivate_obeys, close_obeys.
Qed.

End tables.

#[global] Instance table_within `{!Hashing, !Curve, !ProgramIds, !FeatureIds, !LookupTableIds, !CastSlice,
    !Bincode TableState, !Bincode SystemInstruction, !BincodeLimited TableInstruction} :
  ProgramWithin TableProcessor.lookup_table_builtin.
Proof. intros invoke ic R HR Hc. apply steps_declare; [done|]. by apply table_steps. Qed.

(** ** The compute budget program (programs/compute-budget/src/lib.rs) *)

Module ComputeBudgetProcessor.
Definition DEFAULT_COMPUTE_UNITS : Z := 150.

(** Its instructions are handled before the message is processed. *)
Definition compute_budget_builtin : Builtin := fun _ => declare_process_instruction DEFAULT_COMPUTE_UNITS (ret tt).
End ComputeBudgetProcessor.

#[global] Instance compute_budget_ok : ProgramOk ComputeBudgetProcessor.compute_budget_builtin.
Proof. split; [|done]. intros invoke _. by apply declare_contained, contained_other. Qed.

#[global] Instance compute_budget_within : ProgramWithin ComputeBudgetProcessor.compute_budget_builtin.
Proof. intros invoke ic R HR _. apply steps_declare; [done|]. by apply steps_other. Qed.
