(* ===== verification/BankPrograms.v ===== *)
(** * The programs of a bank (runtime/src/builtins.rs, bank.rs, sdk/src/precompiles.rs)

    How a bank registers its builtin and precompiled programs: each gets an
    executable account of the native loader, and squatters are burnt.  The
    accounts database is a map in which accounts without lamports do not count;
    the program cache is seen as the sequence of its assignments.  The loaders
    and the proof program, which run code that is not modelled, are parameters. *)

From S2P Require Import Prelude Errors Rent Account BTreeMap Pubkey Sysvars EpochSchedule Nonce TransactionContext RuntimeRules CallStack SysvarCache FeatureSet SystemProgram Effects SystemRules InvokeContext InvokeRules ProcessRules SystemContract Message MessageRules MessageProcessor VoteState Votes VoteProgram VoteAuthority StakeState ConfigProgram StakeProgram StakeContract ConfigRules SystemInstructions SystemCalls LookupTable TableContract OwnerRules Builtins.

(** ** The tables *)

Record BuiltinPrototype := mkBuiltinPrototype {
  proto_feature_id : option Pubkey;
  proto_program_id : Pubkey;
  proto_name : String.string;
  proto_entrypoint : Builtin;
}.

(** Programs and features that only this table names. *)
Class BuiltinIds := {
  compute_budget_id : Pubkey;
  zk_token_proof_program_id : Pubkey;
  loader_v4_id : Pubkey;
  secp256k1_program_id : Pubkey;
  ed25519_program_id : Pubkey;
  zk_token_sdk_enabled : Pubkey;
  enable_program_runtime_v2_and_loader_v4 : Pubkey;
}.

(** The entrypoints of programs that are not modelled. *)
Class Loaders := {
  bpf_loader_entrypoint : Builtin;
  zk_token_proof_entrypoint : Builtin;
  loader_v4_entrypoint : Builtin;
}.

Section programs.
Context {hashing : Hashing} {curve : Curve} {ids : ProgramIds} {mids : MessageIds} {fids : FeatureIds} {tids : LookupTableIds}.
Context {bids : BuiltinIds} {loaders : Loaders}.
Context {versions_codec : Bincode Versions} {system_limited : BincodeLimited SystemInstruction}
  {system_codec : Bincode SystemInstruction} {vote_codec : Bincode VoteStateVersions} {vote_limited : BincodeLimited VoteInstruction}
  {stake_codec : Bincode StakeStateV2.StakeStateV2} {stake_limited : BincodeLimited StakeInstruction.StakeInstruction}
  {keys_codec : Bincode ConfigKeys} {keys_limited : BincodeLimited ConfigKeys} {config_codec : Bincode StakeConfig}
  {table_codec : Bincode TableState} {table_limited : BincodeLimited TableInstruction} {cast : CastSlice}.

Definition BUILTINS : list BuiltinPrototype := [
  mkBuiltinPrototype None system_program_id "system_program" system_builtin;
  mkBuiltinPrototype None vote_program_id "vote_program" VoteProcessor.vote_builtin;
  mkBuiltinPrototype None stake_program_id "stake_program" StakeProcessor.stake_builtin;
  mkBuiltinPrototype None config_program_id "config_program" ConfigProcessor.config_builtin;
  mkBuiltinPrototype None bpf_loader_deprecated_id "solana_bpf_loader_deprecated_program" bpf_loader_entrypoint;
  mkBuiltinPrototype None bpf_loader_id "solana_bpf_loader_program" bpf_loader_entrypoint;
  mkBuiltinPrototype None bpf_loader_upgradeable_id "solana_bpf_loader_upgradeable_program" bpf_loader_entrypoint;
  mkBuiltinPrototype None compute_budget_id "compute_budget_program" ComputeBudgetProcessor.compute_budget_builtin;
  mkBuiltinPrototype None address_lookup_table_program_id "address_lookup_table_program"
    TableProcessor.lookup_table_builtin;
  mkBuiltinPrototype (Some zk_token_sdk_enabled) zk_token_proof_program_id "zk_token_proof_program"
    zk_token_proof_entrypoint;
  mkBuiltinPrototype (Some enable_program_runtime_v2_and_loader_v4) loader_v4_id "loader_v4" loader_v4_entrypoint
]%string.

(** A precompiled program; its [verify_fn] is not modelled. *)
Record Precompile := mkPrecompile {
  precompile_program_id : Pubkey;
  precompile_feature : option Pubkey;
}.

Definition PRECOMPILES : list Precompile :=
  [mkPrecompile secp256k1_program_id None; mkPrecompile ed25519_program_id None].

Definition precompile_check_id (self : Precompile) (program_id : Pubkey) (is_enabled : Pubkey -> bool) : bool :=
  match precompile_feature self with Some feature_id => is_enabled feature_id | None => true end &&
  bool_decide (precompile_program_id self = program_id).

Definition is_precompile (program_id : Pubkey) (is_enabled : Pubkey -> bool) : bool :=
  existsb (fun precompile => precompile_check_id precompile program_id is_enabled) PRECOMPILES.

(** ** The bank *)

Record Bank := mkBank {
  bank_accounts : gmap Pubkey AccountSharedData;
  capitalization : Z;
  accounts_data_size_delta_off_chain : Z;
  freeze_started : bool;
  bank_feature_set : FeatureSet;
  builtin_programs : gset Pubkey;
  (* the calls of [assign_program], the newest last *)
  assigned_programs : list (Pubkey * Slot * Builtin);
}.

Definition with_bank_accounts x (b : Bank) : Bank :=
  mkBank x (capitalization b) (accounts_data_size_delta_off_chain b) (freeze_started b) (bank_feature_set b)
    (builtin_programs b) (assigned_programs b).
Definition with_capitalization x (b : Bank) : Bank :=
  mkBank (bank_accounts b) x (accounts_data_size_delta_off_chain b) (freeze_started b) (bank_feature_set b)
    (builtin_programs b) (assigned_programs b).
Definition with_data_size_delta x (b : Bank) : Bank :=
  mkBank (bank_accounts b) (capitalization b) x (freeze_started b) (bank_feature_set b)
    (builtin_programs b) (assigned_programs b).
Definition with_builtin_programs x (b : Bank) : Bank :=
  mkBank (bank_accounts b) (capitalization b) (accounts_data_size_delta_off_chain b) (freeze_started b)
    (bank_feature_set b) x (assigned_programs b).
Definition with_assigned_programs x (b : Bank) : Bank :=
  mkBank (bank_accounts b) (capitalization b) (accounts_data_size_delta_off_chain b) (freeze_started b)
    (bank_feature_set b) (builtin_programs b) x.

Abbreviation BankM := (M Bank Empty_set).

(** Accounts without lamports are not loaded. *)
Definition get_account_with_fixed_root (pubkey : Pubkey) (self : Bank) : option AccountSharedData :=
  account ← bank_accounts self !! pubkey;
  if acc_lamports account =? 0 then None else Some account.

(** The stakes cache, which is told of the account as well, is not modelled. *)
Definition store_account (pubkey : Pubkey) (account : AccountSharedData) : BankM unit :=
  let? frozen := gets freeze_started in
  if (frozen : bool) then panic else
  modify (fun b => with_bank_accounts (<[pubkey := account]> (bank_accounts b)) b).

Definition calculate_data_size_delta (old_data_size new_data_size : Z) : Outcome Empty_set Z :=
  if int_max I64 <? old_data_size then Panic else
  if int_max I64 <? new_data_size then Panic else
  Ok (saturating_sub I64 new_data_size old_data_size).

Definition update_accounts_data_size_delta_off_chain (amount : Z) : BankM unit :=
  if amount =? 0 then ret tt else
  modify (fun b => with_data_size_delta (saturating_add I64 (accounts_data_size_delta_off_chain b) amount) b).

Definition calculate_and_update_accounts_data_size_delta_off_chain (old_data_size new_data_size : Z) : BankM unit :=
  let? data_size_delta := lift (calculate_data_size_delta old_data_size new_data_size) in
  update_accounts_data_size_delta_off_chain data_size_delta.

(** [fetch_add] and [fetch_sub] wrap around. *)
Definition fetch_add_capitalization (x : Z) : BankM unit :=
  modify (fun b => with_capitalization (wrapping U64 (capitalization b + x)) b).
Definition fetch_sub_capitalization (x : Z) : BankM unit :=
  modify (fun b => with_capitalization (wrapping U64 (capitalization b - x)) b).

Definition store_account_and_update_capitalization (pubkey : Pubkey) (new_account : AccountSharedData) : BankM unit :=
  let? old := gets (get_account_with_fixed_root pubkey) in
  let? old_account_data_size :=
    match old with
    | Some old_account =>
        (match acc_lamports new_account ?= acc_lamports old_account with
         | Gt => fetch_add_capitalization (acc_lamports new_account - acc_lamports old_account)
         | Lt => fetch_sub_capitalization (acc_lamports old_account - acc_lamports new_account)
         | Eq => ret tt
         end) ;?
        ret (vec_len (acc_data old_account))
    | None => fetch_add_capitalization (acc_lamports new_account) ;? ret 0
    end in
  store_account pubkey new_account ;?
  calculate_and_update_accounts_data_size_delta_off_chain old_account_data_size (vec_len (acc_data new_account)).

Definition burn_and_purge_account (program_id : Pubkey) (account : AccountSharedData) : BankM unit :=
  let old_data_size := vec_len (acc_data account) in
  fetch_sub_capitalization (acc_lamports account) ;?
  let account := account_set_lamports 0 account in
  let account := account_set_data (replicate (length (acc_data account)) 0) account in
  store_account program_id account ;?
  calculate_and_update_accounts_data_size_delta_off_chain old_data_size 0.

Definition RENT_UNADJUSTED_INITIAL_BALANCE : Z := 1.
Definition INITIAL_RENT_EPOCH : Epoch := 0.

Definition inherit_specially_retained_account_fields (old_account : option AccountSharedData) : Z * Epoch :=
  (default RENT_UNADJUSTED_INITIAL_BALANCE (acc_lamports <$> old_account),
   default INITIAL_RENT_EPOCH (acc_rent_epoch <$> old_account)).

(** [name.as_bytes()] *)
Definition as_bytes (s : String.string) : Bytes :=
  (fun c => Z.of_N (Ascii.N_of_ascii c)) <$> String.list_ascii_of_string s.

Definition create_loadable_account_with_fields (name : String.string) (fields : Z * Epoch) : AccountSharedData :=
  mkAccount (fst fields) (as_bytes name) native_loader_id true (snd fields).

(** The name is compared with the data of the account, byte by byte. *)
Definition add_builtin_account (name : String.string) (program_id : Pubkey) (must_replace : bool) : BankM unit :=
  let? found := gets (get_account_with_fixed_root program_id) in
  let? existing_genuine_program :=
    match found with
    | Some account =>
        if bool_decide (acc_owner account = native_loader_id) then ret (Some account)
        else burn_and_purge_account program_id account ;? ret None
    | None => ret None
    end in
  let add :=
    let? frozen := gets freeze_started in
    if (frozen : bool) then panic else
    store_account_and_update_capitalization program_id
      (create_loadable_account_with_fields name
         (inherit_specially_retained_account_fields existing_genuine_program)) in
  if must_replace then
    match existing_genuine_program with
    | None => panic
    | Some account => if bool_decide (as_bytes name = acc_data account) then ret tt else add
    end
  else match existing_genuine_program with
       | Some _ => ret tt
       | None => add
       end.

Definition add_precompiled_account_with_owner (program_id owner : Pubkey) : BankM unit :=
  let add :=
    let? frozen := gets freeze_started in
    if (frozen : bool) then panic else
    let (lamports, rent_epoch) := inherit_specially_retained_account_fields None in
    store_account_and_update_capitalization program_id (mkAccount lamports [] owner true rent_epoch) in
  let? found := gets (get_account_with_fixed_root program_id) in
  match found with
  | Some account =>
      if acc_executable account then ret tt
      else burn_and_purge_account program_id account ;? add
  | None => add
  end.

Definition add_precompiled_account (program_id : Pubkey) : BankM unit :=
  add_precompiled_account_with_owner program_id native_loader_id.

Definition add_builtin (program_id : Pubkey) (name : String.string) (deployment_slot : Slot) (builtin : Builtin)
  : BankM unit :=
  add_builtin_account name program_id false ;?
  modify (fun b => with_builtin_programs ({[program_id]} ∪ builtin_programs b) b) ;?
  modify (fun b => with_assigned_programs (assigned_programs b ++ [(program_id, deployment_slot, builtin)]) b).

Definition add_precompile (program_id : Pubkey) : BankM unit := add_precompiled_account program_id.

(** [for x in l { f(x) }] *)
Fixpoint for_each {A} (f : A -> BankM unit) (l : list A) : BankM unit :=
  match l with
  | [] => ret tt
  | x :: l => f x ;? for_each f l
  end.

Definition apply_builtin_program_feature_transitions (only_apply_transitions_for_new_features : bool)
    (new_feature_activations : gset Pubkey) : BankM unit :=
  for_each (fun builtin =>
    match proto_feature_id builtin with
    | Some feature_id =>
        let? features := gets bank_feature_set in
        let should_apply_action_for_feature_transition :=
          if only_apply_transitions_for_new_features then bool_decide (feature_id ∈ new_feature_activations)
          else is_active features feature_id in
        if should_apply_action_for_feature_transition
        then add_builtin (proto_program_id builtin) (proto_name builtin)
               (default 0 (activated_slot features feature_id)) (proto_entrypoint builtin)
        else ret tt
    | None => ret tt
    end) BUILTINS ;?
  for_each (fun precompile =>
    let? features := gets bank_feature_set in
    let should_add_precompile :=
      match precompile_feature precompile with Some feature_id => is_active features feature_id | None => false end in
    if should_add_precompile then add_precompile (precompile_program_id precompile) else ret tt) PRECOMPILES.

(** The registration of programs in [finish_init], when builtins are added. *)
Definition finish_init_programs (additional_builtins : list BuiltinPrototype) : BankM unit :=
  for_each (fun builtin =>
    match proto_feature_id builtin with
    | None => add_builtin (proto_program_id builtin) (proto_name builtin) 0 (proto_entrypoint builtin)
    | Some _ => ret tt
    end) (BUILTINS ++ additional_builtins) ;?
  for_each (fun precompile =>
    match precompile_feature precompile with
    | None => add_precompile (precompile_program_id precompile)
    | Some _ => ret tt
    end) PRECOMPILES.

(** [finish_init], when builtins are added: [apply_feature_activations] has
    computed the feature set and applies the transitions of all active features. *)
Definition finish_init (new_feature_activations : gset Pubkey) (additional_builtins : list BuiltinPrototype) : BankM unit :=
  apply_builtin_program_feature_transitions false new_feature_activations ;?
  finish_init_programs additional_builtins.

(** ** Lamports of the bank *)

Definition total (m : gmap Pubkey AccountSharedData) : Z := map_fold (fun _ a sum => acc_lamports a + sum) 0 m.

Lemma total_insert k a m :
  total (<[k := a]> m) = total m - default 0 (acc_lamports <$> m !! k) + acc_lamports a.
Proof.
  unfold total. rewrite <- insert_delete_eq.
  rewrite map_fold_insert_L; [|intros; lia|by rewrite lookup_delete_eq].
  destruct (m !! k) as [x|] eqn:Hk; simpl.
  - rewrite (map_fold_delete_L _ _ k x m); [lia|intros; lia|done].
  - rewrite delete_id by done. lia.
Qed.

(** The capitalization is the total of all accounts. *)
Definition balanced (b : Bank) : Prop := capitalization b = wrapping U64 (total (bank_accounts b)).

Lemma wrapping_u64 z : wrapping U64 z = z mod 2 ^ 64.
Proof. unfold wrapping. cbn [int_min int_max]. rewrite Z.sub_0_r. reflexivity. Qed.

Lemma wrapping_u64_add x y : wrapping U64 (wrapping U64 x + y) = wrapping U64 (x + y).
Proof. rewrite !wrapping_u64. by rewrite Zplus_mod_idemp_l. Qed.

(** Data fits the counters. *)
Definition data_small (b : Bank) : Prop :=
  forall k a, bank_accounts b !! k = Some a -> vec_len (acc_data a) <= int_max I64.

(** What adding a program at [id] may change of a bank. *)
Record adds (id : Pubkey) (b b' : Bank) : Prop := {
  ads_frozen : freeze_started b' = freeze_started b;
  ads_features : bank_feature_set b' = bank_feature_set b;
  ads_programs : builtin_programs b' = builtin_programs b;
  ads_assigned : assigned_programs b' = assigned_programs b;
  ads_others : forall k, k <> id -> bank_accounts b' !! k = bank_accounts b !! k;
  ads_balanced : balanced b -> balanced b';
  ads_small : data_small b -> data_small b';
}.

#[local] Instance adds_preorder id : PreOrder (adds id).
Proof.
  split; [by split|]. intros x y z [] []. split; try congruence; [|auto..].
  intros k Hk. rewrite ads_others1 by done. auto.
Qed.

Lemma update_delta_run amount b :
  exists d, update_accounts_data_size_delta_off_chain amount b = (Ok tt, with_data_size_delta d b).
Proof.
  unfold update_accounts_data_size_delta_off_chain. destruct (amount =? 0); [|by eexists].
  exists (accounts_data_size_delta_off_chain b). by destruct b.
Qed.

Lemma data_size_delta_run old new b :
  old <= int_max I64 -> new <= int_max I64 ->
  exists d, calculate_and_update_accounts_data_size_delta_off_chain old new b = (Ok tt, with_data_size_delta d b).
Proof.
  intros Ho Hn. unfold calculate_and_update_accounts_data_size_delta_off_chain, calculate_data_size_delta, bind, lift.
  destruct (Z.ltb_spec (int_max I64) old); [lia|]. destruct (Z.ltb_spec (int_max I64) new); [lia|].
  apply update_delta_run.
Qed.

(** The account of [id] is [a] now, and accounted for. *)
Lemma stored_adds id a c d b :
  vec_len (acc_data a) <= int_max I64 ->
  (balanced b -> c = wrapping U64 (capitalization b + (acc_lamports a - default 0 (acc_lamports <$> bank_accounts b !! id)))) ->
  adds id b (with_data_size_delta d (with_bank_accounts (<[id := a]> (bank_accounts b)) (with_capitalization c b))).
Proof.
  intros Ha Hc. split; try done.
  - intros k Hk. simpl. by rewrite lookup_insert_ne.
  - intros Hb. specialize (Hc Hb). unfold balanced in *. simpl. rewrite Hc, Hb, total_insert, wrapping_u64_add. f_equal. lia.
  - intros Hb k x. simpl. rewrite lookup_insert_Some. intros [[_ <-]|[_ Hx]]; [done|by eapply Hb].
Qed.

Lemma get_account_lamports id b :
  default 0 (acc_lamports <$> bank_accounts b !! id) = default 0 (acc_lamports <$> get_account_with_fixed_root id b).
Proof.
  unfold get_account_with_fixed_root. destruct (bank_accounts b !! id) as [a|]; simpl; [|done].
  destruct (Z.eqb_spec (acc_lamports a) 0) as [->|]; done.
Qed.

Lemma get_account_small id b a :
  data_small b -> get_account_with_fixed_root id b = Some a -> 0 <= vec_len (acc_data a) <= int_max I64.
Proof.
  intros Hb (x & Hx & H)%bind_Some. destruct (_ =? 0); [done|]. injection H as <-.
  split; [unfold vec_len; lia|by eapply Hb].
Qed.

Lemma store_account_run id a b :
  freeze_started b = false ->
  store_account id a b = (Ok tt, with_bank_accounts (<[id := a]> (bank_accounts b)) b).
Proof. intros Hf. unfold store_account, bind, gets. by rewrite Hf. Qed.

Lemma store_and_update_run id a b :
  freeze_started b = false -> data_small b -> vec_len (acc_data a) <= int_max I64 ->
  exists b', store_account_and_update_capitalization id a b = (Ok tt, b') /\ adds id b b' /\
    bank_accounts b' !! id = Some a.
Proof.
  intros Hf Hb Ha. unfold store_account_and_update_capitalization.
  unfold bind at 1, gets. cbv beta iota. unfold bind at 1.
  assert (exists c n, n <= int_max I64 /\
    (balanced b -> c = wrapping U64 (capitalization b + (acc_lamports a - default 0 (acc_lamports <$> bank_accounts b !! id)))) /\
    match get_account_with_fixed_root id b with
    | Some old =>
        (match acc_lamports a ?= acc_lamports old with
         | Gt => fetch_add_capitalization (acc_lamports a - acc_lamports old)
         | Lt => fetch_sub_capitalization (acc_lamports old - acc_lamports a)
         | Eq => ret tt
         end) ;? ret (vec_len (acc_data old))
    | None => fetch_add_capitalization (acc_lamports a) ;? ret 0
    end b = (Ok n, with_capitalization c b)) as (c & n & Hn & Hc & ->).
  { rewrite get_account_lamports. destruct (get_account_with_fixed_root id b) as [old|] eqn:Hg; simpl.
    - destruct (get_account_small _ _ _ Hb Hg) as [_ Hs].
      destruct (Z.compare_spec (acc_lamports a) (acc_lamports old)) as [->|Hlt|Hgt].
      + exists (capitalization b), (vec_len (acc_data old)). split_and!; [exact Hs| |by destruct b].
        unfold balanced. intros ->. by rewrite Z.sub_diag, wrapping_u64_add, Z.add_0_r.
      + exists (wrapping U64 (capitalization b - (acc_lamports old - acc_lamports a))), (vec_len (acc_data old)).
        split_and!; [exact Hs| |reflexivity]. intros _. f_equal. lia.
      + exists (wrapping U64 (capitalization b + (acc_lamports a - acc_lamports old))), (vec_len (acc_data old)).
        by split_and!; [exact Hs| |reflexivity].
    - exists (wrapping U64 (capitalization b + acc_lamports a)), 0. by split_and!; [done|rewrite Z.sub_0_r|reflexivity]. }
  unfold bind at 1. rewrite store_account_run by done.
  destruct (data_size_delta_run n (vec_len (acc_data a))
    (with_bank_accounts (<[id := a]> (bank_accounts b)) (with_capitalization c b)) Hn Ha) as [d Hd].
  eexists. split; [exact Hd|]. split; [by apply stored_adds|]. simpl. apply lookup_insert_eq.
Qed.

Lemma burn_run id a b :
  freeze_started b = false -> data_small b -> get_account_with_fixed_root id b = Some a ->
  exists b', burn_and_purge_account id a b = (Ok tt, b') /\ adds id b b' /\
    get_account_with_fixed_root id b' = None.
Proof.
  intros Hf Hb Hg. destruct (get_account_small _ _ _ Hb Hg) as [Hpos Hs].
  unfold burn_and_purge_account, bind, fetch_sub_capitalization, modify.
  rewrite store_account_run by done.
  destruct (data_size_delta_run (vec_len (acc_data a)) 0
    (with_bank_accounts (<[id := account_set_data (replicate (length (acc_data a)) 0) (account_set_lamports 0 a)]>
       (bank_accounts b)) (with_capitalization (wrapping U64 (capitalization b - acc_lamports a)) b)) Hs) as [d Hd]; [done|].
  eexists. split; [exact Hd|]. split.
  - apply stored_adds.
    + unfold vec_len in *. simpl. by rewrite length_replicate.
    + intros _. rewrite get_account_lamports, Hg. f_equal; simpl; lia.
  - unfold get_account_with_fixed_root. simpl. by rewrite lookup_insert_eq.
Qed.

Lemma add_program_run id a b :
  freeze_started b = false -> data_small b -> vec_len (acc_data a) <= int_max I64 -> acc_lamports a <> 0 ->
  exists b', store_account_and_update_capitalization id a b = (Ok tt, b') /\ adds id b b' /\
    get_account_with_fixed_root id b' = Some a.
Proof.
  intros Hf Hb Ha Hl. destruct (store_and_update_run id a b Hf Hb Ha) as (b' & Hr & Had & Hid).
  exists b'. split_and!; [done..|]. unfold get_account_with_fixed_root. rewrite Hid. simpl.
  by destruct (Z.eqb_spec (acc_lamports a) 0).
Qed.

(** The new account of a program, in a bank that is not frozen. *)
Lemma add_new_run id new b b1 :
  freeze_started b = false -> data_small b -> vec_len (acc_data new) <= int_max I64 -> acc_lamports new <> 0 ->
  adds id b b1 ->
  exists b', (let? frozen := gets freeze_started in
              if (frozen : bool) then panic else store_account_and_update_capitalization id new) b1 = (Ok tt, b') /\
    adds id b b' /\ get_account_with_fixed_root id b' = Some new.
Proof.
  intros Hf Hb Hd Hl H1. unfold bind, gets. rewrite (ads_frozen _ _ _ H1), Hf.
  destruct (add_program_run id new b1) as (b' & Hr & Had & Hg); [by rewrite (ads_frozen _ _ _ H1)
    |by apply (ads_small _ _ _ H1)|done|done|]. exists b'. split_and!; [done|by etransitivity|done].
Qed.

(** A builtin ends with an account of the native loader: the one that was
    there, or a new one with its name and one lamport. *)
Lemma add_builtin_account_run name id b :
  freeze_started b = false -> data_small b -> vec_len (as_bytes name) <= int_max I64 ->
  exists b' a, add_builtin_account name id false b = (Ok tt, b') /\ adds id b b' /\
    get_account_with_fixed_root id b' = Some a /\ acc_owner a = native_loader_id /\
    (acc_executable a = true \/ get_account_with_fixed_root id b = Some a).
Proof.
  intros Hf Hb Hn. unfold add_builtin_account. unfold bind at 1, gets at 1. cbv beta iota.
  set (new := create_loadable_account_with_fields name (inherit_specially_retained_account_fields None)).
  destruct (get_account_with_fixed_root id b) as [a|] eqn:Hg; [case_bool_decide as Ho|].
  - exists b, a. split_and!; [done|reflexivity|done|done|by right].
  - destruct (burn_run id a b Hf Hb Hg) as (b1 & Hburn & Had1 & Hg1). unfold bind at 1 2. rewrite Hburn.
    destruct (add_new_run id new b b1 Hf Hb) as (b' & Hr & Had & Hg'); [done|done|done|].
    exists b', new. split_and!; [exact Hr|done|done|done|by left].
  - destruct (add_new_run id new b b Hf Hb) as (b' & Hr & Had & Hg'); [done|done|reflexivity|].
    exists b', new. split_and!; [exact Hr|done|done|done|by left].
Qed.

Lemma add_precompile_run id b :
  freeze_started b = false -> data_small b ->
  exists b' a, add_precompile id b = (Ok tt, b') /\ adds id b b' /\
    get_account_with_fixed_root id b' = Some a /\ acc_executable a = true /\
    (acc_owner a = native_loader_id \/ b' = b).
Proof.
  intros Hf Hb. unfold add_precompile, add_precompiled_account, add_precompiled_account_with_owner.
  set (new := mkAccount RENT_UNADJUSTED_INITIAL_BALANCE [] native_loader_id true INITIAL_RENT_EPOCH).
  unfold bind at 1, gets at 1. cbv beta iota.
  destruct (get_account_with_fixed_root id b) as [a|] eqn:Hg; [destruct (acc_executable a) eqn:Hx|].
  - exists b, a. split_and!; [done|reflexivity|done|done|by right].
  - destruct (burn_run id a b Hf Hb Hg) as (b1 & Hburn & Had1 & _). unfold bind at 1. rewrite Hburn.
    destruct (add_new_run id new b b1 Hf Hb) as (b' & Hr & Had & Hg'); [done|done|done|].
    exists b', new. split_and!; [done..|by left].
  - destruct (add_new_run id new b b Hf Hb) as (b' & Hr & Had & Hg'); [done|done|reflexivity|].
    exists b', new. split_and!; [done..|by left].
Qed.

(** ** Registration *)

(** Accounts of the native loader are programs. *)
Definition genuine (b : Bank) : Prop := forall k a,
  get_account_with_fixed_root k b = Some a -> acc_owner a = native_loader_id -> acc_executable a = true.

Definition native_at (k : Pubkey) (b : Bank) : Prop := exists a,
  get_account_with_fixed_root k b = Some a /\ acc_owner a = native_loader_id /\ acc_executable a = true.

Definition program_at (k : Pubkey) (b : Bank) : Prop := exists a,
  get_account_with_fixed_root k b = Some a /\ acc_executable a = true.

(** What registering programs at keys of [P] does to a bank. *)
Record registers (P : Pubkey -> Prop) (b b' : Bank) : Prop := {
  rg_frozen : freeze_started b' = freeze_started b;
  rg_features : bank_feature_set b' = bank_feature_set b;
  rg_small : data_small b -> data_small b';
  rg_balanced : balanced b -> balanced b';
  rg_genuine : genuine b -> genuine b';
  rg_program k : program_at k b -> program_at k b';
  rg_native k : genuine b -> native_at k b -> native_at k b';
  rg_others k : ~ P k -> bank_accounts b' !! k = bank_accounts b !! k;
  rg_builtins : builtin_programs b ⊆ builtin_programs b';
  rg_assigned : assigned_programs b ⊆ assigned_programs b';
}.

#[local] Instance registers_preorder P : PreOrder (registers P).
Proof.
  split; [by split|]. intros x y z [] []. split; try congruence; [auto..| | |].
  - intros k Hk. rewrite rg_others1 by done. auto.
  - by etransitivity.
  - by etransitivity.
Qed.

Definition ready (b : Bank) : Prop := freeze_started b = false /\ data_small b /\ genuine b.

Lemma registers_ready P b b' : registers P b b' -> ready b -> ready b'.
Proof. intros [] (Hf & Hd & Hg). split_and!; [congruence|auto..]. Qed.

Lemma adds_get id b b' k : adds id b b' -> k <> id ->
  get_account_with_fixed_root k b' = get_account_with_fixed_root k b.
Proof. intros Ha Hk. unfold get_account_with_fixed_root. by rewrite (ads_others _ _ _ Ha). Qed.

(** An account was added at [id], or was there. *)
Lemma adds_registers (P : Pubkey -> Prop) id b b' a :
  P id -> adds id b b' -> get_account_with_fixed_root id b' = Some a -> acc_executable a = true ->
  (acc_owner a = native_loader_id \/ b' = b) -> registers P b b'.
Proof.
  intros HP Ha Hg Hx [Ho| ->]; [|reflexivity].
  split; try apply Ha; try (rewrite (ads_programs _ _ _ Ha) || rewrite (ads_assigned _ _ _ Ha); done).
  - intros Hgen k x Hk Hox. destruct (decide (k = id)) as [->|Hne]; [congruence|].
    rewrite (adds_get _ _ _ _ Ha Hne) in Hk. by eapply Hgen.
  - intros k (x & Hk & Hxx). destruct (decide (k = id)) as [->|Hne]; [by exists a|].
    exists x. by rewrite (adds_get _ _ _ _ Ha Hne).
  - intros k _ (x & Hk & Hxo & Hxx). destruct (decide (k = id)) as [->|Hne]; [by exists a|].
    exists x. by rewrite (adds_get _ _ _ _ Ha Hne).
  - intros k Hk. apply Ha. by intros ->.
Qed.

Lemma for_each_run {A} (P : Pubkey -> Prop) (Q : A -> Bank -> Prop) (f : A -> BankM unit) l b :
  (forall x c, x ∈ l -> ready c -> bank_feature_set c = bank_feature_set b ->
     exists b', f x c = (Ok tt, b') /\ registers P c b' /\ Q x b') ->
  (forall x b b', ready b -> registers P b b' -> Q x b -> Q x b') -> ready b ->
  exists b', for_each f l b = (Ok tt, b') /\ registers P b b' /\ forall x, x ∈ l -> Q x b'.
Proof.
  revert b. induction l as [|x l IH]; intros b Hf HQ Hb; cbn [for_each].
  - exists b. split_and!; [done|reflexivity|by intros x ?%elem_of_nil].
  - destruct (Hf x b) as (b1 & Hx & Hr1 & Hq1); [set_solver|done..|].
    pose proof (registers_ready _ _ _ Hr1 Hb) as Hb1.
    destruct (IH b1) as (b' & Hl & Hr & Hq); [|done..|].
    { intros y c Hy Hc Hfs. apply Hf; [set_solver|done|]. by rewrite Hfs, (rg_features _ _ _ Hr1). }
    exists b'. unfold bind. rewrite Hx. split_and!; [done|by etransitivity|].
    intros y [->|Hy]%elem_of_cons; [by eapply HQ|by apply Hq].
Qed.

(** A builtin is registered. *)
Definition registered (id : Pubkey) (slot : Slot) (builtin : Builtin) (b : Bank) : Prop :=
  native_at id b /\ id ∈ builtin_programs b /\ (id, slot, builtin) ∈ assigned_programs b.

Lemma registered_later P id slot builtin b b' :
  ready b -> registers P b b' -> registered id slot builtin b -> registered id slot builtin b'.
Proof.
  intros (_ & _ & Hg) Hr (Hn & Hin & Ha). split_and!; [by apply Hr|by apply (rg_builtins _ _ _ Hr)|by apply (rg_assigned _ _ _ Hr)].
Qed.

Lemma add_builtin_run (P : Pubkey -> Prop) id name slot builtin b :
  P id -> vec_len (as_bytes name) <= int_max I64 -> ready b ->
  exists b', add_builtin id name slot builtin b = (Ok tt, b') /\ registers P b b' /\ registered id slot builtin b'.
Proof.
  intros HP Hn (Hf & Hd & Hgen).
  destruct (add_builtin_account_run name id b Hf Hd Hn) as (b1 & a & Hr & Ha & Hg & Ho & Hx).
  assert (acc_executable a = true) as Hx' by (destruct Hx as [Hx|Hx]; [done|by eapply Hgen]).
  unfold add_builtin, bind, modify. rewrite Hr. eexists. split; [reflexivity|].
  pose proof (adds_registers P id b b1 a HP Ha Hg Hx' (or_introl Ho)) as H1. split.
  - transitivity b1; [done|]. split; try done; simpl; set_solver.
  - split_and!; simpl; [|set_solver..]. by exists a.
Qed.

(** The slot from which on a builtin is deployed, if it is at all. *)
Definition deployed (features : FeatureSet) (p : BuiltinPrototype) : option Slot :=
  match proto_feature_id p with
  | None => Some 0
  | Some feature_id => if is_active features feature_id then Some (default 0 (activated_slot features feature_id)) else None
  end.

(** The programs a bank adds. *)
Definition program_keys (features : FeatureSet) (additional_builtins : list BuiltinPrototype) (k : Pubkey) : Prop :=
  (exists p, p ∈ BUILTINS /\ is_Some (deployed features p) /\ k = proto_program_id p) \/
  (exists p, p ∈ additional_builtins /\ proto_feature_id p = None /\ k = proto_program_id p) \/
  k ∈ precompile_program_id <$> PRECOMPILES.

Lemma builtin_name_small p : p ∈ BUILTINS -> vec_len (as_bytes (proto_name p)) <= int_max I64.
Proof. intros H. repeat (apply elem_of_cons in H as [->|H]; [vm_compute; discriminate|]). by apply elem_of_nil in H. Qed.

Lemma precompile_no_feature p : p ∈ PRECOMPILES -> precompile_feature p = None.
Proof. intros H. repeat (apply elem_of_cons in H as [->|H]; [done|]). by apply elem_of_nil in H. Qed.

Lemma add_precompile_registers features additional p b :
  p ∈ PRECOMPILES -> ready b ->
  exists b', add_precompile (precompile_program_id p) b = (Ok tt, b') /\
    registers (program_keys features additional) b b' /\ program_at (precompile_program_id p) b'.
Proof.
  intros Hp Hb. destruct (add_precompile_run (precompile_program_id p) b) as (b' & a & Hr & Ha & Hga & Hx & Ho); [apply Hb..|].
  exists b'. split_and!; [done| |by exists a]. eapply adds_registers; [right; right; by apply list_elem_of_fmap_2|done..].
Qed.

(** Runs the loop of the goal over [l], with [Q] for each of its elements. *)
Tactic Notation "loop_run" constr(Q) constr(l) constr(b) "as" simple_intropattern(pat) :=
  match goal with |- context [for_each ?f l] =>
    match goal with P := program_keys _ _ |- _ => destruct (for_each_run P Q f l b) as pat end end.

(** The builtins whose feature is active. *)
Lemma transitions_run additional new b :
  ready b ->
  exists b', apply_builtin_program_feature_transitions false new b = (Ok tt, b') /\
    registers (program_keys (bank_feature_set b) additional) b b' /\
    forall p slot, p ∈ BUILTINS -> is_Some (proto_feature_id p) -> deployed (bank_feature_set b) p = Some slot ->
      registered (proto_program_id p) slot (proto_entrypoint p) b'.
Proof.
  intros Hb. set (F := bank_feature_set b). set (P := program_keys F additional). unfold apply_builtin_program_feature_transitions.
  loop_run (fun p b => forall slot, is_Some (proto_feature_id p) -> deployed F p = Some slot ->
    registered (proto_program_id p) slot (proto_entrypoint p) b) BUILTINS b as (b1 & H1 & Hr1 & Hq1); [| |exact Hb|].
  2:{ intros p c c' Hc Hr Hq slot Hs Hd. eapply registered_later; [exact Hc|exact Hr|by apply Hq]. }
  { intros p c Hp Hc Hfs. cbv beta. unfold deployed. destruct (proto_feature_id p) as [f|] eqn:Hpf.
    2:{ exists c. split_and!; [done|reflexivity|by intros slot [? ?]]. }
    unfold bind at 1, gets. cbv beta iota. rewrite Hfs. fold F. destruct (is_active F f) eqn:Ha.
    2:{ exists c. split_and!; [done|reflexivity|done]. }
    destruct (add_builtin_run P (proto_program_id p) (proto_name p) (default 0 (activated_slot F f)) (proto_entrypoint p) c)
      as (c' & Hr & Hreg & Hdone); [|by apply builtin_name_small|done|].
    - left. exists p. split_and!; [done| |done]. unfold deployed. rewrite Hpf, Ha. done.
    - exists c'. split_and!; [done..|]. by intros slot _ [= <-]. }
  loop_run (fun (_ : Precompile) (_ : Bank) => True) PRECOMPILES b1 as (b' & H2 & Hr2 & _); [| |exact (registers_ready _ _ _ Hr1 Hb)|].
  2: done.
  { intros p c Hp Hc _. exists c. cbv beta. rewrite (precompile_no_feature p Hp). split_and!; [done|reflexivity|done]. }
  exists b'. unfold bind at 1. rewrite H1. split_and!; [exact H2|by etransitivity|].
  intros p slot Hp Hs Hd. eapply registered_later; [exact (registers_ready _ _ _ Hr1 Hb)|exact Hr2|by apply Hq1].
Qed.

(** The builtins without a feature, and the precompiled programs. *)
Lemma finish_init_programs_run additional b :
  ready b -> Forall (fun p => vec_len (as_bytes (proto_name p)) <= int_max I64) additional ->
  exists b', finish_init_programs additional b = (Ok tt, b') /\
    registers (program_keys (bank_feature_set b) additional) b b' /\
    (forall p, p ∈ BUILTINS ++ additional -> proto_feature_id p = None ->
       registered (proto_program_id p) 0 (proto_entrypoint p) b') /\
    forall p, p ∈ PRECOMPILES -> program_at (precompile_program_id p) b'.
Proof.
  intros Hb Hnames. set (F := bank_feature_set b). set (P := program_keys F additional). unfold finish_init_programs.
  loop_run (fun p b => proto_feature_id p = None -> registered (proto_program_id p) 0 (proto_entrypoint p) b)
    (BUILTINS ++ additional) b as (b1 & H1 & Hr1 & Hq1); [| |exact Hb|].
  2:{ intros p c c' Hc Hr Hq Hp. by eapply registered_later, Hq. }
  { intros p c Hp Hc _. cbv beta. destruct (proto_feature_id p) eqn:Hpf; [exists c; split_and!; [done|reflexivity|done]|].
    destruct (add_builtin_run P (proto_program_id p) (proto_name p) 0 (proto_entrypoint p) c) as (c' & ? & ? & ?);
      [| |done|by exists c'].
    - apply elem_of_app in Hp as [Hp|Hp]; [left|right; left]; exists p; [|done]. unfold deployed. by rewrite Hpf.
    - apply elem_of_app in Hp as [Hp|Hp]; [by apply builtin_name_small|]. rewrite list.Forall_forall in Hnames. by apply Hnames. }
  loop_run (fun p b => program_at (precompile_program_id p) b) PRECOMPILES b1 as (b' & H2 & Hr2 & Hq2);
    [| |exact (registers_ready _ _ _ Hr1 Hb)|].
  2:{ intros p c c' _ Hr. apply Hr. }
  { intros p c Hp Hc _. cbv beta. rewrite (precompile_no_feature p Hp). by apply add_precompile_registers. }
  exists b'. unfold bind at 1. rewrite H1. split_and!; [exact H2|by etransitivity| |exact Hq2].
  intros p Hp Hn. eapply registered_later; [exact (registers_ready _ _ _ Hr1 Hb)|exact Hr2|by apply Hq1].
Qed.

(** C27: a bank registers its programs.  Take a bank that is not frozen, in which
    accounts of the native loader are executable and the lengths of data and
    names fit 63 bits.  Then registration ends without a panic; every builtin
    that no feature guards, or whose feature is active, has an executable account
    of the native loader, is listed and is assigned to the program cache with the
    slot of its feature; so has every additional builtin without a feature; every
    precompiled program has an executable account; accounts at all other keys,
    those of builtins whose feature is not active included, are as they were, and
    the capitalization still is the total of all lamports, though squatters are
    burnt and accounts created. *)
Theorem bank_registers_programs (new_feature_activations : gset Pubkey) (additional_builtins : list BuiltinPrototype)
    (b : Bank) :
  freeze_started b = false -> data_small b -> genuine b ->
  Forall (fun p => vec_len (as_bytes (proto_name p)) <= int_max I64) additional_builtins ->
  exists b', finish_init new_feature_activations additional_builtins b = (Ok tt, b') /\
    (forall p slot, p ∈ BUILTINS -> deployed (bank_feature_set b) p = Some slot ->
       registered (proto_program_id p) slot (proto_entrypoint p) b') /\
    (forall p, p ∈ additional_builtins -> proto_feature_id p = None ->
       registered (proto_program_id p) 0 (proto_entrypoint p) b') /\
    (forall p, p ∈ PRECOMPILES -> program_at (precompile_program_id p) b') /\
    (forall k, ~ program_keys (bank_feature_set b) additional_builtins k -> bank_accounts b' !! k = bank_accounts b !! k) /\
    (balanced b -> balanced b').
Proof.
  intros Hf Hd Hg Hnames. assert (ready b) as Hb by done.
  destruct (transitions_run additional_builtins new_feature_activations b Hb) as (b1 & H1 & Hr1 & Hq1).
  pose proof (registers_ready _ _ _ Hr1 Hb) as Hb1.
  destruct (finish_init_programs_run additional_builtins b1 Hb1 Hnames) as (b' & H2 & Hr2 & Hq2 & Hp2).
  rewrite (rg_features _ _ _ Hr1) in Hr2. exists b'. split_and!.
  - unfold finish_init, bind. by rewrite H1.
  - intros p slot Hp Hs. destruct (proto_feature_id p) as [f|] eqn:Hpf.
    + eapply registered_later; [exact Hb1|exact Hr2|]. apply Hq1; [done|by rewrite Hpf|done].
    + unfold deployed in Hs. rewrite Hpf in Hs. injection Hs as <-. apply Hq2; [|done]. apply elem_of_app. by left.
  - intros p Hp. apply Hq2, elem_of_app. by right.
  - done.
  - intros k Hk. rewrite (rg_others _ _ _ Hr2) by done. by apply Hr1.
  - intros Hbal. by apply Hr2, Hr1.
Qed.

Lemma store_and_update_ok id a b b' :
  store_account_and_update_capitalization id a b = (Ok tt, b') -> acc_lamports a <> 0 ->
  get_account_with_fixed_root id b' = Some a.
Proof.
  intros H Hl. unfold store_account_and_update_capitalization in H.
  apply bind_ok_inv in H as (old & b1 & _ & H). apply bind_ok_inv in H as (n & b2 & _ & H).
  apply bind_ok_inv in H as ([] & b3 & H3 & H). unfold store_account in H3.
  apply bind_ok_inv in H3 as (frozen & b4 & Hq & H3). apply gets_ok_inv in Hq as [-> ->].
  destruct (freeze_started b2); [done|]. apply modify_ok_inv in H3 as ->.
  apply bind_ok_inv in H as (d & b4 & Hq & H). apply lift_ok_inv in Hq as [_ ->].
  destruct (update_delta_run d (with_bank_accounts (<[id:=a]> (bank_accounts b2)) b2)) as [d' Hd].
  rewrite Hd in H. injection H as <-. unfold get_account_with_fixed_root. simpl. rewrite lookup_insert_eq. simpl.
  by destruct (Z.eqb_spec (acc_lamports a) 0).
Qed.

Lemma add_program_ok id a b b' :
  (let? frozen := gets freeze_started in
   if (frozen : bool) then panic else store_account_and_update_capitalization id a) b = (Ok tt, b') ->
  acc_lamports a <> 0 -> get_account_with_fixed_root id b' = Some a.
Proof.
  intros H Hl. apply bind_ok_inv in H as (frozen & b1 & Hq & H). apply gets_ok_inv in Hq as [-> ->].
  destruct (freeze_started b); [done|]. by eapply store_and_update_ok.
Qed.

(** A program that is in place is left in place. *)
Lemma add_builtin_account_again name id must_replace b a :
  get_account_with_fixed_root id b = Some a -> acc_owner a = native_loader_id ->
  (must_replace = true -> acc_data a = as_bytes name) ->
  add_builtin_account name id must_replace b = (Ok tt, b).
Proof.
  intros Hg Ho Hd. unfold add_builtin_account, bind at 1, gets at 1. rewrite Hg, bool_decide_true by done.
  unfold bind at 1, ret at 1. destruct must_replace; [|done]. by rewrite bool_decide_true by (symmetry; auto).
Qed.

(** Adding a builtin again changes nothing: the account that the first
    registration made, or kept, is the program's. *)
Theorem add_builtin_account_idempotent (name : String.string) (id : Pubkey) (must_replace : bool) (b b' : Bank) :
  add_builtin_account name id must_replace b = (Ok tt, b') ->
  add_builtin_account name id must_replace b' = (Ok tt, b').
Proof.
  intros H. unfold add_builtin_account in H.
  apply bind_ok_inv in H as (found & b1 & Hq & H). apply gets_ok_inv in Hq as [-> ->].
  apply bind_ok_inv in H as (existing & b1 & Hq & H).
  destruct existing as [a|].
  - assert (get_account_with_fixed_root id b = Some a /\ acc_owner a = native_loader_id /\ b1 = b) as (Hg & Ho & ->).
    { destruct (get_account_with_fixed_root id b) as [x|] eqn:Hx; [|done]. clear H. case_bool_decide as Ho.
      - apply ret_ok_inv in Hq as [Hq ->]. by injection Hq as ->.
      - apply bind_ok_inv in Hq as ([] & b2 & _ & Hq). by apply ret_ok_inv in Hq as [Hq _]. }
    assert (acc_lamports a <> 0) as Hl.
    { apply bind_Some in Hg as (x & _ & Hx). destruct (Z.eqb_spec (acc_lamports x) 0); [done|]. by injection Hx as ->. }
    destruct must_replace; [case_bool_decide as Hd|].
    + apply ret_ok_inv in H as [_ ->]. by eapply add_builtin_account_again.
    + apply add_program_ok in H; [|done]. by eapply add_builtin_account_again.
    + apply ret_ok_inv in H as [_ ->]. by eapply add_builtin_account_again.
  - destruct must_replace; [done|]. apply add_program_ok in H; [|done]. by eapply add_builtin_account_again.
Qed.

End programs.
