(* ===== verification/TableCustody.v ===== *)
(** * Lookup tables over whole messages

    The owner rules, instantiated with the lookup table program: whatever
    programs a message runs, its lookup tables make steps of the machine of
    [TableMachine] and nothing else; so the lookups of other transactions in the
    same slot have the same answers before and after it. *)

From S2P Require Import Prelude Errors Rent Account BTreeMap Pubkey Sysvars EpochSchedule Nonce TransactionContext RuntimeRules CallStack SysvarCache FeatureSet SystemProgram Effects SystemRules InvokeContext InvokeRules ProcessRules SystemContract Message MessageRules MessageProcessor SystemInstructions SystemCalls LookupTable TableContract TableMachine TableRules OwnerRules Builtins.
Import TableProcessor.

#[local] Abbreviation table_id := address_lookup_table_program_id.

(** ** Histories within a slot *)

Lemma evolves_trans signed now t now' t' now'' t'' :
  evolves signed now t now' t' -> evolves signed now' t' now'' t'' -> evolves signed now t now'' t''.
Proof.
  intros H1 H2. induction H2 as [|????? _ IH Hle|?????? _ IH Hs]; [done|by eapply evolves_wait; [apply IH|]|].
  eapply evolves_step; [by apply IH|done].
Qed.

Lemma step_signed (P Q : Pubkey -> Prop) now hashes t o :
  (forall k, P k -> Q k) -> table_step P now hashes t o -> table_step Q now hashes t o.
Proof. intros HPQ H. inversion H; subst; econstructor; eauto. Qed.

Lemma evolves_signed (P Q : Pubkey -> Prop) now t now' t' :
  (forall k, P k -> Q k) -> evolves P now t now' t' -> evolves Q now t now' t'.
Proof.
  intros HPQ. induction 1; [constructor|by eapply evolves_wait|]. eapply evolves_step; [done|by eapply step_signed].
Qed.

Lemma evolves_deactivation signed now t now' t' :
  evolves signed now t now' t' -> now <= now' /\
    (t' = t \/ deactivation_slot (table_meta t') = int_max U64 \/ now <= deactivation_slot (table_meta t') <= now').
Proof.
  induction 1 as [|????? _ [Hle IH] Hle'|now t now' t' hashes t'' _ [Hle IH] Hs].
  - split; [lia|by left].
  - split; [lia|]. destruct IH as [|[|]]; [by left|by right; left|right; right; lia].
  - split; [done|]. right. inversion Hs; subst; simpl; [by left| |right; lia].
    left. by destruct (_ =? _).
Qed.

(** What is deactivated now was so before this slot's steps, of which there were
    none then. *)
Lemma deactivated_before signed now t t' hashes :
  evolves signed now t now t' -> status (table_meta t') now hashes = Deactivated -> t' = t.
Proof.
  intros He Hst. destruct (evolves_deactivation _ _ _ _ _ He) as [_ [->|[Hd|Hd]]]; [done|..];
    unfold status in Hst; destruct (Z.eqb_spec (deactivation_slot (table_meta t')) (int_max U64)); try done.
  destruct (Z.eqb_spec (deactivation_slot (table_meta t')) now); [done|lia].
Qed.

Lemma step_hashes signed now hashes hashes' t t' :
  table_step signed now hashes t (Some t') -> table_step signed now hashes' t (Some t').
Proof. intros H. inversion H; subst; by econstructor. Qed.

(** The lookups of a slot see none of the slot's steps. *)
Lemma evolves_lookups signed now t now' t' indexes hashes :
  evolves signed now t now' t' -> now' = now -> table_wf now t ->
  lookup t' now indexes hashes = lookup t now indexes hashes.
Proof.
  induction 1 as [|now t now' now'' t' He IH Hle|now t now' t' hs t'' He IH Hs]; intros Heq Hwf; [done|..].
  - apply IH; [|done]. destruct (evolves_deactivation _ _ _ _ _ He). lia.
  - subst now'. rewrite <- IH by done. eapply (step_lookups signed now hashes t' (Some t'')); [|by eapply step_hashes].
    by eapply evolves_wf.
Qed.

Section custody.
Context {hashing : Hashing} {curve : Curve} {ids : ProgramIds} {fids : FeatureIds} {tids : LookupTableIds}.
Context {cast : CastSlice} {cast_ok : CastSliceOk} {state_codec : Bincode TableState} {codec_ok : BincodeOk TableState}.
Context {system_codec : Bincode SystemInstruction} {instruction_codec : BincodeLimited TableInstruction}.
Context {instruction_ok : BincodeLimitedOk TableInstruction table_instruction_wf}.

(** [k] signed an instruction of the lookup table program in the trace. *)
Definition signs_in (tc : TransactionContext) (trace : list InstructionContext) (k : Pubkey) : Prop :=
  exists ic, ic ∈ trace /\ program_key ic tc = Some table_id /\ signed ic tc k.

Lemma signs_in_keys tc tc' trace k : account_keys tc' = account_keys tc -> signs_in tc trace k -> signs_in tc' trace k.
Proof.
  intros Hk (ic & Hin & Hp & ia & Hia & Hs & Hkey). exists ic. split_and!; [done|by rewrite (program_key_keys _ tc)|].
  exists ia. split_and!; [done..|]. unfold get_key_of_account_at_index in *. by rewrite Hk.
Qed.

(** What may become of an account of the lookup table program in a slot: its table
    makes steps whose authorities are [signers], or it is closed; what is no
    table stays as it is. *)
Definition table_follows (now : Slot) (hashes : SlotHashes.SlotHashes) (signers : Pubkey -> Prop)
    (a a' : AccountSharedData) : Prop :=
  (acc_owner a = table_id -> acc_owner a' = table_id) /\
  (acc_owner a = table_id -> table_of a = None -> acc_data a' = acc_data a) /\
  forall t, table_of a = Some t ->
    (exists t', table_of a' = Some t' /\ evolves signers now t now t') \/
    (table_step signers now hashes t None /\ acc_data a' = []).

Lemma table_owner a t : table_of a = Some t -> acc_owner a = table_id.
Proof. unfold table_of. by case_bool_decide. Qed.

Lemma same_contents_table a a' : acc_owner a' = acc_owner a -> acc_data a' = acc_data a -> table_of a' = table_of a.
Proof. intros Ho Hd. unfold table_of. by rewrite Ho, Hd. Qed.

Lemma no_data_no_table a : acc_data a = [] -> table_of a = None.
Proof.
  intros Hd. unfold table_of. case_bool_decide; [|done]. rewrite Hd.
  destruct (AddressLookupTable_deserialize []) as [t|e|] eqn:Ht; [|done..].
  by apply deserialize_ok_inv in Ht as (_ & Hlen & _).
Qed.

Lemma same_contents_follow now hashes signers a a' :
  acc_owner a' = acc_owner a -> acc_data a' = acc_data a -> table_follows now hashes signers a a'.
Proof.
  intros Ho Hd. split_and!; [congruence|done|]. intros t Ht. left. exists t.
  rewrite (same_contents_table _ _ Ho Hd). split; [done|constructor].
Qed.

Lemma table_follows_trans now hashes signers a b c :
  table_follows now hashes signers a b -> table_follows now hashes signers b c -> table_follows now hashes signers a c.
Proof.
  intros (Hab & Hnab & Htab) (Hbc & Hnbc & Htbc). split_and!; [auto|..].
  - intros Ho Hn. specialize (Hnab Ho Hn). specialize (Hab Ho). rewrite Hnbc; [done..|].
    rewrite (same_contents_table a b); [done|congruence|done].
  - intros t Ht. pose proof (Hab (table_owner _ _ Ht)) as Hob. destruct (Htab t Ht) as [(t' & Ht' & He)|[Hc Hd]].
    + destruct (Htbc t' Ht') as [(t'' & Ht'' & He')|[Hc Hd]]; [left; exists t''; split; [done|by eapply evolves_trans]|right].
      split; [|done]. by rewrite <- (deactivated_before _ _ _ _ hashes He); [|inversion Hc].
    + right. split; [done|]. rewrite Hnbc; [done..|]. by apply no_data_no_table.
Qed.

#[local] Instance table_follows_relation now hashes tc :
  OwnerRelation table_id (fun trace => table_follows now hashes (signs_in tc trace)).
Proof.
  split.
  - intros trace. split; [intros a; by apply same_contents_follow|intros a b c; apply table_follows_trans].
  - intros trace trace' a a' [rest ->] (Ho & Hn & Ht).
    assert (forall k, signs_in tc trace k -> signs_in tc (trace ++ rest) k) as Hs
      by (intros k (ic & Hin & Hk); exists ic; split; [apply elem_of_app; by left|done]).
    split_and!; [done..|]. intros t Hta. destruct (Ht t Hta) as [(t' & Ht' & He)|[Hc Hd]]; [left|right].
    + exists t'. split; [done|by eapply evolves_signed].
    + split; [by eapply step_signed|done].
  - intros trace a a' Ho [H _]. auto.
  - intros trace a a' _ Ho Hd _. by apply same_contents_follow.
Qed.

Lemma kept_follows B (P : IndexOfAccount -> Prop) now hashes signers tc tc' j a :
  kept B P tc tc' -> ~ P j -> account_at tc j = Some a ->
  exists a', account_at tc' j = Some a' /\ table_follows now hashes signers a a'.
Proof.
  intros Hk Hj Ha. destruct (Hk j a Hj Ha) as (a' & Ha' & Ho & Hd & _). exists a'. split; [done|by apply same_contents_follow].
Qed.

(** A run of the program follows, with the signers of its instruction. *)
Lemma effect_follows B ic features now hashes (signers : Pubkey -> Prop) tc tc' :
  table_id <> system_program_id -> (forall k, signed ic tc k -> signers k) ->
  table_effect B ic features now hashes tc tc' ->
  owned_step table_id (table_follows now hashes signers) tc tc'.
Proof.
  intros Hne Hsg H j a Ha Hown. destruct H as [Hk|i b b' key authority slot bump Hk _ _ _ _ Hb Hob _ _ _|i b b' t o Hk Hb Ht Hs Hb' Ho Hr].
  - eapply kept_follows; [exact Hk|by intros []|done].
  - eapply kept_follows; [done| |done]. intros ->. rewrite Hb in Ha. injection Ha as ->. congruence.
  - destruct (decide (i = j)) as [->|Hij]; [|by eapply kept_follows].
    rewrite Hb in Ha. injection Ha as ->. exists b'. split; [done|]. split_and!; [done|congruence|].
    intros t1 Ht1. rewrite Ht in Ht1. injection Ht1 as <-. apply (step_signed _ signers) in Hs; [|done]. destruct o as [t'|].
    + left. exists t'. split; [apply Hr|]. eapply evolves_step; [constructor|done].
    + right. split; [done|apply Hr].
Qed.

Lemma table_builtin_inv invoke s s' :
  lookup_table_builtin invoke s = (Ok tt, s') ->
  exists s1 s2, environment s1 = environment s /\ transaction_context s1 = transaction_context s /\
    transaction_context s2 = transaction_context s' /\ Entrypoint invoke s1 = (Ok tt, s2).
Proof.
  unfold lookup_table_builtin, declare_process_instruction. change (0 <? DEFAULT_COMPUTE_UNITS) with true. cbv iota.
  intros H. apply bind_ok_inv in H as ([] & s1 & H1 & H). unfold as_program in H.
  destruct (Entrypoint invoke s1) as [o s2] eqn:E. destruct o as [[]|e|]; [|done..]. injection H as <-.
  apply consume_checked_ok in H1 as [He Ht]. by exists s1, s2.
Qed.

(** ** Messages *)

Context {versions_codec : Bincode Versions} {system_limited : BincodeLimited SystemInstruction}.
Context {agrees : BincodeAgrees SystemInstruction}.
Context (find_builtin : Pubkey -> option (option Builtin)).
Context {Hprograms : ProgramsOk find_builtin} {Hwithin : ProgramsWithin find_builtin}.
Context (Hsystem : find_builtin system_program_id = Some (Some system_builtin)).
Context (Htable : find_builtin table_id = Some (Some lookup_table_builtin)).
Context (Hne : table_id <> system_program_id) (is_precompile : Pubkey -> bool).

(** The programs whose accounts have to be the builtins'. *)
Definition table_programs : list Pubkey := [table_id; system_program_id].

Lemma table_run_follows env tc0 clock hashes fuel ic s s' :
  get_clock (env_sysvar_cache env) = Ok clock -> get_slot_hashes (env_sysvar_cache env) = Ok hashes ->
  running ic (transaction_context s) -> scene table_id table_programs env (account_keys tc0) s ->
  program_key ic (transaction_context s) = Some table_id ->
  traced (transaction_context s) `prefix_of` traced (transaction_context s') ->
  lookup_table_builtin (native_invoke_with (process_instruction find_builtin fuel)) s = (Ok tt, s') ->
  owned_step table_id (table_follows (clock_slot clock) hashes (signs_in tc0 (traced (transaction_context s'))))
    (transaction_context s) (transaction_context s').
Proof.
  intros Hc Hh Hr [He Hkeys Hl _] Hpk [rest Htr] (s1 & s2 & He1 & Ht1 & Ht2 & H)%table_builtin_inv.
  assert (forall k, signed ic (transaction_context s) k -> signs_in tc0 (traced (transaction_context s')) k) as Hsg.
  { intros k Hk. apply (signs_in_keys (transaction_context s)); [done|]. exists ic. split_and!; [|done..].
    rewrite Htr. apply elem_of_app. left. by apply running_traced. }
  rewrite <- Ht1 in Hsg. rewrite <- Ht2 at 2. rewrite <- Ht1.
  eapply effect_follows; [done|exact Hsg|]. eapply (table_run_effect Hne False); [..|exact H].
  - by apply native_invoke_system_calls.
  - by rewrite Ht1.
  - rewrite Ht1. intros j Hj. apply (Hl j system_program_id); [set_solver|done].
  - done.
  - by rewrite He1, He.
  - by rewrite He1, He.
Qed.

(** C7: messages leave lookup tables to their authorities.  Whatever programs a
    message runs and however they call each other, if it is processed without an
    error, each lookup table that was loaded for it is still owned by the lookup
    table program.  Either it has made steps of the abstract machine in this slot,
    each with the authority of the table as a signer of an instruction of the
    lookup table program that the message ran, and every lookup in the slot is
    answered as before.  Or it was closed, which takes such a signature of its
    authority and a table that had been deactivated before the slot: its data is
    gone, and lookups had failed before as well. *)
Theorem message_keeps_tables (fuel : nat) (message : SanitizedMessage)
    (program_indices : list (list IndexOfAccount)) (tc : TransactionContext) (env : Environment)
    (clock : Clock) (hashes : SlotHashes.SlotHashes) (limit units units' : Z) (s' : InvokeContext)
    (j : IndexOfAccount) (a : AccountSharedData) (t : Table) :
  let now := clock_slot clock in
  let signers := signs_in (transaction_context s') (traced (transaction_context s')) in
  stack_ok tc -> keys_ok tc -> loaded table_programs tc -> instructions_apart table_id tc ->
  Forall (item_roots table_id (account_keys tc)) (zip (Sanitized.program_instructions_iter message) program_indices) ->
  get_clock (env_sysvar_cache env) = Ok clock -> get_slot_hashes (env_sysvar_cache env) = Ok hashes ->
  process_message find_builtin is_precompile fuel message program_indices tc env limit units =
    (Ok tt, (s', units')) ->
  account_at tc j = Some a -> table_of a = Some t -> table_wf now t ->
  exists a', account_at (transaction_context s') j = Some a' /\ acc_owner a' = table_id /\
    ((exists t', table_of a' = Some t' /\ evolves signers now t now t' /\
        forall indexes, lookup t' now indexes hashes = lookup t now indexes hashes) \/
     (table_step signers now hashes t None /\ acc_data a' = [] /\
        forall indexes, lookup t now indexes hashes = Err LookupTableAccountNotFound)).
Proof.
  intros now signers Hok Hk Hl Hi Hitems Hclock Hhashes Hrun Ha Ht Hwf.
  destruct (process_instructions_follow find_builtin table_id lookup_table_builtin Htable
    (fun trace => table_follows now hashes (signs_in tc trace)) table_programs ltac:(set_solver) env (account_keys tc)
    (fun fuel ic s s' => table_run_follows env tc clock hashes fuel ic s s' Hclock Hhashes)
    is_precompile fuel message 0 _ (InvokeContext_new tc env limit) units s' units' Hitems Hok Hk Hrun)
    as (Hscene & _ & Hstep); [by split|].
  assert (forall k, signs_in tc (traced (transaction_context s')) k -> signers k) as Hsg.
  { intros k. apply signs_in_keys. by rewrite (sc_keys _ _ _ _ _ Hscene). }
  destruct (Hstep j a Ha (table_owner _ _ Ht)) as (a' & Ha' & Howner & _ & Htab).
  exists a'. split_and!; [done|by apply Howner, (table_owner _ t)|].
  destruct (Htab t Ht) as [(t' & Ht' & He)|[Hc Hd]].
  - left. exists t'. apply (evolves_signed _ signers) in He; [|done]. split_and!; [done..|].
    intros indexes. by eapply evolves_lookups.
  - right. apply (step_signed _ signers) in Hc; [|done]. split_and!; [done..|]. intros indexes.
    by apply (step_lookups signers now hashes t None).
Qed.

End custody.
