(* ===== verification/AccountLocks.v ===== *)
(** * Account locks (accounts-db/src/accounts.rs, runtime/src/transaction_batch.rs)

    Batches of transactions are processed at the same time by several threads.
    Before a batch runs it locks the accounts of its transactions, those that may
    be written exclusively; when it is dropped it unlocks them.  The table of
    locks is behind a mutex, so its operations are steps of a machine. *)

From S2P Require Import Prelude Errors Rent Account BTreeMap Pubkey Sysvars TransactionContext Message MessageRules MessageProcessor.

(** ** What a transaction locks (sdk/src/transaction/sanitized.rs) *)

Definition MAX_TX_ACCOUNT_LOCKS : Z := 128.

Record SanitizedTransaction := mkSanitizedTransaction {
  st_message : SanitizedMessage;
  st_message_hash : Hash;
  st_is_simple_vote_tx : bool;
  st_signatures : list Bytes;
}.

Record TransactionAccountLocks := mkTransactionAccountLocks {
  tal_readonly : list Pubkey;
  tal_writable : list Pubkey;
}.

Abbreviation TxResult := (Outcome TxError).

Section transaction.
Context `{!ProgramIds, !MessageIds}.

Definition validate_account_locks (message : SanitizedMessage) (tx_account_lock_limit : Z) : TxResult unit :=
  if Sanitized.has_duplicates message then Err TransactionError.AccountLoadedTwice
  else if tx_account_lock_limit <? vec_len (AccountKeys_iter (Sanitized.account_keys message))
  then Err TransactionError.TooManyAccountLocks
  else Ok tt.

(** [for (i, key) in account_keys.iter().enumerate()] *)
Fixpoint split_account_locks (message : SanitizedMessage) (i : Z) (keys : list Pubkey) : TransactionAccountLocks :=
  match keys with
  | [] => mkTransactionAccountLocks [] []
  | key :: keys =>
      let locks := split_account_locks message (i + 1) keys in
      if Sanitized.is_writable message i
      then mkTransactionAccountLocks (tal_readonly locks) (key :: tal_writable locks)
      else mkTransactionAccountLocks (key :: tal_readonly locks) (tal_writable locks)
  end.

Definition get_account_locks_unchecked (self : SanitizedTransaction) : TransactionAccountLocks :=
  split_account_locks (st_message self) 0 (AccountKeys_iter (Sanitized.account_keys (st_message self))).

Definition get_account_locks (self : SanitizedTransaction) (tx_account_lock_limit : Z)
  : TxResult TransactionAccountLocks :=
  let! _unused := validate_account_locks (st_message self) tx_account_lock_limit in
  Ok (get_account_locks_unchecked self).

End transaction.

(** ** The table *)

Record AccountLocks := mkAccountLocks {
  write_locks : gset Pubkey;
  readonly_locks : gmap Pubkey Z;
}.

Definition AccountLocks_default : AccountLocks := mkAccountLocks ∅ ∅.

Definition with_write_locks x (l : AccountLocks) : AccountLocks := mkAccountLocks x (readonly_locks l).
Definition with_readonly_locks x (l : AccountLocks) : AccountLocks := mkAccountLocks (write_locks l) x.

Definition is_locked_readonly (key : Pubkey) (self : AccountLocks) : bool :=
  match readonly_locks self !! key with Some count => 0 <? count | None => false end.

Definition is_locked_write (key : Pubkey) (self : AccountLocks) : bool := bool_decide (key ∈ write_locks self).

Abbreviation LocksM := (M AccountLocks).

(** The count is inserted; there must not have been one. *)
Definition insert_new_readonly {E} (key : Pubkey) : LocksM E unit :=
  let? old := gets (fun self => readonly_locks self !! key) in
  modify (fun self => with_readonly_locks (<[key := 1]> (readonly_locks self)) self) ;?
  match old with None => ret tt | Some _ => panic end.

Definition lock_readonly {E} (key : Pubkey) : LocksM E bool :=
  let? found := gets (fun self => readonly_locks self !! key) in
  match found with
  | Some count =>
      modify (fun self => with_readonly_locks (<[key := wrapping U64 (count + 1)]> (readonly_locks self)) self) ;? ret true
  | None => ret false
  end.

(** The debug assertion of the other case is not in a release. *)
Definition unlock_readonly {E} (key : Pubkey) : LocksM E unit :=
  let? found := gets (fun self => readonly_locks self !! key) in
  match found with
  | Some count =>
      let count := wrapping U64 (count - 1) in
      modify (fun self => with_readonly_locks
        (if count =? 0 then delete key (readonly_locks self) else <[key := count]> (readonly_locks self)) self)
  | None => ret tt
  end.

Definition unlock_write {E} (key : Pubkey) : LocksM E unit :=
  modify (fun self => with_write_locks (write_locks self ∖ {[key]}) self).

(** [for k in keys { f(k) }] *)
Fixpoint for_keys {E} (f : Pubkey -> LocksM E unit) (keys : list Pubkey) : LocksM E unit :=
  match keys with
  | [] => ret tt
  | key :: keys => f key ;? for_keys f keys
  end.

Definition lock_account (writable_keys readonly_keys : list Pubkey) : LocksM TxError unit :=
  let? writable_in_use := gets (fun locks =>
         existsb (fun k => is_locked_write k locks || is_locked_readonly k locks) writable_keys) in
  if (writable_in_use : bool) then fail TransactionError.AccountInUse else
  let? readonly_in_use := gets (fun locks => existsb (fun k => is_locked_write k locks) readonly_keys) in
  if (readonly_in_use : bool) then fail TransactionError.AccountInUse else
  for_keys (fun k => modify (fun locks => with_write_locks ({[k]} ∪ write_locks locks) locks)) writable_keys ;?
  for_keys (fun k =>
    let? locked := lock_readonly k in
    if (locked : bool) then ret tt else insert_new_readonly k) readonly_keys.

Definition unlock_account {E} (writable_keys readonly_keys : list Pubkey) : LocksM E unit :=
  for_keys unlock_write writable_keys ;? for_keys unlock_readonly readonly_keys.

(** The error of a step, as a value; a panic stays one. *)
Definition result_of {A} (m : LocksM TxError A) : LocksM Empty_set (TxResult A) := fun locks =>
  match m locks with
  | (Ok a, locks') => (Ok (Ok a), locks')
  | (Err e, locks') => (Ok (Err e), locks')
  | (Panic, locks') => (Panic, locks')
  end.

Fixpoint lock_accounts_inner (tx_account_locks_results : list (TxResult TransactionAccountLocks))
  : LocksM Empty_set (list (TxResult unit)) :=
  match tx_account_locks_results with
  | [] => ret []
  | tx_account_locks_result :: rest =>
      let? result := match tx_account_locks_result with
                     | Ok locks => result_of (lock_account (tal_writable locks) (tal_readonly locks))
                     | Err err => ret (Err err)
                     | Panic => panic
                     end in
      let? results := lock_accounts_inner rest in
      ret (result :: results)
  end.

Section accounts.
Context `{!ProgramIds, !MessageIds}.

Definition lock_accounts (txs : list SanitizedTransaction) (tx_account_lock_limit : Z)
  : LocksM Empty_set (list (TxResult unit)) :=
  lock_accounts_inner ((fun tx => get_account_locks tx tx_account_lock_limit) <$> txs).

Definition lock_accounts_with_results (txs : list SanitizedTransaction) (results : list (TxResult unit))
    (tx_account_lock_limit : Z) : LocksM Empty_set (list (TxResult unit)) :=
  lock_accounts_inner
    (zip_with (fun tx (result : TxResult unit) =>
       let! _unused := result in get_account_locks tx tx_account_lock_limit) txs results).

Fixpoint unlock_each (keys : list TransactionAccountLocks) : LocksM Empty_set unit :=
  match keys with
  | [] => ret tt
  | locks :: keys => unlock_account (tal_writable locks) (tal_readonly locks) ;? unlock_each keys
  end.

(** Nothing is locked for a transaction whose result is an error. *)
Definition unlock_accounts (txs_and_results : list (SanitizedTransaction * TxResult unit)) : LocksM Empty_set unit :=
  unlock_each ((fun p => get_account_locks_unchecked (fst p)) <$> filter (fun p => is_ok (snd p) = true) txs_and_results).

(** ** Batches *)

Record TransactionBatch := mkTransactionBatch {
  lock_results : list (TxResult unit);
  sanitized_txs : list SanitizedTransaction;
  needs_unlock : bool;
}.

Definition TransactionBatch_new (lock_results : list (TxResult unit)) (sanitized_txs : list SanitizedTransaction)
  : Outcome Empty_set TransactionBatch :=
  if bool_decide (length lock_results = length sanitized_txs)
  then Ok (mkTransactionBatch lock_results sanitized_txs true) else Panic.

(** The transactions that are locked and failed since are unlocked. *)
Definition unlock_failures (self : TransactionBatch) (transaction_results : list (TxResult unit))
  : LocksM Empty_set TransactionBatch :=
  if negb (bool_decide (length (lock_results self) = length transaction_results)) then panic else
  if negb (needs_unlock self) then ret self else
  let rows := zip (zip (sanitized_txs self) (lock_results self)) transaction_results in
  if existsb (fun '(_, lock_result, result) => is_ok result && negb (is_ok lock_result)) rows then panic else
  unlock_accounts (fst <$> filter (fun '(_, lock_result, result) => negb (is_ok result) && is_ok lock_result = true) rows) ;?
  ret (mkTransactionBatch transaction_results (sanitized_txs self) (needs_unlock self)).

Definition drop_batch (self : TransactionBatch) : LocksM Empty_set unit :=
  if needs_unlock self then unlock_accounts (zip (sanitized_txs self) (lock_results self)) else ret tt.

Definition prepare_sanitized_batch (txs : list SanitizedTransaction) (tx_account_lock_limit : Z)
  : LocksM Empty_set TransactionBatch :=
  let? lock_results := lock_accounts txs tx_account_lock_limit in
  lift (TransactionBatch_new lock_results txs).

Definition prepare_sanitized_batch_with_results (transactions : list SanitizedTransaction)
    (transaction_results : list (TxResult unit)) (tx_account_lock_limit : Z) : LocksM Empty_set TransactionBatch :=
  let? lock_results := lock_accounts_with_results transactions transaction_results tx_account_lock_limit in
  lift (TransactionBatch_new lock_results transactions).

Definition prepare_unlocked_batch_from_single_tx (transaction : SanitizedTransaction) (tx_account_lock_limit : Z)
  : LocksM Empty_set TransactionBatch :=
  let lock_result := let! _unused := get_account_locks transaction tx_account_lock_limit in Ok tt in
  let? batch := lift (TransactionBatch_new [lock_result] [transaction]) in
  ret (mkTransactionBatch (lock_results batch) (sanitized_txs batch) false).

(** ** Batches of a replay (ledger/src/blockstore_processor.rs) *)

(** [&v[start..=end]] *)
Definition slice_inclusive {A} (v : list A) (start end_ : Z) : Outcome Empty_set (list A) :=
  if (end_ <? vec_len v) && (start <=? end_ + 1)
  then Ok (take (Z.to_nat (end_ + 1 - start)) (drop (Z.to_nat start) v)) else Panic.

(** Transactions that other batches have locked, in a batch that does not unlock them. *)
Definition rebatch_transactions (all_results : list (TxResult unit)) (all_txs : list SanitizedTransaction)
    (start end_ : Z) (transaction_indexes : list Z) : Outcome Empty_set (TransactionBatch * list Z) :=
  let! txs := slice_inclusive all_txs start end_ in
  let! results := slice_inclusive all_results start end_ in
  let! tx_batch := TransactionBatch_new results txs in
  let tx_batch := mkTransactionBatch (lock_results tx_batch) (sanitized_txs tx_batch) false in
  let! transaction_indexes := slice_inclusive transaction_indexes start end_ in
  Ok (tx_batch, transaction_indexes).

End accounts.
