(* ===== verification/LockRules.v ===== *)
(** * Locks keep transactions apart

    The table of account locks refines the collection of the lock sets that are
    held: a transaction is locked exactly if it conflicts with none of them.
    Over all interleavings of batches that are prepared, shed failed transactions
    and are dropped, no two transactions that hold locks conflict, and no lock
    outlives its batch. *)

From S2P Require Import Prelude Errors Rent Account BTreeMap Pubkey Sysvars TransactionContext Message MessageRules MessageProcessor AccountLocks.

Abbreviation Locks := TransactionAccountLocks.

(** ** Conflicts *)

(** Neither writes what the other locks. *)
Definition apart (h h' : Locks) : Prop :=
  (forall k, k ∈ tal_writable h -> ~ (k ∈ tal_writable h' \/ k ∈ tal_readonly h')) /\
  (forall k, k ∈ tal_readonly h -> ~ (k ∈ tal_writable h')).

Lemma apart_sym h h' : apart h h' -> apart h' h.
Proof. unfold apart. intros [Hw Hr]. split; naive_solver. Qed.

(** The keys of a transaction are different. *)
Record locks_wf (h : Locks) : Prop := {
  lw_readonly : NoDup (tal_readonly h);
  lw_apart : forall k, k ∈ tal_writable h -> k ∉ tal_readonly h;
}.

Fixpoint pairwise (hs : list Locks) : Prop :=
  match hs with
  | [] => True
  | h :: hs => Forall (apart h) hs /\ pairwise hs
  end.

#[global] Instance pairwise_proper : Proper (Permutation ==> iff) pairwise.
Proof.
  intros hs hs' Hp. induction Hp as [|h hs hs' Hp IH|h h' hs|]; simpl; [done|..].
  - by rewrite IH, Hp.
  - rewrite !list.Forall_cons. split; intros ([Ha Hf] & Hf' & Hpw); split_and!; try done; by apply apart_sym.
  - by etransitivity.
Qed.

(** How many of the lock sets read [k]. *)
Definition readers (k : Pubkey) (hs : list Locks) : Z := vec_len (filter (fun h => k ∈ tal_readonly h) hs).

#[global] Instance readers_proper k : Proper (Permutation ==> eq) (readers k).
Proof. intros hs hs' Hp. unfold readers, vec_len. by rewrite Hp. Qed.

Lemma readers_cons k h hs :
  readers k (h :: hs) = if bool_decide (k ∈ tal_readonly h) then readers k hs + 1 else readers k hs.
Proof.
  unfold readers, vec_len. rewrite filter_cons. case_decide; case_bool_decide; try done. simpl. lia.
Qed.

Lemma readers_range k hs : 0 <= readers k hs <= vec_len hs.
Proof. unfold readers, vec_len. pose proof (length_filter (fun h => k ∈ tal_readonly h) hs). lia. Qed.

Lemma readers_pos k hs : 0 < readers k hs <-> exists h, h ∈ hs /\ k ∈ tal_readonly h.
Proof.
  unfold readers, vec_len. split.
  - intros H. destruct (filter _ hs) as [|h l] eqn:Hf; [simpl in H; lia|].
    assert (h ∈ filter (fun h => k ∈ tal_readonly h) hs) as Hh by (rewrite Hf; set_solver).
    apply list_elem_of_filter in Hh as [? ?]. by exists h.
  - intros (h & Hh & Hk). assert (h ∈ filter (fun h => k ∈ tal_readonly h) hs) as Hin by (by apply list_elem_of_filter).
    destruct (filter _ hs); [by apply elem_of_nil in Hin|simpl; lia].
Qed.

(** ** The table refines the lock sets *)

Record holds (L : AccountLocks) (hs : list Locks) : Prop := {
  ho_write k : k ∈ write_locks L <-> exists h, h ∈ hs /\ k ∈ tal_writable h;
  ho_read k : readonly_locks L !! k = if 0 <? readers k hs then Some (readers k hs) else None;
  ho_wf : Forall locks_wf hs;
  ho_apart : pairwise hs;
}.

#[global] Instance holds_proper L : Proper (Permutation ==> iff) (holds L).
Proof.
  assert (forall hs hs', hs ≡ₚ hs' -> holds L hs -> holds L hs') as Himp.
  { intros hs hs' Hp [Hw Hr Hf Ha]. split.
    - intros k. rewrite Hw. split; intros (h & Hh & Hk); exists h; [by rewrite <- Hp|by rewrite Hp].
    - intros k. by rewrite Hr, (readers_proper k _ _ Hp).
    - by rewrite <- Hp.
    - by rewrite <- Hp. }
  intros hs hs' Hp. by split; apply Himp.
Qed.

Lemma holds_empty L : holds L [] -> L = AccountLocks_default.
Proof.
  intros [Hw Hr _ _]. destruct L as [w r]. unfold AccountLocks_default. f_equal; simpl in *.
  - apply set_eq. intros k. rewrite Hw. set_solver.
  - apply map_eq. intros k. by rewrite Hr, lookup_empty.
Qed.

Lemma default_holds : holds AccountLocks_default [].
Proof. split; simpl; [set_solver|by intros k; rewrite lookup_empty|constructor|done]. Qed.

(** The tests of [lock_account]. *)
Lemma in_use_spec L hs h :
  holds L hs ->
  existsb (fun k => is_locked_write k L || is_locked_readonly k L) (tal_writable h) ||
    existsb (fun k => is_locked_write k L) (tal_readonly h) = false <-> Forall (apart h) hs.
Proof.
  intros [Hw Hr _ _]. rewrite orb_false_iff, list.Forall_forall.
  assert (forall k, is_locked_readonly k L = true <-> exists h', h' ∈ hs /\ k ∈ tal_readonly h') as Hrd.
  { intros k. rewrite <- readers_pos. unfold is_locked_readonly. rewrite Hr.
    destruct (Z.ltb_spec 0 (readers k hs)); [by rewrite Z.ltb_lt|]. split; [done|lia]. }
  assert (forall k, is_locked_write k L = true <-> exists h', h' ∈ hs /\ k ∈ tal_writable h') as Hwr.
  { intros k. unfold is_locked_write. by rewrite bool_decide_eq_true. }
  rewrite <- !not_true_iff_false, !existsb_exists. split.
  - intros [H1 H2] h' Hh'. split.
    + intros k Hk Hk'. apply H1. exists k. split; [by apply list_elem_of_In|]. apply orb_true_iff.
      destruct Hk' as [Hk'|Hk']; [left; apply Hwr|right; apply Hrd]; eauto.
    + intros k Hk Hk'. apply H2. exists k. split; [by apply list_elem_of_In|]. apply Hwr. eauto.
  - intros H. split.
    + intros (k & Hk%list_elem_of_In & [(h' & Hh' & Hk')%Hwr|(h' & Hh' & Hk')%Hrd]%orb_true_iff);
        apply (proj1 (H h' Hh') k Hk); auto.
    + intros (k & Hk%list_elem_of_In & (h' & Hh' & Hk')%Hwr). by apply (proj2 (H h' Hh') k Hk).
Qed.

(** ** Locking and unlocking *)

Lemma lock_writes_run {E} keys L :
  @for_keys E (fun k => modify (fun locks => with_write_locks ({[k]} ∪ write_locks locks) locks)) keys L =
    (Ok tt, with_write_locks (list_to_set keys ∪ write_locks L) L).
Proof.
  revert L. induction keys as [|k keys IH]; intros L; cbn [for_keys].
  - unfold ret, with_write_locks. destruct L. simpl. by rewrite union_empty_l_L.
  - unfold bind, modify. rewrite IH. unfold with_write_locks. simpl.
    by replace (list_to_set keys ∪ ({[k]} ∪ write_locks L)) with ({[k]} ∪ list_to_set keys ∪ write_locks L) by set_solver.
Qed.

Lemma unlock_writes_run {E} keys L :
  @for_keys E unlock_write keys L = (Ok tt, with_write_locks (write_locks L ∖ list_to_set keys) L).
Proof.
  revert L. induction keys as [|k keys IH]; intros L; cbn [for_keys].
  - unfold ret, with_write_locks. destruct L. simpl. by rewrite difference_empty_L.
  - unfold bind, unlock_write, modify. rewrite IH. unfold with_write_locks. simpl.
    by replace (write_locks L ∖ {[k]} ∖ list_to_set keys) with (write_locks L ∖ ({[k]} ∪ list_to_set keys)) by set_solver.
Qed.

(** One step of a loop over read keys: the entry of [k] becomes [f] of it. *)
Lemma read_loop_run {E} (m : Pubkey -> LocksM E unit) (f : option Z -> option Z) keys L :
  NoDup keys ->
  (forall k L', k ∈ keys -> readonly_locks L' !! k = readonly_locks L !! k ->
     m k L' = (Ok tt, with_readonly_locks (partial_alter f k (readonly_locks L')) L')) ->
  exists r, for_keys m keys L = (Ok tt, with_readonly_locks r L) /\
    forall k, r !! k = if bool_decide (k ∈ keys) then f (readonly_locks L !! k) else readonly_locks L !! k.
Proof.
  revert L. induction keys as [|k keys IH]; intros L Hn Hm; cbn [for_keys].
  - exists (readonly_locks L). split; [by destruct L|]. intros k. by rewrite bool_decide_false by set_solver.
  - apply list.NoDup_cons in Hn as [Hk Hn].
    set (L1 := with_readonly_locks (partial_alter f k (readonly_locks L)) L).
    assert (forall k', k' ∈ keys -> readonly_locks L1 !! k' = readonly_locks L !! k') as Hsame.
    { intros k' Hk'. simpl. apply lookup_partial_alter_ne. by intros ->. }
    destruct (IH L1) as (r & Hr & Hl); [done| |].
    { intros k' L' Hk' HL'. apply Hm; [set_solver|]. by rewrite HL', Hsame. }
    exists r. unfold bind. rewrite Hm by set_solver. fold L1. split; [by rewrite Hr|]. intros k'. rewrite Hl.
    destruct (decide (k' = k)) as [->|Hne].
    + rewrite bool_decide_false, bool_decide_true by set_solver. simpl. apply lookup_partial_alter_eq.
    + replace (readonly_locks L1 !! k') with (readonly_locks L !! k')
        by (simpl; symmetry; by apply lookup_partial_alter_ne).
      rewrite (bool_decide_ext (k' ∈ k :: keys) (k' ∈ keys)); [done|set_solver].
Qed.

Lemma lock_read_run {E} k L :
  (forall c, readonly_locks L !! k = Some c -> 0 <= c < int_max U64) ->
  (let? locked := @lock_readonly E k in if (locked : bool) then ret tt else insert_new_readonly k) L =
    (Ok tt, with_readonly_locks (partial_alter (fun o => Some (default 0 o + 1)) k (readonly_locks L)) L).
Proof.
  intros Hc. unfold lock_readonly, insert_new_readonly, bind, gets, modify, ret.
  assert (forall x, x = default 0 (readonly_locks L !! k) + 1 ->
    with_readonly_locks (<[k := x]> (readonly_locks L)) L =
    with_readonly_locks (partial_alter (fun o => Some (default 0 o + 1)) k (readonly_locks L)) L) as Hset.
  { intros x ->. unfold with_readonly_locks. f_equal. apply map_eq. intros k'.
    destruct (decide (k' = k)) as [->|Hne];
      [by rewrite lookup_insert_eq, lookup_partial_alter_eq|by rewrite lookup_insert_ne, lookup_partial_alter_ne]. }
  destruct (readonly_locks L !! k) as [c|] eqn:Hk.
  - rewrite Hset; [done|]. rewrite wrapping_small; [done|]. specialize (Hc _ eq_refl). unfold in_range. simpl in *. lia.
  - rewrite Hk. by rewrite Hset.
Qed.

(** The count without one reader; at zero the entry goes. *)
Definition one_less (o : option Z) : option Z :=
  c ← o; if c - 1 =? 0 then None else Some (c - 1).

Lemma unlock_read_run {E} k L c :
  readonly_locks L !! k = Some c -> 0 < c <= int_max U64 ->
  @unlock_readonly E k L = (Ok tt, with_readonly_locks (partial_alter one_less k (readonly_locks L)) L).
Proof.
  intros Hk Hc. unfold unlock_readonly, bind, gets, modify. rewrite Hk.
  rewrite wrapping_small by (unfold in_range; simpl in *; lia).
  do 2 f_equal. unfold with_readonly_locks. f_equal. apply map_eq. intros k'.
  destruct (decide (k' = k)) as [->|Hne].
  - rewrite lookup_partial_alter_eq, Hk. simpl. destruct (c - 1 =? 0); [apply lookup_delete_eq|apply lookup_insert_eq].
  - rewrite lookup_partial_alter_ne by done.
    destruct (c - 1 =? 0); [by apply lookup_delete_ne|by apply lookup_insert_ne].
Qed.

Lemma holds_count L hs k : holds L hs -> default 0 (readonly_locks L !! k) = readers k hs.
Proof.
  intros H. rewrite (ho_read _ _ H). pose proof (readers_range k hs).
  destruct (Z.ltb_spec 0 (readers k hs)); simpl; lia.
Qed.

(** A lock set is added exactly if it is apart from those that are held. *)
Lemma lock_account_run L hs h :
  holds L hs -> locks_wf h -> vec_len hs < int_max U64 ->
  (Forall (apart h) hs /\ exists L', lock_account (tal_writable h) (tal_readonly h) L = (Ok tt, L') /\ holds L' (h :: hs)) \/
  (~ Forall (apart h) hs /\
     lock_account (tal_writable h) (tal_readonly h) L = (Err TransactionError.AccountInUse, L)).
Proof.
  intros H Hwf Hlen. pose proof (in_use_spec L hs h H) as Huse. unfold lock_account, bind, gets.
  destruct (existsb _ (tal_writable h)) eqn:H1; [right; split; [by rewrite <- Huse|done]|].
  destruct (existsb _ (tal_readonly h)) eqn:H2; [right; split; [by rewrite <- Huse|done]|].
  left. rewrite <- Huse. split; [done|]. rewrite lock_writes_run.
  set (L1 := with_write_locks _ L).
  destruct (read_loop_run (E:=TxError) (fun k => let? locked := lock_readonly k in
      if (locked : bool) then ret tt else insert_new_readonly k)
    (fun o => Some (default 0 o + 1)) (tal_readonly h) L1) as (r & Hr & Hl); [apply Hwf| |].
  { intros k L' _ Hk. apply lock_read_run. intros c Hc. rewrite Hk in Hc.
    pose proof (holds_count L hs k H) as Hn. change (readonly_locks L1) with (readonly_locks L) in Hc.
    rewrite Hc in Hn. simpl in Hn. subst c. pose proof (readers_range k hs). lia. }
  eexists. split; [exact Hr|]. split.
  - intros k. simpl. rewrite elem_of_union, elem_of_list_to_set, (ho_write _ _ H). set_solver.
  - intros k. simpl. rewrite Hl, readers_cons. change (readonly_locks L1) with (readonly_locks L).
    case_bool_decide; [|apply H]. rewrite (holds_count _ _ _ H). pose proof (readers_range k hs).
    by destruct (Z.ltb_spec 0 (readers k hs + 1)); [|lia].
  - constructor; [done|apply H].
  - split; [by apply Huse|apply H].
Qed.

Lemma unlock_account_run {E} L hs h :
  holds L (h :: hs) -> vec_len (h :: hs) <= int_max U64 ->
  exists L', @unlock_account E (tal_writable h) (tal_readonly h) L = (Ok tt, L') /\ holds L' hs.
Proof.
  intros H Hlen. unfold unlock_account, bind. rewrite unlock_writes_run. set (L1 := with_write_locks _ L).
  destruct (ho_apart _ _ H) as [Hap Hpw]. rewrite list.Forall_forall in Hap.
  pose proof (ho_wf _ _ H) as [Hwf Hwfs]%list.Forall_cons.
  destruct (read_loop_run (E:=E) unlock_readonly one_less (tal_readonly h) L1) as (r & Hr & Hl); [apply Hwf| |].
  { intros k L' Hk HL'. apply unlock_read_run with (c := readers k (h :: hs)).
    - rewrite HL'. change (readonly_locks L1) with (readonly_locks L). rewrite (ho_read _ _ H).
      rewrite readers_cons, bool_decide_true by done. pose proof (readers_range k hs).
      by destruct (Z.ltb_spec 0 (readers k hs + 1)); [|lia].
    - rewrite readers_cons, bool_decide_true by done. pose proof (readers_range k hs).
      unfold vec_len in *. simpl in *. lia. }
  eexists. split; [exact Hr|]. split; [..|done|done].
  - intros k. simpl. rewrite elem_of_difference, elem_of_list_to_set, (ho_write _ _ H). split.
    + intros ((h' & [->|Hh']%elem_of_cons & Hk) & Hn); [done|by exists h'].
    + intros (h' & Hh' & Hk). split; [exists h'; set_solver|]. intros Hk'.
      apply (proj1 (Hap h' Hh') k Hk'). by left.
  - intros k. simpl. rewrite Hl. change (readonly_locks L1) with (readonly_locks L). rewrite (ho_read _ _ H), readers_cons.
    pose proof (readers_range k hs). case_bool_decide; [|done].
    destruct (Z.ltb_spec 0 (readers k hs + 1)); [|lia]. simpl. rewrite Z.add_simpl_r.
    destruct (Z.eqb_spec (readers k hs) 0), (Z.ltb_spec 0 (readers k hs)); (done || lia).
Qed.

(** ** Batches *)

Section batches.
Context {ids : ProgramIds} {mids : MessageIds}.

Abbreviation tx_locks := get_account_locks_unchecked.
Abbreviation Rows := (list (SanitizedTransaction * TxResult unit)).

Lemma split_account_locks_elem message i keys k :
  k ∈ tal_readonly (split_account_locks message i keys) \/ k ∈ tal_writable (split_account_locks message i keys) ->
  k ∈ keys.
Proof.
  revert i. induction keys as [|x keys IH]; intros i; simpl; [by intros [H|H]|].
  specialize (IH (i + 1)). destruct (Sanitized.is_writable message i); simpl; set_solver.
Qed.

Lemma split_account_locks_wf message i keys : NoDup keys -> locks_wf (split_account_locks message i keys).
Proof.
  intros Hn. revert i. induction Hn as [|x keys Hx Hn IH]; intros i; [split; simpl; [constructor|set_solver]|].
  specialize (IH (i + 1)) as [Hr Ha]. pose proof (split_account_locks_elem message (i + 1) keys x) as Hel. simpl.
  destruct (Sanitized.is_writable message i); split; simpl.
  - done.
  - intros k [->|Hk]%elem_of_cons; [|by apply Ha]. intros Hk. apply Hx, Hel. by left.
  - constructor; [|done]. intros Hk. apply Hx, Hel. by left.
  - intros k Hk [->|Hk']%elem_of_cons; [|by apply (Ha k)]. apply Hx, Hel. by right.
Qed.

(** What may be locked for [tx]. *)
Definition locks_for (tx : SanitizedTransaction) (r : TxResult Locks) : Prop :=
  match r with Ok h => h = tx_locks tx /\ locks_wf h | Err _ => True | Panic => False end.

Lemma get_account_locks_for tx limit : locks_for tx (get_account_locks tx limit).
Proof.
  unfold get_account_locks, validate_account_locks.
  destruct (Sanitized.has_duplicates (st_message tx)) eqn:Hd; [done|]. destruct (_ <? _); [done|]. simpl. split; [done|].
  apply split_account_locks_wf. by apply duplicates_are_found.
Qed.

(** The lock sets of the transactions whose result is not an error. *)
Definition held_rows (rows : Rows) : list Locks :=
  (fun p => tx_locks (fst p)) <$> filter (fun p => is_ok (snd p) = true) rows.

Lemma held_rows_cons p rows : held_rows (p :: rows) = held_rows [p] ++ held_rows rows.
Proof. unfold held_rows. rewrite !filter_cons. by case_decide. Qed.

Lemma held_rows_one tx r : held_rows [(tx, r)] = if is_ok r then [tx_locks tx] else [].
Proof. unfold held_rows. rewrite filter_cons. cbn [snd]. by destruct (is_ok r). Qed.

Lemma length_held_rows rows : vec_len (held_rows rows) <= vec_len rows.
Proof. unfold held_rows, vec_len. rewrite length_fmap. pose proof (length_filter (fun p => is_ok p.2 = true) rows). lia. Qed.

Lemma lock_inner_run txs rs L hs :
  Forall2 locks_for txs rs -> holds L hs -> vec_len hs + vec_len txs <= int_max U64 ->
  exists results L', lock_accounts_inner rs L = (Ok results, L') /\ length results = length txs /\
    holds L' (held_rows (zip txs results) ++ hs).
Proof.
  intros Hf. revert L hs. induction Hf as [|tx r txs rs Hr _ IH]; intros L hs Hh Hlen; [by exists [], L|].
  cbn [lock_accounts_inner].
  assert (exists x L1, match r with
      | Ok locks => result_of (lock_account (tal_writable locks) (tal_readonly locks))
      | Err err => ret (Err err) | Panic => panic end L = (Ok x, L1) /\
      holds L1 (held_rows [(tx, x)] ++ hs)) as (x & L1 & Hx & H1).
  { destruct r as [h|e|]; [|by exists (Err e), L|done]. destruct Hr as [-> Hwf].
    destruct (lock_account_run L hs (tx_locks tx) Hh Hwf) as [(_ & L1 & Hrun & H1)|[_ Hrun]].
    - unfold vec_len in *. simpl in *. lia.
    - exists (Ok tt), L1. unfold result_of. by rewrite Hrun.
    - exists (Err TransactionError.AccountInUse), L. unfold result_of. by rewrite Hrun. }
  destruct (IH L1 (held_rows [(tx, x)] ++ hs) H1) as (results & L' & Hrun & Hl & H').
  { rewrite vec_len_app. pose proof (length_held_rows [(tx, x)]). unfold vec_len in *. simpl in *. lia. }
  exists (x :: results), L'. unfold bind. rewrite Hx, Hrun. split_and!; [done|by simpl; f_equal|].
  cbn [zip zip_with]. rewrite held_rows_cons, (Permutation_app_comm (held_rows [_])). by rewrite <- app_assoc.
Qed.

Lemma unlock_each_run ks L hs :
  holds L (ks ++ hs) -> vec_len (ks ++ hs) <= int_max U64 ->
  exists L', unlock_each ks L = (Ok tt, L') /\ holds L' hs.
Proof.
  revert L. induction ks as [|h ks IH]; intros L Hh Hlen; [by exists L|]. cbn [unlock_each].
  destruct (unlock_account_run (E:=Empty_set) L (ks ++ hs) h Hh Hlen) as (L1 & H1 & Hh1).
  unfold bind. rewrite H1. apply IH; [done|]. unfold vec_len in *. simpl in *. lia.
Qed.

Lemma unlock_accounts_run rows L hs :
  holds L (held_rows rows ++ hs) -> vec_len (held_rows rows ++ hs) <= int_max U64 ->
  exists L', unlock_accounts rows L = (Ok tt, L') /\ holds L' hs.
Proof. apply unlock_each_run. Qed.

(** ** All interleavings *)

(** What a batch has locked. *)
Definition batch_held (b : TransactionBatch) : list Locks :=
  if needs_unlock b then held_rows (zip (sanitized_txs b) (lock_results b)) else [].

Definition locked (bs : list TransactionBatch) : list Locks := bs ≫= batch_held.

Definition in_flight (bs : list TransactionBatch) : Z := vec_len (bs ≫= sanitized_txs).

Definition same_length (b : TransactionBatch) : Prop := length (lock_results b) = length (sanitized_txs b).

Lemma in_flight_app bs bs' : in_flight (bs ++ bs') = in_flight bs + in_flight bs'.
Proof. unfold in_flight. by rewrite bind_app, vec_len_app. Qed.

Lemma in_flight_cons b bs : in_flight (b :: bs) = vec_len (sanitized_txs b) + in_flight bs.
Proof. unfold in_flight. by rewrite bind_cons, vec_len_app. Qed.

Lemma locked_length bs : Forall same_length bs -> vec_len (locked bs) <= in_flight bs.
Proof.
  induction 1 as [|b bs Hb _ IH]; [done|]. rewrite in_flight_cons. unfold locked in *. rewrite bind_cons, vec_len_app.
  enough (vec_len (batch_held b) <= vec_len (sanitized_txs b)) by lia. unfold batch_held.
  destruct (needs_unlock b); [|unfold vec_len; simpl; lia]. etransitivity; [apply length_held_rows|].
  unfold vec_len. rewrite length_zip_with. lia.
Qed.

(** The locks of a bank and the batches that live, under every operation on them.
    Fewer transactions are in flight than a counter can count. *)
Inductive sched_step : AccountLocks * list TransactionBatch -> AccountLocks * list TransactionBatch -> Prop :=
  | sched_prepare txs limit L L' bs b :
      in_flight bs + vec_len txs <= int_max U64 ->
      prepare_sanitized_batch txs limit L = (Ok b, L') -> sched_step (L, bs) (L', b :: bs)
  | sched_prepare_with_results txs results limit L L' bs b :
      in_flight bs + vec_len txs <= int_max U64 ->
      prepare_sanitized_batch_with_results txs results limit L = (Ok b, L') -> sched_step (L, bs) (L', b :: bs)
  | sched_prepare_unlocked tx limit L L' bs b :
      in_flight bs + 1 <= int_max U64 ->
      prepare_unlocked_batch_from_single_tx tx limit L = (Ok b, L') -> sched_step (L, bs) (L', b :: bs)
  | sched_rebatch lock_results txs start end_ indexes L bs b indexes' :
      in_flight bs + vec_len (sanitized_txs b) <= int_max U64 ->
      rebatch_transactions lock_results txs start end_ indexes = Ok (b, indexes') -> sched_step (L, bs) (L, b :: bs)
  | sched_unlock_failures results L L' bs b b' bs' :
      unlock_failures b results L = (Ok b', L') -> sched_step (L, bs ++ b :: bs') (L', bs ++ b' :: bs')
  | sched_drop L L' bs b bs' :
      drop_batch b L = (Ok tt, L') -> sched_step (L, bs ++ b :: bs') (L', bs ++ bs').

Record sched_ok (s : AccountLocks * list TransactionBatch) : Prop := {
  so_holds : holds (fst s) (locked (snd s));
  so_length : Forall same_length (snd s);
  so_flight : in_flight (snd s) <= int_max U64;
}.

(** A batch that locked its transactions by [lock_accounts_inner]. *)
Lemma prepare_run txs rs L bs :
  sched_ok (L, bs) -> in_flight bs + vec_len txs <= int_max U64 -> Forall2 locks_for txs rs ->
  exists results L', lock_accounts_inner rs L = (Ok results, L') /\
    TransactionBatch_new results txs = Ok (mkTransactionBatch results txs true) /\
    sched_ok (L', mkTransactionBatch results txs true :: bs).
Proof.
  intros [Hh Hl Hf] Hlen Hrs. simpl in *. pose proof (locked_length bs Hl) as Hb.
  destruct (lock_inner_run txs rs L (locked bs) Hrs Hh) as (results & L' & Hrun & Hlr & Hh'); [simpl in *; lia|].
  exists results, L'. split_and!; [done| |].
  - unfold TransactionBatch_new. by rewrite bool_decide_true.
  - split; simpl; [done|by constructor|]. rewrite in_flight_cons. simpl. lia.
Qed.

Lemma get_account_locks_all txs limit :
  Forall2 locks_for txs ((fun tx => get_account_locks tx limit) <$> txs).
Proof. induction txs as [|tx txs IH]; constructor; [apply get_account_locks_for|done]. Qed.

(** The results that were given may say that a transaction is not to be locked. *)
Lemma get_account_locks_with txs results limit :
  let rs := zip_with (fun tx (r : TxResult unit) => let! _unused := r in get_account_locks tx limit) txs results in
  length rs = length txs -> Forall (fun r => r <> Panic) rs -> Forall2 locks_for txs rs.
Proof.
  simpl. revert results. induction txs as [|tx txs IH]; intros [|r results] Hl Hf; try done.
  simpl in *. apply list.Forall_cons in Hf as [Hr Hf]. constructor; [|apply IH; [lia|done]].
  destruct r; [apply get_account_locks_for|done|done].
Qed.

Lemma lock_inner_inv rs L results L' :
  lock_accounts_inner rs L = (Ok results, L') -> length results = length rs /\ Forall (fun r => r <> Panic) rs.
Proof.
  revert L results L'. induction rs as [|r rs IH]; intros L results L' Hrun; cbn [lock_accounts_inner] in Hrun.
  { by apply ret_ok_inv in Hrun as [-> _]. }
  apply bind_ok_inv in Hrun as (x & L1 & Hx & Hrun). apply bind_ok_inv in Hrun as (xs & L2 & Hxs & Hrun).
  apply ret_ok_inv in Hrun as [-> _]. apply IH in Hxs as [Hl Hf]. split; [by simpl; f_equal|].
  constructor; [|done]. by destruct r.
Qed.

(** The lock sets of a batch, those of the failed transactions first. *)
Lemma failures_split (txs : list SanitizedTransaction) (lrs rs : list (TxResult unit)) :
  length lrs = length txs -> length lrs = length rs ->
  existsb (fun '(_, lock_result, result) => is_ok result && negb (is_ok lock_result)) (zip (zip txs lrs) rs) = false ->
  held_rows (zip txs lrs) ≡ₚ
    held_rows (fst <$> filter (fun '(_, lock_result, result) => negb (is_ok result) && is_ok lock_result = true)
                 (zip (zip txs lrs) rs)) ++ held_rows (zip txs rs).
Proof.
  revert lrs rs. induction txs as [|tx txs IH]; intros [|lr lrs] [|r rs] Hl Hl'; try done.
  cbn [zip zip_with existsb]. intros [He Hes]%orb_false_iff.
  specialize (IH lrs rs ltac:(simpl in *; lia) ltac:(simpl in *; lia) Hes).
  rewrite filter_cons. case_decide as Hd; rewrite (held_rows_cons (tx, lr)), (held_rows_cons (tx, r)), IH, !held_rows_one.
  - apply andb_true_iff in Hd as [Hr Hlr]. rewrite fmap_cons. cbn [fst]. rewrite held_rows_cons, held_rows_one, Hlr.
    apply negb_true_iff in Hr. by rewrite Hr.
  - destruct (is_ok lr) eqn:Hlr, (is_ok r) eqn:Hr; simpl in *; [apply Permutation_middle|congruence|congruence|reflexivity].
Qed.

Lemma locked_middle bs b bs' : locked (bs ++ b :: bs') ≡ₚ batch_held b ++ locked (bs ++ bs').
Proof. unfold locked. by rewrite !bind_app, bind_cons, Permutation_app_swap_app. Qed.

Lemma sched_ok_middle L bs b bs' :
  sched_ok (L, bs ++ b :: bs') ->
  same_length b /\ holds L (batch_held b ++ locked (bs ++ bs')) /\ vec_len (batch_held b ++ locked (bs ++ bs')) <= int_max U64.
Proof.
  intros [Hh Hl Hf]. cbn [fst snd] in *. pose proof (locked_length _ Hl) as Hlen.
  assert (vec_len (batch_held b ++ locked (bs ++ bs')) = vec_len (locked (bs ++ b :: bs'))) as Hv
    by (unfold vec_len; by rewrite (Permutation_length (locked_middle bs b bs'))).
  rewrite locked_middle in Hh. split_and!; [|done|lia].
  apply Forall_app in Hl as [_ Hl]. by apply list.Forall_cons in Hl as [? _].
Qed.

(** A batch that lives can be dropped. *)
Lemma drop_run L bs b bs' :
  sched_ok (L, bs ++ b :: bs') -> exists L', drop_batch b L = (Ok tt, L') /\ sched_ok (L', bs ++ bs').
Proof.
  intros Hok. destruct (sched_ok_middle _ _ _ _ Hok) as (Hb & Hh & Hlen). destruct Hok as [_ Hl Hf]. cbn [fst snd] in *.
  assert (exists L', drop_batch b L = (Ok tt, L') /\ holds L' (locked (bs ++ bs'))) as (L' & Hrun & Hh').
  { unfold drop_batch. unfold batch_held in *. destruct (needs_unlock b); [by apply unlock_accounts_run|by exists L]. }
  exists L'. split; [done|]. rewrite in_flight_app, in_flight_cons in Hf.
  rewrite !list.Forall_app, list.Forall_cons in Hl. split; cbn [fst snd]; [done|..].
  - apply list.Forall_app. tauto.
  - rewrite in_flight_app. unfold vec_len in *. lia.
Qed.

Lemma unlock_failures_run L bs b bs' results b' L' :
  sched_ok (L, bs ++ b :: bs') -> unlock_failures b results L = (Ok b', L') -> sched_ok (L', bs ++ b' :: bs').
Proof.
  intros Hok Hrun. destruct (sched_ok_middle _ _ _ _ Hok) as (Hb & Hh & Hlen). revert Hrun. unfold unlock_failures.
  case_bool_decide as Hlr; [|done]. cbn [negb]. destruct (needs_unlock b) eqn:Hn; [|by intros [-> ->]%ret_ok_inv].
  cbn [negb]. destruct (existsb _ _) eqn:He; [done|]. intros Hrun.
  pose proof (failures_split _ _ _ Hb Hlr He) as Hsplit. unfold batch_held in Hh, Hlen. rewrite Hn in Hh, Hlen.
  set (failed := fst <$> _) in *.
  assert (vec_len (held_rows failed ++ held_rows (zip (sanitized_txs b) results) ++ locked (bs ++ bs')) <= int_max U64) as Hlen'.
  { etransitivity; [|exact Hlen]. unfold vec_len. by rewrite (Permutation_length (Permutation_app_tail _ Hsplit)), <- app_assoc. }
  rewrite Hsplit, <- app_assoc in Hh. destruct (unlock_accounts_run _ _ _ Hh Hlen') as (L1 & H1 & Hh1).
  unfold bind in Hrun. rewrite H1 in Hrun. apply ret_ok_inv in Hrun as [-> ->].
  destruct Hok as [_ Hl Hf]. cbn [fst snd] in *. rewrite !list.Forall_app, list.Forall_cons in Hl.
  rewrite in_flight_app, in_flight_cons in Hf. split; cbn [fst snd].
  - rewrite locked_middle. unfold batch_held. by cbn [needs_unlock sanitized_txs lock_results].
  - rewrite !list.Forall_app, list.Forall_cons. split_and!; try tauto. unfold same_length in *. simpl. congruence.
  - by rewrite in_flight_app, in_flight_cons.
Qed.

Lemma unlocked_ok L bs tx limit L' b :
  sched_ok (L, bs) -> in_flight bs + 1 <= int_max U64 ->
  prepare_unlocked_batch_from_single_tx tx limit L = (Ok b, L') -> sched_ok (L', b :: bs).
Proof.
  intros [Hh Hl Hf] Hlen [= <- <-]. cbn [fst snd] in *. split; cbn [fst snd]; [done|by constructor|].
  rewrite in_flight_cons. unfold vec_len at 1. simpl in *. lia.
Qed.

Lemma rebatch_ok L bs lock_results txs start end_ indexes b indexes' :
  sched_ok (L, bs) -> in_flight bs + vec_len (sanitized_txs b) <= int_max U64 ->
  rebatch_transactions lock_results txs start end_ indexes = Ok (b, indexes') -> sched_ok (L, b :: bs).
Proof.
  intros [Hh Hl Hf] Hlen Hb. cbn [fst snd] in *. revert Hb. unfold rebatch_transactions, TransactionBatch_new.
  destruct (slice_inclusive txs start end_) as [ts|?|]; try done.
  destruct (slice_inclusive lock_results start end_) as [rs|?|]; try done. simpl.
  case_bool_decide as Hrs; [|done]. destruct (slice_inclusive indexes start end_); try done. intros [= <- <-].
  split; cbn [fst snd]; [done|by constructor|]. rewrite in_flight_cons. simpl in *. lia.
Qed.

Lemma sched_step_ok s s' : sched_step s s' -> sched_ok s -> sched_ok s'.
Proof.
  intros [txs limit L L' bs b Hlen Hrun|txs results limit L L' bs b Hlen Hrun|tx limit L L' bs b Hlen Hrun
         |rs txs st en ixs L bs b ixs' Hlen Hrun|results L L' bs b b' bs' Hrun|L L' bs b bs' Hrun] Hok.
  - destruct (prepare_run txs _ L bs Hok Hlen (get_account_locks_all txs limit)) as (rs & L1 & H1 & H2 & H3).
    unfold prepare_sanitized_batch, lock_accounts, bind, lift in Hrun. rewrite H1, H2 in Hrun. by simplify_eq.
  - unfold prepare_sanitized_batch_with_results, lock_accounts_with_results in Hrun.
    apply bind_ok_inv in Hrun as (rs & L1 & H1 & Hrun). destruct (lock_inner_inv _ _ _ _ H1) as [Hl Hf].
    unfold lift, TransactionBatch_new in Hrun. case_bool_decide as Hrs; [|done]. simplify_eq.
    destruct (prepare_run txs _ L bs Hok Hlen (get_account_locks_with txs results limit ltac:(congruence) Hf))
      as (rs' & L1 & H1' & _ & H3). rewrite H1 in H1'. by simplify_eq.
  - by eapply unlocked_ok.
  - by eapply rebatch_ok.
  - by eapply unlock_failures_run.
  - destruct (drop_run L bs b bs' Hok) as (L1 & H1 & H2). rewrite Hrun in H1. by simplify_eq.
Qed.

Lemma scheds_ok s : rtc sched_step (AccountLocks_default, []) s -> sched_ok s.
Proof.
  intros Hr. apply rtc_ind_r with (P := sched_ok) in Hr; [done| |].
  - split; [apply default_holds|constructor|done].
  - intros y z _ Hyz Hy. by eapply sched_step_ok.
Qed.

Lemma pairwise_lookup hs i j h h' : pairwise hs -> i <> j -> hs !! i = Some h -> hs !! j = Some h' -> apart h h'.
Proof.
  revert i j. induction hs as [|x hs IH]; intros i j Hp Hne Hi Hj; [done|]. destruct Hp as [Hx Hp].
  destruct i as [|i], j as [|j]; simpl in *; simplify_eq.
  - by eapply list.Forall_lookup_1.
  - apply apart_sym. by eapply list.Forall_lookup_1.
  - by eapply (IH i j); [|congruence|..].
Qed.

(** C4: Over every interleaving of batches that are prepared (locked afresh, locked with earlier results, or not locked
    for a simulation), that are cut anew for a replay, that unlock their failed transactions and that are dropped, no two transactions that hold locks
    conflict, in one batch or across batches: neither writes an account the other writes or reads. Every batch that
    lives can be dropped without a panic, and once the last is dropped no lock is left. *)
Theorem batches_never_conflict L bs :
  rtc sched_step (AccountLocks_default, []) (L, bs) ->
  (forall i j h h', i <> j -> locked bs !! i = Some h -> locked bs !! j = Some h' -> apart h h') /\
  (forall bs1 b bs2, bs = bs1 ++ b :: bs2 -> exists L', drop_batch b L = (Ok tt, L')) /\
  (bs = [] -> L = AccountLocks_default).
Proof.
  intros Hok%scheds_ok. split_and!.
  - intros i j h h'. apply pairwise_lookup, (ho_apart _ _ (so_holds _ Hok)).
  - intros bs1 b bs2 ->. destruct (drop_run L bs1 b bs2 Hok) as (L' & H & _). by exists L'.
  - intros ->. apply holds_empty, (so_holds _ Hok).
Qed.

(** C19: In every reachable state of the lock table a transaction is locked exactly if it conflicts with no transaction
    that holds locks; otherwise it is refused as [AccountInUse] and the table is as before. One with too many accounts
    or with a duplicate is refused for that reason, also without an effect. *)
Theorem locked_iff_apart L bs tx limit :
  rtc sched_step (AccountLocks_default, []) (L, bs) -> in_flight bs < int_max U64 ->
  match get_account_locks tx limit with
  | Ok h =>
      (Forall (apart h) (locked bs) /\ exists L', lock_accounts [tx] limit L = (Ok [Ok tt], L') /\ holds L' (h :: locked bs)) \/
      (~ Forall (apart h) (locked bs) /\ lock_accounts [tx] limit L = (Ok [Err TransactionError.AccountInUse], L))
  | Err e => lock_accounts [tx] limit L = (Ok [Err e], L)
  | Panic => False
  end.
Proof.
  intros Hok%scheds_ok Hf. pose proof (get_account_locks_for tx limit) as Hfor. unfold lock_accounts. cbn [fmap list_fmap].
  destruct (get_account_locks tx limit) as [h|e|] eqn:Hg; [|by cbn [lock_accounts_inner]; unfold bind, ret|done].
  destruct Hfor as [_ Hwf]. pose proof (locked_length bs (so_length _ Hok)) as Hlen.
  cbn [lock_accounts_inner]. unfold bind, result_of, ret.
  destruct (lock_account_run L (locked bs) h (so_holds _ Hok) Hwf ltac:(lia)) as [(Ha & L' & Hrun & Hh)|[Ha Hrun]];
    [left|right]; (split; [done|]); rewrite Hrun; [by exists L'|done].
Qed.

End batches.
