(* ===== verification/RollingBits.v ===== *)
(** * Sets of slots in a window (accounts-db/src/rolling_bit_field.rs, ancestors.rs)

    A set of slots is kept as bits at the slots modulo a width, with a set for
    the slots that fell out of the window. It refines a finite set as long as the
    window is not refilled after it ran empty; what happens then is shown by
    examples. The ancestors of a bank are such a set, made of a sorted list. *)

From stdpp Require sorting.
From S2P Require Import Prelude Account.

(** ** The bit field *)

(** [bits] are the positions that are set. *)
Record RollingBitField := mkRollingBitField {
  max_width : Z;
  rb_min : Z;
  max_exclusive : Z;
  bits : gset Z;
  count : Z;
  excess : gset Z;
}.

Definition with_min x (self : RollingBitField) : RollingBitField :=
  mkRollingBitField (max_width self) x (max_exclusive self) (bits self) (count self) (excess self).
Definition with_max_exclusive x (self : RollingBitField) : RollingBitField :=
  mkRollingBitField (max_width self) (rb_min self) x (bits self) (count self) (excess self).
Definition with_bits x (self : RollingBitField) : RollingBitField :=
  mkRollingBitField (max_width self) (rb_min self) (max_exclusive self) x (count self) (excess self).
Definition with_count x (self : RollingBitField) : RollingBitField :=
  mkRollingBitField (max_width self) (rb_min self) (max_exclusive self) (bits self) x (excess self).
Definition with_excess x (self : RollingBitField) : RollingBitField :=
  mkRollingBitField (max_width self) (rb_min self) (max_exclusive self) (bits self) (count self) x.

Abbreviation Total := (Outcome Empty_set).

(** The width must be a power of two. *)
Definition RollingBitField_new (width : Z) : Total RollingBitField :=
  if (0 <? width) && (Z.land width (width - 1) =? 0) then Ok (mkRollingBitField width 0 0 ∅ 0 ∅) else Panic.

Definition get_address (self : RollingBitField) (key : Z) : Z := key mod max_width self.

Definition all_items_in_excess (self : RollingBitField) : bool := Z.of_nat (size (excess self)) =? count self.

Definition contains_assume_in_range (self : RollingBitField) (key : Z) : bool :=
  bool_decide (get_address self key ∈ bits self).

Definition contains (self : RollingBitField) (key : Z) : bool :=
  if key <? max_exclusive self
  then if rb_min self <=? key then contains_assume_in_range self key else bool_decide (key ∈ excess self)
  else false.

(** [for key in start..max_exclusive]: the first key that is set. *)
Fixpoint first_set (self : RollingBitField) (start : Z) (n : nat) : option Z :=
  match n with
  | O => None
  | S n => if contains_assume_in_range self start then Some start else first_set self (start + 1) n
  end.

Definition purge (key : Z) (self : RollingBitField) : RollingBitField :=
  if (0 <? count self) && negb (all_items_in_excess self)
  then if key =? rb_min self
       then let start := wrapping U64 (rb_min self + 1) in
            with_min (default (rb_min self) (first_set self start (Z.to_nat (max_exclusive self - start)))) self
       else self
  else with_min (max_exclusive self) self.

(** The loop that makes room for [new_max]; the flag says that it moved the last
    item out of the bits. One item moves per round. *)
Fixpoint make_room (fuel : nat) (new_max : Z) (self : RollingBitField) : Total (RollingBitField * bool) :=
  if saturating_sub U64 new_max (rb_min self) <=? max_width self then Ok (self, false) else
  match fuel with
  | O => Panic
  | S fuel =>
      if bool_decide (rb_min self ∈ excess self) then Panic else
      let key := rb_min self in
      let self := with_excess ({[key]} ∪ excess self) self in
      let self := with_bits (bits self ∖ {[get_address self key]}) self in
      let self := purge key self in
      if all_items_in_excess self then Ok (self, true) else make_room fuel new_max self
  end.

Definition update_bits (bits_empty : bool) (key : Z) (self : RollingBitField) : Total RollingBitField :=
  let address := get_address self key in
  if bool_decide (address ∈ bits self) then Ok self else
  let self := with_bits ({[address]} ∪ bits self) self in
  let! self :=
    if bits_empty then Ok (with_max_exclusive (wrapping U64 (key + 1)) (with_min key self))
    else let self := with_min (Z.min (rb_min self) key) self in
         let self := with_max_exclusive (Z.max (max_exclusive self) (wrapping U64 (key + 1))) self in
         if max_exclusive self <=? wrapping U64 (rb_min self + max_width self) then Ok self else Panic in
  Ok (with_count (count self + 1) self).

Definition field_insert (key : Z) (self : RollingBitField) : Total RollingBitField :=
  let bits_empty := (count self =? 0) || all_items_in_excess self in
  if bits_empty then update_bits true key self
  else if key <? rb_min self
  then Ok (if bool_decide (key ∈ excess self) then self
           else with_count (count self + 1) (with_excess ({[key]} ∪ excess self) self))
  else if key <? max_exclusive self then update_bits false key self
  else let! moved := make_room (Z.to_nat (count self)) (wrapping U64 (key + 1)) self in
       let '(self, bits_empty) := moved : RollingBitField * bool in
       update_bits bits_empty key self.

(** Whether the key was there. *)
Definition field_remove (key : Z) (self : RollingBitField) : bool * RollingBitField :=
  if rb_min self <=? key
  then if key <? max_exclusive self
       then let address := get_address self key in
            if bool_decide (address ∈ bits self)
            then (true, purge key (with_bits (bits self ∖ {[address]}) (with_count (count self - 1) self)))
            else (false, self)
       else (false, self)
  else if bool_decide (key ∈ excess self)
  then (true, with_count (count self - 1) (with_excess (excess self ∖ {[key]}) self))
  else (false, self).

(** The excess comes in some order. *)
Definition get_all (self : RollingBitField) : list Z :=
  elements (excess self) ++
  filter (fun key => contains_assume_in_range self key = true)
    (seqZ (rb_min self) (max_exclusive self - rb_min self)).

Definition len (self : RollingBitField) : Z := count self.
Definition is_empty (self : RollingBitField) : bool := len self =? 0.
Definition max_inclusive (self : RollingBitField) : Z := saturating_sub U64 (max_exclusive self) 1.

Definition least (X : gset Z) : option Z :=
  match elements X with [] => None | x :: l => Some (foldr Z.min x l) end.

Definition field_min (self : RollingBitField) : option Z :=
  if is_empty self then None
  else if bool_decide (excess self = ∅) then Some (rb_min self)
  else let excess_min := least (excess self) in
       if all_items_in_excess self then excess_min
       else Some (Z.min (rb_min self) (default (int_max U64) excess_min)).

Definition get_all_less_than (self : RollingBitField) (max_slot_exclusive : Z) : list Z :=
  filter (fun slot => slot < max_slot_exclusive) (elements (excess self)) ++
  filter (fun key => contains_assume_in_range self key = true)
    (seqZ (rb_min self) (Z.min max_slot_exclusive (max_exclusive self) - rb_min self)).

(** The slots go down to [min]. *)
Fixpoint prior_from (fuel : nat) (min slot : Z) (self : RollingBitField) : Total (option Z) :=
  match fuel with
  | O => Panic
  | S fuel =>
      if contains self slot then Ok (Some slot) else
      let slot := saturating_sub U64 slot 1 in
      if (slot =? 0) || (slot <? min) then Ok None else prior_from fuel min slot self
  end.

Definition get_prior (self : RollingBitField) (max_slot_exclusive : Z) : Total (option Z) :=
  let slot := saturating_sub U64 max_slot_exclusive 1 in
  match field_min self with
  | Some min => prior_from (S (Z.to_nat slot)) min slot self
  | None => Ok None
  end.

(** ** Ancestors *)

Definition ANCESTORS_HASH_MAP_SIZE : Z := 8192.

Abbreviation Ancestors := RollingBitField.

Fixpoint insert_each (keys : list Z) (self : RollingBitField) : Total RollingBitField :=
  match keys with
  | [] => Ok self
  | key :: keys => let! self := field_insert key self in insert_each keys self
  end.

(** The slots are inserted in ascending order. *)
Definition Ancestors_from (source : list Slot) : Total Ancestors :=
  let! result := RollingBitField_new ANCESTORS_HASH_MAP_SIZE in
  insert_each (sorting.merge_sort Z.le source) result.

Definition contains_key (self : Ancestors) (slot : Slot) : bool := contains self slot.

Definition ancestors_keys (self : Ancestors) : list Slot := get_all self.

Definition ancestors_remove (slot : Slot) (self : Ancestors) : Ancestors := snd (field_remove slot self).
Definition ancestors_min_slot (self : Ancestors) : Slot := default 0 (field_min self).
Definition ancestors_max_slot (self : Ancestors) : Slot := saturating_sub U64 (max_exclusive self) 1.

(** ** The set it stands for *)

(** [E] is kept in the excess and [H] in the bits. *)
Record split (self : RollingBitField) (E H : gset Z) : Prop := {
  sp_width : 0 < max_width self;
  sp_range : 0 <= rb_min self <= max_exclusive self /\ max_exclusive self - rb_min self <= max_width self /\
             max_exclusive self + max_width self <= int_max U64;
  sp_bits a : a ∈ bits self <-> exists k, k ∈ H /\ a = k mod max_width self;
  sp_excess : excess self = E;
  sp_high k : k ∈ H -> rb_min self <= k < max_exclusive self;
  sp_low k : k ∈ E -> 0 <= k < max_exclusive self;
  sp_count : count self = Z.of_nat (size E) + Z.of_nat (size H);
}.

Record window (self : RollingBitField) (E H : gset Z) : Prop := {
  wi_split : split self E H;
  wi_low k : k ∈ E -> k < rb_min self;
  wi_min : H <> ∅ -> rb_min self ∈ H;
}.

Definition represents (self : RollingBitField) (S : gset Z) : Prop := exists E H, window self E H /\ S = E ∪ H.

(** The bits ran empty and the excess did not. *)
Definition stale (self : RollingBitField) : Prop := bits self = ∅ /\ excess self <> ∅.

Lemma mod_window w m k k' : 0 < w -> m <= k < m + w -> m <= k' < m + w -> k mod w = k' mod w -> k = k'.
Proof.
  intros Hw Hk Hk' Heq. pose proof (Z.div_mod k w ltac:(lia)) as H1. pose proof (Z.div_mod k' w ltac:(lia)) as H2.
  rewrite Heq in H1. assert (k / w = k' / w) by nia. congruence.
Qed.

Lemma in_bits self E H k :
  split self E H -> rb_min self <= k < rb_min self + max_width self ->
  get_address self k ∈ bits self <-> k ∈ H.
Proof.
  intros Hs Hk. destruct (sp_range _ _ _ Hs) as (? & ? & ?). unfold get_address. rewrite (sp_bits _ _ _ Hs). split.
  - intros (k' & Hk' & Heq). pose proof (sp_high _ _ _ Hs k' Hk').
    by rewrite (mod_window (max_width self) (rb_min self) k k') by (apply Hs || lia || done).
  - intros HH. by exists k.
Qed.

Lemma all_in_excess self E H : split self E H -> all_items_in_excess self = true <-> H = ∅.
Proof.
  intros Hs. unfold all_items_in_excess. rewrite Z.eqb_eq, (sp_excess _ _ _ Hs), (sp_count _ _ _ Hs).
  split; [|intros ->; rewrite size_empty; lia]. intros Heq. apply leibniz_equiv, size_empty_inv. lia.
Qed.

Lemma no_bits self E H : split self E H -> bits self = ∅ <-> H = ∅.
Proof.
  intros Hs. split.
  - intros Hb. apply set_eq. intros k. split; [|set_solver]. intros Hk.
    assert (k mod max_width self ∈ bits self) as Hin by (apply (sp_bits _ _ _ Hs); eauto). rewrite Hb in Hin. set_solver.
  - intros ->. apply set_eq. intros a. rewrite (sp_bits _ _ _ Hs). set_solver.
Qed.

Lemma rep_nonneg self S k : represents self S -> k ∈ S -> 0 <= k.
Proof.
  intros (E & H & [Hs Hl _] & ->) [HE|HH]%elem_of_union; destruct (sp_range _ _ _ Hs) as (? & ? & ?).
  - apply (sp_low _ _ _ Hs) in HE. lia.
  - apply (sp_high _ _ _ Hs) in HH. lia.
Qed.

Lemma rep_contains self S k : represents self S -> contains self k = bool_decide (k ∈ S).
Proof.
  intros (E & H & [Hs Hl _] & ->). unfold contains. destruct (sp_range _ _ _ Hs) as (? & ? & ?).
  pose proof (sp_high _ _ _ Hs k) as Hh. specialize (Hl k). pose proof (sp_low _ _ _ Hs k) as Hlo.
  destruct (Z.ltb_spec k (max_exclusive self)).
  - destruct (Z.leb_spec (rb_min self) k).
    + unfold contains_assume_in_range. apply bool_decide_ext. rewrite (in_bits _ E H k) by (done || lia).
      rewrite elem_of_union. split; [by right|]. intros [HE|HH]; [|done]. specialize (Hl HE). lia.
    + apply bool_decide_ext. rewrite (sp_excess _ _ _ Hs), elem_of_union. split; [by left|].
      intros [HE|HH]; [done|]. specialize (Hh HH). lia.
  - rewrite bool_decide_false; [done|]. rewrite elem_of_union. intros [HE|HH]; [specialize (Hlo HE)|specialize (Hh HH)]; lia.
Qed.

(** ** The operations on it *)

Lemma first_set_spec self E H start n :
  split self E H -> rb_min self <= start -> start + Z.of_nat n <= rb_min self + max_width self ->
  match first_set self start n with
  | Some k => start <= k /\ k ∈ H /\ forall k', k' ∈ H -> start <= k' -> k <= k'
  | None => forall k', k' ∈ H -> start <= k' < start + Z.of_nat n -> False
  end.
Proof.
  intros Hs. revert start. induction n as [|n IH]; intros start Hst Hn; simpl; [intros; lia|].
  unfold contains_assume_in_range. pose proof (in_bits self E H start Hs ltac:(lia)) as Hin.
  case_bool_decide as Hd.
  - split; [lia|]. split; [by apply Hin|lia].
  - specialize (IH (start + 1) ltac:(lia) ltac:(lia)).
    assert (forall k', k' ∈ H -> k' <> start) as Hne by (intros k' Hk' ->; by apply Hd, Hin).
    destruct (first_set self (start + 1) n).
    + destruct IH as (? & ? & Hmin). split; [lia|]. split; [done|]. intros k' Hk' Hle. apply Hmin; [done|].
      specialize (Hne k' Hk'). lia.
    + intros k' Hk' Hle. apply (IH k' Hk'). specialize (Hne k' Hk'). lia.
Qed.

Lemma with_min_split self E H m :
  split self E H -> 0 <= m <= max_exclusive self -> rb_min self <= m -> (forall k, k ∈ H -> m <= k) ->
  split (with_min m self) E H.
Proof.
  intros [Hw Hr Hb He Hh Hl Hc] Hm Hle HH. split; simpl; try done; [simpl in *; lia|].
  intros k Hk. split; [by apply HH|by apply Hh].
Qed.

(** [key] was taken out of the bits before. *)
Lemma purge_window self E H key :
  split self E H ->
  (key = rb_min self /\ ~ (rb_min self ∈ H) /\ (forall k, k ∈ E -> k <= rb_min self)) \/ (key <> rb_min self /\ window self E H) ->
  window (purge key self) E H /\ max_exclusive (purge key self) = max_exclusive self /\
  max_width (purge key self) = max_width self.
Proof.
  intros Hs Hk. destruct (sp_range _ _ _ Hs) as (Hr & Hw & Hmax). unfold purge.
  pose proof (all_in_excess self E H Hs) as Hall. pose proof (sp_count _ _ _ Hs) as Hc.
  destruct (decide (H = ∅)) as [->|Hne].
  - rewrite (proj2 Hall eq_refl), andb_false_r. split; [|done].
    split; simpl; [apply with_min_split; [done|lia|lia|by intros k ?%elem_of_empty]| |done].
    intros k HkE. apply (sp_low _ _ _ Hs) in HkE. lia.
  - assert ((0 <? count self) = true) as ->.
    { apply Z.ltb_lt. destruct (decide (size H = 0%nat)) as [He|]; [|lia]. by apply size_empty_inv, leibniz_equiv in He. }
    destruct (all_items_in_excess self); [by destruct Hne; apply Hall|]. simpl.
    destruct (Z.eqb_spec key (rb_min self)) as [Heq|Hneq]; [|by destruct Hk as [(? & _)|[_ Hwin]]; [|split]].
    destruct Hk as [(_ & Hnin & HE)|[? _]]; [|done]. rewrite wrapping_small by (unfold in_range; simpl in *; pose proof (sp_width _ _ _ Hs); lia).
    apply set_choose_L in Hne as [x Hx]. pose proof (sp_high _ _ _ Hs x Hx) as Hxr.
    assert (forall k, k ∈ H -> rb_min self + 1 <= k) as Hgt.
    { intros k HkH. pose proof (sp_high _ _ _ Hs k HkH). destruct (decide (k = rb_min self)) as [->|]; [done|lia]. }
    pose proof (first_set_spec self E H (rb_min self + 1) (Z.to_nat (max_exclusive self - (rb_min self + 1))) Hs) as Hf.
    pose proof (Hgt x Hx). destruct (first_set _ _ _) as [m|]; simpl.
    + destruct Hf as (Hm1 & HmH & Hmin); [lia|lia|]. pose proof (sp_high _ _ _ Hs m HmH). split; [|done]. split; simpl.
      * apply with_min_split; [done|lia|lia|]. intros k HkH. apply Hmin; [done|by apply Hgt].
      * intros k HkE. specialize (HE k HkE). lia.
      * done.
    + exfalso. apply (Hf ltac:(lia) ltac:(lia) x Hx). lia.
Qed.

Lemma remove_bit_split self E H k c :
  split self E H -> k ∈ H -> c = Z.of_nat (size E) + Z.of_nat (size (H ∖ {[k]})) ->
  split (with_bits (bits self ∖ {[get_address self k]}) (with_count c self)) E (H ∖ {[k]}).
Proof.
  intros Hs Hk Hc. destruct (sp_range _ _ _ Hs) as (Hr & Hw & Hmax). split; simpl; try apply Hs; [| |done].
  - intros a. rewrite elem_of_difference, elem_of_singleton, (sp_bits _ _ _ Hs). unfold get_address. split.
    + intros [(k' & Hk' & ->) Hne]. exists k'. split; [|done]. apply elem_of_difference. split; [done|].
      rewrite elem_of_singleton. by intros ->.
    + intros (k' & [Hk' Hne]%elem_of_difference & ->). split; [by exists k'|]. intros Heq. apply Hne, elem_of_singleton.
      pose proof (sp_high _ _ _ Hs k Hk). pose proof (sp_high _ _ _ Hs k' Hk').
      apply (mod_window (max_width self) (rb_min self)); [apply Hs|lia|lia|done].
  - intros k' [Hk' _]%elem_of_difference. by apply Hs.
Qed.

Lemma add_bit_split self E H key m x :
  split self E H -> ~ (key ∈ H) -> 0 <= m <= key -> key < x -> (forall k, k ∈ H -> m <= k < x) ->
  (forall k, k ∈ E -> k < x) -> x - m <= max_width self -> x + max_width self <= int_max U64 ->
  split (with_count (count self + 1) (with_max_exclusive x (with_min m (with_bits ({[get_address self key]} ∪ bits self) self))))
    E ({[key]} ∪ H).
Proof.
  intros Hs Hk Hm Hx HH HE Hw Hmax. split; simpl.
  - apply Hs.
  - simpl in *. lia.
  - intros a. rewrite elem_of_union, elem_of_singleton, (sp_bits _ _ _ Hs). unfold get_address. split.
    + intros [->|(k & ? & ->)]; [exists key|exists k]; split; set_solver.
    + intros (k & [->%elem_of_singleton|Hk']%elem_of_union & ->); [by left|right; by exists k].
  - apply Hs.
  - intros k [->%elem_of_singleton|Hk']%elem_of_union; [lia|by apply HH].
  - intros k HkE. split; [by apply (sp_low _ _ _ Hs)|by apply HE].
  - rewrite (sp_count _ _ _ Hs), size_union, size_singleton by set_solver. lia.
Qed.

Lemma key_fits self E H key : split self E H -> 0 <= key -> key + max_width self < int_max U64 -> in_range U64 (key + 1).
Proof. intros Hs ? ?. pose proof (sp_width _ _ _ Hs). unfold in_range. simpl in *. lia. Qed.

(** A key is set in empty bits. *)
Lemma update_bits_empty self E key :
  split self E ∅ -> (forall k, k ∈ E -> k < key) -> 0 <= key -> key + max_width self < int_max U64 ->
  exists self', update_bits true key self = Ok self' /\ window self' E {[key]} /\ max_width self' = max_width self.
Proof.
  intros Hs HE H0 Hmax. unfold update_bits.
  rewrite bool_decide_false by (rewrite (proj2 (no_bits _ _ _ Hs) eq_refl); set_solver).
  simpl. rewrite wrapping_small by (by eapply key_fits). eexists. split; [done|]. split; [|done].
  pose proof (add_bit_split self E ∅ key key (key + 1) Hs) as Hadd. rewrite union_empty_r_L in Hadd.
  pose proof (sp_width _ _ _ Hs). split; simpl; [|done|set_solver].
  apply Hadd; [set_solver|lia|lia|by intros k ?%elem_of_empty|intros k HkE; specialize (HE k HkE); lia|lia|lia].
Qed.

(** A key is set in the window, or above it if it stays narrow enough. *)
Lemma update_bits_window self E H key :
  window self E H -> H <> ∅ -> rb_min self <= key -> key + 1 - rb_min self <= max_width self ->
  key + max_width self < int_max U64 ->
  exists self', update_bits false key self = Ok self' /\ window self' E ({[key]} ∪ H) /\ max_width self' = max_width self.
Proof.
  intros [Hs Hl Hm] Hne Hmin Hw Hmax. unfold update_bits. destruct (sp_range _ _ _ Hs) as (Hr & Hrw & Hrm).
  case_bool_decide as Hb.
  - exists self. apply (in_bits _ E H) in Hb; [|done|lia]. replace ({[key]} ∪ H) with H by set_solver. by split.
  - simpl. rewrite (in_bits _ E H) in Hb by (done || lia). rewrite wrapping_small by (eapply key_fits; [done|lia|done]).
    rewrite (Z.min_l (rb_min self) key) by done. rewrite wrapping_small by (unfold in_range; simpl in *; pose proof (sp_width _ _ _ Hs); lia).
    destruct (Z.leb_spec (Z.max (max_exclusive self) (key + 1)) (rb_min self + max_width self)); [|lia].
    simpl. eexists. split; [done|]. split; [|done]. split; simpl; [|done|set_solver].
    apply add_bit_split; try done; try lia.
    + intros k Hk. pose proof (sp_high _ _ _ Hs k Hk). lia.
    + intros k Hk. pose proof (sp_low _ _ _ Hs k Hk). lia.
Qed.

Lemma make_room_run fuel new_max self E H :
  window self E H -> H <> ∅ -> (size H <= fuel)%nat -> in_range U64 new_max ->
  exists self' b, make_room fuel new_max self = Ok (self', b) /\
    max_width self' = max_width self /\ max_exclusive self' = max_exclusive self /\
    if b : bool then split self' (E ∪ H) ∅
    else exists E' H', window self' E' H' /\ H' <> ∅ /\ E' ∪ H' = E ∪ H /\ new_max - rb_min self' <= max_width self'.
Proof.
  revert self E H. induction fuel as [|fuel IH]; intros self E H Hw Hne Hf Hmax.
  { destruct Hne. apply leibniz_equiv, size_empty_inv. lia. }
  cbn [make_room]. destruct (Z.leb_spec (saturating_sub U64 new_max (rb_min self)) (max_width self)) as [Hfit|_].
  { exists self, false. split_and!; try done. exists E, H. split_and!; try done.
    destruct (sp_range _ _ _ (wi_split _ _ _ Hw)) as (? & ? & ?). unfold saturating_sub, saturating, in_range in *. simpl in *. lia. }
  destruct Hw as [Hs Hl Hm]. specialize (Hm Hne). rewrite (sp_excess _ _ _ Hs).
  rewrite bool_decide_false by (intros HE; specialize (Hl _ HE); lia).
  set (m := rb_min self) in *. set (self1 := with_bits _ _).
  assert (split self1 ({[m]} ∪ E) (H ∖ {[m]})) as Hs1.
  { pose proof (remove_bit_split self E H m _ Hs Hm eq_refl) as [Hw Hr Hb He Hh Hlo Hc]. split; try done.
    - intros k [->%elem_of_singleton|HkE]%elem_of_union; [|by apply Hlo].
      pose proof (sp_high _ _ _ Hs m Hm). destruct (sp_range _ _ _ Hs). simpl. lia.
    - simpl. rewrite (sp_count _ _ _ Hs), size_union, size_singleton by (apply disjoint_singleton_l; intros HE; specialize (Hl _ HE); lia).
      rewrite (size_difference H {[m]}), size_singleton by set_solver.
      assert (size H <> 0%nat) by (intros He'; by apply size_empty_inv, leibniz_equiv in He'). lia. }
  destruct (purge_window self1 _ _ m Hs1) as (Hw1 & Hx1 & Hwd1).
  { left. split_and!; [done|set_solver|]. intros k [->%elem_of_singleton|HkE]%elem_of_union; [done|]. specialize (Hl k HkE). simpl. lia. }
  assert (({[m]} ∪ E) ∪ (H ∖ {[m]}) = E ∪ H) as Hun.
  { apply set_eq. intros k. destruct (decide (k = m)) as [->|]; set_solver. }
  pose proof (all_in_excess _ _ _ (wi_split _ _ _ Hw1)) as Hall.
  destruct (all_items_in_excess (purge m self1)).
  - exists (purge m self1), true. split_and!; try done. specialize (proj1 Hall eq_refl) as He.
    pose proof (wi_split _ _ _ Hw1) as Hs2. rewrite He in Hs2, Hun. rewrite union_empty_r_L in Hun. by rewrite <- Hun.
  - destruct (IH (purge m self1) _ _ Hw1) as (self' & b & Hrun & Hw' & Hx' & Hb); [by intros He%Hall| |done|].
    { rewrite size_difference, size_singleton by set_solver. lia. }
    exists self', b. split_and!; [exact Hrun|by rewrite Hw', Hwd1|by rewrite Hx', Hx1|].
    destruct b; [by rewrite <- Hun|]. destruct Hb as (E' & H' & ? & ? & He & ?). exists E', H'. by rewrite He, Hun.
Qed.

(** A key below the window goes to the excess. *)
Lemma insert_low self E H key :
  window self E H -> H <> ∅ -> ~ (key ∈ E) -> 0 <= key < rb_min self ->
  window (with_count (count self + 1) (with_excess ({[key]} ∪ E) self)) ({[key]} ∪ E) H.
Proof.
  intros [Hs Hl Hm] Hne HE Hk. pose proof (sp_high _ _ _ Hs _ (Hm Hne)) as Hmr.
  destruct Hs as [Hw Hr Hb He Hh Hlo Hc]. split; [split; simpl; try done| |done]; simpl.
  - intros k [->%elem_of_singleton|HkE]%elem_of_union; [lia|by apply Hlo].
  - rewrite Hc, size_union, size_singleton by (by apply disjoint_singleton_l). lia.
  - intros k [->%elem_of_singleton|HkE]%elem_of_union; [lia|by apply Hl].
Qed.

(** A key above the window moves it. *)
Lemma insert_high self E H key :
  window self E H -> H <> ∅ -> max_exclusive self <= key -> key + max_width self < int_max U64 ->
  exists self' E' H', (let! moved := make_room (Z.to_nat (count self)) (wrapping U64 (key + 1)) self in
      let '(self, bits_empty) := moved : RollingBitField * bool in update_bits bits_empty key self) = Ok self' /\
    window self' E' ({[key]} ∪ H') /\ E' ∪ H' = E ∪ H /\ max_width self' = max_width self.
Proof.
  intros Hw Hne Hk Hmax. pose proof (wi_split _ _ _ Hw) as Hs. destruct (sp_range _ _ _ Hs) as (Hr & _).
  assert (in_range U64 (key + 1)) as Hin by (eapply key_fits; [done|lia|done]). rewrite wrapping_small by done.
  destruct (make_room_run (Z.to_nat (count self)) (key + 1) self E H Hw Hne) as (self1 & b & Hrun & Hwd & Hx & Hb);
    [rewrite (sp_count _ _ _ Hs); lia|done|]. rewrite Hrun. simpl. destruct b.
  - destruct (update_bits_empty self1 (E ∪ H) key Hb) as (self' & Hrun' & Hw' & Hwd').
    + intros k HkE. apply (sp_low _ _ _ Hb) in HkE. lia.
    + lia.
    + lia.
    + exists self', (E ∪ H), ∅. rewrite !union_empty_r_L. split_and!; [done|done|done|congruence].
  - destruct Hb as (E' & H' & Hw1 & Hne1 & Hun & Hfit). destruct (update_bits_window self1 E' H' key Hw1 Hne1) as (self' & Hrun' & Hw' & Hwd').
    + pose proof (sp_range _ _ _ (wi_split _ _ _ Hw1)) as (? & _). lia.
    + lia.
    + lia.
    + exists self', E', H'. split_and!; [done|done|done|congruence].
Qed.

(** A key is inserted unless the bits ran empty and the excess did not. *)
Lemma rep_insert self S key :
  represents self S -> ~ stale self -> 0 <= key -> key + max_width self < int_max U64 ->
  exists self', field_insert key self = Ok self' /\ represents self' ({[key]} ∪ S) /\
    max_width self' = max_width self /\ ~ stale self'.
Proof.
  intros (E & H & Hw & ->) Hst H0 Hmax. pose proof (wi_split _ _ _ Hw) as Hs. unfold field_insert.
  pose proof (all_in_excess _ _ _ Hs) as Hall. pose proof (no_bits _ _ _ Hs) as Hno.
  assert (forall self' E' K, window self' E' ({[key]} ∪ K) -> ~ stale self') as Hfresh.
  { intros self' E' K Hw' [Hb _]. apply (no_bits _ _ _ (wi_split _ _ _ Hw')) in Hb. set_solver. }
  destruct (decide (H = ∅)) as [->|Hne].
  - assert (E = ∅) as ->.
    { destruct (decide (E = ∅)) as [|HE]; [done|]. destruct Hst. split; [by apply Hno|by rewrite (sp_excess _ _ _ Hs)]. }
    rewrite (proj2 Hall eq_refl), orb_true_r.
    destruct (update_bits_empty self ∅ key Hs) as (self' & Hrun & Hw' & Hwd); [by intros k ?%elem_of_empty|done|done|].
    exists self'. split_and!; [done| |done|]; [exists ∅, {[key]}; split; [done|set_solver]|].
    apply (Hfresh self' ∅ ∅). by rewrite union_empty_r_L.
  - destruct (all_items_in_excess self); [by destruct Hne; apply Hall|]. rewrite orb_false_r.
    assert ((count self =? 0) = false) as ->.
    { apply Z.eqb_neq. rewrite (sp_count _ _ _ Hs). intros He. destruct Hne. apply leibniz_equiv, size_empty_inv. lia. }
    destruct (Z.ltb_spec key (rb_min self)) as [Hlt|Hge].
    + rewrite (sp_excess _ _ _ Hs). eexists. split; [done|]. case_bool_decide as HE.
      { split_and!; [|done|done]. exists E, H. split; [done|set_solver]. }
      split_and!; [|done|by intros [Hb _]; apply Hne, Hno]. exists ({[key]} ∪ E), H.
      split; [by apply insert_low|set_solver].
    + destruct (Z.ltb_spec key (max_exclusive self)) as [Hlt|Hgt].
      * destruct (update_bits_window self E H key Hw Hne) as (self' & Hrun & Hw' & Hwd); try done.
        { destruct (sp_range _ _ _ Hs). lia. }
        exists self'. split_and!; [done| |done|by eapply Hfresh]. exists E, ({[key]} ∪ H). split; [done|set_solver].
      * destruct (insert_high self E H key Hw Hne Hgt Hmax) as (self' & E' & H' & Hrun & Hw' & Hun & Hwd).
        exists self'. split_and!; [done| |done|by eapply Hfresh]. exists E', ({[key]} ∪ H'). split; [done|].
        rewrite <- Hun. set_solver.
Qed.

Lemma remove_high self E H key :
  window self E H -> key ∈ H ->
  let self' := purge key (with_bits (bits self ∖ {[get_address self key]}) (with_count (count self - 1) self)) in
  represents self' ((E ∪ H) ∖ {[key]}) /\ max_width self' = max_width self.
Proof.
  intros Hw HH self'. pose proof (wi_split _ _ _ Hw) as Hs. pose proof (sp_high _ _ _ Hs _ HH).
  assert (~ key ∈ E) as HnE by (intros HE; pose proof (wi_low _ _ _ Hw _ HE); lia).
  assert (split (with_bits (bits self ∖ {[get_address self key]}) (with_count (count self - 1) self)) E (H ∖ {[key]})) as Hs1.
  { apply remove_bit_split; [done|done|]. rewrite (sp_count _ _ _ Hs), size_difference, size_singleton by set_solver.
    assert (size H <> 0%nat) by (intros He; apply size_empty_inv, leibniz_equiv in He; set_solver). lia. }
  destruct (purge_window _ _ _ key Hs1) as (Hw1 & _ & Hwd).
  { destruct (decide (key = rb_min self)) as [->|Hne].
    - left. split_and!; [done|set_solver|]. intros k HkE. pose proof (wi_low _ _ _ Hw _ HkE). simpl. lia.
    - right. split; [done|]. split; [done|apply Hw|]. simpl. intros Hne'. pose proof (wi_min _ _ _ Hw) as Hm.
      assert (rb_min self ∈ H) by (apply Hm; set_solver). set_solver. }
  split; [|by unfold self'; rewrite Hwd]. exists E, (H ∖ {[key]}). split; [done|set_solver].
Qed.

Lemma remove_low self E H key :
  window self E H -> key ∈ E ->
  represents (with_count (count self - 1) (with_excess (E ∖ {[key]}) self)) ((E ∪ H) ∖ {[key]}).
Proof.
  intros [[Hwd Hr Hb He Hh Hlo Hcount] Hl Hm] HE. exists (E ∖ {[key]}), H. specialize (Hl key HE) as Hk.
  assert (~ key ∈ H) by (intros HH; specialize (Hh _ HH); lia). split; [|set_solver].
  split; [split; simpl; try done| |done]; simpl.
  - intros k [HkE _]%elem_of_difference. by apply Hlo.
  - rewrite Hcount, size_difference, size_singleton by set_solver.
    assert (size E <> 0%nat) by (intros He'; apply size_empty_inv, leibniz_equiv in He'; set_solver). lia.
  - intros k [HkE _]%elem_of_difference. by apply Hl.
Qed.

Lemma rep_remove self S key :
  represents self S ->
  exists self', field_remove key self = (bool_decide (key ∈ S), self') /\ represents self' (S ∖ {[key]}) /\
    max_width self' = max_width self.
Proof.
  intros Hrep. pose proof (rep_contains self S key Hrep) as Hc. destruct Hrep as (E & H & Hw & ->).
  pose proof (wi_split _ _ _ Hw) as Hs. pose proof (sp_range _ _ _ Hs) as (Hr & Hrw & Hrm).
  assert (false = bool_decide (key ∈ E ∪ H) -> represents self ((E ∪ H) ∖ {[key]})) as Hsame.
  { intros Hn%eq_sym%bool_decide_eq_false. exists E, H. split; [done|]. set_solver. }
  revert Hc. unfold contains, field_remove.
  destruct (Z.leb_spec (rb_min self) key) as [Hle|Hlt].
  - destruct (Z.ltb_spec key (max_exclusive self)) as [Hx|Hx]; [|intros Hc; rewrite <- Hc; exists self; auto].
    unfold contains_assume_in_range.
    destruct (bool_decide_reflect (get_address self key ∈ bits self)) as [Hb|]; intros Hc; rewrite <- Hc; [|exists self; auto].
    eexists. split; [done|]. apply remove_high; [done|]. by apply (in_bits _ E H) in Hb; [|done|lia].
  - destruct (Z.ltb_spec key (max_exclusive self)); [|lia].
    destruct (bool_decide_reflect (key ∈ excess self)) as [HE|]; intros Hc; rewrite <- Hc; [|exists self; auto].
    eexists. split; [done|]. rewrite (sp_excess _ _ _ Hs) in *. split; [by apply remove_low|done].
Qed.

Lemma rep_get_all self S k : represents self S -> k ∈ get_all self <-> k ∈ S.
Proof.
  intros (E & H & [Hs Hl Hm] & ->). pose proof (sp_range _ _ _ Hs) as (Hr & Hrw & Hrm).
  unfold get_all. rewrite elem_of_app, list_elem_of_filter, elem_of_seqZ, elem_of_elements, (sp_excess _ _ _ Hs), elem_of_union.
  unfold contains_assume_in_range. rewrite bool_decide_eq_true. apply or_iff_compat_l. split.
  - intros [Hb Hk]. by apply (in_bits _ E H) in Hb; [|done|lia].
  - intros HH. pose proof (sp_high _ _ _ Hs k HH). split; [apply (in_bits _ E H); [done|lia|done]|lia].
Qed.

Lemma least_spec (X : gset Z) :
  match least X with
  | Some m => m ∈ X /\ forall x, x ∈ X -> m <= x
  | None => X = ∅
  end.
Proof.
  unfold least. destruct (elements X) as [|x l] eqn:Hl.
  { by apply elements_empty_iff, leibniz_equiv in Hl. }
  assert (forall y, y ∈ X <-> y ∈ x :: l) as Hin by (intros y; by rewrite <- elem_of_elements, Hl).
  assert (foldr Z.min x l ∈ x :: l /\ forall y, y ∈ x :: l -> foldr Z.min x l <= y) as [H1 H2].
  { clear. induction l as [|z l [IH1 IH2]]; simpl; [split; [set_solver|]; intros y [->|?%elem_of_nil]%elem_of_cons; [lia|done]|].
    split.
    - destruct (Z.min_spec z (foldr Z.min x l)) as [[_ ->]|[_ ->]]; set_solver.
    - intros y Hy. assert (y = z \/ y ∈ x :: l) as [->|Hy'] by set_solver; [lia|]. specialize (IH2 y Hy'). lia. }
  split; [by apply Hin|]. intros y Hy. by apply H2, Hin.
Qed.


Lemma rep_less_than self S max k : represents self S -> k ∈ get_all_less_than self max <-> k ∈ S /\ k < max.
Proof.
  intros (E & H & [Hs Hl Hm] & ->). pose proof (sp_range _ _ _ Hs) as (Hr & Hrw & Hrm).
  unfold get_all_less_than. rewrite elem_of_app, !list_elem_of_filter, elem_of_seqZ, elem_of_elements, (sp_excess _ _ _ Hs), elem_of_union.
  unfold contains_assume_in_range. rewrite bool_decide_eq_true. split.
  - intros [[? ?]|[Hb Hk]]; [tauto|]. apply (in_bits _ E H) in Hb; [|done|lia]. split; [by right|lia].
  - intros [[HE|HH] Hlt]; [by left|right]. pose proof (sp_high _ _ _ Hs k HH). split; [apply (in_bits _ E H); [done|lia|done]|lia].
Qed.

Lemma rep_min self S :
  represents self S -> match field_min self with Some m => m ∈ S /\ forall k, k ∈ S -> m <= k | None => S = ∅ end.
Proof.
  intros (E & H & [Hs Hl Hm] & ->). unfold field_min, is_empty, len. rewrite (sp_count _ _ _ Hs), (sp_excess _ _ _ Hs).
  pose proof (all_in_excess self E H Hs) as Hall. pose proof (least_spec E) as HE.
  assert (forall k, k ∈ H -> rb_min self <= k) as Hh by (intros k Hk; by apply (sp_high _ _ _ Hs)).
  destruct (Z.eqb_spec (Z.of_nat (size E) + Z.of_nat (size H)) 0) as [Hz|Hz].
  { assert (E = ∅ /\ H = ∅) as [-> ->] by (split; apply leibniz_equiv, size_empty_inv; lia). set_solver. }
  destruct (bool_decide_reflect (E = ∅)) as [->|Hne].
  - assert (H <> ∅) as HH by (intros ->; rewrite !size_empty in Hz; lia). specialize (Hm HH). split; [set_solver|].
    intros k [?%elem_of_empty|?]%elem_of_union; [done|by apply Hh].
  - destruct (least E) as [e|]; [|done]. destruct HE as [He Hle]. specialize (Hl e He).
    destruct (all_items_in_excess self) eqn:Ha; simpl.
    + rewrite (proj1 Hall eq_refl). split; [set_solver|]. intros k [?|?%elem_of_empty]%elem_of_union; [by apply Hle|done].
    + rewrite Z.min_r by lia. split; [set_solver|]. intros k [?|Hk]%elem_of_union; [by apply Hle|]. specialize (Hh k Hk). lia.
Qed.

Lemma sub_one slot : 0 <= slot <= int_max U64 -> saturating_sub U64 slot 1 = Z.max 0 (slot - 1).
Proof. intros Hs. unfold saturating_sub, saturating. simpl in *. lia. Qed.

(** [slot] is not [0] unless the search starts there. *)
Lemma prior_from_spec fuel m slot self S :
  represents self S -> (forall k, k ∈ S -> m <= k) -> 0 <= slot <= int_max U64 -> slot < Z.of_nat fuel ->
  exists o, prior_from fuel m slot self = Ok o /\
  match o with
  | Some x => x ∈ S /\ x <= slot /\ (slot <> 0 -> x <> 0) /\ forall k, k ∈ S -> k <= slot -> k <= x
  | None => forall k, k ∈ S -> k <= slot -> k = 0 /\ slot <> 0
  end.
Proof.
  intros Hr Hm. revert slot. induction fuel as [|fuel IH]; intros slot Hs Hf; [lia|]. simpl.
  rewrite (rep_contains self S slot Hr). destruct (bool_decide_reflect (slot ∈ S)) as [Hin|Hin].
  { exists (Some slot). split; [done|]. by split_and!; [|lia|..]. }
  assert (forall k, k ∈ S -> k <> slot) as Hne by (by intros k Hk ->).
  rewrite sub_one by done. destruct (Z.eqb_spec (Z.max 0 (slot - 1)) 0) as [Hz|Hz]; simpl.
  { exists None. split; [done|]. intros k Hk Hle. specialize (Hne k Hk). pose proof (rep_nonneg _ _ _ Hr Hk). lia. }
  destruct (Z.ltb_spec (Z.max 0 (slot - 1)) m) as [Hlt|Hge].
  { exists None. split; [done|]. intros k Hk Hle. specialize (Hne k Hk). specialize (Hm k Hk). lia. }
  destruct (IH (Z.max 0 (slot - 1)) ltac:(lia) ltac:(lia)) as (o & -> & Ho). exists o. split; [done|]. destruct o as [x|].
  - destruct Ho as (Hx & Hle & H0 & Hmax). split_and!; [done|lia|auto|]. intros k Hk Hkl. specialize (Hne k Hk). apply Hmax; [done|lia].
  - intros k Hk Hkl. specialize (Hne k Hk). destruct (Ho k Hk ltac:(lia)) as [-> _]. lia.
Qed.

Lemma rep_prior self S max :
  represents self S -> 0 <= max <= int_max U64 ->
  exists o, get_prior self max = Ok o /\
  match o with
  | Some x => x ∈ S /\ x <= Z.max 0 (max - 1) /\ (1 < max -> x <> 0) /\
      forall k, k ∈ S -> k <= Z.max 0 (max - 1) -> k <= x
  | None => forall k, k ∈ S -> k <= Z.max 0 (max - 1) -> k = 0 /\ 1 < max
  end.
Proof.
  intros Hr Hmax. unfold get_prior. rewrite sub_one by lia. pose proof (rep_min self S Hr) as Hm.
  destruct (field_min self) as [m|]; [|exists None; set_solver]. destruct Hm as [_ Hm].
  destruct (prior_from_spec (Datatypes.S (Z.to_nat (Z.max 0 (max - 1)))) m (Z.max 0 (max - 1)) self S Hr Hm)
    as (o & -> & Ho); [lia|lia|].
  exists o. split; [done|]. destruct o as [x|].
  - destruct Ho as (Hx & Hle & H0 & Hk). split_and!; [done|done| |done]. intros ?. apply H0. lia.
  - intros k Hin Hlt. destruct (Ho k Hin Hlt). lia.
Qed.

(** C20: The bit field is a set. Membership and removal are those of the finite set it stands for, in every state; so is
    insertion, without a panic, unless the bits ran empty while the excess did not; [get_all] lists the set and [field_min]
    finds its least element. [get_prior] finds the greatest element below a bound, with two exceptions, which are exact:
    for a bound above 1 it overlooks the element 0 and finds nothing where that is the only one, and for the bound 0 it
    finds the element 0, as for the bound 1. *)
Theorem rolling_field_refines (self : RollingBitField) (S : gset Z) :
  represents self S ->
  (forall key, contains self key = bool_decide (key ∈ S)) /\
  (forall key, key ∈ get_all self <-> key ∈ S) /\
  (forall key, exists self', field_remove key self = (bool_decide (key ∈ S), self') /\ represents self' (S ∖ {[key]})) /\
  (forall key, ~ stale self -> 0 <= key -> key + max_width self < int_max U64 ->
     exists self', field_insert key self = Ok self' /\ represents self' ({[key]} ∪ S) /\ ~ stale self') /\
  (forall max key, key ∈ get_all_less_than self max <-> key ∈ S /\ key < max) /\
  match field_min self with Some m => m ∈ S /\ forall key, key ∈ S -> m <= key | None => S = ∅ end /\
  (forall max, 0 <= max <= int_max U64 -> exists o, get_prior self max = Ok o /\
     match o with
     | Some x => x ∈ S /\ x <= Z.max 0 (max - 1) /\ (1 < max -> x <> 0) /\
         forall key, key ∈ S -> key <= Z.max 0 (max - 1) -> key <= x
     | None => forall key, key ∈ S -> key <= Z.max 0 (max - 1) -> key = 0 /\ 1 < max
     end).
Proof.
  intros Hr. split_and!; [intros key..|intros max key|by apply rep_min|intros max; by apply rep_prior].
  - by apply rep_contains.
  - by apply rep_get_all.
  - destruct (rep_remove self S key Hr) as (self' & ? & ? & _). by exists self'.
  - intros Hst H0 Hmax. destruct (rep_insert self S key Hr Hst H0 Hmax) as (self' & ? & ? & _ & ?). by exists self'.
  - by apply rep_less_than.
Qed.

(** ** Ancestors are the slots they are made of *)

Lemma insert_each_run keys self S :
  represents self S -> ~ stale self -> Forall (fun key => 0 <= key /\ key + max_width self < int_max U64) keys ->
  exists self', insert_each keys self = Ok self' /\ represents self' (list_to_set keys ∪ S).
Proof.
  intros Hr Hst Hk. revert self S Hr Hst Hk. induction keys as [|key keys IH]; intros self S Hr Hst Hk.
  { exists self. split; [done|]. simpl. by rewrite union_empty_l_L. }
  apply list.Forall_cons in Hk as [[H0 Hmax] Hk]. cbn [insert_each].
  destruct (rep_insert self S key Hr Hst H0 Hmax) as (self1 & -> & Hr1 & Hwd & Hst1). simpl.
  destruct (IH self1 _ Hr1 Hst1) as (self' & Hrun & Hr'); [by rewrite Hwd|]. exists self'. split; [done|].
  by replace ({[key]} ∪ list_to_set keys ∪ S) with (list_to_set keys ∪ ({[key]} ∪ S)) by set_solver.
Qed.

Lemma ancestors_represent source :
  Forall (fun slot => 0 <= slot /\ slot + ANCESTORS_HASH_MAP_SIZE < int_max U64) source ->
  exists a, Ancestors_from source = Ok a /\ represents a (list_to_set source).
Proof.
  intros Hf. unfold Ancestors_from, RollingBitField_new. simpl.
  set (new := mkRollingBitField _ _ _ _ _ _).
  assert (represents new ∅) as Hr.
  { exists ∅, ∅. split; [|set_solver]. split; [|by intros k ?%elem_of_empty|done].
    split; simpl; try done; intros; set_solver. }
  destruct (insert_each_run (sorting.merge_sort Z.le source) new ∅ Hr) as (a & Ha & Hra).
  - by intros [_ ?].
  - by rewrite sorting.merge_sort_Permutation.
  - exists a. split; [done|]. rewrite union_empty_r_L in Hra.
    by replace (list_to_set source : gset Z) with (list_to_set (sorting.merge_sort Z.le source) : gset Z)
      by (apply set_eq; intros k; by rewrite !elem_of_list_to_set, sorting.merge_sort_Permutation).
Qed.

(** ** Refilling the bits

    With a width of four: 9 moves 5 out of the bits, 9 is removed again, and 2 is
    inserted; 5 is not found any more. In the same way 5 is inserted twice, and
    is there after it was removed. *)
Definition field_run (steps : list (bool * Z)) : Total RollingBitField :=
  foldl (fun o '(add, key) => let! self := o in
    if add : bool then field_insert key self else Ok (snd (field_remove key self))) (RollingBitField_new 4) steps.

Example refilled_field_forgets :
  (let! self := field_run [(true, 5); (true, 9); (false, 9); (true, 2)] in Ok (contains self 5, contains self 2)) =
    Ok (false, true).
Proof. vm_compute. reflexivity. Qed.

Example refilled_field_keeps :
  (let! self := field_run [(true, 5); (true, 9); (false, 9); (true, 5); (false, 5)] in Ok (contains self 5)) = Ok true.
Proof. vm_compute. reflexivity. Qed.

(** The item 0 is not found below 3; it is found below 0. *)
Example prior_overlooks_zero :
  (let! self := field_run [(true, 0)] in get_prior self 3) = Ok None /\
  (let! self := field_run [(true, 0)] in get_prior self 0) = Ok (Some 0).
Proof. vm_compute. done. Qed.
