(* ===== verification/StatusCache.v ===== *)
(** * Recent blockhashes and the status cache (accounts-db/src/blockhash_queue.rs, runtime/src/status_cache.rs)

    A bank keeps the hashes of the latest blocks of its fork; a transaction names
    one of them, and is valid while that is recent enough. The queue refines the
    list of all hashes that were registered. The status cache knows the
    transactions that were processed. *)

From S2P Require Import Prelude Rent Account Sysvars RollingBits.

(** ** The queue *)

(** The 300 hashes of two minutes, and half of that. *)
Definition MAX_HASH_AGE_IN_SECONDS : Z := 120.
Definition MAX_RECENT_BLOCKHASHES : Z :=
  MAX_HASH_AGE_IN_SECONDS * DEFAULT_TICKS_PER_SECOND / DEFAULT_TICKS_PER_SLOT.
Definition MAX_PROCESSING_AGE : Z := MAX_RECENT_BLOCKHASHES / 2.

Record HashAge := mkHashAge {
  age_fee_calculator : FeeCalculator;
  hash_index : Z;
  age_timestamp : Z;
}.

Record BlockhashQueue := mkBlockhashQueue {
  last_hash_index : Z;
  queue_last_hash : option Hash;
  ages : gmap Hash HashAge;
  max_age : Z;
}.

Definition BlockhashQueue_new (max_age : Z) : BlockhashQueue := mkBlockhashQueue 0 None ∅ max_age.
Definition BlockhashQueue_default : BlockhashQueue := BlockhashQueue_new MAX_RECENT_BLOCKHASHES.

Definition last_hash (self : BlockhashQueue) : Outcome Empty_set Hash :=
  match queue_last_hash self with Some hash => Ok hash | None => Panic end.

Definition queue_lamports_per_signature (self : BlockhashQueue) (hash : Hash) : option Z :=
  (fun age => lamports_per_signature (age_fee_calculator age)) <$> ages self !! hash.

Definition is_hash_valid (self : BlockhashQueue) (hash : Hash) : bool :=
  bool_decide (is_Some (ages self !! hash)).

Definition is_hash_index_valid (last_hash_index max_age hash_index : Z) : bool :=
  wrapping U64 (last_hash_index - hash_index) <=? max_age.

Definition is_hash_valid_for_age (self : BlockhashQueue) (hash : Hash) (max_age : Z) : bool :=
  match ages self !! hash with
  | Some age => is_hash_index_valid (last_hash_index self) max_age (hash_index age)
  | None => false
  end.

Definition get_hash_age (self : BlockhashQueue) (hash : Hash) : option Z :=
  (fun age => wrapping U64 (last_hash_index self - hash_index age)) <$> ages self !! hash.

(** [now] is the time at which the hash is entered. *)
Definition genesis_hash (now : Z) (hash : Hash) (lamports_per_signature : Z) (self : BlockhashQueue) : BlockhashQueue :=
  mkBlockhashQueue (last_hash_index self) (Some hash)
    (<[hash := mkHashAge (FeeCalculator_new lamports_per_signature) 0 now]> (ages self)) (max_age self).

Definition register_hash (now : Z) (hash : Hash) (lamports_per_signature : Z) (self : BlockhashQueue) : BlockhashQueue :=
  let index := wrapping U64 (last_hash_index self + 1) in
  let ages :=
    if max_age self <=? Z.of_nat (size (ages self))
    then filter (fun p => is_hash_index_valid index (max_age self) (hash_index (snd p)) = true) (ages self)
    else ages self in
  mkBlockhashQueue index (Some hash)
    (<[hash := mkHashAge (FeeCalculator_new lamports_per_signature) index now]> ages) (max_age self).

Definition get_max_age (self : BlockhashQueue) : Z := max_age self.

(** ** The hashes that were registered *)

(** [hashes] are all the hashes, the newest first; one that was registered again
    has the age of the last time. *)
Record lists (hashes : list Hash) (self : BlockhashQueue) : Prop := {
  ls_last : vec_len hashes - 1 <= last_hash_index self <= int_max U64;
  ls_age h age : ages self !! h = Some age ->
    exists i, hashes !! i = Some h /\ hash_index age = last_hash_index self - Z.of_nat i /\
      forall j, hashes !! j = Some h -> (i <= j)%nat;
  ls_kept i h : hashes !! i = Some h -> Z.of_nat i <= max_age self -> is_Some (ages self !! h);
}.

Lemma index_valid last i a :
  0 <= Z.of_nat i <= last -> last <= int_max U64 ->
  is_hash_index_valid last a (last - Z.of_nat i) = bool_decide (Z.of_nat i <= a).
Proof.
  intros Hi Hl. unfold is_hash_index_valid. rewrite wrapping_small by (unfold in_range; simpl in *; lia).
  replace (last - (last - Z.of_nat i)) with (Z.of_nat i) by lia. 
  by case_bool_decide; [apply Z.leb_le|apply Z.leb_gt; lia].
Qed.

Lemma genesis_lists now h lps n : 0 <= n -> lists [h] (genesis_hash now h lps (BlockhashQueue_new n)).
Proof.
  intros Hn. split; simpl.
  - unfold vec_len. simpl. lia.
  - intros h' age [[<- <-]|[_ ?%lookup_empty_Some]]%lookup_insert_Some; [|done]. exists 0%nat. split_and!; [done..|lia].
  - intros [|i] h' Hi _; [|done]. simplify_eq/=. by rewrite lookup_insert_eq.
Qed.

(** The queue after one more hash. *)
Lemma register_lists now h lps hashes self :
  lists hashes self -> last_hash_index self < int_max U64 -> 0 <= max_age self ->
  lists (h :: hashes) (register_hash now h lps self) /\
  last_hash_index (register_hash now h lps self) = last_hash_index self + 1.
Proof.
  intros [Hl Ha Hk] Hmax Hage. unfold register_hash.
  assert (forall i h', hashes !! i = Some h' -> Z.of_nat i <= last_hash_index self) as Hi.
  { intros i h' Hi%lookup_lt_Some. unfold vec_len in Hl. lia. }
  rewrite wrapping_small by (unfold in_range, vec_len in *; simpl in *; lia). split; [|done]. split; simpl.
  - unfold vec_len in *. simpl in *. lia.
  - intros h' age [[<- <-]|[Hne H]]%lookup_insert_Some; [exists 0%nat; simpl; split_and!; [done|lia|lia]|].
    assert (ages self !! h' = Some age) as H' by (destruct (_ <=? _); [by apply map_lookup_filter_Some in H as [? _]|done]).
    apply Ha in H' as (i & Hi' & -> & Hnew). exists (S i). split_and!; [done|lia|].
    intros [|j] Hj; simplify_eq/=. specialize (Hnew j Hj). lia.
  - intros i h' Hi' Hle. destruct (decide (h' = h)) as [->|Hne]; [by rewrite lookup_insert_eq|].
    rewrite lookup_insert_ne by done. destruct i as [|i]; [by simplify_eq/=|]. simpl in Hi'.
    destruct (Hk i h' Hi' ltac:(lia)) as [age Hage']. destruct (_ <=? _); [|by exists age]. exists age.
    apply map_lookup_filter_Some. split; [done|]. simpl. apply Ha in Hage' as (j & Hj & -> & Hnew).
    specialize (Hi j h' Hj). specialize (Hnew i Hi').
    replace (last_hash_index self - Z.of_nat j) with (last_hash_index self + 1 - Z.of_nat (S j)) by lia.
    rewrite index_valid by lia. apply bool_decide_eq_true. lia.
Qed.

(** A hash with the time at which it is entered and its fee. *)
Record HashEntry := mkHashEntry { entry_time : Z; entry_hash : Hash; entry_fee : Z }.

(** The queue of a fork: the genesis hash, and then the hash of every block. *)
Definition registered_queue (max_age : Z) (genesis : HashEntry) (blocks : list HashEntry) : BlockhashQueue :=
  foldl (fun self e => register_hash (entry_time e) (entry_hash e) (entry_fee e) self)
    (genesis_hash (entry_time genesis) (entry_hash genesis) (entry_fee genesis) (BlockhashQueue_new max_age)) blocks.

Lemma registered_queue_lists n genesis blocks :
  0 <= n -> vec_len blocks <= int_max U64 ->
  lists (reverse (entry_hash <$> genesis :: blocks)) (registered_queue n genesis blocks) /\
  last_hash_index (registered_queue n genesis blocks) = vec_len blocks /\
  max_age (registered_queue n genesis blocks) = n.
Proof.
  intros Hn. induction blocks as [|e blocks IH] using rev_ind; intros Hlen.
  { split_and!; [by apply genesis_lists|done|done]. }
  unfold vec_len in *. rewrite length_app in Hlen |- *. cbn [length] in Hlen |- *.
  destruct IH as (Hl & Hi & Hm); [lia|]. unfold registered_queue in *. rewrite foldl_app. cbn [foldl].
  destruct (register_lists (entry_time e) (entry_hash e) (entry_fee e) _ _ Hl) as [Hl' Hi']; [lia..|].
  rewrite app_comm_cons, fmap_app, reverse_app. simpl. split_and!; [exact Hl'| |exact Hm].
  etrans; [exact Hi'|]. rewrite Hi. lia.
Qed.

Lemma valid_for_age hashes self h age :
  lists hashes self -> age <= max_age self ->
  is_hash_valid_for_age self h age = true <-> exists i, hashes !! i = Some h /\ Z.of_nat i <= age.
Proof.
  intros [Hl Ha Hk] Hage. unfold is_hash_valid_for_age. split.
  - destruct (ages self !! h) as [a|] eqn:Hh; [|done]. apply Ha in Hh as (i & Hi & -> & _).
    pose proof (lookup_lt_Some _ _ _ Hi). unfold vec_len in Hl. rewrite index_valid by lia.
    intros ?%bool_decide_eq_true. by exists i.
  - intros (i & Hi & Hle). pose proof (lookup_lt_Some _ _ _ Hi). unfold vec_len in Hl.
    destruct (Hk i h Hi ltac:(lia)) as [a Hh]. rewrite Hh. apply Ha in Hh as (j & Hj & -> & Hnew).
    specialize (Hnew i Hi). rewrite index_valid by lia. apply bool_decide_eq_true. lia.
Qed.

(** A place in a list, counted from the end. *)
Lemma reverse_lookup_split {A} (l : list A) i x :
  reverse l !! i = Some x <-> exists before after, l = before ++ x :: after /\ length after = i.
Proof.
  split.
  - intros Hi. exists (reverse (drop (S i) (reverse l))), (reverse (take i (reverse l))). split.
    + apply (inj reverse). rewrite reverse_app, reverse_cons, !reverse_involutive, <-app_assoc. symmetry.
      by apply take_drop_middle.
    + pose proof (lookup_lt_Some _ _ _ Hi). rewrite length_reverse, length_take. lia.
  - intros (before & after & -> & <-). rewrite reverse_app, reverse_cons, <-app_assoc.
    by rewrite lookup_app_r, length_reverse, Nat.sub_diag by (rewrite length_reverse; lia).
Qed.

(** C21: A blockhash is valid for an age exactly if no more hashes than the age
    were registered after it: the newest one is valid for the age 0, and one more
    with each age. The queue is any that starts from the genesis hash and has
    registered the hashes of the blocks, in number at most 2^64 - 1, and the age
    is at most the one that the queue is made for. *)
Theorem blockhash_valid_exact (max_age : Z) (genesis : HashEntry) (blocks : list HashEntry) (h : Hash) (age : Z) :
  0 <= max_age -> vec_len blocks <= int_max U64 -> age <= max_age ->
  is_hash_valid_for_age (registered_queue max_age genesis blocks) h age = true <->
  exists before after, entry_hash <$> genesis :: blocks = before ++ h :: after /\ vec_len after <= age.
Proof.
  intros Hn Hlen Hage. destruct (registered_queue_lists max_age genesis blocks Hn Hlen) as (Hl & _ & Hm).
  rewrite (valid_for_age _ _ h age Hl) by lia. split.
  - intros (i & (before & after & Hs & <-)%reverse_lookup_split & Hle). by exists before, after.
  - intros (before & after & Hs & Hle). exists (length after). split; [|done].
    apply reverse_lookup_split. by exists before, after.
Qed.

(** ** The status cache (runtime/src/status_cache.rs)

    The results of the transactions of recent blocks, by the blockhash they name
    and by twenty bytes of their key. All forks share one cache: an entry lists
    the slots in which the key was seen. *)

Definition MAX_CACHE_ENTRIES : Z := MAX_RECENT_BLOCKHASHES.
Definition CACHED_KEY_SIZE : Z := 20.

Abbreviation KeySlice := Bytes.

Section status_cache.
Context {T : Type}.

Abbreviation ForkStatus := (list (Slot * T)).
Abbreviation KeyMap := (gmap KeySlice ForkStatus).
Abbreviation Status := (gmap Hash (Z * list (KeySlice * T))).

(** For a blockhash: the highest slot it was seen in, where the slices of the
    keys start, and the slots of each slice. *)
Record StatusCache := mkStatusCache {
  cache : gmap Hash (Slot * Z * KeyMap);
  roots : gset Slot;
  slot_deltas : gmap Slot Status;
}.

Abbreviation SlotDelta := (Slot * bool * Status)%type.

Definition with_cache x (self : StatusCache) : StatusCache := mkStatusCache x (roots self) (slot_deltas self).
Definition with_roots x (self : StatusCache) : StatusCache := mkStatusCache (cache self) x (slot_deltas self).
Definition with_slot_deltas x (self : StatusCache) : StatusCache := mkStatusCache (cache self) (roots self) x.

Definition StatusCache_default : StatusCache := mkStatusCache ∅ {[0]} ∅.

Definition max_key_index (key : Bytes) : Z := saturating_sub USIZE (vec_len key) (CACHED_KEY_SIZE + 1).

(** [key[index..index + CACHED_KEY_SIZE]] *)
Definition key_slice_at (key : Bytes) (index : Z) : Outcome Empty_set KeySlice :=
  if index + CACHED_KEY_SIZE <=? vec_len key
  then Ok (take (Z.to_nat CACHED_KEY_SIZE) (drop (Z.to_nat index) key)) else Panic.

Definition get_status (key : Bytes) (transaction_blockhash : Hash) (ancestors : Ancestors) (self : StatusCache)
  : Outcome Empty_set (option (Slot * T)) :=
  match cache self !! transaction_blockhash with
  | None => Ok None
  | Some (_, index, keymap) =>
      let index := Z.min index (max_key_index key) in
      let! key_slice := key_slice_at key index in
      match keymap !! key_slice with
      | Some stored_forks =>
          Ok (List.find (fun p => contains_key ancestors (fst p) || bool_decide (fst p ∈ roots self)) stored_forks)
      | None => Ok None
      end
  end.

(** The blockhashes come in some order. *)
Fixpoint get_status_of (keys : list Hash) (key : Bytes) (ancestors : Ancestors) (self : StatusCache)
  : Outcome Empty_set (option (Slot * T)) :=
  match keys with
  | [] => Ok None
  | blockhash :: keys =>
      let! status := get_status key blockhash ancestors self in
      match status with Some _ => Ok status | None => get_status_of keys key ancestors self end
  end.

Definition get_status_any_blockhash (key : Bytes) (ancestors : Ancestors) (self : StatusCache)
  : Outcome Empty_set (option (Slot * T)) :=
  get_status_of (fst <$> map_to_list (cache self)) key ancestors self.

Definition insert_with_slice (transaction_blockhash : Hash) (slot : Slot) (key_index : Z) (key_slice : KeySlice) (res : T)
    (self : StatusCache) : StatusCache :=
  let '(fork, index, keymap) := default (slot, key_index, ∅) (cache self !! transaction_blockhash) in
  let forks := default [] (keymap !! key_slice) ++ [(slot, res)] in
  let fork_entry := default ∅ (slot_deltas self !! slot) in
  let '(delta_index, hash_entry) := default (key_index, []) (fork_entry !! transaction_blockhash) in
  mkStatusCache
    (<[transaction_blockhash := (Z.max slot fork, index, <[key_slice := forks]> keymap)]> (cache self)) (roots self)
    (<[slot := <[transaction_blockhash := (delta_index, hash_entry ++ [(key_slice, res)])]> fork_entry]> (slot_deltas self)).

(** [random] is what [gen_range(0..max_key_index + 1)] gives. *)
Definition insert_status (random : Z) (transaction_blockhash : Hash) (key : Bytes) (slot : Slot) (res : T)
    (self : StatusCache) : Outcome Empty_set StatusCache :=
  let '(fork, index, keymap) := default (slot, random, ∅) (cache self !! transaction_blockhash) in
  let self := with_cache (<[transaction_blockhash := (Z.max slot fork, index, keymap)]> (cache self)) self in
  let key_index := Z.min index (max_key_index key) in
  let! key_slice := key_slice_at key key_index in
  Ok (insert_with_slice transaction_blockhash slot key_index key_slice res self).

Definition purge_roots (self : StatusCache) : StatusCache :=
  if MAX_CACHE_ENTRIES <? Z.of_nat (size (roots self))
  then match least (roots self) with
       | Some min =>
           mkStatusCache (filter (fun p => min < fst (fst (snd p))) (cache self)) (roots self ∖ {[min]})
             (filter (fun p => min < fst p) (slot_deltas self))
       | None => self
       end
  else self.

Definition status_add_root (fork : Slot) (self : StatusCache) : StatusCache :=
  purge_roots (with_roots ({[fork]} ∪ roots self) self).

(** One key of a slot that is cleared. *)
Definition clear_key (slot : Slot) (key_slice : KeySlice) (all_hash_maps : KeyMap) : Outcome Empty_set KeyMap :=
  match all_hash_maps !! key_slice with
  | Some key_list =>
      let key_list := filter (fun p => fst p <> slot) key_list in
      Ok (if bool_decide (key_list = []) then delete key_slice all_hash_maps else <[key_slice := key_list]> all_hash_maps)
  | None => Panic
  end.

Fixpoint clear_keys (slot : Slot) (key_list : list (KeySlice * T)) (all_hash_maps : KeyMap) : Outcome Empty_set KeyMap :=
  match key_list with
  | [] => Ok all_hash_maps
  | (key_slice, _) :: key_list =>
      let! all_hash_maps := clear_key slot key_slice all_hash_maps in clear_keys slot key_list all_hash_maps
  end.

(** The blockhashes of the slot, in some order. *)
Fixpoint clear_hashes (slot : Slot) (deltas : list (Hash * (Z * list (KeySlice * T))))
    (cache : gmap Hash (Slot * Z * KeyMap)) : Outcome Empty_set (gmap Hash (Slot * Z * KeyMap)) :=
  match deltas with
  | [] => Ok cache
  | (blockhash, (_, key_list)) :: deltas =>
      match cache !! blockhash with
      | Some (fork, index, all_hash_maps) =>
          let! all_hash_maps := clear_keys slot key_list all_hash_maps in
          clear_hashes slot deltas
            (if bool_decide (all_hash_maps = ∅) then delete blockhash cache
             else <[blockhash := (fork, index, all_hash_maps)]> cache)
      | None => Panic
      end
  end.

Definition clear_slot_entries (slot : Slot) (self : StatusCache) : Outcome Empty_set StatusCache :=
  match slot_deltas self !! slot with
  | None => Ok self
  | Some deltas =>
      let! cache := clear_hashes slot (map_to_list deltas) (cache self) in
      Ok (mkStatusCache cache (roots self) (delete slot (slot_deltas self)))
  end.

Definition root_slot_deltas (self : StatusCache) : list SlotDelta :=
  (fun root => (root, true, default ∅ (slot_deltas self !! root))) <$> elements (roots self).

Definition append_statuses (slot : Slot) (statuses : Status) (self : StatusCache) : StatusCache :=
  foldl (fun self '(tx_hash, (key_index, statuses)) =>
    foldl (fun self '(key_slice, res) => insert_with_slice tx_hash slot key_index key_slice res self) self statuses)
    self (map_to_list statuses).

Definition append (deltas : list SlotDelta) (self : StatusCache) : StatusCache :=
  foldl (fun self '(slot, is_root, statuses) =>
    let self := append_statuses slot statuses self in
    if is_root : bool then status_add_root slot self else self) self deltas.

Definition from_slot_deltas (deltas : list SlotDelta) : StatusCache := append deltas StatusCache_default.

End status_cache.
Arguments StatusCache : clear implicits.

(** ** What is recorded *)

Section recorded.
Context {T : Type}.
Implicit Types self : StatusCache T.

(** The slices start at an index. *)
Definition cache_wf self : Prop := forall h fork index keymap, cache self !! h = Some (fork, index, keymap) -> 0 <= index.

(** The key was seen with the blockhash in slot [s]. *)
Definition recorded self (h : Hash) (key : Bytes) (s : Slot) : Prop :=
  exists fork index keymap slice forks,
    cache self !! h = Some (fork, index, keymap) /\ s <= fork /\
    key_slice_at key (Z.min index (max_key_index key)) = Ok slice /\
    keymap !! slice = Some forks /\ s ∈ forks.*1.

Lemma key_slice_ok key index :
  0 <= index -> CACHED_KEY_SIZE <= vec_len key <= int_max USIZE ->
  exists slice, key_slice_at key (Z.min index (max_key_index key)) = Ok slice.
Proof.
  intros Hi Hk. unfold key_slice_at. eexists. rewrite (proj2 (Z.leb_le _ _)); [done|].
  unfold max_key_index, saturating_sub, saturating, CACHED_KEY_SIZE in *. simpl in *. lia.
Qed.

Lemma recorded_found self h key s ancestors :
  recorded self h key s -> contains_key ancestors s = true \/ s ∈ roots self ->
  exists p, get_status key h ancestors self = Ok (Some p).
Proof.
  intros (fork & index & keymap & slice & forks & Hc & _ & Hs & Hk & Hin) Hv. unfold get_status. rewrite Hc, Hs. simpl.
  rewrite Hk. destruct (List.find _ forks) as [p|] eqn:Hf; [by exists p|].
  apply list_elem_of_fmap in Hin as (p & -> & Hp%list_elem_of_In). apply (find_none _ _ Hf) in Hp.
  apply orb_false_iff in Hp as [H1 H2%bool_decide_eq_false]. destruct Hv; [congruence|done].
Qed.

Lemma insert_with_slice_cache h slot i slice res self :
  cache (insert_with_slice h slot i slice res self) =
    let '(fork, index, keymap) := default (slot, i, ∅) (cache self !! h) in
    <[h := (Z.max slot fork, index, <[slice := default [] (keymap !! slice) ++ [(slot, res)]]> keymap)]> (cache self).
Proof.
  unfold insert_with_slice. destruct (default _ (cache self !! h)) as [[fork index] keymap].
  by destruct (default (i, []) _).
Qed.

Lemma insert_with_slice_roots h slot i slice res self : roots (insert_with_slice h slot i slice res self) = roots self.
Proof.
  unfold insert_with_slice. destruct (default _ (cache self !! h)) as [[fork index] keymap].
  by destruct (default (i, []) _).
Qed.

(** A key is recorded, and what was recorded stays. *)
Lemma insert_records random h key slot res self :
  cache_wf self -> 0 <= random -> CACHED_KEY_SIZE <= vec_len key <= int_max USIZE ->
  exists self', insert_status random h key slot res self = Ok self' /\ cache_wf self' /\ roots self' = roots self /\
    recorded self' h key slot /\ forall h' key' s, recorded self h' key' s -> recorded self' h' key' s.
Proof.
  intros Hwf Hr Hk. unfold insert_status. destruct (default _ (cache self !! h)) as [[fork index] keymap] eqn:Hd.
  assert (0 <= index /\ (cache self !! h = Some (fork, index, keymap) \/ cache self !! h = None)) as [Hi Hc].
  { destruct (cache self !! h) as [x|] eqn:Hc; simpl in Hd; simplify_eq; [|by auto]. split; [by eapply Hwf|by left]. }
  destruct (key_slice_ok key index Hi Hk) as [slice Hs]. rewrite Hs. simpl. eexists. split; [done|].
  set (self' := insert_with_slice _ _ _ _ _ _).
  assert (cache self' = <[h := (Z.max slot (Z.max slot fork), index, <[slice := default [] (keymap !! slice) ++ [(slot, res)]]> keymap)]> (cache self)) as Hc'.
  { unfold self'. rewrite insert_with_slice_cache. simpl. rewrite lookup_insert_eq. simpl. by rewrite insert_insert_eq. }
  split_and!.
  - intros h' f' i' k'. rewrite Hc'. intros [[<- [= <- <- <-]]|[_ H]]%lookup_insert_Some; [done|by eapply Hwf].
  - unfold self'. by rewrite insert_with_slice_roots.
  - exists (Z.max slot (Z.max slot fork)), index, (<[slice := default [] (keymap !! slice) ++ [(slot, res)]]> keymap), slice,
      (default [] (keymap !! slice) ++ [(slot, res)]). rewrite Hc', !lookup_insert_eq. split_and!; try done; [lia|].
    rewrite fmap_app. set_solver.
  - intros h' key' s (f' & i' & k' & slice' & forks' & Hl & Hsf & Hs' & Hk' & Hin). unfold recorded. rewrite Hc'.
    destruct (decide (h' = h)) as [->|Hne]; [|by rewrite lookup_insert_ne by done; eauto 10].
    rewrite lookup_insert_eq. destruct Hc as [Hc|Hc]; rewrite Hc in Hl; [|done]. simplify_eq.
    destruct (decide (slice' = slice)) as [->|Hne].
    + do 5 eexists. split_and!; [done|lia|done|by rewrite lookup_insert_eq|]. rewrite Hk'. simpl. rewrite fmap_app. set_solver.
    + exists (Z.max slot (Z.max slot f')), i', (<[slice := default [] (k' !! slice) ++ [(slot, res)]]> k'), slice', forks'.
      rewrite lookup_insert_ne by done. split_and!; try done. lia.
Qed.

(** [s] left the cache: more roots than it keeps are newer. *)
Definition outdated (X : gset Slot) (s : Slot) : Prop :=
  exists Y, Y ⊆ X /\ MAX_CACHE_ENTRIES <= Z.of_nat (size Y) /\ forall y, y ∈ Y -> s < y.

Lemma outdated_mono X X' s s' : X ⊆ X' -> s' <= s -> outdated X s -> outdated X' s'.
Proof. intros HX Hs (Y & HY & Hn & Hy). exists Y. split_and!; [set_solver|done|]. intros y Hy'. specialize (Hy y Hy'). lia. Qed.

(** Either nothing is purged, or all that is purged is outdated. *)
Lemma purge_roots_cases self :
  purge_roots self = self \/
  exists m, outdated (roots self) m /\ roots (purge_roots self) = roots self ∖ {[m]} /\
    cache (purge_roots self) = filter (fun p => m < fst (fst (snd p))) (cache self).
Proof.
  unfold purge_roots. destruct (Z.ltb_spec MAX_CACHE_ENTRIES (Z.of_nat (size (roots self)))) as [Hlt|]; [|by left].
  pose proof (least_spec (roots self)) as Hl. destruct (least (roots self)) as [m|]; [|by left]. destruct Hl as [Hm Hmin].
  right. exists m. split_and!; try done. exists (roots self ∖ {[m]}). split_and!; [set_solver| |].
  - rewrite size_difference, size_singleton by set_solver.
    assert (size (roots self) <> 0%nat) by (intros He; apply size_empty_inv, leibniz_equiv in He; set_solver). lia.
  - intros y [Hy Hne]%elem_of_difference. rewrite elem_of_singleton in Hne. specialize (Hmin y Hy). lia.
Qed.

Lemma purge_keeps self h key s :
  recorded self h key s -> recorded (purge_roots self) h key s \/ outdated (roots self) s.
Proof.
  intros (fork & index & keymap & slice & forks & Hc & Hsf & Hr).
  destruct (purge_roots_cases self) as [->|(m & Ho & _ & Hcache)]; [left; by exists fork, index, keymap, slice, forks|].
  destruct (decide (m < fork)).
  - left. exists fork, index, keymap, slice, forks. split; [|done]. rewrite Hcache. by apply map_lookup_filter_Some.
  - right. eapply outdated_mono; [done| |done]. lia.
Qed.

Lemma purge_roots_keeps self s : s ∈ roots self -> s ∈ roots (purge_roots self) \/ outdated (roots self) s.
Proof.
  intros Hs. destruct (purge_roots_cases self) as [->|(m & Ho & Hroots & _)]; [by left|].
  destruct (decide (s = m)) as [->|]; [by right|]. left. rewrite Hroots. set_solver.
Qed.

Lemma purge_roots_subset self : roots (purge_roots self) ⊆ roots self.
Proof. destruct (purge_roots_cases self) as [->|(m & _ & -> & _)]; set_solver. Qed.

Lemma purge_wf self : cache_wf self -> cache_wf (purge_roots self).
Proof.
  intros Hwf h f i k. destruct (purge_roots_cases self) as [->|(m & _ & _ & ->)]; [apply Hwf|].
  intros [H _]%map_lookup_filter_Some. by eapply Hwf.
Qed.

(** A root is added, and what is lost is outdated. *)
Lemma add_root_spec fork self :
  cache_wf self ->
  let self' := status_add_root fork self in
  cache_wf self' /\ roots self' ⊆ {[fork]} ∪ roots self /\
  (forall s, s ∈ {[fork]} ∪ roots self -> s ∈ roots self' \/ outdated ({[fork]} ∪ roots self) s) /\
  forall h key s, recorded self h key s -> recorded self' h key s \/ outdated ({[fork]} ∪ roots self) s.
Proof.
  intros Hwf. unfold status_add_root. set (self1 := with_roots _ self). split_and!.
  - by apply purge_wf.
  - apply (purge_roots_subset self1).
  - apply (purge_roots_keeps self1).
  - intros h key s Hr. by apply (purge_keeps self1).
Qed.

(** ** Clearing a slot *)

Lemma clear_key_keeps slot slice m m' :
  clear_key (T:=T) slot slice m = Ok m' ->
  forall slice' s forks, m !! slice' = Some forks -> s ∈ forks.*1 -> s <> slot ->
  exists forks', m' !! slice' = Some forks' /\ s ∈ forks'.*1.
Proof.
  unfold clear_key. destruct (m !! slice) as [key_list|] eqn:Hk; [|done]. intros [= <-] slice' s forks Hf Hs Hne.
  destruct (decide (slice' = slice)) as [->|Hns].
  - simplify_eq. apply list_elem_of_fmap in Hs as (p & -> & Hp).
    assert (p ∈ filter (fun p => fst p <> slot) key_list) as Hp' by (by apply list_elem_of_filter).
    rewrite bool_decide_false by (intros He; rewrite He in Hp'; by apply elem_of_nil in Hp').
    exists (filter (fun p => fst p <> slot) key_list). rewrite lookup_insert_eq. split; [done|].
    apply list_elem_of_fmap. by exists p.
  - exists forks. split; [|done]. case_bool_decide; [by rewrite lookup_delete_ne|by rewrite lookup_insert_ne].
Qed.

Lemma clear_keys_keep slot key_list m m' :
  clear_keys (T:=T) slot key_list m = Ok m' ->
  forall slice s forks, m !! slice = Some forks -> s ∈ forks.*1 -> s <> slot ->
  exists forks', m' !! slice = Some forks' /\ s ∈ forks'.*1.
Proof.
  revert m. induction key_list as [|[sl r] key_list IH]; intros m Hrun slice s forks Hf Hs Hne; simpl in Hrun.
  { injection Hrun as <-. by exists forks. }
  destruct (clear_key slot sl m) as [m1|?|] eqn:H1; try done. simpl in Hrun.
  destruct (clear_key_keeps slot sl m m1 H1 slice s forks Hf Hs Hne) as (forks1 & Hf1 & Hs1). by eapply IH.
Qed.

Lemma clear_hashes_keep slot deltas c c' :
  clear_hashes (T:=T) slot deltas c = Ok c' ->
  (forall h f i k, c' !! h = Some (f, i, k) -> exists k', c !! h = Some (f, i, k')) /\
  forall h f i k slice s forks, c !! h = Some (f, i, k) -> k !! slice = Some forks -> s ∈ forks.*1 -> s <> slot ->
  exists k' forks', c' !! h = Some (f, i, k') /\ k' !! slice = Some forks' /\ s ∈ forks'.*1.
Proof.
  revert c. induction deltas as [|[b [x key_list]] deltas IH]; intros c Hrun; simpl in Hrun.
  { injection Hrun as <-. split; [by eauto|]. intros. eauto. }
  destruct (c !! b) as [[[f i] all]|] eqn:Hb; [|done].
  destruct (clear_keys slot key_list all) as [all'|?|] eqn:Hk; try done. simpl in Hrun. apply IH in Hrun as [Hwf Hkeep].
  split.
  - intros h f' i' k' H. apply Hwf in H as [k1 H]. case_bool_decide.
    + apply lookup_delete_Some in H as [_ H]. by exists k1.
    + apply lookup_insert_Some in H as [[<- [= <- <- <-]]|[_ H]]; eauto.
  - intros h f' i' k slice s forks Hh Hf Hs Hne. destruct (decide (h = b)) as [->|Hhb].
    + rewrite Hb in Hh. simplify_eq.
      destruct (clear_keys_keep slot key_list k all' Hk slice s forks Hf Hs Hne) as (forks1 & Hf1 & Hs1).
      rewrite bool_decide_false in Hkeep by (intros ->; by rewrite lookup_empty in Hf1).
      eapply (Hkeep b f' i' all'); [by rewrite lookup_insert_eq|done|done|done].
    + eapply (Hkeep h f' i' k); [|done|done|done].
      case_bool_decide; [by rewrite lookup_delete_ne|by rewrite lookup_insert_ne].
Qed.

(** Clearing a slot keeps what other slots recorded. *)
Lemma clear_slot_keeps slot self self' :
  clear_slot_entries slot self = Ok self' -> cache_wf self ->
  cache_wf self' /\ roots self' = roots self /\
  forall h key s, s <> slot -> recorded self h key s -> recorded self' h key s.
Proof.
  unfold clear_slot_entries. destruct (slot_deltas self !! slot) as [deltas|]; [|by intros [= <-]].
  destruct (clear_hashes slot _ _) as [c|?|] eqn:Hc; try done. intros [= <-] Hwf. apply clear_hashes_keep in Hc as [Hw Hkeep].
  split_and!; [|done|].
  - intros h f i k H. simpl in H. apply Hw in H as [k' H]. by eapply Hwf.
  - intros h key s Hne (fork & index & keymap & slice & forks & Hh & Hsf & Hsl & Hk & Hs).
    destruct (Hkeep h fork index keymap slice s forks Hh Hk Hs Hne) as (k' & forks' & Hh' & Hk' & Hs').
    by exists fork, index, k', slice, forks'.
Qed.

End recorded.
