(* ===== verification/BankForks.v ===== *)
(** * Banks and their forks (runtime/src/bank.rs, runtime/src/bank_forks.rs)

    A bank is a block under construction: it checks that transactions name a
    recent blockhash and were not processed before, and records them. Banks form
    a tree; all of them share the status cache. The second part shows what the
    operations on the tree do to it. *)

From S2P Require Import Prelude Errors Rent Account Pubkey TransactionContext Sysvars Nonce SystemProgram BTreeMap Message MessageProcessor AccountLocks RollingBits StatusCache.

(** ** Banks *)

(** [bank_parent] is the slot of the bank that [rc.parent] points to, and
    [bank_state] are the accounts that loading finds. *)
Record ForkBank := mkForkBank {
  bank_slot : Slot;
  bank_parent : option Slot;
  bank_ancestors : Ancestors;
  blockhash_queue : BlockhashQueue;
  ticks_per_slot : Z;
  tick_height : Z;
  max_tick_height : Z;
  bank_freeze_started : bool;
  fee_rate : Z;
  bank_state : gmap Pubkey AccountSharedData;
}.

Definition set_bank_parent x (self : ForkBank) : ForkBank :=
  mkForkBank (bank_slot self) x (bank_ancestors self) (blockhash_queue self) (ticks_per_slot self) (tick_height self)
    (max_tick_height self) (bank_freeze_started self) (fee_rate self) (bank_state self).
Definition set_blockhash_queue x (self : ForkBank) : ForkBank :=
  mkForkBank (bank_slot self) (bank_parent self) (bank_ancestors self) x (ticks_per_slot self) (tick_height self)
    (max_tick_height self) (bank_freeze_started self) (fee_rate self) (bank_state self).
Definition set_tick_height x (self : ForkBank) : ForkBank :=
  mkForkBank (bank_slot self) (bank_parent self) (bank_ancestors self) (blockhash_queue self) (ticks_per_slot self) x
    (max_tick_height self) (bank_freeze_started self) (fee_rate self) (bank_state self).
Definition set_bank_freeze_started x (self : ForkBank) : ForkBank :=
  mkForkBank (bank_slot self) (bank_parent self) (bank_ancestors self) (blockhash_queue self) (ticks_per_slot self)
    (tick_height self) (max_tick_height self) x (fee_rate self) (bank_state self).
Definition set_bank_state x (self : ForkBank) : ForkBank :=
  mkForkBank (bank_slot self) (bank_parent self) (bank_ancestors self) (blockhash_queue self) (ticks_per_slot self)
    (tick_height self) (max_tick_height self) (bank_freeze_started self) (fee_rate self) x.

(** Freezing changes accounts as well; see [bank_state]. *)
Definition freeze (self : ForkBank) : ForkBank := set_bank_freeze_started true self.

Definition is_block_boundary (tick_height : Z) (self : ForkBank) : bool := tick_height =? max_tick_height self.
Definition is_complete (self : ForkBank) : bool := tick_height self =? max_tick_height self.

(** ** Ticks *)

Definition register_recent_blockhash (now : Z) (blockhash : Hash) (self : ForkBank) : ForkBank :=
  set_blockhash_queue (register_hash now blockhash (fee_rate self) (blockhash_queue self)) self.

Definition register_tick (now : Z) (hash : Hash) (self : ForkBank) : Outcome Empty_set ForkBank :=
  if bank_freeze_started self then Panic else
  let next := wrapping U64 (tick_height self + 1) in
  let self := if is_block_boundary next self then register_recent_blockhash now hash self else self in
  Ok (set_tick_height next self).

(** ** Checks of transactions *)

Abbreviation BankStatusCache := (StatusCache (TxResult unit)).

Record NoncePartial := mkNoncePartial { np_address : Pubkey; np_account : AccountSharedData }.

Abbreviation TransactionCheckResult := (TxResult unit * option NoncePartial * option Z)%type.

Section checks.
Context `{!ProgramIds, !MessageIds, !Hashing, !Bincode Versions, !BincodeLimited SystemInstruction}.

Definition NONCED_TX_MARKER_IX_INDEX : Z := 0.

Definition check_message_for_nonce (self : ForkBank) (message : SanitizedMessage) : option (Pubkey * AccountSharedData) :=
  nonce_address ← Sanitized.get_durable_nonce message;
  nonce_account ← bank_state self !! nonce_address;
  nonce_data ← verify_nonce_account nonce_account (Sanitized.recent_blockhash message);
  if existsb (fun signer => bool_decide (signer = authority nonce_data))
       (Sanitized.get_ix_signers message NONCED_TX_MARKER_IX_INDEX)
  then Some (nonce_address, nonce_account) else None.

Definition check_transaction_for_nonce (self : ForkBank) (tx : SanitizedTransaction) (next_durable_nonce : DurableNonce)
  : option (Pubkey * AccountSharedData) :=
  if bool_decide (Sanitized.recent_blockhash (st_message tx) <> next_durable_nonce)
  then check_message_for_nonce self (st_message tx) else None.

Definition check_transaction_age (self : ForkBank) (tx : SanitizedTransaction) (max_age : Z)
    (next_durable_nonce : DurableNonce) (hash_queue : BlockhashQueue) : TransactionCheckResult :=
  let recent_blockhash := Sanitized.recent_blockhash (st_message tx) in
  if is_hash_valid_for_age hash_queue recent_blockhash max_age
  then (Ok tt, None, queue_lamports_per_signature hash_queue recent_blockhash)
  else match check_transaction_for_nonce self tx next_durable_nonce with
       | Some (address, account) =>
           (Ok tt, Some (mkNoncePartial address account), lamports_per_signature_of account)
       | None => (Err TransactionError.BlockhashNotFound, None, None)
       end.

Definition check_age (self : ForkBank) (sanitized_txs : list SanitizedTransaction) (lock_results : list (TxResult unit))
    (max_age : Z) : Outcome Empty_set (list TransactionCheckResult) :=
  let! last_blockhash := last_hash (blockhash_queue self) in
  let next_durable_nonce := from_blockhash last_blockhash in
  Ok (zip_with (fun tx (lock_res : TxResult unit) =>
        match lock_res with
        | Ok _ => check_transaction_age self tx max_age next_durable_nonce (blockhash_queue self)
        | _ => (lock_res, None, None)
        end) sanitized_txs lock_results).

Definition is_transaction_already_processed (self : ForkBank) (sanitized_tx : SanitizedTransaction)
    (status_cache : BankStatusCache) : Outcome Empty_set bool :=
  let! status := get_status (st_message_hash sanitized_tx) (Sanitized.recent_blockhash (st_message sanitized_tx))
                   (bank_ancestors self) status_cache in
  Ok (bool_decide (is_Some status)).

Fixpoint check_status_cache (self : ForkBank) (rows : list (SanitizedTransaction * TransactionCheckResult))
    (status_cache : BankStatusCache) : Outcome Empty_set (list TransactionCheckResult) :=
  match rows with
  | [] => Ok []
  | (sanitized_tx, (lock_result, nonce, lamports)) :: rows =>
      let! processed := if is_ok lock_result then is_transaction_already_processed self sanitized_tx status_cache
                        else Ok false in
      let! rest := check_status_cache self rows status_cache in
      Ok ((if processed : bool then (Err TransactionError.AlreadyProcessed, None, None)
           else (lock_result, nonce, lamports)) :: rest)
  end.

Definition check_transactions (self : ForkBank) (sanitized_txs : list SanitizedTransaction)
    (lock_results : list (TxResult unit)) (max_age : Z) (status_cache : BankStatusCache)
  : Outcome Empty_set (list TransactionCheckResult) :=
  let! lock_results := check_age self sanitized_txs lock_results max_age in
  check_status_cache self (zip sanitized_txs lock_results) status_cache.

End checks.

(** ** Recording transactions *)

(** Of the details of an execution, the status. *)
Inductive TransactionExecutionResult : Type :=
| Executed (status : TxResult unit)
| NotExecuted (e : TxError).

Definition details (self : TransactionExecutionResult) : option (TxResult unit) :=
  match self with Executed status => Some status | NotExecuted _ => None end.

Definition signature (self : SanitizedTransaction) : Outcome Empty_set Bytes :=
  match st_signatures self with signature :: _ => Ok signature | [] => Panic end.

(** Each transaction has two random numbers, for a blockhash that is new. *)
Fixpoint record_statuses (slot : Slot) (rows : list (SanitizedTransaction * TransactionExecutionResult * (Z * Z)))
    (status_cache : BankStatusCache) : Outcome Empty_set BankStatusCache :=
  match rows with
  | [] => Ok status_cache
  | (tx, execution_result, (random, random')) :: rows =>
      let! status_cache :=
        match details execution_result with
        | Some status =>
            let blockhash := Sanitized.recent_blockhash (st_message tx) in
            let! status_cache := insert_status random blockhash (st_message_hash tx) slot status status_cache in
            let! signature := signature tx in
            insert_status random' blockhash signature slot status status_cache
        | None => Ok status_cache
        end in
      record_statuses slot rows status_cache
  end.

Definition update_transaction_statuses (self : ForkBank) (sanitized_txs : list SanitizedTransaction)
    (execution_results : list TransactionExecutionResult) (randoms : list (Z * Z)) (status_cache : BankStatusCache)
  : Outcome Empty_set BankStatusCache :=
  if bool_decide (length sanitized_txs = length execution_results)
  then record_statuses (bank_slot self) (zip (zip sanitized_txs execution_results) randoms) status_cache else Panic.

(** What [commit_transactions] does to the cache; what it does to accounts is in
    [bank_state]. *)
Definition commit_transactions (self : ForkBank) (sanitized_txs : list SanitizedTransaction)
    (execution_results : list TransactionExecutionResult) (randoms : list (Z * Z)) (status_cache : BankStatusCache)
  : Outcome Empty_set BankStatusCache :=
  if bank_freeze_started self then Panic
  else update_transaction_statuses self sanitized_txs execution_results randoms status_cache.

(** ** Forks *)

Record BankForks := mkBankForks {
  banks : gmap Slot ForkBank;
  descendants : gmap Slot (gset Slot);
  forks_root : Slot;
}.

Definition with_banks x (self : BankForks) : BankForks := mkBankForks x (descendants self) (forks_root self).
Definition with_descendants x (self : BankForks) : BankForks := mkBankForks (banks self) x (forks_root self).
Definition with_forks_root x (self : BankForks) : BankForks := mkBankForks (banks self) (descendants self) x.

(** [while let Some(parent) = bank]: each parent is another bank. *)
Fixpoint parents_from (fuel : nat) (parent : option Slot) (banks : gmap Slot ForkBank) : list Slot :=
  match fuel, parent with
  | S fuel, Some slot => slot :: parents_from fuel (banks !! slot ≫= bank_parent) banks
  | _, _ => []
  end.

Definition parents (self : ForkBank) (banks : gmap Slot ForkBank) : list Slot :=
  parents_from (size banks) (bank_parent self) banks.

(** The parent is frozen. The fee rate and the accounts of the new bank are
    computed from those of the parent. *)
Definition new_from_parent (parent : ForkBank) (slot : Slot) (fee_rate : Z) (state : gmap Pubkey AccountSharedData)
    (banks : gmap Slot ForkBank) : Outcome Empty_set (ForkBank * gmap Slot ForkBank) :=
  let parent := freeze parent in
  let banks := <[bank_slot parent := parent]> banks in
  if slot =? bank_slot parent then Panic else
  let! ancestors := Ancestors_from (slot :: bank_slot parent :: parents parent banks) in
  Ok (mkForkBank slot (Some (bank_slot parent)) ancestors (blockhash_queue parent) (ticks_per_slot parent)
        (tick_height parent) (wrapping U64 ((slot + 1) * ticks_per_slot parent)) false fee_rate state, banks).

Definition proper_ancestors (self : ForkBank) : list Slot :=
  filter (fun slot => slot <> bank_slot self) (ancestors_keys (bank_ancestors self)).

Definition forks_insert (bank : ForkBank) (self : BankForks) : Outcome Empty_set BankForks :=
  let slot := bank_slot bank in
  if bool_decide (is_Some (banks self !! slot)) then Panic else
  let self := with_banks (<[slot := bank]> (banks self)) self in
  let descendants := <[slot := default ∅ (descendants self !! slot)]> (descendants self) in
  Ok (with_descendants
        (foldl (fun m parent => <[parent := {[slot]} ∪ default ∅ (m !! parent)]> m) descendants (proper_ancestors bank)) self).

(** [slot] is no descendant of [parent] any more. *)
Definition forget_descendant (slot parent : Slot) (self : BankForks) : Outcome Empty_set BankForks :=
  match descendants self !! parent with
  | None => Panic
  | Some set =>
      let set := set ∖ {[slot]} in
      Ok (with_descendants
            (if bool_decide (set = ∅) && negb (bool_decide (is_Some (banks self !! parent)))
             then delete parent (descendants self) else <[parent := set]> (descendants self)) self)
  end.

Fixpoint forget_descendants (slot : Slot) (parents : list Slot) (self : BankForks) : Outcome Empty_set BankForks :=
  match parents with
  | [] => Ok self
  | parent :: parents => let! self := forget_descendant slot parent self in forget_descendants slot parents self
  end.

Definition forks_remove (slot : Slot) (self : BankForks) : Outcome Empty_set (option ForkBank * BankForks) :=
  match banks self !! slot with
  | None => Ok (None, self)
  | Some bank =>
      let self := with_banks (delete slot (banks self)) self in
      let! self := forget_descendants slot (proper_ancestors bank) self in
      match descendants self !! slot with
      | None => Panic
      | Some set =>
          Ok (Some bank, if bool_decide (set = ∅) then with_descendants (delete slot (descendants self)) self else self)
      end
  end.

Fixpoint forks_remove_all (slots : list Slot) (self : BankForks) : Outcome Empty_set BankForks :=
  match slots with
  | [] => Ok self
  | slot :: slots =>
      let! removed := forks_remove slot self in
      let '(_, self) := removed : option ForkBank * BankForks in forks_remove_all slots self
  end.

(** Whether a bank stays when [root] is rooted. *)
Definition keeps_slot (root highest_super_majority_root : Slot) (self : BankForks) (slot : Slot) : Outcome Empty_set bool :=
  if slot =? root then Ok true else
  let! below_root := match descendants self !! root with Some set => Ok set | None => Panic end in
  if bool_decide (slot ∈ (below_root : gset Slot)) then Ok true else
  if (slot <? root) && (highest_super_majority_root <=? slot)
  then match descendants self !! slot with Some set => Ok (bool_decide (root ∈ set)) | None => Panic end
  else Ok false.

Fixpoint pruned_slots (root highest_super_majority_root : Slot) (slots : list Slot) (self : BankForks)
  : Outcome Empty_set (list Slot) :=
  match slots with
  | [] => Ok []
  | slot :: slots =>
      let! keep := keeps_slot root highest_super_majority_root self slot in
      let! rest := pruned_slots root highest_super_majority_root slots self in
      Ok (if keep : bool then rest else slot :: rest)
  end.

Definition prune_non_rooted (root : Slot) (highest_super_majority_root : option Slot) (self : BankForks)
  : Outcome Empty_set BankForks :=
  let! slots := pruned_slots root (default root highest_super_majority_root) (fst <$> map_to_list (banks self)) self in
  forks_remove_all slots self.

(** The bank and its parents become roots, the bank first. *)
Definition squash (slot : Slot) (banks : gmap Slot ForkBank) (status_cache : BankStatusCache)
  : Outcome Empty_set (gmap Slot ForkBank * BankStatusCache) :=
  match banks !! slot with
  | None => Panic
  | Some bank =>
      let roots := slot :: parents bank banks in
      Ok (<[slot := set_bank_parent None (freeze bank)]> banks, foldl (fun cache root => status_add_root root cache) status_cache roots)
  end.

Fixpoint squash_each (slots : list Slot) (banks : gmap Slot ForkBank) (status_cache : BankStatusCache)
  : Outcome Empty_set (gmap Slot ForkBank * BankStatusCache) :=
  match slots with
  | [] => Ok (banks, status_cache)
  | slot :: slots =>
      let! squashed := squash slot banks status_cache in
      let '(banks, status_cache) := squashed : gmap Slot ForkBank * BankStatusCache in squash_each slots banks status_cache
  end.

(** [requests] are the banks on the way to the root for which a hash of the
    accounts is asked, which are squashed first. *)
Definition set_root (root : Slot) (requests : list Slot) (highest_super_majority_root : option Slot) (self : BankForks)
    (status_cache : BankStatusCache) : Outcome Empty_set (BankForks * BankStatusCache) :=
  let self := with_forks_root root self in
  let slots := if bool_decide (list.last requests = Some root) then requests else requests ++ [root] in
  let! squashed := squash_each slots (banks self) status_cache in
  let '(banks, status_cache) := squashed : gmap Slot ForkBank * BankStatusCache in
  let! self := prune_non_rooted root highest_super_majority_root (with_banks banks self) in
  Ok (self, status_cache).

(** ** The tree of banks

    The map of descendants is the inverse of the ancestors of the banks, under
    insertion, removal and pruning; and squashing makes a bank and all of its
    parents roots, whatever was squashed before it. *)

(** ** Descendants *)

Definition banks_wf (m : gmap Slot ForkBank) : Prop := forall k b, m !! k = Some b -> bank_slot b = k.

Definition below (self : BankForks) (s d : Slot) : Prop := d ∈ default ∅ (descendants self !! s).

Definition descends (self : BankForks) : Prop := forall s d,
  below self s d <-> exists b, banks self !! d = Some b /\ s ∈ proper_ancestors b.

Lemma insert_descendants slot l (m : gmap Slot (gset Slot)) s d :
  d ∈ default ∅ (foldl (fun m parent => <[parent := {[slot]} ∪ default ∅ (m !! parent)]> m) m l !! s) <->
  d ∈ default ∅ (m !! s) \/ (d = slot /\ s ∈ l).
Proof.
  revert m. induction l as [|x l IH]; intros m; simpl; [set_solver|]. rewrite IH. clear IH.
  destruct (decide (s = x)) as [->|Hne]; [rewrite lookup_insert_eq; simpl; set_solver|].
  rewrite lookup_insert_ne by done. set_solver.
Qed.

Lemma forks_insert_spec bank self self' :
  forks_insert bank self = Ok self' -> descends self ->
  descends self' /\ banks self !! bank_slot bank = None /\ banks self' = <[bank_slot bank := bank]> (banks self) /\
  forks_root self' = forks_root self.
Proof.
  unfold forks_insert. case_bool_decide as Hn; [done|]. apply eq_None_not_Some in Hn. intros [= <-] Hd.
  split_and!; try done. intros s d. unfold below. simpl. rewrite insert_descendants.
  assert (d ∈ default ∅ (<[bank_slot bank := default ∅ (descendants self !! bank_slot bank)]> (descendants self) !! s) <->
          below self s d) as ->.
  { unfold below. destruct (decide (s = bank_slot bank)) as [->|]; [by rewrite lookup_insert_eq|by rewrite lookup_insert_ne]. }
  rewrite (Hd s d). split.
  - intros [(b & Hb & Hs)|[-> Hs]]; [|exists bank; by rewrite lookup_insert_eq]. exists b. rewrite lookup_insert_ne; [done|].
    intros <-. congruence.
  - intros (b & [[<- <-]|[Hne Hb]]%lookup_insert_Some & Hs); [by right|left; by exists b].
Qed.

Lemma forget_descendants_spec slot l self self' :
  forget_descendants slot l self = Ok self' ->
  banks self' = banks self /\ forks_root self' = forks_root self /\
  forall s d, below self' s d <-> below self s d /\ ~ (d = slot /\ s ∈ l).
Proof.
  revert self. induction l as [|x l IH]; intros self; simpl; [intros [= <-]; split_and!; [done|done|set_solver]|].
  unfold forget_descendant. destruct (descendants self !! x) as [set|] eqn:Hx; [|done]. simpl.
  intros (Hb & Hr & Hs)%IH. split_and!; [done|done|]. intros s d. rewrite Hs. clear Hs IH.
  assert (below (with_descendants (if bool_decide (set ∖ {[slot]} = ∅) && negb (bool_decide (is_Some (banks self !! x)))
    then delete x (descendants self) else <[x := set ∖ {[slot]}]> (descendants self)) self) s d <->
    below self s d /\ ~ (d = slot /\ s = x)) as ->; [|set_solver].
  unfold below. simpl. destruct (decide (s = x)) as [->|Hne].
  - rewrite Hx. simpl. destruct (bool_decide_reflect (set ∖ {[slot]} = ∅)) as [He|_].
    + destruct (negb _); simpl; [rewrite lookup_delete_eq|rewrite lookup_insert_eq]; simpl; set_solver.
    + simpl. rewrite lookup_insert_eq. simpl. set_solver.
  - destruct (_ && _); [rewrite lookup_delete_ne by done|rewrite lookup_insert_ne by done]; naive_solver.
Qed.

Lemma forks_remove_spec slot self o self' :
  forks_remove slot self = Ok (o, self') -> descends self -> banks_wf (banks self) ->
  descends self' /\ banks self' = delete slot (banks self) /\ forks_root self' = forks_root self.
Proof.
  unfold forks_remove. destruct (banks self !! slot) as [bank|] eqn:Hb.
  2: { intros [= <- <-] Hd _. by rewrite delete_id. }
  destruct (forget_descendants _ _ _) as [self1|?|] eqn:H1; try done. simpl.
  apply forget_descendants_spec in H1 as (Hb1 & Hr1 & Hs1). simpl in *.
  destruct (descendants self1 !! slot) as [set|] eqn:Hset; [|done]. intros [= <- <-] Hd Hwf.
  assert (forall s d, below self1 s d <-> exists b, delete slot (banks self) !! d = Some b /\ s ∈ proper_ancestors b) as H.
  { intros s d. rewrite Hs1. unfold below at 1. simpl. fold (below self s d). rewrite (Hd s d). split.
    - intros [(b & Hd' & Hs) Hn]. exists b. split; [|done]. apply lookup_delete_Some. split; [|done].
      intros <-. apply Hn. split; [done|]. congruence.
    - intros (b & [Hne Hd']%lookup_delete_Some & Hs). split; [by exists b|]. by intros [-> _]. }
  set (self2 := if bool_decide (set = ∅) then _ else self1).
  assert (banks self2 = banks self1 /\ forks_root self2 = forks_root self1 /\ forall s d, below self2 s d <-> below self1 s d)
    as (Hb2 & Hr2 & Hs2).
  { unfold self2. case_bool_decide as He; [|done]. split_and!; [done|done|]. intros s d. unfold below. simpl.
    destruct (decide (s = slot)) as [->|]; [|by rewrite lookup_delete_ne]. rewrite lookup_delete_eq, Hset. simpl. set_solver. }
  split_and!; [|congruence|congruence]. intros s d. by rewrite Hs2, H, Hb2, Hb1.
Qed.

Lemma forks_remove_all_spec slots self self' :
  forks_remove_all slots self = Ok self' -> descends self -> banks_wf (banks self) ->
  descends self' /\ forks_root self' = forks_root self /\
  forall k, banks self' !! k = if bool_decide (k ∈ slots) then None else banks self !! k.
Proof.
  revert self. induction slots as [|slot slots IH]; intros self; cbn [forks_remove_all].
  { intros [= <-] Hd Hwf. split_and!; [done|done|]. intros k. by rewrite bool_decide_false by set_solver. }
  destruct (forks_remove slot self) as [[o self1]|?|] eqn:H1; try done. simpl. intros Hrun Hd Hwf.
  apply forks_remove_spec in H1 as (Hd1 & Hb1 & Hr1); [|done|done].
  destruct (IH self1 Hrun Hd1) as (Hd' & Hr' & Hk).
  { rewrite Hb1. intros k b [_ H]%lookup_delete_Some. by apply Hwf. }
  split_and!; [done|congruence|]. intros k. rewrite Hk, Hb1. destruct (decide (k = slot)) as [->|Hne].
  - rewrite lookup_delete_eq, (bool_decide_true (slot ∈ slot :: slots)) by set_solver. by case_bool_decide.
  - rewrite lookup_delete_ne by done. rewrite (bool_decide_ext (k ∈ slot :: slots) (k ∈ slots)); [done|set_solver].
Qed.

Lemma pruned_slots_spec root high slots self l :
  pruned_slots root high slots self = Ok l ->
  forall slot, slot ∈ slots -> exists keep, keeps_slot root high self slot = Ok keep /\ (slot ∈ l <-> keep = false).
Proof.
  revert l. induction slots as [|x slots IH]; intros l; simpl; [by intros _ slot ?%elem_of_nil|].
  destruct (keeps_slot root high self x) as [keep|?|] eqn:Hk; try done. simpl.
  destruct (pruned_slots root high slots self) as [rest|?|] eqn:Hp; try done. simpl. intros [= <-] slot Hs.
  specialize (IH rest eq_refl). destruct (decide (slot = x)) as [->|Hne].
  - exists keep. split; [done|]. destruct keep; [|set_solver]. split; [|done]. intros Hin.
    assert (x ∈ slots) as Hx.
    { clear -Hp Hin. revert rest Hp Hin. induction slots as [|y slots IH]; simpl; [intros rest [= <-] ?; set_solver|].
      intros rest. destruct (keeps_slot _ _ _ y) as [k|?|]; try done. simpl. destruct (pruned_slots _ _ slots _) as [r|?|]; try done.
      simpl. intros [= <-]. destruct k; set_solver. }
    destruct (IH x Hx) as (k & Hk' & Hin'). rewrite Hk in Hk'. simplify_eq. by apply Hin' in Hin.
  - destruct (IH slot ltac:(set_solver)) as (k & Hk' & Hin'). exists k. split; [done|]. destruct keep; [done|set_solver].
Qed.

(** The banks that stay: the root, its descendants, and banks before it. *)
Lemma prune_spec root high self self' :
  prune_non_rooted root high self = Ok self' -> descends self -> banks_wf (banks self) ->
  descends self' /\ forks_root self' = forks_root self /\ banks self' !! root = banks self !! root /\
  (forall k b, banks self' !! k = Some b -> banks self !! k = Some b /\
     (k = root \/ (k < root /\ below self k root) \/ below self root k)) /\
  forall k, below self root k -> banks self' !! k = banks self !! k.
Proof.
  unfold prune_non_rooted. destruct (pruned_slots _ _ _ _) as [l|?|] eqn:Hp; try done. simpl. intros Hrun Hd Hwf.
  apply forks_remove_all_spec in Hrun as (Hd' & Hr' & Hk); [|done|done].
  assert (forall k, is_Some (banks self !! k) -> exists keep, keeps_slot root (default root high) self k = Ok keep /\ (k ∈ l <-> keep = false)) as Hl.
  { intros k [b Hb]. apply (pruned_slots_spec _ _ _ _ _ Hp). apply list_elem_of_fmap. exists (k, b).
    split; [done|]. by apply elem_of_map_to_list. }
  assert (forall k, (k = root \/ below self root k) -> banks self' !! k = banks self !! k) as Hkeep.
  { intros k Hkr. rewrite Hk. case_bool_decide as Hin; [|done]. destruct (banks self !! k) as [b|] eqn:Hb; [|done].
    destruct (Hl k) as (keep & Hks & Hkl); [by eexists|]. apply Hkl in Hin as ->. revert Hks. unfold keeps_slot.
    destruct (Z.eqb_spec k root); [done|]. destruct Hkr as [?|Hbl]; [done|]. unfold below in Hbl.
    destruct (descendants self !! root) as [below_root|]; simpl in *; [by rewrite bool_decide_true|done]. }
  split_and!; [done|done|by apply Hkeep; left| |by intros k ?; apply Hkeep; right].
  intros k b Hb. rewrite Hk in Hb. case_bool_decide as Hin; [done|]. split; [done|].
  destruct (Hl k) as (keep & Hks & Hkl); [by eexists|]. revert Hks. unfold keeps_slot.
  destruct (Z.eqb_spec k root); [by left|]. unfold below.
  destruct (descendants self !! root) as [below_root|]; [|done]. simpl. case_bool_decide; [by right; right|].
  destruct (Z.ltb_spec k root); simpl; [|intros [= <-]; destruct Hin; by apply Hkl].
  destruct (default root high <=? k); [|intros [= <-]; destruct Hin; by apply Hkl].
  destruct (descendants self !! k) as [set|]; [|done]. case_bool_decide; intros [= <-]; [by right; left|]. destruct Hin. by apply Hkl.
Qed.

(** ** Chains of parents *)

Lemma chain_mono n n' o m x : (n <= n')%nat -> x ∈ parents_from n o m -> x ∈ parents_from n' o m.
Proof.
  revert n' o. induction n as [|n IH]; intros [|n'] o Hle; try (simpl; set_solver || lia).
  destruct o as [s|]; simpl; [|done]. intros [->|Hx]%elem_of_cons; [set_solver|]. apply elem_of_cons. right.
  apply (IH n'); [lia|done].
Qed.

(** Parents are only cut off. *)
Definition cut (m m' : gmap Slot ForkBank) : Prop := forall k,
  match m !! k, m' !! k with
  | Some b, Some b' => bank_slot b' = bank_slot b /\ bank_ancestors b' = bank_ancestors b /\
      blockhash_queue b' = blockhash_queue b /\ ticks_per_slot b' = ticks_per_slot b /\ tick_height b' = tick_height b /\
      max_tick_height b' = max_tick_height b /\ (bank_freeze_started b = true -> bank_freeze_started b' = true) /\
      (bank_parent b' = bank_parent b \/ bank_parent b' = None)
  | None, None => True
  | _, _ => False
  end.

Lemma cut_refl m : cut m m.
Proof. intros k. destruct (m !! k); [|done]. split_and!; try done. by left. Qed.

Lemma cut_trans m m1 m2 : cut m m1 -> cut m1 m2 -> cut m m2.
Proof.
  intros H1 H2 k. specialize (H1 k). specialize (H2 k).
  destruct (m !! k), (m1 !! k), (m2 !! k); try done.
  destruct H1 as (? & ? & ? & ? & ? & ? & ? & Hp1), H2 as (? & ? & ? & ? & ? & ? & ? & Hp2).
  split_and!; try congruence; [naive_solver|]. destruct Hp2 as [Hp2|Hp2]; [|by right]. rewrite Hp2. by destruct Hp1 as [->| ->]; auto.
Qed.

Lemma sub_chain m m' n o x : cut m m' -> x ∈ parents_from n o m' -> x ∈ parents_from n o m.
Proof.
  intros Hc. revert o. induction n as [|n IH]; intros [s|]; simpl; try done.
  intros [->|Hx]%elem_of_cons; [set_solver|]. apply elem_of_cons. right. specialize (Hc s).
  destruct (m !! s) as [b|], (m' !! s) as [b'|]; simpl in *; try done; [|by apply IH].
  destruct Hc as (_ & _ & _ & _ & _ & _ & _ & [Hp|Hp]); rewrite Hp in Hx; [by apply IH|]. by destruct n; apply elem_of_nil in Hx.
Qed.

Lemma cut_size m m' : cut m m' -> size m' = size m.
Proof.
  intros Hc. rewrite <- !size_dom. f_equal. apply set_eq. intros k. rewrite !elem_of_dom. specialize (Hc k).
  destruct (m !! k), (m' !! k); try done; split; intros []; eauto; done.
Qed.

(** A bank and its parents. *)
Definition chain (m : gmap Slot ForkBank) (k : Slot) : list Slot :=
  k :: parents_from (size m) (m !! k ≫= bank_parent) m.

Lemma squashed_cut m q b : m !! q = Some b -> cut m (<[q := set_bank_parent None (freeze b)]> m).
Proof.
  intros Hq k. destruct (decide (k = q)) as [->|Hne].
  - rewrite Hq, lookup_insert_eq. split_and!; try done. by right.
  - rewrite lookup_insert_ne by done. apply (cut_refl m).
Qed.

Lemma sub_chain_of m m' k x : cut m m' -> x ∈ chain m' k -> x ∈ chain m k.
Proof.
  intros Hc [->|Hx]%elem_of_cons; [set_solver|]. apply elem_of_cons. right. rewrite (cut_size m m' Hc) in Hx.
  apply (sub_chain m m') in Hx; [|done]. specialize (Hc k).
  destruct (m !! k) as [b|], (m' !! k) as [b'|]; simpl in *; try done.
  destruct Hc as (_ & _ & _ & _ & _ & _ & _ & [Hp|Hp]); rewrite Hp in Hx; [done|].
  by destruct (size m); apply elem_of_nil in Hx.
Qed.

Lemma cut_chain m q bq n o x :
  m !! q = Some bq -> x ∈ parents_from n o m ->
  x ∈ parents_from n o (<[q := set_bank_parent None (freeze bq)]> m) \/ x ∈ parents_from n (bank_parent bq) m.
Proof.
  intros Hq. revert o. induction n as [|n IH]; intros [s|]; simpl; try set_solver.
  intros [->|Hx]%elem_of_cons; [set_solver|]. destruct (decide (s = q)) as [->|Hne].
  - rewrite Hq in Hx. simpl in Hx. right. by apply (chain_mono n (S n)); [lia|].
  - rewrite lookup_insert_ne by done. destruct (IH _ Hx) as [H|H]; [left; set_solver|].
    right. by apply (chain_mono n (S n)); [lia|].
Qed.

(** Squashing adds chains of parents as roots, the whole one of each bank. *)
Lemma squash_each_spec slots m cache m' cache' :
  squash_each slots m cache = Ok (m', cache') ->
  exists added, cache' = foldl (fun c root => status_add_root root c) cache added /\ cut m m' /\
    (forall x, x ∈ added -> exists q, q ∈ slots /\ x ∈ chain m q) /\
    (forall r x, r ∈ slots -> x ∈ chain m r -> x ∈ added) /\
    (forall q, q ∈ slots -> exists b', m' !! q = Some b' /\ bank_parent b' = None /\ bank_freeze_started b' = true) /\
    forall q, q ∉ slots -> m' !! q = m !! q.
Proof.
  revert m cache. induction slots as [|q slots IH]; intros m cache; simpl.
  { intros [= <- <-]. exists []. split_and!; try done; [apply cut_refl|set_solver..]. }
  unfold squash. destruct (m !! q) as [b|] eqn:Hq; [|done]. simpl. set (m1 := <[q := _]> m). intros Hrun.
  assert (cut m m1) as Hc by (by apply squashed_cut).
  destruct (IH m1 _ Hrun) as (added & -> & Hc1 & Ha & Hall & Hnone & Hsame).
  exists (chain m q ++ added). split_and!.
  - rewrite foldl_app. unfold chain, parents. by rewrite Hq.
  - by eapply cut_trans.
  - intros x [Hx|Hx]%elem_of_app; [exists q; set_solver|]. apply Ha in Hx as (q' & Hq' & Hx). exists q'.
    split; [set_solver|by eapply sub_chain_of].
  - intros r x Hr Hx. destruct (decide (r = q)) as [->|Hne]; [set_solver|]. apply elem_of_app.
    assert (x ∈ chain m1 r \/ x ∈ chain m q) as [Hx1|Hx1]; [|right; apply (Hall r); [set_solver|done]|by left].
    unfold chain in Hx |- *. rewrite (cut_size m m1 Hc). apply elem_of_cons in Hx as [->|Hx]; [set_solver|].
    unfold m1. rewrite lookup_insert_ne by done. rewrite Hq. simpl.
    destruct (cut_chain m q b _ _ _ Hq Hx); [left|right]; apply elem_of_cons; by right.
  - intros q' Hq'. destruct (decide (q' ∈ slots)) as [Hin|Hn]; [by apply Hnone|].
    assert (q' = q) as -> by set_solver. exists (set_bank_parent None (freeze b)). split; [|done].
    rewrite Hsame by done. apply lookup_insert_eq.
  - intros q' Hq'. rewrite Hsame by set_solver. apply lookup_insert_ne. set_solver.
Qed.

Lemma set_root_spec root requests high self cache self' cache' :
  set_root root requests high self cache = Ok (self', cache') -> descends self -> banks_wf (banks self) ->
  exists added,
    cache' = foldl (fun c r => status_add_root r c) cache added /\
    (forall x, x ∈ added -> exists q, (q = root \/ q ∈ requests) /\ x ∈ chain (banks self) q) /\
    (forall x, x ∈ chain (banks self) root -> x ∈ added) /\
    descends self' /\ forks_root self' = root /\
    (exists b', banks self' !! root = Some b' /\ bank_parent b' = None) /\
    exists m, cut (banks self) m /\
      (forall k, k <> root -> k ∉ requests -> m !! k = banks self !! k) /\
      (forall k b', banks self' !! k = Some b' -> m !! k = Some b' /\
         (k = root \/ (k < root /\ below self k root) \/ below self root k)) /\
      (forall k, below self root k -> banks self' !! k = m !! k).
Proof.
  unfold set_root. set (slots := if bool_decide _ then requests else _).
  assert (forall q, q ∈ slots <-> q = root \/ q ∈ requests) as Hslots.
  { intros q. unfold slots. case_bool_decide as Hl; [apply last_Some_elem_of in Hl|]; set_solver. }
  destruct (squash_each slots _ cache) as [[m c]|?|] eqn:Hsq; try done. simpl.
  destruct (prune_non_rooted _ _ _) as [self2|?|] eqn:Hp; try done. simpl. intros [= -> ->] Hd Hwf. simpl in Hsq.
  apply squash_each_spec in Hsq as (added & -> & Hc & Ha & Hall & Hnone & Hsame).
  assert (banks_wf m) as Hwf'.
  { intros k b Hk. specialize (Hc k). rewrite Hk in Hc. destruct (banks self !! k) as [b0|] eqn:Hb; [|done].
    destruct Hc as (-> & _). by apply Hwf. }
  assert (descends (with_banks m (with_forks_root root self))) as Hd'.
  { intros s d. unfold below. simpl. fold (below self s d). rewrite (Hd s d). specialize (Hc d).
    split; intros (b & Hb & Hs); rewrite Hb in Hc; [destruct (m !! d) as [b'|] eqn:Hb'|destruct (banks self !! d) as [b'|] eqn:Hb']; try done;
      exists b'; (split; [done|]); destruct Hc as (Hsl & Han & _); unfold proper_ancestors in *; by rewrite Hsl, Han in *. }
  apply prune_spec in Hp as (Hd2 & Hr2 & Hroot & Hkeep & Hbelow); [|done|done]. simpl in *.
  destruct (Hnone root) as (b' & Hb' & Hp' & _); [apply Hslots; by left|].
  exists added. split_and!; try done.
  - intros x Hx. apply Ha in Hx as (q & Hq & Hx). exists q. split; [by apply Hslots|done].
  - intros x. apply Hall. apply Hslots. by left.
  - exists b'. by rewrite Hroot.
  - exists m. split_and!; [done| |done|done]. intros k Hne Hk. apply Hsame. rewrite Hslots. naive_solver.
Qed.
