(* ===== verification/OnceRules.v ===== *)
(** * The machine of banks and its invariant

    The machine of all banks: threads lock, check and commit batches of
    transactions in any order, ticks complete blocks, new banks fork from complete
    ones, roots are set and duplicate blocks are dumped. The status cache forgets,
    and so does the queue of blockhashes. The second part is what holds of every
    bank of the tree that may still grow, and that the steps inside a bank keep
    it. *)

From S2P Require Import Prelude Errors Rent Account Pubkey TransactionContext Sysvars Nonce SystemProgram BTreeMap Message MessageRules MessageProcessor AccountLocks LockRules RollingBits StatusCache BankForks.

(** ** The machine *)

(** A batch that is being processed, and the results of its checks. *)
Record Flight := mkFlight {
  fl_batch : TransactionBatch;
  fl_checks : option (list TransactionCheckResult);
}.

(** A transaction that was recorded: in which bank, what it is known by, and
    whether it was admitted by the age of its blockhash. *)
Record Commit := mkCommit {
  c_slot : Slot;
  c_blockhash : Hash;
  c_key : Bytes;
  c_by_age : bool;
}.

(** What happened on the fork of a bank, the latest first: the slots of the
    blocks, the transactions and the blockhashes; and the batches and locks of
    the bank. *)
Record Trail := mkTrail {
  lineage : list Slot;
  committed : list Commit;
  registered : list Hash;
  flights : list Flight;
  trail_locks : AccountLocks;
}.

Definition with_flights fs L (t : Trail) : Trail := mkTrail (lineage t) (committed t) (registered t) fs L.
Definition with_committed x (t : Trail) : Trail := mkTrail (lineage t) x (registered t) (flights t) (trail_locks t).
Definition with_registered x (t : Trail) : Trail := mkTrail (lineage t) (committed t) x (flights t) (trail_locks t).

Record World := mkWorld {
  w_forks : BankForks;
  w_cache : BankStatusCache;
  w_trails : gmap Slot Trail;
}.

Definition set_trail k t (w : World) : World := mkWorld (w_forks w) (w_cache w) (<[k := t]> (w_trails w)).
Definition set_bank k b (w : World) : World :=
  mkWorld (with_banks (<[k := b]> (banks (w_forks w))) (w_forks w)) (w_cache w) (w_trails w).
Definition set_cache c (w : World) : World := mkWorld (w_forks w) c (w_trails w).

Abbreviation flight_txs := (fun f => sanitized_txs (fl_batch f)).
Abbreviation batches := (fmap fl_batch).

Definition same_transaction (c c' : Commit) : Prop := c_blockhash c = c_blockhash c' /\ c_key c = c_key c'.

Definition commit_of (slot : Slot) (row : SanitizedTransaction * TransactionExecutionResult * TransactionCheckResult)
  : option Commit :=
  let '(tx, execution_result, (_, nonce, _)) := row in
  match details execution_result with
  | Some _ => Some (mkCommit slot (Sanitized.recent_blockhash (st_message tx)) (st_message_hash tx)
                      (match nonce with None => true | Some _ => false end))
  | None => None
  end.

Section machine.
Context `{!ProgramIds, !MessageIds, !Hashing, !Bincode Versions, !BincodeLimited SystemInstruction}.

(** The transactions that are submitted. *)
Variable genuine : SanitizedTransaction -> Prop.

Inductive world_step (w : World) : World -> Prop :=
  | ws_prepare k b t txs limit batch L' :
      banks (w_forks w) !! k = Some b -> w_trails w !! k = Some t -> Forall genuine txs ->
      in_flight (batches (flights t)) + vec_len txs <= int_max U64 ->
      prepare_sanitized_batch txs limit (trail_locks t) = (Ok batch, L') ->
      world_step w (set_trail k (with_flights (mkFlight batch None :: flights t) L' t) w)
  | ws_prepare_with_results k b t txs results limit batch L' :
      banks (w_forks w) !! k = Some b -> w_trails w !! k = Some t -> Forall genuine txs ->
      in_flight (batches (flights t)) + vec_len txs <= int_max U64 ->
      prepare_sanitized_batch_with_results txs results limit (trail_locks t) = (Ok batch, L') ->
      world_step w (set_trail k (with_flights (mkFlight batch None :: flights t) L' t) w)
  | ws_check k b t fs f fs' checks :
      banks (w_forks w) !! k = Some b -> w_trails w !! k = Some t -> flights t = fs ++ f :: fs' ->
      check_transactions b (flight_txs f) (lock_results (fl_batch f)) MAX_PROCESSING_AGE (w_cache w) = Ok checks ->
      world_step w (set_trail k (with_flights (fs ++ mkFlight (fl_batch f) (Some checks) :: fs') (trail_locks t) t) w)
  | ws_unlock_failures k b t fs f fs' results batch L' :
      banks (w_forks w) !! k = Some b -> w_trails w !! k = Some t -> flights t = fs ++ f :: fs' ->
      unlock_failures (fl_batch f) results (trail_locks t) = (Ok batch, L') ->
      world_step w (set_trail k (with_flights (fs ++ mkFlight batch None :: fs') L' t) w)
  | ws_commit k b t fs f fs' checks execution_results randoms cache' :
      banks (w_forks w) !! k = Some b -> w_trails w !! k = Some t -> flights t = fs ++ f :: fs' ->
      fl_checks f = Some checks ->
      (forall i status c, execution_results !! i = Some (Executed status) -> checks !! i = Some c -> is_ok (fst (fst c)) = true) ->
      length randoms = length (flight_txs f) -> Forall (fun r => 0 <= fst r /\ 0 <= snd r) randoms ->
      commit_transactions b (flight_txs f) execution_results randoms (w_cache w) = Ok cache' ->
      world_step w (set_cache cache' (set_trail k
        (with_committed (reverse (omap (commit_of k) (zip (zip (flight_txs f) execution_results) checks)) ++ committed t)
          (with_flights (fs ++ mkFlight (fl_batch f) None :: fs') (trail_locks t) t)) w))
  | ws_drop k b t fs f fs' L' :
      banks (w_forks w) !! k = Some b -> w_trails w !! k = Some t -> flights t = fs ++ f :: fs' ->
      drop_batch (fl_batch f) (trail_locks t) = (Ok tt, L') ->
      world_step w (set_trail k (with_flights (fs ++ fs') L' t) w)
  | ws_tick k b t now hash b' :
      banks (w_forks w) !! k = Some b -> w_trails w !! k = Some t ->
      tick_height b < int_max U64 -> last_hash_index (blockhash_queue b) < int_max U64 ->
      hash ∉ c_blockhash <$> committed t ->
      register_tick now hash b = Ok b' ->
      world_step w (set_bank k b' (set_trail k
        (with_registered (if is_block_boundary (tick_height b + 1) b then hash :: registered t else registered t) t) w))
  | ws_accounts k b state :
      banks (w_forks w) !! k = Some b -> world_step w (set_bank k (set_bank_state state b) w)
  | ws_new_bank k b t slot fee state child banks' forks' :
      banks (w_forks w) !! k = Some b -> w_trails w !! k = Some t -> forks_root (w_forks w) <= k ->
      is_complete b = true -> k < slot -> slot + ANCESTORS_HASH_MAP_SIZE < int_max U64 ->
      (slot + 1) * ticks_per_slot b <= int_max U64 ->
      new_from_parent b slot fee state (banks (w_forks w)) = Ok (child, banks') ->
      forks_insert child (with_banks banks' (w_forks w)) = Ok forks' ->
      world_step w (mkWorld forks' (w_cache w)
        (<[slot := mkTrail (slot :: lineage t) (committed t) (registered t) [] AccountLocks_default]> (w_trails w)))
  | ws_set_root root requests high forks' cache' :
      forks_root (w_forks w) <= root -> is_Some (banks (w_forks w) !! root) ->
      Forall (fun q => q ∈ chain (banks (w_forks w)) root) requests ->
      set_root root requests high (w_forks w) (w_cache w) = Ok (forks', cache') ->
      world_step w (mkWorld forks' cache' (w_trails w))
  | ws_dump slot o forks' cache' :
      forks_root (w_forks w) < slot ->
      (forall k b t, banks (w_forks w) !! k = Some b -> w_trails w !! k = Some t -> k <> slot -> slot ∉ lineage t) ->
      forks_remove slot (w_forks w) = Ok (o, forks') -> clear_slot_entries slot (w_cache w) = Ok cache' ->
      world_step w (mkWorld forks' cache' (delete slot (w_trails w))).

(** The bank of the genesis block. *)
Definition genesis_bank (now : Z) (hash : Hash) (fee tps : Z) (state : gmap Pubkey AccountSharedData) (ancestors : Ancestors)
  : ForkBank :=
  mkForkBank 0 None ancestors (genesis_hash now hash fee BlockhashQueue_default) tps 0 tps false fee state.

Definition genesis_world (hash : Hash) (b : ForkBank) : World :=
  mkWorld (mkBankForks {[0 := b]} {[0 := ∅]} 0) StatusCache_default
    {[0 := mkTrail [0] [] [hash] [] AccountLocks_default]}.

End machine.

(** ** The invariant of the machine of banks

    What holds of every bank of the tree that may still grow, and that the steps
    inside a bank keep it. *)

(** ** Lists of slots and transactions *)

Fixpoint decreasing (l : list Slot) : Prop :=
  match l with [] => True | x :: l => Forall (fun y => y < x) l /\ decreasing l end.

Lemma decreasing_nodup l : decreasing l -> NoDup l.
Proof.
  induction l as [|x l IH]; intros H; [constructor|]. destruct H as [Hx Hl]. apply list.NoDup_cons. split; [|by apply IH].
  intros Hin. rewrite list.Forall_forall in Hx. specialize (Hx x Hin). lia.
Qed.

(** How many slots come after [x]. *)
Definition after (l : list Slot) (x : Slot) : Z := vec_len (filter (fun y => x < y) l).

Abbreviation slots_of l := (list_to_set l : gset Slot).

Lemma outdated_after l x : decreasing l -> outdated (slots_of l) x -> MAX_CACHE_ENTRIES <= after l x.
Proof.
  intros Hd (Y & HY & Hn & Hy). unfold after, vec_len. etransitivity; [exact Hn|]. apply Nat2Z.inj_le.
  rewrite <- (size_list_to_set (C:=gset Slot)) by (by apply list.NoDup_filter, decreasing_nodup).
  apply subseteq_size. intros y Hin. apply elem_of_list_to_set, list_elem_of_filter. split; [by apply Hy|].
  by apply HY, elem_of_list_to_set in Hin.
Qed.

Lemma after_cons x y l : after (y :: l) x = (if bool_decide (x < y) then 1 else 0) + after l x.
Proof. unfold after, vec_len. rewrite filter_cons. case_decide; case_bool_decide; try done; simpl; lia. Qed.

Lemma after_head k l : decreasing (k :: l) -> after (k :: l) k = 0.
Proof.
  intros [Hk _]. rewrite after_cons, bool_decide_false by lia. unfold after, vec_len.
  enough (filter (fun y => k < y) l = []) as -> by done. induction Hk as [|y l Hy _ IH]; [done|].
  rewrite filter_cons, decide_False by lia. exact IH.
Qed.

(** Each was admitted by its age only if it was not there before. *)
Fixpoint once (l : list Commit) : Prop :=
  match l with
  | [] => True
  | c :: l => (c_by_age c = true -> Forall (fun c' => ~ same_transaction c c') l) /\ once l
  end.

Lemma once_middle newer c older :
  once (newer ++ c :: older) -> c_by_age c = true -> Forall (fun c' => ~ same_transaction c c') older.
Proof. induction newer as [|x newer IH]; simpl; intros [H1 H2]; [exact H1|by apply IH]. Qed.

Abbreviation Row := (SanitizedTransaction * TransactionExecutionResult * TransactionCheckResult)%type.

Definition row_commits (k : Slot) (rows : list Row) (i : nat) (c : Commit) : Prop :=
  exists row, rows !! i = Some row /\ commit_of k row = Some c.

(** The commits of a batch, if they are new and different. *)
Lemma once_extend k rows l :
  (forall i c, row_commits k rows i c -> c_by_age c = true -> Forall (fun c' => ~ same_transaction c c') l) ->
  (forall i j c c', (i < j)%nat -> row_commits k rows i c -> row_commits k rows j c' -> ~ same_transaction c' c) ->
  once l -> once (reverse (omap (commit_of k) rows) ++ l).
Proof.
  revert l. induction rows as [|row rows IH]; intros l Hn Hd Hl; [done|]. simpl.
  assert (forall i c, row_commits k rows i c -> row_commits k (row :: rows) (S i) c) as HS by (by intros i c (r & ? & ?); exists r).
  destruct (commit_of k row) as [c|] eqn:Hc.
  - rewrite reverse_cons, <- app_assoc. simpl. assert (row_commits k (row :: rows) 0 c) as H0 by (by exists row). apply IH.
    + intros i c' Hi Hage. constructor; [|by eapply Hn; [apply HS|]]. eapply (Hd 0%nat (S i)); [lia|done|by apply HS].
    + intros i j c1 c2 Hij H1 H2. eapply (Hd (S i) (S j)); [lia|by apply HS|by apply HS].
    + split; [|done]. intros Hage. by eapply Hn.
  - apply IH; [|intros i j c1 c2 Hij H1 H2; eapply (Hd (S i) (S j)); [lia|by apply HS|by apply HS]|done].
    intros i c' Hi. eapply Hn. by apply HS.
Qed.

(** ** The invariant *)

Definition commit_is (tx : SanitizedTransaction) (c : Commit) : Prop :=
  c_blockhash c = Sanitized.recent_blockhash (st_message tx) /\ c_key c = st_message_hash tx.

(** The banks that may still grow. *)
Definition live (w : World) (k : Slot) (b : ForkBank) (t : Trail) : Prop :=
  banks (w_forks w) !! k = Some b /\ w_trails w !! k = Some t /\ forks_root (w_forks w) <= k.

(** Where a bank is in the tree, and that what happened on its fork is seen
    through its ancestors and the roots, as long as it is not outdated. *)
Record place_ok (w : World) (k : Slot) (b : ForkBank) (t : Trail) : Prop := {
  pl_slot : bank_slot b = k;
  pl_head : exists rest, lineage t = k :: rest;
  pl_sorted : decreasing (lineage t);
  pl_root : forks_root (w_forks w) ∈ lineage t;
  pl_parent : k = forks_root (w_forks w) /\ bank_parent b = None \/
    k <> forks_root (w_forks w) /\ exists p bp tp newer, bank_parent b = Some p /\ live w p bp tp /\
      lineage t = k :: lineage tp /\ committed t = newer ++ committed tp /\ bank_freeze_started bp = true;
  pl_ancestors : exists S, represents (bank_ancestors b) S /\ (forall x, x ∈ S -> x ∈ lineage t) /\
    (forall x, x ∈ lineage t -> forks_root (w_forks w) <= x -> x ∈ S) /\
    forall x, x ∈ lineage t -> x ∈ S \/ x ∈ roots (w_cache w) \/ outdated (slots_of (lineage t)) x;
  pl_roots x : x ∈ roots (w_cache w) -> x ∈ lineage t;
  pl_settled : k = forks_root (w_forks w) ->
    forall x, x ∈ lineage t -> x ∈ roots (w_cache w) \/ outdated (slots_of (lineage t)) x;
  pl_recorded c : c ∈ committed t -> c_slot c ∈ lineage t /\
    (recorded (w_cache w) (c_blockhash c) (c_key c) (c_slot c) \/ outdated (slots_of (lineage t)) (c_slot c));
}.

Section invariant.
Variable genuine : SanitizedTransaction -> Prop.

Record flight_ok (com : list Commit) (f : Flight) : Prop := {
  fo_unlock : needs_unlock (fl_batch f) = true;
  fo_genuine : Forall genuine (flight_txs f);
  fo_checked checks i tx c : fl_checks f = Some checks -> flight_txs f !! i = Some tx -> checks !! i = Some c ->
    is_ok (fst (fst c)) = true ->
    lock_results (fl_batch f) !! i = Some (Ok tt) /\
    (snd (fst c) = None -> Forall (fun c' => ~ commit_is tx c') com);
}.

(** A block registers one hash, at its end. So a blockhash is as old as the
    number of blocks after the transactions that name it. *)
Record local_ok (k : Slot) (b : ForkBank) (t : Trail) : Prop := {
  lo_queue : lists (registered t) (blockhash_queue b) /\ 0 <= max_age (blockhash_queue b);
  lo_count c age : c ∈ committed t -> ages (blockhash_queue b) !! c_blockhash c = Some age ->
    hash_index age + after (lineage t) (c_slot c) <=
      last_hash_index (blockhash_queue b) + (if tick_height b <? max_tick_height b then 1 else 0);
  lo_ticks : 0 < ticks_per_slot b /\ 0 <= tick_height b /\ max_tick_height b = (k + 1) * ticks_per_slot b /\ 0 <= k;
  lo_once : once (committed t);
  lo_sched : sched_ok (trail_locks t, batches (flights t));
  lo_flights : Forall (flight_ok (committed t)) (flights t);
}.

Record world_ok (w : World) : Prop := {
  wo_banks : banks_wf (banks (w_forks w));
  wo_descends : descends (w_forks w);
  wo_cache : cache_wf (w_cache w);
  wo_trails k : is_Some (banks (w_forks w) !! k) -> is_Some (w_trails w !! k);
  wo_root : is_Some (banks (w_forks w) !! forks_root (w_forks w));
  wo_frozen k b : banks (w_forks w) !! k = Some b -> k < forks_root (w_forks w) -> bank_freeze_started b = true;
  wo_live k b t : live w k b t -> place_ok w k b t /\ local_ok k b t;
}.

(** Steps that keep the tree and what was recorded. *)
Record extends (w w' : World) : Prop := {
  ex_root : forks_root (w_forks w') = forks_root (w_forks w);
  ex_roots : roots (w_cache w') = roots (w_cache w);
  ex_recorded h key s : recorded (w_cache w) h key s -> recorded (w_cache w') h key s;
  ex_live k b t : live w k b t -> exists b' t', live w' k b' t' /\ lineage t' = lineage t /\
    (bank_freeze_started b = true -> bank_freeze_started b' = true /\ committed t' = committed t);
}.

Lemma place_extends w w' k b t b' t' :
  extends w w' -> place_ok w k b t -> bank_slot b' = bank_slot b -> bank_parent b' = bank_parent b ->
  bank_ancestors b' = bank_ancestors b -> lineage t' = lineage t ->
  (exists newer, committed t' = newer ++ committed t /\
     forall c, c ∈ newer -> c_slot c = k /\ recorded (w_cache w') (c_blockhash c) (c_key c) (c_slot c)) ->
  place_ok w' k b' t'.
Proof.
  intros [Hr Hrs Hrec Hlive] [Hs Hh Hso Hro Hp Ha Hrl Hse Hc] Hs' Hp' Ha' Hl' (newer & Hco & Hnew).
  split; rewrite ?Hr, ?Hrs, ?Hl'; try done; [congruence| |by rewrite Ha'|].
  - destruct Hp as [[-> Hp]|[Hne (p & bp & tp & nw & Hp & Hpl & Hl & Hcp & Hf)]]; [left; by rewrite Hp'|right].
    split; [done|]. destruct (Hlive p bp tp Hpl) as (bp' & tp' & Hpl' & Hlp & Hfp). specialize (Hfp Hf) as [Hf' Hcp'].
    exists p, bp', tp', (newer ++ nw). rewrite Hp', Hlp, Hcp', Hco, Hcp, app_assoc. done.
  - intros c Hin. rewrite Hco in Hin. apply elem_of_app in Hin as [Hin|Hin].
    + apply Hnew in Hin as [-> Hin]. destruct Hh as [rest ->]. split; [set_solver|by left].
    + apply Hc in Hin as [Hin [Hrc|Ho]]; split; auto.
Qed.

(** One bank, its trail and the cache change. *)
Definition update (k : Slot) (b : ForkBank) (t : Trail) (c : BankStatusCache) (w : World) : World :=
  mkWorld (with_banks (<[k := b]> (banks (w_forks w))) (w_forks w)) c (<[k := t]> (w_trails w)).

Lemma update_ok w k b t b' t' c :
  world_ok w -> banks (w_forks w) !! k = Some b -> w_trails w !! k = Some t ->
  bank_slot b' = bank_slot b -> bank_parent b' = bank_parent b -> bank_ancestors b' = bank_ancestors b ->
  lineage t' = lineage t ->
  (bank_freeze_started b = true -> bank_freeze_started b' = true /\ committed t' = committed t) ->
  cache_wf c -> roots c = roots (w_cache w) ->
  (forall h key s, recorded (w_cache w) h key s -> recorded c h key s) ->
  (exists newer, committed t' = newer ++ committed t /\
     forall x, x ∈ newer -> c_slot x = k /\ recorded c (c_blockhash x) (c_key x) (c_slot x)) ->
  (live w k b t -> place_ok w k b t -> local_ok k b t -> local_ok k b' t') ->
  world_ok (update k b' t' c w).
Proof.
  intros [Hwf Hd Hc Ht Hroot Hfz Hlive] Hb Htk Hs Hp Ha Hl Hf Hcw Hcr Hrec Hnew Hloc.
  assert (forall j x, banks (w_forks (update k b' t' c w)) !! j = Some x ->
    j = k /\ x = b' \/ j <> k /\ banks (w_forks w) !! j = Some x) as Hlook.
  { intros j x H. simpl in H. apply lookup_insert_Some in H as [[<- <-]|[Hne H]]; [by left|right; by split]. }
  assert (extends w (update k b' t' c w)) as Hex.
  { split; try done. intros j bj tj (Hj & Htj & Hr). destruct (decide (j = k)) as [->|Hne].
    - simplify_eq. exists b', t'. unfold live. simpl. rewrite !lookup_insert_eq. split_and!; try done; by apply Hf.
    - exists bj, tj. unfold live. simpl. rewrite !lookup_insert_ne by done. done. }
  split.
  - intros j x Hj. apply Hlook in Hj as [[-> ->]|[_ Hj]]; [rewrite Hs; by apply Hwf|by apply Hwf].
  - intros s d. unfold below. simpl. fold (below (w_forks w) s d). rewrite (Hd s d).
    destruct (decide (d = k)) as [->|Hne]; [|by rewrite lookup_insert_ne].
    rewrite lookup_insert_eq. unfold proper_ancestors. split; intros (x & Hx & Hin); simplify_eq.
    + exists b'. by rewrite Hs, Ha.
    + exists b. by rewrite <- Hs, <- Ha.
  - done.
  - intros j [x Hj]. simpl. destruct (decide (j = k)) as [->|Hne]; [by rewrite lookup_insert_eq|].
    rewrite lookup_insert_ne by done. apply Ht. simpl in Hj. rewrite lookup_insert_ne in Hj by done. by exists x.
  - simpl. destruct (decide (forks_root (w_forks w) = k)) as [->|]; [by rewrite lookup_insert_eq|by rewrite lookup_insert_ne].
  - intros j x Hj Hlt. apply Hlook in Hj as [[-> ->]|[_ Hj]]; [by apply Hf, (Hfz k b)|by eapply Hfz].
  - intros j x y (Hj & Hy & Hr). simpl in Hy, Hr. destruct (Hlook j x Hj) as [[-> ->]|[Hne Hj']].
    + rewrite lookup_insert_eq in Hy. simplify_eq. assert (live w k b t) as Hlv by done. destruct (Hlive k b t Hlv) as [Hpl Hlo].
      split; [by eapply place_extends|by apply Hloc].
    + rewrite lookup_insert_ne in Hy by done. destruct (Hlive j x y) as [Hpl Hlo]; [done|]. split; [|done].
      eapply place_extends; try done. exists []. split; [done|]. intros ? ?%elem_of_nil. done.
Qed.

(** The same for steps that leave the bank and the cache. *)
Lemma flights_ok w k b t fs L :
  world_ok w -> banks (w_forks w) !! k = Some b -> w_trails w !! k = Some t ->
  (place_ok w k b t -> local_ok k b t -> sched_ok (L, batches fs) /\ Forall (flight_ok (committed t)) fs) ->
  world_ok (set_trail k (with_flights fs L t) w).
Proof.
  intros Hw Hb Ht Hfs. replace (set_trail k (with_flights fs L t) w) with (update k b (with_flights fs L t) (w_cache w) w).
  2: { unfold update, set_trail. rewrite insert_id by done. by destruct w as [[]]. }
  apply (update_ok w k b t); try done; [apply Hw|exists []; split; [done|]; by intros ? ?%elem_of_nil|].
  intros _ Hpl Hlo. destruct (Hfs Hpl Hlo) as [Hs Hf]. destruct Hlo. by split.
Qed.
End invariant.

(** ** Checks *)

Section checks.
Context `{!ProgramIds, !MessageIds, !Hashing, !Bincode Versions, !BincodeLimited SystemInstruction}.

Lemma check_status_cache_spec b rows cache out :
  check_status_cache b rows cache = Ok out ->
  forall i c, out !! i = Some c -> is_ok (fst (fst c)) = true ->
  exists tx, rows !! i = Some (tx, c) /\ is_transaction_already_processed b tx cache = Ok false.
Proof.
  revert out. induction rows as [|[tx [[r n] l]] rows IH]; intros out; cbn [check_status_cache]; [by intros [= <-]|].
  destruct (is_ok r) eqn:Hr.
  - destruct (is_transaction_already_processed b tx cache) as [p|?|] eqn:Hp; try done. simpl.
    destruct (check_status_cache b rows cache) as [rest|?|] eqn:Hrest; try done. simpl. intros [= <-] [|i] c Hi Hc; simpl in Hi.
    + destruct p; simplify_eq/=. by exists tx.
    + by apply (IH rest eq_refl i).
  - simpl. destruct (check_status_cache b rows cache) as [rest|?|] eqn:Hrest; try done. simpl.
    intros [= <-] [|i] c Hi Hc; simpl in Hi; [simplify_eq/=; congruence|by apply (IH rest eq_refl i)].
Qed.

(** A transaction that passes is locked; if it needs no nonce, its blockhash is
    recent and the cache does not know it. *)
Lemma check_transactions_spec b txs lrs cache out i tx c :
  check_transactions b txs lrs MAX_PROCESSING_AGE cache = Ok out ->
  txs !! i = Some tx -> out !! i = Some c -> is_ok (fst (fst c)) = true ->
  lrs !! i = Some (Ok tt) /\
  (snd (fst c) = None ->
     is_hash_valid_for_age (blockhash_queue b) (Sanitized.recent_blockhash (st_message tx)) MAX_PROCESSING_AGE = true /\
     get_status (st_message_hash tx) (Sanitized.recent_blockhash (st_message tx)) (bank_ancestors b) cache = Ok None).
Proof.
  unfold check_transactions, check_age. destruct (last_hash (blockhash_queue b)) as [lh|?|]; try done. simpl. intros Hrun Htx Hc Hok.
  destruct (check_status_cache_spec _ _ _ _ Hrun i c Hc Hok) as (tx' & Hrow & Hp).
  apply lookup_zip_with_Some in Hrow as (tx1 & c1 & [= -> ->] & Htx' & Hc1). rewrite Htx in Htx'. simplify_eq.
  apply lookup_zip_with_Some in Hc1 as (tx2 & r & Hc1 & Htx2 & Hr). rewrite Htx in Htx2. simplify_eq. rewrite Hr.
  destruct r as [[]|e|]; simplify_eq/=. split; [done|]. revert Hok Hp. unfold check_transaction_age.
  destruct (is_hash_valid_for_age _ _ _); [intros _ Hp _|by destruct (check_transaction_for_nonce _ _ _) as [[? ?]|]].
  split; [done|]. revert Hp. unfold is_transaction_already_processed.
  destruct (get_status _ _ _ _) as [[p|]|?|]; try done.
Qed.

(** Such a transaction was not committed on the fork. *)
Lemma not_committed genuine w k b t tx :
  place_ok w k b t -> local_ok genuine k b t ->
  is_hash_valid_for_age (blockhash_queue b) (Sanitized.recent_blockhash (st_message tx)) MAX_PROCESSING_AGE = true ->
  get_status (st_message_hash tx) (Sanitized.recent_blockhash (st_message tx)) (bank_ancestors b) (w_cache w) = Ok None ->
  Forall (fun c => ~ commit_is tx c) (committed t).
Proof.
  intros Hpl Hlo Hage Hnone. apply list.Forall_forall. intros c Hc [Hh Hk].
  assert (~ outdated (slots_of (lineage t)) (c_slot c)) as Hfresh.
  { intros Ho. apply outdated_after in Ho; [|apply Hpl]. revert Hage. unfold is_hash_valid_for_age. rewrite <- Hh.
    destruct (ages (blockhash_queue b) !! c_blockhash c) as [age|] eqn:Ha; [|done]. pose proof (lo_count _ _ _ _ Hlo c age Hc Ha) as Hcount.
    destruct (lo_queue _ _ _ _ Hlo) as [[Hlast Hages _] _]. destruct (Hages _ _ Ha) as (i & Hi & Hidx & _).
    pose proof (lookup_lt_Some _ _ _ Hi). rewrite Hidx in *. unfold vec_len in Hlast. rewrite index_valid by lia.
    intros Hv%bool_decide_eq_true. change MAX_CACHE_ENTRIES with 300 in Ho. change MAX_PROCESSING_AGE with 150 in Hv.
    destruct (tick_height b <? max_tick_height b); lia. }
  destruct (pl_recorded _ _ _ _ Hpl c Hc) as [Hin [Hrec|Ho]]; [|done].
  destruct (pl_ancestors _ _ _ _ Hpl) as (S & Hrep & _ & _ & Hvis). rewrite Hh, Hk in Hrec.
  destruct (recorded_found _ _ _ _ (bank_ancestors b) Hrec) as [p Hp]; [|congruence].
  destruct (Hvis _ Hin) as [HS|[Hr|Ho]]; [left|by right|done].
  unfold contains_key. rewrite (rep_contains _ _ _ Hrep). by apply bool_decide_eq_true.
Qed.

End checks.

(** ** Locks keep the transactions in flight apart *)

Lemma pairwise_app l l' : pairwise (l ++ l') -> pairwise l /\ pairwise l' /\ forall h h', h ∈ l -> h' ∈ l' -> apart h h'.
Proof.
  induction l as [|x l IH]; simpl; [intros H; split_and!; [done|done|set_solver]|].
  intros [Hx [Hl [Hl' Ha]]%IH]. apply list.Forall_app in Hx as [Hx Hx']. split_and!; [done|done|done|].
  intros h h' [->|Hh]%elem_of_cons Hh'; [by eapply list.Forall_forall|by apply Ha].
Qed.

Section locks.
Context `{!ProgramIds, !MessageIds}.

Lemma held_member txs (rs : list (TxResult unit)) i tx :
  txs !! i = Some tx -> rs !! i = Some (Ok tt) -> get_account_locks_unchecked tx ∈ held_rows (zip txs rs).
Proof.
  intros Ht Hr. unfold held_rows. apply list_elem_of_fmap. exists (tx, Ok tt). split; [done|]. apply list_elem_of_filter.
  split; [done|]. eapply list_elem_of_lookup_2. apply lookup_zip_with_Some. by exists tx, (Ok tt).
Qed.

Lemma held_apart txs (rs : list (TxResult unit)) i j tx tx' :
  pairwise (held_rows (zip txs rs)) -> (i < j)%nat -> txs !! i = Some tx -> rs !! i = Some (Ok tt) ->
  txs !! j = Some tx' -> rs !! j = Some (Ok tt) -> apart (get_account_locks_unchecked tx) (get_account_locks_unchecked tx').
Proof.
  revert rs i j. induction txs as [|x txs IH]; intros [|r rs] i j Hp Hij Hi Hri Hj Hrj; try done.
  destruct j as [|j]; [lia|]. cbn [zip zip_with] in Hp. rewrite held_rows_cons in Hp. destruct i as [|i]; simpl in *.
  - simplify_eq. apply pairwise_app in Hp as (_ & _ & Ha). apply Ha; [|by eapply held_member].
    rewrite held_rows_one. simpl. set_solver.
  - apply pairwise_app in Hp as (_ & Hp & _). apply (IH rs i j); try done. lia.
Qed.

Variable genuine : SanitizedTransaction -> Prop.
Hypothesis genuine_hash : forall tx tx', genuine tx -> genuine tx' ->
  st_message_hash tx = st_message_hash tx' -> st_message tx = st_message tx'.
Hypothesis genuine_writes : forall tx, genuine tx -> tal_writable (get_account_locks_unchecked tx) <> [].

Lemma apart_distinct tx tx' :
  genuine tx -> genuine tx' -> apart (get_account_locks_unchecked tx) (get_account_locks_unchecked tx') ->
  st_message_hash tx <> st_message_hash tx'.
Proof.
  intros Hg Hg' [Ha _] Heq. apply genuine_hash in Heq; [|done|done]. pose proof (genuine_writes tx Hg) as Hw.
  unfold get_account_locks_unchecked in *. rewrite <- Heq in Ha. destruct (tal_writable _) as [|k l]; [done|].
  apply (Ha k); set_solver.
Qed.

(** Of the transactions that are locked, no two are the same. *)
Lemma flights_distinct com L fs f fs' i tx :
  sched_ok (L, batches (fs ++ f :: fs')) -> Forall (flight_ok genuine com) (fs ++ f :: fs') ->
  flight_txs f !! i = Some tx -> lock_results (fl_batch f) !! i = Some (Ok tt) ->
  (forall j tx', i <> j -> flight_txs f !! j = Some tx' -> lock_results (fl_batch f) !! j = Some (Ok tt) ->
     st_message_hash tx <> st_message_hash tx') /\
  (forall g j tx', g ∈ fs ++ fs' -> flight_txs g !! j = Some tx' -> lock_results (fl_batch g) !! j = Some (Ok tt) ->
     st_message_hash tx <> st_message_hash tx').
Proof.
  intros Hs Hf Htx Hr. rewrite fmap_app, fmap_cons in Hs. destruct (sched_ok_middle _ _ _ _ Hs) as (_ & Hh & _).
  apply ho_apart, pairwise_app in Hh as (Hp & _ & Ha). rewrite list.Forall_forall in Hf.
  assert (forall g j tx', g ∈ fs ++ f :: fs' -> flight_txs g !! j = Some tx' -> genuine tx') as Hgen.
  { intros g j tx' Hg Hj. pose proof (fo_genuine _ _ _ (Hf g Hg)) as Hg'. by eapply list.Forall_lookup_1. }
  assert (forall g j tx', g ∈ fs ++ f :: fs' -> flight_txs g !! j = Some tx' -> lock_results (fl_batch g) !! j = Some (Ok tt) ->
    get_account_locks_unchecked tx' ∈ batch_held (fl_batch g)) as Hheld.
  { intros g j tx' Hg Hj Hjr. unfold batch_held. rewrite (fo_unlock _ _ _ (Hf g Hg)). by eapply held_member. }
  assert (f ∈ fs ++ f :: fs') as Hfin by set_solver. pose proof (Hgen f i tx Hfin Htx) as Hg. split.
  - intros j tx' Hne Hj Hjr. apply apart_distinct; [done|by eapply Hgen|]. unfold batch_held in Hp.
    rewrite (fo_unlock _ _ _ (Hf f Hfin)) in Hp. destruct (decide (i < j)%nat); [by eapply held_apart|].
    apply apart_sym. eapply held_apart; [done| |done..]. lia.
  - intros g j tx' Hgin Hj Hjr. assert (g ∈ fs ++ f :: fs') as Hgin' by set_solver.
    apply apart_distinct; [done|by eapply Hgen|]. apply Ha; [by eapply Hheld|]. unfold locked.
    rewrite <- fmap_app. apply list_elem_of_bind. exists (fl_batch g). split; [by eapply Hheld|].
    apply list_elem_of_fmap. by exists g.
Qed.

End locks.

(** ** The steps inside a bank *)

Section steps.
Context `{!ProgramIds, !MessageIds, !Hashing, !Bincode Versions, !BincodeLimited SystemInstruction}.
Variable genuine : SanitizedTransaction -> Prop.
Hypothesis genuine_hash : forall tx tx', genuine tx -> genuine tx' ->
  st_message_hash tx = st_message_hash tx' -> st_message tx = st_message tx'.
Hypothesis genuine_writes : forall tx, genuine tx -> tal_writable (get_account_locks_unchecked tx) <> [].
Hypothesis genuine_keys : forall tx, genuine tx -> length (st_message_hash tx) = 32%nat /\
  exists signature rest, st_signatures tx = signature :: rest /\ length signature = 64%nat.

Lemma prepared_ok w k b t txs batch L' :
  world_ok genuine w -> banks (w_forks w) !! k = Some b -> w_trails w !! k = Some t -> Forall genuine txs ->
  sched_step (trail_locks t, batches (flights t)) (L', batch :: batches (flights t)) ->
  sanitized_txs batch = txs -> needs_unlock batch = true ->
  world_ok genuine (set_trail k (with_flights (mkFlight batch None :: flights t) L' t) w).
Proof.
  intros Hw Hb Ht Hg Hs Htx Hn. apply (flights_ok genuine w k b); try done. intros _ Hlo. split.
  - eapply sched_step_ok; [exact Hs|apply Hlo].
  - constructor; [|apply Hlo]. split; simpl; [done|by rewrite Htx|done].
Qed.

Lemma batch_new_shape results txs batch :
  TransactionBatch_new results txs = Ok batch -> sanitized_txs batch = txs /\ needs_unlock batch = true.
Proof. unfold TransactionBatch_new. case_bool_decide; [|done]. by intros [= <-]. Qed.

Lemma check_ok w k b t fs f fs' checks :
  world_ok genuine w -> banks (w_forks w) !! k = Some b -> w_trails w !! k = Some t -> flights t = fs ++ f :: fs' ->
  check_transactions b (flight_txs f) (lock_results (fl_batch f)) MAX_PROCESSING_AGE (w_cache w) = Ok checks ->
  world_ok genuine (set_trail k (with_flights (fs ++ mkFlight (fl_batch f) (Some checks) :: fs') (trail_locks t) t) w).
Proof.
  intros Hw Hb Ht Hfs Hc. apply (flights_ok genuine w k b); try done. intros Hpl Hlo. split.
  - pose proof (lo_sched _ _ _ _ Hlo) as Hs. rewrite Hfs in Hs. by rewrite fmap_app, fmap_cons in *.
  - pose proof (lo_flights _ _ _ _ Hlo) as Hf. rewrite Hfs in Hf. apply list.Forall_app in Hf as [Hf1 [Hf Hf2]%list.Forall_cons].
    apply list.Forall_app. split; [done|]. constructor; [|done]. split; simpl; [apply Hf|apply Hf|].
    intros checks' i tx c [= <-] Htx Hci Hok.
    destruct (check_transactions_spec b _ _ _ _ i tx c Hc Htx Hci Hok) as [Hl Hage]. split; [done|].
    intros Hn. destruct (Hage Hn). by eapply not_committed.
Qed.

(** A flight whose batch lost locks, or is gone. *)
Lemma unlocked_flight_ok w k b t fs f fs' results batch L' :
  world_ok genuine w -> banks (w_forks w) !! k = Some b -> w_trails w !! k = Some t -> flights t = fs ++ f :: fs' ->
  unlock_failures (fl_batch f) results (trail_locks t) = (Ok batch, L') ->
  world_ok genuine (set_trail k (with_flights (fs ++ mkFlight batch None :: fs') L' t) w).
Proof.
  intros Hw Hb Ht Hfs Hu. apply (flights_ok genuine w k b); try done. intros _ Hlo.
  pose proof (lo_sched _ _ _ _ Hlo) as Hs. pose proof (lo_flights _ _ _ _ Hlo) as Hf. rewrite Hfs, ?fmap_app, ?fmap_cons in *.
  split; [by eapply unlock_failures_run|].
  apply list.Forall_app in Hf as [Hf1 [Hf Hf2]%list.Forall_cons]. apply list.Forall_app. split; [done|]. constructor; [|done].
  assert (sanitized_txs batch = flight_txs f /\ needs_unlock batch = needs_unlock (fl_batch f)) as [Htx Hn].
  { revert Hu. unfold unlock_failures. destruct (negb _); [done|]. destruct (negb (needs_unlock _)); [by intros [-> _]%ret_ok_inv|].
    destruct (existsb _ _); [done|]. intros (? & ? & _ & Hret)%bind_ok_inv. by apply ret_ok_inv in Hret as [-> _]. }
  split; simpl; [by rewrite Hn; apply Hf|by rewrite Htx; apply Hf|done].
Qed.

Lemma dropped_flight_ok w k b t fs f fs' L' :
  world_ok genuine w -> banks (w_forks w) !! k = Some b -> w_trails w !! k = Some t -> flights t = fs ++ f :: fs' ->
  drop_batch (fl_batch f) (trail_locks t) = (Ok tt, L') ->
  world_ok genuine (set_trail k (with_flights (fs ++ fs') L' t) w).
Proof.
  intros Hw Hb Ht Hfs Hu. apply (flights_ok genuine w k b); try done. intros _ Hlo.
  pose proof (lo_sched _ _ _ _ Hlo) as Hs. pose proof (lo_flights _ _ _ _ Hlo) as Hf. rewrite Hfs, ?fmap_app, ?fmap_cons in *. split.
  - destruct (drop_run _ _ _ _ Hs) as (L1 & HL1 & HL2). rewrite Hu in HL1. by simplify_eq.
  - apply list.Forall_app in Hf as [Hf1 [_ Hf2]%list.Forall_cons]. by apply list.Forall_app.
Qed.

Lemma record_statuses_spec slot rows cache cache' :
  record_statuses slot rows cache = Ok cache' -> cache_wf cache ->
  Forall (fun '(tx, _, r) => genuine tx /\ 0 <= fst r /\ 0 <= snd r) rows ->
  cache_wf cache' /\ roots cache' = roots cache /\
  (forall h key s, recorded cache h key s -> recorded cache' h key s) /\
  forall i tx status r, rows !! i = Some (tx, Executed status, r) ->
    recorded cache' (Sanitized.recent_blockhash (st_message tx)) (st_message_hash tx) slot.
Proof.
  revert cache. induction rows as [|[[tx ex] [r r']] rows IH]; intros cache; cbn [record_statuses].
  { intros [= <-] Hwf _. by split_and!. }
  intros Hrun Hwf [[Hg [Hr Hr']] Hrows]%list.Forall_cons. destruct ex as [status|e]; simpl in Hrun.
  - destruct (genuine_keys tx Hg) as [Hlen (sig & rest & Hsig & Hslen)].
    destruct (insert_records r (Sanitized.recent_blockhash (st_message tx)) (st_message_hash tx) slot status cache) as (c1 & Hi1 & Hwf1 & Hr1 & Hrec1 & Hm1);
      [done|done|unfold vec_len, CACHED_KEY_SIZE; rewrite Hlen; by vm_compute|].
    rewrite Hi1 in Hrun. simpl in Hrun. unfold signature in Hrun. rewrite Hsig in Hrun. simpl in Hrun.
    destruct (insert_records r' (Sanitized.recent_blockhash (st_message tx)) sig slot status c1) as (c2 & Hi2 & Hwf2 & Hr2 & _ & Hm2);
      [done|done|unfold vec_len, CACHED_KEY_SIZE; rewrite Hslen; by vm_compute|].
    rewrite Hi2 in Hrun. simpl in Hrun. destruct (IH c2 Hrun Hwf2 Hrows) as (Hwf' & Hroots & Hm & Hall).
    split_and!; [done|congruence|by intros h key s ?; apply Hm, Hm2, Hm1|].
    intros [|i] tx' st' r1 Hi; simpl in Hi; [simplify_eq; by apply Hm, Hm2|by eapply Hall].
  - destruct (IH cache Hrun Hwf Hrows) as (Hwf' & Hroots & Hm & Hall). split_and!; try done.
    intros [|i] tx' st' r1 Hi; simpl in Hi; [done|by eapply Hall].
Qed.

(** What a row of a committed batch says. *)
Lemma row_commits_inv k txs execs checks i c :
  row_commits k (zip (zip txs execs) checks) i c ->
  exists tx status check, txs !! i = Some tx /\ execs !! i = Some (Executed status) /\ checks !! i = Some check /\
    c_slot c = k /\ commit_is tx c /\ (c_by_age c = true -> snd (fst check) = None).
Proof.
  intros (row & Hrow & Hc). apply lookup_zip_with_Some in Hrow as ([tx ex] & [[r n] l] & -> & Hte & Hch).
  apply lookup_zip_with_Some in Hte as (tx' & ex' & [= <- <-] & Htx & Hex). simpl in Hc.
  destruct ex as [status|e]; [|done]. simplify_eq/=. exists tx, status, (r, n, l). split_and!; try done. by destruct n.
Qed.

Lemma omap_row_commits k rows c :
  c ∈ reverse (omap (commit_of k) rows) -> exists i, row_commits k rows i c.
Proof.
  rewrite elem_of_reverse, list_elem_of_omap. intros (row & (i & Hi)%list_elem_of_lookup_1 & Hc). exists i. by exists row.
Qed.

Lemma local_commit k b t fs f fs' checks execs :
  (exists rest, lineage t = k :: rest) -> decreasing (lineage t) ->
  local_ok genuine k b t -> flights t = fs ++ f :: fs' -> fl_checks f = Some checks ->
  (forall i status c, execs !! i = Some (Executed status) -> checks !! i = Some c -> is_ok (fst (fst c)) = true) ->
  local_ok genuine k b
    (with_committed (reverse (omap (commit_of k) (zip (zip (flight_txs f) execs) checks)) ++ committed t)
       (with_flights (fs ++ mkFlight (fl_batch f) None :: fs') (trail_locks t) t)).
Proof.
  intros [rest Hh] Hso Hlo Hfs Hch Hex. pose proof (lo_sched _ _ _ _ Hlo) as Hs. pose proof (lo_flights _ _ _ _ Hlo) as Hf.
  rewrite Hfs in Hs, Hf. set (rows := zip _ checks).
  assert (forall i c, row_commits k rows i c -> exists tx check, flight_txs f !! i = Some tx /\ checks !! i = Some check /\
    lock_results (fl_batch f) !! i = Some (Ok tt) /\ c_slot c = k /\ commit_is tx c /\
    (c_by_age c = true -> Forall (fun c' => ~ commit_is tx c') (committed t))) as Hrow.
  { intros i c Hi. apply row_commits_inv in Hi as (tx & status & check & Htx & Hst & Hck & Hsl & Hci & Hage).
    rewrite list.Forall_forall in Hf. specialize (Hf f ltac:(set_solver)).
    destruct (fo_checked _ _ _ Hf checks i tx check Hch Htx Hck (Hex i status check Hst Hck)) as [Hl Hn].
    exists tx, check. split_and!; try done. intros Ha. by apply Hn, Hage. }
  split; simpl.
  - apply Hlo.
  - intros c age [(i & Hi)%omap_row_commits|Hc]%elem_of_app Ha; [|by eapply lo_count].
    destruct (Hrow i c Hi) as (_ & _ & _ & _ & _ & Hsl & _). rewrite Hsl, Hh, after_head by (by rewrite <- Hh).
    destruct (lo_queue _ _ _ _ Hlo) as [[_ Hages _] _]. destruct (Hages _ _ Ha) as (j & _ & -> & _).
    destruct (tick_height b <? max_tick_height b); lia.
  - apply Hlo.
  - apply once_extend; [| |apply Hlo].
    + intros i c Hi Hage. destruct (Hrow i c Hi) as (tx & _ & _ & _ & _ & _ & [Hb Hk] & Hn). specialize (Hn Hage).
      eapply list.Forall_impl; [exact Hn|]. intros c' Hne [Hb' Hk']. apply Hne. split; congruence.
    + intros i j c c' Hij Hi Hj [_ Hkey]. destruct (Hrow i c Hi) as (tx & _ & Htx & _ & Hl & _ & [_ Hk] & _).
      destruct (Hrow j c' Hj) as (tx' & _ & Htx' & _ & Hl' & _ & [_ Hk'] & _).
      destruct (flights_distinct genuine genuine_hash genuine_writes _ _ _ _ _ i tx Hs Hf Htx Hl) as [Hd _].
      apply (Hd j tx'); [lia|done|done|congruence].
  - rewrite fmap_app, fmap_cons in *. done.
  - assert (forall g, g ∈ fs ++ fs' -> flight_ok genuine (committed t) g ->
      flight_ok genuine (reverse (omap (commit_of k) rows) ++ committed t) g) as Hother.
    { intros g Hg [Hu Hgen Hck]. split; [done|done|]. intros checks' i tx c Hc Htx Hi Hok.
      destruct (Hck checks' i tx c Hc Htx Hi Hok) as [Hl Hn]. split; [done|]. intros Hnone.
      apply list.Forall_app. split; [|by apply Hn]. apply list.Forall_forall. intros c' (j & Hj)%omap_row_commits [_ Hkey].
      destruct (Hrow j c' Hj) as (tx' & _ & Htx' & _ & Hl' & _ & [_ Hk'] & _).
      destruct (flights_distinct genuine genuine_hash genuine_writes _ _ _ _ _ j tx' Hs Hf Htx' Hl') as [_ Hd].
      apply (Hd g i tx); [done|done|done|congruence]. }
    apply list.Forall_app in Hf as [Hf1 [Hf0 Hf2]%list.Forall_cons]. rewrite list.Forall_forall in Hf1, Hf2.
    apply list.Forall_app. split; [|constructor]; rewrite ?list.Forall_forall.
    + intros g Hg. apply Hother; [set_solver|by apply Hf1].
    + split; simpl; [apply Hf0|apply Hf0|done].
    + intros g Hg. apply Hother; [set_solver|by apply Hf2].
Qed.

Lemma commit_ok w k b t fs f fs' checks execs randoms cache' :
  world_ok genuine w -> banks (w_forks w) !! k = Some b -> w_trails w !! k = Some t -> flights t = fs ++ f :: fs' ->
  fl_checks f = Some checks ->
  (forall i status c, execs !! i = Some (Executed status) -> checks !! i = Some c -> is_ok (fst (fst c)) = true) ->
  length randoms = length (flight_txs f) -> Forall (fun r => 0 <= fst r /\ 0 <= snd r) randoms ->
  commit_transactions b (flight_txs f) execs randoms (w_cache w) = Ok cache' ->
  world_ok genuine (set_cache cache' (set_trail k
    (with_committed (reverse (omap (commit_of k) (zip (zip (flight_txs f) execs) checks)) ++ committed t)
      (with_flights (fs ++ mkFlight (fl_batch f) None :: fs') (trail_locks t) t)) w)).
Proof.
  intros Hw Hb Ht Hfs Hch Hex Hrl Hrn Hrun. set (t' := with_committed _ _).
  replace (set_cache cache' (set_trail k t' w)) with (update k b t' cache' w).
  2: { unfold update, set_trail, set_cache. rewrite insert_id by done. by destruct w as [[]]. }
  revert Hrun. unfold commit_transactions, update_transaction_statuses. destruct (bank_freeze_started b) eqn:Hfr; [done|].
  case_bool_decide as Hlen; [|done]. rewrite (wo_banks _ _ Hw k b Hb). intros Hrun.
  assert (forks_root (w_forks w) <= k) as Hk.
  { destruct (decide (k < forks_root (w_forks w))) as [Hlt|]; [|lia]. pose proof (wo_frozen _ _ Hw k b Hb Hlt). congruence. }
  destruct (wo_live _ _ Hw k b t) as [Hpl Hlo]; [done|].
  pose proof (lo_flights _ _ _ _ Hlo) as Hf. rewrite Hfs in Hf. rewrite list.Forall_forall in Hf.
  pose proof (fo_genuine _ _ _ (Hf f ltac:(set_solver))) as Hg.
  apply record_statuses_spec in Hrun as (Hwf & Hroots & Hm & Hrec); [|apply Hw|].
  2: { apply list.Forall_lookup_2. intros i [[tx ex] r] Hi. apply lookup_zip_with_Some in Hi as ([tx1 ex1] & r1 & [= <- <- <-] & Hte & Hr).
       apply lookup_zip_with_Some in Hte as (tx2 & ex2 & [= <- <-] & Htx & _). split; [by eapply list.Forall_lookup_1|].
       by eapply (list.Forall_lookup_1 _ _ _ _ Hrn). }
  apply (update_ok genuine w k b t); try done; [congruence| |].
  - exists (reverse (omap (commit_of k) (zip (zip (flight_txs f) execs) checks))). split; [done|]. intros c (i & Hi)%omap_row_commits.
    apply row_commits_inv in Hi as (tx & status & check & Htx & Hst & _ & Hsl & [Hcb Hck] & _). split; [done|].
    rewrite Hsl, Hcb, Hck. assert (is_Some (randoms !! i)) as [r Hr].
    { apply lookup_lt_is_Some. rewrite Hrl. by eapply lookup_lt_Some. }
    apply (Hrec i tx status r). apply lookup_zip_with_Some. exists (tx, Executed status), r. split_and!; [done| |done].
    apply lookup_zip_with_Some. by exists tx, (Executed status).
  - intros _ _ _. apply local_commit; try done; apply Hpl.
Qed.

Lemma tick_ok w k b t now hash b' :
  world_ok genuine w -> banks (w_forks w) !! k = Some b -> w_trails w !! k = Some t ->
  tick_height b < int_max U64 -> last_hash_index (blockhash_queue b) < int_max U64 ->
  hash ∉ c_blockhash <$> committed t -> register_tick now hash b = Ok b' ->
  world_ok genuine (set_bank k b' (set_trail k
    (with_registered (if is_block_boundary (tick_height b + 1) b then hash :: registered t else registered t) t) w)).
Proof.
  intros Hw Hb Ht Htick Hlast Hcom Hrun. set (t' := with_registered _ t).
  change (world_ok genuine (update k b' t' (w_cache w) w)).
  revert Hrun. unfold register_tick. destruct (bank_freeze_started b) eqn:Hfr; [done|]. intros [= <-].
  set (b1 := if is_block_boundary _ b then _ else b).
  assert (bank_slot b1 = bank_slot b /\ bank_parent b1 = bank_parent b /\ bank_ancestors b1 = bank_ancestors b /\
    ticks_per_slot b1 = ticks_per_slot b /\ max_tick_height b1 = max_tick_height b) as (? & ? & ? & Htps & Hmt)
    by (unfold b1; destruct (is_block_boundary (wrapping U64 (tick_height b + 1)) b); split_and!; reflexivity).
  apply (update_ok genuine w k b t); try done; [congruence|apply Hw|exists []; split; [done|]; by intros ? ?%elem_of_nil|].
  intros _ Hpl Hlo. destruct (lo_ticks _ _ _ _ Hlo) as (Ht1 & Ht2 & Ht3 & Ht4).
  assert (wrapping U64 (tick_height b + 1) = tick_height b + 1) as Hw1 by (apply wrapping_small; unfold in_range; simpl in *; lia).
  unfold b1, t' in *. rewrite Hw1 in *. destruct (is_block_boundary (tick_height b + 1) b) eqn:Hbd; unfold is_block_boundary in Hbd.
  - apply Z.eqb_eq in Hbd. destruct (lo_queue _ _ _ _ Hlo) as [Hq Hmax].
    destruct (register_lists now hash (fee_rate b) _ _ Hq Hlast Hmax) as [Hq' Hl'].
    split; simpl; [done| |by split_and!; try lia|apply Hlo|apply Hlo|apply Hlo].
    intros c age Hc Ha. simpl in Hl'. rewrite Hl'. destruct (Z.ltb_spec (tick_height b + 1) (max_tick_height b)); [lia|].
    assert (c_blockhash c <> hash) as Hne by (intros <-; apply Hcom, list_elem_of_fmap; by exists c).
    unfold register_recent_blockhash, register_hash in Ha. simpl in Ha. rewrite lookup_insert_ne in Ha by done.
    assert (ages (blockhash_queue b) !! c_blockhash c = Some age) as Ha'
      by (destruct (_ <=? _); [by apply map_lookup_filter_Some in Ha as [? _]|done]).
    pose proof (lo_count _ _ _ _ Hlo c age Hc Ha') as Hcount.
    destruct (Z.ltb_spec (tick_height b) (max_tick_height b)); lia.
  - apply Z.eqb_neq in Hbd. split; simpl; try apply Hlo; [|by split_and!; try lia].
    intros c age Hc Ha. pose proof (lo_count _ _ _ _ Hlo c age Hc Ha) as Hcount.
    destruct (Z.ltb_spec (tick_height b) (max_tick_height b)), (Z.ltb_spec (tick_height b + 1) (max_tick_height b)); lia.
Qed.

Lemma accounts_ok w k b state :
  world_ok genuine w -> banks (w_forks w) !! k = Some b -> world_ok genuine (set_bank k (set_bank_state state b) w).
Proof.
  intros Hw Hb. destruct (wo_trails _ _ Hw k) as [t Ht]; [by eexists|].
  replace (set_bank k (set_bank_state state b) w) with (update k (set_bank_state state b) t (w_cache w) w).
  2: { unfold update, set_bank. by rewrite (insert_id (w_trails w)) by done. }
  apply (update_ok genuine w k b t); try done; [apply Hw|exists []; split; [done|]; by intros ? ?%elem_of_nil|].
  intros _ _ [? ? ? ? ? ?]. by split.
Qed.

End steps.
