(* ===== verification/ProcessedOnce.v ===== *)
(** * No transaction is processed twice

    The steps between banks - new banks, roots and dumped blocks - keep the
    invariant of [OnceRules], and the genesis bank has it. So the status cache,
    which forgets all but the last 300 roots and holds 20 bytes of each key, and
    the queue of blockhashes, which forgets by age, together admit a transaction at
    most once on each fork. *)

From S2P Require Import Prelude Errors Rent Account Pubkey TransactionContext Sysvars Nonce SystemProgram BTreeMap Message MessageRules MessageProcessor AccountLocks LockRules RollingBits StatusCache BankForks OnceRules.

(** The slots that are not below [r]. *)
Definition above (r : Slot) (l : list Slot) : list Slot := filter (fun x => r <= x) l.

Section tree.
Variable genuine : SanitizedTransaction -> Prop.
Implicit Types w : World.

Abbreviation root_of w := (forks_root (w_forks w)).

(** ** Chains of live banks *)

Lemma lineage_bound w k b t x : place_ok w k b t -> x ∈ lineage t -> x <= k.
Proof.
  intros Hpl Hx. destruct (pl_head _ _ _ _ Hpl) as [rest Hh]. pose proof (pl_sorted _ _ _ _ Hpl) as Hd. rewrite Hh in *.
  destruct Hd as [Hd _]. apply elem_of_cons in Hx as [->|Hx]; [lia|]. rewrite list.Forall_forall in Hd. specialize (Hd x Hx). lia.
Qed.

Lemma chain_live w k b t x :
  world_ok genuine w -> live w k b t -> x ∈ lineage t -> root_of w <= x ->
  exists bx tx pre newer, live w x bx tx /\ lineage t = pre ++ lineage tx /\ Forall (fun y => x < y) pre /\
    committed t = newer ++ committed tx /\ (x <> k -> bank_freeze_started bx = true).
Proof.
  intros Hw. remember (lineage t) as l eqn:Hl. revert k b t Hl. induction l as [|y l IH]; intros k b t Hl Hlv Hx Hr; [by apply elem_of_nil in Hx|].
  destruct (wo_live _ _ Hw k b t Hlv) as [Hpl _]. destruct (pl_head _ _ _ _ Hpl) as [rest Hh]. rewrite <- Hl in Hh. injection Hh as -> ->.
  destruct (decide (x = k)) as [->|Hne].
  { exists b, t, [], []. rewrite Hl. by split_and!. }
  apply elem_of_cons in Hx as [?|Hx]; [done|].
  destruct (pl_parent _ _ _ _ Hpl) as [[-> _]|[_ (p & bp & tp & nw & Hp & Hlp & Hlt & Hc & Hf)]].
  { pose proof (pl_sorted _ _ _ _ Hpl) as Hd. rewrite <- Hl in Hd. destruct Hd as [Hd _]. rewrite list.Forall_forall in Hd.
    specialize (Hd x Hx). lia. }
  rewrite <- Hl in Hlt. injection Hlt as ->.
  destruct (IH p bp tp eq_refl Hlp Hx Hr) as (bx & tx & pre & newer & Hlx & Hpre & Hfp & Hcx & Hfx).
  exists bx, tx, (k :: pre), (nw ++ newer). rewrite Hpre, Hc, Hcx, app_assoc. split_and!; try done.
  - constructor; [|done]. pose proof (pl_sorted _ _ _ _ Hpl) as Hd. rewrite <- Hl in Hd. destruct Hd as [Hd _].
    rewrite list.Forall_forall in Hd. by apply Hd.
  - intros _. destruct (decide (x = p)) as [->|Hxp]; [|by apply Hfx]. destruct Hlp as (Hbp & _), Hlx as (Hbx & _). congruence.
Qed.

Lemma above_size w k b t :
  world_ok genuine w -> live w k b t -> (length (above (root_of w) (lineage t)) <= size (banks (w_forks w)))%nat.
Proof.
  intros Hw Hlv. destruct (wo_live _ _ Hw k b t Hlv) as [Hpl _].
  unfold above. rewrite <- (size_list_to_set (C:=gset Slot)) by (by apply list.NoDup_filter, decreasing_nodup, Hpl).
  rewrite <- size_dom. apply subseteq_size. intros x Hx. apply elem_of_list_to_set, list_elem_of_filter in Hx as [Hr Hx].
  destruct (chain_live w k b t x Hw Hlv Hx Hr) as (bx & tx & _ & _ & (Hb & _) & _). apply elem_of_dom. by exists bx.
Qed.

Lemma parents_spec w n k b t x :
  world_ok genuine w -> live w k b t -> (length (above (root_of w) (lineage t)) <= S n)%nat ->
  x ∈ parents_from n (bank_parent b) (banks (w_forks w)) <-> x <> k /\ x ∈ lineage t /\ root_of w <= x.
Proof.
  intros Hw. revert k b t. induction n as [|n IH]; intros k b t Hlv Hlen;
    destruct (wo_live _ _ Hw k b t Hlv) as [Hpl _]; destruct (pl_head _ _ _ _ Hpl) as [rest Hh];
    pose proof (pl_sorted _ _ _ _ Hpl) as Hd; rewrite Hh in Hd, Hlen; destruct Hd as [Hd _];
    unfold above in Hlen; rewrite filter_cons, decide_True in Hlen by apply Hlv; simpl in Hlen.
  - simpl. split; [by intros ?%elem_of_nil|]. intros (Hne & Hx & Hr). exfalso. rewrite Hh in Hx.
    apply elem_of_cons in Hx as [?|Hx]; [done|]. assert (x ∈ filter (fun x => root_of w <= x) rest) as Hin by (by apply list_elem_of_filter).
    destruct (filter _ rest); [by apply elem_of_nil in Hin|simpl in Hlen; lia].
  - rewrite list.Forall_forall in Hd.
    destruct (pl_parent _ _ _ _ Hpl) as [[Hk ->]|[_ (p & bp & tp & nw & -> & Hlp & Hlt & _)]]; simpl.
    + split; [by intros ?%elem_of_nil|]. intros (Hne & Hx & Hr). rewrite Hh in Hx. apply elem_of_cons in Hx as [?|Hx]; [done|].
      specialize (Hd x Hx). lia.
    + rewrite Hh in Hlt. injection Hlt as ->. destruct (wo_live _ _ Hw p bp tp Hlp) as [Hplp _]. destruct (pl_head _ _ _ _ Hplp) as [rp Hhp].
      destruct Hlp as (Hbp & Htp & Hrp). rewrite Hbp. simpl. rewrite elem_of_cons, (IH p bp tp) by (done || (unfold above; lia)). rewrite Hh. split.
      * intros [->|(Hne & Hx & Hr)]; [assert (p ∈ lineage tp) as Hx by (rewrite Hhp; set_solver)|];
          specialize (Hd _ Hx); (split_and!; [lia|set_solver|done]).
      * intros (Hne & [?|Hx]%elem_of_cons & Hr); [done|]. destruct (decide (x = p)); [by left|by right].
Qed.

(** A bank and its parents are its lineage down to the root. *)
Lemma chain_spec w k b t x :
  world_ok genuine w -> live w k b t -> x ∈ chain (banks (w_forks w)) k <-> x ∈ lineage t /\ root_of w <= x.
Proof.
  intros Hw Hlv. unfold chain. destruct Hlv as (Hb & Ht & Hr). rewrite Hb. simpl.
  rewrite elem_of_cons, (parents_spec w _ k b t x Hw) by (done || by etransitivity; [by eapply above_size|lia]).
  destruct (wo_live _ _ Hw k b t) as [Hpl _]; [done|]. destruct (pl_head _ _ _ _ Hpl) as [rest Hh]. split.
  - intros [->|(_ & ? & ?)]; [|done]. split; [rewrite Hh; set_solver|done].
  - intros [? ?]. destruct (decide (x = k)); [by left|by right].
Qed.

(** ** New banks *)

Lemma parents_ext m m' n o :
  (forall k, (m' !! k ≫= bank_parent) = (m !! k ≫= bank_parent)) -> parents_from n o m' = parents_from n o m.
Proof. intros H. revert o. induction n as [|n IH]; intros [s|]; simpl; try done. by rewrite H, IH. Qed.

Lemma freeze_ok w k b t :
  world_ok genuine w -> banks (w_forks w) !! k = Some b -> w_trails w !! k = Some t ->
  world_ok genuine (update k (freeze b) t (w_cache w) w).
Proof.
  intros Hw Hb Ht. apply (update_ok genuine w k b t); try done; [apply Hw|exists []; split; [done|]; by intros ? ?%elem_of_nil|].
  intros _ _ [? ? ? ? ? ?]. by split.
Qed.

Lemma add_bank_ok w slot child t forks' :
  world_ok genuine w -> bank_slot child = slot -> forks_insert child (w_forks w) = Ok forks' ->
  let w' := mkWorld forks' (w_cache w) (<[slot := t]> (w_trails w)) in
  (extends w w' -> place_ok w' slot child t /\ local_ok genuine slot child t) -> root_of w <= slot ->
  world_ok genuine w'.
Proof.
  intros [Hwf Hd Hc Ht Hroot Hfz Hlive] Hs Hins w' Hnew Hr.
  apply forks_insert_spec in Hins as (Hd' & Hnone & Hb' & Hr'); [|done]. rewrite Hs in *.
  assert (extends w w') as Hex.
  { split; try done. intros j bj tj (Hj & Htj & Hrj). assert (j <> slot) by congruence.
    exists bj, tj. unfold live, w'. simpl. rewrite Hb', Hr', !lookup_insert_ne by done. done. }
  destruct (Hnew Hex) as [Hpl Hlo]. split; simpl; try done; rewrite ?Hb', ?Hr'.
  - intros j x [[<- <-]|[_ Hj]]%lookup_insert_Some; [done|by apply Hwf].
  - intros j [x Hj]. destruct (decide (j = slot)) as [->|]; [by rewrite lookup_insert_eq|].
    rewrite lookup_insert_ne by done. rewrite lookup_insert_ne in Hj by done. apply Ht. by exists x.
  - destruct (decide (root_of w = slot)) as [->|]; [by rewrite lookup_insert_eq|by rewrite lookup_insert_ne].
  - intros j x [[<- <-]|[_ Hj]]%lookup_insert_Some Hlt; [lia|by eapply Hfz].
  - intros j x y (Hj & Hy & Hrj). simpl in *. rewrite Hb' in Hj. rewrite Hr' in Hrj. apply lookup_insert_Some in Hj as [[<- <-]|[Hne Hj]].
    + rewrite lookup_insert_eq in Hy. by simplify_eq.
    + rewrite lookup_insert_ne in Hy by done. destruct (Hlive j x y) as [Hplj Hloj]; [done|]. split; [|done].
      eapply place_extends; try done. exists []. split; [done|]. by intros ? ?%elem_of_nil.
Qed.

Lemma child_place w w' k b t slot child :
  world_ok genuine w -> live w k b t -> extends w w' -> bank_freeze_started b = true -> k < slot ->
  bank_slot child = slot -> bank_parent child = Some k ->
  represents (bank_ancestors child) (list_to_set (slot :: chain (banks (w_forks w)) k)) ->
  place_ok w' slot child (mkTrail (slot :: lineage t) (committed t) (registered t) [] AccountLocks_default).
Proof.
  intros Hw Hlv [Hr Hrs Hrec Hex] Hf Hlt Hs Hp Ha. pose proof Hlv as (_ & _ & Hrk).
  destruct (wo_live _ _ Hw k b t Hlv) as [Hpl _]. destruct (Hex k b t Hlv) as (b' & t' & Hlv' & Hl' & Hf').
  destruct (Hf' Hf) as [Hfb Hco]. pose proof (chain_spec w k b t) as Hch.
  split; simpl; rewrite ?Hr, ?Hrs.
  - done.
  - by eexists.
  - split; [|apply Hpl]. apply list.Forall_forall. intros x Hx. pose proof (lineage_bound _ _ _ _ _ Hpl Hx). lia.
  - apply elem_of_cons. right. apply Hpl.
  - right. split; [lia|]. exists k, b', t', []. rewrite Hl', Hco. done.
  - eexists. split; [exact Ha|]. split_and!.
    + intros x Hx. apply elem_of_list_to_set, elem_of_cons in Hx as [->|Hx]; [set_solver|]. apply Hch in Hx as [Hx _]; [|done|done]. set_solver.
    + intros x [->|Hx]%elem_of_cons Hrx; apply elem_of_list_to_set, elem_of_cons; [by left|right]. by apply Hch.
    + intros x [->|Hx]%elem_of_cons; [left; apply elem_of_list_to_set; set_solver|].
      destruct (decide (root_of w <= x)); [left; apply elem_of_list_to_set, elem_of_cons; right; by apply Hch|].
      destruct (chain_live w k b t (root_of w) Hw Hlv (pl_root _ _ _ _ Hpl) ltac:(lia)) as (br & tr & pre & nw & Hlr & Hpre & Hfp & _).
      destruct (wo_live _ _ Hw _ _ _ Hlr) as [Hplr _]. assert (x ∈ lineage tr) as Hxr.
      { rewrite Hpre in Hx. apply elem_of_app in Hx as [Hx|Hx]; [|done]. rewrite list.Forall_forall in Hfp. specialize (Hfp x Hx). lia. }
      destruct (pl_settled _ _ _ _ Hplr eq_refl x Hxr) as [?|Ho]; [by right; left|]. right. right.
      eapply outdated_mono; [|reflexivity|exact Ho]. rewrite Hpre. set_solver.
  - intros x Hx. apply elem_of_cons. right. by apply Hpl.
  - lia.
  - intros c Hc. destruct (pl_recorded _ _ _ _ Hpl c Hc) as [Hin [Hrc|Ho]]; (split; [set_solver|]); [left; by apply Hrec|right].
    eapply outdated_mono; [|reflexivity|exact Ho]. set_solver.
Qed.

Lemma child_local w k b t slot child :
  place_ok w k b t -> local_ok genuine k b t -> is_complete b = true -> k < slot -> (slot + 1) * ticks_per_slot b <= int_max U64 ->
  blockhash_queue child = blockhash_queue b -> ticks_per_slot child = ticks_per_slot b -> tick_height child = tick_height b ->
  max_tick_height child = wrapping U64 ((slot + 1) * ticks_per_slot b) ->
  local_ok genuine slot child (mkTrail (slot :: lineage t) (committed t) (registered t) [] AccountLocks_default).
Proof.
  intros Hpl Hlo Hcom Hlt Hmax Hq Htps Hth Hmt. destruct (lo_ticks _ _ _ _ Hlo) as (Ht1 & Ht2 & Ht3 & Ht4).
  apply Z.eqb_eq in Hcom. rewrite wrapping_small in Hmt by (unfold in_range; simpl in *; nia).
  split; simpl; rewrite ?Hq, ?Htps, ?Hth, ?Hmt.
  - apply Hlo.
  - intros c age Hc Ha. pose proof (lo_count _ _ _ _ Hlo c age Hc Ha) as Hcount. rewrite Hcom, Z.ltb_irrefl in Hcount.
    rewrite after_cons. destruct (Z.ltb_spec (tick_height b) ((slot + 1) * ticks_per_slot b)); [|nia].
    case_bool_decide; lia.
  - split_and!; lia.
  - apply Hlo.
  - split; simpl; [apply default_holds|constructor|done].
  - constructor.
Qed.

Lemma new_bank_ok w k b t slot fee state child banks' forks' :
  world_ok genuine w -> banks (w_forks w) !! k = Some b -> w_trails w !! k = Some t -> root_of w <= k ->
  is_complete b = true -> k < slot -> slot + ANCESTORS_HASH_MAP_SIZE < int_max U64 ->
  (slot + 1) * ticks_per_slot b <= int_max U64 ->
  new_from_parent b slot fee state (banks (w_forks w)) = Ok (child, banks') ->
  forks_insert child (with_banks banks' (w_forks w)) = Ok forks' ->
  world_ok genuine (mkWorld forks' (w_cache w)
    (<[slot := mkTrail (slot :: lineage t) (committed t) (registered t) [] AccountLocks_default]> (w_trails w))).
Proof.
  intros Hw Hb Ht Hr Hcom Hlt Hs Hmax Hnew Hins. pose proof (freeze_ok w k b t Hw Hb Ht) as Hw1.
  revert Hnew. unfold new_from_parent. simpl. rewrite (wo_banks _ _ Hw k b Hb).
  destruct (Z.eqb_spec slot k); [lia|]. set (w1 := update k (freeze b) t (w_cache w) w) in *.
  assert (live w1 k (freeze b) t) as Hlv1 by (unfold live, w1; simpl; by rewrite !lookup_insert_eq).
  destruct (wo_live _ _ Hw1 _ _ _ Hlv1) as [Hpl1 Hlo1].
  assert (k :: parents (freeze b) (<[k := freeze b]> (banks (w_forks w))) = chain (banks (w_forks w1)) k) as Hchain.
  { unfold chain, parents. simpl. by rewrite lookup_insert_eq. }
  rewrite Hchain. destruct (ancestors_represent (slot :: chain (banks (w_forks w1)) k)) as (a & -> & Hrep).
  { constructor; [destruct (lo_ticks _ _ _ _ Hlo1); lia|]. apply list.Forall_forall. intros x Hx.
    apply (chain_spec w1 k (freeze b) t) in Hx as [Hx Hrx]; [|done|done]. pose proof (lineage_bound _ _ _ _ _ Hpl1 Hx).
    split; [|lia]. etransitivity; [|exact Hrx]. destruct (wo_root _ _ Hw1) as [br Hbr].
    destruct (wo_trails _ _ Hw1 (root_of w1)) as [tr Htr]; [by eexists|].
    destruct (wo_live _ _ Hw1 (root_of w1) br tr) as [_ Hlor]; [split_and!; [done|done|lia]|]. by destruct (lo_ticks _ _ _ _ Hlor) as (_ & _ & _ & ?). }
  simpl. intros [= <- <-].
  replace (<[slot := _]> (w_trails w)) with (<[slot := mkTrail (slot :: lineage t) (committed t) (registered t) [] AccountLocks_default]> (w_trails w1))
    by (unfold w1; simpl; by rewrite (insert_id (w_trails w)) by done).
  refine (add_bank_ok w1 slot _ _ forks' Hw1 _ Hins _ _); [reflexivity| |simpl; lia].
  intros Hex. split; [by eapply (child_place w1)|]. eapply (child_local w1 k (freeze b)); try done.
Qed.

(** ** Roots *)

Lemma add_roots_spec {T} (added : list Slot) (c : StatusCache T) :
  cache_wf c ->
  let c' := foldl (fun c r => status_add_root r c) c added in
  let X := list_to_set added ∪ roots c in
  cache_wf c' /\ roots c' ⊆ X /\ (forall s, s ∈ X -> s ∈ roots c' \/ outdated X s) /\
  forall h key s, recorded c h key s -> recorded c' h key s \/ outdated X s.
Proof.
  revert c. induction added as [|r added IH]; intros c Hwf; simpl.
  { split_and!; [done|set_solver| |by left]. intros s Hs. left. set_solver. }
  destruct (add_root_spec r c Hwf) as (Hwf1 & Hsub1 & Hroots1 & Hrec1). set (c1 := status_add_root r c) in *.
  destruct (IH c1 Hwf1) as (Hwf' & Hsub & Hroots & Hrec). set (X := {[r]} ∪ list_to_set added ∪ roots c).
  assert (list_to_set added ∪ roots c1 ⊆ X) as HX by set_solver.
  assert (forall s, outdated ({[r]} ∪ roots c) s -> outdated X s) as Hm1
    by (intros s Ho; eapply outdated_mono; [|reflexivity|exact Ho]; set_solver).
  assert (forall s, outdated (list_to_set added ∪ roots c1) s -> outdated X s) as Hm
    by (intros s Ho; by eapply outdated_mono; [|reflexivity|exact Ho]).
  split_and!; [done|set_solver| |].
  - intros s Hs. assert (s ∈ (list_to_set added : gset Slot) \/ s ∈ {[r]} ∪ roots c) as [Ha|Ha] by set_solver.
    + destruct (Hroots s) as [?|?]; [set_solver|by left|right; by apply Hm].
    + destruct (Hroots1 s Ha) as [Ha1|?]; [|right; by apply Hm1]. destruct (Hroots s) as [?|?]; [set_solver|by left|right; by apply Hm].
  - intros h key s Hr. destruct (Hrec1 _ _ _ Hr) as [Hr1|?]; [|right; by apply Hm1].
    destruct (Hrec _ _ _ Hr1) as [?|?]; [by left|right; by apply Hm].
Qed.

Lemma local_cut (m m' : gmap Slot ForkBank) k b b' t :
  cut m m' -> m !! k = Some b -> m' !! k = Some b' -> local_ok genuine k b t -> local_ok genuine k b' t.
Proof.
  intros Hc Hb Hb' [Hq Hn Ht Ho Hs Hf]. specialize (Hc k). rewrite Hb, Hb' in Hc.
  destruct Hc as (_ & _ & Hq' & Htps & Hth & Hmt & _). split; rewrite ?Hq', ?Htps, ?Hth, ?Hmt; done.
Qed.

Section rooting.
Variables (w w' : World) (root : Slot) (requests : list Slot) (added : list Slot) (m : gmap Slot ForkBank).
Hypothesis Hw : world_ok genuine w.
Hypothesis Hge : root_of w <= root.
Hypothesis Hreq : Forall (fun q => q ∈ chain (banks (w_forks w)) root) requests.
Hypothesis Hcache : w_cache w' = foldl (fun c r => status_add_root r c) (w_cache w) added.
Hypothesis Htrails : w_trails w' = w_trails w.
Hypothesis Hadded : forall x, x ∈ added -> exists q, (q = root \/ q ∈ requests) /\ x ∈ chain (banks (w_forks w)) q.
Hypothesis Hall : forall x, x ∈ chain (banks (w_forks w)) root -> x ∈ added.
Hypothesis Hroot' : root_of w' = root.
Hypothesis Hnone : exists b', banks (w_forks w') !! root = Some b' /\ bank_parent b' = None.
Hypothesis Hcut : cut (banks (w_forks w)) m.
Hypothesis Hsame : forall k, k <> root -> k ∉ requests -> m !! k = banks (w_forks w) !! k.
Hypothesis Hkept : forall k b', banks (w_forks w') !! k = Some b' -> m !! k = Some b' /\
  (k = root \/ (k < root /\ below (w_forks w) k root) \/ below (w_forks w) root k).
Hypothesis Hbelow : forall k, below (w_forks w) root k -> banks (w_forks w') !! k = m !! k.

Lemma cut_lookup k b' : m !! k = Some b' -> exists b, banks (w_forks w) !! k = Some b /\
  bank_slot b' = bank_slot b /\ bank_ancestors b' = bank_ancestors b /\
  (bank_freeze_started b = true -> bank_freeze_started b' = true).
Proof.
  intros Hb'. specialize (Hcut k). rewrite Hb' in Hcut. destruct (banks (w_forks w) !! k) as [b|]; [|done].
  exists b. destruct Hcut as (? & ? & _ & _ & _ & _ & ? & _). done.
Qed.

(** The banks that live on lived before, and descend from the new root. *)
Lemma rooted_live k b' t :
  live w' k b' t -> exists b, live w k b t /\ m !! k = Some b' /\ bank_slot b' = bank_slot b /\
    bank_ancestors b' = bank_ancestors b /\ root ∈ lineage t.
Proof.
  intros (Hb & Ht & Hr). rewrite Htrails in Ht. rewrite Hroot' in Hr. destruct (Hkept k b' Hb) as [Hm Hk].
  destruct (cut_lookup k b' Hm) as (b & Hb0 & Hs & Ha & _). exists b.
  assert (live w k b t) as Hlv by (split_and!; [done|done|lia]). destruct (wo_live _ _ Hw k b t Hlv) as [Hpl _].
  split_and!; try done. destruct Hk as [->|[[? _]|Hbl]]; [|lia|].
  - destruct (pl_head _ _ _ _ Hpl) as [rest ->]. set_solver.
  - apply (wo_descends _ _ Hw) in Hbl as (b1 & Hb1 & Hin). simplify_eq. unfold proper_ancestors in Hin.
    apply list_elem_of_filter in Hin as [_ Hin]. destruct (pl_ancestors _ _ _ _ Hpl) as (S & Hrep & Hsub & _).
    by apply Hsub, (rep_get_all _ _ _ Hrep).
Qed.

(** A bank whose lineage has the root lives on. *)
Lemma rooted_stays k b t :
  live w k b t -> root ∈ lineage t -> exists b', live w' k b' t /\ (bank_freeze_started b = true -> bank_freeze_started b' = true).
Proof.
  intros Hlv Hin. destruct (wo_live _ _ Hw k b t Hlv) as [Hpl _]. pose proof (lineage_bound _ _ _ _ _ Hpl Hin).
  assert (exists b', banks (w_forks w') !! k = Some b') as [b' Hb'].
  { destruct (decide (k = root)) as [->|Hne]; [destruct Hnone as (b' & ? & _); by exists b'|].
    rewrite Hbelow. 2: { apply (wo_descends _ _ Hw). exists b. split; [apply Hlv|]. apply list_elem_of_filter.
      rewrite (pl_slot _ _ _ _ Hpl). split; [done|]. destruct (pl_ancestors _ _ _ _ Hpl) as (S & Hrep & _ & Hall' & _).
      by apply (rep_get_all _ _ _ Hrep), Hall'. }
    specialize (Hcut k). destruct Hlv as (Hb & _). rewrite Hb in Hcut. destruct (m !! k) as [b'|]; [by exists b'|done]. }
  exists b'. destruct Hlv as (Hb & Ht & _). split; [unfold live; rewrite Htrails, Hroot'; done|].
  destruct (Hkept k b' Hb') as [Hm _]. destruct (cut_lookup k b' Hm) as (b0 & Hb0 & _ & _ & Hf). by simplify_eq.
Qed.

Lemma rooted_sub k b t : live w k b t -> root ∈ lineage t -> list_to_set added ∪ roots (w_cache w) ⊆ slots_of (lineage t).
Proof.
  intros Hlv Hin x [Hx|Hx]%elem_of_union; apply elem_of_list_to_set.
  - apply elem_of_list_to_set in Hx. apply Hadded in Hx as (q & Hq & Hx).
    destruct (chain_live w k b t root Hw Hlv Hin Hge) as (br & tr & pre & _ & Hlr & Hpre & _).
    assert (q ∈ lineage tr /\ root_of w <= q) as [Hqt Hqr].
    { apply (chain_spec w root br tr q Hw Hlr). destruct Hq as [->|Hq]; [unfold chain; set_solver|]. rewrite list.Forall_forall in Hreq. by apply Hreq. }
    destruct (chain_live w root br tr q Hw Hlr Hqt Hqr) as (bq & tq & preq & _ & Hlq & Hpreq & _).
    apply (chain_spec w q bq tq x Hw Hlq) in Hx as [Hx _]. rewrite Hpre, Hpreq. set_solver.
  - destruct (wo_live _ _ Hw k b t Hlv) as [Hpl _]. by apply Hpl.
Qed.

Lemma rooted_parent k b' t :
  live w' k b' t -> k = root_of w' /\ bank_parent b' = None \/
    k <> root_of w' /\ exists p bp tp newer, bank_parent b' = Some p /\ live w' p bp tp /\
      lineage t = k :: lineage tp /\ committed t = newer ++ committed tp /\ bank_freeze_started bp = true.
Proof.
  intros Hlv'. destruct (rooted_live k b' t Hlv') as (b & Hlv & Hm & Hs & Ha & Hin). rewrite Hroot'.
  destruct (wo_live _ _ Hw k b t Hlv) as [Hpl _].
  destruct (decide (k = root)) as [->|Hne]; [left|right]; (split; [done|]).
  { destruct Hnone as (b1 & Hb1 & Hp1). destruct Hlv' as (Hb' & _). by simplify_eq. }
  pose proof (lineage_bound _ _ _ _ _ Hpl Hin).
  destruct (pl_parent _ _ _ _ Hpl) as [[-> _]|[_ (p & bp & tp & nw & Hp & Hlp & Hl & Hco & Hf)]]; [lia|].
  destruct (rooted_stays p bp tp Hlp) as (bp' & Hlp' & Hf'); [rewrite Hl in Hin; set_solver|].
  exists p, bp', tp, nw. split_and!; try done; [|by apply Hf'].
  rewrite Hsame in Hm; [destruct Hlv as (Hb & _); by simplify_eq|done|].
  intros Hk. rewrite list.Forall_forall in Hreq. apply Hreq in Hk.
  destruct (chain_live w k b t root Hw Hlv Hin Hge) as (br & tr & _ & _ & Hlr & _).
  apply (chain_spec w root br tr k Hw Hlr) in Hk as [Hk _].
  destruct (wo_live _ _ Hw _ _ _ Hlr) as [Hplr _]. pose proof (lineage_bound _ _ _ _ _ Hplr Hk). lia.
Qed.

Lemma rooted_place k b' t : live w' k b' t -> place_ok w' k b' t.
Proof.
  intros Hlv'. destruct (rooted_live k b' t Hlv') as (b & Hlv & Hm & Hs & Ha & Hin).
  destruct (wo_live _ _ Hw k b t Hlv) as [Hpl _]. pose proof (rooted_sub k b t Hlv Hin) as Hsub.
  destruct (add_roots_spec added (w_cache w) (wo_cache _ _ Hw)) as (_ & Hsubr & Hroots & Hrec).
  set (X := list_to_set added ∪ roots (w_cache w)) in *.
  assert (forall x, outdated X x -> outdated (slots_of (lineage t)) x) as Hmono
    by (intros x Ho; by eapply outdated_mono; [|reflexivity|exact Ho]).
  split; rewrite ?Hroot', ?Hcache; [rewrite Hs; apply Hpl|apply Hpl|apply Hpl|done| | | | |].
  - rewrite <- Hroot'. by apply rooted_parent.
  - destruct (pl_ancestors _ _ _ _ Hpl) as (S & Hrep & Hsub1 & Hab & Hvis). exists S. rewrite Ha. split_and!; try done.
    + intros x Hx Hrx. apply Hab; [done|lia].
    + intros x Hx. destruct (Hvis x Hx) as [?|[Hr|?]]; [by left| |by right; right].
      destruct (Hroots x) as [?|?]; [set_solver|by right; left|right; right; by apply Hmono].
  - intros x Hx. apply Hsubr, Hsub in Hx. by apply elem_of_list_to_set in Hx.
  - intros -> x Hx. destruct (decide (root_of w <= x)).
    + assert (x ∈ added) as Hxa by (apply Hall; by apply (chain_spec w root b t)).
      destruct (Hroots x) as [?|?]; [set_solver|by left|right; by apply Hmono].
    + destruct (chain_live w root b t (root_of w) Hw Hlv (pl_root _ _ _ _ Hpl) ltac:(lia)) as (br & tr & pre & _ & Hlr & Hpre & Hfp & _).
      destruct (wo_live _ _ Hw _ _ _ Hlr) as [Hplr _]. assert (x ∈ lineage tr) as Hxr.
      { rewrite Hpre in Hx. apply elem_of_app in Hx as [Hx|Hx]; [|done]. rewrite list.Forall_forall in Hfp. specialize (Hfp x Hx). lia. }
      destruct (pl_settled _ _ _ _ Hplr eq_refl x Hxr) as [Hr|Ho].
      * destruct (Hroots x) as [?|?]; [set_solver|by left|right; by apply Hmono].
      * right. eapply outdated_mono; [|reflexivity|exact Ho]. rewrite Hpre. set_solver.
  - intros c Hc. destruct (pl_recorded _ _ _ _ Hpl c Hc) as [Hcin [Hrc|Ho]]; (split; [done|]); [|by right].
    destruct (Hrec _ _ _ Hrc) as [?|?]; [by left|right; by apply Hmono].
Qed.

Lemma rooted_ok : descends (w_forks w') -> world_ok genuine w'.
Proof.
  intros Hd. split; [| |rewrite Hcache; apply add_roots_spec, Hw| | | |].
  - intros k b' Hb'. destruct (Hkept k b' Hb') as [Hm _]. destruct (cut_lookup k b' Hm) as (b & Hb & -> & _). by apply Hw.
  - done.
  - intros k [b' Hb']. destruct (Hkept k b' Hb') as [Hm _]. destruct (cut_lookup k b' Hm) as (b & Hb & _). rewrite Htrails.
    apply Hw. by exists b.
  - rewrite Hroot'. destruct Hnone as (b' & ? & _). by exists b'.
  - intros k b' Hb'. rewrite Hroot'. intros Hlt. destruct (Hkept k b' Hb') as [Hm Hk]. destruct (cut_lookup k b' Hm) as (b & Hb & _ & _ & Hf).
    apply Hf. destruct (decide (k < root_of w)); [by eapply Hw|].
    destruct Hk as [->|[[_ Hbl]|Hbl]]; [lia| |].
    + apply (wo_descends _ _ Hw) in Hbl as (br & Hbr & Hin). destruct (wo_trails _ _ Hw root) as [tr Htr]; [by eexists|].
      assert (live w root br tr) as Hlr by done. destruct (wo_live _ _ Hw _ _ _ Hlr) as [Hplr _].
      apply list_elem_of_filter in Hin as [_ Hin]. destruct (pl_ancestors _ _ _ _ Hplr) as (S & Hrep & Hsub & _).
      apply (rep_get_all _ _ _ Hrep), Hsub in Hin.
      destruct (chain_live w root br tr k Hw Hlr Hin) as (bk & tk & _ & _ & (Hbk & _) & _ & _ & _ & Hfk); [lia|].
      simplify_eq. apply Hfk. lia.
    + apply (wo_descends _ _ Hw) in Hbl as (b1 & Hb1 & Hin). simplify_eq. destruct (wo_trails _ _ Hw k) as [tk Htk]; [by eexists|].
      destruct (wo_live _ _ Hw k b1 tk) as [Hplk _]; [split_and!; [done|done|lia]|].
      apply list_elem_of_filter in Hin as [_ Hin]. destruct (pl_ancestors _ _ _ _ Hplk) as (S & Hrep & Hsub & _).
      apply (rep_get_all _ _ _ Hrep), Hsub, (lineage_bound _ _ _ _ _ Hplk) in Hin. lia.
  - intros k b' t Hlv'. split; [by apply rooted_place|]. destruct (rooted_live k b' t Hlv') as (b & Hlv & Hm & _).
    destruct (wo_live _ _ Hw k b t Hlv) as [_ Hlo]. eapply local_cut; [exact Hcut|apply Hlv|exact Hm|exact Hlo].
Qed.

End rooting.

Lemma set_root_ok w root requests high forks' cache' :
  world_ok genuine w -> root_of w <= root -> is_Some (banks (w_forks w) !! root) ->
  Forall (fun q => q ∈ chain (banks (w_forks w)) root) requests ->
  set_root root requests high (w_forks w) (w_cache w) = Ok (forks', cache') ->
  world_ok genuine (mkWorld forks' cache' (w_trails w)).
Proof.
  intros Hw Hge _ Hreq Hrun.
  apply set_root_spec in Hrun as (added & -> & Ha & Hall & Hd & Hr & Hn & m & Hc & Hs & Hk & Hb); [|apply Hw|apply Hw].
  by eapply (rooted_ok w _ root requests added m).
Qed.

(** ** Dumped blocks *)

Lemma dump_ok w slot o forks' cache' :
  world_ok genuine w -> root_of w < slot ->
  (forall k b t, banks (w_forks w) !! k = Some b -> w_trails w !! k = Some t -> k <> slot -> slot ∉ lineage t) ->
  forks_remove slot (w_forks w) = Ok (o, forks') -> clear_slot_entries slot (w_cache w) = Ok cache' ->
  world_ok genuine (mkWorld forks' cache' (delete slot (w_trails w))).
Proof.
  intros [Hwf Hd Hc Ht Hroot Hfz Hlive] Hlt Hleaf Hrm Hcl.
  apply forks_remove_spec in Hrm as (Hd' & Hb' & Hr'); [|done|done].
  apply clear_slot_keeps in Hcl as (Hwf' & Hroots & Hrec); [|done].
  set (w' := mkWorld forks' cache' _).
  assert (forall k b t, live w' k b t -> k <> slot /\ live w k b t) as Hlw.
  { intros k b t (Hb & Htk & Hr). simpl in *. rewrite Hb' in Hb. rewrite Hr' in Hr.
    apply lookup_delete_Some in Hb as [Hne Hb]. apply lookup_delete_Some in Htk as [_ Htk]. done. }
  assert (forall k b t, live w k b t -> k <> slot -> live w' k b t) as Hwl.
  { intros k b t (Hb & Htk & Hr) Hne. unfold live. simpl. rewrite Hb', Hr', !lookup_delete_ne by done. done. }
  split; simpl; rewrite ?Hb', ?Hr'; try done.
  - intros k b [_ Hb]%lookup_delete_Some. by apply Hwf.
  - intros k [b [Hne Hb]%lookup_delete_Some]. rewrite lookup_delete_ne by done. apply Ht. by exists b.
  - rewrite lookup_delete_ne by lia. done.
  - intros k b [_ Hb]%lookup_delete_Some. by apply Hfz.
  - intros k b t Hlv'. destruct (Hlw k b t Hlv') as [Hne Hlv]. destruct (Hlive k b t Hlv) as [Hpl Hlo]. split; [|done].
    pose proof (Hleaf k b t (proj1 Hlv) (proj1 (proj2 Hlv)) Hne) as Hnot.
    destruct Hpl as [Hs Hh Hso Hro Hp Ha Hrl Hse Hco]. split; simpl; rewrite ?Hr', ?Hroots; try done.
    + destruct Hp as [?|[Hnr (p & bp & tp & nw & Hp & Hlp & Hl & Hx)]]; [by left|right]. split; [done|].
      exists p, bp, tp, nw. split_and!; try apply Hx; try done. apply Hwl; [done|]. intros ->.
      destruct (Hlive _ _ _ Hlp) as [Hplp _]. destruct (pl_head _ _ _ _ Hplp) as [r Hr]. apply Hnot. rewrite Hl, Hr. set_solver.
    + intros c Hcin. destruct (Hco c Hcin) as [Hin [Hrc|Ho]]; (split; [done|]); [left|by right].
      apply Hrec; [|done]. intros Heq. by rewrite Heq in Hin.
Qed.

End tree.

(** ** All steps *)

Lemma sched_ok_idle : sched_ok (AccountLocks_default, []).
Proof. split; [apply default_holds|constructor|done]. Qed.

Lemma genesis_ok genuine now hash fee tps state ancestors :
  0 < tps -> Ancestors_from [0] = Ok ancestors ->
  world_ok genuine (genesis_world hash (genesis_bank now hash fee tps state ancestors)).
Proof.
  intros Htps Ha. destruct (ancestors_represent [0]) as (a & Ha' & Hrep); [repeat constructor; done|]. rewrite Ha in Ha'. injection Ha' as <-.
  assert (list_to_set [0] = {[0]} :> gset Slot) as Hset by set_solver. rewrite Hset in Hrep.
  set (b := genesis_bank _ _ _ _ _ _).
  assert (forall k x, ({[0 := b]} : gmap Slot ForkBank) !! k = Some x -> k = 0 /\ x = b) as Hb
    by (by intros k x [<- <-]%lookup_singleton_Some).
  split; simpl.
  - by intros k x [-> ->]%Hb.
  - intros s d. unfold below. simpl. split.
    + destruct (decide (s = 0)) as [->|]; [rewrite lookup_singleton_eq|rewrite lookup_singleton_ne by done]; set_solver.
    + intros (x & [-> ->]%Hb & [Hne Hin]%list_elem_of_filter). simpl in Hne, Hin.
      apply (rep_get_all _ _ _ Hrep) in Hin. set_solver.
  - intros h fork index keymap. simpl. by rewrite lookup_empty.
  - intros k [x [-> _]%Hb]. by rewrite lookup_singleton_eq.
  - by rewrite lookup_singleton_eq.
  - intros k x [-> ->]%Hb. simpl. lia.
  - intros k x t (Hk & Ht & _). simpl in Hk, Ht. apply Hb in Hk as [-> ->]. apply lookup_singleton_Some in Ht as [_ <-]. split.
    + split; simpl; try done; [by exists []|set_solver|by left| | |by intros _ x ->%list_elem_of_singleton; left|by intros ? ?%elem_of_nil].
      * exists {[0]}. split_and!; [done|set_solver|set_solver|]. intros x Hx. left. set_solver.
      * intros x. set_solver.
    + split; simpl; [split; [by apply genesis_lists|done]|by intros ? ? ?%elem_of_nil|lia|done|apply sched_ok_idle|constructor].
Qed.

Section once.
Context `{!ProgramIds, !MessageIds, !Hashing, !Bincode Versions, !BincodeLimited SystemInstruction}.
Variable genuine : SanitizedTransaction -> Prop.

(** The message hash stands for the message. *)
Hypothesis genuine_hash : forall tx tx', genuine tx -> genuine tx' ->
  st_message_hash tx = st_message_hash tx' -> st_message tx = st_message tx'.
(** A transaction writes its fee payer. *)
Hypothesis genuine_writes : forall tx, genuine tx -> tal_writable (get_account_locks_unchecked tx) <> [].
(** Hashes and signatures have their widths. *)
Hypothesis genuine_keys : forall tx, genuine tx -> length (st_message_hash tx) = 32%nat /\
  exists signature rest, st_signatures tx = signature :: rest /\ length signature = 64%nat.

Lemma world_step_ok w w' : world_step genuine w w' -> world_ok genuine w -> world_ok genuine w'.
Proof.
  intros Hstep Hw. destruct Hstep.
  - match goal with H : prepare_sanitized_batch _ _ _ = _ |- _ => pose proof H as Hp end.
    apply bind_ok_inv in Hp as (rs & L1 & _ & [Hnew _]%lift_ok_inv). apply batch_new_shape in Hnew as [Htx Hn].
    by eapply (prepared_ok genuine); [..|eapply sched_prepare|exact Htx|exact Hn].
  - match goal with H : prepare_sanitized_batch_with_results _ _ _ _ = _ |- _ => pose proof H as Hp end.
    apply bind_ok_inv in Hp as (rs & L1 & _ & [Hnew _]%lift_ok_inv). apply batch_new_shape in Hnew as [Htx Hn].
    by eapply (prepared_ok genuine); [..|eapply sched_prepare_with_results|exact Htx|exact Hn].
  - by eapply check_ok.
  - by eapply unlocked_flight_ok.
  - by eapply commit_ok.
  - by eapply dropped_flight_ok.
  - by eapply tick_ok.
  - by eapply accounts_ok.
  - by eapply new_bank_ok.
  - by eapply set_root_ok.
  - by eapply dump_ok.
Qed.

(** C5: Whatever the threads do - batches locked, checked, committed and dropped in
    any order on any banks, blocks completed, forks made, rooted and dumped - a
    transaction that a bank of a live fork committed because its blockhash was
    recent was not committed on that fork before, although the status cache purges
    old roots and compares a part of the key. *)
Theorem processed_once now hash fee tps state ancestors w :
  0 < tps -> Ancestors_from [0] = Ok ancestors ->
  rtc (world_step genuine) (genesis_world hash (genesis_bank now hash fee tps state ancestors)) w ->
  forall k b t newer c older,
    banks (w_forks w) !! k = Some b -> w_trails w !! k = Some t -> forks_root (w_forks w) <= k ->
    committed t = newer ++ c :: older -> c_by_age c = true ->
    forall c', c' ∈ older -> ~ same_transaction c c'.
Proof.
  intros Htps Ha Hrun. assert (world_ok genuine w) as Hw.
  { pose proof (genesis_ok genuine now hash fee tps state ancestors Htps Ha) as Hgen.
    induction Hrun as [|w0 w1 w2 Hs _ IH]; [done|]. by apply IH, (world_step_ok w0). }
  intros k b t newer c older Hb Ht Hr Hc Hage. destruct (wo_live _ _ Hw k b t) as [_ Hlo]; [done|].
  pose proof (lo_once _ _ _ _ Hlo) as Ho. rewrite Hc in Ho. apply list.Forall_forall. by eapply once_middle.
Qed.

End once.
