(* ===== verification/Client.v ===== *)
(** * The Rust client: instructions (clients/rust/src/generated/instructions)

    One module per instruction of the system program: its accounts, its
    arguments, the instruction made of them, and in the module whose name ends in
    [Builder] the builder that collects them.  The setters take the name of the
    field with [set_] before it.  Serialization is that of borsh, which is a
    parameter: the encodings of the field types, and structs as the sequence of
    their fields; that an encoder may fail is the [unwrap] of [to_vec]. *)

From S2P Require Import Prelude Errors Account Pubkey Sysvars TransactionContext SystemProgram InvokeContext Message SystemInstructions.

(** ** Borsh *)

Class Borsh := {
  borsh_u8 : Z -> option Bytes;
  borsh_u32 : Z -> option Bytes;
  borsh_u64 : Z -> option Bytes;
  borsh_pubkey : Pubkey -> option Bytes;
  (** [kaigan::types::U64PrefixString] *)
  borsh_u64_prefix_string : Bytes -> option Bytes;
}.

(** The documented formats: little endian integers, keys as their bytes, and
    here strings after their length as a [u64]. *)
Class BorshOk `{!Borsh} : Prop := {
  borsh_u8_le n : borsh_u8 n = Some (le_bytes 1 n);
  borsh_u32_le n : borsh_u32 n = Some (le_bytes 4 n);
  borsh_u64_le n : borsh_u64 n = Some (le_bytes 8 n);
  borsh_pubkey_bytes k : borsh_pubkey k = Some k;
  borsh_string_bytes s : borsh_u64_prefix_string s = Some (le_bytes 8 (vec_len s) ++ s);
}.

(** A derived [BorshSerialize]: the fields in order. *)
Fixpoint borsh_struct (fields : list (option Bytes)) : option Bytes :=
  match fields with
  | [] => Some []
  | field :: rest =>
      match field, borsh_struct rest with Some b, Some bs => Some (b ++ bs) | _, _ => None end
  end.

(** ** The program (programs.rs) *)

Definition SYSTEM_ID {Hids : ProgramIds} : Pubkey := system_program_id.

(** ** The instructions *)

Module CreateAccount.

Record Accounts := mkAccounts { payer : Pubkey; new_account : Pubkey }.
Record InstructionData := mkInstructionData { discriminator : Z }.
Record InstructionArgs := mkInstructionArgs { lamports : Z; space : Z; program_address : Pubkey }.

Definition InstructionData_new : InstructionData := mkInstructionData 0.

Section client.
Context {Hborsh : Borsh} {Hids : ProgramIds}.

Definition data_to_vec (self : InstructionData) : option Bytes :=
  borsh_struct [borsh_u32 (discriminator self)].
Definition args_to_vec (self : InstructionArgs) : option Bytes :=
  borsh_struct [borsh_u64 (lamports self); borsh_u64 (space self); borsh_pubkey (program_address self)].

Definition instruction_with_remaining_accounts (self : Accounts) (args : InstructionArgs)
    (remaining_accounts : list AccountMeta) : Outcome Empty_set Instruction :=
  let accounts :=
    [AccountMeta_new (payer self) true; AccountMeta_new (new_account self) true] ++
    remaining_accounts in
  let! data := unwrap (data_to_vec InstructionData_new) in
  let! args := unwrap (args_to_vec args) in
  Ok (mkInstruction SYSTEM_ID accounts (data ++ args)).

Definition instruction (self : Accounts) (args : InstructionArgs) : Outcome Empty_set Instruction :=
  instruction_with_remaining_accounts self args [].

End client.
End CreateAccount.

Module CreateAccountBuilder.
Import CreateAccount.

Record Builder := mkBuilder {
  payer : option Pubkey;
  new_account : option Pubkey;
  lamports : option Z;
  space : option Z;
  program_address : option Pubkey;
  remaining_accounts : list AccountMeta;
}.

Definition new : Builder := mkBuilder None None None None None [].
Definition set_payer (payer_ : Pubkey) (self : Builder) : Builder :=
  mkBuilder (Some payer_) (new_account self) (lamports self) (space self) (program_address self)
    (remaining_accounts self).
Definition set_new_account (new_account_ : Pubkey) (self : Builder) : Builder :=
  mkBuilder (payer self) (Some new_account_) (lamports self) (space self) (program_address self)
    (remaining_accounts self).
Definition set_lamports (lamports_ : Z) (self : Builder) : Builder :=
  mkBuilder (payer self) (new_account self) (Some lamports_) (space self) (program_address self)
    (remaining_accounts self).
Definition set_space (space_ : Z) (self : Builder) : Builder :=
  mkBuilder (payer self) (new_account self) (lamports self) (Some space_) (program_address self)
    (remaining_accounts self).
Definition set_program_address (program_address_ : Pubkey) (self : Builder) : Builder :=
  mkBuilder (payer self) (new_account self) (lamports self) (space self) (Some program_address_)
    (remaining_accounts self).
Definition add_remaining_account (account_ : AccountMeta) (self : Builder) : Builder :=
  mkBuilder (payer self) (new_account self) (lamports self) (space self) (program_address self)
    (remaining_accounts self ++ [account_]).
Definition add_remaining_accounts (accounts_ : list AccountMeta) (self : Builder) : Builder :=
  mkBuilder (payer self) (new_account self) (lamports self) (space self) (program_address self)
    (remaining_accounts self ++ accounts_).

Definition instruction {Hborsh : Borsh} {Hids : ProgramIds} (self : Builder) : Outcome Empty_set Instruction :=
  let! payer_ := unwrap (payer self) in
  let! new_account_ := unwrap (new_account self) in
  let! lamports_ := unwrap (lamports self) in
  let! space_ := unwrap (space self) in
  let! program_address_ := unwrap (program_address self) in
  instruction_with_remaining_accounts
    (mkAccounts payer_ new_account_)
    (mkInstructionArgs lamports_ space_ program_address_)
    (remaining_accounts self).

End CreateAccountBuilder.

Module Assign.

Record Accounts := mkAccounts { account : Pubkey }.
Record InstructionData := mkInstructionData { discriminator : Z }.
Record InstructionArgs := mkInstructionArgs { program_address : Pubkey }.

Definition InstructionData_new : InstructionData := mkInstructionData 1.

Section client.
Context {Hborsh : Borsh} {Hids : ProgramIds}.

Definition data_to_vec (self : InstructionData) : option Bytes :=
  borsh_struct [borsh_u32 (discriminator self)].
Definition args_to_vec (self : InstructionArgs) : option Bytes :=
  borsh_struct [borsh_pubkey (program_address self)].

Definition instruction_with_remaining_accounts (self : Accounts) (args : InstructionArgs)
    (remaining_accounts : list AccountMeta) : Outcome Empty_set Instruction :=
  let accounts :=
    [AccountMeta_new (account self) true] ++
    remaining_accounts in
  let! data := unwrap (data_to_vec InstructionData_new) in
  let! args := unwrap (args_to_vec args) in
  Ok (mkInstruction SYSTEM_ID accounts (data ++ args)).

Definition instruction (self : Accounts) (args : InstructionArgs) : Outcome Empty_set Instruction :=
  instruction_with_remaining_accounts self args [].

End client.
End Assign.

Module AssignBuilder.
Import Assign.

Record Builder := mkBuilder {
  account : option Pubkey;
  program_address : option Pubkey;
  remaining_accounts : list AccountMeta;
}.

Definition new : Builder := mkBuilder None None [].
Definition set_account (account_ : Pubkey) (self : Builder) : Builder :=
  mkBuilder (Some account_) (program_address self) (remaining_accounts self).
Definition set_program_address (program_address_ : Pubkey) (self : Builder) : Builder :=
  mkBuilder (account self) (Some program_address_) (remaining_accounts self).
Definition add_remaining_account (account_ : AccountMeta) (self : Builder) : Builder :=
  mkBuilder (account self) (program_address self) (remaining_accounts self ++ [account_]).
Definition add_remaining_accounts (accounts_ : list AccountMeta) (self : Builder) : Builder :=
  mkBuilder (account self) (program_address self) (remaining_accounts self ++ accounts_).

Definition instruction {Hborsh : Borsh} {Hids : ProgramIds} (self : Builder) : Outcome Empty_set Instruction :=
  let! account_ := unwrap (account self) in
  let! program_address_ := unwrap (program_address self) in
  instruction_with_remaining_accounts
    (mkAccounts account_)
    (mkInstructionArgs program_address_)
    (remaining_accounts self).

End AssignBuilder.

Module TransferSol.

Record Accounts := mkAccounts { source : Pubkey; destination : Pubkey }.
Record InstructionData := mkInstructionData { discriminator : Z }.
Record InstructionArgs := mkInstructionArgs { amount : Z }.

Definition InstructionData_new : InstructionData := mkInstructionData 2.

Section client.
Context {Hborsh : Borsh} {Hids : ProgramIds}.

Definition data_to_vec (self : InstructionData) : option Bytes :=
  borsh_struct [borsh_u32 (discriminator self)].
Definition args_to_vec (self : InstructionArgs) : option Bytes :=
  borsh_struct [borsh_u64 (amount self)].

Definition instruction_with_remaining_accounts (self : Accounts) (args : InstructionArgs)
    (remaining_accounts : list AccountMeta) : Outcome Empty_set Instruction :=
  let accounts :=
    [AccountMeta_new (source self) true; AccountMeta_new (destination self) false] ++
    remaining_accounts in
  let! data := unwrap (data_to_vec InstructionData_new) in
  let! args := unwrap (args_to_vec args) in
  Ok (mkInstruction SYSTEM_ID accounts (data ++ args)).

Definition instruction (self : Accounts) (args : InstructionArgs) : Outcome Empty_set Instruction :=
  instruction_with_remaining_accounts self args [].

End client.
End TransferSol.

Module TransferSolBuilder.
Import TransferSol.

Record Builder := mkBuilder {
  source : option Pubkey;
  destination : option Pubkey;
  amount : option Z;
  remaining_accounts : list AccountMeta;
}.

Definition new : Builder := mkBuilder None None None [].
Definition set_source (source_ : Pubkey) (self : Builder) : Builder :=
  mkBuilder (Some source_) (destination self) (amount self) (remaining_accounts self).
Definition set_destination (destination_ : Pubkey) (self : Builder) : Builder :=
  mkBuilder (source self) (Some destination_) (amount self) (remaining_accounts self).
Definition set_amount (amount_ : Z) (self : Builder) : Builder :=
  mkBuilder (source self) (destination self) (Some amount_) (remaining_accounts self).
Definition add_remaining_account (account_ : AccountMeta) (self : Builder) : Builder :=
  mkBuilder (source self) (destination self) (amount self) (remaining_accounts self ++ [account_]).
Definition add_remaining_accounts (accounts_ : list AccountMeta) (self : Builder) : Builder :=
  mkBuilder (source self) (destination self) (amount self) (remaining_accounts self ++ accounts_).

Definition instruction {Hborsh : Borsh} {Hids : ProgramIds} (self : Builder) : Outcome Empty_set Instruction :=
  let! source_ := unwrap (source self) in
  let! destination_ := unwrap (destination self) in
  let! amount_ := unwrap (amount self) in
  instruction_with_remaining_accounts
    (mkAccounts source_ destination_)
    (mkInstructionArgs amount_)
    (remaining_accounts self).

End TransferSolBuilder.

Module CreateAccountWithSeed.

Record Accounts := mkAccounts { payer : Pubkey; new_account : Pubkey; base_account : option Pubkey }.
Record InstructionData := mkInstructionData { discriminator : Z }.
Record InstructionArgs := mkInstructionArgs {
  base : Pubkey;
  seed : Bytes;
  amount : Z;
  space : Z;
  program_address : Pubkey;
}.

Definition InstructionData_new : InstructionData := mkInstructionData 3.

Section client.
Context {Hborsh : Borsh} {Hids : ProgramIds}.

Definition data_to_vec (self : InstructionData) : option Bytes :=
  borsh_struct [borsh_u32 (discriminator self)].
Definition args_to_vec (self : InstructionArgs) : option Bytes :=
  borsh_struct [borsh_pubkey (base self); borsh_u64_prefix_string (seed self); borsh_u64 (amount self);
                borsh_u64 (space self); borsh_pubkey (program_address self)].

Definition instruction_with_remaining_accounts (self : Accounts) (args : InstructionArgs)
    (remaining_accounts : list AccountMeta) : Outcome Empty_set Instruction :=
  let accounts :=
    [AccountMeta_new (payer self) true; AccountMeta_new (new_account self) false] ++
    from_option (fun base_account => [AccountMeta_new_readonly base_account true]) [] (base_account self) ++
    remaining_accounts in
  let! data := unwrap (data_to_vec InstructionData_new) in
  let! args := unwrap (args_to_vec args) in
  Ok (mkInstruction SYSTEM_ID accounts (data ++ args)).

Definition instruction (self : Accounts) (args : InstructionArgs) : Outcome Empty_set Instruction :=
  instruction_with_remaining_accounts self args [].

End client.
End CreateAccountWithSeed.

Module CreateAccountWithSeedBuilder.
Import CreateAccountWithSeed.

Record Builder := mkBuilder {
  payer : option Pubkey;
  new_account : option Pubkey;
  base_account : option Pubkey;
  base : option Pubkey;
  seed : option Bytes;
  amount : option Z;
  space : option Z;
  program_address : option Pubkey;
  remaining_accounts : list AccountMeta;
}.

Definition new : Builder := mkBuilder None None None None None None None None [].
Definition set_payer (payer_ : Pubkey) (self : Builder) : Builder :=
  mkBuilder (Some payer_) (new_account self) (base_account self) (base self) (seed self) (amount self)
    (space self) (program_address self) (remaining_accounts self).
Definition set_new_account (new_account_ : Pubkey) (self : Builder) : Builder :=
  mkBuilder (payer self) (Some new_account_) (base_account self) (base self) (seed self) (amount self)
    (space self) (program_address self) (remaining_accounts self).
Definition set_base_account (base_account_ : option Pubkey) (self : Builder) : Builder :=
  mkBuilder (payer self) (new_account self) base_account_ (base self) (seed self) (amount self) (space self)
    (program_address self) (remaining_accounts self).
Definition set_base (base_ : Pubkey) (self : Builder) : Builder :=
  mkBuilder (payer self) (new_account self) (base_account self) (Some base_) (seed self) (amount self)
    (space self) (program_address self) (remaining_accounts self).
Definition set_seed (seed_ : Bytes) (self : Builder) : Builder :=
  mkBuilder (payer self) (new_account self) (base_account self) (base self) (Some seed_) (amount self)
    (space self) (program_address self) (remaining_accounts self).
Definition set_amount (amount_ : Z) (self : Builder) : Builder :=
  mkBuilder (payer self) (new_account self) (base_account self) (base self) (seed self) (Some amount_)
    (space self) (program_address self) (remaining_accounts self).
Definition set_space (space_ : Z) (self : Builder) : Builder :=
  mkBuilder (payer self) (new_account self) (base_account self) (base self) (seed self) (amount self)
    (Some space_) (program_address self) (remaining_accounts self).
Definition set_program_address (program_address_ : Pubkey) (self : Builder) : Builder :=
  mkBuilder (payer self) (new_account self) (base_account self) (base self) (seed self) (amount self)
    (space self) (Some program_address_) (remaining_accounts self).
Definition add_remaining_account (account_ : AccountMeta) (self : Builder) : Builder :=
  mkBuilder (payer self) (new_account self) (base_account self) (base self) (seed self) (amount self)
    (space self) (program_address self) (remaining_accounts self ++ [account_]).
Definition add_remaining_accounts (accounts_ : list AccountMeta) (self : Builder) : Builder :=
  mkBuilder (payer self) (new_account self) (base_account self) (base self) (seed self) (amount self)
    (space self) (program_address self) (remaining_accounts self ++ accounts_).

Definition instruction {Hborsh : Borsh} {Hids : ProgramIds} (self : Builder) : Outcome Empty_set Instruction :=
  let! payer_ := unwrap (payer self) in
  let! new_account_ := unwrap (new_account self) in
  let! base_ := unwrap (base self) in
  let! seed_ := unwrap (seed self) in
  let! amount_ := unwrap (amount self) in
  let! space_ := unwrap (space self) in
  let! program_address_ := unwrap (program_address self) in
  instruction_with_remaining_accounts
    (mkAccounts payer_ new_account_ (base_account self))
    (mkInstructionArgs base_ seed_ amount_ space_ program_address_)
    (remaining_accounts self).

End CreateAccountWithSeedBuilder.

Module AdvanceNonceAccount.

Record Accounts := mkAccounts {
  nonce_account : Pubkey;
  recent_blockhashes_sysvar : Pubkey;
  nonce_authority : Pubkey;
}.
Record InstructionData := mkInstructionData { discriminator : Z }.

Definition InstructionData_new : InstructionData := mkInstructionData 4.

Section client.
Context {Hborsh : Borsh} {Hids : ProgramIds}.

Definition data_to_vec (self : InstructionData) : option Bytes :=
  borsh_struct [borsh_u32 (discriminator self)].

Definition instruction_with_remaining_accounts (self : Accounts)
    (remaining_accounts : list AccountMeta) : Outcome Empty_set Instruction :=
  let accounts :=
    [AccountMeta_new (nonce_account self) false;
     AccountMeta_new_readonly (recent_blockhashes_sysvar self) false;
     AccountMeta_new_readonly (nonce_authority self) true] ++
    remaining_accounts in
  let! data := unwrap (data_to_vec InstructionData_new) in
  Ok (mkInstruction SYSTEM_ID accounts data).

Definition instruction (self : Accounts) : Outcome Empty_set Instruction :=
  instruction_with_remaining_accounts self [].

End client.
End AdvanceNonceAccount.

Module AdvanceNonceAccountBuilder.
Import AdvanceNonceAccount.

Record Builder := mkBuilder {
  nonce_account : option Pubkey;
  recent_blockhashes_sysvar : option Pubkey;
  nonce_authority : option Pubkey;
  remaining_accounts : list AccountMeta;
}.

Definition new : Builder := mkBuilder None None None [].
Definition set_nonce_account (nonce_account_ : Pubkey) (self : Builder) : Builder :=
  mkBuilder (Some nonce_account_) (recent_blockhashes_sysvar self) (nonce_authority self)
    (remaining_accounts self).
Definition set_recent_blockhashes_sysvar (recent_blockhashes_sysvar_ : Pubkey) (self : Builder) : Builder :=
  mkBuilder (nonce_account self) (Some recent_blockhashes_sysvar_) (nonce_authority self)
    (remaining_accounts self).
Definition set_nonce_authority (nonce_authority_ : Pubkey) (self : Builder) : Builder :=
  mkBuilder (nonce_account self) (recent_blockhashes_sysvar self) (Some nonce_authority_)
    (remaining_accounts self).
Definition add_remaining_account (account_ : AccountMeta) (self : Builder) : Builder :=
  mkBuilder (nonce_account self) (recent_blockhashes_sysvar self) (nonce_authority self)
    (remaining_accounts self ++ [account_]).
Definition add_remaining_accounts (accounts_ : list AccountMeta) (self : Builder) : Builder :=
  mkBuilder (nonce_account self) (recent_blockhashes_sysvar self) (nonce_authority self)
    (remaining_accounts self ++ accounts_).

Definition instruction {Hborsh : Borsh} {Hids : ProgramIds} (self : Builder) : Outcome Empty_set Instruction :=
  let! nonce_account_ := unwrap (nonce_account self) in
  let! nonce_authority_ := unwrap (nonce_authority self) in
  instruction_with_remaining_accounts
    (mkAccounts nonce_account_ (default sysvar_recent_blockhashes_id (recent_blockhashes_sysvar self))
      nonce_authority_)
    (remaining_accounts self).

End AdvanceNonceAccountBuilder.

Module WithdrawNonceAccount.

Record Accounts := mkAccounts {
  nonce_account : Pubkey;
  recipient_account : Pubkey;
  recent_blockhashes_sysvar : Pubkey;
  rent_sysvar : Pubkey;
  nonce_authority : Pubkey;
}.
Record InstructionData := mkInstructionData { discriminator : Z }.
Record InstructionArgs := mkInstructionArgs { withdraw_amount : Z }.

Definition InstructionData_new : InstructionData := mkInstructionData 5.

Section client.
Context {Hborsh : Borsh} {Hids : ProgramIds}.

Definition data_to_vec (self : InstructionData) : option Bytes :=
  borsh_struct [borsh_u32 (discriminator self)].
Definition args_to_vec (self : InstructionArgs) : option Bytes :=
  borsh_struct [borsh_u64 (withdraw_amount self)].

Definition instruction_with_remaining_accounts (self : Accounts) (args : InstructionArgs)
    (remaining_accounts : list AccountMeta) : Outcome Empty_set Instruction :=
  let accounts :=
    [AccountMeta_new (nonce_account self) false; AccountMeta_new (recipient_account self) false;
     AccountMeta_new_readonly (recent_blockhashes_sysvar self) false;
     AccountMeta_new_readonly (rent_sysvar self) false;
     AccountMeta_new_readonly (nonce_authority self) true] ++
    remaining_accounts in
  let! data := unwrap (data_to_vec InstructionData_new) in
  let! args := unwrap (args_to_vec args) in
  Ok (mkInstruction SYSTEM_ID accounts (data ++ args)).

Definition instruction (self : Accounts) (args : InstructionArgs) : Outcome Empty_set Instruction :=
  instruction_with_remaining_accounts self args [].

End client.
End WithdrawNonceAccount.

Module WithdrawNonceAccountBuilder.
Import WithdrawNonceAccount.

Record Builder := mkBuilder {
  nonce_account : option Pubkey;
  recipient_account : option Pubkey;
  recent_blockhashes_sysvar : option Pubkey;
  rent_sysvar : option Pubkey;
  nonce_authority : option Pubkey;
  withdraw_amount : option Z;
  remaining_accounts : list AccountMeta;
}.

Definition new : Builder := mkBuilder None None None None None None [].
Definition set_nonce_account (nonce_account_ : Pubkey) (self : Builder) : Builder :=
  mkBuilder (Some nonce_account_) (recipient_account self) (recent_blockhashes_sysvar self) (rent_sysvar self)
    (nonce_authority self) (withdraw_amount self) (remaining_accounts self).
Definition set_recipient_account (recipient_account_ : Pubkey) (self : Builder) : Builder :=
  mkBuilder (nonce_account self) (Some recipient_account_) (recent_blockhashes_sysvar self) (rent_sysvar self)
    (nonce_authority self) (withdraw_amount self) (remaining_accounts self).
Definition set_recent_blockhashes_sysvar (recent_blockhashes_sysvar_ : Pubkey) (self : Builder) : Builder :=
  mkBuilder (nonce_account self) (recipient_account self) (Some recent_blockhashes_sysvar_) (rent_sysvar self)
    (nonce_authority self) (withdraw_amount self) (remaining_accounts self).
Definition set_rent_sysvar (rent_sysvar_ : Pubkey) (self : Builder) : Builder :=
  mkBuilder (nonce_account self) (recipient_account self) (recent_blockhashes_sysvar self) (Some rent_sysvar_)
    (nonce_authority self) (withdraw_amount self) (remaining_accounts self).
Definition set_nonce_authority (nonce_authority_ : Pubkey) (self : Builder) : Builder :=
  mkBuilder (nonce_account self) (recipient_account self) (recent_blockhashes_sysvar self) (rent_sysvar self)
    (Some nonce_authority_) (withdraw_amount self) (remaining_accounts self).
Definition set_withdraw_amount (withdraw_amount_ : Z) (self : Builder) : Builder :=
  mkBuilder (nonce_account self) (recipient_account self) (recent_blockhashes_sysvar self) (rent_sysvar self)
    (nonce_authority self) (Some withdraw_amount_) (remaining_accounts self).
Definition add_remaining_account (account_ : AccountMeta) (self : Builder) : Builder :=
  mkBuilder (nonce_account self) (recipient_account self) (recent_blockhashes_sysvar self) (rent_sysvar self)
    (nonce_authority self) (withdraw_amount self) (remaining_accounts self ++ [account_]).
Definition add_remaining_accounts (accounts_ : list AccountMeta) (self : Builder) : Builder :=
  mkBuilder (nonce_account self) (recipient_account self) (recent_blockhashes_sysvar self) (rent_sysvar self)
    (nonce_authority self) (withdraw_amount self) (remaining_accounts self ++ accounts_).

Definition instruction {Hborsh : Borsh} {Hids : ProgramIds} (self : Builder) : Outcome Empty_set Instruction :=
  let! nonce_account_ := unwrap (nonce_account self) in
  let! recipient_account_ := unwrap (recipient_account self) in
  let! nonce_authority_ := unwrap (nonce_authority self) in
  let! withdraw_amount_ := unwrap (withdraw_amount self) in
  instruction_with_remaining_accounts
    (mkAccounts nonce_account_ recipient_account_
      (default sysvar_recent_blockhashes_id (recent_blockhashes_sysvar self))
      (default sysvar_rent_id (rent_sysvar self)) nonce_authority_)
    (mkInstructionArgs withdraw_amount_)
    (remaining_accounts self).

End WithdrawNonceAccountBuilder.

Module InitializeNonceAccount.

Record Accounts := mkAccounts {
  nonce_account : Pubkey;
  recent_blockhashes_sysvar : Pubkey;
  rent_sysvar : Pubkey;
}.
Record InstructionData := mkInstructionData { discriminator : Z }.
Record InstructionArgs := mkInstructionArgs { nonce_authority : Pubkey }.

Definition InstructionData_new : InstructionData := mkInstructionData 6.

Section client.
Context {Hborsh : Borsh} {Hids : ProgramIds}.

Definition data_to_vec (self : InstructionData) : option Bytes :=
  borsh_struct [borsh_u32 (discriminator self)].
Definition args_to_vec (self : InstructionArgs) : option Bytes :=
  borsh_struct [borsh_pubkey (nonce_authority self)].

Definition instruction_with_remaining_accounts (self : Accounts) (args : InstructionArgs)
    (remaining_accounts : list AccountMeta) : Outcome Empty_set Instruction :=
  let accounts :=
    [AccountMeta_new (nonce_account self) false;
     AccountMeta_new_readonly (recent_blockhashes_sysvar self) false;
     AccountMeta_new_readonly (rent_sysvar self) false] ++
    remaining_accounts in
  let! data := unwrap (data_to_vec InstructionData_new) in
  let! args := unwrap (args_to_vec args) in
  Ok (mkInstruction SYSTEM_ID accounts (data ++ args)).

Definition instruction (self : Accounts) (args : InstructionArgs) : Outcome Empty_set Instruction :=
  instruction_with_remaining_accounts self args [].

End client.
End InitializeNonceAccount.

Module InitializeNonceAccountBuilder.
Import InitializeNonceAccount.

Record Builder := mkBuilder {
  nonce_account : option Pubkey;
  recent_blockhashes_sysvar : option Pubkey;
  rent_sysvar : option Pubkey;
  nonce_authority : option Pubkey;
  remaining_accounts : list AccountMeta;
}.

Definition new : Builder := mkBuilder None None None None [].
Definition set_nonce_account (nonce_account_ : Pubkey) (self : Builder) : Builder :=
  mkBuilder (Some nonce_account_) (recent_blockhashes_sysvar self) (rent_sysvar self) (nonce_authority self)
    (remaining_accounts self).
Definition set_recent_blockhashes_sysvar (recent_blockhashes_sysvar_ : Pubkey) (self : Builder) : Builder :=
  mkBuilder (nonce_account self) (Some recent_blockhashes_sysvar_) (rent_sysvar self) (nonce_authority self)
    (remaining_accounts self).
Definition set_rent_sysvar (rent_sysvar_ : Pubkey) (self : Builder) : Builder :=
  mkBuilder (nonce_account self) (recent_blockhashes_sysvar self) (Some rent_sysvar_) (nonce_authority self)
    (remaining_accounts self).
Definition set_nonce_authority (nonce_authority_ : Pubkey) (self : Builder) : Builder :=
  mkBuilder (nonce_account self) (recent_blockhashes_sysvar self) (rent_sysvar self) (Some nonce_authority_)
    (remaining_accounts self).
Definition add_remaining_account (account_ : AccountMeta) (self : Builder) : Builder :=
  mkBuilder (nonce_account self) (recent_blockhashes_sysvar self) (rent_sysvar self) (nonce_authority self)
    (remaining_accounts self ++ [account_]).
Definition add_remaining_accounts (accounts_ : list AccountMeta) (self : Builder) : Builder :=
  mkBuilder (nonce_account self) (recent_blockhashes_sysvar self) (rent_sysvar self) (nonce_authority self)
    (remaining_accounts self ++ accounts_).

Definition instruction {Hborsh : Borsh} {Hids : ProgramIds} (self : Builder) : Outcome Empty_set Instruction :=
  let! nonce_account_ := unwrap (nonce_account self) in
  let! nonce_authority_ := unwrap (nonce_authority self) in
  instruction_with_remaining_accounts
    (mkAccounts nonce_account_ (default sysvar_recent_blockhashes_id (recent_blockhashes_sysvar self))
      (default sysvar_rent_id (rent_sysvar self)))
    (mkInstructionArgs nonce_authority_)
    (remaining_accounts self).

End InitializeNonceAccountBuilder.

Module AuthorizeNonceAccount.

Record Accounts := mkAccounts { nonce_account : Pubkey; nonce_authority : Pubkey }.
Record InstructionData := mkInstructionData { discriminator : Z }.
Record InstructionArgs := mkInstructionArgs { new_nonce_authority : Pubkey }.

Definition InstructionData_new : InstructionData := mkInstructionData 7.

Section client.
Context {Hborsh : Borsh} {Hids : ProgramIds}.

Definition data_to_vec (self : InstructionData) : option Bytes :=
  borsh_struct [borsh_u32 (discriminator self)].
Definition args_to_vec (self : InstructionArgs) : option Bytes :=
  borsh_struct [borsh_pubkey (new_nonce_authority self)].

Definition instruction_with_remaining_accounts (self : Accounts) (args : InstructionArgs)
    (remaining_accounts : list AccountMeta) : Outcome Empty_set Instruction :=
  let accounts :=
    [AccountMeta_new (nonce_account self) false; AccountMeta_new_readonly (nonce_authority self) true] ++
    remaining_accounts in
  let! data := unwrap (data_to_vec InstructionData_new) in
  let! args := unwrap (args_to_vec args) in
  Ok (mkInstruction SYSTEM_ID accounts (data ++ args)).

Definition instruction (self : Accounts) (args : InstructionArgs) : Outcome Empty_set Instruction :=
  instruction_with_remaining_accounts self args [].

End client.
End AuthorizeNonceAccount.

Module AuthorizeNonceAccountBuilder.
Import AuthorizeNonceAccount.

Record Builder := mkBuilder {
  nonce_account : option Pubkey;
  nonce_authority : option Pubkey;
  new_nonce_authority : option Pubkey;
  remaining_accounts : list AccountMeta;
}.

Definition new : Builder := mkBuilder None None None [].
Definition set_nonce_account (nonce_account_ : Pubkey) (self : Builder) : Builder :=
  mkBuilder (Some nonce_account_) (nonce_authority self) (new_nonce_authority self) (remaining_accounts self).
Definition set_nonce_authority (nonce_authority_ : Pubkey) (self : Builder) : Builder :=
  mkBuilder (nonce_account self) (Some nonce_authority_) (new_nonce_authority self) (remaining_accounts self).
Definition set_new_nonce_authority (new_nonce_authority_ : Pubkey) (self : Builder) : Builder :=
  mkBuilder (nonce_account self) (nonce_authority self) (Some new_nonce_authority_) (remaining_accounts self).
Definition add_remaining_account (account_ : AccountMeta) (self : Builder) : Builder :=
  mkBuilder (nonce_account self) (nonce_authority self) (new_nonce_authority self)
    (remaining_accounts self ++ [account_]).
Definition add_remaining_accounts (accounts_ : list AccountMeta) (self : Builder) : Builder :=
  mkBuilder (nonce_account self) (nonce_authority self) (new_nonce_authority self)
    (remaining_accounts self ++ accounts_).

Definition instruction {Hborsh : Borsh} {Hids : ProgramIds} (self : Builder) : Outcome Empty_set Instruction :=
  let! nonce_account_ := unwrap (nonce_account self) in
  let! nonce_authority_ := unwrap (nonce_authority self) in
  let! new_nonce_authority_ := unwrap (new_nonce_authority self) in
  instruction_with_remaining_accounts
    (mkAccounts nonce_account_ nonce_authority_)
    (mkInstructionArgs new_nonce_authority_)
    (remaining_accounts self).

End AuthorizeNonceAccountBuilder.

Module Allocate.

Record Accounts := mkAccounts { new_account : Pubkey }.
Record InstructionData := mkInstructionData { discriminator : Z }.
Record InstructionArgs := mkInstructionArgs { space : Z }.

Definition InstructionData_new : InstructionData := mkInstructionData 8.

Section client.
Context {Hborsh : Borsh} {Hids : ProgramIds}.

Definition data_to_vec (self : InstructionData) : option Bytes :=
  borsh_struct [borsh_u32 (discriminator self)].
Definition args_to_vec (self : InstructionArgs) : option Bytes :=
  borsh_struct [borsh_u64 (space self)].

Definition instruction_with_remaining_accounts (self : Accounts) (args : InstructionArgs)
    (remaining_accounts : list AccountMeta) : Outcome Empty_set Instruction :=
  let accounts :=
    [AccountMeta_new (new_account self) true] ++
    remaining_accounts in
  let! data := unwrap (data_to_vec InstructionData_new) in
  let! args := unwrap (args_to_vec args) in
  Ok (mkInstruction SYSTEM_ID accounts (data ++ args)).

Definition instruction (self : Accounts) (args : InstructionArgs) : Outcome Empty_set Instruction :=
  instruction_with_remaining_accounts self args [].

End client.
End Allocate.

Module AllocateBuilder.
Import Allocate.

Record Builder := mkBuilder {
  new_account : option Pubkey;
  space : option Z;
  remaining_accounts : list AccountMeta;
}.

Definition new : Builder := mkBuilder None None [].
Definition set_new_account (new_account_ : Pubkey) (self : Builder) : Builder :=
  mkBuilder (Some new_account_) (space self) (remaining_accounts self).
Definition set_space (space_ : Z) (self : Builder) : Builder :=
  mkBuilder (new_account self) (Some space_) (remaining_accounts self).
Definition add_remaining_account (account_ : AccountMeta) (self : Builder) : Builder :=
  mkBuilder (new_account self) (space self) (remaining_accounts self ++ [account_]).
Definition add_remaining_accounts (accounts_ : list AccountMeta) (self : Builder) : Builder :=
  mkBuilder (new_account self) (space self) (remaining_accounts self ++ accounts_).

Definition instruction {Hborsh : Borsh} {Hids : ProgramIds} (self : Builder) : Outcome Empty_set Instruction :=
  let! new_account_ := unwrap (new_account self) in
  let! space_ := unwrap (space self) in
  instruction_with_remaining_accounts
    (mkAccounts new_account_)
    (mkInstructionArgs space_)
    (remaining_accounts self).

End AllocateBuilder.

Module AllocateWithSeed.

Record Accounts := mkAccounts { new_account : Pubkey; base_account : Pubkey }.
Record InstructionData := mkInstructionData { discriminator : Z }.
Record InstructionArgs := mkInstructionArgs {
  base : Pubkey;
  seed : Bytes;
  space : Z;
  program_address : Pubkey;
}.

Definition InstructionData_new : InstructionData := mkInstructionData 9.

Section client.
Context {Hborsh : Borsh} {Hids : ProgramIds}.

Definition data_to_vec (self : InstructionData) : option Bytes :=
  borsh_struct [borsh_u32 (discriminator self)].
Definition args_to_vec (self : InstructionArgs) : option Bytes :=
  borsh_struct [borsh_pubkey (base self); borsh_u64_prefix_string (seed self); borsh_u64 (space self);
                borsh_pubkey (program_address self)].

Definition instruction_with_remaining_accounts (self : Accounts) (args : InstructionArgs)
    (remaining_accounts : list AccountMeta) : Outcome Empty_set Instruction :=
  let accounts :=
    [AccountMeta_new (new_account self) false; AccountMeta_new_readonly (base_account self) true] ++
    remaining_accounts in
  let! data := unwrap (data_to_vec InstructionData_new) in
  let! args := unwrap (args_to_vec args) in
  Ok (mkInstruction SYSTEM_ID accounts (data ++ args)).

Definition instruction (self : Accounts) (args : InstructionArgs) : Outcome Empty_set Instruction :=
  instruction_with_remaining_accounts self args [].

End client.
End AllocateWithSeed.

Module AllocateWithSeedBuilder.
Import AllocateWithSeed.

Record Builder := mkBuilder {
  new_account : option Pubkey;
  base_account : option Pubkey;
  base : option Pubkey;
  seed : option Bytes;
  space : option Z;
  program_address : option Pubkey;
  remaining_accounts : list AccountMeta;
}.

Definition new : Builder := mkBuilder None None None None None None [].
Definition set_new_account (new_account_ : Pubkey) (self : Builder) : Builder :=
  mkBuilder (Some new_account_) (base_account self) (base self) (seed self) (space self) (program_address self)
    (remaining_accounts self).
Definition set_base_account (base_account_ : Pubkey) (self : Builder) : Builder :=
  mkBuilder (new_account self) (Some base_account_) (base self) (seed self) (space self) (program_address self)
    (remaining_accounts self).
Definition set_base (base_ : Pubkey) (self : Builder) : Builder :=
  mkBuilder (new_account self) (base_account self) (Some base_) (seed self) (space self) (program_address self)
    (remaining_accounts self).
Definition set_seed (seed_ : Bytes) (self : Builder) : Builder :=
  mkBuilder (new_account self) (base_account self) (base self) (Some seed_) (space self) (program_address self)
    (remaining_accounts self).
Definition set_space (space_ : Z) (self : Builder) : Builder :=
  mkBuilder (new_account self) (base_account self) (base self) (seed self) (Some space_) (program_address self)
    (remaining_accounts self).
Definition set_program_address (program_address_ : Pubkey) (self : Builder) : Builder :=
  mkBuilder (new_account self) (base_account self) (base self) (seed self) (space self) (Some program_address_)
    (remaining_accounts self).
Definition add_remaining_account (account_ : AccountMeta) (self : Builder) : Builder :=
  mkBuilder (new_account self) (base_account self) (base self) (seed self) (space self) (program_address self)
    (remaining_accounts self ++ [account_]).
Definition add_remaining_accounts (accounts_ : list AccountMeta) (self : Builder) : Builder :=
  mkBuilder (new_account self) (base_account self) (base self) (seed self) (space self) (program_address self)
    (remaining_accounts self ++ accounts_).

Definition instruction {Hborsh : Borsh} {Hids : ProgramIds} (self : Builder) : Outcome Empty_set Instruction :=
  let! new_account_ := unwrap (new_account self) in
  let! base_account_ := unwrap (base_account self) in
  let! base_ := unwrap (base self) in
  let! seed_ := unwrap (seed self) in
  let! space_ := unwrap (space self) in
  let! program_address_ := unwrap (program_address self) in
  instruction_with_remaining_accounts
    (mkAccounts new_account_ base_account_)
    (mkInstructionArgs base_ seed_ space_ program_address_)
    (remaining_accounts self).

End AllocateWithSeedBuilder.

Module AssignWithSeed.

Record Accounts := mkAccounts { account : Pubkey; base_account : Pubkey }.
Record InstructionData := mkInstructionData { discriminator : Z }.
Record InstructionArgs := mkInstructionArgs { base : Pubkey; seed : Bytes; program_address : Pubkey }.

Definition InstructionData_new : InstructionData := mkInstructionData 10.

Section client.
Context {Hborsh : Borsh} {Hids : ProgramIds}.

Definition data_to_vec (self : InstructionData) : option Bytes :=
  borsh_struct [borsh_u32 (discriminator self)].
Definition args_to_vec (self : InstructionArgs) : option Bytes :=
  borsh_struct [borsh_pubkey (base self); borsh_u64_prefix_string (seed self);
                borsh_pubkey (program_address self)].

Definition instruction_with_remaining_accounts (self : Accounts) (args : InstructionArgs)
    (remaining_accounts : list AccountMeta) : Outcome Empty_set Instruction :=
  let accounts :=
    [AccountMeta_new (account self) false; AccountMeta_new_readonly (base_account self) true] ++
    remaining_accounts in
  let! data := unwrap (data_to_vec InstructionData_new) in
  let! args := unwrap (args_to_vec args) in
  Ok (mkInstruction SYSTEM_ID accounts (data ++ args)).

Definition instruction (self : Accounts) (args : InstructionArgs) : Outcome Empty_set Instruction :=
  instruction_with_remaining_accounts self args [].

End client.
End AssignWithSeed.

Module AssignWithSeedBuilder.
Import AssignWithSeed.

Record Builder := mkBuilder {
  account : option Pubkey;
  base_account : option Pubkey;
  base : option Pubkey;
  seed : option Bytes;
  program_address : option Pubkey;
  remaining_accounts : list AccountMeta;
}.

Definition new : Builder := mkBuilder None None None None None [].
Definition set_account (account_ : Pubkey) (self : Builder) : Builder :=
  mkBuilder (Some account_) (base_account self) (base self) (seed self) (program_address self)
    (remaining_accounts self).
Definition set_base_account (base_account_ : Pubkey) (self : Builder) : Builder :=
  mkBuilder (account self) (Some base_account_) (base self) (seed self) (program_address self)
    (remaining_accounts self).
Definition set_base (base_ : Pubkey) (self : Builder) : Builder :=
  mkBuilder (account self) (base_account self) (Some base_) (seed self) (program_address self)
    (remaining_accounts self).
Definition set_seed (seed_ : Bytes) (self : Builder) : Builder :=
  mkBuilder (account self) (base_account self) (base self) (Some seed_) (program_address self)
    (remaining_accounts self).
Definition set_program_address (program_address_ : Pubkey) (self : Builder) : Builder :=
  mkBuilder (account self) (base_account self) (base self) (seed self) (Some program_address_)
    (remaining_accounts self).
Definition add_remaining_account (account_ : AccountMeta) (self : Builder) : Builder :=
  mkBuilder (account self) (base_account self) (base self) (seed self) (program_address self)
    (remaining_accounts self ++ [account_]).
Definition add_remaining_accounts (accounts_ : list AccountMeta) (self : Builder) : Builder :=
  mkBuilder (account self) (base_account self) (base self) (seed self) (program_address self)
    (remaining_accounts self ++ accounts_).

Definition instruction {Hborsh : Borsh} {Hids : ProgramIds} (self : Builder) : Outcome Empty_set Instruction :=
  let! account_ := unwrap (account self) in
  let! base_account_ := unwrap (base_account self) in
  let! base_ := unwrap (base self) in
  let! seed_ := unwrap (seed self) in
  let! program_address_ := unwrap (program_address self) in
  instruction_with_remaining_accounts
    (mkAccounts account_ base_account_)
    (mkInstructionArgs base_ seed_ program_address_)
    (remaining_accounts self).

End AssignWithSeedBuilder.

Module TransferSolWithSeed.

Record Accounts := mkAccounts { source : Pubkey; base_account : Pubkey; destination : Pubkey }.
Record InstructionData := mkInstructionData { discriminator : Z }.
Record InstructionArgs := mkInstructionArgs { amount : Z; from_seed : Bytes; from_owner : Pubkey }.

Definition InstructionData_new : InstructionData := mkInstructionData 11.

Section client.
Context {Hborsh : Borsh} {Hids : ProgramIds}.

Definition data_to_vec (self : InstructionData) : option Bytes :=
  borsh_struct [borsh_u32 (discriminator self)].
Definition args_to_vec (self : InstructionArgs) : option Bytes :=
  borsh_struct [borsh_u64 (amount self); borsh_u64_prefix_string (from_seed self);
                borsh_pubkey (from_owner self)].

Definition instruction_with_remaining_accounts (self : Accounts) (args : InstructionArgs)
    (remaining_accounts : list AccountMeta) : Outcome Empty_set Instruction :=
  let accounts :=
    [AccountMeta_new (source self) false; AccountMeta_new_readonly (base_account self) true;
     AccountMeta_new (destination self) false] ++
    remaining_accounts in
  let! data := unwrap (data_to_vec InstructionData_new) in
  let! args := unwrap (args_to_vec args) in
  Ok (mkInstruction SYSTEM_ID accounts (data ++ args)).

Definition instruction (self : Accounts) (args : InstructionArgs) : Outcome Empty_set Instruction :=
  instruction_with_remaining_accounts self args [].

End client.
End TransferSolWithSeed.

Module TransferSolWithSeedBuilder.
Import TransferSolWithSeed.

Record Builder := mkBuilder {
  source : option Pubkey;
  base_account : option Pubkey;
  destination : option Pubkey;
  amount : option Z;
  from_seed : option Bytes;
  from_owner : option Pubkey;
  remaining_accounts : list AccountMeta;
}.

Definition new : Builder := mkBuilder None None None None None None [].
Definition set_source (source_ : Pubkey) (self : Builder) : Builder :=
  mkBuilder (Some source_) (base_account self) (destination self) (amount self) (from_seed self)
    (from_owner self) (remaining_accounts self).
Definition set_base_account (base_account_ : Pubkey) (self : Builder) : Builder :=
  mkBuilder (source self) (Some base_account_) (destination self) (amount self) (from_seed self)
    (from_owner self) (remaining_accounts self).
Definition set_destination (destination_ : Pubkey) (self : Builder) : Builder :=
  mkBuilder (source self) (base_account self) (Some destination_) (amount self) (from_seed self)
    (from_owner self) (remaining_accounts self).
Definition set_amount (amount_ : Z) (self : Builder) : Builder :=
  mkBuilder (source self) (base_account self) (destination self) (Some amount_) (from_seed self)
    (from_owner self) (remaining_accounts self).
Definition set_from_seed (from_seed_ : Bytes) (self : Builder) : Builder :=
  mkBuilder (source self) (base_account self) (destination self) (amount self) (Some from_seed_)
    (from_owner self) (remaining_accounts self).
Definition set_from_owner (from_owner_ : Pubkey) (self : Builder) : Builder :=
  mkBuilder (source self) (base_account self) (destination self) (amount self) (from_seed self)
    (Some from_owner_) (remaining_accounts self).
Definition add_remaining_account (account_ : AccountMeta) (self : Builder) : Builder :=
  mkBuilder (source self) (base_account self) (destination self) (amount self) (from_seed self)
    (from_owner self) (remaining_accounts self ++ [account_]).
Definition add_remaining_accounts (accounts_ : list AccountMeta) (self : Builder) : Builder :=
  mkBuilder (source self) (base_account self) (destination self) (amount self) (from_seed self)
    (from_owner self) (remaining_accounts self ++ accounts_).

Definition instruction {Hborsh : Borsh} {Hids : ProgramIds} (self : Builder) : Outcome Empty_set Instruction :=
  let! source_ := unwrap (source self) in
  let! base_account_ := unwrap (base_account self) in
  let! destination_ := unwrap (destination self) in
  let! amount_ := unwrap (amount self) in
  let! from_seed_ := unwrap (from_seed self) in
  let! from_owner_ := unwrap (from_owner self) in
  instruction_with_remaining_accounts
    (mkAccounts source_ base_account_ destination_)
    (mkInstructionArgs amount_ from_seed_ from_owner_)
    (remaining_accounts self).

End TransferSolWithSeedBuilder.

Module UpgradeNonceAccount.

Record Accounts := mkAccounts { nonce_account : Pubkey }.
Record InstructionData := mkInstructionData { discriminator : Z }.

Definition InstructionData_new : InstructionData := mkInstructionData 12.

Section client.
Context {Hborsh : Borsh} {Hids : ProgramIds}.

Definition data_to_vec (self : InstructionData) : option Bytes :=
  borsh_struct [borsh_u32 (discriminator self)].

Definition instruction_with_remaining_accounts (self : Accounts)
    (remaining_accounts : list AccountMeta) : Outcome Empty_set Instruction :=
  let accounts :=
    [AccountMeta_new (nonce_account self) false] ++
    remaining_accounts in
  let! data := unwrap (data_to_vec InstructionData_new) in
  Ok (mkInstruction SYSTEM_ID accounts data).

Definition instruction (self : Accounts) : Outcome Empty_set Instruction :=
  instruction_with_remaining_accounts self [].

End client.
End UpgradeNonceAccount.

Module UpgradeNonceAccountBuilder.
Import UpgradeNonceAccount.

Record Builder := mkBuilder { nonce_account : option Pubkey; remaining_accounts : list AccountMeta }.

Definition new : Builder := mkBuilder None [].
Definition set_nonce_account (nonce_account_ : Pubkey) (self : Builder) : Builder :=
  mkBuilder (Some nonce_account_) (remaining_accounts self).
Definition add_remaining_account (account_ : AccountMeta) (self : Builder) : Builder :=
  mkBuilder (nonce_account self) (remaining_accounts self ++ [account_]).
Definition add_remaining_accounts (accounts_ : list AccountMeta) (self : Builder) : Builder :=
  mkBuilder (nonce_account self) (remaining_accounts self ++ accounts_).

Definition instruction {Hborsh : Borsh} {Hids : ProgramIds} (self : Builder) : Outcome Empty_set Instruction :=
  let! nonce_account_ := unwrap (nonce_account self) in
  instruction_with_remaining_accounts
    (mkAccounts nonce_account_)
    (remaining_accounts self).

End UpgradeNonceAccountBuilder.
