(* ===== verification/ClientCpi.v ===== *)
(** * The Rust client: cross-program calls (clients/rust/src/generated/instructions)

    The second half of each of these files: for an instruction, the call with its
    accounts given as [AccountInfo]s (the modules whose names end in [Cpi]) and
    the builder of the call ([CpiBuilder]).  The calls are those of program.rs in
    [SystemInstructions]; the system call under them is a parameter. *)

From S2P Require Import Prelude Errors Account Pubkey Sysvars TransactionContext SystemProgram InvokeContext Message SystemInstructions Client.

(** The system call that [invoke_signed] makes. *)
Definition SolInvoke (W : Type) : Type :=
  StableInstruction -> list AccountInfo -> list (list Bytes) -> M W ProgramError.ProgramError Z.

(** An additional account with two flags. *)
Definition RemainingAccount : Type := AccountInfo * bool * bool.

Definition remaining_info (remaining_account : RemainingAccount) : AccountInfo :=
  fst (fst remaining_account).

(** The closure that pushes its meta. *)
Definition remaining_meta (remaining_account : RemainingAccount) : AccountMeta :=
  mkAccountMeta (info_key (fst (fst remaining_account))) (snd (fst remaining_account))
    (snd remaining_account).

Module CreateAccountCpi.

Record CpiAccounts := mkCpiAccounts { acc_payer : AccountInfo; acc_new_account : AccountInfo }.
Record Cpi := mkCpi {
  program : AccountInfo;
  payer : AccountInfo;
  new_account : AccountInfo;
  args : CreateAccount.InstructionArgs;
}.

Definition new (program_ : AccountInfo) (accounts_ : CpiAccounts) (args_ : CreateAccount.InstructionArgs) : Cpi :=
  mkCpi program_ (acc_payer accounts_) (acc_new_account accounts_) args_.

Section cpi.
Context {Hborsh : Borsh} {Hids : ProgramIds} {W : Type} (sol_invoke_signed_rust : SolInvoke W).

Definition invoke_signed_with_remaining_accounts (self : Cpi) (signers_seeds : list (list Bytes))
    (remaining_accounts : list RemainingAccount) : M W ProgramError.ProgramError unit :=
  let accounts :=
    [AccountMeta_new (info_key (payer self)) true; AccountMeta_new (info_key (new_account self)) true] ++
    (remaining_meta <$> remaining_accounts) in
  let? data := lift (unwrap (CreateAccount.data_to_vec CreateAccount.InstructionData_new)) in
  let? args := lift (unwrap (CreateAccount.args_to_vec (args self))) in
  let instruction := mkInstruction SYSTEM_ID accounts (data ++ args) in
  let account_infos :=
    [program self; payer self; new_account self] ++
    (remaining_info <$> remaining_accounts) in
  match signers_seeds with
  | [] => invoke sol_invoke_signed_rust instruction account_infos
  | _ => invoke_signed sol_invoke_signed_rust instruction account_infos signers_seeds
  end.

Definition invoke (self : Cpi) : M W ProgramError.ProgramError unit :=
  invoke_signed_with_remaining_accounts self [] [].
Definition invoke_with_remaining_accounts (self : Cpi) (remaining_accounts : list RemainingAccount)
  : M W ProgramError.ProgramError unit := invoke_signed_with_remaining_accounts self [] remaining_accounts.
Definition invoke_signed (self : Cpi) (signers_seeds : list (list Bytes))
  : M W ProgramError.ProgramError unit := invoke_signed_with_remaining_accounts self signers_seeds [].

End cpi.
End CreateAccountCpi.

Module CreateAccountCpiBuilder.

Record CpiBuilder := mkCpiBuilder {
  program : AccountInfo;
  payer : option AccountInfo;
  new_account : option AccountInfo;
  lamports : option Z;
  space : option Z;
  program_address : option Pubkey;
  remaining_accounts : list RemainingAccount;
}.

Definition new (program_ : AccountInfo) : CpiBuilder := mkCpiBuilder program_ None None None None None [].
Definition set_payer (payer_ : AccountInfo) (self : CpiBuilder) : CpiBuilder :=
  mkCpiBuilder (program self) (Some payer_) (new_account self) (lamports self) (space self) (program_address self)
    (remaining_accounts self).
Definition set_new_account (new_account_ : AccountInfo) (self : CpiBuilder) : CpiBuilder :=
  mkCpiBuilder (program self) (payer self) (Some new_account_) (lamports self) (space self) (program_address self)
    (remaining_accounts self).
Definition set_lamports (lamports_ : Z) (self : CpiBuilder) : CpiBuilder :=
  mkCpiBuilder (program self) (payer self) (new_account self) (Some lamports_) (space self) (program_address self)
    (remaining_accounts self).
Definition set_space (space_ : Z) (self : CpiBuilder) : CpiBuilder :=
  mkCpiBuilder (program self) (payer self) (new_account self) (lamports self) (Some space_) (program_address self)
    (remaining_accounts self).
Definition set_program_address (program_address_ : Pubkey) (self : CpiBuilder) : CpiBuilder :=
  mkCpiBuilder (program self) (payer self) (new_account self) (lamports self) (space self) (Some program_address_)
    (remaining_accounts self).
Definition add_remaining_account (account_ : AccountInfo) (is_writable is_signer : bool)
    (self : CpiBuilder) : CpiBuilder :=
  mkCpiBuilder (program self) (payer self) (new_account self) (lamports self) (space self) (program_address self)
    (remaining_accounts self ++ [(account_, is_writable, is_signer)]).
Definition add_remaining_accounts (accounts_ : list RemainingAccount) (self : CpiBuilder) : CpiBuilder :=
  mkCpiBuilder (program self) (payer self) (new_account self) (lamports self) (space self) (program_address self)
    (remaining_accounts self ++ accounts_).

Section cpi.
Context {Hborsh : Borsh} {Hids : ProgramIds} {W : Type} (sol_invoke_signed_rust : SolInvoke W).

Definition invoke_signed (self : CpiBuilder) (signers_seeds : list (list Bytes))
  : M W ProgramError.ProgramError unit :=
  let? lamports_ := lift (unwrap (lamports self)) in
  let? space_ := lift (unwrap (space self)) in
  let? program_address_ := lift (unwrap (program_address self)) in
  let? payer_ := lift (unwrap (payer self)) in
  let? new_account_ := lift (unwrap (new_account self)) in
  CreateAccountCpi.invoke_signed_with_remaining_accounts sol_invoke_signed_rust
    (CreateAccountCpi.mkCpi (program self) payer_ new_account_
      (CreateAccount.mkInstructionArgs lamports_ space_ program_address_))
    signers_seeds (remaining_accounts self).
Definition invoke (self : CpiBuilder) : M W ProgramError.ProgramError unit := invoke_signed self [].

End cpi.
End CreateAccountCpiBuilder.

Module AssignCpi.

Record CpiAccounts := mkCpiAccounts { acc_account : AccountInfo }.
Record Cpi := mkCpi { program : AccountInfo; account : AccountInfo; args : Assign.InstructionArgs }.

Definition new (program_ : AccountInfo) (accounts_ : CpiAccounts) (args_ : Assign.InstructionArgs) : Cpi :=
  mkCpi program_ (acc_account accounts_) args_.

Section cpi.
Context {Hborsh : Borsh} {Hids : ProgramIds} {W : Type} (sol_invoke_signed_rust : SolInvoke W).

Definition invoke_signed_with_remaining_accounts (self : Cpi) (signers_seeds : list (list Bytes))
    (remaining_accounts : list RemainingAccount) : M W ProgramError.ProgramError unit :=
  let accounts :=
    [AccountMeta_new (info_key (account self)) true] ++
    (remaining_meta <$> remaining_accounts) in
  let? data := lift (unwrap (Assign.data_to_vec Assign.InstructionData_new)) in
  let? args := lift (unwrap (Assign.args_to_vec (args self))) in
  let instruction := mkInstruction SYSTEM_ID accounts (data ++ args) in
  let account_infos :=
    [program self; account self] ++
    (remaining_info <$> remaining_accounts) in
  match signers_seeds with
  | [] => invoke sol_invoke_signed_rust instruction account_infos
  | _ => invoke_signed sol_invoke_signed_rust instruction account_infos signers_seeds
  end.

Definition invoke (self : Cpi) : M W ProgramError.ProgramError unit :=
  invoke_signed_with_remaining_accounts self [] [].
Definition invoke_with_remaining_accounts (self : Cpi) (remaining_accounts : list RemainingAccount)
  : M W ProgramError.ProgramError unit := invoke_signed_with_remaining_accounts self [] remaining_accounts.
Definition invoke_signed (self : Cpi) (signers_seeds : list (list Bytes))
  : M W ProgramError.ProgramError unit := invoke_signed_with_remaining_accounts self signers_seeds [].

End cpi.
End AssignCpi.

Module AssignCpiBuilder.

Record CpiBuilder := mkCpiBuilder {
  program : AccountInfo;
  account : option AccountInfo;
  program_address : option Pubkey;
  remaining_accounts : list RemainingAccount;
}.

Definition new (program_ : AccountInfo) : CpiBuilder := mkCpiBuilder program_ None None [].
Definition set_account (account_ : AccountInfo) (self : CpiBuilder) : CpiBuilder :=
  mkCpiBuilder (program self) (Some account_) (program_address self) (remaining_accounts self).
Definition set_program_address (program_address_ : Pubkey) (self : CpiBuilder) : CpiBuilder :=
  mkCpiBuilder (program self) (account self) (Some program_address_) (remaining_accounts self).
Definition add_remaining_account (account_ : AccountInfo) (is_writable is_signer : bool)
    (self : CpiBuilder) : CpiBuilder :=
  mkCpiBuilder (program self) (account self) (program_address self)
    (remaining_accounts self ++ [(account_, is_writable, is_signer)]).
Definition add_remaining_accounts (accounts_ : list RemainingAccount) (self : CpiBuilder) : CpiBuilder :=
  mkCpiBuilder (program self) (account self) (program_address self) (remaining_accounts self ++ accounts_).

Section cpi.
Context {Hborsh : Borsh} {Hids : ProgramIds} {W : Type} (sol_invoke_signed_rust : SolInvoke W).

Definition invoke_signed (self : CpiBuilder) (signers_seeds : list (list Bytes))
  : M W ProgramError.ProgramError unit :=
  let? program_address_ := lift (unwrap (program_address self)) in
  let? account_ := lift (unwrap (account self)) in
  AssignCpi.invoke_signed_with_remaining_accounts sol_invoke_signed_rust
    (AssignCpi.mkCpi (program self) account_ (Assign.mkInstructionArgs program_address_))
    signers_seeds (remaining_accounts self).
Definition invoke (self : CpiBuilder) : M W ProgramError.ProgramError unit := invoke_signed self [].

End cpi.
End AssignCpiBuilder.

Module TransferSolCpi.

Record CpiAccounts := mkCpiAccounts { acc_source : AccountInfo; acc_destination : AccountInfo }.
Record Cpi := mkCpi {
  program : AccountInfo;
  source : AccountInfo;
  destination : AccountInfo;
  args : TransferSol.InstructionArgs;
}.

Definition new (program_ : AccountInfo) (accounts_ : CpiAccounts) (args_ : TransferSol.InstructionArgs) : Cpi :=
  mkCpi program_ (acc_source accounts_) (acc_destination accounts_) args_.

Section cpi.
Context {Hborsh : Borsh} {Hids : ProgramIds} {W : Type} (sol_invoke_signed_rust : SolInvoke W).

Definition invoke_signed_with_remaining_accounts (self : Cpi) (signers_seeds : list (list Bytes))
    (remaining_accounts : list RemainingAccount) : M W ProgramError.ProgramError unit :=
  let accounts :=
    [AccountMeta_new (info_key (source self)) true; AccountMeta_new (info_key (destination self)) false] ++
    (remaining_meta <$> remaining_accounts) in
  let? data := lift (unwrap (TransferSol.data_to_vec TransferSol.InstructionData_new)) in
  let? args := lift (unwrap (TransferSol.args_to_vec (args self))) in
  let instruction := mkInstruction SYSTEM_ID accounts (data ++ args) in
  let account_infos :=
    [program self; source self; destination self] ++
    (remaining_info <$> remaining_accounts) in
  match signers_seeds with
  | [] => invoke sol_invoke_signed_rust instruction account_infos
  | _ => invoke_signed sol_invoke_signed_rust instruction account_infos signers_seeds
  end.

Definition invoke (self : Cpi) : M W ProgramError.ProgramError unit :=
  invoke_signed_with_remaining_accounts self [] [].
Definition invoke_with_remaining_accounts (self : Cpi) (remaining_accounts : list RemainingAccount)
  : M W ProgramError.ProgramError unit := invoke_signed_with_remaining_accounts self [] remaining_accounts.
Definition invoke_signed (self : Cpi) (signers_seeds : list (list Bytes))
  : M W ProgramError.ProgramError unit := invoke_signed_with_remaining_accounts self signers_seeds [].

End cpi.
End TransferSolCpi.

Module TransferSolCpiBuilder.

Record CpiBuilder := mkCpiBuilder {
  program : AccountInfo;
  source : option AccountInfo;
  destination : option AccountInfo;
  amount : option Z;
  remaining_accounts : list RemainingAccount;
}.

Definition new (program_ : AccountInfo) : CpiBuilder := mkCpiBuilder program_ None None None [].
Definition set_source (source_ : AccountInfo) (self : CpiBuilder) : CpiBuilder :=
  mkCpiBuilder (program self) (Some source_) (destination self) (amount self) (remaining_accounts self).
Definition set_destination (destination_ : AccountInfo) (self : CpiBuilder) : CpiBuilder :=
  mkCpiBuilder (program self) (source self) (Some destination_) (amount self) (remaining_accounts self).
Definition set_amount (amount_ : Z) (self : CpiBuilder) : CpiBuilder :=
  mkCpiBuilder (program self) (source self) (destination self) (Some amount_) (remaining_accounts self).
Definition add_remaining_account (account_ : AccountInfo) (is_writable is_signer : bool)
    (self : CpiBuilder) : CpiBuilder :=
  mkCpiBuilder (program self) (source self) (destination self) (amount self)
    (remaining_accounts self ++ [(account_, is_writable, is_signer)]).
Definition add_remaining_accounts (accounts_ : list RemainingAccount) (self : CpiBuilder) : CpiBuilder :=
  mkCpiBuilder (program self) (source self) (destination self) (amount self) (remaining_accounts self ++ accounts_).

Section cpi.
Context {Hborsh : Borsh} {Hids : ProgramIds} {W : Type} (sol_invoke_signed_rust : SolInvoke W).

Definition invoke_signed (self : CpiBuilder) (signers_seeds : list (list Bytes))
  : M W ProgramError.ProgramError unit :=
  let? amount_ := lift (unwrap (amount self)) in
  let? source_ := lift (unwrap (source self)) in
  let? destination_ := lift (unwrap (destination self)) in
  TransferSolCpi.invoke_signed_with_remaining_accounts sol_invoke_signed_rust
    (TransferSolCpi.mkCpi (program self) source_ destination_ (TransferSol.mkInstructionArgs amount_))
    signers_seeds (remaining_accounts self).
Definition invoke (self : CpiBuilder) : M W ProgramError.ProgramError unit := invoke_signed self [].

End cpi.
End TransferSolCpiBuilder.

Module CreateAccountWithSeedCpi.

Record CpiAccounts := mkCpiAccounts {
  acc_payer : AccountInfo;
  acc_new_account : AccountInfo;
  acc_base_account : option AccountInfo;
}.
Record Cpi := mkCpi {
  program : AccountInfo;
  payer : AccountInfo;
  new_account : AccountInfo;
  base_account : option AccountInfo;
  args : CreateAccountWithSeed.InstructionArgs;
}.

Definition new (program_ : AccountInfo) (accounts_ : CpiAccounts) (args_ : CreateAccountWithSeed.InstructionArgs) : Cpi :=
  mkCpi program_ (acc_payer accounts_) (acc_new_account accounts_) (acc_base_account accounts_) args_.

Section cpi.
Context {Hborsh : Borsh} {Hids : ProgramIds} {W : Type} (sol_invoke_signed_rust : SolInvoke W).

Definition invoke_signed_with_remaining_accounts (self : Cpi) (signers_seeds : list (list Bytes))
    (remaining_accounts : list RemainingAccount) : M W ProgramError.ProgramError unit :=
  let accounts :=
    [AccountMeta_new (info_key (payer self)) true; AccountMeta_new (info_key (new_account self)) false] ++
    from_option (fun base_account => [AccountMeta_new_readonly (info_key base_account) true]) [] (base_account self) ++
    (remaining_meta <$> remaining_accounts) in
  let? data := lift (unwrap (CreateAccountWithSeed.data_to_vec CreateAccountWithSeed.InstructionData_new)) in
  let? args := lift (unwrap (CreateAccountWithSeed.args_to_vec (args self))) in
  let instruction := mkInstruction SYSTEM_ID accounts (data ++ args) in
  let account_infos :=
    [program self; payer self; new_account self] ++
    from_option (fun base_account => [base_account]) [] (base_account self) ++
    (remaining_info <$> remaining_accounts) in
  match signers_seeds with
  | [] => invoke sol_invoke_signed_rust instruction account_infos
  | _ => invoke_signed sol_invoke_signed_rust instruction account_infos signers_seeds
  end.

Definition invoke (self : Cpi) : M W ProgramError.ProgramError unit :=
  invoke_signed_with_remaining_accounts self [] [].
Definition invoke_with_remaining_accounts (self : Cpi) (remaining_accounts : list RemainingAccount)
  : M W ProgramError.ProgramError unit := invoke_signed_with_remaining_accounts self [] remaining_accounts.
Definition invoke_signed (self : Cpi) (signers_seeds : list (list Bytes))
  : M W ProgramError.ProgramError unit := invoke_signed_with_remaining_accounts self signers_seeds [].

End cpi.
End CreateAccountWithSeedCpi.

Module CreateAccountWithSeedCpiBuilder.

Record CpiBuilder := mkCpiBuilder {
  program : AccountInfo;
  payer : option AccountInfo;
  new_account : option AccountInfo;
  base_account : option AccountInfo;
  base : option Pubkey;
  seed : option Bytes;
  amount : option Z;
  space : option Z;
  program_address : option Pubkey;
  remaining_accounts : list RemainingAccount;
}.

Definition new (program_ : AccountInfo) : CpiBuilder := mkCpiBuilder program_ None None None None None None None None [].
Definition set_payer (payer_ : AccountInfo) (self : CpiBuilder) : CpiBuilder :=
  mkCpiBuilder (program self) (Some payer_) (new_account self) (base_account self) (base self) (seed self)
    (amount self) (space self) (program_address self) (remaining_accounts self).
Definition set_new_account (new_account_ : AccountInfo) (self : CpiBuilder) : CpiBuilder :=
  mkCpiBuilder (program self) (payer self) (Some new_account_) (base_account self) (base self) (seed self)
    (amount self) (space self) (program_address self) (remaining_accounts self).
Definition set_base_account (base_account_ : option AccountInfo) (self : CpiBuilder) : CpiBuilder :=
  mkCpiBuilder (program self) (payer self) (new_account self) base_account_ (base self) (seed self) (amount self)
    (space self) (program_address self) (remaining_accounts self).
Definition set_base (base_ : Pubkey) (self : CpiBuilder) : CpiBuilder :=
  mkCpiBuilder (program self) (payer self) (new_account self) (base_account self) (Some base_) (seed self)
    (amount self) (space self) (program_address self) (remaining_accounts self).
Definition set_seed (seed_ : Bytes) (self : CpiBuilder) : CpiBuilder :=
  mkCpiBuilder (program self) (payer self) (new_account self) (base_account self) (base self) (Some seed_)
    (amount self) (space self) (program_address self) (remaining_accounts self).
Definition set_amount (amount_ : Z) (self : CpiBuilder) : CpiBuilder :=
  mkCpiBuilder (program self) (payer self) (new_account self) (base_account self) (base self) (seed self)
    (Some amount_) (space self) (program_address self) (remaining_accounts self).
Definition set_space (space_ : Z) (self : CpiBuilder) : CpiBuilder :=
  mkCpiBuilder (program self) (payer self) (new_account self) (base_account self) (base self) (seed self)
    (amount self) (Some space_) (program_address self) (remaining_accounts self).
Definition set_program_address (program_address_ : Pubkey) (self : CpiBuilder) : CpiBuilder :=
  mkCpiBuilder (program self) (payer self) (new_account self) (base_account self) (base self) (seed self)
    (amount self) (space self) (Some program_address_) (remaining_accounts self).
Definition add_remaining_account (account_ : AccountInfo) (is_writable is_signer : bool)
    (self : CpiBuilder) : CpiBuilder :=
  mkCpiBuilder (program self) (payer self) (new_account self) (base_account self) (base self) (seed self)
    (amount self) (space self) (program_address self)
    (remaining_accounts self ++ [(account_, is_writable, is_signer)]).
Definition add_remaining_accounts (accounts_ : list RemainingAccount) (self : CpiBuilder) : CpiBuilder :=
  mkCpiBuilder (program self) (payer self) (new_account self) (base_account self) (base self) (seed self)
    (amount self) (space self) (program_address self) (remaining_accounts self ++ accounts_).

Section cpi.
Context {Hborsh : Borsh} {Hids : ProgramIds} {W : Type} (sol_invoke_signed_rust : SolInvoke W).

Definition invoke_signed (self : CpiBuilder) (signers_seeds : list (list Bytes))
  : M W ProgramError.ProgramError unit :=
  let? base_ := lift (unwrap (base self)) in
  let? seed_ := lift (unwrap (seed self)) in
  let? amount_ := lift (unwrap (amount self)) in
  let? space_ := lift (unwrap (space self)) in
  let? program_address_ := lift (unwrap (program_address self)) in
  let? payer_ := lift (unwrap (payer self)) in
  let? new_account_ := lift (unwrap (new_account self)) in
  CreateAccountWithSeedCpi.invoke_signed_with_remaining_accounts sol_invoke_signed_rust
    (CreateAccountWithSeedCpi.mkCpi (program self) payer_ new_account_ (base_account self)
      (CreateAccountWithSeed.mkInstructionArgs base_ seed_ amount_ space_ program_address_))
    signers_seeds (remaining_accounts self).
Definition invoke (self : CpiBuilder) : M W ProgramError.ProgramError unit := invoke_signed self [].

End cpi.
End CreateAccountWithSeedCpiBuilder.

Module AdvanceNonceAccountCpi.

Record CpiAccounts := mkCpiAccounts {
  acc_nonce_account : AccountInfo;
  acc_recent_blockhashes_sysvar : AccountInfo;
  acc_nonce_authority : AccountInfo;
}.
Record Cpi := mkCpi {
  program : AccountInfo;
  nonce_account : AccountInfo;
  recent_blockhashes_sysvar : AccountInfo;
  nonce_authority : AccountInfo;
}.

Definition new (program_ : AccountInfo) (accounts_ : CpiAccounts) : Cpi :=
  mkCpi program_ (acc_nonce_account accounts_) (acc_recent_blockhashes_sysvar accounts_)
    (acc_nonce_authority accounts_).

Section cpi.
Context {Hborsh : Borsh} {Hids : ProgramIds} {W : Type} (sol_invoke_signed_rust : SolInvoke W).

Definition invoke_signed_with_remaining_accounts (self : Cpi) (signers_seeds : list (list Bytes))
    (remaining_accounts : list RemainingAccount) : M W ProgramError.ProgramError unit :=
  let accounts :=
    [AccountMeta_new (info_key (nonce_account self)) false;
     AccountMeta_new_readonly (info_key (recent_blockhashes_sysvar self)) false;
     AccountMeta_new_readonly (info_key (nonce_authority self)) true] ++
    (remaining_meta <$> remaining_accounts) in
  let? data := lift (unwrap (AdvanceNonceAccount.data_to_vec AdvanceNonceAccount.InstructionData_new)) in
  let instruction := mkInstruction SYSTEM_ID accounts data in
  let account_infos :=
    [program self; nonce_account self; recent_blockhashes_sysvar self; nonce_authority self] ++
    (remaining_info <$> remaining_accounts) in
  match signers_seeds with
  | [] => invoke sol_invoke_signed_rust instruction account_infos
  | _ => invoke_signed sol_invoke_signed_rust instruction account_infos signers_seeds
  end.

Definition invoke (self : Cpi) : M W ProgramError.ProgramError unit :=
  invoke_signed_with_remaining_accounts self [] [].
Definition invoke_with_remaining_accounts (self : Cpi) (remaining_accounts : list RemainingAccount)
  : M W ProgramError.ProgramError unit := invoke_signed_with_remaining_accounts self [] remaining_accounts.
Definition invoke_signed (self : Cpi) (signers_seeds : list (list Bytes))
  : M W ProgramError.ProgramError unit := invoke_signed_with_remaining_accounts self signers_seeds [].

End cpi.
End AdvanceNonceAccountCpi.

Module AdvanceNonceAccountCpiBuilder.

Record CpiBuilder := mkCpiBuilder {
  program : AccountInfo;
  nonce_account : option AccountInfo;
  recent_blockhashes_sysvar : option AccountInfo;
  nonce_authority : option AccountInfo;
  remaining_accounts : list RemainingAccount;
}.

Definition new (program_ : AccountInfo) : CpiBuilder := mkCpiBuilder program_ None None None [].
Definition set_nonce_account (nonce_account_ : AccountInfo) (self : CpiBuilder) : CpiBuilder :=
  mkCpiBuilder (program self) (Some nonce_account_) (recent_blockhashes_sysvar self) (nonce_authority self)
    (remaining_accounts self).
Definition set_recent_blockhashes_sysvar (recent_blockhashes_sysvar_ : AccountInfo) (self : CpiBuilder) : CpiBuilder :=
  mkCpiBuilder (program self) (nonce_account self) (Some recent_blockhashes_sysvar_) (nonce_authority self)
    (remaining_accounts self).
Definition set_nonce_authority (nonce_authority_ : AccountInfo) (self : CpiBuilder) : CpiBuilder :=
  mkCpiBuilder (program self) (nonce_account self) (recent_blockhashes_sysvar self) (Some nonce_authority_)
    (remaining_accounts self).
Definition add_remaining_account (account_ : AccountInfo) (is_writable is_signer : bool)
    (self : CpiBuilder) : CpiBuilder :=
  mkCpiBuilder (program self) (nonce_account self) (recent_blockhashes_sysvar self) (nonce_authority self)
    (remaining_accounts self ++ [(account_, is_writable, is_signer)]).
Definition add_remaining_accounts (accounts_ : list RemainingAccount) (self : CpiBuilder) : CpiBuilder :=
  mkCpiBuilder (program self) (nonce_account self) (recent_blockhashes_sysvar self) (nonce_authority self)
    (remaining_accounts self ++ accounts_).

Section cpi.
Context {Hborsh : Borsh} {Hids : ProgramIds} {W : Type} (sol_invoke_signed_rust : SolInvoke W).

Definition invoke_signed (self : CpiBuilder) (signers_seeds : list (list Bytes))
  : M W ProgramError.ProgramError unit :=
  let? nonce_account_ := lift (unwrap (nonce_account self)) in
  let? recent_blockhashes_sysvar_ := lift (unwrap (recent_blockhashes_sysvar self)) in
  let? nonce_authority_ := lift (unwrap (nonce_authority self)) in
  AdvanceNonceAccountCpi.invoke_signed_with_remaining_accounts sol_invoke_signed_rust
    (AdvanceNonceAccountCpi.mkCpi (program self) nonce_account_ recent_blockhashes_sysvar_ nonce_authority_)
    signers_seeds (remaining_accounts self).
Definition invoke (self : CpiBuilder) : M W ProgramError.ProgramError unit := invoke_signed self [].

End cpi.
End AdvanceNonceAccountCpiBuilder.

Module WithdrawNonceAccountCpi.

Record CpiAccounts := mkCpiAccounts {
  acc_nonce_account : AccountInfo;
  acc_recipient_account : AccountInfo;
  acc_recent_blockhashes_sysvar : AccountInfo;
  acc_rent_sysvar : AccountInfo;
  acc_nonce_authority : AccountInfo;
}.
Record Cpi := mkCpi {
  program : AccountInfo;
  nonce_account : AccountInfo;
  recipient_account : AccountInfo;
  recent_blockhashes_sysvar : AccountInfo;
  rent_sysvar : AccountInfo;
  nonce_authority : AccountInfo;
  args : WithdrawNonceAccount.InstructionArgs;
}.

Definition new (program_ : AccountInfo) (accounts_ : CpiAccounts) (args_ : WithdrawNonceAccount.InstructionArgs) : Cpi :=
  mkCpi program_ (acc_nonce_account accounts_) (acc_recipient_account accounts_)
    (acc_recent_blockhashes_sysvar accounts_) (acc_rent_sysvar accounts_)
    (acc_nonce_authority accounts_) args_.

Section cpi.
Context {Hborsh : Borsh} {Hids : ProgramIds} {W : Type} (sol_invoke_signed_rust : SolInvoke W).

Definition invoke_signed_with_remaining_accounts (self : Cpi) (signers_seeds : list (list Bytes))
    (remaining_accounts : list RemainingAccount) : M W ProgramError.ProgramError unit :=
  let accounts :=
    [AccountMeta_new (info_key (nonce_account self)) false;
     AccountMeta_new (info_key (recipient_account self)) false;
     AccountMeta_new_readonly (info_key (recent_blockhashes_sysvar self)) false;
     AccountMeta_new_readonly (info_key (rent_sysvar self)) false;
     AccountMeta_new_readonly (info_key (nonce_authority self)) true] ++
    (remaining_meta <$> remaining_accounts) in
  let? data := lift (unwrap (WithdrawNonceAccount.data_to_vec WithdrawNonceAccount.InstructionData_new)) in
  let? args := lift (unwrap (WithdrawNonceAccount.args_to_vec (args self))) in
  let instruction := mkInstruction SYSTEM_ID accounts (data ++ args) in
  let account_infos :=
    [program self; nonce_account self; recipient_account self; recent_blockhashes_sysvar self;
     rent_sysvar self; nonce_authority self] ++
    (remaining_info <$> remaining_accounts) in
  match signers_seeds with
  | [] => invoke sol_invoke_signed_rust instruction account_infos
  | _ => invoke_signed sol_invoke_signed_rust instruction account_infos signers_seeds
  end.

Definition invoke (self : Cpi) : M W ProgramError.ProgramError unit :=
  invoke_signed_with_remaining_accounts self [] [].
Definition invoke_with_remaining_accounts (self : Cpi) (remaining_accounts : list RemainingAccount)
  : M W ProgramError.ProgramError unit := invoke_signed_with_remaining_accounts self [] remaining_accounts.
Definition invoke_signed (self : Cpi) (signers_seeds : list (list Bytes))
  : M W ProgramError.ProgramError unit := invoke_signed_with_remaining_accounts self signers_seeds [].

End cpi.
End WithdrawNonceAccountCpi.

Module WithdrawNonceAccountCpiBuilder.

Record CpiBuilder := mkCpiBuilder {
  program : AccountInfo;
  nonce_account : option AccountInfo;
  recipient_account : option AccountInfo;
  recent_blockhashes_sysvar : option AccountInfo;
  rent_sysvar : option AccountInfo;
  nonce_authority : option AccountInfo;
  withdraw_amount : option Z;
  remaining_accounts : list RemainingAccount;
}.

Definition new (program_ : AccountInfo) : CpiBuilder := mkCpiBuilder program_ None None None None None None [].
Definition set_nonce_account (nonce_account_ : AccountInfo) (self : CpiBuilder) : CpiBuilder :=
  mkCpiBuilder (program self) (Some nonce_account_) (recipient_account self) (recent_blockhashes_sysvar self)
    (rent_sysvar self) (nonce_authority self) (withdraw_amount self) (remaining_accounts self).
Definition set_recipient_account (recipient_account_ : AccountInfo) (self : CpiBuilder) : CpiBuilder :=
  mkCpiBuilder (program self) (nonce_account self) (Some recipient_account_) (recent_blockhashes_sysvar self)
    (rent_sysvar self) (nonce_authority self) (withdraw_amount self) (remaining_accounts self).
Definition set_recent_blockhashes_sysvar (recent_blockhashes_sysvar_ : AccountInfo) (self : CpiBuilder) : CpiBuilder :=
  mkCpiBuilder (program self) (nonce_account self) (recipient_account self) (Some recent_blockhashes_sysvar_)
    (rent_sysvar self) (nonce_authority self) (withdraw_amount self) (remaining_accounts self).
Definition set_rent_sysvar (rent_sysvar_ : AccountInfo) (self : CpiBuilder) : CpiBuilder :=
  mkCpiBuilder (program self) (nonce_account self) (recipient_account self) (recent_blockhashes_sysvar self)
    (Some rent_sysvar_) (nonce_authority self) (withdraw_amount self) (remaining_accounts self).
Definition set_nonce_authority (nonce_authority_ : AccountInfo) (self : CpiBuilder) : CpiBuilder :=
  mkCpiBuilder (program self) (nonce_account self) (recipient_account self) (recent_blockhashes_sysvar self)
    (rent_sysvar self) (Some nonce_authority_) (withdraw_amount self) (remaining_accounts self).
Definition set_withdraw_amount (withdraw_amount_ : Z) (self : CpiBuilder) : CpiBuilder :=
  mkCpiBuilder (program self) (nonce_account self) (recipient_account self) (recent_blockhashes_sysvar self)
    (rent_sysvar self) (nonce_authority self) (Some withdraw_amount_) (remaining_accounts self).
Definition add_remaining_account (account_ : AccountInfo) (is_writable is_signer : bool)
    (self : CpiBuilder) : CpiBuilder :=
  mkCpiBuilder (program self) (nonce_account self) (recipient_account self) (recent_blockhashes_sysvar self)
    (rent_sysvar self) (nonce_authority self) (withdraw_amount self)
    (remaining_accounts self ++ [(account_, is_writable, is_signer)]).
Definition add_remaining_accounts (accounts_ : list RemainingAccount) (self : CpiBuilder) : CpiBuilder :=
  mkCpiBuilder (program self) (nonce_account self) (recipient_account self) (recent_blockhashes_sysvar self)
    (rent_sysvar self) (nonce_authority self) (withdraw_amount self)
    (remaining_accounts self ++ accounts_).

Section cpi.
Context {Hborsh : Borsh} {Hids : ProgramIds} {W : Type} (sol_invoke_signed_rust : SolInvoke W).

Definition invoke_signed (self : CpiBuilder) (signers_seeds : list (list Bytes))
  : M W ProgramError.ProgramError unit :=
  let? withdraw_amount_ := lift (unwrap (withdraw_amount self)) in
  let? nonce_account_ := lift (unwrap (nonce_account self)) in
  let? recipient_account_ := lift (unwrap (recipient_account self)) in
  let? recent_blockhashes_sysvar_ := lift (unwrap (recent_blockhashes_sysvar self)) in
  let? rent_sysvar_ := lift (unwrap (rent_sysvar self)) in
  let? nonce_authority_ := lift (unwrap (nonce_authority self)) in
  WithdrawNonceAccountCpi.invoke_signed_with_remaining_accounts sol_invoke_signed_rust
    (WithdrawNonceAccountCpi.mkCpi (program self) nonce_account_ recipient_account_ recent_blockhashes_sysvar_ rent_sysvar_
      nonce_authority_ (WithdrawNonceAccount.mkInstructionArgs withdraw_amount_))
    signers_seeds (remaining_accounts self).
Definition invoke (self : CpiBuilder) : M W ProgramError.ProgramError unit := invoke_signed self [].

End cpi.
End WithdrawNonceAccountCpiBuilder.

Module InitializeNonceAccountCpi.

Record CpiAccounts := mkCpiAccounts {
  acc_nonce_account : AccountInfo;
  acc_recent_blockhashes_sysvar : AccountInfo;
  acc_rent_sysvar : AccountInfo;
}.
Record Cpi := mkCpi {
  program : AccountInfo;
  nonce_account : AccountInfo;
  recent_blockhashes_sysvar : AccountInfo;
  rent_sysvar : AccountInfo;
  args : InitializeNonceAccount.InstructionArgs;
}.

Definition new (program_ : AccountInfo) (accounts_ : CpiAccounts) (args_ : InitializeNonceAccount.InstructionArgs) : Cpi :=
  mkCpi program_ (acc_nonce_account accounts_) (acc_recent_blockhashes_sysvar accounts_)
    (acc_rent_sysvar accounts_) args_.

Section cpi.
Context {Hborsh : Borsh} {Hids : ProgramIds} {W : Type} (sol_invoke_signed_rust : SolInvoke W).

Definition invoke_signed_with_remaining_accounts (self : Cpi) (signers_seeds : list (list Bytes))
    (remaining_accounts : list RemainingAccount) : M W ProgramError.ProgramError unit :=
  let accounts :=
    [AccountMeta_new (info_key (nonce_account self)) false;
     AccountMeta_new_readonly (info_key (recent_blockhashes_sysvar self)) false;
     AccountMeta_new_readonly (info_key (rent_sysvar self)) false] ++
    (remaining_meta <$> remaining_accounts) in
  let? data := lift (unwrap (InitializeNonceAccount.data_to_vec InitializeNonceAccount.InstructionData_new)) in
  let? args := lift (unwrap (InitializeNonceAccount.args_to_vec (args self))) in
  let instruction := mkInstruction SYSTEM_ID accounts (data ++ args) in
  let account_infos :=
    [program self; nonce_account self; recent_blockhashes_sysvar self; rent_sysvar self] ++
    (remaining_info <$> remaining_accounts) in
  match signers_seeds with
  | [] => invoke sol_invoke_signed_rust instruction account_infos
  | _ => invoke_signed sol_invoke_signed_rust instruction account_infos signers_seeds
  end.

Definition invoke (self : Cpi) : M W ProgramError.ProgramError unit :=
  invoke_signed_with_remaining_accounts self [] [].
Definition invoke_with_remaining_accounts (self : Cpi) (remaining_accounts : list RemainingAccount)
  : M W ProgramError.ProgramError unit := invoke_signed_with_remaining_accounts self [] remaining_accounts.
Definition invoke_signed (self : Cpi) (signers_seeds : list (list Bytes))
  : M W ProgramError.ProgramError unit := invoke_signed_with_remaining_accounts self signers_seeds [].

End cpi.
End InitializeNonceAccountCpi.

Module InitializeNonceAccountCpiBuilder.

Record CpiBuilder := mkCpiBuilder {
  program : AccountInfo;
  nonce_account : option AccountInfo;
  recent_blockhashes_sysvar : option AccountInfo;
  rent_sysvar : option AccountInfo;
  nonce_authority : option Pubkey;
  remaining_accounts : list RemainingAccount;
}.

Definition new (program_ : AccountInfo) : CpiBuilder := mkCpiBuilder program_ None None None None [].
Definition set_nonce_account (nonce_account_ : AccountInfo) (self : CpiBuilder) : CpiBuilder :=
  mkCpiBuilder (program self) (Some nonce_account_) (recent_blockhashes_sysvar self) (rent_sysvar self)
    (nonce_authority self) (remaining_accounts self).
Definition set_recent_blockhashes_sysvar (recent_blockhashes_sysvar_ : AccountInfo) (self : CpiBuilder) : CpiBuilder :=
  mkCpiBuilder (program self) (nonce_account self) (Some recent_blockhashes_sysvar_) (rent_sysvar self)
    (nonce_authority self) (remaining_accounts self).
Definition set_rent_sysvar (rent_sysvar_ : AccountInfo) (self : CpiBuilder) : CpiBuilder :=
  mkCpiBuilder (program self) (nonce_account self) (recent_blockhashes_sysvar self) (Some rent_sysvar_)
    (nonce_authority self) (remaining_accounts self).
Definition set_nonce_authority (nonce_authority_ : Pubkey) (self : CpiBuilder) : CpiBuilder :=
  mkCpiBuilder (program self) (nonce_account self) (recent_blockhashes_sysvar self) (rent_sysvar self)
    (Some nonce_authority_) (remaining_accounts self).
Definition add_remaining_account (account_ : AccountInfo) (is_writable is_signer : bool)
    (self : CpiBuilder) : CpiBuilder :=
  mkCpiBuilder (program self) (nonce_account self) (recent_blockhashes_sysvar self) (rent_sysvar self)
    (nonce_authority self) (remaining_accounts self ++ [(account_, is_writable, is_signer)]).
Definition add_remaining_accounts (accounts_ : list RemainingAccount) (self : CpiBuilder) : CpiBuilder :=
  mkCpiBuilder (program self) (nonce_account self) (recent_blockhashes_sysvar self) (rent_sysvar self)
    (nonce_authority self) (remaining_accounts self ++ accounts_).

Section cpi.
Context {Hborsh : Borsh} {Hids : ProgramIds} {W : Type} (sol_invoke_signed_rust : SolInvoke W).

Definition invoke_signed (self : CpiBuilder) (signers_seeds : list (list Bytes))
  : M W ProgramError.ProgramError unit :=
  let? nonce_authority_ := lift (unwrap (nonce_authority self)) in
  let? nonce_account_ := lift (unwrap (nonce_account self)) in
  let? recent_blockhashes_sysvar_ := lift (unwrap (recent_blockhashes_sysvar self)) in
  let? rent_sysvar_ := lift (unwrap (rent_sysvar self)) in
  InitializeNonceAccountCpi.invoke_signed_with_remaining_accounts sol_invoke_signed_rust
    (InitializeNonceAccountCpi.mkCpi (program self) nonce_account_ recent_blockhashes_sysvar_ rent_sysvar_
      (InitializeNonceAccount.mkInstructionArgs nonce_authority_))
    signers_seeds (remaining_accounts self).
Definition invoke (self : CpiBuilder) : M W ProgramError.ProgramError unit := invoke_signed self [].

End cpi.
End InitializeNonceAccountCpiBuilder.

Module AuthorizeNonceAccountCpi.

Record CpiAccounts := mkCpiAccounts {
  acc_nonce_account : AccountInfo;
  acc_nonce_authority : AccountInfo;
}.
Record Cpi := mkCpi {
  program : AccountInfo;
  nonce_account : AccountInfo;
  nonce_authority : AccountInfo;
  args : AuthorizeNonceAccount.InstructionArgs;
}.

Definition new (program_ : AccountInfo) (accounts_ : CpiAccounts) (args_ : AuthorizeNonceAccount.InstructionArgs) : Cpi :=
  mkCpi program_ (acc_nonce_account accounts_) (acc_nonce_authority accounts_) args_.

Section cpi.
Context {Hborsh : Borsh} {Hids : ProgramIds} {W : Type} (sol_invoke_signed_rust : SolInvoke W).

Definition invoke_signed_with_remaining_accounts (self : Cpi) (signers_seeds : list (list Bytes))
    (remaining_accounts : list RemainingAccount) : M W ProgramError.ProgramError unit :=
  let accounts :=
    [AccountMeta_new (info_key (nonce_account self)) false;
     AccountMeta_new_readonly (info_key (nonce_authority self)) true] ++
    (remaining_meta <$> remaining_accounts) in
  let? data := lift (unwrap (AuthorizeNonceAccount.data_to_vec AuthorizeNonceAccount.InstructionData_new)) in
  let? args := lift (unwrap (AuthorizeNonceAccount.args_to_vec (args self))) in
  let instruction := mkInstruction SYSTEM_ID accounts (data ++ args) in
  let account_infos :=
    [program self; nonce_account self; nonce_authority self] ++
    (remaining_info <$> remaining_accounts) in
  match signers_seeds with
  | [] => invoke sol_invoke_signed_rust instruction account_infos
  | _ => invoke_signed sol_invoke_signed_rust instruction account_infos signers_seeds
  end.

Definition invoke (self : Cpi) : M W ProgramError.ProgramError unit :=
  invoke_signed_with_remaining_accounts self [] [].
Definition invoke_with_remaining_accounts (self : Cpi) (remaining_accounts : list RemainingAccount)
  : M W ProgramError.ProgramError unit := invoke_signed_with_remaining_accounts self [] remaining_accounts.
Definition invoke_signed (self : Cpi) (signers_seeds : list (list Bytes))
  : M W ProgramError.ProgramError unit := invoke_signed_with_remaining_accounts self signers_seeds [].

End cpi.
End AuthorizeNonceAccountCpi.

Module AuthorizeNonceAccountCpiBuilder.

Record CpiBuilder := mkCpiBuilder {
  program : AccountInfo;
  nonce_account : option AccountInfo;
  nonce_authority : option AccountInfo;
  new_nonce_authority : option Pubkey;
  remaining_accounts : list RemainingAccount;
}.

Definition new (program_ : AccountInfo) : CpiBuilder := mkCpiBuilder program_ None None None [].
Definition set_nonce_account (nonce_account_ : AccountInfo) (self : CpiBuilder) : CpiBuilder :=
  mkCpiBuilder (program self) (Some nonce_account_) (nonce_authority self) (new_nonce_authority self)
    (remaining_accounts self).
Definition set_nonce_authority (nonce_authority_ : AccountInfo) (self : CpiBuilder) : CpiBuilder :=
  mkCpiBuilder (program self) (nonce_account self) (Some nonce_authority_) (new_nonce_authority self)
    (remaining_accounts self).
Definition set_new_nonce_authority (new_nonce_authority_ : Pubkey) (self : CpiBuilder) : CpiBuilder :=
  mkCpiBuilder (program self) (nonce_account self) (nonce_authority self) (Some new_nonce_authority_)
    (remaining_accounts self).
Definition add_remaining_account (account_ : AccountInfo) (is_writable is_signer : bool)
    (self : CpiBuilder) : CpiBuilder :=
  mkCpiBuilder (program self) (nonce_account self) (nonce_authority self) (new_nonce_authority self)
    (remaining_accounts self ++ [(account_, is_writable, is_signer)]).
Definition add_remaining_accounts (accounts_ : list RemainingAccount) (self : CpiBuilder) : CpiBuilder :=
  mkCpiBuilder (program self) (nonce_account self) (nonce_authority self) (new_nonce_authority self)
    (remaining_accounts self ++ accounts_).

Section cpi.
Context {Hborsh : Borsh} {Hids : ProgramIds} {W : Type} (sol_invoke_signed_rust : SolInvoke W).

Definition invoke_signed (self : CpiBuilder) (signers_seeds : list (list Bytes))
  : M W ProgramError.ProgramError unit :=
  let? new_nonce_authority_ := lift (unwrap (new_nonce_authority self)) in
  let? nonce_account_ := lift (unwrap (nonce_account self)) in
  let? nonce_authority_ := lift (unwrap (nonce_authority self)) in
  AuthorizeNonceAccountCpi.invoke_signed_with_remaining_accounts sol_invoke_signed_rust
    (AuthorizeNonceAccountCpi.mkCpi (program self) nonce_account_ nonce_authority_
      (AuthorizeNonceAccount.mkInstructionArgs new_nonce_authority_))
    signers_seeds (remaining_accounts self).
Definition invoke (self : CpiBuilder) : M W ProgramError.ProgramError unit := invoke_signed self [].

End cpi.
End AuthorizeNonceAccountCpiBuilder.

Module AllocateCpi.

Record CpiAccounts := mkCpiAccounts { acc_new_account : AccountInfo }.
Record Cpi := mkCpi {
  program : AccountInfo;
  new_account : AccountInfo;
  args : Allocate.InstructionArgs;
}.

Definition new (program_ : AccountInfo) (accounts_ : CpiAccounts) (args_ : Allocate.InstructionArgs) : Cpi :=
  mkCpi program_ (acc_new_account accounts_) args_.

Section cpi.
Context {Hborsh : Borsh} {Hids : ProgramIds} {W : Type} (sol_invoke_signed_rust : SolInvoke W).

Definition invoke_signed_with_remaining_accounts (self : Cpi) (signers_seeds : list (list Bytes))
    (remaining_accounts : list RemainingAccount) : M W ProgramError.ProgramError unit :=
  let accounts :=
    [AccountMeta_new (info_key (new_account self)) true] ++
    (remaining_meta <$> remaining_accounts) in
  let? data := lift (unwrap (Allocate.data_to_vec Allocate.InstructionData_new)) in
  let? args := lift (unwrap (Allocate.args_to_vec (args self))) in
  let instruction := mkInstruction SYSTEM_ID accounts (data ++ args) in
  let account_infos :=
    [program self; new_account self] ++
    (remaining_info <$> remaining_accounts) in
  match signers_seeds with
  | [] => invoke sol_invoke_signed_rust instruction account_infos
  | _ => invoke_signed sol_invoke_signed_rust instruction account_infos signers_seeds
  end.

Definition invoke (self : Cpi) : M W ProgramError.ProgramError unit :=
  invoke_signed_with_remaining_accounts self [] [].
Definition invoke_with_remaining_accounts (self : Cpi) (remaining_accounts : list RemainingAccount)
  : M W ProgramError.ProgramError unit := invoke_signed_with_remaining_accounts self [] remaining_accounts.
Definition invoke_signed (self : Cpi) (signers_seeds : list (list Bytes))
  : M W ProgramError.ProgramError unit := invoke_signed_with_remaining_accounts self signers_seeds [].

End cpi.
End AllocateCpi.

Module AllocateCpiBuilder.

Record CpiBuilder := mkCpiBuilder {
  program : AccountInfo;
  new_account : option AccountInfo;
  space : option Z;
  remaining_accounts : list RemainingAccount;
}.

Definition new (program_ : AccountInfo) : CpiBuilder := mkCpiBuilder program_ None None [].
Definition set_new_account (new_account_ : AccountInfo) (self : CpiBuilder) : CpiBuilder :=
  mkCpiBuilder (program self) (Some new_account_) (space self) (remaining_accounts self).
Definition set_space (space_ : Z) (self : CpiBuilder) : CpiBuilder :=
  mkCpiBuilder (program self) (new_account self) (Some space_) (remaining_accounts self).
Definition add_remaining_account (account_ : AccountInfo) (is_writable is_signer : bool)
    (self : CpiBuilder) : CpiBuilder :=
  mkCpiBuilder (program self) (new_account self) (space self)
    (remaining_accounts self ++ [(account_, is_writable, is_signer)]).
Definition add_remaining_accounts (accounts_ : list RemainingAccount) (self : CpiBuilder) : CpiBuilder :=
  mkCpiBuilder (program self) (new_account self) (space self) (remaining_accounts self ++ accounts_).

Section cpi.
Context {Hborsh : Borsh} {Hids : ProgramIds} {W : Type} (sol_invoke_signed_rust : SolInvoke W).

Definition invoke_signed (self : CpiBuilder) (signers_seeds : list (list Bytes))
  : M W ProgramError.ProgramError unit :=
  let? space_ := lift (unwrap (space self)) in
  let? new_account_ := lift (unwrap (new_account self)) in
  AllocateCpi.invoke_signed_with_remaining_accounts sol_invoke_signed_rust
    (AllocateCpi.mkCpi (program self) new_account_ (Allocate.mkInstructionArgs space_))
    signers_seeds (remaining_accounts self).
Definition invoke (self : CpiBuilder) : M W ProgramError.ProgramError unit := invoke_signed self [].

End cpi.
End AllocateCpiBuilder.

Module AllocateWithSeedCpi.

Record CpiAccounts := mkCpiAccounts { acc_new_account : AccountInfo; acc_base_account : AccountInfo }.
Record Cpi := mkCpi {
  program : AccountInfo;
  new_account : AccountInfo;
  base_account : AccountInfo;
  args : AllocateWithSeed.InstructionArgs;
}.

Definition new (program_ : AccountInfo) (accounts_ : CpiAccounts) (args_ : AllocateWithSeed.InstructionArgs) : Cpi :=
  mkCpi program_ (acc_new_account accounts_) (acc_base_account accounts_) args_.

Section cpi.
Context {Hborsh : Borsh} {Hids : ProgramIds} {W : Type} (sol_invoke_signed_rust : SolInvoke W).

Definition invoke_signed_with_remaining_accounts (self : Cpi) (signers_seeds : list (list Bytes))
    (remaining_accounts : list RemainingAccount) : M W ProgramError.ProgramError unit :=
  let accounts :=
    [AccountMeta_new (info_key (new_account self)) false;
     AccountMeta_new_readonly (info_key (base_account self)) true] ++
    (remaining_meta <$> remaining_accounts) in
  let? data := lift (unwrap (AllocateWithSeed.data_to_vec AllocateWithSeed.InstructionData_new)) in
  let? args := lift (unwrap (AllocateWithSeed.args_to_vec (args self))) in
  let instruction := mkInstruction SYSTEM_ID accounts (data ++ args) in
  let account_infos :=
    [program self; new_account self; base_account self] ++
    (remaining_info <$> remaining_accounts) in
  match signers_seeds with
  | [] => invoke sol_invoke_signed_rust instruction account_infos
  | _ => invoke_signed sol_invoke_signed_rust instruction account_infos signers_seeds
  end.

Definition invoke (self : Cpi) : M W ProgramError.ProgramError unit :=
  invoke_signed_with_remaining_accounts self [] [].
Definition invoke_with_remaining_accounts (self : Cpi) (remaining_accounts : list RemainingAccount)
  : M W ProgramError.ProgramError unit := invoke_signed_with_remaining_accounts self [] remaining_accounts.
Definition invoke_signed (self : Cpi) (signers_seeds : list (list Bytes))
  : M W ProgramError.ProgramError unit := invoke_signed_with_remaining_accounts self signers_seeds [].

End cpi.
End AllocateWithSeedCpi.

Module AllocateWithSeedCpiBuilder.

Record CpiBuilder := mkCpiBuilder {
  program : AccountInfo;
  new_account : option AccountInfo;
  base_account : option AccountInfo;
  base : option Pubkey;
  seed : option Bytes;
  space : option Z;
  program_address : option Pubkey;
  remaining_accounts : list RemainingAccount;
}.

Definition new (program_ : AccountInfo) : CpiBuilder := mkCpiBuilder program_ None None None None None None [].
Definition set_new_account (new_account_ : AccountInfo) (self : CpiBuilder) : CpiBuilder :=
  mkCpiBuilder (program self) (Some new_account_) (base_account self) (base self) (seed self) (space self)
    (program_address self) (remaining_accounts self).
Definition set_base_account (base_account_ : AccountInfo) (self : CpiBuilder) : CpiBuilder :=
  mkCpiBuilder (program self) (new_account self) (Some base_account_) (base self) (seed self) (space self)
    (program_address self) (remaining_accounts self).
Definition set_base (base_ : Pubkey) (self : CpiBuilder) : CpiBuilder :=
  mkCpiBuilder (program self) (new_account self) (base_account self) (Some base_) (seed self) (space self)
    (program_address self) (remaining_accounts self).
Definition set_seed (seed_ : Bytes) (self : CpiBuilder) : CpiBuilder :=
  mkCpiBuilder (program self) (new_account self) (base_account self) (base self) (Some seed_) (space self)
    (program_address self) (remaining_accounts self).
Definition set_space (space_ : Z) (self : CpiBuilder) : CpiBuilder :=
  mkCpiBuilder (program self) (new_account self) (base_account self) (base self) (seed self) (Some space_)
    (program_address self) (remaining_accounts self).
Definition set_program_address (program_address_ : Pubkey) (self : CpiBuilder) : CpiBuilder :=
  mkCpiBuilder (program self) (new_account self) (base_account self) (base self) (seed self) (space self)
    (Some program_address_) (remaining_accounts self).
Definition add_remaining_account (account_ : AccountInfo) (is_writable is_signer : bool)
    (self : CpiBuilder) : CpiBuilder :=
  mkCpiBuilder (program self) (new_account self) (base_account self) (base self) (seed self) (space self)
    (program_address self) (remaining_accounts self ++ [(account_, is_writable, is_signer)]).
Definition add_remaining_accounts (accounts_ : list RemainingAccount) (self : CpiBuilder) : CpiBuilder :=
  mkCpiBuilder (program self) (new_account self) (base_account self) (base self) (seed self) (space self)
    (program_address self) (remaining_accounts self ++ accounts_).

Section cpi.
Context {Hborsh : Borsh} {Hids : ProgramIds} {W : Type} (sol_invoke_signed_rust : SolInvoke W).

Definition invoke_signed (self : CpiBuilder) (signers_seeds : list (list Bytes))
  : M W ProgramError.ProgramError unit :=
  let? base_ := lift (unwrap (base self)) in
  let? seed_ := lift (unwrap (seed self)) in
  let? space_ := lift (unwrap (space self)) in
  let? program_address_ := lift (unwrap (program_address self)) in
  let? new_account_ := lift (unwrap (new_account self)) in
  let? base_account_ := lift (unwrap (base_account self)) in
  AllocateWithSeedCpi.invoke_signed_with_remaining_accounts sol_invoke_signed_rust
    (AllocateWithSeedCpi.mkCpi (program self) new_account_ base_account_
      (AllocateWithSeed.mkInstructionArgs base_ seed_ space_ program_address_))
    signers_seeds (remaining_accounts self).
Definition invoke (self : CpiBuilder) : M W ProgramError.ProgramError unit := invoke_signed self [].

End cpi.
End AllocateWithSeedCpiBuilder.

Module AssignWithSeedCpi.

Record CpiAccounts := mkCpiAccounts { acc_account : AccountInfo; acc_base_account : AccountInfo }.
Record Cpi := mkCpi {
  program : AccountInfo;
  account : AccountInfo;
  base_account : AccountInfo;
  args : AssignWithSeed.InstructionArgs;
}.

Definition new (program_ : AccountInfo) (accounts_ : CpiAccounts) (args_ : AssignWithSeed.InstructionArgs) : Cpi :=
  mkCpi program_ (acc_account accounts_) (acc_base_account accounts_) args_.

Section cpi.
Context {Hborsh : Borsh} {Hids : ProgramIds} {W : Type} (sol_invoke_signed_rust : SolInvoke W).

Definition invoke_signed_with_remaining_accounts (self : Cpi) (signers_seeds : list (list Bytes))
    (remaining_accounts : list RemainingAccount) : M W ProgramError.ProgramError unit :=
  let accounts :=
    [AccountMeta_new (info_key (account self)) false;
     AccountMeta_new_readonly (info_key (base_account self)) true] ++
    (remaining_meta <$> remaining_accounts) in
  let? data := lift (unwrap (AssignWithSeed.data_to_vec AssignWithSeed.InstructionData_new)) in
  let? args := lift (unwrap (AssignWithSeed.args_to_vec (args self))) in
  let instruction := mkInstruction SYSTEM_ID accounts (data ++ args) in
  let account_infos :=
    [program self; account self; base_account self] ++
    (remaining_info <$> remaining_accounts) in
  match signers_seeds with
  | [] => invoke sol_invoke_signed_rust instruction account_infos
  | _ => invoke_signed sol_invoke_signed_rust instruction account_infos signers_seeds
  end.

Definition invoke (self : Cpi) : M W ProgramError.ProgramError unit :=
  invoke_signed_with_remaining_accounts self [] [].
Definition invoke_with_remaining_accounts (self : Cpi) (remaining_accounts : list RemainingAccount)
  : M W ProgramError.ProgramError unit := invoke_signed_with_remaining_accounts self [] remaining_accounts.
Definition invoke_signed (self : Cpi) (signers_seeds : list (list Bytes))
  : M W ProgramError.ProgramError unit := invoke_signed_with_remaining_accounts self signers_seeds [].

End cpi.
End AssignWithSeedCpi.

Module AssignWithSeedCpiBuilder.

Record CpiBuilder := mkCpiBuilder {
  program : AccountInfo;
  account : option AccountInfo;
  base_account : option AccountInfo;
  base : option Pubkey;
  seed : option Bytes;
  program_address : option Pubkey;
  remaining_accounts : list RemainingAccount;
}.

Definition new (program_ : AccountInfo) : CpiBuilder := mkCpiBuilder program_ None None None None None [].
Definition set_account (account_ : AccountInfo) (self : CpiBuilder) : CpiBuilder :=
  mkCpiBuilder (program self) (Some account_) (base_account self) (base self) (seed self) (program_address self)
    (remaining_accounts self).
Definition set_base_account (base_account_ : AccountInfo) (self : CpiBuilder) : CpiBuilder :=
  mkCpiBuilder (program self) (account self) (Some base_account_) (base self) (seed self) (program_address self)
    (remaining_accounts self).
Definition set_base (base_ : Pubkey) (self : CpiBuilder) : CpiBuilder :=
  mkCpiBuilder (program self) (account self) (base_account self) (Some base_) (seed self) (program_address self)
    (remaining_accounts self).
Definition set_seed (seed_ : Bytes) (self : CpiBuilder) : CpiBuilder :=
  mkCpiBuilder (program self) (account self) (base_account self) (base self) (Some seed_) (program_address self)
    (remaining_accounts self).
Definition set_program_address (program_address_ : Pubkey) (self : CpiBuilder) : CpiBuilder :=
  mkCpiBuilder (program self) (account self) (base_account self) (base self) (seed self) (Some program_address_)
    (remaining_accounts self).
Definition add_remaining_account (account_ : AccountInfo) (is_writable is_signer : bool)
    (self : CpiBuilder) : CpiBuilder :=
  mkCpiBuilder (program self) (account self) (base_account self) (base self) (seed self) (program_address self)
    (remaining_accounts self ++ [(account_, is_writable, is_signer)]).
Definition add_remaining_accounts (accounts_ : list RemainingAccount) (self : CpiBuilder) : CpiBuilder :=
  mkCpiBuilder (program self) (account self) (base_account self) (base self) (seed self) (program_address self)
    (remaining_accounts self ++ accounts_).

Section cpi.
Context {Hborsh : Borsh} {Hids : ProgramIds} {W : Type} (sol_invoke_signed_rust : SolInvoke W).

Definition invoke_signed (self : CpiBuilder) (signers_seeds : list (list Bytes))
  : M W ProgramError.ProgramError unit :=
  let? base_ := lift (unwrap (base self)) in
  let? seed_ := lift (unwrap (seed self)) in
  let? program_address_ := lift (unwrap (program_address self)) in
  let? account_ := lift (unwrap (account self)) in
  let? base_account_ := lift (unwrap (base_account self)) in
  AssignWithSeedCpi.invoke_signed_with_remaining_accounts sol_invoke_signed_rust
    (AssignWithSeedCpi.mkCpi (program self) account_ base_account_
      (AssignWithSeed.mkInstructionArgs base_ seed_ program_address_))
    signers_seeds (remaining_accounts self).
Definition invoke (self : CpiBuilder) : M W ProgramError.ProgramError unit := invoke_signed self [].

End cpi.
End AssignWithSeedCpiBuilder.

Module TransferSolWithSeedCpi.

Record CpiAccounts := mkCpiAccounts {
  acc_source : AccountInfo;
  acc_base_account : AccountInfo;
  acc_destination : AccountInfo;
}.
Record Cpi := mkCpi {
  program : AccountInfo;
  source : AccountInfo;
  base_account : AccountInfo;
  destination : AccountInfo;
  args : TransferSolWithSeed.InstructionArgs;
}.

Definition new (program_ : AccountInfo) (accounts_ : CpiAccounts) (args_ : TransferSolWithSeed.InstructionArgs) : Cpi :=
  mkCpi program_ (acc_source accounts_) (acc_base_account accounts_) (acc_destination accounts_) args_.

Section cpi.
Context {Hborsh : Borsh} {Hids : ProgramIds} {W : Type} (sol_invoke_signed_rust : SolInvoke W).

Definition invoke_signed_with_remaining_accounts (self : Cpi) (signers_seeds : list (list Bytes))
    (remaining_accounts : list RemainingAccount) : M W ProgramError.ProgramError unit :=
  let accounts :=
    [AccountMeta_new (info_key (source self)) false;
     AccountMeta_new_readonly (info_key (base_account self)) true;
     AccountMeta_new (info_key (destination self)) false] ++
    (remaining_meta <$> remaining_accounts) in
  let? data := lift (unwrap (TransferSolWithSeed.data_to_vec TransferSolWithSeed.InstructionData_new)) in
  let? args := lift (unwrap (TransferSolWithSeed.args_to_vec (args self))) in
  let instruction := mkInstruction SYSTEM_ID accounts (data ++ args) in
  let account_infos :=
    [program self; source self; base_account self; destination self] ++
    (remaining_info <$> remaining_accounts) in
  match signers_seeds with
  | [] => invoke sol_invoke_signed_rust instruction account_infos
  | _ => invoke_signed sol_invoke_signed_rust instruction account_infos signers_seeds
  end.

Definition invoke (self : Cpi) : M W ProgramError.ProgramError unit :=
  invoke_signed_with_remaining_accounts self [] [].
Definition invoke_with_remaining_accounts (self : Cpi) (remaining_accounts : list RemainingAccount)
  : M W ProgramError.ProgramError unit := invoke_signed_with_remaining_accounts self [] remaining_accounts.
Definition invoke_signed (self : Cpi) (signers_seeds : list (list Bytes))
  : M W ProgramError.ProgramError unit := invoke_signed_with_remaining_accounts self signers_seeds [].

End cpi.
End TransferSolWithSeedCpi.

Module TransferSolWithSeedCpiBuilder.

Record CpiBuilder := mkCpiBuilder {
  program : AccountInfo;
  source : option AccountInfo;
  base_account : option AccountInfo;
  destination : option AccountInfo;
  amount : option Z;
  from_seed : option Bytes;
  from_owner : option Pubkey;
  remaining_accounts : list RemainingAccount;
}.

Definition new (program_ : AccountInfo) : CpiBuilder := mkCpiBuilder program_ None None None None None None [].
Definition set_source (source_ : AccountInfo) (self : CpiBuilder) : CpiBuilder :=
  mkCpiBuilder (program self) (Some source_) (base_account self) (destination self) (amount self) (from_seed self)
    (from_owner self) (remaining_accounts self).
Definition set_base_account (base_account_ : AccountInfo) (self : CpiBuilder) : CpiBuilder :=
  mkCpiBuilder (program self) (source self) (Some base_account_) (destination self) (amount self) (from_seed self)
    (from_owner self) (remaining_accounts self).
Definition set_destination (destination_ : AccountInfo) (self : CpiBuilder) : CpiBuilder :=
  mkCpiBuilder (program self) (source self) (base_account self) (Some destination_) (amount self) (from_seed self)
    (from_owner self) (remaining_accounts self).
Definition set_amount (amount_ : Z) (self : CpiBuilder) : CpiBuilder :=
  mkCpiBuilder (program self) (source self) (base_account self) (destination self) (Some amount_) (from_seed self)
    (from_owner self) (remaining_accounts self).
Definition set_from_seed (from_seed_ : Bytes) (self : CpiBuilder) : CpiBuilder :=
  mkCpiBuilder (program self) (source self) (base_account self) (destination self) (amount self) (Some from_seed_)
    (from_owner self) (remaining_accounts self).
Definition set_from_owner (from_owner_ : Pubkey) (self : CpiBuilder) : CpiBuilder :=
  mkCpiBuilder (program self) (source self) (base_account self) (destination self) (amount self) (from_seed self)
    (Some from_owner_) (remaining_accounts self).
Definition add_remaining_account (account_ : AccountInfo) (is_writable is_signer : bool)
    (self : CpiBuilder) : CpiBuilder :=
  mkCpiBuilder (program self) (source self) (base_account self) (destination self) (amount self) (from_seed self)
    (from_owner self) (remaining_accounts self ++ [(account_, is_writable, is_signer)]).
Definition add_remaining_accounts (accounts_ : list RemainingAccount) (self : CpiBuilder) : CpiBuilder :=
  mkCpiBuilder (program self) (source self) (base_account self) (destination self) (amount self) (from_seed self)
    (from_owner self) (remaining_accounts self ++ accounts_).

Section cpi.
Context {Hborsh : Borsh} {Hids : ProgramIds} {W : Type} (sol_invoke_signed_rust : SolInvoke W).

Definition invoke_signed (self : CpiBuilder) (signers_seeds : list (list Bytes))
  : M W ProgramError.ProgramError unit :=
  let? amount_ := lift (unwrap (amount self)) in
  let? from_seed_ := lift (unwrap (from_seed self)) in
  let? from_owner_ := lift (unwrap (from_owner self)) in
  let? source_ := lift (unwrap (source self)) in
  let? base_account_ := lift (unwrap (base_account self)) in
  let? destination_ := lift (unwrap (destination self)) in
  TransferSolWithSeedCpi.invoke_signed_with_remaining_accounts sol_invoke_signed_rust
    (TransferSolWithSeedCpi.mkCpi (program self) source_ base_account_ destination_
      (TransferSolWithSeed.mkInstructionArgs amount_ from_seed_ from_owner_))
    signers_seeds (remaining_accounts self).
Definition invoke (self : CpiBuilder) : M W ProgramError.ProgramError unit := invoke_signed self [].

End cpi.
End TransferSolWithSeedCpiBuilder.

Module UpgradeNonceAccountCpi.

Record CpiAccounts := mkCpiAccounts { acc_nonce_account : AccountInfo }.
Record Cpi := mkCpi { program : AccountInfo; nonce_account : AccountInfo }.

Definition new (program_ : AccountInfo) (accounts_ : CpiAccounts) : Cpi :=
  mkCpi program_ (acc_nonce_account accounts_).

Section cpi.
Context {Hborsh : Borsh} {Hids : ProgramIds} {W : Type} (sol_invoke_signed_rust : SolInvoke W).

Definition invoke_signed_with_remaining_accounts (self : Cpi) (signers_seeds : list (list Bytes))
    (remaining_accounts : list RemainingAccount) : M W ProgramError.ProgramError unit :=
  let accounts :=
    [AccountMeta_new (info_key (nonce_account self)) false] ++
    (remaining_meta <$> remaining_accounts) in
  let? data := lift (unwrap (UpgradeNonceAccount.data_to_vec UpgradeNonceAccount.InstructionData_new)) in
  let instruction := mkInstruction SYSTEM_ID accounts data in
  let account_infos :=
    [program self; nonce_account self] ++
    (remaining_info <$> remaining_accounts) in
  match signers_seeds with
  | [] => invoke sol_invoke_signed_rust instruction account_infos
  | _ => invoke_signed sol_invoke_signed_rust instruction account_infos signers_seeds
  end.

Definition invoke (self : Cpi) : M W ProgramError.ProgramError unit :=
  invoke_signed_with_remaining_accounts self [] [].
Definition invoke_with_remaining_accounts (self : Cpi) (remaining_accounts : list RemainingAccount)
  : M W ProgramError.ProgramError unit := invoke_signed_with_remaining_accounts self [] remaining_accounts.
Definition invoke_signed (self : Cpi) (signers_seeds : list (list Bytes))
  : M W ProgramError.ProgramError unit := invoke_signed_with_remaining_accounts self signers_seeds [].

End cpi.
End UpgradeNonceAccountCpi.

Module UpgradeNonceAccountCpiBuilder.

Record CpiBuilder := mkCpiBuilder {
  program : AccountInfo;
  nonce_account : option AccountInfo;
  remaining_accounts : list RemainingAccount;
}.

Definition new (program_ : AccountInfo) : CpiBuilder := mkCpiBuilder program_ None [].
Definition set_nonce_account (nonce_account_ : AccountInfo) (self : CpiBuilder) : CpiBuilder :=
  mkCpiBuilder (program self) (Some nonce_account_) (remaining_accounts self).
Definition add_remaining_account (account_ : AccountInfo) (is_writable is_signer : bool)
    (self : CpiBuilder) : CpiBuilder :=
  mkCpiBuilder (program self) (nonce_account self)
    (remaining_accounts self ++ [(account_, is_writable, is_signer)]).
Definition add_remaining_accounts (accounts_ : list RemainingAccount) (self : CpiBuilder) : CpiBuilder :=
  mkCpiBuilder (program self) (nonce_account self) (remaining_accounts self ++ accounts_).

Section cpi.
Context {Hborsh : Borsh} {Hids : ProgramIds} {W : Type} (sol_invoke_signed_rust : SolInvoke W).

Definition invoke_signed (self : CpiBuilder) (signers_seeds : list (list Bytes))
  : M W ProgramError.ProgramError unit :=
  let? nonce_account_ := lift (unwrap (nonce_account self)) in
  UpgradeNonceAccountCpi.invoke_signed_with_remaining_accounts sol_invoke_signed_rust
    (UpgradeNonceAccountCpi.mkCpi (program self) nonce_account_)
    signers_seeds (remaining_accounts self).
Definition invoke (self : CpiBuilder) : M W ProgramError.ProgramError unit := invoke_signed self [].

End cpi.
End UpgradeNonceAccountCpiBuilder.
