(* ===== verification/ClientRules.v ===== *)
(** * What the Rust client sends

    The client, the SDK and the program on chain are three pieces of code that
    have to agree on thirteen instructions.  A [Request] is one of them with its
    accounts and arguments.  The client makes of it the instruction that the SDK
    makes, and the program decodes what was asked; a builder makes the same
    instruction, and a cross-program call passes it on with the accounts.  The
    flags of additional accounts of a call are not passed on as documented. *)

From S2P Require Import Prelude Errors Rent Account Pubkey Sysvars Nonce TransactionContext SysvarCache FeatureSet SystemProgram InvokeContext Message SystemInstructions Client ClientCpi.

(** ** Requests *)

Definition option_list {A} (o : option A) : list A := match o with Some a => [a] | None => [] end.

(** [builder.a(..).b(..)] *)
Definition set_fields {B} (b : B) (setters : list (B -> B)) : B := foldl (fun b f => f b) b setters.

Inductive Request (K : Type) : Type :=
| RequestCreateAccount (payer new_account : K) (args : CreateAccount.InstructionArgs)
| RequestAssign (account : K) (args : Assign.InstructionArgs)
| RequestTransferSol (source destination : K) (args : TransferSol.InstructionArgs)
| RequestCreateAccountWithSeed (payer new_account : K) (base_account : option K) (args : CreateAccountWithSeed.InstructionArgs)
| RequestAdvanceNonceAccount (nonce_account recent_blockhashes_sysvar nonce_authority : K)
| RequestWithdrawNonceAccount (nonce_account recipient_account recent_blockhashes_sysvar rent_sysvar nonce_authority : K) (args : WithdrawNonceAccount.InstructionArgs)
| RequestInitializeNonceAccount (nonce_account recent_blockhashes_sysvar rent_sysvar : K) (args : InitializeNonceAccount.InstructionArgs)
| RequestAuthorizeNonceAccount (nonce_account nonce_authority : K) (args : AuthorizeNonceAccount.InstructionArgs)
| RequestAllocate (new_account : K) (args : Allocate.InstructionArgs)
| RequestAllocateWithSeed (new_account base_account : K) (args : AllocateWithSeed.InstructionArgs)
| RequestAssignWithSeed (account base_account : K) (args : AssignWithSeed.InstructionArgs)
| RequestTransferSolWithSeed (source base_account destination : K) (args : TransferSolWithSeed.InstructionArgs)
| RequestUpgradeNonceAccount (nonce_account : K).
Arguments RequestCreateAccount {K}.
Arguments RequestAssign {K}.
Arguments RequestTransferSol {K}.
Arguments RequestCreateAccountWithSeed {K}.
Arguments RequestAdvanceNonceAccount {K}.
Arguments RequestWithdrawNonceAccount {K}.
Arguments RequestInitializeNonceAccount {K}.
Arguments RequestAuthorizeNonceAccount {K}.
Arguments RequestAllocate {K}.
Arguments RequestAllocateWithSeed {K}.
Arguments RequestAssignWithSeed {K}.
Arguments RequestTransferSolWithSeed {K}.
Arguments RequestUpgradeNonceAccount {K}.

(** The same request for accounts given otherwise. *)
Definition request_map {K L} (f : K -> L) (r : Request K) : Request L :=
  match r with
  | RequestCreateAccount payer new_account args =>
      RequestCreateAccount (f payer) (f new_account) args
  | RequestAssign account args =>
      RequestAssign (f account) args
  | RequestTransferSol source destination args =>
      RequestTransferSol (f source) (f destination) args
  | RequestCreateAccountWithSeed payer new_account base_account args =>
      RequestCreateAccountWithSeed (f payer) (f new_account) (f <$> base_account) args
  | RequestAdvanceNonceAccount nonce_account recent_blockhashes_sysvar nonce_authority =>
      RequestAdvanceNonceAccount (f nonce_account) (f recent_blockhashes_sysvar) (f nonce_authority)
  | RequestWithdrawNonceAccount nonce_account recipient_account recent_blockhashes_sysvar rent_sysvar nonce_authority args =>
      RequestWithdrawNonceAccount (f nonce_account) (f recipient_account) (f recent_blockhashes_sysvar) (f rent_sysvar) (f nonce_authority) args
  | RequestInitializeNonceAccount nonce_account recent_blockhashes_sysvar rent_sysvar args =>
      RequestInitializeNonceAccount (f nonce_account) (f recent_blockhashes_sysvar) (f rent_sysvar) args
  | RequestAuthorizeNonceAccount nonce_account nonce_authority args =>
      RequestAuthorizeNonceAccount (f nonce_account) (f nonce_authority) args
  | RequestAllocate new_account args =>
      RequestAllocate (f new_account) args
  | RequestAllocateWithSeed new_account base_account args =>
      RequestAllocateWithSeed (f new_account) (f base_account) args
  | RequestAssignWithSeed account base_account args =>
      RequestAssignWithSeed (f account) (f base_account) args
  | RequestTransferSolWithSeed source base_account destination args =>
      RequestTransferSolWithSeed (f source) (f base_account) (f destination) args
  | RequestUpgradeNonceAccount nonce_account =>
      RequestUpgradeNonceAccount (f nonce_account)
  end.

(** The accounts, in the order of the instruction. *)
Definition request_accounts {K} (r : Request K) : list K :=
  match r with
  | RequestCreateAccount payer new_account _ => [payer; new_account]
  | RequestAssign account _ => [account]
  | RequestTransferSol source destination _ => [source; destination]
  | RequestCreateAccountWithSeed payer new_account base_account _ => [payer; new_account] ++ option_list base_account
  | RequestAdvanceNonceAccount nonce_account recent_blockhashes_sysvar nonce_authority => [nonce_account; recent_blockhashes_sysvar; nonce_authority]
  | RequestWithdrawNonceAccount nonce_account recipient_account recent_blockhashes_sysvar rent_sysvar nonce_authority _ => [nonce_account; recipient_account; recent_blockhashes_sysvar; rent_sysvar; nonce_authority]
  | RequestInitializeNonceAccount nonce_account recent_blockhashes_sysvar rent_sysvar _ => [nonce_account; recent_blockhashes_sysvar; rent_sysvar]
  | RequestAuthorizeNonceAccount nonce_account nonce_authority _ => [nonce_account; nonce_authority]
  | RequestAllocate new_account _ => [new_account]
  | RequestAllocateWithSeed new_account base_account _ => [new_account; base_account]
  | RequestAssignWithSeed account base_account _ => [account; base_account]
  | RequestTransferSolWithSeed source base_account destination _ => [source; base_account; destination]
  | RequestUpgradeNonceAccount nonce_account => [nonce_account]
  end.

(** ** Through the client *)

Section client.
Context {Hborsh : Borsh} {Hids : ProgramIds}.

Definition client_instruction (r : Request Pubkey) (remaining : list AccountMeta)
  : Outcome Empty_set Instruction :=
  match r with
  | RequestCreateAccount payer new_account args =>
      CreateAccount.instruction_with_remaining_accounts
        (CreateAccount.mkAccounts payer new_account) args remaining
  | RequestAssign account args =>
      Assign.instruction_with_remaining_accounts
        (Assign.mkAccounts account) args remaining
  | RequestTransferSol source destination args =>
      TransferSol.instruction_with_remaining_accounts
        (TransferSol.mkAccounts source destination) args remaining
  | RequestCreateAccountWithSeed payer new_account base_account args =>
      CreateAccountWithSeed.instruction_with_remaining_accounts
        (CreateAccountWithSeed.mkAccounts payer new_account base_account) args remaining
  | RequestAdvanceNonceAccount nonce_account recent_blockhashes_sysvar nonce_authority =>
      AdvanceNonceAccount.instruction_with_remaining_accounts
        (AdvanceNonceAccount.mkAccounts nonce_account recent_blockhashes_sysvar nonce_authority) remaining
  | RequestWithdrawNonceAccount nonce_account recipient_account recent_blockhashes_sysvar rent_sysvar nonce_authority args =>
      WithdrawNonceAccount.instruction_with_remaining_accounts
        (WithdrawNonceAccount.mkAccounts nonce_account recipient_account recent_blockhashes_sysvar rent_sysvar nonce_authority) args remaining
  | RequestInitializeNonceAccount nonce_account recent_blockhashes_sysvar rent_sysvar args =>
      InitializeNonceAccount.instruction_with_remaining_accounts
        (InitializeNonceAccount.mkAccounts nonce_account recent_blockhashes_sysvar rent_sysvar) args remaining
  | RequestAuthorizeNonceAccount nonce_account nonce_authority args =>
      AuthorizeNonceAccount.instruction_with_remaining_accounts
        (AuthorizeNonceAccount.mkAccounts nonce_account nonce_authority) args remaining
  | RequestAllocate new_account args =>
      Allocate.instruction_with_remaining_accounts
        (Allocate.mkAccounts new_account) args remaining
  | RequestAllocateWithSeed new_account base_account args =>
      AllocateWithSeed.instruction_with_remaining_accounts
        (AllocateWithSeed.mkAccounts new_account base_account) args remaining
  | RequestAssignWithSeed account base_account args =>
      AssignWithSeed.instruction_with_remaining_accounts
        (AssignWithSeed.mkAccounts account base_account) args remaining
  | RequestTransferSolWithSeed source base_account destination args =>
      TransferSolWithSeed.instruction_with_remaining_accounts
        (TransferSolWithSeed.mkAccounts source base_account destination) args remaining
  | RequestUpgradeNonceAccount nonce_account =>
      UpgradeNonceAccount.instruction_with_remaining_accounts
        (UpgradeNonceAccount.mkAccounts nonce_account) remaining
  end.

(** All fields set, one after the other. *)
Definition client_builder (r : Request Pubkey) (remaining : list AccountMeta)
  : Outcome Empty_set Instruction :=
  match r with
  | RequestCreateAccount payer new_account args =>
      CreateAccountBuilder.instruction (set_fields CreateAccountBuilder.new
        [CreateAccountBuilder.set_payer payer; CreateAccountBuilder.set_new_account new_account;
         CreateAccountBuilder.set_lamports (CreateAccount.lamports args);
         CreateAccountBuilder.set_space (CreateAccount.space args);
         CreateAccountBuilder.set_program_address (CreateAccount.program_address args);
         CreateAccountBuilder.add_remaining_accounts remaining])
  | RequestAssign account args =>
      AssignBuilder.instruction (set_fields AssignBuilder.new
        [AssignBuilder.set_account account;
         AssignBuilder.set_program_address (Assign.program_address args);
         AssignBuilder.add_remaining_accounts remaining])
  | RequestTransferSol source destination args =>
      TransferSolBuilder.instruction (set_fields TransferSolBuilder.new
        [TransferSolBuilder.set_source source; TransferSolBuilder.set_destination destination;
         TransferSolBuilder.set_amount (TransferSol.amount args);
         TransferSolBuilder.add_remaining_accounts remaining])
  | RequestCreateAccountWithSeed payer new_account base_account args =>
      CreateAccountWithSeedBuilder.instruction (set_fields CreateAccountWithSeedBuilder.new
        [CreateAccountWithSeedBuilder.set_payer payer;
         CreateAccountWithSeedBuilder.set_new_account new_account;
         CreateAccountWithSeedBuilder.set_base_account base_account;
         CreateAccountWithSeedBuilder.set_base (CreateAccountWithSeed.base args);
         CreateAccountWithSeedBuilder.set_seed (CreateAccountWithSeed.seed args);
         CreateAccountWithSeedBuilder.set_amount (CreateAccountWithSeed.amount args);
         CreateAccountWithSeedBuilder.set_space (CreateAccountWithSeed.space args);
         CreateAccountWithSeedBuilder.set_program_address (CreateAccountWithSeed.program_address args);
         CreateAccountWithSeedBuilder.add_remaining_accounts remaining])
  | RequestAdvanceNonceAccount nonce_account recent_blockhashes_sysvar nonce_authority =>
      AdvanceNonceAccountBuilder.instruction (set_fields AdvanceNonceAccountBuilder.new
        [AdvanceNonceAccountBuilder.set_nonce_account nonce_account;
         AdvanceNonceAccountBuilder.set_recent_blockhashes_sysvar recent_blockhashes_sysvar;
         AdvanceNonceAccountBuilder.set_nonce_authority nonce_authority;
         AdvanceNonceAccountBuilder.add_remaining_accounts remaining])
  | RequestWithdrawNonceAccount nonce_account recipient_account recent_blockhashes_sysvar rent_sysvar nonce_authority args =>
      WithdrawNonceAccountBuilder.instruction (set_fields WithdrawNonceAccountBuilder.new
        [WithdrawNonceAccountBuilder.set_nonce_account nonce_account;
         WithdrawNonceAccountBuilder.set_recipient_account recipient_account;
         WithdrawNonceAccountBuilder.set_recent_blockhashes_sysvar recent_blockhashes_sysvar;
         WithdrawNonceAccountBuilder.set_rent_sysvar rent_sysvar;
         WithdrawNonceAccountBuilder.set_nonce_authority nonce_authority;
         WithdrawNonceAccountBuilder.set_withdraw_amount (WithdrawNonceAccount.withdraw_amount args);
         WithdrawNonceAccountBuilder.add_remaining_accounts remaining])
  | RequestInitializeNonceAccount nonce_account recent_blockhashes_sysvar rent_sysvar args =>
      InitializeNonceAccountBuilder.instruction (set_fields InitializeNonceAccountBuilder.new
        [InitializeNonceAccountBuilder.set_nonce_account nonce_account;
         InitializeNonceAccountBuilder.set_recent_blockhashes_sysvar recent_blockhashes_sysvar;
         InitializeNonceAccountBuilder.set_rent_sysvar rent_sysvar;
         InitializeNonceAccountBuilder.set_nonce_authority (InitializeNonceAccount.nonce_authority args);
         InitializeNonceAccountBuilder.add_remaining_accounts remaining])
  | RequestAuthorizeNonceAccount nonce_account nonce_authority args =>
      AuthorizeNonceAccountBuilder.instruction (set_fields AuthorizeNonceAccountBuilder.new
        [AuthorizeNonceAccountBuilder.set_nonce_account nonce_account;
         AuthorizeNonceAccountBuilder.set_nonce_authority nonce_authority;
         AuthorizeNonceAccountBuilder.set_new_nonce_authority (AuthorizeNonceAccount.new_nonce_authority args);
         AuthorizeNonceAccountBuilder.add_remaining_accounts remaining])
  | RequestAllocate new_account args =>
      AllocateBuilder.instruction (set_fields AllocateBuilder.new
        [AllocateBuilder.set_new_account new_account; AllocateBuilder.set_space (Allocate.space args);
         AllocateBuilder.add_remaining_accounts remaining])
  | RequestAllocateWithSeed new_account base_account args =>
      AllocateWithSeedBuilder.instruction (set_fields AllocateWithSeedBuilder.new
        [AllocateWithSeedBuilder.set_new_account new_account;
         AllocateWithSeedBuilder.set_base_account base_account;
         AllocateWithSeedBuilder.set_base (AllocateWithSeed.base args);
         AllocateWithSeedBuilder.set_seed (AllocateWithSeed.seed args);
         AllocateWithSeedBuilder.set_space (AllocateWithSeed.space args);
         AllocateWithSeedBuilder.set_program_address (AllocateWithSeed.program_address args);
         AllocateWithSeedBuilder.add_remaining_accounts remaining])
  | RequestAssignWithSeed account base_account args =>
      AssignWithSeedBuilder.instruction (set_fields AssignWithSeedBuilder.new
        [AssignWithSeedBuilder.set_account account; AssignWithSeedBuilder.set_base_account base_account;
         AssignWithSeedBuilder.set_base (AssignWithSeed.base args);
         AssignWithSeedBuilder.set_seed (AssignWithSeed.seed args);
         AssignWithSeedBuilder.set_program_address (AssignWithSeed.program_address args);
         AssignWithSeedBuilder.add_remaining_accounts remaining])
  | RequestTransferSolWithSeed source base_account destination args =>
      TransferSolWithSeedBuilder.instruction (set_fields TransferSolWithSeedBuilder.new
        [TransferSolWithSeedBuilder.set_source source;
         TransferSolWithSeedBuilder.set_base_account base_account;
         TransferSolWithSeedBuilder.set_destination destination;
         TransferSolWithSeedBuilder.set_amount (TransferSolWithSeed.amount args);
         TransferSolWithSeedBuilder.set_from_seed (TransferSolWithSeed.from_seed args);
         TransferSolWithSeedBuilder.set_from_owner (TransferSolWithSeed.from_owner args);
         TransferSolWithSeedBuilder.add_remaining_accounts remaining])
  | RequestUpgradeNonceAccount nonce_account =>
      UpgradeNonceAccountBuilder.instruction (set_fields UpgradeNonceAccountBuilder.new
        [UpgradeNonceAccountBuilder.set_nonce_account nonce_account;
         UpgradeNonceAccountBuilder.add_remaining_accounts remaining])
  end.

Context {W : Type} (sol_invoke_signed_rust : SolInvoke W).

Definition client_cpi (program : AccountInfo) (r : Request AccountInfo) (seeds : list (list Bytes))
    (remaining : list RemainingAccount) : M W ProgramError.ProgramError unit :=
  match r with
  | RequestCreateAccount payer new_account args =>
      CreateAccountCpi.invoke_signed_with_remaining_accounts sol_invoke_signed_rust
        (CreateAccountCpi.mkCpi program payer new_account args) seeds remaining
  | RequestAssign account args =>
      AssignCpi.invoke_signed_with_remaining_accounts sol_invoke_signed_rust
        (AssignCpi.mkCpi program account args) seeds remaining
  | RequestTransferSol source destination args =>
      TransferSolCpi.invoke_signed_with_remaining_accounts sol_invoke_signed_rust
        (TransferSolCpi.mkCpi program source destination args) seeds remaining
  | RequestCreateAccountWithSeed payer new_account base_account args =>
      CreateAccountWithSeedCpi.invoke_signed_with_remaining_accounts sol_invoke_signed_rust
        (CreateAccountWithSeedCpi.mkCpi program payer new_account base_account args) seeds remaining
  | RequestAdvanceNonceAccount nonce_account recent_blockhashes_sysvar nonce_authority =>
      AdvanceNonceAccountCpi.invoke_signed_with_remaining_accounts sol_invoke_signed_rust
        (AdvanceNonceAccountCpi.mkCpi program nonce_account recent_blockhashes_sysvar nonce_authority) seeds remaining
  | RequestWithdrawNonceAccount nonce_account recipient_account recent_blockhashes_sysvar rent_sysvar nonce_authority args =>
      WithdrawNonceAccountCpi.invoke_signed_with_remaining_accounts sol_invoke_signed_rust
        (WithdrawNonceAccountCpi.mkCpi program nonce_account recipient_account recent_blockhashes_sysvar rent_sysvar nonce_authority args) seeds remaining
  | RequestInitializeNonceAccount nonce_account recent_blockhashes_sysvar rent_sysvar args =>
      InitializeNonceAccountCpi.invoke_signed_with_remaining_accounts sol_invoke_signed_rust
        (InitializeNonceAccountCpi.mkCpi program nonce_account recent_blockhashes_sysvar rent_sysvar args) seeds remaining
  | RequestAuthorizeNonceAccount nonce_account nonce_authority args =>
      AuthorizeNonceAccountCpi.invoke_signed_with_remaining_accounts sol_invoke_signed_rust
        (AuthorizeNonceAccountCpi.mkCpi program nonce_account nonce_authority args) seeds remaining
  | RequestAllocate new_account args =>
      AllocateCpi.invoke_signed_with_remaining_accounts sol_invoke_signed_rust
        (AllocateCpi.mkCpi program new_account args) seeds remaining
  | RequestAllocateWithSeed new_account base_account args =>
      AllocateWithSeedCpi.invoke_signed_with_remaining_accounts sol_invoke_signed_rust
        (AllocateWithSeedCpi.mkCpi program new_account base_account args) seeds remaining
  | RequestAssignWithSeed account base_account args =>
      AssignWithSeedCpi.invoke_signed_with_remaining_accounts sol_invoke_signed_rust
        (AssignWithSeedCpi.mkCpi program account base_account args) seeds remaining
  | RequestTransferSolWithSeed source base_account destination args =>
      TransferSolWithSeedCpi.invoke_signed_with_remaining_accounts sol_invoke_signed_rust
        (TransferSolWithSeedCpi.mkCpi program source base_account destination args) seeds remaining
  | RequestUpgradeNonceAccount nonce_account =>
      UpgradeNonceAccountCpi.invoke_signed_with_remaining_accounts sol_invoke_signed_rust
        (UpgradeNonceAccountCpi.mkCpi program nonce_account) seeds remaining
  end.

Definition client_cpi_builder (program : AccountInfo) (r : Request AccountInfo) (seeds : list (list Bytes))
    (remaining : list RemainingAccount) : M W ProgramError.ProgramError unit :=
  match r with
  | RequestCreateAccount payer new_account args =>
      CreateAccountCpiBuilder.invoke_signed sol_invoke_signed_rust (set_fields (CreateAccountCpiBuilder.new program)
        [CreateAccountCpiBuilder.set_payer payer; CreateAccountCpiBuilder.set_new_account new_account;
         CreateAccountCpiBuilder.set_lamports (CreateAccount.lamports args);
         CreateAccountCpiBuilder.set_space (CreateAccount.space args);
         CreateAccountCpiBuilder.set_program_address (CreateAccount.program_address args);
         CreateAccountCpiBuilder.add_remaining_accounts remaining]) seeds
  | RequestAssign account args =>
      AssignCpiBuilder.invoke_signed sol_invoke_signed_rust (set_fields (AssignCpiBuilder.new program)
        [AssignCpiBuilder.set_account account;
         AssignCpiBuilder.set_program_address (Assign.program_address args);
         AssignCpiBuilder.add_remaining_accounts remaining]) seeds
  | RequestTransferSol source destination args =>
      TransferSolCpiBuilder.invoke_signed sol_invoke_signed_rust (set_fields (TransferSolCpiBuilder.new program)
        [TransferSolCpiBuilder.set_source source; TransferSolCpiBuilder.set_destination destination;
         TransferSolCpiBuilder.set_amount (TransferSol.amount args);
         TransferSolCpiBuilder.add_remaining_accounts remaining]) seeds
  | RequestCreateAccountWithSeed payer new_account base_account args =>
      CreateAccountWithSeedCpiBuilder.invoke_signed sol_invoke_signed_rust (set_fields (CreateAccountWithSeedCpiBuilder.new program)
        [CreateAccountWithSeedCpiBuilder.set_payer payer;
         CreateAccountWithSeedCpiBuilder.set_new_account new_account;
         CreateAccountWithSeedCpiBuilder.set_base_account base_account;
         CreateAccountWithSeedCpiBuilder.set_base (CreateAccountWithSeed.base args);
         CreateAccountWithSeedCpiBuilder.set_seed (CreateAccountWithSeed.seed args);
         CreateAccountWithSeedCpiBuilder.set_amount (CreateAccountWithSeed.amount args);
         CreateAccountWithSeedCpiBuilder.set_space (CreateAccountWithSeed.space args);
         CreateAccountWithSeedCpiBuilder.set_program_address (CreateAccountWithSeed.program_address args);
         CreateAccountWithSeedCpiBuilder.add_remaining_accounts remaining]) seeds
  | RequestAdvanceNonceAccount nonce_account recent_blockhashes_sysvar nonce_authority =>
      AdvanceNonceAccountCpiBuilder.invoke_signed sol_invoke_signed_rust (set_fields (AdvanceNonceAccountCpiBuilder.new program)
        [AdvanceNonceAccountCpiBuilder.set_nonce_account nonce_account;
         AdvanceNonceAccountCpiBuilder.set_recent_blockhashes_sysvar recent_blockhashes_sysvar;
         AdvanceNonceAccountCpiBuilder.set_nonce_authority nonce_authority;
         AdvanceNonceAccountCpiBuilder.add_remaining_accounts remaining]) seeds
  | RequestWithdrawNonceAccount nonce_account recipient_account recent_blockhashes_sysvar rent_sysvar nonce_authority args =>
      WithdrawNonceAccountCpiBuilder.invoke_signed sol_invoke_signed_rust (set_fields (WithdrawNonceAccountCpiBuilder.new program)
        [WithdrawNonceAccountCpiBuilder.set_nonce_account nonce_account;
         WithdrawNonceAccountCpiBuilder.set_recipient_account recipient_account;
         WithdrawNonceAccountCpiBuilder.set_recent_blockhashes_sysvar recent_blockhashes_sysvar;
         WithdrawNonceAccountCpiBuilder.set_rent_sysvar rent_sysvar;
         WithdrawNonceAccountCpiBuilder.set_nonce_authority nonce_authority;
         WithdrawNonceAccountCpiBuilder.set_withdraw_amount (WithdrawNonceAccount.withdraw_amount args);
         WithdrawNonceAccountCpiBuilder.add_remaining_accounts remaining]) seeds
  | RequestInitializeNonceAccount nonce_account recent_blockhashes_sysvar rent_sysvar args =>
      InitializeNonceAccountCpiBuilder.invoke_signed sol_invoke_signed_rust (set_fields (InitializeNonceAccountCpiBuilder.new program)
        [InitializeNonceAccountCpiBuilder.set_nonce_account nonce_account;
         InitializeNonceAccountCpiBuilder.set_recent_blockhashes_sysvar recent_blockhashes_sysvar;
         InitializeNonceAccountCpiBuilder.set_rent_sysvar rent_sysvar;
         InitializeNonceAccountCpiBuilder.set_nonce_authority (InitializeNonceAccount.nonce_authority args);
         InitializeNonceAccountCpiBuilder.add_remaining_accounts remaining]) seeds
  | RequestAuthorizeNonceAccount nonce_account nonce_authority args =>
      AuthorizeNonceAccountCpiBuilder.invoke_signed sol_invoke_signed_rust (set_fields (AuthorizeNonceAccountCpiBuilder.new program)
        [AuthorizeNonceAccountCpiBuilder.set_nonce_account nonce_account;
         AuthorizeNonceAccountCpiBuilder.set_nonce_authority nonce_authority;
         AuthorizeNonceAccountCpiBuilder.set_new_nonce_authority (AuthorizeNonceAccount.new_nonce_authority args);
         AuthorizeNonceAccountCpiBuilder.add_remaining_accounts remaining]) seeds
  | RequestAllocate new_account args =>
      AllocateCpiBuilder.invoke_signed sol_invoke_signed_rust (set_fields (AllocateCpiBuilder.new program)
        [AllocateCpiBuilder.set_new_account new_account;
         AllocateCpiBuilder.set_space (Allocate.space args);
         AllocateCpiBuilder.add_remaining_accounts remaining]) seeds
  | RequestAllocateWithSeed new_account base_account args =>
      AllocateWithSeedCpiBuilder.invoke_signed sol_invoke_signed_rust (set_fields (AllocateWithSeedCpiBuilder.new program)
        [AllocateWithSeedCpiBuilder.set_new_account new_account;
         AllocateWithSeedCpiBuilder.set_base_account base_account;
         AllocateWithSeedCpiBuilder.set_base (AllocateWithSeed.base args);
         AllocateWithSeedCpiBuilder.set_seed (AllocateWithSeed.seed args);
         AllocateWithSeedCpiBuilder.set_space (AllocateWithSeed.space args);
         AllocateWithSeedCpiBuilder.set_program_address (AllocateWithSeed.program_address args);
         AllocateWithSeedCpiBuilder.add_remaining_accounts remaining]) seeds
  | RequestAssignWithSeed account base_account args =>
      AssignWithSeedCpiBuilder.invoke_signed sol_invoke_signed_rust (set_fields (AssignWithSeedCpiBuilder.new program)
        [AssignWithSeedCpiBuilder.set_account account;
         AssignWithSeedCpiBuilder.set_base_account base_account;
         AssignWithSeedCpiBuilder.set_base (AssignWithSeed.base args);
         AssignWithSeedCpiBuilder.set_seed (AssignWithSeed.seed args);
         AssignWithSeedCpiBuilder.set_program_address (AssignWithSeed.program_address args);
         AssignWithSeedCpiBuilder.add_remaining_accounts remaining]) seeds
  | RequestTransferSolWithSeed source base_account destination args =>
      TransferSolWithSeedCpiBuilder.invoke_signed sol_invoke_signed_rust (set_fields (TransferSolWithSeedCpiBuilder.new program)
        [TransferSolWithSeedCpiBuilder.set_source source;
         TransferSolWithSeedCpiBuilder.set_base_account base_account;
         TransferSolWithSeedCpiBuilder.set_destination destination;
         TransferSolWithSeedCpiBuilder.set_amount (TransferSolWithSeed.amount args);
         TransferSolWithSeedCpiBuilder.set_from_seed (TransferSolWithSeed.from_seed args);
         TransferSolWithSeedCpiBuilder.set_from_owner (TransferSolWithSeed.from_owner args);
         TransferSolWithSeedCpiBuilder.add_remaining_accounts remaining]) seeds
  | RequestUpgradeNonceAccount nonce_account =>
      UpgradeNonceAccountCpiBuilder.invoke_signed sol_invoke_signed_rust (set_fields (UpgradeNonceAccountCpiBuilder.new program)
        [UpgradeNonceAccountCpiBuilder.set_nonce_account nonce_account;
         UpgradeNonceAccountCpiBuilder.add_remaining_accounts remaining]) seeds
  end.

End client.
(** ** Through the SDK *)

Section sdk.
Context {Hids : ProgramIds} {Hbincode : Bincode SystemInstruction}.

(** The instruction that is asked for. *)
Definition request_instruction {K} (r : Request K) : SystemInstruction :=
  match r with
  | RequestCreateAccount _ _ (CreateAccount.mkInstructionArgs lamports space owner) =>
      CreateAccount lamports space owner
  | RequestAssign _ (Assign.mkInstructionArgs owner) => Assign owner
  | RequestTransferSol _ _ (TransferSol.mkInstructionArgs lamports) => Transfer lamports
  | RequestCreateAccountWithSeed _ _ _ (CreateAccountWithSeed.mkInstructionArgs base seed lamports space owner) =>
      CreateAccountWithSeed base seed lamports space owner
  | RequestAdvanceNonceAccount _ _ _ => AdvanceNonceAccount
  | RequestWithdrawNonceAccount _ _ _ _ _ (WithdrawNonceAccount.mkInstructionArgs lamports) =>
      WithdrawNonceAccount lamports
  | RequestInitializeNonceAccount _ _ _ (InitializeNonceAccount.mkInstructionArgs authority) =>
      InitializeNonceAccount authority
  | RequestAuthorizeNonceAccount _ _ (AuthorizeNonceAccount.mkInstructionArgs authority) =>
      AuthorizeNonceAccount authority
  | RequestAllocate _ (Allocate.mkInstructionArgs space) => Allocate space
  | RequestAllocateWithSeed _ _ (AllocateWithSeed.mkInstructionArgs base seed space owner) =>
      AllocateWithSeed base seed space owner
  | RequestAssignWithSeed _ _ (AssignWithSeed.mkInstructionArgs base seed owner) =>
      AssignWithSeed base seed owner
  | RequestTransferSolWithSeed _ _ _ (TransferSolWithSeed.mkInstructionArgs lamports seed owner) =>
      TransferWithSeed lamports seed owner
  | RequestUpgradeNonceAccount _ => UpgradeNonceAccount
  end.

(** The SDK's constructor for it; it takes the base of a seed and the sysvars
    from one place only. *)
Definition sdk_instruction (r : Request Pubkey) : Outcome Empty_set Instruction :=
  match r with
  | RequestCreateAccount payer new_account (CreateAccount.mkInstructionArgs lamports space owner) =>
      Sdk.create_account payer new_account lamports space owner
  | RequestAssign account (Assign.mkInstructionArgs owner) => Sdk.assign account owner
  | RequestTransferSol source destination (TransferSol.mkInstructionArgs lamports) =>
      Sdk.transfer source destination lamports
  | RequestCreateAccountWithSeed payer new_account _
      (CreateAccountWithSeed.mkInstructionArgs base seed lamports space owner) =>
      Sdk.create_account_with_seed payer new_account base seed lamports space owner
  | RequestAdvanceNonceAccount nonce_account _ authority => Sdk.advance_nonce_account nonce_account authority
  | RequestWithdrawNonceAccount nonce_account recipient _ _ authority
      (WithdrawNonceAccount.mkInstructionArgs lamports) =>
      Sdk.withdraw_nonce_account nonce_account authority recipient lamports
  | RequestInitializeNonceAccount nonce_account _ _ (InitializeNonceAccount.mkInstructionArgs authority) =>
      Sdk.initialize_nonce nonce_account authority
  | RequestAuthorizeNonceAccount nonce_account authority (AuthorizeNonceAccount.mkInstructionArgs new_authority) =>
      Sdk.authorize_nonce_account nonce_account authority new_authority
  | RequestAllocate account (Allocate.mkInstructionArgs space) => Sdk.allocate account space
  | RequestAllocateWithSeed account _ (AllocateWithSeed.mkInstructionArgs base seed space owner) =>
      Sdk.allocate_with_seed account base seed space owner
  | RequestAssignWithSeed account _ (AssignWithSeed.mkInstructionArgs base seed owner) =>
      Sdk.assign_with_seed account base seed owner
  | RequestTransferSolWithSeed source base destination (TransferSolWithSeed.mkInstructionArgs lamports seed owner) =>
      Sdk.transfer_with_seed source base seed owner destination lamports
  | RequestUpgradeNonceAccount nonce_account => Sdk.upgrade_nonce_account nonce_account
  end.

(** The base account is the base of the seed, and the sysvar accounts are the
    sysvars. *)
Definition standard (r : Request Pubkey) : Prop :=
  match r with
  | RequestCreateAccountWithSeed _ _ base_account args => base_account = Some (CreateAccountWithSeed.base args)
  | RequestAllocateWithSeed _ base_account args => base_account = AllocateWithSeed.base args
  | RequestAssignWithSeed _ base_account args => base_account = AssignWithSeed.base args
  | RequestAdvanceNonceAccount _ recent _ => recent = sysvar_recent_blockhashes_id
  | RequestWithdrawNonceAccount _ _ recent rent _ _ | RequestInitializeNonceAccount _ recent rent _ =>
      recent = sysvar_recent_blockhashes_id /\ rent = sysvar_rent_id
  | _ => True
  end.

End sdk.

(** ** Bincode *)

Definition bincode_string (s : Bytes) : Bytes := le_bytes 8 (vec_len s) ++ s.

(** The documented format with fixed-width integers: the index of the variant as
    a [u32], then the fields; strings after their length. *)
Definition instruction_bytes (i : SystemInstruction) : Bytes :=
  match i with
  | CreateAccount lamports space owner => le_bytes 4 0 ++ le_bytes 8 lamports ++ le_bytes 8 space ++ owner
  | Assign owner => le_bytes 4 1 ++ owner
  | Transfer lamports => le_bytes 4 2 ++ le_bytes 8 lamports
  | CreateAccountWithSeed base seed lamports space owner =>
      le_bytes 4 3 ++ base ++ bincode_string seed ++ le_bytes 8 lamports ++ le_bytes 8 space ++ owner
  | AdvanceNonceAccount => le_bytes 4 4
  | WithdrawNonceAccount lamports => le_bytes 4 5 ++ le_bytes 8 lamports
  | InitializeNonceAccount authorized => le_bytes 4 6 ++ authorized
  | AuthorizeNonceAccount authorized => le_bytes 4 7 ++ authorized
  | Allocate space => le_bytes 4 8 ++ le_bytes 8 space
  | AllocateWithSeed base seed space owner => le_bytes 4 9 ++ base ++ bincode_string seed ++ le_bytes 8 space ++ owner
  | AssignWithSeed base seed owner => le_bytes 4 10 ++ base ++ bincode_string seed ++ owner
  | TransferWithSeed lamports from_seed from_owner =>
      le_bytes 4 11 ++ le_bytes 8 lamports ++ bincode_string from_seed ++ from_owner
  | UpgradeNonceAccount => le_bytes 4 12
  end.

(** The strings of Rust: well-formed UTF-8. *)
Definition continues (lo hi b : Z) : bool := (lo <=? b) && (b <=? hi).

Fixpoint utf8_valid (bs : Bytes) : bool :=
  match bs with
  | [] => true
  | b :: rest =>
      if continues 0 127 b then utf8_valid rest
      else
        match rest with
        | c :: rest =>
            if continues 194 223 b then continues 128 191 c && utf8_valid rest
            else
              match rest with
              | d :: rest =>
                  if continues 224 239 b then
                    continues (if b =? 224 then 160 else 128) (if b =? 237 then 159 else 191) c &&
                    continues 128 191 d && utf8_valid rest
                  else
                    match rest with
                    | e :: rest =>
                        continues 240 244 b &&
                        continues (if b =? 240 then 144 else 128) (if b =? 244 then 143 else 191) c &&
                        continues 128 191 d && continues 128 191 e && utf8_valid rest
                    | [] => false
                    end
              | [] => false
              end
        | [] => false
        end
  end.

Definition instruction_seed (i : SystemInstruction) : Bytes :=
  match i with
  | CreateAccountWithSeed _ seed _ _ _ | AllocateWithSeed _ seed _ _ | AssignWithSeed _ seed _
  | TransferWithSeed _ seed _ => seed
  | _ => []
  end.

(** What an encoder and a decoder of this format do. *)
Class BincodeFixint `{!Bincode SystemInstruction} : Prop :=
  bincode_fixint i : bincode_serialize i = Some (instruction_bytes i).

Class BincodeFixintLimited `{!BincodeLimited SystemInstruction} : Prop :=
  bincode_fixint_limited limit i rest :
    system_instruction_wf i -> utf8_valid (instruction_seed i) = true ->
    vec_len (instruction_bytes i) <= limit <= int_max U64 ->
    deserialize_with_limit limit (instruction_bytes i ++ rest) = Some i.

(** The records of arguments of the case at hand. *)
Ltac destruct_args :=
  repeat match goal with
  | args : CreateAccount.InstructionArgs |- _ => destruct args
  | args : Assign.InstructionArgs |- _ => destruct args
  | args : TransferSol.InstructionArgs |- _ => destruct args
  | args : CreateAccountWithSeed.InstructionArgs |- _ => destruct args
  | args : WithdrawNonceAccount.InstructionArgs |- _ => destruct args
  | args : InitializeNonceAccount.InstructionArgs |- _ => destruct args
  | args : AuthorizeNonceAccount.InstructionArgs |- _ => destruct args
  | args : Allocate.InstructionArgs |- _ => destruct args
  | args : AllocateWithSeed.InstructionArgs |- _ => destruct args
  | args : AssignWithSeed.InstructionArgs |- _ => destruct args
  | args : TransferSolWithSeed.InstructionArgs |- _ => destruct args
  end.

(** ** Agreement *)

Section agreement.
Context {Hborsh : Borsh} {Hborsh_ok : BorshOk} {Hids : ProgramIds}.

(** What the client sends for a request: the program, the metas of its accounts
    and the bytes of the instruction. *)
Definition request_metas (r : Request Pubkey) : list AccountMeta :=
  match r with
  | RequestCreateAccount payer new_account _ => [AccountMeta_new payer true; AccountMeta_new new_account true]
  | RequestAssign account _ | RequestAllocate account _ => [AccountMeta_new account true]
  | RequestTransferSol source destination _ => [AccountMeta_new source true; AccountMeta_new destination false]
  | RequestCreateAccountWithSeed payer new_account base_account _ =>
      [AccountMeta_new payer true; AccountMeta_new new_account false] ++
      option_list ((fun base => AccountMeta_new_readonly base true) <$> base_account)
  | RequestAdvanceNonceAccount nonce_account recent authority =>
      [AccountMeta_new nonce_account false; AccountMeta_new_readonly recent false;
       AccountMeta_new_readonly authority true]
  | RequestWithdrawNonceAccount nonce_account recipient recent rent authority _ =>
      [AccountMeta_new nonce_account false; AccountMeta_new recipient false;
       AccountMeta_new_readonly recent false; AccountMeta_new_readonly rent false;
       AccountMeta_new_readonly authority true]
  | RequestInitializeNonceAccount nonce_account recent rent _ =>
      [AccountMeta_new nonce_account false; AccountMeta_new_readonly recent false;
       AccountMeta_new_readonly rent false]
  | RequestAuthorizeNonceAccount nonce_account authority _ =>
      [AccountMeta_new nonce_account false; AccountMeta_new_readonly authority true]
  | RequestAllocateWithSeed account base _ | RequestAssignWithSeed account base _ =>
      [AccountMeta_new account false; AccountMeta_new_readonly base true]
  | RequestTransferSolWithSeed source base destination _ =>
      [AccountMeta_new source false; AccountMeta_new_readonly base true; AccountMeta_new destination false]
  | RequestUpgradeNonceAccount nonce_account => [AccountMeta_new nonce_account false]
  end.

#[local] Arguments le_bytes : simpl never.

Lemma client_instruction_eq r remaining :
  client_instruction r remaining =
    Ok (mkInstruction system_program_id (request_metas r ++ remaining) (instruction_bytes (request_instruction r))).
Proof.
  destruct r; destruct_args; unfold client_instruction,
    CreateAccount.instruction_with_remaining_accounts, CreateAccount.data_to_vec,
    CreateAccount.args_to_vec, Assign.instruction_with_remaining_accounts, Assign.data_to_vec,
    Assign.args_to_vec, TransferSol.instruction_with_remaining_accounts, TransferSol.data_to_vec,
    TransferSol.args_to_vec, CreateAccountWithSeed.instruction_with_remaining_accounts,
    CreateAccountWithSeed.data_to_vec, CreateAccountWithSeed.args_to_vec,
    AdvanceNonceAccount.instruction_with_remaining_accounts, AdvanceNonceAccount.data_to_vec,
    WithdrawNonceAccount.instruction_with_remaining_accounts, WithdrawNonceAccount.data_to_vec,
    WithdrawNonceAccount.args_to_vec, InitializeNonceAccount.instruction_with_remaining_accounts,
    InitializeNonceAccount.data_to_vec, InitializeNonceAccount.args_to_vec,
    AuthorizeNonceAccount.instruction_with_remaining_accounts, AuthorizeNonceAccount.data_to_vec,
    AuthorizeNonceAccount.args_to_vec, Allocate.instruction_with_remaining_accounts,
    Allocate.data_to_vec, Allocate.args_to_vec, AllocateWithSeed.instruction_with_remaining_accounts,
    AllocateWithSeed.data_to_vec, AllocateWithSeed.args_to_vec,
    AssignWithSeed.instruction_with_remaining_accounts, AssignWithSeed.data_to_vec,
    AssignWithSeed.args_to_vec, TransferSolWithSeed.instruction_with_remaining_accounts,
    TransferSolWithSeed.data_to_vec, TransferSolWithSeed.args_to_vec,
    UpgradeNonceAccount.instruction_with_remaining_accounts, UpgradeNonceAccount.data_to_vec;
    cbn; rewrite ?borsh_u32_le, ?borsh_u64_le, ?borsh_pubkey_bytes, ?borsh_string_bytes; cbn;
    rewrite ?app_nil_r; try reflexivity.
  by destruct base_account.
Qed.

Section bincode.
Context {Hbincode : Bincode SystemInstruction} {Hfixint : BincodeFixint}.

Lemma sdk_instruction_eq r :
  standard r ->
  sdk_instruction r =
    Ok (mkInstruction system_program_id (request_metas r) (instruction_bytes (request_instruction r))).
Proof.
  intros Hr. destruct r; destruct_args; unfold sdk_instruction, Sdk.create_account,
    Sdk.create_account_with_seed, Sdk.assign, Sdk.assign_with_seed, Sdk.transfer, Sdk.transfer_with_seed,
    Sdk.allocate, Sdk.allocate_with_seed, Sdk.initialize_nonce, Sdk.advance_nonce_account,
    Sdk.withdraw_nonce_account, Sdk.authorize_nonce_account, Sdk.upgrade_nonce_account, new_with_bincode;
    rewrite bincode_fixint; simpl in Hr; destruct_and?; subst; reflexivity.
Qed.

(** C6: the client and the SDK make the same instructions.  For each of the
    thirteen instructions, with the base account of a seed and the sysvars given as
    the SDK gives them, the client's instruction is the SDK's: the same program,
    accounts, flags and bytes, though one encodes with borsh and the other with
    bincode. *)
Theorem client_matches_sdk (r : Request Pubkey) :
  standard r -> client_instruction r [] = sdk_instruction r.
Proof. intros Hr. by rewrite client_instruction_eq, sdk_instruction_eq, app_nil_r. Qed.

End bincode.

Section decode.
Context {Hlimited : BincodeLimited SystemInstruction} {Hdecode : BincodeFixintLimited}.

(** C10: the program decodes what the client was asked for.  The instruction that
    the client makes is for the system program, and if its data fit in a packet
    the program reads the instruction with the arguments of the request; the
    accounts are those of the request in its order, and then the additional ones. *)
Theorem client_instruction_decodes (r : Request Pubkey) (remaining : list AccountMeta) :
  system_instruction_wf (request_instruction r) ->
  utf8_valid (instruction_seed (request_instruction r)) = true ->
  vec_len (instruction_bytes (request_instruction r)) <= PACKET_DATA_SIZE ->
  exists ix, client_instruction r remaining = Ok ix /\ ix_program_id ix = system_program_id /\
    limited_deserialize (ix_data ix) = Ok (request_instruction r) /\
    meta_pubkey <$> ix_accounts ix = request_accounts r ++ (meta_pubkey <$> remaining).
Proof.
  intros Hwf Hutf8 Hlen. eexists. split; [apply client_instruction_eq|]. split; [done|]. split.
  - unfold limited_deserialize, program_limited_deserialize. simpl ix_data.
    rewrite <-(app_nil_r (instruction_bytes _)). rewrite bincode_fixint_limited; [done..|].
    split; [done|]. vm_compute. discriminate.
  - simpl ix_accounts. rewrite fmap_app. f_equal. destruct r; try done. by destruct base_account.
Qed.

End decode.

(** ** Builders and calls *)

Lemma client_builder_eq r remaining : client_builder r remaining = client_instruction r remaining.
Proof. destruct r; destruct_args; reflexivity. Qed.

Section calls.
Context {W : Type} (sol_invoke_signed_rust : SolInvoke W).

Definition call (seeds : list (list Bytes)) (ix : Instruction) (infos : list AccountInfo)
  : M W ProgramError.ProgramError unit :=
  match seeds with
  | [] => invoke sol_invoke_signed_rust ix infos
  | _ => invoke_signed sol_invoke_signed_rust ix infos seeds
  end.

Lemma client_cpi_eq program r seeds remaining :
  client_cpi sol_invoke_signed_rust program r seeds remaining =
    call seeds (mkInstruction system_program_id
                  (request_metas (request_map info_key r) ++ (remaining_meta <$> remaining))
                  (instruction_bytes (request_instruction r)))
      (program :: request_accounts r ++ (remaining_info <$> remaining)).
Proof.
  destruct r; destruct_args; unfold client_cpi,
    CreateAccountCpi.invoke_signed_with_remaining_accounts, CreateAccount.data_to_vec,
    CreateAccount.args_to_vec, AssignCpi.invoke_signed_with_remaining_accounts, Assign.data_to_vec,
    Assign.args_to_vec, TransferSolCpi.invoke_signed_with_remaining_accounts, TransferSol.data_to_vec,
    TransferSol.args_to_vec, CreateAccountWithSeedCpi.invoke_signed_with_remaining_accounts,
    CreateAccountWithSeed.data_to_vec, CreateAccountWithSeed.args_to_vec,
    AdvanceNonceAccountCpi.invoke_signed_with_remaining_accounts, AdvanceNonceAccount.data_to_vec,
    WithdrawNonceAccountCpi.invoke_signed_with_remaining_accounts, WithdrawNonceAccount.data_to_vec,
    WithdrawNonceAccount.args_to_vec, InitializeNonceAccountCpi.invoke_signed_with_remaining_accounts,
    InitializeNonceAccount.data_to_vec, InitializeNonceAccount.args_to_vec,
    AuthorizeNonceAccountCpi.invoke_signed_with_remaining_accounts, AuthorizeNonceAccount.data_to_vec,
    AuthorizeNonceAccount.args_to_vec, AllocateCpi.invoke_signed_with_remaining_accounts,
    Allocate.data_to_vec, Allocate.args_to_vec,
    AllocateWithSeedCpi.invoke_signed_with_remaining_accounts, AllocateWithSeed.data_to_vec,
    AllocateWithSeed.args_to_vec, AssignWithSeedCpi.invoke_signed_with_remaining_accounts,
    AssignWithSeed.data_to_vec, AssignWithSeed.args_to_vec,
    TransferSolWithSeedCpi.invoke_signed_with_remaining_accounts, TransferSolWithSeed.data_to_vec,
    TransferSolWithSeed.args_to_vec, UpgradeNonceAccountCpi.invoke_signed_with_remaining_accounts,
    UpgradeNonceAccount.data_to_vec;
    cbn; rewrite ?borsh_u32_le, ?borsh_u64_le, ?borsh_pubkey_bytes, ?borsh_string_bytes; cbn;
    rewrite ?app_nil_r; try reflexivity.
  destruct base_account; reflexivity.
Qed.

Lemma client_cpi_builder_eq program r seeds remaining :
  client_cpi_builder sol_invoke_signed_rust program r seeds remaining =
  client_cpi sol_invoke_signed_rust program r seeds remaining.
Proof. destruct r; destruct_args; reflexivity. Qed.

(** The meta of an additional account, as the builders document the tuple:
    [(account, is_writable, is_signer)]. *)
Definition documented_meta (remaining_account : RemainingAccount) : AccountMeta :=
  match remaining_account with
  | (account, is_writable, is_signer) => mkAccountMeta (info_key account) is_signer is_writable
  end.

Definition swap_flags (meta : AccountMeta) : AccountMeta :=
  mkAccountMeta (meta_pubkey meta) (meta_is_writable meta) (meta_is_signer meta).

Lemma remaining_meta_swaps remaining : remaining_meta remaining = swap_flags (documented_meta remaining).
Proof. by destruct remaining as [[account is_writable] is_signer]. Qed.

Lemma swap_flags_id remaining :
  swap_flags <$> (documented_meta <$> remaining) = documented_meta <$> remaining <->
  Forall (fun '(_, is_writable, is_signer) => is_writable = is_signer) remaining.
Proof.
  induction remaining as [|[[account is_writable] is_signer] remaining IH]; [done|].
  rewrite list.Forall_cons, <-IH. cbn. split.
  - intros [= -> _ ?]. done.
  - intros [-> ->]. done.
Qed.

Lemma request_metas_length {K} (f : K -> Pubkey) (r : Request K) :
  length (request_metas (request_map f r)) = length (request_accounts r).
Proof. destruct r; try done. by destruct base_account. Qed.

(** C38: builders and calls send the same instruction, up to the flags of the
    additional accounts.  When a cross-program call is built with all of its
    fields and with additional accounts [(account, is_writable, is_signer)], and
    the builder of instructions is given the keys of the same accounts with the
    same flags, then what is invoked, with the program and the accounts of the
    call, has the program, the data and the metas of the accounts of the request
    of the built instruction; the metas of the additional accounts have the keys
    of the built ones and their two flags swapped.  So the two are one instruction
    if and only if every additional account is either both writable and a signer
    or neither.  The seeds decide between [invoke] and [invoke_signed]. *)
Theorem client_calls_agree (program : AccountInfo) (r : Request AccountInfo) (seeds : list (list Bytes))
    (remaining : list RemainingAccount) :
  exists built invoked metas,
    client_builder (request_map info_key r) (documented_meta <$> remaining) = Ok built /\
    client_cpi_builder sol_invoke_signed_rust program r seeds remaining =
      call seeds invoked (program :: request_accounts r ++ (remaining_info <$> remaining)) /\
    ix_program_id invoked = ix_program_id built /\ ix_data invoked = ix_data built /\
    length metas = length (request_accounts r) /\
    ix_accounts built = metas ++ (documented_meta <$> remaining) /\
    ix_accounts invoked = metas ++ (swap_flags <$> (documented_meta <$> remaining)) /\
    (invoked = built <-> Forall (fun '(_, is_writable, is_signer) => is_writable = is_signer) remaining).
Proof.
  eexists _, _, (request_metas (request_map info_key r)).
  rewrite client_builder_eq, client_instruction_eq, client_cpi_builder_eq, client_cpi_eq.
  rewrite (list_fmap_ext remaining_meta (swap_flags ∘ documented_meta) remaining)
    by (intros; apply remaining_meta_swaps).
  rewrite list_fmap_compose, <-swap_flags_id. split; [done|]. split; [done|].
  split_and!; [done|by destruct r|apply request_metas_length|done|done|].
  split; [intros [= ?%(inj _)]; done|]. intros ->. by destruct r.
Qed.


End calls.

End agreement.
