(* ===== verification/ClientAccounts.v ===== *)
(** * The Rust client: nonce accounts (clients/rust/src/generated)

    The client's view of a nonce account (accounts/nonce.rs, types/, shared.rs) and
    how it fetches them.  Reading is borsh's, the RPC node is a parameter.  Borsh
    writes the variant of an enum as one byte and bincode, which wrote the account,
    as four, so that the client misreads every initialized nonce account. *)

From S2P Require Import Prelude Errors Rent Account Pubkey Sysvars Nonce TransactionContext SysvarCache FeatureSet SystemProgram.

(** ** Types (types/nonce_version.rs, types/nonce_state.rs) *)

Module NonceVersion.
Inductive NonceVersion : Type := Legacy | Current.
End NonceVersion.

Module NonceState.
Inductive NonceState : Type := Uninitialized | Initialized.
End NonceState.

(** ** Reading with borsh *)

Inductive IoError : Type :=
| InvalidData
| UnexpectedEof
| RpcError
| AccountNotFound (address : Pubkey).

Abbreviation IoRes := (Outcome IoError).

(** A reader takes its value from the front of the bytes. *)
Class BorshRead := {
  read_u8 : Bytes -> IoRes (Z * Bytes);
  read_u64 : Bytes -> IoRes (Z * Bytes);
  read_pubkey : Bytes -> IoRes (Pubkey * Bytes);
}.

(** The documented formats. *)
Class BorshReadOk `{!BorshRead} : Prop := {
  read_u8_byte b rest : read_u8 (b :: rest) = Ok (b, rest);
  read_u8_end : read_u8 [] = Err UnexpectedEof;
  read_u64_le bs rest : length bs = 8%nat -> read_u64 (bs ++ rest) = Ok (of_le_bytes bs, rest);
  read_pubkey_bytes bs rest : length bs = 32%nat -> read_pubkey (bs ++ rest) = Ok (bs, rest);
}.

(** ** Accounts (accounts/nonce.rs) *)

Module ClientNonce.

Record Nonce := mkNonce {
  version : NonceVersion.NonceVersion;
  state : NonceState.NonceState;
  authority : Pubkey;
  blockhash : Pubkey;
  lamports_per_signature : Z;
}.

Definition LEN : Z := 80.

Section borsh.
Context {Hread : BorshRead}.

(** The derived readers: an enum is the byte of its variant. *)
Definition read_version (data : Bytes) : IoRes (NonceVersion.NonceVersion * Bytes) :=
  let! r := read_u8 data in
  match r with
  | (0, rest) => Ok (NonceVersion.Legacy, rest)
  | (1, rest) => Ok (NonceVersion.Current, rest)
  | _ => Err InvalidData
  end.

Definition read_state (data : Bytes) : IoRes (NonceState.NonceState * Bytes) :=
  let! r := read_u8 data in
  match r with
  | (0, rest) => Ok (NonceState.Uninitialized, rest)
  | (1, rest) => Ok (NonceState.Initialized, rest)
  | _ => Err InvalidData
  end.

Definition deserialize (data : Bytes) : IoRes (Nonce * Bytes) :=
  let! r1 := read_version data in
  let! r2 := read_state (snd r1) in
  let! r3 := read_pubkey (snd r2) in
  let! r4 := read_pubkey (snd r3) in
  let! r5 := read_u64 (snd r4) in
  Ok (mkNonce (fst r1) (fst r2) (fst r3) (fst r4) (fst r5), snd r5).

Definition from_bytes (data : Bytes) : IoRes Nonce :=
  let! r := deserialize data in Ok (fst r).

(** ** Fetching (accounts/nonce.rs, shared.rs) *)

Record DecodedAccount (T : Type) := mkDecodedAccount {
  decoded_address : Pubkey;
  decoded_account : AccountSharedData;
  decoded_data : T;
}.
#[global] Arguments mkDecodedAccount {T}.
#[global] Arguments decoded_address {T}.
#[global] Arguments decoded_account {T}.
#[global] Arguments decoded_data {T}.

Inductive MaybeAccount (T : Type) : Type :=
| Exists (account : DecodedAccount T)
| NotFound (address : Pubkey).
#[global] Arguments Exists {T}.
#[global] Arguments NotFound {T}.

(** [rpc.get_multiple_accounts] *)
Context (get_multiple_accounts : list Pubkey -> option (list (option AccountSharedData))).

(** The loop over the indices of the addresses; [accounts[i]] is checked. *)
Fixpoint fetch_all_loop (addresses : list Pubkey) (accounts : list (option AccountSharedData))
  : IoRes (list (DecodedAccount Nonce)) :=
  match addresses with
  | [] => Ok []
  | address :: addresses =>
      match accounts with
      | [] => Panic
      | account :: accounts =>
          let! account := ok_or (AccountNotFound address) account in
          let! data := from_bytes (acc_data account) in
          let! rest := fetch_all_loop addresses accounts in
          Ok (mkDecodedAccount address account data :: rest)
      end
  end.

Definition fetch_all_nonce (addresses : list Pubkey) : IoRes (list (DecodedAccount Nonce)) :=
  let! accounts := ok_or RpcError (get_multiple_accounts addresses) in
  fetch_all_loop addresses accounts.

Definition fetch_nonce (address : Pubkey) : IoRes (DecodedAccount Nonce) :=
  let! accounts := fetch_all_nonce [address] in
  unwrap (head accounts).

Fixpoint fetch_all_maybe_loop (addresses : list Pubkey) (accounts : list (option AccountSharedData))
  : IoRes (list (MaybeAccount Nonce)) :=
  match addresses with
  | [] => Ok []
  | address :: addresses =>
      match accounts with
      | [] => Panic
      | Some account :: accounts =>
          let! data := from_bytes (acc_data account) in
          let! rest := fetch_all_maybe_loop addresses accounts in
          Ok (Exists (mkDecodedAccount address account data) :: rest)
      | None :: accounts =>
          let! rest := fetch_all_maybe_loop addresses accounts in
          Ok (NotFound address :: rest)
      end
  end.

Definition fetch_all_maybe_nonce (addresses : list Pubkey) : IoRes (list (MaybeAccount Nonce)) :=
  let! accounts := ok_or RpcError (get_multiple_accounts addresses) in
  fetch_all_maybe_loop addresses accounts.

Definition fetch_maybe_nonce (address : Pubkey) : IoRes (MaybeAccount Nonce) :=
  let! accounts := fetch_all_maybe_nonce [address] in
  unwrap (head accounts).

End borsh.
End ClientNonce.

(** ** The client and the program *)

(** What the program stores for an initialized nonce, as bytes. *)
Lemma stored_bytes (tag : Z) (d : Data) bs :
  (fun b => le_bytes 4 tag ++ b) <$> encode_State (Initialized d) = Some bs ->
  length (authority d) = 32%nat /\ length (durable_nonce d) = 32%nat /\
  in_range U64 (get_lamports_per_signature d) /\
  bs = le_bytes 4 tag ++ le_bytes 4 1 ++ authority d ++ durable_nonce d ++
         le_bytes 8 (get_lamports_per_signature d).
Proof.
  unfold encode_State. destruct (_ && _) eqn:Hw; [|done]. intros [= <-].
  apply andb_prop in Hw as [[Ha Hb]%andb_prop Hl%bool_decide_eq_true]. by apply Nat.eqb_eq in Ha, Hb.
Qed.

Section misread.
Context {Hread : BorshRead} {Hread_ok : BorshReadOk}.

(** A key of which the first six bytes belong to something else. *)
Lemma shifted_read (k1 k2 fee : Bytes) rest :
  length k1 = 32%nat -> length k2 = 32%nat -> length fee = 8%nat ->
  exists blockhash lps rest',
  (let! r3 := read_pubkey ([0; 0; 1; 0; 0; 0] ++ k1 ++ k2 ++ fee ++ rest) in
   let! r4 := read_pubkey (snd r3) in
   let! r5 := read_u64 (snd r4) in Ok (fst r3, fst r4, fst r5, snd r5)) =
  Ok ([0; 0; 1; 0; 0; 0] ++ take 26 k1, blockhash, lps, rest').
Proof.
  intros H1 H2 H3.
  replace ([0; 0; 1; 0; 0; 0] ++ k1 ++ k2 ++ fee ++ rest) with
    (([0; 0; 1; 0; 0; 0] ++ take 26 k1) ++ (drop 26 k1 ++ take 26 k2) ++ (drop 26 k2 ++ take 2 fee) ++
       (drop 2 fee ++ rest)).
  2:{ rewrite <-(take_drop 26 k1) at 3. rewrite <-(take_drop 26 k2) at 3. rewrite <-(take_drop 2 fee) at 3.
      by rewrite <-!app_assoc. }
  rewrite read_pubkey_bytes by (by rewrite length_app, length_take, H1). cbn [outcome_bind snd fst].
  rewrite read_pubkey_bytes by (by rewrite length_app, length_take, length_drop, H1, H2). cbn [outcome_bind snd fst].
  rewrite read_u64_le by (by rewrite length_app, length_take, length_drop, H2, H3). by eexists _, _, _.
Qed.

(** C40: the client misreads every initialized nonce account.  From the bytes that
    the program stored for an initialized nonce it reads, without an error, a nonce
    that is not initialized, with an authority that begins with six bytes of the
    tags and ends in the first bytes of the authority. *)
Theorem client_misreads_nonce (versioned : State -> Versions) (d : Data) (bs rest : Bytes) :
  versioned = Legacy \/ versioned = Current ->
  encode_Versions (versioned (Initialized d)) = Some bs ->
  exists nonce, ClientNonce.from_bytes (bs ++ rest) = Ok nonce /\
    ClientNonce.state nonce = NonceState.Uninitialized /\
    ClientNonce.authority nonce = [0; 0; 1; 0; 0; 0] ++ take 26 (authority d).
Proof.
  intros Hv Henc.
  assert (exists tag version, (tag = 0 \/ tag = 1) /\
    (fun b => le_bytes 4 tag ++ b) <$> encode_State (Initialized d) = Some bs /\
    forall r, ClientNonce.read_version (le_bytes 4 tag ++ r) = Ok (version, [0; 0; 0] ++ r))
    as (tag & version & Htag & Hs & Hver).
  { destruct Hv as [-> | ->]; [exists 0, NonceVersion.Legacy|exists 1, NonceVersion.Current];
      (split; [by auto|split; [done|]]); intros r; unfold ClientNonce.read_version; simpl;
      by rewrite read_u8_byte. }
  apply stored_bytes in Hs as (Ha & Hd & _ & ->).
  destruct (shifted_read (authority d) (durable_nonce d) (le_bytes 8 (get_lamports_per_signature d)) rest)
    as (blockhash & lps & rest' & Hr); [done|done|apply length_le_bytes|].
  unfold ClientNonce.from_bytes, ClientNonce.deserialize. rewrite <-!app_assoc, Hver. cbn [outcome_bind snd fst].
  unfold ClientNonce.read_state. cbn [app]. rewrite read_u8_byte. cbn [outcome_bind snd fst].
  apply outcome_bind_ok in Hr as ([k3 t3] & Hr3 & Hr). apply outcome_bind_ok in Hr as ([k4 t4] & Hr4 & Hr).
  apply outcome_bind_ok in Hr as ([n5 t5] & Hr5 & [= -> -> -> ->]). cbn [snd] in *.
  change (0 :: 0 :: le_bytes 4 1 ++ ?l) with ([0; 0; 1; 0; 0; 0] ++ l).
  rewrite Hr3. cbn [outcome_bind snd fst]. rewrite Hr4. cbn [outcome_bind snd fst]. rewrite Hr5.
  by eexists.
Qed.

End misread.

(** ** Errors (errors/system.rs) *)

Module ClientError.

Inductive SystemError : Type :=
| AccountAlreadyInUse
| ResultWithNegativeLamports
| InvalidProgramId
| InvalidAccountDataLength
| MaxSeedLengthExceeded
| AddressWithSeedMismatch
| NonceNoRecentBlockhashes
| NonceBlockhashNotExpired
| NonceUnexpectedBlockhashValue.

(** The derived [FromPrimitive], by the discriminants of the declaration. *)
Definition from_u64 (code : Z) : option SystemError :=
  match code with
  | 0 => Some AccountAlreadyInUse
  | 1 => Some ResultWithNegativeLamports
  | 2 => Some InvalidProgramId
  | 3 => Some InvalidAccountDataLength
  | 4 => Some MaxSeedLengthExceeded
  | 5 => Some AddressWithSeedMismatch
  | 6 => Some NonceNoRecentBlockhashes
  | 7 => Some NonceBlockhashNotExpired
  | 8 => Some NonceUnexpectedBlockhashValue
  | _ => None
  end.

End ClientError.

(** The codes mean the same to the program and to the client. *)
Definition client_error (e : SystemError.SystemError) : ClientError.SystemError :=
  match e with
  | SystemError.AccountAlreadyInUse => ClientError.AccountAlreadyInUse
  | SystemError.ResultWithNegativeLamports => ClientError.ResultWithNegativeLamports
  | SystemError.InvalidProgramId => ClientError.InvalidProgramId
  | SystemError.InvalidAccountDataLength => ClientError.InvalidAccountDataLength
  | SystemError.MaxSeedLengthExceeded => ClientError.MaxSeedLengthExceeded
  | SystemError.AddressWithSeedMismatch => ClientError.AddressWithSeedMismatch
  | SystemError.NonceNoRecentBlockhashes => ClientError.NonceNoRecentBlockhashes
  | SystemError.NonceBlockhashNotExpired => ClientError.NonceBlockhashNotExpired
  | SystemError.NonceUnexpectedBlockhashValue => ClientError.NonceUnexpectedBlockhashValue
  end.

Lemma client_error_codes e code :
  SystemError.into e = Custom code -> ClientError.from_u64 code = Some (client_error e).
Proof. by destruct e; intros [= <-]. Qed.

(** A seed that is too long fails with a code of another error: that of
    [PubkeyError], which the client reads as an account in use. *)
Lemma long_seed_misreported {hashing : Hashing} address base seed owner :
  MAX_SEED_LEN < vec_len seed ->
  exists code, Address_create address (Some (base, seed, owner)) = Err (Custom code) /\
    ClientError.from_u64 code = Some ClientError.AccountAlreadyInUse.
Proof.
  intros Hs. exists 0. split; [|done]. unfold Address_create, create_with_seed.
  destruct (Z.ltb_spec MAX_SEED_LEN (vec_len seed)); [done|lia].
Qed.
