(* ===== verification/TransferRules.v ===== *)
(** * A transfer from the client to the accounts

    The parts put together: the instruction that the Rust client makes of a
    transfer is compiled into a message, the message is sanitized, and the message
    processor runs the system program on the loaded accounts.  The theorem says
    what comes of it, whether the payer has the lamports or not. *)

From S2P Require Import Prelude Errors Rent Account BTreeMap Pubkey Sysvars EpochSchedule Nonce TransactionContext RuntimeRules CallStack SysvarCache SystemProgram Effects InvokeContext Message MessageRules MessageProcessor SystemInstructions Client ClientRules.

(** Decides the equations between keys that are known to be equal or not. *)
Ltac decide_keys :=
  repeat match goal with |- context [bool_decide (?x = ?y)] =>
    first [ rewrite (bool_decide_eq_true_2 (x = y)) by congruence
          | rewrite (bool_decide_eq_false_2 (x = y)) by congruence ]; cbn end.

(** ** The message *)

Section message.
Context {Hids : ProgramIds} {Hmids : MessageIds}.
Context (from to : Pubkey) (blockhash : Hash) (data : Bytes).
Context (Hdistinct : NoDup [from; to; system_program_id]).

Definition transfer_ix : Instruction :=
  mkInstruction system_program_id [AccountMeta_new from true; AccountMeta_new to false] data.

Definition transfer_message : Legacy.Message :=
  Legacy.mkMessage (mkMessageHeader 1 0 1) [from; to; system_program_id] blockhash
    [mkCompiledInstruction 2 [0; 1] data].

Lemma keys_differ : from <> to /\ from <> system_program_id /\ to <> system_program_id.
Proof. rewrite !list.NoDup_cons in Hdistinct. set_solver. Qed.

#[local] Abbreviation transfer_map := (key_meta_map (compile [transfer_ix] (Some from))).

(** The kinds of keys, from what the transfer asks of them. *)
Lemma transfer_flags s w k :
  k ∈ kind transfer_map (Some from) s w <->
  (k = to /\ s = false /\ w = true) \/ (k = system_program_id /\ s = false /\ w = false).
Proof.
  destruct keys_differ as (H1 & H2 & H3). rewrite kind_spec by (apply compile_ok || apply compile_payer).
  destruct (compile_get [transfer_ix] (Some from) k) as [Hs Hf].
  assert (k ∈ mention_key <$> mentions [transfer_ix] (Some from) <-> k = from \/ k = to \/ k = system_program_id)
    as Hm by (cbn; set_solver).
  rewrite Hm in Hs. clear Hm. unfold has_flags. split.
  - intros [(meta & Hg & <- & <-) Hne]. destruct (Hf meta Hg) as [-> ->].
    destruct (proj1 Hs (ex_intro _ _ Hg)) as [->|[->| ->]]; [done|left|right];
      (split; [done|]); cbn; by repeat case_bool_decide.
  - intros [(-> & -> & ->)|(-> & -> & ->)];
      (split; [|congruence]); destruct (proj2 Hs ltac:(auto)) as [meta Hg]; exists meta;
      destruct (Hf meta Hg) as [-> ->]; (split; [done|]); cbn; by repeat case_bool_decide.
Qed.

Lemma kind_NoDup s w : NoDup (kind transfer_map (Some from) s w).
Proof. apply NoDup_filter_keys, without_payer_NoDup; [apply compile_ok|apply compile_payer]. Qed.

Lemma NoDup_only {A} (l : list A) x : NoDup l -> (forall y, y ∈ l <-> y = x) -> l = [x].
Proof.
  intros Hn Hl. assert (x ∈ l) as Hx by by apply Hl.
  destruct l as [|y l]; [by apply not_elem_of_nil in Hx|].
  assert (y = x) as -> by (apply Hl; set_solver). f_equal.
  apply list.NoDup_cons in Hn as [Hn _]. destruct l as [|z l]; [done|].
  destruct Hn. assert (z = x) as -> by (apply Hl; set_solver). set_solver.
Qed.

Lemma transfer_kinds :
  kind transfer_map (Some from) true true = [] /\ kind transfer_map (Some from) true false = [] /\
  kind transfer_map (Some from) false true = [to] /\
  kind transfer_map (Some from) false false = [system_program_id].
Proof.
  split_and!; [apply elem_of_nil_inv; intros k; rewrite transfer_flags; naive_solver..| |];
    (apply NoDup_only; [apply kind_NoDup|]); intros k; rewrite transfer_flags; naive_solver.
Qed.

Lemma transfer_compiles :
  Legacy.new_with_blockhash [transfer_ix] (Some from) blockhash = Ok transfer_message.
Proof.
  destruct keys_differ as (H1 & H2 & H3). destruct transfer_kinds as (K1 & K2 & K3 & K4).
  unfold Legacy.new_with_blockhash.
  destruct (components_run transfer_map (Some from)) as [(Hr & _)|(_ & Hr)]; cbv zeta in Hr;
    unfold components_header, ordered_keys in Hr; rewrite K1, K2, ?K3, K4 in Hr.
  2:{ destruct Hr as [Hr|Hr]; vm_compute in Hr; discriminate. }
  change (compile [transfer_ix] (Some from)) with (mkCompiledKeys (Some from) transfer_map). rewrite Hr.
  unfold Legacy.compile_instructions, Legacy.compile_instruction, Legacy.key_position. cbn.
  decide_keys. reflexivity.
Qed.

(** Neither account is reserved, so that both are writable. *)
Context (Hfrom : is_builtin_key_or_sysvar from = false) (Hto : is_builtin_key_or_sysvar to = false).

Definition sanitized_transfer : SanitizedMessage :=
  SanitizedLegacy (mkLegacyMessage transfer_message [true; true; false]).

Lemma transfer_sanitizes : Sanitized.try_from_legacy_message transfer_message = Ok sanitized_transfer.
Proof.
  unfold Sanitized.try_from_legacy_message. change (Legacy.sanitize transfer_message) with (Ok tt : Outcome SanitizeError unit).
  cbn [outcome_bind]. unfold Sanitized.LegacyMessage_new.
  change (seqZ 0 (vec_len (Legacy.account_keys transfer_message))) with [0; 1; 2].
  cbn [try_collect]. unfold Legacy.is_writable.
  change (Legacy.is_writable_index transfer_message 0) with true.
  change (Legacy.is_writable_index transfer_message 1) with true.
  change (Legacy.is_writable_index transfer_message 2) with false.
  cbn [unwrap vec_get]. change (vec_get (Legacy.account_keys transfer_message) 0) with (Some from).
  change (vec_get (Legacy.account_keys transfer_message) 1) with (Some to).
  cbn [unwrap outcome_bind]. rewrite Hfrom, Hto. reflexivity.
Qed.

Definition transfer_accounts : list InstructionAccount :=
  [mkInstructionAccount 0 0 0 true true; mkInstructionAccount 1 1 1 false true].

Lemma transfer_message_accounts : message_accounts sanitized_transfer [0; 1] = transfer_accounts.
Proof. reflexivity. Qed.

End message.

(** ** The instruction *)

Section run.
Context {Hhash : Hashing} {Hids : ProgramIds} {Hv : Bincode Versions} {Hl : BincodeLimited SystemInstruction}.
Context (from to : Pubkey) (Hdistinct : NoDup [from; to; system_program_id]).
Context (p : AccountSharedData) (r : Rent) (stack_capacity trace_capacity : Z).
Context (data : Bytes).

(** The transaction while the transfer runs: [a] and [b] are the accounts. *)
Definition running (a b : RefCell AccountSharedData) (touched : list bool) (sum : Z) : TransactionContext :=
  mkTransactionContext [from; to; system_program_id] (mkTransactionAccounts [a; b; RefCell_new p] touched)
    stack_capacity trace_capacity [0]
    [mkInstructionContext 0 sum [2] transfer_accounts data; InstructionContext_default]
    (mkReturnData system_program_id []) (RefCell_new 0) r.

#[local] Abbreviation ic sum := (mkInstructionContext 0 sum [2] transfer_accounts data).

Lemma set_same_lamports (a : AccountSharedData) : account_set_lamports (acc_lamports a) a = a.
Proof. by destruct a. Qed.

(** The accounts behind the handles of the transfer. *)
#[local] Abbreviation source sum := (mkBorrowedAccount (ic sum) 0 1).
#[local] Abbreviation target sum := (mkBorrowedAccount (ic sum) 1 2).

Lemma set_source (a : AccountSharedData) b t1 t2 t3 sum l :
  acc_owner a = system_program_id -> acc_executable a = false ->
  exists t, set_lamports (source sum) l (running (mkRefCell a (-1)) b [t1; t2; t3] sum) =
    (Ok tt, running (mkRefCell (account_set_lamports l a) (-1)) b [t; t2; t3] sum).
Proof.
  intros Ho He. unfold set_lamports, bind, query, gets.
  change (borrowed (source sum) _) with (Ok a : Res AccountSharedData). cbn iota beta.
  change (is_owned_by_current_program _ _ _) with (bool_decide (system_program_id = acc_owner a)).
  rewrite (bool_decide_eq_true_2 _ (eq_sym Ho)), He. change (is_writable (source sum)) with true.
  cbn [negb andb]. destruct (Z.eqb_spec (acc_lamports a) l) as [<-|_].
  - exists t1. by rewrite set_same_lamports.
  - exists true. reflexivity.
Qed.

Lemma set_target a (b : AccountSharedData) t1 t2 t3 sum l :
  acc_lamports b <= l -> acc_executable b = false ->
  exists t, set_lamports (target sum) l (running a (mkRefCell b (-1)) [t1; t2; t3] sum) =
    (Ok tt, running a (mkRefCell (account_set_lamports l b) (-1)) [t1; t; t3] sum).
Proof.
  intros Hl' He. unfold set_lamports, bind, query, gets.
  change (borrowed (target sum) _) with (Ok b : Res AccountSharedData). cbn iota beta.
  destruct (Z.ltb_spec l (acc_lamports b)); [lia|]. rewrite andb_false_r, He.
  change (is_writable (target sum)) with true. cbn [negb].
  destruct (Z.eqb_spec (acc_lamports b) l) as [<-|_].
  - exists t2. by rewrite set_same_lamports.
  - exists true. reflexivity.
Qed.

Lemma checked_ok t z : in_range t z -> checked t z = Some z.
Proof. intros. by apply checked_Some. Qed.

#[local] Abbreviation paid amount a := (account_set_lamports (acc_lamports a - amount) a).
#[local] Abbreviation received amount b := (account_set_lamports (acc_lamports b + amount) b).

Lemma transfer_runs env (a b : AccountSharedData) amount t1 t2 t3 sum :
  acc_owner a = system_program_id -> acc_executable a = false -> acc_data a = [] ->
  acc_executable b = false ->
  0 <= amount <= acc_lamports a -> acc_lamports a <= int_max U64 -> 0 <= acc_lamports b ->
  acc_lamports b + amount <= int_max U64 ->
  exists t t', transfer env (ic sum) 0 1 amount (running (RefCell_new a) (RefCell_new b) [t1; t2; t3] sum) =
    (Ok tt, running (RefCell_new (paid amount a)) (RefCell_new (received amount b)) [t; t'; t3] sum).
Proof.
  intros Ho He Hd Heb Ham Ha Hb Hsum. unfold transfer, bind at 1, lift at 1.
  change (is_instruction_account_signer (ic sum) 0) with (Ok true : Res bool). cbn iota beta.
  unfold transfer_verified, borrowing, bind at 1 2.
  change (try_borrow_instruction_account (ic sum) 0 (running (RefCell_new a) (RefCell_new b) [t1; t2; t3] sum))
    with (Ok (source sum) : Res BorrowedAccount, running (mkRefCell a (-1)) (RefCell_new b) [t1; t2; t3] sum).
  cbn iota beta. unfold finally at 1. unfold bind at 1, query at 1.
  change (borrowed (source sum) _) with (Ok a : Res AccountSharedData). cbn iota beta.
  rewrite Hd. cbn [length vec_len negb]. change (negb (vec_len (@nil Z) =? 0)) with false. cbn iota.
  destruct (Z.ltb_spec (acc_lamports a) amount); [lia|].
  unfold checked_sub_lamports, bind at 1 2, query at 1, lift at 1.
  change (borrowed (source sum) _) with (Ok a : Res AccountSharedData). cbn iota beta.
  unfold checked_sub. rewrite checked_ok by (unfold in_range; simpl in *; lia). cbn [ok_or].
  destruct (set_source a (RefCell_new b) t1 t2 t3 sum (acc_lamports a - amount) Ho He) as [t1' ->].
  change (drop_account (source sum) _)
    with (running (RefCell_new (paid amount a)) (RefCell_new b) [t1'; t2; t3] sum).
  unfold bind at 1.
  change (try_borrow_instruction_account (ic sum) 1 _) with (Ok (target sum) : Res BorrowedAccount,
    running (RefCell_new (paid amount a)) (mkRefCell b (-1)) [t1'; t2; t3] sum).
  cbn iota beta. unfold finally, checked_add_lamports, bind, query, lift.
  change (borrowed (target sum) _) with (Ok b : Res AccountSharedData). cbn iota beta.
  unfold checked_add. rewrite checked_ok by (unfold in_range; simpl in *; lia). cbn [ok_or].
  destruct (set_target (RefCell_new (paid amount a)) b t1' t2 t3 sum (acc_lamports b + amount)) as [t2' ->];
    [lia|done|].
  exists t1', t2'. reflexivity.
Qed.

Lemma transfer_fails env (a b : AccountSharedData) amount touched sum :
  acc_data a = [] -> acc_lamports a < amount ->
  transfer env (ic sum) 0 1 amount (running (RefCell_new a) (RefCell_new b) touched sum) =
    (Err (SystemError.into SystemError.ResultWithNegativeLamports),
     running (RefCell_new a) (RefCell_new b) touched sum).
Proof.
  intros Hd Ham. unfold transfer, bind at 1, lift at 1.
  change (is_instruction_account_signer (ic sum) 0) with (Ok true : Res bool). cbn iota beta.
  unfold transfer_verified, borrowing, bind at 1 2.
  change (try_borrow_instruction_account (ic sum) 0 _)
    with (Ok (source sum) : Res BorrowedAccount, running (mkRefCell a (-1)) (RefCell_new b) touched sum).
  cbn iota beta. unfold finally at 1. unfold bind at 1, query at 1.
  change (borrowed (source sum) _) with (Ok a : Res AccountSharedData). cbn iota beta.
  rewrite Hd. change (negb (vec_len (@nil Z) =? 0)) with false. cbn iota.
  destruct (Z.ltb_spec (acc_lamports a) amount); [|lia]. reflexivity.
Qed.

(** The entrypoint decodes the instruction and dispatches it. *)
Lemma entrypoint_transfers env a b amount touched sum :
  limited_deserialize data = Ok (Transfer amount) ->
  Entrypoint env (running a b touched sum) = transfer env (ic sum) 0 1 amount (running a b touched sum).
Proof.
  intros Hdata. unfold Entrypoint, bind at 1, query at 1.
  change (get_current_instruction_context _) with (Ok (ic sum) : Res InstructionContext). cbn iota beta.
  unfold bind at 1, lift at 1. change (instruction_data (ic sum)) with data. rewrite Hdata. cbn iota beta.
  unfold bind at 1, query at 1.
  change (get_signers (ic sum) _) with (Ok ({[from]} ∪ ∅) : Res (gset Pubkey)). cbn iota beta.
  reflexivity.
Qed.


(** ** Entering and leaving the instruction *)

Definition loaded (a b : AccountSharedData) : TransactionContext :=
  TransactionContext_new [(from, a); (to, b); (system_program_id, p)] r stack_capacity trace_capacity.

(** Between two instructions the stack is empty. *)
Definition ended (a b : AccountSharedData) (touched : list bool) (sum : Z) : TransactionContext :=
  with_stack [] (running (RefCell_new a) (RefCell_new b) touched sum).

Lemma sum_runs (a b : AccountSharedData) touched sum tc :
  0 <= acc_lamports a <= int_max U64 -> 0 <= acc_lamports b <= int_max U64 ->
  accounts tc = mkTransactionAccounts [RefCell_new a; RefCell_new b; RefCell_new p] touched ->
  instruction_accounts_lamport_sum (ic sum) tc = Ok (acc_lamports b + acc_lamports a).
Proof.
  intros Ha Hb Htc. unfold instruction_accounts_lamport_sum.
  change (seqZ 0 (get_number_of_instruction_accounts (ic sum))) with [0; 1]. cbn [lamport_sum_loop].
  change (is_instruction_account_duplicate (ic sum) 0) with (Ok None : Res (option IndexOfAccount)).
  change (is_instruction_account_duplicate (ic sum) 1) with (Ok None : Res (option IndexOfAccount)).
  change (get_index_of_instruction_account_in_transaction (ic sum) 0) with (Ok 0 : Res IndexOfAccount).
  change (get_index_of_instruction_account_in_transaction (ic sum) 1) with (Ok 1 : Res IndexOfAccount).
  cbn [outcome_bind]. unfold get_account_at_index. rewrite Htc.
  change (ta_get 0 _) with (Some (RefCell_new a)). change (ta_get 1 _) with (Some (RefCell_new b)).
  cbn [ok_or outcome_bind]. change (peek (RefCell_new ?x)) with (Some x). cbn [ok_or outcome_bind].
  unfold checked_add. rewrite checked_ok by (unfold in_range; simpl in *; lia). cbn [ok_or outcome_bind].
  rewrite checked_ok by (unfold in_range; simpl in *; lia). cbn [ok_or outcome_bind]. by rewrite Z.add_0_r.
Qed.

Lemma push_runs (a b : AccountSharedData) :
  0 <= acc_lamports a <= int_max U64 -> 0 <= acc_lamports b <= int_max U64 ->
  1 <= stack_capacity -> 1 <= trace_capacity ->
  (update_next_instruction_context (configure [2] transfer_accounts data) ;? push) (loaded a b) =
    (Ok tt, with_return_data (return_data (loaded a b))
              (running (RefCell_new a) (RefCell_new b) [false; false; false] (acc_lamports b + acc_lamports a))).
Proof.
  intros Ha Hb Hs Ht. unfold bind at 1.
  change (update_next_instruction_context _ (loaded a b)) with
    (Ok tt : Res unit, with_trace [ic 0] (loaded a b)). cbn iota beta.
  unfold push. unfold bind at 1, gets at 1, bind at 1, query at 1.
  change (list.last _) with (Some (ic 0)). cbn [ok_or]. cbn iota beta.
  unfold bind at 1, query at 1. rewrite (sum_runs a b [false; false; false]) by done. cbn iota beta.
  unfold bind at 1, query at 1. change (check_caller_balanced _) with (Ok tt : Res unit). cbn iota beta.
  set (sum := acc_lamports b + acc_lamports a).
  unfold bind at 1.
  change (update_next_instruction_context _ _) with (Ok tt : Res unit, with_trace [ic sum] (loaded a b)).
  cbn iota beta. unfold bind at 1, gets at 1, bind at 1, gets at 1.
  change (get_instruction_trace_length _) with 0.
  change (instruction_trace_capacity (id _)) with trace_capacity.
  change (instruction_stack_capacity (id _)) with stack_capacity.
  change (get_instruction_context_stack_height _) with 0.
  destruct (Z.leb_spec trace_capacity 0); [lia|]. unfold bind at 1, modify at 1.
  destruct (Z.leb_spec stack_capacity 0); [lia|]. reflexivity.
Qed.

Lemma pop_runs (a b : AccountSharedData) touched sum :
  0 <= acc_lamports a <= int_max U64 -> 0 <= acc_lamports b <= int_max U64 ->
  sum = acc_lamports b + acc_lamports a ->
  pop (running (RefCell_new a) (RefCell_new b) touched sum) = (Ok tt, ended a b touched sum).
Proof.
  intros Ha Hb Hsum. unfold pop. unfold bind at 1, gets at 1. cbn [id instruction_stack running].
  unfold bind at 1, modify at 1, bind at 1, lift at 1. unfold detect_unbalanced_instruction.
  change (get_current_instruction_context _) with (Ok (ic sum) : Res InstructionContext). cbn [outcome_bind].
  change (check_programs_unborrowed _ _) with (Ok tt : Res unit). cbn [outcome_bind].
  rewrite (sum_runs a b touched) by done. cbn [outcome_bind]. rewrite (proj2 (Z.eqb_eq _ _)) by done. reflexivity.
Qed.

(** ** Running the program *)

Context (find_builtin : Pubkey -> option (option Builtin)) (env : Environment) (limit : Z).
Context (Hbuiltin : find_builtin system_program_id = Some (Some system_builtin)).
Context (Hp : acc_owner p = native_loader_id) (Hlimit : DEFAULT_COMPUTE_UNITS <= limit <= int_max U64).

#[local] Abbreviation state tc meter consumed := (mkInvokeContext tc env limit meter [None] [] consumed).

#[local] Arguments Entrypoint : simpl never.

(** Whatever the entrypoint returns, its charge is paid and it is the result. *)
Lemma program_runs invoke tc o tc' :
  Entrypoint env tc = (o, tc') -> o <> Panic ->
  run_program system_builtin invoke system_program_id system_program_id (state tc limit 0) =
    (o, state tc' (limit - DEFAULT_COMPUTE_UNITS) DEFAULT_COMPUTE_UNITS).
Proof.
  intros He Ho. unfold run_program, system_builtin, declare_process_instruction.
  change (0 <? DEFAULT_COMPUTE_UNITS) with true. cbn iota. unfold bind at 1, consume_checked at 1.
  unfold bind at 1, gets at 1, bind at 1, modify at 1. cbn [compute_meter].
  destruct (Z.ltb_spec limit DEFAULT_COMPUTE_UNITS); [lia|]. cbn iota beta.
  unfold ret at 1, as_program, bind, gets, on_tc, zoom. cbn.
  unfold saturating_sub. rewrite saturating_small by (unfold in_range, DEFAULT_COMPUTE_UNITS in *; simpl in *; lia).
  rewrite He. cbn.
  rewrite saturating_small by (unfold in_range, DEFAULT_COMPUTE_UNITS in *; simpl in *; lia).
  replace (limit - (limit - DEFAULT_COMPUTE_UNITS)) with DEFAULT_COMPUTE_UNITS by lia.
  rewrite bool_decide_eq_true_2 by done. by destruct o.
Qed.

Lemma chain_runs invoke (a b : AccountSharedData) touched sum rd o tc' :
  Entrypoint env (running (RefCell_new a) (RefCell_new b) touched sum) = (o, tc') -> o <> Panic ->
  process_executable_chain find_builtin invoke
    (state (with_return_data rd (running (RefCell_new a) (RefCell_new b) touched sum)) limit 0) =
    (o, state tc' (limit - DEFAULT_COMPUTE_UNITS) DEFAULT_COMPUTE_UNITS).
Proof.
  intros He Ho. unfold process_executable_chain. unfold bind at 1.
  set (tc := with_return_data rd (running (RefCell_new a) (RefCell_new b) touched sum)).
  change (on_tc (query get_current_instruction_context) (state tc limit 0)) with
    (Ok (ic sum) : Res InstructionContext, state tc limit 0). cbn iota beta.
  unfold bind at 1.
  assert (on_tc (builtin_id_of (ic sum)) (state tc limit 0) =
    (Ok system_program_id, state tc limit 0)) as ->.
  { unfold on_tc, zoom. cbn [transaction_context]. unfold builtin_id_of.
    change (try_borrow_program_account (ic sum) 0 tc) with
      (Ok (mkBorrowedAccount (ic sum) 2 0) : Res BorrowedAccount, set_cell 2 (mkRefCell p (-1)) tc). cbn iota beta.
    unfold finally, bind, query.
    change (borrowed _ _) with (Ok p : Res AccountSharedData). cbn iota beta.
    rewrite (bool_decide_eq_true_2 _ Hp). reflexivity. }
  cbn iota beta. unfold bind at 1, lift at 1. rewrite Hbuiltin. cbn [ok_or]. cbn iota beta.
  unfold bind at 1, lift at 1. cbn [ok_or]. cbn iota beta. unfold bind at 1.
  change (on_tc (query (get_last_program_key (ic sum))) (state tc limit 0)) with
    (Ok system_program_id : Res Pubkey, state tc limit 0). cbn iota beta. unfold bind at 1.
  change (on_tc (set_return_data system_program_id []) (state tc limit 0)) with
    (Ok tt : Res unit, state (running (RefCell_new a) (RefCell_new b) touched sum) limit 0). cbn iota beta.
  by apply program_runs.
Qed.

Lemma invoke_pop_runs (a b : AccountSharedData) touched sum meter consumed :
  0 <= acc_lamports a <= int_max U64 -> 0 <= acc_lamports b <= int_max U64 ->
  sum = acc_lamports b + acc_lamports a ->
  invoke_pop (state (running (RefCell_new a) (RefCell_new b) touched sum) meter consumed) =
    (Ok tt, mkInvokeContext (ended a b touched sum) env limit meter [] [] consumed).
Proof.
  intros Ha Hb Hsum. unfold invoke_pop, bind at 1, modify at 1. cbn -[pop running ended].
  unfold on_tc, zoom. cbn [with_syscall_context transaction_context]. by rewrite pop_runs.
Qed.

(** The instruction from its first step to its last. *)
Lemma instruction_runs fuel (a b a' b' : AccountSharedData) touched o :
  let sum := acc_lamports b + acc_lamports a in
  0 <= acc_lamports a <= int_max U64 -> 0 <= acc_lamports b <= int_max U64 ->
  0 <= acc_lamports a' <= int_max U64 -> 0 <= acc_lamports b' <= int_max U64 ->
  sum = acc_lamports b' + acc_lamports a' -> 1 <= stack_capacity -> 1 <= trace_capacity ->
  Entrypoint env (running (RefCell_new a) (RefCell_new b) [false; false; false] sum) =
    (o, running (RefCell_new a') (RefCell_new b') touched sum) -> o <> Panic ->
  process_instruction find_builtin (S fuel) data transfer_accounts [2]
    (InvokeContext_new (loaded a b) env limit) =
    (o, mkInvokeContext (ended a' b' touched sum) env limit (limit - DEFAULT_COMPUTE_UNITS) [] []
          DEFAULT_COMPUTE_UNITS).
Proof.
  intros sum Ha Hb Ha' Hb' Hsum Hs Ht He Ho. cbn [process_instruction]. unfold process_instruction_with.
  unfold bind at 1, modify at 1. unfold bind at 1.
  change (on_tc (update_next_instruction_context _) _) with
    (Ok tt : Res unit, mkInvokeContext (with_trace [ic 0] (loaded a b)) env limit limit [] [] 0).
  cbn iota beta. unfold bind at 1, invoke_push, bind at 1.
  change (on_tc (query check_reentrancy) _) with
    (Ok tt : Res unit, mkInvokeContext (with_trace [ic 0] (loaded a b)) env limit limit [] [] 0).
  cbn iota beta. unfold bind at 1, modify at 1. unfold on_tc at 1, zoom at 1. cbn [transaction_context].
  pose proof (push_runs a b Ha Hb Hs Ht) as Hpush. unfold bind at 1 in Hpush.
  change (update_next_instruction_context _ (loaded a b)) with
    (Ok tt : Res unit, with_trace [ic 0] (loaded a b)) in Hpush. cbn iota beta in Hpush.
  cbn [with_syscall_context transaction_context].
  rewrite Hpush. clear Hpush. fold sum. cbn iota beta. unfold and_always.
  change (with_transaction_context ?tc (with_syscall_context _ _)) with (state tc limit 0).
  rewrite (chain_runs _ _ _ _ _ _ _ _ He Ho), invoke_pop_runs by done.
  by destruct o as [[]| |].
Qed.

End run.

(** ** The message *)

Section transfer.
Context {Hhash : Hashing} {Hids : ProgramIds} {Hmids : MessageIds} {Hv : Bincode Versions}.
Context {Hborsh : Borsh} {Hborsh_ok : BorshOk}.
Context {Hlimited : BincodeLimited SystemInstruction} {Hdecode : BincodeFixintLimited}.
Context (find_builtin : Pubkey -> option (option Builtin)) (is_precompile : Pubkey -> bool).
Context (Hbuiltin : find_builtin system_program_id = Some (Some system_builtin)).
Context (Hprecompile : is_precompile system_program_id = false).

(** The balances are [u64]. *)
Definition balance_wf (a : AccountSharedData) : Prop := 0 <= acc_lamports a <= int_max U64.

(** An account that the system program may debit. *)
Definition debitable (a : AccountSharedData) : Prop :=
  balance_wf a /\ acc_owner a = system_program_id /\ acc_executable a = false /\ acc_data a = [].

Lemma transfer_decodes amount : in_range U64 amount ->
  limited_deserialize (instruction_bytes (Transfer amount)) = Ok (Transfer amount).
Proof.
  intros Ha. unfold limited_deserialize, program_limited_deserialize.
  rewrite <-(app_nil_r (instruction_bytes _)). rewrite bincode_fixint_limited; [done|done|done|].
  vm_compute. split; discriminate.
Qed.

Lemma message_runs from to blockhash data p r stack_capacity trace_capacity a b env limit units fuel o s' :
  sysvar_instructions_id ∉ [from; to; system_program_id] ->
  process_instruction find_builtin fuel data transfer_accounts [2]
    (InvokeContext_new (loaded from to p r stack_capacity trace_capacity a b) env limit) = (o, s') ->
  process_message find_builtin is_precompile fuel (sanitized_transfer from to blockhash data) [[2]]
    (loaded from to p r stack_capacity trace_capacity a b) env limit units =
  (map_err (TransactionError.InstructionError 0) o,
   (s', saturating_add U64 units (compute_units_consumed s'))).
Proof.
  intros Hsys Hrun. unfold process_message.
  change (zip (Sanitized.program_instructions_iter (sanitized_transfer from to blockhash data)) [[2]]) with
    [(Some system_program_id, mkCompiledInstruction 2 [0; 1] data, [2])].
  cbn [process_instructions]. unfold bind at 1, process_one.
  unfold bind at 1, lift at 1. cbn [unwrap]. cbn iota beta. unfold bind at 1. cbn [transaction_context InvokeContext_new].
  unfold fixup_instructions_sysvar.
  assert (find_index_of_account sysvar_instructions_id (loaded from to p r stack_capacity trace_capacity a b) = None)
    as ->.
  { unfold find_index_of_account. cbn. rewrite !not_elem_of_cons in Hsys. destruct_and!. by decide_keys. }
  rewrite Hprecompile. cbn iota beta. cbn [ci_accounts ci_data].
  change (message_accounts _ [0; 1]) with transfer_accounts.
  change (with_transaction_context _ _) with
    (InvokeContext_new (loaded from to p r stack_capacity trace_capacity a b) env limit).
  rewrite Hrun. by destruct o as [[]| |].
Qed.

(** C2: a transfer made with the client does what it says, from the client to the
    accounts.  The client's instruction compiles into a message that passes the
    sanitizer.  Processing the message, on accounts that are loaded for its keys, with
    room for one call and compute units for it, succeeds if the source has the
    lamports and no overflow happens: the source has been debited, the destination
    credited and nothing else changed.  If it has not, the message fails with the
    error of the first instruction and no account has changed.  Either way the
    units of the program are charged. *)
Theorem client_transfer_executes (from to : Pubkey) (amount : Z) (blockhash : Hash) (a b p : AccountSharedData)
    (r : Rent) (stack_capacity trace_capacity : Z) (env : Environment) (limit units : Z) (fuel : nat) :
  NoDup [from; to; system_program_id] ->
  is_builtin_key_or_sysvar from = false -> is_builtin_key_or_sysvar to = false ->
  sysvar_instructions_id ∉ [from; to; system_program_id] ->
  debitable a -> balance_wf b -> acc_executable b = false -> acc_owner p = native_loader_id ->
  in_range U64 amount -> acc_lamports b + amount <= int_max U64 ->
  1 <= stack_capacity -> 1 <= trace_capacity -> DEFAULT_COMPUTE_UNITS <= limit <= int_max U64 ->
  0 <= units -> units + DEFAULT_COMPUTE_UNITS <= int_max U64 ->
  exists ix message sanitized,
    client_instruction (RequestTransferSol from to (TransferSol.mkInstructionArgs amount)) [] = Ok ix /\
    Legacy.new_with_blockhash [ix] (Some from) blockhash = Ok message /\
    Legacy.account_keys message = [from; to; system_program_id] /\
    Sanitized.try_from_legacy_message message = Ok sanitized /\
    exists o s', process_message find_builtin is_precompile (S fuel) sanitized [[2]]
        (loaded from to p r stack_capacity trace_capacity a b) env limit units =
        (o, (s', units + DEFAULT_COMPUTE_UNITS)) /\
      let after := into_accounts (accounts (transaction_context s')) in
      if amount <=? acc_lamports a then
        o = Ok tt /\ after = [account_set_lamports (acc_lamports a - amount) a;
                              account_set_lamports (acc_lamports b + amount) b; p]
      else
        o = Err (TransactionError.InstructionError 0
                   (SystemError.into SystemError.ResultWithNegativeLamports)) /\ after = [a; b; p].
Proof.
  intros Hd Hf Ht Hsys (Ha & Ho & Hx & Hdata) Hb Hxb Hp Ham Hover Hsc Htc Hlim Hu Hu'.
  pose proof (client_instruction_eq (RequestTransferSol from to (TransferSol.mkInstructionArgs amount)) []) as Hix.
  eexists _, _, _. split; [exact Hix|]. split; [by apply transfer_compiles|]. split; [done|].
  split; [by apply transfer_sanitizes|]. cbn [request_instruction].
  pose proof (transfer_decodes amount Ham) as Hdec. set (data := instruction_bytes (Transfer amount)) in *.
  unfold balance_wf in *. unfold in_range in Ham. simpl int_min in Ham.
  assert (saturating_add U64 units DEFAULT_COMPUTE_UNITS = units + DEFAULT_COMPUTE_UNITS) as Hunits.
  { apply saturating_small. unfold in_range, DEFAULT_COMPUTE_UNITS in *. simpl in *. lia. }
  destruct (Z.leb_spec amount (acc_lamports a)) as [Hle|Hgt].
  - destruct (transfer_runs from to p r stack_capacity trace_capacity data env a b amount false false false
      (acc_lamports b + acc_lamports a)) as (t & t' & Hrun); try done; [lia..|].
    rewrite <-(entrypoint_transfers _ _ _ _ _ _ _ env _ _ amount) in Hrun by done.
    apply (instruction_runs _ _ _ _ _ _ _ find_builtin env limit Hbuiltin Hp Hlim fuel) in Hrun;
      [|done|done|simpl in *; lia..|done|done|done].
    eexists _, _. rewrite (message_runs _ _ _ _ _ _ _ _ _ _ _ _ _ _ _ _ Hsys Hrun).
    cbn [compute_units_consumed]. by rewrite Hunits.
  - pose proof (transfer_fails from to p r stack_capacity trace_capacity data env a b amount [false; false; false]
      (acc_lamports b + acc_lamports a) Hdata Hgt) as Hrun.
    rewrite <-(entrypoint_transfers _ _ _ _ _ _ _ env _ _ amount) in Hrun by done.
    apply (instruction_runs _ _ _ _ _ _ _ find_builtin env limit Hbuiltin Hp Hlim fuel) in Hrun; [|done..].
    eexists _, _. rewrite (message_runs _ _ _ _ _ _ _ _ _ _ _ _ _ _ _ _ Hsys Hrun).
    cbn [compute_units_consumed]. by rewrite Hunits.
Qed.

End transfer.
