(* ===== verification/Kit.v ===== *)
(** * The codecs and types of @solana/kit

    The JavaScript client is written with the codecs, account roles and signers of
    the package @solana/kit, which is not in the repository: they are the class
    [Kit], and what the documentation of the package says of them is [KitOk].  An
    encoder is the function that makes the bytes of a value, a decoder the function
    [read] that takes bytes and an offset to a value and the offset after it, and a
    function that throws returns its message. *)

From S2P Require Import Prelude Account ClientRules.

Abbreviation Address := String.string.
Abbreviation JsRes := (Outcome String.string).

Abbreviation Encoder A := (A -> JsRes Bytes).
Abbreviation Decoder A := (Bytes -> Z -> JsRes (A * Z)).

(** The fields of [getStructEncoder]: their names, and the encoders with the
    property of the object that they encode. *)
Abbreviation EncoderFields A := (list (String.string * Encoder A)).

(** The fields of [getStructDecoder]; the object is the tuple of its properties. *)
Inductive DecoderFields : Type -> Type :=
| NoFields : DecoderFields unit
| Field {A B : Type} (name : String.string) (decoder : Decoder A) (rest : DecoderFields B)
    : DecoderFields (A * B).

(** Accounts as they are fetched; [B] is what is known of an account apart from
    its address and its data. *)
Record Account (B T : Type) := mkAccount { address : Address; data : T; base : B }.
Arguments mkAccount {B T}.
Arguments address {B T}.
Arguments data {B T}.
Arguments base {B T}.

Inductive MaybeAccount (B T : Type) : Type :=
| Exists (account : Account B T)
| Missing (address : Address).
Arguments Exists {B T}.
Arguments Missing {B T}.

Class Kit := {
  (** Strings, signers, roles and the fields of accounts. *)
  JsString : Type;
  TransactionSigner : Type;
  AccountRole : Type;
  BaseAccount : Type;
  signer_address : TransactionSigner -> Address;
  kitIsTransactionSigner : TransactionSigner -> bool;
  isProgramDerivedAddress : Address -> Z -> bool;
  READONLY : AccountRole;
  WRITABLE : AccountRole;
  upgradeRoleToSigner : AccountRole -> AccountRole;
  isSignerRole : AccountRole -> bool;
  isWritableRole : AccountRole -> bool;
  BASE_ACCOUNT_SIZE : Z;
  (** Encoders. *)
  getU32Encoder : Encoder Z;
  getU64Encoder : Encoder Z;
  getAddressEncoder : Encoder Address;
  getUtf8Encoder : Encoder JsString;
  addEncoderSizePrefix : forall {A}, Encoder A -> Encoder Z -> Encoder A;
  getStructEncoder : forall {A}, EncoderFields A -> Encoder A;
  (** [getEnumEncoder(enum, {size})], with the numbers of the enum's values *)
  getEnumEncoder : forall {A}, (A -> Z) -> Encoder Z -> Encoder A;
  transformEncoder : forall {A B}, Encoder A -> (B -> A) -> Encoder B;
  (** Decoders. *)
  getU32Decoder : Decoder Z;
  getU64Decoder : Decoder Z;
  getAddressDecoder : Decoder Address;
  getUtf8Decoder : Decoder JsString;
  addDecoderSizePrefix : forall {A}, Decoder A -> Decoder Z -> Decoder A;
  getStructDecoder : forall {A}, DecoderFields A -> Decoder A;
  (** [getEnumDecoder(enum, {size})], with the values of the enum in their order *)
  getEnumDecoder : forall {A}, list A -> Decoder Z -> Decoder A;
  decode : forall {A}, Decoder A -> Bytes -> JsRes A;
  containsBytes : Bytes -> Bytes -> Z -> bool;
  (** Accounts. *)
  decodeAccount : forall {A}, MaybeAccount BaseAccount Bytes -> Decoder A -> JsRes (MaybeAccount BaseAccount A);
  assertAccountExists : forall {A}, MaybeAccount BaseAccount A -> JsRes unit;
  assertAccountsExist : forall {A}, list (MaybeAccount BaseAccount A) -> JsRes unit;
}.

(** [combineCodec] makes one object of the two. *)
Record Codec (A B : Type) := combineCodec { codec_encode : Encoder A; codec_read : Decoder B }.
Arguments combineCodec {A B}.
Arguments codec_encode {A B}.
Arguments codec_read {A B}.

Section kit.
Context {Hkit : Kit}.

(** What a struct encodes to: its fields one after the other. *)
Fixpoint encode_fields {A} (fields : EncoderFields A) (value : A) : JsRes Bytes :=
  match fields with
  | [] => Ok []
  | (_, encoder) :: fields =>
      let! bs := encoder value in
      let! rest := encode_fields fields value in
      Ok (bs ++ rest)
  end.

Fixpoint read_fields {A} (fields : DecoderFields A) : Decoder A :=
  match fields with
  | NoFields => fun _ offset => Ok (tt, offset)
  | Field _ decoder rest => fun bytes offset =>
      let! r := decoder bytes offset in
      let! rs := read_fields rest bytes (snd r) in
      Ok ((fst r, fst rs), snd rs)
  end.

End kit.

(** [bytes.slice(offset, offset + n)] *)
Definition slice (bytes : Bytes) (offset n : Z) : Bytes := take (Z.to_nat n) (drop (Z.to_nat offset) bytes).

(** What the documentation of kit says of its functions.  [address_of] is the
    base 58 text of a key and [string_of] the string of UTF-8 bytes; the decoder
    of strings drops null characters. *)
Class KitOk {Hkit : Kit} {Hids : ProgramIds} (address_of : Pubkey -> Address)
    (string_of : Bytes -> JsString) : Prop := {
  u32_encodes n : in_range U32 n -> getU32Encoder n = Ok (le_bytes 4 n);
  u64_encodes n : in_range U64 n -> getU64Encoder n = Ok (le_bytes 8 n);
  address_encodes k : pubkey_wf k -> getAddressEncoder (address_of k) = Ok k;
  utf8_encodes bs : utf8_valid bs = true -> getUtf8Encoder (string_of bs) = Ok bs;
  prefix_encodes {A} (encoder : Encoder A) prefix value bs n :
    encoder value = Ok bs -> prefix (vec_len bs) = Ok n ->
    addEncoderSizePrefix encoder prefix value = Ok (n ++ bs);
  struct_encodes {A} (fields : EncoderFields A) value :
    getStructEncoder fields value = encode_fields fields value;
  enum_encodes {A} (index : A -> Z) (size : Encoder Z) value :
    getEnumEncoder index size value = size (index value);
  transform_encodes {A B} (encoder : Encoder A) (f : B -> A) value :
    transformEncoder encoder f value = encoder (f value);
  u32_reads pre bs rest : length bs = 4%nat -> Forall is_byte bs ->
    getU32Decoder (pre ++ bs ++ rest) (vec_len pre) = Ok (of_le_bytes bs, vec_len pre + 4);
  u64_reads pre bs rest : length bs = 8%nat -> Forall is_byte bs ->
    getU64Decoder (pre ++ bs ++ rest) (vec_len pre) = Ok (of_le_bytes bs, vec_len pre + 8);
  address_reads pre k rest : pubkey_wf k ->
    getAddressDecoder (pre ++ k ++ rest) (vec_len pre) = Ok (address_of k, vec_len pre + 32);
  utf8_reads bs : utf8_valid bs = true -> Forall (fun b => b <> 0) bs ->
    getUtf8Decoder bs 0 = Ok (string_of bs, vec_len bs);
  prefix_reads {A} (decoder : Decoder A) prefix bytes offset n offset' :
    prefix bytes offset = Ok (n, offset') -> 0 <= n -> 0 <= offset' -> offset' + n <= vec_len bytes ->
    addDecoderSizePrefix decoder prefix bytes offset =
      (let! value := decode decoder (slice bytes offset' n) in Ok (value, offset' + n));
  struct_reads {A} (fields : DecoderFields A) bytes offset :
    getStructDecoder fields bytes offset = read_fields fields bytes offset;
  enum_reads {A} (values : list A) size bytes offset n offset' value :
    size bytes offset = Ok (n, offset') -> vec_get values n = Some value ->
    getEnumDecoder values size bytes offset = Ok (value, offset');
  decode_reads {A} (decoder : Decoder A) bytes value offset' :
    decoder bytes 0 = Ok (value, offset') -> decode decoder bytes = Ok value;
  contains_bytes data bytes offset : 0 <= offset ->
    containsBytes data bytes offset = bool_decide (slice data offset (vec_len bytes) = bytes);
  decode_existing {A} (decoder : Decoder A) a bs b value : decode decoder bs = Ok value ->
    decodeAccount (Exists (mkAccount a bs b)) decoder = Ok (Exists (mkAccount a value b));
  decode_missing {A} (decoder : Decoder A) a : decodeAccount (Missing a) decoder = Ok (Missing a);
  assert_existing {A} (account : Account BaseAccount A) : assertAccountExists (Exists account) = Ok tt;
  (** Roles and signers. *)
  signer_is_signer s : kitIsTransactionSigner s = true;
  readonly_role : isSignerRole READONLY = false /\ isWritableRole READONLY = false;
  writable_role : isSignerRole WRITABLE = false /\ isWritableRole WRITABLE = true;
  upgraded_role role : isSignerRole (upgradeRoleToSigner role) = true /\
    isWritableRole (upgradeRoleToSigner role) = isWritableRole role;
  (** Addresses are texts in base 58. *)
  address_not_empty k : pubkey_wf k -> address_of k <> ""%string;
  system_address : address_of system_program_id = "11111111111111111111111111111111"%string;
  recent_blockhashes_address :
    address_of sysvar_recent_blockhashes_id = "SysvarRecentB1ockHashes11111111111111111111"%string;
  rent_address : address_of sysvar_rent_id = "SysvarRent111111111111111111111111111111111"%string;
  ids_wf : pubkey_wf system_program_id /\ pubkey_wf sysvar_recent_blockhashes_id /\ pubkey_wf sysvar_rent_id;
}.
