(* ===== verification/JsClient.v ===== *)
(** * The JavaScript client (clients/js/src/generated)

    One module per instruction of the system program: the encoder and decoder of
    its data, the function that makes the instruction of an input and the one that
    parses it.  Objects are records, with a prefix where several types have the same
    property; [undefined] and [null] are [None], and an empty string is no value,
    as it is falsy.  Codecs, roles and signers are those of [Kit]. *)

From S2P Require Import Prelude Rent Account Kit.
From Stdlib Require Import SpecFloat.

(** The sum of two numbers. *)
Definition f64_add (x y : F64.f64) : F64.f64 := SFadd F64.prec F64.emax x y.

(** ** Shared (shared/index.ts, programs/system.ts) *)

Definition SYSTEM_PROGRAM_ADDRESS : Address := "11111111111111111111111111111111"%string.

Section shared.
Context {Hkit : Kit}.

Inductive Value : Type :=
| VAddress (address : Address)
| VProgramDerivedAddress (address : Address) (bump : Z)
| VSigner (signer : TransactionSigner).

Definition truthy (value : option Value) : bool :=
  match value with None | Some (VAddress ""%string) => false | Some _ => true end.

Definition expectSome {T} (value : option T) : JsRes T :=
  match value with
  | None => Err "Expected a value but received null or undefined."%string
  | Some value => Ok value
  end.

Definition expectAddress (value : option Value) : JsRes Address :=
  if truthy value then
    match value with
    | Some (VSigner signer) => Ok (signer_address signer)
    | Some (VProgramDerivedAddress address _) => Ok address
    | Some (VAddress address) => Ok address
    | None => Err "Expected a Address."%string
    end
  else Err "Expected a Address."%string.

Definition expectProgramDerivedAddress (value : option Value) : JsRes (Address * Z) :=
  match value with
  | Some (VProgramDerivedAddress address bump) =>
      if isProgramDerivedAddress address bump then Ok (address, bump)
      else Err "Expected a ProgramDerivedAddress."%string
  | _ => Err "Expected a ProgramDerivedAddress."%string
  end.

Definition isTransactionSigner (value : option Value) : bool :=
  match value with Some (VSigner signer) => kitIsTransactionSigner signer | _ => false end.

Definition expectTransactionSigner (value : option Value) : JsRes TransactionSigner :=
  match value with
  | Some (VSigner signer) =>
      if kitIsTransactionSigner signer then Ok signer else Err "Expected a TransactionSigner."%string
  | _ => Err "Expected a TransactionSigner."%string
  end.

Record ResolvedAccount := mkResolvedAccount { value : option Value; isWritable : bool }.

(** [AccountMeta | AccountSignerMeta] *)
Record JsAccountMeta := mkJsAccountMeta {
  meta_address : Address;
  meta_role : AccountRole;
  meta_signer : option Value;
}.

Inductive OptionalAccountStrategy : Type := Omitted | ProgramId.

Definition getAccountMetaFactory (programAddress : Address)
    (optionalAccountStrategy : OptionalAccountStrategy) (account : ResolvedAccount)
  : JsRes (option JsAccountMeta) :=
  if negb (truthy (value account)) then
    match optionalAccountStrategy with
    | Omitted => Ok None
    | ProgramId => Ok (Some (mkJsAccountMeta programAddress READONLY None))
    end
  else
    let writableRole := if isWritable account then WRITABLE else READONLY in
    let! address := expectAddress (value account) in
    let signs := isTransactionSigner (value account) in
    Ok (Some (mkJsAccountMeta address (if signs then upgradeRoleToSigner writableRole else writableRole)
                (if signs then value account else None))).

(** [if (!accounts.name.value) accounts.name.value = address] *)
Definition resolve_default (account : ResolvedAccount) (address : Address) : ResolvedAccount :=
  if truthy (value account) then account else mkResolvedAccount (Some (VAddress address)) (isWritable account).

(** [Instruction], with the byte delta that one instruction adds. *)
Record JsInstruction := mkJsInstruction {
  js_accounts : list (option JsAccountMeta);
  js_byteDelta : option F64.f64;
  js_data : Bytes;
  js_programAddress : Address;
}.

(** What the parsers return. *)
Record ParsedInstruction (A D : Type) := mkParsedInstruction {
  parsed_programAddress : Address;
  parsed_accounts : A;
  parsed_data : D;
}.

(** The variables of a parser, and the closures over them. *)
Record Cursor := mkCursor { accountIndex : Z; optionalAccountsRemaining : Z }.

Definition getNextAccount (metas : list (option JsAccountMeta)) : M Cursor String.string (option JsAccountMeta) :=
  let? c := gets id in
  modify (fun c => mkCursor (accountIndex c + 1) (optionalAccountsRemaining c)) ;?
  ret (mjoin (vec_get metas (accountIndex c))).

Definition getNextOptionalAccount (metas : list (option JsAccountMeta))
  : M Cursor String.string (option JsAccountMeta) :=
  let? c := gets id in
  if optionalAccountsRemaining c =? 0 then ret None
  else
    modify (fun c => mkCursor (accountIndex c) (optionalAccountsRemaining c - 1)) ;?
    getNextAccount metas.

End shared.

Arguments mkParsedInstruction {A D}.
Arguments parsed_programAddress {A D}.
Arguments parsed_accounts {A D}.
Arguments parsed_data {A D}.

(** ** The instructions (instructions/) *)

Module JsCreateAccount.

Definition CREATE_ACCOUNT_DISCRIMINATOR : Z := 0.

Section client.
Context {Hkit : Kit}.

Record CreateAccountInstructionData := mkData {
  data_discriminator : Z; data_lamports : Z; data_space : Z; data_programAddress : Address }.
Record CreateAccountInstructionDataArgs := mkArgs {
  args_lamports : Z; args_space : Z; args_programAddress : Address }.
Record CreateAccountInput := mkInput {
  input_payer : TransactionSigner; input_newAccount : TransactionSigner; input_lamports : Z;
  input_space : Z; input_programAddress : Address }.
Record ParsedCreateAccountAccounts := mkParsedAccounts {
  parsed_payer : option JsAccountMeta; parsed_newAccount : option JsAccountMeta }.

Definition getCreateAccountDiscriminatorBytes : JsRes Bytes := getU32Encoder
    CREATE_ACCOUNT_DISCRIMINATOR.

Definition getCreateAccountInstructionDataEncoder : Encoder CreateAccountInstructionDataArgs :=
  transformEncoder
    (getStructEncoder
      [("discriminator"%string, fun value => getU32Encoder (data_discriminator value));
       ("lamports"%string, fun value => getU64Encoder (data_lamports value));
       ("space"%string, fun value => getU64Encoder (data_space value));
       ("programAddress"%string, fun value => getAddressEncoder (data_programAddress value))])
    (fun value : CreateAccountInstructionDataArgs => mkData CREATE_ACCOUNT_DISCRIMINATOR
        (args_lamports value) (args_space value) (args_programAddress value)).

Definition getCreateAccountInstructionDataDecoder : Decoder CreateAccountInstructionData := fun bytes
    offset =>
  let! r := getStructDecoder
    (Field "discriminator"%string getU32Decoder
    (Field "lamports"%string getU64Decoder
    (Field "space"%string getU64Decoder
    (Field "programAddress"%string getAddressDecoder NoFields)))) bytes offset in
  let '((discriminator, (lamports, (space, (programAddress, tt)))), offset) := r in
  Ok (mkData discriminator lamports space programAddress, offset).

Definition getCreateAccountInstructionDataCodec : Codec CreateAccountInstructionDataArgs
    CreateAccountInstructionData :=
  combineCodec getCreateAccountInstructionDataEncoder getCreateAccountInstructionDataDecoder.

Definition getCreateAccountInstruction (input : CreateAccountInput) (config : option Address) : JsRes
    JsInstruction :=
  let programAddress := default SYSTEM_PROGRAM_ADDRESS config in
  let payer := mkResolvedAccount (Some (VSigner (input_payer input))) true in
  let newAccount := mkResolvedAccount (Some (VSigner (input_newAccount input))) true in
  let args := mkArgs (input_lamports input) (input_space input) (input_programAddress input) in
  let byteDelta := f64_add (F64.of_u64 0)
    (f64_add (F64.of_u64 (args_space args)) (F64.of_u64 BASE_ACCOUNT_SIZE)) in
  let getAccountMeta := getAccountMetaFactory programAddress Omitted in
  let! payer := getAccountMeta payer in
  let! newAccount := getAccountMeta newAccount in
  let! data := getCreateAccountInstructionDataEncoder args in
  Ok (mkJsInstruction [payer; newAccount] (Some byteDelta) data programAddress).

Definition parseCreateAccountInstruction (instruction : JsInstruction)
  : JsRes (ParsedInstruction ParsedCreateAccountAccounts CreateAccountInstructionData) :=
  let metas := js_accounts instruction in
  if vec_len metas <? 2 then Err "Not enough accounts"%string
  else
    let! accounts := fst ((
      let? payer := getNextAccount metas in
      let? newAccount := getNextAccount metas in
      ret (mkParsedAccounts payer newAccount)) (mkCursor 0 (vec_len metas - 2))) in
    let! data := decode getCreateAccountInstructionDataDecoder (js_data instruction) in
    Ok (mkParsedInstruction (js_programAddress instruction) accounts data).

End client.
End JsCreateAccount.

Module JsAssign.

Definition ASSIGN_DISCRIMINATOR : Z := 1.

Section client.
Context {Hkit : Kit}.

Record AssignInstructionData := mkData { data_discriminator : Z; data_programAddress : Address }.
Record AssignInstructionDataArgs := mkArgs { args_programAddress : Address }.
Record AssignInput := mkInput { input_account : TransactionSigner; input_programAddress : Address }.
Record ParsedAssignAccounts := mkParsedAccounts { parsed_account : option JsAccountMeta }.

Definition getAssignDiscriminatorBytes : JsRes Bytes := getU32Encoder ASSIGN_DISCRIMINATOR.

Definition getAssignInstructionDataEncoder : Encoder AssignInstructionDataArgs :=
  transformEncoder
    (getStructEncoder
      [("discriminator"%string, fun value => getU32Encoder (data_discriminator value));
       ("programAddress"%string, fun value => getAddressEncoder (data_programAddress value))])
    (fun value : AssignInstructionDataArgs => mkData ASSIGN_DISCRIMINATOR (args_programAddress value)).

Definition getAssignInstructionDataDecoder : Decoder AssignInstructionData := fun bytes offset =>
  let! r := getStructDecoder
    (Field "discriminator"%string getU32Decoder
    (Field "programAddress"%string getAddressDecoder NoFields)) bytes offset in
  let '((discriminator, (programAddress, tt)), offset) := r in
  Ok (mkData discriminator programAddress, offset).

Definition getAssignInstructionDataCodec : Codec AssignInstructionDataArgs AssignInstructionData :=
  combineCodec getAssignInstructionDataEncoder getAssignInstructionDataDecoder.

Definition getAssignInstruction (input : AssignInput) (config : option Address) : JsRes JsInstruction :=
  let programAddress := default SYSTEM_PROGRAM_ADDRESS config in
  let account := mkResolvedAccount (Some (VSigner (input_account input))) true in
  let args := mkArgs (input_programAddress input) in
  let getAccountMeta := getAccountMetaFactory programAddress Omitted in
  let! account := getAccountMeta account in
  let! data := getAssignInstructionDataEncoder args in
  Ok (mkJsInstruction [account] None data programAddress).

Definition parseAssignInstruction (instruction : JsInstruction)
  : JsRes (ParsedInstruction ParsedAssignAccounts AssignInstructionData) :=
  let metas := js_accounts instruction in
  if vec_len metas <? 1 then Err "Not enough accounts"%string
  else
    let! accounts := fst ((
      let? account := getNextAccount metas in
      ret (mkParsedAccounts account)) (mkCursor 0 (vec_len metas - 1))) in
    let! data := decode getAssignInstructionDataDecoder (js_data instruction) in
    Ok (mkParsedInstruction (js_programAddress instruction) accounts data).

End client.
End JsAssign.

Module JsTransferSol.

Definition TRANSFER_SOL_DISCRIMINATOR : Z := 2.

Section client.
Context {Hkit : Kit}.

Record TransferSolInstructionData := mkData { data_discriminator : Z; data_amount : Z }.
Record TransferSolInstructionDataArgs := mkArgs { args_amount : Z }.
Record TransferSolInput := mkInput {
  input_source : TransactionSigner; input_destination : Address; input_amount : Z }.
Record ParsedTransferSolAccounts := mkParsedAccounts {
  parsed_source : option JsAccountMeta; parsed_destination : option JsAccountMeta }.

Definition getTransferSolDiscriminatorBytes : JsRes Bytes := getU32Encoder TRANSFER_SOL_DISCRIMINATOR.

Definition getTransferSolInstructionDataEncoder : Encoder TransferSolInstructionDataArgs :=
  transformEncoder
    (getStructEncoder
      [("discriminator"%string, fun value => getU32Encoder (data_discriminator value));
       ("amount"%string, fun value => getU64Encoder (data_amount value))])
    (fun value : TransferSolInstructionDataArgs => mkData TRANSFER_SOL_DISCRIMINATOR (args_amount
        value)).

Definition getTransferSolInstructionDataDecoder : Decoder TransferSolInstructionData := fun bytes offset
    =>
  let! r := getStructDecoder
    (Field "discriminator"%string getU32Decoder
    (Field "amount"%string getU64Decoder NoFields)) bytes offset in
  let '((discriminator, (amount, tt)), offset) := r in
  Ok (mkData discriminator amount, offset).

Definition getTransferSolInstructionDataCodec : Codec TransferSolInstructionDataArgs
    TransferSolInstructionData :=
  combineCodec getTransferSolInstructionDataEncoder getTransferSolInstructionDataDecoder.

Definition getTransferSolInstruction (input : TransferSolInput) (config : option Address) : JsRes
    JsInstruction :=
  let programAddress := default SYSTEM_PROGRAM_ADDRESS config in
  let source := mkResolvedAccount (Some (VSigner (input_source input))) true in
  let destination := mkResolvedAccount (Some (VAddress (input_destination input))) true in
  let args := mkArgs (input_amount input) in
  let getAccountMeta := getAccountMetaFactory programAddress Omitted in
  let! source := getAccountMeta source in
  let! destination := getAccountMeta destination in
  let! data := getTransferSolInstructionDataEncoder args in
  Ok (mkJsInstruction [source; destination] None data programAddress).

Definition parseTransferSolInstruction (instruction : JsInstruction)
  : JsRes (ParsedInstruction ParsedTransferSolAccounts TransferSolInstructionData) :=
  let metas := js_accounts instruction in
  if vec_len metas <? 2 then Err "Not enough accounts"%string
  else
    let! accounts := fst ((
      let? source := getNextAccount metas in
      let? destination := getNextAccount metas in
      ret (mkParsedAccounts source destination)) (mkCursor 0 (vec_len metas - 2))) in
    let! data := decode getTransferSolInstructionDataDecoder (js_data instruction) in
    Ok (mkParsedInstruction (js_programAddress instruction) accounts data).

End client.
End JsTransferSol.

Module JsCreateAccountWithSeed.

Definition CREATE_ACCOUNT_WITH_SEED_DISCRIMINATOR : Z := 3.

Section client.
Context {Hkit : Kit}.

Record CreateAccountWithSeedInstructionData := mkData {
  data_discriminator : Z; data_base : Address; data_seed : JsString; data_amount : Z;
  data_space : Z; data_programAddress : Address }.
Record CreateAccountWithSeedInstructionDataArgs := mkArgs {
  args_base : Address; args_seed : JsString; args_amount : Z; args_space : Z;
  args_programAddress : Address }.
Record CreateAccountWithSeedInput := mkInput {
  input_payer : TransactionSigner; input_newAccount : Address;
  input_baseAccount : option TransactionSigner; input_base : Address; input_seed : JsString;
  input_amount : Z; input_space : Z; input_programAddress : Address }.
Record ParsedCreateAccountWithSeedAccounts := mkParsedAccounts {
  parsed_payer : option JsAccountMeta; parsed_newAccount : option JsAccountMeta;
  parsed_baseAccount : option JsAccountMeta }.

Definition getCreateAccountWithSeedDiscriminatorBytes : JsRes Bytes := getU32Encoder
    CREATE_ACCOUNT_WITH_SEED_DISCRIMINATOR.

Definition getCreateAccountWithSeedInstructionDataEncoder : Encoder
    CreateAccountWithSeedInstructionDataArgs :=
  transformEncoder
    (getStructEncoder
      [("discriminator"%string, fun value => getU32Encoder (data_discriminator value));
       ("base"%string, fun value => getAddressEncoder (data_base value));
       ("seed"%string, fun value => (addEncoderSizePrefix getUtf8Encoder getU64Encoder)
           (data_seed value));
       ("amount"%string, fun value => getU64Encoder (data_amount value));
       ("space"%string, fun value => getU64Encoder (data_space value));
       ("programAddress"%string, fun value => getAddressEncoder (data_programAddress value))])
    (fun value : CreateAccountWithSeedInstructionDataArgs => mkData
        CREATE_ACCOUNT_WITH_SEED_DISCRIMINATOR (args_base value) (args_seed value) (args_amount
        value) (args_space value) (args_programAddress value)).

Definition getCreateAccountWithSeedInstructionDataDecoder : Decoder CreateAccountWithSeedInstructionData
    := fun bytes offset =>
  let! r := getStructDecoder
    (Field "discriminator"%string getU32Decoder
    (Field "base"%string getAddressDecoder
    (Field "seed"%string (addDecoderSizePrefix getUtf8Decoder getU64Decoder)
    (Field "amount"%string getU64Decoder
    (Field "space"%string getU64Decoder
    (Field "programAddress"%string getAddressDecoder NoFields)))))) bytes offset in
  let '((discriminator, (base, (seed, (amount, (space, (programAddress, tt)))))), offset) := r in
  Ok (mkData discriminator base seed amount space programAddress, offset).

Definition getCreateAccountWithSeedInstructionDataCodec : Codec CreateAccountWithSeedInstructionDataArgs
    CreateAccountWithSeedInstructionData :=
  combineCodec getCreateAccountWithSeedInstructionDataEncoder
      getCreateAccountWithSeedInstructionDataDecoder.

Definition getCreateAccountWithSeedInstruction (input : CreateAccountWithSeedInput) (config : option
    Address) : JsRes JsInstruction :=
  let programAddress := default SYSTEM_PROGRAM_ADDRESS config in
  let payer := mkResolvedAccount (Some (VSigner (input_payer input))) true in
  let newAccount := mkResolvedAccount (Some (VAddress (input_newAccount input))) true in
  let baseAccount := mkResolvedAccount (VSigner <$> input_baseAccount input) false in
  let args := mkArgs (input_base input) (input_seed input) (input_amount input) (input_space input)
      (input_programAddress input) in
  let getAccountMeta := getAccountMetaFactory programAddress Omitted in
  let! payer := getAccountMeta payer in
  let! newAccount := getAccountMeta newAccount in
  let! baseAccount := getAccountMeta baseAccount in
  let! data := getCreateAccountWithSeedInstructionDataEncoder args in
  Ok (mkJsInstruction (filter is_Some [payer; newAccount; baseAccount]) None data programAddress).

Definition parseCreateAccountWithSeedInstruction (instruction : JsInstruction)
  : JsRes (ParsedInstruction ParsedCreateAccountWithSeedAccounts CreateAccountWithSeedInstructionData)
      :=
  let metas := js_accounts instruction in
  if vec_len metas <? 2 then Err "Not enough accounts"%string
  else
    let! accounts := fst ((
      let? payer := getNextAccount metas in
      let? newAccount := getNextAccount metas in
      let? baseAccount := getNextOptionalAccount metas in
      ret (mkParsedAccounts payer newAccount baseAccount)) (mkCursor 0 (vec_len metas - 2))) in
    let! data := decode getCreateAccountWithSeedInstructionDataDecoder (js_data instruction) in
    Ok (mkParsedInstruction (js_programAddress instruction) accounts data).

End client.
End JsCreateAccountWithSeed.

Module JsAdvanceNonceAccount.

Definition ADVANCE_NONCE_ACCOUNT_DISCRIMINATOR : Z := 4.

Section client.
Context {Hkit : Kit}.

Record AdvanceNonceAccountInstructionData := mkData { data_discriminator : Z }.
Record AdvanceNonceAccountInstructionDataArgs := mkArgs { }.
Record AdvanceNonceAccountInput := mkInput {
  input_nonceAccount : Address; input_recentBlockhashesSysvar : option Address;
  input_nonceAuthority : TransactionSigner }.
Record ParsedAdvanceNonceAccountAccounts := mkParsedAccounts {
  parsed_nonceAccount : option JsAccountMeta; parsed_recentBlockhashesSysvar : option JsAccountMeta;
  parsed_nonceAuthority : option JsAccountMeta }.

Definition getAdvanceNonceAccountDiscriminatorBytes : JsRes Bytes := getU32Encoder
    ADVANCE_NONCE_ACCOUNT_DISCRIMINATOR.

Definition getAdvanceNonceAccountInstructionDataEncoder : Encoder AdvanceNonceAccountInstructionDataArgs
    :=
  transformEncoder
    (getStructEncoder
      [("discriminator"%string, fun value => getU32Encoder (data_discriminator value))])
    (fun _ : AdvanceNonceAccountInstructionDataArgs => mkData ADVANCE_NONCE_ACCOUNT_DISCRIMINATOR).

Definition getAdvanceNonceAccountInstructionDataDecoder : Decoder AdvanceNonceAccountInstructionData :=
    fun bytes offset =>
  let! r := getStructDecoder
    (Field "discriminator"%string getU32Decoder NoFields) bytes offset in
  let '((discriminator, tt), offset) := r in
  Ok (mkData discriminator, offset).

Definition getAdvanceNonceAccountInstructionDataCodec : Codec AdvanceNonceAccountInstructionDataArgs
    AdvanceNonceAccountInstructionData :=
  combineCodec getAdvanceNonceAccountInstructionDataEncoder
      getAdvanceNonceAccountInstructionDataDecoder.

Definition getAdvanceNonceAccountInstruction (input : AdvanceNonceAccountInput) (config : option
    Address) : JsRes JsInstruction :=
  let programAddress := default SYSTEM_PROGRAM_ADDRESS config in
  let nonceAccount := mkResolvedAccount (Some (VAddress (input_nonceAccount input))) true in
  let recentBlockhashesSysvar := mkResolvedAccount (VAddress <$> input_recentBlockhashesSysvar input)
      false in
  let nonceAuthority := mkResolvedAccount (Some (VSigner (input_nonceAuthority input))) false in
  let recentBlockhashesSysvar := resolve_default recentBlockhashesSysvar
    "SysvarRecentB1ockHashes11111111111111111111"%string in
  let getAccountMeta := getAccountMetaFactory programAddress Omitted in
  let! nonceAccount := getAccountMeta nonceAccount in
  let! recentBlockhashesSysvar := getAccountMeta recentBlockhashesSysvar in
  let! nonceAuthority := getAccountMeta nonceAuthority in
  let! data := getAdvanceNonceAccountInstructionDataEncoder mkArgs in
  Ok (mkJsInstruction [nonceAccount; recentBlockhashesSysvar; nonceAuthority] None data programAddress).

Definition parseAdvanceNonceAccountInstruction (instruction : JsInstruction)
  : JsRes (ParsedInstruction ParsedAdvanceNonceAccountAccounts AdvanceNonceAccountInstructionData) :=
  let metas := js_accounts instruction in
  if vec_len metas <? 3 then Err "Not enough accounts"%string
  else
    let! accounts := fst ((
      let? nonceAccount := getNextAccount metas in
      let? recentBlockhashesSysvar := getNextAccount metas in
      let? nonceAuthority := getNextAccount metas in
      ret (mkParsedAccounts nonceAccount recentBlockhashesSysvar nonceAuthority)) (mkCursor 0
          (vec_len metas - 3))) in
    let! data := decode getAdvanceNonceAccountInstructionDataDecoder (js_data instruction) in
    Ok (mkParsedInstruction (js_programAddress instruction) accounts data).

End client.
End JsAdvanceNonceAccount.

Module JsWithdrawNonceAccount.

Definition WITHDRAW_NONCE_ACCOUNT_DISCRIMINATOR : Z := 5.

Section client.
Context {Hkit : Kit}.

Record WithdrawNonceAccountInstructionData := mkData {
  data_discriminator : Z; data_withdrawAmount : Z }.
Record WithdrawNonceAccountInstructionDataArgs := mkArgs { args_withdrawAmount : Z }.
Record WithdrawNonceAccountInput := mkInput {
  input_nonceAccount : Address; input_recipientAccount : Address;
  input_recentBlockhashesSysvar : option Address; input_rentSysvar : option Address;
  input_nonceAuthority : TransactionSigner; input_withdrawAmount : Z }.
Record ParsedWithdrawNonceAccountAccounts := mkParsedAccounts {
  parsed_nonceAccount : option JsAccountMeta; parsed_recipientAccount : option JsAccountMeta;
  parsed_recentBlockhashesSysvar : option JsAccountMeta; parsed_rentSysvar : option JsAccountMeta;
  parsed_nonceAuthority : option JsAccountMeta }.

Definition getWithdrawNonceAccountDiscriminatorBytes : JsRes Bytes := getU32Encoder
    WITHDRAW_NONCE_ACCOUNT_DISCRIMINATOR.

Definition getWithdrawNonceAccountInstructionDataEncoder : Encoder
    WithdrawNonceAccountInstructionDataArgs :=
  transformEncoder
    (getStructEncoder
      [("discriminator"%string, fun value => getU32Encoder (data_discriminator value));
       ("withdrawAmount"%string, fun value => getU64Encoder (data_withdrawAmount value))])
    (fun value : WithdrawNonceAccountInstructionDataArgs => mkData
        WITHDRAW_NONCE_ACCOUNT_DISCRIMINATOR (args_withdrawAmount value)).

Definition getWithdrawNonceAccountInstructionDataDecoder : Decoder WithdrawNonceAccountInstructionData
    := fun bytes offset =>
  let! r := getStructDecoder
    (Field "discriminator"%string getU32Decoder
    (Field "withdrawAmount"%string getU64Decoder NoFields)) bytes offset in
  let '((discriminator, (withdrawAmount, tt)), offset) := r in
  Ok (mkData discriminator withdrawAmount, offset).

Definition getWithdrawNonceAccountInstructionDataCodec : Codec WithdrawNonceAccountInstructionDataArgs
    WithdrawNonceAccountInstructionData :=
  combineCodec getWithdrawNonceAccountInstructionDataEncoder
      getWithdrawNonceAccountInstructionDataDecoder.

Definition getWithdrawNonceAccountInstruction (input : WithdrawNonceAccountInput) (config : option
    Address) : JsRes JsInstruction :=
  let programAddress := default SYSTEM_PROGRAM_ADDRESS config in
  let nonceAccount := mkResolvedAccount (Some (VAddress (input_nonceAccount input))) true in
  let recipientAccount := mkResolvedAccount (Some (VAddress (input_recipientAccount input))) true in
  let recentBlockhashesSysvar := mkResolvedAccount (VAddress <$> input_recentBlockhashesSysvar input)
      false in
  let rentSysvar := mkResolvedAccount (VAddress <$> input_rentSysvar input) false in
  let nonceAuthority := mkResolvedAccount (Some (VSigner (input_nonceAuthority input))) false in
  let recentBlockhashesSysvar := resolve_default recentBlockhashesSysvar
    "SysvarRecentB1ockHashes11111111111111111111"%string in
  let rentSysvar := resolve_default rentSysvar
    "SysvarRent111111111111111111111111111111111"%string in
  let args := mkArgs (input_withdrawAmount input) in
  let getAccountMeta := getAccountMetaFactory programAddress Omitted in
  let! nonceAccount := getAccountMeta nonceAccount in
  let! recipientAccount := getAccountMeta recipientAccount in
  let! recentBlockhashesSysvar := getAccountMeta recentBlockhashesSysvar in
  let! rentSysvar := getAccountMeta rentSysvar in
  let! nonceAuthority := getAccountMeta nonceAuthority in
  let! data := getWithdrawNonceAccountInstructionDataEncoder args in
  Ok (mkJsInstruction [nonceAccount; recipientAccount; recentBlockhashesSysvar; rentSysvar;
      nonceAuthority] None data programAddress).

Definition parseWithdrawNonceAccountInstruction (instruction : JsInstruction)
  : JsRes (ParsedInstruction ParsedWithdrawNonceAccountAccounts WithdrawNonceAccountInstructionData) :=
  let metas := js_accounts instruction in
  if vec_len metas <? 5 then Err "Not enough accounts"%string
  else
    let! accounts := fst ((
      let? nonceAccount := getNextAccount metas in
      let? recipientAccount := getNextAccount metas in
      let? recentBlockhashesSysvar := getNextAccount metas in
      let? rentSysvar := getNextAccount metas in
      let? nonceAuthority := getNextAccount metas in
      ret (mkParsedAccounts nonceAccount recipientAccount recentBlockhashesSysvar rentSysvar
          nonceAuthority)) (mkCursor 0 (vec_len metas - 5))) in
    let! data := decode getWithdrawNonceAccountInstructionDataDecoder (js_data instruction) in
    Ok (mkParsedInstruction (js_programAddress instruction) accounts data).

End client.
End JsWithdrawNonceAccount.

Module JsInitializeNonceAccount.

Definition INITIALIZE_NONCE_ACCOUNT_DISCRIMINATOR : Z := 6.

Section client.
Context {Hkit : Kit}.

Record InitializeNonceAccountInstructionData := mkData {
  data_discriminator : Z; data_nonceAuthority : Address }.
Record InitializeNonceAccountInstructionDataArgs := mkArgs { args_nonceAuthority : Address }.
Record InitializeNonceAccountInput := mkInput {
  input_nonceAccount : Address; input_recentBlockhashesSysvar : option Address;
  input_rentSysvar : option Address; input_nonceAuthority : Address }.
Record ParsedInitializeNonceAccountAccounts := mkParsedAccounts {
  parsed_nonceAccount : option JsAccountMeta; parsed_recentBlockhashesSysvar : option JsAccountMeta;
  parsed_rentSysvar : option JsAccountMeta }.

Definition getInitializeNonceAccountDiscriminatorBytes : JsRes Bytes := getU32Encoder
    INITIALIZE_NONCE_ACCOUNT_DISCRIMINATOR.

Definition getInitializeNonceAccountInstructionDataEncoder : Encoder
    InitializeNonceAccountInstructionDataArgs :=
  transformEncoder
    (getStructEncoder
      [("discriminator"%string, fun value => getU32Encoder (data_discriminator value));
       ("nonceAuthority"%string, fun value => getAddressEncoder (data_nonceAuthority value))])
    (fun value : InitializeNonceAccountInstructionDataArgs => mkData
        INITIALIZE_NONCE_ACCOUNT_DISCRIMINATOR (args_nonceAuthority value)).

Definition getInitializeNonceAccountInstructionDataDecoder : Decoder
    InitializeNonceAccountInstructionData := fun bytes offset =>
  let! r := getStructDecoder
    (Field "discriminator"%string getU32Decoder
    (Field "nonceAuthority"%string getAddressDecoder NoFields)) bytes offset in
  let '((discriminator, (nonceAuthority, tt)), offset) := r in
  Ok (mkData discriminator nonceAuthority, offset).

Definition getInitializeNonceAccountInstructionDataCodec : Codec
    InitializeNonceAccountInstructionDataArgs InitializeNonceAccountInstructionData :=
  combineCodec getInitializeNonceAccountInstructionDataEncoder
      getInitializeNonceAccountInstructionDataDecoder.

Definition getInitializeNonceAccountInstruction (input : InitializeNonceAccountInput) (config : option
    Address) : JsRes JsInstruction :=
  let programAddress := default SYSTEM_PROGRAM_ADDRESS config in
  let nonceAccount := mkResolvedAccount (Some (VAddress (input_nonceAccount input))) true in
  let recentBlockhashesSysvar := mkResolvedAccount (VAddress <$> input_recentBlockhashesSysvar input)
      false in
  let rentSysvar := mkResolvedAccount (VAddress <$> input_rentSysvar input) false in
  let recentBlockhashesSysvar := resolve_default recentBlockhashesSysvar
    "SysvarRecentB1ockHashes11111111111111111111"%string in
  let rentSysvar := resolve_default rentSysvar
    "SysvarRent111111111111111111111111111111111"%string in
  let args := mkArgs (input_nonceAuthority input) in
  let getAccountMeta := getAccountMetaFactory programAddress Omitted in
  let! nonceAccount := getAccountMeta nonceAccount in
  let! recentBlockhashesSysvar := getAccountMeta recentBlockhashesSysvar in
  let! rentSysvar := getAccountMeta rentSysvar in
  let! data := getInitializeNonceAccountInstructionDataEncoder args in
  Ok (mkJsInstruction [nonceAccount; recentBlockhashesSysvar; rentSysvar] None data programAddress).

Definition parseInitializeNonceAccountInstruction (instruction : JsInstruction)
  : JsRes (ParsedInstruction ParsedInitializeNonceAccountAccounts
      InitializeNonceAccountInstructionData) :=
  let metas := js_accounts instruction in
  if vec_len metas <? 3 then Err "Not enough accounts"%string
  else
    let! accounts := fst ((
      let? nonceAccount := getNextAccount metas in
      let? recentBlockhashesSysvar := getNextAccount metas in
      let? rentSysvar := getNextAccount metas in
      ret (mkParsedAccounts nonceAccount recentBlockhashesSysvar rentSysvar)) (mkCursor 0 (vec_len
          metas - 3))) in
    let! data := decode getInitializeNonceAccountInstructionDataDecoder (js_data instruction) in
    Ok (mkParsedInstruction (js_programAddress instruction) accounts data).

End client.
End JsInitializeNonceAccount.

Module JsAuthorizeNonceAccount.

Definition AUTHORIZE_NONCE_ACCOUNT_DISCRIMINATOR : Z := 7.

Section client.
Context {Hkit : Kit}.

Record AuthorizeNonceAccountInstructionData := mkData {
  data_discriminator : Z; data_newNonceAuthority : Address }.
Record AuthorizeNonceAccountInstructionDataArgs := mkArgs { args_newNonceAuthority : Address }.
Record AuthorizeNonceAccountInput := mkInput {
  input_nonceAccount : Address; input_nonceAuthority : TransactionSigner;
  input_newNonceAuthority : Address }.
Record ParsedAuthorizeNonceAccountAccounts := mkParsedAccounts {
  parsed_nonceAccount : option JsAccountMeta; parsed_nonceAuthority : option JsAccountMeta }.

Definition getAuthorizeNonceAccountDiscriminatorBytes : JsRes Bytes := getU32Encoder
    AUTHORIZE_NONCE_ACCOUNT_DISCRIMINATOR.

Definition getAuthorizeNonceAccountInstructionDataEncoder : Encoder
    AuthorizeNonceAccountInstructionDataArgs :=
  transformEncoder
    (getStructEncoder
      [("discriminator"%string, fun value => getU32Encoder (data_discriminator value));
       ("newNonceAuthority"%string, fun value => getAddressEncoder (data_newNonceAuthority value))])
    (fun value : AuthorizeNonceAccountInstructionDataArgs => mkData
        AUTHORIZE_NONCE_ACCOUNT_DISCRIMINATOR (args_newNonceAuthority value)).

Definition getAuthorizeNonceAccountInstructionDataDecoder : Decoder AuthorizeNonceAccountInstructionData
    := fun bytes offset =>
  let! r := getStructDecoder
    (Field "discriminator"%string getU32Decoder
    (Field "newNonceAuthority"%string getAddressDecoder NoFields)) bytes offset in
  let '((discriminator, (newNonceAuthority, tt)), offset) := r in
  Ok (mkData discriminator newNonceAuthority, offset).

Definition getAuthorizeNonceAccountInstructionDataCodec : Codec AuthorizeNonceAccountInstructionDataArgs
    AuthorizeNonceAccountInstructionData :=
  combineCodec getAuthorizeNonceAccountInstructionDataEncoder
      getAuthorizeNonceAccountInstructionDataDecoder.

Definition getAuthorizeNonceAccountInstruction (input : AuthorizeNonceAccountInput) (config : option
    Address) : JsRes JsInstruction :=
  let programAddress := default SYSTEM_PROGRAM_ADDRESS config in
  let nonceAccount := mkResolvedAccount (Some (VAddress (input_nonceAccount input))) true in
  let nonceAuthority := mkResolvedAccount (Some (VSigner (input_nonceAuthority input))) false in
  let args := mkArgs (input_newNonceAuthority input) in
  let getAccountMeta := getAccountMetaFactory programAddress Omitted in
  let! nonceAccount := getAccountMeta nonceAccount in
  let! nonceAuthority := getAccountMeta nonceAuthority in
  let! data := getAuthorizeNonceAccountInstructionDataEncoder args in
  Ok (mkJsInstruction [nonceAccount; nonceAuthority] None data programAddress).

Definition parseAuthorizeNonceAccountInstruction (instruction : JsInstruction)
  : JsRes (ParsedInstruction ParsedAuthorizeNonceAccountAccounts AuthorizeNonceAccountInstructionData)
      :=
  let metas := js_accounts instruction in
  if vec_len metas <? 2 then Err "Not enough accounts"%string
  else
    let! accounts := fst ((
      let? nonceAccount := getNextAccount metas in
      let? nonceAuthority := getNextAccount metas in
      ret (mkParsedAccounts nonceAccount nonceAuthority)) (mkCursor 0 (vec_len metas - 2))) in
    let! data := decode getAuthorizeNonceAccountInstructionDataDecoder (js_data instruction) in
    Ok (mkParsedInstruction (js_programAddress instruction) accounts data).

End client.
End JsAuthorizeNonceAccount.

Module JsAllocate.

Definition ALLOCATE_DISCRIMINATOR : Z := 8.

Section client.
Context {Hkit : Kit}.

Record AllocateInstructionData := mkData { data_discriminator : Z; data_space : Z }.
Record AllocateInstructionDataArgs := mkArgs { args_space : Z }.
Record AllocateInput := mkInput { input_newAccount : TransactionSigner; input_space : Z }.
Record ParsedAllocateAccounts := mkParsedAccounts { parsed_newAccount : option JsAccountMeta }.

Definition getAllocateDiscriminatorBytes : JsRes Bytes := getU32Encoder ALLOCATE_DISCRIMINATOR.

Definition getAllocateInstructionDataEncoder : Encoder AllocateInstructionDataArgs :=
  transformEncoder
    (getStructEncoder
      [("discriminator"%string, fun value => getU32Encoder (data_discriminator value));
       ("space"%string, fun value => getU64Encoder (data_space value))])
    (fun value : AllocateInstructionDataArgs => mkData ALLOCATE_DISCRIMINATOR (args_space value)).

Definition getAllocateInstructionDataDecoder : Decoder AllocateInstructionData := fun bytes offset =>
  let! r := getStructDecoder
    (Field "discriminator"%string getU32Decoder
    (Field "space"%string getU64Decoder NoFields)) bytes offset in
  let '((discriminator, (space, tt)), offset) := r in
  Ok (mkData discriminator space, offset).

Definition getAllocateInstructionDataCodec : Codec AllocateInstructionDataArgs AllocateInstructionData
    :=
  combineCodec getAllocateInstructionDataEncoder getAllocateInstructionDataDecoder.

Definition getAllocateInstruction (input : AllocateInput) (config : option Address) : JsRes
    JsInstruction :=
  let programAddress := default SYSTEM_PROGRAM_ADDRESS config in
  let newAccount := mkResolvedAccount (Some (VSigner (input_newAccount input))) true in
  let args := mkArgs (input_space input) in
  let getAccountMeta := getAccountMetaFactory programAddress Omitted in
  let! newAccount := getAccountMeta newAccount in
  let! data := getAllocateInstructionDataEncoder args in
  Ok (mkJsInstruction [newAccount] None data programAddress).

Definition parseAllocateInstruction (instruction : JsInstruction)
  : JsRes (ParsedInstruction ParsedAllocateAccounts AllocateInstructionData) :=
  let metas := js_accounts instruction in
  if vec_len metas <? 1 then Err "Not enough accounts"%string
  else
    let! accounts := fst ((
      let? newAccount := getNextAccount metas in
      ret (mkParsedAccounts newAccount)) (mkCursor 0 (vec_len metas - 1))) in
    let! data := decode getAllocateInstructionDataDecoder (js_data instruction) in
    Ok (mkParsedInstruction (js_programAddress instruction) accounts data).

End client.
End JsAllocate.

Module JsAllocateWithSeed.

Definition ALLOCATE_WITH_SEED_DISCRIMINATOR : Z := 9.

Section client.
Context {Hkit : Kit}.

Record AllocateWithSeedInstructionData := mkData {
  data_discriminator : Z; data_base : Address; data_seed : JsString; data_space : Z;
  data_programAddress : Address }.
Record AllocateWithSeedInstructionDataArgs := mkArgs {
  args_base : Address; args_seed : JsString; args_space : Z; args_programAddress : Address }.
Record AllocateWithSeedInput := mkInput {
  input_newAccount : Address; input_baseAccount : TransactionSigner; input_base : Address;
  input_seed : JsString; input_space : Z; input_programAddress : Address }.
Record ParsedAllocateWithSeedAccounts := mkParsedAccounts {
  parsed_newAccount : option JsAccountMeta; parsed_baseAccount : option JsAccountMeta }.

Definition getAllocateWithSeedDiscriminatorBytes : JsRes Bytes := getU32Encoder
    ALLOCATE_WITH_SEED_DISCRIMINATOR.

Definition getAllocateWithSeedInstructionDataEncoder : Encoder AllocateWithSeedInstructionDataArgs :=
  transformEncoder
    (getStructEncoder
      [("discriminator"%string, fun value => getU32Encoder (data_discriminator value));
       ("base"%string, fun value => getAddressEncoder (data_base value));
       ("seed"%string, fun value => (addEncoderSizePrefix getUtf8Encoder getU64Encoder)
           (data_seed value));
       ("space"%string, fun value => getU64Encoder (data_space value));
       ("programAddress"%string, fun value => getAddressEncoder (data_programAddress value))])
    (fun value : AllocateWithSeedInstructionDataArgs => mkData ALLOCATE_WITH_SEED_DISCRIMINATOR
        (args_base value) (args_seed value) (args_space value) (args_programAddress value)).

Definition getAllocateWithSeedInstructionDataDecoder : Decoder AllocateWithSeedInstructionData := fun
    bytes offset =>
  let! r := getStructDecoder
    (Field "discriminator"%string getU32Decoder
    (Field "base"%string getAddressDecoder
    (Field "seed"%string (addDecoderSizePrefix getUtf8Decoder getU64Decoder)
    (Field "space"%string getU64Decoder
    (Field "programAddress"%string getAddressDecoder NoFields))))) bytes offset in
  let '((discriminator, (base, (seed, (space, (programAddress, tt))))), offset) := r in
  Ok (mkData discriminator base seed space programAddress, offset).

Definition getAllocateWithSeedInstructionDataCodec : Codec AllocateWithSeedInstructionDataArgs
    AllocateWithSeedInstructionData :=
  combineCodec getAllocateWithSeedInstructionDataEncoder getAllocateWithSeedInstructionDataDecoder.

Definition getAllocateWithSeedInstruction (input : AllocateWithSeedInput) (config : option Address) :
    JsRes JsInstruction :=
  let programAddress := default SYSTEM_PROGRAM_ADDRESS config in
  let newAccount := mkResolvedAccount (Some (VAddress (input_newAccount input))) true in
  let baseAccount := mkResolvedAccount (Some (VSigner (input_baseAccount input))) false in
  let args := mkArgs (input_base input) (input_seed input) (input_space input) (input_programAddress
      input) in
  let getAccountMeta := getAccountMetaFactory programAddress Omitted in
  let! newAccount := getAccountMeta newAccount in
  let! baseAccount := getAccountMeta baseAccount in
  let! data := getAllocateWithSeedInstructionDataEncoder args in
  Ok (mkJsInstruction [newAccount; baseAccount] None data programAddress).

Definition parseAllocateWithSeedInstruction (instruction : JsInstruction)
  : JsRes (ParsedInstruction ParsedAllocateWithSeedAccounts AllocateWithSeedInstructionData) :=
  let metas := js_accounts instruction in
  if vec_len metas <? 2 then Err "Not enough accounts"%string
  else
    let! accounts := fst ((
      let? newAccount := getNextAccount metas in
      let? baseAccount := getNextAccount metas in
      ret (mkParsedAccounts newAccount baseAccount)) (mkCursor 0 (vec_len metas - 2))) in
    let! data := decode getAllocateWithSeedInstructionDataDecoder (js_data instruction) in
    Ok (mkParsedInstruction (js_programAddress instruction) accounts data).

End client.
End JsAllocateWithSeed.

Module JsAssignWithSeed.

Definition ASSIGN_WITH_SEED_DISCRIMINATOR : Z := 10.

Section client.
Context {Hkit : Kit}.

Record AssignWithSeedInstructionData := mkData {
  data_discriminator : Z; data_base : Address; data_seed : JsString; data_programAddress : Address }.
Record AssignWithSeedInstructionDataArgs := mkArgs {
  args_base : Address; args_seed : JsString; args_programAddress : Address }.
Record AssignWithSeedInput := mkInput {
  input_account : Address; input_baseAccount : TransactionSigner; input_base : Address;
  input_seed : JsString; input_programAddress : Address }.
Record ParsedAssignWithSeedAccounts := mkParsedAccounts {
  parsed_account : option JsAccountMeta; parsed_baseAccount : option JsAccountMeta }.

Definition getAssignWithSeedDiscriminatorBytes : JsRes Bytes := getU32Encoder
    ASSIGN_WITH_SEED_DISCRIMINATOR.

Definition getAssignWithSeedInstructionDataEncoder : Encoder AssignWithSeedInstructionDataArgs :=
  transformEncoder
    (getStructEncoder
      [("discriminator"%string, fun value => getU32Encoder (data_discriminator value));
       ("base"%string, fun value => getAddressEncoder (data_base value));
       ("seed"%string, fun value => (addEncoderSizePrefix getUtf8Encoder getU64Encoder)
           (data_seed value));
       ("programAddress"%string, fun value => getAddressEncoder (data_programAddress value))])
    (fun value : AssignWithSeedInstructionDataArgs => mkData ASSIGN_WITH_SEED_DISCRIMINATOR
        (args_base value) (args_seed value) (args_programAddress value)).

Definition getAssignWithSeedInstructionDataDecoder : Decoder AssignWithSeedInstructionData := fun bytes
    offset =>
  let! r := getStructDecoder
    (Field "discriminator"%string getU32Decoder
    (Field "base"%string getAddressDecoder
    (Field "seed"%string (addDecoderSizePrefix getUtf8Decoder getU64Decoder)
    (Field "programAddress"%string getAddressDecoder NoFields)))) bytes offset in
  let '((discriminator, (base, (seed, (programAddress, tt)))), offset) := r in
  Ok (mkData discriminator base seed programAddress, offset).

Definition getAssignWithSeedInstructionDataCodec : Codec AssignWithSeedInstructionDataArgs
    AssignWithSeedInstructionData :=
  combineCodec getAssignWithSeedInstructionDataEncoder getAssignWithSeedInstructionDataDecoder.

Definition getAssignWithSeedInstruction (input : AssignWithSeedInput) (config : option Address) : JsRes
    JsInstruction :=
  let programAddress := default SYSTEM_PROGRAM_ADDRESS config in
  let account := mkResolvedAccount (Some (VAddress (input_account input))) true in
  let baseAccount := mkResolvedAccount (Some (VSigner (input_baseAccount input))) false in
  let args := mkArgs (input_base input) (input_seed input) (input_programAddress input) in
  let getAccountMeta := getAccountMetaFactory programAddress Omitted in
  let! account := getAccountMeta account in
  let! baseAccount := getAccountMeta baseAccount in
  let! data := getAssignWithSeedInstructionDataEncoder args in
  Ok (mkJsInstruction [account; baseAccount] None data programAddress).

Definition parseAssignWithSeedInstruction (instruction : JsInstruction)
  : JsRes (ParsedInstruction ParsedAssignWithSeedAccounts AssignWithSeedInstructionData) :=
  let metas := js_accounts instruction in
  if vec_len metas <? 2 then Err "Not enough accounts"%string
  else
    let! accounts := fst ((
      let? account := getNextAccount metas in
      let? baseAccount := getNextAccount metas in
      ret (mkParsedAccounts account baseAccount)) (mkCursor 0 (vec_len metas - 2))) in
    let! data := decode getAssignWithSeedInstructionDataDecoder (js_data instruction) in
    Ok (mkParsedInstruction (js_programAddress instruction) accounts data).

End client.
End JsAssignWithSeed.

Module JsTransferSolWithSeed.

Definition TRANSFER_SOL_WITH_SEED_DISCRIMINATOR : Z := 11.

Section client.
Context {Hkit : Kit}.

Record TransferSolWithSeedInstructionData := mkData {
  data_discriminator : Z; data_amount : Z; data_fromSeed : JsString; data_fromOwner : Address }.
Record TransferSolWithSeedInstructionDataArgs := mkArgs {
  args_amount : Z; args_fromSeed : JsString; args_fromOwner : Address }.
Record TransferSolWithSeedInput := mkInput {
  input_source : Address; input_baseAccount : TransactionSigner; input_destination : Address;
  input_amount : Z; input_fromSeed : JsString; input_fromOwner : Address }.
Record ParsedTransferSolWithSeedAccounts := mkParsedAccounts {
  parsed_source : option JsAccountMeta; parsed_baseAccount : option JsAccountMeta;
  parsed_destination : option JsAccountMeta }.

Definition getTransferSolWithSeedDiscriminatorBytes : JsRes Bytes := getU32Encoder
    TRANSFER_SOL_WITH_SEED_DISCRIMINATOR.

Definition getTransferSolWithSeedInstructionDataEncoder : Encoder TransferSolWithSeedInstructionDataArgs
    :=
  transformEncoder
    (getStructEncoder
      [("discriminator"%string, fun value => getU32Encoder (data_discriminator value));
       ("amount"%string, fun value => getU64Encoder (data_amount value));
       ("fromSeed"%string, fun value => (addEncoderSizePrefix getUtf8Encoder getU64Encoder)
           (data_fromSeed value));
       ("fromOwner"%string, fun value => getAddressEncoder (data_fromOwner value))])
    (fun value : TransferSolWithSeedInstructionDataArgs => mkData
        TRANSFER_SOL_WITH_SEED_DISCRIMINATOR (args_amount value) (args_fromSeed value)
        (args_fromOwner value)).

Definition getTransferSolWithSeedInstructionDataDecoder : Decoder TransferSolWithSeedInstructionData :=
    fun bytes offset =>
  let! r := getStructDecoder
    (Field "discriminator"%string getU32Decoder
    (Field "amount"%string getU64Decoder
    (Field "fromSeed"%string (addDecoderSizePrefix getUtf8Decoder getU64Decoder)
    (Field "fromOwner"%string getAddressDecoder NoFields)))) bytes offset in
  let '((discriminator, (amount, (fromSeed, (fromOwner, tt)))), offset) := r in
  Ok (mkData discriminator amount fromSeed fromOwner, offset).

Definition getTransferSolWithSeedInstructionDataCodec : Codec TransferSolWithSeedInstructionDataArgs
    TransferSolWithSeedInstructionData :=
  combineCodec getTransferSolWithSeedInstructionDataEncoder
      getTransferSolWithSeedInstructionDataDecoder.

Definition getTransferSolWithSeedInstruction (input : TransferSolWithSeedInput) (config : option
    Address) : JsRes JsInstruction :=
  let programAddress := default SYSTEM_PROGRAM_ADDRESS config in
  let source := mkResolvedAccount (Some (VAddress (input_source input))) true in
  let baseAccount := mkResolvedAccount (Some (VSigner (input_baseAccount input))) false in
  let destination := mkResolvedAccount (Some (VAddress (input_destination input))) true in
  let args := mkArgs (input_amount input) (input_fromSeed input) (input_fromOwner input) in
  let getAccountMeta := getAccountMetaFactory programAddress Omitted in
  let! source := getAccountMeta source in
  let! baseAccount := getAccountMeta baseAccount in
  let! destination := getAccountMeta destination in
  let! data := getTransferSolWithSeedInstructionDataEncoder args in
  Ok (mkJsInstruction [source; baseAccount; destination] None data programAddress).

Definition parseTransferSolWithSeedInstruction (instruction : JsInstruction)
  : JsRes (ParsedInstruction ParsedTransferSolWithSeedAccounts TransferSolWithSeedInstructionData) :=
  let metas := js_accounts instruction in
  if vec_len metas <? 3 then Err "Not enough accounts"%string
  else
    let! accounts := fst ((
      let? source := getNextAccount metas in
      let? baseAccount := getNextAccount metas in
      let? destination := getNextAccount metas in
      ret (mkParsedAccounts source baseAccount destination)) (mkCursor 0 (vec_len metas - 3))) in
    let! data := decode getTransferSolWithSeedInstructionDataDecoder (js_data instruction) in
    Ok (mkParsedInstruction (js_programAddress instruction) accounts data).

End client.
End JsTransferSolWithSeed.

Module JsUpgradeNonceAccount.

Definition UPGRADE_NONCE_ACCOUNT_DISCRIMINATOR : Z := 12.

Section client.
Context {Hkit : Kit}.

Record UpgradeNonceAccountInstructionData := mkData { data_discriminator : Z }.
Record UpgradeNonceAccountInstructionDataArgs := mkArgs { }.
Record UpgradeNonceAccountInput := mkInput { input_nonceAccount : Address }.
Record ParsedUpgradeNonceAccountAccounts := mkParsedAccounts {
  parsed_nonceAccount : option JsAccountMeta }.

Definition getUpgradeNonceAccountDiscriminatorBytes : JsRes Bytes := getU32Encoder
    UPGRADE_NONCE_ACCOUNT_DISCRIMINATOR.

Definition getUpgradeNonceAccountInstructionDataEncoder : Encoder UpgradeNonceAccountInstructionDataArgs
    :=
  transformEncoder
    (getStructEncoder
      [("discriminator"%string, fun value => getU32Encoder (data_discriminator value))])
    (fun _ : UpgradeNonceAccountInstructionDataArgs => mkData UPGRADE_NONCE_ACCOUNT_DISCRIMINATOR).

Definition getUpgradeNonceAccountInstructionDataDecoder : Decoder UpgradeNonceAccountInstructionData :=
    fun bytes offset =>
  let! r := getStructDecoder
    (Field "discriminator"%string getU32Decoder NoFields) bytes offset in
  let '((discriminator, tt), offset) := r in
  Ok (mkData discriminator, offset).

Definition getUpgradeNonceAccountInstructionDataCodec : Codec UpgradeNonceAccountInstructionDataArgs
    UpgradeNonceAccountInstructionData :=
  combineCodec getUpgradeNonceAccountInstructionDataEncoder
      getUpgradeNonceAccountInstructionDataDecoder.

Definition getUpgradeNonceAccountInstruction (input : UpgradeNonceAccountInput) (config : option
    Address) : JsRes JsInstruction :=
  let programAddress := default SYSTEM_PROGRAM_ADDRESS config in
  let nonceAccount := mkResolvedAccount (Some (VAddress (input_nonceAccount input))) true in
  let getAccountMeta := getAccountMetaFactory programAddress Omitted in
  let! nonceAccount := getAccountMeta nonceAccount in
  let! data := getUpgradeNonceAccountInstructionDataEncoder mkArgs in
  Ok (mkJsInstruction [nonceAccount] None data programAddress).

Definition parseUpgradeNonceAccountInstruction (instruction : JsInstruction)
  : JsRes (ParsedInstruction ParsedUpgradeNonceAccountAccounts UpgradeNonceAccountInstructionData) :=
  let metas := js_accounts instruction in
  if vec_len metas <? 1 then Err "Not enough accounts"%string
  else
    let! accounts := fst ((
      let? nonceAccount := getNextAccount metas in
      ret (mkParsedAccounts nonceAccount)) (mkCursor 0 (vec_len metas - 1))) in
    let! data := decode getUpgradeNonceAccountInstructionDataDecoder (js_data instruction) in
    Ok (mkParsedInstruction (js_programAddress instruction) accounts data).

End client.
End JsUpgradeNonceAccount.

(** ** Identification (programs/system.ts) *)

Module JsSystemInstruction.
Inductive SystemInstruction : Type :=
| CreateAccount
| Assign
| TransferSol
| CreateAccountWithSeed
| AdvanceNonceAccount
| WithdrawNonceAccount
| InitializeNonceAccount
| AuthorizeNonceAccount
| Allocate
| AllocateWithSeed
| AssignWithSeed
| TransferSolWithSeed
| UpgradeNonceAccount.
End JsSystemInstruction.

Section identify.
Context {Hkit : Kit}.

(** The argument is an instruction or its data. *)
Definition identifySystemInstruction (instruction : JsInstruction + Bytes)
  : JsRes JsSystemInstruction.SystemInstruction :=
  let data := match instruction with inl instruction => js_data instruction | inr data => data end in
  let! tag := getU32Encoder 0 in
  if containsBytes data tag 0 then Ok JsSystemInstruction.CreateAccount else
  let! tag := getU32Encoder 1 in
  if containsBytes data tag 0 then Ok JsSystemInstruction.Assign else
  let! tag := getU32Encoder 2 in
  if containsBytes data tag 0 then Ok JsSystemInstruction.TransferSol else
  let! tag := getU32Encoder 3 in
  if containsBytes data tag 0 then Ok JsSystemInstruction.CreateAccountWithSeed else
  let! tag := getU32Encoder 4 in
  if containsBytes data tag 0 then Ok JsSystemInstruction.AdvanceNonceAccount else
  let! tag := getU32Encoder 5 in
  if containsBytes data tag 0 then Ok JsSystemInstruction.WithdrawNonceAccount else
  let! tag := getU32Encoder 6 in
  if containsBytes data tag 0 then Ok JsSystemInstruction.InitializeNonceAccount else
  let! tag := getU32Encoder 7 in
  if containsBytes data tag 0 then Ok JsSystemInstruction.AuthorizeNonceAccount else
  let! tag := getU32Encoder 8 in
  if containsBytes data tag 0 then Ok JsSystemInstruction.Allocate else
  let! tag := getU32Encoder 9 in
  if containsBytes data tag 0 then Ok JsSystemInstruction.AllocateWithSeed else
  let! tag := getU32Encoder 10 in
  if containsBytes data tag 0 then Ok JsSystemInstruction.AssignWithSeed else
  let! tag := getU32Encoder 11 in
  if containsBytes data tag 0 then Ok JsSystemInstruction.TransferSolWithSeed else
  let! tag := getU32Encoder 12 in
  if containsBytes data tag 0 then Ok JsSystemInstruction.UpgradeNonceAccount else
  Err "The provided instruction could not be identified as a system instruction."%string.

End identify.

(** The parsed instructions with their types (programs/system.ts) *)
Section parsed.
Context {Hkit : Kit}.

Inductive ParsedSystemInstruction : Type :=
| ParsedCreateAccount (parsed : ParsedInstruction JsCreateAccount.ParsedCreateAccountAccounts JsCreateAccount.CreateAccountInstructionData)
| ParsedAssign (parsed : ParsedInstruction JsAssign.ParsedAssignAccounts JsAssign.AssignInstructionData)
| ParsedTransferSol (parsed : ParsedInstruction JsTransferSol.ParsedTransferSolAccounts JsTransferSol.TransferSolInstructionData)
| ParsedCreateAccountWithSeed (parsed : ParsedInstruction JsCreateAccountWithSeed.ParsedCreateAccountWithSeedAccounts JsCreateAccountWithSeed.CreateAccountWithSeedInstructionData)
| ParsedAdvanceNonceAccount (parsed : ParsedInstruction JsAdvanceNonceAccount.ParsedAdvanceNonceAccountAccounts JsAdvanceNonceAccount.AdvanceNonceAccountInstructionData)
| ParsedWithdrawNonceAccount (parsed : ParsedInstruction JsWithdrawNonceAccount.ParsedWithdrawNonceAccountAccounts JsWithdrawNonceAccount.WithdrawNonceAccountInstructionData)
| ParsedInitializeNonceAccount (parsed : ParsedInstruction JsInitializeNonceAccount.ParsedInitializeNonceAccountAccounts JsInitializeNonceAccount.InitializeNonceAccountInstructionData)
| ParsedAuthorizeNonceAccount (parsed : ParsedInstruction JsAuthorizeNonceAccount.ParsedAuthorizeNonceAccountAccounts JsAuthorizeNonceAccount.AuthorizeNonceAccountInstructionData)
| ParsedAllocate (parsed : ParsedInstruction JsAllocate.ParsedAllocateAccounts JsAllocate.AllocateInstructionData)
| ParsedAllocateWithSeed (parsed : ParsedInstruction JsAllocateWithSeed.ParsedAllocateWithSeedAccounts JsAllocateWithSeed.AllocateWithSeedInstructionData)
| ParsedAssignWithSeed (parsed : ParsedInstruction JsAssignWithSeed.ParsedAssignWithSeedAccounts JsAssignWithSeed.AssignWithSeedInstructionData)
| ParsedTransferSolWithSeed (parsed : ParsedInstruction JsTransferSolWithSeed.ParsedTransferSolWithSeedAccounts JsTransferSolWithSeed.TransferSolWithSeedInstructionData)
| ParsedUpgradeNonceAccount (parsed : ParsedInstruction JsUpgradeNonceAccount.ParsedUpgradeNonceAccountAccounts JsUpgradeNonceAccount.UpgradeNonceAccountInstructionData).

End parsed.

(** ** Nonce accounts (accounts/nonce.ts, types/) *)

Module JsNonce.

Inductive NonceVersion : Type := Legacy | Current.
Inductive NonceState : Type := Uninitialized | Initialized.

Definition version_index (v : NonceVersion) : Z := match v with Legacy => 0 | Current => 1 end.
Definition state_index (s : NonceState) : Z := match s with Uninitialized => 0 | Initialized => 1 end.

Record Nonce := mkNonce {
  version : NonceVersion;
  state : NonceState;
  authority : Address;
  blockhash : Address;
  lamportsPerSignature : Z;
}.

Section client.
Context {Hkit : Kit}.

Definition getNonceVersionEncoder : Encoder NonceVersion := getEnumEncoder version_index getU32Encoder.
Definition getNonceVersionDecoder : Decoder NonceVersion := getEnumDecoder [Legacy; Current] getU32Decoder.
Definition getNonceStateEncoder : Encoder NonceState := getEnumEncoder state_index getU32Encoder.
Definition getNonceStateDecoder : Decoder NonceState := getEnumDecoder [Uninitialized; Initialized] getU32Decoder.

Definition getNonceEncoder : Encoder Nonce :=
  getStructEncoder
    [("version"%string, fun value => getNonceVersionEncoder (version value));
     ("state"%string, fun value => getNonceStateEncoder (state value));
     ("authority"%string, fun value => getAddressEncoder (authority value));
     ("blockhash"%string, fun value => getAddressEncoder (blockhash value));
     ("lamportsPerSignature"%string, fun value => getU64Encoder (lamportsPerSignature value))].

Definition getNonceDecoder : Decoder Nonce := fun bytes offset =>
  let! r := getStructDecoder
    (Field "version"%string getNonceVersionDecoder
    (Field "state"%string getNonceStateDecoder
    (Field "authority"%string getAddressDecoder
    (Field "blockhash"%string getAddressDecoder
    (Field "lamportsPerSignature"%string getU64Decoder NoFields))))) bytes offset in
  let '((version, (state, (authority, (blockhash, (lamportsPerSignature, tt))))), offset) := r in
  Ok (mkNonce version state authority blockhash lamportsPerSignature, offset).

Definition getNonceCodec : Codec Nonce Nonce := combineCodec getNonceEncoder getNonceDecoder.

Definition decodeNonce (encodedAccount : MaybeAccount BaseAccount Bytes) : JsRes (MaybeAccount BaseAccount Nonce) :=
  decodeAccount encodedAccount getNonceDecoder.

Definition getNonceSize : Z := 80.

(** The node that is asked: [fetchEncodedAccount(s)] with its configuration. *)
Context (fetchEncodedAccount : Address -> JsRes (MaybeAccount BaseAccount Bytes)).
Context (fetchEncodedAccounts : list Address -> JsRes (list (MaybeAccount BaseAccount Bytes))).

Definition fetchMaybeNonce (address : Address) : JsRes (MaybeAccount BaseAccount Nonce) :=
  let! maybeAccount := fetchEncodedAccount address in
  decodeNonce maybeAccount.

Definition fetchNonce (address : Address) : JsRes (MaybeAccount BaseAccount Nonce) :=
  let! maybeAccount := fetchMaybeNonce address in
  let! _ := assertAccountExists maybeAccount in
  Ok maybeAccount.

Fixpoint decode_all (maybeAccounts : list (MaybeAccount BaseAccount Bytes))
  : JsRes (list (MaybeAccount BaseAccount Nonce)) :=
  match maybeAccounts with
  | [] => Ok []
  | maybeAccount :: maybeAccounts =>
      let! account := decodeNonce maybeAccount in
      let! accounts := decode_all maybeAccounts in
      Ok (account :: accounts)
  end.

Definition fetchAllMaybeNonce (addresses : list Address) : JsRes (list (MaybeAccount BaseAccount Nonce)) :=
  let! maybeAccounts := fetchEncodedAccounts addresses in
  decode_all maybeAccounts.

Definition fetchAllNonce (addresses : list Address) : JsRes (list (MaybeAccount BaseAccount Nonce)) :=
  let! maybeAccounts := fetchAllMaybeNonce addresses in
  let! _ := assertAccountsExist maybeAccounts in
  Ok maybeAccounts.

End client.
End JsNonce.

(** ** Errors (errors/system.ts) *)

Definition SYSTEM_ERROR__ACCOUNT_ALREADY_IN_USE : Z := 0.
Definition SYSTEM_ERROR__RESULT_WITH_NEGATIVE_LAMPORTS : Z := 1.
Definition SYSTEM_ERROR__INVALID_PROGRAM_ID : Z := 2.
Definition SYSTEM_ERROR__INVALID_ACCOUNT_DATA_LENGTH : Z := 3.
Definition SYSTEM_ERROR__MAX_SEED_LENGTH_EXCEEDED : Z := 4.
Definition SYSTEM_ERROR__ADDRESS_WITH_SEED_MISMATCH : Z := 5.
Definition SYSTEM_ERROR__NONCE_NO_RECENT_BLOCKHASHES : Z := 6.
Definition SYSTEM_ERROR__NONCE_BLOCKHASH_NOT_EXPIRED : Z := 7.
Definition SYSTEM_ERROR__NONCE_UNEXPECTED_BLOCKHASH_VALUE : Z := 8.

(** The object of messages: a property for each code. *)
Definition systemErrorMessages : list (Z * String.string) :=
  [(SYSTEM_ERROR__ACCOUNT_ALREADY_IN_USE, "an account with the same address already exists"%string);
   (SYSTEM_ERROR__ADDRESS_WITH_SEED_MISMATCH,
    "provided address does not match addressed derived from seed"%string);
   (SYSTEM_ERROR__INVALID_ACCOUNT_DATA_LENGTH, "cannot allocate account data of this length"%string);
   (SYSTEM_ERROR__INVALID_PROGRAM_ID, "cannot assign account to this program id"%string);
   (SYSTEM_ERROR__MAX_SEED_LENGTH_EXCEEDED, "length of requested seed is too long"%string);
   (SYSTEM_ERROR__NONCE_BLOCKHASH_NOT_EXPIRED, "stored nonce is still in recent_blockhashes"%string);
   (SYSTEM_ERROR__NONCE_NO_RECENT_BLOCKHASHES,
    "advancing stored nonce requires a populated RecentBlockhashes sysvar"%string);
   (SYSTEM_ERROR__NONCE_UNEXPECTED_BLOCKHASH_VALUE, "specified nonce does not match stored nonce"%string);
   (SYSTEM_ERROR__RESULT_WITH_NEGATIVE_LAMPORTS,
    "account does not have enough SOL to perform the operation"%string)].

(** [production] is whether [NODE_ENV] says so. *)
Definition getSystemErrorMessage (production : bool) (code : Z) : option String.string :=
  if negb production then snd <$> head (filter (fun p => fst p = code) systemErrorMessages)
  else Some "Error message not available in production bundles."%string.
