(* ===== verification/JsRules.v ===== *)
(** * What the JavaScript client sends and reads

    The JavaScript client agrees with the SDK and so with the Rust client on the
    thirteen instructions; what it makes it identifies and parses back; and it
    reads nonce accounts as the program stored them. *)

From S2P Require Import Prelude Errors Rent Account Pubkey Sysvars Nonce TransactionContext SysvarCache FeatureSet SystemProgram InvokeContext Message SystemInstructions Client ClientRules ClientAccounts Kit JsClient.

(** ** Codecs *)

#[local] Arguments le_bytes : simpl never.
#[local] Arguments of_le_bytes : simpl never.

Lemma le_bytes_are_bytes n z : Forall is_byte (le_bytes n z).
Proof.
  revert z. induction n as [|n IH]; intros z; simpl; constructor; [|apply IH].
  unfold is_byte. pose proof (Z.mod_pos_bound z 256). lia.
Qed.

Section codecs.
Context {Hkit : Kit} {Hids : ProgramIds} {address_of : Pubkey -> Address} {string_of : Bytes -> JsString}
  {Hkit_ok : KitOk address_of string_of}.

(** A decoder reads a value from its bytes, wherever they are. *)
Definition reads {A} (decoder : Decoder A) (bs : Bytes) (value : A) : Prop :=
  forall pre rest, decoder (pre ++ bs ++ rest) (vec_len pre) = Ok (value, vec_len pre + vec_len bs).

Lemma reads_u32 n : in_range U32 n -> reads getU32Decoder (le_bytes 4 n) n.
Proof.
  intros Hn pre rest. rewrite u32_reads by (try apply length_le_bytes; apply le_bytes_are_bytes).
  rewrite of_le_bytes_le_bytes; [done|]. unfold in_range in Hn. simpl in *. lia.
Qed.

Lemma reads_u64 n : in_range U64 n -> reads getU64Decoder (le_bytes 8 n) n.
Proof.
  intros Hn pre rest. rewrite u64_reads by (try apply length_le_bytes; apply le_bytes_are_bytes).
  rewrite of_le_bytes_le_bytes; [done|]. unfold in_range in Hn. simpl in *. lia.
Qed.

Lemma reads_address k : pubkey_wf k -> reads getAddressDecoder k (address_of k).
Proof. intros Hk pre rest. rewrite address_reads by done. by destruct Hk as [-> _]. Qed.

Lemma slice_app (pre bs rest : Bytes) : slice (pre ++ bs ++ rest) (vec_len pre) (vec_len bs) = bs.
Proof. unfold slice, vec_len. by rewrite !Nat2Z.id, drop_app_length, take_app_length. Qed.

(** Strings of a seed: no null characters, and a length that can be stored. *)
Definition seed_wf (s : Bytes) : Prop :=
  utf8_valid s = true /\ Forall (fun b => b <> 0) s /\ vec_len s <= int_max U64.

Lemma seed_len_wf s : seed_wf s -> in_range U64 (vec_len s).
Proof. intros (_ & _ & H). unfold in_range, vec_len in *. simpl in *. lia. Qed.

Lemma reads_seed s : seed_wf s ->
  reads (addDecoderSizePrefix getUtf8Decoder getU64Decoder) (bincode_string s) (string_of s).
Proof.
  intros Hs pre rest. pose proof (seed_len_wf _ Hs) as Hlen. destruct Hs as (Hv & Hz & _).
  unfold bincode_string. rewrite <-app_assoc.
  erewrite prefix_reads; [|by apply reads_u64|unfold vec_len; lia..|].
  2:{ unfold vec_len. rewrite !length_app. lia. }
  replace (vec_len pre + vec_len (le_bytes 8 (vec_len s))) with (vec_len (pre ++ le_bytes 8 (vec_len s)))
    by (unfold vec_len; rewrite length_app; lia).
  rewrite (app_assoc pre), slice_app. erewrite decode_reads by by apply utf8_reads.
  cbn [outcome_bind]. do 2 f_equal. unfold vec_len. rewrite !length_app. lia.
Qed.

Lemma reads_nil : reads (read_fields NoFields) [] tt.
Proof. intros pre rest. simpl. do 2 f_equal. unfold vec_len. simpl. lia. Qed.

Lemma reads_field {A B} name (decoder : Decoder A) (fields : DecoderFields B) bs value bss values :
  reads decoder bs value -> reads (read_fields fields) bss values ->
  reads (read_fields (Field name decoder fields)) (bs ++ bss) (value, values).
Proof.
  intros Hd Hf pre rest. cbn [read_fields]. rewrite <-app_assoc, Hd. cbn [outcome_bind fst snd].
  replace (vec_len pre + vec_len bs) with (vec_len (pre ++ bs)) by (unfold vec_len; rewrite length_app; lia).
  rewrite (app_assoc pre), Hf. cbn [outcome_bind fst snd]. do 2 f_equal.
  unfold vec_len. rewrite !length_app. lia.
Qed.

Lemma reads_last {A} name (decoder : Decoder A) bs value :
  reads decoder bs value -> reads (read_fields (Field name decoder NoFields)) bs (value, tt).
Proof. intros Hd. rewrite <-(app_nil_r bs). apply reads_field; [done|apply reads_nil]. Qed.

Lemma decode_front {A} (decoder : Decoder A) bs rest value :
  reads decoder bs value -> decode decoder (bs ++ rest) = Ok value.
Proof. intros Hd. eapply decode_reads. apply (Hd []). Qed.

(** A decoder of an object: the fields are read, then put together. *)
Lemma decode_struct {A D} (fields : DecoderFields A) (k : A * Z -> JsRes (D * Z)) bs values value rest :
  reads (read_fields fields) bs values ->
  (forall offset, k (values, offset) = Ok (value, offset)) ->
  decode (fun bytes offset => let! r := getStructDecoder fields bytes offset in k r) (bs ++ rest) = Ok value.
Proof.
  intros Hf Hk. eapply decode_reads. rewrite struct_reads.
  rewrite (Hf [] rest : read_fields fields (bs ++ rest) 0 = _). cbn [outcome_bind]. apply Hk.
Qed.

Corollary decode_whole {A D} (fields : DecoderFields A) (k : A * Z -> JsRes (D * Z)) bs values value :
  reads (read_fields fields) bs values ->
  (forall offset, k (values, offset) = Ok (value, offset)) ->
  decode (fun bytes offset => let! r := getStructDecoder fields bytes offset in k r) bs = Ok value.
Proof. rewrite <-(app_nil_r bs) at 2. apply decode_struct. Qed.

Lemma seed_encodes s : seed_wf s ->
  addEncoderSizePrefix getUtf8Encoder getU64Encoder (string_of s) = Ok (bincode_string s).
Proof.
  intros Hs. apply prefix_encodes; [by apply utf8_encodes, Hs|]. by apply u64_encodes, seed_len_wf.
Qed.

End codecs.

Create HintDb reads.
#[export] Hint Resolve reads_u32 reads_u64 reads_address reads_seed reads_last reads_field : reads.
#[export] Hint Extern 1 (in_range U32 _) => (split; vm_compute; discriminate) : reads.
(** ** Requests *)

Section requests.
Context {Hkit : Kit} {Hids : ProgramIds} (address_of : Pubkey -> Address) (string_of : Bytes -> JsString)
  (signer : Pubkey -> TransactionSigner).

(** What the client makes of a request whose sysvars are omitted or given. *)
Definition js_instruction (omit : bool) (r : Request Pubkey) : JsRes JsInstruction :=
  let sysvar k := if omit then None else Some (address_of k) in
  match r with
  | RequestCreateAccount payer new_account args =>
      JsCreateAccount.getCreateAccountInstruction
        (JsCreateAccount.mkInput (signer payer) (signer new_account) (CreateAccount.lamports
          args) (CreateAccount.space args) (address_of (CreateAccount.program_address args)))
          None
  | RequestAssign account args =>
      JsAssign.getAssignInstruction
        (JsAssign.mkInput (signer account) (address_of (Assign.program_address args))) None
  | RequestTransferSol source destination args =>
      JsTransferSol.getTransferSolInstruction
        (JsTransferSol.mkInput (signer source) (address_of destination) (TransferSol.amount args)) None
  | RequestCreateAccountWithSeed payer new_account base_account args =>
      JsCreateAccountWithSeed.getCreateAccountWithSeedInstruction
        (JsCreateAccountWithSeed.mkInput (signer payer) (address_of new_account) (signer <$>
          base_account) (address_of (CreateAccountWithSeed.base args)) (string_of
          (CreateAccountWithSeed.seed args)) (CreateAccountWithSeed.amount args)
          (CreateAccountWithSeed.space args) (address_of (CreateAccountWithSeed.program_address
          args))) None
  | RequestAdvanceNonceAccount nonce_account recent_blockhashes_sysvar nonce_authority =>
      JsAdvanceNonceAccount.getAdvanceNonceAccountInstruction
        (JsAdvanceNonceAccount.mkInput (address_of nonce_account) (sysvar
          recent_blockhashes_sysvar) (signer nonce_authority)) None
  | RequestWithdrawNonceAccount nonce_account recipient_account recent_blockhashes_sysvar rent_sysvar
    nonce_authority args =>
      JsWithdrawNonceAccount.getWithdrawNonceAccountInstruction
        (JsWithdrawNonceAccount.mkInput (address_of nonce_account) (address_of
          recipient_account) (sysvar recent_blockhashes_sysvar) (sysvar rent_sysvar) (signer
          nonce_authority) (WithdrawNonceAccount.withdraw_amount args)) None
  | RequestInitializeNonceAccount nonce_account recent_blockhashes_sysvar rent_sysvar args =>
      JsInitializeNonceAccount.getInitializeNonceAccountInstruction
        (JsInitializeNonceAccount.mkInput (address_of nonce_account) (sysvar
          recent_blockhashes_sysvar) (sysvar rent_sysvar) (address_of
          (InitializeNonceAccount.nonce_authority args))) None
  | RequestAuthorizeNonceAccount nonce_account nonce_authority args =>
      JsAuthorizeNonceAccount.getAuthorizeNonceAccountInstruction
        (JsAuthorizeNonceAccount.mkInput (address_of nonce_account) (signer nonce_authority)
          (address_of (AuthorizeNonceAccount.new_nonce_authority args))) None
  | RequestAllocate new_account args =>
      JsAllocate.getAllocateInstruction
        (JsAllocate.mkInput (signer new_account) (Allocate.space args)) None
  | RequestAllocateWithSeed new_account base_account args =>
      JsAllocateWithSeed.getAllocateWithSeedInstruction
        (JsAllocateWithSeed.mkInput (address_of new_account) (signer base_account) (address_of
          (AllocateWithSeed.base args)) (string_of (AllocateWithSeed.seed args))
          (AllocateWithSeed.space args) (address_of (AllocateWithSeed.program_address args)))
          None
  | RequestAssignWithSeed account base_account args =>
      JsAssignWithSeed.getAssignWithSeedInstruction
        (JsAssignWithSeed.mkInput (address_of account) (signer base_account) (address_of
          (AssignWithSeed.base args)) (string_of (AssignWithSeed.seed args)) (address_of
          (AssignWithSeed.program_address args))) None
  | RequestTransferSolWithSeed source base_account destination args =>
      JsTransferSolWithSeed.getTransferSolWithSeedInstruction
        (JsTransferSolWithSeed.mkInput (address_of source) (signer base_account) (address_of
          destination) (TransferSolWithSeed.amount args) (string_of
          (TransferSolWithSeed.from_seed args)) (address_of (TransferSolWithSeed.from_owner
          args))) None
  | RequestUpgradeNonceAccount nonce_account =>
      JsUpgradeNonceAccount.getUpgradeNonceAccountInstruction
        (JsUpgradeNonceAccount.mkInput (address_of nonce_account)) None
  end.

(** The meta of an account that signs or not and is written or not. *)
Definition role (is_signer is_writable : bool) : AccountRole :=
  let role := if is_writable then WRITABLE else READONLY in
  if is_signer then upgradeRoleToSigner role else role.

Definition view (meta : AccountMeta) : JsAccountMeta :=
  mkJsAccountMeta (address_of (meta_pubkey meta)) (role (meta_is_signer meta) (meta_is_writable meta))
    (if meta_is_signer meta then Some (VSigner (signer (meta_pubkey meta))) else None).

(** The kind of a request and what its instruction parses to. *)
Definition request_kind {K} (r : Request K) : JsSystemInstruction.SystemInstruction :=
  match r with
  | RequestCreateAccount _ _ _ => JsSystemInstruction.CreateAccount
  | RequestAssign _ _ => JsSystemInstruction.Assign
  | RequestTransferSol _ _ _ => JsSystemInstruction.TransferSol
  | RequestCreateAccountWithSeed _ _ _ _ => JsSystemInstruction.CreateAccountWithSeed
  | RequestAdvanceNonceAccount _ _ _ => JsSystemInstruction.AdvanceNonceAccount
  | RequestWithdrawNonceAccount _ _ _ _ _ _ => JsSystemInstruction.WithdrawNonceAccount
  | RequestInitializeNonceAccount _ _ _ _ => JsSystemInstruction.InitializeNonceAccount
  | RequestAuthorizeNonceAccount _ _ _ => JsSystemInstruction.AuthorizeNonceAccount
  | RequestAllocate _ _ => JsSystemInstruction.Allocate
  | RequestAllocateWithSeed _ _ _ => JsSystemInstruction.AllocateWithSeed
  | RequestAssignWithSeed _ _ _ => JsSystemInstruction.AssignWithSeed
  | RequestTransferSolWithSeed _ _ _ _ => JsSystemInstruction.TransferSolWithSeed
  | RequestUpgradeNonceAccount _ => JsSystemInstruction.UpgradeNonceAccount
  end.

Definition parse_as (kind : JsSystemInstruction.SystemInstruction) (ix : JsInstruction)
  : JsRes ParsedSystemInstruction :=
  match kind with
  | JsSystemInstruction.CreateAccount =>
      let! parsed := JsCreateAccount.parseCreateAccountInstruction ix in Ok (ParsedCreateAccount parsed)
  | JsSystemInstruction.Assign =>
      let! parsed := JsAssign.parseAssignInstruction ix in Ok (ParsedAssign parsed)
  | JsSystemInstruction.TransferSol =>
      let! parsed := JsTransferSol.parseTransferSolInstruction ix in Ok (ParsedTransferSol parsed)
  | JsSystemInstruction.CreateAccountWithSeed =>
      let! parsed := JsCreateAccountWithSeed.parseCreateAccountWithSeedInstruction ix in Ok
        (ParsedCreateAccountWithSeed parsed)
  | JsSystemInstruction.AdvanceNonceAccount =>
      let! parsed := JsAdvanceNonceAccount.parseAdvanceNonceAccountInstruction ix in Ok
        (ParsedAdvanceNonceAccount parsed)
  | JsSystemInstruction.WithdrawNonceAccount =>
      let! parsed := JsWithdrawNonceAccount.parseWithdrawNonceAccountInstruction ix in Ok
        (ParsedWithdrawNonceAccount parsed)
  | JsSystemInstruction.InitializeNonceAccount =>
      let! parsed := JsInitializeNonceAccount.parseInitializeNonceAccountInstruction ix in Ok
        (ParsedInitializeNonceAccount parsed)
  | JsSystemInstruction.AuthorizeNonceAccount =>
      let! parsed := JsAuthorizeNonceAccount.parseAuthorizeNonceAccountInstruction ix in Ok
        (ParsedAuthorizeNonceAccount parsed)
  | JsSystemInstruction.Allocate =>
      let! parsed := JsAllocate.parseAllocateInstruction ix in Ok (ParsedAllocate parsed)
  | JsSystemInstruction.AllocateWithSeed =>
      let! parsed := JsAllocateWithSeed.parseAllocateWithSeedInstruction ix in Ok
        (ParsedAllocateWithSeed parsed)
  | JsSystemInstruction.AssignWithSeed =>
      let! parsed := JsAssignWithSeed.parseAssignWithSeedInstruction ix in Ok
        (ParsedAssignWithSeed parsed)
  | JsSystemInstruction.TransferSolWithSeed =>
      let! parsed := JsTransferSolWithSeed.parseTransferSolWithSeedInstruction ix in Ok
        (ParsedTransferSolWithSeed parsed)
  | JsSystemInstruction.UpgradeNonceAccount =>
      let! parsed := JsUpgradeNonceAccount.parseUpgradeNonceAccountInstruction ix in Ok
        (ParsedUpgradeNonceAccount parsed)
  end.

Definition request_parsed (r : Request Pubkey) : ParsedSystemInstruction :=
  match r with
  | RequestCreateAccount payer new_account args =>
      ParsedCreateAccount (mkParsedInstruction SYSTEM_PROGRAM_ADDRESS
        (JsCreateAccount.mkParsedAccounts (Some (view (AccountMeta_new payer true))) (Some (view
          (AccountMeta_new new_account true))))
        (JsCreateAccount.mkData 0 (CreateAccount.lamports args) (CreateAccount.space args)
          (address_of (CreateAccount.program_address args))))
  | RequestAssign account args =>
      ParsedAssign (mkParsedInstruction SYSTEM_PROGRAM_ADDRESS
        (JsAssign.mkParsedAccounts (Some (view (AccountMeta_new account true))))
        (JsAssign.mkData 1 (address_of (Assign.program_address args))))
  | RequestTransferSol source destination args =>
      ParsedTransferSol (mkParsedInstruction SYSTEM_PROGRAM_ADDRESS
        (JsTransferSol.mkParsedAccounts (Some (view (AccountMeta_new source true))) (Some (view
          (AccountMeta_new destination false))))
        (JsTransferSol.mkData 2 (TransferSol.amount args)))
  | RequestCreateAccountWithSeed payer new_account base_account args =>
      ParsedCreateAccountWithSeed (mkParsedInstruction SYSTEM_PROGRAM_ADDRESS
        (JsCreateAccountWithSeed.mkParsedAccounts (Some (view (AccountMeta_new payer true)))
          (Some (view (AccountMeta_new new_account false))) ((fun k => view
          (AccountMeta_new_readonly k true)) <$> base_account))
        (JsCreateAccountWithSeed.mkData 3 (address_of (CreateAccountWithSeed.base args))
          (string_of (CreateAccountWithSeed.seed args)) (CreateAccountWithSeed.amount args)
          (CreateAccountWithSeed.space args) (address_of (CreateAccountWithSeed.program_address
          args))))
  | RequestAdvanceNonceAccount nonce_account recent_blockhashes_sysvar nonce_authority =>
      ParsedAdvanceNonceAccount (mkParsedInstruction SYSTEM_PROGRAM_ADDRESS
        (JsAdvanceNonceAccount.mkParsedAccounts (Some (view (AccountMeta_new nonce_account
          false))) (Some (view (AccountMeta_new_readonly recent_blockhashes_sysvar false)))
          (Some (view (AccountMeta_new_readonly nonce_authority true))))
        (JsAdvanceNonceAccount.mkData 4))
  | RequestWithdrawNonceAccount nonce_account recipient_account recent_blockhashes_sysvar rent_sysvar
    nonce_authority args =>
      ParsedWithdrawNonceAccount (mkParsedInstruction SYSTEM_PROGRAM_ADDRESS
        (JsWithdrawNonceAccount.mkParsedAccounts (Some (view (AccountMeta_new nonce_account
          false))) (Some (view (AccountMeta_new recipient_account false))) (Some (view
          (AccountMeta_new_readonly recent_blockhashes_sysvar false))) (Some (view
          (AccountMeta_new_readonly rent_sysvar false))) (Some (view (AccountMeta_new_readonly
          nonce_authority true))))
        (JsWithdrawNonceAccount.mkData 5 (WithdrawNonceAccount.withdraw_amount args)))
  | RequestInitializeNonceAccount nonce_account recent_blockhashes_sysvar rent_sysvar args =>
      ParsedInitializeNonceAccount (mkParsedInstruction SYSTEM_PROGRAM_ADDRESS
        (JsInitializeNonceAccount.mkParsedAccounts (Some (view (AccountMeta_new nonce_account
          false))) (Some (view (AccountMeta_new_readonly recent_blockhashes_sysvar false)))
          (Some (view (AccountMeta_new_readonly rent_sysvar false))))
        (JsInitializeNonceAccount.mkData 6 (address_of (InitializeNonceAccount.nonce_authority args))))
  | RequestAuthorizeNonceAccount nonce_account nonce_authority args =>
      ParsedAuthorizeNonceAccount (mkParsedInstruction SYSTEM_PROGRAM_ADDRESS
        (JsAuthorizeNonceAccount.mkParsedAccounts (Some (view (AccountMeta_new nonce_account
          false))) (Some (view (AccountMeta_new_readonly nonce_authority true))))
        (JsAuthorizeNonceAccount.mkData 7 (address_of (AuthorizeNonceAccount.new_nonce_authority
          args))))
  | RequestAllocate new_account args =>
      ParsedAllocate (mkParsedInstruction SYSTEM_PROGRAM_ADDRESS
        (JsAllocate.mkParsedAccounts (Some (view (AccountMeta_new new_account true))))
        (JsAllocate.mkData 8 (Allocate.space args)))
  | RequestAllocateWithSeed new_account base_account args =>
      ParsedAllocateWithSeed (mkParsedInstruction SYSTEM_PROGRAM_ADDRESS
        (JsAllocateWithSeed.mkParsedAccounts (Some (view (AccountMeta_new new_account false)))
          (Some (view (AccountMeta_new_readonly base_account true))))
        (JsAllocateWithSeed.mkData 9 (address_of (AllocateWithSeed.base args)) (string_of
          (AllocateWithSeed.seed args)) (AllocateWithSeed.space args) (address_of
          (AllocateWithSeed.program_address args))))
  | RequestAssignWithSeed account base_account args =>
      ParsedAssignWithSeed (mkParsedInstruction SYSTEM_PROGRAM_ADDRESS
        (JsAssignWithSeed.mkParsedAccounts (Some (view (AccountMeta_new account false))) (Some
          (view (AccountMeta_new_readonly base_account true))))
        (JsAssignWithSeed.mkData 10 (address_of (AssignWithSeed.base args)) (string_of
          (AssignWithSeed.seed args)) (address_of (AssignWithSeed.program_address args))))
  | RequestTransferSolWithSeed source base_account destination args =>
      ParsedTransferSolWithSeed (mkParsedInstruction SYSTEM_PROGRAM_ADDRESS
        (JsTransferSolWithSeed.mkParsedAccounts (Some (view (AccountMeta_new source false)))
          (Some (view (AccountMeta_new_readonly base_account true))) (Some (view
          (AccountMeta_new destination false))))
        (JsTransferSolWithSeed.mkData 11 (TransferSolWithSeed.amount args) (string_of
          (TransferSolWithSeed.from_seed args)) (address_of (TransferSolWithSeed.from_owner
          args))))
  | RequestUpgradeNonceAccount nonce_account =>
      ParsedUpgradeNonceAccount (mkParsedInstruction SYSTEM_PROGRAM_ADDRESS
        (JsUpgradeNonceAccount.mkParsedAccounts (Some (view (AccountMeta_new nonce_account false))))
        (JsUpgradeNonceAccount.mkData 12))
  end.

End requests.

(** ** Agreement with the SDK *)

Section agreement.
Context {Hkit : Kit} {Hids : ProgramIds} {address_of : Pubkey -> Address} {string_of : Bytes -> JsString}
  {Hkit_ok : KitOk address_of string_of}.
Context (signer : Pubkey -> TransactionSigner)
  (Hsigner : forall k, signer_address (signer k) = address_of k).

#[local] Abbreviation js_request := (js_instruction address_of string_of signer).
#[local] Abbreviation js_view := (view address_of signer).

Lemma truthy_address a : a <> ""%string -> truthy (Some (VAddress a)) = true.
Proof. by destruct a. Qed.

Lemma meta_of_signer program k is_writable :
  getAccountMetaFactory program Omitted (mkResolvedAccount (Some (VSigner (signer k))) is_writable) =
    Ok (Some (js_view (mkAccountMeta k true is_writable))).
Proof.
  unfold getAccountMetaFactory. simpl. by rewrite signer_is_signer, Hsigner.
Qed.

Lemma meta_of_address program k is_writable : pubkey_wf k ->
  getAccountMetaFactory program Omitted (mkResolvedAccount (Some (VAddress (address_of k))) is_writable) =
    Ok (Some (js_view (mkAccountMeta k false is_writable))).
Proof.
  intros Hk. pose proof (truthy_address _ (address_not_empty k Hk)) as Ht.
  unfold getAccountMetaFactory. cbn [value]. rewrite Ht. cbn [negb].
  unfold expectAddress. by rewrite Ht.
Qed.

Lemma default_given k is_writable a : pubkey_wf k ->
  resolve_default (mkResolvedAccount (VAddress <$> Some (address_of k)) is_writable) a =
    mkResolvedAccount (Some (VAddress (address_of k))) is_writable.
Proof.
  intros Hk. unfold resolve_default. cbn [value fmap option_fmap option_map].
  by rewrite (truthy_address _ (address_not_empty k Hk)).
Qed.

(** A sysvar that is omitted is filled in. *)
Lemma default_sysvar (omit : bool) k is_writable a : pubkey_wf k -> (omit = true -> address_of k = a) ->
  resolve_default (mkResolvedAccount (VAddress <$> (if omit then None else Some (address_of k))) is_writable) a =
    mkResolvedAccount (Some (VAddress (address_of k))) is_writable.
Proof. intros Hk Ha. destruct omit; [by rewrite <-Ha|by apply default_given]. Qed.

(** Values that fit their types. *)
Definition request_wf (r : Request Pubkey) : Prop :=
  system_instruction_wf (request_instruction r) /\
  seed_wf (instruction_seed (request_instruction r)) /\ Forall pubkey_wf (request_accounts r).

#[local] Arguments resolve_default : simpl never.
#[local] Arguments getAccountMetaFactory : simpl never.

(** Evaluates the encoders and the metas of an instruction. *)
Ltac js_encode Hstd :=
  repeat match goal with H : Forall _ (_ :: _) |- _ => apply list.Forall_cons in H as [? H] end;
  destruct_and?;
  repeat first
    [ rewrite meta_of_signer | rewrite meta_of_address by done
    | rewrite default_sysvar by
        (done || (intros Ho; specialize (Hstd Ho); destruct_and?; subst;
                  first [apply recent_blockhashes_address | apply rent_address]))
    | rewrite u32_encodes by done | rewrite u64_encodes by done | rewrite address_encodes by done
    | rewrite seed_encodes by done | progress cbn [outcome_bind] ];
  rewrite ?app_nil_r; try reflexivity.

Lemma js_instruction_eq omit r :
  request_wf r -> (omit = true -> standard r) ->
  exists byteDelta, js_request omit r =
    Ok (mkJsInstruction ((fun meta => Some (js_view meta)) <$> request_metas r) byteDelta
          (instruction_bytes (request_instruction r)) SYSTEM_PROGRAM_ADDRESS).
Proof.
  intros (Hwf & Hseed & Hk) Hstd. destruct r; destruct_args; simpl in Hwf, Hseed, Hk, Hstd; eexists;
    unfold js_instruction, JsCreateAccount.getCreateAccountInstruction,
    JsCreateAccount.getCreateAccountInstructionDataEncoder, JsAssign.getAssignInstruction,
    JsAssign.getAssignInstructionDataEncoder, JsTransferSol.getTransferSolInstruction,
    JsTransferSol.getTransferSolInstructionDataEncoder,
    JsCreateAccountWithSeed.getCreateAccountWithSeedInstruction,
    JsCreateAccountWithSeed.getCreateAccountWithSeedInstructionDataEncoder,
    JsAdvanceNonceAccount.getAdvanceNonceAccountInstruction,
    JsAdvanceNonceAccount.getAdvanceNonceAccountInstructionDataEncoder,
    JsWithdrawNonceAccount.getWithdrawNonceAccountInstruction,
    JsWithdrawNonceAccount.getWithdrawNonceAccountInstructionDataEncoder,
    JsInitializeNonceAccount.getInitializeNonceAccountInstruction,
    JsInitializeNonceAccount.getInitializeNonceAccountInstructionDataEncoder,
    JsAuthorizeNonceAccount.getAuthorizeNonceAccountInstruction,
    JsAuthorizeNonceAccount.getAuthorizeNonceAccountInstructionDataEncoder,
    JsAllocate.getAllocateInstruction, JsAllocate.getAllocateInstructionDataEncoder,
    JsAllocateWithSeed.getAllocateWithSeedInstruction,
    JsAllocateWithSeed.getAllocateWithSeedInstructionDataEncoder,
    JsAssignWithSeed.getAssignWithSeedInstruction,
    JsAssignWithSeed.getAssignWithSeedInstructionDataEncoder,
    JsTransferSolWithSeed.getTransferSolWithSeedInstruction,
    JsTransferSolWithSeed.getTransferSolWithSeedInstructionDataEncoder,
    JsUpgradeNonceAccount.getUpgradeNonceAccountInstruction,
    JsUpgradeNonceAccount.getUpgradeNonceAccountInstructionDataEncoder;
    cbn [default]; rewrite ?transform_encodes, ?struct_encodes; cbn -[fmap]; js_encode Hstd.
  destruct base_account as [b|]; [|reflexivity].
  change (VSigner <$> (signer <$> Some b)) with (Some (VSigner (signer b))).
  rewrite meta_of_signer. reflexivity.
Qed.
(** What an instruction says to the runtime: the keys of its addresses, and the
    flags of the roles. *)
Definition sdk_meta (meta : option JsAccountMeta) : JsRes AccountMeta :=
  let! meta := expectSome meta in
  let! key := getAddressEncoder (meta_address meta) in
  Ok (mkAccountMeta key (isSignerRole (meta_role meta)) (isWritableRole (meta_role meta))).

Fixpoint sdk_metas (metas : list (option JsAccountMeta)) : JsRes (list AccountMeta) :=
  match metas with
  | [] => Ok []
  | meta :: metas =>
      let! m := sdk_meta meta in let! ms := sdk_metas metas in Ok (m :: ms)
  end.

Definition sdk_view (ix : JsInstruction) : JsRes Instruction :=
  let! program_id := getAddressEncoder (js_programAddress ix) in
  let! metas := sdk_metas (js_accounts ix) in
  Ok (mkInstruction program_id metas (js_data ix)).

Lemma sdk_meta_view meta : pubkey_wf (meta_pubkey meta) -> sdk_meta (Some (js_view meta)) = Ok meta.
Proof.
  intros Hk. unfold sdk_meta, view, role. cbn [expectSome outcome_bind meta_address meta_role].
  rewrite address_encodes by done. cbn [outcome_bind].
  destruct readonly_role, writable_role. destruct meta as [k [] []]; simpl;
    rewrite ?(proj1 (upgraded_role _)), ?(proj2 (upgraded_role _)); congruence.
Qed.

Lemma sdk_metas_view metas : Forall pubkey_wf (meta_pubkey <$> metas) ->
  sdk_metas ((fun meta => Some (js_view meta)) <$> metas) = Ok metas.
Proof.
  induction metas as [|m ms IH]; [done|]. rewrite fmap_cons, list.Forall_cons. intros [Hm Hms].
  rewrite fmap_cons. cbn [sdk_metas]. by rewrite sdk_meta_view, IH.
Qed.

Lemma request_metas_keys r : meta_pubkey <$> request_metas r = request_accounts r.
Proof. destruct r; try done. by destruct base_account. Qed.

Section sdk.
Context {Hbincode : Bincode SystemInstruction} {Hfixint : BincodeFixint}.

(** C11: the JavaScript client and the SDK make the same instructions.  For each of
    the thirteen instructions, with sysvars given or left out, the client makes an
    instruction without throwing, and its program, the keys, order and flags of its
    accounts and its bytes are those of the SDK's instruction. *)
Theorem js_matches_sdk (omit : bool) (r : Request Pubkey) :
  request_wf r -> standard r ->
  exists ix sdk, js_instruction address_of string_of signer omit r = Ok ix /\
    sdk_view ix = Ok sdk /\ sdk_instruction r = Ok sdk.
Proof.
  intros Hwf Hstd. destruct (js_instruction_eq omit r Hwf (fun _ => Hstd)) as [delta Hix].
  eexists _, _. split; [exact Hix|]. split; [|by apply sdk_instruction_eq].
  unfold sdk_view. cbn [js_programAddress js_accounts js_data].
  unfold SYSTEM_PROGRAM_ADDRESS. rewrite <-system_address, address_encodes by apply ids_wf.
  cbn [outcome_bind]. rewrite sdk_metas_view; [done|]. rewrite request_metas_keys. apply Hwf.
Qed.

End sdk.

(** ** Parsing *)

Lemma contains_tag data n : in_range U32 n ->
  getU32Encoder n = Ok (le_bytes 4 n) /\ containsBytes data (le_bytes 4 n) 0 = bool_decide (take 4 data = le_bytes 4 n).
Proof.
  intros Hn. split; [by apply u32_encodes|]. rewrite contains_bytes by done.
  unfold slice, vec_len. by rewrite length_le_bytes.
Qed.

Lemma take_four data : (4 <= length data)%nat -> Forall is_byte data ->
  take 4 data = le_bytes 4 (of_le_bytes (take 4 data)) /\ in_range U32 (of_le_bytes (take 4 data)).
Proof.
  intros Hlen Hd. assert (length (take 4 data) = 4%nat) as Hl by (rewrite length_take; lia).
  assert (Forall is_byte (take 4 data)) as Ht by by apply Forall_take.
  split.
  - rewrite <-Hl at 2. by rewrite le_bytes_of_le_bytes.
  - pose proof (of_le_bytes_bound _ Ht) as Hb. unfold vec_len in Hb. rewrite Hl in Hb.
    unfold in_range. simpl in *. lia.
Qed.

Lemma le_bytes_4_eqb m n : in_range U32 m -> in_range U32 n ->
  bool_decide (le_bytes 4 m = le_bytes 4 n) = (m =? n).
Proof.
  intros Hm Hn. destruct (Z.eqb_spec m n) as [->|Hne]; [by apply bool_decide_eq_true_2|].
  apply bool_decide_eq_false_2. intros E%(f_equal of_le_bytes). apply Hne.
  unfold in_range in *. simpl in *. rewrite !of_le_bytes_le_bytes in E by (simpl; lia). done.
Qed.

(** The variants of the enum, by the number of an instruction. *)
Definition kinds : list JsSystemInstruction.SystemInstruction :=
  [JsSystemInstruction.CreateAccount; JsSystemInstruction.Assign; JsSystemInstruction.TransferSol;
   JsSystemInstruction.CreateAccountWithSeed; JsSystemInstruction.AdvanceNonceAccount;
   JsSystemInstruction.WithdrawNonceAccount; JsSystemInstruction.InitializeNonceAccount;
   JsSystemInstruction.AuthorizeNonceAccount; JsSystemInstruction.Allocate;
   JsSystemInstruction.AllocateWithSeed; JsSystemInstruction.AssignWithSeed;
   JsSystemInstruction.TransferSolWithSeed; JsSystemInstruction.UpgradeNonceAccount].

Definition identified (kind : option JsSystemInstruction.SystemInstruction)
  : JsRes JsSystemInstruction.SystemInstruction :=
  match kind with
  | Some kind => Ok kind
  | None => Err "The provided instruction could not be identified as a system instruction."%string
  end.

Ltac identify_tags data :=
  repeat match goal with |- context [getU32Encoder ?n] =>
    let E := fresh in let F := fresh in
    destruct (contains_tag data n) as [E F]; [split; vm_compute; discriminate|];
    rewrite E; cbn [outcome_bind]; rewrite F; clear E F end.

Lemma identify_tag m rest : in_range U32 m ->
  identifySystemInstruction (inr (le_bytes 4 m ++ rest)) = identified (vec_get kinds m).
Proof.
  intros Hm. unfold identifySystemInstruction. identify_tags (le_bytes 4 m ++ rest).
  change (take 4 (le_bytes 4 m ++ rest)) with (le_bytes 4 m).
  rewrite !le_bytes_4_eqb by (done || split; vm_compute; discriminate).
  repeat match goal with |- context [m =? ?n] => destruct (Z.eqb_spec m n); [subst m; reflexivity|] end.
  enough (vec_get kinds m = None) as -> by done. apply eq_None_not_Some.
  rewrite vec_get_is_Some. change (vec_len kinds) with 13. lia.
Qed.

(** Identification is by the first four bytes, and nothing else is identified. *)
Lemma identify_exact data : Forall is_byte data ->
  identifySystemInstruction (inr data) =
    identified (if decide (4 <= length data)%nat then vec_get kinds (of_le_bytes (take 4 data)) else None).
Proof.
  intros Hd. case_decide as Hlen.
  - destruct (take_four data Hlen Hd) as [Htag Hm].
    rewrite <-(identify_tag _ (drop 4 data)) by done. by rewrite <-Htag, take_drop.
  - unfold identifySystemInstruction. identify_tags data.
    rewrite !bool_decide_eq_false_2; [done|..];
      intros E%(f_equal length); rewrite length_take, length_le_bytes in E; lia.
Qed.

Lemma parse_request r byteDelta :
  request_wf r ->
  parse_as (request_kind r) (mkJsInstruction ((fun meta => Some (js_view meta)) <$> request_metas r) byteDelta
      (instruction_bytes (request_instruction r)) SYSTEM_PROGRAM_ADDRESS) =
    Ok (request_parsed address_of string_of signer r).
Proof.
  intros (Hwf & Hseed & _). destruct r; destruct_args; simpl in Hwf, Hseed; destruct_and?;
    unfold parse_as, JsCreateAccount.parseCreateAccountInstruction,
    JsCreateAccount.getCreateAccountInstructionDataDecoder, JsAssign.parseAssignInstruction,
    JsAssign.getAssignInstructionDataDecoder, JsTransferSol.parseTransferSolInstruction,
    JsTransferSol.getTransferSolInstructionDataDecoder,
    JsCreateAccountWithSeed.parseCreateAccountWithSeedInstruction,
    JsCreateAccountWithSeed.getCreateAccountWithSeedInstructionDataDecoder,
    JsAdvanceNonceAccount.parseAdvanceNonceAccountInstruction,
    JsAdvanceNonceAccount.getAdvanceNonceAccountInstructionDataDecoder,
    JsWithdrawNonceAccount.parseWithdrawNonceAccountInstruction,
    JsWithdrawNonceAccount.getWithdrawNonceAccountInstructionDataDecoder,
    JsInitializeNonceAccount.parseInitializeNonceAccountInstruction,
    JsInitializeNonceAccount.getInitializeNonceAccountInstructionDataDecoder,
    JsAuthorizeNonceAccount.parseAuthorizeNonceAccountInstruction,
    JsAuthorizeNonceAccount.getAuthorizeNonceAccountInstructionDataDecoder,
    JsAllocate.parseAllocateInstruction, JsAllocate.getAllocateInstructionDataDecoder,
    JsAllocateWithSeed.parseAllocateWithSeedInstruction,
    JsAllocateWithSeed.getAllocateWithSeedInstructionDataDecoder,
    JsAssignWithSeed.parseAssignWithSeedInstruction,
    JsAssignWithSeed.getAssignWithSeedInstructionDataDecoder,
    JsTransferSolWithSeed.parseTransferSolWithSeedInstruction,
    JsTransferSolWithSeed.getTransferSolWithSeedInstructionDataDecoder,
    JsUpgradeNonceAccount.parseUpgradeNonceAccountInstruction,
    JsUpgradeNonceAccount.getUpgradeNonceAccountInstructionDataDecoder;
    cbn [request_kind js_data js_accounts js_programAddress request_instruction instruction_bytes];
    (erewrite decode_whole; [|by eauto 30 with reads|by intros offset]); try reflexivity.
  by destruct base_account.
Qed.
Lemma identify_request ix (r : Request Pubkey) : js_data ix = instruction_bytes (request_instruction r) ->
  identifySystemInstruction (inl ix) = Ok (request_kind r).
Proof.
  intros Hix.
  change (identifySystemInstruction (inl ix)) with (identifySystemInstruction (inr (js_data ix))).
  rewrite Hix. destruct r; destruct_args; cbn [request_instruction instruction_bytes];
    try (rewrite identify_tag by (split; vm_compute; discriminate); reflexivity);
    rewrite <-(app_nil_r (le_bytes 4 _)), identify_tag by (split; vm_compute; discriminate); reflexivity.
Qed.

(** C37: what the client makes it identifies and parses back.  For each of the
    thirteen instructions the data are identified as those of the instruction, and
    its parser returns the program, the metas of the accounts in their places, an
    optional account that was left out as missing, and the arguments; the strings
    are free of null characters, which the decoder of strings drops. *)
Theorem js_parses_back (omit : bool) (r : Request Pubkey) :
  request_wf r -> (omit = true -> standard r) ->
  exists ix, js_instruction address_of string_of signer omit r = Ok ix /\
    identifySystemInstruction (inl ix) = Ok (request_kind r) /\
    parse_as (request_kind r) ix = Ok (request_parsed address_of string_of signer r).
Proof.
  intros Hwf Hstd. destruct (js_instruction_eq omit r Hwf Hstd) as [delta Hix].
  eexists. split; [exact Hix|]. split; [by apply identify_request|by apply parse_request].
Qed.

End agreement.

(** ** Nonce accounts *)

Section nonce.
Context {Hkit : Kit} {Hids : ProgramIds} {address_of : Pubkey -> Address} {string_of : Bytes -> JsString}
  {Hkit_ok : KitOk address_of string_of}.

(** The client's view of what the program stores. *)
Definition js_version (v : Versions) : JsNonce.NonceVersion :=
  match v with Legacy _ => JsNonce.Legacy | Current _ => JsNonce.Current end.

Definition js_nonce (version : JsNonce.NonceVersion) (d : Data) : JsNonce.Nonce :=
  JsNonce.mkNonce version JsNonce.Initialized (address_of (authority d)) (address_of (durable_nonce d))
    (get_lamports_per_signature d).

Lemma reads_enum {A} (values : list A) n value : in_range U32 n -> vec_get values n = Some value ->
  reads (getEnumDecoder values getU32Decoder) (le_bytes 4 n) value.
Proof. intros Hn Hv pre rest. eapply enum_reads; [by apply reads_u32|done]. Qed.

Lemma nonce_bytes tag version (d : Data) :
  pubkey_wf (authority d) -> pubkey_wf (durable_nonce d) -> in_range U64 (get_lamports_per_signature d) ->
  in_range U32 tag -> JsNonce.version_index version = tag ->
  vec_get [JsNonce.Legacy; JsNonce.Current] tag = Some version ->
  let bs := le_bytes 4 tag ++ le_bytes 4 1 ++ authority d ++ durable_nonce d ++
              le_bytes 8 (get_lamports_per_signature d) in
  (forall rest, decode JsNonce.getNonceDecoder (bs ++ rest) = Ok (js_nonce version d)) /\
  JsNonce.getNonceEncoder (js_nonce version d) = Ok bs.
Proof.
  intros Ha Hn Hl Ht Hi Hv bs. split.
  - intros rest. unfold bs.
    assert (reads JsNonce.getNonceStateDecoder (le_bytes 4 1) JsNonce.Initialized)
      by (apply reads_enum; [split; vm_compute; discriminate|reflexivity]).
    assert (reads JsNonce.getNonceVersionDecoder (le_bytes 4 tag) version) by by apply reads_enum.
    eapply decode_struct; [by eauto 20 with reads|by intros offset].
  - unfold JsNonce.getNonceEncoder, JsNonce.getNonceVersionEncoder, JsNonce.getNonceStateEncoder.
    rewrite struct_encodes. cbn -[js_nonce]. rewrite !enum_encodes. simpl. rewrite Hi.
    rewrite !u32_encodes by (done || split; vm_compute; discriminate). cbn [outcome_bind].
    rewrite !address_encodes by done. cbn [outcome_bind]. rewrite u64_encodes by done.
    cbn [outcome_bind]. by rewrite app_nil_r.
Qed.

(** The JavaScript client reads nonce accounts as the program stored them.  An
    account whose data begin with an initialized nonce is fetched with the version,
    the authority, the durable nonce and the fee that are stored, and encoding what
    was read gives the stored bytes. *)
Theorem js_reads_nonce (fetchEncodedAccount : Address -> JsRes (MaybeAccount BaseAccount Bytes))
    (versioned : State -> Versions) (d : Data) (bs rest : Bytes) (a : Address) (b : BaseAccount) :
  versioned = Legacy \/ versioned = Current ->
  pubkey_wf (authority d) -> pubkey_wf (durable_nonce d) ->
  encode_Versions (versioned (Initialized d)) = Some bs ->
  fetchEncodedAccount a = Ok (Exists (mkAccount a (bs ++ rest) b)) ->
  let nonce := js_nonce (js_version (versioned (Initialized d))) d in
  JsNonce.fetchNonce fetchEncodedAccount a = Ok (Exists (mkAccount a nonce b)) /\
  JsNonce.getNonceEncoder nonce = Ok bs.
Proof.
  intros Hv Ha Hn Henc Hf nonce.
  assert ((forall rest, decode JsNonce.getNonceDecoder (bs ++ rest) = Ok nonce) /\
          JsNonce.getNonceEncoder nonce = Ok bs) as [Hd He].
  { unfold nonce. destruct Hv as [-> | ->]; apply stored_bytes in Henc as (_ & _ & Hl & ->);
      apply nonce_bytes; try done; split; vm_compute; discriminate. }
  split; [|done]. unfold JsNonce.fetchNonce, JsNonce.fetchMaybeNonce, JsNonce.decodeNonce.
  rewrite Hf. cbn [outcome_bind]. rewrite (decode_existing _ _ _ _ _ (Hd rest)). cbn [outcome_bind].
  by rewrite assert_existing.
Qed.

End nonce.
