(* ===== verification/ClientDemo.v ===== *)
(** * Runs of the Rust client

    Codecs of the documented formats, which show that what is assumed of borsh and
    bincode can hold, and what the client makes of a transfer, of a call with an
    additional account and of a stored nonce. *)

From S2P Require Import Prelude Errors Rent Account Pubkey Sysvars Nonce TransactionContext SysvarCache FeatureSet SystemProgram SystemDemo InvokeContext Message SystemInstructions Client ClientCpi ClientRules ClientAccounts.

(** ** Borsh *)

#[global] Instance demo_borsh : Borsh := {|
  borsh_u8 n := Some (le_bytes 1 n);
  borsh_u32 n := Some (le_bytes 4 n);
  borsh_u64 n := Some (le_bytes 8 n);
  borsh_pubkey k := Some k;
  borsh_u64_prefix_string s := Some (le_bytes 8 (vec_len s) ++ s);
|}.
#[global] Instance demo_borsh_ok : BorshOk.
Proof. by split. Qed.

Definition read_bytes (n : nat) (bs : Bytes) : IoRes (Bytes * Bytes) := ok_or UnexpectedEof (split_bytes n bs).

#[global] Instance demo_read : BorshRead := {|
  read_u8 bs := match bs with b :: rest => Ok (b, rest) | [] => Err UnexpectedEof end;
  read_u64 bs := let! r := read_bytes 8 bs in Ok (of_le_bytes (fst r), snd r);
  read_pubkey := read_bytes 32;
|}.
#[global] Instance demo_read_ok : BorshReadOk.
Proof.
  split; [done|done|intros bs rest H|intros bs rest H]; unfold read_u64, read_pubkey, demo_read, read_bytes;
    by rewrite split_bytes_app.
Qed.

(** ** Bincode *)

Definition next_u64 (bs : Bytes) : option (Z * Bytes) :=
  '(n, bs) ← split_bytes 8 bs; Some (of_le_bytes n, bs).
Definition next_string (bs : Bytes) : option (Bytes * Bytes) :=
  '(n, bs) ← next_u64 bs; split_bytes (Z.to_nat n) bs.

Definition decode_instruction (bs : Bytes) : option SystemInstruction :=
  '(tag, bs) ← split_bytes 4 bs;
  match of_le_bytes tag with
  | 0 => '(lamports, bs) ← next_u64 bs; '(space, bs) ← next_u64 bs; '(owner, _) ← split_bytes 32 bs;
         Some (CreateAccount lamports space owner)
  | 1 => '(owner, _) ← split_bytes 32 bs; Some (Assign owner)
  | 2 => '(lamports, _) ← next_u64 bs; Some (Transfer lamports)
  | 3 => '(base, bs) ← split_bytes 32 bs; '(seed, bs) ← next_string bs; '(lamports, bs) ← next_u64 bs;
         '(space, bs) ← next_u64 bs; '(owner, _) ← split_bytes 32 bs;
         Some (CreateAccountWithSeed base seed lamports space owner)
  | 4 => Some AdvanceNonceAccount
  | 5 => '(lamports, _) ← next_u64 bs; Some (WithdrawNonceAccount lamports)
  | 6 => '(key, _) ← split_bytes 32 bs; Some (InitializeNonceAccount key)
  | 7 => '(key, _) ← split_bytes 32 bs; Some (AuthorizeNonceAccount key)
  | 8 => '(space, _) ← next_u64 bs; Some (Allocate space)
  | 9 => '(base, bs) ← split_bytes 32 bs; '(seed, bs) ← next_string bs; '(space, bs) ← next_u64 bs;
         '(owner, _) ← split_bytes 32 bs; Some (AllocateWithSeed base seed space owner)
  | 10 => '(base, bs) ← split_bytes 32 bs; '(seed, bs) ← next_string bs; '(owner, _) ← split_bytes 32 bs;
          Some (AssignWithSeed base seed owner)
  | 11 => '(lamports, bs) ← next_u64 bs; '(seed, bs) ← next_string bs; '(owner, _) ← split_bytes 32 bs;
          Some (TransferWithSeed lamports seed owner)
  | 12 => Some UpgradeNonceAccount
  | _ => None
  end.

Definition fixint : Bincode SystemInstruction :=
  {| bincode_serialize i := Some (instruction_bytes i); bincode_deserialize := decode_instruction |}.
Definition fixint_limited : BincodeLimited SystemInstruction :=
  {| deserialize_with_limit _ := decode_instruction |}.

Lemma fixint_ok : @BincodeFixint fixint.
Proof. done. Qed.

Lemma next_u64_app z rest : in_range U64 z -> next_u64 (le_bytes 8 z ++ rest) = Some (z, rest).
Proof.
  intros Hz. unfold next_u64. rewrite split_bytes_app by apply length_le_bytes. cbn [mbind option_bind].
  rewrite of_le_bytes_le_bytes; [done|]. unfold in_range in Hz. simpl in *. lia.
Qed.

Lemma next_string_app s rest : vec_len s <= int_max U64 -> next_string (bincode_string s ++ rest) = Some (s, rest).
Proof.
  intros Hs. unfold next_string, bincode_string. rewrite <-app_assoc, next_u64_app.
  - cbn [mbind option_bind]. apply split_bytes_app. unfold vec_len. lia.
  - unfold in_range, vec_len in *. simpl in *. lia.
Qed.

Lemma seed_length i : vec_len (instruction_seed i) <= vec_len (instruction_bytes i).
Proof.
  unfold vec_len. destruct i; simpl instruction_seed; try (simpl; lia);
    unfold instruction_bytes, bincode_string; rewrite !length_app; lia.
Qed.

Lemma next_key_app k rest : pubkey_wf k -> split_bytes 32 (k ++ rest) = Some (k, rest).
Proof. intros [Hk _]. apply split_bytes_app. unfold vec_len, PUBKEY_BYTES in Hk. lia. Qed.

#[local] Arguments le_bytes : simpl never.
#[local] Arguments of_le_bytes : simpl never.

Lemma fixint_limited_ok : @BincodeFixintLimited fixint_limited.
Proof.
  intros limit i rest Hwf _ Hlen. pose proof (seed_length i) as Hseed.
  change (decode_instruction (instruction_bytes i ++ rest) = Some i).
  assert (vec_len (instruction_seed i) <= int_max U64) as Hs by lia. clear Hlen Hseed.
  unfold decode_instruction. destruct i; simpl in Hwf; simpl instruction_seed in Hs;
    destruct_and?; unfold instruction_bytes; rewrite <-?app_assoc, split_bytes_app by done;
    cbn [mbind option_bind];
    match goal with |- context [of_le_bytes (le_bytes 4 ?n)] => change (of_le_bytes (le_bytes 4 n)) with n end; cbv iota;
    repeat first [ rewrite next_u64_app by done | rewrite next_string_app by done
                 | rewrite next_key_app by done | progress cbn [mbind option_bind] ]; try done.
Qed.

(** ** A transfer *)

Definition pay : Request Pubkey := RequestTransferSol (key 1) (key 2) (TransferSol.mkInstructionArgs 258).
Definition pay_bytes : Bytes := [2; 0; 0; 0; 2; 1; 0; 0; 0; 0; 0; 0].

Lemma client_matches_sdk_witness :
  client_instruction pay [] = Ok (mkInstruction (key 0)
    [mkAccountMeta (key 1) true true; mkAccountMeta (key 2) false true] pay_bytes) /\
  @client_instruction demo_borsh demo_ids pay [] = @sdk_instruction demo_ids fixint pay.
Proof.
  split; [vm_compute; reflexivity|].
  exact (@client_matches_sdk demo_borsh demo_borsh_ok demo_ids fixint fixint_ok pay I).
Defined.

Lemma client_instruction_decodes_witness :
  exists ix, client_instruction pay [] = Ok ix /\
    @limited_deserialize SystemInstruction fixint_limited (ix_data ix) = Ok (Transfer 258).
Proof.
  destruct (@client_instruction_decodes demo_borsh demo_borsh_ok demo_ids fixint_limited fixint_limited_ok pay [])
    as (ix & Hix & _ & Hd & _).
  - vm_compute. split; discriminate.
  - reflexivity.
  - vm_compute. discriminate.
  - exists ix. split; [exact Hix|exact Hd].
Defined.

(** ** A call *)

Definition info (n : Z) : AccountInfo :=
  mkAccountInfo (key n) (RefCell_new 100) (RefCell_new []) (key 0) 0 true true false.
Definition pay_call : Request AccountInfo :=
  RequestTransferSol (info 1) (info 2) (TransferSol.mkInstructionArgs 258).

(** A runtime that records what it was asked to run. *)
Definition recorder : SolInvoke (list StableInstruction) := fun instruction _ _ trace =>
  (Ok 0, trace ++ [instruction]).

Lemma client_calls_agree_witness :
  exists built invoked, client_builder pay [mkAccountMeta (key 3) false true] = Ok built /\
    client_cpi_builder recorder (info 0) pay_call [] [(info 3, true, false)] =
      call recorder [] invoked (info 0 :: request_accounts pay_call ++ [info 3]) /\
    ix_data invoked = ix_data built /\ invoked <> built.
Proof.
  destruct (client_calls_agree recorder (info 0) pay_call [] [(info 3, true, false)])
    as (built & invoked & metas & Hbuilt & Hcall & _ & Hdata & _ & _ & _ & Hiff).
  exists built, invoked. split; [exact Hbuilt|]. split; [exact Hcall|].
  split; [exact Hdata|]. intros [Heq _]%Hiff%list.Forall_cons. discriminate Heq.
Defined.


(** ** A stored nonce *)

Definition stored_nonce : Data := Data_new (key 1) (key 5) 5000.

Lemma client_misreads_nonce_witness :
  exists bs nonce, encode_Versions (Current (Initialized stored_nonce)) = Some bs /\
    ClientNonce.from_bytes bs = Ok nonce /\ ClientNonce.state nonce = NonceState.Uninitialized.
Proof.
  destruct (encode_Versions (Current (Initialized stored_nonce))) as [bs|] eqn:E; [|discriminate E].
  destruct (client_misreads_nonce Current stored_nonce bs [] (or_intror eq_refl) E) as (nonce & Hn & Hs & _).
  rewrite app_nil_r in Hn. exists bs, nonce. split; [reflexivity|]. split; [exact Hn|exact Hs].
Defined.
