(* ===== verification/JsDemo.v ===== *)
(** * Runs of the JavaScript client

    An implementation of the codecs that the client uses, with addresses in base 58,
    which shows that what is assumed of them can hold, and what the client makes of a
    transfer and of a stored nonce.  The identifiers are those of the chain. *)

From S2P Require Import Prelude Errors Rent Account Pubkey Sysvars Nonce TransactionContext SysvarCache FeatureSet SystemProgram SystemDemo InvokeContext Message SystemInstructions Client ClientRules ClientAccounts Kit JsClient JsRules ClientDemo.
From Stdlib Require Import Ascii.

(** ** Base 58 *)

Definition alphabet : list ascii :=
  String.list_ascii_of_string "123456789ABCDEFGHJKLMNPQRSTUVWXYZabcdefghijkmnopqrstuvwxyz".

Fixpoint digits (fuel : nat) (n : Z) (acc : list Z) : list Z :=
  match fuel with
  | O => acc
  | S fuel => if n =? 0 then acc else digits fuel (n / 58) (n mod 58 :: acc)
  end.

Definition digits_value (ds : list Z) : Z := foldl (fun v d => v * 58 + d) 0 ds.

Fixpoint leading_zeros (bs : Bytes) : nat :=
  match bs with 0 :: bs => S (leading_zeros bs) | _ => O end.

Definition digit_char (d : Z) : ascii := default zero (vec_get alphabet d).
Definition char_digit (c : ascii) : option Z :=
  (fun p : nat * ascii => Z.of_nat (fst p)) <$> list_find (fun c' => c = c') alphabet.

(** A digit for each byte that is zero in front, then those of the number; 44 are
    enough for 32 bytes. *)
Definition key_digits (k : Pubkey) : list Z :=
  replicate (leading_zeros k) 0 ++ digits 44 (of_le_bytes (rev k)) [].
Definition address_of (k : Pubkey) : Address := String.string_of_list_ascii (digit_char <$> key_digits k).

Definition encode_address (a : Address) : JsRes Bytes :=
  match mapM char_digit (String.list_ascii_of_string a) with
  | Some ds => Ok (rev (le_bytes 32 (digits_value ds)))
  | None => Err "not base 58"%string
  end.

Lemma digits_value_snoc ds d : digits_value (ds ++ [d]) = digits_value ds * 58 + d.
Proof. unfold digits_value. by rewrite foldl_app. Qed.

Lemma digits_value_app ds es : digits_value (ds ++ es) = digits_value ds * 58 ^ vec_len es + digits_value es.
Proof.
  revert ds. induction es as [|e es IH] using rev_ind; intros ds.
  - rewrite app_nil_r. change (digits_value []) with 0. change (58 ^ vec_len (@nil Z)) with 1. lia.
  - rewrite app_assoc, !digits_value_snoc, IH. unfold vec_len. rewrite length_app. cbn [length].
    replace (Z.of_nat (length es + 1)) with (Z.succ (Z.of_nat (length es))) by lia.
    rewrite Z.pow_succ_r by lia. ring.
Qed.

Lemma digits_value_digits fuel n acc : 0 <= n < 58 ^ Z.of_nat fuel ->
  digits_value (digits fuel n acc) = n * 58 ^ vec_len acc + digits_value acc.
Proof.
  revert n acc. induction fuel as [|fuel IH]; intros n acc Hn.
  - change (58 ^ Z.of_nat 0) with 1 in Hn. replace n with 0 by lia. simpl. lia.
  - cbn [digits]. destruct (Z.eqb_spec n 0) as [->|Hne]; [lia|].
    rewrite Nat2Z.inj_succ, Z.pow_succ_r in Hn by lia. rewrite IH.
    + change (n mod 58 :: acc) with ([n mod 58] ++ acc). rewrite digits_value_app.
      unfold vec_len. rewrite length_app. cbn [length].
      replace (Z.of_nat (1 + length acc)) with (Z.succ (Z.of_nat (length acc))) by lia.
      rewrite Z.pow_succ_r by lia. change (digits_value [n mod 58]) with (n mod 58).
      rewrite (Z.div_mod n 58) at 3 by lia. ring.
    + split; [apply Z.div_pos; lia|]. apply Z.div_lt_upper_bound; lia.
Qed.

Lemma digits_bound fuel n acc : 0 <= n -> Forall (fun d => 0 <= d < 58) acc ->
  Forall (fun d => 0 <= d < 58) (digits fuel n acc).
Proof.
  revert n acc. induction fuel as [|fuel IH]; intros n acc Hn Ha; [done|]. cbn [digits].
  destruct (n =? 0); [done|]. apply IH; [apply Z.div_pos; lia|]. constructor; [|done].
  pose proof (Z.mod_pos_bound n 58). lia.
Qed.

Lemma char_digit_char d : 0 <= d < 58 -> char_digit (digit_char d) = Some d.
Proof.
  intros Hd. assert (Forall (fun n => char_digit (digit_char (Z.of_nat n)) = Some (Z.of_nat n)) (seq 0 58)) as Hall.
  { by repeat constructor. }
  rewrite list.Forall_forall in Hall. specialize (Hall (Z.to_nat d)). rewrite Z2Nat.id in Hall by lia.
  apply Hall. apply elem_of_seq. lia.
Qed.

Lemma rev_wf (k : Pubkey) : pubkey_wf k -> length (rev k) = 32%nat /\ Forall is_byte (rev k).
Proof.
  intros [Hlen Hb]. split; [|by apply Forall_rev].
  rewrite length_rev. unfold vec_len, PUBKEY_BYTES in Hlen. lia.
Qed.

Lemma key_digits_value k : pubkey_wf k -> digits_value (key_digits k) = of_le_bytes (rev k).
Proof.
  intros Hk. destruct (rev_wf k Hk) as [Hl Hr]. pose proof (of_le_bytes_bound _ Hr) as Hn.
  unfold vec_len in Hn. rewrite Hl in Hn. unfold key_digits. rewrite digits_value_app.
  assert (digits_value (replicate (leading_zeros k) 0) = 0) as ->.
  { induction (leading_zeros k) as [|z IH]; [done|]. by rewrite replicate_S_end, digits_value_snoc, IH. }
  rewrite digits_value_digits.
  - change (digits_value []) with 0. change (58 ^ vec_len (@nil Z)) with 1. lia.
  - split; [lia|]. eapply Z.lt_trans; [apply Hn|]. by vm_compute.
Qed.

Lemma encode_address_of k : pubkey_wf k -> encode_address (address_of k) = Ok k.
Proof.
  intros Hk. unfold encode_address, address_of. rewrite String.list_ascii_of_string_of_list_ascii.
  destruct (rev_wf k Hk) as [Hl Hr]. pose proof (of_le_bytes_bound _ Hr) as Hn.
  rewrite (mapM_fmap_Forall_Some _ _ (key_digits k)).
  - rewrite key_digits_value by done. rewrite <-Hl, le_bytes_of_le_bytes by done. by rewrite rev_involutive.
  - eapply list.Forall_impl; [|apply char_digit_char]. apply Forall_app. split.
    + apply Forall_replicate. lia.
    + apply digits_bound; [lia|done].
Qed.

Lemma address_of_not_empty k : pubkey_wf k -> address_of k <> ""%string.
Proof.
  intros Hk E. pose proof (encode_address_of k Hk) as He. rewrite E in He. injection He as <-.
  vm_compute in E. discriminate.
Qed.

(** ** Codecs *)

Definition read_n (n : Z) (bytes : Bytes) (offset : Z) : JsRes (Bytes * Z) :=
  let bs := slice bytes offset n in
  if vec_len bs =? n then Ok (bs, offset + n) else Err "not enough bytes"%string.

Lemma read_n_app n pre bs rest : vec_len bs = n -> read_n n (pre ++ bs ++ rest) (vec_len pre) = Ok (bs, vec_len pre + n).
Proof. intros <-. unfold read_n. by rewrite slice_app, Z.eqb_refl. Qed.

Lemma read_n_slice n bytes offset : 0 <= n -> 0 <= offset -> offset + n <= vec_len bytes ->
  read_n n bytes offset = Ok (slice bytes offset n, offset + n).
Proof.
  intros Hn Ho Hl. unfold read_n.
  enough (vec_len (slice bytes offset n) = n) as -> by by rewrite Z.eqb_refl.
  unfold slice, vec_len in *. rewrite length_take, length_drop. lia.
Qed.

Definition read_integer (n : Z) : Decoder Z := fun bytes offset =>
  let! r := read_n n bytes offset in Ok (of_le_bytes (fst r), snd r).

Definition encode_integer (t : IntTy) (n : nat) (z : Z) : JsRes Bytes :=
  if bool_decide (in_range t z) then Ok (le_bytes n z) else Err "out of range"%string.

Definition decode_front {A} (d : Decoder A) (bytes : Bytes) : JsRes A := let! r := d bytes 0 in Ok (fst r).

#[global] Instance kit : Kit := {|
  JsString := Bytes;
  TransactionSigner := Pubkey;
  AccountRole := bool * bool;
  BaseAccount := unit;
  signer_address := address_of;
  kitIsTransactionSigner _ := true;
  isProgramDerivedAddress _ bump := (0 <=? bump) && (bump <=? 255);
  READONLY := (false, false);
  WRITABLE := (false, true);
  upgradeRoleToSigner role := (true, snd role);
  isSignerRole := fst;
  isWritableRole := snd;
  BASE_ACCOUNT_SIZE := 128;
  getU32Encoder := encode_integer U32 4;
  getU64Encoder := encode_integer U64 8;
  getAddressEncoder := encode_address;
  getUtf8Encoder s := Ok s;
  addEncoderSizePrefix _ encoder prefix value :=
    let! bs := encoder value in let! n := prefix (vec_len bs) in Ok (n ++ bs);
  getStructEncoder _ fields := encode_fields fields;
  getEnumEncoder _ index size value := size (index value);
  transformEncoder _ _ encoder f value := encoder (f value);
  getU32Decoder := read_integer 4;
  getU64Decoder := read_integer 8;
  getAddressDecoder bytes offset := let! r := read_n 32 bytes offset in Ok (address_of (fst r), snd r);
  getUtf8Decoder bytes offset := Ok (filter (fun b => b <> 0) (drop (Z.to_nat offset) bytes), vec_len bytes);
  addDecoderSizePrefix _ decoder prefix bytes offset :=
    let! r := prefix bytes offset in
    let! s := read_n (fst r) bytes (snd r) in
    let! value := decode_front decoder (fst s) in Ok (value, snd s);
  getStructDecoder _ fields := read_fields fields;
  getEnumDecoder _ values size bytes offset :=
    let! r := size bytes offset in
    let! value := ok_or "not a variant"%string (vec_get values (fst r)) in Ok (value, snd r);
  decode _ decoder bytes := decode_front decoder bytes;
  containsBytes data bytes offset := bool_decide (slice data offset (vec_len bytes) = bytes);
  decodeAccount _ account decoder :=
    match account with
    | Exists (mkAccount a bs b) => let! value := decode_front decoder bs in Ok (Exists (mkAccount a value b))
    | Missing a => Ok (Missing a)
    end;
  assertAccountExists _ account :=
    match account with Exists _ => Ok tt | Missing _ => Err "account not found"%string end;
  assertAccountsExist _ accounts :=
    if forallb (fun a => match a with Exists _ => true | Missing _ => false end) accounts
    then Ok tt else Err "accounts not found"%string;
|}.

(** ** The identifiers *)

Definition key_of (a : Address) : Pubkey := match encode_address a with Ok k => k | _ => [] end.
Definition system_key : Pubkey := Eval vm_compute in key_of "11111111111111111111111111111111".
Definition recent_blockhashes_key : Pubkey :=
  Eval vm_compute in key_of "SysvarRecentB1ockHashes11111111111111111111".
Definition rent_key : Pubkey := Eval vm_compute in key_of "SysvarRent111111111111111111111111111111111".

Definition chain_ids : ProgramIds := {|
  system_program_id := system_key; native_loader_id := key 101; sysvar_rent_id := rent_key;
  sysvar_recent_blockhashes_id := recent_blockhashes_key; sysvar_clock_id := key 104;
  sysvar_slot_hashes_id := key 105; sysvar_stake_history_id := key 106;
  sysvar_last_restart_slot_id := key 107; sysvar_instructions_id := key 108;
  sysvar_epoch_schedule_id := key 109; sysvar_epoch_rewards_id := key 110; sysvar_fees_id := key 111;
|}.

Lemma is_key (k : Pubkey) :
  (vec_len k =? 32) && forallb (fun b => (0 <=? b) && (b <? 256)) k = true -> pubkey_wf k.
Proof.
  intros [Hl%Z.eqb_eq Hb]%andb_prop. split; [done|]. apply list.Forall_forall. intros b Hin.
  rewrite forallb_forall in Hb. apply list_elem_of_In in Hin. specialize (Hb b Hin).
  apply andb_prop in Hb as [H1%Z.leb_le H2%Z.ltb_lt]. unfold is_byte. lia.
Qed.

Lemma kit_ok : @KitOk kit chain_ids address_of id.
Proof.
  split; try done.
  - intros n Hn. simpl. unfold encode_integer. by rewrite bool_decide_eq_true_2.
  - intros n Hn. simpl. unfold encode_integer. by rewrite bool_decide_eq_true_2.
  - exact encode_address_of.
  - intros A encoder prefix value bs n He Hp. simpl. rewrite He. simpl. by rewrite Hp.
  - intros pre bs rest Hl _. simpl. unfold read_integer. rewrite read_n_app by (unfold vec_len; lia). done.
  - intros pre bs rest Hl _. simpl. unfold read_integer. rewrite read_n_app by (unfold vec_len; lia). done.
  - intros pre k rest [Hl _]. simpl. by rewrite read_n_app.
  - intros bs _ Hz. simpl. do 2 f_equal. rewrite drop_0. induction Hz; [done|].
    by rewrite filter_cons_True, IHHz.
  - intros A decoder prefix bytes offset n offset' Hp Hn Ho Hl. simpl. rewrite Hp. cbn [outcome_bind fst snd].
    rewrite read_n_slice by done. done.
  - intros A values size bytes offset n offset' value Hs Hv. simpl. rewrite Hs. simpl. by rewrite Hv.
  - intros A decoder bytes value offset' Hd. simpl. unfold decode_front. by rewrite Hd.
  - intros A decoder a bs b value Hd. simpl. by rewrite (Hd : decode_front decoder bs = Ok value).
  - exact address_of_not_empty.
  - repeat split; by apply is_key.
Qed.

(** ** A transfer *)

Lemma pay_wf : request_wf pay.
Proof.
  split; [split; vm_compute; discriminate|]. split; [|by repeat (constructor; [by apply is_key|])].
  split; [done|]. split; [done|]. vm_compute. discriminate.
Qed.

Lemma js_matches_sdk_witness :
  exists ix sdk, @js_instruction kit address_of id id true pay = Ok ix /\ @sdk_view kit ix = Ok sdk /\
    @sdk_instruction chain_ids fixint pay = Ok sdk.
Proof.
  exact (@js_matches_sdk kit chain_ids address_of id kit_ok id (fun _ => eq_refl) fixint fixint_ok
           true pay pay_wf I).
Defined.

(** A creation with a seed, the base left to the payer. *)
Definition create_seeded : Request Pubkey :=
  RequestCreateAccountWithSeed (key 1) (key 2) None
    (CreateAccountWithSeed.mkInstructionArgs (key 1) [115; 116] 7 80 (key 9)).

Lemma create_seeded_wf : request_wf create_seeded.
Proof.
  split; [|split; [|by repeat (constructor; [by apply is_key|])]].
  - split; [by apply is_key|]. split; [split; vm_compute; discriminate|].
    split; [split; vm_compute; discriminate|by apply is_key].
  - split; [done|]. split; [by repeat constructor|]. vm_compute. discriminate.
Qed.

Lemma js_parses_back_witness :
  exists ix, @js_instruction kit address_of id id false create_seeded = Ok ix /\
    identifySystemInstruction (inl ix) = Ok JsSystemInstruction.CreateAccountWithSeed /\
    parse_as JsSystemInstruction.CreateAccountWithSeed ix = Ok (request_parsed address_of id id create_seeded).
Proof.
  apply (@js_parses_back kit chain_ids address_of id kit_ok id (fun _ => eq_refl) false create_seeded
           create_seeded_wf). discriminate.
Defined.

(** ** A stored nonce *)

Definition nonce_account (bs : Bytes) : MaybeAccount unit Bytes := Exists (mkAccount (address_of (key 4)) bs tt).

Lemma js_reads_nonce_witness :
  exists bs nonce, encode_Versions (Current (Initialized stored_nonce)) = Some bs /\
    JsNonce.fetchNonce (fun _ => Ok (nonce_account bs)) (address_of (key 4)) =
      Ok (Exists (mkAccount (address_of (key 4)) nonce tt)) /\
    JsNonce.state nonce = JsNonce.Initialized /\ JsNonce.authority nonce = address_of (key 1).
Proof.
  destruct (encode_Versions (Current (Initialized stored_nonce))) as [bs|] eqn:E; [|discriminate E].
  destruct (@js_reads_nonce kit chain_ids address_of id kit_ok (fun _ => Ok (nonce_account bs)) Current stored_nonce
              bs [] (address_of (key 4)) tt) as [Hf _].
  - right. reflexivity.
  - apply is_key. reflexivity.
  - apply is_key. reflexivity.
  - exact E.
  - rewrite app_nil_r. reflexivity.
  - exists bs. eexists. split; [reflexivity|]. split; [exact Hf|]. split; reflexivity.
Defined.
