(* ===== verification/InvokeDemo.v ===== *)
(** * A message that calls a program that calls the system program

    A builtin program that forwards a transfer to the system program, and a
    message that calls it: the runs instantiate the theorems of [InvokeRules],
    [ProcessRules], [SystemContract], [MessageRules] and [MessageProcessor]. The
    last part is the transfer of [TransferRules] on concrete accounts. *)

From S2P Require Import Prelude Errors Rent Account BTreeMap Pubkey Sysvars EpochSchedule Nonce TransactionContext RuntimeRules CallStack SysvarCache SystemProgram Effects SystemDemo InvokeContext InvokeRules ProcessRules SystemContract Message MessageRules MessageProcessor.

#[global] Instance demo_message_ids : MessageIds := {|
  config_program_id := key 120; feature_id := key 121; stake_program_id := key 122;
  stake_config_id := key 123; vote_program_id := key 124; bpf_loader_id := key 125;
  bpf_loader_deprecated_id := key 126; bpf_loader_upgradeable_id := key 127;
  sysvar_rewards_id := key 128; sysvar_slot_history_id := key 129;
|}.

(** ** The programs *)

(** A transfer of 30 lamports from account 1 to account 2. *)
Definition forwarded : StableInstruction :=
  mkStableInstruction [mkAccountMeta (key 1) true true; mkAccountMeta (key 2) false true] [2; 30] (key 0).

Definition forwarder : Builtin := fun invoke =>
  consume_checked 10 ;? as_program (invoke forwarded []).

Lemma consume_checked_tc amount s : transaction_context (final (consume_checked amount) s) = transaction_context s.
Proof. unfold final, consume_checked, bind, gets, modify. by destruct (compute_meter s <? amount). Qed.

#[global] Instance forwarder_ok : ProgramOk forwarder.
Proof.
  split.
  - intros invoke Hi. apply contained_bind; [apply contained_other; apply consume_checked_tc|intros _].
    apply contained_lift, Hi. by vm_compute.
  - intros invoke invoke' ic s _ Ha Hr. apply bind_ext. intros [] s1 H1.
    assert (transaction_context s1 = transaction_context s) as Htc
      by (rewrite <- (consume_checked_tc 10 s); unfold final; by rewrite H1).
    unfold as_program. rewrite (Ha forwarded [] ic s1); [done|by rewrite Htc|by rewrite Htc|by vm_compute].
Qed.

Definition demo_programs (id : Pubkey) : option (option Builtin) :=
  if bool_decide (id = key 0) then Some (Some system_builtin)
  else if bool_decide (id = key 50) then Some (Some forwarder)
  else None.

#[global] Instance demo_programs_ok : ProgramsOk demo_programs.
Proof.
  intros id f. unfold demo_programs. repeat case_bool_decide; intros [= <-]; apply _.
Qed.

(** ** The message *)

Definition demo_ix : Instruction :=
  mkInstruction (key 50) [mkAccountMeta (key 1) true true; mkAccountMeta (key 2) false true;
    mkAccountMeta (key 0) false false; mkAccountMeta (key 1) false false] [].

(** The error is of no use in a run that succeeds. *)
Definition get_ok {E A} (d : A) (o : Outcome E A) : A := match o with Ok a => a | _ => d end.

Definition empty_message : Legacy.Message := Legacy.mkMessage (mkMessageHeader 0 0 0) [] [] [].
Definition demo_message : Legacy.Message :=
  get_ok empty_message (Legacy.new_with_blockhash [demo_ix] (Some (key 1)) (key 9)).

Lemma message_compiles_witness :
  Legacy.account_keys demo_message = [key 1; key 2; key 0; key 50] /\
  exists m, Legacy.new_with_blockhash [demo_ix] (Some (key 1)) (key 9) = Ok m /\
    compiled_message [demo_ix] (Some (key 1)) m.
Proof.
  split; [vm_compute; reflexivity|].
  apply (message_compiles [demo_ix] (Some (key 1)) (key 9)). vm_compute. discriminate.
Defined.

Lemma compiled_message_sanitizes_witness :
  exists m, Legacy.new_with_blockhash [demo_ix] (Some (key 1)) (key 9) = Ok m /\ Legacy.sanitize m = Ok tt.
Proof.
  apply (compiled_message_sanitizes [demo_ix] (key 1) (key 9)).
  - vm_compute. discriminate.
  - repeat constructor. intros H. vm_compute in H. discriminate H.
Defined.

(** A payer, 255 writable accounts and the program are 257 keys: the message is
    compiled, with the index 256 of the program as 0. *)
Definition wide_ix : Instruction :=
  mkInstruction (key 50)
    ((fun n => mkAccountMeta (Z.of_nat n :: replicate 31 7) false true) <$> seq 0 255) [].

Example wide_message_refused :
  distinct_keys [wide_ix] (Some (key 1)) = 257 /\
  exists m, Legacy.new_with_blockhash [wide_ix] (Some (key 1)) (key 9) = Ok m /\
    program_id_index <$> Legacy.instructions m = [0] /\ Legacy.sanitize m = Err IndexOutOfBounds.
Proof.
  split; [vm_compute; reflexivity|].
  exists (get_ok empty_message (Legacy.new_with_blockhash [wide_ix] (Some (key 1)) (key 9))).
  split_and!; vm_compute; reflexivity.
Qed.

Lemma builtin_table_exact_witness :
  is_builtin_key_or_sysvar (key 102) = true /\ is_builtin_key_or_sysvar (key 1) = false.
Proof.
  assert (Forall (fun id => 0 <= first_byte id < 256) (BUILTIN_PROGRAMS_KEYS ++ ALL_IDS)) as Hb.
  { vm_compute. repeat constructor; try discriminate. }
  split.
  - apply (builtin_table_exact (key 102) Hb). left. refine (bool_decide_unpack _ _). vm_compute. exact I.
  - apply not_true_iff_false. intros H. apply (builtin_table_exact (key 1) Hb) in H. revert H.
    refine (bool_decide_unpack _ _). vm_compute. exact I.
Defined.

(** ** The run *)

Definition builtin_account : AccountSharedData := mkAccount 1 [] (key 101) true 0.
Definition fresh_tc : TransactionContext :=
  TransactionContext_new [(key 1, wallet 100); (key 2, wallet 0); (key 0, builtin_account);
    (key 50, builtin_account)] Rent_default 5 64.

Definition sanitized : SanitizedMessage :=
  get_ok (SanitizedLegacy (mkLegacyMessage empty_message [])) (Sanitized.try_from_legacy_message demo_message).

Definition demo_run := process_message demo_programs (fun _ => false) 6 sanitized [[3]] fresh_tc demo_env 1000 0.
Definition ended : InvokeContext := (snd demo_run).1.

Lemma fresh_ok : stack_ok fresh_tc.
Proof. apply TransactionContext_new_stack_ok; vm_compute; split; discriminate || reflexivity. Qed.

Lemma fresh_keys : keys_ok fresh_tc.
Proof.
  split; [|vm_compute; discriminate].
  change (account_keys fresh_tc) with [key 1; key 2; key 0; key 50].
  refine (bool_decide_unpack _ _). vm_compute. exact I.
Qed.

Lemma message_conserves_lamports_witness :
  acc_lamports <$> values (transaction_context ended) = [70; 30; 1; 1] /\ (snd demo_run).2 = 160 /\
  total_lamports (transaction_context ended) = total_lamports fresh_tc.
Proof.
  split; [vm_compute; reflexivity|]. split; [vm_compute; reflexivity|].
  apply (message_conserves_lamports demo_programs (fun _ => false) 6 sanitized [[3]] fresh_tc demo_env 1000 0
    (snd demo_run).2 ended).
  - apply fresh_ok.
  - apply fresh_keys.
  - constructor; [|constructor]. split; [split|].
    + refine (bool_decide_unpack _ _). vm_compute. exact I.
    + vm_compute. discriminate.
    + vm_compute. discriminate.
  - vm_compute. reflexivity.
Defined.

(** Too few compute units for the transfer. *)
Lemma message_error_located_witness :
  let run := process_message demo_programs (fun _ => false) 6 sanitized [[3]] fresh_tc demo_env 50 0 in
  let e := TransactionError.InstructionError 0 ComputationalBudgetExceeded in
  fst run = Err e /\ exists (i : nat) id instruction programs st_i,
    zip (Sanitized.program_instructions_iter sanitized) [[3]] !! i = Some (id, instruction, programs) /\
    process_one demo_programs (fun _ => false) 6 sanitized (Z.of_nat i) id instruction programs st_i =
      (Err e, snd run).
Proof.
  intros run e. split; [vm_compute; reflexivity|].
  destruct (message_error_located demo_programs (fun _ => false) 6 sanitized [[3]] fresh_tc demo_env 50 0 e
    (snd run)) as (i & id & ix & programs & st_i & Hi & _ & Hone & _).
  - vm_compute. reflexivity.
  - exists i, id, ix, programs, st_i. split; [exact Hi|exact Hone].
Defined.

(** ** Its parts *)

Definition demo_accounts : list InstructionAccount := message_accounts sanitized [0; 1; 2; 0].
Definition start : InvokeContext := InvokeContext_new fresh_tc demo_env 1000.
Definition processed : InvokeContext := final (process_instruction demo_programs 6 [] demo_accounts [3]) start.

Lemma demo_accounts_dedup : dedup_ok (mkInstructionContext 0 0 [3] demo_accounts []).
Proof.
  apply (message_accounts_dedup sanitized [0; 1; 2; 0]). split; [|vm_compute; discriminate].
  refine (bool_decide_unpack _ _). vm_compute. exact I.
Qed.

Lemma process_instruction_conserves_lamports_witness :
  account_at (transaction_context processed) 0 = Some (wallet 70) /\
  total_lamports (transaction_context processed) = total_lamports fresh_tc.
Proof.
  split; [vm_compute; reflexivity|].
  apply (process_instruction_conserves_lamports demo_programs 6 [] demo_accounts [3] start processed).
  - apply fresh_ok.
  - apply fresh_keys.
  - vm_compute. discriminate.
  - apply demo_accounts_dedup.
  - vm_compute. reflexivity.
Defined.

Lemma process_instruction_fuel_witness :
  process_instruction demo_programs 6 [] demo_accounts [3] start =
  process_instruction demo_programs 40 [] demo_accounts [3] start.
Proof.
  apply (process_instruction_fuel demo_programs 6 40).
  - apply fresh_ok.
  - apply fresh_keys.
  - vm_compute. discriminate.
  - vm_compute. reflexivity.
  - vm_compute. reflexivity.
Defined.

(** The forwarder is running and calls. *)
Definition caller_ic : InstructionContext := mkInstructionContext 0 101 [3] demo_accounts [].
Definition calling_tc : TransactionContext :=
  with_stack [0] (with_trace [caller_ic; InstructionContext_default] fresh_tc).

Lemma calls_gain_no_privileges_witness :
  exists result tc', prepare_instruction_tc demo_env forwarded [] calling_tc = (Ok result, tc') /\
    prepare_result caller_ic calling_tc forwarded [] result /\ borrows_only calling_tc tc'.
Proof.
  eexists _, _. split; [vm_compute; reflexivity|].
  apply (calls_gain_no_privileges demo_env forwarded [] calling_tc _ caller_ic).
  - apply fresh_keys.
  - vm_compute. discriminate.
  - vm_compute. discriminate.
  - vm_compute. reflexivity.
  - vm_compute. reflexivity.
Defined.

(** The forwarder calls itself. *)
Definition self_call : InvokeContext :=
  InvokeContext_new (with_stack [0] (with_trace [caller_ic; caller_ic] fresh_tc)) demo_env 1000.

Lemma no_reentrancy_witness :
  exists caller, get_current_instruction_context (transaction_context self_call) = Ok caller /\
    get_last_program_key caller (transaction_context self_call) = Ok (key 50).
Proof.
  apply (no_reentrancy self_call (final invoke_push self_call) caller_ic caller_ic 0 (key 50)).
  - vm_compute. reflexivity.
  - vm_compute. reflexivity.
  - vm_compute. reflexivity.
  - vm_compute. reflexivity.
  - exists 3. split; vm_compute; reflexivity.
  - vm_compute. reflexivity.
Defined.

Lemma system_program_obeys_rules_witness :
  obeys (demo_ic 1 [2; 30]) transfer_tc (after transfer_tc).
Proof.
  apply (system_program_obeys_rules demo_env (demo_ic 1 [2; 30]) transfer_tc (after transfer_tc) (Ok tt)).
  - apply demo_small.
  - reflexivity.
  - apply transfer_run.
Defined.

(** ** A transfer from end to end

    The transfer of [TransferRules] on concrete accounts, with the codecs of
    [ClientDemo]: 30 lamports of an account that has 100. *)

From S2P Require Import FeatureSet SystemInstructions Client ClientRules TransferRules ClientDemo.

Definition system_only (id : Pubkey) : option (option Builtin) :=
  if bool_decide (id = key 0)
  then Some (Some (@system_builtin _ demo_ids demo_versions fixint_limited)) else None.

Lemma client_transfer_executes_witness :
  exists ix message sanitized,
    client_instruction (RequestTransferSol (key 1) (key 2) (TransferSol.mkInstructionArgs 30)) [] = Ok ix /\
    Legacy.new_with_blockhash [ix] (Some (key 1)) (key 9) = Ok message /\
    Sanitized.try_from_legacy_message message = Ok sanitized /\
    exists s', process_message system_only (fun _ => false) 1 sanitized [[2]]
        (loaded (key 1) (key 2) builtin_account Rent_default 5 64 (wallet 100) (wallet 5)) demo_env 200 0 =
        (Ok tt, (s', 150)) /\
      acc_lamports <$> into_accounts (accounts (transaction_context s')) = [70; 35; 1].
Proof.
  destruct (@client_transfer_executes _ demo_ids _ demo_versions demo_borsh demo_borsh_ok fixint_limited
              fixint_limited_ok system_only (fun _ => false) eq_refl eq_refl
              (key 1) (key 2) 30 (key 9) (wallet 100) (wallet 5) builtin_account Rent_default 5 64 demo_env 200 0 0)
    as (ix & m & s & Hix & Hm & _ & Hs & o & s' & Hrun & Ho & Hafter).
  - refine (bool_decide_unpack _ _). vm_compute. exact I.
  - vm_compute. reflexivity.
  - vm_compute. reflexivity.
  - refine (bool_decide_unpack _ _). vm_compute. exact I.
  - split; [vm_compute; split; discriminate|]. split; [reflexivity|]. split; reflexivity.
  - vm_compute. split; discriminate.
  - reflexivity.
  - reflexivity.
  - vm_compute. split; discriminate.
  - vm_compute. discriminate.
  - vm_compute. discriminate.
  - vm_compute. discriminate.
  - vm_compute. split; discriminate.
  - vm_compute. discriminate.
  - vm_compute. discriminate.
  - exists ix, m, s. split; [exact Hix|]. split; [exact Hm|]. split; [exact Hs|]. exists s'.
    subst o. split; [exact Hrun|]. rewrite Hafter. reflexivity.
Defined.
