(* ===== verification/VoteDemo.v ===== *)
(** * Runs of the vote program

    A validator that votes, sends a tower, authorizes a new voter, earns credits
    and withdraws.  The runs instantiate the theorems about votes. *)

From S2P Require Import Prelude Errors Rent Account BTreeMap Pubkey Sysvars EpochSchedule Nonce TransactionContext RuntimeRules Effects SysvarCache FeatureSet SystemProgram SystemDemo VoteState Votes VoteRules TowerRules VoterRules Message InvokeContext VoteProgram VoteAuthority InvokeDemo.
Import VoteProcessor.

#[global] Instance demo_features : FeatureIds := {|
  vote_state_add_vote_latency := key 140; timely_vote_credits_id := key 141;
  deprecate_unused_legacy_vote_plumbing_id := key 142;
  allow_commission_decrease_at_any_time := key 143;
  commission_updates_only_allowed_in_first_half_of_epoch := key 144;
  stake_redelegate_instruction := key 145; reduce_stake_warmup_cooldown := key 146;
  stake_raise_minimum_delegation_to_1_sol := key 147;
  relax_authority_signer_check_for_lookup_table_creation := key 148;
|}.

(** ** Votes *)

Definition validator : VoteState :=
  VoteState_new (mkVoteInit (key 1) (key 1) (key 2) 10) (mkClock 0 0 3 4 0).

(** The validator after votes for slots 3 and 5. *)
Definition voted : VoteState :=
  with_votes [mkLandedVote 1 (mkLockout 3 2); mkLandedVote 1 (mkLockout 5 1)] validator.

Lemma voted_ok : vote_state_ok voted.
Proof.
  split; [split|..]; [vm_compute; discriminate| | |by repeat constructor|done].
  - repeat constructor; vm_compute; discriminate.
  - intros [|[|i]] v w Hv Hw; simpl in *; simplify_eq. unfold locks. split_and!; vm_compute; try done; discriminate.
Qed.

(** The fork 3, 5, 6, 7, newest first. *)
Definition fork_hashes : list SlotHash := [(7, key 7); (6, key 6); (5, key 5); (3, key 3)].
Definition next_vote : Vote := Vote_new [6; 7] (key 7).
Definition after_vote : VoteState := final (process_vote next_vote fork_hashes 3 9 true true) voted.

Lemma process_vote_safe_witness :
  tower after_vote = [3; 5; 6; 7] /\ vote_state_ok after_vote.
Proof.
  split; [reflexivity|].
  refine (proj1 (proj2 (process_vote_safe next_vote fork_hashes 3 9 true true voted after_vote (Ok tt)
    voted_ok _ _))); [|reflexivity].
  repeat constructor; vm_compute; discriminate.
Defined.

Lemma fork_votes_accepted_witness :
  exists s', process_vote next_vote fork_hashes 3 9 true true voted = (Ok tt, s') /\
    last_voted_slot s' = Some 7.
Proof.
  refine (fork_votes_accepted next_vote fork_hashes 3 9 true true voted 7 voted_ok _ _ _ _ _ _).
  - repeat constructor; vm_compute; discriminate.
  - repeat constructor.
  - by do 2 constructor; repeat constructor.
  - repeat constructor; unfold is_new; vm_compute; intros H; by destruct (H eq_refl).
  - reflexivity.
  - apply list_elem_of_here.
Defined.

(** ** A tower *)

Definition proposed : VoteStateUpdate :=
  VoteStateUpdate_new [mkLockout 3 3; mkLockout 5 2; mkLockout 7 1] None (key 7).
Definition after_update : VoteState :=
  final (do_process_vote_state_update fork_hashes 3 9 proposed None) voted.

Lemma proposed_wf : update_wf proposed.
Proof. repeat constructor; vm_compute; discriminate. Qed.

Lemma tower_update_safe_witness :
  tower after_update = [3; 5; 7] /\ vote_state_ok after_update.
Proof.
  split; [reflexivity|].
  refine (proj1 (tower_update_safe fork_hashes 3 9 proposed None voted after_update voted_ok proposed_wf _)).
  reflexivity.
Defined.

Lemma tower_update_total_witness :
  outcome_of (do_process_vote_state_update fork_hashes 3 9 proposed None) voted <> Panic.
Proof. exact (tower_update_total fork_hashes 3 9 proposed None voted voted_ok proposed_wf). Defined.

(** ** A new voter *)

Definition agree (voter : Pubkey) : Outcome InstructionError unit :=
  if decide (voter = key 1) then Ok tt else Err MissingRequiredSignature.
Definition reauthorized : VoteState := final (set_new_authorized_voter (key 4) 3 5 agree) validator.

Lemma authorize_voter_refines_witness :
  get_authorized_voter reauthorized 4 = Some (key 1) /\ get_authorized_voter reauthorized 9 = Some (key 4).
Proof.
  assert (forall epoch, 3 <= epoch -> get_authorized_voter reauthorized epoch =
    if is_ok (Ok (E:=InstructionError) tt) && (5 <=? epoch) then Some (key 4)
    else get_authorized_voter validator epoch) as H.
  { refine (proj2 (proj2 (proj2 (authorize_voter_refines (key 4) 3 5 agree validator reauthorized (Ok tt)
      _ _ _ _ _)))).
    - split; [split; repeat constructor; vm_compute; discriminate|vm_compute; split; [reflexivity|split; [discriminate|reflexivity]]].
    - lia.
    - repeat constructor; vm_compute; discriminate.
    - intros voter. unfold agree. by destruct (decide _).
    - vm_compute. reflexivity. }
  split; rewrite H by lia; reflexivity.
Defined.

(** ** Credits *)

Definition earning : VoteState := with_epoch_credits [(2, 10, 0); (3, 25, 10)] validator.

Lemma credits_exact_witness :
  credits (increment_credits 4 7 earning) = 32 /\ epoch_earned (epoch_credits (increment_credits 4 7 earning)) = 7.
Proof.
  destruct (credits_exact 4 7 earning) as (_ & Hc & _ & He).
  - split; [vm_compute; discriminate|repeat constructor; vm_compute; discriminate|].
    intros [|[|i]] e c p e' c' p' H H'; simpl in *; by simplify_eq.
  - lia.
  - vm_compute. discriminate.
  - rewrite Hc, He. split; reflexivity.
Defined.

(** ** A withdrawal *)

#[global] Instance Lockout_dec : EqDecision Lockout.
Proof. solve_decision. Defined.
#[global] Instance CircBuf_dec {I} `{!EqDecision I} : EqDecision (CircBuf I).
Proof. solve_decision. Defined.
#[global] Instance VoteState1_14_11_dec : EqDecision VoteState1_14_11.
Proof. solve_decision. Defined.

(** An encoding of two states: their place in a table. *)
Definition state_table : list VoteState1_14_11 :=
  VoteState1_14_11_from <$> [VoteState_default; validator].

#[global] Instance table_codec : Bincode VoteStateVersions := {|
  bincode_serialize := fun v =>
    match v with
    | V1_14_11 s => (fun p => [Z.of_nat (fst p)]) <$> list_find (s =.) state_table
    | _ => None
    end;
  bincode_deserialize := fun bs =>
    match bs with b :: _ => V1_14_11 <$> state_table !! Z.to_nat b | [] => None end;
|}.

#[global] Instance table_codec_ok : BincodeOk VoteStateVersions.
Proof.
  intros [|s|] bs rest; try done. cbv [bincode_serialize bincode_deserialize table_codec].
  intros ([i s'] & (Hi & <- & _)%list_find_Some & ->)%fmap_Some.
  cbn [fst app]. by rewrite Nat2Z.id, Hi.
Qed.

Definition decode_withdraw (bs : Bytes) : option VoteInstruction :=
  match bs with
  | [3; lamports] => if bool_decide (in_range U8 lamports) then Some (Withdraw lamports) else None
  | _ => None
  end.

#[global] Instance vote_instructions : BincodeLimited VoteInstruction := {|
  deserialize_with_limit := fun _ bs => decode_withdraw bs
|}.

#[global] Instance vote_instructions_ok : BincodeLimitedOk VoteInstruction vote_instruction_wf.
Proof.
  intros limit bs x H. change (decode_withdraw bs = Some x) in H. unfold decode_withdraw in H.
  repeat (case_match; try done); simplify_eq.
  match goal with H : bool_decide _ = true |- _ => apply bool_decide_eq_true in H end.
  unfold in_range in *. simpl in *. unfold in_range. simpl. lia.
Qed.

Definition vote_env : Environment :=
  mkEnvironment (key 9) 5000
    (set_clock (mkClock 9 0 3 4 0) (set_rent Rent_default SysvarCache_default)) (mkFeatureSet ∅ ∅) true.

Definition vote_account (lamports : Z) : AccountSharedData := mkAccount lamports [1] (key 124) false 0.
Definition vote_ias : list InstructionAccount :=
  [mkInstructionAccount 0 0 0 false true; mkInstructionAccount 1 1 1 true true].
Definition vote_ic : InstructionContext := mkInstructionContext 0 0 [2] vote_ias [3; 200].
Definition vote_tc : TransactionContext :=
  with_stack [0] (with_trace [vote_ic; InstructionContext_default]
    (TransactionContext_new [(key 1, vote_account 1000000); (key 2, wallet 0); (key 124, program)] Rent_default 5 64)).
Definition after_withdraw : TransactionContext := final (Entrypoint vote_env) vote_tc.

Lemma withdraw_run : Entrypoint vote_env vote_tc = (Ok tt, after_withdraw).
Proof. vm_compute. reflexivity. Qed.

Lemma vote_account_state : shared_deserialize_data (vote_account 1000000) =
  Some (V1_14_11 (VoteState1_14_11_from validator)).
Proof. vm_compute. reflexivity. Qed.

Lemma vote_withdrawer_in_control_witness :
  acc_lamports <$> account_at after_withdraw 0 = Some 999800 /\ controls vote_ic vote_tc (key 2).
Proof.
  destruct (vote_withdrawer_in_control vote_env vote_ic vote_tc after_withdraw (mkInstructionAccount 0 0 0 false true)
    (vote_account 1000000) (V1_14_11 (VoteState1_14_11_from validator)) eq_refl eq_refl eq_refl vote_account_state eq_refl withdraw_run)
    as (_ & _ & a' & v' & Ha' & _ & Hc).
  assert (account_at after_withdraw 0 = Some (vote_account 999800)) as H by (vm_compute; reflexivity).
  simpl in Ha'. rewrite H in Ha'. injection Ha' as <-. rewrite H.
  split; [reflexivity|]. apply Hc. left. reflexivity.
Defined.
