(* ===== verification/StakeDemo.v ===== *)
(** * Runs of the stake program

    A stake that is split, merged, deactivated and withdrawn, on the bytes of the
    accounts.  The runs instantiate the theorems about stakes; the last one shows
    what the program allowed before the redelegation feature. *)

From S2P Require Import Prelude Errors Rent Account BTreeMap Pubkey Sysvars EpochSchedule Nonce TransactionContext RuntimeRules CallStack SysvarCache FeatureSet SystemProgram Effects SystemRules SystemDemo InvokeContext InvokeRules Message VoteState Votes VoteProgram VoteAuthority InvokeDemo VoteDemo StakeState StakeBorsh ConfigProgram StakeActivation StakeProgram StakeMachine StakeSteps StakeTransfers StakeCodec StakeRefinement StakeCustody StakeRewards VoterRules.
Import StakeProcessor.

(** ** Instructions *)

(** The tag and the lamports, as bincode has them. *)
Definition decode_stake_instruction (bs : Bytes) : option StakeInstruction.StakeInstruction :=
  '(tag, bs) ← read (borsh_int U32) bs;
  match tag with
  | 2 => Some StakeInstruction.DelegateStake
  | 3 => '(lamports, _) ← read (borsh_int U64) bs; Some (StakeInstruction.Split lamports)
  | 4 => '(lamports, _) ← read (borsh_int U64) bs; Some (StakeInstruction.Withdraw lamports)
  | 5 => Some StakeInstruction.Deactivate
  | 7 => Some StakeInstruction.Merge
  | _ => None
  end.

#[global] Instance stake_instructions : BincodeLimited StakeInstruction.StakeInstruction := {|
  deserialize_with_limit := fun _ => decode_stake_instruction
|}.

#[global] Instance stake_instructions_ok : BincodeLimitedOk StakeInstruction.StakeInstruction stake_instruction_wf.
Proof.
  intros limit bs x H. change (decode_stake_instruction bs = Some x) in H. unfold decode_stake_instruction in H.
  apply bind_Some in H as ([tag r] & _ & H). repeat (case_match; try done); simplify_eq; simpl; try done;
    apply bind_Some in H as ([l r'] & [Hl _]%read_canonical & [= <-]); apply Hl.
Qed.

#[global] Instance no_config_keys : Bincode ConfigKeys := {| bincode_serialize _ := None; bincode_deserialize _ := None |}.
#[global] Instance no_stake_config : Bincode StakeConfig := {| bincode_serialize _ := None; bincode_deserialize _ := None |}.

(** ** The cluster *)

Definition demo_schedule : EpochSchedule := mkEpochSchedule 432000 432000 false 0 0.

(** Of 4000 lamports a quarter warms up each epoch. *)
Definition demo_history : StakeHistory.StakeHistory :=
  [(6, mkStakeHistoryEntry 5000 3000 0); (5, mkStakeHistoryEntry 4000 4000 0)].

Definition stake_env (features : gmap Pubkey Slot) : Environment :=
  mkEnvironment (key 9) 5000
    (set_stake_history demo_history (set_epoch_schedule demo_schedule
      (set_clock (mkClock 3024000 0 7 8 1000) (set_rent Rent_default SysvarCache_default))))
    (mkFeatureSet features ∅) true.

Definition demo_chain (guarded : bool) : Chain :=
  mkChain (mkClock 3024000 0 7 8 1000) Rent_default demo_history (Some 100) 1 guarded.

(** ** Accounts *)

Definition reserve : Z := minimum_balance Rent_default StakeStateV2.size_of.

Definition stake_bytes (s : StakeStateV2.StakeStateV2) : Bytes :=
  let bs := default [] (bincode_serialize s) in bs ++ replicate (200 - length bs) 0.

Definition demo_meta : Meta := mkMeta reserve (mkAuthorized (key 3) (key 4)) Lockup_default.

Definition delegated (amount activated : Z) : StakeStateV2.StakeStateV2 :=
  StakeStateV2.Stake demo_meta (mkStake (Delegation_new (key 5) amount activated) 0) StakeFlags.empty.

Definition stake_account_of (lamports : Z) (s : StakeStateV2.StakeStateV2) : AccountSharedData :=
  mkAccount lamports (stake_bytes s) (key 122) false 0.

(** The accounts of the transaction: two stake accounts, the vote account, the
    sysvars, the staker, the withdrawer and the program. *)
Definition stake_accounts (a b : AccountSharedData) : list (Pubkey * AccountSharedData) :=
  [(key 1, a); (key 2, b); (key 5, vote_account 1000000); (key 104, wallet 1); (key 106, wallet 1);
   (key 123, wallet 1); (key 3, wallet 10); (key 4, wallet 10); (key 122, program)].

Definition ia (i : Z) (signer : bool) : InstructionAccount := mkInstructionAccount i i i signer true.

Definition stake_ic (ias : list InstructionAccount) (data : Bytes) : InstructionContext :=
  mkInstructionContext 0 0 [8] ias data.

Definition instructed (ic : InstructionContext) (tc : TransactionContext) : TransactionContext :=
  with_stack [0] (with_trace [ic; InstructionContext_default] tc).

Definition stake_tc (ic : InstructionContext) (a b : AccountSharedData) : TransactionContext :=
  instructed ic (TransactionContext_new (stake_accounts a b) Rent_default 5 64).

(** ** A split *)

Definition split_ic : InstructionContext :=
  stake_ic [ia 0 false; ia 1 false; ia 6 true] (le_bytes 4 3 ++ le_bytes 8 400).
Definition split_tc : TransactionContext :=
  stake_tc split_ic (stake_account_of (reserve + 1000) (delegated 1000 5))
    (stake_account_of reserve StakeStateV2.Uninitialized).
Definition guarded_env : Environment := stake_env {[stake_redelegate_instruction := 0; reduce_stake_warmup_cooldown := 43200000]}.
Definition after_split : TransactionContext := final (Entrypoint guarded_env) split_tc.

Lemma split_run : Entrypoint guarded_env split_tc = (Ok tt, after_split).
Proof. vm_compute. reflexivity. Qed.

Lemma guarded_chain : chain_of guarded_env (demo_chain true).
Proof. split; try done; vm_compute; reflexivity. Qed.

Lemma accounts_forall (P : AccountSharedData -> Prop) tc :
  Forall P (values tc) -> forall k b, account_at tc k = Some b -> P b.
Proof.
  intros Hf k b. rewrite account_at_values. intros [_ Hb]%vec_get_Some. by eapply list.Forall_lookup_1.
Qed.

Lemma split_balances : balances_wf split_tc.
Proof. refine (accounts_forall (fun b => in_range U64 (acc_lamports b)) _ _). refine (bool_decide_unpack _ _). vm_compute. exact I. Qed.

Lemma split_controls key' : controls split_ic split_tc key' -> key' = key 3.
Proof.
  assert (forall k, signed split_ic split_tc k -> k = key 3) as Hs.
  { intros k (i & Hi & Hs & Hk). simpl in Hi. repeat (apply elem_of_cons in Hi as [->|Hi]; [try done|]).
    - vm_compute in Hk. by simplify_eq.
    - by apply elem_of_nil in Hi. }
  intros [Hk|(base & seed & owner & ->%Hs & Hk)]; [by apply Hs|].
  unfold create_with_seed in Hk. repeat (case_match; try done). injection Hk as <-. reflexivity.
Qed.

Lemma stake_program_refines_witness :
  machine_step (controls split_ic split_tc) (demo_chain true) (delinquent_voter 7 split_tc) split_tc after_split.
Proof.
  exact (stake_program_refines guarded_env (demo_chain true) split_ic split_tc after_split
    guarded_chain split_balances eq_refl split_run).
Defined.

Lemma stake_custody_witness :
  total_lamports after_split = total_lamports split_tc /\
  account_sum (held (withdrawable_by (key 4))) split_tc <= account_sum (held (withdrawable_by (key 4))) after_split.
Proof.
  destruct (stake_custody guarded_env (demo_chain true) split_ic split_tc after_split
    guarded_chain split_balances eq_refl split_run) as [Ht Hc].
  split; [exact Ht|]. apply (Hc (key 4)). by intros ?%split_controls.
Defined.

Lemma stake_authorities_in_control_witness :
  exists a' l' s', account_at after_split 0 = Some a' /\ stake_view a' = Some (l', s') /\
    follows (controls split_ic split_tc) (demo_chain true) (delinquent_voter 7 split_tc) (delegated 1000 5) s'.
Proof.
  refine (stake_authorities_in_control guarded_env (demo_chain true) split_ic split_tc after_split 0 _
    (reserve + 1000) (delegated 1000 5) guarded_chain split_balances eq_refl eq_refl _ split_run).
  vm_compute. reflexivity.
Defined.

Lemma split_backed : all_backed (demo_chain true) split_tc.
Proof.
  refine (accounts_forall (backed (demo_chain true)) _ _).
  repeat constructor; intros l s H; vm_compute in H; try discriminate; injection H as <- <-; vm_compute; auto.
  split_and!; [done|discriminate|intros _; discriminate].
Qed.

Lemma stake_stays_backed_witness :
  all_backed (demo_chain true) after_split /\
  stake_view <$> account_at after_split 1 = Some (Some (reserve + 400, delegated 400 5)).
Proof.
  split; [|vm_compute; reflexivity].
  exact (stake_stays_backed guarded_env (demo_chain true) split_ic split_tc after_split guarded_chain eq_refl eq_refl
    split_balances eq_refl split_run split_backed).
Defined.

(** ** Rescinding a deactivation without the redelegation feature *)

(** In one epoch: the stake is deactivated, what is not effective is withdrawn,
    and the stake is delegated to its voter again. *)
Definition rescue : list InstructionContext :=
  [stake_ic [ia 0 false; ia 3 false; ia 6 true] (le_bytes 4 5);
   stake_ic [ia 0 false; ia 7 false; ia 3 false; ia 4 false; ia 7 true] (le_bytes 4 4 ++ le_bytes 8 400);
   stake_ic [ia 0 false; ia 2 false; ia 3 false; ia 4 false; ia 5 false; ia 6 true] (le_bytes 4 2)].

(** Runs instructions one after the other, as long as they succeed. *)
Definition run_all (env : Environment) (tc : TransactionContext) : Outcome InstructionError TransactionContext :=
  foldl (fun r ic => let! tc := r in
    match Entrypoint env (instructed ic tc) with
    | (Ok _, tc') => Ok tc'
    | (Err e, _) => Err e
    | (Panic, _) => Panic
    end) (Ok tc) rescue.

Definition rescue_tc : TransactionContext :=
  TransactionContext_new (stake_accounts (stake_account_of (reserve + 1000) (delegated 1000 5))
    (stake_account_of reserve StakeStateV2.Uninitialized)) Rent_default 5 64.

Definition plain_env : Environment := stake_env {[reduce_stake_warmup_cooldown := 43200000]}.

(** Without the feature the account ends with a delegation of 1000 lamports that
    is not deactivated, and 600 lamports above its reserve; with the feature the
    delegation is refused. *)
Example rescind_unbacked :
  (let! tc := run_all plain_env rescue_tc in Ok (stake_view <$> account_at tc 0)) =
    Ok (Some (Some (reserve + 600, delegated 1000 5))) /\
  (let! tc := run_all guarded_env rescue_tc in Ok (account_at tc 0)) =
    Err (StakeError.into StakeError.TooSoonToRedelegate).
Proof. split; vm_compute; reflexivity. Qed.

(** ** Warmup, cooldown and layout *)

Definition warming : Delegation := Delegation_new (key 5) 1000 5.

Lemma stake_status_bounded_witness :
  stake_activating_and_deactivating demo_history None warming 7 = mkStakeHistoryEntry 562 438 0 /\
  warmup_loop demo_history None 9 warming 7 5 (mkStakeHistoryEntry 4000 4000 0) 0 =
  warmup_loop demo_history None 3 warming 7 5 (mkStakeHistoryEntry 4000 4000 0) 0.
Proof.
  split; [vm_compute; reflexivity|].
  refine (proj1 (proj2 (proj2 (proj2 (proj2 (proj2 (stake_status_bounded demo_history None warming 7 _ _ _ _))))))
    (mkStakeHistoryEntry 4000 4000 0) _ _ 9%nat _);
    first [vm_compute; split; discriminate | reflexivity | simpl; lia].
Defined.

(** Deactivated in epoch 5, while the cluster deactivates. *)
Definition cooling : Delegation := mkDelegation (key 5) 1000 1 5 DEFAULT_WARMUP_COOLDOWN_RATE.
Definition cooling_history : StakeHistory.StakeHistory :=
  [(6, mkStakeHistoryEntry 5000 0 3000); (5, mkStakeHistoryEntry 6000 0 4000)].

Lemma stake_cools_down_witness :
  0 <= effective_stake cooling_history None cooling 7 <= 998 /\ effective_stake [] None cooling 7 = 0.
Proof.
  assert (forall h, (deactivates_from h 7 5 -> 0 <= effective_stake h None cooling 7 <= 998) /\
    (StakeHistory.get 5 h = None -> effective_stake h None cooling 7 = 0)) as H
    by (intros h; apply (stake_cools_down h None cooling 7); vm_compute; split; discriminate || reflexivity).
  split; [apply H|by apply H].
  intros epoch He. assert (epoch = 5 \/ epoch = 6) as [->| ->] by lia;
    eexists; split; [reflexivity|discriminate|reflexivity|discriminate].
Defined.

Lemma stake_layout_witness :
  exists rest', StakeStateV2_deserialize_reader
    (default [] (StakeState_serialize (V1Stake demo_meta (mkStake warming 9))) ++ 0 :: [0; 0; 0]) =
    Some (StakeStateV2.Stake demo_meta (mkStake warming 9) StakeFlags.empty, rest').
Proof.
  refine (proj2 (stake_layout (f64_wf:=f64_value)) (V1Stake demo_meta (mkStake warming 9))
    (default [] (StakeState_serialize (V1Stake demo_meta (mkStake warming 9)))) [0; 0; 0] _ _).
  - refine (bool_decide_unpack _ _). vm_compute. exact I.
  - vm_compute. reflexivity.
Defined.

(** ** Rewards *)

(** A bootstrap stake, all of it effective, whose validator earned 15 credits in
    epoch 3. *)
Definition earner : Stake := mkStake (Delegation_new (key 5) 1000 (int_max U64)) 10.
Definition round : PointValue := mkPointValue 200 20000.

Lemma earner_wf : claim_wf earner earning.
Proof.
  split; [vm_compute; split; discriminate..| |vm_compute; discriminate].
  split; [repeat constructor; vm_compute; discriminate|].
  intros [|[|i]] e c p e' c' p' H H'; simpl in *; by simplify_eq.
Qed.

(** A delegation and a pool of the greatest sizes. *)
Definition great_earner : Stake := mkStake (Delegation_new (key 5) (int_max U64) (int_max U64)) 10.
Definition great_round : PointValue := mkPointValue (int_max U64) (int_max U128).

Lemma great_earner_wf : claim_wf great_earner earning.
Proof. destruct earner_wf. split; [vm_compute; split; discriminate|done..]. Qed.

Lemma rewards_within_pool_witness :
  (exists paid,
    Forall2 (fun '(s, v) r => calculate_stake_rewards (E:=InstructionError) [] None 3 s round v = Ok r)
      [(earner, earning)] paid /\ 0 <= sum_Z (payout <$> paid) <= 200) /\
  calculate_stake_rewards (E:=InstructionError) [] None 3 great_earner great_round earning = Panic.
Proof.
  split.
  - apply (rewards_within_pool [] None 3 round [(earner, earning)]); [constructor; [exact earner_wf|constructor]|..].
    + vm_compute. split; discriminate.
    + vm_compute. discriminate.
    + constructor; [vm_compute; discriminate|constructor].
  - eapply (rewards_within_pool [] None 3 great_round [(great_earner, earning)]);
      [constructor; [exact great_earner_wf|constructor]|..].
    + vm_compute. split; discriminate.
    + vm_compute. discriminate.
    + by apply list_elem_of_singleton.
    + vm_compute. reflexivity.
    + vm_compute. discriminate.
Defined.

Definition earning_account : AccountSharedData :=
  stake_account_of (reserve + 1000) (StakeStateV2.Stake demo_meta earner StakeFlags.empty).
Definition paid_account : AccountSharedData :=
  stake_account_of (reserve + 1135) (StakeStateV2.Stake demo_meta (rewarded earner 135 25) StakeFlags.empty).

Lemma redeem_run :
  redeem_rewards [] None 3 (StakeStateV2.Stake demo_meta earner StakeFlags.empty) earning_account earning round =
  Ok (paid_account, (135, 15)).
Proof. vm_compute. reflexivity. Qed.

Lemma rewards_paid_once_witness :
  stake_view paid_account =
    Some (reserve + 1000 + 135, StakeStateV2.Stake demo_meta (rewarded earner 135 (credits earning)) StakeFlags.empty).
Proof.
  refine (proj1 (proj2 (proj2 (proj2 (rewards_paid_once [] None 3 (demo_chain true) demo_meta earner StakeFlags.empty earning_account
    paid_account earning round 135 15 earner_wf _ _ _ _ _ redeem_run))))).
  - vm_compute. split; discriminate.
  - vm_compute. discriminate.
  - vm_compute. discriminate.
  - reflexivity.
  - vm_compute. discriminate.
Defined.

Lemma merge_credits_fair_witness :
  1500 * (30 - 14) <= 1000 * (30 - 10) + 500 * (30 - 20).
Proof.
  refine (proj1 (proj2 (proj2 (merge_credits_fair earner
    (mkStake (Delegation_new (key 5) 1500 (int_max U64)) 14) 500 20 _ _ _)) 30)); vm_compute; first [reflexivity|discriminate].
Defined.

Lemma stake_history_exact_witness :
  effective (new_stake_history_entry None 7 [warming; cooling] demo_history) = 562 + 1000.
Proof.
  rewrite (proj1 (stake_history_exact None 7 demo_history [warming; cooling] ltac:(repeat constructor; vm_compute; discriminate)
    ltac:(vm_compute; discriminate))). vm_compute. reflexivity.
Defined.
