(* ===== verification/ConfigDemo.v ===== *)
(** * Runs of the config program

    An account with two stored signers: an update that both sign, one in which
    the config account stands in for a signer, and one that fails because the
    accounts of [store] and those of the processor are not counted alike. *)

From S2P Require Import Prelude Errors Rent Account Pubkey Sysvars EpochSchedule Nonce TransactionContext RuntimeRules CallStack SysvarCache FeatureSet SystemProgram Effects SystemRules SystemDemo InvokeContext InvokeRules Message InvokeDemo SystemInstructions ConfigProgram ConfigRules.
Import ConfigProcessor.

(** ** Encoding *)

(** Fewer than 128 keys: their number in one byte, and each with its flag. *)
Definition encode_keys (k : ConfigKeys) : option Bytes :=
  if (length (keys k) <? 128)%nat && bool_decide (Forall (fun p => length (fst p) = 32%nat) (keys k))
  then Some (vec_len (keys k) :: ((fun p => fst p ++ [Z.b2z (snd p)]) <$> keys k) ≫= id) else None.

Fixpoint decode_entries (n : nat) (bs : Bytes) : option (list (Pubkey * bool)) :=
  match n with
  | O => Some []
  | S n =>
      '(key, bs) ← split_bytes 32 bs;
      match bs with
      | b :: bs => if (b =? 0) || (b =? 1) then rest ← decode_entries n bs; Some ((key, b =? 1) :: rest) else None
      | [] => None
      end
  end.

Definition decode_keys (bs : Bytes) : option ConfigKeys :=
  match bs with
  | n :: bs => if (0 <=? n) && (n <? 128) then mkConfigKeys <$> decode_entries (Z.to_nat n) bs else None
  | [] => None
  end.

#[global] Instance keys_codec : Bincode ConfigKeys :=
  {| bincode_serialize := encode_keys; bincode_deserialize := decode_keys |}.
#[global] Instance keys_limited : BincodeLimited ConfigKeys := {| deserialize_with_limit := fun _ => decode_keys |}.

(** ** Updates *)

Definition config_bytes (ks : list (Pubkey * bool)) : Bytes := default [] (encode_keys (mkConfigKeys ks)).

(** The account at [key 1], whose stored signers are [key 2] and [key 3]. *)
Definition config_account : AccountSharedData :=
  mkAccount 1000 (config_bytes [(key 2, true); (key 3, true)] ++ replicate 40 7) (key 120) false 0.

Definition config_ic (new : list (Pubkey * bool)) (metas : list InstructionAccount) : InstructionContext :=
  mkInstructionContext 0 0 [3] metas (config_bytes new).

Definition config_tc (ic : InstructionContext) : TransactionContext :=
  with_stack [0] (with_trace [ic; InstructionContext_default]
    (TransactionContext_new [(key 1, config_account); (key 2, wallet 0); (key 3, wallet 0); (key 120, program)]
       Rent_default 5 64)).

Definition meta (i : Z) (signer : bool) : InstructionAccount := mkInstructionAccount i i i signer true.

(** Both signers sign. *)
Definition both_ic : InstructionContext :=
  config_ic [(key 2, true); (key 3, true)] [meta 0 false; meta 1 true; meta 2 true].
Definition after_both : TransactionContext := final Entrypoint (config_tc both_ic).

Lemma both_run : Entrypoint (config_tc both_ic) = (Ok tt, after_both).
Proof. vm_compute. reflexivity. Qed.

Lemma config_update_signed_witness :
  signed both_ic (config_tc both_ic) (key 2) /\ signed both_ic (config_tc both_ic) (key 3).
Proof.
  assert (forall s, s ∈ [key 2; key 3] -> signed both_ic (config_tc both_ic) s) as H;
    [|split; apply H; refine (bool_decide_unpack _ _); vm_compute; exact I].
  refine (proj1 (proj2 (proj2 (proj2 (proj2 (proj2 (proj2 (config_update_signed both_ic _ (config_tc both_ic) after_both
    (meta 0 false) config_account (key 1) (mkConfigKeys [(key 2, true); (key 3, true)])
    (mkConfigKeys [(key 2, true); (key 3, true)]) eq_refl eq_refl eq_refl eq_refl _ _ _ both_run))))))) _).
  - vm_compute. discriminate.
  - vm_compute. reflexivity.
  - vm_compute. reflexivity.
  - refine (bool_decide_unpack _ _). vm_compute. exact I.
  - left. refine (bool_decide_unpack _ _). vm_compute. exact I.
Defined.

(** The config account is listed in place of [key 3], which does not sign. *)
Definition replaced_ic : InstructionContext :=
  config_ic [(key 2, true); (key 1, true)] [meta 0 true; meta 1 true].

Example config_account_replaces_signer :
  outcome_of Entrypoint (config_tc replaced_ic) = Ok tt /\
  key 3 ∈ signer_keys [(key 2, true); (key 3, true)] /\ ~ signed replaced_ic (config_tc replaced_ic) (key 3).
Proof.
  split_and!; [vm_compute; reflexivity|refine (bool_decide_unpack _ _); vm_compute; exact I|].
  intros (i & Hi & _ & Hk). repeat (apply elem_of_cons in Hi as [->|Hi]; [by vm_compute in Hk|]). by apply elem_of_nil in Hi.
Qed.

(** [store] leaves the config account out of the signers; the processor counts
    it, and looks for the next signer one account too far. *)
Example store_metas_miscounted :
  let new := [(key 1, true); (key 2, true); (key 3, true)] in
  meta_pubkey <$> ConfigInstruction.store_metas (key 1) true new = [key 1; key 2; key 3] /\
  outcome_of Entrypoint (config_tc (config_ic new [meta 0 true; meta 1 true; meta 2 true])) =
    Err MissingRequiredSignature /\
  outcome_of Entrypoint (config_tc (config_ic [(key 2, true); (key 3, true); (key 1, true)] [meta 0 true; meta 1 true; meta 2 true])) = Ok tt.
Proof. split_and!; vm_compute; reflexivity. Qed.
