(* ===== verification/TableDemo.v ===== *)
(** * Runs of the lookup table program

    A table that is created, extended and looked up, with the system program
    registered as the callee.  The runs instantiate the theorems about lookup
    tables; a hash function with collisions shows what the uniqueness of tables
    depends on.  The last part is a bank that registers its programs. *)

From S2P Require Import Prelude Errors Rent Account Pubkey Sysvars EpochSchedule Nonce TransactionContext RuntimeRules CallStack SysvarCache FeatureSet SystemProgram Effects SystemRules SystemDemo InvokeContext InvokeRules ProcessRules SystemContract Message InvokeDemo VoteDemo SystemInstructions StakeBorsh StakeCodec StakeDemo SystemCalls LookupTable TableContract TableMachine TableRules MessageRules MessageProcessor OwnerRules Builtins TableCustody.
Import TableProcessor.

(** ** What is outside the repository *)

#[local] Instance table_hashing : Hashing := {| sha256 := fun _ => key 77 |}.
#[local] Instance table_curve : Curve := {| bytes_are_curve_point := fun _ => false |}.
#[local] Instance table_ids : LookupTableIds := {| address_lookup_table_program_id := key 60 |}.

(** The addresses of a slice, whose length is a multiple of 32. *)
Fixpoint cast_keys (fuel : nat) (bs : Bytes) : option (list Pubkey) :=
  match bs, fuel with
  | [], _ => Some []
  | _, O => None
  | _, S fuel => '(k, rest) ← split_bytes 32 bs; cons k <$> cast_keys fuel rest
  end.

#[local] Instance table_cast : CastSlice := {| try_cast_slice := fun bs => cast_keys (length bs) bs |}.

Lemma cast_keys_inv fuel bs ks :
  cast_keys fuel bs = Some ks -> bs = mjoin ks /\ Forall (fun k => length k = 32%nat) ks.
Proof.
  revert bs ks. induction fuel as [|fuel IH]; intros [|b bs] ks; simpl; [by intros [= <-]|done|by intros [= <-]|].
  intros ([k rest] & [Hb Hl]%split_bytes_inv & (r & Hr & ->)%fmap_Some)%bind_Some.
  destruct (IH _ _ Hr) as [-> Hf]. by split; [|constructor].
Qed.

Lemma cast_keys_intro fuel ks :
  Forall (fun k => length k = 32%nat) ks -> (length (mjoin ks) <= fuel)%nat -> cast_keys fuel (mjoin ks) = Some ks.
Proof.
  revert fuel. induction ks as [|k ks IH]; intros fuel Hf Hl; [by destruct fuel|].
  apply list.Forall_cons in Hf as [Hk Hf]. change (mjoin (k :: ks)) with (k ++ mjoin ks) in *. rewrite length_app in Hl.
  destruct fuel as [|fuel]; [lia|]. destruct (k ++ mjoin ks) as [|b bs] eqn:Hb; [by destruct k|].
  cbn [cast_keys]. rewrite <- Hb, split_bytes_app by done. cbn [mbind option_bind]. rewrite IH; [done|done|lia].
Qed.

#[local] Instance table_cast_ok : CastSliceOk.
Proof.
  intros bs ks. split; [apply cast_keys_inv|]. intros [-> Hf]. by apply cast_keys_intro.
Qed.

(** *** The states *)

Definition read_authority (bs : Bytes) : option (option Pubkey * Bytes) :=
  '(some, bs) ← read (borsh_int U8) bs;
  if some =? 0 then Some (None, bs)
  else if some =? 1 then '(k, bs) ← read borsh_key bs; Some (Some k, bs) else None.

Definition read_meta (bs : Bytes) : option LookupTableMeta :=
  '(deactivation, bs) ← read (borsh_int U64) bs;
  '(extended, bs) ← read (borsh_int U64) bs;
  '(start, bs) ← read (borsh_int U8) bs;
  '(authority, bs) ← read_authority bs;
  '(padding, _) ← read (int_codec 2 U16) bs;
  Some (mkLookupTableMeta deactivation extended start authority padding).

Definition write_meta (m : LookupTableMeta) : Bytes :=
  le_bytes 8 (deactivation_slot m) ++ le_bytes 8 (last_extended_slot m) ++
  le_bytes 1 (last_extended_slot_start_index m) ++
  match table_authority m with None => le_bytes 1 0 | Some k => le_bytes 1 1 ++ k end ++
  le_bytes 2 (padding m).

Definition meta_values (m : LookupTableMeta) : Prop :=
  in_range U64 (deactivation_slot m) /\ in_range U64 (last_extended_slot m) /\
  in_range U8 (last_extended_slot_start_index m) /\ in_range U16 (padding m) /\
  match table_authority m with None => True | Some k => pubkey_wf k end.

#[local] Instance meta_values_dec m : Decision (meta_values m).
Proof. unfold meta_values. destruct (table_authority m); apply _. Defined.

Definition decode_state (bs : Bytes) : option TableState :=
  '(tag, bs) ← read (borsh_int U32) bs;
  if tag =? 0 then Some ProgramState.Uninitialized
  else if tag =? 1 then ProgramState.LookupTable <$> read_meta bs else None.

#[local] Instance table_state_codec : Bincode TableState := {|
  bincode_serialize := fun s =>
    match s with
    | ProgramState.Uninitialized => Some (le_bytes 4 0)
    | ProgramState.LookupTable m => if bool_decide (meta_values m) then Some (le_bytes 4 1 ++ write_meta m) else None
    end;
  bincode_deserialize := decode_state;
|}.

(** An integer is read back from its bytes. *)
Lemma read_int n ty z rest :
  has_width n ty -> in_range ty z -> read (int_codec n ty) (le_bytes n z ++ rest) = Some (z, rest).
Proof. intros Hw Hz. by apply (read_write (CodecOk:=int_codec_ok n ty Hw)). Qed.

Lemma read_authority_write o rest :
  match o with None => True | Some k => pubkey_wf k end ->
  read_authority (match o with None => le_bytes 1 0 | Some k => le_bytes 1 1 ++ k end ++ rest) = Some (o, rest).
Proof.
  intros Ho. unfold read_authority. destruct o as [k|].
  - rewrite <- app_assoc. rewrite (read_int 1 U8) by done. cbn [mbind option_bind].
    rewrite (read_write (c:=borsh_key) k k rest Ho); [done|]. cbn [write borsh_key fixed_primitives key_codec].
    by rewrite bool_decide_true.
  - by rewrite (read_int 1 U8) by done.
Qed.

Lemma read_meta_write m rest : meta_values m -> read_meta (write_meta m ++ rest) = Some m.
Proof.
  intros (H1 & H2 & H3 & H4 & H5). unfold read_meta, write_meta. rewrite <- !app_assoc.
  rewrite (read_int 8 U64) by done. cbn [mbind option_bind].
  rewrite (read_int 8 U64) by done. cbn [mbind option_bind].
  rewrite (read_int 1 U8) by done. cbn [mbind option_bind].
  rewrite read_authority_write by done. cbn [mbind option_bind].
  rewrite (read_int 2 U16) by done. cbn [mbind option_bind]. by destruct m.
Qed.

#[local] Instance table_state_ok : BincodeOk TableState.
Proof.
  intros s bs rest. cbn [bincode_serialize bincode_deserialize table_state_codec]. unfold decode_state.
  destruct s as [|m]; [|case_bool_decide as Hm; [|done]]; intros <-%(inj Some).
  - by rewrite (read_int 4 U32) by done.
  - rewrite <- app_assoc. rewrite (read_int 4 U32) by done. cbn [mbind option_bind].
    change (1 =? 0) with false. change (1 =? 1) with true. cbn iota. by rewrite read_meta_write.
Qed.

(** *** The instructions *)

Definition decode_table_instruction (bs : Bytes) : option TableInstruction :=
  '(tag, bs) ← read (borsh_int U32) bs;
  match tag with
  | 0 => '(slot, bs) ← read (borsh_int U64) bs; '(bump, _) ← read (borsh_int U8) bs;
         Some (ProgramInstruction.CreateLookupTable slot bump)
  | 1 => Some ProgramInstruction.FreezeLookupTable
  | 2 => '(n, bs) ← read (borsh_int U64) bs; '(bs, _) ← split_bytes (Z.to_nat (32 * n)) bs;
         ProgramInstruction.ExtendLookupTable <$> try_cast_slice bs
  | 3 => Some ProgramInstruction.DeactivateLookupTable
  | 4 => Some ProgramInstruction.CloseLookupTable
  | _ => None
  end.

#[local] Instance table_instructions : BincodeLimited TableInstruction := {|
  deserialize_with_limit := fun _ => decode_table_instruction
|}.

#[local] Instance table_instructions_ok : BincodeLimitedOk TableInstruction table_instruction_wf.
Proof.
  intros limit bs x H. change (decode_table_instruction bs = Some x) in H. unfold decode_table_instruction in H.
  apply bind_Some in H as ([tag r] & _ & H). repeat (case_match; try done); simplify_eq; simpl; try done.
  - by apply bind_Some in H as ([slot r'] & _ & ([bump r''] & _ & [= <-])%bind_Some).
  - apply bind_Some in H as ([n r'] & _ & ([b r''] & _ & (ks & [_ Hk]%try_cast_slice_spec & ->)%fmap_Some)%bind_Some).
    exact Hk.
Qed.

(** The instructions of the system program that are invoked. *)
Definition encode_system (i : SystemInstruction) : option Bytes :=
  match i with
  | Assign owner => if bool_decide (pubkey_wf owner) then Some (le_bytes 4 1 ++ owner) else None
  | Transfer lamports => if bool_decide (in_range U64 lamports) then Some (le_bytes 4 2 ++ le_bytes 8 lamports) else None
  | Allocate space => if bool_decide (in_range U64 space) then Some (le_bytes 4 8 ++ le_bytes 8 space) else None
  | _ => None
  end.

Definition decode_system (bs : Bytes) : option SystemInstruction :=
  '(tag, bs) ← read (borsh_int U32) bs;
  match tag with
  | 1 => '(owner, _) ← read borsh_key bs; Some (Assign owner)
  | 2 => '(lamports, _) ← read (borsh_int U64) bs; Some (Transfer lamports)
  | 8 => '(space, _) ← read (borsh_int U64) bs; Some (Allocate space)
  | _ => None
  end.

#[local] Instance system_codec : Bincode SystemInstruction :=
  {| bincode_serialize := encode_system; bincode_deserialize := decode_system |}.
#[local] Instance system_limited : BincodeLimited SystemInstruction := {| deserialize_with_limit := fun _ => decode_system |}.

Lemma decode_encode_system x bs : encode_system x = Some bs -> decode_system bs = Some x.
Proof.
  unfold decode_system. destruct x; cbn [encode_system]; try done; case_bool_decide as Hx; try done; intros <-%(inj Some);
    rewrite (read_int 4 U32) by done; cbn [mbind option_bind].
  - rewrite <- (app_nil_r owner) at 1. rewrite (read_write (c:=borsh_key) owner owner [] Hx); [done|].
    cbn [write borsh_key fixed_primitives key_codec]. by rewrite bool_decide_true.
  - rewrite <- (app_nil_r (le_bytes 8 _)). by rewrite (read_int 8 U64) by done.
  - rewrite <- (app_nil_r (le_bytes 8 _)). by rewrite (read_int 8 U64) by done.
Qed.

#[local] Instance system_agrees : BincodeAgrees SystemInstruction.
Proof. intros limit x bs y Hx%decode_encode_system Hy. change (decode_system bs = Some y) in Hy. congruence. Qed.

#[local] Instance system_limited_ok : BincodeLimitedOk SystemInstruction system_instruction_wf.
Proof.
  intros limit bs x H. change (decode_system bs = Some x) in H. unfold decode_system in H.
  apply bind_Some in H as ([tag r] & _ & H). repeat (case_match; try done); simplify_eq;
    apply bind_Some in H as ([l r'] & [Hl _]%read_canonical & [= <-]); exact Hl.
Qed.

Definition table_programs (id : Pubkey) : option (option Builtin) :=
  if bool_decide (id = key 0) then Some (Some system_builtin)
  else if bool_decide (id = key 60) then Some (Some lookup_table_builtin)
  else None.

#[local] Instance table_programs_ok : ProgramsOk table_programs.
Proof. intros id f. unfold table_programs. repeat case_bool_decide; intros [= <-]; apply _. Qed.

Definition table_invoke : Invoke := native_invoke_with (process_instruction table_programs 4).

Lemma table_calls : SystemCalls table_invoke.
Proof. apply native_invoke_system_calls; [apply _|]. unfold table_programs. by rewrite bool_decide_true. Qed.

(** ** A table is created *)

Definition table_env (slot : Slot) (hashes : SlotHashes.SlotHashes) : Environment :=
  mkEnvironment (key 9) 5000
    (set_slot_hashes hashes (set_clock (mkClock slot 0 7 8 1000) (set_rent Rent_default SysvarCache_default)))
    (mkFeatureSet ∅ ∅) true.

(** The table, its authority, the payer and the programs. *)
Definition table_ias : list InstructionAccount :=
  [mkInstructionAccount 0 0 0 false true; mkInstructionAccount 1 1 1 true false;
   mkInstructionAccount 2 2 2 true true; mkInstructionAccount 3 3 3 false false].
Definition table_ic (lamports : Z) (data : Bytes) : InstructionContext :=
  mkInstructionContext 0 (lamports + 10000011) [4] table_ias data.
Definition table_tc (table : AccountSharedData) (data : Bytes) : TransactionContext :=
  instructed (table_ic (acc_lamports table) data)
    (TransactionContext_new [(key 77, table); (key 3, wallet 10); (key 1, wallet 10000000); (key 0, program); (key 60, program)]
       Rent_default 5 64).

Definition create_data (slot : Slot) : Bytes := le_bytes 4 0 ++ le_bytes 8 slot ++ le_bytes 1 255.

Definition creating (slot : Slot) (hashes : SlotHashes.SlotHashes) : InvokeContext :=
  InvokeContext_new (table_tc (wallet 0) (create_data slot)) (table_env (slot + 1) hashes) 100000.
Definition created (slot : Slot) (hashes : SlotHashes.SlotHashes) : InvokeContext :=
  final (Entrypoint table_invoke) (creating slot hashes).

Lemma table_create_run : Entrypoint table_invoke (creating 20 [(20, key 9)]) = (Ok tt, created 20 [(20, key 9)]).
Proof. vm_compute. reflexivity. Qed.

(** An instruction of a message is running. *)
Lemma instructed_running ic keyed rent :
  NoDup (fst <$> keyed) -> vec_len keyed <= int_max U16 -> ic_small ic -> nesting_level ic = 0 ->
  running ic (instructed ic (TransactionContext_new keyed rent 5 64)).
Proof.
  assert (forall k i, vec_get [0] k = Some i -> k = 0 /\ i = 0) as H0.
  { intros k i [Hk H]%vec_get_Some. destruct (Z.to_nat k) eqn:Hn; [|done]. simpl in H. by simplify_eq; lia. }
  intros Hk Hl Hs Hn. split; [|split| |]; [|exact Hk| |exact Hs|reflexivity].
  - split; [split; vm_compute; split; congruence|vm_compute; split; congruence|vm_compute; congruence| |].
    + intros k i [-> ->]%H0. split; [vm_compute; split; congruence|]. by exists ic.
    + intros k1 k2 i1 i2 Hlt [-> _]%H0 [-> _]%H0. lia.
  - cbn [account_keys instructed with_stack with_trace TransactionContext_new].
    unfold vec_len in *. by rewrite length_fmap.
Qed.

Lemma table_running lamports data : running (table_ic lamports data) (table_tc (wallet lamports) data).
Proof.
  apply instructed_running; [|vm_compute; discriminate|vm_compute; discriminate|done].
  refine (bool_decide_unpack _ _). vm_compute. exact I.
Qed.

Lemma table_loaded lamports data : system_loaded (table_tc (wallet lamports) data).
Proof.
  intros j [Hj H]%vec_get_Some. destruct (decide (Z.to_nat j = 3%nat)) as [H3|H3].
  - replace j with 3 by lia. by exists program.
  - destruct (Z.to_nat j) as [|[|[|[|[|n]]]]]; try done; by vm_compute in H.
Qed.

Lemma create_balances data : balances_wf (table_tc (wallet 0) data).
Proof. refine (accounts_forall (fun b => in_range U64 (acc_lamports b)) _ _). refine (bool_decide_unpack _ _). vm_compute. exact I. Qed.

Lemma lookup_table_refines_witness :
  (account_at (transaction_context (created 20 [(20, key 9)])) 0 ≫= table_of) =
    Some (mkAddressLookupTable (LookupTableMeta_new (key 3)) []) /\
  balances_wf (table_tc (wallet 0) (create_data 20)) /\
  table_effect (balances_wf (table_tc (wallet 0) (create_data 20))) (table_ic 0 (create_data 20)) (mkFeatureSet ∅ ∅) 21 [(20, key 9)]
    (transaction_context (creating 20 [(20, key 9)])) (transaction_context (created 20 [(20, key 9)])).
Proof.
  split; [vm_compute; reflexivity|]. split; [apply create_balances|].
  refine (lookup_table_refines _ table_invoke (calls:=table_calls) (table_ic 0 (create_data 20)) (mkClock 21 0 7 8 1000)
    [(20, key 9)] (creating 20 [(20, key 9)]) (created 20 [(20, key 9)]) _ _ _ _ table_create_run).
  - vm_compute. discriminate.
  - apply table_running.
  - apply table_loaded.
  - reflexivity.
  - reflexivity.
Defined.

(** ** Its history *)

Definition new_table : Table := mkAddressLookupTable (LookupTableMeta_new (key 3)) [].
Definition grown : Table := extended 21 [key 8] new_table.
Definition frozen : Table := mkAddressLookupTable (set_authority None (table_meta grown)) [key 8].

Lemma new_table_grows : evolves (eq (key 3)) 21 new_table 22 grown.
Proof.
  apply (evolves_wait _ _ _ 21); [|lia]. apply (evolves_step _ _ _ _ new_table []); [constructor|].
  by apply (step_extend _ _ _ _ (key 3)).
Qed.

Lemma grown_freezes : evolves (eq (key 3)) 22 grown 30 frozen.
Proof.
  apply (evolves_step _ _ _ _ grown []); [apply (evolves_wait _ _ _ 22); [constructor|lia]|].
  by apply (step_freeze (eq (key 3)) 30 [] grown (key 3)).
Qed.

Lemma grown_wf : table_wf 22 grown.
Proof. split; vm_compute; [discriminate|split; discriminate|discriminate]. Qed.

Lemma table_history_witness :
  table_addresses grown `prefix_of` table_addresses frozen /\
  vec_len (table_addresses frozen) <= LOOKUP_TABLE_MAX_ADDRESSES.
Proof. destruct (table_history _ 22 30 grown frozen grown_freezes grown_wf) as (Hp & Hl & _). exact (conj Hp Hl). Defined.

Lemma lookups_stable_witness :
  lookup frozen 30 [0] [] = Ok [key 8] /\ forall ks, lookup frozen 30 [0] [] = Ok ks -> ks = [key 8].
Proof.
  split; [vm_compute; reflexivity|].
  refine (proj2 (lookups_stable _ 22 30 grown frozen [0] [] [] [key 8] grown_freezes grown_wf _)). vm_compute. reflexivity.
Defined.

(** What is appended in a slot is not seen in it. *)
Lemma lookups_consistent_witness :
  lookup (extended 22 [key 7] grown) 22 [1] [] = Err InvalidLookupIndex /\
  lookup (extended 22 [key 7] grown) 22 [0; 0] [] = lookup grown 22 [0; 0] [].
Proof.
  split; [vm_compute; reflexivity|].
  refine (lookups_consistent (eq (key 3)) 22 [] grown (Some (extended 22 [key 7] grown)) [0; 0] grown_wf _).
  by apply (step_extend _ _ _ _ (key 3)).
Defined.

(** ** The address of a closed table, were hashes to collide *)

Fixpoint banks (n : nat) (slot : Slot) : list (Slot * Hash) :=
  match n with O => [] | S n => (slot + Z.of_nat n, key 9) :: banks n slot end.

Lemma banks_slots n slot x : x ∈ banks n slot -> slot <= fst x < slot + Z.of_nat n.
Proof.
  induction n as [|n IH]; simpl; [by intros ?%elem_of_nil|].
  intros [->|H]%elem_of_cons; [simpl; lia|]. specialize (IH H). lia.
Qed.

Lemma banks_newest n slot : newest_first (banks n slot).
Proof.
  induction n as [|n IH]; [intros i j x y _ Hi; done|]. cbn [banks]. apply newest_first_cons. split; [done|].
  intros y Hy%banks_slots. simpl. lia.
Qed.

Definition close_history : list (Slot * Hash) := [] ++ banks 512 22 ++ (21, key 9) :: [] ++ [(20, key 9)].

Lemma close_history_banks : close_history = banks 514 20.
Proof. vm_compute. reflexivity. Qed.

Definition first_run : InvokeContext := creating 20 (slot_hashes_of [(20, key 9)]).
Definition second_run : InvokeContext := creating 533 (slot_hashes_of close_history).

Lemma table_not_recreated_witness :
  exists authority authority',
    authority ∈ account_keys (transaction_context first_run) /\ authority' ∈ account_keys (transaction_context second_run) /\
    20 < 21 /\ 20 <> 533 /\
    let x := pda_input [authority; le_bytes 8 20; [255]] (key 60) in
    let y := pda_input [authority'; le_bytes 8 533; [255]] (key 60) in
    x <> y /\ sha256 x = sha256 y.
Proof.
  refine (table_not_recreated table_invoke [(20, key 9)] [] (banks 512 22) [] 21 600 (key 9)
    (set_deactivation_slot 21 (LookupTableMeta_new (key 3))) (table_ic 0 (create_data 20)) (table_ic 0 (create_data 533))
    (mkInstructionAccount 0 0 0 false true) (mkInstructionAccount 0 0 0 false true) 20 533 255 255 (key 77)
    first_run (final (create_lookup_table table_invoke 20 255) first_run)
    second_run (final (create_lookup_table table_invoke 533 255) second_run)
    _ _ _ _ _ _ _ _ _ _ _ _ _ _ _ _).
  - change (newest_first close_history). rewrite close_history_banks. apply banks_newest.
  - change (Forall (fun x => in_range U64 (fst x)) close_history). rewrite close_history_banks, list.Forall_forall.
    intros x Hx%banks_slots. unfold in_range. simpl in *. lia.
  - refine (bool_decide_unpack _ _). vm_compute. exact I.
  - refine (bool_decide_unpack _ _). vm_compute. exact I.
  - apply table_running.
  - reflexivity.
  - reflexivity.
  - reflexivity.
  - vm_compute. reflexivity.
  - reflexivity.
  - vm_compute. reflexivity.
  - apply table_running.
  - reflexivity.
  - reflexivity.
  - reflexivity.
  - vm_compute. reflexivity.
Defined.

(** ** A message that extends the table *)

Definition extend_ix : Instruction :=
  mkInstruction (key 60) [mkAccountMeta (key 77) false true; mkAccountMeta (key 3) true false;
    mkAccountMeta (key 1) true true; mkAccountMeta (key 0) false false] (le_bytes 4 2 ++ le_bytes 8 1 ++ key 8).

Definition extend_message : SanitizedMessage :=
  get_ok (SanitizedLegacy (mkLegacyMessage empty_message []))
    (Sanitized.try_from_legacy_message
       (get_ok empty_message (Legacy.new_with_blockhash [extend_ix] (Some (key 1)) (key 9)))).

Definition table_account : AccountSharedData :=
  mkAccount 1000 (get_ok [] (serialize_for_tests new_table)) (key 60) false 0.

Definition message_tc : TransactionContext :=
  TransactionContext_new [(key 1, wallet 10000000); (key 3, wallet 10); (key 77, table_account);
    (key 0, program); (key 60, program)] Rent_default 5 64.

Definition extend_run :=
  process_message table_programs (fun _ => false) 6 extend_message [[4]] message_tc (table_env 21 [(20, key 9)]) 100000 0.
Definition after_extend : InvokeContext := (snd extend_run).1.

#[local] Instance table_programs_within : ProgramsWithin table_programs.
Proof. intros id f. unfold table_programs. repeat case_bool_decide; intros [= <-]; apply _. Qed.

Lemma message_loaded : loaded TableCustody.table_programs message_tc.
Proof.
  intros j k Hk [Hj H]%vec_get_Some. destruct (Z.to_nat j) as [|[|[|[|[|n]]]]] eqn:Hn; vm_compute in H; simplify_eq;
    try (exfalso; revert Hk; refine (bool_decide_unpack _ _); vm_compute; exact I).
  - replace j with 3 by lia. by exists program.
  - replace j with 4 by lia. by exists program.
Qed.

Lemma message_apart : instructions_apart (key 60) message_tc.
Proof. intros j a [_ H]%vec_get_Some. destruct (Z.to_nat j) as [|[|[|[|[|n]]]]]; by vm_compute in H. Qed.

Lemma new_table_wf_now : table_wf 21 new_table.
Proof. by apply new_table_wf. Qed.

Lemma message_keeps_tables_witness :
  let signers := signs_in (transaction_context after_extend) (traced (transaction_context after_extend)) in
  (account_at (transaction_context after_extend) 2 ≫= table_of) = Some grown /\
  exists a', account_at (transaction_context after_extend) 2 = Some a' /\ acc_owner a' = key 60 /\
    ((exists t', table_of a' = Some t' /\ evolves signers 21 new_table 21 t' /\
        forall indexes, lookup t' 21 indexes [(20, key 9)] = lookup new_table 21 indexes [(20, key 9)]) \/
     (table_step signers 21 [(20, key 9)] new_table None /\ acc_data a' = [] /\
        forall indexes, lookup new_table 21 indexes [(20, key 9)] = Err LookupTableAccountNotFound)).
Proof.
  intros signers. split; [vm_compute; reflexivity|].
  refine (message_keeps_tables table_programs _ _ _ (fun _ => false) 6 extend_message [[4]] message_tc
    (table_env 21 [(20, key 9)]) (mkClock 21 0 7 8 1000) [(20, key 9)] 100000 0 (snd extend_run).2 after_extend
    2 table_account new_table _ _ message_loaded message_apart _ eq_refl eq_refl _ eq_refl _ new_table_wf_now).
  - unfold table_programs. by rewrite bool_decide_true.
  - unfold table_programs. rewrite bool_decide_false by (vm_compute; discriminate). by rewrite bool_decide_true.
  - vm_compute. discriminate.
  - apply TransactionContext_new_stack_ok; vm_compute; split; discriminate || reflexivity.
  - split; [|vm_compute; discriminate]. refine (bool_decide_unpack _ _). vm_compute. exact I.
  - constructor; [|constructor]. split; [split; [split|]|].
    + refine (bool_decide_unpack _ _). vm_compute. exact I.
    + vm_compute. discriminate.
    + vm_compute. discriminate.
    + by intros j [= <-].
  - vm_compute. reflexivity.
  - vm_compute. reflexivity.
Defined.

(** ** A bank that registers its programs

    A bank with a squatter at the address of the lookup table program: the
    registration burns it and makes the accounts of the programs. *)

From S2P Require Import BTreeMap VoteState Votes VoteProgram StakeState ConfigProgram StakeProgram BankPrograms ConfigDemo.

#[local] Existing Instances table_curve table_ids table_cast table_state_codec table_instructions system_codec.

#[local] Instance bank_ids : BuiltinIds := {|
  compute_budget_id := key 160; zk_token_proof_program_id := key 161; loader_v4_id := key 162;
  secp256k1_program_id := key 163; ed25519_program_id := key 164;
  zk_token_sdk_enabled := key 165; enable_program_runtime_v2_and_loader_v4 := key 166;
|}.

#[local] Instance bank_loaders : Loaders := {|
  bpf_loader_entrypoint := forwarder; zk_token_proof_entrypoint := forwarder; loader_v4_entrypoint := forwarder;
|}.

(** An account at the address of the lookup table program, and a wallet. *)
Definition squatted : Bank :=
  mkBank {[key 60 := mkAccount 7 [1; 2] (key 5) false 0; key 1 := wallet 100]} 107 0 false (mkFeatureSet {[key 165 := 40]} ∅) ∅ [].

Definition started : Bank := final (finish_init ∅ []) squatted.

Lemma squatted_total : balanced squatted.
Proof. vm_compute. reflexivity. Qed.

Lemma squatted_account k a : bank_accounts squatted !! k = Some a -> a = mkAccount 7 [1; 2] (key 5) false 0 \/ a = wallet 100.
Proof.
  unfold squatted. cbn [bank_accounts]. rewrite lookup_insert_Some, lookup_singleton_Some. naive_solver.
Qed.

(** Twelve accounts are made, and the squatter's seven lamports are gone.  The proof
    program, whose feature is active from slot 40 on, is registered; the fourth
    loader is not. *)
Lemma bank_registers_programs_witness :
  capitalization started = 112 /\ bank_accounts started !! key 162 = None /\
  exists b', finish_init ∅ [] squatted = (Ok tt, b') /\
    registered (key 60) 0 TableProcessor.lookup_table_builtin b' /\ registered (key 161) 40 forwarder b' /\ balanced b'.
Proof.
  split; [vm_compute; reflexivity|]. split; [vm_compute; reflexivity|].
  destruct (bank_registers_programs ∅ [] squatted) as (b' & Hr & Hb & _ & _ & _ & Hbal).
  - reflexivity.
  - intros k a [->| ->]%squatted_account; vm_compute; discriminate.
  - intros k a (x & [->| ->]%squatted_account & H)%bind_Some Ho; vm_compute in H; simplify_eq; vm_compute in Ho; discriminate.
  - constructor.
  - exists b'. split; [exact Hr|]. split_and!; [| |apply Hbal, squatted_total].
    + apply (Hb (mkBuiltinPrototype None (key 60) "address_lookup_table_program" TableProcessor.lookup_table_builtin)); [|done].
      unfold BUILTINS. simpl. do 8 right. left.
    + apply (Hb (mkBuiltinPrototype (Some (key 165)) (key 161) "zk_token_proof_program" forwarder)); [|vm_compute; reflexivity].
      unfold BUILTINS. simpl. do 9 right. left.
Defined.

Definition added : Bank := final (add_builtin_account "address_lookup_table_program" (key 60) false) squatted.

Lemma add_builtin_account_idempotent_witness :
  add_builtin_account "address_lookup_table_program" (key 60) false added = (Ok tt, added).
Proof. apply (add_builtin_account_idempotent _ _ _ squatted added). vm_compute. reflexivity. Defined.
