(* ===== verification/LockDemo.v ===== *)
(** * Batches on banks

    The transactions of two payers read the same program and are locked together,
    a second transaction of the first payer is not; then one of them fails and the
    batches are dropped. The second part is a transaction that is sent twice. *)

From S2P Require Import Prelude Errors Rent Account BTreeMap Pubkey Sysvars EpochSchedule Nonce TransactionContext SystemProgram SystemDemo InvokeContext Message MessageRules MessageProcessor InvokeDemo AccountLocks LockRules.

(** A transaction with payer [payer] that calls the program with key 50. *)
Definition paid_by (payer : Z) : SanitizedTransaction :=
  mkSanitizedTransaction
    (SanitizedLegacy (mkLegacyMessage
       (Legacy.mkMessage (mkMessageHeader 1 0 1) [key payer; key 50] (key 9) [mkCompiledInstruction 1 [0] []])
       [true; false])) (key 9) false [].

Definition get_batch (o : Outcome Empty_set TransactionBatch) : TransactionBatch := get_ok (mkTransactionBatch [] [] false) o.

Definition run_batch (m : LocksM Empty_set TransactionBatch) (L : AccountLocks) : TransactionBatch * AccountLocks :=
  (get_batch (fst (m L)), snd (m L)).

(** The second transaction has the account of the first. *)
Definition first_batch := run_batch (prepare_sanitized_batch [paid_by 1; paid_by 1; paid_by 2] MAX_TX_ACCOUNT_LOCKS) AccountLocks_default.
Definition second_batch := run_batch (prepare_sanitized_batch [paid_by 3; paid_by 2] MAX_TX_ACCOUNT_LOCKS) (snd first_batch).
Definition shed_batch :=
  run_batch (unlock_failures (fst first_batch)
    [Ok tt; Err TransactionError.AccountInUse; Err TransactionError.AlreadyProcessed]) (snd second_batch).

Lemma shed_reached :
  rtc sched_step (AccountLocks_default, []) (snd shed_batch, [fst second_batch; fst shed_batch]).
Proof.
  eapply rtc_l; [apply (sched_prepare [paid_by 1; paid_by 1; paid_by 2] MAX_TX_ACCOUNT_LOCKS _ (snd first_batch) [] (fst first_batch));
    vm_compute; [done|reflexivity]|].
  eapply rtc_l; [apply (sched_prepare [paid_by 3; paid_by 2] MAX_TX_ACCOUNT_LOCKS _ (snd second_batch) _ (fst second_batch));
    vm_compute; [done|reflexivity]|].
  eapply rtc_l; [|apply rtc_refl].
  apply (sched_unlock_failures [Ok tt; Err TransactionError.AccountInUse; Err TransactionError.AlreadyProcessed]
    (snd second_batch) (snd shed_batch) [fst second_batch] (fst first_batch) (fst shed_batch) []).
  vm_compute. reflexivity.
Qed.

(** The transactions of payers 3 and 1 hold their locks. *)
Lemma batches_never_conflict_witness :
  lock_results (fst first_batch) = [Ok tt; Err TransactionError.AccountInUse; Ok tt] /\
  lock_results (fst second_batch) = [Ok tt; Err TransactionError.AccountInUse] /\
  apart (mkTransactionAccountLocks [key 50] [key 3]) (mkTransactionAccountLocks [key 50] [key 1]) /\
  exists L', drop_batch (fst shed_batch) (snd shed_batch) = (Ok tt, L').
Proof.
  destruct (batches_never_conflict (snd shed_batch) [fst second_batch; fst shed_batch] shed_reached) as (Ha & Hd & _).
  split_and!; [vm_compute; reflexivity|vm_compute; reflexivity| |by apply (Hd [fst second_batch] _ [])].
  by apply (Ha 0%nat 1%nat); [|vm_compute; reflexivity..].
Defined.

(** Payer 2 was unlocked with the failed transaction; payer 1 still holds its lock. *)
Lemma locked_iff_apart_witness :
  (exists L', lock_accounts [paid_by 2] MAX_TX_ACCOUNT_LOCKS (snd shed_batch) = (Ok [Ok tt], L')) /\
  lock_accounts [paid_by 1] MAX_TX_ACCOUNT_LOCKS (snd shed_batch) = (Ok [Err TransactionError.AccountInUse], snd shed_batch).
Proof.
  pose proof (fun p H => locked_iff_apart (snd shed_batch) _ (paid_by p) MAX_TX_ACCOUNT_LOCKS shed_reached H) as H.
  split.
  - destruct (H 2 eq_refl) as [(_ & L' & HL & _)|[_ HL]]; [by exists L'|]. vm_compute in HL. discriminate.
  - destruct (H 1 eq_refl) as [(_ & L' & HL & _)|[_ HL]]; [|exact HL]. vm_compute in HL. discriminate.
Defined.

(** ** A transaction that is sent twice

    A payer's transaction is committed in the genesis block. In the next block it
    comes again, with another payer's transaction: the check refuses the first and
    admits the second, and the block becomes the root. *)

From S2P Require Import RollingBits StatusCache BankForks OnceRules ProcessedOnce.

(** ** Steps as functions *)

Definition sent_by (payer : Z) : SanitizedTransaction :=
  mkSanitizedTransaction (st_message (paid_by payer)) (key payer) false [replicate 64 payer].

Definition demo_genuine (tx : SanitizedTransaction) : Prop := tx ∈ [sent_by 1; sent_by 2].

Definition demo_ancestors : Ancestors := get_ok (mkRollingBitField 0 0 0 ∅ 0 ∅) (Ancestors_from [0]).
Definition demo_bank : ForkBank := genesis_bank 0 (key 9) 5000 1 ∅ demo_ancestors.
Definition bank_at (k : Slot) (w : World) : ForkBank := default demo_bank (banks (w_forks w) !! k).
Definition trail_at (k : Slot) (w : World) : Trail :=
  default (mkTrail [] [] [] [] AccountLocks_default) (w_trails w !! k).
Definition flight_at (k : Slot) (w : World) : Flight :=
  default (mkFlight (mkTransactionBatch [] [] false) None) (head (flights (trail_at k w))).

Definition present (k : Slot) (w : World) : bool :=
  bool_decide (is_Some (banks (w_forks w) !! k)) && bool_decide (is_Some (w_trails w !! k)).

Lemma present_lookup k w :
  present k w = true -> banks (w_forks w) !! k = Some (bank_at k w) /\ w_trails w !! k = Some (trail_at k w).
Proof.
  unfold present, bank_at, trail_at. rewrite andb_true_iff, !bool_decide_eq_true. by intros [[b ->] [t ->]].
Qed.

(** The latest batch of a bank. *)
Definition flying (k : Slot) (w : World) : bool := present k w && negb (bool_decide (flights (trail_at k w) = [])).

Lemma flying_lookup k w :
  flying k w = true -> banks (w_forks w) !! k = Some (bank_at k w) /\ w_trails w !! k = Some (trail_at k w) /\
    flights (trail_at k w) = [] ++ flight_at k w :: tail (flights (trail_at k w)).
Proof.
  unfold flying, flight_at. rewrite andb_true_iff, negb_true_iff, bool_decide_eq_false. intros [[Hb Ht]%present_lookup Hf].
  split_and!; [done|done|]. by destruct (flights (trail_at k w)).
Qed.

Lemma is_ok_get {E A} (d : A) (o : Outcome E A) : is_ok o = true -> o = Ok (get_ok d o).
Proof. by destruct o. Qed.

Definition prepared (k : Slot) (txs : list SanitizedTransaction) (w : World) : World :=
  let t := trail_at k w in
  let r := run_batch (prepare_sanitized_batch txs MAX_TX_ACCOUNT_LOCKS) (trail_locks t) in
  set_trail k (with_flights (mkFlight (fst r) None :: flights t) (snd r) t) w.

Definition checks_at (k : Slot) (w : World) : Outcome Empty_set (list TransactionCheckResult) :=
  check_transactions (bank_at k w) (sanitized_txs (fl_batch (flight_at k w))) (lock_results (fl_batch (flight_at k w)))
    MAX_PROCESSING_AGE (w_cache w).

Definition checked (k : Slot) (w : World) : World :=
  let t := trail_at k w in
  set_trail k (with_flights (mkFlight (fl_batch (flight_at k w)) (Some (get_ok [] (checks_at k w))) :: tail (flights t))
    (trail_locks t) t) w.

(** Every transaction that passed the checks is executed. *)
Definition results_of (checks : list TransactionCheckResult) : list TransactionExecutionResult :=
  (fun c => match fst (fst c) with Ok _ => Executed (Ok tt) | Err e => NotExecuted e | Panic => NotExecuted TransactionError.AccountInUse end)
    <$> checks.

Definition checks_of (k : Slot) (w : World) : list TransactionCheckResult := default [] (fl_checks (flight_at k w)).

Definition cache_after (k : Slot) (w : World) : Outcome Empty_set BankStatusCache :=
  let txs := sanitized_txs (fl_batch (flight_at k w)) in
  commit_transactions (bank_at k w) txs (results_of (checks_of k w)) ((fun _ => (3, 4)) <$> txs) (w_cache w).

Definition commits_of (k : Slot) (w : World) : list Commit :=
  reverse (omap (commit_of k)
    (zip (zip (sanitized_txs (fl_batch (flight_at k w))) (results_of (checks_of k w))) (checks_of k w))).

Definition recorded_at (k : Slot) (w : World) : World :=
  let t := trail_at k w in
  set_cache (get_ok StatusCache_default (cache_after k w)) (set_trail k (with_committed (commits_of k w ++ committed t)
    (with_flights (mkFlight (fl_batch (flight_at k w)) None :: tail (flights t)) (trail_locks t) t)) w).

Definition ticked (k : Slot) (hash : Hash) (w : World) : World :=
  let b := bank_at k w in let t := trail_at k w in
  set_bank k (get_ok b (register_tick 0 hash b)) (set_trail k
    (with_registered (if is_block_boundary (tick_height b + 1) b then hash :: registered t else registered t) t) w).

Definition born (k slot : Slot) (w : World) : Outcome Empty_set (ForkBank * gmap Slot ForkBank) :=
  new_from_parent (bank_at k w) slot 5000 ∅ (banks (w_forks w)).
Definition child_of (k slot : Slot) (w : World) : ForkBank * gmap Slot ForkBank := get_ok (demo_bank, ∅) (born k slot w).
Definition grown (k slot : Slot) (w : World) : Outcome Empty_set BankForks :=
  forks_insert (fst (child_of k slot w)) (with_banks (snd (child_of k slot w)) (w_forks w)).

Definition forked (k slot : Slot) (w : World) : World :=
  let t := trail_at k w in
  mkWorld (get_ok (w_forks w) (grown k slot w)) (w_cache w)
    (<[slot := mkTrail (slot :: lineage t) (committed t) (registered t) [] AccountLocks_default]> (w_trails w)).

Definition rooting_at (root : Slot) (w : World) : Outcome Empty_set (BankForks * BankStatusCache) :=
  set_root root [] None (w_forks w) (w_cache w).
Definition rooted_at (root : Slot) (w : World) : World :=
  let r := get_ok (w_forks w, w_cache w) (rooting_at root w) in mkWorld (fst r) (snd r) (w_trails w).

Abbreviation demo_step := (world_step demo_genuine).

Lemma prepared_step k txs w :
  Forall demo_genuine txs -> present k w = true ->
  (in_flight (batches (flights (trail_at k w))) + vec_len txs <=? int_max U64) = true ->
  is_ok (fst (prepare_sanitized_batch txs MAX_TX_ACCOUNT_LOCKS (trail_locks (trail_at k w)))) = true ->
  demo_step w (prepared k txs w).
Proof.
  intros Hg [Hb Ht]%present_lookup Hn%Z.leb_le Hok. eapply ws_prepare; [exact Hb|exact Ht|exact Hg|exact Hn|].
  unfold run_batch, get_batch. simpl. rewrite <- (is_ok_get _ _ Hok). apply surjective_pairing.
Qed.

Lemma checked_step k w : flying k w = true -> is_ok (checks_at k w) = true -> demo_step w (checked k w).
Proof.
  intros (Hb & Ht & Hf)%flying_lookup Hok. by eapply (ws_check _ w k _ _ []); [exact Hb|exact Ht|exact Hf|apply is_ok_get].
Qed.

Lemma recorded_step k w :
  flying k w = true -> bool_decide (is_Some (fl_checks (flight_at k w))) = true -> is_ok (cache_after k w) = true ->
  demo_step w (recorded_at k w).
Proof.
  intros (Hb & Ht & Hf)%flying_lookup [c Hc]%bool_decide_eq_true Hok.
  assert (fl_checks (flight_at k w) = Some (checks_of k w)) as Hcs by (unfold checks_of; by rewrite Hc).
  eapply (ws_commit _ w k _ _ []); [exact Hb|exact Ht|exact Hf|exact Hcs| | | |by apply is_ok_get].
  - unfold results_of. intros i status x Hi Hx. rewrite list_lookup_fmap, Hx in Hi. by destruct x as [[[]] ?].
  - by rewrite length_fmap.
  - apply list.Forall_fmap, list.Forall_true. simpl. lia.
Qed.

Lemma ticked_step k hash w :
  present k w = true -> (tick_height (bank_at k w) <? int_max U64) = true ->
  (last_hash_index (blockhash_queue (bank_at k w)) <? int_max U64) = true ->
  bool_decide (hash ∈ c_blockhash <$> committed (trail_at k w)) = false ->
  is_ok (register_tick 0 hash (bank_at k w)) = true -> demo_step w (ticked k hash w).
Proof.
  intros [Hb Ht]%present_lookup H1%Z.ltb_lt H2%Z.ltb_lt Hn%bool_decide_eq_false Hok.
  eapply ws_tick; [exact Hb|exact Ht|exact H1|exact H2|exact Hn|by apply is_ok_get].
Qed.

Lemma forked_step k slot w :
  present k w = true -> (forks_root (w_forks w) <=? k) && is_complete (bank_at k w) && (k <? slot) &&
    (slot + ANCESTORS_HASH_MAP_SIZE <? int_max U64) && ((slot + 1) * ticks_per_slot (bank_at k w) <=? int_max U64) = true ->
  is_ok (born k slot w) = true -> is_ok (grown k slot w) = true -> demo_step w (forked k slot w).
Proof.
  intros [Hb Ht]%present_lookup. rewrite !andb_true_iff, !Z.leb_le, !Z.ltb_lt. intros [[[[H1 H2] H3] H4] H5] Hborn Hgrown.
  eapply (ws_new_bank _ w k _ _ slot 5000 ∅ (fst (child_of k slot w)) (snd (child_of k slot w)));
    [exact Hb|exact Ht|done..| |by apply is_ok_get].
  rewrite <- surjective_pairing. by apply is_ok_get.
Qed.

Lemma rooted_step root w :
  (forks_root (w_forks w) <=? root) && bool_decide (is_Some (banks (w_forks w) !! root)) = true ->
  is_ok (rooting_at root w) = true -> demo_step w (rooted_at root w).
Proof.
  rewrite andb_true_iff, Z.leb_le, bool_decide_eq_true. intros [Hr Hb] Hok.
  eapply (ws_set_root _ w root [] None); [done|done|constructor|]. rewrite <- surjective_pairing. by apply is_ok_get.
Qed.

(** ** The run *)

Definition world0 : World := genesis_world (key 9) demo_bank.
Definition world1 : World := recorded_at 0 (checked 0 (prepared 0 [sent_by 1] world0)).
Definition world2 : World := forked 0 1 (ticked 0 (key 60) world1).
Definition world3 : World := checked 1 (prepared 1 [sent_by 1; sent_by 2] world2).
Definition world4 : World := rooted_at 1 (ticked 1 (key 61) (recorded_at 1 world3)).

Lemma world4_reached : rtc demo_step world0 world4.
Proof.
  eapply rtc_l; [apply (prepared_step 0 [sent_by 1]); [apply list.Forall_forall; set_solver|vm_compute; reflexivity..]|].
  eapply rtc_l; [apply (checked_step 0); vm_compute; reflexivity|].
  eapply rtc_l; [apply (recorded_step 0); vm_compute; reflexivity|].
  eapply rtc_l; [apply (ticked_step 0 (key 60)); vm_compute; reflexivity|].
  eapply rtc_l; [apply (forked_step 0 1); vm_compute; reflexivity|].
  eapply rtc_l; [apply (prepared_step 1 [sent_by 1; sent_by 2]); [apply list.Forall_forall; set_solver|vm_compute; reflexivity..]|].
  eapply rtc_l; [apply (checked_step 1); vm_compute; reflexivity|].
  eapply rtc_l; [apply (recorded_step 1); vm_compute; reflexivity|].
  eapply rtc_l; [apply (ticked_step 1 (key 61)); vm_compute; reflexivity|].
  eapply rtc_l; [apply (rooted_step 1); vm_compute; reflexivity|]. apply rtc_refl.
Qed.

Lemma demo_genuine_cases tx : demo_genuine tx -> tx = sent_by 1 \/ tx = sent_by 2.
Proof. unfold demo_genuine. set_solver. Qed.

(** The transaction that comes again is refused; of the two that the fork
    committed the later is not the earlier. *)
Lemma processed_once_witness :
  fst <$> (fst <$> checks_of 1 world3) = [Err TransactionError.AlreadyProcessed; Ok tt] /\
  committed (trail_at 1 world4) = [mkCommit 1 (key 9) (key 2) true; mkCommit 0 (key 9) (key 1) true] /\
  ~ same_transaction (mkCommit 1 (key 9) (key 2) true) (mkCommit 0 (key 9) (key 1) true).
Proof.
  split_and!; [vm_compute; reflexivity|vm_compute; reflexivity|].
  eapply (processed_once demo_genuine) with (now := 0) (hash := key 9) (fee := 5000) (tps := 1) (state := ∅)
    (ancestors := demo_ancestors) (w := world4) (k := 1) (b := bank_at 1 world4) (t := trail_at 1 world4) (newer := []) (older := [_]).
  - by intros tx tx' [->| ->]%demo_genuine_cases [->| ->]%demo_genuine_cases.
  - by intros tx [->| ->]%demo_genuine_cases.
  - intros tx [->| ->]%demo_genuine_cases; (split; [done|by eexists _, _]).
  - done.
  - vm_compute. reflexivity.
  - exact world4_reached.
  - vm_compute. reflexivity.
  - vm_compute. reflexivity.
  - vm_compute. congruence.
  - vm_compute. reflexivity.
  - done.
  - by apply list_elem_of_singleton.
Defined.

(** ** Sets of slots and queues of hashes *)

(** The older slot leaves the window of the bits and is in the excess. *)
Lemma rolling_field_refines_witness :
  exists a, Ancestors_from [1; 100000] = Ok a /\ contains a 1 = true /\ contains a 100000 = true /\ contains a 2 = false /\
    exists a', field_remove 1 a = (true, a') /\ represents a' {[100000]}.
Proof.
  destruct (ancestors_represent [1; 100000]) as (a & Ha & Hr); [repeat constructor; done|].
  destruct (rolling_field_refines a _ Hr) as (Hc & _ & Hrm & _). exists a. rewrite !Hc. split_and!; [done..|].
  destruct (Hrm 1) as (a' & -> & Hr'). exists a'. split; [done|].
  by replace ({[100000]} : gset Z) with (list_to_set [1; 100000] ∖ {[1]} : gset Z) by (vm_compute; reflexivity).
Defined.

(** The genesis hash and those of two blocks. *)
Definition demo_genesis : HashEntry := mkHashEntry 0 (key 60) 5000.
Definition demo_blocks : list HashEntry := [mkHashEntry 1 (key 61) 5000; mkHashEntry 2 (key 62) 5000].

Lemma blockhash_valid_exact_witness :
  is_hash_valid_for_age (registered_queue 1 demo_genesis demo_blocks) (key 61) 1 = true /\
  is_hash_valid_for_age (registered_queue 1 demo_genesis demo_blocks) (key 61) 0 = false /\
  is_hash_valid_for_age (registered_queue 1 demo_genesis demo_blocks) (key 60) 1 = false /\
  is_hash_valid_for_age (registered_queue 1 demo_genesis (demo_blocks ++ [demo_genesis])) (key 60) 0 = true.
Proof.
  split_and!.
  - apply blockhash_valid_exact; [done..|]. by exists [key 60], [key 62].
  - vm_compute. reflexivity.
  - vm_compute. reflexivity.
  - apply blockhash_valid_exact; [done..|]. by exists [key 60; key 61; key 62], [].
Defined.
